(* ===== verification/_CoqProject ===== *)
-Q . S2P
Prelude.v
Utils.v
File.v
RecordBase.v
Records.v
SampleRecord.v
SampleEdit.v
ChainEdit.v
RecordRead.v
RecordCache.v
Maps.v
KernelSymbols.v
Dso.v
ThreadTree.v
LRUCache.v
CallChainJoiner.v
SampleComparator.v
CallChain.v
SampleTree.v
Report.v
EventAttr.v
RecordFileWriter.v
RecordFileReader.v
RecordFile.v
FileFeatures.v
UnixSocket.v
Ext4Base.v
Ext4Crc.v
Ext4Allocate.v
Ext4Bitmap.v
Ext4Blocks.v
Ext4Use.v
Ext4Lists.v
Ext4Alloc.v
Ext4Reduce.v
Ext4Init.v
Ext4Safety.v
Ext4BestFit.v
Ext4Inode.v
Ext4Extent.v
Ext4Tree.v
Ext4Dir.v
Ext4Xattr.v
Ext4Indirect.v
Ext4Resize.v
Sha1.v
FecBase.v
FecRead.v
FecEcc.v
FecInstances.v
FecProcess.v
FecVerity.v
FecOpen.v
FecImage.v
FecCodes.v
FecLoad.v
FecDecode.v
VerityTree.v
VerityLevels.v
FecTree.v
FecSafe.v
FecGap.v
MemLine.v
MemReplay.v
MemInv.v
MemWorker.v
MemMain.v
MemSafe.v
MemEnd.v
ConfigReader.v
