(* ===== verification/Prelude.v ===== *)
(** A verification development for five programs of the repository: simpleperf,
    the profiler in src/simpleperf; ext4_utils, which builds file system images,
    in src/ext4_utils; error correction and verification of images, in src/libfec
    and src/verity; memory_replay, which replays recorded allocations, in
    src/memory_replay; and the configuration of the daemon perfprofd, in
    src/perfprofd.

    * The programs

    simpleperf records samples of running programs through the perf interface
    of the kernel and reports them.  The kernel delivers records in a binary
    format; simpleperf parses them, edits some of them in place, orders them by
    time, writes them to a file and reads them back.  For a report, records
    about threads and memory maps update a tree of threads, each address of a
    sample is resolved through the maps of its thread to a symbol of a library,
    samples are grouped, and their call chains are collected in call graphs.
    When stacks were recorded only in part, the call chains of a thread are
    joined with each other first.

    ext4_utils lays out an ext4 file system and fills it with files.  The sizes
    of the file system give its parameters and its block groups; the allocator
    keeps for each group a bitmap of blocks, a bitmap of inodes, and the chunks
    of blocks in use between which it searches holes; an allocation is a linked
    list of regions, from which a file takes its blocks and writes them as
    extents, or as direct and indirect blocks, into its inode or into a block.
    Directories and extended attributes are filled in behind it, and the UUID of
    the file system is a SHA-1 digest.

    The fec tool computes Reed-Solomon codes for an image and corrects an image
    with them; build_verity_tree computes the hash tree of an image.  The bytes
    of a codeword are spread over the image, so that a damaged block costs each
    codeword one byte.  libfec opens an image with codes and a tree behind it,
    finds them, checks the tree against its root hash, and reads the image,
    checking blocks against their hashes and correcting those that are damaged,
    on several threads.

    memory_replay reads a dump of allocations line by line and repeats them: the
    main thread hands each line to the worker thread of the recorded thread, and
    the workers keep the memory in a lock-free table, keyed by the recorded
    addresses.  perfprofd reads its settings from a text and checks their ranges.

    * The files

    - Prelude.v (this file): outcomes of C++ code ([res]: a normal return, a
      failed [CHECK], an access outside an object), machine integers, byte
      strings and memory, with the lemmas and tactics the other files share.
    - Utils.v (utils.h, utils.cpp, build_id.h): object representations
      ([codec]), reading and writing them, alignment, the string arena, build
      ids.
    - File.v: the part of <stdio.h> that the sources use on regular files.
    - RecordBase.v, Records.v (record.h, record.cpp): headers, sample ids, and
      all record types but samples: a parsing and a building constructor each.
    - SampleRecord.v, SampleEdit.v, ChainEdit.v (record.h, record.cpp):
      [SampleRecord]; the definitions in the first file, theorems about parsing
      and the edits that move data in the second, about those of the call chain
      in the third.
    - RecordRead.v, RecordCache.v (record.cpp): splitting a buffer into
      records; the queue that orders records by time.
    - Maps.v (thread_tree.cpp): sets of memory maps without overlaps.
    - KernelSymbols.v (utils.cpp): the text of /proc/kallsyms.
    - Dso.v (dso.h, dso.cpp): libraries and their symbol tables.
    - ThreadTree.v (thread_tree.h, thread_tree.cpp): threads, maps, libraries,
      and symbolization; fed by the records of Records.v.
    - LRUCache.v, CallChainJoiner.v (CallChainJoiner.h, CallChainJoiner.cpp):
      the cache of call chains and the joiner around it.
    - SampleComparator.v, CallChain.v (SampleComparator.h, callchain.h): orders
      on samples and call graphs.
    - SampleTree.v (sample_tree.h, cmd_report.cpp): the builders of the report.
    - Report.v: the composition of the thread tree, the builders and the call
      graphs over a sequence of records.

    - EventAttr.v (event_attr.cpp): where the event id is in a record.
    - RecordFileWriter.v, RecordFileReader.v (record_file_format.h,
      record_file.h, record_file_writer.cpp, record_file_reader.cpp): writing
      and reading perf.data files.
    - RecordFile.v, FileFeatures.v: what is written is read back, for the file
      as a whole and for the payloads of its features.
    - UnixSocket.v (UnixSocket.h, UnixSocket.cpp): messages over a socket, with
      the interleaving of threads and of partial reads and writes.

    - Ext4Base.v (ext4_utils.c, ext4_utils.h): parameters, bitmaps, errors.
    - Ext4Crc.v (crc16.c): the checksum of group descriptors.
    - Ext4Allocate.v (allocate.c, allocate.h): block groups, chunks, regions and
      allocations; definitions only.  Regions are cells of a heap of addresses,
      linked by [next] and [prev]; the operations run in a state monad.
    - Ext4Bitmap.v, Ext4Blocks.v, Ext4Use.v: bits, the holes of a group and its
      invariant [bg_ok], the blocks of all groups that are in use.
    - Ext4Lists.v, Ext4Alloc.v, Ext4Reduce.v, Ext4Init.v: doubly linked lists of
      regions, allocating, giving back, and setting up the groups.
    - Ext4Safety.v, Ext4BestFit.v, Ext4Inode.v: the theorems about the allocator
      as a whole, its choice of holes, and inodes.
    - Ext4Extent.v, Ext4Tree.v (extent.c): files as extents; the definitions in
      the first file, the theorems in the second.
    - Ext4Dir.v (contents.c): directories and files; Ext4Xattr.v (contents.c,
      xattr.h, allocate.c): extended attributes in inodes and blocks.
    - Ext4Indirect.v (indirect.c, contents.c, ext4_utils.c): direct and indirect
      blocks, links and the resize inode; Ext4Resize.v: what is written for small
      files, and what goes wrong for larger ones.
    - Sha1.v (sha1.c, ext4_utils.c): SHA-1 and the UUID of a file system.

    - FecBase.v (libfec: io.h, ecc.h, fec_private.h): parameters, headers, the
      handle, the monad [F] of functions that change the handle or return -1,
      and the interfaces [Digest], [ReedSolomon], [Kernel], [Threads].
    - FecRead.v (fec_read.cpp, fec_process.cpp): reads with error correction and
      verification; FecEcc.v, FecProcess.v: the correction of blocks and the
      threads; FecInstances.v: concrete instances of the interfaces.
    - FecVerity.v (fec_verity.cpp), FecOpen.v (fec_open.cpp, ext4_sb.c,
      squashfs_utils.c): metadata, the hash tree, opening an image.
    - FecImage.v (verity/fec: image.h, image.cpp, main.cpp): the fec tool;
      FecCodes.v, FecLoad.v, FecDecode.v: the codes it writes, and that they are
      found and correct the image, in libfec and in the tool.
    - VerityTree.v (build_verity_tree.cpp): the tree; VerityLevels.v, FecTree.v,
      FecSafe.v, FecGap.v: its definition by levels, its verification, the
      integrity of verified reads, and where it is not kept.

    - MemLine.v (LineBuffer.cpp, Action.cpp, main.cpp): the lines of a dump.
    - MemReplay.v (Pointers.cpp, Thread.cpp, Threads.cpp, Action.cpp, main.cpp):
      the machine of the main thread and the workers; the class [Allocator].
    - MemInv.v, MemWorker.v, MemMain.v, MemSafe.v, MemEnd.v: its invariant, kept
      by the workers and the main thread; safety and refinement; termination.
    - ConfigReader.v (perfprofd: configreader.cc, config.h): the settings.

    * How the code is modelled

    A function of the source is a function of the same name.  A class is a
    record of its members; a member function takes the object and returns the
    changed one.  Pointers into an object are offsets or indices, so that a
    change of the object is seen through them; the binary of a record is a list
    of bytes.  Unsigned integers are [Z] with their wrap-around written out
    ([u64], [+u64]).  A [CHECK] that fails gives [CheckFailed], a read or write
    outside an object gives [OutOfBounds].  Memory that is not initialised is an
    argument of the function that leaves it so, and the theorems hold for every
    content.  Standard containers are lists in the order of iteration, or finite
    maps where the order does not matter; [std::sort] is insertion sort.

    Recursion that is not structural has fuel.  [None] or [OutOfBounds] is its
    exhaustion, and the theorems show that it does not happen: a thread and its
    process need two nested calls of [FindThreadOrNew]; the walk through the
    parents of a cached call chain visits each node once, as the cache is a
    forest; a record is at least as long as its header, so that a buffer of n
    bytes has no more than n records; a call chain of n frames descends n nodes
    of the call graph at most; sorting a call graph visits each node once; each
    turn of a loop that reads a file takes a header of 8 bytes, or a length,
    from it; a walk through a list of regions visits each cell of the heap at
    most once; each turn of the search for blocks takes at least one.  The loops
    of libfec read, write or copy at least one byte in each turn; a level of a
    hash tree has at most half of the blocks of the level below it, so that 64
    levels are enough; threads get fuel for as many RS blocks as their share.
    SHA1Final adds less than 64 bytes of padding; a directory entry has at least
    8 bytes, an extended attribute 16; each turn of [GetLine] reads at least one
    byte or ends; one round over the table of threads finds each of them.  The
    replay itself has no fuel: it is a step relation, and that it is well founded
    is a theorem.

    Threads of libfec and of the fec tool run one after the other in the model:
    they work on disjoint parts of the image and of the buffers.  What is outside
    (the Reed-Solomon code, SHA-256, pread64 and pwrite64, thread creation) is a
    class, whose laws are the lengths of results; [rs_corrects] (the decoder
    corrects half as many errors as there are parity bytes) and [reads_reliably]
    are named hypotheses of the theorems that need them.  The decoder overwrites
    the positions of the erasures it is given, and these go on to the next RS
    block, as in the code.

    The threads of memory_replay are interleaved: a step ends at each access to
    shared memory.  The allocator under test is a class; it returns unused memory
    or the null pointer, and [NeverNull] is a hypothesis of the theorems, because
    the code hands the result to memset ([null_memory_fails]).

    * What the theorems show

    Records: parsing what a building constructor built gives back the fields
    and the payload ([MmapRecord_roundtrip], [CallChainRecord_roundtrip], ...),
    parsing a sample gives a faithful view of its content
    ([SampleRecord_read_layout]), and the edits of a sample leave the binary of
    the edited content ([ReplaceRegAndStackWithCallChain_relayout],
    [UpdateUserCallChain_relayout], [RemoveInvalidStackData_truncates],
    [ExcludeKernelCallChain_user_only]).  A buffer splits into exactly its
    records ([ReadRecordsFromBuffer_splits]).  The cache of records hands out
    all records in the order of happening ([RecordCache_ordered]).

    Maps and symbols: a set of maps stays disjoint, and adding a map changes the
    resolution of no address outside it ([FixOverlappedMap_insert]); lookup is
    complete ([FindMapByAddr_finds], [FindSymbol_finds], [kernel_FindSymbol]);
    the thread tree runs without failure on any sequence of operations, if user
    maps are not empty ([ThreadTree_invariant]) and shares and copies maps as threads and processes
    do ([AddThreadMap_seen], [ForkThread_copies]).

    Call chains: the cache keeps its linked list, counts, forest and index
    consistent and stays within its array ([AddCallChain_safe]), completes a
    chain by what it saw before ([AddCallChain_joins]), and the joiner delivers
    every chain, completed, in order ([Joiner_end_to_end]).  A call graph is a
    map from call chains to periods ([CallChain_counts], [SortByPeriod_sorts]).

    Reports: samples are grouped by key and their periods add up
    ([InsertSample_groups]); any sequence of sane thread, map and sample records is
    processed without a failure and leaves the tree, the sample sets and the
    call graphs well formed ([Report_total]), and the sorted report lists
    exactly the samples, in order ([Report_sorted]).

    Files: a perf.data file that was written and closed is opened with the same
    attrs, ids and features, and its records are those that parsing the written
    binaries gives ([RecordFile_roundtrip]); sorted, they come in the order of
    happening ([RecordFile_sorted]).  The payloads of features parse back to
    what was written ([file_feature_roundtrip], [string_features_roundtrip]),
    and the file feature fills the thread tree ([LoadFileFeatures_all]).  The
    event id is where [GetCommonEventIdPositionsForAttrs] says
    ([EventId_positions]).

    Sockets: the receiver of a connection is handed the messages of the sender,
    whole and in order, whatever the threads and the kernel do
    ([UnixSocket_fifo]), and no operation leaves its memory
    ([UnixSocket_safe]).

    Blocks: any sequence of allocations and reductions, from a fresh file system
    on, runs without an access outside an object, hands out each block to one
    allocation at a time and keeps the bitmaps, counts and chunks in agreement
    ([allocator_safe]).  An allocation has exactly the requested number of
    blocks, which were free, or fails for want of space
    ([allocate_blocks_exact]), and reducing it by all its blocks frees them
    again ([allocate_reduce_exact]).  Marking blocks by whole bytes is marking
    them one by one ([reserve_blocks_bits]).  Which hole is taken:
    [best_fit_region].  Inode numbers are handed out in order
    ([inode_numbers]).  The extents of a file, read back from the bytes of the
    inode and the extent block, map its blocks to the allocated ones
    ([extent_tree_maps]), and so do the direct blocks of a small file
    ([direct_blocks_map]).  The bytes of a directory, and of a range of extended
    attributes, read back as the entries and attributes that were put in
    ([directory_roundtrip], [xattr_roundtrip]).  The checksum is the CRC of its
    polynomial ([ext4_crc16_spec]), and SHA-1, written out in 80 macro calls and
    fed in pieces, is that of the standard ([SHA1_correct]), from which the UUID
    is cut ([generate_sha1_uuid_bytes]).

    Images: an image whose codes the fec tool wrote is found and read back by
    libfec although the disk damaged it, as long as no codeword lost more bytes
    than half of its parity bytes ([encode_open_read], [fec_pread_corrects]), and
    the tool itself restores it and counts the damage ([decode_encoded]).  The
    tree that build_verity_tree computes in one array is the tree defined level
    by level ([build_verity_tree_reference]), libfec accepts it and reads the
    image with it ([built_tree_verified]), and a read with hashes returns only
    bytes of blocks with the right hash, whatever is on the disk
    ([fec_pread_genuine]).

    Replays: whatever the interleaving, no thread of a replay fails, and what is
    done to the allocator is a run of a map from keys to memory
    ([replay_refines], [replay_table]); every execution ends, without a deadlock
    and with nothing allocated ([replay_ends]).  [GetMaxAllocs] counts lines
    ([GetMaxAllocs_counts_lines]).

    Settings: whatever is read or overridden, all settings stay in their ranges
    ([config_in_range]); the last good assignment counts ([Read_last_wins]).

    Some theorems state behaviour that is not what the code or its comments
    mean: [SampleId_identifier_unwritten], [ExcludeKernelCallChain_identifier],
    [FixOverlappedMap_drops_flags], [ProcessKernelSymbols_empty_line],
    [can_extend_top_pair], [Update_mmap2_anon], [AddKernelMap_version],
    [attr_of_record_sample], [file_feature_roundtrip],
    [consume_loop_zero_length], [extent_block_overflow],
    [single_block_first_region], [one_full_group_refused],
    [best_fit_not_smallest], [fec_pread_unaligned], [verify_tree_one_level],
    [verify_tree_raw_hashes], [empty_maps_fail], [indirect_blocks_repeat],
    [exact_fit_unreadable], [long_piece_count], [generate_sha1_uuid_bytes],
    [key_zero_leaks], [null_memory_fails], [GetMaxAllocs_counts_lines],
    [number_wraps].

    * Not modelled

    Functions that only print ([Dump], [DumpStat], displayers), the interface to
    the kernel (perf_event_open, ioctl, procfs, libevent), option parsing, and
    the readers of ELF, apk and dex files, which are layers over libraries: they
    are the interface [DsoFiles] of Dso.v, of which nothing is assumed.  The
    offline unwinder and the demangler are arguments in SampleTree.v.  Event
    types and tracing data are not modelled.  Of ext4_utils, the superblock, the
    journal, the tools and the writing of the image are not modelled (libsparse
    is the list of the regions queued).  Of
    libfec, get_size and fec_close, which are system calls, and failures of
    memory allocation; of the tools, options, printing and output files, and the
    verifier and the key generator, which are layers over OpenSSL.  Of perfprofd,
    all but the settings is file and process handling.  The other
    programs of the repository are not modelled. *)
From stdpp Require Import base list numbers strings.
From Stdlib Require Import ZArith Lia.

(** * Outcomes of C++ code

    [Ok] is a normal return.  [CheckFailed] is a failed [CHECK*] macro of
    android-base (the process aborts).  [OutOfBounds] is an access outside
    an object: undefined behaviour, which the theorems rule out. *)

Inductive res (A : Type) : Type :=
| Ok (a : A)
| CheckFailed
| OutOfBounds.
Arguments Ok {A} a.
Arguments CheckFailed {A}.
Arguments OutOfBounds {A}.

#[export] Instance res_ret : MRet res := fun A a => Ok a.
#[export] Instance res_bind : MBind res := fun A B f m =>
  match m with Ok a => f a | CheckFailed => CheckFailed | OutOfBounds => OutOfBounds end.
#[export] Instance res_fmap : FMap res := fun A B f m =>
  match m with Ok a => Ok (f a) | CheckFailed => CheckFailed | OutOfBounds => OutOfBounds end.

(** [CHECK(b)]: continue or abort. *)
Definition CHECK (b : bool) : res unit := if b then Ok tt else CheckFailed.

Definition is_ok {A} (m : res A) : bool := match m with Ok _ => true | _ => false end.

(** * Machine integers: a w-bit unsigned integer is a [Z] in [0, 2^w). *)

Declare Scope cxx_scope.
Delimit Scope cxx_scope with cxx.
Open Scope Z_scope.

Definition u8 (x : Z) : Z := x mod 2 ^ 8.
Definition u16 (x : Z) : Z := x mod 2 ^ 16.
Definition u32 (x : Z) : Z := x mod 2 ^ 32.
Definition u64 (x : Z) : Z := x mod 2 ^ 64.

Definition is_u8 (x : Z) : Prop := 0 <= x < 2 ^ 8.
Definition is_u16 (x : Z) : Prop := 0 <= x < 2 ^ 16.
Definition is_u32 (x : Z) : Prop := 0 <= x < 2 ^ 32.
Definition is_u64 (x : Z) : Prop := 0 <= x < 2 ^ 64.

Definition UINT32_MAX : Z := 2 ^ 32 - 1.
Definition UINT64_MAX : Z := 2 ^ 64 - 1.

Notation "x +u64 y" := (u64 (x + y)) (at level 50, left associativity) : cxx_scope.
Notation "x -u64 y" := (u64 (x - y)) (at level 50, left associativity) : cxx_scope.
Notation "x *u64 y" := (u64 (x * y)) (at level 40, left associativity) : cxx_scope.
Notation "x +u32 y" := (u32 (x + y)) (at level 50, left associativity) : cxx_scope.
Notation "x -u32 y" := (u32 (x - y)) (at level 50, left associativity) : cxx_scope.
Open Scope cxx_scope.

(** * Bytes, byte strings and memory buffers *)

(** A byte is a [Z] in [0, 256); a [std::string], a [char] array and a file
    are lists of bytes. *)
Abbreviation bytes := (list Z).

Definition zlen {A} (l : list A) : Z := Z.of_nat (length l).
Definition ztake {A} (n : Z) (l : list A) : list A := take (Z.to_nat n) l.
Definition zdrop {A} (n : Z) (l : list A) : list A := drop (Z.to_nat n) l.
Definition znth {A} (l : list A) (i : Z) : option A := if i <? 0 then None else l !! Z.to_nat i.

Definition bytes_ok (b : bytes) : Prop := Forall is_u8 b.

(** Little-endian codecs, the in-memory format of the integers that the
    source copies with [memcpy]. *)
Fixpoint le_encode (n : nat) (x : Z) : bytes :=
  match n with
  | O => []
  | S n => x mod 256 :: le_encode n (x / 256)
  end.

Fixpoint le_decode (b : bytes) : Z :=
  match b with
  | [] => 0
  | x :: b => x + 256 * le_decode b
  end.

(** [memcpy] out of, and into, an object of known extent. *)
Definition mem_read (m : bytes) (p n : Z) : res bytes :=
  if (0 <=? p) && (0 <=? n) && (p + n <=? zlen m)
  then Ok (ztake n (zdrop p m)) else OutOfBounds.

Definition mem_write (m : bytes) (p : Z) (b : bytes) : res bytes :=
  if (0 <=? p) && (p + zlen b <=? zlen m)
  then Ok (ztake p m ++ b ++ zdrop (p + zlen b) m) else OutOfBounds.

(** [new char[n]]: the contents are indeterminate, so they come from the
    environment [junk]. *)
Definition new_char (junk : nat -> Z) (n : Z) : bytes :=
  (fun i => junk i mod 256) <$> seq 0 (Z.to_nat n).

(** Length of the NUL-terminated string at the head of a buffer. *)
Fixpoint strlen_list (m : bytes) : option Z :=
  match m with
  | [] => None
  | x :: m => if x =? 0 then Some 0 else Z.succ <$> strlen_list m
  end.

Definition strlen (m : bytes) (p : Z) : res Z :=
  if (0 <=? p) && (p <=? zlen m) then
    match strlen_list (zdrop p m) with Some n => Ok n | None => OutOfBounds end
  else OutOfBounds.

(** [s.c_str()] as a C string: the bytes before the first NUL. *)
Fixpoint c_str (s : bytes) : bytes :=
  match s with
  | [] => []
  | x :: s => if x =? 0 then [] else x :: c_str s
  end.

Definition strcpy (m : bytes) (p : Z) (s : bytes) : res bytes :=
  mem_write m p (c_str s ++ [0]).

(** A C string proper: bytes, none of them NUL. *)
Definition cstring_ok (s : bytes) : Prop := Forall (fun c => 0 < c < 256) s.

(** String literals of the source. *)
Definition str (s : string) : bytes :=
  (fun c => Z.of_nat (Ascii.nat_of_ascii c)) <$> String.list_ascii_of_string s.

(** * Shared tactics and hints *)

Create HintDb zlen.
Create Rewrite HintDb zlen.
Create HintDb u64.

(** Turn boolean tests of the source into facts on [Z] and split on them. *)
Ltac bool_to_prop :=
  repeat match goal with
  | H : (_ && _)%bool = true |- _ => apply andb_prop in H as [? ?]
  | H : (_ || _)%bool = false |- _ => apply orb_false_elim in H as [? ?]
  | H : (_ <? _) = true |- _ => apply Z.ltb_lt in H
  | H : (_ <? _) = false |- _ => apply Z.ltb_ge in H
  | H : (_ <=? _) = true |- _ => apply Z.leb_le in H
  | H : (_ <=? _) = false |- _ => apply Z.leb_gt in H
  | H : (_ =? _) = true |- _ => apply Z.eqb_eq in H
  | H : (_ =? _) = false |- _ => apply Z.eqb_neq in H
  | H : negb _ = true |- _ => apply negb_true_iff in H
  | H : negb _ = false |- _ => apply negb_false_iff in H
  end.

Ltac case_if :=
  match goal with
  | |- context [if ?b then _ else _] => destruct b eqn:?
  end; bool_to_prop.

Lemma CHECK_le x y : x <= y -> CHECK (x <=? y) = Ok tt.
Proof. intros H. by rewrite (proj2 (Z.leb_le _ _) H). Qed.
Lemma CHECK_lt x y : x < y -> CHECK (x <? y) = Ok tt.
Proof. intros H. by rewrite (proj2 (Z.ltb_lt _ _) H). Qed.
Lemma CHECK_eq x y : x = y -> CHECK (x =? y) = Ok tt.
Proof. intros H. by rewrite (proj2 (Z.eqb_eq _ _) H). Qed.

(** * Lemmas on lists with [Z] lengths *)

Lemma zlen_nonneg {A} (l : list A) : 0 <= zlen l.
Proof. unfold zlen; lia. Qed.
#[export] Hint Resolve zlen_nonneg : zlen.

Lemma zlen_app {A} (l k : list A) : zlen (l ++ k) = zlen l + zlen k.
Proof. unfold zlen; rewrite length_app; lia. Qed.

Lemma zlen_nil {A} : zlen (@nil A) = 0.
Proof. done. Qed.

Lemma zlen_cons {A} (x : A) l : zlen (x :: l) = 1 + zlen l.
Proof. unfold zlen; simpl length; lia. Qed.

Lemma zlen_fmap {A B} (f : A -> B) l : zlen (f <$> l) = zlen l.
Proof. unfold zlen; by rewrite length_fmap. Qed.

Lemma zlen_ztake {A} n (l : list A) : 0 <= n <= zlen l -> zlen (ztake n l) = n.
Proof. unfold zlen, ztake; rewrite length_take; lia. Qed.

Lemma zlen_zdrop {A} n (l : list A) : 0 <= n <= zlen l -> zlen (zdrop n l) = zlen l - n.
Proof. unfold zlen, zdrop; rewrite length_drop; lia. Qed.

Lemma zlen_zdrop_max {A} n (l : list A) : zlen (zdrop n l) = Z.max 0 (zlen l - Z.max 0 n).
Proof. unfold zlen, zdrop. rewrite length_drop. lia. Qed.

Lemma zlen_replicate {A} n (x : A) : zlen (replicate n x) = Z.of_nat n.
Proof. unfold zlen; by rewrite length_replicate. Qed.

#[export] Hint Rewrite @zlen_app @zlen_nil @zlen_cons @zlen_fmap @zlen_replicate : zlen.

Lemma ztake_app_exact {A} n (l k : list A) : n = zlen l -> ztake n (l ++ k) = l.
Proof. intros ->. unfold ztake, zlen. rewrite Nat2Z.id. apply take_app_length. Qed.

Lemma zdrop_app_exact {A} n (l k : list A) : n = zlen l -> zdrop n (l ++ k) = k.
Proof. intros ->. unfold zdrop, zlen. rewrite Nat2Z.id. apply drop_app_length. Qed.

Lemma ztake_zdrop {A} n (l : list A) : ztake n l ++ zdrop n l = l.
Proof. apply take_drop. Qed.

Lemma zdrop_0 {A} (l : list A) : zdrop 0 l = l.
Proof. done. Qed.

Lemma zdrop_zdrop {A} n k (l : list A) :
  0 <= n -> 0 <= k -> zdrop n (zdrop k l) = zdrop (k + n) l.
Proof.
  intros. unfold zdrop. rewrite drop_drop. f_equal. lia.
Qed.

Lemma zdrop_app_ge {A} n (l k : list A) :
  zlen l <= n -> zdrop n (l ++ k) = zdrop (n - zlen l) k.
Proof.
  intros. unfold zdrop, zlen in *. rewrite drop_app_ge by lia. f_equal. lia.
Qed.

Lemma zdrop_ge {A} n (l : list A) : zlen l <= n -> zdrop n l = [].
Proof. intros. unfold zdrop, zlen in *. apply drop_ge. lia. Qed.

Lemma ztake_all {A} n (l : list A) : n = zlen l -> ztake n l = l.
Proof. intros ->. unfold ztake, zlen. apply take_ge. lia. Qed.

Lemma zlen_new_char junk n : 0 <= n -> zlen (new_char junk n) = n.
Proof. intros. unfold new_char. rewrite zlen_fmap. unfold zlen. rewrite length_seq. lia. Qed.

(** * Lemmas on machine integers *)

Lemma u64_small x : is_u64 x -> u64 x = x.
Proof. apply Z.mod_small. Qed.
Lemma u32_small x : is_u32 x -> u32 x = x.
Proof. apply Z.mod_small. Qed.
Lemma u16_small x : is_u16 x -> u16 x = x.
Proof. apply Z.mod_small. Qed.
Lemma is_u64_u64 x : is_u64 (u64 x).
Proof. apply Z.mod_pos_bound; lia. Qed.
Lemma is_u32_u32 x : is_u32 (u32 x).
Proof. apply Z.mod_pos_bound; lia. Qed.
#[export] Hint Resolve is_u64_u64 is_u32_u32 : u64.

Ltac unfold_u := unfold is_u8, is_u16, is_u32, is_u64, UINT64_MAX, UINT32_MAX in *.

(** * Little-endian round trips *)

Lemma length_le_encode n x : length (le_encode n x) = n.
Proof. revert x; induction n as [|n IH]; intros x; simpl; [done|by rewrite IH]. Qed.

Lemma zlen_le_encode n x : zlen (le_encode n x) = Z.of_nat n.
Proof. unfold zlen. by rewrite length_le_encode. Qed.
#[export] Hint Rewrite zlen_le_encode : zlen.

Lemma le_encode_ok n x : bytes_ok (le_encode n x).
Proof.
  revert x; induction n as [|n IH]; intros x; simpl; constructor; [|apply IH].
  apply Z.mod_pos_bound; lia.
Qed.

Lemma le_decode_encode n x : le_decode (le_encode n x) = x mod 256 ^ Z.of_nat n.
Proof.
  revert x; induction n as [|n IH]; intros x.
  { cbn. by rewrite Z.mod_1_r. }
  cbn [le_encode le_decode]. rewrite IH, Nat2Z.inj_succ, Z.pow_succ_r by lia.
  rewrite Z.rem_mul_r; lia.
Qed.

Lemma le_encode_decode b : bytes_ok b -> le_encode (length b) (le_decode b) = b.
Proof.
  induction 1 as [|x b Hx _ IH]; [done|]. cbn [length le_encode le_decode].
  unfold is_u8 in Hx. rewrite (Z.mul_comm 256).
  rewrite Z.mod_add, Z.div_add, Z.div_small, Z.mod_small, Z.add_0_l, IH by lia. done.
Qed.

Lemma le_decode_bound b : bytes_ok b -> 0 <= le_decode b < 256 ^ zlen b.
Proof.
  induction 1 as [|x b Hx _ IH]; [done|]. rewrite zlen_cons, Z.pow_add_r by auto with zlen lia.
  cbn [le_decode]. unfold is_u8 in Hx. lia.
Qed.

(** * Memory *)

Lemma mem_read_app pre b post p n :
  p = zlen pre -> n = zlen b -> mem_read (pre ++ b ++ post) p n = Ok b.
Proof.
  intros -> ->. unfold mem_read. autorewrite with zlen.
  pose proof (zlen_nonneg pre); pose proof (zlen_nonneg b); pose proof (zlen_nonneg post).
  replace (_ && _ && _)%bool with true by (symmetry; rewrite !andb_true_iff, !Z.leb_le; lia).
  by rewrite zdrop_app_exact, ztake_app_exact.
Qed.

Lemma mem_write_app pre b rest p :
  p = zlen pre -> zlen b <= zlen rest ->
  mem_write (pre ++ rest) p b = Ok (pre ++ b ++ zdrop (zlen b) rest).
Proof.
  intros -> Hb. unfold mem_write. autorewrite with zlen.
  pose proof (zlen_nonneg pre).
  replace (_ && _)%bool with true by (symmetry; rewrite !andb_true_iff, !Z.leb_le; lia).
  rewrite ztake_app_exact by done. do 3 f_equal.
  rewrite zdrop_app_ge by (pose proof (zlen_nonneg b); lia). f_equal; lia.
Qed.

Lemma mem_write_len m p b m' : mem_write m p b = Ok m' -> zlen m' = zlen m.
Proof.
  unfold mem_write. case_if; [|done]. intros [= <-]. bool_to_prop.
  pose proof (zlen_nonneg b).
  autorewrite with zlen. rewrite zlen_ztake, zlen_zdrop by lia. lia.
Qed.

Lemma c_str_ok s : cstring_ok s -> c_str s = s.
Proof.
  induction 1 as [|c s Hc _ IH]; [done|]. cbn. rewrite IH.
  destruct (Z.eqb_spec c 0); [lia|done].
Qed.

Lemma strlen_list_app s rest : cstring_ok s -> strlen_list (s ++ 0 :: rest) = Some (zlen s).
Proof.
  induction 1 as [|c s Hc _ IH]; [done|]. cbn [app strlen_list].
  rewrite IH, zlen_cons. destruct (Z.eqb_spec c 0); [lia|]. cbn. f_equal. lia.
Qed.

Lemma strlen_app pre s post p :
  cstring_ok s -> p = zlen pre -> strlen (pre ++ s ++ 0 :: post) p = Ok (zlen s).
Proof.
  intros Hs ->. unfold strlen. autorewrite with zlen.
  pose proof (zlen_nonneg pre); pose proof (zlen_nonneg s); pose proof (zlen_nonneg post).
  replace (_ && _)%bool with true by (symmetry; rewrite !andb_true_iff, !Z.leb_le; lia).
  by rewrite zdrop_app_exact, strlen_list_app.
Qed.
