(* ===== verification/Utils.v ===== *)
(** Model of src/simpleperf/utils.h, utils.cpp and build_id.h: the binary-format
    helpers every record and file format is built on, [Align], the string
    arena [OneTimeFreeAllocator], [ConvertBytesToValue], [IsPowerOfTwo] and
    [BuildId].

    A C++ type of standard layout is a [codec]: its [sizeof], and the
    conversions between a value and its object representation.  The class
    [CodecOk] is what the clients of the codecs rely on: the representation
    has [sizeof] bytes and decoding inverts encoding on the values of the
    type. *)
From stdpp Require Import base list numbers strings.
From Stdlib Require Import ZArith Lia.
From S2P Require Import Prelude.

(** * [Align] *)

(** [(value + alignment - 1) & ~(alignment - 1)] on uint64_t. *)
Definition Align (value alignment : Z) : Z :=
  Z.land (value +u64 alignment -u64 1) (u64 (Z.lnot (u64 (alignment - 1)))).

Definition IsPowerOfTwo (value : Z) : bool :=
  negb (value =? 0) && (Z.land value (u64 (value - 1)) =? 0).

(** * Standard-layout types and their object representations *)

Record codec (T : Type) := Codec {
  sizeof : Z;
  enc : T -> bytes;
  dec : bytes -> T;
}.
Arguments Codec {T} _ _ _.
Arguments sizeof {T} c.
Arguments enc {T} c x.
Arguments dec {T} c b.

Definition uint16_t : codec Z := Codec 2 (le_encode 2) le_decode.
Definition uint32_t : codec Z := Codec 4 (le_encode 4) le_decode.
Definition uint64_t : codec Z := Codec 8 (le_encode 8) le_decode.

(** Two consecutive fields without padding. *)
Definition pair_codec {A B} (a : codec A) (b : codec B) : codec (A * B) :=
  Codec (sizeof a + sizeof b)
        (fun x => enc a x.1 ++ enc b x.2)
        (fun m => (dec a (ztake (sizeof a) m), dec b (zdrop (sizeof a) m))).

(** A struct whose fields are those of [A], in order. *)
Definition struct_codec {A T} (a : codec A) (mk : A -> T) (fields : T -> A) : codec T :=
  Codec (sizeof a) (fun x => enc a (fields x)) (fun m => mk (dec a m)).

(** [char x[n]] *)
Definition raw_codec (n : Z) : codec bytes :=
  Codec n (fun b => ztake n (b ++ replicate (Z.to_nat n) 0)) id.

(** [n] consecutive elements ([std::vector] storage, [T* data_p, size_t n]). *)
Fixpoint enc_array {T} (c : codec T) (l : list T) : bytes :=
  match l with
  | [] => []
  | x :: l => enc c x ++ enc_array c l
  end.
Fixpoint dec_array {T} (c : codec T) (n : nat) (m : bytes) : list T :=
  match n with
  | O => []
  | S n => dec c (ztake (sizeof c) m) :: dec_array c n (zdrop (sizeof c) m)
  end.

(** [MoveFromBinaryFormat(T& data, const char*& p)]: the value and the new [p]. *)
Definition MoveFromBinaryFormat {T} (c : codec T) (m : bytes) (p : Z) : res (T * Z) :=
  b ← mem_read m p (sizeof c); Ok (dec c b, p + sizeof c).

(** [MoveFromBinaryFormat(T* data_p, size_t n, const char*& p)] *)
Definition MoveFromBinaryFormatN {T} (c : codec T) (n : Z) (m : bytes) (p : Z)
    : res (list T * Z) :=
  let size := u64 (n * sizeof c) in
  b ← mem_read m p size; Ok (dec_array c (Z.to_nat n) b, p + size).

(** [MoveToBinaryFormat(const T& data, char*& p)]: the memory and the new [p]. *)
Definition MoveToBinaryFormat {T} (c : codec T) (data : T) (m : bytes) (p : Z)
    : res (bytes * Z) :=
  m' ← mem_write m p (enc c data); Ok (m', p + sizeof c).

(** [MoveToBinaryFormat(const T* data_p, size_t n, char*& p)] copies the first
    [n] elements of [data_p]. *)
Definition MoveToBinaryFormatN {T} (c : codec T) (data_p : list T) (n : Z)
    (m : bytes) (p : Z) : res (bytes * Z) :=
  let size := u64 (n * sizeof c) in
  b ← mem_read (enc_array c data_p) 0 size;
  m' ← mem_write m p b; Ok (m', p + size).

(** * [ConvertBytesToValue] *)

Fixpoint ConvertBytesToValue_loop (b : bytes) (result shift : Z) : Z :=
  match b with
  | [] => result
  | x :: b => ConvertBytesToValue_loop b (Z.lor result (u64 (Z.shiftl (u8 x) shift))) (shift + 8)
  end.

(** [LOG(FATAL)] aborts the process, as a failed [CHECK] does. *)
Definition ConvertBytesToValue (b : bytes) (size : Z) : res Z :=
  if 8 <? size then CheckFailed else
  b ← mem_read b 0 size; Ok (ConvertBytesToValue_loop b 0 0).

(** * [OneTimeFreeAllocator]

    [v_] is the list of chunks, newest last; [cur_] and [end_] are offsets in
    the newest chunk ([None] stands for the initial null pointers).  A returned
    [const char*] is a chunk number and an offset. *)

Record OneTimeFreeAllocator := {
  unit_size_ : Z;
  v_ : list bytes;
  cur_end_ : option (Z * Z);
}.

Definition OneTimeFreeAllocator_new (unit_size : Z) : OneTimeFreeAllocator :=
  {| unit_size_ := unit_size; v_ := []; cur_end_ := None |}.

Definition OneTimeFreeAllocator_Clear (a : OneTimeFreeAllocator) : OneTimeFreeAllocator :=
  {| unit_size_ := unit_size_ a; v_ := []; cur_end_ := None |}.

Definition AllocateString (junk : nat -> Z) (a : OneTimeFreeAllocator) (s : bytes)
    : res ((nat * Z) * OneTimeFreeAllocator) :=
  let size := zlen s + 1 in
  let alloc_size := Z.max size (unit_size_ a) in
  let fresh := (v_ a ++ [new_char junk alloc_size], 0, alloc_size) in
  let '(v, cur, end_) :=
    match cur_end_ a with
    | Some (cur, end_) => if end_ <? cur + size then fresh else (v_ a, cur, end_)
    | None => fresh
    end in
  let k := (length v - 1)%nat in
  match v !! k with
  | None => OutOfBounds
  | Some chunk =>
      chunk' ← strcpy chunk cur s;
      Ok ((k, cur), {| unit_size_ := unit_size_ a; v_ := <[k := chunk']> v;
                       cur_end_ := Some (cur + size, end_) |})
  end.

(** The C string a returned pointer refers to. *)
Definition string_at (a : OneTimeFreeAllocator) (ptr : nat * Z) : option bytes :=
  chunk ← v_ a !! ptr.1;
  n ← strlen_list (zdrop ptr.2 chunk);
  Some (ztake n (zdrop ptr.2 chunk)).

(** * [BuildId] *)

Definition BUILD_ID_SIZE : Z := 20.

Record BuildId := { data_ : bytes }.

Definition BuildId_zero : BuildId := {| data_ := replicate 20 0 |}.

(** [BuildId(const void* data, size_t len)] *)
Definition BuildId_of_bytes (data : bytes) (len : Z) : res BuildId :=
  b ← mem_read data 0 (Z.min len BUILD_ID_SIZE);
  d ← mem_write (data_ BuildId_zero) 0 b;
  Ok {| data_ := d |}.

Definition hex_digit (c : Z) : Z :=
  if (48 <=? c) && (c <=? 57) then c - 48
  else if (97 <=? c) && (c <=? 102) then c - 97 + 10
  else if (65 <=? c) && (c <=? 70) then c - 65 + 10
  else 0.

(** One output byte from [s[i]], [s[i+1]]; [s[s.size()]] of a [std::string] is
    the terminating NUL. *)
Definition hex_byte (s : bytes) (i : nat) : Z :=
  let ch := Z.lor (u8 (Z.shiftl 0 4)) (hex_digit (default 0 (s !! i))) in
  Z.lor (u8 (Z.shiftl ch 4)) (hex_digit (default 0 (s !! S i))).

(** [BuildId(const std::string& s)]: the loop over i = 0, 2, ... *)
Fixpoint BuildId_of_hex_loop (fuel : nat) (s : bytes) (i : nat) (data : bytes) : bytes :=
  match fuel with
  | O => data
  | S fuel =>
      if (i <? length s)%nat && (i <? 40)%nat
      then BuildId_of_hex_loop fuel s (i + 2) (<[(i / 2)%nat := hex_byte s i]> data)
      else data
  end.

Definition BuildId_of_hex (s : bytes) : BuildId :=
  {| data_ := BuildId_of_hex_loop 20 s 0 (data_ BuildId_zero) |}.

Definition hex_char (d : Z) : Z := if d <? 10 then 48 + d else 87 + d.

(** [ToString]: "0x" and two lower-case digits per byte. *)
Definition BuildId_ToString (b : BuildId) : bytes :=
  str "0x" ++ mjoin ((fun x => [hex_char (x / 16); hex_char (x mod 16)]) <$> data_ b).

Definition BuildId_eqb (b1 b2 : BuildId) : bool := bool_decide (data_ b1 = data_ b2).
Definition BuildId_IsEmpty (b : BuildId) : bool := BuildId_eqb b BuildId_zero.

Definition BuildId_ok (b : BuildId) : Prop := zlen (data_ b) = 20 /\ bytes_ok (data_ b).

(** * The contract of codecs *)

Class CodecOk {T} (c : codec T) (ok : T -> Prop) : Prop := {
  sizeof_nonneg : 0 <= sizeof c;
  enc_len : forall x, zlen (enc c x) = sizeof c;
  dec_enc : forall x, ok x -> dec c (enc c x) = x;
}.

#[export] Instance uint16_t_ok : CodecOk uint16_t is_u16.
Proof.
  split; [done|intros; apply zlen_le_encode|intros x Hx; cbn [enc dec uint16_t]].
  rewrite le_decode_encode. by apply Z.mod_small.
Qed.

#[export] Instance uint32_t_ok : CodecOk uint32_t is_u32.
Proof.
  split; [done|intros; apply zlen_le_encode|intros x Hx; cbn [enc dec uint32_t]].
  rewrite le_decode_encode. by apply Z.mod_small.
Qed.

#[export] Instance uint64_t_ok : CodecOk uint64_t is_u64.
Proof.
  split; [done|intros; apply zlen_le_encode|intros x Hx; cbn [enc dec uint64_t]].
  rewrite le_decode_encode. by apply Z.mod_small.
Qed.

#[export] Instance pair_codec_ok {A B} (a : codec A) (b : codec B) pa pb :
  CodecOk a pa -> CodecOk b pb ->
  CodecOk (pair_codec a b) (fun x => pa x.1 /\ pb x.2).
Proof.
  intros Ha Hb. split; cbn.
  - pose proof (sizeof_nonneg (c := a)); pose proof (sizeof_nonneg (c := b)); lia.
  - intros x. by rewrite zlen_app, !enc_len.
  - intros [x y] [Hx Hy]. cbn in *.
    rewrite ztake_app_exact, zdrop_app_exact, !dec_enc by (done || by rewrite enc_len). done.
Qed.

Lemma raw_codec_ok n : 0 <= n -> CodecOk (raw_codec n) (fun b => zlen b = n).
Proof.
  intros Hn. split; cbn [sizeof enc dec raw_codec]; [done| |].
  - intros x. rewrite zlen_ztake; [done|]. rewrite zlen_app, zlen_replicate. pose proof (zlen_nonneg x). lia.
  - intros x Hx. by apply ztake_app_exact.
Qed.

Lemma struct_codec_ok {A T} (a : codec A) (mk : A -> T) fields pa :
  CodecOk a pa -> (forall x, mk (fields x) = x) ->
  CodecOk (struct_codec a mk fields) (fun x => pa (fields x)).
Proof.
  intros Ha Hiso. split; cbn.
  - apply sizeof_nonneg.
  - intros x. apply enc_len.
  - intros x Hx. by rewrite dec_enc, Hiso.
Qed.

Lemma struct_codec_ok_by {A T} (a : codec A) (mk : A -> T) fields pa ok :
  CodecOk a pa -> (forall x, mk (fields x) = x) -> (forall x, ok x -> pa (fields x)) ->
  CodecOk (struct_codec a mk fields) ok.
Proof.
  intros Ha Hiso Hok. destruct (struct_codec_ok a mk fields pa Ha Hiso) as [H1 H2 H3].
  split; auto.
Qed.

(** * Reading and writing at a position *)

(** The bytes [b] are at offset [p] of [m]. *)
Definition bytes_at (m : bytes) (p : Z) (b : bytes) : Prop :=
  exists pre post, m = pre ++ b ++ post /\ p = zlen pre.

Lemma bytes_at_intro b post : bytes_at (b ++ post) 0 b.
Proof. by exists [], post. Qed.

Lemma bytes_at_split m p b1 b2 :
  bytes_at m p (b1 ++ b2) -> bytes_at m p b1 /\ bytes_at m (p + zlen b1) b2.
Proof.
  intros (pre & post & -> & ->). split.
  - exists pre, (b2 ++ post). by rewrite <- app_assoc.
  - exists (pre ++ b1), post. by rewrite zlen_app, <- !app_assoc.
Qed.

Lemma bytes_at_read m p b n : bytes_at m p b -> n = zlen b -> mem_read m p n = Ok b.
Proof. intros (pre & post & -> & ->) ->. by apply mem_read_app. Qed.

Lemma bytes_at_strlen m p s post :
  bytes_at m p (s ++ 0 :: post) -> cstring_ok s -> strlen m p = Ok (zlen s).
Proof.
  intros (pre & post' & -> & ->) Hs. rewrite <- app_assoc. by apply strlen_app.
Qed.

Lemma bytes_at_bound m p b : bytes_at m p b -> 0 <= p /\ p + zlen b <= zlen m.
Proof.
  intros (pre & post & -> & ->). rewrite !zlen_app.
  pose proof (zlen_nonneg pre); pose proof (zlen_nonneg post). lia.
Qed.

Lemma MoveFrom_at {T} (c : codec T) ok `{!CodecOk c ok} m p x :
  bytes_at m p (enc c x) -> ok x -> MoveFromBinaryFormat c m p = Ok (x, p + sizeof c).
Proof.
  intros Hat Hx. unfold MoveFromBinaryFormat.
  rewrite (bytes_at_read _ _ _ _ Hat) by (by rewrite enc_len). cbn. by rewrite dec_enc.
Qed.

Lemma zlen_enc_array {T} (c : codec T) ok `{!CodecOk c ok} l :
  zlen (enc_array c l) = zlen l * sizeof c.
Proof.
  induction l as [|x l IH]; [done|]. cbn.
  rewrite zlen_app, IH, enc_len, zlen_cons. lia.
Qed.

Lemma dec_enc_array {T} (c : codec T) ok `{!CodecOk c ok} l :
  Forall ok l -> dec_array c (length l) (enc_array c l) = l.
Proof.
  induction 1 as [|x l Hx _ IH]; [done|]. cbn.
  rewrite ztake_app_exact, zdrop_app_exact, dec_enc, IH by (done || by rewrite enc_len). done.
Qed.

Lemma enc_array_app {T} (c : codec T) l k :
  enc_array c (l ++ k) = enc_array c l ++ enc_array c k.
Proof. induction l as [|x l IH]; [done|]. cbn. by rewrite IH, app_assoc. Qed.

Lemma MoveFromN_at {T} (c : codec T) ok `{!CodecOk c ok} m p l n :
  bytes_at m p (enc_array c l) -> Forall ok l -> n = zlen l ->
  n * sizeof c < 2 ^ 64 ->
  MoveFromBinaryFormatN c n m p = Ok (l, p + n * sizeof c).
Proof.
  intros Hat Hl -> Hn. unfold MoveFromBinaryFormatN.
  pose proof (sizeof_nonneg (c := c)). pose proof (zlen_nonneg l).
  rewrite u64_small by (unfold is_u64; nia).
  rewrite (bytes_at_read _ _ _ _ Hat) by (by rewrite (zlen_enc_array c ok)). cbn.
  unfold zlen at 1. by rewrite Nat2Z.id, (dec_enc_array c ok).
Qed.

Lemma zlen_enc_u32 x : zlen (enc uint32_t x) = 4.
Proof. apply zlen_le_encode. Qed.
Lemma zlen_enc_u64 x : zlen (enc uint64_t x) = 8.
Proof. apply zlen_le_encode. Qed.
Lemma zlen_enc_array_u64 l : zlen (enc_array uint64_t l) = zlen l * 8.
Proof. apply (zlen_enc_array uint64_t is_u64). Qed.
#[export] Hint Rewrite zlen_enc_u32 zlen_enc_u64 zlen_enc_array_u64 : zlen.

(** Sequential writing: what has been written, then the rest of the buffer. *)
Lemma MoveTo_app {T} (c : codec T) ok `{!CodecOk c ok} x pre rest p :
  p = zlen pre -> sizeof c <= zlen rest ->
  MoveToBinaryFormat c x (pre ++ rest) p =
    Ok ((pre ++ enc c x) ++ zdrop (sizeof c) rest, zlen (pre ++ enc c x)).
Proof.
  intros -> Hs. unfold MoveToBinaryFormat.
  rewrite mem_write_app by (done || by rewrite enc_len). cbn.
  by rewrite enc_len, zlen_app, enc_len, <- app_assoc.
Qed.

Lemma MoveToN_app {T} (c : codec T) ok `{!CodecOk c ok} l n pre rest p :
  p = zlen pre -> n = zlen l -> n * sizeof c < 2 ^ 64 -> n * sizeof c <= zlen rest ->
  MoveToBinaryFormatN c l n (pre ++ rest) p =
    Ok ((pre ++ enc_array c l) ++ zdrop (n * sizeof c) rest, zlen (pre ++ enc_array c l)).
Proof.
  intros -> -> Hn Hs. unfold MoveToBinaryFormatN.
  pose proof (sizeof_nonneg (c := c)). pose proof (zlen_nonneg l).
  pose proof (zlen_enc_array c ok l) as Hlen.
  rewrite u64_small by (unfold is_u64; nia).
  rewrite (bytes_at_read _ 0 (enc_array c l)); [|by exists [], []; rewrite app_nil_r|done].
  cbn. rewrite mem_write_app by (done || lia). cbn.
  by rewrite Hlen, zlen_app, Hlen, <- app_assoc.
Qed.

(** * [Align] is rounding up *)

Lemma land_u64_lnot_ones x k :
  is_u64 x -> 0 <= k -> Z.land x (u64 (Z.lnot (Z.ones k))) = x / 2 ^ k * 2 ^ k.
Proof.
  intros Hx Hk. unfold u64. rewrite <- (Z.land_ones _ 64) by lia.
  rewrite (Z.land_comm (Z.lnot _)), Z.land_assoc, Z.land_ones by lia.
  rewrite Z.mod_small by done.
  change (Z.land x (Z.lnot (Z.ones k))) with (Z.land x (Z.lnot (Z.ones k))).
  rewrite <- Z.ldiff_land, Z.ldiff_ones_r, Z.shiftl_mul_pow2, Z.shiftr_div_pow2 by lia. done.
Qed.

Lemma Align_pow2 v k :
  0 <= k < 64 -> 0 <= v -> v + 2 ^ k <= 2 ^ 64 ->
  Align v (2 ^ k) = (v + 2 ^ k - 1) / 2 ^ k * 2 ^ k.
Proof.
  intros Hk Hv Hsum. pose proof (Z.pow_pos_nonneg 2 k ltac:(lia) ltac:(lia)).
  assert (2 ^ k < 2 ^ 64) by (apply Z.pow_lt_mono_r; lia).
  unfold Align. rewrite (u64_small (2 ^ k - 1)) by (unfold is_u64; lia).
  replace (2 ^ k - 1) with (Z.ones k) by (rewrite Z.ones_equiv; lia).
  assert (v +u64 2 ^ k -u64 1 = v + 2 ^ k - 1) as ->.
  { unfold u64. rewrite Zminus_mod_idemp_l. apply Z.mod_small. lia. }
  apply land_u64_lnot_ones; [unfold is_u64|]; lia.
Qed.

(** [Align] returns the least multiple of the
    alignment that is not below the value. *)
Lemma Align_spec v k :
  0 <= k < 64 -> 0 <= v -> v + 2 ^ k <= 2 ^ 64 ->
  v <= Align v (2 ^ k) < v + 2 ^ k /\ (2 ^ k | Align v (2 ^ k)).
Proof.
  intros Hk Hv Hsum. rewrite Align_pow2 by done.
  pose proof (Z.pow_pos_nonneg 2 k ltac:(lia) ltac:(lia)) as Hp.
  pose proof (Z.div_mod (v + 2 ^ k - 1) (2 ^ k) ltac:(lia)).
  pose proof (Z.mod_pos_bound (v + 2 ^ k - 1) (2 ^ k) Hp).
  split; [lia|]. by exists ((v + 2 ^ k - 1) / 2 ^ k).
Qed.

Lemma Align_8 v : 0 <= v < 2 ^ 63 -> v <= Align v 8 < v + 8.
Proof. intros. pose proof (Align_spec v 3). change (2 ^ 3) with 8 in *. lia. Qed.

Lemma Align_64 v : 0 <= v < 2 ^ 63 -> v <= Align v 64 < v + 64.
Proof. intros. pose proof (Align_spec v 6). change (2 ^ 6) with 64 in *. lia. Qed.

(** [IsPowerOfTwo] decides what its name says. *)
Lemma IsPowerOfTwo_spec value :
  is_u64 value -> IsPowerOfTwo value = true <-> exists k, 0 <= k /\ value = 2 ^ k.
Proof.
  intros Hv. unfold IsPowerOfTwo, is_u64 in *.
  rewrite andb_true_iff, negb_true_iff, Z.eqb_neq, Z.eqb_eq. split.
  - intros [Hne Hland]. rewrite u64_small in Hland by (unfold is_u64; lia).
    set (k := Z.log2 value). exists k. split; [apply Z.log2_nonneg|].
    pose proof (Z.log2_spec value ltac:(lia)) as [Hlo Hhi]. fold k in Hlo, Hhi.
    destruct (Z.eq_dec value (2 ^ k)) as [|Hne2]; [done|exfalso].
    pose proof (Z.pow_pos_nonneg 2 k ltac:(lia) (Z.log2_nonneg _)).
    assert (Z.testbit (Z.land value (value - 1)) k = true) as Hbit.
    { rewrite Z.land_spec, andb_true_iff. split; [apply Z.bit_log2; lia|].
      replace k with (Z.log2 (value - 1)); [apply Z.bit_log2; lia|].
      apply Z.log2_unique; [apply Z.log2_nonneg|]. fold k. lia. }
    by rewrite Hland, Z.bits_0 in Hbit.
  - intros (k & Hk & ->). pose proof (Z.pow_pos_nonneg 2 k ltac:(lia) Hk).
    split; [lia|]. rewrite u64_small by (unfold is_u64; lia).
    replace (2 ^ k - 1) with (Z.ones k) by (rewrite Z.ones_equiv; lia).
    rewrite Z.land_ones by lia. apply Z.mod_same. lia.
Qed.

(** * [ConvertBytesToValue] is little-endian decoding *)

Lemma lor_add_disjoint r x shift :
  0 <= shift -> 0 <= r < 2 ^ shift -> 0 <= x ->
  Z.lor r (Z.shiftl x shift) = r + 2 ^ shift * x.
Proof.
  intros Hs Hr Hx. rewrite Z.shiftl_mul_pow2 by lia.
  rewrite (Z.mul_comm x). pose proof (Z.add_lor_land r (2 ^ shift * x)).
  enough (Z.land r (2 ^ shift * x) = 0) by lia.
  apply Z.bits_inj'. intros i Hi. rewrite Z.land_spec, Z.bits_0.
  destruct (Z.lt_ge_cases i shift).
  - rewrite (Z.mul_comm (2 ^ shift)), Z.mul_pow2_bits_low by lia. apply andb_false_r.
  - destruct (Z.eq_dec r 0) as [->|]; [by rewrite Z.bits_0|].
    rewrite Z.bits_above_log2; [done|lia|].
    assert (Z.log2 r < shift) by (apply Z.log2_lt_pow2; lia). lia.
Qed.

Lemma ConvertBytesToValue_loop_spec b r shift :
  bytes_ok b -> 0 <= shift -> shift + 8 * zlen b <= 64 -> 0 <= r < 2 ^ shift ->
  ConvertBytesToValue_loop b r shift = r + 2 ^ shift * le_decode b.
Proof.
  intros Hb. revert r shift. induction Hb as [|x b Hx Hb IH]; intros r shift Hs Hlen Hr.
  { cbn. lia. }
  cbn [ConvertBytesToValue_loop le_decode]. rewrite zlen_cons in Hlen.
  pose proof (zlen_nonneg b). unfold is_u8 in Hx.
  assert (2 ^ (shift + 8) = 2 ^ shift * 256) as Hpow by (rewrite Z.pow_add_r; lia).
  assert (2 ^ (shift + 8) <= 2 ^ 64) by (apply Z.pow_le_mono_r; lia).
  unfold u8. rewrite (Z.mod_small x) by lia.
  rewrite u64_small; [|unfold is_u64; rewrite Z.shiftl_mul_pow2 by lia; nia].
  rewrite lor_add_disjoint, IH by (lia || nia). rewrite Hpow. nia.
Qed.

Lemma ConvertBytesToValue_le_decode b size :
  bytes_ok b -> 0 <= size <= zlen b ->
  ConvertBytesToValue b size =
    if 8 <? size then CheckFailed else Ok (le_decode (ztake size b)).
Proof.
  intros Hb Hsize. unfold ConvertBytesToValue. case_if; [done|].
  assert (mem_read b 0 size = Ok (ztake size b)) as ->.
  { apply bytes_at_read; [|by rewrite zlen_ztake].
    exists [], (zdrop size b). by rewrite app_nil_l, ztake_zdrop. }
  cbn. rewrite ConvertBytesToValue_loop_spec; [f_equal; lia|..]; rewrite ?zlen_ztake by done; try lia.
  apply Forall_take, Hb.
Qed.

(** * Pointwise view of memory *)

Lemma znth_app {A} (l k : list A) i :
  znth (l ++ k) i = if i <? zlen l then znth l i else znth k (i - zlen l).
Proof.
  unfold znth, zlen. destruct (Z.ltb_spec i 0) as [|Hi].
  { destruct (Z.ltb_spec i (Z.of_nat (length l))); [done|].
    destruct (Z.ltb_spec (i - Z.of_nat (length l)) 0); [done|lia]. }
  case_if.
  - rewrite lookup_app_l by lia. done.
  - destruct (Z.ltb_spec (i - Z.of_nat (length l)) 0); [lia|].
    rewrite lookup_app_r by lia. f_equal. lia.
Qed.

Lemma znth_ztake {A} (l : list A) n i : i < n -> znth (ztake n l) i = znth l i.
Proof.
  intros. unfold znth, ztake. case_if; [done|]. rewrite lookup_take_lt by lia. done.
Qed.

Lemma znth_zdrop {A} (l : list A) n i : 0 <= n -> 0 <= i -> znth (zdrop n l) i = znth l (n + i).
Proof.
  intros. unfold znth, zdrop. destruct (Z.ltb_spec i 0), (Z.ltb_spec (n + i) 0); try lia.
  rewrite lookup_drop. f_equal. lia.
Qed.

Lemma zlen_seqZ m n : 0 <= n -> zlen (seqZ m n) = n.
Proof. intros. unfold zlen. rewrite length_seqZ. lia. Qed.

Lemma znth_seqZ m n i : 0 <= i < n -> znth (seqZ m n) i = Some (m + i).
Proof.
  intros Hi. unfold znth. destruct (Z.ltb_spec i 0); [lia|]. rewrite lookup_seqZ_lt by lia. f_equal. lia.
Qed.

Lemma znth_fmap {A B} (f : A -> B) l i : znth (f <$> l) i = f <$> znth l i.
Proof. unfold znth. destruct (i <? 0); [done|]. by rewrite list_lookup_fmap. Qed.

Lemma znth_some {A} (l : list A) i : 0 <= i < zlen l -> exists x, znth l i = Some x.
Proof.
  intros Hi. unfold znth. destruct (Z.ltb_spec i 0); [lia|]. apply lookup_lt_is_Some_2. unfold zlen in Hi. lia.
Qed.

Lemma list_eq_znth {A} (l k : list A) :
  zlen l = zlen k -> (forall i, 0 <= i < zlen l -> znth l i = znth k i) -> l = k.
Proof.
  intros Hlen Heq. apply list_eq. intros i. unfold zlen, znth in *.
  destruct (decide (i < length l)%nat) as [Hi|Hi].
  - specialize (Heq (Z.of_nat i) ltac:(lia)).
    destruct (Z.ltb_spec (Z.of_nat i) 0); [lia|]. by rewrite Nat2Z.id in Heq.
  - rewrite !lookup_ge_None_2 by lia. done.
Qed.

Lemma mem_write_znth m p b m' i :
  mem_write m p b = Ok m' ->
  znth m' i = if (p <=? i) && (i <? p + zlen b) then znth b (i - p) else znth m i.
Proof.
  unfold mem_write. case_if; [|done]. intros [= <-]. pose proof (zlen_nonneg b).
  rewrite znth_app, zlen_ztake by lia. destruct (Z.ltb_spec i p).
  { rewrite znth_ztake by lia. destruct (Z.leb_spec p i); [lia|done]. }
  destruct (Z.leb_spec p i); [|lia]. cbn [andb].
  rewrite znth_app. destruct (Z.ltb_spec (i - p) (zlen b)).
  { destruct (Z.ltb_spec i (p + zlen b)); [done|lia]. }
  destruct (Z.ltb_spec i (p + zlen b)); [lia|].
  rewrite znth_zdrop by lia. f_equal. lia.
Qed.

Lemma bytes_at_znth m p b :
  bytes_at m p b <->
  0 <= p /\ p + zlen b <= zlen m /\ forall i, 0 <= i < zlen b -> znth m (p + i) = znth b i.
Proof.
  split.
  - intros Hat. pose proof (bytes_at_bound _ _ _ Hat) as [? ?].
    split; [done|]. split; [done|].
    destruct Hat as (pre & post & -> & ->). intros i Hi.
    rewrite znth_app. destruct (Z.ltb_spec (zlen pre + i) (zlen pre)); [lia|].
    rewrite znth_app. destruct (Z.ltb_spec (zlen pre + i - zlen pre) (zlen b)); [|lia].
    f_equal. lia.
  - intros (Hp & Hlen & Heq). pose proof (zlen_nonneg b).
    exists (ztake p m), (zdrop (p + zlen b) m). split; [|by rewrite zlen_ztake by lia].
    apply list_eq_znth.
    { autorewrite with zlen. rewrite zlen_ztake, zlen_zdrop by lia. lia. }
    intros i Hi. rewrite znth_app, zlen_ztake by lia.
    destruct (Z.ltb_spec i p); [by rewrite znth_ztake|].
    rewrite znth_app. destruct (Z.ltb_spec (i - p) (zlen b)).
    + rewrite <- Heq by lia. f_equal. lia.
    + rewrite znth_zdrop by lia. f_equal. lia.
Qed.

Lemma mem_write_ok m p b :
  0 <= p -> p + zlen b <= zlen m -> exists m', mem_write m p b = Ok m'.
Proof.
  intros. unfold mem_write. destruct (Z.leb_spec 0 p); [|lia].
  destruct (Z.leb_spec (p + zlen b) (zlen m)); [|lia]. cbn. eauto.
Qed.

Lemma mem_write_bounds m p b m' :
  mem_write m p b = Ok m' -> 0 <= p /\ p + zlen b <= zlen m.
Proof. unfold mem_write. case_if; [|done]. lia. Qed.

Lemma bytes_at_write_same m p b m' : mem_write m p b = Ok m' -> bytes_at m' p b.
Proof.
  intros Hw. pose proof (mem_write_len _ _ _ _ Hw) as Hlen.
  pose proof (mem_write_bounds _ _ _ _ Hw) as [Hp Hb].
  apply bytes_at_znth. split_and!; [lia|lia|]. intros i Hi.
  rewrite (mem_write_znth m p b m') by done.
  destruct (Z.leb_spec p (p + i)); [|lia]. destruct (Z.ltb_spec (p + i) (p + zlen b)); [|lia].
  cbn. f_equal. lia.
Qed.

Lemma bytes_at_write_other m p b m' q d :
  mem_write m p b = Ok m' -> bytes_at m q d -> q + zlen d <= p \/ p + zlen b <= q ->
  bytes_at m' q d.
Proof.
  intros Hw Hat Hdisj. pose proof (mem_write_len _ _ _ _ Hw) as Hlen.
  apply bytes_at_znth in Hat as (Hq & Hb & Heq).
  apply bytes_at_znth. split_and!; [done|lia|]. intros i Hi.
  rewrite (mem_write_znth _ _ _ _ _ Hw), <- Heq by done.
  destruct (Z.leb_spec p (q + i)), (Z.ltb_spec (q + i) (p + zlen b)); cbn; try done. lia.
Qed.

Lemma bytes_at_app m p b1 b2 :
  bytes_at m p b1 -> bytes_at m (p + zlen b1) b2 -> bytes_at m p (b1 ++ b2).
Proof.
  rewrite !bytes_at_znth, zlen_app. intros (Hp & Hl1 & H1) (_ & Hl2 & H2).
  split_and!; [done|lia|]. intros i Hi. rewrite znth_app.
  destruct (Z.ltb_spec i (zlen b1)); [apply H1; lia|]. rewrite <- H2 by lia. f_equal. lia.
Qed.

Lemma bytes_at_all m b : bytes_at m 0 b -> zlen b = zlen m -> m = b.
Proof.
  intros (pre & post & -> & Hp) Hlen. symmetry in Hp.
  destruct pre; [|rewrite zlen_cons in Hp; pose proof (zlen_nonneg pre); lia].
  rewrite app_nil_l, zlen_app in *. destruct post; [by rewrite app_nil_r|].
  rewrite zlen_cons in Hlen. pose proof (zlen_nonneg post). lia.
Qed.

(** * [OneTimeFreeAllocator] keeps every string it handed out *)

Definition allocator_ok (a : OneTimeFreeAllocator) : Prop :=
  match cur_end_ a with
  | None => v_ a = []
  | Some (cur, end_) => exists chunk,
      last (v_ a) = Some chunk /\ zlen chunk = end_ /\ 0 <= cur <= end_
  end.

(** [ptr] holds [s], in memory the allocator will not reuse. *)
Definition holds (a : OneTimeFreeAllocator) (ptr : nat * Z) (s : bytes) : Prop :=
  exists chunk, v_ a !! ptr.1 = Some chunk /\ bytes_at chunk ptr.2 (s ++ [0]) /\
  ((S ptr.1 < length (v_ a))%nat \/
   exists cur end_, cur_end_ a = Some (cur, end_) /\ ptr.2 + zlen s + 1 <= cur).

Lemma holds_string_at a ptr s : holds a ptr s -> cstring_ok s -> string_at a ptr = Some s.
Proof.
  intros (chunk & Hc & (pre & post & -> & Hp) & _) Hs. unfold string_at.
  rewrite Hc. cbn. rewrite zdrop_app_exact by done. rewrite <- app_assoc. cbn.
  rewrite strlen_list_app by done. cbn. by rewrite ztake_app_exact.
Qed.

(** Writing the string into the newest chunk keeps the other strings. *)
Lemma holds_write a v k chunk chunk' cur end_ s unit ptr t :
  v !! k = Some chunk -> S k = length v -> strcpy chunk cur s = Ok chunk' -> cstring_ok s ->
  (exists c, v !! ptr.1 = Some c /\ bytes_at c ptr.2 (t ++ [0]) /\
    ((S ptr.1 < length v)%nat \/ ptr.2 + zlen t + 1 <= cur)) ->
  a = {| unit_size_ := unit; v_ := <[k := chunk']> v; cur_end_ := Some (cur + (zlen s + 1), end_) |} ->
  holds a ptr t.
Proof.
  intros Hk Hlen Hcpy Hs (c & Hc & Hat & Hwhere) ->. unfold holds. cbn.
  pose proof (zlen_nonneg s). rewrite length_insert.
  destruct (decide (ptr.1 = k)) as [Heq|Hne].
  - rewrite Heq in *. simplify_eq. exists chunk'. split_and!.
    + apply list_lookup_insert_eq. lia.
    + eapply bytes_at_write_other; [exact Hcpy|exact Hat|].
      left. rewrite zlen_app. change (zlen [0]) with 1. lia.
    + right. eexists _, _. split; [done|]. lia.
  - exists c. rewrite list_lookup_insert_ne by done. split_and!; [done..|].
    left. apply lookup_lt_Some in Hc. lia.
Qed.

(** The chunk list, position and limit [AllocateString] uses for a string of
    [size] bytes: a chunk with enough room, in which the strings handed out
    before lie below the position. *)
Definition room_for (a : OneTimeFreeAllocator) (size : Z) (v : list bytes) (cur end_ : Z)
    (chunk : bytes) : Prop :=
  v !! (length v - 1)%nat = Some chunk /\ S (length v - 1) = length v /\
  zlen chunk = end_ /\ 0 <= cur /\ cur + size <= end_ /\
  forall ptr t, holds a ptr t -> exists c, v !! ptr.1 = Some c /\
    bytes_at c ptr.2 (t ++ [0]) /\ ((S ptr.1 < length v)%nat \/ ptr.2 + zlen t + 1 <= cur).

Lemma room_for_fresh a size n junk :
  0 <= size <= n -> room_for a size (v_ a ++ [new_char junk n]) 0 n (new_char junk n).
Proof.
  intros Hn. unfold room_for. rewrite length_app. cbn [length]. split_and!; try lia.
  - rewrite lookup_app_r by lia.
    by replace (length (v_ a) + 1 - 1 - length (v_ a))%nat with 0%nat by lia.
  - apply zlen_new_char. lia.
  - intros ptr t (c & Hc & Hat & _). exists c. split_and!; [by apply lookup_app_l_Some|done|].
    left. apply lookup_lt_Some in Hc. lia.
Qed.

Lemma room_for_current a size cur end_ :
  allocator_ok a -> cur_end_ a = Some (cur, end_) -> cur + size <= end_ ->
  exists chunk, room_for a size (v_ a) cur end_ chunk.
Proof.
  unfold allocator_ok. intros Hok Hce Hfit. rewrite Hce in Hok.
  destruct Hok as (chunk & Hl1 & Hl2 & Hl3). exists chunk. unfold room_for.
  rewrite last_lookup in Hl1. replace (pred (length (v_ a))) with (length (v_ a) - 1)%nat in Hl1 by lia.
  pose proof (lookup_lt_Some _ _ _ Hl1). split_and!; [done|lia..|].
  intros ptr t (c & Hc & Hat & Hwhere). exists c. split_and!; [done..|].
  destruct Hwhere as [|(cur' & e' & ? & ?)]; [by left|right; simplify_eq; lia].
Qed.

Lemma AllocateString_room junk a s :
  allocator_ok a ->
  exists v cur end_ chunk, room_for a (zlen s + 1) v cur end_ chunk /\
    AllocateString junk a s =
      (chunk' ← strcpy chunk cur s;
       Ok ((length v - 1, cur)%nat, {| unit_size_ := unit_size_ a; v_ := <[(length v - 1)%nat := chunk']> v;
                        cur_end_ := Some (cur + (zlen s + 1), end_) |})).
Proof.
  intros Hok. pose proof (zlen_nonneg s).
  set (n := Z.max (zlen s + 1) (unit_size_ a)).
  pose proof (room_for_fresh a (zlen s + 1) n junk ltac:(lia)) as Hfresh.
  unfold AllocateString. fold n. destruct (cur_end_ a) as [[cur end_]|] eqn:Hce.
  1: destruct (end_ <? cur + (zlen s + 1)) eqn:Hfit.
  2: { bool_to_prop. destruct (room_for_current a (zlen s + 1) cur end_) as [chunk Hroom]; [done..|].
       exists (v_ a), cur, end_, chunk. split; [done|]. by rewrite (proj1 Hroom). }
  all: eexists _, _, _, _; split; [exact Hfresh|]; by rewrite (proj1 Hfresh).
Qed.

(** [AllocateString] succeeds, returns a pointer that holds the string, and
    every pointer returned before still holds its string. *)
Lemma AllocateString_keeps junk a s :
  allocator_ok a -> cstring_ok s ->
  exists ptr a', AllocateString junk a s = Ok (ptr, a') /\ allocator_ok a' /\
    holds a' ptr s /\ forall ptr' s', holds a ptr' s' -> holds a' ptr' s'.
Proof.
  intros Hok Hs. pose proof (zlen_nonneg s) as Hl.
  destruct (AllocateString_room junk a s Hok)
    as (v & cur & end_ & chunk & (Hk & HS & Hend & Hcur & Hfit & Hkeep) & ->).
  destruct (mem_write_ok chunk cur (c_str s ++ [0])) as [chunk' Hcpy].
  { done. } { rewrite c_str_ok, zlen_app by done. change (zlen [0]) with 1. lia. }
  pose proof (mem_write_len _ _ _ _ Hcpy) as Hlen'.
  unfold strcpy. rewrite Hcpy. cbn. eexists _, _. split; [done|]. split_and!.
  - unfold allocator_ok. cbn. exists chunk'. split_and!; [|lia..].
    rewrite last_lookup, length_insert. replace (pred (length v)) with (length v - 1)%nat by lia.
    apply list_lookup_insert_eq. lia.
  - exists chunk'. cbn. split_and!.
    + apply list_lookup_insert_eq. lia.
    + rewrite <- (c_str_ok s) at 1 by done. by apply bytes_at_write_same in Hcpy.
    + right. eexists _, _. split; [done|]. lia.
  - intros ptr t Hh. by eapply holds_write with (s := s); eauto.
Qed.

(** * [BuildId] hex round trip *)

Lemma hex_digit_char x :
  is_u8 x ->
  Z.lor (u8 (Z.shiftl (Z.lor (u8 (Z.shiftl 0 4)) (hex_digit (hex_char (x / 16)))) 4))
        (hex_digit (hex_char (x mod 16))) = x.
Proof.
  intros Hx.
  set (f := fun x =>
    Z.lor (u8 (Z.shiftl (Z.lor (u8 (Z.shiftl 0 4)) (hex_digit (hex_char (x / 16)))) 4))
          (hex_digit (hex_char (x mod 16))) =? x).
  assert (forallb f (map Z.of_nat (seq 0 256)) = true) as Hall by by vm_compute.
  rewrite forallb_forall in Hall. apply Z.eqb_eq, (Hall x), in_map_iff.
  exists (Z.to_nat x). unfold is_u8 in Hx. rewrite in_seq. lia.
Qed.

Lemma BuildId_of_hex_ToString b :
  BuildId_ok b -> BuildId_of_hex (drop 2 (BuildId_ToString b)) = b.
Proof.
  destruct b as [d]. unfold BuildId_ok. cbn [data_]. intros [Hlen Hok].
  unfold zlen in Hlen. do 20 (destruct d as [|? d]; [simpl in Hlen; lia|]).
  destruct d; [|simpl in Hlen; lia].
  unfold BuildId_of_hex. f_equal. cbn -[Z.lor Z.div Z.modulo hex_digit hex_char u8 Z.shiftl].
  unfold hex_byte. cbn -[Z.lor Z.div Z.modulo hex_digit hex_char u8 Z.shiftl].
  unfold bytes_ok in Hok.
  repeat match goal with H : Forall is_u8 (_ :: _) |- _ => apply Forall_cons in H as [? H] end.
  repeat (f_equal; [by apply hex_digit_char|]). f_equal. by apply hex_digit_char.
Qed.
