(* ===== verification/File.v ===== *)
(** The part of <stdio.h> that the sources use on regular files.

    A [FILE*] is the content of the file and the position in it.  A write
    fails when the file would grow beyond [disk] bytes, and then leaves the file
    as it was.  [res (option A)] is the result of a function that returns a
    bool: [None] is false; [x ←? m; k] returns false if [m] does. *)
From stdpp Require Import base list numbers.
From Stdlib Require Import ZArith Lia.
From S2P Require Import Prelude.

Definition try_bind {A B} (m : res (option A)) (k : A -> res (option B)) : res (option B) :=
  match m with
  | Ok (Some x) => k x
  | Ok None => Ok None
  | CheckFailed => CheckFailed
  | OutOfBounds => OutOfBounds
  end.
Notation "x ←? m ; k" := (try_bind m (fun x => k)) (at level 20, m at level 100, k at level 200, only parsing) : stdpp_scope.
Notation "' x ←? m ; k" := (try_bind m (fun x => k))
  (at level 20, x pattern, m at level 100, k at level 200, only parsing) : stdpp_scope.

Record FILE := mkFile { content : bytes; fpos : Z }.
Definition empty_file : FILE := mkFile [] 0.

(** [l] with zeros up to the position [n]: the gap behind the end of a file. *)
Definition pad_to (n : Z) (l : bytes) : bytes := l ++ replicate (Z.to_nat (n - zlen l)) 0.

Section file_ops.
Context (disk : Z).

(** [fwrite] of one item; an item of no bytes is not written. *)
Definition fwrite (data : bytes) (f : FILE) : option FILE :=
  if (0 <? zlen data) && (fpos f + zlen data <=? disk) then
    let c := pad_to (fpos f) (content f) in
    Some (mkFile (ztake (fpos f) c ++ data ++ zdrop (fpos f + zlen data) c) (fpos f + zlen data))
  else None.
End file_ops.

(** [fread] of one item of [n] bytes; an item of no bytes is not read. *)
Definition fread (n : Z) (f : FILE) : option (bytes * FILE) :=
  if (0 <? n) && (fpos f + n <=? zlen (content f)) then
    Some (ztake n (zdrop (fpos f) (content f)), mkFile (content f) (fpos f + n))
  else None.

Definition fseek_cur (off : Z) (f : FILE) : option FILE :=
  if 0 <=? fpos f + off then Some (mkFile (content f) (fpos f + off)) else None.
Definition fseek_set (off : Z) (f : FILE) : FILE := mkFile (content f) off.
Definition fseek_end (f : FILE) : FILE := mkFile (content f) (zlen (content f)).

(** [fseek(fp, off, SEEK_SET)] with an unsigned offset, which becomes a [long]. *)
Definition fseek_u64 (off : Z) (f : FILE) : option FILE :=
  if off <? 2 ^ 63 then Some (fseek_set off f) else None.

(** * Lemmas *)

Lemma pad_to_id n l : n <= zlen l -> pad_to n l = l.
Proof. intros H. unfold pad_to. replace (Z.to_nat (n - zlen l)) with 0%nat by lia. apply app_nil_r. Qed.

(** Writing at the end appends. *)
Lemma fwrite_append disk data c :
  data <> [] -> zlen c + zlen data <= disk ->
  fwrite disk data (mkFile c (zlen c)) = Some (mkFile (c ++ data) (zlen (c ++ data))).
Proof.
  intros Hd Hl. unfold fwrite. cbn [content fpos]. destruct data as [|x data]; [done|].
  pose proof (zlen_nonneg c). pose proof (zlen_nonneg data). rewrite zlen_cons in *.
  rewrite (proj2 (Z.ltb_lt _ _)), (proj2 (Z.leb_le _ _)) by lia. cbn [andb]. rewrite pad_to_id by lia.
  rewrite ztake_all, zdrop_ge, app_nil_r, zlen_app, zlen_cons by lia. done.
Qed.

(** Writing over bytes of the file replaces them. *)
Lemma fwrite_over disk data pre old post p :
  data <> [] -> zlen old = zlen data -> p = zlen pre -> zlen (pre ++ old ++ post) <= disk ->
  fwrite disk data (mkFile (pre ++ old ++ post) p) = Some (mkFile (pre ++ data ++ post) (p + zlen data)).
Proof.
  intros Hd Ho -> Hl. unfold fwrite. cbn [content fpos]. rewrite !zlen_app in Hl.
  pose proof (zlen_nonneg pre). pose proof (zlen_nonneg post).
  assert (0 < zlen data) by (destruct data; [done|]; rewrite zlen_cons; pose proof (zlen_nonneg data); lia).
  rewrite (proj2 (Z.ltb_lt _ _)), (proj2 (Z.leb_le _ _)) by lia. cbn [andb]. rewrite pad_to_id by (rewrite zlen_app; pose proof (zlen_nonneg (old ++ post)); lia).
  rewrite ztake_app_exact by done. rewrite zdrop_app_ge, zdrop_app_exact by lia. done.
Qed.

Lemma fread_app pre b post p :
  b <> [] -> p = zlen pre -> fread (zlen b) (mkFile (pre ++ b ++ post) p) = Some (b, mkFile (pre ++ b ++ post) (p + zlen b)).
Proof.
  intros Hb ->. unfold fread. cbn [content fpos]. rewrite !zlen_app. pose proof (zlen_nonneg post).
  assert (0 < zlen b) by (destruct b; [done|]; rewrite zlen_cons; pose proof (zlen_nonneg b); lia).
  rewrite (proj2 (Z.ltb_lt _ _)), (proj2 (Z.leb_le _ _)) by lia. cbn [andb]. by rewrite zdrop_app_exact, ztake_app_exact.
Qed.
