(* ===== verification/RecordBase.v ===== *)
(** Model of the common part of src/simpleperf/record.h and record.cpp: record
    types, [RecordHeader], [SampleId] and the base class [Record].

    Pointers into a record's binary ([data], [filename], [callchain_data.ips],
    ...) are offsets into [binary_]; [deref] reads through them.  [binary_] is
    the memory from the record's first byte to the end of the buffer it lies
    in, so that a reader that runs past the record is seen as it is. *)
From stdpp Require Import base list numbers strings.
From Stdlib Require Import ZArith Lia.
From S2P Require Import Prelude Utils.

(** * Constants of <linux/perf_event.h> (the kernel's stable user ABI) *)

Definition PERF_RECORD_MMAP : Z := 1.
Definition PERF_RECORD_LOST : Z := 2.
Definition PERF_RECORD_COMM : Z := 3.
Definition PERF_RECORD_EXIT : Z := 4.
Definition PERF_RECORD_FORK : Z := 7.
Definition PERF_RECORD_SAMPLE : Z := 9.
Definition PERF_RECORD_MMAP2 : Z := 10.

Definition PERF_RECORD_MISC_CPUMODE_MASK : Z := 7.
Definition PERF_RECORD_MISC_KERNEL : Z := 1.
Definition PERF_RECORD_MISC_USER : Z := 2.

(** [PERF_SAMPLE_X] is bit [SAMPLE_X] of [sample_type]. *)
Definition SAMPLE_IP : Z := 0.
Definition SAMPLE_TID : Z := 1.
Definition SAMPLE_TIME : Z := 2.
Definition SAMPLE_ADDR : Z := 3.
Definition SAMPLE_CALLCHAIN : Z := 5.
Definition SAMPLE_ID : Z := 6.
Definition SAMPLE_CPU : Z := 7.
Definition SAMPLE_PERIOD : Z := 8.
Definition SAMPLE_STREAM_ID : Z := 9.
Definition SAMPLE_RAW : Z := 10.
Definition SAMPLE_BRANCH_STACK : Z := 11.
Definition SAMPLE_REGS_USER : Z := 12.
Definition SAMPLE_STACK_USER : Z := 13.
Definition SAMPLE_IDENTIFIER : Z := 16.

(** [sample_type & PERF_SAMPLE_X] *)
Definition has (sample_type bit : Z) : bool := Z.testbit sample_type bit.

Definition PERF_CONTEXT_KERNEL : Z := 2 ^ 64 - 128.
Definition PERF_CONTEXT_USER : Z := 2 ^ 64 - 512.
Definition PERF_CONTEXT_MAX : Z := 2 ^ 64 - 4095.

(** The fields of the kernel's [perf_event_attr] that the record code reads. *)
Record perf_event_attr := {
  attr_sample_id_all : bool;
  attr_sample_type : Z;
  attr_sample_regs_user : Z;
}.

(** * [enum user_record_type] *)

Definition PERF_RECORD_USER_DEFINED_TYPE_START : Z := 64.
Definition PERF_RECORD_ATTR : Z := 64.
Definition PERF_RECORD_EVENT_TYPE : Z := 65.
Definition PERF_RECORD_TRACING_DATA : Z := 66.
Definition PERF_RECORD_BUILD_ID : Z := 67.
Definition PERF_RECORD_FINISHED_ROUND : Z := 68.
Definition SIMPLE_PERF_RECORD_TYPE_START : Z := 32768.
Definition SIMPLE_PERF_RECORD_KERNEL_SYMBOL : Z := 32769.
Definition SIMPLE_PERF_RECORD_DSO : Z := 32770.
Definition SIMPLE_PERF_RECORD_SYMBOL : Z := 32771.
Definition SIMPLE_PERF_RECORD_SPLIT : Z := 32772.
Definition SIMPLE_PERF_RECORD_SPLIT_END : Z := 32773.
Definition SIMPLE_PERF_RECORD_EVENT_ID : Z := 32774.
Definition SIMPLE_PERF_RECORD_CALLCHAIN : Z := 32775.
Definition SIMPLE_PERF_RECORD_UNWINDING_RESULT : Z := 32776.
Definition SIMPLE_PERF_RECORD_TRACING_DATA : Z := 32777.

(** * Headers *)

(** [perf_event_header]: type, misc, size. *)
Definition perf_event_header : codec (Z * (Z * Z)) :=
  pair_codec uint32_t (pair_codec uint16_t uint16_t).

(** [simpleperf_record_header]: type, size1, size0. *)
Definition simpleperf_record_header : codec (Z * (Z * Z)) :=
  pair_codec uint32_t (pair_codec uint16_t uint16_t).

Definition header_size : Z := 8.

Record RecordHeader := mkHeader { type : Z; misc : Z; size : Z }.

Definition RecordHeader_default : RecordHeader := mkHeader 0 0 0.

(** [RecordHeader(const char* p)] *)
Definition RecordHeader_read (m : bytes) : res RecordHeader :=
  '(pheader, _) ← MoveFromBinaryFormat perf_event_header m 0;
  let '(ptype, (pmisc, psize)) := pheader in
  if ptype <? SIMPLE_PERF_RECORD_TYPE_START then Ok (mkHeader ptype pmisc psize)
  else
    '(sheader, _) ← MoveFromBinaryFormat simpleperf_record_header m 0;
    let '(stype, (size1, size0)) := sheader in
    Ok (mkHeader stype 0 (Z.lor (Z.shiftl size1 16) size0)).

Definition RecordHeader_MoveToBinaryFormat (h : RecordHeader) (m : bytes) (p : Z)
    : res (bytes * Z) :=
  if type h <? SIMPLE_PERF_RECORD_TYPE_START then
    _ ← CHECK (size h <? Z.shiftl 1 16);
    MoveToBinaryFormat perf_event_header (type h, (misc h, u16 (size h))) m p
  else
    _ ← CHECK (misc h =? 0);
    MoveToBinaryFormat simpleperf_record_header
      (type h, (u16 (Z.shiftr (size h) 16), Z.land (size h) 65535)) m p.

(** * [SampleId] *)

Record PerfSampleTidType := mkTid { pid : Z; tid : Z }.
Record PerfSampleCpuType := mkCpu { cpu : Z; res_ : Z }.

Definition tid_codec : codec PerfSampleTidType :=
  struct_codec (pair_codec uint32_t uint32_t) (fun x => mkTid x.1 x.2) (fun t => (pid t, tid t)).
Definition cpu_codec : codec PerfSampleCpuType :=
  struct_codec (pair_codec uint32_t uint32_t) (fun x => mkCpu x.1 x.2) (fun t => (cpu t, res_ t)).

Record SampleId := mkSampleId {
  sample_id_all : bool;
  sid_sample_type : Z;
  sid_tid_data : PerfSampleTidType;
  sid_time : Z;
  sid_id : Z;
  sid_stream_id : Z;
  sid_cpu_data : PerfSampleCpuType;
}.

(** [SampleId::SampleId()]: [memset] to zero. *)
Definition SampleId_default : SampleId :=
  mkSampleId false 0 (mkTid 0 0) 0 0 0 (mkCpu 0 0).

Definition set_sid_time (t : Z) (s : SampleId) : SampleId :=
  mkSampleId (sample_id_all s) (sid_sample_type s) (sid_tid_data s) t (sid_id s)
             (sid_stream_id s) (sid_cpu_data s).

Definition SampleId_Size (s : SampleId) : Z :=
  let st := sid_sample_type s in
  if sample_id_all s then
    (if has st SAMPLE_TID then sizeof tid_codec else 0) +
    (if has st SAMPLE_TIME then sizeof uint64_t else 0) +
    (if has st SAMPLE_ID then sizeof uint64_t else 0) +
    (if has st SAMPLE_STREAM_ID then sizeof uint64_t else 0) +
    (if has st SAMPLE_CPU then sizeof cpu_codec else 0) +
    (if has st SAMPLE_IDENTIFIER then sizeof uint64_t else 0)
  else 0.

(** [SampleId::CreateContent]: the new object and its binary size. *)
Definition SampleId_CreateContent (attr : perf_event_attr) (event_id : Z) (s : SampleId)
    : SampleId * Z :=
  let s := mkSampleId (attr_sample_id_all attr) (attr_sample_type attr) (sid_tid_data s)
                      (sid_time s) event_id (sid_stream_id s) (sid_cpu_data s) in
  (s, SampleId_Size s).

(** [if (cond) MoveFromBinaryFormat(field, p);] *)
Definition read_if {T} (cond : bool) (c : codec T) (m : bytes) (old : T) (p : Z)
    : res (T * Z) :=
  if cond then MoveFromBinaryFormat c m p else Ok (old, p).

(** [if (cond) MoveToBinaryFormat(field, p);] *)
Definition write_if {T} (cond : bool) (c : codec T) (x : T) (m : bytes) (p : Z)
    : res (bytes * Z) :=
  if cond then MoveToBinaryFormat c x m p else Ok (m, p).

Definition SampleId_ReadFromBinaryFormat (attr : perf_event_attr) (s : SampleId)
    (m : bytes) (p end_ : Z) : res SampleId :=
  let all := attr_sample_id_all attr in
  let st := attr_sample_type attr in
  '(tid_data, p) ← read_if (all && has st SAMPLE_TID) tid_codec m (sid_tid_data s) p;
  '(time, p) ← read_if (all && has st SAMPLE_TIME) uint64_t m (sid_time s) p;
  '(id, p) ← read_if (all && has st SAMPLE_ID) uint64_t m (sid_id s) p;
  '(stream_id, p) ← read_if (all && has st SAMPLE_STREAM_ID) uint64_t m (sid_stream_id s) p;
  '(cpu_data, p) ← read_if (all && has st SAMPLE_CPU) cpu_codec m (sid_cpu_data s) p;
  '(id, p) ← read_if (all && has st SAMPLE_IDENTIFIER) uint64_t m id p;
  _ ← CHECK (p <=? end_);
  Ok (mkSampleId all st tid_data time id stream_id cpu_data).

Definition SampleId_WriteToBinaryFormat (s : SampleId) (m : bytes) (p : Z)
    : res (bytes * Z) :=
  let all := sample_id_all s in
  let st := sid_sample_type s in
  '(m, p) ← write_if (all && has st SAMPLE_TID) tid_codec (sid_tid_data s) m p;
  '(m, p) ← write_if (all && has st SAMPLE_TIME) uint64_t (sid_time s) m p;
  '(m, p) ← write_if (all && has st SAMPLE_ID) uint64_t (sid_id s) m p;
  '(m, p) ← write_if (all && has st SAMPLE_STREAM_ID) uint64_t (sid_stream_id s) m p;
  write_if (all && has st SAMPLE_CPU) cpu_codec (sid_cpu_data s) m p.

(** * The base class [Record] *)

Record Record_ := mkRecord {
  header : RecordHeader;
  sample_id : SampleId;
  binary_ : bytes;
  own_binary_ : bool;
}.

Definition Record_default : Record_ :=
  mkRecord RecordHeader_default SampleId_default [] false.

(** [Record(char* p)] *)
Definition Record_read (m : bytes) : res Record_ :=
  h ← RecordHeader_read m; Ok (mkRecord h SampleId_default m false).

(** [Record(Record&& other)]: the new object and what is left of [other]. *)
Definition Record_move (other : Record_) : Record_ * Record_ :=
  (other, mkRecord (header other) (sample_id other) [] false).

Definition OwnBinary (r : Record_) : Record_ :=
  mkRecord (header r) (sample_id r) (binary_ r) true.
Definition InKernel (r : Record_) : bool :=
  Z.land (misc (header r)) PERF_RECORD_MISC_CPUMODE_MASK =? PERF_RECORD_MISC_KERNEL.
Definition SetTypeAndMisc (ty mi : Z) (r : Record_) : Record_ :=
  mkRecord (mkHeader ty mi (size (header r))) (sample_id r) (binary_ r) (own_binary_ r).
Definition SetSize (sz : Z) (r : Record_) : Record_ :=
  mkRecord (mkHeader (type (header r)) (misc (header r)) (u32 sz)) (sample_id r)
           (binary_ r) (own_binary_ r).
Definition UpdateBinary (new_binary : bytes) (r : Record_) : Record_ :=
  mkRecord (header r) (sample_id r) new_binary true.
Definition set_sample_id (s : SampleId) (r : Record_) : Record_ :=
  mkRecord (header r) s (binary_ r) (own_binary_ r).

Definition Record_Timestamp (r : Record_) : Z := sid_time (sample_id r).
Definition Record_Cpu (r : Record_) : Z := cpu (sid_cpu_data (sample_id r)).
Definition Record_Id (r : Record_) : Z := sid_id (sample_id r).

(** Reading through a pointer into the record's binary. *)
Definition deref {T} (c : codec T) (r : Record_) (off : Z) : res T :=
  fst <$> MoveFromBinaryFormat c (binary_ r) off.
Definition deref_str (r : Record_) (off : Z) : res bytes :=
  n ← strlen (binary_ r) off; mem_read (binary_ r) off n.

(** * Values in range *)

Definition header_ok (h : RecordHeader) : Prop :=
  is_u32 (type h) /\ is_u16 (misc h) /\ is_u32 (size h) /\
  (type h < SIMPLE_PERF_RECORD_TYPE_START -> size h < 2 ^ 16) /\
  (SIMPLE_PERF_RECORD_TYPE_START <= type h -> misc h = 0).

Definition tid_ok (t : PerfSampleTidType) : Prop := is_u32 (pid t) /\ is_u32 (tid t).
Definition cpu_ok (t : PerfSampleCpuType) : Prop := is_u32 (cpu t) /\ is_u32 (res_ t).
Definition SampleId_ok (s : SampleId) : Prop :=
  tid_ok (sid_tid_data s) /\ is_u64 (sid_time s) /\ is_u64 (sid_id s) /\
  is_u64 (sid_stream_id s) /\ cpu_ok (sid_cpu_data s).

(** What the binary form of a [SampleId] carries: the selected fields; the
    others read back as zero. *)
Definition SampleId_selected (s : SampleId) : SampleId :=
  let all := sample_id_all s in
  let st := sid_sample_type s in
  mkSampleId all st
    (if all && has st SAMPLE_TID then sid_tid_data s else mkTid 0 0)
    (if all && has st SAMPLE_TIME then sid_time s else 0)
    (if all && has st SAMPLE_ID then sid_id s else 0)
    (if all && has st SAMPLE_STREAM_ID then sid_stream_id s else 0)
    (if all && has st SAMPLE_CPU then sid_cpu_data s else mkCpu 0 0).

(** * Codec laws *)

#[export] Instance tid_codec_ok : CodecOk tid_codec tid_ok.
Proof. by refine (struct_codec_ok (pair_codec uint32_t uint32_t) _ (fun t => (pid t, tid t)) _ _ _); intros []. Qed.
#[export] Instance cpu_codec_ok : CodecOk cpu_codec cpu_ok.
Proof. by refine (struct_codec_ok (pair_codec uint32_t uint32_t) _ (fun t => (cpu t, res_ t)) _ _ _); intros []. Qed.
#[export] Instance perf_event_header_ok :
  CodecOk perf_event_header (fun x => is_u32 x.1 /\ is_u16 x.2.1 /\ is_u16 x.2.2).
Proof. apply (pair_codec_ok _ _ is_u32 (fun y => is_u16 y.1 /\ is_u16 y.2)); apply _. Qed.

(** * Headers round trip *)

(** The eight bytes of a header. *)
Definition header_bytes (h : RecordHeader) : bytes :=
  enc perf_event_header
    (if type h <? SIMPLE_PERF_RECORD_TYPE_START then (type h, (misc h, size h))
     else (type h, (Z.shiftr (size h) 16, Z.land (size h) 65535))).

Lemma zlen_header_bytes h : zlen (header_bytes h) = 8.
Proof. unfold header_bytes. by rewrite enc_len. Qed.
#[export] Hint Rewrite zlen_header_bytes : zlen.

Lemma size_split sz :
  is_u32 sz -> is_u16 (Z.shiftr sz 16) /\ is_u16 (Z.land sz 65535) /\
  Z.lor (Z.shiftl (Z.shiftr sz 16) 16) (Z.land sz 65535) = sz.
Proof.
  unfold is_u32, is_u16. intros Hsz. rewrite Z.shiftr_div_pow2 by lia.
  change 65535 with (Z.ones 16). rewrite Z.land_ones by lia.
  pose proof (Z.mod_pos_bound sz (2 ^ 16) ltac:(lia)).
  pose proof (Z.div_mod sz (2 ^ 16) ltac:(lia)). split_and!; [lia..|].
  rewrite Z.lor_comm, lor_add_disjoint by lia. lia.
Qed.

Lemma RecordHeader_write h pre rest p :
  header_ok h -> p = zlen pre -> 8 <= zlen rest ->
  RecordHeader_MoveToBinaryFormat h (pre ++ rest) p =
    Ok ((pre ++ header_bytes h) ++ zdrop 8 rest, zlen (pre ++ header_bytes h)).
Proof.
  intros (Ht & Hm & Hs & Hsmall & Hbig) -> Hrest.
  unfold RecordHeader_MoveToBinaryFormat, header_bytes. unfold_u.
  destruct (type h <? SIMPLE_PERF_RECORD_TYPE_START) eqn:Hlt; bool_to_prop.
  - specialize (Hsmall Hlt). change (Z.shiftl 1 16) with (2 ^ 16).
    rewrite (proj2 (Z.ltb_lt _ _) Hsmall). cbn [CHECK mbind res_bind].
    rewrite u16_small by (unfold is_u16; lia).
    erewrite MoveTo_app by first [apply _|done]. done.
  - rewrite (proj2 (Z.eqb_eq _ _) (Hbig Hlt)). cbn [CHECK mbind res_bind].
    rewrite u16_small by (by apply size_split).
    erewrite MoveTo_app by first [apply perf_event_header_ok|done]. done.
Qed.

Lemma RecordHeader_read_at m h :
  header_ok h -> bytes_at m 0 (header_bytes h) -> RecordHeader_read m = Ok h.
Proof.
  intros (Ht & Hm & Hs & Hsmall & Hbig) Hat.
  unfold RecordHeader_read. unfold header_bytes in Hat.
  destruct (type h <? SIMPLE_PERF_RECORD_TYPE_START) eqn:Hlt; bool_to_prop.
  - assert (MoveFromBinaryFormat perf_event_header m 0
            = Ok ((type h, (misc h, size h)), 0 + 8)) as Hmv.
    { erewrite MoveFrom_at by first [apply _|exact Hat|cbn; unfold_u; lia]. done. }
    rewrite Hmv. cbn [mbind res_bind]. rewrite (proj2 (Z.ltb_lt _ _) Hlt). by destruct h.
  - destruct (size_split (size h) Hs) as (H1 & H0 & Heq).
    assert (MoveFromBinaryFormat perf_event_header m 0
            = Ok ((type h, (Z.shiftr (size h) 16, Z.land (size h) 65535)), 0 + 8)) as Hmv.
    { erewrite MoveFrom_at by first [apply perf_event_header_ok|exact Hat|by split_and!]. done. }
    rewrite Hmv. cbn [mbind res_bind]. rewrite (proj2 (Z.ltb_ge _ _) Hlt).
    change simpleperf_record_header with perf_event_header. rewrite Hmv. cbn [mbind res_bind].
    rewrite Heq, <- (Hbig Hlt). by destruct h.
Qed.

(** * Sequential writers and readers

    [writes f b]: at the end of what has been written, [f] appends [b].
    [reads f b x]: where the bytes [b] are, [f] returns [x] and skips them. *)

Definition writes (f : bytes -> Z -> res (bytes * Z)) (b : bytes) : Prop :=
  forall pre rest p, p = zlen pre -> zlen b <= zlen rest ->
    f (pre ++ rest) p = Ok ((pre ++ b) ++ zdrop (zlen b) rest, zlen (pre ++ b)).

Definition reads {A} (f : bytes -> Z -> res (A * Z)) (b : bytes) (x : A) : Prop :=
  forall m p, bytes_at m p b -> f m p = Ok (x, p + zlen b).

Lemma writes_bind f g b1 b2 :
  writes f b1 -> writes g b2 -> writes (fun m p => '(m, p) ← f m p; g m p) (b1 ++ b2).
Proof.
  intros Hf Hg pre rest p Hp Hlen. rewrite zlen_app in Hlen.
  pose proof (zlen_nonneg b1); pose proof (zlen_nonneg b2).
  rewrite Hf by lia. cbn [mbind res_bind].
  rewrite Hg by (rewrite ?zlen_zdrop; lia).
  rewrite zdrop_zdrop by lia. by rewrite <- (app_assoc pre b1 b2), (zlen_app b1 b2).
Qed.

Lemma writes_header h : header_ok h -> writes (RecordHeader_MoveToBinaryFormat h) (header_bytes h).
Proof.
  intros Hok pre rest p Hp Hlen. rewrite zlen_header_bytes in *. by apply RecordHeader_write.
Qed.

Lemma writes_value {T} (c : codec T) ok `{!CodecOk c ok} x :
  writes (MoveToBinaryFormat c x) (enc c x).
Proof.
  intros pre rest p Hp Hlen. rewrite enc_len in *. by erewrite MoveTo_app.
Qed.

Lemma writes_array {T} (c : codec T) ok `{!CodecOk c ok} l n :
  n = zlen l -> n * sizeof c < 2 ^ 64 ->
  writes (MoveToBinaryFormatN c l n) (enc_array c l).
Proof.
  intros -> Hn pre rest p Hp Hlen. rewrite (zlen_enc_array c ok) in *. by erewrite MoveToN_app.
Qed.

(** The bytes of a field that is present only if [cond]. *)
Definition opt_bytes {T} (cond : bool) (c : codec T) (x : T) : bytes :=
  if cond then enc c x else [].

Lemma writes_if {T} cond (c : codec T) ok `{!CodecOk c ok} x :
  writes (write_if cond c x) (opt_bytes cond c x).
Proof.
  destruct cond; [by eapply writes_value|]. intros pre rest p -> _. unfold write_if, opt_bytes.
  by rewrite app_nil_r.
Qed.

Lemma reads_value {T} (c : codec T) ok `{!CodecOk c ok} x :
  ok x -> reads (MoveFromBinaryFormat c) (enc c x) x.
Proof. intros Hx m p Hat. rewrite enc_len. by eapply MoveFrom_at. Qed.

Lemma reads_if {T} cond (c : codec T) ok `{!CodecOk c ok} x old :
  (cond = true -> ok x) ->
  reads (fun m p => read_if cond c m old p) (opt_bytes cond c x) (if cond then x else old).
Proof.
  destruct cond; intros Hx; [apply (reads_value c ok); auto|].
  intros m p _. unfold read_if. cbn. by rewrite Z.add_0_r.
Qed.

Lemma zlen_opt_bytes {T} cond (c : codec T) ok `{!CodecOk c ok} x :
  zlen (opt_bytes cond c x) = if cond then sizeof c else 0.
Proof. destruct cond; [apply enc_len|done]. Qed.

(** Rewrite one read of a parser with its [reads] lemma; [H : bytes_at m p b]. *)
Ltac step_read H L :=
  let H1 := fresh "Hat" in
  apply bytes_at_split in H as [H1 H]; rewrite (L _ _ H1); cbn [mbind res_bind]; clear H1.

(** * [SampleId] round trip *)

(** The bytes [WriteToBinaryFormat] appends. *)
Definition SampleId_bytes (s : SampleId) : bytes :=
  let all := sample_id_all s in
  let st := sid_sample_type s in
  opt_bytes (all && has st SAMPLE_TID) tid_codec (sid_tid_data s) ++
  opt_bytes (all && has st SAMPLE_TIME) uint64_t (sid_time s) ++
  opt_bytes (all && has st SAMPLE_ID) uint64_t (sid_id s) ++
  opt_bytes (all && has st SAMPLE_STREAM_ID) uint64_t (sid_stream_id s) ++
  opt_bytes (all && has st SAMPLE_CPU) cpu_codec (sid_cpu_data s).

Lemma writes_SampleId s : writes (SampleId_WriteToBinaryFormat s) (SampleId_bytes s).
Proof.
  unfold SampleId_bytes, SampleId_WriteToBinaryFormat.
  repeat first [eapply writes_if; apply _ | apply writes_bind with
    (g := fun m p => _) ].
Qed.

(** [Size] counts the identifier, which [WriteToBinaryFormat] does not write. *)
Definition identifier_size (s : SampleId) : Z :=
  if sample_id_all s && has (sid_sample_type s) SAMPLE_IDENTIFIER then 8 else 0.

Lemma SampleId_Size_bytes s : SampleId_Size s = zlen (SampleId_bytes s) + identifier_size s.
Proof.
  unfold SampleId_Size, SampleId_bytes, identifier_size, opt_bytes.
  destruct (sample_id_all s); cbn [andb]; [|done].
  autorewrite with zlen.
  repeat case_if; autorewrite with zlen; repeat rewrite enc_len; cbn; lia.
Qed.

Definition attr_of (s : SampleId) (attr : perf_event_attr) : Prop :=
  sample_id_all s = attr_sample_id_all attr /\ sid_sample_type s = attr_sample_type attr.

(** Reading a [SampleId] from memory that holds its bytes, followed by the
    eight bytes [x] of the identifier if it is selected. *)
Lemma SampleId_read_at attr s m p end_ x :
  attr_of s attr -> SampleId_ok s -> is_u64 x ->
  bytes_at m p (SampleId_bytes s ++
    opt_bytes (sample_id_all s && has (sid_sample_type s) SAMPLE_IDENTIFIER) uint64_t x) ->
  p + SampleId_Size s <= end_ ->
  SampleId_ReadFromBinaryFormat attr SampleId_default m p end_ =
    Ok (let s' := SampleId_selected s in
        if sample_id_all s && has (sid_sample_type s) SAMPLE_IDENTIFIER
        then mkSampleId (sample_id_all s') (sid_sample_type s') (sid_tid_data s') (sid_time s')
               x (sid_stream_id s') (sid_cpu_data s')
        else s').
Proof.
  intros [Hall Hst] (Htid & Htime & Hid & Hsid & Hcpu) Hx Hat Hend.
  rewrite SampleId_Size_bytes in Hend.
  unfold SampleId_ReadFromBinaryFormat. rewrite <- Hall, <- Hst.
  cbn [sid_tid_data sid_time sid_id sid_stream_id sid_cpu_data SampleId_default].
  assert (identifier_size s = zlen (opt_bytes (sample_id_all s &&
    has (sid_sample_type s) SAMPLE_IDENTIFIER) uint64_t x)) as Hids.
  { rewrite (zlen_opt_bytes _ _ is_u64). unfold identifier_size. done. }
  unfold SampleId_bytes in *. rewrite <- !app_assoc in Hat. rewrite Hids in Hend.
  autorewrite with zlen in Hend.
  step_read Hat (reads_if (sample_id_all s && has (sid_sample_type s) SAMPLE_TID)
    tid_codec tid_ok (sid_tid_data s) (mkTid 0 0) (fun _ => Htid)).
  step_read Hat (reads_if (sample_id_all s && has (sid_sample_type s) SAMPLE_TIME)
    uint64_t is_u64 (sid_time s) 0 (fun _ => Htime)).
  step_read Hat (reads_if (sample_id_all s && has (sid_sample_type s) SAMPLE_ID)
    uint64_t is_u64 (sid_id s) 0 (fun _ => Hid)).
  step_read Hat (reads_if (sample_id_all s && has (sid_sample_type s) SAMPLE_STREAM_ID)
    uint64_t is_u64 (sid_stream_id s) 0 (fun _ => Hsid)).
  step_read Hat (reads_if (sample_id_all s && has (sid_sample_type s) SAMPLE_CPU)
    cpu_codec cpu_ok (sid_cpu_data s) (mkCpu 0 0) (fun _ => Hcpu)).
  erewrite (reads_if (sample_id_all s && has (sid_sample_type s) SAMPLE_IDENTIFIER)
    uint64_t is_u64 x _ (fun _ => Hx)) by exact Hat. cbn [mbind res_bind].
  rewrite CHECK_le by lia. cbn [mbind res_bind].
  by destruct (sample_id_all s && has (sid_sample_type s) SAMPLE_IDENTIFIER).
Qed.

(** If the identifier is selected, [WriteToBinaryFormat] stops eight bytes
    short of [Size()]: the bytes a reader takes for the id are whatever the
    buffer held before, so the event id is lost. *)
Theorem SampleId_identifier_unwritten s pre rest :
  sample_id_all s = true -> has (sid_sample_type s) SAMPLE_IDENTIFIER = true ->
  SampleId_Size s <= zlen rest ->
  exists m', SampleId_WriteToBinaryFormat s (pre ++ rest) (zlen pre)
      = Ok (m', zlen pre + SampleId_Size s - 8) /\
    ztake 8 (zdrop (zlen pre + SampleId_Size s - 8) m') = ztake 8 (zdrop (SampleId_Size s - 8) rest).
Proof.
  intros Hall Hid Hlen. pose proof (SampleId_Size_bytes s) as Hsz.
  assert (identifier_size s = 8) as H8 by (unfold identifier_size; by rewrite Hall, Hid).
  pose proof (zlen_nonneg (SampleId_bytes s)). pose proof (zlen_nonneg pre).
  eexists. rewrite (writes_SampleId s) by lia. split.
  - rewrite zlen_app. do 2 f_equal. lia.
  - replace (zlen pre + SampleId_Size s - 8) with (zlen (pre ++ SampleId_bytes s))
      by (rewrite zlen_app; lia).
    rewrite zdrop_app_exact by done. do 2 f_equal. lia.
Qed.

Lemma SampleId_identifier_unwritten_witness :
  exists m', SampleId_WriteToBinaryFormat
      (mkSampleId true 65538 (mkTid 1 2) 0 77 0 (mkCpu 0 0)) ([] ++ replicate 16 9) 0
      = Ok (m', 0 + 16 - 8) /\
    ztake 8 (zdrop (0 + 16 - 8) m') = ztake 8 (zdrop (16 - 8) (replicate 16 9)).
Proof.
  apply (SampleId_identifier_unwritten (mkSampleId true 65538 (mkTid 1 2) 0 77 0 (mkCpu 0 0))
           [] (replicate 16 9)); [reflexivity|reflexivity|vm_compute; congruence].
Defined.
