(* ===== verification/Records.v ===== *)
(** Model of the records of src/simpleperf/record.h and record.cpp other than
    [SampleRecord]: for each class its data, the constructor that parses a
    binary record and the constructor that builds one, and the round trips
    between the two.

    A builder allocates with [new char[size()]]; the bytes it leaves unwritten
    (alignment padding) keep the allocator's indeterminate contents, the
    argument [junk].  Uninitialised struct fields are arguments too. *)
From stdpp Require Import base list numbers strings.
From Stdlib Require Import ZArith Lia.
From S2P Require Import Prelude Utils RecordBase.

(** * Data structs *)

Local Notation "a ** b" := (pair_codec a b) (at level 35, right associativity).

Record MmapRecordDataType := mkMmapData {
  mmap_pid : Z; mmap_tid : Z; mmap_addr : Z; mmap_len : Z; mmap_pgoff : Z }.
Definition MmapRecordDataType_codec : codec MmapRecordDataType :=
  struct_codec (uint32_t ** uint32_t ** uint64_t ** uint64_t ** uint64_t)
    (fun '(p, (t, (a, (l, o)))) => mkMmapData p t a l o)
    (fun d => (mmap_pid d, (mmap_tid d, (mmap_addr d, (mmap_len d, mmap_pgoff d))))).

Record Mmap2RecordDataType := mkMmap2Data {
  mmap2_pid : Z; mmap2_tid : Z; mmap2_addr : Z; mmap2_len : Z; mmap2_pgoff : Z;
  mmap2_maj : Z; mmap2_min : Z; mmap2_ino : Z; mmap2_ino_generation : Z;
  mmap2_prot : Z; mmap2_flags : Z }.
Definition Mmap2RecordDataType_codec : codec Mmap2RecordDataType :=
  struct_codec (uint32_t ** uint32_t ** uint64_t ** uint64_t ** uint64_t ** uint32_t **
                uint32_t ** uint64_t ** uint64_t ** uint32_t ** uint32_t)
    (fun '(p, (t, (a, (l, (o, (j, (n, (i, (g, (r, f)))))))))) => mkMmap2Data p t a l o j n i g r f)
    (fun d => (mmap2_pid d, (mmap2_tid d, (mmap2_addr d, (mmap2_len d, (mmap2_pgoff d,
      (mmap2_maj d, (mmap2_min d, (mmap2_ino d, (mmap2_ino_generation d,
      (mmap2_prot d, mmap2_flags d))))))))))).

Record CommRecordDataType := mkCommData { comm_pid : Z; comm_tid : Z }.
Definition CommRecordDataType_codec : codec CommRecordDataType :=
  struct_codec (uint32_t ** uint32_t) (fun '(p, t) => mkCommData p t)
    (fun d => (comm_pid d, comm_tid d)).

Record ExitOrForkRecordDataType := mkForkData {
  fork_pid : Z; fork_ppid : Z; fork_tid : Z; fork_ptid : Z; fork_time : Z }.
Definition ExitOrForkRecordDataType_codec : codec ExitOrForkRecordDataType :=
  struct_codec (uint32_t ** uint32_t ** uint32_t ** uint32_t ** uint64_t)
    (fun '(p, (pp, (t, (pt, tm)))) => mkForkData p pp t pt tm)
    (fun d => (fork_pid d, (fork_ppid d, (fork_tid d, (fork_ptid d, fork_time d))))).

Record EventIdData := mkEventIdData { attr_id : Z; event_id : Z }.
Definition EventIdData_codec : codec EventIdData :=
  struct_codec (uint64_t ** uint64_t) (fun '(a, e) => mkEventIdData a e)
    (fun d => (attr_id d, event_id d)).

(** [simpleperf::UnwindingResult] *)
Record UnwindingResult := mkUnwindingResult {
  used_time : Z; stop_reason : Z; stop_info : Z; stack_start : Z; stack_end : Z }.

(** * Record classes: a base [Record] and pointers into its binary *)

Record MmapRecord := mkMmap { mmap_rec : Record_; mmap_data : Z; mmap_filename : Z }.
Record Mmap2Record := mkMmap2 { mmap2_rec : Record_; mmap2_data : Z; mmap2_filename : Z }.
Record CommRecord := mkComm { comm_rec : Record_; comm_data : Z; comm_comm : Z }.
Record ExitOrForkRecord := mkFork { fork_rec : Record_; fork_data : Z }.
Record LostRecord := mkLost { lost_rec : Record_; lost_id : Z; lost_lost : Z }.
Record BuildIdRecord := mkBuildIdRec {
  bid_rec : Record_; bid_pid : Z; bid_build_id : BuildId; bid_filename : Z }.
Record KernelSymbolRecord := mkKsym { ksym_rec : Record_; kallsyms_size : Z; kallsyms : Z }.
Record DsoRecord := mkDso {
  dso_rec : Record_; dso_type : Z; dso_id : Z; min_vaddr : Z; dso_name : Z }.
Record SymbolRecord := mkSymbol {
  sym_rec : Record_; sym_addr : Z; sym_len : Z; sym_dso_id : Z; sym_name : Z }.
Record TracingDataRecord := mkTracing { trc_rec : Record_; data_size : Z; trc_data : Z }.
Record EventIdRecord := mkEventId { eid_rec : Record_; eid_count : Z; eid_data : Z }.
Record CallChainRecord := mkCallChain {
  cc_rec : Record_; cc_pid : Z; cc_tid : Z; cc_chain_type : Z; cc_time : Z;
  cc_ip_nr : Z; cc_ips : Z; cc_sps : Z }.
Record UnwindingResultRecord := mkUnwinding {
  uw_rec : Record_; uw_time : Z; uw_result : UnwindingResult }.
Record UnknownRecord := mkUnknown { unk_rec : Record_; unk_data : Z }.

(** * Parsing constructors *)

(** The common text of the [MmapRecord], [Mmap2Record] and [CommRecord]
    constructors: a struct, a NUL-terminated name padded to 8, a [SampleId].
    Returns the base record and the pointers to struct and name. *)
Definition read_named {T} (c : codec T) (attr : perf_event_attr) (m : bytes)
    : res (Record_ * Z * Z) :=
  r ← Record_read m;
  let end_ := size (header r) in
  let data := header_size in
  let filename := data + sizeof c in
  n ← strlen m filename;
  let p := filename + Align (n + 1) 8 in
  _ ← CHECK (p <=? end_);
  s ← SampleId_ReadFromBinaryFormat attr (sample_id r) m p end_;
  Ok (set_sample_id s r, data, filename).

Definition MmapRecord_read (attr : perf_event_attr) (m : bytes) : res MmapRecord :=
  '(r, data, filename) ← read_named MmapRecordDataType_codec attr m;
  Ok (mkMmap r data filename).

Definition Mmap2Record_read (attr : perf_event_attr) (m : bytes) : res Mmap2Record :=
  '(r, data, filename) ← read_named Mmap2RecordDataType_codec attr m;
  Ok (mkMmap2 r data filename).

Definition CommRecord_read (attr : perf_event_attr) (m : bytes) : res CommRecord :=
  '(r, data, comm) ← read_named CommRecordDataType_codec attr m;
  Ok (mkComm r data comm).

Definition ExitOrForkRecord_read (attr : perf_event_attr) (m : bytes) : res ExitOrForkRecord :=
  r ← Record_read m;
  let end_ := size (header r) in
  let data := header_size in
  let p := data + sizeof ExitOrForkRecordDataType_codec in
  _ ← CHECK (p <=? end_);
  s ← SampleId_ReadFromBinaryFormat attr (sample_id r) m p end_;
  Ok (mkFork (set_sample_id s r) data).

Definition LostRecord_read (attr : perf_event_attr) (m : bytes) : res LostRecord :=
  r ← Record_read m;
  let end_ := size (header r) in
  '(id, p) ← MoveFromBinaryFormat uint64_t m header_size;
  '(lost, p) ← MoveFromBinaryFormat uint64_t m p;
  _ ← CHECK (p <=? end_);
  s ← SampleId_ReadFromBinaryFormat attr (sample_id r) m p end_;
  Ok (mkLost (set_sample_id s r) id lost).

Definition BuildIdRecord_read (m : bytes) : res BuildIdRecord :=
  r ← Record_read m;
  let end_ := size (header r) in
  '(pid, p) ← MoveFromBinaryFormat uint32_t m header_size;
  b ← mem_read m p BUILD_ID_SIZE;
  build_id ← BuildId_of_bytes b BUILD_ID_SIZE;
  let filename := p + Align BUILD_ID_SIZE 8 in
  n ← strlen m filename;
  let p := filename + Align (n + 1) 64 in
  _ ← CHECK (p =? end_);
  Ok (mkBuildIdRec r pid build_id filename).

Definition KernelSymbolRecord_read (m : bytes) : res KernelSymbolRecord :=
  r ← Record_read m;
  let end_ := size (header r) in
  '(ksize, p) ← MoveFromBinaryFormat uint32_t m header_size;
  _ ← CHECK (p + Align ksize 8 =? end_);
  Ok (mkKsym r ksize p).

Definition DsoRecord_read (m : bytes) : res DsoRecord :=
  r ← Record_read m;
  let end_ := size (header r) in
  '(ty, p) ← MoveFromBinaryFormat uint64_t m header_size;
  '(id, p) ← MoveFromBinaryFormat uint64_t m p;
  '(vaddr, p) ← MoveFromBinaryFormat uint64_t m p;
  n ← strlen m p;
  _ ← CHECK (p + Align (n + 1) 8 =? end_);
  Ok (mkDso r ty id vaddr p).

Definition SymbolRecord_read (m : bytes) : res SymbolRecord :=
  r ← Record_read m;
  let end_ := size (header r) in
  '(addr, p) ← MoveFromBinaryFormat uint64_t m header_size;
  '(len, p) ← MoveFromBinaryFormat uint64_t m p;
  '(id, p) ← MoveFromBinaryFormat uint64_t m p;
  n ← strlen m p;
  _ ← CHECK (p + Align (n + 1) 8 =? end_);
  Ok (mkSymbol r addr len id p).

Definition TracingDataRecord_read (m : bytes) : res TracingDataRecord :=
  r ← Record_read m;
  let end_ := size (header r) in
  '(dsize, p) ← MoveFromBinaryFormat uint32_t m header_size;
  _ ← CHECK (p + Align dsize 64 =? end_);
  Ok (mkTracing r dsize p).

Definition EventIdRecord_read (m : bytes) : res EventIdRecord :=
  r ← Record_read m;
  let end_ := size (header r) in
  '(count, p) ← MoveFromBinaryFormat uint64_t m header_size;
  _ ← CHECK (p + u64 (sizeof EventIdData_codec * count) =? end_);
  Ok (mkEventId r count p).

Definition CallChainRecord_read (m : bytes) : res CallChainRecord :=
  r ← Record_read m;
  let end_ := size (header r) in
  '(pid, p) ← MoveFromBinaryFormat uint32_t m header_size;
  '(tid, p) ← MoveFromBinaryFormat uint32_t m p;
  '(chain_type, p) ← MoveFromBinaryFormat uint64_t m p;
  '(time, p) ← MoveFromBinaryFormat uint64_t m p;
  '(ip_nr, p) ← MoveFromBinaryFormat uint64_t m p;
  let ips := p in
  let sps := ips + u64 (ip_nr * 8) in
  _ ← CHECK (sps + u64 (ip_nr * 8) =? end_);
  Ok (mkCallChain r pid tid chain_type time ip_nr ips sps).

Definition UnwindingResultRecord_read (m : bytes) : res UnwindingResultRecord :=
  r ← Record_read m;
  let end_ := size (header r) in
  '(time, p) ← MoveFromBinaryFormat uint64_t m header_size;
  '(used, p) ← MoveFromBinaryFormat uint64_t m p;
  '(reason, p) ← MoveFromBinaryFormat uint64_t m p;
  '(info, p) ← MoveFromBinaryFormat uint64_t m p;
  '(sstart, p) ← MoveFromBinaryFormat uint64_t m p;
  '(send, p) ← MoveFromBinaryFormat uint64_t m p;
  _ ← CHECK (p =? end_);
  Ok (mkUnwinding r time (mkUnwindingResult used (u32 reason) info sstart send)).

Definition UnknownRecord_read (m : bytes) : res UnknownRecord :=
  r ← Record_read m; Ok (mkUnknown r header_size).

(** * Building constructors *)

(** [MmapRecord::SetDataAndFilename], [Mmap2Record::SetDataAndFilename] and the
    tail of the [CommRecord] constructor. *)
Definition write_named {T} (junk : nat -> Z) (c : codec T) (r : Record_) (data : T)
    (filename : bytes) : res (Record_ * Z * Z) :=
  let al := Align (zlen filename + 1) 8 in
  let r := SetSize (header_size + sizeof c + al + SampleId_Size (sample_id r)) r in
  let m := new_char junk (size (header r)) in
  '(m, p) ← RecordHeader_MoveToBinaryFormat (header r) m 0;
  let data_p := p in
  '(m, p) ← MoveToBinaryFormat c data m p;
  let filename_p := p in
  m ← strcpy m p filename;
  let p := p + al in
  '(m, p) ← SampleId_WriteToBinaryFormat (sample_id r) m p;
  Ok (UpdateBinary m r, data_p, filename_p).

Definition MmapRecord_SetDataAndFilename junk (r : Record_) (data : MmapRecordDataType)
    (filename : bytes) : res MmapRecord :=
  '(r, d, f) ← write_named junk MmapRecordDataType_codec r data filename; Ok (mkMmap r d f).

Definition Mmap2Record_SetDataAndFilename junk (r : Record_) (data : Mmap2RecordDataType)
    (filename : bytes) : res Mmap2Record :=
  '(r, d, f) ← write_named junk Mmap2RecordDataType_codec r data filename; Ok (mkMmap2 r d f).

(** The base record of a new record: type, misc, sample id content and time. *)
Definition new_record (ty mi : Z) (attr : perf_event_attr) (event_id time : Z) : Record_ :=
  let r := SetTypeAndMisc ty mi Record_default in
  let '(s, _) := SampleId_CreateContent attr event_id (sample_id r) in
  set_sample_id (set_sid_time time s) r.

Definition kernel_or_user (in_kernel : bool) : Z :=
  if in_kernel then PERF_RECORD_MISC_KERNEL else PERF_RECORD_MISC_USER.

Definition MmapRecord_new junk (attr : perf_event_attr) (in_kernel : bool)
    (pid tid addr len pgoff : Z) (filename : bytes) (event_id time : Z) : res MmapRecord :=
  MmapRecord_SetDataAndFilename junk
    (new_record PERF_RECORD_MMAP (kernel_or_user in_kernel) attr event_id time)
    (mkMmapData pid tid addr len pgoff) filename.

(** The constructor sets pid, tid, addr, len, pgoff and prot; [undef] holds
    what maj, min, ino, ino_generation and flags happen to contain. *)
Definition Mmap2Record_new junk (undef : Mmap2RecordDataType) (attr : perf_event_attr)
    (in_kernel : bool) (pid tid addr len pgoff prot : Z) (filename : bytes)
    (event_id time : Z) : res Mmap2Record :=
  Mmap2Record_SetDataAndFilename junk
    (new_record PERF_RECORD_MMAP2 (kernel_or_user in_kernel) attr event_id time)
    (mkMmap2Data pid tid addr len pgoff (mmap2_maj undef) (mmap2_min undef) (mmap2_ino undef)
       (mmap2_ino_generation undef) prot (mmap2_flags undef))
    filename.

Definition CommRecord_new junk (attr : perf_event_attr) (pid tid : Z) (comm : bytes)
    (event_id time : Z) : res CommRecord :=
  '(r, d, f) ← write_named junk CommRecordDataType_codec
    (new_record PERF_RECORD_COMM 0 attr event_id time) (mkCommData pid tid) comm;
  Ok (mkComm r d f).

Definition ForkRecord_new junk (attr : perf_event_attr) (pid tid ppid ptid event_id : Z)
    : res ExitOrForkRecord :=
  let r := new_record PERF_RECORD_FORK 0 attr event_id 0 in
  let data := mkForkData pid ppid tid ptid 0 in
  let r := SetSize (header_size + sizeof ExitOrForkRecordDataType_codec +
                    SampleId_Size (sample_id r)) r in
  let m := new_char junk (size (header r)) in
  '(m, p) ← RecordHeader_MoveToBinaryFormat (header r) m 0;
  let data_p := p in
  '(m, p) ← MoveToBinaryFormat ExitOrForkRecordDataType_codec data m p;
  '(m, p) ← SampleId_WriteToBinaryFormat (sample_id r) m p;
  Ok (mkFork (UpdateBinary m r) data_p).

(** The base record of a record without a [SampleId] of its own. *)
Definition plain_record (ty mi : Z) : Record_ := SetTypeAndMisc ty mi Record_default.

Definition BuildIdRecord_new junk (in_kernel : bool) (pid : Z) (build_id : BuildId)
    (filename : bytes) : res BuildIdRecord :=
  let r := SetSize (header_size + 4 + Align BUILD_ID_SIZE 8 + Align (zlen filename + 1) 64)
             (plain_record PERF_RECORD_BUILD_ID (kernel_or_user in_kernel)) in
  let m := new_char junk (size (header r)) in
  '(m, p) ← RecordHeader_MoveToBinaryFormat (header r) m 0;
  '(m, p) ← MoveToBinaryFormat uint32_t (u32 pid) m p;
  m ← mem_write m p (data_ build_id);
  let filename_p := p + Align BUILD_ID_SIZE 8 in
  m ← strcpy m filename_p filename;
  Ok (mkBuildIdRec (UpdateBinary m r) (u32 pid) build_id filename_p).

(** A record made of its header, a 32-bit size and that many bytes. *)
Definition write_sized junk (ty : Z) (data : bytes) (alignment : Z) : res (Record_ * Z * Z) :=
  let sz := u32 (zlen data) in
  let r := SetSize (header_size + 4 + Align (zlen data) alignment) (plain_record ty 0) in
  let m := new_char junk (size (header r)) in
  '(m, p) ← RecordHeader_MoveToBinaryFormat (header r) m 0;
  '(m, p) ← MoveToBinaryFormat uint32_t sz m p;
  b ← mem_read data 0 sz;
  m ← mem_write m p b;
  Ok (UpdateBinary m r, sz, p).

Definition KernelSymbolRecord_new junk (kallsyms : bytes) : res KernelSymbolRecord :=
  '(r, sz, p) ← write_sized junk SIMPLE_PERF_RECORD_KERNEL_SYMBOL kallsyms 8; Ok (mkKsym r sz p).

Definition TracingDataRecord_new junk (tracing_data : bytes) : res TracingDataRecord :=
  '(r, sz, p) ← write_sized junk SIMPLE_PERF_RECORD_TRACING_DATA tracing_data 64;
  Ok (mkTracing r sz p).

(** A record made of its header, three 64-bit values and a name. *)
Definition write_3u64_name junk (ty x y z : Z) (name : bytes) : res (Record_ * Z) :=
  let r := SetSize (header_size + 3 * sizeof uint64_t + Align (zlen name + 1) 8)
             (plain_record ty 0) in
  let m := new_char junk (size (header r)) in
  '(m, p) ← RecordHeader_MoveToBinaryFormat (header r) m 0;
  '(m, p) ← MoveToBinaryFormat uint64_t x m p;
  '(m, p) ← MoveToBinaryFormat uint64_t y m p;
  '(m, p) ← MoveToBinaryFormat uint64_t z m p;
  m ← strcpy m p name;
  Ok (UpdateBinary m r, p).

Definition DsoRecord_new junk (dso_type dso_id : Z) (dso_name : bytes) (min_vaddr : Z)
    : res DsoRecord :=
  '(r, p) ← write_3u64_name junk SIMPLE_PERF_RECORD_DSO dso_type dso_id min_vaddr dso_name;
  Ok (mkDso r dso_type dso_id min_vaddr p).

Definition SymbolRecord_new junk (addr len : Z) (name : bytes) (dso_id : Z) : res SymbolRecord :=
  '(r, p) ← write_3u64_name junk SIMPLE_PERF_RECORD_SYMBOL addr len dso_id name;
  Ok (mkSymbol r addr len dso_id p).

Definition EventIdRecord_new junk (data : list Z) : res EventIdRecord :=
  let r := SetSize (header_size + 8 * (1 + zlen data))
             (plain_record SIMPLE_PERF_RECORD_EVENT_ID 0) in
  let m := new_char junk (size (header r)) in
  '(m, p) ← RecordHeader_MoveToBinaryFormat (header r) m 0;
  let count := zlen data / 2 in
  '(m, p) ← MoveToBinaryFormat uint64_t count m p;
  m ← mem_write m p (enc_array uint64_t data);
  Ok (mkEventId (UpdateBinary m r) count p).

Definition CallChainRecord_new junk (pid tid type time : Z) (ips sps : list Z)
    : res CallChainRecord :=
  _ ← CHECK (zlen ips =? zlen sps);
  let r := SetSize (header_size + (4 + zlen ips * 2) * 8)
             (plain_record SIMPLE_PERF_RECORD_CALLCHAIN 0) in
  let m := new_char junk (size (header r)) in
  '(m, p) ← RecordHeader_MoveToBinaryFormat (header r) m 0;
  '(m, p) ← MoveToBinaryFormat uint32_t (u32 pid) m p;
  '(m, p) ← MoveToBinaryFormat uint32_t (u32 tid) m p;
  '(m, p) ← MoveToBinaryFormat uint64_t type m p;
  '(m, p) ← MoveToBinaryFormat uint64_t time m p;
  '(m, p) ← MoveToBinaryFormat uint64_t (zlen ips) m p;
  let ips_p := p in
  '(m, p) ← MoveToBinaryFormatN uint64_t ips (zlen ips) m p;
  let sps_p := p in
  '(m, p) ← MoveToBinaryFormatN uint64_t sps (zlen sps) m p;
  Ok (mkCallChain (UpdateBinary m r) (u32 pid) (u32 tid) type time (zlen ips) ips_p sps_p).

Definition UnwindingResultRecord_new junk (time : Z) (u : UnwindingResult)
    : res UnwindingResultRecord :=
  let r := SetSize (header_size + 6 * 8) (plain_record SIMPLE_PERF_RECORD_UNWINDING_RESULT 0) in
  let m := new_char junk (size (header r)) in
  '(m, p) ← RecordHeader_MoveToBinaryFormat (header r) m 0;
  '(m, p) ← MoveToBinaryFormat uint64_t time m p;
  '(m, p) ← MoveToBinaryFormat uint64_t (used_time u) m p;
  '(m, p) ← MoveToBinaryFormat uint64_t (stop_reason u) m p;
  '(m, p) ← MoveToBinaryFormat uint64_t (stop_info u) m p;
  '(m, p) ← MoveToBinaryFormat uint64_t (stack_start u) m p;
  '(m, p) ← MoveToBinaryFormat uint64_t (stack_end u) m p;
  Ok (mkUnwinding (UpdateBinary m r) time u).

(** * Values in range and codec laws *)

Definition mmap_data_ok (d : MmapRecordDataType) : Prop :=
  is_u32 (mmap_pid d) /\ is_u32 (mmap_tid d) /\ is_u64 (mmap_addr d) /\
  is_u64 (mmap_len d) /\ is_u64 (mmap_pgoff d).
Definition mmap2_data_ok (d : Mmap2RecordDataType) : Prop :=
  is_u32 (mmap2_pid d) /\ is_u32 (mmap2_tid d) /\ is_u64 (mmap2_addr d) /\
  is_u64 (mmap2_len d) /\ is_u64 (mmap2_pgoff d) /\ is_u32 (mmap2_maj d) /\
  is_u32 (mmap2_min d) /\ is_u64 (mmap2_ino d) /\ is_u64 (mmap2_ino_generation d) /\
  is_u32 (mmap2_prot d) /\ is_u32 (mmap2_flags d).
Definition comm_data_ok (d : CommRecordDataType) : Prop :=
  is_u32 (comm_pid d) /\ is_u32 (comm_tid d).
Definition fork_data_ok (d : ExitOrForkRecordDataType) : Prop :=
  is_u32 (fork_pid d) /\ is_u32 (fork_ppid d) /\ is_u32 (fork_tid d) /\
  is_u32 (fork_ptid d) /\ is_u64 (fork_time d).
Definition event_id_data_ok (d : EventIdData) : Prop :=
  is_u64 (attr_id d) /\ is_u64 (event_id d).

(** A struct codec satisfies the law when its tuple of fields does. *)
Ltac struct_ok :=
  eapply struct_codec_ok_by;
  [ repeat first [apply uint32_t_ok | apply uint64_t_ok | apply pair_codec_ok]
  | by intros []
  | by let H := fresh in intros [] H; cbn in *; decompose [and] H ].

#[export] Instance MmapRecordDataType_ok : CodecOk MmapRecordDataType_codec mmap_data_ok.
Proof. struct_ok. Qed.
#[export] Instance Mmap2RecordDataType_ok : CodecOk Mmap2RecordDataType_codec mmap2_data_ok.
Proof. struct_ok. Qed.
#[export] Instance CommRecordDataType_ok : CodecOk CommRecordDataType_codec comm_data_ok.
Proof. struct_ok. Qed.
#[export] Instance ExitOrForkRecordDataType_ok :
  CodecOk ExitOrForkRecordDataType_codec fork_data_ok.
Proof. struct_ok. Qed.
#[export] Instance EventIdData_ok : CodecOk EventIdData_codec event_id_data_ok.
Proof. struct_ok. Qed.

(** * Padded fields *)

(** Bytes [b] in a field of [al] bytes; the rest of the field keeps what the
    buffer held. *)
Definition field (b : bytes) (al : Z) (rest : bytes) : bytes :=
  b ++ ztake (al - zlen b) (zdrop (zlen b) rest).

Lemma mem_write_field pre rest b al p :
  p = zlen pre -> zlen b <= al <= zlen rest ->
  mem_write (pre ++ rest) p b = Ok ((pre ++ field b al rest) ++ zdrop al rest) /\
  zlen (field b al rest) = al.
Proof.
  intros -> Hal. pose proof (zlen_nonneg b). unfold field. split.
  - rewrite mem_write_app by lia. rewrite <- !app_assoc. do 3 f_equal.
    rewrite <- (ztake_zdrop (al - zlen b) (zdrop (zlen b) rest)) at 1.
    rewrite zdrop_zdrop by lia. do 2 f_equal. lia.
  - rewrite zlen_app, zlen_ztake; [lia|]. rewrite zlen_zdrop by lia. lia.
Qed.

Lemma mem_write_pad pre rest b al p :
  p = zlen pre -> zlen b <= al <= zlen rest ->
  exists pad, mem_write (pre ++ rest) p b = Ok ((pre ++ b ++ pad) ++ zdrop al rest) /\
    zlen b + zlen pad = al.
Proof.
  intros Hp Hal. destruct (mem_write_field pre rest b al p Hp Hal) as [Hw Hl].
  unfold field in *. eexists. split; [exact Hw|]. by rewrite zlen_app in Hl.
Qed.

Lemma bytes_ok_zdrop n b : bytes_ok b -> bytes_ok (zdrop n b).
Proof. apply Forall_drop. Qed.

Lemma bytes_ok_new_char junk n : bytes_ok (new_char junk n).
Proof.
  unfold bytes_ok, new_char. apply Forall_fmap, Forall_true. intros x. cbn.
  apply Z.mod_pos_bound. lia.
Qed.

(** * Records that carry a name *)

Section named.
Context {T : Type} (c : codec T) (ok : T -> Prop) `{!CodecOk c ok}.

(** The binary of such a record: header, struct, name and its padding, the
    [SampleId], and the eight bytes [Size] reserves for the identifier. *)
Definition named_bytes (h : RecordHeader) (data : T) (name pad : bytes) (s : SampleId)
    (ident : bytes) : bytes :=
  header_bytes h ++ enc c data ++ (name ++ 0 :: pad) ++ SampleId_bytes s ++ ident.

(** [ident] and [pad] have the lengths the size computation gives them. *)
Definition named_layout (h : RecordHeader) (name pad : bytes) (s : SampleId) (ident : bytes)
    : Prop :=
  zlen name + 1 + zlen pad = Align (zlen name + 1) 8 /\
  zlen ident = identifier_size s /\ bytes_ok ident /\
  size h = 8 + sizeof c + Align (zlen name + 1) 8 + SampleId_Size s.

Lemma write_named_spec junk r data name :
  let h := header (SetSize (header_size + sizeof c + Align (zlen name + 1) 8 +
                            SampleId_Size (sample_id r)) r) in
  header_ok h -> cstring_ok name -> zlen name < 2 ^ 62 ->
  header_size + sizeof c + Align (zlen name + 1) 8 + SampleId_Size (sample_id r) < 2 ^ 32 ->
  exists pad ident, named_layout h name pad (sample_id r) ident /\
    write_named junk c r data name =
      Ok (mkRecord h (sample_id r) (named_bytes h data name pad (sample_id r) ident) true,
          8, 8 + sizeof c).
Proof.
  intros h Hh Hname Hlen Hsz. unfold header_size in *.
  pose proof (sizeof_nonneg (c := c)) as Hc.
  pose proof (zlen_nonneg name) as Hn.
  pose proof (Align_8 (zlen name + 1) ltac:(lia)) as Hal.
  set (al := Align (zlen name + 1) 8) in *.
  set (s := sample_id r) in *.
  pose proof (SampleId_Size_bytes s) as Hsid. pose proof (zlen_nonneg (SampleId_bytes s)).
  assert (0 <= identifier_size s) by (unfold identifier_size; case_if; lia).
  assert (size h = 8 + sizeof c + al + SampleId_Size s) as Hsize.
  { unfold h, SetSize. cbn. apply u32_small. unfold is_u32. lia. }
  unfold write_named. fold al. fold s. unfold header_size. change (sample_id (SetSize _ r)) with s.
  fold h. set (rest := new_char junk (size h)).
  assert (zlen rest = size h) as Hrest by (apply zlen_new_char; lia).
  change rest with ([] ++ rest).
  rewrite (writes_header h Hh [] rest 0) by (rewrite ?zlen_header_bytes; done || lia).
  cbn [mbind res_bind app]. rewrite zlen_header_bytes.
  rewrite (writes_value c ok data) by (rewrite ?zlen_header_bytes, ?enc_len, ?zlen_zdrop; lia).
  cbn [mbind res_bind]. unfold strcpy. rewrite c_str_ok by done.
  rewrite zlen_app, zlen_header_bytes, enc_len, zdrop_zdrop by lia.
  set (rest2 := zdrop (8 + sizeof c) rest).
  assert (zlen rest2 = al + SampleId_Size s) as Hrest2 by (unfold rest2; rewrite zlen_zdrop; lia).
  assert (zlen (name ++ [0]) = zlen name + 1) as Hname0 by (rewrite zlen_app; done).
  destruct (mem_write_field (header_bytes h ++ enc c data) rest2 (name ++ [0]) al (8 + sizeof c))
    as [-> Hfl]; [by rewrite zlen_app, zlen_header_bytes, enc_len|lia|].
  cbn [mbind res_bind].
  rewrite (writes_SampleId s) by
    (rewrite ?zlen_app, ?zlen_header_bytes, ?enc_len, ?Hfl, ?zlen_zdrop; lia).
  cbn [mbind res_bind]. rewrite zdrop_zdrop by lia.
  exists (ztake (al - (zlen name + 1)) (zdrop (zlen name + 1) rest2)),
         (zdrop (al + zlen (SampleId_bytes s)) rest2).
  split; [|].
  - unfold named_layout. split_and!; [|rewrite zlen_zdrop; lia| |done].
    + rewrite zlen_ztake by (rewrite zlen_zdrop; lia). fold al. lia.
    + apply bytes_ok_zdrop, bytes_ok_zdrop, bytes_ok_new_char.
  - unfold named_bytes, UpdateBinary, field. rewrite Hname0.
    cbn [header sample_id]. fold h. do 4 f_equal. by rewrite <- !app_assoc.
Qed.

(** The [SampleId] a reader gets: the selected fields; an identifier comes
    from the bytes [ident]. *)
Definition read_back (s : SampleId) (ident : bytes) : SampleId :=
  let s' := SampleId_selected s in
  if sample_id_all s && has (sid_sample_type s) SAMPLE_IDENTIFIER
  then mkSampleId (sample_id_all s') (sid_sample_type s') (sid_tid_data s') (sid_time s')
         (le_decode ident) (sid_stream_id s') (sid_cpu_data s')
  else s'.

Lemma ident_bytes s ident :
  zlen ident = identifier_size s -> bytes_ok ident ->
  ident = opt_bytes (sample_id_all s && has (sid_sample_type s) SAMPLE_IDENTIFIER)
            uint64_t (le_decode ident) /\ is_u64 (le_decode ident).
Proof.
  unfold identifier_size. intros Hlen Hok.
  destruct (sample_id_all s && has (sid_sample_type s) SAMPLE_IDENTIFIER).
  - cbn [opt_bytes uint64_t enc]. split; [|by pose proof (le_decode_bound _ Hok) as Hb; rewrite Hlen in Hb].
    symmetry. replace 8%nat with (length ident) by (unfold zlen in Hlen; lia).
    by apply le_encode_decode.
  - destruct ident; [done|]. rewrite zlen_cons in Hlen. pose proof (zlen_nonneg ident). lia.
Qed.

Lemma read_named_spec attr h data name pad s ident tail :
  header_ok h -> ok data -> cstring_ok name -> zlen name < 2 ^ 62 ->
  SampleId_ok s -> attr_of s attr -> named_layout h name pad s ident ->
  let m := named_bytes h data name pad s ident ++ tail in
  read_named c attr m = Ok (mkRecord h (read_back s ident) m false, 8, 8 + sizeof c) /\
  MoveFromBinaryFormat c m 8 = Ok (data, 8 + sizeof c) /\
  bytes_at m (8 + sizeof c) (name ++ 0 :: pad).
Proof.
  intros Hh Hdata Hname Hlen Hs Hattr (Hpad & Hil & Hiok & Hsize) m.
  pose proof (zlen_nonneg name) as Hn. pose proof (Align_8 (zlen name + 1) ltac:(lia)) as Hal.
  destruct (ident_bytes s ident Hil Hiok) as [Hid Hx].
  assert (bytes_at m 0 (named_bytes h data name pad s ident)) as Hat by apply bytes_at_intro.
  unfold named_bytes in Hat.
  apply bytes_at_split in Hat as [Hath Hat]. rewrite zlen_header_bytes in Hat.
  apply bytes_at_split in Hat as [Hatd Hat]. rewrite enc_len in Hat.
  apply bytes_at_split in Hat as [Hatn Hats]. change (0 + 8) with 8 in *.
  split_and!; [|by eapply MoveFrom_at|done].
  unfold read_named, Record_read. rewrite (RecordHeader_read_at _ _ Hh Hath).
  cbn [mbind res_bind header size sample_id]. unfold header_size.
  rewrite (bytes_at_strlen _ _ _ _ Hatn Hname). cbn [mbind res_bind].
  assert (zlen (name ++ 0 :: pad) = Align (zlen name + 1) 8) as Hnl.
  { rewrite zlen_app, zlen_cons. lia. }
  rewrite Hnl in Hats.
  pose proof (SampleId_Size_bytes s). pose proof (zlen_nonneg (SampleId_bytes s)).
  assert (0 <= identifier_size s) by (unfold identifier_size; case_if; lia).
  rewrite CHECK_le by lia. cbn [mbind res_bind].
  rewrite Hid in Hats.
  rewrite (SampleId_read_at attr s m _ (size h) (le_decode ident)) by (done || lia). done.
Qed.

End named.

(** * Round trips of the named records *)

Definition no_identifier (attr : perf_event_attr) : Prop :=
  attr_sample_id_all attr && has (attr_sample_type attr) SAMPLE_IDENTIFIER = false.

Lemma SampleId_Size_bound s : 0 <= SampleId_Size s <= 48.
Proof.
  rewrite SampleId_Size_bytes. unfold SampleId_bytes, identifier_size.
  rewrite !zlen_app, !(zlen_opt_bytes _ _ is_u64), (zlen_opt_bytes _ _ tid_ok),
    (zlen_opt_bytes _ _ cpu_ok).
  repeat (case_if; cbn [sizeof tid_codec cpu_codec uint64_t struct_codec pair_codec uint32_t]);
    cbn; lia.
Qed.

Lemma new_record_sample_id ty mi attr event_id time :
  sample_id (new_record ty mi attr event_id time) =
    mkSampleId (attr_sample_id_all attr) (attr_sample_type attr) (mkTid 0 0) time event_id 0
      (mkCpu 0 0).
Proof. done. Qed.

Lemma new_record_sample_id_ok ty mi attr event_id time :
  is_u64 event_id -> is_u64 time ->
  SampleId_ok (sample_id (new_record ty mi attr event_id time)) /\
  attr_of (sample_id (new_record ty mi attr event_id time)) attr.
Proof.
  intros. rewrite new_record_sample_id. split; [|done].
  unfold SampleId_ok, tid_ok, cpu_ok. cbn. unfold_u. lia.
Qed.

Lemma new_record_header_ok ty mi attr event_id time sz :
  0 <= ty < SIMPLE_PERF_RECORD_TYPE_START -> is_u16 mi -> 0 <= sz < 2 ^ 16 ->
  header_ok (header (SetSize sz (new_record ty mi attr event_id time))) /\
  header (SetSize sz (new_record ty mi attr event_id time)) = mkHeader ty mi sz.
Proof.
  unfold SIMPLE_PERF_RECORD_TYPE_START. intros Hty Hmi Hsz. cbn.
  rewrite u32_small by (unfold is_u32; lia). split; [|done].
  unfold header_ok, SIMPLE_PERF_RECORD_TYPE_START. cbn. unfold_u. lia.
Qed.

Lemma deref_str_at r off s pad :
  bytes_at (binary_ r) off (s ++ 0 :: pad) -> cstring_ok s -> deref_str r off = Ok s.
Proof.
  intros Hat Hs. unfold deref_str. rewrite (bytes_at_strlen _ _ _ _ Hat Hs). cbn.
  apply bytes_at_split in Hat as [Hat _]. by apply (bytes_at_read _ _ _ _ Hat).
Qed.

Lemma named_roundtrip {T} (c : codec T) ok `{!CodecOk c ok} junk ty mi attr event_id time
    data name tail :
  0 <= ty < SIMPLE_PERF_RECORD_TYPE_START -> is_u16 mi -> sizeof c <= 64 ->
  ok data -> cstring_ok name -> zlen name <= 65000 -> is_u64 event_id -> is_u64 time ->
  exists r r' ident,
    write_named junk c (new_record ty mi attr event_id time) data name
      = Ok (r, 8, 8 + sizeof c) /\
    read_named c attr (binary_ r ++ tail) = Ok (r', 8, 8 + sizeof c) /\
    header r' = header r /\ type (header r) = ty /\ misc (header r) = mi /\
    size (header r) = zlen (binary_ r) /\
    zlen ident = identifier_size (sample_id r) /\
    sample_id r = sample_id (new_record ty mi attr event_id time) /\
    sample_id r' = read_back (sample_id r) ident /\
    deref c r' 8 = Ok data /\ deref_str r' (8 + sizeof c) = Ok name.
Proof.
  intros Hty Hmi Hc Hdata Hname Hlen Heid Htime.
  set (r0 := new_record ty mi attr event_id time).
  pose proof (sizeof_nonneg (c := c)). pose proof (zlen_nonneg name).
  pose proof (Align_8 (zlen name + 1) ltac:(lia)) as Hal.
  pose proof (SampleId_Size_bound (sample_id r0)) as Hsid.
  destruct (new_record_sample_id_ok ty mi attr event_id time Heid Htime) as [Hsok Hattr].
  destruct (new_record_header_ok ty mi attr event_id time
    (header_size + sizeof c + Align (zlen name + 1) 8 + SampleId_Size (sample_id r0)))
    as [Hhok Hheq]; [done..|unfold header_size; lia|].
  fold r0 in Hsok, Hattr, Hhok, Hheq.
  destruct (write_named_spec c ok junk r0 data name) as (pad & ident & Hlay & Hw);
    [done|done|lia|unfold header_size; lia|].
  set (h := header (SetSize _ r0)) in *.
  destruct (read_named_spec c ok attr h data name pad (sample_id r0) ident tail)
    as (Hr & Hd & Hn); [done|done|done|lia|done|done|done|].
  eexists _, _, ident. split; [exact Hw|]. cbn [binary_]. split; [exact Hr|].
  destruct Hlay as (Hpad & Hil & _ & Hsize). unfold header_size in *.
  split_and!; try done.
  - cbn [header binary_]. rewrite Hsize. unfold named_bytes.
    rewrite !zlen_app, zlen_header_bytes, enc_len, zlen_cons, Hil, SampleId_Size_bytes. lia.
  - unfold deref. cbn [binary_]. by rewrite Hd.
  - by apply deref_str_at with pad.
Qed.

Lemma read_back_no_identifier s ident :
  sample_id_all s && has (sid_sample_type s) SAMPLE_IDENTIFIER = false ->
  read_back s ident = SampleId_selected s.
Proof. unfold read_back. by intros ->. Qed.

(** Building an mmap record and parsing its binary gives back the header,
    the selected sample-id fields, the mapping data and the file name,
    whatever follows the record in memory and whatever the allocator left in
    the padding. *)
Theorem MmapRecord_roundtrip junk attr in_kernel pid tid addr len pgoff filename event_id time tail :
  mmap_data_ok (mkMmapData pid tid addr len pgoff) -> cstring_ok filename ->
  zlen filename <= 65000 -> is_u64 event_id -> is_u64 time -> no_identifier attr ->
  exists r r',
    MmapRecord_new junk attr in_kernel pid tid addr len pgoff filename event_id time = Ok r /\
    MmapRecord_read attr (binary_ (mmap_rec r) ++ tail) = Ok r' /\
    header (mmap_rec r') = header (mmap_rec r) /\
    type (header (mmap_rec r')) = PERF_RECORD_MMAP /\
    size (header (mmap_rec r')) = zlen (binary_ (mmap_rec r)) /\
    InKernel (mmap_rec r') = in_kernel /\
    sample_id (mmap_rec r') = SampleId_selected (sample_id (mmap_rec r)) /\
    deref MmapRecordDataType_codec (mmap_rec r') (mmap_data r')
      = Ok (mkMmapData pid tid addr len pgoff) /\
    deref_str (mmap_rec r') (mmap_filename r') = Ok filename.
Proof.
  intros Hd Hf Hlen He Ht Hni. unfold MmapRecord_new, MmapRecord_SetDataAndFilename, MmapRecord_read.
  destruct (named_roundtrip MmapRecordDataType_codec mmap_data_ok junk PERF_RECORD_MMAP
    (kernel_or_user in_kernel) attr event_id time _ filename tail ltac:(done)
    ltac:(by destruct in_kernel) ltac:(done) Hd Hf Hlen He Ht)
    as (r & r' & ident & -> & Hr & Hh & Hty & Hmi & Hsz & _ & Hs0 & Hs & Hdd & Hdf).
  exists (mkMmap r 8 (8 + sizeof MmapRecordDataType_codec)),
         (mkMmap r' 8 (8 + sizeof MmapRecordDataType_codec)). cbn [mbind res_bind mmap_rec].
  rewrite Hr. split_and!; try done.
  - by rewrite Hh.
  - by rewrite Hh.
  - unfold InKernel. rewrite Hh, Hmi. by destruct in_kernel.
  - cbn. rewrite Hs. apply read_back_no_identifier. by rewrite Hs0, new_record_sample_id.
Qed.

Lemma MmapRecord_roundtrip_witness :
  let attr := {| attr_sample_id_all := true; attr_sample_type := 134; attr_sample_regs_user := 0 |} in
  exists r r',
    MmapRecord_new (fun _ => 7) attr true 1 2 4096 8192 3 (str "libc.so") 5 6 = Ok r /\
    MmapRecord_read attr (binary_ (mmap_rec r) ++ []) = Ok r' /\
    header (mmap_rec r') = header (mmap_rec r) /\
    type (header (mmap_rec r')) = PERF_RECORD_MMAP /\
    size (header (mmap_rec r')) = zlen (binary_ (mmap_rec r)) /\
    InKernel (mmap_rec r') = true /\
    sample_id (mmap_rec r') = SampleId_selected (sample_id (mmap_rec r)) /\
    deref MmapRecordDataType_codec (mmap_rec r') (mmap_data r')
      = Ok (mkMmapData 1 2 4096 8192 3) /\
    deref_str (mmap_rec r') (mmap_filename r') = Ok (str "libc.so").
Proof.
  intros attr. apply (MmapRecord_roundtrip (fun _ => 7) attr true 1 2 4096 8192 3 (str "libc.so") 5 6 []).
  - unfold mmap_data_ok. cbn. unfold_u. lia.
  - cbn. repeat constructor; lia.
  - vm_compute; congruence.
  - unfold is_u64; lia.
  - unfold is_u64; lia.
  - reflexivity.
Defined.

(** * Records without a [SampleId] *)

(** Side conditions of a sequential write. *)
Ltac wside := solve [ reflexivity | autorewrite with zlen; rewrite ?zlen_zdrop_max; lia ].
Ltac step_write L := rewrite L by wside; cbn [mbind res_bind].

Lemma plain_header ty sz :
  SIMPLE_PERF_RECORD_TYPE_START <= ty < 2 ^ 32 -> 0 <= sz < 2 ^ 32 ->
  header (SetSize sz (plain_record ty 0)) = mkHeader ty 0 sz /\ header_ok (mkHeader ty 0 sz).
Proof.
  unfold SIMPLE_PERF_RECORD_TYPE_START. intros Hty Hsz. cbn.
  rewrite u32_small by (unfold is_u32; lia). split; [done|].
  unfold header_ok, SIMPLE_PERF_RECORD_TYPE_START. cbn. unfold_u. lia.
Qed.

Lemma zdrop_end {A} n (l : list A) : n = zlen l -> zdrop n l = [].
Proof. intros ->. by apply zdrop_ge. Qed.

(** Start building: the header of a plain record into a new buffer. *)
Lemma write_plain_header junk ty sz :
  SIMPLE_PERF_RECORD_TYPE_START <= ty < 2 ^ 32 -> 8 <= sz < 2 ^ 32 ->
  RecordHeader_MoveToBinaryFormat (mkHeader ty 0 sz) (new_char junk sz) 0 =
    Ok (header_bytes (mkHeader ty 0 sz) ++ zdrop 8 (new_char junk sz),
        zlen (header_bytes (mkHeader ty 0 sz))).
Proof.
  intros Hty Hsz. set (h := mkHeader ty 0 sz). destruct (plain_header ty sz) as [_ Hok]; [lia..|].
  change (new_char junk sz) with ([] ++ new_char junk sz) at 1.
  rewrite (writes_header h Hok) by (rewrite ?zlen_header_bytes, ?zlen_new_char; done || lia).
  by rewrite zlen_header_bytes.
Qed.

(** A finished plain record. *)
Definition plain_built (ty sz : Z) (m : bytes) : Record_ :=
  mkRecord (mkHeader ty 0 sz) SampleId_default m true.

(** Enter the body of a builder of plain records: compute its header, write it. *)
Ltac start_plain sz :=
  let Hh := fresh "Hh" in
  lazymatch goal with |- context [SetSize sz (plain_record ?ty 0)] =>
    destruct (plain_header ty sz) as [Hh _]; [done|lia|];
    replace (SetSize sz (plain_record ty 0))
      with (mkRecord (mkHeader ty 0 sz) SampleId_default [] false)
      by (by rewrite <- Hh)
  end;
  cbn [header size]; rewrite write_plain_header by (done || lia); cbn [mbind res_bind].

(** Enter a parser of plain records: read the header [h] and split it off. *)
Ltac start_read Hok Hat :=
  let H := fresh "Hath" in
  apply bytes_at_split in Hat as [H Hat]; rewrite zlen_header_bytes in Hat;
  change (0 + 8) with header_size in Hat;
  unfold Record_read; rewrite (RecordHeader_read_at _ _ Hok H); clear H;
  cbn [mbind res_bind header size].

Section callchain.
Context (pid tid ty time : Z) (ips sps : list Z).
Hypothesis Hpid : is_u32 pid.
Hypothesis Htid : is_u32 tid.
Hypothesis Hty : is_u64 ty.
Hypothesis Htime : is_u64 time.
Hypothesis Hips : Forall is_u64 ips.
Hypothesis Hsps : Forall is_u64 sps.
Hypothesis Hlen : zlen ips = zlen sps.
Hypothesis Hmax : zlen ips < 2 ^ 27.

Definition callchain_size : Z := header_size + (4 + zlen ips * 2) * 8.
Definition callchain_bytes : bytes :=
  header_bytes (mkHeader SIMPLE_PERF_RECORD_CALLCHAIN 0 callchain_size) ++
  enc uint32_t pid ++ enc uint32_t tid ++ enc uint64_t ty ++ enc uint64_t time ++
  enc uint64_t (zlen ips) ++ enc_array uint64_t ips ++ enc_array uint64_t sps.

Lemma CallChainRecord_new_bytes junk :
  CallChainRecord_new junk pid tid ty time ips sps =
    Ok (mkCallChain (plain_built SIMPLE_PERF_RECORD_CALLCHAIN callchain_size callchain_bytes)
          pid tid ty time (zlen ips) 40 (40 + zlen ips * 8)).
Proof.
  pose proof (zlen_nonneg ips) as Hnn.
  unfold CallChainRecord_new. rewrite CHECK_eq by done. cbn [mbind res_bind].
  fold callchain_size.
  assert (callchain_size = 40 + zlen ips * 16) as Hsz by (unfold callchain_size, header_size; lia).
  start_plain callchain_size.
  assert (zlen (new_char junk callchain_size) = callchain_size) as Hnew by (apply zlen_new_char; lia).
  rewrite !(u32_small _ Hpid), !(u32_small _ Htid).
  step_write (writes_value uint32_t is_u32 pid).
  step_write (writes_value uint32_t is_u32 tid).
  step_write (writes_value uint64_t is_u64 ty).
  step_write (writes_value uint64_t is_u64 time).
  step_write (writes_value uint64_t is_u64 (zlen ips)).
  step_write (writes_array uint64_t is_u64 ips (zlen ips) eq_refl ltac:(cbn; lia)).
  step_write (writes_array uint64_t is_u64 sps (zlen sps) eq_refl ltac:(cbn; lia)).
  rewrite (zdrop_end (zlen (enc_array uint64_t sps))), app_nil_r by wside.
  rewrite <- !app_assoc. unfold UpdateBinary. cbn [header sample_id].
  unfold plain_built, callchain_bytes. autorewrite with zlen. do 2 f_equal; lia.
Qed.

Lemma CallChainRecord_read_bytes tail :
  let m := callchain_bytes ++ tail in
  CallChainRecord_read m =
    Ok (mkCallChain (mkRecord (mkHeader SIMPLE_PERF_RECORD_CALLCHAIN 0 callchain_size)
                       SampleId_default m false)
          pid tid ty time (zlen ips) 40 (40 + zlen ips * 8)) /\
  MoveFromBinaryFormatN uint64_t (zlen ips) m 40 = Ok (ips, 40 + zlen ips * 8) /\
  MoveFromBinaryFormatN uint64_t (zlen ips) m (40 + zlen ips * 8) = Ok (sps, 40 + zlen ips * 16).
Proof.
  intros m. pose proof (zlen_nonneg ips) as Hnn.
  assert (callchain_size = 40 + zlen ips * 16) as Hsz by (unfold callchain_size, header_size; lia).
  destruct (plain_header SIMPLE_PERF_RECORD_CALLCHAIN callchain_size) as [_ Hok]; [done|lia|].
  assert (bytes_at m 0 callchain_bytes) as Hat by apply bytes_at_intro.
  assert (is_u64 (zlen ips)) as Hzl by (unfold is_u64; lia).
  assert (u64 (zlen ips * 8) = zlen ips * 8) as Hu by (apply u64_small; unfold is_u64; lia).
  unfold CallChainRecord_read, callchain_bytes in *. start_read Hok Hat.
  step_read Hat (reads_value uint32_t is_u32 pid Hpid).
  step_read Hat (reads_value uint32_t is_u32 tid Htid).
  step_read Hat (reads_value uint64_t is_u64 ty Hty).
  step_read Hat (reads_value uint64_t is_u64 time Htime).
  step_read Hat (reads_value uint64_t is_u64 (zlen ips) Hzl).
  rewrite Hu. unfold header_size in *. autorewrite with zlen in *.
  rewrite CHECK_eq by lia. cbn [mbind res_bind].
  apply bytes_at_split in Hat as [Hat1 Hat2]. autorewrite with zlen in *.
  split_and!; [do 2 f_equal; lia|..].
  - by rewrite (MoveFromN_at uint64_t is_u64 _ _ ips) by (done || cbn; lia).
  - rewrite (MoveFromN_at uint64_t is_u64 _ _ sps) by (done || cbn; lia). do 2 f_equal. cbn. lia.
Qed.

End callchain.

(** A call-chain record of equally many ips and sps round trips: the parser
    returns pid, tid, chain type and time, and its two array pointers read
    the ips and the sps. *)
Theorem CallChainRecord_roundtrip junk pid tid ty time ips sps tail :
  is_u32 pid -> is_u32 tid -> is_u64 ty -> is_u64 time ->
  Forall is_u64 ips -> Forall is_u64 sps -> zlen ips = zlen sps -> zlen ips < 2 ^ 27 ->
  exists r r',
    CallChainRecord_new junk pid tid ty time ips sps = Ok r /\
    CallChainRecord_read (binary_ (cc_rec r) ++ tail) = Ok r' /\
    header (cc_rec r') = header (cc_rec r) /\
    (cc_pid r', cc_tid r', cc_chain_type r', cc_time r', cc_ip_nr r')
      = (pid, tid, ty, time, zlen ips) /\
    fst <$> MoveFromBinaryFormatN uint64_t (cc_ip_nr r') (binary_ (cc_rec r')) (cc_ips r')
      = Ok ips /\
    fst <$> MoveFromBinaryFormatN uint64_t (cc_ip_nr r') (binary_ (cc_rec r')) (cc_sps r')
      = Ok sps.
Proof.
  intros Hpid Htid Hty Htime Hips Hsps Hlen Hmax.
  destruct (CallChainRecord_read_bytes pid tid ty time ips sps Hpid Htid Hty Htime Hips Hsps
              Hlen Hmax tail) as (Hr & H1 & H2).
  eexists _, _. split; [by apply CallChainRecord_new_bytes|].
  cbn [cc_rec binary_ plain_built]. split; [exact Hr|].
  cbn [cc_rec header binary_ cc_pid cc_tid cc_chain_type cc_time cc_ip_nr cc_ips cc_sps].
  rewrite H1, H2. done.
Qed.

Lemma CallChainRecord_roundtrip_witness :
  exists r r',
    CallChainRecord_new (fun _ => 0) 1 2 0 100 [16; 32] [48; 64] = Ok r /\
    CallChainRecord_read (binary_ (cc_rec r) ++ [1; 2; 3]) = Ok r' /\
    header (cc_rec r') = header (cc_rec r) /\
    (cc_pid r', cc_tid r', cc_chain_type r', cc_time r', cc_ip_nr r') = (1, 2, 0, 100, 2) /\
    fst <$> MoveFromBinaryFormatN uint64_t (cc_ip_nr r') (binary_ (cc_rec r')) (cc_ips r')
      = Ok [16; 32] /\
    fst <$> MoveFromBinaryFormatN uint64_t (cc_ip_nr r') (binary_ (cc_rec r')) (cc_sps r')
      = Ok [48; 64].
Proof.
  apply (CallChainRecord_roundtrip (fun _ => 0) 1 2 0 100 [16; 32] [48; 64] [1; 2; 3]);
    try (unfold_u; lia); [..|reflexivity|reflexivity]; repeat constructor; unfold_u; lia.
Defined.

(** * Kernel-symbol and tracing-data records *)

Section sized.
Context (ty alignment : Z) (data : bytes).
Hypothesis Hty : SIMPLE_PERF_RECORD_TYPE_START <= ty < 2 ^ 32.
Hypothesis Hal : zlen data <= Align (zlen data) alignment < zlen data + 64.
Hypothesis Hmax : zlen data < 2 ^ 31.

Definition sized_size : Z := header_size + 4 + Align (zlen data) alignment.
Definition sized_bytes (pad : bytes) : bytes :=
  header_bytes (mkHeader ty 0 sized_size) ++ enc uint32_t (zlen data) ++ data ++ pad.

Lemma write_sized_bytes junk :
  exists pad, zlen data + zlen pad = Align (zlen data) alignment /\
  write_sized junk ty data alignment =
    Ok (plain_built ty sized_size (sized_bytes pad), zlen data, 12).
Proof.
  pose proof (zlen_nonneg data) as Hnn. unfold write_sized. fold sized_size.
  assert (sized_size = 12 + Align (zlen data) alignment) as Hsz by (unfold sized_size, header_size; lia).
  start_plain sized_size.
  assert (zlen (new_char junk sized_size) = sized_size) as Hnew by (apply zlen_new_char; lia).
  rewrite (u32_small (zlen data)) by (unfold is_u32; lia).
  step_write (writes_value uint32_t is_u32 (zlen data)).
  rewrite (bytes_at_read data 0 data) by (done || by exists [], []; rewrite app_nil_r).
  cbn [mbind res_bind].
  match goal with |- context [mem_write (?p ++ ?r) _ _] =>
    destruct (mem_write_field p r data (Align (zlen data) alignment) (zlen p) eq_refl) as [-> Hfl];
      [autorewrite with zlen; rewrite ?zlen_zdrop_max; lia|]
  end.
  cbn [mbind res_bind].
  eexists. split.
  { unfold field in Hfl. rewrite zlen_app in Hfl. exact Hfl. }
  rewrite (zdrop_end (Align (zlen data) alignment)), app_nil_r by wside.
  unfold field, plain_built, sized_bytes, UpdateBinary. rewrite <- !app_assoc.
  autorewrite with zlen. done.
Qed.

Lemma read_sized_bytes pad tail :
  zlen data + zlen pad = Align (zlen data) alignment ->
  let m := sized_bytes pad ++ tail in
  let r := mkRecord (mkHeader ty 0 sized_size) SampleId_default m false in
  Record_read m = Ok r /\
  MoveFromBinaryFormat uint32_t m header_size = Ok (zlen data, 12) /\
  12 + Align (zlen data) alignment = sized_size /\ mem_read m 12 (zlen data) = Ok data.
Proof.
  intros Hpad m r. pose proof (zlen_nonneg data) as Hnn.
  assert (sized_size = 12 + Align (zlen data) alignment) as Hsz by (unfold sized_size, header_size; lia).
  destruct (plain_header ty sized_size) as [_ Hok]; [done|lia|].
  assert (bytes_at m 0 (sized_bytes pad)) as Hat by apply bytes_at_intro.
  unfold sized_bytes in Hat. start_read Hok Hat.
  apply bytes_at_split in Hat as [Hat1 Hat]. autorewrite with zlen in Hat.
  apply bytes_at_split in Hat as [Hat2 _].
  split_and!; [done| |lia|by apply (bytes_at_read _ _ _ _ Hat2)].
  by rewrite (MoveFrom_at uint32_t is_u32 _ _ _ Hat1) by (unfold is_u32; lia).
Qed.
End sized.

(** Kernel-symbol and tracing-data records round trip: the parser returns
    the size of the payload and a pointer that reads the payload. *)
Theorem sized_records_roundtrip junk data tail :
  zlen data < 2 ^ 31 ->
  (exists r r', KernelSymbolRecord_new junk data = Ok r /\
     KernelSymbolRecord_read (binary_ (ksym_rec r) ++ tail) = Ok r' /\
     kallsyms_size r' = zlen data /\
     mem_read (binary_ (ksym_rec r')) (kallsyms r') (kallsyms_size r') = Ok data) /\
  (exists r r', TracingDataRecord_new junk data = Ok r /\
     TracingDataRecord_read (binary_ (trc_rec r) ++ tail) = Ok r' /\
     data_size r' = zlen data /\
     mem_read (binary_ (trc_rec r')) (trc_data r') (data_size r') = Ok data).
Proof.
  intros Hmax. pose proof (zlen_nonneg data). split.
  - pose proof (Align_8 (zlen data) ltac:(lia)) as Hal.
    destruct (write_sized_bytes SIMPLE_PERF_RECORD_KERNEL_SYMBOL 8 data ltac:(done) ltac:(lia)
                Hmax junk) as (pad & Hpad & Hw).
    destruct (read_sized_bytes SIMPLE_PERF_RECORD_KERNEL_SYMBOL 8 data ltac:(done) ltac:(lia)
                Hmax pad tail Hpad) as (Hr & Hs & Hsz & Hd).
    unfold KernelSymbolRecord_new. rewrite Hw. eexists _, _. split; [done|].
    unfold KernelSymbolRecord_read. cbn [mbind res_bind ksym_rec plain_built binary_].
    rewrite Hr. cbn [mbind res_bind header size]. rewrite Hs. cbn [mbind res_bind].
    rewrite CHECK_eq by done. done.
  - pose proof (Align_64 (zlen data) ltac:(lia)) as Hal.
    destruct (write_sized_bytes SIMPLE_PERF_RECORD_TRACING_DATA 64 data ltac:(done) ltac:(lia)
                Hmax junk) as (pad & Hpad & Hw).
    destruct (read_sized_bytes SIMPLE_PERF_RECORD_TRACING_DATA 64 data ltac:(done) ltac:(lia)
                Hmax pad tail Hpad) as (Hr & Hs & Hsz & Hd).
    unfold TracingDataRecord_new. rewrite Hw. eexists _, _. split; [done|].
    unfold TracingDataRecord_read. cbn [mbind res_bind trc_rec plain_built binary_].
    rewrite Hr. cbn [mbind res_bind header size]. rewrite Hs. cbn [mbind res_bind].
    rewrite CHECK_eq by done. done.
Qed.

Lemma sized_records_roundtrip_witness :
  (exists r r', KernelSymbolRecord_new (fun _ => 1) (str "abc") = Ok r /\
     KernelSymbolRecord_read (binary_ (ksym_rec r) ++ []) = Ok r' /\
     kallsyms_size r' = 3 /\
     mem_read (binary_ (ksym_rec r')) (kallsyms r') (kallsyms_size r') = Ok (str "abc")) /\
  (exists r r', TracingDataRecord_new (fun _ => 1) (str "abc") = Ok r /\
     TracingDataRecord_read (binary_ (trc_rec r) ++ []) = Ok r' /\
     data_size r' = 3 /\
     mem_read (binary_ (trc_rec r')) (trc_data r') (data_size r') = Ok (str "abc")).
Proof. apply (sized_records_roundtrip (fun _ => 1) (str "abc") []). reflexivity. Defined.

(** * Dso and symbol records *)

Section dso_symbol.
Context (ty x y z : Z) (name : bytes).
Hypothesis Hty : SIMPLE_PERF_RECORD_TYPE_START <= ty < 2 ^ 32.
Hypothesis Hx : is_u64 x.
Hypothesis Hy : is_u64 y.
Hypothesis Hz : is_u64 z.
Hypothesis Hname : cstring_ok name.
Hypothesis Hmax : zlen name < 2 ^ 31.

Definition name3_size : Z := header_size + 3 * sizeof uint64_t + Align (zlen name + 1) 8.
Definition name3_bytes (pad : bytes) : bytes :=
  header_bytes (mkHeader ty 0 name3_size) ++ enc uint64_t x ++ enc uint64_t y ++
  enc uint64_t z ++ name ++ 0 :: pad.

Lemma name3_size_eq : name3_size = 32 + Align (zlen name + 1) 8.
Proof. unfold name3_size, header_size. change (sizeof uint64_t) with 8. lia. Qed.

Lemma write_3u64_name_bytes junk :
  exists pad, zlen name + 1 + zlen pad = Align (zlen name + 1) 8 /\
  write_3u64_name junk ty x y z name = Ok (plain_built ty name3_size (name3_bytes pad), 32).
Proof.
  pose proof (zlen_nonneg name) as Hnn. pose proof (Align_8 (zlen name + 1) ltac:(lia)) as Hal.
  unfold write_3u64_name. fold name3_size. pose proof name3_size_eq as Hsz.
  start_plain name3_size.
  assert (zlen (new_char junk name3_size) = name3_size) as Hnew by (apply zlen_new_char; lia).
  step_write (writes_value uint64_t is_u64 x).
  step_write (writes_value uint64_t is_u64 y).
  step_write (writes_value uint64_t is_u64 z).
  unfold strcpy. rewrite c_str_ok by done.
  match goal with |- context [mem_write (?p ++ ?r) _ _] =>
    destruct (mem_write_field p r (name ++ [0]) (Align (zlen name + 1) 8) (zlen p) eq_refl)
      as [-> Hfl]; [autorewrite with zlen; rewrite ?zlen_zdrop_max; lia|]
  end.
  cbn [mbind res_bind]. eexists. split.
  { unfold field in Hfl. rewrite zlen_app in Hfl. autorewrite with zlen in Hfl at 1. exact Hfl. }
  rewrite (zdrop_end (Align (zlen name + 1) 8)), app_nil_r by wside.
  unfold field, plain_built, name3_bytes, UpdateBinary. rewrite <- !app_assoc.
  autorewrite with zlen. done.
Qed.

Lemma read_name3_bytes pad tail :
  zlen name + 1 + zlen pad = Align (zlen name + 1) 8 ->
  let m := name3_bytes pad ++ tail in
  bytes_at m 0 (header_bytes (mkHeader ty 0 name3_size)) /\
  MoveFromBinaryFormat uint64_t m header_size = Ok (x, 16) /\
  MoveFromBinaryFormat uint64_t m 16 = Ok (y, 24) /\
  MoveFromBinaryFormat uint64_t m 24 = Ok (z, 32) /\
  bytes_at m 32 (name ++ 0 :: pad) /\ 32 + Align (zlen name + 1) 8 = name3_size.
Proof.
  intros Hpad m. pose proof name3_size_eq as Hsz.
  assert (bytes_at m 0 (name3_bytes pad)) as Hat by apply bytes_at_intro.
  unfold name3_bytes in Hat.
  apply bytes_at_split in Hat as [Hath Hat]. rewrite zlen_header_bytes in Hat.
  apply bytes_at_split in Hat as [Hatx Hat]. rewrite zlen_enc_u64 in Hat.
  apply bytes_at_split in Hat as [Haty Hat]. rewrite zlen_enc_u64 in Hat.
  apply bytes_at_split in Hat as [Hatz Hat]. rewrite zlen_enc_u64 in Hat.
  change (0 + 8 + 8 + 8 + 8) with 32 in *. change (0 + 8 + 8 + 8) with 24 in *.
  change (0 + 8 + 8) with 16 in *. change (0 + 8) with header_size in *.
  split_and!; [done|..|done|by rewrite Hsz];
    by erewrite MoveFrom_at by first [apply uint64_t_ok|eassumption].
Qed.
End dso_symbol.

(** Dso and symbol records round trip, fields and name. *)
Theorem dso_symbol_roundtrip junk x y z name tail :
  is_u64 x -> is_u64 y -> is_u64 z -> cstring_ok name -> zlen name < 2 ^ 31 ->
  (exists r r', DsoRecord_new junk x y name z = Ok r /\
     DsoRecord_read (binary_ (dso_rec r) ++ tail) = Ok r' /\
     (dso_type r', dso_id r', min_vaddr r') = (x, y, z) /\
     deref_str (dso_rec r') (dso_name r') = Ok name) /\
  (exists r r', SymbolRecord_new junk x y name z = Ok r /\
     SymbolRecord_read (binary_ (sym_rec r) ++ tail) = Ok r' /\
     (sym_addr r', sym_len r', sym_dso_id r') = (x, y, z) /\
     deref_str (sym_rec r') (sym_name r') = Ok name).
Proof.
  intros Hx Hy Hz Hn Hmax. pose proof (zlen_nonneg name).
  pose proof (Align_8 (zlen name + 1) ltac:(lia)) as Hal. pose proof (name3_size_eq name) as Hsz.
  split.
  - destruct (write_3u64_name_bytes SIMPLE_PERF_RECORD_DSO x y z name ltac:(done) Hn Hmax junk)
      as (pad & Hpad & Hw).
    destruct (read_name3_bytes SIMPLE_PERF_RECORD_DSO x y z name Hx Hy Hz pad tail Hpad)
      as (Hh & H1 & H2 & H3 & Hnm & Hend).
    destruct (plain_header SIMPLE_PERF_RECORD_DSO (name3_size name)) as [_ Hok]; [done|lia|].
    unfold DsoRecord_new. rewrite Hw. eexists _, _. split; [done|].
    unfold DsoRecord_read, Record_read. cbn [mbind res_bind dso_rec plain_built binary_].
    rewrite (RecordHeader_read_at _ _ Hok Hh). cbn [mbind res_bind header size].
    rewrite H1. cbn [mbind res_bind]. rewrite H2. cbn [mbind res_bind]. rewrite H3.
    cbn [mbind res_bind]. rewrite (bytes_at_strlen _ _ _ _ Hnm Hn). cbn [mbind res_bind].
    rewrite CHECK_eq by done. split_and!; [done..|]. by apply deref_str_at with pad.
  - destruct (write_3u64_name_bytes SIMPLE_PERF_RECORD_SYMBOL x y z name ltac:(done) Hn Hmax junk)
      as (pad & Hpad & Hw).
    destruct (read_name3_bytes SIMPLE_PERF_RECORD_SYMBOL x y z name Hx Hy Hz pad tail Hpad)
      as (Hh & H1 & H2 & H3 & Hnm & Hend).
    destruct (plain_header SIMPLE_PERF_RECORD_SYMBOL (name3_size name)) as [_ Hok]; [done|lia|].
    unfold SymbolRecord_new. rewrite Hw. eexists _, _. split; [done|].
    unfold SymbolRecord_read, Record_read. cbn [mbind res_bind sym_rec plain_built binary_].
    rewrite (RecordHeader_read_at _ _ Hok Hh). cbn [mbind res_bind header size].
    rewrite H1. cbn [mbind res_bind]. rewrite H2. cbn [mbind res_bind]. rewrite H3.
    cbn [mbind res_bind]. rewrite (bytes_at_strlen _ _ _ _ Hnm Hn). cbn [mbind res_bind].
    rewrite CHECK_eq by done. split_and!; [done..|]. by apply deref_str_at with pad.
Qed.

Lemma dso_symbol_roundtrip_witness :
  (exists r r', DsoRecord_new (fun _ => 1) 1 2 (str "a.so") 3 = Ok r /\
     DsoRecord_read (binary_ (dso_rec r) ++ []) = Ok r' /\
     (dso_type r', dso_id r', min_vaddr r') = (1, 2, 3) /\
     deref_str (dso_rec r') (dso_name r') = Ok (str "a.so")) /\
  (exists r r', SymbolRecord_new (fun _ => 1) 1 2 (str "a.so") 3 = Ok r /\
     SymbolRecord_read (binary_ (sym_rec r) ++ []) = Ok r' /\
     (sym_addr r', sym_len r', sym_dso_id r') = (1, 2, 3) /\
     deref_str (sym_rec r') (sym_name r') = Ok (str "a.so")).
Proof.
  apply (dso_symbol_roundtrip (fun _ => 1) 1 2 3 (str "a.so") []);
    try (unfold is_u64; lia); [|reflexivity].
  cbn. repeat constructor; lia.
Defined.

(** * Event-id records *)

Definition event_id_size (data : list Z) : Z := header_size + 8 * (1 + zlen data).
Definition event_id_bytes (data : list Z) : bytes :=
  header_bytes (mkHeader SIMPLE_PERF_RECORD_EVENT_ID 0 (event_id_size data)) ++
  enc uint64_t (zlen data / 2) ++ enc_array uint64_t data.

Lemma EventIdRecord_new_bytes junk data :
  zlen data < 2 ^ 28 ->
  EventIdRecord_new junk data =
    Ok (mkEventId (plain_built SIMPLE_PERF_RECORD_EVENT_ID (event_id_size data)
                     (event_id_bytes data)) (zlen data / 2) 16).
Proof.
  intros Hmax. pose proof (zlen_nonneg data) as Hnn. unfold EventIdRecord_new.
  fold (event_id_size data).
  assert (event_id_size data = 16 + zlen data * 8) as Hsz by (unfold event_id_size, header_size; lia).
  start_plain (event_id_size data).
  assert (zlen (new_char junk (event_id_size data)) = event_id_size data) as Hnew
    by (apply zlen_new_char; lia).
  step_write (writes_value uint64_t is_u64 (zlen data / 2)).
  rewrite mem_write_app by wside. cbn [mbind res_bind].
  rewrite (zdrop_end (zlen (enc_array uint64_t data))), app_nil_r by wside.
  rewrite <- !app_assoc. unfold UpdateBinary, plain_built, event_id_bytes.
  autorewrite with zlen. done.
Qed.

(** Parsing a built event-id record succeeds exactly when the vector it was
    built from has an even length, and then returns half its length as the
    count; for an odd length the parser's [CHECK_EQ] aborts. *)
Theorem EventIdRecord_roundtrip junk data tail :
  zlen data < 2 ^ 28 ->
  exists r, EventIdRecord_new junk data = Ok r /\
    if Z.even (zlen data)
    then exists r', EventIdRecord_read (binary_ (eid_rec r) ++ tail) = Ok r' /\
           eid_count r' = zlen data / 2 /\
           bytes_at (binary_ (eid_rec r')) (eid_data r') (enc_array uint64_t data)
    else EventIdRecord_read (binary_ (eid_rec r) ++ tail) = CheckFailed.
Proof.
  intros Hmax. pose proof (zlen_nonneg data) as Hnn.
  eexists. split; [by apply EventIdRecord_new_bytes|]. cbn [eid_rec plain_built binary_].
  assert (event_id_size data = 16 + zlen data * 8) as Hsz by (unfold event_id_size, header_size; lia).
  destruct (plain_header SIMPLE_PERF_RECORD_EVENT_ID (event_id_size data)) as [_ Hok]; [done|lia|].
  set (m := event_id_bytes data ++ tail).
  assert (bytes_at m 0 (event_id_bytes data)) as Hat by apply bytes_at_intro.
  pose proof (Z.div_mod (zlen data) 2 ltac:(lia)) as Hdm. rewrite Zmod_even in Hdm.
  assert (is_u64 (zlen data / 2)) as Hc by (unfold is_u64; destruct (Z.even (zlen data)); lia).
  unfold EventIdRecord_read. unfold event_id_bytes in Hat. start_read Hok Hat.
  step_read Hat (reads_value uint64_t is_u64 (zlen data / 2) Hc).
  change (sizeof EventIdData_codec) with 16. unfold header_size in *. autorewrite with zlen in *.
  rewrite u64_small by (unfold is_u64; destruct (Z.even (zlen data)); lia).
  destruct (Z.even (zlen data)).
  - rewrite CHECK_eq by lia. cbn [mbind res_bind]. eexists. split_and!; [done|done|]. exact Hat.
  - unfold CHECK. rewrite (proj2 (Z.eqb_neq _ _)) by lia. done.
Qed.

Lemma EventIdRecord_roundtrip_witness :
  exists r, EventIdRecord_new (fun _ => 0) [5; 6; 7; 8] = Ok r /\
    exists r', EventIdRecord_read (binary_ (eid_rec r) ++ []) = Ok r' /\
      eid_count r' = 2 /\
      bytes_at (binary_ (eid_rec r')) (eid_data r') (enc_array uint64_t [5; 6; 7; 8]).
Proof. apply (EventIdRecord_roundtrip (fun _ => 0) [5; 6; 7; 8] []). reflexivity. Defined.

(** * Comm and mmap2 records *)

(** Mmap2 and comm records round trip (the mmap2 fields the constructor
    leaves uninitialised come back as they were). *)
Theorem Mmap2_Comm_roundtrip junk undef attr in_kernel pid tid addr len pgoff prot name
    event_id time tail :
  let data := mkMmap2Data pid tid addr len pgoff (mmap2_maj undef) (mmap2_min undef)
    (mmap2_ino undef) (mmap2_ino_generation undef) prot (mmap2_flags undef) in
  mmap2_data_ok data -> cstring_ok name -> zlen name <= 65000 ->
  is_u64 event_id -> is_u64 time -> no_identifier attr ->
  (exists r r',
     Mmap2Record_new junk undef attr in_kernel pid tid addr len pgoff prot name event_id time = Ok r /\
     Mmap2Record_read attr (binary_ (mmap2_rec r) ++ tail) = Ok r' /\
     header (mmap2_rec r') = header (mmap2_rec r) /\
     sample_id (mmap2_rec r') = SampleId_selected (sample_id (mmap2_rec r)) /\
     deref Mmap2RecordDataType_codec (mmap2_rec r') (mmap2_data r') = Ok data /\
     deref_str (mmap2_rec r') (mmap2_filename r') = Ok name) /\
  (exists r r',
     CommRecord_new junk attr pid tid name event_id time = Ok r /\
     CommRecord_read attr (binary_ (comm_rec r) ++ tail) = Ok r' /\
     header (comm_rec r') = header (comm_rec r) /\
     sample_id (comm_rec r') = SampleId_selected (sample_id (comm_rec r)) /\
     deref CommRecordDataType_codec (comm_rec r') (comm_data r') = Ok (mkCommData pid tid) /\
     deref_str (comm_rec r') (comm_comm r') = Ok name).
Proof.
  intros data Hd Hf Hlen He Ht Hni. split.
  - unfold Mmap2Record_new, Mmap2Record_SetDataAndFilename, Mmap2Record_read. fold data.
    destruct (named_roundtrip Mmap2RecordDataType_codec mmap2_data_ok junk PERF_RECORD_MMAP2
      (kernel_or_user in_kernel) attr event_id time data name tail ltac:(done)
      ltac:(by destruct in_kernel) ltac:(done) Hd Hf Hlen He Ht)
      as (r & r' & ident & -> & Hr & Hh & _ & _ & _ & _ & Hs0 & Hs & Hdd & Hdf).
    eexists _, _. split; [done|]. cbn [mmap2_rec]. rewrite Hr. split_and!; try done.
    cbn. rewrite Hs. apply read_back_no_identifier. by rewrite Hs0, new_record_sample_id.
  - unfold CommRecord_new, CommRecord_read.
    destruct (named_roundtrip CommRecordDataType_codec comm_data_ok junk PERF_RECORD_COMM
      0 attr event_id time (mkCommData pid tid) name tail ltac:(done) ltac:(done) ltac:(done)
      ltac:(unfold comm_data_ok; cbn; unfold mmap2_data_ok in Hd; cbn in Hd; tauto) Hf Hlen He Ht)
      as (r & r' & ident & -> & Hr & Hh & _ & _ & _ & _ & Hs0 & Hs & Hdd & Hdf).
    eexists _, _. split; [done|]. cbn [comm_rec]. rewrite Hr. split_and!; try done.
    cbn. rewrite Hs. apply read_back_no_identifier. by rewrite Hs0, new_record_sample_id.
Qed.

Lemma Mmap2_Comm_roundtrip_witness :
  let attr := {| attr_sample_id_all := true; attr_sample_type := 6; attr_sample_regs_user := 0 |} in
  let data := mkMmap2Data 1 2 3 4 5 0 0 0 0 7 0 in
  (exists r r',
     Mmap2Record_new (fun _ => 3) data attr false 1 2 3 4 5 7 (str "app") 9 10 = Ok r /\
     Mmap2Record_read attr (binary_ (mmap2_rec r) ++ []) = Ok r' /\
     header (mmap2_rec r') = header (mmap2_rec r) /\
     sample_id (mmap2_rec r') = SampleId_selected (sample_id (mmap2_rec r)) /\
     deref Mmap2RecordDataType_codec (mmap2_rec r') (mmap2_data r') = Ok data /\
     deref_str (mmap2_rec r') (mmap2_filename r') = Ok (str "app")) /\
  (exists r r',
     CommRecord_new (fun _ => 3) attr 1 2 (str "app") 9 10 = Ok r /\
     CommRecord_read attr (binary_ (comm_rec r) ++ []) = Ok r' /\
     header (comm_rec r') = header (comm_rec r) /\
     sample_id (comm_rec r') = SampleId_selected (sample_id (comm_rec r)) /\
     deref CommRecordDataType_codec (comm_rec r') (comm_data r') = Ok (mkCommData 1 2) /\
     deref_str (comm_rec r') (comm_comm r') = Ok (str "app")).
Proof.
  intros attr data.
  apply (Mmap2_Comm_roundtrip (fun _ => 3) data attr false 1 2 3 4 5 7 (str "app") 9 10 []).
  - unfold mmap2_data_ok. cbn. unfold_u. lia.
  - cbn. repeat constructor; lia.
  - vm_compute; congruence.
  - unfold is_u64; lia.
  - unfold is_u64; lia.
  - reflexivity.
Defined.

(** * A record that does not fit *)

(** A file name that makes an mmap record 64 KiB or longer aborts in the
    header's [CHECK_LT]; no truncated record is written. *)
Theorem MmapRecord_too_long junk attr in_kernel pid tid addr len pgoff filename event_id time :
  65488 <= zlen filename < 2 ^ 31 ->
  MmapRecord_new junk attr in_kernel pid tid addr len pgoff filename event_id time = CheckFailed.
Proof.
  intros Hlen. unfold MmapRecord_new, MmapRecord_SetDataAndFilename, write_named.
  set (r0 := new_record _ _ _ _ _). pose proof (SampleId_Size_bound (sample_id r0)) as Hs.
  pose proof (Align_8 (zlen filename + 1) ltac:(lia)) as Hal.
  destruct (Align_spec (zlen filename + 1) 3) as [_ [k Hk]]; [lia..|]. change (2 ^ 3) with 8 in Hk.
  set (sz := _ + _ + _ + _).
  assert (2 ^ 16 <= sz < 2 ^ 32) as Hsz.
  { unfold sz, header_size. change (sizeof MmapRecordDataType_codec) with 32. lia. }
  unfold RecordHeader_MoveToBinaryFormat. cbn [SetSize header type size].
  change (type (header r0) <? SIMPLE_PERF_RECORD_TYPE_START) with true. cbn [mbind res_bind].
  rewrite u32_small by (unfold is_u32; lia). unfold CHECK. change (Z.shiftl 1 16) with (2 ^ 16).
  by rewrite (proj2 (Z.ltb_ge _ _)) by lia.
Qed.

Lemma MmapRecord_too_long_witness :
  MmapRecord_new (fun _ => 0)
    {| attr_sample_id_all := false; attr_sample_type := 0; attr_sample_regs_user := 0 |}
    false 1 1 0 0 0 (replicate (Z.to_nat 65488) 97) 0 0 = CheckFailed.
Proof.
  apply MmapRecord_too_long. rewrite zlen_replicate. rewrite Z2Nat.id by lia. lia.
Defined.

(** * Build-id, fork and unwinding-result records *)

Section build_id.
Context (in_kernel : bool) (pid : Z) (id : BuildId) (name : bytes).
Hypothesis Hpid : is_u32 pid.
Hypothesis Hid : BuildId_ok id.
Hypothesis Hname : cstring_ok name.
Hypothesis Hmax : zlen name <= 65000.

Definition build_id_header : RecordHeader :=
  mkHeader PERF_RECORD_BUILD_ID (kernel_or_user in_kernel) (36 + Align (zlen name + 1) 64).
Definition build_id_bytes (pad1 pad2 : bytes) : bytes :=
  header_bytes build_id_header ++ enc uint32_t pid ++ (data_ id ++ pad1) ++ name ++ 0 :: pad2.

Lemma build_id_header_ok : header_ok build_id_header.
Proof.
  pose proof (zlen_nonneg name). pose proof (Align_64 (zlen name + 1) ltac:(lia)).
  unfold header_ok, build_id_header, SIMPLE_PERF_RECORD_TYPE_START, PERF_RECORD_BUILD_ID,
    kernel_or_user, PERF_RECORD_MISC_KERNEL, PERF_RECORD_MISC_USER.
  cbn. unfold_u. destruct in_kernel; lia.
Qed.

Lemma BuildIdRecord_new_bytes junk :
  exists pad1 pad2, zlen pad1 = 4 /\ zlen name + 1 + zlen pad2 = Align (zlen name + 1) 64 /\
  BuildIdRecord_new junk in_kernel pid id name =
    Ok (mkBuildIdRec (mkRecord build_id_header SampleId_default (build_id_bytes pad1 pad2) true)
          pid id 36).
Proof.
  pose proof (zlen_nonneg name). pose proof (Align_64 (zlen name + 1) ltac:(lia)) as Hal.
  destruct Hid as [Hidl _]. pose proof build_id_header_ok as Hok.
  unfold BuildIdRecord_new. rewrite !(u32_small _ Hpid).
  change (Align BUILD_ID_SIZE 8) with 24. unfold header_size.
  replace (8 + 4 + 24 + Align (zlen name + 1) 64) with (36 + Align (zlen name + 1) 64) by lia.
  replace (SetSize _ _) with (mkRecord build_id_header SampleId_default [] false).
  2: { unfold SetSize, build_id_header. cbn. by rewrite u32_small by (unfold is_u32; lia). }
  cbn [header]. set (rest := new_char junk (size build_id_header)).
  assert (zlen rest = 36 + Align (zlen name + 1) 64) as Hrest by (apply zlen_new_char; cbn; lia).
  change rest with ([] ++ rest) at 1.
  rewrite (writes_header _ Hok) by wside. cbn [mbind res_bind app]. rewrite zlen_header_bytes.
  rewrite (writes_value uint32_t is_u32 pid) by wside. cbn [mbind res_bind].
  match goal with |- context [mem_write (?p ++ ?r) _ (data_ id)] =>
    destruct (mem_write_pad p r (data_ id) 24 (zlen p) eq_refl) as (pad1 & -> & Hp1);
      [autorewrite with zlen; rewrite ?zlen_zdrop_max; lia|]
  end.
  cbn [mbind res_bind]. unfold strcpy. rewrite c_str_ok by done.
  match goal with |- context [mem_write (?p ++ ?r) ?q (name ++ [0])] =>
    destruct (mem_write_pad p r (name ++ [0]) (Align (zlen name + 1) 64) q) as (pad2 & -> & Hp2);
      [autorewrite with zlen; lia|autorewrite with zlen; rewrite ?zlen_zdrop_max; lia|]
  end.
  cbn [mbind res_bind]. rewrite (zdrop_end (Align (zlen name + 1) 64)), app_nil_r by wside.
  exists pad1, pad2. split_and!; [lia|autorewrite with zlen in Hp2; lia|].
  unfold UpdateBinary, build_id_bytes. rewrite <- !app_assoc. autorewrite with zlen. done.
Qed.

Lemma BuildId_of_bytes_exact b : zlen b = 20 -> BuildId_of_bytes b BUILD_ID_SIZE = Ok {| data_ := b |}.
Proof.
  intros Hb. unfold BuildId_of_bytes. change (Z.min BUILD_ID_SIZE BUILD_ID_SIZE) with 20.
  rewrite (bytes_at_read b 0 b) by (done || by exists [], []; rewrite app_nil_r).
  cbn [mbind res_bind data_ BuildId_zero].
  change (replicate 20 0) with ([] ++ replicate 20 0). rewrite mem_write_app by (done || rewrite Hb; done).
  cbn [mbind res_bind app]. by rewrite zdrop_ge, app_nil_r by (rewrite zlen_replicate; lia).
Qed.

Lemma BuildIdRecord_read_bytes pad1 pad2 tail :
  zlen pad1 = 4 -> zlen name + 1 + zlen pad2 = Align (zlen name + 1) 64 ->
  let m := build_id_bytes pad1 pad2 ++ tail in
  BuildIdRecord_read m =
    Ok (mkBuildIdRec (mkRecord build_id_header SampleId_default m false) pid id 36) /\
  bytes_at m 36 (name ++ 0 :: pad2).
Proof.
  intros Hp1 Hp2 m. destruct Hid as [Hidl _]. pose proof build_id_header_ok as Hok.
  assert (bytes_at m 0 (build_id_bytes pad1 pad2)) as Hat by apply bytes_at_intro.
  unfold build_id_bytes in Hat. unfold BuildIdRecord_read. start_read Hok Hat.
  step_read Hat (reads_value uint32_t is_u32 pid Hpid). unfold header_size in *.
  rewrite zlen_enc_u32 in *. change (8 + 4) with 12 in *.
  apply bytes_at_split in Hat as [Hati Hat]. rewrite zlen_app, Hidl, Hp1 in Hat.
  change (12 + (20 + 4)) with 36 in Hat.
  apply bytes_at_split in Hati as [Hati _]. rewrite (bytes_at_read _ _ _ _ Hati) by done.
  cbn [mbind res_bind]. rewrite BuildId_of_bytes_exact by done. cbn [mbind res_bind].
  change (Align BUILD_ID_SIZE 8) with 24. change (12 + 24) with 36.
  rewrite (bytes_at_strlen _ _ _ _ Hat Hname). cbn [mbind res_bind].
  rewrite CHECK_eq by done. cbn [mbind res_bind]. by destruct id.
Qed.
End build_id.

(** Build-id records round trip: pid, build id and file name. *)
Theorem BuildIdRecord_roundtrip junk in_kernel pid id name tail :
  is_u32 pid -> BuildId_ok id -> cstring_ok name -> zlen name <= 65000 ->
  exists r r', BuildIdRecord_new junk in_kernel pid id name = Ok r /\
    BuildIdRecord_read (binary_ (bid_rec r) ++ tail) = Ok r' /\
    header (bid_rec r') = header (bid_rec r) /\ InKernel (bid_rec r') = in_kernel /\
    bid_pid r' = pid /\ bid_build_id r' = id /\
    deref_str (bid_rec r') (bid_filename r') = Ok name.
Proof.
  intros Hpid Hid Hname Hmax.
  destruct (BuildIdRecord_new_bytes in_kernel pid id name Hpid Hid Hname Hmax junk)
    as (pad1 & pad2 & Hp1 & Hp2 & Hw).
  destruct (BuildIdRecord_read_bytes in_kernel pid id name Hpid Hid Hname Hmax pad1 pad2 tail Hp1 Hp2)
    as [Hr Hn].
  eexists _, _. split; [exact Hw|]. cbn [bid_rec binary_]. split; [exact Hr|].
  split_and!; [done|by destruct in_kernel|done|done|]. by apply deref_str_at with pad2.
Qed.

Lemma BuildIdRecord_roundtrip_witness :
  exists r r', BuildIdRecord_new (fun _ => 4) true 11 BuildId_zero (str "k") = Ok r /\
    BuildIdRecord_read (binary_ (bid_rec r) ++ []) = Ok r' /\
    header (bid_rec r') = header (bid_rec r) /\ InKernel (bid_rec r') = true /\
    bid_pid r' = 11 /\ bid_build_id r' = BuildId_zero /\
    deref_str (bid_rec r') (bid_filename r') = Ok (str "k").
Proof.
  apply (BuildIdRecord_roundtrip (fun _ => 4) true 11 BuildId_zero (str "k") []).
  - unfold is_u32; lia.
  - split; [reflexivity|]. cbn. repeat constructor; lia.
  - cbn. repeat constructor; lia.
  - vm_compute; congruence.
Defined.

Section unwinding.
Context (time : Z) (u : UnwindingResult).
Hypothesis Htime : is_u64 time.
Hypothesis Hu : is_u64 (used_time u) /\ is_u32 (stop_reason u) /\ is_u64 (stop_info u) /\
  is_u64 (stack_start u) /\ is_u64 (stack_end u).

Definition unwinding_header : RecordHeader := mkHeader SIMPLE_PERF_RECORD_UNWINDING_RESULT 0 56.
Definition unwinding_bytes : bytes :=
  header_bytes unwinding_header ++ enc uint64_t time ++ enc uint64_t (used_time u) ++
  enc uint64_t (stop_reason u) ++ enc uint64_t (stop_info u) ++ enc uint64_t (stack_start u) ++
  enc uint64_t (stack_end u).

Lemma UnwindingResultRecord_new_bytes junk :
  UnwindingResultRecord_new junk time u =
    Ok (mkUnwinding (mkRecord unwinding_header SampleId_default unwinding_bytes true) time u).
Proof.
  unfold UnwindingResultRecord_new. change (header_size + 6 * 8) with 56. start_plain 56.
  assert (zlen (new_char junk 56) = 56) as Hnew by (apply zlen_new_char; lia).
  step_write (writes_value uint64_t is_u64 time).
  step_write (writes_value uint64_t is_u64 (used_time u)).
  step_write (writes_value uint64_t is_u64 (stop_reason u)).
  step_write (writes_value uint64_t is_u64 (stop_info u)).
  step_write (writes_value uint64_t is_u64 (stack_start u)).
  step_write (writes_value uint64_t is_u64 (stack_end u)).
  rewrite (zdrop_end (zlen (enc uint64_t (stack_end u)))), app_nil_r by wside.
  rewrite <- !app_assoc. done.
Qed.

Lemma UnwindingResultRecord_read_bytes tail :
  UnwindingResultRecord_read (unwinding_bytes ++ tail) =
    Ok (mkUnwinding (mkRecord unwinding_header SampleId_default (unwinding_bytes ++ tail) false)
          time u).
Proof.
  destruct Hu as (H1 & H2 & H3 & H4 & H5).
  assert (is_u64 (stop_reason u)) as H2' by (unfold_u; lia).
  destruct (plain_header SIMPLE_PERF_RECORD_UNWINDING_RESULT 56) as [_ Hok]; [done..|].
  set (m := unwinding_bytes ++ tail).
  assert (bytes_at m 0 unwinding_bytes) as Hat by apply bytes_at_intro.
  unfold UnwindingResultRecord_read. unfold unwinding_bytes in Hat. start_read Hok Hat.
  step_read Hat (reads_value uint64_t is_u64 time Htime).
  step_read Hat (reads_value uint64_t is_u64 (used_time u) H1).
  step_read Hat (reads_value uint64_t is_u64 (stop_reason u) H2').
  step_read Hat (reads_value uint64_t is_u64 (stop_info u) H3).
  step_read Hat (reads_value uint64_t is_u64 (stack_start u) H4).
  rewrite (reads_value uint64_t is_u64 (stack_end u) H5 _ _ Hat). cbn [mbind res_bind].
  rewrite CHECK_eq by (unfold header_size; autorewrite with zlen; done).
  cbn [mbind res_bind]. rewrite u32_small by done. by destruct u.
Qed.
End unwinding.

Section fork.
Context (attr : perf_event_attr) (pid tid ppid ptid event_id : Z).
Hypothesis Hdata : fork_data_ok (mkForkData pid ppid tid ptid 0).
Hypothesis Heid : is_u64 event_id.

Definition fork_sample_id : SampleId :=
  sample_id (new_record PERF_RECORD_FORK 0 attr event_id 0).
Definition fork_header : RecordHeader :=
  mkHeader PERF_RECORD_FORK 0 (32 + SampleId_Size fork_sample_id).
Definition fork_bytes (ident : bytes) : bytes :=
  header_bytes fork_header ++
  enc ExitOrForkRecordDataType_codec (mkForkData pid ppid tid ptid 0) ++
  SampleId_bytes fork_sample_id ++ ident.

Lemma fork_header_ok : header_ok fork_header.
Proof.
  pose proof (SampleId_Size_bound fork_sample_id).
  unfold header_ok, fork_header, SIMPLE_PERF_RECORD_TYPE_START, PERF_RECORD_FORK.
  cbn [type misc size]. unfold_u. lia.
Qed.

Lemma ForkRecord_new_bytes junk :
  exists ident, zlen ident = identifier_size fork_sample_id /\ bytes_ok ident /\
  ForkRecord_new junk attr pid tid ppid ptid event_id =
    Ok (mkFork (mkRecord fork_header fork_sample_id (fork_bytes ident) true) 8).
Proof.
  pose proof (SampleId_Size_bound fork_sample_id) as Hs.
  pose proof (SampleId_Size_bytes fork_sample_id) as Hsz. pose proof fork_header_ok as Hok.
  pose proof (zlen_nonneg (SampleId_bytes fork_sample_id)).
  assert (0 <= identifier_size fork_sample_id) by (unfold identifier_size; case_if; lia).
  unfold ForkRecord_new. fold fork_sample_id. change (header_size + sizeof _) with 32.
  replace (SetSize (32 + SampleId_Size fork_sample_id) (new_record PERF_RECORD_FORK 0 attr event_id 0))
    with (mkRecord fork_header fork_sample_id [] false).
  2: { unfold SetSize, fork_header. rewrite u32_small by (unfold is_u32; lia). done. }
  cbn [header sample_id]. set (rest := new_char junk (size fork_header)).
  assert (zlen rest = 32 + SampleId_Size fork_sample_id) as Hrest
    by (apply zlen_new_char; cbn [fork_header size]; lia).
  change rest with ([] ++ rest) at 1.
  rewrite (writes_header _ Hok) by wside. cbn [mbind res_bind app]. rewrite zlen_header_bytes.
  assert (forall d, zlen (enc ExitOrForkRecordDataType_codec d) = 24) as He
    by (intros; by rewrite enc_len).
  rewrite (writes_value ExitOrForkRecordDataType_codec fork_data_ok)
    by (rewrite ?He, ?zlen_header_bytes, ?zlen_zdrop_max; done || lia).
  cbn [mbind res_bind]. rewrite (writes_SampleId fork_sample_id)
    by (rewrite ?He, ?zlen_zdrop_max; done || lia).
  cbn [mbind res_bind]. eexists. split_and!; last first.
  - unfold UpdateBinary, fork_bytes. rewrite <- !(app_assoc (header_bytes fork_header)).
    by rewrite <- (app_assoc (enc _ _)).
  - do 3 apply bytes_ok_zdrop. apply bytes_ok_new_char.
  - rewrite !zlen_zdrop_max, He. lia.
Qed.

Lemma ForkRecord_read_bytes ident tail :
  zlen ident = identifier_size fork_sample_id -> bytes_ok ident ->
  let m := fork_bytes ident ++ tail in
  ExitOrForkRecord_read attr m =
    Ok (mkFork (mkRecord fork_header (read_back fork_sample_id ident) m false) 8) /\
  MoveFromBinaryFormat ExitOrForkRecordDataType_codec m 8
    = Ok (mkForkData pid ppid tid ptid 0, 32).
Proof.
  intros Hil Hiok m. destruct (ident_bytes fork_sample_id ident Hil Hiok) as [Hid Hx].
  destruct (new_record_sample_id_ok PERF_RECORD_FORK 0 attr event_id 0 Heid ltac:(done)) as [Hs Ha].
  pose proof (SampleId_Size_bound fork_sample_id) as Hsb.
  assert (bytes_at m 0 (fork_bytes ident)) as Hat by apply bytes_at_intro.
  unfold fork_bytes in Hat. unfold ExitOrForkRecord_read. start_read fork_header_ok Hat.
  apply bytes_at_split in Hat as [Hatd Hat].
  change (zlen (enc ExitOrForkRecordDataType_codec _)) with 24 in Hat.
  unfold header_size in *. change (8 + 24) with 32 in *.
  change (8 + sizeof ExitOrForkRecordDataType_codec) with 32.
  rewrite CHECK_le by (cbn [fork_header size]; lia). cbn [mbind res_bind sample_id].
  split; [|by erewrite MoveFrom_at by first [apply ExitOrForkRecordDataType_ok|eassumption]].
  rewrite Hid in Hat. rewrite (SampleId_read_at attr fork_sample_id m _ _ (le_decode ident))
    by (done || cbn [fork_header size]; lia). done.
Qed.
End fork.

(** Fork and unwinding-result records round trip. *)
Theorem Fork_Unwinding_roundtrip junk attr pid tid ppid ptid event_id time u tail :
  fork_data_ok (mkForkData pid ppid tid ptid 0) -> is_u64 event_id -> no_identifier attr ->
  is_u64 time -> is_u64 (used_time u) /\ is_u32 (stop_reason u) /\ is_u64 (stop_info u) /\
    is_u64 (stack_start u) /\ is_u64 (stack_end u) ->
  (exists r r', ForkRecord_new junk attr pid tid ppid ptid event_id = Ok r /\
     ExitOrForkRecord_read attr (binary_ (fork_rec r) ++ tail) = Ok r' /\
     header (fork_rec r') = header (fork_rec r) /\
     sample_id (fork_rec r') = SampleId_selected (sample_id (fork_rec r)) /\
     deref ExitOrForkRecordDataType_codec (fork_rec r') (fork_data r')
       = Ok (mkForkData pid ppid tid ptid 0)) /\
  (exists r r', UnwindingResultRecord_new junk time u = Ok r /\
     UnwindingResultRecord_read (binary_ (uw_rec r) ++ tail) = Ok r' /\
     uw_time r' = time /\ uw_result r' = u).
Proof.
  intros Hd He Hni Ht Hu. split.
  - destruct (ForkRecord_new_bytes attr pid tid ppid ptid event_id junk) as (ident & Hl & Hok & Hw).
    destruct (ForkRecord_read_bytes attr pid tid ppid ptid event_id Hd He ident tail Hl Hok)
      as [Hr Hm].
    eexists _, _. split; [exact Hw|]. cbn [fork_rec binary_]. split; [exact Hr|].
    cbn [fork_rec header sample_id fork_data]. split_and!; [done|by apply read_back_no_identifier|].
    unfold deref. cbn [binary_]. by rewrite Hm.
  - eexists _, _. split; [apply UnwindingResultRecord_new_bytes|]. cbn [uw_rec binary_].
    split; [by apply UnwindingResultRecord_read_bytes|done].
Qed.

Lemma Fork_Unwinding_roundtrip_witness :
  let attr := {| attr_sample_id_all := true; attr_sample_type := 6; attr_sample_regs_user := 0 |} in
  let u := mkUnwindingResult 1 2 3 4 5 in
  (exists r r', ForkRecord_new (fun _ => 0) attr 1 2 3 4 5 = Ok r /\
     ExitOrForkRecord_read attr (binary_ (fork_rec r) ++ []) = Ok r' /\
     header (fork_rec r') = header (fork_rec r) /\
     sample_id (fork_rec r') = SampleId_selected (sample_id (fork_rec r)) /\
     deref ExitOrForkRecordDataType_codec (fork_rec r') (fork_data r')
       = Ok (mkForkData 1 3 2 4 0)) /\
  (exists r r', UnwindingResultRecord_new (fun _ => 0) 9 u = Ok r /\
     UnwindingResultRecord_read (binary_ (uw_rec r) ++ []) = Ok r' /\
     uw_time r' = 9 /\ uw_result r' = u).
Proof.
  intros attr u. apply (Fork_Unwinding_roundtrip (fun _ => 0) attr 1 2 3 4 5 9 u []).
  - unfold fork_data_ok. cbn. unfold_u. lia.
  - unfold is_u64; lia.
  - reflexivity.
  - unfold is_u64; lia.
  - cbn. unfold_u. lia.
Defined.
