(* ===== verification/SampleRecord.v ===== *)
(** Model of [SampleRecord] of src/simpleperf/record.h and record.cpp: the
    parsing and the building constructor and the functions that edit a sample
    in place or in a new buffer.

    Pointer members are offsets into the record's binary, so an edit of the
    binary is seen through them as in the source.  A constructor that leaves a
    member uninitialised keeps the value of the argument [undef]. *)
From stdpp Require Import base list numbers strings.
From Stdlib Require Import ZArith Lia.
From S2P Require Import Prelude Utils RecordBase.

Record BranchStackItemType := mkBranch { from : Z; to : Z; flags : Z }.
Definition branch_codec : codec BranchStackItemType :=
  struct_codec (pair_codec uint64_t (pair_codec uint64_t uint64_t))
    (fun '(f, (t, g)) => mkBranch f t g) (fun b => (from b, (to b, flags b))).

(** The members of [SampleRecord], the [PerfSample*Type] structs flattened. *)
Record SampleRecord := mkSample {
  s_rec : Record_;
  s_type : Z;              (* sample_type *)
  s_ip : Z;                (* ip_data.ip *)
  s_tid : PerfSampleTidType;
  s_time : Z;
  s_addr : Z;
  s_id : Z;
  s_stream_id : Z;
  s_cpu : PerfSampleCpuType;
  s_period : Z;
  s_ip_nr : Z; s_ips : Z;                              (* callchain_data *)
  s_raw_size : Z; s_raw_data : Z;                      (* raw_data *)
  s_branch_nr : Z; s_branch : Z;                       (* branch_stack_data *)
  s_abi : Z; s_reg_mask : Z; s_reg_nr : Z; s_regs : Z; (* regs_user_data *)
  s_stack_size : Z; s_stack_data : Z; s_dyn_size : Z;  (* stack_user_data *)
}.

(** * Member updates *)

Definition set_rec (x : Record_) (r : SampleRecord) : SampleRecord :=
  mkSample x (s_type r) (s_ip r) (s_tid r) (s_time r) (s_addr r) (s_id r) (s_stream_id r)
    (s_cpu r) (s_period r) (s_ip_nr r) (s_ips r) (s_raw_size r) (s_raw_data r) (s_branch_nr r)
    (s_branch r) (s_abi r) (s_reg_mask r) (s_reg_nr r) (s_regs r) (s_stack_size r)
    (s_stack_data r) (s_dyn_size r).
Definition set_ip (x : Z) (r : SampleRecord) : SampleRecord :=
  mkSample (s_rec r) (s_type r) x (s_tid r) (s_time r) (s_addr r) (s_id r) (s_stream_id r)
    (s_cpu r) (s_period r) (s_ip_nr r) (s_ips r) (s_raw_size r) (s_raw_data r) (s_branch_nr r)
    (s_branch r) (s_abi r) (s_reg_mask r) (s_reg_nr r) (s_regs r) (s_stack_size r)
    (s_stack_data r) (s_dyn_size r).
Definition set_callchain (nr ips : Z) (r : SampleRecord) : SampleRecord :=
  mkSample (s_rec r) (s_type r) (s_ip r) (s_tid r) (s_time r) (s_addr r) (s_id r) (s_stream_id r)
    (s_cpu r) (s_period r) nr ips (s_raw_size r) (s_raw_data r) (s_branch_nr r)
    (s_branch r) (s_abi r) (s_reg_mask r) (s_reg_nr r) (s_regs r) (s_stack_size r)
    (s_stack_data r) (s_dyn_size r).
Definition set_raw_data (x : Z) (r : SampleRecord) : SampleRecord :=
  mkSample (s_rec r) (s_type r) (s_ip r) (s_tid r) (s_time r) (s_addr r) (s_id r) (s_stream_id r)
    (s_cpu r) (s_period r) (s_ip_nr r) (s_ips r) (s_raw_size r) x (s_branch_nr r)
    (s_branch r) (s_abi r) (s_reg_mask r) (s_reg_nr r) (s_regs r) (s_stack_size r)
    (s_stack_data r) (s_dyn_size r).
Definition set_branch (x : Z) (r : SampleRecord) : SampleRecord :=
  mkSample (s_rec r) (s_type r) (s_ip r) (s_tid r) (s_time r) (s_addr r) (s_id r) (s_stream_id r)
    (s_cpu r) (s_period r) (s_ip_nr r) (s_ips r) (s_raw_size r) (s_raw_data r) (s_branch_nr r)
    x (s_abi r) (s_reg_mask r) (s_reg_nr r) (s_regs r) (s_stack_size r)
    (s_stack_data r) (s_dyn_size r).
Definition set_abi (x : Z) (r : SampleRecord) : SampleRecord :=
  mkSample (s_rec r) (s_type r) (s_ip r) (s_tid r) (s_time r) (s_addr r) (s_id r) (s_stream_id r)
    (s_cpu r) (s_period r) (s_ip_nr r) (s_ips r) (s_raw_size r) (s_raw_data r) (s_branch_nr r)
    (s_branch r) x (s_reg_mask r) (s_reg_nr r) (s_regs r) (s_stack_size r)
    (s_stack_data r) (s_dyn_size r).
Definition set_stack_size (x : Z) (r : SampleRecord) : SampleRecord :=
  mkSample (s_rec r) (s_type r) (s_ip r) (s_tid r) (s_time r) (s_addr r) (s_id r) (s_stream_id r)
    (s_cpu r) (s_period r) (s_ip_nr r) (s_ips r) (s_raw_size r) (s_raw_data r) (s_branch_nr r)
    (s_branch r) (s_abi r) (s_reg_mask r) (s_reg_nr r) (s_regs r) x
    (s_stack_data r) (s_dyn_size r).

Definition bin (r : SampleRecord) : bytes := binary_ (s_rec r).
Definition set_bin (m : bytes) (r : SampleRecord) : SampleRecord :=
  set_rec (mkRecord (header (s_rec r)) (sample_id (s_rec r)) m (own_binary_ (s_rec r))) r.
Definition set_header (h : RecordHeader) (r : SampleRecord) : SampleRecord :=
  set_rec (mkRecord h (sample_id (s_rec r)) (binary_ (s_rec r)) (own_binary_ (s_rec r))) r.
Definition has_bit (r : SampleRecord) (bit : Z) : bool := has (s_type r) bit.

(** * [SampleRecord(const perf_event_attr& attr, char* p)] *)

(** The loop that counts the bits of [reg_mask]. *)
Definition count_bits (mask : Z) : Z :=
  foldl (fun bit_nr i => if Z.testbit mask (Z.of_nat i) then bit_nr + 1 else bit_nr) 0 (seq 0 64).

(** [ip_nr] or [stack_nr] and the array behind it: count, pointer, new [p]. *)
Definition read_counted (cond : bool) (elem : Z) (m : bytes) (old : Z * Z) (p : Z)
    : res ((Z * Z) * Z) :=
  if cond then
    '(nr, p) ← MoveFromBinaryFormat uint64_t m p;
    Ok ((nr, p), p + u64 (nr * elem))
  else Ok (old, p).

Definition read_raw (cond : bool) (m : bytes) (old : Z * Z) (p : Z) : res ((Z * Z) * Z) :=
  if cond then
    '(sz, p) ← MoveFromBinaryFormat uint32_t m p;
    Ok ((sz, p), p + sz)
  else Ok (old, p).

(** [regs_user_data]: abi, reg_mask, reg_nr, regs. *)
Definition read_regs (cond : bool) (attr : perf_event_attr) (m : bytes) (old : Z * Z * Z * Z)
    (p : Z) : res ((Z * Z * Z * Z) * Z) :=
  let '(abi0, mask0, nr0, regs0) := old in
  if cond then
    '(abi, p) ← MoveFromBinaryFormat uint64_t m p;
    if abi =? 0 then Ok ((abi, 0, nr0, regs0), p)
    else
      let bit_nr := count_bits (attr_sample_regs_user attr) in
      Ok ((abi, attr_sample_regs_user attr, bit_nr, p), p + bit_nr * 8)
  else Ok (old, p).

(** [stack_user_data]: size, data, dyn_size. *)
Definition read_stack (cond : bool) (m : bytes) (old : Z * Z * Z) (p : Z)
    : res ((Z * Z * Z) * Z) :=
  let '(size0, data0, dyn0) := old in
  if cond then
    '(sz, p) ← MoveFromBinaryFormat uint64_t m p;
    if sz =? 0 then Ok ((sz, data0, 0), p)
    else
      let data := p in
      '(dyn, p) ← MoveFromBinaryFormat uint64_t m (p + sz);
      Ok ((sz, data, dyn), p)
  else Ok (old, p).

(** The parts of variable size: their members, with [r] for the members read
    before them, and [p] behind them. *)
Definition read_parts (attr : perf_event_attr) (m : bytes) (r : SampleRecord) (p : Z)
    : res (SampleRecord * Z) :=
  let st := s_type r in
  '(ip_nr, ips, p) ← read_counted (has st SAMPLE_CALLCHAIN) 8 m (s_ip_nr r, s_ips r) p;
  '(raw_size, raw_data, p) ← read_raw (has st SAMPLE_RAW) m (s_raw_size r, s_raw_data r) p;
  '(branch_nr, branch, p) ← read_counted (has st SAMPLE_BRANCH_STACK) 24 m
     (s_branch_nr r, s_branch r) p;
  '(abi, reg_mask, reg_nr, regs, p) ← read_regs (has st SAMPLE_REGS_USER) attr m
     (s_abi r, s_reg_mask r, s_reg_nr r, s_regs r) p;
  '(stack_size, stack_data, dyn_size, p) ← read_stack (has st SAMPLE_STACK_USER) m
     (s_stack_size r, s_stack_data r, s_dyn_size r) p;
  Ok (mkSample (s_rec r) st (s_ip r) (s_tid r) (s_time r) (s_addr r) (s_id r) (s_stream_id r)
        (s_cpu r) (s_period r) ip_nr ips raw_size raw_data branch_nr branch abi reg_mask reg_nr
        regs stack_size stack_data dyn_size, p).

Definition SampleRecord_read (undef : SampleRecord) (attr : perf_event_attr) (m : bytes)
    : res SampleRecord :=
  r ← Record_read m;
  let end_ := size (header r) in
  let st := attr_sample_type attr in
  let p := header_size in
  '(id, p) ← read_if (has st SAMPLE_IDENTIFIER) uint64_t m 0 p;
  '(ip, p) ← read_if (has st SAMPLE_IP) uint64_t m (s_ip undef) p;
  '(tid, p) ← read_if (has st SAMPLE_TID) tid_codec m (s_tid undef) p;
  '(time, p) ← read_if (has st SAMPLE_TIME) uint64_t m (s_time undef) p;
  '(addr, p) ← read_if (has st SAMPLE_ADDR) uint64_t m (s_addr undef) p;
  '(id, p) ← read_if (has st SAMPLE_ID) uint64_t m id p;
  '(stream_id, p) ← read_if (has st SAMPLE_STREAM_ID) uint64_t m (s_stream_id undef) p;
  '(cpu, p) ← read_if (has st SAMPLE_CPU) cpu_codec m (s_cpu undef) p;
  '(period, p) ← read_if (has st SAMPLE_PERIOD) uint64_t m (s_period undef) p;
  '(r, p) ← read_parts attr m
     (mkSample r st ip tid time addr id stream_id cpu period (s_ip_nr undef) (s_ips undef)
        (s_raw_size undef) (s_raw_data undef) (s_branch_nr undef) (s_branch undef) (s_abi undef)
        (s_reg_mask undef) (s_reg_nr undef) (s_regs undef) (s_stack_size undef)
        (s_stack_data undef) (s_dyn_size undef)) p;
  _ ← CHECK (p <=? end_);
  Ok r.

(** * [SampleRecord(attr, id, ip, pid, tid, time, cpu, period, ips)] *)

(** The sample-type bits the constructor supports. *)
Definition supported_mask : Z :=
  foldr (fun b a => Z.lor (Z.shiftl 1 b) a) 0
    [SAMPLE_IP; SAMPLE_TID; SAMPLE_TIME; SAMPLE_ID; SAMPLE_CPU; SAMPLE_PERIOD;
     SAMPLE_CALLCHAIN; SAMPLE_REGS_USER; SAMPLE_STACK_USER].

Definition add_if (cond : bool) (n sz : Z) : Z := if cond then sz +u32 n else sz.

Definition SampleRecord_new (junk : nat -> Z) (undef : SampleRecord) (attr : perf_event_attr)
    (id ip pid tid time cpu period : Z) (ips : list Z) : res SampleRecord :=
  let r := SetTypeAndMisc PERF_RECORD_SAMPLE PERF_RECORD_MISC_USER Record_default in
  let st := attr_sample_type attr in
  _ ← CHECK (0 =? Z.land st (Z.lnot supported_mask));
  let sz := header_size in
  let sz := add_if (has st SAMPLE_IP) 8 sz in
  let sz := add_if (has st SAMPLE_TID) 8 sz in
  let sz := add_if (has st SAMPLE_TIME) 8 sz in
  let sz := add_if (has st SAMPLE_ID) 8 sz in
  let sz := add_if (has st SAMPLE_CPU) 8 sz in
  let sz := add_if (has st SAMPLE_PERIOD) 8 sz in
  let sz := add_if (has st SAMPLE_CALLCHAIN) (8 * (zlen ips + 1)) sz in
  let sz := add_if (has st SAMPLE_REGS_USER) 8 sz in
  let sz := add_if (has st SAMPLE_STACK_USER) 8 sz in
  let r := SetSize sz r in
  let m := new_char junk sz in
  '(m, p) ← RecordHeader_MoveToBinaryFormat (header r) m 0;
  '(m, p) ← write_if (has st SAMPLE_IP) uint64_t ip m p;
  '(m, p) ← write_if (has st SAMPLE_TID) tid_codec (mkTid pid tid) m p;
  '(m, p) ← write_if (has st SAMPLE_TIME) uint64_t time m p;
  '(m, p) ← write_if (has st SAMPLE_ID) uint64_t id m p;
  '(m, p) ← write_if (has st SAMPLE_CPU) cpu_codec (mkCpu cpu 0) m p;
  '(m, p) ← write_if (has st SAMPLE_PERIOD) uint64_t period m p;
  '(m, ips_p, p) ←
    (if has st SAMPLE_CALLCHAIN then
       '(m, p) ← MoveToBinaryFormat uint64_t (zlen ips) m p;
       let ips_p := p in
       '(m, p) ← MoveToBinaryFormatN uint64_t ips (zlen ips) m p;
       Ok (m, ips_p, p)
     else Ok (m, s_ips undef, p));
  '(m, p) ← write_if (has st SAMPLE_REGS_USER) uint64_t 0 m p;
  '(m, p) ← write_if (has st SAMPLE_STACK_USER) uint64_t 0 m p;
  _ ← CHECK (p =? sz);
  Ok (mkSample (UpdateBinary m r) st ip (mkTid pid tid) time (s_addr undef) id
        (s_stream_id undef) (mkCpu cpu 0) period (zlen ips) ips_p 0 (s_raw_data undef) 0
        (s_branch undef) 0 0 (s_reg_nr undef) (s_regs undef) 0 (s_stack_data undef)
        (s_dyn_size undef)).

(** * [ReplaceRegAndStackWithCallChain] *)

Definition memmove (m : bytes) (dst src n : Z) : res bytes :=
  b ← mem_read m src n; mem_write m dst b.

(** [p -= n; memmove(p, src, n); p -= sizeof(count); *p = count;] under [cond] *)
Definition move_back (cond : bool) (c : codec Z) (count src n : Z) (m : bytes) (p : Z)
    : res (bytes * Z) :=
  if cond then
    let p := p - n in
    m ← memmove m p src n;
    let p := p - sizeof c in
    m ← mem_write m p (enc c count);
    Ok (m, p)
  else Ok (m, p).

Definition ReplaceRegAndStackWithCallChain (ips : list Z) (r : SampleRecord) : res SampleRecord :=
  let size_added_in_callchain := u32 (8 * (zlen ips + 1)) in
  let size_reduced_in_reg_stack := u32 (s_reg_nr r * 8 + s_stack_size r + 8) in
  _ ← CHECK (size_added_in_callchain <=? size_reduced_in_reg_stack);
  let size_reduced := size_reduced_in_reg_stack -u32 size_added_in_callchain in
  let r := set_rec (SetSize (size (header (s_rec r)) - size_reduced) (s_rec r)) r in
  '(m, _) ← RecordHeader_MoveToBinaryFormat (header (s_rec r)) (bin r) 0;
  let p := s_stack_data r + s_stack_size r + 8 -
           (size_reduced_in_reg_stack -u32 size_added_in_callchain) in
  let r := set_abi 0 (set_stack_size 0 r) in
  let p := p - 8 in
  m ← mem_write m p (enc uint64_t (s_stack_size r));
  let p := p - 8 in
  m ← mem_write m p (enc uint64_t (s_abi r));
  '(m, p) ← move_back (has_bit r SAMPLE_BRANCH_STACK) uint64_t (s_branch_nr r) (s_branch r)
              (s_branch_nr r * 24) m p;
  '(m, p) ← move_back (has_bit r SAMPLE_RAW) uint32_t (s_raw_size r) (s_raw_data r)
              (s_raw_size r) m p;
  let p := p - zlen ips * 8 in
  m ← mem_write m p (enc_array uint64_t ips);
  let p := p - 8 in
  m ← mem_write m p (enc uint64_t PERF_CONTEXT_USER);
  let p := p - 8 * s_ip_nr r in
  let r := set_callchain (s_ip_nr r +u64 (zlen ips + 1)) p r in
  let p := p - 8 in
  m ← mem_write m p (enc uint64_t (s_ip_nr r));
  Ok (set_bin m r).

(** * Reading and editing the call chain *)

(** [callchain_data.ips[i]] *)
Definition get_ip (r : SampleRecord) (i : Z) : res Z :=
  fst <$> MoveFromBinaryFormat uint64_t (bin r) (s_ips r + 8 * i).

(** [callchain_data.ips[i] = x] *)
Definition put_ip (i x : Z) (r : SampleRecord) : res SampleRecord :=
  m ← mem_write (bin r) (s_ips r + 8 * i) (enc uint64_t x); Ok (set_bin m r).

(** The loop of [ExcludeKernelCallChain] from index [i], [fuel] entries left:
    the record and the value of [i] after the loop. *)
Fixpoint ExcludeKernelCallChain_loop (fuel : nat) (i : Z) (r : SampleRecord)
    : res (SampleRecord * Z) :=
  match fuel with
  | O => Ok (r, i)
  | S fuel =>
      ip ← get_ip r i;
      if ip =? PERF_CONTEXT_USER then
        let i := i + 1 in
        if i <? s_ip_nr r then
          ip ← get_ip r i;
          let r := set_ip ip r in
          r ← (if has_bit r SAMPLE_IP
               then m ← mem_write (bin r) header_size (enc uint64_t ip); Ok (set_bin m r)
               else Ok r);
          let h := header (s_rec r) in
          let mi := Z.lor (Z.land (misc h) (u16 (Z.lnot PERF_RECORD_MISC_KERNEL)))
                          PERF_RECORD_MISC_USER in
          let r := set_header (mkHeader (type h) mi (size h)) r in
          m ← mem_write (bin r) 4 (enc uint16_t mi);
          Ok (set_bin m r, i)
        else Ok (r, i)
      else
        r ← put_ip i PERF_CONTEXT_USER r;
        ExcludeKernelCallChain_loop fuel (i + 1) r
  end.

(** The edited record and the returned length of the user call chain. *)
Definition ExcludeKernelCallChain (r : SampleRecord) : res (SampleRecord * Z) :=
  if has_bit r SAMPLE_CALLCHAIN then
    '(r', i) ← ExcludeKernelCallChain_loop (Z.to_nat (s_ip_nr r)) 0 r;
    Ok (r', s_ip_nr r' - i)
  else Ok (r, 0).

(** [callchain_data.ips[0 .. ip_nr)] *)
Definition get_ips (r : SampleRecord) : res (list Z) :=
  fst <$> MoveFromBinaryFormatN uint64_t (s_ip_nr r) (bin r) (s_ips r).

Fixpoint HasUserCallChain_loop (in_user_context : bool) (ips : list Z) : bool :=
  match ips with
  | [] => false
  | ip :: ips =>
      if in_user_context && (ip <? PERF_CONTEXT_MAX) then true
      else HasUserCallChain_loop (if ip =? PERF_CONTEXT_USER then true else in_user_context) ips
  end.

Definition HasUserCallChain (r : SampleRecord) : res bool :=
  if negb (has_bit r SAMPLE_CALLCHAIN) then Ok false
  else ips ← get_ips r; Ok (HasUserCallChain_loop (negb (InKernel (s_rec r))) ips).

(** The [kernel_ips] loop of [UpdateUserCallChain]: up to the first user marker. *)
Fixpoint kernel_part (ips : list Z) : list Z :=
  match ips with
  | [] => []
  | ip :: ips => if ip =? PERF_CONTEXT_USER then [] else ip :: kernel_part ips
  end.

(** The parts of the new binary, each written at [p]; the parts of variable
    size also redirect the pointers of the object. *)
Definition write_prefix (r : SampleRecord) (m : bytes) (p : Z) : res (bytes * Z) :=
  '(m, p) ← write_if (has_bit r SAMPLE_IDENTIFIER) uint64_t (s_id r) m p;
  '(m, p) ← write_if (has_bit r SAMPLE_IP) uint64_t (s_ip r) m p;
  '(m, p) ← write_if (has_bit r SAMPLE_TID) tid_codec (s_tid r) m p;
  '(m, p) ← write_if (has_bit r SAMPLE_TIME) uint64_t (s_time r) m p;
  '(m, p) ← write_if (has_bit r SAMPLE_ADDR) uint64_t (s_addr r) m p;
  '(m, p) ← write_if (has_bit r SAMPLE_ID) uint64_t (s_id r) m p;
  '(m, p) ← write_if (has_bit r SAMPLE_STREAM_ID) uint64_t (s_stream_id r) m p;
  '(m, p) ← write_if (has_bit r SAMPLE_CPU) cpu_codec (s_cpu r) m p;
  write_if (has_bit r SAMPLE_PERIOD) uint64_t (s_period r) m p.

Definition write_chain (kernel_ips user_ips : list Z) (r : SampleRecord) (m : bytes) (p : Z)
    : res (bytes * Z * SampleRecord) :=
  if has_bit r SAMPLE_CALLCHAIN then
    let nr := zlen kernel_ips + zlen user_ips in
    '(m, p) ← MoveToBinaryFormat uint64_t nr m p;
    let r := set_callchain nr p r in
    '(m, p) ← MoveToBinaryFormatN uint64_t kernel_ips (zlen kernel_ips) m p;
    '(m, p) ← MoveToBinaryFormatN uint64_t user_ips (zlen user_ips) m p;
    Ok (m, p, r)
  else Ok (m, p, r).

Definition write_raw (r : SampleRecord) (m : bytes) (p : Z) : res (bytes * Z * SampleRecord) :=
  if has_bit r SAMPLE_RAW then
    '(m, p) ← MoveToBinaryFormat uint32_t (s_raw_size r) m p;
    b ← mem_read (bin r) (s_raw_data r) (s_raw_size r);
    m ← mem_write m p b;
    let p := p + s_raw_size r in
    Ok (m, p, set_raw_data (p - s_raw_size r) r)
  else Ok (m, p, r).

Definition write_branch (r : SampleRecord) (m : bytes) (p : Z) : res (bytes * Z * SampleRecord) :=
  if has_bit r SAMPLE_BRANCH_STACK then
    '(m, p) ← MoveToBinaryFormat uint64_t (s_branch_nr r) m p;
    let old_p := p in
    b ← mem_read (bin r) (s_branch r) (u64 (s_branch_nr r * 24));
    m ← mem_write m p b;
    let p := p + u64 (s_branch_nr r * 24) in
    Ok (m, p, set_branch old_p r)
  else Ok (m, p, r).

Definition UpdateUserCallChain (junk : nat -> Z) (user_ips : list Z) (r : SampleRecord)
    : res SampleRecord :=
  ips ← get_ips r;
  let kernel_ips := kernel_part ips ++ [PERF_CONTEXT_USER] in
  let new_size := u64 (size (header (s_rec r)) - s_ip_nr r * 8 +
                       (zlen kernel_ips + zlen user_ips) * 8) in
  if new_size =? size (header (s_rec r)) then Ok r
  else
    let m := new_char junk new_size in
    let r := set_rec (SetSize new_size (s_rec r)) r in
    '(m, p) ← RecordHeader_MoveToBinaryFormat (header (s_rec r)) m 0;
    '(m, p) ← write_prefix r m p;
    '(m, p, r) ← write_chain kernel_ips user_ips r m p;
    '(m, p, r) ← write_raw r m p;
    '(m, p, r) ← write_branch r m p;
    '(m, p) ← write_if (has_bit r SAMPLE_REGS_USER) uint64_t (s_abi r) m p;
    _ ← CHECK (negb (has_bit r SAMPLE_REGS_USER) || (s_abi r =? 0));
    '(m, p) ← write_if (has_bit r SAMPLE_STACK_USER) uint64_t (s_stack_size r) m p;
    _ ← CHECK (negb (has_bit r SAMPLE_STACK_USER) || (s_stack_size r =? 0));
    _ ← CHECK (p =? new_size);
    Ok (set_rec (UpdateBinary m (s_rec r)) r).

(** * [RemoveInvalidStackData] *)

Definition GetValidStackSize (r : SampleRecord) : Z :=
  if s_dyn_size r =? 0 then s_stack_size r else s_dyn_size r.

Definition RemoveInvalidStackData (r : SampleRecord) : res SampleRecord :=
  if has_bit r SAMPLE_STACK_USER then
    let valid_stack_size := GetValidStackSize r in
    if valid_stack_size <? s_stack_size r then
      let r := set_stack_size valid_stack_size r in
      '(m, p) ← MoveToBinaryFormat uint64_t (s_stack_size r) (bin r) (s_stack_data r - 8);
      let p := p + valid_stack_size in
      '(m, p) ← write_if (negb (valid_stack_size =? 0)) uint64_t (s_dyn_size r) m p;
      let h := header (s_rec r) in
      let h := mkHeader (type h) (misc h) (u32 p) in
      '(m, _) ← RecordHeader_MoveToBinaryFormat h m 0;
      Ok (set_bin m (set_header h r))
    else Ok r
  else Ok r.

Definition SampleRecord_Timestamp (r : SampleRecord) : Z := s_time r.
Definition SampleRecord_Cpu (r : SampleRecord) : Z := cpu (s_cpu r).
Definition SampleRecord_Id (r : SampleRecord) : Z := s_id r.

(** * [AdjustCallChainGeneratedByKernel] and [GetCallChain]

    [step] is 2 when built for arm or aarch64 and 1 otherwise. *)
Fixpoint AdjustCallChain_loop (step : Z) (fuel : nat) (i : Z) (first_frame : bool)
    (r : SampleRecord) : res SampleRecord :=
  match fuel with
  | O => Ok r
  | S fuel =>
      ip ← get_ip r i;
      if (0 <? ip) && (ip <? PERF_CONTEXT_MAX) then
        if first_frame then AdjustCallChain_loop step fuel (i + 1) false r
        else r ← put_ip i (ip -u64 step) r;
             AdjustCallChain_loop step fuel (i + 1) false r
      else AdjustCallChain_loop step fuel (i + 1) first_frame r
  end.

Definition AdjustCallChainGeneratedByKernel (step : Z) (r : SampleRecord) : res SampleRecord :=
  AdjustCallChain_loop step (Z.to_nat (s_ip_nr r)) 0 true r.

(** The loop of [GetCallChain]: the ips and the count of kernel ips. *)
Fixpoint GetCallChain_loop (sample_ip : Z) (chain : list Z) (in_kernel first_ip : bool)
    (ips : list Z) (kernel_ip_count : Z) : res (list Z * Z) :=
  match chain with
  | [] => Ok (ips, kernel_ip_count)
  | ip :: chain =>
      if PERF_CONTEXT_MAX <=? ip then
        if ip =? PERF_CONTEXT_KERNEL then
          _ ← CHECK in_kernel;
          GetCallChain_loop sample_ip chain in_kernel first_ip ips kernel_ip_count
        else
          GetCallChain_loop sample_ip chain
            (if ip =? PERF_CONTEXT_USER then false else in_kernel) first_ip ips kernel_ip_count
      else if first_ip && (ip =? sample_ip) then
        GetCallChain_loop sample_ip chain in_kernel false ips kernel_ip_count
      else
        GetCallChain_loop sample_ip chain in_kernel false (ips ++ [ip])
          (if in_kernel then kernel_ip_count + 1 else kernel_ip_count)
  end.

Definition GetCallChain (r : SampleRecord) : res (list Z * Z) :=
  let in_kernel := InKernel (s_rec r) in
  let count := if in_kernel then 1 else 0 in
  if negb (has_bit r SAMPLE_CALLCHAIN) then Ok ([s_ip r], count)
  else chain ← get_ips r;
       GetCallChain_loop (s_ip r) chain in_kernel true [s_ip r] count.

(** * What a sample contains, and its binary layout *)

Record SampleContent := mkContent {
  c_id : Z; c_ip : Z; c_tid : PerfSampleTidType; c_time : Z; c_addr : Z; c_stream_id : Z;
  c_cpu : PerfSampleCpuType; c_period : Z; c_ips : list Z; c_raw : bytes;
  c_branch : list BranchStackItemType; c_abi : Z; c_regs : list Z; c_stack : bytes; c_dyn : Z;
}.

Definition prefix_bytes (st : Z) (c : SampleContent) : bytes :=
  opt_bytes (has st SAMPLE_IDENTIFIER) uint64_t (c_id c) ++
  opt_bytes (has st SAMPLE_IP) uint64_t (c_ip c) ++
  opt_bytes (has st SAMPLE_TID) tid_codec (c_tid c) ++
  opt_bytes (has st SAMPLE_TIME) uint64_t (c_time c) ++
  opt_bytes (has st SAMPLE_ADDR) uint64_t (c_addr c) ++
  opt_bytes (has st SAMPLE_ID) uint64_t (c_id c) ++
  opt_bytes (has st SAMPLE_STREAM_ID) uint64_t (c_stream_id c) ++
  opt_bytes (has st SAMPLE_CPU) cpu_codec (c_cpu c) ++
  opt_bytes (has st SAMPLE_PERIOD) uint64_t (c_period c).

Definition chain_bytes (st : Z) (ips : list Z) : bytes :=
  if has st SAMPLE_CALLCHAIN then enc uint64_t (zlen ips) ++ enc_array uint64_t ips else [].
Definition raw_bytes (st : Z) (raw : bytes) : bytes :=
  if has st SAMPLE_RAW then enc uint32_t (zlen raw) ++ raw else [].
Definition branch_bytes (st : Z) (b : list BranchStackItemType) : bytes :=
  if has st SAMPLE_BRANCH_STACK then enc uint64_t (zlen b) ++ enc_array branch_codec b else [].
Definition regs_bytes (st abi : Z) (regs : list Z) : bytes :=
  if has st SAMPLE_REGS_USER
  then enc uint64_t abi ++ (if abi =? 0 then [] else enc_array uint64_t regs) else [].
Definition stack_bytes (st : Z) (stack : bytes) (dyn : Z) : bytes :=
  if has st SAMPLE_STACK_USER
  then enc uint64_t (zlen stack) ++ (if zlen stack =? 0 then [] else stack ++ enc uint64_t dyn)
  else [].

Definition body_bytes (st : Z) (c : SampleContent) : bytes :=
  prefix_bytes st c ++ chain_bytes st (c_ips c) ++ raw_bytes st (c_raw c) ++
  branch_bytes st (c_branch c) ++ regs_bytes st (c_abi c) (c_regs c) ++
  stack_bytes st (c_stack c) (c_dyn c).

(** Offsets of the parts. *)
Definition off_chain st c : Z := header_size + zlen (prefix_bytes st c).
Definition off_raw st c : Z := off_chain st c + zlen (chain_bytes st (c_ips c)).
Definition off_branch st c : Z := off_raw st c + zlen (raw_bytes st (c_raw c)).
Definition off_regs st c : Z := off_branch st c + zlen (branch_bytes st (c_branch c)).
Definition off_stack st c : Z := off_regs st c + zlen (regs_bytes st (c_abi c) (c_regs c)).

Definition branch_ok (b : BranchStackItemType) : Prop :=
  is_u64 (from b) /\ is_u64 (to b) /\ is_u64 (flags b).

(** Values in range; as many registers as the mask has bits. *)
Definition content_ok (attr : perf_event_attr) (c : SampleContent) : Prop :=
  is_u64 (c_id c) /\ is_u64 (c_ip c) /\ tid_ok (c_tid c) /\ is_u64 (c_time c) /\
  is_u64 (c_addr c) /\ is_u64 (c_stream_id c) /\ cpu_ok (c_cpu c) /\ is_u64 (c_period c) /\
  (Forall is_u64 (c_ips c) /\ zlen (c_ips c) < 2 ^ 32) /\ zlen (c_raw c) < 2 ^ 32 /\
  zlen (c_branch c) < 2 ^ 32 /\
  (is_u64 (c_abi c) /\ (c_abi c <> 0 -> zlen (c_regs c) = count_bits (attr_sample_regs_user attr))) /\
  zlen (c_stack c) < 2 ^ 32 /\ is_u64 (c_dyn c).

(** The object [r] is a faithful view of the content [c]: its binary starts
    with the layout of [c], its members have the values of the selected
    fields and its pointers the offsets of the parts. *)
Record sample_view (attr : perf_event_attr) (r : SampleRecord) (c : SampleContent) : Prop := {
  sv_type : s_type r = attr_sample_type attr;
  sv_bytes : bytes_at (bin r) 0 (header_bytes (header (s_rec r)) ++ body_bytes (s_type r) c);
  sv_header : header_ok (header (s_rec r));
  sv_id : s_id r = if has_bit r SAMPLE_IDENTIFIER || has_bit r SAMPLE_ID then c_id c else 0;
  sv_ip : has_bit r SAMPLE_IP = true -> s_ip r = c_ip c;
  sv_tid : has_bit r SAMPLE_TID = true -> s_tid r = c_tid c;
  sv_time : has_bit r SAMPLE_TIME = true -> s_time r = c_time c;
  sv_addr : has_bit r SAMPLE_ADDR = true -> s_addr r = c_addr c;
  sv_stream_id : has_bit r SAMPLE_STREAM_ID = true -> s_stream_id r = c_stream_id c;
  sv_cpu : has_bit r SAMPLE_CPU = true -> s_cpu r = c_cpu c;
  sv_period : has_bit r SAMPLE_PERIOD = true -> s_period r = c_period c;
  sv_chain : has_bit r SAMPLE_CALLCHAIN = true ->
    s_ip_nr r = zlen (c_ips c) /\ s_ips r = off_chain (s_type r) c + 8;
  sv_raw : has_bit r SAMPLE_RAW = true ->
    s_raw_size r = zlen (c_raw c) /\ s_raw_data r = off_raw (s_type r) c + 4;
  sv_branch : has_bit r SAMPLE_BRANCH_STACK = true ->
    s_branch_nr r = zlen (c_branch c) /\ s_branch r = off_branch (s_type r) c + 8;
  sv_regs : has_bit r SAMPLE_REGS_USER = true ->
    s_abi r = c_abi c /\ (c_abi c = 0 -> s_reg_mask r = 0) /\
    (c_abi c <> 0 -> s_reg_mask r = attr_sample_regs_user attr /\
       s_reg_nr r = zlen (c_regs c) /\ s_regs r = off_regs (s_type r) c + 8);
  sv_stack : has_bit r SAMPLE_STACK_USER = true ->
    s_stack_size r = zlen (c_stack c) /\
    (zlen (c_stack c) = 0 -> s_dyn_size r = 0) /\
    (zlen (c_stack c) <> 0 -> s_stack_data r = off_stack (s_type r) c + 8 /\ s_dyn_size r = c_dyn c);
}.

(** * Parsing the layout *)

Lemma branch_codec_ok : CodecOk branch_codec branch_ok.
Proof.
  eapply struct_codec_ok_by;
    [repeat first [apply uint64_t_ok | apply pair_codec_ok]|by intros []|].
  intros [] H. cbn in *. exact H.
Qed.
#[export] Existing Instance branch_codec_ok.

Lemma zlen_enc_array_branch l : zlen (enc_array branch_codec l) = zlen l * 24.
Proof. apply (zlen_enc_array branch_codec branch_ok). Qed.
#[export] Hint Rewrite zlen_enc_array_branch : zlen.

Lemma read_counted_at {T} (c : codec T) (ok : T -> Prop) `{!CodecOk c ok} (cond : bool) (l : list T) elem m old p :
  bytes_at m p (if cond then enc uint64_t (zlen l) ++ enc_array c l else []) ->
  elem = sizeof c -> 0 <= zlen l < 2 ^ 32 -> sizeof c < 2 ^ 31 ->
  read_counted cond elem m old p =
    Ok (if cond then (zlen l, p + 8) else old,
        p + zlen (if cond then enc uint64_t (zlen l) ++ enc_array c l else [])).
Proof.
  intros Hat -> Hl Hc. pose proof (sizeof_nonneg (c := c)). destruct cond; cbn [read_counted].
  - unfold read_counted. apply bytes_at_split in Hat as [Hat _].
    rewrite (reads_value uint64_t is_u64 (zlen l)) by (done || unfold is_u64; lia).
    cbn [mbind res_bind]. rewrite zlen_app, zlen_enc_u64, (zlen_enc_array c ok).
    rewrite u64_small by (unfold is_u64; nia). do 2 f_equal. lia.
  - unfold read_counted. rewrite zlen_nil. by rewrite Z.add_0_r.
Qed.

Lemma read_raw_at st raw m old p :
  bytes_at m p (raw_bytes st raw) -> zlen raw < 2 ^ 32 ->
  read_raw (has st SAMPLE_RAW) m old p =
    Ok (if has st SAMPLE_RAW then (zlen raw, p + 4) else old, p + zlen (raw_bytes st raw)).
Proof.
  unfold raw_bytes, read_raw. intros Hat Hl. pose proof (zlen_nonneg raw).
  destruct (has st SAMPLE_RAW).
  - apply bytes_at_split in Hat as [Hat _].
    rewrite (reads_value uint32_t is_u32 (zlen raw)) by (done || unfold is_u32; lia).
    cbn [mbind res_bind]. autorewrite with zlen. do 2 f_equal. lia.
  - rewrite zlen_nil. by rewrite Z.add_0_r.
Qed.

Lemma read_regs_at st attr abi regs m a0 k0 n0 g0 p :
  bytes_at m p (regs_bytes st abi regs) -> is_u64 abi ->
  (abi <> 0 -> zlen regs = count_bits (attr_sample_regs_user attr)) ->
  read_regs (has st SAMPLE_REGS_USER) attr m (a0, k0, n0, g0) p =
    Ok (if has st SAMPLE_REGS_USER then
          if abi =? 0 then (abi, 0, n0, g0)
          else (abi, attr_sample_regs_user attr, zlen regs, p + 8)
        else (a0, k0, n0, g0), p + zlen (regs_bytes st abi regs)).
Proof.
  unfold regs_bytes, read_regs. intros Hat Habi Hregs. destruct (has st SAMPLE_REGS_USER).
  - apply bytes_at_split in Hat as [Hat _].
    rewrite (reads_value uint64_t is_u64 abi) by done. cbn [mbind res_bind].
    destruct (Z.eqb_spec abi 0) as [|Hne]; autorewrite with zlen; [do 2 f_equal; lia|].
    rewrite <- Hregs by done. do 2 f_equal. lia.
  - rewrite zlen_nil. by rewrite Z.add_0_r.
Qed.

Lemma read_stack_at st stack dyn m s0 d0 y0 p :
  bytes_at m p (stack_bytes st stack dyn) -> zlen stack < 2 ^ 32 -> is_u64 dyn ->
  read_stack (has st SAMPLE_STACK_USER) m (s0, d0, y0) p =
    Ok (if has st SAMPLE_STACK_USER then
          if zlen stack =? 0 then (zlen stack, d0, 0) else (zlen stack, p + 8, dyn)
        else (s0, d0, y0), p + zlen (stack_bytes st stack dyn)).
Proof.
  unfold stack_bytes, read_stack. intros Hat Hl Hdyn. pose proof (zlen_nonneg stack).
  destruct (has st SAMPLE_STACK_USER).
  - apply bytes_at_split in Hat as [Hat1 Hat].
    rewrite (reads_value uint64_t is_u64 (zlen stack)) by (done || unfold is_u64; lia).
    cbn [mbind res_bind]. rewrite zlen_enc_u64 in *.
    destruct (Z.eqb_spec (zlen stack) 0) as [|Hne]; autorewrite with zlen; [do 2 f_equal; lia|].
    apply bytes_at_split in Hat as [_ Hat].
    rewrite (reads_value uint64_t is_u64 dyn Hdyn _ _ Hat). cbn [mbind res_bind].
    rewrite zlen_enc_u64. do 2 f_equal. lia.
  - rewrite zlen_nil. by rewrite Z.add_0_r.
Qed.

(** The members that [read_parts] sets. *)
Record parts_view (attr : perf_event_attr) (r : SampleRecord) (c : SampleContent) : Prop := {
  pv_chain : has_bit r SAMPLE_CALLCHAIN = true ->
    s_ip_nr r = zlen (c_ips c) /\ s_ips r = off_chain (s_type r) c + 8;
  pv_raw : has_bit r SAMPLE_RAW = true ->
    s_raw_size r = zlen (c_raw c) /\ s_raw_data r = off_raw (s_type r) c + 4;
  pv_branch : has_bit r SAMPLE_BRANCH_STACK = true ->
    s_branch_nr r = zlen (c_branch c) /\ s_branch r = off_branch (s_type r) c + 8;
  pv_regs : has_bit r SAMPLE_REGS_USER = true ->
    s_abi r = c_abi c /\ (c_abi c = 0 -> s_reg_mask r = 0) /\
    (c_abi c <> 0 -> s_reg_mask r = attr_sample_regs_user attr /\
       s_reg_nr r = zlen (c_regs c) /\ s_regs r = off_regs (s_type r) c + 8);
  pv_stack : has_bit r SAMPLE_STACK_USER = true ->
    s_stack_size r = zlen (c_stack c) /\
    (zlen (c_stack c) = 0 -> s_dyn_size r = 0) /\
    (zlen (c_stack c) <> 0 -> s_stack_data r = off_stack (s_type r) c + 8 /\ s_dyn_size r = c_dyn c);
}.

(** [r'] has the members of [r] that are read before the parts. *)
Definition same_prefix (r r' : SampleRecord) : Prop :=
  s_rec r' = s_rec r /\ s_type r' = s_type r /\ s_ip r' = s_ip r /\ s_tid r' = s_tid r /\
  s_time r' = s_time r /\ s_addr r' = s_addr r /\ s_id r' = s_id r /\
  s_stream_id r' = s_stream_id r /\ s_cpu r' = s_cpu r /\ s_period r' = s_period r.

Lemma read_parts_at attr m r c :
  content_ok attr c ->
  bytes_at m (off_chain (s_type r) c) (chain_bytes (s_type r) (c_ips c) ++
    raw_bytes (s_type r) (c_raw c) ++ branch_bytes (s_type r) (c_branch c) ++
    regs_bytes (s_type r) (c_abi c) (c_regs c) ++ stack_bytes (s_type r) (c_stack c) (c_dyn c)) ->
  exists r', read_parts attr m r (off_chain (s_type r) c) =
      Ok (r', header_size + zlen (body_bytes (s_type r) c)) /\
    same_prefix r r' /\ parts_view attr r' c.
Proof.
  intros (_ & _ & _ & _ & _ & _ & _ & _ & (Hips & Hipl) & Hraw & Hbr & (Habi & Hregs) & Hstk & Hdyn) Hat.
  set (st := s_type r) in *. unfold read_parts. fold st.
  apply bytes_at_split in Hat as [Hatc Hat]. fold (off_raw st c) in Hat.
  apply bytes_at_split in Hat as [Hatr Hat]. fold (off_branch st c) in Hat.
  apply bytes_at_split in Hat as [Hatb Hat]. fold (off_regs st c) in Hat.
  apply bytes_at_split in Hat as [Hatg Hats]. fold (off_stack st c) in Hats.
  pose proof (zlen_nonneg (c_ips c)). pose proof (zlen_nonneg (c_branch c)).
  rewrite (read_counted_at uint64_t is_u64 _ (c_ips c)) by (done || cbn; lia).
  cbn [mbind res_bind]. fold (chain_bytes st (c_ips c)). fold (off_raw st c).
  rewrite (surjective_pairing (if has st SAMPLE_CALLCHAIN then _ else _)).
  rewrite (read_raw_at st (c_raw c)) by done. cbn [mbind res_bind]. fold (off_branch st c).
  rewrite (surjective_pairing (if has st SAMPLE_RAW then _ else _)).
  rewrite (read_counted_at branch_codec branch_ok _ (c_branch c)) by (done || cbn; lia).
  cbn [mbind res_bind]. fold (branch_bytes st (c_branch c)). fold (off_regs st c).
  rewrite (surjective_pairing (if has st SAMPLE_BRANCH_STACK then _ else _)).
  rewrite (read_regs_at st attr (c_abi c) (c_regs c)) by done. cbn [mbind res_bind].
  fold (off_stack st c).
  set (g := if has st SAMPLE_REGS_USER then _ else _).
  destruct g as [[[abi mask] nr] regs] eqn:Hg. unfold g in Hg.
  rewrite (read_stack_at st (c_stack c) (c_dyn c)) by done. cbn [mbind res_bind].
  set (k := if has st SAMPLE_STACK_USER then _ else _).
  destruct k as [[sz data] dyn] eqn:Hk. unfold k in Hk.
  replace (header_size + zlen (body_bytes st c))
    with (off_stack st c + zlen (stack_bytes st (c_stack c) (c_dyn c)))
    by (unfold off_stack, off_regs, off_branch, off_raw, off_chain, body_bytes; rewrite !zlen_app; lia).
  eexists. split; [reflexivity|].
  split; [done|]. split; unfold has_bit; cbn [s_type s_ip_nr s_ips s_raw_size s_raw_data s_branch_nr
    s_branch s_abi s_reg_mask s_reg_nr s_regs s_stack_size s_stack_data s_dyn_size];
    intros Hbit; rewrite Hbit in *; try done.
  - destruct (Z.eqb_spec (c_abi c) 0); simplify_eq; done.
  - destruct (Z.eqb_spec (zlen (c_stack c)) 0); simplify_eq; done.
Qed.

Lemma sample_read_at undef attr h c m :
  header_ok h -> content_ok attr c ->
  header_size + zlen (body_bytes (attr_sample_type attr) c) <= size h ->
  bytes_at m 0 (header_bytes h ++ body_bytes (attr_sample_type attr) c) ->
  exists r, SampleRecord_read undef attr m = Ok r /\
    header (s_rec r) = h /\ bin r = m /\ sample_view attr r c.
Proof.
  intros Hh Hok Hsize Hat0. pose proof Hok as (Hid & Hip & Htid & Htime & Haddr & Hsid & Hcpu & Hper & _).
  set (st := attr_sample_type attr) in *.
  pose proof Hat0 as Hat. apply bytes_at_split in Hat as [Hath Hat]. rewrite zlen_header_bytes in Hat.
  unfold SampleRecord_read, Record_read. rewrite (RecordHeader_read_at _ _ Hh Hath).
  cbn [mbind res_bind header size]. fold st.
  change (0 + 8) with header_size in Hat.
  unfold body_bytes in Hat. apply bytes_at_split in Hat as [Hatp Hat]. fold (off_chain st c) in Hat.
  unfold prefix_bytes in Hatp.
  step_read Hatp (reads_if (has st SAMPLE_IDENTIFIER) uint64_t is_u64 (c_id c) 0 (fun _ => Hid)).
  step_read Hatp (reads_if (has st SAMPLE_IP) uint64_t is_u64 (c_ip c) (s_ip undef) (fun _ => Hip)).
  step_read Hatp (reads_if (has st SAMPLE_TID) tid_codec tid_ok (c_tid c) (s_tid undef) (fun _ => Htid)).
  step_read Hatp (reads_if (has st SAMPLE_TIME) uint64_t is_u64 (c_time c) (s_time undef) (fun _ => Htime)).
  step_read Hatp (reads_if (has st SAMPLE_ADDR) uint64_t is_u64 (c_addr c) (s_addr undef) (fun _ => Haddr)).
  step_read Hatp (reads_if (has st SAMPLE_ID) uint64_t is_u64 (c_id c)
    (if has st SAMPLE_IDENTIFIER then c_id c else 0) (fun _ => Hid)).
  step_read Hatp (reads_if (has st SAMPLE_STREAM_ID) uint64_t is_u64 (c_stream_id c)
    (s_stream_id undef) (fun _ => Hsid)).
  step_read Hatp (reads_if (has st SAMPLE_CPU) cpu_codec cpu_ok (c_cpu c) (s_cpu undef) (fun _ => Hcpu)).
  rewrite (reads_if (has st SAMPLE_PERIOD) uint64_t is_u64 (c_period c) (s_period undef)
    (fun _ => Hper) _ _ Hatp). cbn [mbind res_bind]. clear Hatp.
  match goal with |- context [read_parts _ _ ?r0 ?q] => set (r := r0);
    replace q with (off_chain st c) by (unfold off_chain, prefix_bytes; rewrite !zlen_app; lia)
  end.
  destruct (read_parts_at attr m r c Hok Hat) as (r' & Hr & (Hrec & Hty & Hrest) & Hpv).
  change (s_type r) with st in Hr. rewrite Hr.
  cbn [mbind res_bind]. rewrite CHECK_le by done. cbn [mbind res_bind].
  exists r'. split; [done|]. unfold bin. rewrite Hrec. split; [done|]. split; [done|].
  destruct Hrest as (E1 & E2 & E3 & E4 & E5 & E6 & E7 & E8), Hpv.
  split; try done; unfold has_bit, bin; rewrite ?Hrec, ?Hty, ?E1, ?E2, ?E3, ?E4, ?E5, ?E6, ?E7, ?E8;
    cbn [r s_rec header binary_ s_type s_id s_ip s_tid s_time s_addr s_stream_id s_cpu s_period];
    try done; try (intros Hb; by rewrite Hb).
  destruct (has st SAMPLE_ID); [by rewrite orb_true_r|]. by rewrite orb_false_r.
Qed.

(** * Editing memory in place *)

(** [m'] is [m] with the bytes [x] placed at [lo], everything outside them kept. *)
Definition placed (m m' : bytes) (lo : Z) (x : bytes) : Prop :=
  zlen m' = zlen m /\ bytes_at m' lo x /\
  forall q d, bytes_at m q d -> q + zlen d <= lo \/ lo + zlen x <= q -> bytes_at m' q d.

Lemma mem_write_placed m p b :
  0 <= p -> p + zlen b <= zlen m -> exists m', mem_write m p b = Ok m' /\ placed m m' p b.
Proof.
  intros Hp Hb. destruct (mem_write_ok m p b Hp Hb) as [m' Hw]. exists m'. split; [done|].
  split_and!; [by eapply mem_write_len|by eapply bytes_at_write_same|].
  intros q d Hat Hd. by eapply bytes_at_write_other.
Qed.

Lemma placed_app m m1 m2 lo x y :
  placed m m1 (lo + zlen x) y -> placed m1 m2 lo x -> placed m m2 lo (x ++ y).
Proof.
  intros (Hl1 & Hy & Hf1) (Hl2 & Hx & Hf2). pose proof (zlen_nonneg x). pose proof (zlen_nonneg y).
  split_and!; [lia| |].
  - apply bytes_at_app; [done|]. apply Hf2; [done|]. lia.
  - intros q d Hat Hd. rewrite zlen_app in Hd. apply Hf2; [|lia]. apply Hf1; [done|lia].
Qed.

Lemma placed_id m p : 0 <= p <= zlen m -> placed m m p [].
Proof.
  intros Hp. split_and!; [done| |done]. apply bytes_at_znth.
  change (zlen (@nil Z)) with 0. split_and!; [lia..|]. intros i Hi. lia.
Qed.

Lemma move_back_placed (cond : bool) c ok `{!CodecOk c ok} count src data m p :
  let x := if cond then enc c count ++ data else [] in
  (cond = true -> bytes_at m src data) -> 0 <= p - zlen x -> p <= zlen m ->
  exists m', move_back cond c count src (zlen data) m p = Ok (m', p - zlen x) /\
    placed m m' (p - zlen x) x.
Proof.
  intros x Hsrc Hlo Hhi. pose proof (zlen_nonneg data). pose proof (sizeof_nonneg (c := c)).
  unfold move_back. destruct cond; unfold x in *.
  - rewrite zlen_app, enc_len in Hlo |- *. unfold memmove.
    rewrite (bytes_at_read _ _ _ _ (Hsrc eq_refl)) by done. cbn [mbind res_bind].
    destruct (mem_write_placed m (p - zlen data) data) as (m1 & -> & Hp1); [lia..|].
    cbn [mbind res_bind].
    destruct (mem_write_placed m1 (p - zlen data - sizeof c) (enc c count)) as (m2 & -> & Hp2);
      [lia|rewrite enc_len, (proj1 Hp1); lia|].
    cbn [mbind res_bind]. exists m2. split; [do 2 f_equal; lia|].
    replace (p - (sizeof c + zlen data)) with (p - zlen data - sizeof c) by lia.
    apply placed_app with m1; [|done]. rewrite enc_len.
    by replace (p - zlen data - sizeof c + sizeof c) with (p - zlen data) by lia.
  - rewrite zlen_nil, Z.sub_0_r in Hlo |- *. exists m. split; [done|]. by apply placed_id.
Qed.

Lemma move_back_cong (cond : bool) c count count' src src' n n' m p :
  (cond = true -> count = count' /\ src = src' /\ n = n') ->
  move_back cond c count src n m p = move_back cond c count' src' n' m p.
Proof. destruct cond; [|done]. intros H. by destruct (H eq_refl) as (-> & -> & ->). Qed.

Lemma header_placed h m :
  header_ok h -> 8 <= zlen m ->
  exists m', RecordHeader_MoveToBinaryFormat h m 0 = Ok (m', 8) /\ placed m m' 0 (header_bytes h).
Proof.
  intros Hh Hm. destruct (mem_write_placed m 0 (header_bytes h)) as (m' & Hw & Hp);
    [lia|rewrite zlen_header_bytes; lia|].
  exists m'. split; [|done]. change m with ([] ++ m) in Hw |- *.
  rewrite RecordHeader_write by done. rewrite mem_write_app in Hw by (rewrite ?zlen_header_bytes; done).
  rewrite zlen_header_bytes in Hw. cbn [app] in *. by injection Hw as <-.
Qed.

(** * Layout after [ReplaceRegAndStackWithCallChain] *)

(** The content after the edit: the user frames appended, no registers, no stack. *)
Definition replaced_content (ips : list Z) (c : SampleContent) : SampleContent :=
  mkContent (c_id c) (c_ip c) (c_tid c) (c_time c) (c_addr c) (c_stream_id c) (c_cpu c)
    (c_period c) (c_ips c ++ PERF_CONTEXT_USER :: ips) (c_raw c) (c_branch c) 0 [] [] 0.

Section replace.
Context (attr : perf_event_attr) (r : SampleRecord) (c : SampleContent) (ips : list Z).
Let st := s_type r.
Let h := header (s_rec r).
Let d := 8 * (zlen ips + 1).
Hypothesis Hview : sample_view attr r c.
Hypothesis Hok : content_ok attr c.
Hypothesis Hchain : has st SAMPLE_CALLCHAIN = true.
Hypothesis Hregs : has st SAMPLE_REGS_USER = true.
Hypothesis Hstack : has st SAMPLE_STACK_USER = true.
Hypothesis Habi : c_abi c <> 0.
Hypothesis Hstk : zlen (c_stack c) <> 0.
Hypothesis Htype : type h = PERF_RECORD_SAMPLE.
Hypothesis Hsize : size h = header_size + zlen (body_bytes st c).
Hypothesis Hfit : d <= zlen (c_regs c) * 8 + zlen (c_stack c) + 8.

Definition replaced_header : RecordHeader :=
  mkHeader (type h) (misc h) (header_size + zlen (body_bytes st (replaced_content ips c))).

(** Sizes of the two layouts. *)
Lemma replace_sizes :
  zlen (chain_bytes st (c_ips c)) = 8 + zlen (c_ips c) * 8 /\
  zlen (regs_bytes st (c_abi c) (c_regs c)) = 8 + zlen (c_regs c) * 8 /\
  zlen (stack_bytes st (c_stack c) (c_dyn c)) = 16 + zlen (c_stack c) /\
  zlen (body_bytes st c) = off_regs st c - 8 + 8 + zlen (c_regs c) * 8 + 16 + zlen (c_stack c) /\
  zlen (body_bytes st (replaced_content ips c)) = off_regs st c - 8 + d + 16.
Proof.
  assert (zlen (chain_bytes st (c_ips c)) = 8 + zlen (c_ips c) * 8) as H1
    by (unfold chain_bytes; rewrite Hchain; autorewrite with zlen; lia).
  assert (zlen (regs_bytes st (c_abi c) (c_regs c)) = 8 + zlen (c_regs c) * 8) as H2
    by (unfold regs_bytes; rewrite Hregs, (proj2 (Z.eqb_neq _ _) Habi); autorewrite with zlen; lia).
  assert (zlen (stack_bytes st (c_stack c) (c_dyn c)) = 16 + zlen (c_stack c)) as H3
    by (unfold stack_bytes; rewrite Hstack, (proj2 (Z.eqb_neq _ _) Hstk); autorewrite with zlen; lia).
  split_and!; [done..| |]; unfold body_bytes, off_regs, off_branch, off_raw, off_chain, header_size;
    rewrite !zlen_app.
  - lia.
  - cbn [replaced_content c_ips c_raw c_branch c_abi c_regs c_stack c_dyn].
    change (prefix_bytes st (replaced_content ips c)) with (prefix_bytes st c).
    unfold d in *. unfold chain_bytes, regs_bytes, stack_bytes in *.
    rewrite Hchain, Hregs, Hstack in *. autorewrite with zlen in *. cbn [Z.eqb].
    autorewrite with zlen. lia.
Qed.

(** The new parts, in memory from the chain on. *)
Definition replaced_tail : bytes :=
  enc uint64_t (zlen (c_ips c) + (zlen ips + 1)) ++ enc_array uint64_t (c_ips c) ++
  (enc uint64_t PERF_CONTEXT_USER ++ enc_array uint64_t ips) ++
  raw_bytes st (c_raw c) ++ branch_bytes st (c_branch c) ++ enc uint64_t 0 ++ enc uint64_t 0.

Lemma replaced_body : body_bytes st (replaced_content ips c) = prefix_bytes st c ++ replaced_tail.
Proof.
  unfold body_bytes, replaced_tail. cbn [replaced_content c_ips c_raw c_branch c_abi c_regs c_stack c_dyn].
  change (prefix_bytes st (replaced_content ips c)) with (prefix_bytes st c). f_equal.
  unfold chain_bytes, regs_bytes, stack_bytes. rewrite Hchain, Hregs, Hstack. cbn [Z.eqb].
  rewrite zlen_app, zlen_cons, (enc_array_app uint64_t (c_ips c)). cbn [enc_array].
  rewrite app_nil_r, <- !app_assoc. change (zlen [] =? 0) with true. cbn iota.
  change (zlen (@nil Z)) with 0. by rewrite app_nil_r, (Z.add_comm (zlen ips)).
Qed.

Lemma replaced_header_ok : header_ok replaced_header.
Proof.
  destruct replace_sizes as (_ & _ & _ & Hb & Hb'). destruct (sv_header _ _ _ Hview) as (H1 & H2 & H3 & H4 & H5).
  fold h in H1, H2, H3, H4, H5. pose proof (zlen_nonneg ips). pose proof (zlen_nonneg (body_bytes st (replaced_content ips c))).
  unfold header_ok, replaced_header, PERF_RECORD_SAMPLE, header_size in *. cbn [type misc size].
  unfold_u. lia.
Qed.

(** The bytes of the parts the edit moves or keeps, in a memory [m]. *)
Definition old_parts (m : bytes) : Prop :=
  bytes_at m header_size (prefix_bytes st c) /\
  bytes_at m (off_chain st c + 8) (enc_array uint64_t (c_ips c)) /\
  (has st SAMPLE_RAW = true -> bytes_at m (off_raw st c + 4) (c_raw c)) /\
  (has st SAMPLE_BRANCH_STACK = true ->
     bytes_at m (off_branch st c + 8) (enc_array branch_codec (c_branch c))).

Lemma old_parts_view : old_parts (bin r).
Proof.
  destruct (bytes_at_split _ _ _ _ (sv_bytes _ _ _ Hview)) as [_ Hat]. fold st in Hat.
  rewrite zlen_header_bytes in Hat. change (0 + 8) with header_size in Hat.
  unfold body_bytes in Hat.
  apply bytes_at_split in Hat as [Hatp Hat]. fold (off_chain st c) in Hat.
  apply bytes_at_split in Hat as [Hatc Hat]. fold (off_raw st c) in Hat.
  apply bytes_at_split in Hat as [Hatr Hat]. fold (off_branch st c) in Hat.
  apply bytes_at_split in Hat as [Hatb _].
  unfold chain_bytes in Hatc. rewrite Hchain in Hatc. apply bytes_at_split in Hatc as [_ Hatc].
  rewrite zlen_enc_u64 in Hatc. unfold old_parts. split_and!; [done|done|..]; intros Hb.
  - unfold raw_bytes in Hatr. rewrite Hb in Hatr. apply bytes_at_split in Hatr as [_ Hatr].
    by rewrite zlen_enc_u32 in Hatr.
  - unfold branch_bytes in Hatb. rewrite Hb in Hatb. apply bytes_at_split in Hatb as [_ Hatb].
    by rewrite zlen_enc_u64 in Hatb.
Qed.

(** Placing anything above the old parts, or the header, keeps them. *)
Lemma old_parts_placed m m' lo x :
  old_parts m -> placed m m' lo x -> lo + zlen x <= header_size \/ off_regs st c <= lo ->
  old_parts m'.
Proof.
  intros (H1 & H2 & H3 & H4) (_ & _ & Hf) Hlo. destruct replace_sizes as (Hc & _).
  pose proof (zlen_nonneg (prefix_bytes st c)). pose proof (zlen_nonneg (c_raw c)).
  pose proof (zlen_nonneg (branch_bytes st (c_branch c))). pose proof (zlen_nonneg (raw_bytes st (c_raw c))).
  pose proof (zlen_nonneg (c_ips c)). pose proof (zlen_nonneg (c_branch c)).
  unfold old_parts, off_regs, off_branch, off_raw, off_chain, header_size in *.
  split_and!; [apply Hf; [done|lia]|apply Hf; [done|autorewrite with zlen; lia]|..]; intros Hb.
  - apply Hf; [auto|]. unfold raw_bytes in *. rewrite Hb in *. autorewrite with zlen in *. lia.
  - apply Hf; [auto|]. unfold branch_bytes in *. rewrite Hb in *. autorewrite with zlen in *. lia.
Qed.

(** Moving the branch stack and the raw data up by [d]. *)
Lemma replace_move_parts m :
  old_parts m -> off_regs st c + d + 16 <= zlen m ->
  exists m1 m2,
    move_back (has st SAMPLE_BRANCH_STACK) uint64_t (zlen (c_branch c)) (off_branch st c + 8)
      (zlen (enc_array branch_codec (c_branch c))) m (off_regs st c + d) =
      Ok (m1, off_branch st c + d) /\
    move_back (has st SAMPLE_RAW) uint32_t (zlen (c_raw c)) (off_raw st c + 4)
      (zlen (c_raw c)) m1 (off_branch st c + d) = Ok (m2, off_raw st c + d) /\
    placed m m2 (off_raw st c + d) (raw_bytes st (c_raw c) ++ branch_bytes st (c_branch c)).
Proof.
  intros (_ & _ & Hr & Hb) Hlen. pose proof (zlen_nonneg ips).
  pose proof (zlen_nonneg (prefix_bytes st c)). pose proof (zlen_nonneg (chain_bytes st (c_ips c))).
  pose proof (zlen_nonneg (raw_bytes st (c_raw c))). pose proof (zlen_nonneg (branch_bytes st (c_branch c))).
  assert (off_regs st c = off_branch st c + zlen (branch_bytes st (c_branch c))) as Er by done.
  assert (off_branch st c = off_raw st c + zlen (raw_bytes st (c_raw c))) as Eb by done.
  assert (0 <= off_raw st c) by (unfold off_raw, off_chain, header_size; lia).
  destruct (move_back_placed (has st SAMPLE_BRANCH_STACK) uint64_t is_u64 (zlen (c_branch c))
    (off_branch st c + 8) (enc_array branch_codec (c_branch c)) m (off_regs st c + d))
    as (m1 & Hm1 & Hp1); [done| |unfold d; lia|].
  { fold (branch_bytes st (c_branch c)). unfold d. lia. }
  fold (branch_bytes st (c_branch c)) in Hm1, Hp1.
  replace (off_regs st c + d - zlen (branch_bytes st (c_branch c)))
    with (off_branch st c + d) in Hm1, Hp1 by lia.
  destruct (move_back_placed (has st SAMPLE_RAW) uint32_t is_u32 (zlen (c_raw c))
    (off_raw st c + 4) (c_raw c) m1 (off_branch st c + d)) as (m2 & Hm2 & Hp2).
  { intros Hbit. apply (proj2 (proj2 Hp1)); [auto|]. left. unfold d.
    assert (zlen (raw_bytes st (c_raw c)) = 4 + zlen (c_raw c)) by
      (unfold raw_bytes; rewrite Hbit; autorewrite with zlen; done). lia. }
  { fold (raw_bytes st (c_raw c)). unfold d. lia. }
  { rewrite (proj1 Hp1). unfold d in *. lia. }
  fold (raw_bytes st (c_raw c)) in Hm2, Hp2.
  replace (off_branch st c + d - zlen (raw_bytes st (c_raw c)))
    with (off_raw st c + d) in Hm2, Hp2 by lia.
  exists m1, m2. split_and!; [done|done|]. apply placed_app with m1; [|done].
  by replace (off_raw st c + d + zlen (raw_bytes st (c_raw c))) with (off_branch st c + d) by lia.
Qed.

(** Everything from the user frames up, written downwards. *)
Lemma replace_upper m :
  old_parts m -> off_regs st c + d + 16 <= zlen m ->
  exists m1 m2 m3 m4 m5 m6,
    mem_write m (off_regs st c + d + 8) (enc uint64_t 0) = Ok m1 /\
    mem_write m1 (off_regs st c + d) (enc uint64_t 0) = Ok m2 /\
    move_back (has st SAMPLE_BRANCH_STACK) uint64_t (zlen (c_branch c)) (off_branch st c + 8)
      (zlen (enc_array branch_codec (c_branch c))) m2 (off_regs st c + d) =
      Ok (m3, off_branch st c + d) /\
    move_back (has st SAMPLE_RAW) uint32_t (zlen (c_raw c)) (off_raw st c + 4)
      (zlen (c_raw c)) m3 (off_branch st c + d) = Ok (m4, off_raw st c + d) /\
    mem_write m4 (off_raw st c + 8) (enc_array uint64_t ips) = Ok m5 /\
    mem_write m5 (off_raw st c) (enc uint64_t PERF_CONTEXT_USER) = Ok m6 /\
    placed m m6 (off_raw st c)
      ((enc uint64_t PERF_CONTEXT_USER ++ enc_array uint64_t ips) ++
       raw_bytes st (c_raw c) ++ branch_bytes st (c_branch c) ++ enc uint64_t 0 ++ enc uint64_t 0).
Proof.
  intros Hold Hlen. pose proof (zlen_nonneg ips).
  pose proof (zlen_nonneg (prefix_bytes st c)). pose proof (zlen_nonneg (chain_bytes st (c_ips c))).
  pose proof (zlen_nonneg (raw_bytes st (c_raw c))). pose proof (zlen_nonneg (branch_bytes st (c_branch c))).
  assert (off_regs st c = off_branch st c + zlen (branch_bytes st (c_branch c))) as Er by done.
  assert (off_branch st c = off_raw st c + zlen (raw_bytes st (c_raw c))) as Eb by done.
  assert (0 <= off_raw st c) by (unfold off_raw, off_chain, header_size; lia).
  destruct (mem_write_placed m (off_regs st c + d + 8) (enc uint64_t 0)) as (m1 & Hw1 & P1);
    [unfold d; lia|rewrite zlen_enc_u64; lia|].
  destruct (mem_write_placed m1 (off_regs st c + d) (enc uint64_t 0)) as (m2 & Hw2 & P2);
    [unfold d; lia|rewrite zlen_enc_u64, (proj1 P1); lia|].
  assert (placed m m2 (off_regs st c + d) (enc uint64_t 0 ++ enc uint64_t 0)) as P12
    by (eapply placed_app; [rewrite zlen_enc_u64; exact P1|exact P2]).
  destruct (replace_move_parts m2) as (m3 & m4 & Hm3 & Hm4 & P4);
    [eapply old_parts_placed; [done|exact P12|unfold d; lia]|rewrite (proj1 P12); lia|].
  assert (placed m m4 (off_raw st c + d) ((raw_bytes st (c_raw c) ++ branch_bytes st (c_branch c)) ++
    enc uint64_t 0 ++ enc uint64_t 0)) as P14.
  { eapply placed_app; [|exact P4]. rewrite zlen_app.
    by replace (off_raw st c + d + _) with (off_regs st c + d) by lia. }
  destruct (mem_write_placed m4 (off_raw st c + 8) (enc_array uint64_t ips)) as (m5 & Hw5 & P5);
    [lia|autorewrite with zlen; rewrite (proj1 P14); unfold d in Hlen; lia|].
  destruct (mem_write_placed m5 (off_raw st c) (enc uint64_t PERF_CONTEXT_USER)) as (m6 & Hw6 & P6);
    [lia|rewrite zlen_enc_u64, (proj1 P5), (proj1 P14); unfold d in Hlen; lia|].
  exists m1, m2, m3, m4, m5, m6. split_and!; [done..|]. rewrite <- (app_assoc (raw_bytes _ _)) in P14.
  eapply placed_app; [|eapply placed_app; [rewrite zlen_enc_u64; exact P5|exact P6]].
  rewrite zlen_app, zlen_enc_u64. autorewrite with zlen.
  by replace (off_raw st c + (8 + zlen ips * 8)) with (off_raw st c + d) by (unfold d; lia).
Qed.

(** The whole edit of the memory. *)
Lemma replace_memory m :
  old_parts m -> off_regs st c + d + 16 <= zlen m ->
  bytes_at m 0 (header_bytes replaced_header) ->
  exists m1 m2 m3 m4 m5 m6 m7,
    mem_write m (off_regs st c + d + 8) (enc uint64_t 0) = Ok m1 /\
    mem_write m1 (off_regs st c + d) (enc uint64_t 0) = Ok m2 /\
    move_back (has st SAMPLE_BRANCH_STACK) uint64_t (zlen (c_branch c)) (off_branch st c + 8)
      (zlen (enc_array branch_codec (c_branch c))) m2 (off_regs st c + d) =
      Ok (m3, off_branch st c + d) /\
    move_back (has st SAMPLE_RAW) uint32_t (zlen (c_raw c)) (off_raw st c + 4)
      (zlen (c_raw c)) m3 (off_branch st c + d) = Ok (m4, off_raw st c + d) /\
    mem_write m4 (off_raw st c + 8) (enc_array uint64_t ips) = Ok m5 /\
    mem_write m5 (off_raw st c) (enc uint64_t PERF_CONTEXT_USER) = Ok m6 /\
    mem_write m6 (off_chain st c) (enc uint64_t (zlen (c_ips c) + (zlen ips + 1))) = Ok m7 /\
    zlen m7 = zlen m /\
    bytes_at m7 0 (header_bytes replaced_header ++ body_bytes st (replaced_content ips c)).
Proof.
  intros Hold Hlen Hh. destruct replace_sizes as (Hc & _).
  destruct (replace_upper m Hold Hlen) as (m1 & m2 & m3 & m4 & m5 & m6 & H1 & H2 & H3 & H4 & H5 & H6 & P6).
  pose proof (zlen_nonneg (prefix_bytes st c)). pose proof (zlen_nonneg (c_ips c)).
  assert (off_raw st c = off_chain st c + 8 + zlen (c_ips c) * 8) as Er by (unfold off_raw; lia).
  assert (off_chain st c = header_size + zlen (prefix_bytes st c)) as Ec by done.
  destruct (bytes_at_bound _ _ _ (proj1 (proj2 P6))) as [_ Hb].
  pose proof (zlen_nonneg (c_raw c)) as _.
  destruct (mem_write_placed m6 (off_chain st c) (enc uint64_t (zlen (c_ips c) + (zlen ips + 1))))
    as (m7 & H7 & P7); [unfold header_size in *; lia|rewrite zlen_enc_u64; rewrite zlen_app in Hb; 
      match type of Hb with _ + (_ + ?z) <= _ => pose proof (zlen_nonneg (enc uint64_t PERF_CONTEXT_USER ++ enc_array uint64_t ips)) end;
      match goal with _ : context [zlen (raw_bytes ?a ?b ++ ?x)] |- _ => pose proof (zlen_nonneg (raw_bytes a b ++ x)) end; lia|].
  exists m1, m2, m3, m4, m5, m6, m7. split_and!; [done..| |].
  { rewrite (proj1 P7). apply P6. }
  destruct Hold as (Hp & Hi & _ & _).
  rewrite replaced_body. unfold replaced_tail.
  apply bytes_at_app; [|rewrite zlen_header_bytes; apply bytes_at_app].
  - apply P7; [apply P6; [done|]|]; rewrite zlen_header_bytes; unfold header_size in *; lia.
  - apply P7; [apply P6; [done|]|]; unfold header_size in *; lia.
  - replace (0 + 8 + zlen (prefix_bytes st c)) with (off_chain st c) by (unfold header_size in *; lia).
    apply bytes_at_app; [apply (proj1 (proj2 P7))|]. rewrite zlen_enc_u64. apply bytes_at_app.
    + apply P7; [apply P6; [done|]|]; autorewrite with zlen; lia.
    + autorewrite with zlen. rewrite <- Er. apply P7; [apply (proj1 (proj2 P6))|]. autorewrite with zlen. lia.
Qed.

(** The pointers and counts of the object are those of the layout. *)
Lemma replace_branch_args : has st SAMPLE_BRANCH_STACK = true ->
  s_branch_nr r = zlen (c_branch c) /\ s_branch r = off_branch st c + 8 /\
  s_branch_nr r * 24 = zlen (enc_array branch_codec (c_branch c)).
Proof.
  intros Hb. destruct (sv_branch _ _ _ Hview Hb) as [-> ->]. by rewrite zlen_enc_array_branch.
Qed.

Lemma replace_raw_args : has st SAMPLE_RAW = true ->
  s_raw_size r = zlen (c_raw c) /\ s_raw_data r = off_raw st c + 4 /\ s_raw_size r = zlen (c_raw c).
Proof. intros Hb. by destruct (sv_raw _ _ _ Hview Hb) as [-> ->]. Qed.

(** The whole function on the object. *)
Lemma replace_runs :
  exists r', ReplaceRegAndStackWithCallChain ips r = Ok r' /\
    header (s_rec r') = replaced_header /\ s_type r' = st /\ zlen (bin r') = zlen (bin r) /\
    s_ip_nr r' = zlen (c_ips (replaced_content ips c)) /\ s_ips r' = off_chain st c + 8 /\
    s_abi r' = 0 /\ s_stack_size r' = 0 /\
    bytes_at (bin r') 0 (header_bytes replaced_header ++ body_bytes st (replaced_content ips c)).
Proof.
  destruct replace_sizes as (Hc & Hg & Hs & Hb & Hb').
  destruct (sv_header _ _ _ Hview) as (_ & _ & Hsz & Hsz16 & _). fold h in Hsz, Hsz16.
  destruct (bytes_at_bound _ _ _ (sv_bytes _ _ _ Hview)) as [_ Hlen].
  rewrite zlen_app, zlen_header_bytes in Hlen. fold st in Hlen.
  destruct (sv_chain _ _ _ Hview Hchain) as [Hnr Hips].
  destruct (proj2 (proj2 (sv_regs _ _ _ Hview Hregs)) Habi) as (_ & Hrn & _).
  destruct (sv_stack _ _ _ Hview Hstack) as (Hss & _ & Hsd). destruct (Hsd Hstk) as [Hdata _].
  fold st in Hips, Hdata. pose proof (zlen_nonneg ips). pose proof (zlen_nonneg (c_ips c)).
  pose proof (zlen_nonneg (prefix_bytes st c)). pose proof (zlen_nonneg (raw_bytes st (c_raw c))).
  pose proof (zlen_nonneg (branch_bytes st (c_branch c))). pose proof (zlen_nonneg (c_regs c)).
  assert (8 <= off_regs st c) by (unfold off_regs, off_branch, off_raw, off_chain, header_size; lia).
  assert (off_stack st c = off_regs st c + 8 + zlen (c_regs c) * 8) as Eos by (unfold off_stack; lia).
  pose proof replaced_header_ok as Hrh. unfold header_size in Hsize.
  unfold_u. rewrite Hsize in Hsz.
  unfold ReplaceRegAndStackWithCallChain. rewrite Hrn, Hss. fold d.
  rewrite (u32_small d), (u32_small (zlen (c_regs c) * 8 + zlen (c_stack c) + 8)) by (unfold_u; unfold d in *; lia).
  rewrite CHECK_le by lia. cbn [mbind res_bind].
  rewrite u32_small by (unfold_u; unfold d in *; lia). fold h. unfold SetSize.
  rewrite u32_small by (unfold_u; unfold d in *; lia).
  cbn [set_rec s_rec header bin binary_]. unfold bin. cbn [set_rec s_rec binary_].
  replace (mkHeader _ _ _) with replaced_header by (unfold replaced_header, header_size; f_equal; fold h; lia).
  destruct (header_placed replaced_header (bin r) Hrh) as (m & Hm & Pm); [lia|].
  fold (bin r). rewrite Hm. cbn [mbind res_bind set_rec set_abi set_stack_size s_stack_data s_stack_size s_abi
    s_branch_nr s_branch s_raw_size s_raw_data s_ip_nr has_bit s_type].
  rewrite Hdata, Hss. assert (old_parts m) as Hold
    by (eapply old_parts_placed; [apply old_parts_view|exact Pm|rewrite zlen_header_bytes; unfold header_size; lia]).
  destruct (replace_memory m Hold) as (m1 & m2 & m3 & m4 & m5 & m6 & m7 & W1 & W2 & W3 & W4 & W5 & W6 & W7 & Hl7 & Hat7);
    [rewrite (proj1 Pm); lia|apply (proj1 (proj2 Pm))|].
  unfold has_bit. cbn [set_rec set_abi set_stack_size s_type]. fold st.
  replace (off_stack st c + 8 + zlen (c_stack c) + 8 - _ - 8) with (off_regs st c + d + 8) by lia.
  rewrite W1. cbn [mbind res_bind].
  replace (off_regs st c + d + 8 - 8) with (off_regs st c + d) by lia.
  rewrite W2. cbn [mbind res_bind].
  rewrite (move_back_cong _ _ _ _ _ _ _ _ _ _ replace_branch_args), W3. cbn [mbind res_bind].
  rewrite (move_back_cong _ _ _ _ _ _ _ _ _ _ replace_raw_args), W4. cbn [mbind res_bind].
  replace (off_raw st c + d - zlen ips * 8) with (off_raw st c + 8) by (unfold d; lia).
  rewrite W5. cbn [mbind res_bind].
  replace (off_raw st c + 8 - 8) with (off_raw st c) by lia.
  rewrite W6. cbn [mbind res_bind set_callchain s_ip_nr]. rewrite Hnr.
  replace (off_raw st c - 8 * zlen (c_ips c) - 8) with (off_chain st c) by (unfold off_raw; lia).
  rewrite u64_small, W7 by (destruct Hok as (_ & _ & _ & _ & _ & _ & _ & _ & [_ Hipl] & _);
    unfold_u; unfold d in *; lia). cbn [mbind res_bind].
  eexists. split; [reflexivity|]. unfold bin, set_bin.
  cbn [set_callchain set_rec set_abi set_stack_size s_rec header binary_ s_type s_ip_nr s_ips s_abi
    s_stack_size replaced_content c_ips].
  split_and!; try done.
  - rewrite Hl7. apply Pm.
  - by rewrite zlen_app, zlen_cons, (Z.add_comm (zlen ips)).
  - unfold off_raw. lia.
Qed.
End replace.
