(* ===== verification/SampleEdit.v ===== *)
(** What the constructors and the editing functions of [SampleRecord]
    (src/simpleperf/record.h and record.cpp) do to the content of a sample:
    every result is again the binary layout of a content, so the records a
    tool writes after an edit are read back as that content. *)
From stdpp Require Import base list numbers strings.
From Stdlib Require Import ZArith Lia.
From S2P Require Import Prelude Utils RecordBase SampleRecord.

(** * Parsing *)

Lemma view_part_chain attr r c :
  sample_view attr r c -> has_bit r SAMPLE_CALLCHAIN = true ->
  bytes_at (bin r) (off_chain (s_type r) c + 8) (enc_array uint64_t (c_ips c)).
Proof.
  intros Hv Hb. pose proof (sv_bytes _ _ _ Hv) as Hat.
  apply bytes_at_split in Hat as [_ Hat]. rewrite zlen_header_bytes in Hat.
  change (0 + 8) with header_size in Hat. unfold body_bytes in Hat.
  apply bytes_at_split in Hat as [_ Hat]. fold (off_chain (s_type r) c) in Hat.
  apply bytes_at_split in Hat as [Hat _]. unfold chain_bytes in Hat.
  unfold has_bit in Hb. rewrite Hb in Hat. apply bytes_at_split in Hat as [_ Hat].
  by rewrite zlen_enc_u64 in Hat.
Qed.

Lemma view_get_ips attr r c :
  sample_view attr r c -> content_ok attr c -> has_bit r SAMPLE_CALLCHAIN = true ->
  get_ips r = Ok (c_ips c).
Proof.
  intros Hv (_ & _ & _ & _ & _ & _ & _ & _ & [Hips Hl] & _) Hb. unfold get_ips.
  destruct (sv_chain _ _ _ Hv Hb) as [-> ->]. pose proof (view_part_chain _ _ _ Hv Hb) as Hat.
  rewrite (MoveFromN_at uint64_t is_u64 _ _ (c_ips c)) by (done || cbn; lia). done.
Qed.

(** Parsing memory that starts with the layout of a content gives a record
    that is a faithful view of that content, whatever follows it in memory and
    whatever the uninitialised members held: header, members, the offsets of
    every part, and the call chain read through the [ips] pointer. *)
Theorem SampleRecord_read_layout undef attr h c tail :
  header_ok h -> content_ok attr c ->
  header_size + zlen (body_bytes (attr_sample_type attr) c) <= size h ->
  exists r, SampleRecord_read undef attr
      (header_bytes h ++ body_bytes (attr_sample_type attr) c ++ tail) = Ok r /\
    header (s_rec r) = h /\ sample_view attr r c /\
    (has_bit r SAMPLE_CALLCHAIN = true -> get_ips r = Ok (c_ips c)).
Proof.
  intros Hh Hok Hsize.
  destruct (sample_read_at undef attr h c
    (header_bytes h ++ body_bytes (attr_sample_type attr) c ++ tail)) as (r & Hr & Hh' & _ & Hv);
    [done..|exists [], tail; by rewrite <- app_assoc|].
  exists r. split_and!; [done..|]. intros Hb. by eapply view_get_ips.
Qed.

(** A sample for the concrete instances: every part but the branch stack
    selected, two registers and a stack of sixteen bytes. *)
Definition sample_attr : perf_event_attr :=
  {| attr_sample_id_all := true;
     attr_sample_type := Z.shiftl 1 SAMPLE_IP + Z.shiftl 1 SAMPLE_TID + Z.shiftl 1 SAMPLE_TIME +
       Z.shiftl 1 SAMPLE_CALLCHAIN + Z.shiftl 1 SAMPLE_RAW + Z.shiftl 1 SAMPLE_REGS_USER +
       Z.shiftl 1 SAMPLE_STACK_USER;
     attr_sample_regs_user := 3 |}.
Definition sample_content : SampleContent :=
  mkContent 0 4096 (mkTid 7 8) 1000 0 0 (mkCpu 0 0) 0
    [PERF_CONTEXT_KERNEL; 4096; 4100] [1; 2; 3; 4] [] 2 [11; 12]
    [1; 2; 3; 4; 5; 6; 7; 8; 9; 10; 11; 12; 13; 14; 15; 16] 9.
Definition header_for (attr : perf_event_attr) (c : SampleContent) : RecordHeader :=
  mkHeader PERF_RECORD_SAMPLE PERF_RECORD_MISC_KERNEL
    (header_size + zlen (body_bytes (attr_sample_type attr) c)).
Definition sample_undef : SampleRecord :=
  mkSample Record_default 0 0 (mkTid 0 0) 0 0 0 0 (mkCpu 0 0) 0 0 0 0 0 0 0 0 0 0 0 0 0 0.
Definition object_for (attr : perf_event_attr) (c : SampleContent) : SampleRecord :=
  match SampleRecord_read sample_undef attr
    (header_bytes (header_for attr c) ++ body_bytes (attr_sample_type attr) c) with
  | Ok r => r
  | _ => sample_undef
  end.
Abbreviation sample_header := (header_for sample_attr).
Abbreviation sample_object := (object_for sample_attr).

Lemma object_for_view attr c :
  header_ok (header_for attr c) -> content_ok attr c ->
  sample_view attr (object_for attr c) c /\ header (s_rec (object_for attr c)) = header_for attr c.
Proof.
  intros Hh Hok. unfold object_for.
  destruct (sample_read_at sample_undef attr (header_for attr c) c
    (header_bytes (header_for attr c) ++ body_bytes (attr_sample_type attr) c))
    as (r & -> & Hh' & _ & Hv); [done|done|cbn [size header_for]; lia| |done].
  exists [], []. by rewrite app_nil_r.
Qed.

(** Discharges the range conditions on concrete headers and contents. *)
Ltac concrete_ok := repeat split; repeat constructor; try (vm_compute; congruence); try lia.

Lemma sample_content_ok : content_ok sample_attr sample_content.
Proof. concrete_ok. Qed.
Lemma sample_header_ok : header_ok (sample_header sample_content).
Proof. concrete_ok. Qed.

Lemma SampleRecord_read_layout_witness :
  exists r, SampleRecord_read sample_undef sample_attr
      (header_bytes (sample_header sample_content) ++
       body_bytes (attr_sample_type sample_attr) sample_content ++ [1; 2]) = Ok r /\
    header (s_rec r) = sample_header sample_content /\ sample_view sample_attr r sample_content /\
    (has_bit r SAMPLE_CALLCHAIN = true -> get_ips r = Ok [PERF_CONTEXT_KERNEL; 4096; 4100]).
Proof.
  apply (SampleRecord_read_layout sample_undef sample_attr (sample_header sample_content) sample_content [1; 2]).
  - exact sample_header_ok.
  - exact sample_content_ok.
  - vm_compute. congruence.
Defined.

(** * Replacing registers and stack by a call chain *)

Lemma replaced_content_ok attr ips c :
  content_ok attr c -> Forall is_u64 ips -> zlen (c_ips c) + zlen ips + 1 < 2 ^ 32 ->
  content_ok attr (replaced_content ips c).
Proof.
  intros (H1 & H2 & H3 & H4 & H5 & H6 & H7 & H8 & [Hips Hl] & Hraw & Hbr & _) Hi Hl'.
  unfold content_ok, replaced_content.
  cbn [c_id c_ip c_tid c_time c_addr c_stream_id c_cpu c_period c_ips c_raw c_branch c_abi c_regs c_stack c_dyn].
  split_and!; try done.
  - apply Forall_app. split; [done|]. by constructor.
  - rewrite zlen_app, zlen_cons. lia.
Qed.

(** C9: on a sample record with a call chain, user registers and a user stack, with
    room for the 64-bit frames and the marker in place of registers and stack (the
    function's own check), and whose binary is the layout of its members with the
    header's size, [ReplaceRegAndStackWithCallChain] rewrites the binary in place so that
    parsing it again gives the same sample with the user marker and the new
    frames appended to the call chain and with empty registers and stack: raw
    data and branch stack are moved unharmed, the header has the new size, and
    the members of the edited object read the new chain. *)
Theorem ReplaceRegAndStackWithCallChain_relayout undef attr r c ips :
  sample_view attr r c -> content_ok attr c ->
  has_bit r SAMPLE_CALLCHAIN = true -> has_bit r SAMPLE_REGS_USER = true ->
  has_bit r SAMPLE_STACK_USER = true -> c_abi c <> 0 -> zlen (c_stack c) <> 0 ->
  type (header (s_rec r)) = PERF_RECORD_SAMPLE ->
  size (header (s_rec r)) = header_size + zlen (body_bytes (s_type r) c) ->
  Forall is_u64 ips -> 8 * (zlen ips + 1) <= zlen (c_regs c) * 8 + zlen (c_stack c) + 8 ->
  exists r' r'', ReplaceRegAndStackWithCallChain ips r = Ok r' /\
    get_ips r' = Ok (c_ips c ++ PERF_CONTEXT_USER :: ips) /\
    SampleRecord_read undef attr (bin r') = Ok r'' /\
    header (s_rec r'') = header (s_rec r') /\
    size (header (s_rec r')) =
      size (header (s_rec r)) - (zlen (c_regs c) * 8 + zlen (c_stack c) + 8 - 8 * (zlen ips + 1)) /\
    sample_view attr r'' (replaced_content ips c).
Proof.
  intros Hv Hok Hc Hg Hs Habi Hstk Hty Hsize Hips Hfit.
  destruct (replace_sizes r c ips Hc Hg Hs Habi Hstk) as (Z1 & _ & _ & Z4 & Z5).
  destruct (replace_runs attr r c ips) as (r' & Hrun & Hh & Ht & _ & Hnr & Hp & _ & _ & Hat); [done..|].
  assert (header_ok (replaced_header r c ips)) as Hrh by (by eapply replaced_header_ok).
  destruct (sv_header _ _ _ Hv) as (_ & _ & Hu & Hsmall & _).
  pose proof (zlen_nonneg ips). pose proof (zlen_nonneg (c_ips c)). pose proof (zlen_nonneg (c_regs c)).
  rewrite Hty in Hsmall. specialize (Hsmall eq_refl). unfold header_size in Hsize.
  assert (off_regs (s_type r) c >= 8 + 8 + zlen (c_ips c) * 8) as Hor.
  { unfold off_regs, off_branch, off_raw, off_chain, header_size. rewrite Z1.
    pose proof (zlen_nonneg (prefix_bytes (s_type r) c)). pose proof (zlen_nonneg (raw_bytes (s_type r) (c_raw c))).
    pose proof (zlen_nonneg (branch_bytes (s_type r) (c_branch c))). lia. }
  assert (content_ok attr (replaced_content ips c)) as Hok' by (apply replaced_content_ok; [done|done|lia]).
  rewrite (sv_type _ _ _ Hv) in *.
  destruct (sample_read_at undef attr _ _ (bin r') Hrh Hok') as (r'' & Hr & Hh' & Hb & Hv');
    [cbn [size replaced_header]; rewrite (sv_type _ _ _ Hv); done|done|].
  exists r', r''. split_and!; [done| |done|congruence| |done].
  - assert (has_bit r'' SAMPLE_CALLCHAIN = true) as Hc'.
    { unfold has_bit in *. by rewrite (sv_type _ _ _ Hv'), <- (sv_type _ _ _ Hv). }
    change (c_ips c ++ _) with (c_ips (replaced_content ips c)).
    rewrite <- (view_get_ips _ _ _ Hv' Hok' Hc'). unfold get_ips.
    destruct (sv_chain _ _ _ Hv' Hc') as [-> ->]. rewrite Hb, Hnr, Hp. by rewrite (sv_type _ _ _ Hv').
  - rewrite Hh. cbn [size replaced_header]. rewrite (sv_type _ _ _ Hv). unfold header_size in *. lia.
Qed.

Lemma ReplaceRegAndStackWithCallChain_relayout_witness :
  exists r' r'', ReplaceRegAndStackWithCallChain [500; 501] (sample_object sample_content) = Ok r' /\
    get_ips r' = Ok (c_ips sample_content ++ PERF_CONTEXT_USER :: [500; 501]) /\
    SampleRecord_read sample_undef sample_attr (bin r') = Ok r'' /\
    header (s_rec r'') = header (s_rec r') /\
    size (header (s_rec r')) =
      size (header (s_rec (sample_object sample_content))) - (2 * 8 + 16 + 8 - 8 * (2 + 1)) /\
    sample_view sample_attr r'' (replaced_content [500; 501] sample_content).
Proof.
  destruct (object_for_view sample_attr sample_content sample_header_ok sample_content_ok) as [Hv _].
  apply (ReplaceRegAndStackWithCallChain_relayout sample_undef sample_attr (sample_object sample_content) sample_content [500; 501] Hv
           sample_content_ok).
  1-3: vm_compute; reflexivity.
  1-2: vm_compute; congruence.
  1-2: vm_compute; reflexivity.
  1: concrete_ok.
  vm_compute; congruence.
Defined.

(** * [UpdateUserCallChain] *)

Lemma opt_bytes_cong {T} (cond : bool) (c : codec T) x y :
  (cond = true -> x = y) -> opt_bytes cond c x = opt_bytes cond c y.
Proof. destruct cond; [|done]. intros H. by rewrite H. Qed.

(** The members of an object write the prefix of its content. *)
Lemma view_prefix attr r c :
  sample_view attr r c ->
  opt_bytes (has_bit r SAMPLE_IDENTIFIER) uint64_t (s_id r) ++
  opt_bytes (has_bit r SAMPLE_IP) uint64_t (s_ip r) ++
  opt_bytes (has_bit r SAMPLE_TID) tid_codec (s_tid r) ++
  opt_bytes (has_bit r SAMPLE_TIME) uint64_t (s_time r) ++
  opt_bytes (has_bit r SAMPLE_ADDR) uint64_t (s_addr r) ++
  opt_bytes (has_bit r SAMPLE_ID) uint64_t (s_id r) ++
  opt_bytes (has_bit r SAMPLE_STREAM_ID) uint64_t (s_stream_id r) ++
  opt_bytes (has_bit r SAMPLE_CPU) cpu_codec (s_cpu r) ++
  opt_bytes (has_bit r SAMPLE_PERIOD) uint64_t (s_period r) = prefix_bytes (s_type r) c.
Proof.
  intros []. unfold prefix_bytes.
  rewrite (opt_bytes_cong (has_bit r SAMPLE_IDENTIFIER) uint64_t (s_id r) (c_id c))
    by (intros Hb; rewrite sv_id, Hb; done).
  rewrite (opt_bytes_cong (has_bit r SAMPLE_ID) uint64_t (s_id r) (c_id c))
    by (intros Hb; rewrite sv_id, Hb, orb_true_r; done).
  rewrite (opt_bytes_cong _ _ _ _ sv_ip), (opt_bytes_cong _ _ _ _ sv_tid),
    (opt_bytes_cong _ _ _ _ sv_time), (opt_bytes_cong _ _ _ _ sv_addr),
    (opt_bytes_cong _ _ _ _ sv_stream_id), (opt_bytes_cong _ _ _ _ sv_cpu),
    (opt_bytes_cong _ _ _ _ sv_period). done.
Qed.

(** The content after the update. *)
Definition updated_content (user_ips : list Z) (c : SampleContent) : SampleContent :=
  mkContent (c_id c) (c_ip c) (c_tid c) (c_time c) (c_addr c) (c_stream_id c) (c_cpu c)
    (c_period c) ((kernel_part (c_ips c) ++ [PERF_CONTEXT_USER]) ++ user_ips) (c_raw c)
    (c_branch c) (c_abi c) (c_regs c) (c_stack c) (c_dyn c).

Lemma view_raw attr r c :
  sample_view attr r c -> has_bit r SAMPLE_RAW = true ->
  mem_read (bin r) (s_raw_data r) (s_raw_size r) = Ok (c_raw c).
Proof.
  intros Hv Hb. destruct (sv_raw _ _ _ Hv Hb) as [-> ->]. apply bytes_at_read; [|done].
  pose proof (sv_bytes _ _ _ Hv) as Hat. apply bytes_at_split in Hat as [_ Hat].
  rewrite zlen_header_bytes in Hat. change (0 + 8) with header_size in Hat.
  do 2 apply bytes_at_split in Hat as [_ Hat]. apply bytes_at_split in Hat as [Hat _].
  unfold raw_bytes in Hat at 1. unfold has_bit in Hb. rewrite Hb in Hat.
  apply bytes_at_split in Hat as [_ Hat]. by rewrite zlen_enc_u32 in Hat.
Qed.

Lemma view_branch attr r c :
  sample_view attr r c -> has_bit r SAMPLE_BRANCH_STACK = true -> zlen (c_branch c) < 2 ^ 32 ->
  mem_read (bin r) (s_branch r) (u64 (s_branch_nr r * 24)) = Ok (enc_array branch_codec (c_branch c)).
Proof.
  intros Hv Hb Hl. destruct (sv_branch _ _ _ Hv Hb) as [-> ->]. pose proof (zlen_nonneg (c_branch c)).
  apply bytes_at_read; [|rewrite u64_small, zlen_enc_array_branch by (unfold_u; lia); done].
  pose proof (sv_bytes _ _ _ Hv) as Hat. apply bytes_at_split in Hat as [_ Hat].
  rewrite zlen_header_bytes in Hat. change (0 + 8) with header_size in Hat.
  do 3 apply bytes_at_split in Hat as [_ Hat]. apply bytes_at_split in Hat as [Hat _].
  unfold branch_bytes in Hat at 1. unfold has_bit in Hb. rewrite Hb in Hat.
  apply bytes_at_split in Hat as [_ Hat]. by rewrite zlen_enc_u64 in Hat.
Qed.

Lemma writes_prefix r b :
  opt_bytes (has_bit r SAMPLE_IDENTIFIER) uint64_t (s_id r) ++
  opt_bytes (has_bit r SAMPLE_IP) uint64_t (s_ip r) ++
  opt_bytes (has_bit r SAMPLE_TID) tid_codec (s_tid r) ++
  opt_bytes (has_bit r SAMPLE_TIME) uint64_t (s_time r) ++
  opt_bytes (has_bit r SAMPLE_ADDR) uint64_t (s_addr r) ++
  opt_bytes (has_bit r SAMPLE_ID) uint64_t (s_id r) ++
  opt_bytes (has_bit r SAMPLE_STREAM_ID) uint64_t (s_stream_id r) ++
  opt_bytes (has_bit r SAMPLE_CPU) cpu_codec (s_cpu r) ++
  opt_bytes (has_bit r SAMPLE_PERIOD) uint64_t (s_period r) = b ->
  writes (write_prefix r) b.
Proof.
  intros <-. unfold write_prefix.
  repeat first [eapply writes_if; apply _ | apply writes_bind with (g := fun m p => _)].
Qed.

(** Writers of a part that also redirect the pointers of the object. *)
Definition writes_part (f : bytes -> Z -> res (bytes * Z * SampleRecord)) (b : bytes)
    (g : Z -> SampleRecord) : Prop :=
  forall pre rest p, p = zlen pre -> zlen b <= zlen rest ->
    f (pre ++ rest) p = Ok ((pre ++ b) ++ zdrop (zlen b) rest, zlen (pre ++ b), g p).

(** Copying bytes at the end of what has been written. *)
Lemma write_bytes_app pre rest p b :
  p = zlen pre -> zlen b <= zlen rest ->
  mem_write (pre ++ rest) p b = Ok ((pre ++ b) ++ zdrop (zlen b) rest).
Proof. intros -> Hb. rewrite mem_write_app by done. by rewrite app_assoc. Qed.

Lemma writes_chain ks us r :
  has_bit r SAMPLE_CALLCHAIN = true -> zlen ks + zlen us < 2 ^ 32 ->
  writes_part (write_chain ks us r) (chain_bytes (s_type r) (ks ++ us))
    (fun p => set_callchain (zlen ks + zlen us) (p + 8) r).
Proof.
  intros Hb Hl pre rest p -> Hr. unfold write_chain, chain_bytes in *. rewrite Hb.
  unfold has_bit in Hb. rewrite Hb in Hr |- *. pose proof (zlen_nonneg ks). pose proof (zlen_nonneg us).
  rewrite zlen_app, enc_array_app in Hr |- *. autorewrite with zlen in Hr.
  rewrite (writes_value uint64_t is_u64) by (autorewrite with zlen; lia). cbn [mbind res_bind].
  rewrite (writes_array uint64_t is_u64 ks)
    by (autorewrite with zlen; rewrite ?zlen_zdrop_max; cbn [sizeof uint64_t]; lia). cbn [mbind res_bind].
  rewrite (writes_array uint64_t is_u64 us)
    by (autorewrite with zlen; rewrite ?zlen_zdrop_max; autorewrite with zlen; rewrite ?zlen_zdrop_max; cbn [sizeof uint64_t]; lia). cbn [mbind res_bind].
  rewrite !zdrop_zdrop by auto with zlen lia. rewrite <- !app_assoc.
  autorewrite with zlen. by rewrite zdrop_zdrop by lia.
Qed.

Lemma writes_raw r raw :
  (has_bit r SAMPLE_RAW = true ->
   s_raw_size r = zlen raw /\ mem_read (bin r) (s_raw_data r) (s_raw_size r) = Ok raw) ->
  writes_part (write_raw r) (raw_bytes (s_type r) raw)
    (fun p => if has_bit r SAMPLE_RAW then set_raw_data (p + 4) r else r).
Proof.
  unfold write_raw, raw_bytes, has_bit. destruct (has (s_type r) SAMPLE_RAW) eqn:Hb.
  - intros H pre rest p -> Hr. destruct (H eq_refl) as [Hsz Hrd].
    pose proof (zlen_nonneg raw). autorewrite with zlen in Hr.
    rewrite (writes_value uint32_t is_u32) by (autorewrite with zlen; lia). cbn [mbind res_bind].
    rewrite Hrd. cbn [mbind res_bind].
    rewrite write_bytes_app by (done || autorewrite with zlen; rewrite zlen_zdrop_max; lia).
    cbn [mbind res_bind]. rewrite Hsz. autorewrite with zlen.
    rewrite zdrop_zdrop, <- !app_assoc by lia. rewrite Z.add_simpl_r.
    by rewrite !Z.add_assoc.
  - intros _ pre rest p -> _. autorewrite with zlen. by rewrite !app_nil_r, Z.add_0_r, zdrop_0.
Qed.

Lemma writes_branch r b :
  (has_bit r SAMPLE_BRANCH_STACK = true ->
   s_branch_nr r = zlen b /\ zlen b < 2 ^ 32 /\
   mem_read (bin r) (s_branch r) (u64 (s_branch_nr r * 24)) = Ok (enc_array branch_codec b)) ->
  writes_part (write_branch r) (branch_bytes (s_type r) b)
    (fun p => if has_bit r SAMPLE_BRANCH_STACK then set_branch (p + 8) r else r).
Proof.
  unfold write_branch, branch_bytes, has_bit. destruct (has (s_type r) SAMPLE_BRANCH_STACK) eqn:Hb.
  - intros H pre rest p -> Hr. destruct (H eq_refl) as (Hn & Hl & Hrd).
    pose proof (zlen_nonneg b). autorewrite with zlen in Hr.
    rewrite (writes_value uint64_t is_u64) by (autorewrite with zlen; lia). cbn [mbind res_bind].
    rewrite Hrd. cbn [mbind res_bind].
    rewrite write_bytes_app by (done || autorewrite with zlen; rewrite zlen_zdrop_max; lia).
    cbn [mbind res_bind]. rewrite Hn, u64_small by (unfold_u; lia). autorewrite with zlen.
    rewrite zdrop_zdrop, <- !app_assoc by lia. by rewrite !Z.add_assoc.
  - intros _ pre rest p -> _. autorewrite with zlen. by rewrite !app_nil_r, Z.add_0_r, zdrop_0.
Qed.

(** One step of a sequential write, its side conditions on lengths solved. *)
Ltac write_side := solve [ reflexivity | autorewrite with zlen; rewrite ?zlen_zdrop_max; lia ].
Ltac step_write L :=
  rewrite L by write_side; cbn [mbind res_bind];
  rewrite ?zdrop_zdrop by (repeat apply Z.add_nonneg_nonneg; apply zlen_nonneg).

Section update.
Context (junk : nat -> Z) (attr : perf_event_attr) (r : SampleRecord) (c : SampleContent)
  (user_ips : list Z).
Let st := s_type r.
Let c' := updated_content user_ips c.
Hypothesis Hview : sample_view attr r c.
Hypothesis Hok : content_ok attr c.
Hypothesis Hchain : has st SAMPLE_CALLCHAIN = true.
Hypothesis Hregs : has st SAMPLE_REGS_USER = true -> c_abi c = 0.
Hypothesis Hstack : has st SAMPLE_STACK_USER = true -> c_stack c = [].
Hypothesis Hsize : size (header (s_rec r)) = header_size + zlen (body_bytes st c).

Definition updated_header : RecordHeader :=
  mkHeader (type (header (s_rec r))) (misc (header (s_rec r))) (header_size + zlen (body_bytes st c')).
Hypothesis Hh' : header_ok updated_header.

(** The size the function computes is that of the new content. *)
Lemma update_new_size :
  u64 (size (header (s_rec r)) - s_ip_nr r * 8 +
       (zlen (kernel_part (c_ips c) ++ [PERF_CONTEXT_USER]) + zlen user_ips) * 8) = size updated_header.
Proof.
  destruct (sv_chain _ _ _ Hview Hchain) as [-> _]. rewrite Hsize.
  destruct Hh' as (_ & _ & Hu & _ & _). cbn [size updated_header] in Hu |- *.
  rewrite <- (u64_small (header_size + zlen (body_bytes st c'))) by (unfold_u; lia).
  f_equal. unfold body_bytes.
  cbn [c' updated_content c_ips c_raw c_branch c_abi c_regs c_stack c_dyn].
  change (prefix_bytes st c') with (prefix_bytes st c).
  unfold chain_bytes. rewrite Hchain. autorewrite with zlen. lia.
Qed.

(** Registers and stack are empty, so only their counts are written. *)
Lemma update_regs_stack :
  opt_bytes (has st SAMPLE_REGS_USER) uint64_t (s_abi r) = regs_bytes st (c_abi c) (c_regs c) /\
  opt_bytes (has st SAMPLE_STACK_USER) uint64_t (s_stack_size r) = stack_bytes st (c_stack c) (c_dyn c) /\
  (negb (has st SAMPLE_REGS_USER) || (s_abi r =? 0)) = true /\
  (negb (has st SAMPLE_STACK_USER) || (s_stack_size r =? 0)) = true.
Proof.
  pose proof (sv_regs _ _ _ Hview) as Hg. pose proof (sv_stack _ _ _ Hview) as Hs.
  unfold has_bit in *. fold st in Hg, Hs. unfold opt_bytes, regs_bytes, stack_bytes.
  destruct (has st SAMPLE_REGS_USER); destruct (has st SAMPLE_STACK_USER); cbn [negb orb];
    try (rewrite Hregs in * by done; destruct (Hg eq_refl) as (-> & _));
    try (rewrite Hstack in * by done; destruct (Hs eq_refl) as (-> & _));
    cbn [Z.eqb]; rewrite ?app_nil_r; done.
Qed.

(** The object after the update. *)
Definition updated_object (m : bytes) : SampleRecord :=
  let r1 := set_rec (SetSize (size updated_header) (s_rec r)) r in
  let r2 := set_callchain (zlen (c_ips c')) (off_chain st c' + 8) r1 in
  let r3 := if has st SAMPLE_RAW then set_raw_data (off_raw st c' + 4) r2 else r2 in
  let r4 := if has st SAMPLE_BRANCH_STACK then set_branch (off_branch st c' + 8) r3 else r3 in
  set_rec (UpdateBinary m (s_rec r4)) r4.

Lemma updated_object_view m :
  bytes_at m 0 (header_bytes updated_header ++ body_bytes st c') ->
  sample_view attr (updated_object m) c'.
Proof.
  intros Hat. destruct Hview, Hh' as (_ & _ & Hu & _).
  unfold updated_object. unfold has_bit, st in *.
  assert (has (s_type r) SAMPLE_RAW = true -> s_raw_size r = zlen (c_raw c')) as Er
    by (intros H; by destruct (sv_raw H)).
  assert (has (s_type r) SAMPLE_BRANCH_STACK = true -> s_branch_nr r = zlen (c_branch c')) as Eb
    by (intros H; by destruct (sv_branch H)).
  destruct (has (s_type r) SAMPLE_RAW) eqn:Hr; destruct (has (s_type r) SAMPLE_BRANCH_STACK) eqn:Hb;
  split; unfold has_bit, bin, SetSize; cbn -[has off_raw off_branch off_regs off_stack off_chain]; try done;
  rewrite ?u32_small by done; try done; intros H; try congruence; try (split; auto; done).
  all: try (rewrite Hregs by done; destruct (sv_regs H) as (E & F & _); rewrite Hregs in E, F by done; done).
  all: rewrite Hstack by done; destruct (sv_stack H) as (E & F & _); rewrite Hstack in E, F by done; done.
Qed.

Let r1 := set_rec (SetSize (size updated_header) (s_rec r)) r.
Let nr := zlen (kernel_part (c_ips c) ++ [PERF_CONTEXT_USER]) + zlen user_ips.
Let r2 := set_callchain nr (off_chain st c' + 8) r1.
Let r3 := if has st SAMPLE_RAW then set_raw_data (off_raw st c' + 4) r2 else r2.

(** The writers of the parts, on the objects of the successive steps. *)
Lemma update_writers :
  writes (write_prefix r1) (prefix_bytes st c') /\
  (nr < 2 ^ 32 -> writes_part (write_chain (kernel_part (c_ips c) ++ [PERF_CONTEXT_USER]) user_ips r1)
     (chain_bytes st (c_ips c')) (fun p => set_callchain nr (p + 8) r1)) /\
  writes_part (write_raw r2) (raw_bytes st (c_raw c'))
    (fun p => if has st SAMPLE_RAW then set_raw_data (p + 4) r2 else r2) /\
  writes_part (write_branch r3) (branch_bytes st (c_branch c'))
    (fun p => if has st SAMPLE_BRANCH_STACK then set_branch (p + 8) r3 else r3).
Proof.
  assert (s_type r3 = st /\ bin r3 = bin r /\ s_branch r3 = s_branch r /\ s_branch_nr r3 = s_branch_nr r)
    as (T3 & B3 & P3 & N3) by (unfold r3; by destruct (has st SAMPLE_RAW)).
  split_and!.
  - apply writes_prefix. apply (view_prefix attr r c Hview).
  - intros Hnr. by apply (writes_chain _ _ r1).
  - apply (writes_raw r2 (c_raw c')). intros Hb.
    split; [by destruct (sv_raw _ _ _ Hview Hb)|]. by apply (view_raw attr r c Hview).
  - rewrite <- T3. apply writes_branch. unfold has_bit. rewrite T3, B3, P3, N3. intros Hb.
    destruct (sv_branch _ _ _ Hview Hb) as [Hn _].
    assert (zlen (c_branch c) < 2 ^ 32) by (by destruct Hok as (_&_&_&_&_&_&_&_&_&_&?&_)).
    split_and!; [done..|]. by apply (view_branch attr r c Hview).
Qed.

Lemma update_runs :
  size updated_header <> size (header (s_rec r)) ->
  UpdateUserCallChain junk user_ips r =
    Ok (updated_object (header_bytes updated_header ++ body_bytes st c')).
Proof.
  intros Hne. unfold UpdateUserCallChain. rewrite (view_get_ips attr r c) by done. cbn [mbind res_bind].
  rewrite update_new_size, (proj2 (Z.eqb_neq _ _) Hne). fold r1.
  destruct update_writers as (W1 & W2 & W3 & W4).
  destruct update_regs_stack as (G1 & G2 & G3 & G4).
  destruct Hh' as (_ & _ & Hu & _).
  assert (zlen (new_char junk (size updated_header)) = size updated_header) as Hnew
    by (apply zlen_new_char; unfold_u; lia).
  set (nb := new_char junk (size updated_header)) in *.
  assert (header (s_rec r1) = updated_header) as ->
    by (cbn [r1 set_rec s_rec SetSize header]; rewrite u32_small by done; done).
  assert (size updated_header = 8 + (zlen (prefix_bytes st c') + (zlen (chain_bytes st (c_ips c')) +
    (zlen (raw_bytes st (c_raw c')) + (zlen (branch_bytes st (c_branch c')) +
    (zlen (regs_bytes st (c_abi c) (c_regs c)) + zlen (stack_bytes st (c_stack c) (c_dyn c)))))))) as Hsz
    by (cbn [size updated_header]; unfold body_bytes, header_size; rewrite !zlen_app; done).
  pose proof (zlen_nonneg (prefix_bytes st c')). pose proof (zlen_nonneg (raw_bytes st (c_raw c'))).
  pose proof (zlen_nonneg (branch_bytes st (c_branch c'))).
  pose proof (zlen_nonneg (regs_bytes st (c_abi c) (c_regs c))).
  pose proof (zlen_nonneg (stack_bytes st (c_stack c) (c_dyn c))).
  assert (zlen (chain_bytes st (c_ips c')) = 8 + nr * 8) as Hc.
  { unfold chain_bytes, nr. rewrite Hchain. cbn [c_ips c' updated_content].
    autorewrite with zlen. lia. }
  assert (0 <= nr) by (unfold nr; apply Z.add_nonneg_nonneg; apply zlen_nonneg).
  change nb with ([] ++ nb). step_write (writes_header updated_header Hh'). step_write W1.
  step_write (W2 ltac:(unfold_u; lia)).
  replace (zlen (([] ++ header_bytes updated_header) ++ prefix_bytes st c')) with (off_chain st c')
    by (autorewrite with zlen; unfold off_chain, header_size; lia).
  fold r2. step_write W3.
  match goal with |- context [set_raw_data (?p + 4) r2] => replace p with (off_raw st c')
    by (autorewrite with zlen; unfold off_raw, off_chain, header_size; lia) end.
  fold r3. step_write W4.
  match goal with |- context [set_branch (?p + 8) r3] => replace p with (off_branch st c')
    by (autorewrite with zlen; unfold off_branch, off_raw, off_chain, header_size; lia) end.
  set (r4 := if has st SAMPLE_BRANCH_STACK then set_branch (off_branch st c' + 8) r3 else r3).
  assert (s_type r4 = st /\ s_abi r4 = s_abi r /\ s_stack_size r4 = s_stack_size r) as (T4 & A4 & S4)
    by (unfold r4, r3; by destruct (has st SAMPLE_BRANCH_STACK), (has st SAMPLE_RAW)).
  unfold has_bit. rewrite T4, A4, S4.
  pose proof (writes_if (has st SAMPLE_REGS_USER) uint64_t is_u64 (s_abi r)) as W5.
  pose proof (writes_if (has st SAMPLE_STACK_USER) uint64_t is_u64 (s_stack_size r)) as W6.
  rewrite G1 in W5. rewrite G2 in W6.
  step_write W5. rewrite G3. cbn [CHECK mbind res_bind].
  step_write W6. rewrite G4. cbn [CHECK mbind res_bind].
  rewrite CHECK_eq by (autorewrite with zlen; lia). cbn [mbind res_bind].
  rewrite zdrop_ge by (rewrite zlen_header_bytes; lia). rewrite app_nil_r, app_nil_l, <- !app_assoc.
  do 2 f_equal. unfold updated_object. cbn [c_ips c' updated_content]. rewrite zlen_app. done.
Qed.
End update.

(** C28: on a sample with a call chain, without user registers and stack, whose
    binary is the layout of its members with the header's size, and when the new
    size fits a header, [UpdateUserCallChain] builds
    a new binary in which the frames from the first user marker on are
    replaced by the given ones, behind the kernel frames and one user marker;
    every other part is copied, the pointers of the object follow, and the
    object stays a faithful view of its binary.  When the new chain has the
    length of the old one, the object is left as it was. *)
Theorem UpdateUserCallChain_relayout junk attr r c user_ips :
  sample_view attr r c -> content_ok attr c ->
  has_bit r SAMPLE_CALLCHAIN = true ->
  (has_bit r SAMPLE_REGS_USER = true -> c_abi c = 0) ->
  (has_bit r SAMPLE_STACK_USER = true -> c_stack c = []) ->
  size (header (s_rec r)) = header_size + zlen (body_bytes (s_type r) c) ->
  header_ok (updated_header r c user_ips) ->
  (zlen (c_ips (updated_content user_ips c)) = zlen (c_ips c) ->
     UpdateUserCallChain junk user_ips r = Ok r) /\
  (zlen (c_ips (updated_content user_ips c)) <> zlen (c_ips c) ->
     exists r', UpdateUserCallChain junk user_ips r = Ok r' /\
       header (s_rec r') = updated_header r c user_ips /\
       bin r' = header_bytes (header (s_rec r')) ++ body_bytes (s_type r) (updated_content user_ips c) /\
       sample_view attr r' (updated_content user_ips c)).
Proof.
  intros Hv Hok Hc Hg Hs Hsz Hh.
  assert (size (updated_header r c user_ips) - size (header (s_rec r)) =
          8 * (zlen (c_ips (updated_content user_ips c)) - zlen (c_ips c))) as Hd.
  { rewrite Hsz. cbn [size updated_header]. unfold body_bytes.
    cbn [c_ips c_raw c_branch c_abi c_regs c_stack c_dyn updated_content].
    change (prefix_bytes (s_type r) (updated_content user_ips c)) with (prefix_bytes (s_type r) c).
    unfold chain_bytes. unfold has_bit in Hc. rewrite Hc. autorewrite with zlen. lia. }
  split; intros Hl.
  - unfold UpdateUserCallChain. rewrite (view_get_ips attr r c) by done. cbn [mbind res_bind].
    rewrite (update_new_size attr) by done. by rewrite (proj2 (Z.eqb_eq _ _)) by lia.
  - eexists. split; [apply (update_runs junk attr); try done; lia|].
    assert (header (s_rec (updated_object r c user_ips
      (header_bytes (updated_header r c user_ips) ++ body_bytes (s_type r) (updated_content user_ips c))))
      = updated_header r c user_ips) as Hr.
    { unfold updated_object. destruct (has _ SAMPLE_RAW), (has _ SAMPLE_BRANCH_STACK);
        cbn -[updated_header]; rewrite u32_small by apply Hh; done. }
    rewrite Hr. split_and!; [done|by unfold updated_object; destruct (has _ SAMPLE_RAW), (has _ SAMPLE_BRANCH_STACK)|].
    apply updated_object_view; try done. exists [], []. by rewrite app_nil_r.
Qed.

(** The sample of the instances after its registers and stack were replaced. *)
Definition sample_chain_content : SampleContent := replaced_content [500; 501] sample_content.

Lemma UpdateUserCallChain_relayout_witness :
  exists r', UpdateUserCallChain (fun _ => 3) [600; 601; 602] (sample_object sample_chain_content) = Ok r' /\
    header (s_rec r') = updated_header (sample_object sample_chain_content) sample_chain_content [600; 601; 602] /\
    bin r' = header_bytes (header (s_rec r')) ++ body_bytes (s_type (sample_object sample_chain_content))
      (updated_content [600; 601; 602] sample_chain_content) /\
    sample_view sample_attr r' (updated_content [600; 601; 602] sample_chain_content).
Proof.
  assert (content_ok sample_attr sample_chain_content) as Hok by concrete_ok.
  destruct (object_for_view sample_attr sample_chain_content) as [Hv _]; [concrete_ok|exact Hok|].
  apply (UpdateUserCallChain_relayout (fun _ => 3) sample_attr (sample_object sample_chain_content)
    sample_chain_content [600; 601; 602] Hv Hok).
  - vm_compute; reflexivity.
  - intros _. reflexivity.
  - intros _. reflexivity.
  - vm_compute; reflexivity.
  - concrete_ok.
  - vm_compute; congruence.
Defined.

(** * [RemoveInvalidStackData] *)

Definition truncated_content (c : SampleContent) : SampleContent :=
  mkContent (c_id c) (c_ip c) (c_tid c) (c_time c) (c_addr c) (c_stream_id c) (c_cpu c)
    (c_period c) (c_ips c) (c_raw c) (c_branch c) (c_abi c) (c_regs c)
    (ztake (c_dyn c) (c_stack c)) (c_dyn c).

(** A value written in place, followed by what lies behind it. *)
Lemma MoveTo_placed {T} (c : codec T) ok `{!CodecOk c ok} x m p :
  0 <= p -> p + sizeof c <= zlen m ->
  exists m', MoveToBinaryFormat c x m p = Ok (m', p + sizeof c) /\ placed m m' p (enc c x).
Proof.
  intros Hp Hl. destruct (mem_write_placed m p (enc c x)) as (m' & Hw & Hpl);
    [done|by rewrite enc_len|].
  exists m'. split; [|done]. unfold MoveToBinaryFormat. by rewrite Hw.
Qed.

Section truncate.
Context (attr : perf_event_attr) (r : SampleRecord) (c : SampleContent).
Let st := s_type r.
Let kept := prefix_bytes st c ++ chain_bytes st (c_ips c) ++ raw_bytes st (c_raw c) ++
  branch_bytes st (c_branch c) ++ regs_bytes st (c_abi c) (c_regs c).
Hypothesis Hview : sample_view attr r c.
Hypothesis Hok : content_ok attr c.
Hypothesis Hstack : has st SAMPLE_STACK_USER = true.
Hypothesis Hdyn : 0 < c_dyn c < zlen (c_stack c).
Hypothesis Hsize : size (header (s_rec r)) = header_size + zlen (body_bytes st c).

Definition truncated_header : RecordHeader :=
  mkHeader (type (header (s_rec r))) (misc (header (s_rec r)))
    (header_size + zlen (body_bytes st (truncated_content c))).

Lemma zlen_kept : header_size + zlen kept = off_stack st c /\ 8 <= off_stack st c.
Proof.
  unfold off_stack, off_regs, off_branch, off_raw, off_chain. unfold kept. rewrite !zlen_app.
  pose proof (zlen_nonneg (prefix_bytes st c)). pose proof (zlen_nonneg (raw_bytes st (c_raw c))).
  pose proof (zlen_nonneg (branch_bytes st (c_branch c))). pose proof (zlen_nonneg (chain_bytes st (c_ips c))).
  pose proof (zlen_nonneg (regs_bytes st (c_abi c) (c_regs c))). unfold header_size. lia.
Qed.

Lemma truncated_bodies :
  body_bytes st c = kept ++ enc uint64_t (zlen (c_stack c)) ++ ztake (c_dyn c) (c_stack c) ++
    zdrop (c_dyn c) (c_stack c) ++ enc uint64_t (c_dyn c) /\
  body_bytes st (truncated_content c) =
    kept ++ enc uint64_t (c_dyn c) ++ ztake (c_dyn c) (c_stack c) ++ enc uint64_t (c_dyn c).
Proof.
  unfold body_bytes, kept, stack_bytes.
  cbn [truncated_content c_ips c_raw c_branch c_abi c_regs c_stack c_dyn].
  change (prefix_bytes st (truncated_content c)) with (prefix_bytes st c).
  rewrite Hstack, zlen_ztake by lia.
  rewrite !(proj2 (Z.eqb_neq _ _)) by lia. rewrite <- !app_assoc.
  by rewrite (app_assoc (ztake _ _) (zdrop _ _)), ztake_zdrop.
Qed.

Lemma truncated_header_ok : header_ok truncated_header.
Proof.
  destruct truncated_bodies as [E1 E2]. destruct (sv_header _ _ _ Hview) as (H1 & H2 & H3 & H4 & H5).
  assert (zlen (body_bytes st (truncated_content c)) <= zlen (body_bytes st c)) as Hle.
  { rewrite E1, E2, !zlen_app. pose proof (zlen_nonneg (zdrop (c_dyn c) (c_stack c))).
    autorewrite with zlen. lia. }
  rewrite Hsize in *. pose proof (zlen_nonneg (body_bytes st (truncated_content c))).
  unfold header_ok, truncated_header, header_size in *. cbn [type misc size]. unfold_u.
  split_and!; try lia.
Qed.

Lemma truncate_runs :
  exists m, RemoveInvalidStackData r = Ok (set_bin m (set_header truncated_header (set_stack_size (c_dyn c) r))) /\
    bytes_at m 0 (header_bytes truncated_header ++ body_bytes st (truncated_content c)).
Proof.
  destruct truncated_bodies as [E1 E2]. destruct zlen_kept as [K1 K2].
  destruct (sv_stack _ _ _ Hview Hstack) as (Hss & _ & Hsd). destruct Hsd as [Hdata Hdy]; [lia|].
  fold st in Hdata. pose proof (sv_bytes _ _ _ Hview) as Hat. fold st in Hat. rewrite E1 in Hat.
  apply bytes_at_split in Hat as [_ Hat]. rewrite zlen_header_bytes in Hat.
  change (0 + 8) with header_size in Hat.
  apply bytes_at_split in Hat as [Hk Hat]. rewrite K1 in Hat.
  apply bytes_at_split in Hat as [_ Hat]. rewrite zlen_enc_u64 in Hat.
  destruct (bytes_at_bound _ _ _ Hat) as [_ Hb]. apply bytes_at_split in Hat as [Ht _].
  rewrite !zlen_app, zlen_ztake, zlen_zdrop, zlen_enc_u64 in Hb by lia.
  unfold RemoveInvalidStackData, has_bit, GetValidStackSize. fold st. rewrite Hstack, Hdy, Hss.
  rewrite (proj2 (Z.eqb_neq _ _)) by lia. rewrite (proj2 (Z.ltb_lt _ _)) by lia.
  change (bin (set_stack_size (c_dyn c) r)) with (bin r).
  cbn [set_stack_size s_stack_size s_stack_data]. rewrite Hdata.
  destruct (MoveTo_placed uint64_t is_u64 (c_dyn c) (bin r) (off_stack st c + 8 - 8)) as (m1 & -> & P1);
    [lia|cbn; lia|]. cbn [mbind res_bind sizeof uint64_t].
  destruct (MoveTo_placed uint64_t is_u64 (s_dyn_size (set_stack_size (c_dyn c) r)) m1
    (off_stack st c + 8 - 8 + 8 + c_dyn c)) as (m2 & Hm2 & P2);
    [lia|rewrite (proj1 P1); cbn; lia|].
  unfold write_if. change (Z.of_nat 8) with 8. rewrite (proj2 (Z.eqb_neq _ _)) by lia. cbn [negb].
  rewrite Hm2. cbn [mbind res_bind set_stack_size s_rec].
  match goal with |- context [mkHeader _ _ ?z] => replace z with (size truncated_header) end.
  2: { cbn [size truncated_header sizeof uint64_t]. rewrite u32_small.
       - rewrite E2, !zlen_app, zlen_ztake, !zlen_enc_u64 by lia. lia.
       - destruct truncated_header_ok as (_ & _ & Hu & _). cbn [size truncated_header] in Hu.
         rewrite E2, !zlen_app, zlen_ztake, !zlen_enc_u64 in Hu by lia. unfold_u. lia. }
  change (mkHeader _ _ _) with truncated_header.
  destruct (header_placed truncated_header m2 truncated_header_ok) as (m3 & -> & P3);
    [rewrite (proj1 P2), (proj1 P1); lia|]. cbn [mbind res_bind].
  exists m3. split; [done|]. rewrite E2. cbn [set_stack_size s_dyn_size] in P2. rewrite Hdy in P2.
  replace (off_stack st c + 8 - 8) with (off_stack st c) in * by lia.
  destruct P1 as (L1 & B1 & F1), P2 as (L2 & B2 & F2), P3 as (L3 & B3 & F3).
  rewrite zlen_enc_u64 in F1, F2. rewrite zlen_header_bytes in F3. unfold header_size in *.
  apply bytes_at_app; [done|]. rewrite zlen_header_bytes. apply bytes_at_app.
  { apply F3; [apply F2; [apply F1; [done|]|]|]; lia. }
  replace (0 + 8 + zlen kept) with (off_stack st c) by lia. apply bytes_at_app.
  { apply F3; [apply F2; [done|]|]; rewrite ?zlen_enc_u64; lia. }
  rewrite zlen_enc_u64. apply bytes_at_app.
  { apply F3; [apply F2; [apply F1; [done|]|]|]; rewrite ?zlen_ztake by lia; lia. }
  rewrite zlen_ztake by lia. apply F3; [done|]. lia.
Qed.
End truncate.

(** On a sample whose valid stack is shorter than the recorded one,
    [RemoveInvalidStackData] shrinks the stack in place: the object and the
    header it writes are those of the same sample with only the valid stack
    bytes.  A sample with an empty or fully valid stack is not touched. *)
Theorem RemoveInvalidStackData_truncates attr r c :
  sample_view attr r c -> content_ok attr c -> has_bit r SAMPLE_STACK_USER = true ->
  size (header (s_rec r)) = header_size + zlen (body_bytes (s_type r) c) ->
  (zlen (c_stack c) = 0 \/ c_dyn c = 0 \/ zlen (c_stack c) <= c_dyn c ->
     RemoveInvalidStackData r = Ok r) /\
  (0 < c_dyn c < zlen (c_stack c) ->
     exists r', RemoveInvalidStackData r = Ok r' /\ sample_view attr r' (truncated_content c) /\
       size (header (s_rec r')) = size (header (s_rec r)) - (zlen (c_stack c) - c_dyn c)).
Proof.
  intros Hv Hok Hb Hsz. destruct (sv_stack _ _ _ Hv Hb) as (Hss & Hs0 & Hs1). split.
  - intros Hd. unfold RemoveInvalidStackData, GetValidStackSize. rewrite Hb, Hss.
    destruct (Z.eqb_spec (s_dyn_size r) 0); [by rewrite Z.ltb_irrefl|].
    rewrite (proj2 (Z.ltb_ge _ _)); [done|]. destruct (Z.eq_dec (zlen (c_stack c)) 0) as [E|E].
    + by rewrite Hs0 in n.
    + destruct (Hs1 E) as [_ Hdy]. destruct Hd as [?|[?|?]]; congruence || lia.
  - intros Hd. destruct (truncate_runs attr r c) as (m & Hrun & Hat); [done..|]. destruct Hs1; [lia|].
    eexists. split; [done|]. split.
    + destruct Hv. split; try done; [apply (truncated_header_ok attr); try done|].
      intros _. cbn -[zlen ztake off_stack]. rewrite zlen_ztake by lia. split_and!; [done|lia|done].
    + destruct (truncated_bodies r c Hb Hd) as [E1 E2].
      cbn [set_bin set_header set_rec set_stack_size s_rec header truncated_header size].
      rewrite Hsz, E1, E2, !zlen_app, zlen_ztake, zlen_zdrop by lia. autorewrite with zlen. lia.
Qed.

Lemma RemoveInvalidStackData_truncates_witness :
  exists r', RemoveInvalidStackData (sample_object sample_content) = Ok r' /\
    sample_view sample_attr r' (truncated_content sample_content) /\
    size (header (s_rec r')) = size (header (s_rec (sample_object sample_content))) - (16 - 9).
Proof.
  destruct (object_for_view sample_attr sample_content sample_header_ok sample_content_ok) as [Hv _].
  apply (RemoveInvalidStackData_truncates sample_attr (sample_object sample_content) sample_content Hv
           sample_content_ok).
  - vm_compute; reflexivity.
  - vm_compute; reflexivity.
  - vm_compute; split; congruence.
Defined.

(** * The building constructor *)

Definition new_content (id ip pid tid time cpu period : Z) (ips : list Z) : SampleContent :=
  mkContent id ip (mkTid pid tid) time 0 0 (mkCpu cpu 0) period ips [] [] 0 [] [] 0.

(** A field the constructor does not support is not selected. *)
Lemma supported_unset st bit :
  0 <= bit -> Z.land st (Z.lnot supported_mask) = 0 -> Z.testbit supported_mask bit = false ->
  has st bit = false.
Proof.
  intros Hb H Hm. assert (Z.testbit (Z.land st (Z.lnot supported_mask)) bit = false) as E
    by (rewrite H; apply Z.testbit_0_l).
  rewrite Z.land_spec, Z.lnot_spec, Hm, andb_true_r in E by done. exact E.
Qed.

Section build.
Context (attr : perf_event_attr) (id ip pid tid time cpu period : Z) (ips : list Z).
Let st := attr_sample_type attr.
Let c := new_content id ip pid tid time cpu period ips.
Let h := mkHeader PERF_RECORD_SAMPLE PERF_RECORD_MISC_USER (header_size + zlen (body_bytes st c)).
Hypothesis Hst : Z.land st (Z.lnot supported_mask) = 0.
Hypothesis Hfit : header_size + zlen (body_bytes st c) < 2 ^ 16.

(** The body in the order in which the constructor writes it. *)
Definition built_bytes : bytes :=
  opt_bytes (has st SAMPLE_IP) uint64_t ip ++ opt_bytes (has st SAMPLE_TID) tid_codec (mkTid pid tid) ++
  opt_bytes (has st SAMPLE_TIME) uint64_t time ++ opt_bytes (has st SAMPLE_ID) uint64_t id ++
  opt_bytes (has st SAMPLE_CPU) cpu_codec (mkCpu cpu 0) ++
  opt_bytes (has st SAMPLE_PERIOD) uint64_t period ++ chain_bytes st ips ++
  opt_bytes (has st SAMPLE_REGS_USER) uint64_t 0 ++ opt_bytes (has st SAMPLE_STACK_USER) uint64_t 0.

Lemma built_body : body_bytes st c = built_bytes.
Proof.
  unfold body_bytes, built_bytes, prefix_bytes, raw_bytes, branch_bytes, regs_bytes, stack_bytes.
  rewrite (supported_unset st SAMPLE_IDENTIFIER), (supported_unset st SAMPLE_ADDR),
    (supported_unset st SAMPLE_STREAM_ID), (supported_unset st SAMPLE_RAW),
    (supported_unset st SAMPLE_BRANCH_STACK) by (done || reflexivity).
  cbn [opt_bytes app c_ip c_tid c_time c_id c_cpu c_period c_ips c_abi c_regs c_stack c_dyn c new_content Z.eqb].
  change (zlen (@nil Z)) with 0. cbn [Z.eqb]. rewrite !app_nil_r, <- !app_assoc. done.
Qed.

(** The size the constructor accumulates. *)
Lemma built_size :
  add_if (has st SAMPLE_STACK_USER) 8 (add_if (has st SAMPLE_REGS_USER) 8
    (add_if (has st SAMPLE_CALLCHAIN) (8 * (zlen ips + 1)) (add_if (has st SAMPLE_PERIOD) 8
      (add_if (has st SAMPLE_CPU) 8 (add_if (has st SAMPLE_ID) 8 (add_if (has st SAMPLE_TIME) 8
        (add_if (has st SAMPLE_TID) 8 (add_if (has st SAMPLE_IP) 8 header_size)))))))) = size h.
Proof.
  assert (forall b sz n, 0 <= n -> 0 <= sz -> sz + n < 2 ^ 32 -> add_if b n sz = sz + if b then n else 0) as E.
  { intros b sz n Hn Hs Hl. unfold add_if. destruct b; [|lia]. by rewrite u32_small by (unfold_u; lia). }
  assert (forall (b : bool), 0 <= (if b then 8 else 0) <= 8) as B by (intros []; lia).
  pose proof (B (has st SAMPLE_IP)). pose proof (B (has st SAMPLE_TID)). pose proof (B (has st SAMPLE_TIME)).
  pose proof (B (has st SAMPLE_ID)). pose proof (B (has st SAMPLE_CPU)). pose proof (B (has st SAMPLE_PERIOD)).
  pose proof (B (has st SAMPLE_REGS_USER)). pose proof (B (has st SAMPLE_STACK_USER)).
  pose proof (zlen_nonneg ips). cbn [size h]. rewrite built_body in *. unfold built_bytes in *.
  rewrite !zlen_app, !(zlen_opt_bytes _ uint64_t is_u64), (zlen_opt_bytes _ tid_codec tid_ok),
    (zlen_opt_bytes _ cpu_codec cpu_ok) in *. cbn [sizeof uint64_t tid_codec cpu_codec struct_codec pair_codec uint32_t] in *.
  unfold chain_bytes in *. unfold header_size in *.
  change (4 + 4) with 8 in *. change (Z.of_nat 8) with 8 in *.
  rewrite (E (has st SAMPLE_IP)), (E (has st SAMPLE_TID)), (E (has st SAMPLE_TIME)), (E (has st SAMPLE_ID)),
    (E (has st SAMPLE_CPU)), (E (has st SAMPLE_PERIOD)) by lia.
  destruct (has st SAMPLE_CALLCHAIN).
  - rewrite zlen_app, zlen_enc_u64, zlen_enc_array_u64 in *. rewrite (E true), (E (has st SAMPLE_REGS_USER)), (E (has st SAMPLE_STACK_USER)) by lia. lia.
  - change (zlen (@nil Z)) with 0 in *. unfold add_if at 3. rewrite (E (has st SAMPLE_REGS_USER)), (E (has st SAMPLE_STACK_USER)) by lia. lia.
Qed.

(** The chain part of the constructor. *)
Lemma build_chain old pre rest p :
  p = zlen pre -> zlen (chain_bytes st ips) < 2 ^ 32 -> zlen (chain_bytes st ips) <= zlen rest ->
  (if has st SAMPLE_CALLCHAIN then
     '(m, p) ← MoveToBinaryFormat uint64_t (zlen ips) (pre ++ rest) p;
     '(m, p') ← MoveToBinaryFormatN uint64_t ips (zlen ips) m p;
     Ok (m, p, p')
   else Ok (pre ++ rest, old, p)) =
  Ok ((pre ++ chain_bytes st ips) ++ zdrop (zlen (chain_bytes st ips)) rest,
      if has st SAMPLE_CALLCHAIN then zlen pre + 8 else old, zlen (pre ++ chain_bytes st ips)).
Proof.
  intros -> Hl Hr. unfold chain_bytes in *. pose proof (zlen_nonneg ips).
  destruct (has st SAMPLE_CALLCHAIN).
  - autorewrite with zlen in Hr, Hl.
    rewrite (writes_value uint64_t is_u64) by (autorewrite with zlen; lia). cbn [mbind res_bind].
    rewrite (writes_array uint64_t is_u64 ips)
      by (autorewrite with zlen; rewrite ?zlen_zdrop_max; cbn [sizeof uint64_t]; lia). cbn [mbind res_bind].
    autorewrite with zlen. rewrite zdrop_zdrop, <- !app_assoc by lia. by rewrite ?Z.add_assoc.
  - rewrite !app_nil_r. done.
Qed.

Lemma build_runs junk undef :
  exists r, SampleRecord_new junk undef attr id ip pid tid time cpu period ips = Ok r /\
    header (s_rec r) = h /\ bin r = header_bytes h ++ body_bytes st c /\ s_type r = st /\
    s_ip r = ip /\ s_tid r = mkTid pid tid /\ s_time r = time /\ s_id r = id /\ s_period r = period /\
    s_ip_nr r = zlen ips /\ (has st SAMPLE_CALLCHAIN = true -> s_ips r = off_chain st c + 8).
Proof.
  unfold SampleRecord_new. fold st. rewrite Hst. cbn [CHECK Z.eqb mbind res_bind].
  rewrite built_size. pose proof built_body as Eb. unfold built_bytes in Eb.
  pose proof (zlen_nonneg (body_bytes st c)) as Hnn. pose proof (zlen_nonneg ips).
  assert (size h = 8 + zlen (body_bytes st c)) as Hsz by done. unfold header_size in Hfit.
  assert (size h < 2 ^ 16) as Hlt by lia.
  assert (header_ok h) as Hh.
  { unfold header_ok. rewrite Hsz. cbn [type misc h]. unfold_u.
    unfold PERF_RECORD_SAMPLE, PERF_RECORD_MISC_USER, SIMPLE_PERF_RECORD_TYPE_START. lia. }
  assert (zlen (new_char junk (size h)) = size h) as Hnew by (apply zlen_new_char; lia).
  assert (header (SetSize (size h) (SetTypeAndMisc PERF_RECORD_SAMPLE PERF_RECORD_MISC_USER Record_default)) = h) as Hhd.
  { cbn [SetSize header type misc SetTypeAndMisc Record_default]. rewrite u32_small; [done|apply Hh]. }
  rewrite Hhd. set (nb := new_char junk (size h)) in *. rewrite <- (app_nil_l nb). rewrite Eb in Hsz. rewrite !zlen_app in Hsz.
  assert (forall b x, 0 <= zlen (opt_bytes b uint64_t x)) as N1 by (intros; apply zlen_nonneg).
  pose proof (zlen_nonneg (opt_bytes (has st SAMPLE_TID) tid_codec (mkTid pid tid))) as N2.
  pose proof (zlen_nonneg (opt_bytes (has st SAMPLE_CPU) cpu_codec (mkCpu cpu 0))) as N3.
  pose proof (zlen_nonneg (chain_bytes st ips)) as N4.
  pose proof (N1 (has st SAMPLE_IP) ip). pose proof (N1 (has st SAMPLE_TIME) time).
  pose proof (N1 (has st SAMPLE_ID) id). pose proof (N1 (has st SAMPLE_PERIOD) period).
  pose proof (N1 (has st SAMPLE_REGS_USER) 0). pose proof (N1 (has st SAMPLE_STACK_USER) 0).
  step_write (writes_header h Hh).
  step_write (writes_if (has st SAMPLE_IP) uint64_t is_u64 ip).
  step_write (writes_if (has st SAMPLE_TID) tid_codec tid_ok (mkTid pid tid)).
  step_write (writes_if (has st SAMPLE_TIME) uint64_t is_u64 time).
  step_write (writes_if (has st SAMPLE_ID) uint64_t is_u64 id).
  step_write (writes_if (has st SAMPLE_CPU) cpu_codec cpu_ok (mkCpu cpu 0)).
  step_write (writes_if (has st SAMPLE_PERIOD) uint64_t is_u64 period).
  step_write (build_chain (s_ips undef)).
  step_write (writes_if (has st SAMPLE_REGS_USER) uint64_t is_u64 0).
  step_write (writes_if (has st SAMPLE_STACK_USER) uint64_t is_u64 0).
  rewrite CHECK_eq by (rewrite !zlen_app, zlen_header_bytes; change (zlen (@nil Z)) with 0; lia).
  cbn [mbind res_bind]. eexists. split; [done|].
  cbn [s_rec header UpdateBinary bin binary_ s_type s_ip s_tid s_time s_id s_period s_ip_nr s_ips].
  split; [done|]. split.
  { unfold bin. cbn [s_rec binary_ UpdateBinary]. rewrite zdrop_ge by (rewrite zlen_header_bytes; lia).
    rewrite Eb, app_nil_r, app_nil_l, <- !app_assoc. done. }
  split_and!; try done. intros Hb. rewrite Hb. unfold off_chain, prefix_bytes.
  rewrite (supported_unset st SAMPLE_IDENTIFIER), (supported_unset st SAMPLE_ADDR),
    (supported_unset st SAMPLE_STREAM_ID) by (done || reflexivity).
  rewrite !zlen_app, zlen_header_bytes. cbn [opt_bytes]. change (zlen (@nil Z)) with 0.
  unfold header_size. cbn [c_ip c_tid c_time c_id c_cpu c_period c new_content]. lia.
Qed.
End build.

(** The building constructor of [SampleRecord] rejects a sample type with
    a field it cannot write, and otherwise builds the binary layout of the
    given values with no registers and no stack: parsing it back gives a
    faithful view of exactly these values, and the chain of the built object
    reads the given ips. *)
Theorem SampleRecord_new_roundtrip junk undef undef' attr id ip pid tid time cpu period ips :
  let st := attr_sample_type attr in
  let c := new_content id ip pid tid time cpu period ips in
  (Z.land st (Z.lnot supported_mask) <> 0 ->
     SampleRecord_new junk undef attr id ip pid tid time cpu period ips = CheckFailed) /\
  (Z.land st (Z.lnot supported_mask) = 0 -> content_ok attr c ->
   header_size + zlen (body_bytes st c) < 2 ^ 16 ->
   exists r r', SampleRecord_new junk undef attr id ip pid tid time cpu period ips = Ok r /\
     SampleRecord_read undef' attr (bin r) = Ok r' /\
     header (s_rec r') = header (s_rec r) /\ sample_view attr r' c /\
     (has_bit r SAMPLE_CALLCHAIN = true -> get_ips r = Ok ips)).
Proof.
  intros st c. split.
  - intros H. unfold SampleRecord_new. fold st. by rewrite (proj2 (Z.eqb_neq _ _)) by congruence.
  - intros Hst Hok Hfit.
    destruct (build_runs attr id ip pid tid time cpu period ips Hst Hfit junk undef)
      as (r & Hr & Hh & Hb & Ht & _ & _ & _ & _ & _ & Hn & Hp).
    pose proof (zlen_nonneg (body_bytes st c)).
    destruct (sample_read_at undef' attr (header (s_rec r)) c (bin r)) as (r' & Hr' & Hh' & Hb' & Hv).
    + rewrite Hh. unfold header_ok. cbn [type misc size]. fold st c. unfold_u.
      unfold PERF_RECORD_SAMPLE, PERF_RECORD_MISC_USER, SIMPLE_PERF_RECORD_TYPE_START, header_size in *. lia.
    + done.
    + rewrite Hh. done.
    + rewrite Hh, Hb. exists [], []. by rewrite app_nil_r.
    + exists r, r'. split_and!; [done..|]. intros Hc.
      assert (has_bit r' SAMPLE_CALLCHAIN = true) as Hc' by (unfold has_bit in *; by rewrite (sv_type _ _ _ Hv), <- Ht).
      change (Ok ips) with (Ok (c_ips c)). rewrite <- (view_get_ips _ _ _ Hv Hok Hc'). unfold get_ips.
      destruct (sv_chain _ _ _ Hv Hc') as [-> ->]. rewrite Hb', Hn, Hp by (by rewrite <- Ht).
      by rewrite (sv_type _ _ _ Hv).
Qed.

Definition build_attr : perf_event_attr :=
  {| attr_sample_id_all := true;
     attr_sample_type := Z.shiftl 1 SAMPLE_IP + Z.shiftl 1 SAMPLE_TIME + Z.shiftl 1 SAMPLE_CALLCHAIN +
       Z.shiftl 1 SAMPLE_REGS_USER + Z.shiftl 1 SAMPLE_STACK_USER;
     attr_sample_regs_user := 3 |}.

Lemma SampleRecord_new_roundtrip_witness :
  exists r r', SampleRecord_new (fun _ => 9) sample_undef build_attr 1 2 3 4 5 6 7 [8; 9] = Ok r /\
     SampleRecord_read sample_undef build_attr (bin r) = Ok r' /\
     header (s_rec r') = header (s_rec r) /\ sample_view build_attr r' (new_content 1 2 3 4 5 6 7 [8; 9]) /\
     (has_bit r SAMPLE_CALLCHAIN = true -> get_ips r = Ok [8; 9]).
Proof.
  apply (SampleRecord_new_roundtrip (fun _ => 9) sample_undef sample_undef build_attr 1 2 3 4 5 6 7 [8; 9]).
  - vm_compute. reflexivity.
  - concrete_ok.
  - vm_compute. reflexivity.
Defined.
