(* ===== verification/ChainEdit.v ===== *)
(** The call chain of a [SampleRecord] (src/simpleperf/record.cpp): removing
    its kernel part in place ([ExcludeKernelCallChain]), adjusting return
    addresses ([AdjustCallChainGeneratedByKernel]) and reading it
    ([HasUserCallChain], [GetCallChain]). *)
From stdpp Require Import base list numbers strings.
From Stdlib Require Import ZArith Lia.
From S2P Require Import Prelude Utils RecordBase SampleRecord SampleEdit.

(** * One entry of the chain *)

Definition chain_at (r : SampleRecord) (l : list Z) : Prop :=
  bytes_at (bin r) (s_ips r) (enc_array uint64_t l).

Lemma chain_entry m p l x k :
  bytes_at m p (enc_array uint64_t (l ++ x :: k)) -> bytes_at m (p + 8 * zlen l) (enc uint64_t x).
Proof.
  rewrite enc_array_app. intros Hat. apply bytes_at_split in Hat as [_ Hat].
  rewrite zlen_enc_array_u64 in Hat. cbn [enc_array] in Hat. apply bytes_at_split in Hat as [Hat _].
  by replace (p + 8 * zlen l) with (p + zlen l * 8) by lia.
Qed.

Lemma get_ip_at r l x k i :
  chain_at r (l ++ x :: k) -> is_u64 x -> i = zlen l -> get_ip r i = Ok x.
Proof.
  intros Hat Hx ->. unfold get_ip. apply chain_entry in Hat.
  by rewrite (MoveFrom_at uint64_t is_u64 _ _ x).
Qed.

(** An edit that stays within the region of [x] at [lo] keeps what is outside. *)
Lemma placed_trans m m1 m2 lo x y :
  zlen x = zlen y -> placed m m1 lo x -> placed m1 m2 lo y -> placed m m2 lo y.
Proof.
  intros Hl (L1 & B1 & F1) (L2 & B2 & F2). split_and!; [lia|done|].
  intros q d Hat Hd. apply F2; [apply F1; [done|lia]|done].
Qed.

Lemma put_ip_placed r l x k i y :
  chain_at r (l ++ x :: k) -> i = zlen l ->
  exists m, put_ip i y r = Ok (set_bin m r) /\
    placed (bin r) m (s_ips r) (enc_array uint64_t (l ++ y :: k)).
Proof.
  intros Hat ->. destruct (bytes_at_bound _ _ _ Hat) as [Hp Hl].
  rewrite zlen_enc_array_u64, zlen_app, zlen_cons in Hl.
  pose proof (zlen_nonneg l). pose proof (zlen_nonneg k).
  unfold put_ip. destruct (mem_write_placed (bin r) (s_ips r + 8 * zlen l) (enc uint64_t y))
    as (m & -> & (L & B & F)); [lia|rewrite zlen_enc_u64; lia|].
  cbn [mbind res_bind]. exists m. split; [done|]. rewrite zlen_enc_u64 in F.
  unfold chain_at in Hat. rewrite enc_array_app in Hat |- *. cbn [enc_array] in Hat |- *.
  apply bytes_at_split in Hat as [H1 H2]. rewrite zlen_enc_array_u64 in H2.
  apply bytes_at_split in H2 as [_ H2]. rewrite zlen_enc_u64 in H2.
  split_and!; [done| |].
  - apply bytes_at_app; [apply F; [done|rewrite zlen_enc_array_u64; lia]|].
    rewrite zlen_enc_array_u64. apply bytes_at_app.
    + by replace (s_ips r + zlen l * 8) with (s_ips r + 8 * zlen l) by lia.
    + rewrite zlen_enc_u64. apply F; [done|]. lia.
  - intros q d Hd Hq. autorewrite with zlen in Hq. apply F; [done|lia].
Qed.

Lemma set_bin_id r : set_bin (bin r) r = r.
Proof. by destruct r as [[]]. Qed.

(** * The loop of [ExcludeKernelCallChain] *)

Lemma kernel_part_split ips :
  exists rest, ips = kernel_part ips ++ rest /\ Forall (fun x => x <> PERF_CONTEXT_USER) (kernel_part ips) /\
    (rest = [] \/ exists us, rest = PERF_CONTEXT_USER :: us).
Proof.
  induction ips as [|x ips (rest & E & F & H)]; [by exists []; split_and!; [|constructor|left]|].
  cbn [kernel_part]. destruct (Z.eqb_spec x PERF_CONTEXT_USER) as [->|Hne].
  - exists (PERF_CONTEXT_USER :: ips). split_and!; [done|constructor|eauto].
  - exists rest. split; [cbn; congruence|]. split; [by constructor|done].
Qed.

(** The kernel part is overwritten by user markers. *)
Lemma exclude_loop_kernel ks : forall pre rest k r,
  chain_at r (pre ++ ks ++ rest) -> Forall is_u64 ks ->
  Forall (fun x => x <> PERF_CONTEXT_USER) ks ->
  exists m, placed (bin r) m (s_ips r)
      (enc_array uint64_t (pre ++ replicate (length ks) PERF_CONTEXT_USER ++ rest)) /\
    ExcludeKernelCallChain_loop (length ks + k) (zlen pre) r =
    ExcludeKernelCallChain_loop k (zlen pre + zlen ks) (set_bin m r).
Proof.
  induction ks as [|x ks IH]; intros pre rest k r Hat Hu Hne.
  - exists (bin r). split.
    + split_and!; [done|exact Hat|done].
    + by rewrite zlen_nil, Z.add_0_r, set_bin_id.
  - apply Forall_cons in Hu as [Hx Hu]. apply Forall_cons in Hne as [Hnx Hne].
    change (pre ++ (x :: ks) ++ rest) with (pre ++ x :: ks ++ rest) in Hat.
    cbn [length Nat.add ExcludeKernelCallChain_loop].
    rewrite (get_ip_at r pre x (ks ++ rest) (zlen pre)) by done. cbn [mbind res_bind].
    rewrite (proj2 (Z.eqb_neq x PERF_CONTEXT_USER)) by done.
    destruct (put_ip_placed r pre x (ks ++ rest) (zlen pre) PERF_CONTEXT_USER) as (m & -> & P); [done..|].
    cbn [mbind res_bind].
    destruct (IH (pre ++ [PERF_CONTEXT_USER]) rest k (set_bin m r)) as (m' & P' & E); [|done..|].
    { unfold chain_at. rewrite <- (app_assoc pre). apply (proj1 (proj2 P)). }
    rewrite zlen_app, zlen_cons, zlen_nil in E. rewrite Z.add_0_r in E.
    exists m'. split.
    + rewrite <- (app_assoc pre) in P'. eapply placed_trans; [|exact P|exact P'].
      autorewrite with zlen. cbn [app]. autorewrite with zlen. unfold zlen. lia.
    + rewrite E, zlen_cons. by replace (zlen pre + 1 + zlen ks) with (zlen pre + (1 + zlen ks)) by lia.
Qed.

(** The frames behind the first user marker. *)
Definition user_part (ips : list Z) : list Z := drop (S (length (kernel_part ips))) ips.

(** The chain after the edit. *)
Definition excluded_ips (ips : list Z) : list Z :=
  replicate (length (kernel_part ips)) PERF_CONTEXT_USER ++ drop (length (kernel_part ips)) ips.

Lemma kernel_part_length ips : (length (kernel_part ips) <= length ips)%nat.
Proof. induction ips as [|x ips IH]; [done|]. cbn. destruct (x =? _); cbn; lia. Qed.

Lemma zlen_excluded_ips ips : zlen (excluded_ips ips) = zlen ips.
Proof.
  pose proof (kernel_part_length ips). unfold excluded_ips. rewrite zlen_app, zlen_replicate.
  unfold zlen. rewrite length_drop. lia.
Qed.

(** A chain is its kernel part and what follows: nothing, or a marker and frames. *)
Lemma chain_split ips :
  exists ks rest, ips = ks ++ rest /\
    excluded_ips ips = replicate (length ks) PERF_CONTEXT_USER ++ rest /\ user_part ips = drop 1 rest /\
    Forall (fun x => x <> PERF_CONTEXT_USER) ks /\
    (rest = [] \/ exists us, rest = PERF_CONTEXT_USER :: us).
Proof.
  destruct (kernel_part_split ips) as (rest & E & Hne & Hrest).
  exists (kernel_part ips), rest. split; [done|]. unfold excluded_ips, user_part.
  set (ks := kernel_part ips) in *. clearbody ks. subst ips.
  rewrite drop_app_length. split_and!; try done.
  rewrite <- Nat.add_1_r, <- drop_drop, drop_app_length. done.
Qed.

(** The header after the edit. *)
Definition user_misc (misc : Z) : Z :=
  Z.lor (Z.land misc (u16 (Z.lnot PERF_RECORD_MISC_KERNEL))) PERF_RECORD_MISC_USER.
Definition user_header (h : RecordHeader) : RecordHeader :=
  mkHeader (type h) (user_misc (misc h)) (size h).

Lemma is_u16_user_misc m : is_u16 m -> is_u16 (user_misc m).
Proof.
  intros Hm. unfold user_misc. change PERF_RECORD_MISC_USER with 2.
  set (a := Z.land _ _). unfold is_u16 in *.
  assert (0 <= a) as Ha by (apply Z.land_nonneg; left; lia).
  split; [apply Z.lor_nonneg; lia|].
  apply Z.log2_lt_cancel. rewrite Z.log2_lor by lia.
  change (Z.log2 (2 ^ 16)) with 16. apply Z.max_lub_lt; [|done].
  eapply Z.le_lt_trans; [apply Z.log2_land; [lia|by vm_compute]|].
  apply Z.min_lt_iff. right. by vm_compute.
Qed.

(** The misc bits of the header in memory. *)
Lemma misc_placed h m :
  type h < SIMPLE_PERF_RECORD_TYPE_START -> header_ok h -> bytes_at m 0 (header_bytes h) ->
  exists m', mem_write m 4 (enc uint16_t (user_misc (misc h))) = Ok m' /\
    placed m m' 0 (header_bytes (user_header h)).
Proof.
  intros Ht Hok Hat. destruct (bytes_at_bound _ _ _ Hat) as [_ Hl]. rewrite zlen_header_bytes in Hl.
  destruct (mem_write_placed m 4 (enc uint16_t (user_misc (misc h)))) as (m' & Hw & (L & B & F));
    [lia|unfold uint16_t; cbn [enc]; rewrite zlen_le_encode; lia|].
  exists m'. split; [done|]. unfold header_bytes in *. cbn [type misc size user_header].
  rewrite (proj2 (Z.ltb_lt _ _) Ht) in *. unfold perf_event_header, pair_codec in *. cbn [enc] in *.
  assert (forall x, zlen (enc uint16_t x) = 2) as Z2 by (intros; apply zlen_le_encode).
  apply bytes_at_split in Hat as [H1 H2]. cbn [enc fst snd] in *. rewrite zlen_enc_u32 in H2.
  apply bytes_at_split in H2 as [_ H2]. rewrite Z2 in *.
  split_and!; [done| |].
  - apply bytes_at_app; [apply F; [done|rewrite zlen_enc_u32; lia]|].
    rewrite zlen_enc_u32. apply bytes_at_app; [done|]. rewrite Z2. apply F; [done|]. lia.
  - intros q d Hd Hq. apply F; [done|]. rewrite !zlen_app, zlen_enc_u32, !Z2 in Hq. lia.
Qed.

(** * The edited sample *)

Definition excluded_content (c : SampleContent) : SampleContent :=
  mkContent (c_id c) (match user_part (c_ips c) with u :: _ => u | [] => c_ip c end)
    (c_tid c) (c_time c) (c_addr c) (c_stream_id c) (c_cpu c) (c_period c)
    (excluded_ips (c_ips c)) (c_raw c) (c_branch c) (c_abi c) (c_regs c) (c_stack c) (c_dyn c).

Section exclude.
Context (attr : perf_event_attr) (r : SampleRecord) (c : SampleContent).
Let st := s_type r.
Let h := header (s_rec r).
Let us := user_part (c_ips c).
Definition ip_size : Z := if has st SAMPLE_IP then 8 else 0.
Hypothesis Hview : sample_view attr r c.
Hypothesis Hok : content_ok attr c.
Hypothesis Hchain : has st SAMPLE_CALLCHAIN = true.
Hypothesis Htype : type h < SIMPLE_PERF_RECORD_TYPE_START.
(** The eight bytes behind the header, which the function takes for the ip,
    lie before the chain. *)
Hypothesis Hip : has st SAMPLE_IP = true -> header_size + 8 <= off_chain st c.

(** What the edit leaves alone: everything outside the header, the eight bytes
    behind it and the chain. *)
Definition kept_outside (m : bytes) : Prop :=
  forall q d, bytes_at (bin r) q d -> header_size + ip_size <= q ->
    q + zlen d <= s_ips r \/ s_ips r + zlen (c_ips c) * 8 <= q -> bytes_at m q d.

(** At the user marker: the first user frame becomes the ip of the sample. *)
Lemma exclude_user m pre u l k :
  placed (bin r) m (s_ips r) (enc_array uint64_t (pre ++ PERF_CONTEXT_USER :: u :: l)) ->
  is_u64 u -> zlen (c_ips c) = zlen (pre ++ PERF_CONTEXT_USER :: u :: l) ->
  exists m', ExcludeKernelCallChain_loop (S k) (zlen pre) (set_bin m r) =
      Ok (set_bin m' (set_header (user_header h) (set_ip u r)), zlen pre + 1) /\
    bytes_at m' (s_ips r) (enc_array uint64_t (pre ++ PERF_CONTEXT_USER :: u :: l)) /\
    kept_outside m' /\ bytes_at m' 0 (header_bytes (user_header h)) /\
    (has st SAMPLE_IP = true -> bytes_at m' header_size (enc uint64_t u)).
Proof.
  intros P Hu Hlen. destruct (sv_chain _ _ _ Hview Hchain) as [Hnr Hips]. fold st in Hips.
  pose proof P as (L & B & F). rewrite !zlen_app, !zlen_cons in Hlen.
  rewrite zlen_enc_array_u64, !zlen_app, !zlen_cons in F. pose proof (zlen_nonneg l). pose proof (zlen_nonneg pre).
  cbn [ExcludeKernelCallChain_loop].
  rewrite (get_ip_at (set_bin m r) pre PERF_CONTEXT_USER (u :: l) (zlen pre)) by done.
  cbn [mbind res_bind]. rewrite Z.eqb_refl.
  change (s_ip_nr (set_bin m r)) with (s_ip_nr r). rewrite (proj2 (Z.ltb_lt _ _)) by lia.
  rewrite (get_ip_at (set_bin m r) (pre ++ [PERF_CONTEXT_USER]) u l (zlen pre + 1));
    [|unfold chain_at; by rewrite <- app_assoc|done|rewrite zlen_app; done].
  cbn [mbind res_bind].
  change (has_bit (set_ip u (set_bin m r)) SAMPLE_IP) with (has st SAMPLE_IP).
  change (bin (set_ip u (set_bin m r))) with m.
  destruct (bytes_at_split _ _ _ _ (sv_bytes _ _ _ Hview)) as [Hh _]. fold h in Hh.
  destruct (bytes_at_bound _ _ _ B) as [_ Hb]. rewrite zlen_enc_array_u64, !zlen_app, !zlen_cons in Hb.
  assert (8 <= off_chain st c) by (unfold off_chain, header_size; pose proof (zlen_nonneg (prefix_bytes st c)); lia).
  assert (bytes_at m 0 (header_bytes h)) as Hhm by (apply F; [done|rewrite zlen_header_bytes; lia]).
  assert (exists m1, (if has st SAMPLE_IP
      then m1 ← mem_write m header_size (enc uint64_t u); Ok (set_bin m1 (set_ip u (set_bin m r)))
      else Ok (set_ip u (set_bin m r))) = Ok (set_bin m1 (set_ip u r)) /\
    (has st SAMPLE_IP = true -> bytes_at m1 header_size (enc uint64_t u)) /\
    forall q d, bytes_at m q d -> q + zlen d <= header_size \/ header_size + ip_size <= q -> bytes_at m1 q d)
    as (m1 & -> & Hi & F1).
  { unfold ip_size. destruct (has st SAMPLE_IP) eqn:Hbit.
    - destruct (mem_write_placed m header_size (enc uint64_t u)) as (m1 & -> & (L1 & B1 & F1));
        [done|rewrite zlen_enc_u64; specialize (Hip eq_refl); lia|].
      exists m1. rewrite zlen_enc_u64 in F1. done.
    - exists m. done. }
  cbn [mbind res_bind]. change (header (s_rec (set_bin m1 (set_ip u r)))) with h.
  fold (user_misc (misc h)). fold (user_header h).
  change (bin (set_header (user_header h) (set_bin m1 (set_ip u r)))) with m1.
  destruct (misc_placed h m1 Htype (sv_header _ _ _ Hview)) as (m2 & -> & (L2 & B2 & F2));
    [apply F1; [done|left; by rewrite zlen_header_bytes]|].
  cbn [mbind res_bind]. rewrite zlen_header_bytes in F2. change header_size with 8 in *.
  assert (ip_size <= 8 /\ 8 + ip_size <= off_chain st c) as [? ?]
    by (unfold ip_size; destruct (has st SAMPLE_IP); [specialize (Hip eq_refl); lia|lia]).
  exists m2. split_and!; [done| | |done|].
  - apply F2; [apply F1; [done|]|]; lia.
  - intros q d Hq Hlo Hd. change header_size with 8 in Hlo. apply F2; [apply F1; [apply F; [done|lia]|lia]|].
    assert (0 <= ip_size) by (unfold ip_size; destruct (has st SAMPLE_IP); lia). lia.
  - intros Hbit. apply F2; [auto|]. lia.
Qed.

Lemma exclude_runs :
  exists m r', ExcludeKernelCallChain r = Ok (r', zlen us) /\
    bytes_at m (s_ips r) (enc_array uint64_t (excluded_ips (c_ips c))) /\ kept_outside m /\
    match us with
    | [] => r' = set_bin m r /\ placed (bin r) m (s_ips r) (enc_array uint64_t (excluded_ips (c_ips c)))
    | u :: _ => r' = set_bin m (set_header (user_header h) (set_ip u r)) /\
        bytes_at m 0 (header_bytes (user_header h)) /\
        (has st SAMPLE_IP = true -> bytes_at m header_size (enc uint64_t u))
    end.
Proof.
  destruct (sv_chain _ _ _ Hview Hchain) as [Hnr Hips]. fold st in Hips.
  pose proof (view_part_chain _ _ _ Hview Hchain) as Hat. fold st in Hat. rewrite <- Hips in Hat.
  destruct Hok as (_ & _ & _ & _ & _ & _ & _ & _ & [Hu _] & _).
  destruct (chain_split (c_ips c)) as (ks & rest & E & Ex & Eu & Hne & Hrest).
  fold us in Eu. rewrite E in Hu. apply Forall_app in Hu as [Huk Hur].
  assert (Z.to_nat (s_ip_nr r) = length ks + length rest)%nat as Hfuel
    by (rewrite Hnr, E; unfold zlen; by rewrite Nat2Z.id, length_app).
  assert (s_ip_nr r = zlen ks + zlen rest) as Hlen by (by rewrite Hnr, E, zlen_app).
  unfold ExcludeKernelCallChain, has_bit. fold st. rewrite Hchain, Hfuel. rewrite E in Hat.
  destruct (exclude_loop_kernel ks [] rest (length rest) r) as (m & P & Hl); [done..|].
  change (zlen []) with 0 in Hl. rewrite Hl, Z.add_0_l. clear Hl. cbn [app] in P. rewrite <- Ex in P.
  assert (kept_outside m) as Hk.
  { intros q d Hq Hlo Hd. apply P; [done|]. by rewrite zlen_enc_array_u64, zlen_excluded_ips. }
  rewrite Eu. destruct Hrest as [->|[[|u us'] ->]]; cbn [drop].
  - exists m, (set_bin m r). split; [|exact (conj (proj1 (proj2 P)) (conj Hk (conj eq_refl P)))].
    cbn [length ExcludeKernelCallChain_loop mbind res_bind].
    change (s_ip_nr (set_bin m r)) with (s_ip_nr r). rewrite zlen_nil in *. do 2 f_equal. lia.
  - exists m, (set_bin m r). split; [|exact (conj (proj1 (proj2 P)) (conj Hk (conj eq_refl P)))].
    rewrite zlen_cons, zlen_nil in *. cbn [length ExcludeKernelCallChain_loop mbind res_bind].
    rewrite (get_ip_at (set_bin m r) (replicate (length ks) PERF_CONTEXT_USER) PERF_CONTEXT_USER []
      (zlen ks)); [|unfold chain_at; rewrite <- Ex; apply (proj1 (proj2 P))|done|by rewrite zlen_replicate].
    cbn [mbind res_bind]. rewrite Z.eqb_refl.
    change (s_ip_nr (set_bin m r)) with (s_ip_nr r). rewrite (proj2 (Z.ltb_ge _ _)) by lia.
    cbn [mbind res_bind]. change (s_ip_nr (set_bin m r)) with (s_ip_nr r).
    do 2 f_equal. lia.
  - apply Forall_cons in Hur as [_ Hur]. apply Forall_cons in Hur as [Hu _].
    rewrite Ex in P. cbn [length].
    destruct (exclude_user m (replicate (length ks) PERF_CONTEXT_USER) u us' (S (length us')))
      as (m' & Hl & B & Hk' & Hrest); [done..| |].
    { rewrite E, !zlen_app, zlen_replicate. done. }
    rewrite zlen_replicate in Hl. fold (zlen ks) in Hl. rewrite Hl. cbn [mbind res_bind].
    exists m', (set_bin m' (set_header (user_header h) (set_ip u r))).
    change (s_ip_nr (set_bin m' (set_header (user_header h) (set_ip u r)))) with (s_ip_nr r).
    rewrite Ex. split; [|done]. rewrite !zlen_cons in *. do 2 f_equal. lia.
Qed.

(** The prefix behind the ip. *)
Definition after_ip : bytes :=
  opt_bytes (has st SAMPLE_TID) tid_codec (c_tid c) ++
  opt_bytes (has st SAMPLE_TIME) uint64_t (c_time c) ++
  opt_bytes (has st SAMPLE_ADDR) uint64_t (c_addr c) ++
  opt_bytes (has st SAMPLE_ID) uint64_t (c_id c) ++
  opt_bytes (has st SAMPLE_STREAM_ID) uint64_t (c_stream_id c) ++
  opt_bytes (has st SAMPLE_CPU) cpu_codec (c_cpu c) ++
  opt_bytes (has st SAMPLE_PERIOD) uint64_t (c_period c).
Definition after_chain : bytes :=
  raw_bytes st (c_raw c) ++ branch_bytes st (c_branch c) ++ regs_bytes st (c_abi c) (c_regs c) ++
  stack_bytes st (c_stack c) (c_dyn c).

(** Bodies of samples that agree with [c] but for the ip and the chain. *)
Lemma body_parts x l :
  body_bytes st (mkContent (c_id c) x (c_tid c) (c_time c) (c_addr c) (c_stream_id c) (c_cpu c)
    (c_period c) l (c_raw c) (c_branch c) (c_abi c) (c_regs c) (c_stack c) (c_dyn c)) =
  opt_bytes (has st SAMPLE_IDENTIFIER) uint64_t (c_id c) ++ opt_bytes (has st SAMPLE_IP) uint64_t x ++
  after_ip ++ enc uint64_t (zlen l) ++ enc_array uint64_t l ++ after_chain.
Proof.
  unfold body_bytes, prefix_bytes, chain_bytes, after_ip, after_chain.
  cbn [c_id c_ip c_tid c_time c_addr c_stream_id c_cpu c_period c_ips c_raw c_branch c_abi c_regs c_stack c_dyn].
  rewrite Hchain, <- !app_assoc. done.
Qed.

(** Memory that holds the new header, ip and chain and the old rest has the
    layout of the edited sample. *)
Lemma edited_layout m h' x :
  has st SAMPLE_IDENTIFIER = false ->
  bytes_at m 0 (header_bytes h') -> bytes_at m (s_ips r) (enc_array uint64_t (excluded_ips (c_ips c))) ->
  (has st SAMPLE_IP = true -> bytes_at m header_size (enc uint64_t x)) -> kept_outside m ->
  bytes_at m 0 (header_bytes h' ++ body_bytes st
    (mkContent (c_id c) x (c_tid c) (c_time c) (c_addr c) (c_stream_id c) (c_cpu c)
      (c_period c) (excluded_ips (c_ips c)) (c_raw c) (c_branch c) (c_abi c) (c_regs c) (c_stack c) (c_dyn c))).
Proof.
  intros Hid Hh Hc Hx Hk. rewrite body_parts, Hid. cbn [opt_bytes app].
  pose proof (sv_bytes _ _ _ Hview) as Hat. apply bytes_at_split in Hat as [_ Hat].
  fold st in Hat. rewrite zlen_header_bytes in Hat. change (0 + 8) with header_size in Hat.
  destruct (sv_chain _ _ _ Hview Hchain) as [_ Hips]. fold st in Hips.
  assert (c = mkContent (c_id c) (c_ip c) (c_tid c) (c_time c) (c_addr c) (c_stream_id c) (c_cpu c)
    (c_period c) (c_ips c) (c_raw c) (c_branch c) (c_abi c) (c_regs c) (c_stack c) (c_dyn c)) as Ec by (by destruct c).
  rewrite Ec in Hat at 1. rewrite body_parts, Hid in Hat. cbn [opt_bytes app] in Hat.
  assert (forall y, zlen (opt_bytes (has st SAMPLE_IP) uint64_t y) = ip_size) as Zi
    by (intros y; unfold ip_size; by rewrite (zlen_opt_bytes _ _ is_u64)).
  assert (off_chain st c = header_size + ip_size + zlen after_ip) as Hoc.
  { unfold off_chain, prefix_bytes. rewrite Hid, (zlen_app (opt_bytes false _ _)), zlen_app, Zi.
    unfold after_ip. cbn [opt_bytes]. rewrite zlen_nil. lia. }
  apply bytes_at_split in Hat as [_ Hat]. rewrite Zi in Hat.
  apply bytes_at_split in Hat as [H1 Hat].
  apply bytes_at_split in Hat as [H2 Hat]. rewrite zlen_enc_u64 in Hat.
  apply bytes_at_split in Hat as [_ H3]. rewrite zlen_enc_array_u64 in H3.
  pose proof (zlen_nonneg (c_ips c)). pose proof (zlen_nonneg after_ip).
  apply bytes_at_app; [done|]. rewrite zlen_header_bytes. change (0 + 8) with header_size.
  apply bytes_at_app.
  { unfold opt_bytes. destruct (has st SAMPLE_IP); [auto|]. apply bytes_at_znth.
    destruct (bytes_at_bound _ _ _ Hh) as [_ Hb]. rewrite zlen_header_bytes in Hb.
    change (zlen (@nil Z)) with 0. unfold header_size. split_and!; [lia|lia|]. intros i Hi. lia. }
  rewrite Zi. apply bytes_at_app; [apply Hk; [done|lia..]|].
  rewrite zlen_excluded_ips. apply bytes_at_app; [apply Hk; [done|lia|rewrite zlen_enc_u64; lia]|].
  rewrite zlen_enc_u64. apply bytes_at_app.
  { by replace (header_size + ip_size + zlen after_ip + 8) with (s_ips r) by lia. }
  rewrite zlen_enc_array_u64, zlen_excluded_ips. apply Hk; [done|lia..].
Qed.
End exclude.

Lemma zlen_prefix_excluded st c : zlen (prefix_bytes st (excluded_content c)) = zlen (prefix_bytes st c).
Proof.
  unfold prefix_bytes. rewrite !zlen_app.
  assert (forall y, zlen (opt_bytes (has st SAMPLE_IP) uint64_t y) = if has st SAMPLE_IP then 8 else 0) as E
    by (intros; by rewrite (zlen_opt_bytes _ _ is_u64)).
  rewrite !E. done.
Qed.

Lemma zlen_chain_bytes st l : zlen (chain_bytes st l) = if has st SAMPLE_CALLCHAIN then 8 + zlen l * 8 else 0.
Proof. unfold chain_bytes. destruct (has st SAMPLE_CALLCHAIN); autorewrite with zlen; lia. Qed.

(** The edit moves nothing. *)
Lemma excluded_offsets st c :
  off_chain st (excluded_content c) = off_chain st c /\ off_raw st (excluded_content c) = off_raw st c /\
  off_branch st (excluded_content c) = off_branch st c /\ off_regs st (excluded_content c) = off_regs st c /\
  off_stack st (excluded_content c) = off_stack st c.
Proof.
  unfold off_stack, off_regs, off_branch, off_raw, off_chain.
  rewrite zlen_prefix_excluded. cbn [c_ips c_raw c_branch c_abi c_regs excluded_content].
  rewrite !zlen_chain_bytes, zlen_excluded_ips. done.
Qed.

Lemma prefix_has_ip st c : has st SAMPLE_IP = true -> header_size + 8 <= off_chain st c.
Proof.
  intros Hb. unfold off_chain, prefix_bytes. rewrite !zlen_app, Hb. cbn [opt_bytes].
  rewrite zlen_enc_u64.
  repeat match goal with |- context [zlen (opt_bytes ?a ?b ?d)] =>
    lazymatch goal with H : 0 <= zlen (opt_bytes a b d) |- _ => fail | _ => pose proof (zlen_nonneg (opt_bytes a b d)) end
  end. lia.
Qed.

(** An object whose members, but for the ip, are those of [r] is a view of the
    edited content if its binary has that layout. *)
Lemma excluded_view attr r c m h' x :
  sample_view attr r c -> header_ok h' ->
  (has_bit r SAMPLE_IP = true -> x = c_ip (excluded_content c)) ->
  bytes_at m 0 (header_bytes h' ++ body_bytes (s_type r) (excluded_content c)) ->
  sample_view attr (set_bin m (set_header h' (set_ip x r))) (excluded_content c).
Proof.
  intros [] Hh Hx Hat. destruct (excluded_offsets (s_type r) c) as (E1 & E2 & E3 & E4 & E5).
  split; try done; intros Hb;
    cbn [set_bin set_header set_ip set_rec s_type s_ip_nr s_ips s_raw_size s_raw_data s_branch_nr s_branch
         s_abi s_reg_mask s_reg_nr s_regs s_stack_size s_stack_data s_dyn_size];
    rewrite ?E1, ?E2, ?E3, ?E4, ?E5; auto.
  cbn [excluded_content c_ips]. rewrite zlen_excluded_ips. auto.
Qed.

(** Without an identifier in the sample, [ExcludeKernelCallChain] returns
    the number of user frames and leaves the same sample with every kernel
    entry of the chain replaced by a user marker and with the first user frame,
    if there is one, as its ip; the header then says user mode. *)
Theorem ExcludeKernelCallChain_user_only attr r c :
  sample_view attr r c -> content_ok attr c -> has_bit r SAMPLE_CALLCHAIN = true ->
  has_bit r SAMPLE_IDENTIFIER = false -> type (header (s_rec r)) < SIMPLE_PERF_RECORD_TYPE_START ->
  exists r', ExcludeKernelCallChain r = Ok (r', zlen (user_part (c_ips c))) /\
    sample_view attr r' (excluded_content c) /\
    header (s_rec r') = match user_part (c_ips c) with
                        | [] => header (s_rec r)
                        | _ => user_header (header (s_rec r))
                        end.
Proof.
  intros Hv Hok Hc Hid Hty.
  destruct (exclude_runs attr r c Hv Hok Hc Hty (prefix_has_ip (s_type r) c)) as (m & r' & Hr & B & Hk & Hus).
  exists r'. split; [done|].
  pose proof (sv_header _ _ _ Hv) as Hh. pose proof (excluded_view attr r c m) as HV.
  pose proof (edited_layout attr r c Hv Hok Hc (prefix_has_ip (s_type r) c) m) as HL.
  unfold excluded_content in *. destruct (user_part (c_ips c)) as [|u us] eqn:Eu.
  - destruct Hus as [-> P]. split; [|done].
    replace (set_bin m r) with (set_bin m (set_header (header (s_rec r)) (set_ip (s_ip r) r)))
      by (by destruct r as [[]]).
    apply HV; [done|done|apply (sv_ip _ _ _ Hv)|]. apply HL; [done| |done| |done].
    all: destruct (sv_chain _ _ _ Hv Hc) as [_ Hips].
    + destruct (bytes_at_split _ _ _ _ (sv_bytes _ _ _ Hv)) as [Hat _]. apply P; [done|].
      rewrite zlen_header_bytes, Hips. unfold off_chain, header_size.
      pose proof (zlen_nonneg (prefix_bytes (s_type r) c)). lia.
    + intros Hb. apply P; [|rewrite zlen_enc_u64, Hips; pose proof (prefix_has_ip _ c Hb); lia].
      pose proof (sv_bytes _ _ _ Hv) as Hat. apply bytes_at_split in Hat as [_ Hat].
      unfold body_bytes, prefix_bytes in Hat. unfold has_bit in Hid. rewrite Hid, Hb, <- !app_assoc in Hat.
      cbn [opt_bytes app] in Hat. by apply bytes_at_split in Hat as [Hat _].
  - destruct Hus as (-> & Hhd & Hip). split; [|done].
    apply HV; [done| |done|by apply HL].
    destruct Hh as (H1 & H2 & H3 & H4 & H5). split_and!; try done; cbn [type size misc user_header].
    + by apply is_u16_user_misc.
    + intros. lia.
Qed.

(** The sample of the instances with user frames behind the kernel ones. *)
Definition sample_mixed_content : SampleContent :=
  replaced_content [500; 501] sample_content.

Lemma sample_mixed_ok : content_ok sample_attr sample_mixed_content.
Proof. concrete_ok. Qed.

Lemma ExcludeKernelCallChain_user_only_witness :
  exists r', ExcludeKernelCallChain (sample_object sample_mixed_content) = Ok (r', 2) /\
    sample_view sample_attr r' (excluded_content sample_mixed_content) /\
    header (s_rec r') = user_header (header (s_rec (sample_object sample_mixed_content))).
Proof.
  destruct (object_for_view sample_attr sample_mixed_content) as [Hv _]; [concrete_ok|exact sample_mixed_ok|].
  apply (ExcludeKernelCallChain_user_only sample_attr (sample_object sample_mixed_content)
    sample_mixed_content Hv sample_mixed_ok); vm_compute; reflexivity.
Defined.

(** When the sample also selects the identifier, which comes first in the
    binary, [ExcludeKernelCallChain] writes the new ip over the identifier and
    leaves the old ip in the binary, so object and binary disagree. *)
Theorem ExcludeKernelCallChain_identifier attr r c u us :
  sample_view attr r c -> content_ok attr c -> has_bit r SAMPLE_CALLCHAIN = true ->
  has_bit r SAMPLE_IDENTIFIER = true -> has_bit r SAMPLE_IP = true ->
  type (header (s_rec r)) < SIMPLE_PERF_RECORD_TYPE_START ->
  user_part (c_ips c) = u :: us ->
  mem_read (bin r) header_size 8 = Ok (enc uint64_t (c_id c)) /\
  exists r', ExcludeKernelCallChain r = Ok (r', zlen (u :: us)) /\ s_ip r' = u /\ s_id r' = c_id c /\
    mem_read (bin r') header_size 8 = Ok (enc uint64_t u) /\
    mem_read (bin r') (header_size + 8) 8 = Ok (enc uint64_t (c_ip c)).
Proof.
  intros Hv Hok Hc Hid Hb Hty Eu.
  destruct (exclude_runs attr r c Hv Hok Hc Hty (prefix_has_ip (s_type r) c)) as (m & r' & Hr & B & Hk & Hus).
  rewrite Eu in Hr, Hus. destruct Hus as (-> & _ & Hip).
  pose proof (sv_bytes _ _ _ Hv) as Hat. apply bytes_at_split in Hat as [_ Hat].
  rewrite zlen_header_bytes in Hat. change (0 + 8) with header_size in Hat.
  unfold body_bytes in Hat. apply bytes_at_split in Hat as [Hat _]. unfold prefix_bytes in Hat.
  pose proof Hid as Hid'. pose proof Hb as Hb'. unfold has_bit in Hid, Hb. rewrite Hid, Hb in Hat.
  cbn [opt_bytes] in Hat. apply bytes_at_split in Hat as [H1 Hat]. rewrite zlen_enc_u64 in Hat.
  apply bytes_at_split in Hat as [H2 _].
  split; [by apply bytes_at_read; rewrite ?zlen_enc_u64|].
  eexists. split; [done|]. split_and!; [done| | |].
  - change (s_id r = c_id c). by rewrite (sv_id _ _ _ Hv), Hid'.
  - apply bytes_at_read; [auto|by rewrite zlen_enc_u64].
  - apply bytes_at_read; [|by rewrite zlen_enc_u64]. apply Hk; [done| |].
    + unfold ip_size. rewrite Hb. lia.
    + left. rewrite zlen_enc_u64. destruct (sv_chain _ _ _ Hv Hc) as [_ ->].
      unfold off_chain, prefix_bytes. rewrite !zlen_app, Hid, Hb. cbn [opt_bytes]. rewrite !zlen_enc_u64.
      repeat match goal with |- context [zlen (opt_bytes ?a ?b ?d)] =>
        lazymatch goal with H : 0 <= zlen (opt_bytes a b d) |- _ => fail | _ => pose proof (zlen_nonneg (opt_bytes a b d)) end
      end. lia.
Qed.

Definition identifier_attr : perf_event_attr :=
  {| attr_sample_id_all := true;
     attr_sample_type := Z.shiftl 1 SAMPLE_IP + Z.shiftl 1 SAMPLE_CALLCHAIN + Z.shiftl 1 SAMPLE_IDENTIFIER;
     attr_sample_regs_user := 0 |}.
Definition identifier_content : SampleContent :=
  mkContent 77 4096 (mkTid 0 0) 0 0 0 (mkCpu 0 0) 0
    [PERF_CONTEXT_KERNEL; 4096; PERF_CONTEXT_USER; 500; 501] [] [] 0 [] [] 0.

Lemma ExcludeKernelCallChain_identifier_witness :
  exists r', ExcludeKernelCallChain (object_for identifier_attr identifier_content) = Ok (r', 2) /\
    s_ip r' = 500 /\ s_id r' = 77 /\
    mem_read (bin r') header_size 8 = Ok (enc uint64_t 500) /\
    mem_read (bin r') (header_size + 8) 8 = Ok (enc uint64_t 4096).
Proof.
  assert (content_ok identifier_attr identifier_content) as Hok by concrete_ok.
  destruct (object_for_view identifier_attr identifier_content) as [Hv _]; [concrete_ok|exact Hok|].
  destruct (ExcludeKernelCallChain_identifier identifier_attr (object_for identifier_attr identifier_content)
    identifier_content 500 [501] Hv Hok) as [_ H]; [vm_compute; reflexivity..|exact H].
Defined.

(** * Reading the call chain *)

(** The frames of a chain: its entries that are no context markers. *)
Definition frames (chain : list Z) : list Z := filter (fun ip => ip < PERF_CONTEXT_MAX) chain.

(** The first frame is dropped when it repeats the ip of the sample. *)
Definition drop_ip (ip : Z) (l : list Z) : list Z :=
  match l with
  | x :: l' => if x =? ip then l' else l
  | [] => []
  end.
Definition drop_if_first (first : bool) (ip : Z) (l : list Z) : list Z :=
  if first then drop_ip ip l else l.

Lemma frames_cons ip l :
  frames (ip :: l) = if PERF_CONTEXT_MAX <=? ip then frames l else ip :: frames l.
Proof.
  unfold frames. destruct (Z.leb_spec PERF_CONTEXT_MAX ip).
  - apply filter_cons_False. lia.
  - apply filter_cons_True. lia.
Qed.

(** In user mode a kernel marker is a failed check; all frames are kept. *)
Lemma callchain_loop_user ip chain : forall first acc n,
  GetCallChain_loop ip chain false first acc n =
  if existsb (Z.eqb PERF_CONTEXT_KERNEL) chain then CheckFailed
  else Ok (acc ++ drop_if_first first ip (frames chain), n).
Proof.
  induction chain as [|x chain IH]; intros first acc n.
  { cbn. by destruct first; rewrite app_nil_r. }
  cbn [GetCallChain_loop existsb]. rewrite frames_cons, (Z.eqb_sym PERF_CONTEXT_KERNEL).
  destruct (Z.leb_spec PERF_CONTEXT_MAX x).
  - destruct (x =? PERF_CONTEXT_KERNEL); [done|]. cbn [orb].
    rewrite <- IH. by destruct (x =? PERF_CONTEXT_USER).
  - rewrite (proj2 (Z.eqb_neq x PERF_CONTEXT_KERNEL)) by (intros ->; done). cbn [orb].
    rewrite !IH. destruct first; cbn [andb drop_if_first drop_ip]; [destruct (x =? ip)|];
      by rewrite <- ?app_assoc.
Qed.

(** In kernel mode the frames up to the user marker are kept and counted. *)
Lemma callchain_loop_kernel ip ks rest : forall first acc n,
  Forall (fun x => x <> PERF_CONTEXT_USER) ks ->
  let kept := drop_if_first first ip (frames ks) in
  GetCallChain_loop ip (ks ++ PERF_CONTEXT_USER :: rest) true first acc n =
    GetCallChain_loop ip rest false (first && bool_decide (frames ks = [])) (acc ++ kept) (n + zlen kept) /\
  GetCallChain_loop ip ks true first acc n = Ok (acc ++ kept, n + zlen kept).
Proof.
  induction ks as [|x ks IH]; intros first acc n Hne.
  { cbn. destruct first; cbn; rewrite app_nil_r, Z.add_0_r; done. }
  apply Forall_cons in Hne as [Hx Hne]. cbn [app GetCallChain_loop].
  rewrite frames_cons. destruct (Z.leb_spec PERF_CONTEXT_MAX x).
  - cbn [CHECK mbind res_bind]. rewrite (proj2 (Z.eqb_neq x PERF_CONTEXT_USER)) by done.
    destruct (x =? PERF_CONTEXT_KERNEL); apply (IH first acc n Hne).
  - destruct (IH false acc n Hne) as [I1 I2]. destruct (IH false (acc ++ [x]) (n + 1) Hne) as [J1 J2].
    cbn [drop_if_first] in *.
    destruct first; cbn [andb drop_if_first drop_ip]; [destruct (Z.eqb_spec x ip)|].
    + rewrite I1, I2. done.
    + rewrite J1, J2, <- !app_assoc, zlen_cons, Z.add_assoc. done.
    + rewrite J1, J2, <- !app_assoc, zlen_cons, Z.add_assoc. done.
Qed.

(** [GetCallChain] returns the ip of the sample followed by the frames of
    the chain, the first of them left out when it is that ip again, and the
    number of leading entries that are kernel frames: for a sample taken in the
    kernel, the ip and the frames before the first user marker.  A kernel
    marker behind the user marker, or in a user sample, is a failed check. *)
Theorem GetCallChain_frames attr r c :
  sample_view attr r c -> content_ok attr c -> has_bit r SAMPLE_CALLCHAIN = true ->
  let ip := s_ip r in
  let ks := if InKernel (s_rec r) then kernel_part (c_ips c) else [] in
  let us := if InKernel (s_rec r) then user_part (c_ips c) else c_ips c in
  let kernel_ips := drop_ip ip (frames ks) in
  let user_ips := if bool_decide (frames ks = []) then drop_ip ip (frames us) else frames us in
  GetCallChain r =
    if existsb (Z.eqb PERF_CONTEXT_KERNEL) us then CheckFailed
    else Ok (ip :: kernel_ips ++ user_ips,
             if InKernel (s_rec r) then zlen (ip :: kernel_ips) else 0).
Proof.
  intros Hv Hok Hc ip ks us kernel_ips user_ips. unfold GetCallChain. rewrite Hc. cbn [negb].
  rewrite (view_get_ips attr r c) by done. cbn [mbind res_bind].
  subst ks us kernel_ips user_ips. fold ip. destruct (InKernel (s_rec r)).
  - destruct (kernel_part_split (c_ips c)) as (rest & E & Hne & Hrest). unfold user_part.
    set (ks := kernel_part (c_ips c)) in *. clearbody ks. rewrite E.
    rewrite <- Nat.add_1_r, <- drop_drop, drop_app_length, zlen_cons.
    destruct (callchain_loop_kernel ip ks (drop 1 rest) true [ip] 1 Hne) as [L1 L2].
    destruct Hrest as [->|[us ->]]; cbn [drop] in *; rewrite ?drop_0 in *.
    + rewrite app_nil_r, L2. cbn [existsb drop_if_first]. unfold frames at 4 5. cbn.
      by destruct (bool_decide _); rewrite app_nil_r.
    + rewrite L1, callchain_loop_user. cbn [drop_if_first andb].
      destruct (existsb _ _); [done|]. unfold drop_if_first. cbn [app].
      by destruct (bool_decide _).
  - rewrite callchain_loop_user. destruct (existsb _ _); [done|]. done.
Qed.

Lemma GetCallChain_frames_witness :
  GetCallChain (sample_object sample_mixed_content) = Ok ([4096; 4100; 500; 501], 2).
Proof.
  destruct (object_for_view sample_attr sample_mixed_content) as [Hv _]; [concrete_ok|exact sample_mixed_ok|].
  rewrite (GetCallChain_frames sample_attr (sample_object sample_mixed_content) sample_mixed_content Hv
    sample_mixed_ok); vm_compute; reflexivity.
Defined.

Lemma has_user_loop_user l : HasUserCallChain_loop true l = negb (bool_decide (frames l = [])).
Proof.
  induction l as [|x l IH]; [done|]. cbn [HasUserCallChain_loop andb]. rewrite frames_cons.
  destruct (Z.ltb_spec x PERF_CONTEXT_MAX), (Z.leb_spec PERF_CONTEXT_MAX x); try lia; [done|].
  rewrite <- IH. by destruct (x =? PERF_CONTEXT_USER).
Qed.

Lemma has_user_loop_kernel l : HasUserCallChain_loop false l = negb (bool_decide (frames (user_part l) = [])).
Proof.
  induction l as [|x l IH]; [done|]. unfold user_part in *. cbn [HasUserCallChain_loop andb kernel_part].
  destruct (Z.eqb_spec x PERF_CONTEXT_USER); cbn [length drop]; [|done].
  rewrite drop_0. apply has_user_loop_user.
Qed.

(** The chain after [AdjustCallChainGeneratedByKernel]: every frame but the
    first is moved back by [step]. *)
Fixpoint adjusted (step : Z) (first : bool) (l : list Z) : list Z :=
  match l with
  | [] => []
  | ip :: l =>
      if (0 <? ip) && (ip <? PERF_CONTEXT_MAX) then
        (if first then ip else ip -u64 step) :: adjusted step false l
      else ip :: adjusted step first l
  end.

Lemma zlen_adjusted step l : forall first, zlen (adjusted step first l) = zlen l.
Proof.
  induction l as [|x l IH]; intros first; [done|]. cbn [adjusted].
  destruct (_ && _); by rewrite !zlen_cons, IH.
Qed.

Lemma adjust_loop step l : forall pre first r,
  chain_at r (pre ++ l) -> Forall is_u64 l ->
  exists m, AdjustCallChain_loop step (length l) (zlen pre) first r = Ok (set_bin m r) /\
    placed (bin r) m (s_ips r) (enc_array uint64_t (pre ++ adjusted step first l)).
Proof.
  induction l as [|x l IH]; intros pre first r Hat Hu.
  { exists (bin r). cbn [length AdjustCallChain_loop adjusted]. rewrite set_bin_id.
    exact (conj eq_refl (conj eq_refl (conj Hat (fun q d H _ => H)))). }
  apply Forall_cons in Hu as [Hx Hu]. cbn [length AdjustCallChain_loop adjusted].
  rewrite (get_ip_at r pre x l (zlen pre)) by done. cbn [mbind res_bind].
  assert (forall first', exists m, AdjustCallChain_loop step (length l) (zlen pre + 1) first' r = Ok (set_bin m r) /\
    placed (bin r) m (s_ips r) (enc_array uint64_t (pre ++ x :: adjusted step first' l))) as Hskip.
  { intros first'. destruct (IH (pre ++ [x]) first' r) as (m & E & P); [by unfold chain_at; rewrite <- app_assoc|done|].
    rewrite zlen_app, zlen_cons, zlen_nil, Z.add_0_r in E. rewrite <- app_assoc in P. by exists m. }
  destruct (_ && _); [|apply Hskip]. destruct first; [apply Hskip|].
  destruct (put_ip_placed r pre x l (zlen pre) (x -u64 step)) as (m & -> & P); [done..|].
  cbn [mbind res_bind].
  destruct (IH (pre ++ [x -u64 step]) false (set_bin m r)) as (m' & E & P').
  { unfold chain_at. rewrite <- app_assoc. exact (proj1 (proj2 P)). }
  { done. }
  rewrite zlen_app, zlen_cons, zlen_nil, Z.add_0_r in E. rewrite <- app_assoc in P'.
  exists m'. split; [done|]. eapply placed_trans; [|exact P|exact P'].
  rewrite !zlen_enc_array_u64, !zlen_app. cbn [app]. by rewrite !zlen_cons, zlen_adjusted.
Qed.

Lemma adjusted_ok step l : forall first, Forall is_u64 l -> Forall is_u64 (adjusted step first l).
Proof.
  induction l as [|x l IH]; intros first H; [done|]. apply Forall_cons in H as [Hx Hl].
  cbn [adjusted]. destruct (_ && _), first; constructor; auto with u64.
Qed.

(** [HasUserCallChain] tells whether a frame follows the user marker (in a
    kernel sample) or the chain has a frame at all (in a user sample), and
    [AdjustCallChainGeneratedByKernel] moves every frame but the first back
    into the calling instruction, in place, and touches nothing else. *)
Theorem HasUser_and_Adjust attr r c step :
  sample_view attr r c -> content_ok attr c -> has_bit r SAMPLE_CALLCHAIN = true ->
  HasUserCallChain r = Ok (negb (bool_decide
    (frames (if InKernel (s_rec r) then user_part (c_ips c) else c_ips c) = []))) /\
  exists r', AdjustCallChainGeneratedByKernel step r = Ok r' /\
    get_ips r' = Ok (adjusted step true (c_ips c)) /\
    placed (bin r) (bin r') (s_ips r) (enc_array uint64_t (adjusted step true (c_ips c))).
Proof.
  intros Hv Hok Hc. pose proof Hok as (_ & _ & _ & _ & _ & _ & _ & _ & [Hu Hl] & _). split.
  - unfold HasUserCallChain. rewrite Hc. cbn [negb]. rewrite (view_get_ips attr r c) by done.
    cbn [mbind res_bind]. f_equal. destruct (InKernel (s_rec r)); cbn [negb];
      [apply has_user_loop_kernel|apply has_user_loop_user].
  - destruct (sv_chain _ _ _ Hv Hc) as [Hnr Hips].
    destruct (adjust_loop step (c_ips c) [] true r) as (m & E & P); [|done|].
    { unfold chain_at. rewrite Hips. by eapply view_part_chain. }
    exists (set_bin m r). unfold AdjustCallChainGeneratedByKernel.
    rewrite Hnr. unfold zlen at 1. rewrite Nat2Z.id. split; [done|]. split; [|exact P].
    unfold get_ips. change (s_ip_nr (set_bin m r)) with (s_ip_nr r).
    change (s_ips (set_bin m r)) with (s_ips r). change (bin (set_bin m r)) with m.
    rewrite (MoveFromN_at uint64_t is_u64 _ _ (adjusted step true (c_ips c))); [done|exact (proj1 (proj2 P))| | |].
    + by apply adjusted_ok.
    + by rewrite zlen_adjusted.
    + cbn. lia.
Qed.

Lemma HasUser_and_Adjust_witness :
  HasUserCallChain (sample_object sample_mixed_content) = Ok true /\
  exists r', AdjustCallChainGeneratedByKernel 2 (sample_object sample_mixed_content) = Ok r' /\
    get_ips r' = Ok [PERF_CONTEXT_KERNEL; 4096; 4098; PERF_CONTEXT_USER; 498; 499] /\
    placed (bin (sample_object sample_mixed_content)) (bin r') (s_ips (sample_object sample_mixed_content))
      (enc_array uint64_t [PERF_CONTEXT_KERNEL; 4096; 4098; PERF_CONTEXT_USER; 498; 499]).
Proof.
  destruct (object_for_view sample_attr sample_mixed_content) as [Hv _]; [concrete_ok|exact sample_mixed_ok|].
  apply (HasUser_and_Adjust sample_attr (sample_object sample_mixed_content) sample_mixed_content 2 Hv
    sample_mixed_ok). vm_compute. reflexivity.
Defined.
