(* ===== verification/RecordRead.v ===== *)
(** Reading records of any type: [ReadRecordFromBuffer],
    [ReadRecordFromOwnedBuffer] and [ReadRecordsFromBuffer] of
    src/simpleperf/record.cpp.

    A record keeps a pointer to the buffer it was read from, so a record read
    at position [p] has the rest of the buffer from [p] on as its binary. *)
From stdpp Require Import base list numbers strings sets.
From Stdlib Require Import ZArith Lia.
From S2P Require Import Prelude Utils RecordBase Records SampleRecord.

(** A [Record*]: the class is the constructor. *)
Inductive AnyRecord :=
| AMmap (r : MmapRecord)
| AMmap2 (r : Mmap2Record)
| AComm (r : CommRecord)
| AExit (r : ExitOrForkRecord)
| AFork (r : ExitOrForkRecord)
| ALost (r : LostRecord)
| ASample (r : SampleRecord)
| ATracingData (r : TracingDataRecord)
| AKernelSymbol (r : KernelSymbolRecord)
| ADso (r : DsoRecord)
| ASymbol (r : SymbolRecord)
| AEventId (r : EventIdRecord)
| ACallChain (r : CallChainRecord)
| AUnwindingResult (r : UnwindingResultRecord)
| AUnknown (r : UnknownRecord).

(** The base object. *)
Definition base_of (a : AnyRecord) : Record_ :=
  match a with
  | AMmap r => mmap_rec r
  | AMmap2 r => mmap2_rec r
  | AComm r => comm_rec r
  | AExit r | AFork r => fork_rec r
  | ALost r => lost_rec r
  | ASample r => s_rec r
  | ATracingData r => trc_rec r
  | AKernelSymbol r => ksym_rec r
  | ADso r => dso_rec r
  | ASymbol r => sym_rec r
  | AEventId r => eid_rec r
  | ACallChain r => cc_rec r
  | AUnwindingResult r => uw_rec r
  | AUnknown r => unk_rec r
  end.

Definition set_base (b : Record_) (a : AnyRecord) : AnyRecord :=
  match a with
  | AMmap r => AMmap (mkMmap b (mmap_data r) (mmap_filename r))
  | AMmap2 r => AMmap2 (mkMmap2 b (mmap2_data r) (mmap2_filename r))
  | AComm r => AComm (mkComm b (comm_data r) (comm_comm r))
  | AExit r => AExit (mkFork b (fork_data r))
  | AFork r => AFork (mkFork b (fork_data r))
  | ALost r => ALost (mkLost b (lost_id r) (lost_lost r))
  | ASample r => ASample (set_rec b r)
  | ATracingData r => ATracingData (mkTracing b (data_size r) (trc_data r))
  | AKernelSymbol r => AKernelSymbol (mkKsym b (kallsyms_size r) (kallsyms r))
  | ADso r => ADso (mkDso b (dso_type r) (dso_id r) (min_vaddr r) (dso_name r))
  | ASymbol r => ASymbol (mkSymbol b (sym_addr r) (sym_len r) (sym_dso_id r) (sym_name r))
  | AEventId r => AEventId (mkEventId b (eid_count r) (eid_data r))
  | ACallChain r => ACallChain (mkCallChain b (cc_pid r) (cc_tid r) (cc_chain_type r) (cc_time r)
                                  (cc_ip_nr r) (cc_ips r) (cc_sps r))
  | AUnwindingResult r => AUnwindingResult (mkUnwinding b (uw_time r) (uw_result r))
  | AUnknown r => AUnknown (mkUnknown b (unk_data r))
  end.

(** [Record::type()] and the virtual [Record::Timestamp()]. *)
Definition AnyRecord_type (a : AnyRecord) : Z := type (header (base_of a)).
Definition AnyRecord_Timestamp (a : AnyRecord) : Z :=
  match a with
  | ASample r => SampleRecord_Timestamp r
  | ACallChain r => cc_time r
  | AUnwindingResult r => uw_time r
  | _ => Record_Timestamp (base_of a)
  end.

Section read.
Context (undef : SampleRecord) (attr : perf_event_attr).

Definition ReadRecordFromBuffer_type (ty : Z) (m : bytes) : res AnyRecord :=
  if ty =? PERF_RECORD_MMAP then AMmap <$> MmapRecord_read attr m
  else if ty =? PERF_RECORD_MMAP2 then AMmap2 <$> Mmap2Record_read attr m
  else if ty =? PERF_RECORD_COMM then AComm <$> CommRecord_read attr m
  else if ty =? PERF_RECORD_EXIT then AExit <$> ExitOrForkRecord_read attr m
  else if ty =? PERF_RECORD_FORK then AFork <$> ExitOrForkRecord_read attr m
  else if ty =? PERF_RECORD_LOST then ALost <$> LostRecord_read attr m
  else if ty =? PERF_RECORD_SAMPLE then ASample <$> SampleRecord_read undef attr m
  else if ty =? PERF_RECORD_TRACING_DATA then ATracingData <$> TracingDataRecord_read m
  else if ty =? SIMPLE_PERF_RECORD_KERNEL_SYMBOL then AKernelSymbol <$> KernelSymbolRecord_read m
  else if ty =? SIMPLE_PERF_RECORD_DSO then ADso <$> DsoRecord_read m
  else if ty =? SIMPLE_PERF_RECORD_SYMBOL then ASymbol <$> SymbolRecord_read m
  else if ty =? SIMPLE_PERF_RECORD_EVENT_ID then AEventId <$> EventIdRecord_read m
  else if ty =? SIMPLE_PERF_RECORD_CALLCHAIN then ACallChain <$> CallChainRecord_read m
  else if ty =? SIMPLE_PERF_RECORD_UNWINDING_RESULT then AUnwindingResult <$> UnwindingResultRecord_read m
  else if ty =? SIMPLE_PERF_RECORD_TRACING_DATA then ATracingData <$> TracingDataRecord_read m
  else AUnknown <$> UnknownRecord_read m.

(** The overload that takes the type from the header in memory. *)
Definition ReadRecordFromBuffer (m : bytes) : res AnyRecord :=
  '(ty, _) ← MoveFromBinaryFormat uint32_t m 0;
  ReadRecordFromBuffer_type ty m.

Definition ReadRecordFromOwnedBuffer (ty : Z) (m : bytes) : res AnyRecord :=
  a ← ReadRecordFromBuffer_type ty m;
  Ok (set_base (OwnBinary (base_of a)) a).

(** The loop of [ReadRecordsFromBuffer]; [None] when the fuel runs out. *)
Fixpoint ReadRecords_loop (fuel : nat) (buf : bytes) (p end_ : Z) : option (res (list AnyRecord)) :=
  if p <? end_ then
    match fuel with
    | O => None
    | S fuel =>
        match RecordHeader_read (zdrop p buf) with
        | Ok h =>
            if p + size h <=? end_ then
              if size h =? 0 then Some CheckFailed
              else
                match ReadRecordFromBuffer_type (type h) (zdrop p buf) with
                | Ok a => option_map (fun l => l ← l; Ok (a :: l))
                            (ReadRecords_loop fuel buf (p + size h) end_)
                | CheckFailed => Some CheckFailed
                | OutOfBounds => Some OutOfBounds
                end
            else Some CheckFailed
        | CheckFailed => Some CheckFailed
        | OutOfBounds => Some OutOfBounds
        end
    end
  else Some (Ok []).

Definition ReadRecordsFromBuffer (buf : bytes) (buf_size : Z) : option (res (list AnyRecord)) :=
  ReadRecords_loop (Z.to_nat buf_size) buf 0 buf_size.
End read.

(** * Headers of the records read *)

(** Every parsing constructor keeps the header and the buffer it was given. *)
Definition keeps_header (m : bytes) (b : Record_) : Prop :=
  RecordHeader_read m = Ok (header b) /\ binary_ b = m /\ own_binary_ b = false.

Ltac res_inv :=
  repeat match goal with
  | H : CheckFailed = Ok _ |- _ => discriminate H
  | H : OutOfBounds = Ok _ |- _ => discriminate H
  | H : Ok _ = Ok _ |- _ => injection H as H; subst
  | H : ((match ?x with Ok _ => _ | CheckFailed => _ | OutOfBounds => _ end) = Ok _) |- _ =>
      destruct x eqn:?; cbn [mbind res_bind fmap res_fmap] in H
  | H : (?x ≫= _ = Ok _) |- _ => destruct x eqn:?; cbn [mbind res_bind] in H
  | H : (_ <$> ?x = Ok _) |- _ => destruct x eqn:?; cbn [fmap res_fmap] in H
  | H : (let '(_, _) := ?x in _) = Ok _ |- _ => destruct x
  end.

Lemma Record_read_keeps m b : Record_read m = Ok b -> keeps_header m b.
Proof. unfold Record_read. intros H. res_inv. split_and!; done. Qed.

Lemma read_named_keeps {T} (c : codec T) attr m r x y :
  read_named c attr m = Ok (r, x, y) -> keeps_header m r.
Proof.
  unfold read_named. intros H. res_inv.
  match goal with H : Record_read m = Ok _ |- _ => apply Record_read_keeps in H as (? & ? & ?) end.
  done.
Qed.

(** A constructor that reads the base record first and keeps it. *)
Ltac keeps_tac :=
  intros H; res_inv;
  match goal with H : Record_read ?m = Ok _ |- _ => apply Record_read_keeps in H as (? & ? & ?) end;
  done.

Lemma fork_keeps attr m r : ExitOrForkRecord_read attr m = Ok r -> keeps_header m (fork_rec r).
Proof. unfold ExitOrForkRecord_read. keeps_tac. Qed.
Lemma lost_keeps attr m r : LostRecord_read attr m = Ok r -> keeps_header m (lost_rec r).
Proof. unfold LostRecord_read. keeps_tac. Qed.
Lemma tracing_keeps m r : TracingDataRecord_read m = Ok r -> keeps_header m (trc_rec r).
Proof. unfold TracingDataRecord_read. keeps_tac. Qed.
Lemma ksym_keeps m r : KernelSymbolRecord_read m = Ok r -> keeps_header m (ksym_rec r).
Proof. unfold KernelSymbolRecord_read. keeps_tac. Qed.
Lemma dso_keeps m r : DsoRecord_read m = Ok r -> keeps_header m (dso_rec r).
Proof. unfold DsoRecord_read. keeps_tac. Qed.
Lemma symbol_keeps m r : SymbolRecord_read m = Ok r -> keeps_header m (sym_rec r).
Proof. unfold SymbolRecord_read. keeps_tac. Qed.
Lemma event_id_keeps m r : EventIdRecord_read m = Ok r -> keeps_header m (eid_rec r).
Proof. unfold EventIdRecord_read. keeps_tac. Qed.
Lemma callchain_keeps m r : CallChainRecord_read m = Ok r -> keeps_header m (cc_rec r).
Proof. unfold CallChainRecord_read. keeps_tac. Qed.
Lemma unwinding_keeps m r : UnwindingResultRecord_read m = Ok r -> keeps_header m (uw_rec r).
Proof. unfold UnwindingResultRecord_read. keeps_tac. Qed.
Lemma unknown_keeps m r : UnknownRecord_read m = Ok r -> keeps_header m (unk_rec r).
Proof. unfold UnknownRecord_read. keeps_tac. Qed.

Lemma read_parts_rec attr m r p r' p' : read_parts attr m r p = Ok (r', p') -> s_rec r' = s_rec r.
Proof. unfold read_parts. intros H. res_inv. done. Qed.

Lemma sample_keeps undef attr m r : SampleRecord_read undef attr m = Ok r -> keeps_header m (s_rec r).
Proof.
  unfold SampleRecord_read. intros H. res_inv.
  match goal with H : Record_read m = Ok _ |- _ => apply Record_read_keeps in H as (? & ? & ?) end.
  match goal with H : read_parts _ _ _ _ = Ok _ |- _ => apply read_parts_rec in H as E end.
  unfold keeps_header. by rewrite E.
Qed.

Create HintDb keeps.
#[export] Hint Resolve read_named_keeps fork_keeps lost_keeps tracing_keeps ksym_keeps dso_keeps
  symbol_keeps event_id_keeps callchain_keeps unwinding_keeps unknown_keeps sample_keeps : keeps.

Lemma ReadRecord_keeps undef attr ty m a :
  ReadRecordFromBuffer_type undef attr ty m = Ok a -> keeps_header m (base_of a).
Proof.
  unfold ReadRecordFromBuffer_type, MmapRecord_read, Mmap2Record_read, CommRecord_read. intros H.
  repeat match type of H with (if ?b then _ else _) = _ => destruct b end;
    res_inv; cbn [base_of mmap_rec mmap2_rec comm_rec]; eauto with keeps.
Qed.

(** * Splitting a buffer into records *)

Lemma bytes_ok_drop p b : bytes_ok b -> bytes_ok (zdrop p b).
Proof. apply Forall_drop. Qed.
Lemma bytes_ok_take p b : bytes_ok b -> bytes_ok (ztake p b).
Proof. apply Forall_take. Qed.

Lemma MoveFrom_header_range m x p :
  bytes_ok m -> MoveFromBinaryFormat perf_event_header m 0 = Ok (x, p) ->
  0 <= x.1 /\ 0 <= x.2.1 /\ 0 <= x.2.2.
Proof.
  unfold MoveFromBinaryFormat. intros Hm H. res_inv. unfold mem_read in *.
  destruct ((0 <=? 0) && _ && _) in *; [|done]. res_inv.
  cbn [perf_event_header pair_codec dec fst snd uint32_t uint16_t].
  split_and!; apply le_decode_bound; repeat (apply bytes_ok_take || apply bytes_ok_drop); done.
Qed.

Lemma RecordHeader_size_nonneg m h : bytes_ok m -> RecordHeader_read m = Ok h -> 0 <= size h.
Proof.
  unfold RecordHeader_read. intros Hm H. res_inv.
  match goal with H : MoveFromBinaryFormat perf_event_header m 0 = Ok _ |- _ =>
    pose proof (MoveFrom_header_range _ _ _ Hm H) as (? & ? & ?) end.
  change simpleperf_record_header with perf_event_header in *. rewrite Heqr in H. cbn [mbind res_bind fst snd] in *.
  destruct (_ <? _); res_inv; cbn [size]; [done|].
  apply Z.lor_nonneg. split; [by apply Z.shiftl_nonneg|done].
Qed.

Section split_buffer.
Context (undef : SampleRecord) (attr : perf_event_attr).

(** A record of size zero is rejected, so every iteration advances. *)
Lemma ReadRecords_enough buf end_ : bytes_ok buf ->
  forall fuel p, end_ - p <= Z.of_nat fuel -> ReadRecords_loop undef attr fuel buf p end_ <> None.
Proof.
  intros Hb. induction fuel as [|fuel IH]; intros p Hf; cbn [ReadRecords_loop].
  - destruct (Z.ltb_spec p end_); [lia|done].
  - destruct (Z.ltb_spec p end_); [|done]. destruct (RecordHeader_read _) as [h| |] eqn:Eh; try done.
    destruct (Z.leb_spec (p + size h) end_); [|done]. destruct (Z.eqb_spec (size h) 0); [done|].
    destruct (ReadRecordFromBuffer_type _ _ _ _); try done.
    apply RecordHeader_size_nonneg in Eh; [|by apply bytes_ok_drop].
    specialize (IH (p + size h) ltac:(lia)). by destruct (ReadRecords_loop _ _ _ _ _ _).
Qed.

(** A record in a buffer: its header and the bytes behind it. *)
Definition segment : Type := RecordHeader * bytes.
Definition segment_bytes (s : segment) : bytes := header_bytes s.1 ++ s.2.
Definition segment_ok (s : segment) : Prop :=
  header_ok s.1 /\ size s.1 = header_size + zlen s.2.
Definition segments_bytes (l : list segment) : bytes := concat (segment_bytes <$> l).

(** Reading every record at its own place. *)
Fixpoint read_each (l : list segment) : res (list AnyRecord) :=
  match l with
  | [] => Ok []
  | s :: l' =>
      a ← ReadRecordFromBuffer_type undef attr (type s.1) (segments_bytes (s :: l'));
      r ← read_each l';
      Ok (a :: r)
  end.

(** Which class of record a type number stands for, as perf_event.h and the list
    of simpleperf's own types in record.h number them. *)
Inductive reads : Z -> bytes -> AnyRecord -> Prop :=
| reads_mmap m r : MmapRecord_read attr m = Ok r -> reads 1 m (AMmap r)
| reads_lost m r : LostRecord_read attr m = Ok r -> reads 2 m (ALost r)
| reads_comm m r : CommRecord_read attr m = Ok r -> reads 3 m (AComm r)
| reads_exit m r : ExitOrForkRecord_read attr m = Ok r -> reads 4 m (AExit r)
| reads_fork m r : ExitOrForkRecord_read attr m = Ok r -> reads 7 m (AFork r)
| reads_sample m r : SampleRecord_read undef attr m = Ok r -> reads 9 m (ASample r)
| reads_mmap2 m r : Mmap2Record_read attr m = Ok r -> reads 10 m (AMmap2 r)
| reads_tracing ty m r : ty ∈ [66; 32777] -> TracingDataRecord_read m = Ok r -> reads ty m (ATracingData r)
| reads_kernel_symbol m r : KernelSymbolRecord_read m = Ok r -> reads 32769 m (AKernelSymbol r)
| reads_dso m r : DsoRecord_read m = Ok r -> reads 32770 m (ADso r)
| reads_symbol m r : SymbolRecord_read m = Ok r -> reads 32771 m (ASymbol r)
| reads_event_id m r : EventIdRecord_read m = Ok r -> reads 32774 m (AEventId r)
| reads_callchain m r : CallChainRecord_read m = Ok r -> reads 32775 m (ACallChain r)
| reads_unwinding m r : UnwindingResultRecord_read m = Ok r -> reads 32776 m (AUnwindingResult r)
| reads_unknown ty m r :
    ty ∉ [1; 2; 3; 4; 7; 9; 10; 66; 32769; 32770; 32771; 32774; 32775; 32776; 32777] ->
    UnknownRecord_read m = Ok r -> reads ty m (AUnknown r).

(** Every record of [l] read at its own place: it sees the buffer from its header on. *)
Inductive reads_all : list segment -> list AnyRecord -> Prop :=
| reads_all_nil : reads_all [] []
| reads_all_cons s l a rs : reads (type s.1) (segments_bytes (s :: l)) a -> reads_all l rs -> reads_all (s :: l) (a :: rs).

Lemma type_reads ty m a : ReadRecordFromBuffer_type undef attr ty m = Ok a <-> reads ty m a.
Proof.
  split.
  - unfold ReadRecordFromBuffer_type. intros H.
    repeat match type of H with (if ?x =? ?y then _ else _) = _ => destruct (Z.eqb_spec x y); [subst; res_inv; constructor; set_solver|] end.
    res_inv. constructor; [|done]. set_solver.
  - destruct 1 as [? ? E|? ? E|? ? E|? ? E|? ? E|? ? E|? ? E|ty ? ? Ht E|? ? E|? ? E|? ? E|? ? E|? ? E|? ? E|ty m r Ht E];
      try (unfold ReadRecordFromBuffer_type; cbn; by rewrite E).
    + assert (ty = 66 \/ ty = 32777) as [-> | ->] by set_solver; unfold ReadRecordFromBuffer_type; cbn; by rewrite E.
    + unfold ReadRecordFromBuffer_type. repeat match goal with |- context [?x =? ?y] => destruct (Z.eqb_spec x y); [subst; set_solver|] end.
      by rewrite E.
Qed.

Lemma read_each_reads l : forall rs, read_each l = Ok rs <-> reads_all l rs.
Proof.
  induction l as [|s l IH]; intros rs; cbn [read_each].
  - split; [intros [= <-]; constructor|by inversion 1].
  - split; [intros H; res_inv; constructor; [by apply type_reads|by apply IH]|].
    inversion 1 as [|? ? a rs' Ha Hl]; subst. apply type_reads in Ha. apply IH in Hl.
    destruct (ReadRecordFromBuffer_type _ _ _ _); simplify_eq.
    cbn [mbind res_bind]. by rewrite Hl.
Qed.

Lemma zlen_segment s : segment_ok s -> zlen (segment_bytes s) = size s.1 /\ 0 < size s.1.
Proof.
  intros [Hh Hs]. unfold segment_bytes. rewrite zlen_app, zlen_header_bytes, Hs.
  pose proof (zlen_nonneg s.2). unfold header_size. lia.
Qed.

Lemma ReadRecords_loop_segments l : forall pre fuel,
  Forall segment_ok l -> (length l <= fuel)%nat ->
  ReadRecords_loop undef attr fuel (pre ++ segments_bytes l) (zlen pre) (zlen (pre ++ segments_bytes l)) =
  Some (read_each l).
Proof.
  induction l as [|s l IH]; intros pre fuel Hl Hf.
  { unfold segments_bytes. cbn [fmap list_fmap concat]. rewrite app_nil_r.
    destruct fuel; cbn [ReadRecords_loop]; by rewrite Z.ltb_irrefl. }
  apply Forall_cons in Hl as [Hs Hl]. destruct fuel as [|fuel]; [cbn in Hf; lia|].
  destruct (zlen_segment s Hs) as [Hlen Hpos].
  assert (segments_bytes (s :: l) = segment_bytes s ++ segments_bytes l) as E by done.
  cbn [ReadRecords_loop]. rewrite zdrop_app_exact by done.
  pose proof (zlen_nonneg (segments_bytes l)).
  rewrite (proj2 (Z.ltb_lt _ _)) by (rewrite E, !zlen_app; lia).
  rewrite (RecordHeader_read_at _ s.1);
    [|apply Hs|rewrite E; unfold segment_bytes; rewrite <- app_assoc; apply bytes_at_intro].
  rewrite (proj2 (Z.leb_le _ _)) by (rewrite E, !zlen_app; lia).
  rewrite (proj2 (Z.eqb_neq _ _)) by lia. cbn [read_each].
  destruct (ReadRecordFromBuffer_type _ _ _ _) as [a| |]; try done. cbn [mbind res_bind].
  rewrite E, app_assoc. specialize (IH (pre ++ segment_bytes s) fuel Hl).
  replace (zlen pre + size s.1) with (zlen (pre ++ segment_bytes s)) by (rewrite zlen_app; lia).
  rewrite IH by (cbn in Hf; lia). done.
Qed.

Lemma length_segments l : Forall segment_ok l -> Z.of_nat (length l) <= zlen (segments_bytes l).
Proof.
  induction 1 as [|s l Hs _ IH]; [done|]. destruct (zlen_segment s Hs).
  change (segments_bytes (s :: l)) with (segment_bytes s ++ segments_bytes l).
  rewrite zlen_app. cbn [length]. lia.
Qed.

Lemma read_each_headers l : forall rs, Forall segment_ok l -> read_each l = Ok rs ->
  Forall2 (fun a (s : segment) => header (base_of a) = s.1 /\ own_binary_ (base_of a) = false) rs l.
Proof.
  induction l as [|s l IH]; intros rs Hl H; cbn [read_each] in H; res_inv; [constructor|].
  apply Forall_cons in Hl as [Hs Hl]. constructor; [|by apply IH].
  destruct (ReadRecord_keeps _ _ _ _ _ Heqr) as (Hh & _ & Ho). split; [|done].
  rewrite (RecordHeader_read_at _ s.1) in Hh; [by injection Hh|apply Hs|].
  change (segments_bytes (s :: l)) with (segment_bytes s ++ segments_bytes l).
  unfold segment_bytes. rewrite <- app_assoc. apply bytes_at_intro.
Qed.
End split_buffer.

(** C29: [ReadRecordsFromBuffer] returns on every buffer of bytes, with records or
    a failure (a header of size zero is a failed check).  On a buffer that is a
    sequence of records (headers that can be encoded, each with the size of its
    record) it returns the list [rs] exactly when [rs] has one record per record
    of the buffer, in order, each of the class its type number stands for ([reads]:
    1 a mmap, 10 a mmap2, 9 a sample and so on, other numbers unknown) and made by
    the constructor of that class from the buffer at the record's own place; each
    then has the header that is in the buffer and does not own the bytes. *)
Theorem ReadRecordsFromBuffer_splits undef attr :
  (forall buf n, bytes_ok buf -> exists r, ReadRecordsFromBuffer undef attr buf n = Some r) /\
  (forall l rs, Forall segment_ok l ->
     (ReadRecordsFromBuffer undef attr (segments_bytes l) (zlen (segments_bytes l)) = Some (Ok rs) <->
      reads_all undef attr l rs) /\
     (reads_all undef attr l rs ->
      Forall2 (fun a (s : segment) => header (base_of a) = s.1 /\ own_binary_ (base_of a) = false) rs l)).
Proof.
  split.
  - intros buf n Hb. unfold ReadRecordsFromBuffer.
    destruct (ReadRecords_loop _ _ _ _ _ _) eqn:E; [by eexists|].
    exfalso. by apply (ReadRecords_enough undef attr buf n Hb (Z.to_nat n) 0); [lia|].
  - intros l rs Hl. rewrite <- read_each_reads. split; [|by apply read_each_headers].
    unfold ReadRecordsFromBuffer. pose proof (length_segments l Hl).
    pose proof (ReadRecords_loop_segments undef attr l [] (Z.to_nat (zlen (segments_bytes l))) Hl ltac:(lia)) as E.
    cbn [app] in E. change (zlen []) with 0 in E. rewrite E. split; [by intros [=]|by intros ->].
Qed.

(** A buffer with a comm record and an unwinding-result record. *)
Definition comm_segment : segment :=
  (mkHeader PERF_RECORD_COMM 0 24, enc CommRecordDataType_codec (mkCommData 5 6) ++ str "main" ++ [0; 0; 0; 0]).
Definition unwinding_segment : segment :=
  (mkHeader SIMPLE_PERF_RECORD_UNWINDING_RESULT 0 56, enc_array uint64_t [1; 2; 3; 4; 5; 6]).
Definition plain_attr : perf_event_attr :=
  {| attr_sample_id_all := false; attr_sample_type := 0; attr_sample_regs_user := 0 |}.

Definition zero_sample : SampleRecord :=
  mkSample Record_default 0 0 (mkTid 0 0) 0 0 0 0 (mkCpu 0 0) 0 0 0 0 0 0 0 0 0 0 0 0 0 0.

Lemma ReadRecordsFromBuffer_splits_witness :
  ReadRecordsFromBuffer zero_sample plain_attr (segments_bytes [comm_segment; unwinding_segment])
    (zlen (segments_bytes [comm_segment; unwinding_segment])) =
    Some (Ok [AComm (mkComm (mkRecord (comm_segment.1) SampleId_default
                 (segments_bytes [comm_segment; unwinding_segment]) false) 8 16);
              AUnwindingResult (mkUnwinding (mkRecord (unwinding_segment.1) SampleId_default
                 (segments_bytes [unwinding_segment]) false) 1 (mkUnwindingResult 2 3 4 5 6))]).
Proof.
  apply (ReadRecordsFromBuffer_splits zero_sample plain_attr); [repeat constructor; vm_compute; congruence|].
  repeat constructor; vm_compute; reflexivity.
Defined.
