(* ===== verification/RecordCache.v ===== *)
(** Model of [RecordCache] of src/simpleperf/record.h and record.cpp, the
    cache that receives records from the kernel and hands them out in the
    order in which they happened.

    The cache only asks a record for its type and timestamp, the interface
    [IsRecord]; the theorems hold for every instance, [AnyRecord] being the
    one the tools use.  [std::priority_queue] is a list from which [top] and
    [pop] take an element that the comparator puts below no other. *)
From stdpp Require Import base list numbers strings sorting.
From Stdlib Require Import ZArith Lia Sorted.
From S2P Require Import Prelude Utils RecordBase Records SampleRecord RecordRead.

(** What the cache asks of a record: [Record::type] and [Record::Timestamp]. *)
Class IsRecord (R : Type) := {
  rec_type : R -> Z;
  rec_Timestamp : R -> Z;
}.

#[export] Instance AnyRecord_is_record : IsRecord AnyRecord :=
  {| rec_type := AnyRecord_type; rec_Timestamp := AnyRecord_Timestamp |}.

Section cache.
Context {R : Type} `{!IsRecord R}.

Record RecordWithSeq := mkSeq { seq : Z; record : R }.

Definition IsHappensBefore (a other : RecordWithSeq) : bool :=
  let is_sample := rec_type (record a) =? PERF_RECORD_SAMPLE in
  let is_other_sample := rec_type (record other) =? PERF_RECORD_SAMPLE in
  let time := rec_Timestamp (record a) in
  let other_time := rec_Timestamp (record other) in
  if negb (time =? other_time) then time <? other_time
  else if negb (eqb is_sample is_other_sample) then (if is_sample then false else true)
  else seq a <? seq other.

Definition RecordComparator (r1 r2 : RecordWithSeq) : bool := IsHappensBefore r2 r1.

(** [std::priority_queue<RecordWithSeq, ..., RecordComparator>]: take out an
    element [t] such that [RecordComparator t x] for no other [x]. *)
Fixpoint extract_top (t : RecordWithSeq) (q : list RecordWithSeq) : RecordWithSeq * list RecordWithSeq :=
  match q with
  | [] => (t, [])
  | x :: q =>
      if RecordComparator t x
      then let '(t', q') := extract_top x q in (t', t :: q')
      else let '(t', q') := extract_top t q in (t', x :: q')
  end.

Record RecordCache := mkCache {
  has_timestamp_ : bool;
  min_cache_size_ : Z;
  min_time_diff_in_ns_ : Z;
  last_time_ : Z;
  cur_seq_ : Z;
  queue_ : list RecordWithSeq;
}.

Definition RecordCache_new (has_timestamp : bool) (min_cache_size min_time_diff_in_ns : Z) : RecordCache :=
  mkCache has_timestamp min_cache_size min_time_diff_in_ns 0 0 [].

Definition Push (r : R) (c : RecordCache) : RecordCache :=
  let last_time := if has_timestamp_ c then Z.max (last_time_ c) (rec_Timestamp r) else last_time_ c in
  mkCache (has_timestamp_ c) (min_cache_size_ c) (min_time_diff_in_ns_ c) last_time
    (cur_seq_ c +u32 1) (queue_ c ++ [mkSeq (cur_seq_ c) r]).

Definition Push_all (rs : list R) (c : RecordCache) : RecordCache := foldl (fun c r => Push r c) c rs.

Definition set_queue (q : list RecordWithSeq) (c : RecordCache) : RecordCache :=
  mkCache (has_timestamp_ c) (min_cache_size_ c) (min_time_diff_in_ns_ c) (last_time_ c) (cur_seq_ c) q.

(** [Pop], with the sequence number of the record; [top] of an empty queue is
    undefined behaviour. *)
Definition PopSeq (c : RecordCache) : res (RecordCache * option RecordWithSeq) :=
  if zlen (queue_ c) <? min_cache_size_ c then Ok (c, None)
  else match queue_ c with
  | [] => OutOfBounds
  | x :: q =>
      let '(t, rest) := extract_top x q in
      if has_timestamp_ c && (last_time_ c <? rec_Timestamp (record t) +u64 min_time_diff_in_ns_ c)
      then Ok (c, None)
      else Ok (set_queue rest c, Some t)
  end.

Definition Pop (c : RecordCache) : res (RecordCache * option R) :=
  prod_map id (option_map record) <$> PopSeq c.

(** [PopAll] takes the records out one by one. *)
Fixpoint PopAll_loop (fuel : nat) (q : list RecordWithSeq) : list RecordWithSeq :=
  match fuel, q with
  | S fuel, x :: q => let '(t, rest) := extract_top x q in t :: PopAll_loop fuel rest
  | _, _ => []
  end.
Definition PopAllSeq (c : RecordCache) : list RecordWithSeq := PopAll_loop (length (queue_ c)) (queue_ c).
Definition PopAll (c : RecordCache) : RecordCache * list R := (set_queue [] c, record <$> PopAllSeq c).

Definition ForcedPop (c : RecordCache) : RecordCache * option R :=
  match queue_ c with
  | [] => (c, None)
  | x :: q => let '(t, rest) := extract_top x q in (set_queue rest c, Some (record t))
  end.

(** * The order of the cache *)

Abbreviation hb := (fun a b => IsHappensBefore a b = true).

(** The order in which records should come out: by time; of two records of the
    same time the one that is not a sample before the sample; of two samples, or
    of two records that are no samples, the one that came in first. *)
Definition happens_before (a b : RecordWithSeq) : Prop :=
  rec_Timestamp (record a) < rec_Timestamp (record b) \/
  rec_Timestamp (record a) = rec_Timestamp (record b) /\
    (rec_type (record a) <> PERF_RECORD_SAMPLE /\ rec_type (record b) = PERF_RECORD_SAMPLE \/
     (rec_type (record a) = PERF_RECORD_SAMPLE <-> rec_type (record b) = PERF_RECORD_SAMPLE) /\ seq a < seq b).

(** The same with a number for the kind of record, for [lia]. *)
Definition sample_rank (a : RecordWithSeq) : Z :=
  if rec_type (record a) =? PERF_RECORD_SAMPLE then 1 else 0.
Lemma hb_lex a b :
  IsHappensBefore a b = true <->
  rec_Timestamp (record a) < rec_Timestamp (record b) \/
  (rec_Timestamp (record a) = rec_Timestamp (record b) /\ (sample_rank a < sample_rank b \/ (sample_rank a = sample_rank b /\ seq a < seq b))).
Proof.
  unfold IsHappensBefore, sample_rank.
  destruct (Z.eqb_spec (rec_Timestamp (record a)) (rec_Timestamp (record b))); cbn [negb].
  - destruct (rec_type (record a) =? _), (rec_type (record b) =? _); cbn [eqb negb];
      rewrite ?Z.ltb_lt; split; intros; (discriminate || lia).
  - rewrite Z.ltb_lt. lia.
Qed.

Lemma hb_happens_before a b : hb a b -> happens_before a b.
Proof.
  rewrite hb_lex. unfold happens_before, sample_rank.
  destruct (Z.eqb_spec (rec_type (record a)) PERF_RECORD_SAMPLE), (Z.eqb_spec (rec_type (record b)) PERF_RECORD_SAMPLE); intuition lia.
Qed.
Lemma sorted_happens_before l : StronglySorted hb l -> StronglySorted happens_before l.
Proof. induction 1 as [|a l _ IH Ha]; constructor; [done|]. eapply Forall_impl; [exact Ha|]. intros b. apply hb_happens_before. Qed.

Lemma hb_irrefl a : IsHappensBefore a a = false.
Proof. apply not_true_is_false. rewrite hb_lex. lia. Qed.
Lemma hb_trans a b c : hb a b -> hb b c -> hb a c.
Proof. rewrite !hb_lex. lia. Qed.
Lemma hb_total a b : seq a <> seq b -> hb a b \/ hb b a.
Proof. rewrite !hb_lex. lia. Qed.

Lemma extract_top_spec q : forall t t' rest,
  NoDup (seq <$> (t :: q)) -> extract_top t q = (t', rest) ->
  t :: q ≡ₚ t' :: rest /\ Forall (hb t') rest.
Proof.
  induction q as [|x q IH]; intros t t' rest Hnd E; cbn [extract_top] in E.
  { injection E as <- <-. split; [done|constructor]. }
  assert (NoDup (seq <$> (t :: q)) /\ NoDup (seq <$> (x :: q)) /\ seq t <> seq x) as (N1 & N2 & N3).
  { rewrite !fmap_cons in *. apply NoDup_cons in Hnd as [H1 H2]. apply NoDup_cons in H2 as [H2 H3].
    apply not_elem_of_cons in H1 as [H1 H1']. rewrite !NoDup_cons. done. }
  unfold RecordComparator in E. destruct (IsHappensBefore x t) eqn:Hx.
  - destruct (extract_top x q) as [u r] eqn:E'. injection E as <- <-.
    destruct (IH _ _ _ N2 E') as [P F]. split; [by rewrite P; constructor|].
    constructor; [|done]. assert (x ∈ u :: r) as Hin by (rewrite <- P; apply list_elem_of_here).
    apply elem_of_cons in Hin as [->|Hin]; [done|].
    eapply hb_trans; [|exact Hx]. rewrite Forall_forall in F. by apply F.
  - destruct (extract_top t q) as [u r] eqn:E'. injection E as <- <-.
    destruct (IH _ _ _ N1 E') as [P F]. split; [rewrite (Permutation_swap x t q), P; by constructor|].
    constructor; [|done]. assert (t ∈ u :: r) as Hin by (rewrite <- P; apply list_elem_of_here).
    assert (hb t x) as Htx by (destruct (hb_total t x N3) as [?|H]; [done|congruence]).
    apply elem_of_cons in Hin as [->|Hin]; [done|].
    eapply hb_trans; [|exact Htx]. rewrite Forall_forall in F. by apply F.
Qed.

(** * Popping everything *)

Lemma NoDup_seq_perm (l k : list RecordWithSeq) : l ≡ₚ k -> NoDup (seq <$> l) -> NoDup (seq <$> k).
Proof. intros P. by rewrite P. Qed.

Lemma PopAll_loop_spec n : forall q, length q = n -> NoDup (seq <$> q) ->
  PopAll_loop n q ≡ₚ q /\ StronglySorted hb (PopAll_loop n q).
Proof.
  induction n as [|n IH]; intros q Hn Hnd; destruct q as [|x q]; try done; cbn [PopAll_loop].
  { split; [done|constructor]. }
  destruct (extract_top x q) as [t rest] eqn:E. destruct (extract_top_spec _ _ _ _ Hnd E) as [P F].
  assert (length rest = n) as Hl by (apply Permutation_length in P; cbn in *; lia).
  destruct (IH rest Hl) as [P' S'].
  { apply (NoDup_seq_perm _ _ P) in Hnd. rewrite fmap_cons in Hnd. by apply NoDup_cons in Hnd as [_ ?]. }
  split; [by rewrite P', P|]. constructor; [done|]. by rewrite P'.
Qed.

(** * Runs of the cache *)

Inductive op := OPush (r : R) | OPop.

(** One step: the cache, the records pushed so far with their numbers, and the
    records popped so far. *)
Record state := mkState { cache : RecordCache; pushed : list RecordWithSeq; popped : list RecordWithSeq }.

Definition step (o : op) (s : state) : res state :=
  match o with
  | OPush r => Ok (mkState (Push r (cache s)) (pushed s ++ [mkSeq (cur_seq_ (cache s)) r]) (popped s))
  | OPop =>
      match PopSeq (cache s) with
      | Ok (c, o) => Ok (mkState c (pushed s) (popped s ++ option_list o))
      | CheckFailed => CheckFailed
      | OutOfBounds => OutOfBounds
      end
  end.

Fixpoint run (ops : list op) (s : state) : res state :=
  match ops with
  | [] => Ok s
  | o :: ops => s ← step o s; run ops s
  end.

(** The assumption of the cache on its input: having received a record for
    time t, it receives none for time t - min_time_diff or earlier. *)
Fixpoint disorder_bounded (diff last : Z) (ops : list op) : Prop :=
  match ops with
  | [] => True
  | OPush r :: ops =>
      is_u64 (rec_Timestamp r) /\ rec_Timestamp r + diff < 2 ^ 64 /\ last < rec_Timestamp r + diff /\
      disorder_bounded diff (Z.max last (rec_Timestamp r)) ops
  | OPop :: ops => disorder_bounded diff last ops
  end.

(** The invariant of a run. *)
Record cache_inv (s : state) : Prop := {
  ci_perm : popped s ++ queue_ (cache s) ≡ₚ pushed s;
  ci_seq : forall i a, pushed s !! i = Some a -> seq a = Z.of_nat i;
  ci_cur : cur_seq_ (cache s) = u32 (zlen (pushed s));
  ci_time : Forall (fun a => is_u64 (rec_Timestamp (record a)) /\
    rec_Timestamp (record a) + min_time_diff_in_ns_ (cache s) < 2 ^ 64) (pushed s);
  ci_old : Forall (fun a => rec_Timestamp (record a) + min_time_diff_in_ns_ (cache s) <= last_time_ (cache s)) (popped s);
  ci_before : forall a b, a ∈ popped s -> b ∈ queue_ (cache s) -> hb a b;
  ci_sorted : StronglySorted hb (popped s);
  ci_has : has_timestamp_ (cache s) = true;
  ci_diff : 0 <= min_time_diff_in_ns_ (cache s);
}.

Lemma numbered_nodup (l : list RecordWithSeq) :
  (forall i a, l !! i = Some a -> seq a = Z.of_nat i) -> NoDup (seq <$> l).
Proof.
  intros H. apply NoDup_alt. intros i j x Hi Hj. rewrite list_lookup_fmap in Hi, Hj.
  destruct (l !! i) eqn:Ei, (l !! j) eqn:Ej; try done. cbn in *. apply H in Ei, Ej.
  simplify_eq. lia.
Qed.

Lemma inv_nodup s : cache_inv s -> NoDup (seq <$> queue_ (cache s)).
Proof.
  intros []. pose proof (numbered_nodup _ ci_seq0) as H. rewrite <- ci_perm0, fmap_app in H.
  by apply NoDup_app in H as (_ & _ & ?).
Qed.

Lemma push_inv s r :
  cache_inv s -> zlen (pushed s) < 2 ^ 32 -> is_u64 (rec_Timestamp r) ->
  rec_Timestamp r + min_time_diff_in_ns_ (cache s) < 2 ^ 64 ->
  last_time_ (cache s) < rec_Timestamp r + min_time_diff_in_ns_ (cache s) ->
  cache_inv (mkState (Push r (cache s)) (pushed s ++ [mkSeq (cur_seq_ (cache s)) r]) (popped s)).
Proof.
  intros [] Hlen Hu Hd Hlast. set (n := mkSeq (cur_seq_ (cache s)) r).
  assert (cur_seq_ (cache s) = zlen (pushed s)) as Hcur.
  { rewrite ci_cur0. apply u32_small. pose proof (zlen_nonneg (pushed s)). unfold_u. lia. }
  split; cbn [cache pushed popped Push queue_ cur_seq_ last_time_ min_time_diff_in_ns_ has_timestamp_];
    rewrite ?ci_has0; try done.
  - by rewrite app_assoc, ci_perm0.
  - intros i a Hi. apply lookup_app_Some in Hi as [Hi|[Hi Hl]]; [by apply ci_seq0|].
    apply list_lookup_singleton_Some in Hl as [Hj <-]. cbn [n seq]. rewrite Hcur. unfold zlen. lia.
  - rewrite Hcur, zlen_app. done.
  - apply Forall_app. split; [done|]. by apply Forall_singleton.
  - eapply Forall_impl; [exact ci_old0|]. cbn. intros a Ha. lia.
  - intros a b Ha Hb. apply elem_of_app in Hb as [Hb|Hb]; [by apply ci_before0|].
    apply list_elem_of_singleton in Hb as ->. apply hb_lex. left. cbn [n record].
    rewrite Forall_forall in ci_old0. specialize (ci_old0 a Ha). lia.
Qed.

Lemma sorted_snoc l (a : RecordWithSeq) :
  StronglySorted hb l -> Forall (fun x => hb x a) l -> StronglySorted hb (l ++ [a]).
Proof.
  induction 1 as [|x l Hs IH Hx]; intros Hl; [repeat constructor|].
  apply Forall_cons in Hl as [Hxa Hl]. cbn [app]. constructor; [by apply IH|].
  apply Forall_app. split; [done|]. by apply Forall_singleton.
Qed.

Lemma pop_inv s c o :
  cache_inv s -> PopSeq (cache s) = Ok (c, o) ->
  cache_inv (mkState c (pushed s) (popped s ++ option_list o)) /\
  min_time_diff_in_ns_ c = min_time_diff_in_ns_ (cache s) /\ last_time_ c = last_time_ (cache s) /\
  min_cache_size_ c = min_cache_size_ (cache s).
Proof.
  intros Hinv E. pose proof (inv_nodup s Hinv) as Hnd. pose proof Hinv as [].
  assert (cache_inv (mkState (cache s) (pushed s) (popped s ++ []))) as Hsame
    by (rewrite app_nil_r; by destruct s).
  unfold PopSeq in E. destruct (zlen (queue_ (cache s)) <? _); [by injection E as <- <-|].
  destruct (queue_ (cache s)) as [|x q] eqn:Eq; [done|].
  destruct (extract_top x q) as [t rest] eqn:Et. destruct (extract_top_spec _ _ _ _ Hnd Et) as [P F].
  rewrite ci_has0 in E. cbn [andb] in E. destruct (Z.ltb_spec (last_time_ (cache s))
    (rec_Timestamp (record t) +u64 min_time_diff_in_ns_ (cache s))) as [|Hle]; [by injection E as <- <-|].
  injection E as <- <-. split; [|done]. cbn [option_list].
  assert (t ∈ pushed s) as Ht by (rewrite <- ci_perm0, P; apply elem_of_app; right; apply list_elem_of_here).
  rewrite Forall_forall in ci_time0. pose proof (ci_time0 t Ht) as [Htu Htd].
  rewrite u64_small in Hle by (unfold_u; lia). change (option_list (Some t)) with [t].
  split; cbn [cache pushed popped set_queue queue_ cur_seq_ last_time_ min_time_diff_in_ns_ has_timestamp_]; try done.
  - by rewrite <- app_assoc, <- ci_perm0, P.
  - by rewrite Forall_forall.
  - apply Forall_app. split; [done|]. by apply Forall_singleton.
  - intros a b Ha Hb. rewrite Forall_forall in F. apply elem_of_app in Ha as [Ha|Ha].
    + apply ci_before0; [done|]. rewrite P. by apply list_elem_of_further.
    + apply list_elem_of_singleton in Ha as ->. by apply F.
  - apply sorted_snoc; [done|]. apply Forall_forall. intros a Ha. apply ci_before0; [done|].
    rewrite P. apply list_elem_of_here.
Qed.

Lemma run_inv ops : forall s,
  cache_inv s -> 1 <= min_cache_size_ (cache s) ->
  zlen (pushed s) + zlen ops < 2 ^ 32 ->
  disorder_bounded (min_time_diff_in_ns_ (cache s)) (last_time_ (cache s)) ops ->
  exists s', run ops s = Ok s' /\ cache_inv s' /\
    record <$> pushed s' = (record <$> pushed s) ++ omap (fun o => match o with OPush r => Some r | OPop => None end) ops.
Proof.
  induction ops as [|o ops IH]; intros s Hinv Hmin Hlen Hd.
  { exists s. cbn. by rewrite app_nil_r. }
  rewrite zlen_cons in Hlen. pose proof (zlen_nonneg ops). destruct o as [r|]; cbn [run step disorder_bounded] in *.
  - destruct Hd as (Hu & Hf & Hl & Hd). cbn [mbind res_bind]. 
    pose proof (push_inv s r Hinv ltac:(lia) Hu Hf Hl) as Hinv'.
    destruct (IH _ Hinv') as (s' & Hr & Hi & Hp); [done| | |].
    + cbn [pushed]. rewrite zlen_app, zlen_cons, zlen_nil. lia.
    + cbn [cache Push min_time_diff_in_ns_ last_time_]. by rewrite (ci_has _ Hinv).
    + exists s'. split; [done|]. split; [done|]. rewrite Hp. cbn [pushed]. rewrite fmap_app, <- app_assoc. done.
  - destruct (PopSeq (cache s)) as [[c o]| |] eqn:E.
    + destruct (pop_inv s c o Hinv E) as (Hinv' & Ed & El & Em). cbn [mbind res_bind].
      destruct (IH _ Hinv') as (s' & Hr & Hi & Hp); cbn [cache pushed]; [lia|lia|by rewrite Ed, El|].
      exists s'. done.
    + exfalso. revert E. unfold PopSeq. destruct (_ <? _); [done|]. destruct (queue_ _); [done|].
      destruct (extract_top _ _). by destruct (_ && _).
    + exfalso. revert E. unfold PopSeq. destruct (Z.ltb_spec (zlen (queue_ (cache s))) (min_cache_size_ (cache s))); [done|].
      destruct (queue_ (cache s)); [change (zlen (@nil RecordWithSeq)) with 0 in *; lia|].
      destruct (extract_top _ _). by destruct (_ && _).
Qed.

Definition init_state (min_cache_size diff : Z) : state :=
  mkState (RecordCache_new true min_cache_size diff) [] [].
Definition pushes (ops : list op) : list R :=
  omap (fun o => match o with OPush r => Some r | OPop => None end) ops.

Lemma init_inv min_cache_size diff : 0 <= diff -> cache_inv (init_state min_cache_size diff).
Proof.
  intros Hd. split; try done; try constructor.
  intros a b H. by apply not_elem_of_nil in H.
Qed.

Lemma inv_ordered s : cache_inv s ->
  popped s ++ PopAllSeq (cache s) ≡ₚ pushed s /\ StronglySorted hb (popped s ++ PopAllSeq (cache s)).
Proof.
  intros Hi. pose proof (inv_nodup s Hi) as Hnd. destruct Hi.
  destruct (PopAll_loop_spec (length (queue_ (cache s))) (queue_ (cache s)) eq_refl Hnd) as [P S].
  unfold PopAllSeq. split; [by rewrite P|].
  apply StronglySorted_app_2; [|done|done]. intros a b Ha Hb. apply ci_before0; [done|]. by rewrite P in Hb.
Qed.

Lemma extract_top_length q : forall t t' rest, extract_top t q = (t', rest) -> length rest = length q.
Proof.
  induction q as [|x q IH]; intros t t' rest E; cbn [extract_top] in E; [by injection E as <- <-|].
  destruct (RecordComparator t x); [destruct (extract_top x q) as [u l] eqn:E'|destruct (extract_top t q) as [u l] eqn:E'];
    injection E as <- <-; cbn; by rewrite (IH _ _ _ E').
Qed.

(** C3: for a cache with timestamps and a minimal size of at least 1, fewer than
    2^32 operations, and times that are 64-bit numbers with which the sum of time
    and [min_time_diff] does not wrap: as long as the input keeps the assumption
    the cache is built on (no record [min_time_diff] or more behind the latest
    one), any interleaving of [Push] and [Pop] followed by [PopAll] hands out
    every record exactly once, in the order of happening: by time, at equal times
    the records that are no samples before the samples, and otherwise in order of
    arrival. The order is [happens_before], stated without the comparison of the
    code. *)
Theorem RecordCache_ordered min_cache_size diff ops :
  1 <= min_cache_size -> 0 <= diff -> zlen ops < 2 ^ 32 -> disorder_bounded diff 0 ops ->
  exists s, run ops (init_state min_cache_size diff) = Ok s /\
    record <$> pushed s = pushes ops /\
    (forall i a, pushed s !! i = Some a -> seq a = Z.of_nat i) /\
    popped s ++ PopAllSeq (cache s) ≡ₚ pushed s /\
    StronglySorted happens_before (popped s ++ PopAllSeq (cache s)).
Proof.
  intros Hmin Hdiff Hlen Hd.
  destruct (run_inv ops (init_state min_cache_size diff)) as (s & Hr & Hi & Hp); [by apply init_inv|done..|].
  exists s. destruct (inv_ordered s Hi). split_and!; [done|done|by apply ci_seq|done|by apply sorted_happens_before].
Qed.

(** On a cache whose queue is not empty and has distinct numbers, [Pop],
    [ForcedPop] and [PopAll] all hand out the record that happened first;
    [Pop] does so unless the cache is smaller than its minimum or the record
    is less than [min_time_diff] older than the latest, and then changes
    nothing. *)
Theorem RecordCache_pops c :
  queue_ c <> [] -> NoDup (seq <$> queue_ c) ->
  exists t rest, queue_ c ≡ₚ t :: rest /\ Forall (fun x => IsHappensBefore t x = true) rest /\
    PopAll c = (set_queue [] c, record t :: snd (PopAll (set_queue rest c))) /\
    ForcedPop c = (set_queue rest c, Some (record t)) /\
    Pop c = Ok (if (zlen (queue_ c) <? min_cache_size_ c) ||
                   (has_timestamp_ c && (last_time_ c <? rec_Timestamp (record t) +u64 min_time_diff_in_ns_ c))
                then (c, None) else (set_queue rest c, Some (record t))).
Proof.
  intros Hne Hnd. unfold PopAll, PopAllSeq, ForcedPop, Pop, PopSeq.
  destruct (queue_ c) as [|x q] eqn:Eq; [done|]. destruct (extract_top x q) as [t rest] eqn:Et.
  destruct (extract_top_spec _ _ _ _ Hnd Et) as [P F]. exists t, rest.
  assert (length q = length rest) as Hl by (apply Permutation_length in P; cbn in P; lia).
  cbn [length PopAll_loop]. rewrite Et, Hl. split_and!; try done.
  destruct (_ <? min_cache_size_ c); cbn [orb]; [done|]. by destruct (_ && _).
Qed.
End cache.

(** Concrete records: type and time. *)
#[local] Instance pair_is_record : IsRecord (Z * Z) := {| rec_type := fst; rec_Timestamp := snd |}.

Definition cache_ops : list (op (R := Z * Z)) :=
  [OPush (PERF_RECORD_SAMPLE, 20); OPush (PERF_RECORD_MMAP, 15); OPop; OPush (PERF_RECORD_MMAP, 20);
   OPush (PERF_RECORD_SAMPLE, 40); OPop; OPop].

Lemma RecordCache_ordered_witness :
  exists s, run cache_ops (init_state 1 10) = Ok s /\ record <$> pushed s = pushes cache_ops /\
    (forall i a, pushed s !! i = Some a -> seq a = Z.of_nat i) /\
    popped s ++ PopAllSeq (cache s) ≡ₚ pushed s /\
    StronglySorted happens_before (popped s ++ PopAllSeq (cache s)).
Proof.
  apply (RecordCache_ordered 1 10 cache_ops); [lia|lia|vm_compute; reflexivity|].
  cbn. unfold is_u64. lia.
Defined.

Definition cache_small : RecordCache (R := Z * Z) :=
  mkCache true 1 10 40 3 [mkSeq 0 (PERF_RECORD_SAMPLE, 20); mkSeq 1 (PERF_RECORD_MMAP, 20); mkSeq 2 (PERF_RECORD_MMAP, 40)].

Lemma RecordCache_pops_witness :
  queue_ cache_small <> [] /\
  exists t rest, queue_ cache_small ≡ₚ t :: rest /\ Forall (fun x => IsHappensBefore t x = true) rest /\
    PopAll cache_small = (set_queue [] cache_small, record t :: snd (PopAll (set_queue rest cache_small))) /\
    ForcedPop cache_small = (set_queue rest cache_small, Some (record t)) /\
    Pop cache_small = Ok (if (zlen (queue_ cache_small) <? min_cache_size_ cache_small) ||
                   (has_timestamp_ cache_small && (last_time_ cache_small <? rec_Timestamp (record t) +u64 min_time_diff_in_ns_ cache_small))
                then (cache_small, None) else (set_queue rest cache_small, Some (record t))).
Proof.
  split; [done|]. apply (RecordCache_pops cache_small); [done|].
  apply (bool_decide_unpack _). vm_compute. exact I.
Defined.
