(* ===== verification/Maps.v ===== *)
(** Model of the map sets of src/simpleperf/thread_tree.h and thread_tree.cpp:
    [MapEntry], [MapComparator], [FixOverlappedMap] and [FindMapByAddr].

    A [std::set<MapEntry*, MapComparator>] is the list of its elements in the
    order of the comparator.  A [MapEntry] is never changed after it was
    allocated, so the pointers in the set are modelled by the entries. *)
From stdpp Require Import base list numbers strings sorting.
From Stdlib Require Import ZArith Lia Sorted.
From S2P Require Import Prelude Utils.

Record MapEntry := mkMap {
  start_addr : Z;
  len : Z;
  pgoff : Z;
  time : Z;
  dso : option nat;    (* Dso*, [None] for nullptr *)
  in_kernel : bool;
  flags : Z;
}.

Definition get_end_addr (m : MapEntry) : Z := start_addr m +u64 len m.

Definition MapComparator (map1 map2 : MapEntry) : bool :=
  if negb (start_addr map1 =? start_addr map2) then start_addr map1 <? start_addr map2
  else if negb (len map1 =? len map2) then len map1 <? len map2
  else if negb (time map1 =? time map2) then time map1 <? time map2
  else false.

(** [std::set::insert]: the set and whether the element is new. *)
Fixpoint set_insert (m : MapEntry) (l : list MapEntry) : list MapEntry * bool :=
  match l with
  | [] => ([m], true)
  | x :: l' =>
      if MapComparator x m then let '(l'', b) := set_insert m l' in (x :: l'', b)
      else if MapComparator m x then (m :: l, true)
      else (l, false)
  end.

(** [std::set::insert] while an iterator points to [old] in the set
    [done ++ old :: rest]. *)
Definition insert_around (m old : MapEntry) (done rest : list MapEntry) : list MapEntry * list MapEntry :=
  if MapComparator m old then (fst (set_insert m done), rest)
  else if MapComparator old m then (done, fst (set_insert m rest))
  else (done, rest).

(** The body of the overlapping case: insert what is left of [old] before and
    behind [map]; [old] itself is then erased. *)
Definition split_old (map old : MapEntry) (done rest : list MapEntry) : list MapEntry * list MapEntry :=
  let '(done, rest) :=
    if start_addr old <? start_addr map then
      insert_around (mkMap (start_addr old) (start_addr map -u64 start_addr old) (pgoff old)
                       (time old) (dso old) (in_kernel old) 0) old done rest
    else (done, rest) in
  if get_end_addr map <? get_end_addr old then
    insert_around (mkMap (get_end_addr map) (get_end_addr old -u64 get_end_addr map)
                     (u64 (get_end_addr map - start_addr old + pgoff old))
                     (time old) (dso old) (in_kernel old) 0) old done rest
  else (done, rest).

(** The loop of [FixOverlappedMap]: [done] lies before the iterator, [todo]
    from it on. *)
Fixpoint FixOverlappedMap_loop (fuel : nat) (map : MapEntry) (done todo : list MapEntry) : list MapEntry :=
  match fuel, todo with
  | S fuel, old :: rest =>
      if get_end_addr map <=? start_addr old then done ++ todo
      else if get_end_addr old <=? start_addr map then
        FixOverlappedMap_loop fuel map (done ++ [old]) rest
      else
        let '(done, rest) := split_old map old done rest in
        FixOverlappedMap_loop fuel map done rest
  | _, _ => done ++ todo
  end.

Definition FixOverlappedMap (maps : list MapEntry) (map : MapEntry) : list MapEntry :=
  FixOverlappedMap_loop (S (length maps)) map [] maps.

Definition IsAddrInMap (addr : Z) (map : MapEntry) : bool :=
  (start_addr map <=? addr) && (addr <? get_end_addr map).

(** [maps.upper_bound(m)] splits the set; the last element before it, if any,
    is [*--it]. *)
Fixpoint before_upper_bound (m : MapEntry) (l : list MapEntry) : option MapEntry :=
  match l with
  | [] => None
  | x :: l' =>
      if MapComparator m x then None
      else match before_upper_bound m l' with Some y => Some y | None => Some x end
  end.

Definition FindMapByAddr (maps : list MapEntry) (addr : Z) : option MapEntry :=
  let find_map := mkMap addr UINT64_MAX 0 UINT64_MAX None false 0 in
  match before_upper_bound find_map maps with
  | Some it => if IsAddrInMap addr it then Some it else None
  | None => None
  end.

(** * The invariant of a map set *)

(** A map that does not reach the end of the address space. *)
Definition map_ok (m : MapEntry) : Prop :=
  0 <= start_addr m /\ 0 <= len m /\ start_addr m + len m < 2 ^ 64 /\ 0 <= time m <= UINT64_MAX.

(** Sorted, and no two maps overlap. *)
Definition map_lt (a b : MapEntry) : Prop :=
  start_addr a + len a <= start_addr b /\ MapComparator a b = true.
Definition maps_ok (l : list MapEntry) : Prop := StronglySorted map_lt l /\ Forall map_ok l.

(** [a] and [b] have no address in common. *)
Definition apart (a b : MapEntry) : Prop :=
  start_addr a + len a <= start_addr b \/ start_addr b + len b <= start_addr a.

Lemma end_addr m : map_ok m -> get_end_addr m = start_addr m + len m.
Proof. intros (H1 & H2 & H3 & _). apply u64_small. unfold_u. lia. Qed.

Lemma comparator_lex a b :
  MapComparator a b = true <->
  start_addr a < start_addr b \/ (start_addr a = start_addr b /\
    (len a < len b \/ (len a = len b /\ time a < time b))).
Proof.
  unfold MapComparator. destruct (Z.eqb_spec (start_addr a) (start_addr b)); cbn [negb].
  - destruct (Z.eqb_spec (len a) (len b)); cbn [negb].
    + destruct (Z.eqb_spec (time a) (time b)); cbn [negb]; [split; [done|lia]|]. rewrite Z.ltb_lt. lia.
    + rewrite Z.ltb_lt. lia.
  - rewrite Z.ltb_lt. lia.
Qed.

Lemma comparator_false a b :
  MapComparator a b = false <->
  start_addr b < start_addr a \/ (start_addr a = start_addr b /\
    (len b < len a \/ (len a = len b /\ time b <= time a))).
Proof. rewrite <- not_true_iff_false, comparator_lex. lia. Qed.

(** * [FixOverlappedMap] cuts every map *)

(** What is left of [old] outside [map]. *)
Definition cut (map old : MapEntry) : list MapEntry :=
  let s := start_addr map in
  let e := start_addr map + len map in
  if (start_addr old + len old <=? s) || (e <=? start_addr old) then [old]
  else
    (if start_addr old <? s
     then [mkMap (start_addr old) (s - start_addr old) (pgoff old) (time old) (dso old) (in_kernel old) 0]
     else []) ++
    (if e <? start_addr old + len old
     then [mkMap e (start_addr old + len old - e) (u64 (e - start_addr old + pgoff old)) (time old)
             (dso old) (in_kernel old) 0]
     else []).

Lemma set_insert_last m l : Forall (fun x => MapComparator x m = true) l -> set_insert m l = (l ++ [m], true).
Proof.
  induction 1 as [|x l Hx _ IH]; [done|]. cbn [set_insert]. by rewrite Hx, IH.
Qed.

Lemma set_insert_first m l : Forall (fun x => MapComparator m x = true) l -> set_insert m l = (m :: l, true).
Proof.
  destruct 1 as [|x l Hx _]; [done|]. cbn [set_insert]. rewrite Hx.
  destruct (MapComparator x m) eqn:E; [|done]. apply comparator_lex in Hx, E. lia.
Qed.

(** Maps that start behind [map] are not cut. *)
Lemma cut_behind map l :
  Forall (fun x => start_addr map + len map <= start_addr x) l -> concat (cut map <$> l) = l.
Proof.
  induction 1 as [|x l Hx _ IH]; [done|]. cbn [fmap list_fmap concat]. rewrite IH. unfold cut.
  rewrite (proj2 (Z.leb_le _ _) Hx), orb_true_r. done.
Qed.

Lemma sorted_behind old rest e :
  Forall (map_lt old) rest -> map_ok old -> e <= start_addr old + len old ->
  Forall (fun x => e <= start_addr x) rest.
Proof.
  intros H (? & ? & _) He. eapply Forall_impl; [exact H|]. cbn. intros x [Hx _]. lia.
Qed.

(** The piece before [map] is inserted before the iterator, the piece behind
    [map] right after it. *)
Lemma fix_step map old done rest :
  map_ok map -> map_ok old -> Forall (map_lt old) rest -> Forall (fun d => map_lt d old) done ->
  start_addr old < start_addr map + len map -> start_addr map < start_addr old + len old ->
  let before := if start_addr old <? start_addr map
    then [mkMap (start_addr old) (start_addr map - start_addr old) (pgoff old) (time old) (dso old) (in_kernel old) 0]
    else [] in
  let after := if start_addr map + len map <? start_addr old + len old
    then [mkMap (start_addr map + len map) (start_addr old + len old - (start_addr map + len map))
            (u64 (start_addr map + len map - start_addr old + pgoff old)) (time old) (dso old) (in_kernel old) 0]
    else [] in
  split_old map old done rest = (done ++ before, after ++ rest).
Proof.
  intros Hm Ho Hr Hd H1 H2 before after. unfold split_old. rewrite !end_addr by done. destruct Hm as (M1 & M2 & M3 & _).
  destruct Ho as (O1 & O2 & O3 & _). subst before after.
  assert (forall b, start_addr b = start_addr map + len map ->
    start_addr map + len map < start_addr old + len old -> forall d,
    insert_around b old d rest = (d, b :: rest)) as Hafter.
  { intros b Hb Hlt d. unfold insert_around.
    rewrite (proj2 (comparator_false b old)) by lia. rewrite (proj2 (comparator_lex old b)) by lia.
    rewrite set_insert_first; [done|]. eapply Forall_impl; [exact Hr|]. cbn. intros x [Hx _].
    apply comparator_lex. lia. }
  assert (forall b, start_addr b = start_addr old -> start_addr old < start_addr map ->
    len b = start_addr map - start_addr old -> insert_around b old done rest = (done ++ [b], rest)) as Hbefore.
  { intros b Hb Hlt Hl. unfold insert_around. rewrite (proj2 (comparator_lex b old)) by lia.
    rewrite set_insert_last; [done|]. eapply Forall_impl; [exact Hd|]. cbn. intros x [Hx Hc].
    apply comparator_lex. apply comparator_lex in Hc. lia. }
  destruct (Z.ltb_spec (start_addr old) (start_addr map)); 
    destruct (Z.ltb_spec (start_addr map + len map) (start_addr old + len old));
    rewrite ?(u64_small (start_addr map - start_addr old)) by (unfold_u; lia);
    rewrite ?(u64_small (start_addr old + len old - (start_addr map + len map))) by (unfold_u; lia);
    rewrite ?Hbefore, ?Hafter, ?app_nil_r by done; done.
Qed.

Lemma fix_loop map : map_ok map -> forall todo done fuel,
  StronglySorted map_lt todo -> Forall map_ok todo ->
  Forall (fun d => Forall (map_lt d) todo) done -> (length todo < fuel)%nat ->
  FixOverlappedMap_loop fuel map done todo = done ++ concat (cut map <$> todo).
Proof.
  intros Hm. induction todo as [|old rest IH]; intros done fuel Hs Ho Hd Hf.
  { destruct fuel; done. }
  apply StronglySorted_inv in Hs as [Hs Hr]. apply Forall_cons in Ho as [Ho Hok].
  destruct fuel as [|fuel]; [cbn in Hf; lia|]. cbn [length] in Hf. cbn [FixOverlappedMap_loop].
  assert (Forall (fun d => map_lt d old) done) as Hd1
    by (eapply Forall_impl; [exact Hd|]; cbn; intros d H; by apply Forall_cons in H as [? _]).
  assert (Forall (fun d => Forall (map_lt d) rest) done) as Hd2
    by (eapply Forall_impl; [exact Hd|]; cbn; intros d H; by apply Forall_cons in H as [_ ?]).
  rewrite (end_addr map), (end_addr old) by done. destruct Ho as (O1 & O2 & O3 & O4).
  destruct (Z.leb_spec (start_addr map + len map) (start_addr old)).
  { rewrite cut_behind; [done|]. constructor; [done|]. eapply sorted_behind; [exact Hr|done|lia]. }
  cbn [fmap list_fmap concat]. unfold cut at 1.
  destruct (Z.leb_spec (start_addr old + len old) (start_addr map)).
  { cbn [orb]. rewrite IH; [by rewrite <- app_assoc|done|done| |lia].
    apply Forall_app. split; [done|]. by apply Forall_singleton. }
  cbn [orb]. rewrite (proj2 (Z.leb_gt _ _)) by done.
  rewrite (fix_step map old done rest) by done. cbv zeta.
  set (before := if start_addr old <? start_addr map then _ else _).
  destruct (Z.ltb_spec (start_addr map + len map) (start_addr old + len old)) as [Hlt|Hge].
  - rewrite cut_behind by (eapply sorted_behind; [exact Hr|done|lia]).
    destruct fuel as [|fuel]; [lia|]. cbn [app FixOverlappedMap_loop]. rewrite (end_addr map) by done.
    cbn [start_addr]. rewrite Z.leb_refl, <- !app_assoc. done.
  - cbn [app]. rewrite app_nil_r, app_assoc. apply IH; [done|done| |lia].
    apply Forall_app. split; [done|]. subst before. destruct (Z.ltb_spec (start_addr old) (start_addr map)); [|done].
    apply Forall_singleton. eapply Forall_impl; [exact Hr|]. cbn. intros x [Hx Hc].
    split; cbn [start_addr len]; [lia|]. apply comparator_lex. cbn [start_addr len time]. lia.
Qed.

Lemma FixOverlappedMap_cut maps map :
  maps_ok maps -> map_ok map -> FixOverlappedMap maps map = concat (cut map <$> maps).
Proof. intros [Hs Ho] Hm. unfold FixOverlappedMap. rewrite fix_loop; try done; lia. Qed.

(** The pieces of a map lie within it, outside [map], in order. *)
Definition within (old p : MapEntry) : Prop :=
  start_addr old <= start_addr p /\ start_addr p + len p <= start_addr old + len old /\
  (start_addr p = start_addr old -> len p <= len old) /\
  (len p = len old -> p = old) /\ time p = time old.

Lemma cut_spec map old :
  map_ok map -> map_ok old ->
  Forall (fun p => map_ok p /\ within old p /\ apart map p /\ (p = old \/ 0 < len p)) (cut map old) /\
  StronglySorted map_lt (cut map old).
Proof.
  intros (M1 & M2 & M3 & M4) (O1 & O2 & O3 & O4). unfold cut.
  destruct (Z.leb_spec (start_addr old + len old) (start_addr map)); cbn [orb].
  { split; [|repeat constructor]. apply Forall_singleton. unfold map_ok, within, apart.
    split_and!; try lia; try done. by left. }
  destruct (Z.leb_spec (start_addr map + len map) (start_addr old)).
  { split; [|repeat constructor]. apply Forall_singleton. unfold map_ok, within, apart.
    split_and!; try lia; try done. by left. }
  set (b := mkMap (start_addr old) _ _ _ _ _ _). set (a := mkMap _ (_ - (start_addr map + len map)) _ _ _ _ _).
  assert (start_addr old < start_addr map -> map_ok b /\ within old b /\ apart map b /\ (b = old \/ 0 < len b)) as Hb.
  { intros. unfold map_ok, within, apart, b. cbn [start_addr len time]. split_and!; try lia; intros; lia. }
  assert (start_addr map + len map < start_addr old + len old ->
    map_ok a /\ within old a /\ apart map a /\ (a = old \/ 0 < len a)) as Ha.
  { intros. unfold map_ok, within, apart, a. cbn [start_addr len time]. split_and!; try lia; intros; lia. }
  destruct (Z.ltb_spec (start_addr old) (start_addr map));
    destruct (Z.ltb_spec (start_addr map + len map) (start_addr old + len old)); cbn [app].
  - split; [constructor; [auto|apply Forall_singleton; auto]|]. repeat constructor.
    + unfold a, b. cbn [start_addr len]. lia.
    + apply comparator_lex. unfold a, b. cbn [start_addr]. lia.
  - split; [apply Forall_singleton; auto|repeat constructor].
  - split; [apply Forall_singleton; auto|repeat constructor].
  - split; constructor.
Qed.

Lemma within_lt x old p q :
  map_lt x old -> within x p -> within old q -> (p = x \/ 0 < len p) -> (q = old \/ 0 < len q) ->
  map_ok x -> map_ok old -> map_ok p -> map_ok q -> map_lt p q.
Proof.
  unfold map_lt, within, map_ok. rewrite !comparator_lex.
  intros (H1 & H2) (A1 & A2 & A3 & A4 & A5) (B1 & B2 & B3 & B4 & B5) Hp Hq X O P Q.
  split; [lia|]. destruct (Z.lt_ge_cases (start_addr p) (start_addr q)); [lia|].
  right. split; [lia|]. destruct Hp as [->|]; [|lia]. destruct Hq as [->|]; lia.
Qed.

Lemma cut_all_spec map l :
  map_ok map -> maps_ok l ->
  maps_ok (concat (cut map <$> l)) /\ Forall (apart map) (concat (cut map <$> l)).
Proof.
  intros Hm [Hs Ho].
  assert (Forall (fun old => map_ok old) l) as Hok by done.
  induction Hs as [|old l Hs IH Hr].
  { repeat constructor. }
  apply Forall_cons in Ho as [Ho Hl]. destruct (IH Hl Hl) as [[S1 O1] A1].
  destruct (cut_spec map old Hm Ho) as [C1 C2]. cbn [fmap list_fmap concat]. split; [split|].
  - apply StronglySorted_app_2; [|done|done]. intros p q Hp Hq.
    rewrite Forall_forall in C1. destruct (C1 p Hp) as (P1 & P2 & _ & P3).
    apply list_elem_of_In, in_concat in Hq as (c & Hc & Hq). apply list_elem_of_In in Hc, Hq.
    apply list_elem_of_fmap in Hc as (x & -> & Hx). rewrite Forall_forall in Hr, Hl.
    destruct (cut_spec map x Hm (Hl x Hx)) as [D1 _]. rewrite Forall_forall in D1.
    destruct (D1 q Hq) as (Q1 & Q2 & _ & Q3). eapply within_lt; eauto.
  - apply Forall_app. split; [|done]. eapply Forall_impl; [exact C1|]. by intros p (? & _).
  - apply Forall_app. split; [|done]. eapply Forall_impl; [exact C1|]. by intros p (_ & _ & ? & _).
Qed.

(** * Inserting a map *)

Lemma sorted_impl {A} (R S : A -> A -> Prop) l :
  (forall a b, R a b -> S a b) -> StronglySorted R l -> StronglySorted S l.
Proof.
  intros H. induction 1 as [|x l _ IH Hx]; constructor; [done|].
  eapply Forall_impl; [exact Hx|]. auto.
Qed.

Lemma set_insert_split m l :
  StronglySorted (fun a b => MapComparator a b = true) l ->
  Forall (fun x => MapComparator x m = true \/ MapComparator m x = true) l ->
  exists l1 l2, l = l1 ++ l2 /\ set_insert m l = (l1 ++ m :: l2, true) /\
    Forall (fun x => MapComparator x m = true) l1 /\ Forall (fun x => MapComparator m x = true) l2.
Proof.
  induction 1 as [|x l Hs IH Hx]; intros Hm.
  { exists [], []. by repeat split. }
  apply Forall_cons in Hm as [Hxm Hm]. cbn [set_insert]. destruct (MapComparator x m) eqn:E.
  - destruct (IH Hm) as (l1 & l2 & -> & -> & F1 & F2). exists (x :: l1), l2. repeat split; auto.
  - destruct Hxm as [?|Hxm]; [done|]. rewrite Hxm. exists [], (x :: l). repeat split; [constructor|].
    constructor; [done|]. eapply Forall_impl; [exact Hx|]. cbn. intros y Hy.
    apply comparator_lex in Hxm, Hy. apply comparator_lex. lia.
Qed.

(** A map apart from [m] is comparable with it, unless both are empty and the
    same. *)
Lemma apart_comparable m x :
  map_ok m -> map_ok x -> apart m x ->
  (len m = 0 -> start_addr x = start_addr m -> len x = 0 -> time x <> time m) ->
  MapComparator x m = true \/ MapComparator m x = true.
Proof.
  intros (M1 & M2 & _) (X1 & X2 & _) Ha Hz. rewrite !comparator_lex.
  unfold apart in Ha. destruct (Z.eq_dec (start_addr x) (start_addr m)); lia.
Qed.

Definition no_empty_twin (m : MapEntry) (l : list MapEntry) : Prop :=
  Forall (fun x => len m = 0 -> start_addr x = start_addr m -> len x = 0 -> time x <> time m) l.

Lemma insert_apart m l :
  map_ok m -> maps_ok l -> Forall (apart m) l -> no_empty_twin m l ->
  exists l1 l2, l = l1 ++ l2 /\ set_insert m l = (l1 ++ m :: l2, true) /\ maps_ok (l1 ++ m :: l2).
Proof.
  intros Hm [Hs Ho] Ha Hz.
  destruct (set_insert_split m l) as (l1 & l2 & -> & E & F1 & F2).
  { eapply sorted_impl; [|exact Hs]. by intros a b [_ ?]. }
  { apply Forall_forall. intros x Hx. unfold no_empty_twin in Hz.
    rewrite Forall_forall in Ha, Ho, Hz. eapply apart_comparable; eauto. }
  exists l1, l2. split; [done|]. split; [done|].
  apply Forall_app in Ho as [O1 O2]. apply Forall_app in Ha as [A1 A2].
  apply StronglySorted_app in Hs as (S12 & S1 & S2). split.
  - apply StronglySorted_app_2; [|done|constructor; [done|]].
    + intros x y Hx Hy. apply elem_of_cons in Hy as [->|Hy]; [|by apply S12].
      rewrite Forall_forall in A1, F1, O1. split; [|by apply F1].
      destruct (A1 x Hx) as [H|H]; [|lia]. pose proof (F1 x Hx) as Hc. apply comparator_lex in Hc.
      destruct Hm as (? & ? & _), (O1 x Hx) as (? & ? & _). lia.
    + apply Forall_forall. intros y Hy. rewrite Forall_forall in A2, F2, O2. split; [|by apply F2].
      destruct (A2 y Hy) as [H|H]; [lia|]. pose proof (F2 y Hy) as Hc. apply comparator_lex in Hc.
      destruct Hm as (? & ? & _), (O2 y Hy) as (? & ? & _). lia.
  - apply Forall_app. split; [done|]. by constructor.
Qed.

(** * What an address resolves to *)

Fixpoint map_at (l : list MapEntry) (addr : Z) : option MapEntry :=
  match l with
  | [] => None
  | x :: l => if IsAddrInMap addr x then Some x else map_at l addr
  end.

(** The file, its map's age and mode, and the offset in the file. *)
Definition map_loc (addr : Z) (m : MapEntry) : option nat * bool * Z * Z :=
  (dso m, in_kernel m, time m, u64 (addr - start_addr m + pgoff m)).
Definition resolve (l : list MapEntry) (addr : Z) : option (option nat * bool * Z * Z) :=
  map_loc addr <$> map_at l addr.

Lemma in_map addr m : map_ok m -> IsAddrInMap addr m = true <-> start_addr m <= addr < start_addr m + len m.
Proof.
  intros Hm. unfold IsAddrInMap. rewrite end_addr by done. rewrite andb_true_iff, Z.leb_le, Z.ltb_lt. lia.
Qed.

Lemma map_at_app l k addr :
  map_at (l ++ k) addr = match map_at l addr with Some x => Some x | None => map_at k addr end.
Proof. induction l as [|x l IH]; [done|]. cbn. by destruct (IsAddrInMap addr x). Qed.

Lemma resolve_app l k addr :
  resolve (l ++ k) addr = match resolve l addr with Some x => Some x | None => resolve k addr end.
Proof. unfold resolve. rewrite map_at_app. by destruct (map_at l addr). Qed.

Lemma map_at_none l addr : Forall (fun x => IsAddrInMap addr x = false) l -> map_at l addr = None.
Proof. induction 1 as [|x l Hx _ IH]; [done|]. cbn. by rewrite Hx. Qed.

Lemma cut_resolve map old addr :
  map_ok map -> map_ok old -> IsAddrInMap addr map = false -> resolve (cut map old) addr = resolve [old] addr.
Proof.
  intros Hm Ho Hn. pose proof Hm as (M1 & M2 & M3 & M4). pose proof Ho as (O1 & O2 & O3 & O4).
  apply not_true_iff_false in Hn. rewrite in_map in Hn by done. unfold cut.
  destruct ((_ <=? _) || _) eqn:E; [done|]. apply orb_false_elim in E as [E1 E2]. bool_to_prop.
  assert (forall b, map_ok b -> IsAddrInMap addr b = (start_addr b <=? addr) && (addr <? start_addr b + len b)) as Hin
    by (intros b Hb; unfold IsAddrInMap; by rewrite end_addr).
  set (b := mkMap (start_addr old) _ _ _ _ _ _). set (a := mkMap _ (_ - (start_addr map + len map)) _ _ _ _ _).
  rewrite resolve_app. unfold resolve at 3. cbn [map_at]. rewrite (Hin old) by done.
  destruct (Z.ltb_spec (start_addr old) (start_addr map)) as [Hb|Hb];
    destruct (Z.ltb_spec (start_addr map + len map) (start_addr old + len old)) as [Ha|Ha];
    unfold resolve; cbn [map_at fmap option_fmap option_map];
    rewrite ?(Hin b) by (unfold map_ok, b; cbn [start_addr len time]; lia);
    rewrite ?(Hin a) by (unfold map_ok, a; cbn [start_addr len time]; lia);
    unfold a, b; cbn [start_addr len];
    destruct (Z.leb_spec (start_addr old) addr); destruct (Z.ltb_spec addr (start_addr old + len old));
    try destruct (Z.ltb_spec addr (start_addr old + (start_addr map - start_addr old)));
    try destruct (Z.leb_spec (start_addr map + len map) addr);
    try destruct (Z.ltb_spec addr (start_addr map + len map + (start_addr old + len old - (start_addr map + len map))));
    cbn [andb fmap option_fmap option_map]; try lia; try done.
  all: unfold map_loc; cbn [dso in_kernel time start_addr pgoff]; do 2 f_equal; unfold u64;
    rewrite Zplus_mod_idemp_r; f_equal; lia.
Qed.

Lemma cut_all_resolve map l addr :
  map_ok map -> Forall map_ok l -> IsAddrInMap addr map = false ->
  resolve (concat (cut map <$> l)) addr = resolve l addr.
Proof.
  intros Hm Ho Hn. induction Ho as [|old l Hold _ IH]; [done|]. cbn [fmap list_fmap concat].
  rewrite resolve_app, IH, cut_resolve by done. change (old :: l) with ([old] ++ l). by rewrite resolve_app.
Qed.

Lemma apart_not_in m l addr :
  map_ok m -> Forall map_ok l -> Forall (apart m) l -> IsAddrInMap addr m = true ->
  Forall (fun x => IsAddrInMap addr x = false) l.
Proof.
  intros Hm Ho Ha Hi. apply (in_map addr m Hm) in Hi. apply Forall_forall. intros x Hx.
  rewrite Forall_forall in Ho, Ha. apply not_true_iff_false. rewrite in_map by auto.
  specialize (Ha x Hx). unfold apart in Ha. lia.
Qed.

(** Inserting [m] between the parts of a set that is apart from it. *)
Lemma insert_resolve m l1 l2 addr :
  map_ok m -> Forall map_ok (l1 ++ l2) -> Forall (apart m) (l1 ++ l2) ->
  map_at (l1 ++ m :: l2) addr = if IsAddrInMap addr m then Some m else map_at (l1 ++ l2) addr.
Proof.
  intros Hm Ho Ha. rewrite !map_at_app. cbn [map_at]. destruct (IsAddrInMap addr m) eqn:E; [|done].
  pose proof (apart_not_in m _ addr Hm Ho Ha E) as H. apply Forall_app in H as [H _].
  by rewrite map_at_none.
Qed.

(** The elements [upper_bound] passes are those that start at or before [addr]. *)
Lemma before_upper_bound_spec l addr :
  maps_ok l -> 0 <= addr <= UINT64_MAX ->
  match before_upper_bound (mkMap addr UINT64_MAX 0 UINT64_MAX None false 0) l with
  | None => map_at l addr = None
  | Some it => map_at l addr = if IsAddrInMap addr it then Some it else None
  end.
Proof.
  intros [Hs Ho] Ha. induction Hs as [|x l Hs IH Hx]; [done|].
  apply Forall_cons in Ho as [Hxo Ho]. specialize (IH Ho). cbn [before_upper_bound map_at].
  set (f := mkMap addr _ _ _ _ _ _) in *. pose proof Hxo as (X1 & X2 & X3 & X4).
  assert (Forall (fun y => addr < start_addr x -> IsAddrInMap addr y = false) l) as Hlate.
  { apply Forall_forall. intros y Hy Hlt. rewrite Forall_forall in Hx, Ho. destruct (Hx y Hy) as [Hxy _].
    apply not_true_iff_false. rewrite in_map by auto. lia. }
  destruct (MapComparator f x) eqn:E.
  - apply comparator_lex in E. unfold f, UINT64_MAX in E. cbn [start_addr len time] in E.
    assert (addr < start_addr x) as Hlt by (unfold UINT64_MAX in *; lia).
    destruct (IsAddrInMap addr x) eqn:Ei; [apply in_map in Ei; [lia|done]|].
    apply map_at_none. eapply Forall_impl; [exact Hlate|]. cbn. auto.
  - apply comparator_false in E. unfold f in E. cbn [start_addr len time] in E.
    destruct (before_upper_bound f l) as [y|] eqn:Ey.
    + destruct (IsAddrInMap addr x) eqn:Ei; [|done].
      assert (y ∈ l /\ start_addr y <= addr) as [Hy Hya].
      { clear IH. revert Ey. clear -Ho Ha. induction l as [|z l IHl]; [done|]. cbn [before_upper_bound].
        apply Forall_cons in Ho as [Hz Ho].
        destruct (MapComparator f z) eqn:Ez; [done|]. destruct (before_upper_bound f l) eqn:El.
        - intros [= ->]. destruct (IHl Ho eq_refl). split; [by apply list_elem_of_further|done].
        - intros [= ->]. split; [apply list_elem_of_here|]. apply comparator_false in Ez.
          unfold f in Ez. cbn [start_addr len time] in Ez. lia. }
      rewrite Forall_forall in Hx. destruct (Hx y Hy) as [Hxy _]. apply in_map in Ei; [|done]. lia.
    + destruct (IsAddrInMap addr x); done.
Qed.

Lemma map_at_elem l addr m : map_at l addr = Some m -> m ∈ l /\ IsAddrInMap addr m = true.
Proof.
  induction l as [|x l IH]; [done|]. cbn [map_at]. destruct (IsAddrInMap addr x) eqn:E.
  - intros [= ->]. split; [apply list_elem_of_here|done].
  - intros H. destruct (IH H). split; [by apply list_elem_of_further|done].
Qed.

Lemma map_at_some l addr m : m ∈ l -> IsAddrInMap addr m = true -> is_Some (map_at l addr).
Proof.
  induction l as [|x l IH]; intros Hm Ha; [by apply not_elem_of_nil in Hm|]. cbn [map_at].
  destruct (IsAddrInMap addr x) eqn:E; [done|]. apply elem_of_cons in Hm as [->|Hm]; [congruence|auto].
Qed.

Lemma maps_unique l addr x y :
  maps_ok l -> x ∈ l -> y ∈ l -> IsAddrInMap addr x = true -> IsAddrInMap addr y = true -> x = y.
Proof.
  intros [Hs Ho] Hx Hy Ex Ey. induction Hs as [|z l Hs IH Hz]; [by apply not_elem_of_nil in Hx|].
  apply Forall_cons in Ho as [Hzo Ho]. rewrite Forall_forall in Hz, Ho.
  apply elem_of_cons in Hx as [->|Hx], Hy as [->|Hy]; auto.
  - destruct (Hz y Hy) as [H _]. apply in_map in Ex, Ey; auto. lia.
  - destruct (Hz x Hx) as [H _]. apply in_map in Ex, Ey; auto. lia.
  - apply IH; [by rewrite Forall_forall|done|done].
Qed.

Lemma fix_insert l m :
  maps_ok l -> map_ok m -> 0 < len m ->
  exists l', set_insert m (FixOverlappedMap l m) = (l', true) /\ maps_ok l' /\
    forall addr, map_at l' addr = Some m /\ IsAddrInMap addr m = true \/
                 resolve l' addr = resolve l addr /\ IsAddrInMap addr m = false.
Proof.
  intros Hl Hm Hpos. rewrite (FixOverlappedMap_cut l m Hl Hm).
  destruct (cut_all_spec m l Hm Hl) as [Hok Hap].
  destruct (insert_apart m (concat (cut m <$> l)) Hm Hok Hap) as (l1 & l2 & E12 & Ei & Hok').
  { apply Forall_forall. intros x _ H. lia. }
  exists (l1 ++ m :: l2). split; [done|]. split; [done|]. intros addr. destruct Hok as [_ Ho].
  rewrite E12 in Ho, Hap. pose proof (insert_resolve m l1 l2 addr Hm Ho Hap) as Hres.
  destruct (IsAddrInMap addr m) eqn:Ha; [by left|]. right. split; [|done].
  unfold resolve. rewrite Hres, <- E12. fold (resolve (concat (cut m <$> l)) addr).
  apply cut_all_resolve; [done|apply Hl|done].
Qed.

Lemma FindMapByAddr_map_at l addr :
  maps_ok l -> 0 <= addr <= UINT64_MAX -> FindMapByAddr l addr = map_at l addr.
Proof.
  intros Hl Ha. pose proof (before_upper_bound_spec l addr Hl Ha) as H. unfold FindMapByAddr.
  by destruct (before_upper_bound _ l).
Qed.

(** C2: adding a map that is not empty and ends below 2^64 to a set of disjoint
    maps, as [AddKernelMap] and
    [AddThreadMap] do ([FixOverlappedMap], then [insert]): the loop ends with
    the set in which every old map is cut to what lies outside the new one;
    the insertion succeeds; the set stays sorted and disjoint; addresses in
    the new map resolve to it, and all others to the same file, age, mode and
    file offset as before. *)
Theorem FixOverlappedMap_insert l m :
  maps_ok l -> map_ok m -> 0 < len m ->
  (forall fuel, (length l < fuel)%nat ->
     FixOverlappedMap_loop fuel m [] l = FixOverlappedMap l m) /\
  Forall (apart m) (FixOverlappedMap l m) /\
  exists l', set_insert m (FixOverlappedMap l m) = (l', true) /\ maps_ok l' /\
    forall addr, map_at l' addr = Some m /\ IsAddrInMap addr m = true \/
                 resolve l' addr = resolve l addr /\ IsAddrInMap addr m = false.
Proof.
  intros Hl Hm Hpos. split; [|split; [|by apply fix_insert]].
  - intros fuel Hf. rewrite FixOverlappedMap_cut by done. destruct Hl as [Hs Ho]. by rewrite fix_loop.
  - rewrite FixOverlappedMap_cut by done. by apply cut_all_spec.
Qed.

Definition maps_example : list MapEntry :=
  [mkMap 0 100 0 1 (Some 1%nat) false 0; mkMap 200 100 16 2 (Some 2%nat) false 0].

Lemma maps_example_ok : maps_ok maps_example.
Proof. split; repeat constructor; vm_compute; congruence. Qed.

Lemma FixOverlappedMap_insert_witness :
  FixOverlappedMap maps_example (mkMap 50 200 0 3 (Some 3%nat) false 0) =
    [mkMap 0 50 0 1 (Some 1%nat) false 0; mkMap 250 50 66 2 (Some 2%nat) false 0] /\
  exists l', set_insert (mkMap 50 200 0 3 (Some 3%nat) false 0)
      (FixOverlappedMap maps_example (mkMap 50 200 0 3 (Some 3%nat) false 0)) = (l', true) /\ maps_ok l'.
Proof.
  split; [vm_compute; reflexivity|].
  destruct (FixOverlappedMap_insert maps_example (mkMap 50 200 0 3 (Some 3%nat) false 0) maps_example_ok)
    as (_ & _ & l' & H1 & H2 & _).
  - repeat constructor; vm_compute; congruence.
  - reflexivity.
  - by exists l'.
Defined.

(** On a set of disjoint maps [FindMapByAddr] finds the map that contains
    the address, the only one, and nothing when there is none. *)
Theorem FindMapByAddr_finds l addr :
  maps_ok l -> 0 <= addr <= UINT64_MAX ->
  match FindMapByAddr l addr with
  | Some m => m ∈ l /\ IsAddrInMap addr m = true /\ (forall x, x ∈ l -> IsAddrInMap addr x = true -> x = m)
  | None => forall x, x ∈ l -> IsAddrInMap addr x = false
  end.
Proof.
  intros Hl Ha. rewrite FindMapByAddr_map_at by done. destruct (map_at l addr) as [m|] eqn:E.
  - destruct (map_at_elem _ _ _ E) as [H1 H2]. split; [done|]. split; [done|].
    intros x Hx Hxa. by eapply maps_unique.
  - intros x Hx. apply not_true_iff_false. intros Hxa.
    destruct (map_at_some l addr x Hx Hxa) as [y Hy]. congruence.
Qed.

Lemma FindMapByAddr_finds_witness :
  match FindMapByAddr maps_example 250 with
  | Some m => m ∈ maps_example /\ IsAddrInMap 250 m = true /\
      (forall x, x ∈ maps_example -> IsAddrInMap 250 x = true -> x = m)
  | None => forall x, x ∈ maps_example -> IsAddrInMap 250 x = false
  end.
Proof. apply (FindMapByAddr_finds maps_example 250 maps_example_ok). vm_compute. split; congruence. Defined.

(** What [FixOverlappedMap] keeps of an overlapped map has lost the flags
    of that map: an address of a map that is partly covered by a newer one is
    then found in a map of the same file with no flags, so a map of JIT
    symbols is no longer recognised as one. *)
Theorem FixOverlappedMap_drops_flags l m old addr :
  maps_ok l -> map_ok m -> old ∈ l -> ~ apart m old ->
  IsAddrInMap addr old = true -> IsAddrInMap addr m = false ->
  exists p, map_at (FixOverlappedMap l m) addr = Some p /\ dso p = dso old /\ flags p = 0.
Proof.
  intros Hl Hm Hold Hap Ha Hn. rewrite FixOverlappedMap_cut by done. pose proof Hl as [_ Ho].
  destruct (map_at_some l addr old Hold Ha) as [old' Eo]. pose proof (map_at_elem _ _ _ Eo) as [Ho1 Ho2].
  assert (old' = old) as -> by (by eapply maps_unique).
  pose proof (cut_all_resolve m l addr Hm Ho Hn) as Hr. unfold resolve in Hr. rewrite Eo in Hr.
  destruct (map_at (concat (cut m <$> l)) addr) as [p|] eqn:Ep; [|done].
  exists p. split; [done|]. cbn in Hr. injection Hr as Hd _ _ _. split; [done|].
  apply map_at_elem in Ep as [Hp Hpa]. apply list_elem_of_In, in_concat in Hp as (c & Hc & Hp).
  apply list_elem_of_In in Hc, Hp. apply list_elem_of_fmap in Hc as (x & -> & Hx).
  rewrite Forall_forall in Ho. destruct (cut_spec m x Hm (Ho x Hx)) as [Hcs _]. rewrite Forall_forall in Hcs.
  destruct (Hcs p Hp) as (Pok & (W1 & W2 & _) & _).
  assert (x = old) as ->.
  { eapply maps_unique; [exact Hl|done|done| |done]. apply in_map; [auto|]. apply in_map in Hpa; [lia|done]. }
  unfold cut in Hp. destruct ((_ <=? _) || _) eqn:E.
  - exfalso. apply Hap. unfold apart. apply orb_prop in E as [E|E]; apply Z.leb_le in E; lia.
  - apply elem_of_app in Hp as [Hp|Hp]; destruct (_ <? _);
      first [by apply not_elem_of_nil in Hp | by apply list_elem_of_singleton in Hp as ->].
Qed.

Lemma FixOverlappedMap_drops_flags_witness :
  exists p, map_at (FixOverlappedMap [mkMap 0 100 0 1 (Some 1%nat) false 0x4000] (mkMap 50 10 0 3 (Some 3%nat) false 0)) 20 = Some p /\
    dso p = Some 1%nat /\ flags p = 0.
Proof.
  apply (FixOverlappedMap_drops_flags [mkMap 0 100 0 1 (Some 1%nat) false 0x4000] (mkMap 50 10 0 3 (Some 3%nat) false 0)
    (mkMap 0 100 0 1 (Some 1%nat) false 0x4000) 20).
  - split; repeat constructor; vm_compute; congruence.
  - repeat constructor; vm_compute; congruence.
  - apply list_elem_of_here.
  - unfold apart. vm_compute. intros [H|H]; by apply H.
  - reflexivity.
  - reflexivity.
Defined.
