(* ===== verification/KernelSymbols.v ===== *)
(** Model of [ProcessKernelSymbols] of src/simpleperf/utils.cpp, the reader of
    the text of /proc/kallsyms that [KernelDso] (Dso.v) takes its symbols
    from, with the part of [sscanf] it uses.

    The variable-length buffers [name] and [module] of each line are
    modelled by their size: a write that does not fit is [OutOfBounds]. *)
From stdpp Require Import base list numbers strings.
From Stdlib Require Import ZArith Lia.
From S2P Require Import Prelude Utils.

Record KernelSymbol := mkKernelSymbol {
  ks_addr : Z;
  ks_type : Z;
  ks_name : bytes;
  ks_module : option bytes;  (* None: not in a kernel module *)
}.

(** * [sscanf(p, "%llx %c %s%s", ...)] *)

Definition is_space (c : Z) : bool := (c =? 32) || ((9 <=? c) && (c <=? 13)).

Fixpoint skip_space (s : bytes) : bytes :=
  match s with
  | c :: s' => if is_space c then skip_space s' else s
  | [] => []
  end.

(** The characters [%s] takes, and the rest. *)
Fixpoint span_word (s : bytes) : bytes * bytes :=
  match s with
  | c :: s' => if is_space c then ([], s) else let '(w, r) := span_word s' in (c :: w, r)
  | [] => ([], [])
  end.

Definition hex_val (c : Z) : option Z :=
  if (48 <=? c) && (c <=? 57) then Some (c - 48)
  else if (97 <=? c) && (c <=? 102) then Some (c - 87)
  else if (65 <=? c) && (c <=? 70) then Some (c - 55)
  else None.

(** The value so far, whether a digit was read, and the rest. *)
Fixpoint scan_digits (acc : Z) (any : bool) (s : bytes) : Z * bool * bytes :=
  match s with
  | c :: s' =>
      match hex_val c with
      | Some d => scan_digits (acc * 16 + d) true s'
      | None => (acc, any, s)
      end
  | [] => (acc, any, [])
  end.

Definition scan_sign (s : bytes) : bool * bytes :=
  match s with
  | c :: s' => if c =? 45 then (true, s') else if c =? 43 then (false, s') else (false, s)
  | [] => (false, [])
  end.

Definition scan_0x (s : bytes) : bytes :=
  match s with
  | z :: x :: s' => if (z =? 48) && ((x =? 120) || (x =? 88)) then s' else s
  | _ => s
  end.

(** [%llx] stores what [strtoull] gives: a value that does not fit saturates. *)
Definition scan_hex (s : bytes) : option (Z * bytes) :=
  let '(neg, s) := scan_sign (skip_space s) in
  let '(v, any, rest) := scan_digits 0 false (scan_0x s) in
  if any then
    Some (if UINT64_MAX <? v then UINT64_MAX else if neg then u64 (- v) else v, rest)
  else None.

(** [None]: fewer than three conversions; the fourth leaves [""] when the line
    has no more words. *)
Definition scan_symbol (s : bytes) : option (Z * Z * bytes * bytes) :=
  match scan_hex s with
  | None => None
  | Some (addr, s) =>
      match skip_space s with
      | [] => None
      | type :: s =>
          let '(name, s) := span_word (skip_space s) in
          match name with
          | [] => None
          | _ => Some (addr, type, name, fst (span_word (skip_space s)))
          end
      end
  end.

(** [module_len > 2 && module[0] == '[' && module[module_len - 1] == ']'] *)
Definition module_of (module : bytes) : option bytes :=
  match module with
  | c :: rest =>
      if (2 <? zlen module) && (c =? 91) && bool_decide (last rest = Some 93)
      then Some (take (length rest - 1) rest) else None
  | [] => None
  end.

(** * [ProcessKernelSymbols] *)

(** [strchr(p, '\n')] on the bytes from [p]: it stops at the first NUL. *)
Fixpoint find_newline (s : bytes) : option nat :=
  match s with
  | [] => None
  | c :: s => if c =? 10 then Some O else if c =? 0 then None else S <$> find_newline s
  end.

Section process.
Context {St : Type} (callback : KernelSymbol -> St -> St * bool).

(** One line: [text] is what [sscanf] sees, [line_size] the size of the
    buffers.  [strcpy(module, "")] writes one byte. *)
Definition process_line (text : bytes) (line_size : Z) (st : St) : res (St * bool) :=
  if line_size <? 1 then OutOfBounds
  else match scan_symbol (c_str text) with
       | None => Ok (st, false)
       | Some (addr, type, name, module) =>
           if (zlen name + 1 <=? line_size) && (zlen module + 1 <=? line_size)
           then Ok (callback (mkKernelSymbol addr type name (module_of module)) st)
           else OutOfBounds
       end.

(** [fuel] bounds the number of lines: each takes at least one byte. *)
Fixpoint ProcessKernelSymbols_loop (fuel : nat) (data : bytes) (st : St) : res (St * bool) :=
  match fuel, data with
  | _, [] => Ok (st, false)
  | O, _ => OutOfBounds
  | S fuel, _ =>
      let '(text, line_size, rest) :=
        match find_newline data with
        | Some n => (take n data, Z.of_nat n, drop (S n) data)
        | None => (data, zlen data, [])
        end in
      '(st, stop) ← process_line text line_size st;
      if (stop : bool) then Ok (st, true) else ProcessKernelSymbols_loop fuel rest st
  end.

Definition ProcessKernelSymbols (symbol_data : bytes) (st : St) : res (St * bool) :=
  ProcessKernelSymbols_loop (length symbol_data) symbol_data st.
End process.

(** * The text the kernel prints *)

(** [n] hexadecimal digits, the most significant first. *)
Fixpoint hex_fixed (n : nat) (x : Z) : bytes :=
  match n with
  | O => []
  | S n => hex_fixed n (x / 16) ++ [hex_char (x mod 16)]
  end.

(** ["%016lx %c %s"], and ["\t[%s]"] for a symbol of a module. *)
Definition symbol_line (k : KernelSymbol) : bytes :=
  hex_fixed 16 (ks_addr k) ++ [32; ks_type k; 32] ++ ks_name k ++
  match ks_module k with Some m => [9; 91] ++ m ++ [93] | None => [] end.

Definition word_ok (w : bytes) : Prop := w <> [] /\ Forall (fun c => 0 < c < 256 /\ is_space c = false) w.

Definition kernel_symbol_ok (k : KernelSymbol) : Prop :=
  is_u64 (ks_addr k) /\ 0 < ks_type k < 256 /\ is_space (ks_type k) = false /\
  word_ok (ks_name k) /\ match ks_module k with Some m => word_ok m | None => True end.

Definition kallsyms_text (l : list KernelSymbol) : bytes := mjoin ((fun k => symbol_line k ++ [10]) <$> l).

(** What every callback of the source does: collect symbols, and go on. *)
Definition collect (k : KernelSymbol) (l : list KernelSymbol) : list KernelSymbol * bool := (l ++ [k], false).

(** * Lemmas *)

Lemma hex_val_char d : 0 <= d < 16 -> hex_val (hex_char d) = Some d /\ is_space (hex_char d) = false /\
  hex_char d <> 45 /\ hex_char d <> 43 /\ hex_char d <> 120 /\ hex_char d <> 88 /\ 0 < hex_char d < 256.
Proof.
  intros H.
  assert (d = 0 \/ d = 1 \/ d = 2 \/ d = 3 \/ d = 4 \/ d = 5 \/ d = 6 \/ d = 7 \/ d = 8 \/ d = 9 \/ d = 10 \/
    d = 11 \/ d = 12 \/ d = 13 \/ d = 14 \/ d = 15) as Hd by lia.
  repeat destruct Hd as [->|Hd]; [..|subst d]; vm_compute; split_and!; congruence.
Qed.

Lemma scan_digits_app n x acc any rest :
  0 <= x < 16 ^ Z.of_nat n ->
  scan_digits acc any (hex_fixed n x ++ rest) =
  scan_digits (acc * 16 ^ Z.of_nat n + x) (any || negb (Nat.eqb n 0)) rest.
Proof.
  revert x acc any rest. induction n as [|n IH]; intros x acc any rest Hx.
  { cbn in *. rewrite orb_false_r. f_equal; lia. }
  rewrite Nat2Z.inj_succ, Z.pow_succ_r in Hx by lia. cbn [hex_fixed]. rewrite <- app_assoc.
  assert (0 <= x / 16 < 16 ^ Z.of_nat n) as Hd.
  { split; [apply Z.div_pos; lia|]. apply Z.div_lt_upper_bound; lia. }
  rewrite IH by done. cbn [app scan_digits].
  destruct (hex_val_char (x mod 16)) as [-> _]; [apply Z.mod_pos_bound; lia|].
  rewrite Nat2Z.inj_succ, Z.pow_succ_r by lia. rewrite orb_true_r.
  f_equal. pose proof (Z.div_mod x 16). lia.
Qed.

Lemma hex_fixed_chars n x : Forall (fun c => exists d, 0 <= d < 16 /\ c = hex_char d) (hex_fixed n x).
Proof.
  revert x. induction n as [|n IH]; intros x; [constructor|]. cbn [hex_fixed]. apply Forall_app. split; [done|].
  apply Forall_singleton. exists (x mod 16). split; [apply Z.mod_pos_bound; lia|done].
Qed.

Lemma length_hex_fixed n x : length (hex_fixed n x) = n.
Proof. revert x. induction n as [|n IH]; intros x; [done|]. cbn. rewrite length_app, IH. cbn. lia. Qed.

(** Text that starts with two digits is neither signed nor prefixed. *)
Lemma scan_hex_fixed n x rest :
  (2 <= n)%nat -> 0 <= x < 16 ^ Z.of_nat n -> x <= UINT64_MAX ->
  match rest with c :: _ => hex_val c = None | [] => True end ->
  scan_hex (hex_fixed n x ++ rest) = Some (x, rest).
Proof.
  intros Hn Hx Hm Hr. pose proof (hex_fixed_chars n x) as Hc. pose proof (length_hex_fixed n x) as Hl.
  pose proof (scan_digits_app n x 0 false rest Hx) as Hd.
  destruct (hex_fixed n x) as [|a [|b w]]; [cbn in Hl; lia..|].
  apply Forall_cons in Hc as [(da & Ha & ->) Hc]. apply Forall_cons in Hc as [(db & Hb & ->) _].
  destruct (hex_val_char da Ha) as (_ & A1 & A2 & A3 & A4 & A5 & _).
  destruct (hex_val_char db Hb) as (_ & _ & _ & _ & B4 & B5 & _).
  unfold scan_hex. cbn [app skip_space]. rewrite A1. unfold scan_sign.
  rewrite (proj2 (Z.eqb_neq _ _) A2), (proj2 (Z.eqb_neq _ _) A3). cbn [scan_0x].
  rewrite (proj2 (Z.eqb_neq _ _) B4), (proj2 (Z.eqb_neq _ _) B5), andb_false_r.
  cbn [app] in Hd. rewrite Hd. replace (negb (Nat.eqb n 0)) with true by (by destruct n; [lia|]).
  replace (0 * 16 ^ Z.of_nat n + x) with x by lia.
  assert (scan_digits x (false || true) rest = (x, true, rest)) as ->.
  { destruct rest as [|c rest]; [done|]. cbn [scan_digits]. by rewrite Hr. }
  cbn. rewrite (proj2 (Z.ltb_ge _ _)) by lia. done.
Qed.

Lemma word_nonspace w : word_ok w -> Forall (fun c => is_space c = false) w.
Proof. intros [_ H]. eapply Forall_impl; [exact H|]. intros c [_ Hc]. done. Qed.

Lemma span_word_app w rest :
  Forall (fun c => is_space c = false) w -> match rest with c :: _ => is_space c = true | [] => True end ->
  span_word (w ++ rest) = (w, rest).
Proof.
  intros Hw Hr. induction Hw as [|c w Hc _ IH]; cbn [app span_word].
  - destruct rest as [|c rest]; [done|]. cbn. by rewrite Hr.
  - by rewrite Hc, IH.
Qed.

Lemma skip_word w rest : word_ok w -> skip_space (w ++ rest) = w ++ rest.
Proof.
  intros [Hn Hw]. destruct w as [|c w]; [done|]. apply Forall_cons in Hw as [[_ Hc] _]. cbn. by rewrite Hc.
Qed.

Lemma module_of_bracket m : m <> [] -> module_of ([91] ++ m ++ [93]) = Some m.
Proof.
  intros Hm. cbn [app module_of]. rewrite last_snoc, bool_decide_true by done.
  replace (length (m ++ [93%Z]) - 1)%nat with (length m) by (rewrite length_app; cbn; lia).
  rewrite take_app_length, Z.eqb_refl, zlen_cons, zlen_app. change (zlen [93]) with 1.
  assert (0 < zlen m) by (unfold zlen; destruct m; [done|cbn; lia]).
  by rewrite (proj2 (Z.ltb_lt _ _)) by lia.
Qed.

(** The word after the name, as [module_of] reads it. *)
Definition module_text (k : KernelSymbol) : bytes :=
  match ks_module k with Some m => [91] ++ m ++ [93] | None => [] end.

Lemma scan_symbol_line k :
  kernel_symbol_ok k ->
  scan_symbol (symbol_line k) = Some (ks_addr k, ks_type k, ks_name k, module_text k) /\
  module_of (module_text k) = ks_module k.
Proof.
  destruct k as [addr ty name module]. intros (Ha & Ht & Hts & Hn & Hm). unfold symbol_line, module_text.
  cbn [ks_addr ks_type ks_name ks_module] in *. unfold scan_symbol.
  rewrite scan_hex_fixed; [|lia|unfold_u; cbn; lia|unfold_u; lia|done].
  cbn [app skip_space]. change (is_space 32) with true. cbn iota. rewrite Hts. cbn iota.
  cbn [skip_space]. change (is_space 32) with true. cbn iota. rewrite skip_word by done.
  rewrite span_word_app; [|by apply word_nonspace|by destruct module].
  destruct name as [|c name]; [by destruct Hn|].
  destruct module as [m|]; [|done]. split; [|apply module_of_bracket; apply Hm].
  cbn [app skip_space]. change (is_space 9) with true. change (is_space 91) with false. cbn iota.
  replace (91 :: m ++ [93]) with ((91 :: m ++ [93]) ++ []) by apply app_nil_r.
  rewrite span_word_app; [by rewrite app_nil_r| |done].
  constructor; [done|]. apply Forall_app. split; [by apply word_nonspace|by apply Forall_singleton].
Qed.

(** A line has no newline and no NUL of its own. *)
Lemma symbol_line_chars k : kernel_symbol_ok k -> Forall (fun c => c <> 10 /\ c <> 0 /\ 0 < c < 256) (symbol_line k).
Proof.
  intros (Ha & Ht & Hts & [_ Hn] & Hm).
  assert (forall w, Forall (fun c => 0 < c < 256 /\ is_space c = false) w ->
    Forall (fun c => c <> 10 /\ c <> 0 /\ 0 < c < 256) w) as Hw.
  { intros w H. eapply Forall_impl; [exact H|]. intros c [Hc Hs]. split_and!; [|lia..]. intros ->. discriminate. }
  unfold symbol_line. rewrite !Forall_app. split_and!.
  - eapply Forall_impl; [apply hex_fixed_chars|]. intros c (d & Hd & ->).
    destruct (hex_val_char d Hd) as (_ & Hs & _ & _ & _ & _ & Hc). split_and!; [|lia..]. intros E. by rewrite E in Hs.
  - repeat constructor; try lia; intros E; rewrite E in *; discriminate.
  - by apply Hw.
  - destruct (ks_module k) as [m|]; [|constructor]. rewrite !Forall_app. split_and!; [repeat constructor; lia| |repeat constructor; lia].
    apply Hw. apply Hm.
Qed.

Lemma find_newline_app l rest :
  Forall (fun c => c <> 10 /\ c <> 0 /\ 0 < c < 256) l -> find_newline (l ++ 10 :: rest) = Some (length l).
Proof.
  induction 1 as [|c l (Hc & Hz & _) _ IH]; [done|]. cbn [app find_newline].
  by rewrite (proj2 (Z.eqb_neq _ _) Hc), (proj2 (Z.eqb_neq _ _) Hz), IH.
Qed.

Section lines.
Context {St : Type} (callback : KernelSymbol -> St -> St * bool).

Lemma process_symbol_line k st :
  kernel_symbol_ok k ->
  process_line callback (symbol_line k) (zlen (symbol_line k)) st = Ok (callback k st).
Proof.
  intros Hk. unfold process_line.
  assert (18 + zlen (ks_name k) + zlen (module_text k) < zlen (symbol_line k)) as Hl.
  { unfold symbol_line, module_text, zlen. rewrite !length_app, length_hex_fixed.
    destruct (ks_module k); rewrite ?length_app; cbn [length]; lia. }
  pose proof (zlen_nonneg (ks_name k)). pose proof (zlen_nonneg (module_text k)).
  rewrite (proj2 (Z.ltb_ge _ _)) by lia. rewrite c_str_ok.
  2:{ eapply Forall_impl; [by apply symbol_line_chars|]. intros c (_ & _ & Hc). exact Hc. }
  destruct (scan_symbol_line k Hk) as [-> ->]. rewrite !(proj2 (Z.leb_le _ _)) by lia. by destruct k.
Qed.

Lemma process_line_step fuel k rest st :
  kernel_symbol_ok k ->
  ProcessKernelSymbols_loop callback (S fuel) (symbol_line k ++ 10 :: rest) st =
  ('(st, stop) ← Ok (callback k st);
   if (stop : bool) then Ok (st, true) else ProcessKernelSymbols_loop callback fuel rest st).
Proof.
  intros Hk. pose proof (symbol_line_chars k Hk) as Hc.
  destruct (symbol_line k ++ 10 :: rest) as [|x d] eqn:E; [by destruct (symbol_line k)|].
  cbn [ProcessKernelSymbols_loop]. rewrite <- E, find_newline_app by done. rewrite take_app_length.
  replace (drop (S (length (symbol_line k))) (symbol_line k ++ 10 :: rest)) with rest.
  2:{ rewrite drop_app_ge by lia. by replace (S _ - _)%nat with 1%nat by lia. }
  pose proof (process_symbol_line k st Hk) as Hp. unfold zlen in Hp. by rewrite Hp.
Qed.
End lines.

Lemma kallsyms_text_cons k l : kallsyms_text (k :: l) = symbol_line k ++ 10 :: kallsyms_text l.
Proof. unfold kallsyms_text. rewrite fmap_cons. cbn. by rewrite <- app_assoc. Qed.

Lemma process_text l : forall acc fuel,
  Forall kernel_symbol_ok l -> (length (kallsyms_text l) <= fuel)%nat ->
  ProcessKernelSymbols_loop collect fuel (kallsyms_text l) acc = Ok (acc ++ l, false).
Proof.
  induction l as [|k l IH]; intros acc fuel Hl Hf.
  { rewrite app_nil_r. by destruct fuel. }
  apply Forall_cons in Hl as [Hk Hl]. rewrite kallsyms_text_cons in *.
  rewrite length_app in Hf. cbn [length] in Hf.
  destruct fuel as [|fuel]; [lia|]. rewrite process_line_step by done. cbn [collect mbind res_bind].
  rewrite IH by (try done; lia). by rewrite <- app_assoc.
Qed.

(** ** Text without empty lines is read to the end *)

Fixpoint no_empty_line (at_start : bool) (data : bytes) : bool :=
  match data with
  | [] => true
  | c :: data => if c =? 10 then negb at_start && no_empty_line true data else no_empty_line false data
  end.

Lemma skip_space_len s : (length (skip_space s) <= length s)%nat.
Proof. induction s as [|c s IH]; [done|]. cbn. destruct (is_space c); cbn; lia. Qed.

Lemma span_word_len s : (length (fst (span_word s)) + length (snd (span_word s)) = length s)%nat.
Proof.
  induction s as [|c s IH]; [done|]. cbn [span_word]. destruct (is_space c); [done|].
  destruct (span_word s) as [w r]. cbn in *. lia.
Qed.

Lemma scan_digits_len s : forall acc any v any' rest,
  scan_digits acc any s = (v, any', rest) ->
  (length rest <= length s)%nat /\ (any = false -> any' = true -> length rest < length s)%nat.
Proof.
  induction s as [|c s IH]; intros acc any v any' rest H; cbn [scan_digits] in H.
  { simplify_eq. split; [done|]. congruence. }
  destruct (hex_val c) as [d|]; [|simplify_eq; split; [done|]; congruence].
  apply IH in H as [H _]. cbn. split; intros; lia.
Qed.

Lemma scan_hex_len s v rest : scan_hex s = Some (v, rest) -> (length rest < length s)%nat.
Proof.
  unfold scan_hex. pose proof (skip_space_len s) as H1. destruct (scan_sign (skip_space s)) as [neg s1] eqn:E1.
  assert (length s1 <= length (skip_space s))%nat as H2.
  { destruct (skip_space s) as [|c s2]; cbn in E1; [by simplify_eq|].
    destruct (c =? 45), (c =? 43); simplify_eq; cbn; lia. }
  assert (length (scan_0x s1) <= length s1)%nat as H3.
  { destruct s1 as [|z [|x s2]]; cbn; try lia. destruct (_ && _); cbn; lia. }
  destruct (scan_digits 0 false (scan_0x s1)) as [[v' any] r] eqn:E2.
  destruct (scan_digits_len _ _ _ _ _ _ E2) as [_ H4]. destruct any; [|done]. intros [= <- <-].
  specialize (H4 eq_refl eq_refl). lia.
Qed.

Lemma scan_symbol_len s addr type name module :
  scan_symbol s = Some (addr, type, name, module) -> (length name + length module + 2 <= length s)%nat.
Proof.
  unfold scan_symbol. destruct (scan_hex s) as [[a s1]|] eqn:E1; [|done]. apply scan_hex_len in E1.
  pose proof (skip_space_len s1) as H1. destruct (skip_space s1) as [|c s2]; [done|].
  pose proof (skip_space_len s2) as H2. pose proof (span_word_len (skip_space s2)) as H3.
  destruct (span_word (skip_space s2)) as [w s3]. cbn [fst snd length] in *.
  pose proof (skip_space_len s3) as H4. pose proof (span_word_len (skip_space s3)) as H5.
  destruct w as [|x w]; [done|]. intros [= <- <- <- <-]. cbn [length] in *. lia.
Qed.

Lemma find_newline_split s n :
  find_newline s = Some n -> s = take n s ++ 10 :: drop (S n) s.
Proof.
  revert n. induction s as [|c s IH]; intros n H; [done|]. cbn [find_newline] in H.
  destruct (Z.eqb_spec c 10) as [->|]; [by simplify_eq|]. destruct (c =? 0); [done|].
  destruct (find_newline s) as [k|]; [|done]. injection H as <-. cbn [take drop app]. f_equal. by apply IH.
Qed.

Lemma no_empty_line_split l : forall b rest,
  no_empty_line b (l ++ 10 :: rest) = true -> (b = true -> l <> []) /\ no_empty_line true rest = true.
Proof.
  induction l as [|c l IH]; intros b rest H; cbn [app no_empty_line] in H.
  - change (10 =? 10) with true in H. cbn iota in H. apply andb_prop in H as [H1 H2]. destruct b; [done|].
    split; [congruence|done].
  - destruct (c =? 10).
    + apply andb_prop in H as [H1 H2]. apply IH in H2 as [_ H2]. done.
    + apply IH in H as [_ H]. done.
Qed.

Lemma c_str_len s : (length (c_str s) <= length s)%nat.
Proof. induction s as [|c s IH]; [done|]. cbn. destruct (c =? 0); cbn; lia. Qed.

Lemma process_line_ok {St} (callback : KernelSymbol -> St -> St * bool) text st :
  text <> [] -> exists r, process_line callback text (zlen text) st = Ok r.
Proof.
  intros Hn. unfold process_line. assert (0 < zlen text) by (unfold zlen; destruct text; [done|cbn; lia]).
  rewrite (proj2 (Z.ltb_ge _ _)) by lia. destruct (scan_symbol (c_str text)) as [[[[a t] name] module]|] eqn:E; [|by eexists].
  apply scan_symbol_len in E. pose proof (c_str_len text). unfold zlen.
  rewrite !(proj2 (Z.leb_le _ _)) by lia. by eexists.
Qed.

Lemma ProcessKernelSymbols_ok {St} (callback : KernelSymbol -> St -> St * bool) data st :
  no_empty_line true data = true -> exists r, ProcessKernelSymbols callback data st = Ok r.
Proof.
  unfold ProcessKernelSymbols. intros H. assert (length data <= length data)%nat as Hf by lia. revert H Hf.
  generalize (length data) at 2 3 as fuel. intros fuel. revert data st.
  induction fuel as [|fuel IH]; intros data st H Hf; (destruct data as [|c d]; [by eexists|]); [cbn in Hf; lia|].
  cbn [ProcessKernelSymbols_loop]. destruct (find_newline (c :: d)) as [n|] eqn:E.
  - pose proof (find_newline_split _ _ E) as Es. set (l := take n (c :: d)) in *. set (rest := drop (S n) (c :: d)) in *.
    rewrite Es in H. apply no_empty_line_split in H as [Hl Hr].
    assert (length l = n) as Hln.
    { unfold l. rewrite length_take. apply (f_equal length) in Es. rewrite length_app in Es. unfold rest in Es.
      cbn [length] in Es. rewrite length_drop in Es. unfold l in Es. rewrite length_take in Es. cbn [length] in *. lia. }
    destruct (process_line_ok callback l st (Hl eq_refl)) as [[st' stop] Hp]. unfold zlen in Hp. rewrite Hln in Hp.
    rewrite Hp. cbn [mbind res_bind]. destruct stop; [by eexists|]. apply IH; [done|].
    unfold rest. rewrite length_drop. cbn [length] in *. lia.
  - destruct (process_line_ok callback (c :: d) st ltac:(done)) as [[st' stop] ->]. cbn [mbind res_bind].
    destruct stop; [by eexists|]. apply IH; [done|cbn; lia].
Qed.

(** C32: [ProcessKernelSymbols] on text as the kernel prints it in
    /proc/kallsyms calls the callback once per line, in order, with the
    address, type, name and module of the line, and stays within its
    buffers; addresses have 64 bits, types are one visible character, names and
    modules are not empty and have no white space ([kernel_symbol_ok]). *)
Theorem ProcessKernelSymbols_kallsyms l :
  Forall kernel_symbol_ok l -> ProcessKernelSymbols collect (kallsyms_text l) [] = Ok (l, false).
Proof. intros Hl. unfold ProcessKernelSymbols. by rewrite process_text. Qed.

Ltac kernel_symbol_ok_tac :=
  unfold kernel_symbol_ok, word_ok, is_u64; cbn; repeat split; try done; try lia;
  repeat (apply Forall_cons; split); try apply Forall_nil; repeat split; lia.

Lemma ProcessKernelSymbols_kallsyms_witness :
  ProcessKernelSymbols collect (str "ffffffffa005c4e4 d __warned.41698	[libsas]
ffffffffa0000010 T init
") [] = Ok ([mkKernelSymbol 0xffffffffa005c4e4 100 (str "__warned.41698") (Some (str "libsas"));
             mkKernelSymbol 0xffffffffa0000010 84 (str "init") None], false).
Proof.
  apply (ProcessKernelSymbols_kallsyms
    [mkKernelSymbol 0xffffffffa005c4e4 100 (str "__warned.41698") (Some (str "libsas"));
     mkKernelSymbol 0xffffffffa0000010 84 (str "init") None]).
  repeat (apply Forall_cons; split); try apply Forall_nil; kernel_symbol_ok_tac.
Defined.

(** An empty line makes [ProcessKernelSymbols] write outside its buffers:
    [char module[line_size]] has size zero and [strcpy(module, "")] stores one
    byte in it, whatever lines, well formed, come before. *)
Theorem ProcessKernelSymbols_empty_line l rest :
  Forall kernel_symbol_ok l -> ProcessKernelSymbols collect (kallsyms_text l ++ 10 :: rest) [] = OutOfBounds.
Proof.
  unfold ProcessKernelSymbols. generalize (@nil KernelSymbol) as acc.
  assert (length (kallsyms_text l) < length (kallsyms_text l ++ 10%Z :: rest))%nat as Hf
    by (rewrite length_app; cbn; lia).
  revert Hf. generalize (length (kallsyms_text l ++ 10%Z :: rest)) as fuel. induction l as [|k l IH]; intros fuel Hf acc Hl.
  { destruct fuel as [|fuel]; [cbn in Hf; lia|]. done. }
  apply Forall_cons in Hl as [Hk Hl]. rewrite kallsyms_text_cons in *.
  rewrite <- app_assoc. cbn [app]. rewrite length_app in Hf. cbn [length] in Hf.
  destruct fuel as [|fuel]; [lia|]. rewrite process_line_step by done. cbn [collect mbind res_bind].
  apply IH; [lia|done].
Qed.

Lemma ProcessKernelSymbols_empty_line_witness :
  ProcessKernelSymbols collect (str "ffffffffa0000010 T init

ffffffffa0000020 T exit") [] = OutOfBounds.
Proof.
  apply (ProcessKernelSymbols_empty_line [mkKernelSymbol 0xffffffffa0000010 84 (str "init") None]
    (str "ffffffffa0000020 T exit")).
  apply Forall_singleton. kernel_symbol_ok_tac.
Defined.
