(* ===== verification/Dso.v ===== *)
(** Model of the symbol tables of src/simpleperf/dso.h and dso.cpp: [Symbol],
    [SortAndFixSymbols], and the [Dso] classes with loading and lookup.

    What the ELF, apk and dex readers find in the files of the machine is the
    class [DsoFiles], an interface of which nothing more is assumed; the
    static members of [Dso] are the record [DsoGlobals]. *)
From stdpp Require Import base list numbers strings gmap sorting.
From Stdlib Require Import ZArith Lia Sorted.
From S2P Require Import Prelude Utils KernelSymbols.

(** [Symbol]; [symbol_dump_id] is [UINT_MAX] while none is assigned. *)
Record Symbol := mkSym {
  symbol_name : bytes;
  symbol_addr : Z;
  symbol_len : Z;
  symbol_dump_id : Z;
}.
Definition Symbol_new (name : bytes) (addr len : Z) : Symbol := mkSym name addr len UINT32_MAX.
Definition set_symbol_len (l : Z) (s : Symbol) : Symbol :=
  mkSym (symbol_name s) (symbol_addr s) l (symbol_dump_id s).

Definition CompareValueByAddr (s1 s2 : Symbol) : bool := symbol_addr s1 <? symbol_addr s2.
Definition CompareByDumpId (s1 s2 : Symbol) : bool := symbol_dump_id s1 <? symbol_dump_id s2.
Definition Symbol_HasDumpId (s : Symbol) : bool := negb (symbol_dump_id s =? UINT32_MAX).

(** [std::sort(..., CompareValueByAddr)] *)
Fixpoint sort_insert (s : Symbol) (l : list Symbol) : list Symbol :=
  match l with
  | [] => [s]
  | x :: l' => if CompareValueByAddr x s then x :: sort_insert s l' else s :: l
  end.
Definition std_sort (l : list Symbol) : list Symbol := foldr sort_insert [] l.

(** The loop of [SortAndFixSymbols]: [prev] is the previous symbol. *)
Fixpoint fix_symbols (prev : Symbol) (l : list Symbol) : list Symbol :=
  match l with
  | [] => [prev]
  | s :: l' =>
      (if symbol_len prev =? 0 then set_symbol_len (symbol_addr s -u64 symbol_addr prev) prev else prev)
      :: fix_symbols s l'
  end.

Definition SortAndFixSymbols (symbols : list Symbol) : list Symbol :=
  match std_sort symbols with
  | [] => []
  | s :: l => fix_symbols s l
  end.

Inductive DsoType := DSO_KERNEL | DSO_KERNEL_MODULE | DSO_ELF_FILE | DSO_DEX_FILE | DSO_UNKNOWN_FILE.
#[export] Instance DsoType_eq_dec : EqDecision DsoType.
Proof. solve_decision. Defined.

(** The subclass of an object, fixed by [CreateDso]; [type_] can change. *)
Abbreviation DsoClass := DsoType.

Record Dso := mkDso {
  dso_class : DsoClass;
  type_ : DsoType;
  path_ : bytes;
  debug_file_path_ : bytes;
  file_name_ : bytes;
  symbols_ : list Symbol;
  unknown_symbols_ : gmap Z Symbol;
  is_loaded_ : bool;
  dump_id_ : Z;
  symbol_dump_id_ : Z;
  min_vaddr_ : Z;                       (* ElfDso *)
  dex_file_offsets_ : option (list Z);  (* DexFileDso, or ElfDso's dex_file_dso_ *)
}.

(** * The files the libraries are read from *)

Record ElfFileSymbol := mkElfSymbol {
  elf_vaddr : Z;
  elf_len : Z;
  is_func : bool;
  is_label : bool;
  is_in_text_section : bool;
  elf_name : bytes;
}.

Record DexFileSymbol := mkDexSymbol { dex_offset : Z; dex_len : Z; dex_name : bytes }.

(** What the ELF, APK and dex readers, which use LLVM, ziparchive and
    libdexfile, give for the files of the machine.  The symbol parsers give
    the symbols their callback is called with. *)
Class DsoFiles := {
  ParseSymbolsFromElfFile : bytes -> BuildId -> list ElfFileSymbol;
  ParseSymbolsFromApkFile : bytes -> bytes -> BuildId -> list ElfFileSymbol;
  ReadSymbolsFromDexFile : bytes -> list Z -> option (list DexFileSymbol);
  ReadMinExecutableVirtualAddressFromElfFile : bytes -> BuildId -> option Z;
  GetBuildIdFromElfFile : bytes -> option BuildId;
  GetBuildIdFromApkFile : bytes -> bytes -> option BuildId;
  GetKernelBuildId : option BuildId;
  proc_kallsyms : option bytes;         (* the content of /proc/kallsyms *)
  IsDir : bytes -> bool;
  ReadFileToString : bytes -> option bytes;
}.

(** The static members of [Dso], those of [debug_elf_file_finder_] included. *)
Record DsoGlobals := mkGlobals {
  vmlinux_ : bytes;
  kallsyms_ : bytes;
  read_kernel_symbols_from_proc_ : bool;
  build_id_map_ : gmap bytes BuildId;
  g_dump_id_ : Z;
  vdso_64bit_ : bytes;
  vdso_32bit_ : bytes;
  symfs_dir_ : bytes;
  build_id_to_file_map_ : gmap bytes bytes;
}.
Definition DsoGlobals_init : DsoGlobals := mkGlobals [] [] false ∅ 0 [] [] [] ∅.

Definition SetKallsyms_global (kallsyms : bytes) (g : DsoGlobals) : DsoGlobals :=
  match kallsyms with
  | [] => g
  | _ => mkGlobals (vmlinux_ g) kallsyms (read_kernel_symbols_from_proc_ g) (build_id_map_ g) (g_dump_id_ g)
           (vdso_64bit_ g) (vdso_32bit_ g) (symfs_dir_ g) (build_id_to_file_map_ g)
  end.
Definition SetVmlinux (vmlinux : bytes) (g : DsoGlobals) : DsoGlobals :=
  mkGlobals vmlinux (kallsyms_ g) (read_kernel_symbols_from_proc_ g) (build_id_map_ g) (g_dump_id_ g)
    (vdso_64bit_ g) (vdso_32bit_ g) (symfs_dir_ g) (build_id_to_file_map_ g).
Definition ReadKernelSymbolsFromProc (g : DsoGlobals) : DsoGlobals :=
  mkGlobals (vmlinux_ g) (kallsyms_ g) true (build_id_map_ g) (g_dump_id_ g)
    (vdso_64bit_ g) (vdso_32bit_ g) (symfs_dir_ g) (build_id_to_file_map_ g).
(** [unordered_map::insert] keeps the first entry of a path. *)
Definition SetBuildIds (build_ids : list (bytes * BuildId)) (g : DsoGlobals) : DsoGlobals :=
  mkGlobals (vmlinux_ g) (kallsyms_ g) (read_kernel_symbols_from_proc_ g)
    (foldl (fun m p => match m !! p.1 with Some _ => m | None => <[p.1 := p.2]> m end) ∅ build_ids)
    (g_dump_id_ g) (vdso_64bit_ g) (vdso_32bit_ g) (symfs_dir_ g) (build_id_to_file_map_ g).
Definition SetVdsoFile (vdso_file : bytes) (is_64bit : bool) (g : DsoGlobals) : DsoGlobals :=
  mkGlobals (vmlinux_ g) (kallsyms_ g) (read_kernel_symbols_from_proc_ g) (build_id_map_ g) (g_dump_id_ g)
    (if is_64bit then vdso_file else vdso_64bit_ g) (if is_64bit then vdso_32bit_ g else vdso_file)
    (symfs_dir_ g) (build_id_to_file_map_ g).

Definition FindExpectedBuildIdForPath (path : bytes) (g : DsoGlobals) : BuildId :=
  default BuildId_zero (build_id_map_ g !! path).

(** [path.find("!/")] splits the path of a library embedded in an apk. *)
Fixpoint SplitUrlInApk_loop (acc path : bytes) : option (bytes * bytes) :=
  match path with
  | 33 :: 47 :: rest => Some (acc, rest)
  | c :: path => SplitUrlInApk_loop (acc ++ [c]) path
  | [] => None
  end.
Definition SplitUrlInApk (path : bytes) : option (bytes * bytes) := SplitUrlInApk_loop [] path.

Definition is_empty (s : bytes) : bool := match s with [] => true | _ => false end.

(** [android::base::Split] at one character. *)
Fixpoint split_at (sep : Z) (cur s : bytes) : list bytes :=
  match s with
  | [] => [cur]
  | c :: s => if c =? sep then cur :: split_at sep [] s else split_at sep (cur ++ [c]) s
  end.

Section files.
Context `{files : DsoFiles}.

(** Each line "id=file" of [build_id_list]; [map[k] = v] overwrites. *)
Definition read_build_id_list (text : bytes) : gmap bytes bytes :=
  foldl (fun m line => match split_at 61 [] line with [id; file] => <[id := file]> m | _ => m end)
    ∅ (split_at 10 [] text).

Definition SetSymFsDir (symfs_dir : bytes) (g : DsoGlobals) : DsoGlobals * bool :=
  let dirname := match last symfs_dir with
                 | None => symfs_dir
                 | Some c => if c =? 47 then symfs_dir else symfs_dir ++ [47]
                 end in
  if negb (is_empty symfs_dir) && negb (IsDir symfs_dir) then (g, false)
  else
    (mkGlobals (vmlinux_ g) (kallsyms_ g) (read_kernel_symbols_from_proc_ g) (build_id_map_ g) (g_dump_id_ g)
       (vdso_64bit_ g) (vdso_32bit_ g) dirname
       (match ReadFileToString (dirname ++ str "build_id_list") with
        | Some text => read_build_id_list text
        | None => ∅
        end), true).

Definition GetBuildIdFromDsoPath (dso_path : bytes) : option BuildId :=
  match SplitUrlInApk dso_path with
  | Some (apk, name) => GetBuildIdFromApkFile apk name
  | None => GetBuildIdFromElfFile dso_path
  end.

(** The lambda [check_path]. *)
Definition check_path (build_id : BuildId) (path : bytes) : option bytes :=
  match GetBuildIdFromDsoPath path with
  | Some id => if BuildId_eqb id build_id then Some path else None
  | None => None
  end.

Definition FindDebugFile (dso_path : bytes) (force_64bit : bool) (build_id : BuildId) (g : DsoGlobals) : bytes :=
  if bool_decide (dso_path = str "[vdso]") then
    if force_64bit && negb (is_empty (vdso_64bit_ g)) then vdso_64bit_ g
    else if negb force_64bit && negb (is_empty (vdso_32bit_ g)) then vdso_32bit_ g
    else dso_path
  else if negb (is_empty (symfs_dir_ g)) then
    match (if negb (BuildId_IsEmpty build_id) then Some build_id else GetBuildIdFromDsoPath dso_path) with
    | None => dso_path
    | Some build_id =>
        let in_map := f ← build_id_to_file_map_ g !! BuildId_ToString build_id;
                      check_path build_id (symfs_dir_ g ++ f) in
        match in_map with
        | Some result => result
        | None =>
            match check_path build_id (symfs_dir_ g ++ dso_path) with
            | Some result => result
            | None => default dso_path (check_path build_id (str "/usr/lib/debug" ++ dso_path))
            end
        end
    end
  else dso_path.

(** [path.substr(path.find_last_of separators + 1)] *)
Fixpoint file_name_of (path acc : bytes) : bytes :=
  match path with
  | [] => acc
  | c :: path => if (c =? 47) || (c =? 92) then file_name_of path [] else file_name_of path (acc ++ [c])
  end.

Definition CreateDso (ty : DsoType) (path : bytes) (force_64bit : bool) (g : DsoGlobals) : Dso :=
  mkDso ty ty path
    (match ty with
     | DSO_ELF_FILE => FindDebugFile path force_64bit (FindExpectedBuildIdForPath path g) g
     | _ => path
     end)
    (file_name_of path []) [] ∅ false UINT32_MAX 0
    (match ty with DSO_ELF_FILE => UINT64_MAX | _ => 0 end)
    (match ty with DSO_DEX_FILE => Some [] | _ => None end).

Definition set_symbols (l : list Symbol) (d : Dso) : Dso :=
  mkDso (dso_class d) (type_ d) (path_ d) (debug_file_path_ d) (file_name_ d) l (unknown_symbols_ d) (is_loaded_ d)
    (dump_id_ d) (symbol_dump_id_ d) (min_vaddr_ d) (dex_file_offsets_ d).
Definition set_loaded (d : Dso) : Dso :=
  mkDso (dso_class d) (type_ d) (path_ d) (debug_file_path_ d) (file_name_ d) (symbols_ d) (unknown_symbols_ d) true
    (dump_id_ d) (symbol_dump_id_ d) (min_vaddr_ d) (dex_file_offsets_ d).
Definition set_min_vaddr (v : Z) (d : Dso) : Dso :=
  mkDso (dso_class d) (type_ d) (path_ d) (debug_file_path_ d) (file_name_ d) (symbols_ d) (unknown_symbols_ d)
    (is_loaded_ d) (dump_id_ d) (symbol_dump_id_ d) v (dex_file_offsets_ d).

(** [CHECK(!HasDumpId()); return dump_id_ = g_dump_id_++] *)
Definition CreateDumpId (d : Dso) (g : DsoGlobals) : res (Dso * DsoGlobals * Z) :=
  if negb (dump_id_ d =? UINT32_MAX) then CheckFailed
  else
    let id := g_dump_id_ g in
    Ok (mkDso (dso_class d) (type_ d) (path_ d) (debug_file_path_ d) (file_name_ d) (symbols_ d) (unknown_symbols_ d)
          (is_loaded_ d) id (symbol_dump_id_ d) (min_vaddr_ d) (dex_file_offsets_ d),
        mkGlobals (vmlinux_ g) (kallsyms_ g) (read_kernel_symbols_from_proc_ g) (build_id_map_ g) (id +u32 1)
          (vdso_64bit_ g) (vdso_32bit_ g) (symfs_dir_ g) (build_id_to_file_map_ g), id).

(** [MinVirtualAddress]: only [ElfDso] has one, read from the file on demand. *)
Definition MinVirtualAddress (g : DsoGlobals) (d : Dso) : Dso * Z :=
  match dso_class d with
  | DSO_ELF_FILE =>
      if min_vaddr_ d =? UINT64_MAX then
        let v := match type_ d with
                 | DSO_ELF_FILE =>
                     default 0 (ReadMinExecutableVirtualAddressFromElfFile (debug_file_path_ d)
                                  (FindExpectedBuildIdForPath (path_ d) g))
                 | _ => 0
                 end in
        (set_min_vaddr v d, v)
      else (d, min_vaddr_ d)
  | _ => (d, 0)
  end.

Definition SetMinVirtualAddress (v : Z) (d : Dso) : Dso :=
  match dso_class d with DSO_ELF_FILE => set_min_vaddr v d | _ => d end.

Definition AddDexFileOffset (offset : Z) (d : Dso) : Dso :=
  match dso_class d with
  | DSO_DEX_FILE | DSO_ELF_FILE =>
      let offsets := match dso_class d, type_ d with
                     | DSO_ELF_FILE, DSO_ELF_FILE => []
                     | _, _ => default [] (dex_file_offsets_ d)
                     end in
      mkDso (dso_class d) DSO_DEX_FILE (path_ d) (debug_file_path_ d) (file_name_ d) (symbols_ d)
        (unknown_symbols_ d) (is_loaded_ d) (dump_id_ d) (symbol_dump_id_ d) (min_vaddr_ d)
        (Some (offsets ++ [offset]))
  | _ => d
  end.

(** * [LoadSymbols] *)

(** The symbols a callback keeps. *)
Definition keep_elf (keep : ElfFileSymbol -> bool) (l : list ElfFileSymbol) : list Symbol :=
  (fun s => Symbol_new (elf_name s) (elf_vaddr s) (elf_len s)) <$> filter (fun s => keep s = true) l.

(** [DexFileDso::LoadSymbols]; both the dex library and the one inside an
    [ElfDso] are read from [path_]. *)
Definition LoadSymbols_dex (path : bytes) (dex_file_offsets : list Z) : list Symbol :=
  match ReadSymbolsFromDexFile path dex_file_offsets with
  | None => []
  | Some l => SortAndFixSymbols ((fun s => Symbol_new (dex_name s) (dex_offset s) (dex_len s)) <$> l)
  end.

(** [ElfDso::LoadSymbols] *)
Definition LoadSymbols_elf (g : DsoGlobals) (d : Dso) : list Symbol :=
  match dex_file_offsets_ d with
  | Some offsets => LoadSymbols_dex (path_ d) offsets
  | None =>
      let build_id := FindExpectedBuildIdForPath (path_ d) g in
      let symbols := match SplitUrlInApk (debug_file_path_ d) with
                     | Some (apk, name) => ParseSymbolsFromApkFile apk name build_id
                     | None => ParseSymbolsFromElfFile (debug_file_path_ d) build_id
                     end in
      SortAndFixSymbols (keep_elf (fun s => is_func s || (is_label s && is_in_text_section s)) symbols)
  end.

(** [KernelDso::ReadSymbolsFromKallsyms]: the callback keeps the functions at
    an address that is not zero. *)
Definition kallsyms_callback (k : KernelSymbol) (l : list Symbol) : list Symbol * bool :=
  (if bool_decide (ks_type k ∈ str "TtWw") && negb (ks_addr k =? 0)
   then l ++ [Symbol_new (ks_name k) (ks_addr k) 0] else l, false).
Definition ReadSymbolsFromKallsyms (kallsyms : bytes) : res (list Symbol) :=
  '(l, _) ← ProcessKernelSymbols kallsyms_callback kallsyms []; Ok l.

(** [symbols.back().len = UINT64_MAX - symbols.back().addr] *)
Definition extend_last (l : list Symbol) : list Symbol :=
  match rev l with
  | [] => []
  | s :: r => rev (set_symbol_len (UINT64_MAX - symbol_addr s) s :: r)
  end.

(** [KernelDso::LoadSymbols] *)
Definition LoadSymbols_kernel (g : DsoGlobals) (d : Dso) : res (list Symbol) :=
  let build_id := FindExpectedBuildIdForPath (path_ d) g in
  symbols ←
    (if negb (is_empty (vmlinux_ g)) then
       Ok (keep_elf is_func (ParseSymbolsFromElfFile (vmlinux_ g) build_id))
     else if negb (is_empty (kallsyms_ g)) then ReadSymbolsFromKallsyms (kallsyms_ g)
     else if read_kernel_symbols_from_proc_ g || negb (BuildId_IsEmpty build_id) then
       let can_read_kallsyms :=
         if negb (BuildId_IsEmpty build_id) then
           match GetKernelBuildId with Some id => BuildId_eqb build_id id | None => false end
         else true in
       if (can_read_kallsyms : bool) then
         match proc_kallsyms with Some kallsyms => ReadSymbolsFromKallsyms kallsyms | None => Ok [] end
       else Ok []
     else Ok []);
  Ok (extend_last (SortAndFixSymbols symbols)).

(** [KernelModuleDso::LoadSymbols] *)
Definition LoadSymbols_module (g : DsoGlobals) (d : Dso) : list Symbol :=
  SortAndFixSymbols (keep_elf (fun s => is_func s || is_in_text_section s)
    (ParseSymbolsFromElfFile (debug_file_path_ d) (FindExpectedBuildIdForPath (path_ d) g))).

(** The virtual call. *)
Definition LoadSymbols (g : DsoGlobals) (d : Dso) : res (list Symbol) :=
  match dso_class d with
  | DSO_UNKNOWN_FILE => Ok []
  | DSO_KERNEL => LoadSymbols_kernel g d
  | DSO_KERNEL_MODULE => Ok (LoadSymbols_module g d)
  | DSO_ELF_FILE => Ok (LoadSymbols_elf g d)
  | DSO_DEX_FILE => Ok (LoadSymbols_dex (path_ d) (default [] (dex_file_offsets_ d)))
  end.

(** [std::set_union(..., CompareValueByAddr)] *)
Fixpoint set_union (fuel : nat) (a b : list Symbol) : list Symbol :=
  match fuel, a, b with
  | S fuel, x :: a', y :: b' =>
      if CompareValueByAddr x y then x :: set_union fuel a' b
      else if CompareValueByAddr y x then y :: set_union fuel a b'
      else x :: set_union fuel a' b'
  | _, [], _ => b
  | _, _, _ => a
  end.

Definition Load (g : DsoGlobals) (d : Dso) : res Dso :=
  symbols ← LoadSymbols g d;
  match symbols_ d with
  | [] => Ok (set_symbols symbols (set_loaded d))
  | old => Ok (set_symbols (set_union (length old + length symbols) old symbols) (set_loaded d))
  end.

(** [*--std::upper_bound(symbols, vaddr)] *)
Fixpoint symbol_before (vaddr : Z) (l : list Symbol) : option Symbol :=
  match l with
  | [] => None
  | s :: l' =>
      if vaddr <? symbol_addr s then None
      else match symbol_before vaddr l' with Some x => Some x | None => Some s end
  end.

Definition FindSymbol_loaded (vaddr : Z) (d : Dso) : option Symbol :=
  match symbol_before vaddr (symbols_ d) with
  | Some s =>
      if (symbol_addr s <=? vaddr) && (vaddr <? symbol_addr s +u64 symbol_len s) then Some s
      else unknown_symbols_ d !! vaddr
  | None => unknown_symbols_ d !! vaddr
  end.

Definition FindSymbol (g : DsoGlobals) (vaddr : Z) (d : Dso) : res (Dso * option Symbol) :=
  d ← (if is_loaded_ d then Ok d else Load g d);
  Ok (d, FindSymbol_loaded vaddr d).

(** [SetSymbols] *)
Definition SetSymbols (symbols : list Symbol) (d : Dso) : Dso := set_symbols symbols d.

(** [unordered_map::insert] keeps an entry that is already there. *)
Definition AddUnknownSymbol (vaddr : Z) (name : bytes) (d : Dso) : Dso :=
  mkDso (dso_class d) (type_ d) (path_ d) (debug_file_path_ d) (file_name_ d) (symbols_ d)
    (match unknown_symbols_ d !! vaddr with
     | Some _ => unknown_symbols_ d
     | None => <[vaddr := Symbol_new name vaddr 1]> (unknown_symbols_ d)
     end) (is_loaded_ d) (dump_id_ d) (symbol_dump_id_ d) (min_vaddr_ d) (dex_file_offsets_ d).
End files.

(** * Sorting and fixing *)

Definition addr_le (a b : Symbol) : Prop := symbol_addr a <= symbol_addr b.
Definition symbol_key (s : Symbol) : bytes * Z := (symbol_name s, symbol_addr s).

Lemma sort_insert_spec s l :
  StronglySorted addr_le l -> sort_insert s l ≡ₚ s :: l /\ StronglySorted addr_le (sort_insert s l).
Proof.
  induction 1 as [|x l Hs [P IH] Hx]; [split; [done|repeat constructor]|].
  cbn [sort_insert]. unfold CompareValueByAddr. destruct (Z.ltb_spec (symbol_addr x) (symbol_addr s)).
  - split; [rewrite P; apply Permutation_swap|]. constructor; [done|]. rewrite P.
    constructor; [unfold addr_le; lia|done].
  - split; [done|]. constructor; [by constructor|]. constructor; [done|].
    eapply Forall_impl; [exact Hx|]. unfold addr_le. intros y Hy. lia.
Qed.

Lemma std_sort_spec l : std_sort l ≡ₚ l /\ StronglySorted addr_le (std_sort l).
Proof.
  induction l as [|s l [P IH]]; [split; [done|constructor]|]. cbn [std_sort foldr].
  destruct (sort_insert_spec s (std_sort l) IH) as [P' S']. split; [by rewrite P', P|done].
Qed.

Lemma fix_symbols_keys l : forall prev, symbol_key <$> fix_symbols prev l = symbol_key <$> (prev :: l).
Proof.
  induction l as [|s l IH]; intros prev; [done|]. cbn [fix_symbols]. rewrite !fmap_cons, IH.
  by destruct (_ =? 0).
Qed.

Lemma sorted_by_key l k :
  symbol_addr <$> l = symbol_addr <$> k -> StronglySorted addr_le l -> StronglySorted addr_le k.
Proof.
  revert k. induction l as [|x l IH]; intros [|y k] E; try done. intros H.
  rewrite !fmap_cons in E. injection E as E1 E2. apply StronglySorted_inv in H as [H1 H2].
  constructor; [by apply IH|]. clear -E1 E2 H2. revert k E2. induction H2 as [|z l Hz _ IH]; intros [|w k] E2; try done.
  rewrite !fmap_cons in E2. injection E2 as E3 E4. constructor; [unfold addr_le in *; lia|by apply IH].
Qed.

(** Each symbol but the last, after fixing. *)
Lemma fix_symbols_len l : forall prev i x y z,
  (prev :: l) !! i = Some x -> (prev :: l) !! S i = Some y -> fix_symbols prev l !! i = Some z ->
  symbol_len z = if symbol_len x =? 0 then symbol_addr y -u64 symbol_addr x else symbol_len x.
Proof.
  induction l as [|s l IH]; intros prev i x y z Hx Hy Hz; [by destruct i|].
  destruct i as [|i]; cbn [fix_symbols] in *; cbn in Hx, Hy, Hz.
  - simplify_eq. by destruct (_ =? 0).
  - by eapply IH.
Qed.

(** [SortAndFixSymbols] keeps every symbol, sorts them by address and
    leaves every length but those that were zero; a symbol of length zero
    that is not the last gets the length up to the next symbol. *)
Theorem SortAndFixSymbols_spec symbols :
  let l := SortAndFixSymbols symbols in
  symbol_key <$> l ≡ₚ symbol_key <$> symbols /\ StronglySorted addr_le l /\
  exists sorted, sorted ≡ₚ symbols /\ symbol_key <$> l = symbol_key <$> sorted /\
    (forall i x y z, sorted !! i = Some x -> sorted !! S i = Some y -> l !! i = Some z ->
       symbol_len z = if symbol_len x =? 0 then symbol_addr y -u64 symbol_addr x else symbol_len x).
Proof.
  intros l. destruct (std_sort_spec symbols) as [P S]. subst l. unfold SortAndFixSymbols.
  destruct (std_sort symbols) as [|s l] eqn:E.
  { split_and!; [by rewrite <- P|constructor|]. exists []. done. }
  pose proof (fix_symbols_keys l s) as K. split_and!.
  - by rewrite K, P.
  - eapply sorted_by_key; [|exact S]. apply (f_equal (fmap snd)) in K. rewrite <- !list_fmap_compose in K.
    symmetry. exact K.
  - exists (s :: l). split_and!; [done|done|]. intros i x y z. apply fix_symbols_len.
Qed.

(** * Lookup *)

(** Symbols in order that do not overlap and do not wrap around. *)
Definition symbol_ok (s : Symbol) : Prop :=
  0 <= symbol_addr s /\ 0 <= symbol_len s /\ symbol_addr s + symbol_len s < 2 ^ 64.
Definition symbol_lt (a b : Symbol) : Prop :=
  symbol_addr a < symbol_addr b /\ symbol_addr a + symbol_len a <= symbol_addr b.
Definition symbols_ok (l : list Symbol) : Prop := StronglySorted symbol_lt l /\ Forall symbol_ok l.
Definition contains (s : Symbol) (vaddr : Z) : Prop := symbol_addr s <= vaddr < symbol_addr s + symbol_len s.

Lemma symbol_before_spec l vaddr :
  StronglySorted symbol_lt l ->
  match symbol_before vaddr l with
  | Some s => s ∈ l /\ symbol_addr s <= vaddr /\ forall x, x ∈ l -> symbol_addr x <= vaddr -> symbol_addr x <= symbol_addr s
  | None => forall x, x ∈ l -> vaddr < symbol_addr x
  end.
Proof.
  induction 1 as [|s l Hs IH Hx]; [intros x Hx; by apply not_elem_of_nil in Hx|].
  rewrite Forall_forall in Hx. cbn [symbol_before]. destruct (Z.ltb_spec vaddr (symbol_addr s)).
  - intros x Hin. apply elem_of_cons in Hin as [->|Hin]; [done|]. destruct (Hx x Hin). lia.
  - destruct (symbol_before vaddr l) as [y|].
    + destruct IH as (I1 & I2 & I3). split; [by apply list_elem_of_further|]. split; [done|].
      intros x Hin Hle. apply elem_of_cons in Hin as [->|Hin]; [|auto]. destruct (Hx y I1). lia.
    + split; [apply list_elem_of_here|]. split; [done|]. intros x Hin Hle.
      apply elem_of_cons in Hin as [->|Hin]; [done|]. specialize (IH x Hin). lia.
Qed.

(** On a loaded table of symbols that do not overlap, [FindSymbol] returns
    the symbol that contains the address; when no symbol does, it returns the
    unknown symbol added for that address, if any.  A symbol added by
    [AddUnknownSymbol] is found afterwards. *)
Theorem FindSymbol_finds `{DsoFiles} g d vaddr :
  is_loaded_ d = true -> symbols_ok (symbols_ d) ->
  (forall s, s ∈ symbols_ d -> contains s vaddr -> FindSymbol g vaddr d = Ok (d, Some s)) /\
  ((forall s, s ∈ symbols_ d -> ~ contains s vaddr) ->
     FindSymbol g vaddr d = Ok (d, unknown_symbols_ d !! vaddr) /\
     forall name, exists s, FindSymbol g vaddr (AddUnknownSymbol vaddr name d) =
       Ok (AddUnknownSymbol vaddr name d, Some s) /\
       (unknown_symbols_ d !! vaddr = None -> s = Symbol_new name vaddr 1)).
Proof.
  intros Hl [Hs Ho]. pose proof (symbol_before_spec (symbols_ d) vaddr Hs) as Hb. rewrite Forall_forall in Ho.
  assert (forall s, s ∈ symbols_ d -> symbol_addr s +u64 symbol_len s = symbol_addr s + symbol_len s) as He.
  { intros s Hin. destruct (Ho s Hin) as (? & ? & ?). apply u64_small. unfold_u. lia. }
  assert (forall d', symbols_ d' = symbols_ d -> (forall s, s ∈ symbols_ d -> ~ contains s vaddr) ->
    FindSymbol_loaded vaddr d' = unknown_symbols_ d' !! vaddr) as Hno.
  { intros d' E Hn. unfold FindSymbol_loaded. rewrite E. destruct (symbol_before vaddr (symbols_ d)) as [s|]; [|done].
    destruct Hb as (H1 & H2 & _). rewrite (He s H1).
    destruct (Z.leb_spec (symbol_addr s) vaddr), (Z.ltb_spec vaddr (symbol_addr s + symbol_len s)); try done.
    exfalso. apply (Hn s H1). by split. }
  unfold FindSymbol. cbn [is_loaded_ AddUnknownSymbol]. rewrite Hl. cbn [mbind res_bind]. split.
  - intros s Hin [Hc1 Hc2]. do 2 f_equal. unfold FindSymbol_loaded.
    destruct (symbol_before vaddr (symbols_ d)) as [x|]; [|specialize (Hb s Hin); lia].
    destruct Hb as (H1 & H2 & H3).
    assert (x = s) as ->.
    { specialize (H3 s Hin Hc1). clear He Hno. induction Hs as [|z l Hs IH Hz]; [by apply not_elem_of_nil in Hin|].
      rewrite Forall_forall in Hz. apply elem_of_cons in Hin as [->|Hin], H1 as [->|H1]; auto.
      - destruct (Hz x H1). lia.
      - destruct (Hz s Hin). lia.
      - apply IH; auto. intros y Hy. apply Ho. by apply list_elem_of_further. }
    rewrite (He s Hin), (proj2 (Z.leb_le _ _) Hc1), (proj2 (Z.ltb_lt _ _) Hc2). done.
  - intros Hn. split; [do 2 f_equal; by apply Hno|]. intros name. rewrite Hno by done.
    cbn [unknown_symbols_ AddUnknownSymbol]. destruct (unknown_symbols_ d !! vaddr) as [s|] eqn:E.
    + exists s. by rewrite E.
    + rewrite lookup_insert_eq. by eexists.
Qed.

(** No files at all. *)
#[local] Instance no_files : DsoFiles := {
  ParseSymbolsFromElfFile _ _ := [];
  ParseSymbolsFromApkFile _ _ _ := [];
  ReadSymbolsFromDexFile _ _ := None;
  ReadMinExecutableVirtualAddressFromElfFile _ _ := None;
  GetBuildIdFromElfFile _ := None;
  GetBuildIdFromApkFile _ _ := None;
  GetKernelBuildId := None;
  proc_kallsyms := None;
  IsDir _ := false;
  ReadFileToString _ := None;
}.

Definition dso_example : Dso :=
  set_symbols [Symbol_new (str "f") 10 5; Symbol_new (str "g") 20 10]
    (set_loaded (CreateDso DSO_ELF_FILE (str "/lib/a.so") false DsoGlobals_init)).

Lemma FindSymbol_finds_witness :
  FindSymbol DsoGlobals_init 25 dso_example = Ok (dso_example, Some (Symbol_new (str "g") 20 10)) /\
  exists s, FindSymbol DsoGlobals_init 17 (AddUnknownSymbol 17 (str "a.so[+11]") dso_example) =
    Ok (AddUnknownSymbol 17 (str "a.so[+11]") dso_example, Some s).
Proof.
  assert (symbols_ok (symbols_ dso_example)) as Hok
    by (split; repeat constructor; vm_compute; congruence).
  destruct (FindSymbol_finds DsoGlobals_init dso_example 25 eq_refl Hok) as [H1 _].
  destruct (FindSymbol_finds DsoGlobals_init dso_example 17 eq_refl Hok) as [_ H2]. split.
  - apply H1; [apply list_elem_of_further, list_elem_of_here|]. vm_compute. split; congruence.
  - destruct H2 as [_ H2].
    + intros s Hs. apply elem_of_cons in Hs as [->|Hs]; [vm_compute; intros [? ?]; congruence|].
      apply list_elem_of_singleton in Hs as ->. vm_compute. intros [H ?]. by apply H.
    + destruct (H2 (str "a.so[+11]")) as (s & Hs & _). by exists s.
Defined.

(** * Loading *)

Definition addr_lt (a b : Symbol) : Prop := symbol_addr a < symbol_addr b.

Lemma set_union_spec n : forall a b,
  (length a + length b <= n)%nat -> StronglySorted addr_lt a -> StronglySorted addr_lt b ->
  StronglySorted addr_lt (set_union n a b) /\
  (forall s, s ∈ set_union n a b <->
     s ∈ a \/ (s ∈ b /\ forall x, x ∈ a -> symbol_addr x <> symbol_addr s)).
Proof.
  induction n as [|n IH]; intros a b Hn Ha Hb.
  { destruct a, b; cbn in Hn; try lia. cbn. split; [constructor|]. intros s. set_unfold. tauto. }
  destruct a as [|x a]; [split; [destruct b; done|]; intros s; destruct b; set_unfold; naive_solver|].
  destruct b as [|y b]; [split; [done|]; intros s; set_unfold; naive_solver|].
  pose proof Ha as Ha'. pose proof Hb as Hb'.
  apply StronglySorted_inv in Ha' as [Sa Fa]. apply StronglySorted_inv in Hb' as [Sb Fb].
  rewrite Forall_forall in Fa, Fb. unfold addr_lt in Fa, Fb. cbn [length] in Hn. cbn [set_union].
  unfold CompareValueByAddr. destruct (Z.ltb_spec (symbol_addr x) (symbol_addr y)); [|
    destruct (Z.ltb_spec (symbol_addr y) (symbol_addr x))].
  - destruct (IH a (y :: b)) as [S M]; [cbn; lia|done|done|].
    assert (forall s, s ∈ y :: b -> symbol_addr x < symbol_addr s) as Hlt.
    { intros s Hs. apply elem_of_cons in Hs as [->|Hs]; [done|]. specialize (Fb s Hs). lia. }
    split.
    + constructor; [done|]. apply Forall_forall. intros s Hs. apply M in Hs as [Hs|[Hs _]]; [by apply Fa|by apply Hlt].
    + intros s. rewrite !elem_of_cons, M. split.
      * intros [->|[Hs|[Hs Hn']]]; [auto..|]. right. split; [by apply elem_of_cons|].
        intros z Hz. apply elem_of_cons in Hz as [->|Hz]; [|auto]. specialize (Hlt s Hs). lia.
      * intros [[->|Hs]|[Hs Hn']]; [auto..|]. do 2 right. split; [by apply elem_of_cons|].
        intros z Hz. apply Hn'. by apply list_elem_of_further.
  - destruct (IH (x :: a) b) as [S M]; [cbn; lia|done|done|].
    assert (forall s, s ∈ x :: a -> symbol_addr y < symbol_addr s) as Hlt.
    { intros s Hs. apply elem_of_cons in Hs as [->|Hs]; [done|]. specialize (Fa s Hs). lia. }
    split.
    + constructor; [done|]. apply Forall_forall. intros s Hs. apply M in Hs as [Hs|[Hs _]]; [by apply Hlt|by apply Fb].
    + intros s. rewrite (elem_of_cons _ s y), (elem_of_cons b s y), M. split.
      * intros [->|[Hs|[Hs Hn']]]; [|auto|auto]. right. split; [auto|].
        intros z Hz. specialize (Hlt z Hz). lia.
      * intros [Hs|[[->|Hs] Hn']]; auto.
  - destruct (IH a b) as [S M]; [lia|done|done|]. split.
    + constructor; [done|]. apply Forall_forall. intros s Hs. unfold addr_lt.
      apply M in Hs as [Hs|[Hs _]]; [by apply Fa|]. specialize (Fb s Hs). lia.
    + intros s. rewrite !elem_of_cons, M. split.
      * intros [->|[Hs|[Hs Hn']]]; [auto..|]. right. split; [auto|]. intros z Hz.
        apply elem_of_cons in Hz as [->|Hz]; [|auto]. specialize (Fb s Hs). lia.
      * intros [[->|Hs]|[[->|Hs] Hn']]; [auto..| |].
        { exfalso. apply (Hn' x); [apply list_elem_of_here|lia]. }
        do 2 right. split; [done|]. intros z Hz. apply Hn'. by apply list_elem_of_further.
Qed.

(** Loading a library that was given symbols before (by [SetSymbols]) keeps
    all of them and adds the symbols of the file at other addresses, in order;
    a library without symbols gets those of the file. *)
Theorem Load_merges `{DsoFiles} g d l :
  LoadSymbols g d = Ok l -> StronglySorted addr_lt (symbols_ d) -> StronglySorted addr_lt l ->
  exists d', Load g d = Ok d' /\ is_loaded_ d' = true /\ StronglySorted addr_lt (symbols_ d') /\
  forall s, s ∈ symbols_ d' <->
    s ∈ symbols_ d \/ (s ∈ l /\ forall x, x ∈ symbols_ d -> symbol_addr x <> symbol_addr s).
Proof.
  intros El Hd Hl. unfold Load. rewrite El. cbn [mbind res_bind]. destruct (symbols_ d) as [|x k] eqn:E.
  - eexists. split; [done|]. split; [done|]. split; [done|]. intros s. cbn [symbols_ set_symbols set_loaded].
    split; [|by intros [H0|[H0 _]]; [by apply not_elem_of_nil in H0|]].
    intros H0. right. split; [done|]. intros y Hy. by apply not_elem_of_nil in Hy.
  - eexists. split; [done|]. split; [done|]. apply set_union_spec; done.
Qed.

(** One library with two functions and a data symbol. *)
#[local] Instance one_file : DsoFiles := {
  ParseSymbolsFromElfFile path _ :=
    if bool_decide (path = str "a.so") then
      [mkElfSymbol 20 5 true false true (str "b"); mkElfSymbol 30 8 false false false (str "data");
       mkElfSymbol 10 0 true false true (str "a")]
    else [];
  ParseSymbolsFromApkFile _ _ _ := [];
  ReadSymbolsFromDexFile _ _ := None;
  ReadMinExecutableVirtualAddressFromElfFile _ _ := None;
  GetBuildIdFromElfFile _ := None;
  GetBuildIdFromApkFile _ _ := None;
  GetKernelBuildId := None;
  proc_kallsyms := None;
  IsDir _ := false;
  ReadFileToString _ := None;
}.

Lemma Load_merges_witness :
  let d := SetSymbols [Symbol_new (str "g") 20 10] (CreateDso (files := one_file) DSO_ELF_FILE (str "a.so") false DsoGlobals_init) in
  exists d', Load (files := one_file) DsoGlobals_init d = Ok d' /\
    symbols_ d' = [mkSym (str "a") 10 10 UINT32_MAX; Symbol_new (str "g") 20 10] /\
    is_loaded_ d' = true /\ StronglySorted addr_lt (symbols_ d').
Proof.
  intros d. destruct (Load_merges (H := one_file) DsoGlobals_init d
    [mkSym (str "a") 10 10 UINT32_MAX; Symbol_new (str "b") 20 5]) as (d' & H1 & H2 & H3 & _);
    [vm_compute; reflexivity|repeat constructor|repeat constructor|].
  exists d'. split; [done|]. split; [|done]. revert H1. vm_compute. intros [= <-]. reflexivity.
Defined.

(** * The symbols of the kernel *)

(** Each symbol ends where the next starts; the last ends at [UINT64_MAX]. *)
Fixpoint contiguous (l : list Symbol) : Prop :=
  match l with
  | [] => True
  | s :: l' =>
      symbol_addr s + symbol_len s = (match l' with y :: _ => symbol_addr y | [] => UINT64_MAX end) /\ contiguous l'
  end.

Lemma extend_last_cons x y l : extend_last (x :: y :: l) = x :: extend_last (y :: l).
Proof.
  destruct (exists_last (l := y :: l)) as (k & s & E); [done|]. rewrite E. unfold extend_last.
  change (x :: k ++ [s]) with ((x :: k) ++ [s]). rewrite !rev_app_distr. cbn [rev app].
  by rewrite !rev_app_distr.
Qed.

Lemma extend_fix_contiguous l : forall prev,
  StronglySorted addr_lt (prev :: l) ->
  Forall (fun s => is_u64 (symbol_addr s) /\ symbol_len s = 0) (prev :: l) ->
  contiguous (extend_last (fix_symbols prev l)) /\
  symbol_key <$> extend_last (fix_symbols prev l) = symbol_key <$> prev :: l.
Proof.
  induction l as [|s l IH]; intros prev Hs Hu.
  { cbn. split; [|done]. split; [lia|done]. }
  apply Forall_cons in Hu as [[Hp Hz] Hu]. apply StronglySorted_inv in Hs as [Hs Hlt].
  destruct (IH s Hs Hu) as [C K]. cbn [fix_symbols]. rewrite Hz, Z.eqb_refl.
  apply Forall_cons in Hlt as [Hlt _]. apply Forall_cons in Hu as [[Hsu _] _].
  destruct (fix_symbols s l) as [|y k] eqn:E; [by destruct l|]. rewrite extend_last_cons.
  rewrite !fmap_cons, K, fmap_cons. split; [|done]. cbn [contiguous]. split; [|done].
  rewrite fmap_cons in K. destruct (extend_last (y :: k)) as [|z r]; [done|]. rewrite fmap_cons in K.
  injection K as _ Kz _. cbn [set_symbol_len symbol_addr symbol_len]. rewrite Kz. unfold addr_lt in Hlt.
  rewrite u64_small; [lia|]. unfold_u. lia.
Qed.

(** On a contiguous table, the symbol before an address contains it. *)
Lemma contiguous_finds l vaddr :
  contiguous l -> StronglySorted addr_lt l -> Forall (fun s => is_u64 (symbol_addr s)) l -> vaddr < UINT64_MAX ->
  match symbol_before vaddr l with
  | Some s => s ∈ l /\ symbol_addr s <= vaddr < symbol_addr s +u64 symbol_len s /\
              forall x, x ∈ l -> symbol_addr x <= vaddr -> symbol_addr x <= symbol_addr s
  | None => forall x, x ∈ l -> vaddr < symbol_addr x
  end.
Proof.
  intros Hc Hs Hu Hv. induction l as [|s l IH]; [intros x Hx; by apply not_elem_of_nil in Hx|].
  destruct Hc as [Hend Hc]. apply StronglySorted_inv in Hs as [Hs Hlt]. apply Forall_cons in Hu as [Hsu Hu].
  specialize (IH Hc Hs Hu). rewrite Forall_forall in Hlt. cbn [symbol_before].
  destruct (Z.ltb_spec vaddr (symbol_addr s)).
  { intros x Hx. apply elem_of_cons in Hx as [->|Hx]; [done|]. specialize (Hlt x Hx). unfold addr_lt in Hlt. lia. }
  destruct (symbol_before vaddr l) as [y|].
  - destruct IH as (I1 & I2 & I3). split; [by apply list_elem_of_further|]. split; [done|].
    intros x Hx Hle. apply elem_of_cons in Hx as [->|Hx]; [|auto]. specialize (Hlt y I1). unfold addr_lt in Hlt. lia.
  - split; [apply list_elem_of_here|].
    assert (symbol_addr s + symbol_len s <= UINT64_MAX /\ vaddr < symbol_addr s + symbol_len s) as [Hm He].
    { rewrite Hend. destruct l as [|z l]; [lia|]. pose proof (IH z (list_elem_of_here _ _)).
      apply Forall_cons in Hu as [Hz _]. unfold_u. lia. }
    split; [rewrite u64_small; [lia|unfold_u; lia]|].
    intros x Hx Hle. apply elem_of_cons in Hx as [->|Hx]; [done|]. specialize (IH x Hx). lia.
Qed.

(** The kernel symbols that are functions. *)
Definition kernel_function (k : KernelSymbol) : bool :=
  bool_decide (ks_type k ∈ str "TtWw") && negb (ks_addr k =? 0).
Definition kernel_functions (l : list KernelSymbol) : list Symbol :=
  (fun k => Symbol_new (ks_name k) (ks_addr k) 0) <$> filter (fun k => kernel_function k = true) l.

Lemma kallsyms_loop l : forall acc fuel,
  Forall kernel_symbol_ok l -> (length (kallsyms_text l) <= fuel)%nat ->
  ProcessKernelSymbols_loop kallsyms_callback fuel (kallsyms_text l) acc = Ok (acc ++ kernel_functions l, false).
Proof.
  induction l as [|k l IH]; intros acc fuel Hl Hf.
  { unfold kernel_functions. rewrite app_nil_r. by destruct fuel. }
  apply Forall_cons in Hl as [Hk Hl]. rewrite kallsyms_text_cons in *.
  rewrite length_app in Hf. cbn [length] in Hf. destruct fuel as [|fuel]; [lia|].
  rewrite process_line_step by done. 
  change (kallsyms_callback k acc) with
    (if kernel_function k then acc ++ [Symbol_new (ks_name k) (ks_addr k) 0] else acc, false).
  cbn [mbind res_bind]. rewrite IH by (try done; lia). unfold kernel_functions. do 2 f_equal.
  rewrite filter_cons. destruct (kernel_function k).
  - rewrite decide_True by done. rewrite fmap_cons, <- app_assoc. done.
  - by rewrite decide_False.
Qed.

Lemma read_kallsyms l :
  Forall kernel_symbol_ok l -> ReadSymbolsFromKallsyms (kallsyms_text l) = Ok (kernel_functions l).
Proof. intros Hl. unfold ReadSymbolsFromKallsyms, ProcessKernelSymbols. by rewrite kallsyms_loop. Qed.

Lemma std_sort_strict l : NoDup (symbol_addr <$> l) -> StronglySorted addr_lt (std_sort l).
Proof.
  intros Hn. destruct (std_sort_spec l) as [P S]. rewrite <- P in Hn. clear P. revert Hn S.
  generalize (std_sort l) as k. induction k as [|s k IH]; intros Hn S; [constructor|].
  rewrite fmap_cons in Hn. apply NoDup_cons in Hn as [Hs Hn]. apply StronglySorted_inv in S as [S F].
  constructor; [by apply IH|]. rewrite Forall_forall in *. intros x Hx. specialize (F x Hx). unfold addr_le, addr_lt in *.
  assert (symbol_addr x <> symbol_addr s); [|lia]. intros E. apply Hs. rewrite <- E. by apply list_elem_of_fmap_2.
Qed.

(** The table built from kallsyms. *)
Lemma kernel_table l :
  NoDup (symbol_addr <$> l) -> Forall (fun s => is_u64 (symbol_addr s) /\ symbol_len s = 0) l ->
  let t := extend_last (SortAndFixSymbols l) in
  contiguous t /\ StronglySorted addr_lt t /\ Forall (fun s => is_u64 (symbol_addr s)) t /\
  symbol_key <$> t ≡ₚ symbol_key <$> l.
Proof.
  intros Hn Hu. destruct (std_sort_spec l) as [P _]. pose proof (std_sort_strict l Hn) as S. cbv zeta.
  unfold SortAndFixSymbols. rewrite <- P in Hu.
  assert (symbol_key <$> l ≡ₚ symbol_key <$> std_sort l) as P' by by rewrite P.
  rewrite P'. clear P P'.
  destruct (std_sort l) as [|s k]; [cbn; split_and!; done|].
  destruct (extend_fix_contiguous k s S Hu) as [C K]. rewrite K. split; [done|].
  set (t := extend_last _) in *. clearbody t. clear C.
  assert (symbol_addr <$> t = symbol_addr <$> s :: k) as A.
  { apply (f_equal (fmap snd)) in K. by rewrite <- !list_fmap_compose in K. }
  revert A S Hu. generalize (s :: k) as r. clear. induction t as [|x t IH]; intros [|y r] A S Hu; try done.
  rewrite !fmap_cons in A. injection A as E A. apply StronglySorted_inv in S as [S F].
  apply Forall_cons in Hu as [[Hy _] Hu]. destruct (IH r A S Hu) as (I1 & I2 & _). split_and!; [|by constructor; [rewrite E|]|done].
  constructor; [done|]. clear IH I1 I2 S Hu Hy. revert r A F. induction t as [|z t IH]; intros [|w r] A F; try done.
  rewrite !fmap_cons in A. injection A as E' A. apply Forall_cons in F as [Fw F].
  constructor; [unfold addr_lt in *; lia|by eapply IH].
Qed.

(** Symbolization of the kernel from the text of /proc/kallsyms: with
    distinct addresses of functions, looking up an address finds the function
    with the greatest address not above it, whatever the gap, and finds one as
    soon as there is a function at or before the address. *)
Theorem kernel_FindSymbol `{DsoFiles} g d l ip :
  dso_class d = DSO_KERNEL -> is_loaded_ d = false -> symbols_ d = [] -> unknown_symbols_ d = ∅ ->
  vmlinux_ g = [] -> l <> [] -> kallsyms_ g = kallsyms_text l -> Forall kernel_symbol_ok l ->
  NoDup (symbol_addr <$> kernel_functions l) -> 0 <= ip < UINT64_MAX ->
  exists d' r, FindSymbol g ip d = Ok (d', r) /\ is_loaded_ d' = true /\
    match r with
    | Some s => (exists k, k ∈ l /\ kernel_function k = true /\ ks_name k = symbol_name s /\ ks_addr k = symbol_addr s) /\
                symbol_addr s <= ip /\
                forall k, k ∈ l -> kernel_function k = true -> ks_addr k <= ip -> ks_addr k <= symbol_addr s
    | None => forall k, k ∈ l -> kernel_function k = true -> ip < ks_addr k
    end.
Proof.
  intros Hc Hl Hs Hun Hv Hn Hk Hok Hnd Hip.
  set (t := extend_last (SortAndFixSymbols (kernel_functions l))).
  assert (LoadSymbols g d = Ok t) as EL.
  { unfold LoadSymbols, LoadSymbols_kernel. rewrite Hc, Hv, Hk, read_kallsyms by done. cbn [is_empty negb].
    destruct l as [|k l]; [done|]. rewrite kallsyms_text_cons. by destruct (symbol_line k). }
  assert (Forall (fun s => is_u64 (symbol_addr s) /\ symbol_len s = 0) (kernel_functions l)) as Hu.
  { unfold kernel_functions. apply Forall_fmap, Forall_forall. intros k Hin.
    apply list_elem_of_filter in Hin as [_ Hin]. rewrite Forall_forall in Hok. destruct (Hok k Hin) as [Ha _]. done. }
  destruct (kernel_table _ Hnd Hu) as (C & S & U & K). fold t in C, S, U, K.
  pose proof (contiguous_finds t ip C S U (proj2 Hip)) as Hf.
  assert (forall k, k ∈ l -> kernel_function k = true -> exists x, x ∈ t /\ symbol_key x = (ks_name k, ks_addr k)) as Hin.
  { intros k Hkin Hfun. assert ((ks_name k, ks_addr k) ∈ symbol_key <$> t) as Hx.
    { rewrite K. apply list_elem_of_fmap. exists (Symbol_new (ks_name k) (ks_addr k) 0). split; [done|].
      unfold kernel_functions. apply list_elem_of_fmap. exists k. split; [done|]. by apply list_elem_of_filter. }
    apply list_elem_of_fmap in Hx as (x & E & Hx). by exists x. }
  exists (set_symbols t (set_loaded d)), (symbol_before ip t). split; [|split; [done|]].
  - unfold FindSymbol, Load. rewrite Hl, EL. cbn [mbind res_bind]. rewrite Hs. cbn [mbind res_bind].
    do 2 f_equal. unfold FindSymbol_loaded. cbn [symbols_ set_symbols unknown_symbols_ set_loaded].
    rewrite Hun, lookup_empty. destruct (symbol_before ip t) as [s|]; [|done]. destruct Hf as (_ & [F1 F2] & _).
    by rewrite (proj2 (Z.leb_le _ _) F1), (proj2 (Z.ltb_lt _ _) F2).
  - destruct (symbol_before ip t) as [s|].
    + destruct Hf as (F1 & F2 & F3). split_and!; [|lia|].
      * assert (symbol_key s ∈ symbol_key <$> t) as Hx by by apply list_elem_of_fmap_2.
        rewrite K in Hx. apply list_elem_of_fmap in Hx as (y & E & Hy). unfold kernel_functions in Hy.
        apply list_elem_of_fmap in Hy as (k & -> & Hy). apply list_elem_of_filter in Hy as [Hy1 Hy2].
        exists k. injection E as E1 E2. done.
      * intros k Hk1 Hk2 Hle. destruct (Hin k Hk1 Hk2) as (x & Hx & E). injection E as _ E. rewrite <- E in *. auto.
    + intros k Hk1 Hk2. destruct (Hin k Hk1 Hk2) as (x & Hx & E). injection E as _ E. rewrite <- E. auto.
Qed.

Definition kallsyms_example : list KernelSymbol :=
  [mkKernelSymbol 2000 84 (str "g") None; mkKernelSymbol 1500 100 (str "data") None;
   mkKernelSymbol 1000 116 (str "f") (Some (str "mod"))].

Lemma kernel_FindSymbol_witness :
  exists d' s, FindSymbol (files := no_files) (SetKallsyms_global (kallsyms_text kallsyms_example) DsoGlobals_init) 1999
    (CreateDso (files := no_files) DSO_KERNEL (str "[kernel.kallsyms]") false DsoGlobals_init) = Ok (d', Some s) /\
    symbol_addr s = 1000.
Proof.
  destruct (kernel_FindSymbol (H := no_files)
    (SetKallsyms_global (kallsyms_text kallsyms_example) DsoGlobals_init)
    (CreateDso (files := no_files) DSO_KERNEL (str "[kernel.kallsyms]") false DsoGlobals_init) kallsyms_example 1999)
    as (d' & r & E & _ & Hr); try reflexivity.
  - done.
  - unfold kallsyms_example. repeat (apply Forall_cons; split); try apply Forall_nil; kernel_symbol_ok_tac.
  - apply (bool_decide_unpack _). vm_compute. exact I.
  - unfold UINT64_MAX. lia.
  - exists d'. destruct r as [s|].
    + exists s. split; [done|]. destruct Hr as ((k & Hk & Hfun & _ & Ek) & Hle & Hmax).
      specialize (Hmax (mkKernelSymbol 1000 116 (str "f") (Some (str "mod")))). cbn [ks_addr] in Hmax.
      assert (1000 <= symbol_addr s).
      { apply Hmax; [|vm_compute; reflexivity|lia]. unfold kallsyms_example. set_unfold. tauto. }
      rewrite <- Ek in *. unfold kallsyms_example in Hk.
      repeat (apply elem_of_cons in Hk as [->|Hk]; [cbn in *; try lia|]); [|by apply not_elem_of_nil in Hk].
      exfalso. vm_compute in Hfun. discriminate.
    + specialize (Hr (mkKernelSymbol 1000 116 (str "f") (Some (str "mod")))). cbn [ks_addr] in Hr.
      exfalso. assert (1999 < 1000); [|lia]. apply Hr; [|vm_compute; reflexivity]. unfold kallsyms_example. set_unfold. tauto.
Defined.
