(* ===== verification/ThreadTree.v ===== *)
(** Model of [ThreadTree] of src/simpleperf/thread_tree.h and thread_tree.cpp:
    threads, their map sets and the shared libraries, fed by records.

    Pointers are indices: a [ThreadEntry*] is the thread id it is stored
    under, a [MapSet*] an index of [map_set_storage_] (threads of one process
    share it), a [Dso*] an index of [dsos_]. *)
From stdpp Require Import base list numbers strings gmap.
From Stdlib Require Import ZArith Lia.
From S2P Require Import Prelude Utils RecordBase Records SampleRecord RecordRead Maps KernelSymbols Dso.

Record MapSet := mkMapSet { maps : list MapEntry; version : Z }.

Record ThreadEntry := mkThread { th_pid : Z; th_tid : Z; th_comm : bytes; th_maps : nat }.

Record ThreadTree := mkTree {
  thread_tree_ : gmap Z ThreadEntry;
  map_set_storage_ : list MapSet;
  kernel_maps_ : MapSet;
  dsos_ : list Dso;
  module_dso_tree_ : gmap bytes nat;
  user_dso_tree_ : gmap bytes nat;
  show_ip_for_unknown_symbol_ : bool;
  show_mark_for_unknown_symbol_ : bool;
  unknown_symbol_ : Symbol;
  globals_ : DsoGlobals;    (* the static members of Dso *)
}.

Definition unknown_dso_ : nat := 0.
Definition kernel_dso_ : nat := 1.
Definition unknown_map_ : MapEntry := mkMap 0 UINT64_MAX 0 0 (Some unknown_dso_) false 0.

Definition DEFAULT_KERNEL_MMAP_NAME : bytes := str "[kernel.kallsyms]".
Definition DEFAULT_KERNEL_MMAP_NAME_PERF : bytes := str "[kernel.kallsyms]_text".
Definition DEFAULT_EXECNAME_FOR_THREAD_MMAP : bytes := str "//anon".
Definition PROT_JIT_SYMFILE_MAP : Z := 0x4000.

(** * Member updates *)

Definition set_threads (x : gmap Z ThreadEntry) (t : ThreadTree) : ThreadTree :=
  mkTree x (map_set_storage_ t) (kernel_maps_ t) (dsos_ t) (module_dso_tree_ t) (user_dso_tree_ t)
    (show_ip_for_unknown_symbol_ t) (show_mark_for_unknown_symbol_ t) (unknown_symbol_ t) (globals_ t).
Definition set_map_sets (x : list MapSet) (t : ThreadTree) : ThreadTree :=
  mkTree (thread_tree_ t) x (kernel_maps_ t) (dsos_ t) (module_dso_tree_ t) (user_dso_tree_ t)
    (show_ip_for_unknown_symbol_ t) (show_mark_for_unknown_symbol_ t) (unknown_symbol_ t) (globals_ t).
Definition set_kernel_maps (x : MapSet) (t : ThreadTree) : ThreadTree :=
  mkTree (thread_tree_ t) (map_set_storage_ t) x (dsos_ t) (module_dso_tree_ t) (user_dso_tree_ t)
    (show_ip_for_unknown_symbol_ t) (show_mark_for_unknown_symbol_ t) (unknown_symbol_ t) (globals_ t).
Definition set_dsos (x : list Dso) (t : ThreadTree) : ThreadTree :=
  mkTree (thread_tree_ t) (map_set_storage_ t) (kernel_maps_ t) x (module_dso_tree_ t) (user_dso_tree_ t)
    (show_ip_for_unknown_symbol_ t) (show_mark_for_unknown_symbol_ t) (unknown_symbol_ t) (globals_ t).
Definition set_modules (x : gmap bytes nat) (t : ThreadTree) : ThreadTree :=
  mkTree (thread_tree_ t) (map_set_storage_ t) (kernel_maps_ t) (dsos_ t) x (user_dso_tree_ t)
    (show_ip_for_unknown_symbol_ t) (show_mark_for_unknown_symbol_ t) (unknown_symbol_ t) (globals_ t).
Definition set_users (x : gmap bytes nat) (t : ThreadTree) : ThreadTree :=
  mkTree (thread_tree_ t) (map_set_storage_ t) (kernel_maps_ t) (dsos_ t) (module_dso_tree_ t) x
    (show_ip_for_unknown_symbol_ t) (show_mark_for_unknown_symbol_ t) (unknown_symbol_ t) (globals_ t).
Definition ShowIpForUnknownSymbol (t : ThreadTree) : ThreadTree :=
  mkTree (thread_tree_ t) (map_set_storage_ t) (kernel_maps_ t) (dsos_ t) (module_dso_tree_ t)
    (user_dso_tree_ t) true (show_mark_for_unknown_symbol_ t) (unknown_symbol_ t) (globals_ t).
Definition ShowMarkForUnknownSymbol (t : ThreadTree) : ThreadTree :=
  mkTree (thread_tree_ t) (map_set_storage_ t) (kernel_maps_ t) (dsos_ t) (module_dso_tree_ t)
    (user_dso_tree_ t) (show_ip_for_unknown_symbol_ t) true (Symbol_new (str "*unknown") 0 UINT64_MAX)
    (globals_ t).
Definition SetKallsyms (x : bytes) (t : ThreadTree) : ThreadTree :=
  mkTree (thread_tree_ t) (map_set_storage_ t) (kernel_maps_ t) (dsos_ t) (module_dso_tree_ t)
    (user_dso_tree_ t) (show_ip_for_unknown_symbol_ t) (show_mark_for_unknown_symbol_ t)
    (unknown_symbol_ t) (SetKallsyms_global x (globals_ t)).

(** * Threads *)

(** [CreateThread], given the [FindThreadOrNew] it calls for the process. *)
Definition CreateThread (find : Z -> Z -> ThreadTree -> res ThreadTree) (pid tid : Z) (t : ThreadTree)
    : res ThreadTree :=
  '(t, m) ←
    (if pid =? tid then
       Ok (set_map_sets (map_set_storage_ t ++ [mkMapSet [] 0]) t, length (map_set_storage_ t))
     else
       t ← find pid pid t;
       match thread_tree_ t !! pid with
       | Some process => Ok (t, th_maps process)
       | None => OutOfBounds
       end);
  match thread_tree_ t !! tid with
  | Some _ => CheckFailed
  | None => Ok (set_threads (<[tid := mkThread pid tid (str "unknown") m]> (thread_tree_ t)) t)
  end.

(** [fuel] bounds the nesting of [FindThreadOrNew] and [CreateThread]. *)
Fixpoint FindThreadOrNew_fuel (fuel : nat) (pid tid : Z) (t : ThreadTree) : res ThreadTree :=
  match thread_tree_ t !! tid with
  | Some _ => Ok t
  | None =>
      match fuel with
      | O => OutOfBounds
      | S fuel => CreateThread (FindThreadOrNew_fuel fuel) pid tid t
      end
  end.

(** A process and a thread: two calls deep at most. *)
Definition FindThreadOrNew (pid tid : Z) (t : ThreadTree) : res ThreadTree := FindThreadOrNew_fuel 2 pid tid t.

Definition get_thread (tid : Z) (t : ThreadTree) : res ThreadEntry :=
  match thread_tree_ t !! tid with Some th => Ok th | None => OutOfBounds end.

Definition set_comm (tid : Z) (comm : bytes) (t : ThreadTree) : ThreadTree :=
  set_threads (alter (fun th => mkThread (th_pid th) (th_tid th) comm (th_maps th)) tid (thread_tree_ t)) t.

Definition SetThreadName (pid tid : Z) (comm : bytes) (t : ThreadTree) : res ThreadTree :=
  t ← FindThreadOrNew pid tid t;
  th ← get_thread tid t;
  Ok (if bool_decide (comm = th_comm th) then t else set_comm tid comm t).

Definition get_maps (i : nat) (t : ThreadTree) : res MapSet :=
  match map_set_storage_ t !! i with Some m => Ok m | None => OutOfBounds end.

Definition ForkThread (pid tid ppid ptid : Z) (t : ThreadTree) : res ThreadTree :=
  t ← FindThreadOrNew ppid ptid t;
  t ← FindThreadOrNew pid tid t;
  parent ← get_thread ptid t;
  let t := set_comm tid (th_comm parent) t in
  child ← get_thread tid t;
  if negb (pid =? ppid) then
    m ← get_maps (th_maps parent) t;
    Ok (set_map_sets (<[th_maps child := m]> (map_set_storage_ t)) t)
  else Ok t.

(** * Libraries *)

Section tree.
Context `{files : DsoFiles}.

Definition new_dso (d : Dso) (t : ThreadTree) : ThreadTree * nat :=
  (set_dsos (dsos_ t ++ [d]) t, length (dsos_ t)).

Definition FindKernelDsoOrNew (filename : bytes) (t : ThreadTree) : ThreadTree * nat :=
  if bool_decide (filename = DEFAULT_KERNEL_MMAP_NAME) || bool_decide (filename = DEFAULT_KERNEL_MMAP_NAME_PERF)
  then (t, kernel_dso_)
  else match module_dso_tree_ t !! filename with
       | Some d => (t, d)
       | None =>
           let '(t, d) := new_dso (CreateDso DSO_KERNEL_MODULE filename false (globals_ t)) t in
           (set_modules (<[filename := d]> (module_dso_tree_ t)) t, d)
       end.

(** [force_64bit = start_addr > UINT_MAX] *)
Definition FindUserDsoOrNew (filename : bytes) (start_addr : Z) (dso_type : DsoType) (t : ThreadTree)
    : ThreadTree * nat :=
  match user_dso_tree_ t !! filename with
  | Some d => (t, d)
  | None =>
      let '(t, d) := new_dso (CreateDso dso_type filename (UINT32_MAX <? start_addr) (globals_ t)) t in
      (set_users (<[filename := d]> (user_dso_tree_ t)) t, d)
  end.

(** * Maps *)

(** [FixOverlappedMap(maps, map); maps->maps.insert(map); CHECK(pair.second)] *)
Definition add_map (map : MapEntry) (m : MapSet) : res MapSet :=
  let '(l, inserted) := set_insert map (FixOverlappedMap (maps m) map) in
  if inserted then Ok (mkMapSet l (version m)) else CheckFailed.

Definition AddKernelMap (start_addr len pgoff time : Z) (filename : bytes) (t : ThreadTree) : res ThreadTree :=
  if len =? 0 then Ok t
  else
    let '(t, d) := FindKernelDsoOrNew filename t in
    m ← add_map (mkMap start_addr len pgoff time (Some d) true 0) (kernel_maps_ t);
    Ok (set_kernel_maps m t).

Definition AddThreadMap (pid tid start_addr len pgoff time : Z) (filename : bytes) (flags : Z)
    (t : ThreadTree) : res ThreadTree :=
  t ← FindThreadOrNew pid tid t;
  th ← get_thread tid t;
  let '(t, d) := FindUserDsoOrNew filename start_addr DSO_ELF_FILE t in
  m ← get_maps (th_maps th) t;
  m ← add_map (mkMap start_addr len pgoff time (Some d) false flags) m;
  Ok (set_map_sets (<[th_maps th := mkMapSet (maps m) (version m +u64 1)]> (map_set_storage_ t)) t).

Definition FindMap_in (th : ThreadEntry) (ip : Z) (in_kernel : bool) (t : ThreadTree) : res MapEntry :=
  r ← (if negb in_kernel then m ← get_maps (th_maps th) t; Ok (FindMapByAddr (maps m) ip)
       else Ok (FindMapByAddr (maps (kernel_maps_ t)) ip));
  Ok (default unknown_map_ r).

Definition FindMap (th : ThreadEntry) (ip : Z) (t : ThreadTree) : res MapEntry :=
  m ← get_maps (th_maps th) t;
  match FindMapByAddr (maps m) ip with
  | Some r => Ok r
  | None => Ok (default unknown_map_ (FindMapByAddr (maps (kernel_maps_ t)) ip))
  end.

Definition ClearThreadAndMap (t : ThreadTree) : ThreadTree :=
  mkTree ∅ [] (mkMapSet [] (version (kernel_maps_ t))) (dsos_ t) (module_dso_tree_ t) (user_dso_tree_ t)
    (show_ip_for_unknown_symbol_ t) (show_mark_for_unknown_symbol_ t) (unknown_symbol_ t) (globals_ t).

Definition GetAllDsos (t : ThreadTree) : list nat :=
  kernel_dso_ :: (snd <$> map_to_list (module_dso_tree_ t)) ++ (snd <$> map_to_list (user_dso_tree_ t)) ++
  [unknown_dso_].
Definition GetAllThreads (t : ThreadTree) : list ThreadEntry := snd <$> map_to_list (thread_tree_ t).

(** The constructor. *)
Definition ThreadTree_new (g : DsoGlobals) : res ThreadTree :=
  SetThreadName 0 0 (str "swapper")
    (mkTree ∅ [] (mkMapSet [] 0)
       [CreateDso DSO_UNKNOWN_FILE (str "unknown") false g; CreateDso DSO_KERNEL DEFAULT_KERNEL_MMAP_NAME false g]
       ∅ ∅ false false (Symbol_new (str "unknown") 0 UINT64_MAX) g).

(** * Symbols *)

(** ["%" PRIx64]: the lower-case hexadecimal digits, without leading zeros. *)
Fixpoint hex_digits (fuel : nat) (x : Z) (acc : bytes) : bytes :=
  match fuel with
  | O => acc
  | S fuel =>
      let acc := hex_char (x mod 16) :: acc in
      if x / 16 =? 0 then acc else hex_digits fuel (x / 16) acc
  end.
Definition print_hex (x : Z) : bytes := hex_digits 16 x [].

(** Call a member function of the library [i]. *)
Definition on_dso {A} (i : nat) (f : Dso -> res (Dso * A)) (t : ThreadTree) : res (ThreadTree * A) :=
  match dsos_ t !! i with
  | Some d => '(d, a) ← f d; Ok (set_dsos (<[i := d]> (dsos_ t)) t, a)
  | None => OutOfBounds
  end.
Definition dso_of (m : MapEntry) : res nat := match dso m with Some i => Ok i | None => OutOfBounds end.

(** The address in the file and the symbol there, in the library of a user map. *)
Definition find_user_symbol (map : MapEntry) (i : nat) (ip : Z) (t : ThreadTree)
    : res (ThreadTree * Z * option Symbol) :=
  let g := globals_ t in
  '(t, ty) ← on_dso i (fun d => Ok (d, type_ d)) t;
  '(t, vaddr) ←
    (if negb (Z.land (Maps.flags map) PROT_JIT_SYMFILE_MAP =? 0) then Ok (t, ip)
     else if bool_decide (ty = DSO_DEX_FILE) then Ok (t, u64 (ip - start_addr map + pgoff map))
     else '(t, v) ← on_dso i (fun d => Ok (MinVirtualAddress g d)) t;
          Ok (t, u64 (ip - start_addr map + v)));
  '(t, s) ← on_dso i (FindSymbol g vaddr) t;
  Ok (t, vaddr, s).

(** The same for a kernel map: a module first, then the kernel. *)
Definition find_kernel_symbol (map : MapEntry) (i : nat) (ip : Z) (t : ThreadTree)
    : res (ThreadTree * Z * nat * option Symbol) :=
  let g := globals_ t in
  '(t, vaddr, s) ←
    (if negb (Nat.eqb i kernel_dso_) then
       '(t, v) ← on_dso i (fun d => Ok (MinVirtualAddress g d)) t;
       let vaddr := u64 (ip - start_addr map + v) in
       '(t, s) ← on_dso i (FindSymbol g vaddr) t;
       Ok (t, vaddr, s)
     else Ok (t, 0, None));
  match s with
  | Some s => Ok (t, vaddr, i, Some s)
  | None =>
      '(t, s) ← on_dso kernel_dso_ (FindSymbol g ip) t;
      Ok (t, ip, kernel_dso_, s)
  end.

(** The symbol, [*pvaddr_in_file] and [*pdso]. *)
Definition FindSymbol_tree (map : MapEntry) (ip : Z) (t : ThreadTree) : res (ThreadTree * Symbol * Z * nat) :=
  let g := globals_ t in
  i ← dso_of map;
  '(t, vaddr, d, s) ←
    (if negb (in_kernel map) then
       '(t, vaddr, s) ← find_user_symbol map i ip t; Ok (t, vaddr, i, s)
     else find_kernel_symbol map i ip t);
  match s with
  | Some s => Ok (t, s, vaddr, d)
  | None =>
      if show_ip_for_unknown_symbol_ t then
        '(t, name) ← on_dso d (fun x => Ok (x, file_name_ x)) t;
        let name := (if show_mark_for_unknown_symbol_ t then str "*" else []) ++ name ++
                    str "[+" ++ print_hex vaddr ++ str "]" in
        '(t, _) ← on_dso d (fun x => Ok (AddUnknownSymbol vaddr name x, tt)) t;
        '(t, s) ← on_dso d (FindSymbol g vaddr) t;
        match s with Some s => Ok (t, s, vaddr, d) | None => CheckFailed end
      else Ok (t, unknown_symbol_ t, vaddr, d)
  end.

Definition FindKernelSymbol (ip : Z) (t : ThreadTree) : res (ThreadTree * Symbol) :=
  let map := default unknown_map_ (FindMapByAddr (maps (kernel_maps_ t)) ip) in
  '(t, s, _, _) ← FindSymbol_tree map ip t; Ok (t, s).

(** [static_cast<DsoType>(file_type)]: 0, 1, ... in the order of the enum;
    [CreateDso] aborts on another value. *)
Definition dso_type_of (file_type : Z) : option DsoType :=
  if file_type =? 0 then Some DSO_KERNEL
  else if file_type =? 1 then Some DSO_KERNEL_MODULE
  else if file_type =? 2 then Some DSO_ELF_FILE
  else if file_type =? 3 then Some DSO_DEX_FILE
  else if file_type =? 4 then Some DSO_UNKNOWN_FILE
  else None.

Definition AddDsoInfo (file_path : bytes) (file_type : Z) (min_vaddr : Z) (symbols : list Symbol)
    (dex_file_offsets : list Z) (t : ThreadTree) : res ThreadTree :=
  '(t, i) ←
    match dso_type_of file_type with
    | Some DSO_KERNEL | Some DSO_KERNEL_MODULE => Ok (FindKernelDsoOrNew file_path t)
    | Some ty => Ok (FindUserDsoOrNew file_path 0 ty t)
    | None => match user_dso_tree_ t !! file_path with Some d => Ok (t, d) | None => CheckFailed end
    end;
  '(t, _) ← on_dso i (fun d => Ok
    (foldl (fun d offset => Dso.AddDexFileOffset offset d)
       (SetSymbols symbols (SetMinVirtualAddress min_vaddr d)) dex_file_offsets, tt)) t;
  Ok t.

Definition AddDexFileOffset_tree (file_path : bytes) (offset : Z) (t : ThreadTree) : res ThreadTree :=
  let '(t, i) := FindUserDsoOrNew file_path 0 DSO_DEX_FILE t in
  '(t, _) ← on_dso i (fun d => Ok (Dso.AddDexFileOffset offset d, tt)) t;
  Ok t.

(** * [Update] *)

(** A [uint32_t] passed as an [int]. *)
Definition to_int (x : Z) : Z := if x <? 2 ^ 31 then x else x - 2 ^ 32.

Definition Update_mmap (r : MmapRecord) (t : ThreadTree) : res ThreadTree :=
  d ← deref MmapRecordDataType_codec (mmap_rec r) (mmap_data r);
  filename ← deref_str (mmap_rec r) (mmap_filename r);
  let time := sid_time (sample_id (mmap_rec r)) in
  if InKernel (mmap_rec r) then AddKernelMap (mmap_addr d) (mmap_len d) (mmap_pgoff d) time filename t
  else AddThreadMap (to_int (mmap_pid d)) (to_int (mmap_tid d)) (mmap_addr d) (mmap_len d) (mmap_pgoff d)
         time filename 0 t.

(** [r.filename == DEFAULT_EXECNAME_FOR_THREAD_MMAP] compares two [const char*]:
    the address of bytes in the record's binary with that of the literal. *)
Definition same_pointer_as_literal (r : Mmap2Record) : bool := false.

Definition Update_mmap2 (r : Mmap2Record) (t : ThreadTree) : res ThreadTree :=
  d ← deref Mmap2RecordDataType_codec (mmap2_rec r) (mmap2_data r);
  r_filename ← deref_str (mmap2_rec r) (mmap2_filename r);
  let time := sid_time (sample_id (mmap2_rec r)) in
  if InKernel (mmap2_rec r) then AddKernelMap (mmap2_addr d) (mmap2_len d) (mmap2_pgoff d) time r_filename t
  else
    let filename := if same_pointer_as_literal r then str "[unknown]" else r_filename in
    AddThreadMap (to_int (mmap2_pid d)) (to_int (mmap2_tid d)) (mmap2_addr d) (mmap2_len d) (mmap2_pgoff d)
      time filename (mmap2_prot d) t.

Definition Update_comm (r : CommRecord) (t : ThreadTree) : res ThreadTree :=
  d ← deref CommRecordDataType_codec (comm_rec r) (comm_data r);
  comm ← deref_str (comm_rec r) (comm_comm r);
  SetThreadName (to_int (comm_pid d)) (to_int (comm_tid d)) comm t.

Definition Update_fork (r : ExitOrForkRecord) (t : ThreadTree) : res ThreadTree :=
  d ← deref ExitOrForkRecordDataType_codec (fork_rec r) (fork_data r);
  ForkThread (to_int (fork_pid d)) (to_int (fork_tid d)) (to_int (fork_ppid d)) (to_int (fork_ptid d)) t.

Definition Update_kernel_symbol (r : KernelSymbolRecord) (t : ThreadTree) : res ThreadTree :=
  s ← deref_str (ksym_rec r) (kallsyms r); Ok (SetKallsyms s t).

Definition Update (a : AnyRecord) (t : ThreadTree) : res ThreadTree :=
  match a with
  | AMmap r => Update_mmap r t
  | AMmap2 r => Update_mmap2 r t
  | AComm r => Update_comm r t
  | AFork r => Update_fork r t
  | AKernelSymbol r => Update_kernel_symbol r t
  | _ => Ok t
  end.

(** * The invariant *)

(** Every thread has a map set and is stored under its id; every map set, and
    the kernel's, is sorted and disjoint. *)
Record tree_ok (t : ThreadTree) : Prop := {
  tk_thread : forall tid th, thread_tree_ t !! tid = Some th ->
    th_tid th = tid /\ is_Some (map_set_storage_ t !! th_maps th);
  tk_maps : Forall (fun m => maps_ok (maps m)) (map_set_storage_ t);
  tk_kernel : maps_ok (maps (kernel_maps_ t));
  tk_dsos : (2 <= length (dsos_ t))%nat;
}.

Lemma maps_ok_nil : maps_ok [].
Proof. split; constructor. Qed.

Lemma lookup_app_is_Some {A} (l k : list A) i : is_Some (l !! i) -> is_Some ((l ++ k) !! i).
Proof. intros [x H]. exists x. by apply lookup_app_l_Some. Qed.

(** [CreateThread] for the leader of a process: a new, empty map set. *)
Lemma create_leader find pid t :
  tree_ok t -> thread_tree_ t !! pid = None ->
  exists t', CreateThread find pid pid t = Ok t' /\ tree_ok t' /\
    thread_tree_ t' = <[pid := mkThread pid pid (str "unknown") (length (map_set_storage_ t))]> (thread_tree_ t) /\
    map_set_storage_ t' = map_set_storage_ t ++ [mkMapSet [] 0] /\ kernel_maps_ t' = kernel_maps_ t /\
    dsos_ t' = dsos_ t.
Proof.
  intros [] Hn. unfold CreateThread. rewrite Z.eqb_refl. cbn [mbind res_bind thread_tree_ set_map_sets].
  rewrite Hn. eexists. split; [done|]. split; [|done].
  split; cbn [thread_tree_ map_set_storage_ kernel_maps_ dsos_ set_threads set_map_sets]; [|..|done|done].
  - intros tid th H. apply lookup_insert_Some in H as [[<- <-]|[_ H]]; cbn [th_tid th_maps].
    + split; [done|]. rewrite lookup_app_r, Nat.sub_diag by lia. by eexists.
    + destruct (tk_thread0 _ _ H) as [E Hs]. split; [done|]. by apply lookup_app_is_Some.
  - apply Forall_app. split; [done|]. apply Forall_singleton. apply maps_ok_nil.
Qed.

(** A thread shares the map set of its process. *)
Lemma create_thread find pid tid t t1 process :
  pid <> tid -> find pid pid t = Ok t1 -> tree_ok t1 -> thread_tree_ t1 !! pid = Some process ->
  thread_tree_ t1 !! tid = None ->
  exists t', CreateThread find pid tid t = Ok t' /\ tree_ok t' /\
    thread_tree_ t' = <[tid := mkThread pid tid (str "unknown") (th_maps process)]> (thread_tree_ t1) /\
    map_set_storage_ t' = map_set_storage_ t1 /\ kernel_maps_ t' = kernel_maps_ t1 /\ dsos_ t' = dsos_ t1.
Proof.
  intros Hne Hf [] Hp Hn. unfold CreateThread. rewrite (proj2 (Z.eqb_neq _ _) Hne), Hf. cbn [mbind res_bind].
  rewrite Hp. cbn [mbind res_bind]. rewrite Hn. eexists. split; [done|]. split; [|done].
  split; cbn [thread_tree_ map_set_storage_ kernel_maps_ dsos_ set_threads]; try done.
  intros tid' th H. apply lookup_insert_Some in H as [[<- <-]|[_ H]]; cbn [th_tid th_maps].
  - split; [done|]. by apply (tk_thread0 pid).
  - by apply tk_thread0.
Qed.

(** What [FindThreadOrNew] leaves alone and what it adds. *)
Record extends (t t' : ThreadTree) : Prop := {
  ex_threads : forall tid th, thread_tree_ t !! tid = Some th -> thread_tree_ t' !! tid = Some th;
  ex_new : exists new, map_set_storage_ t' = map_set_storage_ t ++ new /\ Forall (fun m => m = mkMapSet [] 0) new;
  ex_kernel : kernel_maps_ t' = kernel_maps_ t;
  ex_dsos : dsos_ t' = dsos_ t;
}.

Lemma extends_refl t : extends t t.
Proof. split; try done. exists []. by rewrite app_nil_r. Qed.

Lemma find_leader pid fuel t :
  tree_ok t -> exists t' th, FindThreadOrNew_fuel (S fuel) pid pid t = Ok t' /\ tree_ok t' /\
    thread_tree_ t' !! pid = Some th /\ extends t t' /\
    (thread_tree_ t !! pid = None -> th = mkThread pid pid (str "unknown") (length (map_set_storage_ t))) /\
    (forall k, k <> pid -> thread_tree_ t' !! k = thread_tree_ t !! k).
Proof.
  intros Hok. cbn [FindThreadOrNew_fuel]. destruct (thread_tree_ t !! pid) as [th|] eqn:E.
  { exists t, th. split_and!; try done. apply extends_refl. }
  destruct (create_leader (FindThreadOrNew_fuel fuel) pid t Hok E) as (t' & -> & Hok' & Et & Em & Ek & Ed).
  exists t', (mkThread pid pid (str "unknown") (length (map_set_storage_ t))). rewrite Et.
  split; [done|]. split; [done|]. split; [apply lookup_insert_eq|]. split; [split; try done|].
  - intros tid th H. rewrite Et, lookup_insert_ne; [done|]. intros ->. congruence.
  - exists [mkMapSet [] 0]. split; [done|]. by apply Forall_singleton.
  - split; [done|]. intros k Hk. by rewrite lookup_insert_ne.
Qed.

Lemma find_thread pid tid t :
  tree_ok t -> exists t' th, FindThreadOrNew pid tid t = Ok t' /\ tree_ok t' /\
    thread_tree_ t' !! tid = Some th /\ extends t t' /\
    (thread_tree_ t !! tid = None -> th_pid th = pid /\ th_comm th = str "unknown" /\
       exists p, thread_tree_ t' !! pid = Some p /\ th_maps th = th_maps p) /\
    (forall k, k <> tid -> k <> pid -> thread_tree_ t' !! k = thread_tree_ t !! k).
Proof.
  intros Hok. destruct (thread_tree_ t !! tid) as [th|] eqn:E.
  { exists t, th. unfold FindThreadOrNew. cbn [FindThreadOrNew_fuel]. rewrite E. split_and!; try done. apply extends_refl. }
  destruct (Z.eq_dec pid tid) as [->|Hne].
  { destruct (find_leader tid 1 t Hok) as (t' & th & Hr & Hok' & Ht & Hx & Hn & Hk). exists t', th.
    rewrite (Hn E) in *. split_and!; try done; [|auto]. intros _. split_and!; try done. by eexists. }
  destruct (find_leader pid 0 t Hok) as (t1 & p & Hr & Hok1 & Hp & [X1 X2 X3 X4] & Hn & Hk).
  destruct (create_thread (FindThreadOrNew_fuel 1) pid tid t t1 p Hne Hr Hok1 Hp) as (t' & Hc & Hok' & Et & Em & Ek & Ed);
    [by rewrite Hk by done|].
  exists t', (mkThread pid tid (str "unknown") (th_maps p)). unfold FindThreadOrNew.
  cbn [FindThreadOrNew_fuel]. rewrite E. split; [exact Hc|]. split; [done|]. rewrite Et.
  split; [apply lookup_insert_eq|]. split; [split|split].
  - intros k th H. rewrite Et. destruct (Z.eq_dec k tid) as [->|]; [congruence|].
    rewrite lookup_insert_ne by done. by apply X1.
  - by rewrite Em.
  - by rewrite Ek.
  - by rewrite Ed.
  - intros _. split_and!; try done. exists p. rewrite lookup_insert_ne by done. done.
  - intros k Hkt Hkp. rewrite lookup_insert_ne by done. by apply Hk.
Qed.

(** * Preservation *)

Lemma set_comm_ok tid comm t : tree_ok t -> tree_ok (set_comm tid comm t).
Proof.
  intros []. split; try done. intros k th H. cbn [set_comm thread_tree_ set_threads] in H.
  apply lookup_alter_Some in H as [(-> & th0 & H & ->)|[_ H]]; by apply tk_thread0 in H.
Qed.

Lemma set_map_set_ok i m t : tree_ok t -> maps_ok (maps m) -> tree_ok (set_map_sets (<[i := m]> (map_set_storage_ t)) t).
Proof.
  intros [] Hm. split; cbn [thread_tree_ map_set_storage_ kernel_maps_ dsos_ set_map_sets]; try done.
  - intros tid th H. destruct (tk_thread0 tid th H) as [E [x Hx]]. split; [done|].
    apply lookup_lt_is_Some. rewrite length_insert. by eapply lookup_lt_Some.
  - by apply Forall_insert.
Qed.

Lemma new_dso_ok d t : tree_ok t -> tree_ok (fst (new_dso d t)).
Proof. intros []. split; try done. cbn. rewrite length_app. lia. Qed.

(** The members that hold threads and maps. *)
Definition same_threads (t t' : ThreadTree) : Prop :=
  thread_tree_ t' = thread_tree_ t /\ map_set_storage_ t' = map_set_storage_ t /\ kernel_maps_ t' = kernel_maps_ t.

Lemma kernel_dso_threads f t : same_threads t (fst (FindKernelDsoOrNew f t)) /\
  (tree_ok t -> tree_ok (fst (FindKernelDsoOrNew f t))).
Proof.
  unfold FindKernelDsoOrNew. destruct (_ || _); [done|]. destruct (module_dso_tree_ t !! f); [done|].
  cbn [new_dso fst]. split; [done|]. intros Hok. by destruct (new_dso_ok (CreateDso DSO_KERNEL_MODULE f false (globals_ t)) t Hok).
Qed.

Lemma user_dso_threads f a ty t : same_threads t (fst (FindUserDsoOrNew f a ty t)) /\
  (tree_ok t -> tree_ok (fst (FindUserDsoOrNew f a ty t))).
Proof.
  unfold FindUserDsoOrNew. destruct (user_dso_tree_ t !! f); [done|].
  cbn [new_dso fst]. split; [done|]. intros Hok. by destruct (new_dso_ok (CreateDso ty f (UINT32_MAX <? a) (globals_ t)) t Hok).
Qed.

(** A map the tree can take: not empty, within the address space. *)
Definition range_ok (start_addr len time : Z) : Prop :=
  0 <= start_addr /\ 0 < len /\ start_addr + len < 2 ^ 64 /\ 0 <= time <= UINT64_MAX.

Lemma add_map_spec map m :
  maps_ok (maps m) -> range_ok (start_addr map) (len map) (time map) ->
  exists m', add_map map m = Ok m' /\ maps_ok (maps m') /\ version m' = version m /\
    forall addr, map_at (maps m') addr = Some map /\ IsAddrInMap addr map = true \/
                 resolve (maps m') addr = resolve (maps m) addr /\ IsAddrInMap addr map = false.
Proof.
  intros Hm (H1 & H2 & H3 & H4).
  destruct (fix_insert (maps m) map Hm) as (l & E & Hok & Hr); [unfold map_ok; lia|done|].
  exists (mkMapSet l (version m)). unfold add_map. rewrite E. done.
Qed.

Lemma kernel_map_spec start_addr len pgoff time filename t :
  tree_ok t -> range_ok start_addr len time ->
  exists t' d m, AddKernelMap start_addr len pgoff time filename t = Ok t' /\ tree_ok t' /\
    thread_tree_ t' = thread_tree_ t /\ map_set_storage_ t' = map_set_storage_ t /\
    add_map (mkMap start_addr len pgoff time (Some d) true 0) (kernel_maps_ t) = Ok m /\ kernel_maps_ t' = m.
Proof.
  intros Hok Hr. unfold AddKernelMap. rewrite (proj2 (Z.eqb_neq _ _)) by (destruct Hr; lia).
  destruct (kernel_dso_threads filename t) as [(S1 & S2 & S3) Hok'].
  destruct (FindKernelDsoOrNew filename t) as [t1 d]. cbn [fst] in *. specialize (Hok' Hok).
  destruct (add_map_spec (mkMap start_addr len pgoff time (Some d) true 0) (kernel_maps_ t1)) as (m & E & Hm & _ & _);
    [apply Hok'|done|].
  rewrite E. cbn [mbind res_bind]. exists (set_kernel_maps m t1), d, m. rewrite <- S3.
  split_and!; try done. destruct Hok'. by split.
Qed.

Lemma thread_map_spec pid tid start_addr len pgoff time filename flags t :
  tree_ok t -> range_ok start_addr len time ->
  exists t' t1 th d m m', AddThreadMap pid tid start_addr len pgoff time filename flags t = Ok t' /\ tree_ok t' /\
    FindThreadOrNew pid tid t = Ok t1 /\ extends t t1 /\ thread_tree_ t1 !! tid = Some th /\
    map_set_storage_ t1 !! th_maps th = Some m /\
    add_map (mkMap start_addr len pgoff time (Some d) false flags) m = Ok m' /\
    thread_tree_ t' = thread_tree_ t1 /\ kernel_maps_ t' = kernel_maps_ t /\
    map_set_storage_ t' = <[th_maps th := mkMapSet (maps m') (version m +u64 1)]> (map_set_storage_ t1).
Proof.
  intros Hok Hr. unfold AddThreadMap.
  destruct (find_thread pid tid t Hok) as (t1 & th & E1 & Hok1 & Hth & Hx & _). rewrite E1. cbn [mbind res_bind].
  unfold get_thread. rewrite Hth. cbn [mbind res_bind].
  destruct (user_dso_threads filename start_addr DSO_ELF_FILE t1) as [(S1 & S2 & S3) Hok2].
  destruct (FindUserDsoOrNew filename start_addr DSO_ELF_FILE t1) as [t2 d]. cbn [fst] in *. specialize (Hok2 Hok1).
  destruct (tk_thread _ Hok1 tid th Hth) as [_ [m Hm]]. unfold get_maps. rewrite S2, Hm. cbn [mbind res_bind].
  destruct (add_map_spec (mkMap start_addr len pgoff time (Some d) false flags) m) as (m' & E & Hm' & Hv & _);
    [eapply (Forall_lookup_1 _ _ _ _ (tk_maps _ Hok1) Hm)|done|].
  rewrite E. cbn [mbind res_bind]. rewrite Hv. eexists _, t1, th, d, m, m'. split; [done|].
  split; [rewrite <- S2; by apply set_map_set_ok|].
  split_and!; try done. cbn [kernel_maps_ set_map_sets]. rewrite S3. apply Hx.
Qed.

Lemma extends_trans t1 t2 t3 : extends t1 t2 -> extends t2 t3 -> extends t1 t3.
Proof.
  intros [A1 (n1 & A2 & F1) A3 A4] [B1 (n2 & B2 & F2) B3 B4]. split; try congruence; [auto|].
  exists (n1 ++ n2). split; [by rewrite B2, A2, app_assoc|]. by apply Forall_app.
Qed.

(** Nothing of a map set is lost when threads are added. *)
Lemma extends_maps t t' i m : extends t t' -> map_set_storage_ t !! i = Some m -> map_set_storage_ t' !! i = Some m.
Proof. intros [_ (new & E & _) _ _] H. rewrite E. by apply lookup_app_l_Some. Qed.

Lemma fork_spec pid tid ppid ptid t :
  tree_ok t -> exists t' t2 parent child m, ForkThread pid tid ppid ptid t = Ok t' /\ tree_ok t' /\
    extends t t2 /\ thread_tree_ t' = thread_tree_ (set_comm tid (th_comm parent) t2) /\
    thread_tree_ t2 !! ptid = Some parent /\ thread_tree_ t' !! tid = Some child /\
    th_comm child = th_comm parent /\ map_set_storage_ t2 !! th_maps parent = Some m /\
    kernel_maps_ t' = kernel_maps_ t /\
    map_set_storage_ t' = (if pid =? ppid then map_set_storage_ t2
                           else <[th_maps child := m]> (map_set_storage_ t2)).
Proof.
  intros Hok. unfold ForkThread.
  destruct (find_thread ppid ptid t Hok) as (t1 & p1 & -> & Hok1 & Hp1 & Hx1 & _). cbn [mbind res_bind].
  destruct (find_thread pid tid t1 Hok1) as (t2 & c2 & -> & Hok2 & Hc2 & Hx2 & _). cbn [mbind res_bind].
  pose proof (ex_threads _ _ Hx2 _ _ Hp1) as Hp2. unfold get_thread. rewrite Hp2. cbn [mbind res_bind].
  set (t3 := set_comm tid (th_comm p1) t2). pose proof (set_comm_ok tid (th_comm p1) t2 Hok2) as Hok3. fold t3 in Hok3.
  set (child := mkThread (th_pid c2) (th_tid c2) (th_comm p1) (th_maps c2)).
  assert (thread_tree_ t3 !! tid = Some child) as Hc3.
  { unfold t3, set_comm. cbn [thread_tree_ set_threads]. rewrite lookup_alter_eq, Hc2. done. }
  rewrite Hc3. cbn [mbind res_bind].
  destruct (tk_thread _ Hok2 ptid p1 Hp2) as [_ [m Hm]]. pose proof (extends_trans _ _ _ Hx1 Hx2) as Hx.
  exists (if pid =? ppid then t3 else set_map_sets (<[th_maps child := m]> (map_set_storage_ t3)) t3), t2, p1, child, m.
  destruct (Z.eqb_spec pid ppid); cbn [negb].
  - split_and!; try done. apply Hx.
  - unfold get_maps. change (map_set_storage_ t3) with (map_set_storage_ t2). rewrite Hm. cbn [mbind res_bind].
    split; [done|]. split; [apply (set_map_set_ok _ m t3); [done|]; eapply (Forall_lookup_1 _ _ _ _ (tk_maps _ Hok2) Hm)|].
    split_and!; try done. apply Hx.
Qed.

(** * Runs of the tree *)

(** The operations that change threads and maps, as the tools call them. *)
Inductive tree_op :=
| OpName (pid tid : Z) (comm : bytes)
| OpFork (pid tid ppid ptid : Z)
| OpKernelMap (start_addr len pgoff time : Z) (filename : bytes)
| OpThreadMap (pid tid start_addr len pgoff time : Z) (filename : bytes) (flags : Z)
| OpClear.

Definition run_op (o : tree_op) (t : ThreadTree) : res ThreadTree :=
  match o with
  | OpName pid tid comm => SetThreadName pid tid comm t
  | OpFork pid tid ppid ptid => ForkThread pid tid ppid ptid t
  | OpKernelMap s l p tm f => AddKernelMap s l p tm f t
  | OpThreadMap pid tid s l p tm f fl => AddThreadMap pid tid s l p tm f fl t
  | OpClear => Ok (ClearThreadAndMap t)
  end.

Fixpoint run_ops (ops : list tree_op) (t : ThreadTree) : res ThreadTree :=
  match ops with
  | [] => Ok t
  | o :: ops => t ← run_op o t; run_ops ops t
  end.

Definition op_ok (o : tree_op) : Prop :=
  match o with
  | OpKernelMap s l _ tm _ => l = 0 \/ range_ok s l tm
  | OpThreadMap _ _ s l _ tm _ _ => range_ok s l tm
  | _ => True
  end.

Lemma name_spec pid tid comm t :
  tree_ok t -> exists t', SetThreadName pid tid comm t = Ok t' /\ tree_ok t' /\
    exists th, thread_tree_ t' !! tid = Some th /\ th_comm th = comm.
Proof.
  intros Hok. unfold SetThreadName.
  destruct (find_thread pid tid t Hok) as (t1 & th & -> & Hok1 & Hth & _). cbn [mbind res_bind].
  unfold get_thread. rewrite Hth. cbn [mbind res_bind]. destruct (bool_decide_reflect (comm = th_comm th)).
  - exists t1. split; [done|]. split; [done|]. by exists th.
  - exists (set_comm tid comm t1). split; [done|]. split; [by apply set_comm_ok|].
    eexists. unfold set_comm. cbn [thread_tree_ set_threads]. rewrite lookup_alter_eq, Hth. done.
Qed.

Lemma run_op_ok o t : tree_ok t -> op_ok o -> exists t', run_op o t = Ok t' /\ tree_ok t'.
Proof.
  intros Hok Ho. destruct o as [pid tid comm|pid tid ppid ptid|s l p tm f|pid tid s l p tm f fl|]; cbn [run_op op_ok] in *.
  - destruct (name_spec pid tid comm t Hok) as (t' & ? & ? & _). by exists t'.
  - destruct (fork_spec pid tid ppid ptid t Hok) as (t' & _ & _ & _ & _ & ? & ? & _). by exists t'.
  - destruct Ho as [->|Ho]; [by exists t|].
    destruct (kernel_map_spec s l p tm f t Hok Ho) as (t' & _ & _ & ? & ? & _). by exists t'.
  - destruct (thread_map_spec pid tid s l p tm f fl t Hok Ho) as (t' & _ & _ & _ & _ & _ & ? & ? & _). by exists t'.
  - exists (ClearThreadAndMap t). split; [done|]. destruct Hok.
    split; [intros k th H; cbn in H; by rewrite lookup_empty in H|constructor|apply maps_ok_nil|done].
Qed.

Lemma new_tree_ok g : exists t, ThreadTree_new g = Ok t /\ tree_ok t.
Proof.
  unfold ThreadTree_new.
  match goal with |- exists t, SetThreadName _ _ _ ?x = _ /\ _ =>
    destruct (name_spec 0 0 (str "swapper") x) as (t & E & Hok & _) end.
  - split; [intros k th H; cbn in H; by rewrite lookup_empty in H|constructor|apply maps_ok_nil|done].
  - by exists t.
Qed.

(** Starting from a new tree, any sequence of naming and forking threads,
    adding kernel and user maps and clearing runs without a failed check or an
    invalid access, and keeps the invariant: every thread is stored under its
    thread id and has a map set, and every map set, of the kernel too, is sorted
    and free of overlaps.  Conditions: a user map is not empty, ends below 2^64
    and has a 64-bit time; a kernel map is the same, or empty.  (Two equal empty
    user maps fail the check, see [empty_maps_fail].) *)
Theorem ThreadTree_invariant g ops :
  Forall op_ok ops ->
  exists t0 t, ThreadTree_new g = Ok t0 /\ run_ops ops t0 = Ok t /\ tree_ok t.
Proof.
  intros Hops. destruct (new_tree_ok g) as (t0 & E0 & H0). exists t0. rewrite E0. clear E0. revert t0 H0.
  induction Hops as [|o ops Ho _ IH]; intros t0 H0; [by exists t0|].
  destruct (run_op_ok o t0 H0 Ho) as (t1 & E1 & H1). destruct (IH t1 H1) as (t & _ & Hr & Hok).
  exists t. cbn [run_ops]. rewrite E1. done.
Qed.

(** [AddKernelMap] skips an empty map, [AddThreadMap] does not: an empty user map
    is stored and overlaps nothing, so the same map again is a duplicate of the
    map set, and the check that the insertion took place fails. *)
Definition empty_map_twice : list tree_op :=
  [OpThreadMap 1 1 4096 0 0 1 (str "a.so") 0; OpThreadMap 1 1 4096 0 0 1 (str "a.so") 0].

Lemma empty_maps_fail :
  (t ← ThreadTree_new DsoGlobals_init; run_ops empty_map_twice t) = CheckFailed /\
  exists t, (t ← ThreadTree_new DsoGlobals_init; run_ops (take 1 empty_map_twice) t) = Ok t.
Proof. split; [by vm_compute|]. eexists. vm_compute. reflexivity. Qed.

(** * What threads see *)

Lemma find_map_sees th ip t m :
  tree_ok t -> map_set_storage_ t !! th_maps th = Some m -> 0 <= ip <= UINT64_MAX ->
  FindMap_in th ip false t = Ok (default unknown_map_ (map_at (maps m) ip)).
Proof.
  intros Hok Hm Hip. unfold FindMap_in, get_maps. cbn [negb]. rewrite Hm. cbn [mbind res_bind].
  rewrite FindMapByAddr_map_at; [done| |done]. exact (Forall_lookup_1 _ _ _ _ (tk_maps _ Hok) Hm).
Qed.

(** [AddThreadMap] is seen by every thread that shares the map set, that
    is, by all threads of the process: an address in the new map is found in
    it; other addresses resolve to the same file and offset as before; threads
    with another map set see no change at all.  The version of the map set is
    incremented. *)
Theorem AddThreadMap_seen pid tid start_addr len pgoff time filename flags t :
  tree_ok t -> range_ok start_addr len time ->
  exists t' th d, AddThreadMap pid tid start_addr len pgoff time filename flags t = Ok t' /\
    thread_tree_ t' !! tid = Some th /\ tree_ok t' /\
    (forall tid2 th2 ip, thread_tree_ t' !! tid2 = Some th2 -> 0 <= ip <= UINT64_MAX ->
       th_maps th2 = th_maps th -> start_addr <= ip < start_addr + len ->
       FindMap_in th2 ip false t' = Ok (mkMap start_addr len pgoff time (Some d) false flags)) /\
    (forall tid2 th2 m ip, thread_tree_ t !! tid2 = Some th2 -> map_set_storage_ t !! th_maps th2 = Some m ->
       0 <= ip <= UINT64_MAX ->
       exists m', map_set_storage_ t' !! th_maps th2 = Some m' /\
         (th_maps th2 <> th_maps th -> m' = m) /\
         (th_maps th2 = th_maps th -> version m' = version m +u64 1 /\
            (~ start_addr <= ip < start_addr + len -> resolve (maps m') ip = resolve (maps m) ip))).
Proof.
  intros Hok Hr.
  destruct (thread_map_spec pid tid start_addr len pgoff time filename flags t Hok Hr)
    as (t' & t1 & th & d & m & m' & E & Hok' & E1 & Hx & Hth & Hm & Ha & Et & Ek & Es).
  set (map := mkMap start_addr len pgoff time (Some d) false flags) in *.
  destruct (find_thread pid tid t Hok) as (t1' & th' & E1' & Hok1 & _). rewrite E1 in E1'. injection E1' as <-.
  pose proof (Forall_lookup_1 _ _ _ _ (tk_maps _ Hok1) Hm) as Hmok. cbn beta in Hmok.
  destruct (add_map_spec map m Hmok Hr) as (m2 & Ha2 & Hm2 & _ & Hat). rewrite Ha in Ha2. injection Ha2 as <-.
  assert (map_set_storage_ t' !! th_maps th = Some (mkMapSet (maps m') (version m +u64 1))) as Hset.
  { rewrite Es. apply list_lookup_insert_eq. by eapply lookup_lt_Some. }
  assert (map_ok map) as Hmap by (destruct Hr as (? & ? & ? & ?); unfold map_ok, map; cbn [Maps.start_addr Maps.len Maps.time]; lia).
  exists t', th, d. split; [done|]. split; [by rewrite Et|]. split; [done|]. split.
  - intros tid2 th2 ip H2 Hip Heq Hin. rewrite (find_map_sees th2 ip t' (mkMapSet (maps m') (version m +u64 1)));
      [|done|by rewrite Heq|done]. cbn [maps].
    destruct (Hat ip) as [[-> _]|[_ Hno]]; [done|]. apply not_true_iff_false in Hno. rewrite in_map in Hno by done. done.
  - intros tid2 th2 m0 ip H2 Hm0 Hip. pose proof (extends_maps t t1 _ _ Hx Hm0) as Hm1.
    destruct (Nat.eq_dec (th_maps th2) (th_maps th)) as [Heq|Hne].
    + exists (mkMapSet (maps m') (version m +u64 1)). rewrite Heq in *. split; [done|]. split; [done|].
      intros _. assert (m0 = m) as -> by congruence. split; [done|]. intros Hout.
      destruct (Hat ip) as [[_ Hyes]|[Hres _]]; [|done]. apply in_map in Hyes; [done|done].
    + exists m0. rewrite Es, list_lookup_insert_ne by done. split; [done|]. split; [done|]. done.
Qed.

(** A fork gives the child the name of the parent and, when it starts a
    new process, the maps of the parent: right after [ForkThread] every
    address is found in the child where it is found in the parent.  A thread
    created in an existing process changes no map set. *)
Theorem ForkThread_copies pid tid ppid ptid t :
  tree_ok t -> exists t' parent child, ForkThread pid tid ppid ptid t = Ok t' /\ tree_ok t' /\
    thread_tree_ t' !! ptid = Some parent /\ thread_tree_ t' !! tid = Some child /\
    th_comm child = th_comm parent /\
    (pid <> ppid -> forall ip, FindMap_in child ip false t' = FindMap_in parent ip false t') /\
    (pid = ppid -> forall i m, map_set_storage_ t !! i = Some m -> map_set_storage_ t' !! i = Some m).
Proof.
  intros Hok. destruct (fork_spec pid tid ppid ptid t Hok)
    as (t' & t2 & p & child & m & E & Hok' & Hx & Et & Hp & Hc & Hcomm & Hm & Hk & Hs).
  assert (exists parent, thread_tree_ t' !! ptid = Some parent /\ th_maps parent = th_maps p /\
            th_comm parent = th_comm p) as (parent & Hp' & Ep & Ec).
  { rewrite Et. unfold set_comm. cbn [thread_tree_ set_threads]. destruct (Z.eq_dec ptid tid) as [->|].
    - rewrite lookup_alter_eq, Hp. eexists. split; [done|]. done.
    - rewrite lookup_alter_ne, Hp by done. by exists p. }
  exists t', parent, child. split_and!; try done; [congruence| |].
  - intros Hne ip. rewrite (proj2 (Z.eqb_neq _ _) Hne) in Hs.
    destruct (tk_thread _ Hok' tid child Hc) as [_ [mc Hmc]].
    assert (map_set_storage_ t' !! th_maps child = Some m) as H1.
    { rewrite Hs. apply list_lookup_insert_eq. apply lookup_lt_Some in Hmc.
      rewrite Hs, length_insert in Hmc. done. }
    assert (map_set_storage_ t' !! th_maps parent = Some m) as H2.
    { rewrite Ep, Hs. destruct (Nat.eq_dec (th_maps child) (th_maps p)) as [Ee|Ee].
      - rewrite <- Ee. rewrite list_lookup_insert_eq; [done|]. rewrite Ee. by eapply lookup_lt_Some.
      - by rewrite list_lookup_insert_ne. }
    unfold FindMap_in, get_maps. cbn [negb]. by rewrite H1, H2.
  - intros -> i mi Hi. rewrite Z.eqb_refl in Hs. rewrite Hs. by eapply extends_maps.
Qed.

(** [AddKernelMap] changes the kernel's maps, so that the addresses of the
    new map are found in it, but does not increment the version of the map
    set. *)
Theorem AddKernelMap_version start_addr len pgoff time filename t th :
  tree_ok t -> range_ok start_addr len time ->
  exists t' d, AddKernelMap start_addr len pgoff time filename t = Ok t' /\ tree_ok t' /\
    (forall ip, start_addr <= ip < start_addr + len ->
       FindMap_in th ip true t' = Ok (mkMap start_addr len pgoff time (Some d) true 0)) /\
    version (kernel_maps_ t') = version (kernel_maps_ t).
Proof.
  intros Hok Hr.
  destruct (kernel_map_spec start_addr len pgoff time filename t Hok Hr) as (t' & d & m & E & Hok' & _ & _ & Ha & Hm).
  exists t', d. split; [done|]. split; [done|]. set (map := mkMap start_addr len pgoff time (Some d) true 0) in *.
  destruct (add_map_spec map (kernel_maps_ t) (tk_kernel _ Hok) Hr) as (m2 & Ha2 & Hm2 & Hv & Hat).
  rewrite Ha in Ha2. injection Ha2 as <-. rewrite Hm. split; [|done]. intros ip Hip.
  assert (map_ok map) as Hmap by (destruct Hr as (? & ? & ? & ?); unfold map_ok, map; cbn [Maps.start_addr Maps.len Maps.time]; lia).
  unfold FindMap_in. cbn [negb mbind res_bind]. rewrite Hm, FindMapByAddr_map_at; [|done|].
  - destruct (Hat ip) as [[-> _]|[_ Hno]]; [done|]. apply not_true_iff_false in Hno. by rewrite in_map in Hno.
  - destruct Hr as (? & ? & ? & ?). unfold UINT64_MAX. lia.
Qed.

Lemma user_dso_added f a ty t :
  is_Some (user_dso_tree_ (fst (FindUserDsoOrNew f a ty t)) !! f) /\
  forall g, g <> f -> user_dso_tree_ (fst (FindUserDsoOrNew f a ty t)) !! g = user_dso_tree_ t !! g.
Proof.
  unfold FindUserDsoOrNew. destruct (user_dso_tree_ t !! f) eqn:E; cbn [fst]; [by rewrite E|].
  cbn [new_dso fst user_dso_tree_ set_users set_dsos]. split; [by rewrite lookup_insert_eq|].
  intros g Hg. by rewrite lookup_insert_ne.
Qed.

Lemma find_thread_users pid tid t t' :
  tree_ok t -> FindThreadOrNew pid tid t = Ok t' -> user_dso_tree_ t' = user_dso_tree_ t.
Proof.
  assert (forall find pid tid t t', CreateThread find pid tid t = Ok t' ->
    (forall t1, find pid pid t = Ok t1 -> user_dso_tree_ t1 = user_dso_tree_ t) ->
    user_dso_tree_ t' = user_dso_tree_ t) as Hc.
  { intros find p k u u' H Hf. unfold CreateThread in H. destruct (p =? k); cbn [mbind res_bind] in H.
    - destruct (thread_tree_ _ !! k); [done|]. by injection H as <-.
    - destruct (find p p u) as [u1| |] eqn:E; try done. cbn [mbind res_bind] in H.
      destruct (thread_tree_ u1 !! p); [|done]. cbn [mbind res_bind] in H.
      destruct (thread_tree_ u1 !! k); [done|]. injection H as <-. exact (Hf u1 eq_refl). }
  intros _. unfold FindThreadOrNew. cbn [FindThreadOrNew_fuel].
  destruct (thread_tree_ t !! tid); [by intros [= <-]|]. intros H. eapply Hc; [exact H|].
  intros t1. cbn [FindThreadOrNew_fuel]. destruct (thread_tree_ t !! pid); [by intros [= <-]|].
  intros H1. eapply Hc; [exact H1|]. intros t2. cbn [FindThreadOrNew_fuel].
  by destruct (thread_tree_ t !! pid); [intros [= <-]|].
Qed.

(** A user mapping of anonymous memory, reported by an mmap2 record with
    the file name "//anon", is stored under that name and not as "[unknown]":
    the test for the name compares pointers. *)
Theorem Update_mmap2_anon r d t :
  tree_ok t -> InKernel (mmap2_rec r) = false ->
  deref Mmap2RecordDataType_codec (mmap2_rec r) (mmap2_data r) = Ok d ->
  deref_str (mmap2_rec r) (mmap2_filename r) = Ok DEFAULT_EXECNAME_FOR_THREAD_MMAP ->
  range_ok (mmap2_addr d) (mmap2_len d) (sid_time (sample_id (mmap2_rec r))) ->
  exists t', Update (AMmap2 r) t = Ok t' /\
    is_Some (user_dso_tree_ t' !! DEFAULT_EXECNAME_FOR_THREAD_MMAP) /\
    user_dso_tree_ t' !! str "[unknown]" = user_dso_tree_ t !! str "[unknown]".
Proof.
  intros Hok Hk Hd Hs Hr. cbn [Update]. unfold Update_mmap2. rewrite Hd, Hs. cbn [mbind res_bind]. rewrite Hk.
  unfold same_pointer_as_literal.
  set (pid := to_int (mmap2_pid d)). set (tid := to_int (mmap2_tid d)).
  destruct (thread_map_spec pid tid (mmap2_addr d) (mmap2_len d) (mmap2_pgoff d)
    (sid_time (sample_id (mmap2_rec r))) DEFAULT_EXECNAME_FOR_THREAD_MMAP (mmap2_prot d) t Hok Hr)
    as (t' & t1 & th & dd & m & m' & E & _ & E1 & _ & Hth & Hm & _).
  exists t'. split; [done|]. revert E. unfold AddThreadMap. rewrite E1. cbn [mbind res_bind].
  unfold get_thread. rewrite Hth. cbn [mbind res_bind].
  destruct (user_dso_added DEFAULT_EXECNAME_FOR_THREAD_MMAP (mmap2_addr d) DSO_ELF_FILE t1) as [U1 U2].
  destruct (FindUserDsoOrNew DEFAULT_EXECNAME_FOR_THREAD_MMAP (mmap2_addr d) DSO_ELF_FILE t1) as [t2 i]. cbn [fst] in *.
  destruct (get_maps (th_maps th) t2) as [m2| |]; try done. cbn [mbind res_bind].
  destruct (add_map _ m2) as [m3| |]; try done. cbn [mbind res_bind]. intros [= <-].
  cbn [user_dso_tree_ set_map_sets]. split; [done|]. rewrite U2 by done. by rewrite (find_thread_users pid tid t t1 Hok E1).
Qed.

(** * Finding symbols never fails *)

(** The kernel symbol texts have no empty line. *)
Definition kallsyms_readable (g : DsoGlobals) : Prop :=
  no_empty_line true (kallsyms_ g) = true /\
  match proc_kallsyms with Some k => no_empty_line true k = true | None => True end.

Lemma LoadSymbols_ok g d : kallsyms_readable g -> exists l, LoadSymbols g d = Ok l.
Proof.
  intros [H1 H2].
  assert (forall k, no_empty_line true k = true -> exists l, ReadSymbolsFromKallsyms k = Ok l) as Hr.
  { intros k Hk. unfold ReadSymbolsFromKallsyms.
    destruct (ProcessKernelSymbols_ok kallsyms_callback k [] Hk) as [[l b] ->]. by exists l. }
  unfold LoadSymbols. destruct (dso_class d); try by eexists.
  unfold LoadSymbols_kernel. destruct (negb (is_empty (vmlinux_ g))); [by eexists|].
  destruct (negb (is_empty (kallsyms_ g))); [destruct (Hr _ H1) as [l ->]; by eexists|].
  destruct (_ || _); [|by eexists]. set (can := if negb _ then _ else _). destruct can; [|by eexists].
  destruct proc_kallsyms as [k|]; [|by eexists]. destruct (Hr _ H2) as [l ->]. by eexists.
Qed.

Lemma FindSymbol_ok g vaddr d : kallsyms_readable g -> exists r, FindSymbol g vaddr d = Ok r.
Proof.
  intros Hg. unfold FindSymbol. destruct (is_loaded_ d); [by eexists|]. unfold Load.
  destruct (LoadSymbols_ok g d Hg) as [l ->]. cbn [mbind res_bind]. destruct (symbols_ d); by eexists.
Qed.

Lemma on_dso_ok {A} i (f : Dso -> res (Dso * A)) t :
  (i < length (dsos_ t))%nat -> (forall d, exists r, f d = Ok r) ->
  exists d d' a, dsos_ t !! i = Some d /\ f d = Ok (d', a) /\
    on_dso i f t = Ok (set_dsos (<[i := d']> (dsos_ t)) t, a).
Proof.
  intros H Hf. apply lookup_lt_is_Some in H as [d Hd]. destruct (Hf d) as [[d' a] E]. exists d, d', a.
  split; [done|]. split; [done|]. unfold on_dso. by rewrite Hd, E.
Qed.

(** A step that calls member functions of libraries. *)
Definition dso_step (t t' : ThreadTree) : Prop :=
  same_threads t t' /\ length (dsos_ t') = length (dsos_ t) /\
  show_ip_for_unknown_symbol_ t' = show_ip_for_unknown_symbol_ t /\ globals_ t' = globals_ t /\
  module_dso_tree_ t' = module_dso_tree_ t /\ user_dso_tree_ t' = user_dso_tree_ t.

Lemma on_dso_step {A} i (f : Dso -> res (Dso * A)) t :
  (i < length (dsos_ t))%nat -> (forall d, exists r, f d = Ok r) ->
  exists t' a, on_dso i f t = Ok (t', a) /\ dso_step t t'.
Proof.
  intros H Hf. destruct (on_dso_ok i f t H Hf) as (d & d' & a & _ & _ & E). eexists _, _. split; [exact E|].
  split; [done|]. cbn. by rewrite length_insert.
Qed.

Lemma dso_step_trans t1 t2 t3 : dso_step t1 t2 -> dso_step t2 t3 -> dso_step t1 t3.
Proof.
  intros ((A1 & A2 & A3) & A4 & A5 & A6 & A7 & A8) ((B1 & B2 & B3) & B4 & B5 & B6 & B7 & B8).
  unfold dso_step, same_threads. split_and!; congruence.
Qed.

Lemma find_user_symbol_ok map i ip t :
  (i < length (dsos_ t))%nat -> kallsyms_readable (globals_ t) ->
  exists t' vaddr s, find_user_symbol map i ip t = Ok (t', vaddr, s) /\ dso_step t t'.
Proof.
  intros Hi Hg. unfold find_user_symbol. cbv zeta. set (g := globals_ t) in *.
  destruct (on_dso_step i (fun d => Ok (d, type_ d)) t Hi ltac:(by eexists)) as (t1 & ty & -> & S1). cbn [mbind res_bind].
  assert (i < length (dsos_ t1))%nat as Hi1 by (destruct S1 as (_ & -> & _); done).
  assert (exists t2 v, (if negb (Z.land (Maps.flags map) PROT_JIT_SYMFILE_MAP =? 0) then Ok (t1, ip)
     else if bool_decide (ty = DSO_DEX_FILE) then Ok (t1, u64 (ip - start_addr map + pgoff map))
     else '(t, v) ← on_dso i (fun d => Ok (MinVirtualAddress g d)) t1; Ok (t, u64 (ip - start_addr map + v))) = Ok (t2, v) /\
     dso_step t t2) as (t2 & v & -> & S2).
  { destruct (negb _); [by eexists _, _|]. destruct (bool_decide _); [by eexists _, _|].
    destruct (on_dso_step i (fun d => Ok (MinVirtualAddress g d)) t1 Hi1 ltac:(by eexists)) as (t2 & v & -> & S2). cbn [mbind res_bind].
    eexists _, _. split; [done|]. by eapply dso_step_trans. }
  cbn [mbind res_bind]. assert (i < length (dsos_ t2))%nat as Hi2 by (destruct S2 as (_ & -> & _); done).
  destruct (on_dso_step i (FindSymbol g v) t2 Hi2 (fun d => FindSymbol_ok g v d Hg)) as (t3 & s & -> & S3). cbn [mbind res_bind].
  eexists _, _, _. split; [done|]. by eapply dso_step_trans.
Qed.

Lemma find_kernel_symbol_ok map i ip t :
  (i < length (dsos_ t))%nat -> (2 <= length (dsos_ t))%nat -> kallsyms_readable (globals_ t) ->
  exists t' vaddr d s, find_kernel_symbol map i ip t = Ok (t', vaddr, d, s) /\ dso_step t t' /\
    (d < length (dsos_ t))%nat.
Proof.
  intros Hi H2 Hg. unfold find_kernel_symbol. cbv zeta. set (g := globals_ t) in *.
  assert (exists t1 v s, (if negb (Nat.eqb i kernel_dso_) then
       '(t, v) ← on_dso i (fun d => Ok (MinVirtualAddress g d)) t;
       '(t, s) ← on_dso i (FindSymbol g (u64 (ip - start_addr map + v))) t;
       Ok (t, u64 (ip - start_addr map + v), s)
     else Ok (t, 0, None)) = Ok (t1, v, s) /\ dso_step t t1) as (t1 & v & s & -> & S1).
  { destruct (Nat.eqb i kernel_dso_); cbn [negb]; [by eexists _, _, _|].
    destruct (on_dso_step i (fun d => Ok (MinVirtualAddress g d)) t Hi ltac:(by eexists)) as (t1 & v & -> & S1). cbn [mbind res_bind].
    destruct (on_dso_step i (FindSymbol g (u64 (ip - start_addr map + v))) t1) as (t2 & s & E & S2);
      [by destruct S1 as (_ & -> & _)|intros d; by apply FindSymbol_ok|].
    rewrite E. cbn [mbind res_bind]. eexists _, _, _. split; [done|]. by eapply dso_step_trans. }
  cbn [mbind res_bind]. destruct s as [s|].
  { eexists _, _, _, _. split; [done|]. done. }
  destruct (on_dso_step kernel_dso_ (FindSymbol g ip) t1) as (t2 & s & -> & S2);
    [destruct S1 as (_ & -> & _); unfold kernel_dso_; lia|intros d; by apply FindSymbol_ok|].
  cbn [mbind res_bind]. eexists _, _, _, _. split; [done|]. split; [by eapply dso_step_trans|].
  unfold kernel_dso_. lia.
Qed.

(** What threads are found or made without. *)
Definition tree_rest (t : ThreadTree) : MapSet * list Dso * gmap bytes nat * gmap bytes nat * DsoGlobals :=
  (kernel_maps_ t, dsos_ t, module_dso_tree_ t, user_dso_tree_ t, globals_ t).

Lemma create_rest find pid tid t t' :
  (forall p q u u', find p q u = Ok u' -> tree_rest u' = tree_rest u) ->
  CreateThread find pid tid t = Ok t' -> tree_rest t' = tree_rest t.
Proof.
  intros Hf. unfold CreateThread. destruct (pid =? tid); cbn [mbind res_bind].
  - destruct (thread_tree_ _ !! tid); [done|]. by intros [= <-].
  - destruct (find pid pid t) as [t1| |] eqn:E; try done. cbn [mbind res_bind]. destruct (thread_tree_ t1 !! pid); [|done].
    cbn [mbind res_bind]. destruct (thread_tree_ t1 !! tid); [done|]. intros [= <-]. by apply Hf in E.
Qed.

Lemma find_thread_rest pid tid t t' : FindThreadOrNew pid tid t = Ok t' -> tree_rest t' = tree_rest t.
Proof.
  assert (forall fuel p q u u', FindThreadOrNew_fuel fuel p q u = Ok u' -> tree_rest u' = tree_rest u) as H; [|apply H].
  induction fuel as [|fuel IH]; intros p q u u'; cbn [FindThreadOrNew_fuel]; (destruct (thread_tree_ u !! q); [by intros [= <-]|]); [done|].
  by apply create_rest.
Qed.

(** An unknown symbol that was just added is found, whatever was loaded. *)
Lemma added_symbol_found g vaddr name d d' r :
  FindSymbol g vaddr (AddUnknownSymbol vaddr name d) = Ok (d', r) -> r <> None.
Proof.
  assert (forall x, is_Some (unknown_symbols_ x !! vaddr) -> FindSymbol_loaded vaddr x <> None) as Hf.
  { intros x [s Hs]. unfold FindSymbol_loaded. destruct (symbol_before vaddr (symbols_ x)); [|by rewrite Hs].
    destruct (_ && _); [done|by rewrite Hs]. }
  assert (is_Some (unknown_symbols_ (AddUnknownSymbol vaddr name d) !! vaddr)) as Ha.
  { cbn [AddUnknownSymbol unknown_symbols_]. destruct (unknown_symbols_ d !! vaddr) eqn:E; [by rewrite E|].
    rewrite lookup_insert_eq. by eexists. }
  unfold FindSymbol. destruct (is_loaded_ _); [intros [= <- <-]; by apply Hf|]. unfold Load.
  destruct (LoadSymbols g _) as [l| |]; try done. cbn [mbind res_bind].
  destruct (symbols_ _); cbn [mbind res_bind]; intros [= <- <-]; apply Hf; exact Ha.
Qed.

Lemma find_symbol_ok map i ip t :
  dso map = Some i -> (i < length (dsos_ t))%nat -> (2 <= length (dsos_ t))%nat ->
  kallsyms_readable (globals_ t) ->
  exists t' s vaddr d, FindSymbol_tree map ip t = Ok (t', s, vaddr, d) /\ dso_step t t' /\
    (d < length (dsos_ t))%nat /\ (in_kernel map = false -> d = i).
Proof.
  intros Hd Hi H2 Hg. unfold FindSymbol_tree, dso_of. rewrite Hd. cbn [mbind res_bind].
  assert (exists t1 v d s, (if negb (in_kernel map) then
      '(t, vaddr, s) ← find_user_symbol map i ip t; Ok (t, vaddr, i, s)
    else find_kernel_symbol map i ip t) = Ok (t1, v, d, s) /\ dso_step t t1 /\
    (d < length (dsos_ t))%nat /\ (in_kernel map = false -> d = i)) as (t1 & v & d & s & -> & S1 & Hdl & Hdi).
  { destruct (in_kernel map); cbn [negb].
    - destruct (find_kernel_symbol_ok map i ip t Hi H2 Hg) as (t1 & v & d & s & E & S1 & Hdl). by eexists _, _, _, _.
    - destruct (find_user_symbol_ok map i ip t Hi Hg) as (t1 & v & s & -> & S1). cbn [mbind res_bind]. by eexists _, _, _, _. }
  cbn [mbind res_bind]. destruct s as [s|]; [by eexists _, _, _, _|].
  destruct (show_ip_for_unknown_symbol_ t1); [|by eexists _, _, _, _].
  pose proof S1 as (Hs1 & Hl1 & _).
  destruct (on_dso_step d (fun x => Ok (x, file_name_ x)) t1) as (t2 & name & -> & S2); [by rewrite Hl1|by eexists|]. cbn [mbind res_bind].
  set (n := _ ++ name ++ _).
  destruct (on_dso_ok d (fun x => Ok (AddUnknownSymbol v n x, tt)) t2) as (x & x' & [] & Hx & [= <-] & ->);
    [destruct S2 as (_ & -> & _); by rewrite Hl1|by eexists|]. cbn [mbind res_bind].
  set (t3 := set_dsos _ t2).
  destruct (on_dso_ok d (FindSymbol (globals_ t) v) t3) as (y & y' & r & Hy & Ey & E).
  { cbn. rewrite length_insert. destruct S2 as (_ & -> & _). by rewrite Hl1. }
  { intros z. by apply FindSymbol_ok. }
  rewrite E. cbn [mbind res_bind].
  assert (y = AddUnknownSymbol v n x) as ->.
  { cbn [t3 dsos_ set_dsos] in Hy. rewrite list_lookup_insert_eq in Hy by (by eapply lookup_lt_Some). congruence. }
  destruct r as [s|]; [|by apply added_symbol_found in Ey].
  eexists _, _, _, _. split; [done|]. split; [|done]. do 2 (eapply dso_step_trans; [eassumption|]).
  split; [done|]. cbn. by rewrite !length_insert.
Qed.

(** As long as the kernel symbol texts have no empty line, [FindSymbol]
    never fails: whatever map of the tree an address is looked
    up in, it returns a symbol, the one the library has for the address in the
    file, the one made up for it when unknown symbols are shown by address
    (its [CHECK] holds), or the unknown symbol; threads and maps stay as they
    are. *)
Theorem FindSymbol_total map i ip t :
  dso map = Some i -> (i < length (dsos_ t))%nat -> (2 <= length (dsos_ t))%nat ->
  kallsyms_readable (globals_ t) ->
  exists t' s vaddr d, FindSymbol_tree map ip t = Ok (t', s, vaddr, d) /\ same_threads t t' /\
    (d < length (dsos_ t))%nat /\ (in_kernel map = false -> d = i).
Proof.
  intros Hd Hi H2 Hg. destruct (find_symbol_ok map i ip t Hd Hi H2 Hg) as (t' & s & v & d & E & [Hs _] & Hdl & Hdi).
  by exists t', s, v, d.
Qed.
End tree.

(** * Examples *)

#[local] Existing Instance no_files.

Definition tree_ops : list tree_op :=
  [OpThreadMap 5 6 1000 500 0 1 (str "a.so") 0; OpKernelMap 9000 100 0 2 (str "mod.ko");
   OpFork 8 8 5 6; OpThreadMap 8 8 1200 100 0 3 (str "b.so") 0; OpName 8 8 (str "child")].

Lemma ThreadTree_invariant_witness :
  exists t0 t, ThreadTree_new DsoGlobals_init = Ok t0 /\ run_ops tree_ops t0 = Ok t /\ tree_ok t.
Proof.
  apply (ThreadTree_invariant DsoGlobals_init tree_ops). unfold tree_ops.
  repeat (apply Forall_cons; split); try apply Forall_nil; try exact I;
    unfold op_ok, range_ok, UINT64_MAX; lia.
Defined.

(** A tree with one process of two threads. *)
Definition two_threads : ThreadTree :=
  match ThreadTree_new DsoGlobals_init with
  | Ok t => match run_ops [OpThreadMap 5 5 1000 500 0 1 (str "a.so") 0; OpName 5 6 (str "worker")] t with
            | Ok t => t
            | _ => t
            end
  | _ => mkTree ∅ [] (mkMapSet [] 0) [] ∅ ∅ false false (Symbol_new [] 0 0) DsoGlobals_init
  end.

Lemma two_threads_ok : tree_ok two_threads.
Proof.
  destruct (new_tree_ok DsoGlobals_init) as (t0 & E0 & H0).
  destruct (thread_map_spec 5 5 1000 500 0 1 (str "a.so") 0 t0 H0) as (t1 & _ & _ & _ & _ & _ & E1 & H1 & _).
  { unfold range_ok, UINT64_MAX. lia. }
  destruct (name_spec 5 6 (str "worker") t1 H1) as (t2 & E2 & H2 & _).
  unfold two_threads. rewrite E0. cbn [run_ops run_op]. rewrite E1. cbn [mbind res_bind]. by rewrite E2.
Qed.

Lemma AddThreadMap_seen_witness :
  exists t' th d, AddThreadMap 5 6 1200 100 0 2 (str "b.so") 0 two_threads = Ok t' /\
    thread_tree_ t' !! 6 = Some th /\ tree_ok t' /\
    (forall tid2 th2 ip, thread_tree_ t' !! tid2 = Some th2 -> 0 <= ip <= UINT64_MAX ->
       th_maps th2 = th_maps th -> 1200 <= ip < 1200 + 100 ->
       FindMap_in th2 ip false t' = Ok (mkMap 1200 100 0 2 (Some d) false 0)).
Proof.
  destruct (AddThreadMap_seen 5 6 1200 100 0 2 (str "b.so") 0 two_threads two_threads_ok)
    as (t' & th & d & H1 & H2 & H3 & H4 & _).
  - unfold range_ok, UINT64_MAX. lia.
  - exists t', th, d. done.
Defined.

Lemma ForkThread_copies_witness :
  exists t' parent child, ForkThread 9 9 5 6 two_threads = Ok t' /\ tree_ok t' /\
    thread_tree_ t' !! 6 = Some parent /\ thread_tree_ t' !! 9 = Some child /\ th_comm child = th_comm parent /\
    (9 <> 5 -> forall ip, FindMap_in child ip false t' = FindMap_in parent ip false t') /\
    (9 = 5 -> forall i m, map_set_storage_ two_threads !! i = Some m -> map_set_storage_ t' !! i = Some m).
Proof. apply (ForkThread_copies 9 9 5 6 two_threads). exact two_threads_ok. Defined.

Lemma AddKernelMap_version_witness :
  exists t' d, AddKernelMap 9000 100 0 2 (str "mod.ko") two_threads = Ok t' /\ tree_ok t' /\
    (forall ip, 9000 <= ip < 9000 + 100 ->
       FindMap_in (mkThread 0 0 [] 0) ip true t' = Ok (mkMap 9000 100 0 2 (Some d) true 0)) /\
    version (kernel_maps_ t') = version (kernel_maps_ two_threads).
Proof.
  apply (AddKernelMap_version 9000 100 0 2 (str "mod.ko") two_threads (mkThread 0 0 [] 0) two_threads_ok).
  unfold range_ok, UINT64_MAX. lia.
Defined.

Definition anon_record : Mmap2Record :=
  mkMmap2 (mkRecord (mkHeader PERF_RECORD_MMAP2 PERF_RECORD_MISC_USER 0) SampleId_default
    (enc Mmap2RecordDataType_codec (mkMmap2Data 5 6 4096 8192 0 0 0 0 0 0 0) ++ str "//anon" ++ [0; 0]) false)
    0 (sizeof Mmap2RecordDataType_codec).

Lemma Update_mmap2_anon_witness :
  exists t', Update (AMmap2 anon_record) two_threads = Ok t' /\
    is_Some (user_dso_tree_ t' !! DEFAULT_EXECNAME_FOR_THREAD_MMAP) /\
    user_dso_tree_ t' !! str "[unknown]" = user_dso_tree_ two_threads !! str "[unknown]".
Proof.
  apply (Update_mmap2_anon anon_record (mkMmap2Data 5 6 4096 8192 0 0 0 0 0 0 0) two_threads two_threads_ok).
  - vm_compute. reflexivity.
  - vm_compute. reflexivity.
  - vm_compute. reflexivity.
  - unfold range_ok, UINT64_MAX. cbn. lia.
Defined.

Lemma FindSymbol_total_witness :
  exists t' s vaddr d, FindSymbol_tree (mkMap 1000 500 0 1 (Some 2%nat) false 0) 1010
      (ShowIpForUnknownSymbol two_threads) = Ok (t', s, vaddr, d) /\
    same_threads (ShowIpForUnknownSymbol two_threads) t' /\
    (d < length (dsos_ (ShowIpForUnknownSymbol two_threads)))%nat /\ (false = false -> d = 2%nat).
Proof.
  assert (length (dsos_ (ShowIpForUnknownSymbol two_threads)) = 3%nat) as E by (vm_compute; reflexivity).
  apply (FindSymbol_total (mkMap 1000 500 0 1 (Some 2%nat) false 0) 2 1010
    (ShowIpForUnknownSymbol two_threads)).
  - reflexivity.
  - rewrite E. lia.
  - rewrite E. lia.
  - vm_compute. by split.
Defined.
