(* ===== verification/LRUCache.v ===== *)
(** Model of [LRUCache] of src/simpleperf/CallChainJoiner.h and
    CallChainJoiner.cpp: a cache of call chains as a forest of nodes in an
    array, with the leaves in a doubly linked list in least recently used
    order.

    A [CacheNode*] is an index of [nodes_].  The union of [children_count] and
    [leaf_link_prev] is one field, [link_prev].  [node_set_], keyed by the
    (tid, ip, sp) of the node pointed to, is a finite map from keys to
    indices. *)
From stdpp Require Import base list numbers gmap.
From Stdlib Require Import ZArith Lia.
From S2P Require Import Prelude.

Record CacheNode := mkNode {
  ip : Z;
  sp : Z;
  tid : Z;
  is_leaf : bool;
  parent_index : Z;
  link_prev : Z;   (* children_count, or leaf_link_prev *)
  leaf_link_next : Z;
}.
#[export] Instance CacheNode_inhabited : Inhabited CacheNode := populate (mkNode 0 0 0 false 0 0 0).

Abbreviation key := (Z * Z * Z)%type.
Definition key_of (n : CacheNode) : key := (tid n, ip n, sp n).

Definition set_leaf (b : bool) (n : CacheNode) : CacheNode :=
  mkNode (ip n) (sp n) (tid n) b (parent_index n) (link_prev n) (leaf_link_next n).
(** A bit field of 31 bits. *)
Definition set_parent (p : Z) (n : CacheNode) : CacheNode :=
  mkNode (ip n) (sp n) (tid n) (is_leaf n) (p mod 2 ^ 31) (link_prev n) (leaf_link_next n).
Definition set_prev (x : Z) (n : CacheNode) : CacheNode :=
  mkNode (ip n) (sp n) (tid n) (is_leaf n) (parent_index n) (u32 x) (leaf_link_next n).
Definition set_next (x : Z) (n : CacheNode) : CacheNode :=
  mkNode (ip n) (sp n) (tid n) (is_leaf n) (parent_index n) (link_prev n) (u32 x).
(** The assignments of [GetNode] to the node [index] it allocated. *)
Definition fresh_node (t i s : Z) (index : nat) : CacheNode :=
  mkNode i s t true 0 (u32 (Z.of_nat index)) (u32 (Z.of_nat index)).

Record LRUCacheStat := mkStat {
  cache_size : Z;
  matched_node_count_to_extend_callchain : Z;
  max_node_count : Z;
  used_node_count : Z;
  recycled_node_count : Z;
}.

Record LRUCache := mkLRU {
  nodes_ : list CacheNode;
  node_set_ : gmap key nat;
  cache_stat_ : LRUCacheStat;
}.

Definition set_nodes (l : list CacheNode) (c : LRUCache) : LRUCache := mkLRU l (node_set_ c) (cache_stat_ c).
Definition set_node_set (s : gmap key nat) (c : LRUCache) : LRUCache := mkLRU (nodes_ c) s (cache_stat_ c).
Definition set_used (n : Z) (c : LRUCache) : LRUCache :=
  let s := cache_stat_ c in
  mkLRU (nodes_ c) (node_set_ c)
    (mkStat (cache_size s) (matched_node_count_to_extend_callchain s) (max_node_count s) n (recycled_node_count s)).
Definition set_recycled (n : Z) (c : LRUCache) : LRUCache :=
  let s := cache_stat_ c in
  mkLRU (nodes_ c) (node_set_ c)
    (mkStat (cache_size s) (matched_node_count_to_extend_callchain s) (max_node_count s) (used_node_count s) n).

Definition sizeof_CacheNode : Z := 32.

(** The constructor: [undef] is the content of the new array. *)
Definition LRUCache_new (undef : CacheNode) (cache_size matched : Z) : res LRUCache :=
  let max := cache_size / sizeof_CacheNode in
  _ ← CHECK (2 <=? max);
  _ ← CHECK (1 <=? matched);
  Ok (mkLRU (mkNode (ip undef) (sp undef) (tid undef) true 0 0 0 :: replicate (Z.to_nat max) undef)
        ∅ (mkStat cache_size matched max 0 0)).

(** * Nodes *)

Definition node (c : LRUCache) (i : nat) : res CacheNode :=
  match nodes_ c !! i with Some n => Ok n | None => OutOfBounds end.

(** An assignment to members of [nodes_[i]]. *)
Definition upd (i : nat) (f : CacheNode -> CacheNode) (c : LRUCache) : res LRUCache :=
  match nodes_ c !! i with Some n => Ok (set_nodes (<[i := f n]> (nodes_ c)) c) | None => OutOfBounds end.

Definition FindNode (c : LRUCache) (t i s : Z) : option nat := node_set_ c !! (t, i, s).

Definition GetParent (c : LRUCache) (i : nat) : res (option nat) :=
  n ← node c i;
  Ok (if parent_index n =? 0 then None else Some (Z.to_nat (parent_index n))).

Definition RemoveNodeFromLRUList (i : nat) (c : LRUCache) : res LRUCache :=
  n ← node c i;
  let prev := Z.to_nat (link_prev n) in
  let next := Z.to_nat (leaf_link_next n) in
  c ← upd prev (set_next (leaf_link_next n)) c;
  n ← node c i;
  upd next (set_prev (link_prev n)) c.

Definition AppendNodeToLRUList (i : nat) (c : LRUCache) : res LRUCache :=
  next ← node c 0;
  let prev := Z.to_nat (link_prev next) in
  c ← upd i (set_next 0) c;
  next ← node c 0;
  c ← upd i (set_prev (link_prev next)) c;
  c ← upd prev (set_next (Z.of_nat i)) c;
  upd 0 (set_prev (Z.of_nat i)) c.

Definition DecreaseChildCountOfNode (i : nat) (c : LRUCache) : res LRUCache :=
  c ← upd i (fun n => set_prev (link_prev n - 1) n) c;
  n ← node c i;
  if link_prev n =? 0 then
    c ← upd i (set_leaf true) c;
    AppendNodeToLRUList i c
  else Ok c.

(** [if (parent != nullptr) DecreaseChildCountOfNode(parent)] *)
Definition decrease_parent (i : nat) (c : LRUCache) : res LRUCache :=
  p ← GetParent c i;
  match p with Some p => DecreaseChildCountOfNode p c | None => Ok c end.

Definition AllocNode (c : LRUCache) : res (LRUCache * nat) :=
  let s := cache_stat_ c in
  if used_node_count s <? max_node_count s then
    let used := used_node_count s +u64 1 in
    Ok (set_used used c, Z.to_nat used)
  else
    n0 ← node c 0;
    let i := Z.to_nat (leaf_link_next n0) in
    c ← RemoveNodeFromLRUList i c;
    n ← node c i;
    let c := set_node_set (delete (key_of n) (node_set_ c)) c in
    c ← decrease_parent i c;
    Ok (set_recycled (recycled_node_count s +u64 1) c, i).

Definition GetNode (t i s : Z) (c : LRUCache) : res (LRUCache * nat) :=
  match FindNode c t i s with
  | Some k =>
      n ← node c k;
      if is_leaf n then
        c ← RemoveNodeFromLRUList k c;
        c ← AppendNodeToLRUList k c;
        Ok (c, k)
      else Ok (c, k)
  | None =>
      '(c, k) ← AllocNode c;
      c ← upd k (fun _ => fresh_node t i s k) c;
      let c := set_node_set
        (match node_set_ c !! (t, i, s) with Some _ => node_set_ c | None => <[(t, i, s) := k]> (node_set_ c) end) c in
      c ← AppendNodeToLRUList k c;
      Ok (c, k)
  end.

Definition LinkParent (child new_parent : nat) (c : LRUCache) : res LRUCache :=
  c ← decrease_parent child c;
  c ← upd child (set_parent (Z.of_nat new_parent)) c;
  n ← node c new_parent;
  if is_leaf n then
    c ← RemoveNodeFromLRUList new_parent c;
    upd new_parent (fun n => set_prev 1 (set_leaf false n)) c
  else upd new_parent (fun n => set_prev (link_prev n + 1) n) c.

Definition UnlinkParent (child : nat) (c : LRUCache) : res LRUCache :=
  c ← decrease_parent child c;
  upd child (set_parent 0) c.

(** * [AddCallChain] *)

(** Step 1: the nodes of the chain; the [pid_t] is passed as a [uint32_t]. *)
Fixpoint build_chain (t : Z) (ips sps : list Z) (c : LRUCache) : res (LRUCache * list nat) :=
  match ips with
  | [] => Ok (c, [])
  | i :: ips =>
      match sps with
      | [] => OutOfBounds
      | s :: sps =>
          '(c, k) ← GetNode (u32 t) i s c;
          '(c, chain) ← build_chain t ips sps c;
          Ok (c, k :: chain)
      end
  end.

(** Step 2: the loop over i = 1, ..., matched - 1; [chain_pos] stays where it
    is. *)
Fixpoint check_top (count : nat) (chain_pos : Z) (chain : list nat) (c : LRUCache) : res bool :=
  match count with
  | O => Ok true
  | S count =>
      match znth chain chain_pos, znth chain (chain_pos +u64 1) with
      | Some a, Some b =>
          p ← GetParent c a;
          if bool_decide (p = Some b) then check_top count chain_pos chain c else Ok false
      | _, _ => OutOfBounds
      end
  end.
Definition can_extend (chain : list nat) (c : LRUCache) : res bool :=
  let matched := matched_node_count_to_extend_callchain (cache_stat_ c) in
  if zlen chain <? matched then Ok false
  else check_top (Z.to_nat (matched - 1)) (u64 (zlen chain - 2)) chain c.

(** Step 3. *)
Fixpoint link_chain (chain : list nat) (c : LRUCache) : res LRUCache :=
  match chain with
  | a :: (b :: _) as rest => c ← LinkParent a b c; link_chain rest c
  | _ => Ok c
  end.

(** The inner loop of step 4, over the nodes from the back of the chain. *)
Fixpoint has_loop (top : CacheNode) (rev_chain : list nat) (c : LRUCache) : res bool :=
  match rev_chain with
  | [] => Ok false
  | k :: rest =>
      n ← node c k;
      if sp n =? sp top then if ip n =? ip top then Ok true else has_loop top rest c else Ok false
  end.

(** Step 4: from [top], the frames to append, or [None] when there is a loop.
    The outer [None] is lack of fuel. *)
Fixpoint extend (fuel : nat) (top : nat) (chain : list nat) (back : nat) (c : LRUCache)
    : option (res (option (list (Z * Z)))) :=
  match fuel with
  | O => None
  | S fuel =>
      match GetParent c top with
      | Ok None => Some (Ok (Some []))
      | Ok (Some p) =>
          match (n ← node c p; b ← node c back;
                 l ← (if sp n =? sp b then has_loop n (rev chain) c else Ok false);
                 Ok (n, l)) with
          | Ok (_, true) => Some (Ok None)
          | Ok (n, false) =>
              match extend fuel p chain back c with
              | Some (Ok (Some l)) => Some (Ok (Some ((ip n, sp n) :: l)))
              | r => r
              end
          | CheckFailed => Some CheckFailed
          | OutOfBounds => Some OutOfBounds
          end
      | CheckFailed => Some CheckFailed
      | OutOfBounds => Some OutOfBounds
      end
  end.

(** The cache and the call chain afterwards. *)
Definition AddCallChain (t : Z) (ips sps : list Z) (c : LRUCache) : option (res (LRUCache * list Z * list Z)) :=
  match ('(c, chain) ← build_chain t ips sps c;
         e ← can_extend chain c;
         c ← link_chain chain c;
         match last chain with Some back => Ok (c, chain, e, back) | None => OutOfBounds end) with
  | Ok (c, chain, true, back) =>
      match extend (length (nodes_ c)) back chain back c with
      | None => None
      | Some (Ok (Some l)) => Some (Ok (c, ips ++ (fst <$> l), sps ++ (snd <$> l)))
      | Some (Ok None) => Some (c ← UnlinkParent back c; Ok (c, ips, sps))
      | Some CheckFailed => Some CheckFailed
      | Some OutOfBounds => Some OutOfBounds
      end
  | Ok (c, _, false, back) => Some (c ← UnlinkParent back c; Ok (c, ips, sps))
  | CheckFailed => Some CheckFailed
  | OutOfBounds => Some OutOfBounds
  end.

(** * Reading and writing nodes *)

Definition nd (c : LRUCache) (i : nat) : CacheNode := nodes_ c !!! i.

Definition core (n : CacheNode) : Z * Z * Z * bool * Z := (ip n, sp n, tid n, is_leaf n, parent_index n).

(** Only the list links of the nodes of [l] differ. *)
Record relinks (l : list nat) (c c' : LRUCache) : Prop := {
  re_len : length (nodes_ c') = length (nodes_ c);
  re_set : node_set_ c' = node_set_ c;
  re_stat : cache_stat_ c' = cache_stat_ c;
  re_core : forall j, core (nd c' j) = core (nd c j);
  re_out : forall j, j ∉ l -> nd c' j = nd c j;
}.

(** One assignment. *)
Record assigns (i : nat) (f : CacheNode -> CacheNode) (c c' : LRUCache) : Prop := {
  as_len : length (nodes_ c') = length (nodes_ c);
  as_set : node_set_ c' = node_set_ c;
  as_stat : cache_stat_ c' = cache_stat_ c;
  as_nd : forall j, nd c' j = if decide (j = i) then f (nd c i) else nd c j;
}.

Lemma node_ok c i : (i < length (nodes_ c))%nat -> node c i = Ok (nd c i).
Proof.
  intros H. unfold node, nd. apply lookup_lt_is_Some in H as [n Hn].
  by rewrite Hn, (list_lookup_total_correct _ _ _ Hn).
Qed.

Lemma upd_ok i f c : (i < length (nodes_ c))%nat -> exists c', upd i f c = Ok c' /\ assigns i f c c'.
Proof.
  intros H. unfold upd. pose proof H as H'. apply lookup_lt_is_Some in H as [n Hn]. rewrite Hn. eexists. split; [done|].
  split; try done; [cbn; by rewrite length_insert|]. intros j. unfold nd. cbn [nodes_ set_nodes].
  rewrite (list_lookup_total_correct _ _ _ Hn). destruct (decide (j = i)) as [->|].
  - by rewrite list_lookup_total_insert_eq.
  - by rewrite list_lookup_total_insert_ne.
Qed.

Lemma GetParent_ok c i :
  (i < length (nodes_ c))%nat ->
  GetParent c i = Ok (if parent_index (nd c i) =? 0 then None else Some (Z.to_nat (parent_index (nd c i)))).
Proof. intros H. unfold GetParent. by rewrite node_ok. Qed.

(** * The doubly linked list *)

Fixpoint dll (f : nat -> CacheNode) (a : nat) (l : list nat) (b : nat) : Prop :=
  match l with
  | [] => leaf_link_next (f a) = Z.of_nat b /\ link_prev (f b) = Z.of_nat a
  | x :: l => leaf_link_next (f a) = Z.of_nat x /\ link_prev (f x) = Z.of_nat a /\ dll f x l b
  end.

Lemma dll_app f l1 : forall a x l2 b, dll f a (l1 ++ x :: l2) b <-> dll f a l1 x /\ dll f x l2 b.
Proof.
  induction l1 as [|y l1 IH]; intros a x l2 b; cbn [app dll]; [tauto|]. rewrite IH. tauto.
Qed.

Lemma dll_frame f g l : forall a b,
  (forall j, j ∈ a :: l -> leaf_link_next (g j) = leaf_link_next (f j)) ->
  (forall j, j ∈ l ++ [b] -> link_prev (g j) = link_prev (f j)) -> dll f a l b -> dll g a l b.
Proof.
  induction l as [|x l IH]; intros a b Hn Hp H; cbn [dll app] in *.
  - destruct H as [H1 H2]. rewrite Hn, Hp by apply list_elem_of_here. done.
  - destruct H as (H1 & H2 & H3). rewrite Hn, Hp by apply list_elem_of_here. split_and!; try done.
    apply IH; [|..|done]; intros j Hj; [apply Hn|apply Hp]; by apply list_elem_of_further.
Qed.

(** The node before the end of a segment. *)
Definition before (a : nat) (l : list nat) : nat := default a (last l).

Lemma before_cons a x l : before a (x :: l) = before x l.
Proof. unfold before. destruct l as [|y l]; [done|]. by rewrite last_cons_cons; destruct (last (y :: l)) eqn:E; [|apply last_None in E]. Qed.

Lemma before_in a l : before a l ∈ a :: l.
Proof.
  revert a. induction l as [|x l IH]; intros a; [apply list_elem_of_here|]. rewrite before_cons.
  apply list_elem_of_further, IH.
Qed.

Lemma dll_end f l : forall a b, dll f a l b -> link_prev (f b) = Z.of_nat (before a l).
Proof.
  induction l as [|x l IH]; intros a b H; [apply H|]. rewrite before_cons. apply IH. apply H.
Qed.

Lemma dll_start f a l b : dll f a l b -> leaf_link_next (f a) = Z.of_nat (default b (head l)).
Proof. destruct l; intros H; apply H. Qed.

(** Moving the end of a segment to another node. *)
Lemma dll_retarget f g l : forall a b c,
  NoDup (a :: l) -> c ∉ l ->
  (forall j, j ∈ a :: l -> leaf_link_next (g j) =
     if decide (j = before a l) then Z.of_nat c else leaf_link_next (f j)) ->
  (forall j, j ∈ l -> link_prev (g j) = link_prev (f j)) -> link_prev (g c) = Z.of_nat (before a l) ->
  dll f a l b -> dll g a l c.
Proof.
  induction l as [|x l IH]; intros a b c Hd Hc Hn Hp He H.
  { cbn [dll]. rewrite Hn by apply list_elem_of_here. by rewrite decide_True. }
  destruct H as (H1 & H2 & H3). rewrite before_cons in *. apply NoDup_cons in Hd as [Ha Hd]. cbn [dll]. split_and!.
  - rewrite Hn by apply list_elem_of_here. rewrite decide_False; [done|]. intros ->. apply Ha. apply before_in.
  - rewrite Hp by apply list_elem_of_here. done.
  - eapply IH; [done| | | |done|done].
    + intros Hin. apply Hc. by apply list_elem_of_further.
    + intros j Hj. apply Hn. by apply list_elem_of_further.
    + intros j Hj. apply Hp. by apply list_elem_of_further.
Qed.

(** [lru] is the content of the list that starts and ends at the sentinel. *)
Record list_ok (c : LRUCache) (lru : list nat) : Prop := {
  lo_nodup : NoDup (0%nat :: lru);
  lo_dll : dll (nd c) 0 lru 0;
  lo_range : Forall (fun i => (i < length (nodes_ c))%nat) (0%nat :: lru);
  lo_len : Z.of_nat (length (nodes_ c)) <= 2 ^ 31;
}.

Lemma u32_index x n : (x < n)%nat -> Z.of_nat n <= 2 ^ 31 -> u32 (Z.of_nat x) = Z.of_nat x.
Proof. intros. apply u32_small. unfold_u. lia. Qed.

(** The links around a member. *)
Lemma list_ok_member c l1 x l2 :
  list_ok c (l1 ++ x :: l2) ->
  link_prev (nd c x) = Z.of_nat (before 0 l1) /\ leaf_link_next (nd c x) = Z.of_nat (default 0%nat (head l2)) /\
  (before 0 l1 < length (nodes_ c))%nat /\ (default 0%nat (head l2) < length (nodes_ c))%nat /\ (x < length (nodes_ c))%nat.
Proof.
  intros [Hd Hl Hr _]. apply dll_app in Hl as [H1 H2]. rewrite Forall_forall in Hr. split_and!.
  - by apply (dll_end _ _ _ _ H1).
  - by apply (dll_start _ _ _ _ H2).
  - apply Hr. pose proof (before_in 0 l1) as Hb. set_solver.
  - apply Hr. destruct l2; cbn; set_solver.
  - apply Hr. set_solver.
Qed.

Lemma remove_ok c l1 x l2 :
  list_ok c (l1 ++ x :: l2) ->
  exists c', RemoveNodeFromLRUList x c = Ok c' /\ list_ok c' (l1 ++ l2) /\ relinks (0%nat :: l1 ++ l2) c c'.
Proof.
  intros Hok. destruct (list_ok_member c l1 x l2 Hok) as (Ep & En & Hpl & Hnl & Hxl).
  destruct Hok as [Hd Hl Hr Hlen]. set (p := before 0 l1) in *. set (n := default 0%nat (head l2)) in *.
  unfold RemoveNodeFromLRUList. rewrite node_ok by done. cbn [mbind res_bind]. rewrite Ep, En, !Nat2Z.id.
  destruct (upd_ok p (set_next (Z.of_nat n)) c Hpl) as (c1 & -> & [A1 A2 A3 A4]). cbn [mbind res_bind].
  rewrite node_ok by (by rewrite A1). cbn [mbind res_bind].
  assert (link_prev (nd c1 x) = Z.of_nat p) as ->.
  { rewrite A4. destruct (decide (x = p)) as [->|]; [|done]. exact Ep. }
  destruct (upd_ok n (set_prev (Z.of_nat p)) c1) as (c2 & -> & [B1 B2 B3 B4]); [by rewrite A1|].
  exists c2. split; [done|].
  assert (p ∈ 0%nat :: l1) as Hp by apply before_in.
  assert (n ∈ l2 ++ [0%nat]) as Hn by (unfold n; destruct l2; cbn; set_solver).
  assert (n = default 0%nat (head l2)) as Hndef by done. assert (p = before 0 l1) as Hpdef by done. clearbody p n.
  assert (forall j, leaf_link_next (nd c2 j) = if decide (j = p) then Z.of_nat n else leaf_link_next (nd c j)) as Enext.
  { intros j. rewrite B4. destruct (decide (j = n)) as [->|]; cbn [set_prev leaf_link_next]; rewrite A4;
      destruct (decide _) as [->|]; try done; cbn [set_next leaf_link_next]; eapply u32_index; eassumption. }
  assert (forall j, link_prev (nd c2 j) = if decide (j = n) then Z.of_nat p else link_prev (nd c j)) as Eprev.
  { intros j. rewrite B4. destruct (decide (j = n)) as [->|]; cbn [set_prev link_prev]; [eapply u32_index; eassumption|].
    rewrite A4. by destruct (decide (j = p)) as [->|]. }
  assert (NoDup (0%nat :: l1 ++ l2)) as Hd'.
  { change (0%nat :: l1 ++ x :: l2) with ((0%nat :: l1) ++ x :: l2) in Hd. rewrite <- Permutation_middle in Hd.
    by apply NoDup_cons in Hd as [_ Hd]. }
  assert (x ∉ 0%nat :: l1 ++ l2) as Hx.
  { change (0%nat :: l1 ++ x :: l2) with ((0%nat :: l1) ++ x :: l2) in Hd. rewrite <- Permutation_middle in Hd.
    by apply NoDup_cons in Hd as [Hd _]. }
  split; [split; [done| | |by rewrite B1, A1]|split].
  - apply dll_app in Hl as [H1 H2]. pose proof Hd' as Hd2. change (0%nat :: l1 ++ l2) with ((0%nat :: l1) ++ l2) in Hd2.
    apply NoDup_app in Hd2 as (N1 & N2 & N3). subst p.
    destruct l2 as [|y l2]; cbn [head default from_option id] in Hndef; subst n.
    + rewrite app_nil_r. apply NoDup_cons in N1 as N1'. destruct N1' as [N0 _].
      eapply dll_retarget; [done|done| | | |exact H1].
      * intros j _. apply Enext.
      * intros j Hj. rewrite Eprev. rewrite decide_False; [done|]. intros ->. done.
      * rewrite Eprev. by rewrite decide_True.
    + apply dll_app. assert (y ∉ 0%nat :: l1) as Hy by (intros Hin; apply (N2 _ Hin), list_elem_of_here). split.
      * eapply dll_retarget; [done| | | | |exact H1].
        -- intros Hin. apply Hy. by apply list_elem_of_further.
        -- intros j _. apply Enext.
        -- intros j Hj. rewrite Eprev, decide_False; [done|]. intros ->. apply Hy. by apply list_elem_of_further.
        -- by rewrite Eprev, decide_True.
      * destruct H2 as (_ & _ & H2). apply NoDup_cons in N3 as [N3 _]. eapply dll_frame; [| |exact H2].
        -- intros j Hj. rewrite Enext, decide_False; [done|]. intros ->. by apply (N2 _ Hp).
        -- intros j Hj. rewrite Eprev, decide_False; [done|]. intros ->. apply elem_of_app in Hj as [Hj|Hj]; [done|].
           apply list_elem_of_singleton in Hj as ->. apply Hy, list_elem_of_here.
  - rewrite Forall_forall in *. intros j Hj. rewrite B1, A1. apply Hr. set_solver.
  - by rewrite B1, A1.
  - by rewrite B2, A2.
  - by rewrite B3, A3.
  - intros j. rewrite B4. destruct (decide (j = n)) as [->|]; cbn; rewrite A4; by destruct (decide _) as [->|].
  - intros j Hj. rewrite B4, decide_False, A4, decide_False; [done| |]; intros ->; apply Hj; set_solver.
Qed.

(** Read a node through four assignments. *)
Ltac by_cases D C B A :=
  rewrite D; repeat (case_decide; subst; cbn [set_prev set_next link_prev leaf_link_next core ip sp tid is_leaf parent_index];
    try rewrite C; try rewrite B; try rewrite A; try done).

Lemma append_ok c lru i :
  list_ok c lru -> i ∉ 0%nat :: lru -> (i < length (nodes_ c))%nat ->
  exists c', AppendNodeToLRUList i c = Ok c' /\ list_ok c' (lru ++ [i]) /\ relinks (0%nat :: lru ++ [i]) c c'.
Proof.
  intros [Hd Hl Hr Hlen] Hi Hil. set (p := before 0 lru).
  assert (p ∈ 0%nat :: lru) as Hp by apply before_in.
  pose proof Hr as Hr'. rewrite Forall_forall in Hr'. pose proof (Hr' p Hp) as Hpl.
  pose proof (Hr' 0%nat (list_elem_of_here _ _)) as H0l.
  assert (i <> 0%nat) as Hi0 by set_solver. assert (i <> p) as Hip by (intros ->; done).
  unfold AppendNodeToLRUList. rewrite node_ok by done. cbn [mbind res_bind].
  rewrite (dll_end _ _ _ _ Hl), Nat2Z.id. fold p.
  destruct (upd_ok i (set_next 0) c Hil) as (c1 & -> & [A1 A2 A3 A4]). cbn [mbind res_bind].
  rewrite node_ok by (by rewrite A1). cbn [mbind res_bind]. rewrite A4, decide_False by done.
  rewrite (dll_end _ _ _ _ Hl). fold p.
  destruct (upd_ok i (set_prev (Z.of_nat p)) c1) as (c2 & -> & [B1 B2 B3 B4]); [by rewrite A1|]. cbn [mbind res_bind].
  destruct (upd_ok p (set_next (Z.of_nat i)) c2) as (c3 & -> & [C1 C2 C3 C4]); [by rewrite B1, A1|]. cbn [mbind res_bind].
  destruct (upd_ok 0 (set_prev (Z.of_nat i)) c3) as (c4 & -> & [D1 D2 D3 D4]); [by rewrite C1, B1, A1|].
  exists c4. split; [done|]. assert (p = before 0 lru) as Hpdef by done. clearbody p.
  assert (forall j, leaf_link_next (nd c4 j) = if decide (j = p) then Z.of_nat i else if decide (j = i) then 0
     else leaf_link_next (nd c j)) as Enext.
  { intros j. clear Hpdef. by_cases D4 C4 B4 A4; eapply u32_index; eassumption. }
  assert (forall j, link_prev (nd c4 j) = if decide (j = 0%nat) then Z.of_nat i else if decide (j = i) then Z.of_nat p
     else link_prev (nd c j)) as Eprev.
  { intros j. clear Hpdef. by_cases D4 C4 B4 A4; eapply u32_index; eassumption. }
  assert (forall j, core (nd c4 j) = core (nd c j)) as Ecore.
  { intros j. clear Hpdef. by_cases D4 C4 B4 A4. }
  apply NoDup_cons in Hd as Hd'. destruct Hd' as [N0 N1]. split; [split|split].
  - change (0%nat :: lru ++ [i]) with ((0%nat :: lru) ++ [i]). apply NoDup_app. split; [done|].
    split; [|apply NoDup_singleton]. intros j Hj Hj'. apply list_elem_of_singleton in Hj' as ->. done.
  - apply dll_app. split.
    + eapply dll_retarget; [done| | | | |exact Hl].
      * set_solver.
      * intros j Hj. rewrite Enext, <- Hpdef. destruct (decide (j = p)); [done|]. rewrite decide_False; [done|].
        intros ->. done.
      * intros j Hj. rewrite Eprev, !decide_False; [done| |]; intros ->; set_solver.
      * rewrite Eprev, decide_False, decide_True by done. by rewrite Hpdef.
    + cbn [dll]. rewrite Enext, Eprev. rewrite (decide_False (P := i = p)) by done. by rewrite !decide_True.
  - rewrite D1, C1, B1, A1. change (0%nat :: lru ++ [i]) with ((0%nat :: lru) ++ [i]). apply Forall_app.
    split; [done|]. by apply Forall_singleton.
  - by rewrite D1, C1, B1, A1.
  - by rewrite D1, C1, B1, A1.
  - by rewrite D2, C2, B2, A2.
  - by rewrite D3, C3, B3, A3.
  - done.
  - intros j Hj. rewrite D4, decide_False, C4, decide_False, B4, decide_False, A4, decide_False; [done|..]; intros ->; set_solver.
Qed.

(** * The forest *)

(** [par] maps a child to its parent; the number of children of [p]. *)
Definition kids (par : gmap nat nat) (p : nat) : nat := size (filter (fun jq => jq.2 = p) par).

Lemma kids_insert par j p : par !! j = None -> kids (<[j := p]> par) p = S (kids par p).
Proof.
  intros H. unfold kids. rewrite map_filter_insert_True by done. rewrite map_size_insert_None; [done|].
  apply map_lookup_filter_None. by left.
Qed.

Lemma kids_insert_ne par j p q : par !! j = None -> q <> p -> kids (<[j := p]> par) q = kids par q.
Proof.
  intros H Hq. unfold kids. rewrite map_filter_insert_False by (cbn; congruence). by rewrite delete_id.
Qed.

Lemma kids_delete par j p : par !! j = Some p -> kids par p = S (kids (delete j par) p).
Proof.
  intros H. rewrite <- (insert_delete_id par j p H) at 1. apply kids_insert, lookup_delete_eq.
Qed.

Lemma kids_delete_ne par j p q : par !! j = Some p -> q <> p -> kids (delete j par) q = kids par q.
Proof.
  intros H Hq. rewrite <- (insert_delete_id par j p H) at 2. rewrite kids_insert_ne by (try done; apply lookup_delete_eq). done.
Qed.

Lemma kids_0 par p : kids par p = 0%nat <-> forall j, par !! j <> Some p.
Proof.
  unfold kids. rewrite map_size_empty_iff. rewrite map_empty. split.
  - intros H j Hj. specialize (H j). apply map_lookup_filter_None in H as [H|H]; [congruence|]. by apply (H p).
  - intros H j. apply map_lookup_filter_None. destruct (par !! j) as [q|] eqn:E; [|by left]. right.
    intros q' Hq'. cbn. intros ->. simplify_eq. by apply (H j).
Qed.

Lemma kids_le par p : (kids par p <= size par)%nat.
Proof. apply map_subseteq_size, map_filter_subseteq. Qed.

Definition ident (n : CacheNode) : Z * Z * Z * Z := (ip n, sp n, tid n, parent_index n).

(** What the operations on links leave alone. *)
Record keeps (c c' : LRUCache) : Prop := {
  ke_len : length (nodes_ c') = length (nodes_ c);
  ke_set : node_set_ c' = node_set_ c;
  ke_stat : cache_stat_ c' = cache_stat_ c;
  ke_ident : forall j, ident (nd c' j) = ident (nd c j);
}.

Lemma keeps_trans c1 c2 c3 : keeps c1 c2 -> keeps c2 c3 -> keeps c1 c3.
Proof. intros [A1 A2 A3 A4] [B1 B2 B3 B4]. split; congruence. Qed.

Lemma relinks_keeps l c c' : relinks l c c' -> keeps c c'.
Proof. intros [R1 R2 R3 R4 _]. split; try done. intros j. specialize (R4 j). unfold core, ident in *. congruence. Qed.

Lemma assigns_keeps i f c c' : assigns i f c c' -> (forall n, ident (f n) = ident n) -> keeps c c'.
Proof. intros [A1 A2 A3 A4] Hf. split; try done. intros j. rewrite A4. by destruct (decide (j = i)) as [->|]. Qed.

Lemma relinks_leaf l c c' j : relinks l c c' -> is_leaf (nd c' j) = is_leaf (nd c j).
Proof. intros [_ _ _ R _]. specialize (R j). unfold core in R. congruence. Qed.

Lemma keeps_key c c' j : keeps c c' -> key_of (nd c' j) = key_of (nd c j).
Proof. intros [_ _ _ K]. specialize (K j). unfold ident, key_of in *. congruence. Qed.

(** The state of the nodes for which [live] holds, with [par] their parents. *)
Record graph_ok (c : LRUCache) (lru : list nat) (live : nat -> Prop) (par : gmap nat nat) : Prop := {
  go_list : list_ok c lru;
  go_live : forall i, live i -> (0 < i < length (nodes_ c))%nat;
  go_lru : forall i, i ∈ lru <-> live i /\ is_leaf (nd c i) = true;
  go_par : forall i p, par !! i = Some p -> live p;
  go_dom : forall i p, par !! i = Some p -> (i < length (nodes_ c))%nat;
  go_leaf : forall i, live i -> is_leaf (nd c i) = true -> kids par i = 0%nat;
  go_inner : forall i, live i -> is_leaf (nd c i) = false ->
    link_prev (nd c i) = Z.of_nat (kids par i) /\ kids par i <> 0%nat;
  go_set : forall k i, node_set_ c !! k = Some i <-> live i /\ key_of (nd c i) = k;
}.

Lemma list_frame c c' lru :
  list_ok c lru -> length (nodes_ c') = length (nodes_ c) -> (forall j, j ∈ 0%nat :: lru -> nd c' j = nd c j) ->
  list_ok c' lru.
Proof.
  intros [L1 L2 L3 L4] Hl Hj. split; [done| |by rewrite Hl|by rewrite Hl].
  eapply dll_frame; [| |exact L2]; intros j H; rewrite Hj; try done. set_solver.
Qed.

Lemma size_par_bound c lru live par : graph_ok c lru live par -> (size par <= length (nodes_ c))%nat.
Proof.
  intros H. rewrite <- size_dom. transitivity (size (set_seq 0 (length (nodes_ c)) : gset nat)).
  - apply subseteq_size. intros i Hi. apply elem_of_dom in Hi as [p Hp]. apply elem_of_set_seq.
    pose proof (go_dom _ _ _ _ H i p Hp). lia.
  - rewrite size_set_seq. lia.
Qed.

Lemma not_leaf_not_in c lru live par i :
  graph_ok c lru live par -> live i -> is_leaf (nd c i) = false -> i ∉ 0%nat :: lru.
Proof.
  intros H Hi Hf Hin. apply elem_of_cons in Hin as [->|Hin].
  - pose proof (go_live _ _ _ _ H _ Hi). lia.
  - apply (go_lru _ _ _ _ H) in Hin as [_ Hin]. congruence.
Qed.

(** Taking a child from a parent. *)
Lemma decrease_ok c lru live par child p :
  graph_ok c lru live par -> par !! child = Some p ->
  exists c' lru', DecreaseChildCountOfNode p c = Ok c' /\ graph_ok c' lru' live (delete child par) /\ keeps c c' /\
    (forall x, x ∈ lru -> x ∈ lru').
Proof.
  intros H Hp. pose proof (go_par _ _ _ _ H _ _ Hp) as Hlive. pose proof (kids_delete _ _ _ Hp) as Hk.
  assert (is_leaf (nd c p) = false) as Hleaf.
  { apply not_true_is_false. intros E. pose proof (go_leaf _ _ _ _ H p Hlive E). lia. }
  destruct (go_inner _ _ _ _ H p Hlive Hleaf) as [Hc _]. pose proof (not_leaf_not_in _ _ _ _ _ H Hlive Hleaf) as Hnin.
  pose proof (go_live _ _ _ _ H p Hlive) as Hpl. pose proof (size_par_bound _ _ _ _ H) as Hsz. pose proof (kids_le par p) as Hkl.
  pose proof (lo_len _ _ (go_list _ _ _ _ H)) as Hlen.
  unfold DecreaseChildCountOfNode.
  destruct (upd_ok p (fun n => set_prev (link_prev n - 1) n) c) as (c1 & -> & A); [lia|]. cbn [mbind res_bind].
  pose proof A as [A1 A2 A3 A4]. rewrite node_ok by (rewrite A1; lia). cbn [mbind res_bind].
  assert (link_prev (nd c1 p) = Z.of_nat (kids (delete child par) p)) as E1.
  { rewrite A4, decide_True by done. cbn [set_prev link_prev]. rewrite Hc, Hk, u32_small; [lia|]. unfold_u. lia. }
  rewrite E1. assert (list_ok c1 lru) as L1.
  { eapply list_frame; [apply H|done|]. intros j Hj. rewrite A4, decide_False; [done|]. intros ->. done. }
  assert (keeps c c1) as K1 by (eapply assigns_keeps; [exact A|done]).
  assert (forall i p0, delete child par !! i = Some p0 -> par !! i = Some p0) as Hdel
    by (intros i p0 Hi; by apply lookup_delete_Some in Hi as [_ Hi]).
  destruct (Z.eqb_spec (Z.of_nat (kids (delete child par) p)) 0) as [Ez|Ez].
  - destruct (upd_ok p (set_leaf true) c1) as (c2 & -> & B); [rewrite A1; lia|]. cbn [mbind res_bind].
    pose proof B as [B1 B2 B3 B4].
    assert (list_ok c2 lru) as L2.
    { eapply list_frame; [exact L1|done|]. intros j Hj. rewrite B4, decide_False; [done|]. intros ->. done. }
    destruct (append_ok c2 lru p L2 Hnin) as (c3 & -> & L3 & R); [rewrite B1, A1; lia|].
    assert (forall i, i <> p -> nd c2 i = nd c i) as N2.
    { intros i Hi. by rewrite B4, decide_False, A4, decide_False. }
    assert (forall i, is_leaf (nd c3 i) = if decide (i = p) then true else is_leaf (nd c i)) as Lf.
    { intros i. rewrite (relinks_leaf _ _ _ _ R). destruct (decide (i = p)) as [->|]; [|by rewrite N2].
      by rewrite B4, decide_True. }
    assert (keeps c c3) as K3.
    { eapply keeps_trans; [exact K1|]. eapply keeps_trans; [eapply assigns_keeps; [exact B|done]|].
      by eapply relinks_keeps. }
    exists c3, (lru ++ [p]). split; [done|]. split; [|split; [done|intros x Hx; apply elem_of_app; by left]]. split; [done|..].
    + intros i Hi. rewrite (ke_len _ _ K3). by apply (go_live _ _ _ _ H).
    + intros i. rewrite elem_of_app, list_elem_of_singleton, Lf, (go_lru _ _ _ _ H). case_decide; subst; [|tauto].
      split; [intros _; by split|]. tauto.
    + intros i p0 Hi. by apply (go_par _ _ _ _ H i), Hdel.
    + intros i p0 Hi. rewrite (ke_len _ _ K3). by apply (go_dom _ _ _ _ H i p0), Hdel.
    + intros i Hi. rewrite Lf. case_decide; subst; [intros _; lia|]. intros Hf. rewrite (kids_delete_ne _ _ _ _ Hp) by done.
      by apply (go_leaf _ _ _ _ H).
    + intros i Hi. rewrite Lf. case_decide; [done|]. intros Hf. rewrite (kids_delete_ne _ _ _ _ Hp) by done.
      rewrite (re_out _ _ _ R), N2 by (try done; pose proof (not_leaf_not_in _ _ _ _ _ H Hi Hf); set_solver).
      by apply (go_inner _ _ _ _ H).
    + intros k i. rewrite (ke_set _ _ K3), (keeps_key _ _ _ K3). apply (go_set _ _ _ _ H).
  - exists c1, lru. split; [done|]. split; [|split; [done|done]]. split; [done|..].
    + intros i Hi. rewrite A1. by apply (go_live _ _ _ _ H).
    + intros i. rewrite (go_lru _ _ _ _ H), A4. case_decide; by subst.
    + intros i p0 Hi. by apply (go_par _ _ _ _ H i), Hdel.
    + intros i p0 Hi. rewrite A1. by apply (go_dom _ _ _ _ H i p0), Hdel.
    + intros i Hi Hf. assert (is_leaf (nd c i) = true) as Hf' by (revert Hf; rewrite A4; by case_decide; subst).
      assert (i <> p) by congruence. rewrite (kids_delete_ne _ _ _ _ Hp) by done. by apply (go_leaf _ _ _ _ H).
    + intros i Hi Hf. destruct (decide (i = p)) as [->|Hne]; [split; [done|lia]|].
      rewrite (kids_delete_ne _ _ _ _ Hp) by done. rewrite A4, decide_False in * by done. by apply (go_inner _ _ _ _ H).
    + intros k i. rewrite (ke_set _ _ K1), (keeps_key _ _ _ K1). apply (go_set _ _ _ _ H).
Qed.

(** The end of [LinkParent]: giving a parent a new child. *)
Definition gain_child (new_parent : nat) (c : LRUCache) : res LRUCache :=
  n ← node c new_parent;
  if is_leaf n then
    c ← RemoveNodeFromLRUList new_parent c;
    upd new_parent (fun n => set_prev 1 (set_leaf false n)) c
  else upd new_parent (fun n => set_prev (link_prev n + 1) n) c.

Lemma gain_child_ok c lru live par child p :
  graph_ok c lru live par -> par !! child = None -> live p -> (child < length (nodes_ c))%nat ->
  exists c' lru', gain_child p c = Ok c' /\ graph_ok c' lru' live (<[child := p]> par) /\ keeps c c'.
Proof.
  intros H Hc Hlive Hcl. pose proof (go_live _ _ _ _ H p Hlive) as Hpl. pose proof (size_par_bound _ _ _ _ H) as Hsz.
  pose proof (kids_le par p) as Hkl. pose proof (lo_len _ _ (go_list _ _ _ _ H)) as Hlen.
  unfold gain_child. rewrite node_ok by lia. cbn [mbind res_bind].
  assert (forall i q, <[child := p]> par !! i = Some q -> live q) as Hpar.
  { intros i q Hi. apply lookup_insert_Some in Hi as [[<- <-]|[_ Hi]]; [done|]. by apply (go_par _ _ _ _ H i). }
  assert (forall i q, <[child := p]> par !! i = Some q -> (i < length (nodes_ c))%nat) as Hdom.
  { intros i q Hi. apply lookup_insert_Some in Hi as [[<- <-]|[_ Hi]]; [done|]. by apply (go_dom _ _ _ _ H i q). }
  destruct (is_leaf (nd c p)) eqn:Hleaf.
  - pose proof (proj2 (go_lru _ _ _ _ H p) (conj Hlive Hleaf)) as Hin. apply list_elem_of_split in Hin as (l1 & l2 & ->).
    destruct (remove_ok c l1 p l2 (go_list _ _ _ _ H)) as (c1 & -> & L1 & R). cbn [mbind res_bind].
    pose proof (lo_nodup _ _ (go_list _ _ _ _ H)) as Hd. change (0%nat :: l1 ++ p :: l2) with ((0%nat :: l1) ++ p :: l2) in Hd.
    rewrite <- Permutation_middle in Hd. apply NoDup_cons in Hd as [Hd _]. cbn [app] in Hd.
    destruct (upd_ok p (fun n => set_prev 1 (set_leaf false n)) c1) as (c2 & E2 & B); [rewrite (re_len _ _ _ R); lia|].
    pose proof B as [B1 B2 B3 B4].
    assert (keeps c c2) as K2.
    { eapply keeps_trans; [by eapply relinks_keeps|]. by eapply assigns_keeps; [exact B|]. }
    assert (forall i, is_leaf (nd c2 i) = if decide (i = p) then false else is_leaf (nd c i)) as Lf.
    { intros i. rewrite B4. case_decide; subst; [done|]. apply (relinks_leaf _ _ _ _ R). }
    exists c2, (l1 ++ l2). split; [done|]. split; [|done]. split.
    + eapply list_frame; [exact L1|done|]. intros j Hj. rewrite B4, decide_False; [done|]. by intros ->.
    + intros i Hi. rewrite (ke_len _ _ K2). by apply (go_live _ _ _ _ H).
    + intros i. rewrite Lf. pose proof (go_lru _ _ _ _ H i) as Hi. rewrite elem_of_app, elem_of_cons in Hi.
      rewrite elem_of_app. case_decide as Hd'; [subst|tauto]. split; [|by intros [_ ?]]. intros Hin. exfalso. apply Hd.
      apply list_elem_of_further. by apply elem_of_app.
    + done.
    + intros i q Hi. rewrite (ke_len _ _ K2). by eapply Hdom.
    + intros i Hi. rewrite Lf. case_decide; [done|]. intros Hf. rewrite kids_insert_ne by done. by apply (go_leaf _ _ _ _ H).
    + intros i Hi. rewrite Lf. case_decide as Hip; [subst; intros _|intros Hf].
      * rewrite kids_insert by done. rewrite (go_leaf _ _ _ _ H p Hlive Hleaf). rewrite B4, decide_True by done. done.
      * rewrite kids_insert_ne by done. rewrite B4, decide_False by done.
        rewrite (re_out _ _ _ R); [by apply (go_inner _ _ _ _ H)|].
        pose proof (not_leaf_not_in _ _ _ _ _ H Hi Hf). set_solver.
    + intros k i. rewrite (ke_set _ _ K2), (keeps_key _ _ _ K2). apply (go_set _ _ _ _ H).
  - destruct (go_inner _ _ _ _ H p Hlive Hleaf) as [Hk _].
    destruct (upd_ok p (fun n => set_prev (link_prev n + 1) n) c) as (c1 & E1 & B); [lia|]. pose proof B as [B1 B2 B3 B4].
    assert (keeps c c1) as K1 by (eapply assigns_keeps; [exact B|done]).
    assert (forall i, is_leaf (nd c1 i) = is_leaf (nd c i)) as Lf by (intros i; rewrite B4; by case_decide; subst).
    exists c1, lru. split; [done|]. split; [|done]. split.
    + eapply list_frame; [apply H|done|]. intros j Hj. rewrite B4, decide_False; [done|]. intros ->.
      by apply (not_leaf_not_in _ _ _ _ _ H Hlive Hleaf).
    + intros i Hi. rewrite B1. by apply (go_live _ _ _ _ H).
    + intros i. rewrite Lf. apply (go_lru _ _ _ _ H).
    + done.
    + intros i q Hi. rewrite B1. by eapply Hdom.
    + intros i Hi. rewrite Lf. intros Hf. assert (i <> p) by congruence. rewrite kids_insert_ne by done. by apply (go_leaf _ _ _ _ H).
    + intros i Hi. rewrite Lf. intros Hf. rewrite B4. case_decide; subst.
      * rewrite kids_insert by done. cbn [set_prev link_prev]. rewrite Hk, u32_small; [lia|]. unfold_u. lia.
      * rewrite kids_insert_ne by done. by apply (go_inner _ _ _ _ H).
    + intros k i. rewrite (ke_set _ _ K1), (keeps_key _ _ _ K1). apply (go_set _ _ _ _ H).
Qed.

Lemma graph_live_ext c lru live live' par :
  graph_ok c lru live par -> (forall i, live i <-> live' i) -> graph_ok c lru live' par.
Proof.
  intros [G1 G2 G3 G4 G5 G6 G7 G8] E. split; try done.
  - intros i Hi. by apply G2, E.
  - intros i. by rewrite G3, E.
  - intros i p Hp. by apply E, (G4 i).
  - intros i Hi. by apply G6, E.
  - intros i Hi. by apply G7, E.
  - intros k i. by rewrite G8, E.
Qed.

(** The end of [GetNode] for a node [k] that is not in use. *)
Lemma add_node_ok c lru live par k t i s :
  graph_ok c lru live par -> ~ live k -> (0 < k < length (nodes_ c))%nat -> node_set_ c !! (t, i, s) = None ->
  exists c1 c2, upd k (fun _ => fresh_node t i s k) c = Ok c1 /\
    AppendNodeToLRUList k (set_node_set (<[(t, i, s) := k]> (node_set_ c1)) c1) = Ok c2 /\
    graph_ok c2 (lru ++ [k]) (fun j => live j \/ j = k) par /\
    node_set_ c1 = node_set_ c /\ cache_stat_ c2 = cache_stat_ c /\ length (nodes_ c2) = length (nodes_ c) /\
    ident (nd c2 k) = (i, s, t, 0) /\ (forall j, j <> k -> ident (nd c2 j) = ident (nd c j)) /\
    node_set_ c2 = <[(t, i, s) := k]> (node_set_ c).
Proof.
  intros H Hk Hkl Hs. destruct (upd_ok k (fun _ => fresh_node t i s k) c) as (c1 & E1 & [A1 A2 A3 A4]); [lia|].
  exists c1. set (c1' := set_node_set (<[(t, i, s) := k]> (node_set_ c1)) c1).
  assert (k ∉ 0%nat :: lru) as Hnin.
  { intros Hin. apply elem_of_cons in Hin as [->|Hin]; [lia|]. by apply (go_lru _ _ _ _ H) in Hin as [? _]. }
  assert (list_ok c1' lru) as L1.
  { eapply list_frame; [apply H|done|]. intros j Hj. change (nd c1' j) with (nd c1 j). rewrite A4, decide_False; [done|]. by intros ->. }
  destruct (append_ok c1' lru k L1 Hnin) as (c2 & E2 & L2 & R); [cbn; rewrite A1; lia|].
  pose proof (relinks_keeps _ _ _ R) as [K1 K2 K3 K4].
  assert (forall j, is_leaf (nd c2 j) = if decide (j = k) then true else is_leaf (nd c j)) as Lf.
  { intros j. rewrite (relinks_leaf _ _ _ _ R). change (nd c1' j) with (nd c1 j). rewrite A4. by case_decide. }
  assert (forall j, j <> k -> ident (nd c2 j) = ident (nd c j)) as I2.
  { intros j Hj. rewrite K4. change (nd c1' j) with (nd c1 j). by rewrite A4, decide_False. }
  assert (ident (nd c2 k) = (i, s, t, 0)) as Ik.
  { rewrite K4. change (nd c1' k) with (nd c1 k). by rewrite A4, decide_True. }
  assert (length (nodes_ c2) = length (nodes_ c)) as Hlen by (rewrite K1; exact A1).
  exists c2. split; [done|]. split; [done|]. split; [|split_and!; try done; [by rewrite K3|rewrite K2; cbn; by rewrite A2]].
  assert (kids par k = 0%nat) as Hkids.
  { apply kids_0. intros j Hj. apply Hk. by apply (go_par _ _ _ _ H j). }
  split; [done|..].
  - intros j [Hj| ->]; rewrite Hlen; [by apply (go_live _ _ _ _ H)|lia].
  - intros j. rewrite elem_of_app, list_elem_of_singleton, Lf, (go_lru _ _ _ _ H). case_decide; subst; [|tauto].
    split; [intros _; split; [by right|done]|by right].
  - intros j p Hp. left. by apply (go_par _ _ _ _ H j).
  - intros j p Hp. rewrite Hlen. by apply (go_dom _ _ _ _ H j p).
  - intros j Hj. rewrite Lf. case_decide; subst; [done|]. destruct Hj; [|done]. by apply (go_leaf _ _ _ _ H).
  - intros j Hj. rewrite Lf. case_decide; [done|]. destruct Hj as [Hj|]; [|done]. intros Hf.
    rewrite (re_out _ _ _ R) by (pose proof (not_leaf_not_in _ _ _ _ _ H Hj Hf); set_solver).
    change (nd c1' j) with (nd c1 j). rewrite A4, decide_False by done. by apply (go_inner _ _ _ _ H).
  - intros k0 j. rewrite K2. cbn [node_set_ set_node_set c1']. rewrite A2. destruct (decide (j = k)) as [->|Hj].
    + unfold key_of. injection Ik as -> -> -> _. split.
      * intros Hl. apply lookup_insert_Some in Hl as [[<- _]|[_ Hl]]; [split; [by right|done]|].
        apply (go_set _ _ _ _ H) in Hl as [Hl _]. done.
      * intros [_ <-]. by rewrite lookup_insert_eq.
    + assert (key_of (nd c2 j) = key_of (nd c j)) as -> by (specialize (I2 j Hj); unfold ident, key_of in *; congruence).
      rewrite lookup_insert_Some. split.
      * intros [[_ ->]|[_ Hl]]; [done|]. apply (go_set _ _ _ _ H) in Hl as [? ?]. split; [by left|done].
      * intros [[Hl|Hl] <-]; [|done]. right. assert (node_set_ c !! key_of (nd c j) = Some j) as Hset
          by (by apply (go_set _ _ _ _ H)). split; [congruence|done].
Qed.

(** * The invariant of the cache *)

Definition used (c : LRUCache) : nat := Z.to_nat (used_node_count (cache_stat_ c)).
Definition live (c : LRUCache) (i : nat) : Prop := (0 < i <= used c)%nat.

Record links_ok (c : LRUCache) (lru : list nat) (par : gmap nat nat) : Prop := {
  lk_graph : graph_ok c lru (live c) par;
  lk_stored : forall i, live c i ->
    parent_index (nd c i) = match par !! i with Some p => Z.of_nat p | None => 0 end;
  lk_dom : forall i p, par !! i = Some p -> live c i;
  lk_tid : forall i p, par !! i = Some p -> tid (nd c i) = tid (nd c p);
  lk_len : Z.of_nat (length (nodes_ c)) = max_node_count (cache_stat_ c) + 1;
  lk_used : 0 <= used_node_count (cache_stat_ c) <= max_node_count (cache_stat_ c);
  lk_max : 2 <= max_node_count (cache_stat_ c);
  lk_matched : 1 <= matched_node_count_to_extend_callchain (cache_stat_ c);
}.

(** The number of ancestors: every node has one, so there are no loops. *)
Inductive depth (par : gmap nat nat) : nat -> nat -> Prop :=
| depth_root i : par !! i = None -> depth par i 0
| depth_child i p n : par !! i = Some p -> depth par p n -> depth par i (S n).

Definition rooted (par : gmap nat nat) : Prop := forall i, exists n, depth par i n.

Lemma depth_fun par i n m : depth par i n -> depth par i m -> n = m.
Proof.
  intros H. revert m. induction H as [i Hi|i p n Hi _ IH]; intros m Hm; inversion Hm; subst; try congruence.
  f_equal. apply IH. congruence.
Qed.

(** A node that is not a parent can be cut without harm. *)
Lemma rooted_delete_leaf par x : rooted par -> (forall j, par !! j <> Some x) -> rooted (delete x par).
Proof.
  intros Hr Hx.
  assert (forall i n, depth par i n -> i <> x -> depth (delete x par) i n) as Hd.
  { induction 1 as [i Hi|i p n Hi _ IH]; intros Hne.
    - constructor. by rewrite lookup_delete_ne.
    - econstructor; [by rewrite lookup_delete_ne|]. apply IH. intros ->. by apply (Hx i). }
  intros i. destruct (decide (i = x)) as [->|Hne].
  - exists 0%nat. constructor. apply lookup_delete_eq.
  - destruct (Hr i) as [n Hn]. exists n. by apply Hd.
Qed.

(** Some node has no children. *)
Lemma rooted_has_leaf (par : gmap nat nat) (l : list nat) :
  rooted par -> l <> [] -> (forall i p, par !! i = Some p -> i ∈ l) -> exists x, x ∈ l /\ forall j, par !! j <> Some x.
Proof.
  intros Hr Hl Hd.
  assert (exists x n, x ∈ l /\ depth par x n /\ forall y m, y ∈ l -> depth par y m -> (m <= n)%nat) as (x & n & Hx & Hn & Hmax).
  { clear Hd. induction l as [|a l IH]; [done|]. destruct (Hr a) as [na Hna]. destruct l as [|b l].
    - exists a, na. split; [apply list_elem_of_here|]. split; [done|]. intros y m Hy Hm.
      apply list_elem_of_singleton in Hy as ->. by rewrite (depth_fun _ _ _ _ Hm Hna).
    - destruct IH as (x & n & Hx & Hn & Hmax); [done|]. destruct (le_lt_dec na n).
      + exists x, n. split; [by apply list_elem_of_further|]. split; [done|]. intros y m Hy Hm.
        apply elem_of_cons in Hy as [->|Hy]; [|by eapply Hmax]. by rewrite (depth_fun _ _ _ _ Hm Hna).
      + exists a, na. split; [apply list_elem_of_here|]. split; [done|]. intros y m Hy Hm.
        apply elem_of_cons in Hy as [->|Hy]; [by rewrite (depth_fun _ _ _ _ Hm Hna)|]. specialize (Hmax y m Hy Hm). lia. }
  exists x. split; [done|]. intros j Hj. pose proof (depth_child _ _ _ _ Hj Hn) as Hjn.
  pose proof (Hmax j (S n) (Hd _ _ Hj) Hjn). lia.
Qed.

(** Only links and parents change. *)
Record same_keys (c c' : LRUCache) : Prop := {
  sk_len : length (nodes_ c') = length (nodes_ c);
  sk_set : node_set_ c' = node_set_ c;
  sk_stat : cache_stat_ c' = cache_stat_ c;
  sk_key : forall j, key_of (nd c' j) = key_of (nd c j);
}.

Lemma same_keys_refl c : same_keys c c.
Proof. by split. Qed.
Lemma same_keys_trans c1 c2 c3 : same_keys c1 c2 -> same_keys c2 c3 -> same_keys c1 c3.
Proof. intros [A1 A2 A3 A4] [B1 B2 B3 B4]. split; congruence. Qed.
Lemma keeps_same_keys c c' : keeps c c' -> same_keys c c'.
Proof. intros K. split; [apply K..|]. intros j. by apply keeps_key. Qed.
Lemma same_keys_live c c' i : same_keys c c' -> live c' i <-> live c i.
Proof. intros [_ _ S _]. unfold live, used. by rewrite S. Qed.
Lemma same_keys_tid c c' i : same_keys c c' -> tid (nd c' i) = tid (nd c i).
Proof. intros [_ _ _ S]. specialize (S i). unfold key_of in S. congruence. Qed.

Lemma live_range c lru par i : links_ok c lru par -> live c i -> (i < length (nodes_ c))%nat.
Proof. intros H Hi. by apply (go_live _ _ _ _ (lk_graph _ _ _ H)). Qed.

Lemma index_bound c lru par i : links_ok c lru par -> live c i -> Z.of_nat i < 2 ^ 31.
Proof.
  intros H Hi. pose proof (live_range _ _ _ _ H Hi). pose proof (lo_len _ _ (go_list _ _ _ _ (lk_graph _ _ _ H))). lia.
Qed.

Lemma GetParent_par c lru par i : links_ok c lru par -> live c i -> GetParent c i = Ok (par !! i).
Proof.
  intros H Hi. rewrite GetParent_ok by (by eapply live_range). rewrite (lk_stored _ _ _ H i Hi).
  destruct (par !! i) as [p|] eqn:E; [|done]. pose proof (go_par _ _ _ _ (lk_graph _ _ _ H) i p E) as Hp. unfold live in Hp.
  destruct (Z.eqb_spec (Z.of_nat p) 0); [lia|]. by rewrite Nat2Z.id.
Qed.

Lemma decrease_parent_ok c lru par i :
  links_ok c lru par -> live c i ->
  exists c' lru', decrease_parent i c = Ok c' /\ graph_ok c' lru' (live c) (delete i par) /\ keeps c c' /\
    (forall x, x ∈ lru -> x ∈ lru').
Proof.
  intros H Hi. unfold decrease_parent. rewrite (GetParent_par _ _ _ _ H Hi). cbn [mbind res_bind].
  destruct (par !! i) as [p|] eqn:E.
  - by apply (decrease_ok c lru (live c) par i p (lk_graph _ _ _ H)).
  - exists c, lru. rewrite delete_id by done. split; [done|]. split; [apply H|]. by split.
Qed.

(** Storing the new parent, after the links are right. *)
Lemma stored_ok c c1 c2 lru lru' par par' i :
  links_ok c lru par -> same_keys c c2 -> live c i -> graph_ok c2 lru' (live c) par' ->
  (forall j, j <> i -> par' !! j = par !! j) -> (forall p, par' !! i = Some p -> live c p /\ tid (nd c i) = tid (nd c p)) ->
  keeps c c1 ->
  (forall j, parent_index (nd c2 j) = if decide (j = i) then match par' !! i with Some p => Z.of_nat p | None => 0 end
     else parent_index (nd c1 j)) ->
  links_ok c2 lru' par'.
Proof.
  intros H K Hi G Hne Hp K1 Hst. assert (forall j, live c2 j <-> live c j) as Hl by (intros j; by apply same_keys_live).
  split.
  - eapply graph_live_ext; [exact G|]. intros j. by rewrite Hl.
  - intros j Hj. rewrite Hst. case_decide as Hd; [by subst|]. rewrite Hne by done.
    pose proof (ke_ident _ _ K1 j) as Kj. unfold ident in Kj. injection Kj as _ _ _ ->. apply (lk_stored _ _ _ H). by apply Hl.
  - intros j p Hj. apply Hl. destruct (decide (j = i)) as [->|Hd]; [done|]. rewrite Hne in Hj by done. by apply (lk_dom _ _ _ H j p).
  - intros j p Hj. rewrite !(same_keys_tid _ _ _ K). destruct (decide (j = i)) as [->|Hd]; [by apply Hp|].
    rewrite Hne in Hj by done. by apply (lk_tid _ _ _ H).
  - rewrite (sk_len _ _ K), (sk_stat _ _ K). apply H.
  - rewrite (sk_stat _ _ K). apply H.
  - rewrite (sk_stat _ _ K). apply H.
  - rewrite (sk_stat _ _ K). apply H.
Qed.

Lemma LinkParent_gain child new_parent c :
  LinkParent child new_parent c =
  (c ← decrease_parent child c; c ← upd child (set_parent (Z.of_nat new_parent)) c; gain_child new_parent c).
Proof. done. Qed.

(** Assigning a parent changes neither the graph nor the list. *)
Lemma set_parent_graph c lru live par i x :
  graph_ok c lru live par -> (i < length (nodes_ c))%nat ->
  exists c', upd i (set_parent x) c = Ok c' /\ graph_ok c' lru live par /\ same_keys c c' /\
    (forall j, parent_index (nd c' j) = if decide (j = i) then x mod 2 ^ 31 else parent_index (nd c j)).
Proof.
  intros H Hi. destruct (upd_ok i (set_parent x) c Hi) as (c' & E & [A1 A2 A3 A4]). exists c'. split; [done|].
  assert (forall j, is_leaf (nd c' j) = is_leaf (nd c j) /\ link_prev (nd c' j) = link_prev (nd c j) /\
    leaf_link_next (nd c' j) = leaf_link_next (nd c j) /\ key_of (nd c' j) = key_of (nd c j)) as S
    by (intros j; rewrite A4; by case_decide; subst).
  split; [|split; [split; try done; intros j; apply S|intros j; rewrite A4; by case_decide; subst]].
  destruct H as [[L1 L2 L3 L4] G2 G3 G4 G5 G6 G7 G8]. split; [split; [done| |by rewrite A1|by rewrite A1]|..].
  - eapply dll_frame; [| |exact L2]; intros j _; apply S.
  - intros j. rewrite A1. apply G2.
  - intros j. destruct (S j) as [-> _]. apply G3.
  - done.
  - intros j p. rewrite A1. apply G5.
  - intros j. destruct (S j) as [-> _]. apply G6.
  - intros j. destruct (S j) as (-> & -> & _). apply G7.
  - intros k j. destruct (S j) as (_ & _ & _ & ->). rewrite A2. apply G8.
Qed.

Lemma LinkParent_ok c lru par child p :
  links_ok c lru par -> live c child -> live c p -> tid (nd c child) = tid (nd c p) ->
  exists c' lru', LinkParent child p c = Ok c' /\ links_ok c' lru' (<[child := p]> par) /\ same_keys c c'.
Proof.
  intros H Hc Hp Ht. rewrite LinkParent_gain.
  destruct (decrease_parent_ok c lru par child H Hc) as (c1 & l1 & -> & G1 & K1 & _). cbn [mbind res_bind].
  pose proof (live_range _ _ _ _ H Hc) as Hcl. pose proof (index_bound _ _ _ _ H Hp) as Hpb.
  destruct (set_parent_graph c1 l1 (live c) (delete child par) child (Z.of_nat p) G1) as (c2 & -> & G2 & K2 & P2);
    [by rewrite (ke_len _ _ K1)|]. cbn [mbind res_bind].
  destruct (gain_child_ok c2 l1 (live c) (delete child par) child p G2) as (c3 & l3 & -> & G3 & K3);
    [apply lookup_delete_eq|done|by rewrite (sk_len _ _ K2), (ke_len _ _ K1)|].
  rewrite insert_delete_eq in G3. exists c3, l3. split; [done|].
  assert (same_keys c c3) as K.
  { eapply same_keys_trans; [by apply keeps_same_keys|]. eapply same_keys_trans; [exact K2|]. by apply keeps_same_keys. }
  split; [|done]. eapply stored_ok; [exact H|done|exact Hc|exact G3| | |exact K1|].
  - intros j Hj. by rewrite lookup_insert_ne by congruence.
  - intros q Hq. rewrite lookup_insert_eq in Hq. simplify_eq. done.
  - intros j. pose proof (ke_ident _ _ K3 j) as Kj. unfold ident in Kj. injection Kj as _ _ _ ->. rewrite P2, lookup_insert_eq.
    case_decide; [|done]. apply Z.mod_small. lia.
Qed.

Lemma UnlinkParent_ok c lru par child :
  links_ok c lru par -> live c child ->
  exists c' lru', UnlinkParent child c = Ok c' /\ links_ok c' lru' (delete child par) /\ same_keys c c'.
Proof.
  intros H Hc. unfold UnlinkParent.
  destruct (decrease_parent_ok c lru par child H Hc) as (c1 & l1 & -> & G1 & K1 & _). cbn [mbind res_bind].
  pose proof (live_range _ _ _ _ H Hc) as Hcl.
  destruct (set_parent_graph c1 l1 (live c) (delete child par) child 0 G1) as (c2 & -> & G2 & K2 & P2);
    [by rewrite (ke_len _ _ K1)|].
  exists c2, l1. split; [done|].
  assert (same_keys c c2) as K by (eapply same_keys_trans; [by apply keeps_same_keys|done]).
  split; [|done]. eapply stored_ok; [exact H|done|exact Hc|exact G2| | |exact K1|].
  - intros j Hj. by rewrite lookup_delete_ne by congruence.
  - intros q Hq. by rewrite lookup_delete_eq in Hq.
  - intros j. rewrite P2, lookup_delete_eq. done.
Qed.

(** * [GetNode] *)

Definition same_limits (c c' : LRUCache) : Prop :=
  max_node_count (cache_stat_ c') = max_node_count (cache_stat_ c) /\
  matched_node_count_to_extend_callchain (cache_stat_ c') = matched_node_count_to_extend_callchain (cache_stat_ c).

Lemma has_leaf c lru par : links_ok c lru par -> rooted par -> (0 < used c)%nat -> lru <> [].
Proof.
  intros H Hr Hu. destruct (rooted_has_leaf par (seq 1 (used c)) Hr) as (x & Hx & Hn).
  - destruct (used c); [lia|done].
  - intros i p Hp. pose proof (lk_dom _ _ _ H i p Hp) as Hi. apply elem_of_seq. unfold live in Hi. lia.
  - assert (live c x) as Hl by (apply elem_of_seq in Hx; unfold live; lia).
    assert (is_leaf (nd c x) = true) as Hf.
    { apply not_false_is_true. intros E. destruct (go_inner _ _ _ _ (lk_graph _ _ _ H) x Hl E) as [_ Hk]. apply Hk. by apply kids_0. }
    intros ->. pose proof (proj2 (go_lru _ _ _ _ (lk_graph _ _ _ H) x) (conj Hl Hf)) as Hin. by apply not_elem_of_nil in Hin.
Qed.

(** What [AllocNode] gives: a node not in use. *)
Lemma AllocNode_ok c lru par :
  links_ok c lru par -> rooted par ->
  exists c' k lru' par' (lv : nat -> Prop), AllocNode c = Ok (c', k) /\ graph_ok c' lru' lv par' /\ rooted par' /\
    ~ lv k /\ (0 < k < length (nodes_ c'))%nat /\ (forall j, live c' j <-> lv j \/ j = k) /\
    (forall j, live c j -> live c' j) /\ par' !! k = None /\ par' = delete k par /\
    (forall j, ident (nd c' j) = ident (nd c j)) /\ (forall key i, node_set_ c' !! key = Some i -> node_set_ c !! key = Some i) /\
    length (nodes_ c') = length (nodes_ c) /\ same_limits c c' /\
    0 <= used_node_count (cache_stat_ c') <= max_node_count (cache_stat_ c') /\
    ((used c < Z.to_nat (max_node_count (cache_stat_ c)))%nat -> k = S (used c) /\ used c' = S (used c) /\ node_set_ c' = node_set_ c).
Proof.
  intros H Hr. pose proof (lk_graph _ _ _ H) as G. pose proof (lo_len _ _ (go_list _ _ _ _ G)) as Hlen.
  pose proof (lk_len _ _ _ H) as Hml. pose proof (lk_used _ _ _ H) as Hu. pose proof (lk_max _ _ _ H) as Hm.
  unfold AllocNode. destruct (Z.ltb_spec (used_node_count (cache_stat_ c)) (max_node_count (cache_stat_ c))) as [Hlt|Hge].
  - rewrite u64_small by (unfold_u; lia). set (k := Z.to_nat (used_node_count (cache_stat_ c) + 1)).
    assert (k = S (used c)) as Ek by (unfold k, used; lia).
    assert (par !! k = None) as Hpk.
    { destruct (par !! k) as [p|] eqn:E; [|done]. pose proof (lk_dom _ _ _ H k p E) as Hd. unfold live in Hd. lia. }
    exists (set_used (used_node_count (cache_stat_ c) + 1) c), k, lru, par, (live c). split; [done|].
    split; [|split; [done|]].
    { destruct G as [[L1 L2 L3 L4] G2 G3 G4 G5 G6 G7 G8]. split; [split|..]; done. }
    split; [unfold live; lia|]. split; [cbn; unfold used in *; lia|]. split; [unfold live, used; cbn; intros j; unfold k, used in *; lia|].
    split; [unfold live, used; cbn; lia|]. split; [done|]. split; [by rewrite delete_id|]. split; [done|]. split; [done|]. split; [done|].
    split; [done|]. split; [cbn; lia|]. intros _. split; [done|]. split; [|done]. unfold used. cbn. lia.
  - assert (0 < used c)%nat as Hpos by (unfold used; lia). pose proof (has_leaf _ _ _ H Hr Hpos) as Hne.
    destruct lru as [|x l2]; [done|]. rewrite node_ok by lia. cbn [mbind res_bind].
    rewrite (dll_start _ _ _ _ (lo_dll _ _ (go_list _ _ _ _ G))). cbn [head default from_option id]. rewrite Nat2Z.id.
    destruct (remove_ok c [] x l2 (go_list _ _ _ _ G)) as (c1 & -> & L1 & R). cbn [mbind res_bind app] in *.
    pose proof (proj1 (go_lru _ _ _ _ G x) (list_elem_of_here _ _)) as [Hxl Hxf].
    pose proof (live_range _ _ _ _ H Hxl) as Hxr. rewrite node_ok by (by rewrite (re_len _ _ _ R)). cbn [mbind res_bind].
    set (c2 := set_node_set (delete (key_of (nd c1 x)) (node_set_ c1)) c1).
    pose proof (relinks_keeps _ _ _ R) as K1.
    pose proof (lo_nodup _ _ (go_list _ _ _ _ G)) as Hnd. apply NoDup_cons in Hnd as [Hx0 Hnd]. apply NoDup_cons in Hnd as [Hxn Hnd].
    assert (x ∉ 0%nat :: l2) as Hxout by (intros Hin; apply elem_of_cons in Hin as [->|Hin]; [unfold live in Hxl; lia|done]).
    pose proof (go_leaf _ _ _ _ G x Hxl Hxf) as Hkx. pose proof (proj1 (kids_0 par x) Hkx) as Hnok.
    assert (graph_ok c2 l2 (fun j => live c j /\ j <> x) par) as G2.
    { split.
      - destruct L1. by split.
      - intros i [Hi _]. cbn. rewrite (re_len _ _ _ R). by apply (go_live _ _ _ _ G).
      - intros i. change (nd c2 i) with (nd c1 i). rewrite (relinks_leaf _ _ _ _ R). pose proof (go_lru _ _ _ _ G i) as Hi.
        rewrite elem_of_cons in Hi. split.
        + intros Hin. assert (i <> x) by (intros ->; done). tauto.
        + intros [[? ?] ?]. tauto.
      - intros i p Hp. split; [by apply (go_par _ _ _ _ G i)|]. intros ->. by apply (Hnok i).
      - intros i p Hp. cbn. rewrite (re_len _ _ _ R). by apply (go_dom _ _ _ _ G i p).
      - intros i [Hi _]. change (nd c2 i) with (nd c1 i). rewrite (relinks_leaf _ _ _ _ R). by apply (go_leaf _ _ _ _ G).
      - intros i [Hi Hix]. change (nd c2 i) with (nd c1 i). rewrite (relinks_leaf _ _ _ _ R). intros Hf.
        rewrite (re_out _ _ _ R); [by apply (go_inner _ _ _ _ G)|].
        pose proof (not_leaf_not_in _ _ _ _ _ G Hi Hf). set_solver.
      - intros key i. change (nd c2 i) with (nd c1 i). cbn [node_set_ set_node_set c2].
        rewrite !(keeps_key _ _ _ K1), (ke_set _ _ K1), lookup_delete_Some, (go_set _ _ _ _ G). split.
        + intros (Hk & Hi & Hki). split; [split; [done|]|done]. intros ->. done.
        + intros ((Hi & Hix) & Hk). split; [|done]. intros Hkx'. apply Hix.
          assert (node_set_ c !! key = Some i) as E1 by (by apply (go_set _ _ _ _ G)).
          assert (node_set_ c !! key = Some x) as E2 by (by apply (go_set _ _ _ _ G)). congruence. }
    assert (parent_index (nd c2 x) = match par !! x with Some p => Z.of_nat p | None => 0 end) as Hst.
    { change (nd c2 x) with (nd c1 x). pose proof (ke_ident _ _ K1 x) as Ki. unfold ident in Ki. injection Ki as _ _ _ ->.
      by apply (lk_stored _ _ _ H). }
    assert (exists c3 l3, decrease_parent x c2 = Ok c3 /\ graph_ok c3 l3 (fun j => live c j /\ j <> x) (delete x par) /\ keeps c2 c3)
      as (c3 & l3 & -> & G3 & K3).
    { unfold decrease_parent. rewrite GetParent_ok by (cbn; by rewrite (re_len _ _ _ R)). rewrite Hst. cbn [mbind res_bind].
      destruct (par !! x) as [p|] eqn:E.
      - pose proof (go_par _ _ _ _ G x p E) as Hp. unfold live in Hp. destruct (Z.eqb_spec (Z.of_nat p) 0); [lia|]. rewrite Nat2Z.id.
        destruct (decrease_ok c2 l2 _ par x p G2 E) as (c3 & l3 & -> & ? & ? & _). by exists c3, l3.
      - exists c2, l2. rewrite delete_id by done. split; [done|]. split; [done|]. by split. }
    cbn [mbind res_bind]. set (c4 := set_recycled _ c3).
    assert (cache_stat_ c3 = cache_stat_ c) as S3.
    { rewrite (ke_stat _ _ K3). cbn. by rewrite (re_stat _ _ _ R). }
    assert (length (nodes_ c4) = length (nodes_ c)) as Hl4.
    { cbn. rewrite (ke_len _ _ K3). cbn. by rewrite (re_len _ _ _ R). }
    exists c4, x, l3, (delete x par), (fun j => live c j /\ j <> x). split; [done|].
    split; [destruct G3 as [[] ? ? ? ? ? ? ?]; split; [split|..]; done|].
    split; [by apply rooted_delete_leaf|]. split; [tauto|]. split; [rewrite Hl4; unfold live in Hxl; lia|].
    assert (forall j, live c4 j <-> live c j) as Hlv by (intros j; unfold live, used; cbn; by rewrite S3).
    split; [intros j; rewrite Hlv; destruct (decide (j = x)) as [->|]; tauto|]. split; [intros j; by apply Hlv|].
    split; [apply lookup_delete_eq|]. split; [done|].
    split; [intros j; change (nd c4 j) with (nd c3 j); rewrite (ke_ident _ _ K3); apply (ke_ident _ _ K1)|].
    split.
    { intros key i. cbn [node_set_ set_recycled c4]. rewrite (ke_set _ _ K3). cbn [node_set_ set_node_set c2].
      rewrite (ke_set _ _ K1). intros Hl. by apply lookup_delete_Some in Hl as [_ Hl]. }
    split; [done|]. split; [split; cbn; by rewrite S3|]. split; [cbn; rewrite S3; lia|]. unfold used. lia.
Qed.

Lemma GetNode_ok c lru par t i s :
  links_ok c lru par -> rooted par ->
  exists c' k lru' par', GetNode t i s c = Ok (c', k) /\ links_ok c' lru' par' /\ rooted par' /\ live c' k /\
    key_of (nd c' k) = (t, i, s) /\ (forall j, live c j -> live c' j) /\
    (forall j, live c j -> tid (nd c j) = t -> tid (nd c' j) = t) /\ same_limits c c' /\ (used c' <= S (used c))%nat /\
    (forall q, is_Some (node_set_ c' !! q) -> q = (t, i, s) \/ is_Some (node_set_ c !! q)) /\
    ((used c < Z.to_nat (max_node_count (cache_stat_ c)))%nat ->
       par' = par /\ (forall j, live c j -> key_of (nd c' j) = key_of (nd c j)) /\
       (FindNode c t i s = None -> k = S (used c))).
Proof.
  intros H Hr. pose proof (lk_graph _ _ _ H) as G. unfold GetNode. destruct (FindNode c t i s) as [k|] eqn:EF.
  - unfold FindNode in EF. pose proof (proj1 (go_set _ _ _ _ G _ _) EF) as [Hkl Hkk].
    pose proof (live_range _ _ _ _ H Hkl) as Hkr. rewrite node_ok by done. cbn [mbind res_bind].
    destruct (is_leaf (nd c k)) eqn:Hf; [|exists c, k, lru, par; split_and!; try done; [lia|by right]].
    pose proof (proj2 (go_lru _ _ _ _ G k) (conj Hkl Hf)) as Hin. apply list_elem_of_split in Hin as (l1 & l2 & ->).
    destruct (remove_ok c l1 k l2 (go_list _ _ _ _ G)) as (c1 & -> & L1 & R1). cbn [mbind res_bind].
    pose proof (lo_nodup _ _ (go_list _ _ _ _ G)) as Hd. change (0%nat :: l1 ++ k :: l2) with ((0%nat :: l1) ++ k :: l2) in Hd.
    rewrite <- Permutation_middle in Hd. apply NoDup_cons in Hd as [Hd _]. cbn [app] in Hd.
    destruct (append_ok c1 (l1 ++ l2) k L1 Hd) as (c2 & -> & L2 & R2); [by rewrite (re_len _ _ _ R1)|]. cbn [mbind res_bind].
    pose proof (relinks_keeps _ _ _ R1) as K1. pose proof (relinks_keeps _ _ _ R2) as K2.
    pose proof (keeps_trans _ _ _ K1 K2) as K. pose proof (keeps_same_keys _ _ K) as SK.
    assert (forall j, live c2 j <-> live c j) as Hlv by (intros j; by apply same_keys_live).
    assert (forall j, is_leaf (nd c2 j) = is_leaf (nd c j)) as Lf.
    { intros j. by rewrite (relinks_leaf _ _ _ _ R2), (relinks_leaf _ _ _ _ R1). }
    exists c2, k, ((l1 ++ l2) ++ [k]), par. split; [done|]. split; [split|].
    + split.
      * done.
      * intros j Hj. rewrite (ke_len _ _ K). apply (go_live _ _ _ _ G). by apply Hlv.
      * intros j. rewrite Hlv, Lf, <- (go_lru _ _ _ _ G j), !elem_of_app, list_elem_of_singleton, elem_of_cons. tauto.
      * intros j p Hp. apply Hlv. by apply (go_par _ _ _ _ G j).
      * intros j p Hp. rewrite (ke_len _ _ K). by apply (go_dom _ _ _ _ G j p).
      * intros j Hj. rewrite Lf. apply (go_leaf _ _ _ _ G). by apply Hlv.
      * intros j Hj. rewrite Lf. intros Hjf. apply Hlv in Hj. pose proof (not_leaf_not_in _ _ _ _ _ G Hj Hjf) as Hjn.
        rewrite (re_out _ _ _ R2), (re_out _ _ _ R1) by set_solver. by apply (go_inner _ _ _ _ G).
      * intros key j. rewrite Hlv, (ke_set _ _ K), (keeps_key _ _ _ K). apply (go_set _ _ _ _ G).
    + intros j Hj. pose proof (ke_ident _ _ K j) as Kj. unfold ident in Kj. injection Kj as _ _ _ ->. apply (lk_stored _ _ _ H). by apply Hlv.
    + intros j p Hp. apply Hlv. by apply (lk_dom _ _ _ H j p).
    + intros j p Hp. rewrite !(same_keys_tid _ _ _ SK). by apply (lk_tid _ _ _ H).
    + rewrite (ke_len _ _ K), (ke_stat _ _ K). apply H.
    + rewrite (ke_stat _ _ K). apply H.
    + rewrite (ke_stat _ _ K). apply H.
    + rewrite (ke_stat _ _ K). apply H.
    + split; [done|]. split; [by apply Hlv|]. split; [by rewrite (keeps_key _ _ _ K)|]. split; [intros j; by apply Hlv|].
      split; [intros j _; by rewrite (same_keys_tid _ _ _ SK)|]. unfold same_limits, used. rewrite (ke_stat _ _ K).
      split; [done|]. split; [lia|]. split; [intros q; rewrite (ke_set _ _ K); by right|].
      intros _. split; [done|]. split; [|done]. intros j _. by apply (sk_key _ _ SK).
  - unfold FindNode in EF.
    destruct (AllocNode_ok c lru par H Hr) as (c1 & k & l1 & par1 & lv & -> & G1 & Hr1 & Hnk & Hkr & Hlv & Hmono & Hpk & Hpar & Hid & Hset &
      Hlen & Hlim & Hu & Hroom). cbn [mbind res_bind].
    assert (node_set_ c1 !! (t, i, s) = None) as EF1.
    { destruct (node_set_ c1 !! (t, i, s)) as [j|] eqn:E; [|done]. apply Hset in E. congruence. }
    destruct (add_node_ok c1 l1 lv par1 k t i s G1 Hnk Hkr EF1) as (c2 & c3 & -> & E3 & G3 & Es & S3 & Hl3 & Ik & Ij & Eset).
    cbn [mbind res_bind]. rewrite Es, EF1. rewrite Es in E3. rewrite E3. cbn [mbind res_bind].
    assert (forall j, live c3 j <-> live c1 j) as Hl3' by (intros j; unfold live, used; by rewrite S3).
    assert (forall j, par1 !! j <> Some k) as Hnokid.
    { intros j Hj. apply Hnk. by apply (go_par _ _ _ _ G1 j). }
    exists c3, k, (l1 ++ [k]), par1. split; [done|]. split; [split|].
    + eapply graph_live_ext; [exact G3|]. intros j. by rewrite Hl3', Hlv.
    + intros j Hj. destruct (decide (j = k)) as [->|Hjk].
      * rewrite Hpk. unfold ident in Ik. by injection Ik.
      * specialize (Ij j Hjk). unfold ident in Ij. injection Ij as _ _ _ ->. specialize (Hid j). unfold ident in Hid.
        injection Hid as _ _ _ ->. subst par1. rewrite lookup_delete_ne by congruence.
        destruct (decide (live c j)) as [Hjl|Hjl]; [by apply (lk_stored _ _ _ H)|].
        exfalso. apply Hl3', Hlv in Hj as [Hj|Hj]; [|done]. apply Hjl.
        assert (live c1 j) as Hj1 by (apply Hlv; by left). clear -Hj1 Hjl Hroom Hjk Hlim Hu H.
        destruct (decide (used c < Z.to_nat (max_node_count (cache_stat_ c)))%nat) as [Hr|Hr].
        -- destruct (Hroom Hr) as (-> & Hu1 & _). unfold live in *. lia.
        -- destruct Hlim as [Hm _]. pose proof (lk_used _ _ _ H). unfold live, used in *. lia.
    + intros j p Hp. apply Hl3', Hlv. subst par1. apply lookup_delete_Some in Hp as [Hne Hp].
      destruct (proj1 (Hlv j)) as [?|?]; [|by left|congruence]. apply Hmono. by apply (lk_dom _ _ _ H j p).
    + intros j p Hp. assert (p <> k) by (intros ->; by apply (Hnokid j)). assert (j <> k) by congruence.
      pose proof (Ij j ltac:(done)) as I1. pose proof (Ij p ltac:(done)) as I2. unfold ident in I1, I2.
      injection I1 as _ _ -> _. injection I2 as _ _ -> _. pose proof (Hid j) as I3. pose proof (Hid p) as I4. unfold ident in I3, I4.
      injection I3 as _ _ -> _. injection I4 as _ _ -> _. apply (lk_tid _ _ _ H). subst par1. by apply lookup_delete_Some in Hp as [_ Hp].
    + rewrite Hl3, Hlen, S3. destruct Hlim as [-> _]. apply H.
    + rewrite S3. done.
    + rewrite S3. destruct Hlim as [-> _]. apply H.
    + rewrite S3. destruct Hlim as [_ ->]. apply H.
    + split; [done|]. split; [apply Hl3', Hlv; by right|].
      split; [unfold key_of; unfold ident in Ik; by injection Ik as -> -> ->|].
      split; [intros j Hj; by apply Hl3', Hmono|].
      assert (forall j, j <> k -> key_of (nd c3 j) = key_of (nd c j)) as Hkey.
      { intros j Hj. specialize (Ij j Hj). specialize (Hid j). unfold ident, key_of in *. congruence. }
      split.
      { intros j Hj Ht. destruct (decide (j = k)) as [->|Hjk]; [unfold ident in Ik; by injection Ik|].
        specialize (Hkey j Hjk). unfold key_of in Hkey. congruence. }
      unfold same_limits, used. rewrite S3. split; [exact Hlim|].
      assert (used c1 <= S (used c))%nat as Hu1.
      { destruct (decide (used c < Z.to_nat (max_node_count (cache_stat_ c)))%nat) as [Hr'|Hr']; [by destruct (Hroom Hr') as (_ & -> & _)|].
        destruct Hlim as [Hm _]. unfold used in *. lia. }
      split; [exact Hu1|]. split.
      { intros q [j Hq]. rewrite Eset in Hq. apply lookup_insert_Some in Hq as [[<- _]|[_ Hq]]; [by left|]. right. exists j. by apply Hset. }
      intros Hr'. destruct (Hroom Hr') as (Ek & _ & _). split.
      { rewrite Hpar. apply delete_id. destruct (par !! k) as [p|] eqn:E; [|done]. pose proof (lk_dom _ _ _ H k p E) as Hd.
        unfold live in Hd. lia. }
      split; [|done]. intros j Hj. apply Hkey. unfold live in Hj. lia.
Qed.

(** * The chain *)

Lemma build_chain_ok t ips : forall sps c lru par,
  links_ok c lru par -> rooted par -> length ips = length sps ->
  exists c' chain lru' par', build_chain t ips sps c = Ok (c', chain) /\ links_ok c' lru' par' /\ rooted par' /\
    length chain = length ips /\ Forall (fun k => live c' k /\ tid (nd c' k) = u32 t) chain /\
    (forall j, live c j -> live c' j) /\ (forall j, live c j -> tid (nd c j) = u32 t -> tid (nd c' j) = u32 t) /\
    same_limits c c' /\ (used c' <= used c + length ips)%nat /\
    (forall q, is_Some (node_set_ c' !! q) -> q ∈ zip_with (fun i s => (u32 t, i, s)) ips sps \/ is_Some (node_set_ c !! q)) /\
    ((used c + length ips <= Z.to_nat (max_node_count (cache_stat_ c)))%nat ->
       par' = par /\ (forall j, live c j -> key_of (nd c' j) = key_of (nd c j)) /\
       (fun k => key_of (nd c' k)) <$> chain = zip_with (fun i s => (u32 t, i, s)) ips sps).
Proof.
  induction ips as [|i ips IH]; intros [|s sps] c lru par H Hr Hl; try done.
  { exists c, [], lru, par. split_and!; try done; [cbn; lia|by right]. }
  cbn [build_chain]. destruct (GetNode_ok c lru par (u32 t) i s H Hr)
    as (c1 & k & l1 & par1 & -> & H1 & Hr1 & Hk1 & Hkey1 & Hlive1 & Htid1 & Hlim1 & Hu1 & Hset1 & Hroom1). cbn [mbind res_bind].
  destruct (IH sps c1 l1 par1 H1 Hr1 ltac:(by injection Hl))
    as (c2 & chain & l2 & par2 & -> & H2 & Hr2 & Hlen2 & Hch2 & Hlive2 & Htid2 & Hlim2 & Hu2 & Hset2 & Hroom2). cbn [mbind res_bind].
  exists c2, (k :: chain), l2, par2. split; [done|]. split; [done|]. split; [done|]. split; [cbn; by rewrite Hlen2|].
  split. { constructor; [|done]. split; [by apply Hlive2|]. apply Htid2; [done|]. unfold key_of in Hkey1. congruence. }
  split; [auto|]. split; [auto|]. split; [destruct Hlim1, Hlim2; split; congruence|].
  split; [cbn; lia|]. split.
  { intros q Hq. cbn [zip_with]. rewrite elem_of_cons. destruct (Hset2 q Hq) as [?|Hq1]; [by left; right|].
    destruct (Hset1 q Hq1) as [->|?]; [by left; left|by right]. }
  cbn [length]. intros Hroom. destruct Hroom1 as (E1 & K1 & _); [lia|].
  destruct Hroom2 as (E2 & K2 & Z2); [destruct Hlim1 as [-> _]; lia|].
  split; [congruence|]. split; [intros j Hj; rewrite K2, K1; auto|]. cbn [zip_with]. rewrite fmap_cons, Z2, K2, Hkey1 by done. done.
Qed.

Lemma check_top_ok c lru par chain : forall count pos,
  links_ok c lru par -> Forall (live c) chain -> 0 <= pos -> pos + 1 < zlen chain -> zlen chain < 2 ^ 64 ->
  exists b, check_top count pos chain c = Ok b.
Proof.
  intros count pos H Hch Hp Hpl Hz. induction count as [|count IH]; [by eexists|]. cbn [check_top].
  rewrite (u64_small (pos + 1)) by (unfold_u; lia). unfold znth.
  rewrite !(proj2 (Z.ltb_ge _ 0)) by lia.
  destruct (lookup_lt_is_Some_2 chain (Z.to_nat pos)) as [a Ha]; [unfold zlen in *; lia|].
  destruct (lookup_lt_is_Some_2 chain (Z.to_nat (pos + 1))) as [b Hb]; [unfold zlen in *; lia|].
  rewrite Ha, Hb. rewrite (GetParent_par _ _ _ _ H) by (by apply (Forall_lookup_1 _ _ _ _ Hch Ha)). cbn [mbind res_bind].
  destruct (bool_decide _); [done|by eexists].
Qed.

Lemma can_extend_ok c lru par chain :
  links_ok c lru par -> Forall (live c) chain -> zlen chain < 2 ^ 64 -> exists b, can_extend chain c = Ok b.
Proof.
  intros H Hch Hz. unfold can_extend. pose proof (lk_matched _ _ _ H) as Hm.
  set (m := matched_node_count_to_extend_callchain _) in *. destruct (Z.ltb_spec (zlen chain) m); [by eexists|].
  destruct (Z.eq_dec m 1) as [->|Hne]; [by eexists|].
  apply (check_top_ok _ _ _ _ _ _ H Hch); [|..|done]; rewrite u64_small by (unfold_u; lia); lia.
Qed.

(** The parents after step 3. *)
Fixpoint link_par (chain : list nat) (par : gmap nat nat) : gmap nat nat :=
  match chain with
  | a :: (b :: _) as rest => link_par rest (<[a := b]> par)
  | _ => par
  end.

Lemma link_par_cons a b l par : link_par (a :: b :: l) par = link_par (b :: l) (<[a := b]> par).
Proof. done. Qed.

Lemma link_chain_ok t chain : forall c lru par,
  links_ok c lru par -> Forall (fun k => live c k /\ tid (nd c k) = t) chain ->
  exists c' lru', link_chain chain c = Ok c' /\ links_ok c' lru' (link_par chain par) /\ same_keys c c'.
Proof.
  induction chain as [|a chain IH]; intros c lru par H Hch; [by exists c, lru; split_and!|].
  destruct chain as [|b chain]; [by exists c, lru; split_and!|]. rewrite link_par_cons. cbn [link_chain].
  apply Forall_cons in Hch as [[Ha Hta] Hch]. pose proof Hch as Hch'. apply Forall_cons in Hch' as [[Hb Htb] _].
  destruct (LinkParent_ok c lru par a b H Ha Hb) as (c1 & l1 & -> & H1 & K1); [congruence|]. cbn [mbind res_bind].
  destruct (IH c1 l1 _ H1) as (c2 & l2 & E2 & H2 & K2).
  { eapply Forall_impl; [exact Hch|]. intros k [Hk Ht]. by rewrite (same_keys_live _ _ _ K1), (same_keys_tid _ _ _ K1). }
  exists c2, l2. split; [done|]. split; [done|]. by eapply same_keys_trans.
Qed.

Lemma link_par_notin x l : forall par, x ∉ l -> link_par l par !! x = par !! x.
Proof.
  induction l as [|a l IH]; intros par Hx; [done|]. destruct l as [|b l]; [done|]. rewrite link_par_cons.
  apply not_elem_of_cons in Hx as [Hxa Hx]. rewrite IH by done. by rewrite lookup_insert_ne by congruence.
Qed.

(** The last link of a node stays. *)
Lemma link_par_lookup pre x y l : forall par, x ∉ y :: l -> link_par (pre ++ x :: y :: l) par !! x = Some y.
Proof.
  induction pre as [|a pre IH]; intros par Hx.
  - cbn [app]. rewrite link_par_cons, (link_par_notin x (y :: l)) by done. apply lookup_insert_eq.
  - cbn [app]. destruct (pre ++ x :: y :: l) as [|b r] eqn:E; [by destruct pre|]. rewrite link_par_cons. by apply IH.
Qed.

(** Without the link of its last node, a chain makes no loop. *)
Lemma rooted_link chain back par :
  rooted par -> last chain = Some back -> rooted (delete back (link_par chain par)).
Proof.
  intros Hr Hb. set (D := delete back (link_par chain par)).
  assert (forall l pre, chain = pre ++ l -> forall x, x ∈ l -> exists n, depth D x n) as Hc.
  { induction l as [|x l IH]; intros pre E y Hy; [by apply not_elem_of_nil in Hy|].
    assert (forall z, z ∈ l -> exists n, depth D z n) as IH' by (apply (IH (pre ++ [x])); by rewrite <- app_assoc).
    apply elem_of_cons in Hy as [->|Hy]; [|by apply IH']. destruct (decide (x ∈ l)) as [Hxl|Hxl]; [by apply IH'|].
    destruct l as [|z l].
    - rewrite E, last_snoc in Hb. injection Hb as ->. exists 0%nat. constructor. apply lookup_delete_eq.
    - destruct (IH' z (list_elem_of_here _ _)) as [n Hn]. exists (S n). econstructor; [|exact Hn].
      assert (back ∈ z :: l) as Hbl.
      { rewrite E, last_app_cons, last_cons_cons in Hb. by apply last_Some_elem_of. }
      unfold D. rewrite lookup_delete_ne by (intros ->; done). rewrite E. by apply link_par_lookup. }
  intros i. destruct (Hr i) as [n Hn]. induction Hn as [i Hi|i p n Hi _ IH];
    (destruct (decide (i ∈ chain)) as [Hin|Hin]; [by apply (Hc chain [])|]);
    (assert (D !! i = par !! i) as E by (unfold D; rewrite lookup_delete_ne;
      [by apply link_par_notin|intros ->; apply Hin; by apply last_Some_elem_of])).
  - exists 0%nat. constructor. congruence.
  - destruct IH as [m Hm]. exists (S m). econstructor; [|exact Hm]. congruence.
Qed.

(** * The extension *)

(** The frames of the ancestors of a node. *)
Inductive ancestors (par : gmap nat nat) (c : LRUCache) : nat -> list nat -> Prop :=
| anc_root i : par !! i = None -> ancestors par c i []
| anc_parent i p l : par !! i = Some p -> ancestors par c p l -> ancestors par c i (p :: l).

Definition frame (c : LRUCache) (k : nat) : Z * Z := (ip (nd c k), sp (nd c k)).

Lemma ancestors_depth par c i l : ancestors par c i l -> depth par i (length l).
Proof. induction 1; [by constructor|cbn; by econstructor]. Qed.

Lemma has_loop_ok c top l : Forall (fun k => (k < length (nodes_ c))%nat) l -> exists b, has_loop top l c = Ok b.
Proof.
  induction 1 as [|k l Hk _ [b IH]]; [by eexists|]. cbn [has_loop]. rewrite node_ok by done. cbn [mbind res_bind].
  destruct (_ =? _); [|by eexists]. destruct (_ =? _); [by eexists|]. rewrite IH. by eexists.
Qed.

(** The loop test for the parent [p] of a node. *)
Definition loop_test (c : LRUCache) (chain : list nat) (back p : nat) : res bool :=
  if sp (nd c p) =? sp (nd c back) then has_loop (nd c p) (rev chain) c else Ok false.

Lemma extend_step fuel top chain back c lru par p :
  links_ok c lru par -> live c top -> live c back -> par !! top = Some p ->
  extend (S fuel) top chain back c =
  match loop_test c chain back p with
  | Ok true => Some (Ok None)
  | Ok false => match extend fuel p chain back c with
                | Some (Ok (Some l)) => Some (Ok (Some (frame c p :: l)))
                | r => r
                end
  | CheckFailed => Some CheckFailed
  | OutOfBounds => Some OutOfBounds
  end.
Proof.
  intros H Ht Hb Hp. cbn [extend]. rewrite (GetParent_par _ _ _ _ H Ht), Hp.
  pose proof (go_par _ _ _ _ (lk_graph _ _ _ H) _ _ Hp) as Hpl.
  rewrite !node_ok by (by eapply live_range). cbn [mbind res_bind]. unfold loop_test.
  destruct (sp (nd c p) =? sp (nd c back)); [|done]. destruct (has_loop _ _ _) as [[]| |]; done.
Qed.

Section walk.
Context (c : LRUCache) (lru : list nat) (par : gmap nat nat) (chain : list nat) (back : nat).
Context (H : links_ok c lru par) (Hch : Forall (live c) chain) (Hb : last chain = Some back).

Lemma back_live : live c back.
Proof. rewrite Forall_forall in Hch. apply Hch. by apply last_Some_elem_of. Qed.

Lemma loop_test_total p : exists b, loop_test c chain back p = Ok b.
Proof.
  unfold loop_test. destruct (_ =? _); [|by eexists]. apply has_loop_ok. rewrite Forall_forall in *. intros k Hk.
  eapply live_range; [exact H|]. apply Hch. apply list_elem_of_In, in_rev. by apply list_elem_of_In.
Qed.

(** Coming back to the top of the chain is a loop. *)
Lemma loop_test_back : loop_test c chain back back = Ok true.
Proof.
  unfold loop_test. rewrite Z.eqb_refl. destruct (proj1 (last_Some _ _) Hb) as [l E]. rewrite E, rev_app_distr. cbn [rev app has_loop].
  rewrite node_ok by (eapply live_range; [exact H|apply back_live]). cbn [mbind res_bind]. by rewrite !Z.eqb_refl.
Qed.

Lemma walk_ok n : forall fuel i,
  depth (delete back par) i n -> live c i -> i <> back -> (n < fuel)%nat ->
  exists r, extend fuel i chain back c = Some (Ok r) /\
    forall l, r = Some l -> exists ks, ancestors par c i ks /\ l = frame c <$> ks.
Proof.
  induction n as [|n IH]; intros fuel i Hd Hi Hne Hf; (destruct fuel as [|fuel]; [lia|]); inversion Hd as [? Hp|? p m Hp Hd']; subst;
    rewrite lookup_delete_ne in Hp by congruence.
  - exists (Some []). cbn [extend]. rewrite (GetParent_par _ _ _ _ H Hi), Hp. split; [done|]. intros l [= <-].
    exists []. split; [by constructor|done].
  - rewrite (extend_step _ _ _ _ _ _ _ _ H Hi back_live Hp).
    destruct (decide (p = back)) as [->|Hpb]; [rewrite loop_test_back; by exists None|].
    destruct (loop_test_total p) as [[] ->]; [by exists None|].
    destruct (IH fuel p Hd') as (r & -> & Hr); [by apply (go_par _ _ _ _ (lk_graph _ _ _ H) i)|done|lia|].
    destruct r as [l|]; [|by exists None]. exists (Some (frame c p :: l)). split; [done|]. intros l' [= <-].
    destruct (Hr l eq_refl) as (ks & Hks & ->). exists (p :: ks). split; [by econstructor|done].
Qed.

(** Distinct ancestors. *)
Lemma depth_path (D : gmap nat nat) i n :
  depth D i n -> exists l, length l = S n /\ NoDup l /\ (forall x, x ∈ l -> x = i \/ exists j, D !! j = Some x) /\
    forall x, x ∈ l -> exists m, depth D x m /\ (m <= n)%nat.
Proof.
  induction 1 as [i Hi|i p n Hi Hd (l & Hl & Hnd & Hin & Hm)].
  - exists [i]. split_and!; [done|apply NoDup_singleton| |]; intros x Hx; apply list_elem_of_singleton in Hx as ->; [by left|].
    exists 0%nat. split; [by constructor|done].
  - exists (i :: l). split; [cbn; by rewrite Hl|]. pose proof (depth_child _ _ _ _ Hi Hd) as Hid. split_and!.
    + constructor; [|done]. intros Hx. destruct (Hm i Hx) as (m & Hdm & Hle). rewrite (depth_fun _ _ _ _ Hdm Hid) in Hle. lia.
    + intros x Hx. apply elem_of_cons in Hx as [->|Hx]; [by left|]. right. destruct (Hin x Hx) as [->|?]; [by exists i|done].
    + intros x Hx. apply elem_of_cons in Hx as [->|Hx]; [by exists (S n)|]. destruct (Hm x Hx) as (m & ? & ?). exists m. split; [done|lia].
Qed.

Lemma depth_bound i n : depth (delete back par) i n -> live c i -> (n < used c)%nat.
Proof.
  intros Hd Hi. destruct (depth_path _ _ _ Hd) as (l & Hl & Hnd & Hin & _).
  assert (length l <= length (seq 1 (used c)))%nat as Hle.
  { apply NoDup_incl_length; [by apply NoDup_ListNoDup|]. intros x Hx. apply list_elem_of_In in Hx. apply in_seq.
    destruct (Hin x Hx) as [->|[j Hj]]; [unfold live in Hi; lia|]. apply lookup_delete_Some in Hj as [_ Hj].
    pose proof (go_par _ _ _ _ (lk_graph _ _ _ H) j x Hj) as Hlx. unfold live in Hlx. lia. }
  rewrite length_seq in Hle. lia.
Qed.

Lemma extend_ok :
  rooted (delete back par) ->
  exists r, extend (length (nodes_ c)) back chain back c = Some (Ok r) /\
    forall l, r = Some l -> exists ks, ancestors par c back ks /\ l = frame c <$> ks.
Proof.
  intros Hr. pose proof (lk_len _ _ _ H) as Hlen. pose proof (lk_used _ _ _ H) as Hu. pose proof (lk_max _ _ _ H) as Hm.
  destruct (length (nodes_ c)) as [|fuel] eqn:El; [lia|]. destruct (par !! back) as [p|] eqn:Hp.
  - rewrite (extend_step _ _ _ _ _ _ _ _ H back_live back_live Hp).
    destruct (decide (p = back)) as [->|Hpb]; [rewrite loop_test_back; by exists None|].
    destruct (loop_test_total p) as [[] ->]; [by exists None|].
    pose proof (go_par _ _ _ _ (lk_graph _ _ _ H) back p Hp) as Hpl. destruct (Hr p) as [n Hn].
    pose proof (depth_bound p n Hn Hpl) as Hnb. unfold used in Hnb.
    destruct (walk_ok n fuel p Hn Hpl Hpb) as (r & -> & Hrl); [lia|].
    destruct r as [l|]; [|by exists None]. exists (Some (frame c p :: l)). split; [done|]. intros l' [= <-].
    destruct (Hrl l eq_refl) as (ks & Hks & ->). exists (p :: ks). split; [by econstructor|done].
  - exists (Some []). cbn [extend]. rewrite (GetParent_par _ _ _ _ H back_live), Hp. split; [done|]. intros l [= <-].
    exists []. split; [by constructor|done].
Qed.
End walk.

(** No loop through the top of the chain, no loop at all. *)
Lemma rooted_undelete par back n : rooted (delete back par) -> depth par back n -> rooted par.
Proof.
  intros Hr Hb i. destruct (Hr i) as [m Hm]. induction Hm as [i Hi|i p m Hi _ [k IH]].
  - destruct (decide (i = back)) as [->|Hne]; [by eexists|]. rewrite lookup_delete_ne in Hi by congruence.
    exists 0%nat. by constructor.
  - apply lookup_delete_Some in Hi as [_ Hi]. exists (S k). by econstructor.
Qed.

Definition cache_ok (c : LRUCache) : Prop := exists lru par, links_ok c lru par /\ rooted par.

Lemma ancestors_tid c lru par i l :
  links_ok c lru par -> live c i -> ancestors par c i l -> Forall (fun k => live c k /\ tid (nd c k) = tid (nd c i)) l.
Proof.
  intros H Hi Ha. induction Ha as [i _|i p l Hp Ha IH]; [constructor|].
  pose proof (go_par _ _ _ _ (lk_graph _ _ _ H) i p Hp) as Hl. pose proof (lk_tid _ _ _ H i p Hp) as Ht.
  constructor; [done|]. eapply Forall_impl; [by apply IH|]. intros k [? ?]. split; congruence.
Qed.

Lemma cached_frame c lru par k : links_ok c lru par -> live c k -> FindNode c (tid (nd c k)) (ip (nd c k)) (sp (nd c k)) = Some k.
Proof. intros H Hk. unfold FindNode. by apply (go_set _ _ _ _ (lk_graph _ _ _ H)). Qed.

Lemma ancestors_length c lru par i l :
  links_ok c lru par -> live c i -> ancestors par c i l -> (length l < used c)%nat.
Proof.
  intros H Hi Ha. destruct (depth_path _ _ _ (ancestors_depth _ _ _ _ Ha)) as (q & Hq & Hnd & Hin & _).
  assert (length q <= length (seq 1 (used c)))%nat as Hle.
  { apply NoDup_incl_length; [by apply NoDup_ListNoDup|]. intros k Hkin. apply list_elem_of_In in Hkin. apply in_seq.
    destruct (Hin k Hkin) as [->|[j Hj]]; [unfold live in Hi; lia|].
    pose proof (go_par _ _ _ _ (lk_graph _ _ _ H) j k Hj) as Hk. unfold live in Hk. lia. }
  rewrite length_seq in Hle. lia.
Qed.

(** One call, whatever the chain and the state: what it returns and what the
    cache holds afterwards. *)
Lemma AddCallChain_total t ips sps c :
  cache_ok c -> ips <> [] -> length ips = length sps -> zlen ips < 2 ^ 64 ->
  exists c' ext, AddCallChain t ips sps c = Some (Ok (c', ips ++ (fst <$> ext), sps ++ (snd <$> ext))) /\ cache_ok c' /\
    same_limits c c' /\ (forall f, f ∈ ext -> is_Some (FindNode c' (u32 t) f.1 f.2)) /\
    (forall q, is_Some (node_set_ c' !! q) -> q ∈ zip_with (fun i s => (u32 t, i, s)) ips sps \/ is_Some (node_set_ c !! q)) /\
    Z.of_nat (length ext) <= max_node_count (cache_stat_ c).
Proof.
  intros (lru & par & H & Hr) Hne Hl Hz. unfold AddCallChain.
  destruct (build_chain_ok t ips sps c lru par H Hr Hl)
    as (c1 & chain & l1 & par1 & -> & H1 & Hr1 & Hlen & Hch & _ & _ & Hlim1 & _ & Hset1 & _). cbn [mbind res_bind].
  assert (Forall (live c1) chain) as Hch1 by (eapply Forall_impl; [exact Hch|]; by intros k [? _]).
  destruct (can_extend_ok c1 l1 par1 chain H1 Hch1) as [e ->]; [unfold zlen in *; lia|]. cbn [mbind res_bind].
  destruct (link_chain_ok (u32 t) chain c1 l1 par1 H1 Hch) as (c2 & l2 & -> & H2 & K2). cbn [mbind res_bind].
  destruct (last chain) as [back|] eqn:Hb; [|apply last_None in Hb; subst; by destruct ips].
  pose proof (rooted_link chain back par1 Hr1 Hb) as Hd. set (par2 := link_par chain par1) in *.
  assert (Forall (live c2) chain) as Hch2.
  { eapply Forall_impl; [exact Hch1|]. intros k Hk. by apply (same_keys_live _ _ _ K2). }
  pose proof (back_live c2 chain back Hch2 Hb) as Hbl.
  assert (same_limits c c2) as Hlim2 by (unfold same_limits; by rewrite (sk_stat _ _ K2)).
  pose proof (lk_max _ _ _ H) as Hmax. rewrite <- (sk_set _ _ K2) in Hset1.
  destruct (UnlinkParent_ok c2 l2 par2 back H2 Hbl) as (c3 & l3 & E3 & H3 & K3).
  assert (exists c' ext, Some (c' ← UnlinkParent back c2; Ok (c', ips, sps)) = Some (Ok (c', ips ++ (fst <$> ext), sps ++ (snd <$> ext))) /\
    cache_ok c' /\ same_limits c c' /\ (forall f, f ∈ ext -> is_Some (FindNode c' (u32 t) f.1 f.2)) /\
    (forall q, is_Some (node_set_ c' !! q) -> q ∈ zip_with (fun i s => (u32 t, i, s)) ips sps \/ is_Some (node_set_ c !! q)) /\
    Z.of_nat (length ext) <= max_node_count (cache_stat_ c)) as Hun.
  { rewrite E3. exists c3, []. cbn [mbind res_bind fmap list_fmap length]. rewrite !app_nil_r. split; [done|]. split; [by exists l3, (delete back par2)|].
    split; [unfold same_limits in *; by rewrite (sk_stat _ _ K3)|]. split; [intros f Hf; by apply not_elem_of_nil in Hf|].
    split; [by rewrite (sk_set _ _ K3)|lia]. }
  destruct e; [|done].
  destruct (extend_ok c2 l2 par2 chain back H2 Hch2 Hb Hd) as (r & -> & Hrl). destruct r as [l|]; [|done].
  destruct (Hrl l eq_refl) as (ks & Hks & ->). exists c2, (frame c2 <$> ks). split; [done|].
  split; [exists l2, par2; split; [done|]; by eapply rooted_undelete; [|eapply ancestors_depth]|]. split; [done|].
  split; [|split; [done|]].
  - intros f Hf. apply list_elem_of_fmap in Hf as (k & -> & Hk).
    pose proof (ancestors_tid _ _ _ _ _ H2 Hbl Hks) as Ht. rewrite Forall_forall in Ht. destruct (Ht k Hk) as [Hkl Hkt].
    exists k. cbn [frame fst snd]. replace (u32 t) with (tid (nd c2 k)); [by eapply cached_frame|].
    rewrite Hkt, (same_keys_tid _ _ _ K2). rewrite Forall_forall in Hch. apply Hch. by apply last_Some_elem_of.
  - rewrite length_fmap. pose proof (ancestors_length _ _ _ _ _ H2 Hbl Hks) as Hal. pose proof (lk_used _ _ _ H2) as Hu2.
    destruct Hlim2 as [Hm2 _]. unfold used in Hal. lia.
Qed.

(** C1: the cache of call chains is safe for any chain that is not empty and has as
    many stack pointers as addresses, less than 2^64, and for any size: from a
    state that satisfies the invariant (a doubly linked list of exactly the
    leaves, right child counts, a forest, an exact index of the nodes),
    [AddCallChain] stays within the array, terminates, keeps the invariant and
    returns the given chain, extended at the end only, by frames that are
    cached for the same thread. *)
Theorem AddCallChain_safe t ips sps c :
  cache_ok c -> ips <> [] -> length ips = length sps -> zlen ips < 2 ^ 64 ->
  exists c' ext, AddCallChain t ips sps c = Some (Ok (c', ips ++ (fst <$> ext), sps ++ (snd <$> ext))) /\ cache_ok c' /\
    same_limits c c' /\ forall f, f ∈ ext -> is_Some (FindNode c' (u32 t) f.1 f.2).
Proof.
  intros Hok Hne Hl Hz. destruct (AddCallChain_total t ips sps c Hok Hne Hl Hz) as (c' & ext & E & Hok' & Hlim & Hf & _).
  by exists c', ext.
Qed.

(** * A new cache *)

Lemma new_cache_ok undef cache_size matched :
  2 <= cache_size / sizeof_CacheNode < 2 ^ 31 - 1 -> 1 <= matched ->
  exists c, LRUCache_new undef cache_size matched = Ok c /\ cache_ok c /\ used c = 0%nat /\
    max_node_count (cache_stat_ c) = cache_size / sizeof_CacheNode /\
    matched_node_count_to_extend_callchain (cache_stat_ c) = matched /\ node_set_ c = ∅.
Proof.
  intros [H1 H2] Hm. unfold LRUCache_new. rewrite !CHECK_le by done. cbn [mbind res_bind].
  set (max := cache_size / sizeof_CacheNode) in *. eexists. split; [done|]. split; [|done].
  assert (forall i, ~ live (mkLRU (mkNode (ip undef) (sp undef) (tid undef) true 0 0 0 :: replicate (Z.to_nat max) undef) ∅
    (mkStat cache_size matched max 0 0)) i) as Hno by (intros i; unfold live, used; cbn; lia).
  exists [], ∅. split; [split|]; cbn [cache_stat_ max_node_count used_node_count nodes_ matched_node_count_to_extend_callchain];
    try lia; try (intros i p Hp; by rewrite lookup_empty in Hp).
  - split; try (intros i Hi; by apply Hno in Hi); try (intros i p Hp; by rewrite lookup_empty in Hp).
    + split; [apply NoDup_singleton|by vm_compute|apply Forall_singleton; cbn; lia|].
      cbn [nodes_ length]. rewrite length_replicate. lia.
    + intros i. split; [intros Hi; by apply not_elem_of_nil in Hi|]. intros [Hi _]. by apply Hno in Hi.
    + intros k i. cbn [node_set_]. rewrite lookup_empty. split; [done|]. intros [Hi _]. by apply Hno in Hi.
  - intros i Hi. by apply Hno in Hi.
  - cbn [length]. rewrite length_replicate. lia.
  - intros i. exists 0%nat. constructor. apply lookup_empty.
Qed.

(** * Joining *)

(** The nodes of a completed chain: each the parent of the one before. *)
Fixpoint path (par : gmap nat nat) (l : list nat) : Prop :=
  match l with
  | [] => True
  | a :: l' => par !! a = head l' /\ path par l'
  end.

Lemma path_app par l1 a l2 : path par (l1 ++ a :: l2) -> path par (a :: l2).
Proof. induction l1 as [|b l1 IH]; [done|]. intros [_ H]. by apply IH. Qed.

Lemma path_ancestors par c l : forall a, path par (a :: l) -> ancestors par c a l.
Proof.
  induction l as [|b l IH]; intros a [H1 H2]; [by constructor|]. econstructor; [exact H1|]. by apply IH.
Qed.

Lemma ancestors_path par c a l : ancestors par c a l -> path par (a :: l).
Proof. induction 1 as [i Hi|i p l Hp _ IH]; [done|]. split; [exact Hp|exact IH]. Qed.

(** Linking a chain of distinct nodes whose last one leads to [l]. *)
Lemma link_path chain back l par :
  NoDup (chain ++ [back]) -> path (link_par (chain ++ [back]) par) (back :: l) ->
  path (link_par (chain ++ [back]) par) (chain ++ back :: l).
Proof.
  intros Hnd Hp. assert (forall suf pre, chain = pre ++ suf -> path (link_par (chain ++ [back]) par) (suf ++ back :: l)) as Hs.
  2:{ by apply (Hs chain []). }
  induction suf as [|a suf IH]; intros pre E; [done|]. cbn [app path]. split; [|apply (IH (pre ++ [a])); by rewrite <- app_assoc].
  rewrite E in Hnd |- *. rewrite <- app_assoc in Hnd |- *. cbn [app] in Hnd |- *. apply NoDup_app in Hnd as (_ & _ & Hnd).
  apply NoDup_cons in Hnd as [Ha _]. destruct suf as [|b suf]; cbn [app head] in Ha |- *; by apply link_par_lookup.
Qed.


Lemma same_key_node c lru par i j : links_ok c lru par -> live c i -> live c j -> key_of (nd c i) = key_of (nd c j) -> i = j.
Proof.
  intros H Hi Hj E. pose proof (proj2 (go_set _ _ _ _ (lk_graph _ _ _ H) _ i) (conj Hi eq_refl)) as E1.
  pose proof (proj2 (go_set _ _ _ _ (lk_graph _ _ _ H) _ j) (conj Hj eq_refl)) as E2. rewrite E in E1. congruence.
Qed.

Definition keys (t : Z) (l : list (Z * Z)) : list key := (fun f => (u32 t, f.1, f.2)) <$> l.
Definition node_keys (c : LRUCache) (l : list nat) : list key := (fun k => key_of (nd c k)) <$> l.

Lemma keys_zip t l : zip_with (fun i s => (u32 t, i, s)) (fst <$> l) (snd <$> l) = keys t l.
Proof. induction l as [|f l IH]; [done|]. unfold keys in *. rewrite !fmap_cons. cbn [zip_with]. by rewrite IH. Qed.

Lemma node_keys_NoDup c lru par l :
  links_ok c lru par -> Forall (live c) l -> NoDup (node_keys c l) -> NoDup l.
Proof. intros _ _ H. by apply NoDup_fmap_1 in H. Qed.

Lemma same_keys_nodes c c' l : same_keys c c' -> node_keys c' l = node_keys c l.
Proof. intros K. unfold node_keys. apply list_fmap_ext. intros i k _. apply (sk_key _ _ K). Qed.

Lemma keys_inj t a b : keys t a = keys t b -> a = b.
Proof. intros H. unfold keys in H. apply list_fmap_eq_inj in H; [done|]. intros [x1 x2] [y1 y2] [= -> ->]. done. Qed.

(** One call without recycling: the cache holds the completed chain as a path. *)
Lemma AddCallChain_path t a c :
  cache_ok c -> a <> [] -> NoDup a -> matched_node_count_to_extend_callchain (cache_stat_ c) = 1 ->
  (used c + length a <= Z.to_nat (max_node_count (cache_stat_ c)))%nat -> zlen a < 2 ^ 64 ->
  exists c' ext lru par l, AddCallChain t (fst <$> a) (snd <$> a) c = Some (Ok (c', fst <$> a ++ ext, snd <$> a ++ ext)) /\
    links_ok c' lru par /\ rooted par /\ same_limits c c' /\ (used c' <= used c + length a)%nat /\
    Forall (live c') l /\ node_keys c' l = keys t (a ++ ext) /\ path par l.
Proof.
  intros (lru & par & H & Hr) Hne Hnd Hm Hroom Hz.
  assert (fst <$> a <> []) as Hne1 by by destruct a.
  destruct (build_chain_ok t (fst <$> a) (snd <$> a) c lru par H Hr) as (c1 & chain & l1 & par1 & Eb & H1 & Hr1 & Hlen & Hch & _ & _ & Hlim1 & Hu1 & _ & Hnr);
    [by rewrite !length_fmap|].
  rewrite length_fmap in *. destruct (Hnr Hroom) as (-> & _ & Hk1). rewrite keys_zip in Hk1. fold (node_keys c1 chain) in Hk1.
  assert (Forall (live c1) chain) as Hch1 by (eapply Forall_impl; [exact Hch|]; by intros k [? _]).
  assert (NoDup chain) as Hnc.
  { eapply node_keys_NoDup; [exact H1|done|]. rewrite Hk1. unfold keys. apply NoDup_fmap_2; [|done].
    intros [x1 x2] [y1 y2] [= -> ->]. done. }
  destruct (link_chain_ok (u32 t) chain c1 l1 par H1 Hch) as (c2 & l2 & El & H2 & K2).
  destruct (last chain) as [back|] eqn:Hb; [|apply last_None in Hb; subst; by destruct a].
  pose proof (rooted_link chain back par Hr1 Hb) as Hd. set (par2 := link_par chain par) in *.
  assert (Forall (live c2) chain) as Hch2.
  { eapply Forall_impl; [exact Hch1|]. intros k Hk. by apply (same_keys_live _ _ _ K2). }
  pose proof (back_live c2 chain back Hch2 Hb) as Hbl.
  assert (can_extend chain c1 = Ok true) as Ec.
  { unfold can_extend. destruct Hlim1 as [_ ->]. rewrite Hm. destruct (Z.ltb_spec (zlen chain) 1); [|done].
    unfold zlen in *. destruct a; [done|]. cbn in Hlen. lia. }
  apply last_Some in Hb as [pre Epre].
  assert (same_limits c c2) as Hlim2 by (unfold same_limits; by rewrite (sk_stat _ _ K2)).
  assert (used c2 <= used c + length a)%nat as Hu2 by (unfold used in *; by rewrite (sk_stat _ _ K2)).
  destruct (extend_ok c2 l2 par2 chain back H2 Hch2) as (r & Er & Hrl); [by rewrite Epre, last_snoc|done|].
  destruct r as [fr|].
  - destruct (Hrl fr eq_refl) as (ks & Hks & ->).
    exists c2, (frame c2 <$> ks), l2, par2, (chain ++ ks). split.
    { unfold AddCallChain. rewrite Eb. cbn [mbind res_bind]. rewrite Ec. cbn [mbind res_bind]. rewrite El. cbn [mbind res_bind].
      rewrite Epre, last_snoc, <- Epre, Er. by rewrite !fmap_app. }
    split; [done|]. split; [by eapply rooted_undelete; [|eapply ancestors_depth]|]. split; [done|]. split; [done|].
    pose proof (ancestors_tid _ _ _ _ _ H2 Hbl Hks) as Ht.
    split; [apply Forall_app; split; [done|]; eapply Forall_impl; [exact Ht|]; by intros k [? _]|].
    split.
    + unfold node_keys, keys. rewrite !fmap_app. f_equal.
      * fold (node_keys c2 chain). rewrite (same_keys_nodes _ _ _ K2). exact Hk1.
      * rewrite <- list_fmap_compose. apply list_fmap_ext. intros i k Hk. rewrite Forall_lookup in Ht. destruct (Ht i k Hk) as [_ Hkt].
        unfold key_of. cbn. rewrite Hkt. do 2 f_equal. rewrite (same_keys_tid _ _ _ K2). rewrite Forall_forall in Hch. apply Hch.
        rewrite Epre. apply elem_of_app. right. apply list_elem_of_here.
    + rewrite Epre, <- app_assoc. cbn [app]. rewrite Epre in Hnc. unfold par2. rewrite Epre. apply link_path; [done|].
      rewrite <- Epre. by eapply ancestors_path.
  - destruct (UnlinkParent_ok c2 l2 par2 back H2 Hbl) as (c3 & l3 & E3 & H3 & K3).
    exists c3, [], l3, (delete back par2), chain. rewrite app_nil_r. split.
    { unfold AddCallChain. rewrite Eb. cbn [mbind res_bind]. rewrite Ec. cbn [mbind res_bind]. rewrite El. cbn [mbind res_bind].
      rewrite Epre, last_snoc, <- Epre, Er, E3. done. }
    split; [done|]. split; [done|]. split; [unfold same_limits in *; by rewrite (sk_stat _ _ K3)|].
    split; [unfold used in *; by rewrite (sk_stat _ _ K3)|].
    split; [eapply Forall_impl; [exact Hch2|]; intros k Hk; by apply (same_keys_live _ _ _ K3)|].
    split; [by rewrite (same_keys_nodes _ _ _ K3), (same_keys_nodes _ _ _ K2)|].
    rewrite Epre in Hnc |- *. clear -Hnc Epre. unfold par2. rewrite Epre. clear Epre.
    assert (forall suf p, pre = p ++ suf -> path (delete back (link_par (pre ++ [back]) par)) (suf ++ [back])) as Hs.
    2:{ by apply (Hs pre []). }
    induction suf as [|x suf IH]; intros p E.
    { split; [apply lookup_delete_eq|done]. }
    cbn [app path]. split; [|apply (IH (p ++ [x])); by rewrite <- app_assoc].
    rewrite E in Hnc |- *. rewrite <- app_assoc in Hnc |- *. cbn [app] in Hnc |- *.
    apply NoDup_app in Hnc as (_ & _ & Hnc). apply NoDup_cons in Hnc as [Hx _].
    rewrite lookup_delete_ne by (intros ->; apply Hx; apply elem_of_app; right; apply list_elem_of_here).
    destruct suf as [|y suf]; cbn [app head] in Hx |- *; by apply link_par_lookup.
Qed.

Lemma link_par_snoc x l y : forall par, x ∉ l -> link_par (l ++ [y]) par !! x = par !! x.
Proof.
  induction l as [|a l IH]; intros par Hx; [done|]. apply not_elem_of_cons in Hx as [Hxa Hx]. cbn [app].
  destruct (l ++ [y]) as [|b r] eqn:E; [by destruct l|]. rewrite link_par_cons, IH by done. by rewrite lookup_insert_ne by congruence.
Qed.

Lemma ancestors_ext par par' c i l :
  ancestors par c i l -> (forall x, x ∈ i :: l -> par' !! x = par !! x) -> ancestors par' c i l.
Proof.
  induction 1 as [i Hi|i p l Hp _ IH]; intros E.
  - constructor. rewrite E by apply list_elem_of_here. done.
  - econstructor; [rewrite E by apply list_elem_of_here; exact Hp|]. apply IH. intros x Hx. apply E. by apply list_elem_of_further.
Qed.

(** The walk along ancestors that are not in the chain. *)
Lemma extend_ancestors c lru par chain back i ks fuel :
  links_ok c lru par -> live c back -> live c i -> ancestors par c i ks ->
  (forall p, p ∈ ks -> loop_test c chain back p = Ok false) -> (length ks < fuel)%nat ->
  extend fuel i chain back c = Some (Ok (Some (frame c <$> ks))).
Proof.
  intros H Hb Hi Ha Ht. revert fuel Hi. induction Ha as [i Hi0|i p l Hp Ha IH]; intros fuel Hi Hf;
    (destruct fuel as [|fuel]; [lia|]).
  - cbn [extend]. by rewrite (GetParent_par _ _ _ _ H Hi), Hi0.
  - rewrite (extend_step _ _ _ _ _ _ _ _ H Hi Hb Hp). rewrite Ht by apply list_elem_of_here. cbn [length] in Hf.
    rewrite IH; [done| | |lia].
    + intros q Hq. apply Ht. by apply list_elem_of_further.
    + by apply (go_par _ _ _ _ (lk_graph _ _ _ H) i).
Qed.

Lemma loop_test_false c lru par chain back p :
  links_ok c lru par -> Forall (live c) chain -> (forall k, k ∈ chain -> frame c k <> frame c p) ->
  loop_test c chain back p = Ok false.
Proof.
  intros H Hch Hf. unfold loop_test. destruct (_ =? _); [|done].
  assert (forall l, (forall k, k ∈ l -> k ∈ chain) -> has_loop (nd c p) l c = Ok false) as Hl.
  { induction l as [|k l IH]; intros Hin; [done|]. cbn [has_loop].
    pose proof (Hin k (list_elem_of_here _ _)) as Hk. rewrite Forall_forall in Hch.
    rewrite node_ok by (eapply live_range; [exact H|by apply Hch]). cbn [mbind res_bind].
    destruct (Z.eqb_spec (sp (nd c k)) (sp (nd c p))) as [Es|]; [|done].
    destruct (Z.eqb_spec (ip (nd c k)) (ip (nd c p))) as [Ei|].
    - exfalso. apply (Hf k Hk). unfold frame. by rewrite Es, Ei.
    - apply IH. intros q Hq. apply Hin. by apply list_elem_of_further. }
  apply Hl. intros k Hk. apply list_elem_of_In, in_rev. by apply list_elem_of_In.
Qed.

Lemma key_frame c t k f : key_of (nd c k) = (u32 t, f.1, f.2) -> frame c k = f.
Proof. destruct f. unfold key_of, frame. cbn. congruence. Qed.

(** A path above a frame, seen from a chain that ends in that frame. *)
Lemma AddCallChain_above t b f rest c lru par l x :
  links_ok c lru par -> rooted par -> matched_node_count_to_extend_callchain (cache_stat_ c) = 1 ->
  (used c + length (b ++ [f]) <= Z.to_nat (max_node_count (cache_stat_ c)))%nat ->
  Forall (live c) (x :: l) -> node_keys c (x :: l) = keys t (f :: rest) -> path par (x :: l) ->
  f ∉ b -> f ∉ rest -> (forall g, g ∈ b -> g ∉ rest) ->
  exists c', AddCallChain t (fst <$> b ++ [f]) (snd <$> b ++ [f]) c =
    Some (Ok (c', fst <$> (b ++ [f]) ++ rest, snd <$> (b ++ [f]) ++ rest)) /\ cache_ok c'.
Proof.
  intros H Hr Hm Hroom Hl Hk Hp Hfb Hfr Hdis.
  destruct (build_chain_ok t (fst <$> b ++ [f]) (snd <$> b ++ [f]) c lru par H Hr)
    as (c1 & chain & l1 & par1 & Eb & H1 & Hr1 & Hlen & Hch & Hmono & _ & Hlim1 & Hu1 & _ & Hnr); [by rewrite !length_fmap|].
  rewrite length_fmap in *. destruct (Hnr Hroom) as (-> & Hkeep & Hk1). rewrite keys_zip in Hk1. fold (node_keys c1 chain) in Hk1.
  assert (Forall (live c1) chain) as Hch1 by (eapply Forall_impl; [exact Hch|]; by intros k [? _]).
  unfold keys in Hk1. rewrite fmap_app in Hk1. unfold node_keys in Hk1. apply fmap_app_inv in Hk1 as (cb & cf & Ecb & Ecf & ->).
  destruct cf as [|y [|? ?]]; try done. apply (inj2 cons) in Ecf as [Ecf _].
  assert (Forall (live c1) (x :: l)) as Hl1 by (eapply Forall_impl; [exact Hl|]; auto).
  assert (node_keys c1 (x :: l) = keys t (f :: rest)) as Hk2.
  { rewrite <- Hk. unfold node_keys. apply list_fmap_ext. intros i k Hik. apply Hkeep. by apply (Forall_lookup_1 _ _ _ _ Hl Hik). }
  unfold node_keys, keys in Hk2. rewrite !fmap_cons in Hk2. apply (inj2 cons) in Hk2 as [Kx Kl].
  assert (y = x) as ->.
  { apply Forall_app in Hch1 as [_ Hy]. apply Forall_cons in Hy as [Hy _]. apply Forall_cons in Hl1 as [Hx _].
    eapply same_key_node; [exact H1|done|done|]. congruence. }
  assert (forall k g, k ∈ cb -> key_of (nd c1 k) = (u32 t, g.1, g.2) -> g ∈ b) as Hcb.
  { intros k g Hkin Hkg. assert (key_of (nd c1 k) ∈ ((fun f => (u32 t, f.1, f.2)) <$> b)) as Hin.
    { rewrite Ecb. by apply (list_elem_of_fmap_2 (fun k => key_of (nd c1 k))). }
    apply list_elem_of_fmap in Hin as ([g1 g2] & E & Hg). rewrite Hkg in E. cbn in E. destruct g. cbn in E. by simplify_eq. }
  assert (forall k, k ∈ l -> exists g, g ∈ rest /\ key_of (nd c1 k) = (u32 t, g.1, g.2)) as Hrest.
  { intros k Hkin. assert (key_of (nd c1 k) ∈ ((fun f => (u32 t, f.1, f.2)) <$> rest)) as Hin.
    { rewrite <- Kl. by apply (list_elem_of_fmap_2 (fun k => key_of (nd c1 k))). }
    apply list_elem_of_fmap in Hin as (g & E & Hg). by exists g. }
  assert (forall k, k ∈ x :: l -> k ∉ cb) as Hout.
  { intros k Hkin Hkb. apply elem_of_cons in Hkin as [->|Hkin].
    - apply Hfb. by apply (Hcb x f Hkb).
    - destruct (Hrest k Hkin) as (g & Hg & Kg). apply (Hdis g); [by eapply Hcb|done]. }
  destruct (link_chain_ok (u32 t) (cb ++ [x]) c1 l1 par H1 Hch) as (c2 & l2 & El & H2 & K2).
  assert (Forall (live c2) (cb ++ [x])) as Hch2.
  { eapply Forall_impl; [exact Hch1|]. intros k Hk'. by apply (same_keys_live _ _ _ K2). }
  assert (live c2 x) as Hxl by (apply Forall_app in Hch2 as [_ Hx]; by apply Forall_cons in Hx as [Hx _]).
  set (par2 := link_par (cb ++ [x]) par) in *.
  assert (ancestors par2 c2 x l) as Ha.
  { eapply ancestors_ext; [by apply path_ancestors|]. intros k Hkin. apply link_par_snoc. by apply Hout. }
  assert (forall k, frame c2 k = frame c1 k) as Hfr2.
  { intros k. pose proof (sk_key _ _ K2 k) as E. unfold key_of, frame in *. congruence. }
  assert (forall p, p ∈ l -> loop_test c2 (cb ++ [x]) x p = Ok false) as Hlt.
  { intros p Hpin. eapply loop_test_false; [exact H2|done|]. intros k Hkin E. rewrite !Hfr2 in E.
    destruct (Hrest p Hpin) as (g & Hg & Kg). rewrite (key_frame _ _ _ _ Kg) in E. apply elem_of_app in Hkin as [Hkin|Hkin].
    - rewrite Forall_forall in Hch. destruct (Hch k) as [_ Htk]; [apply elem_of_app; by left|].
      apply (Hdis g); [|done]. apply (Hcb k); [done|]. unfold key_of. rewrite Htk. unfold frame in E. by rewrite <- E.
    - apply list_elem_of_singleton in Hkin as ->. apply Hfr. rewrite (key_frame _ _ _ _ Kx) in E. by rewrite E. }
  pose proof (rooted_link (cb ++ [x]) x par Hr1 (last_snoc _ _)) as Hd. fold par2 in Hd.
  pose proof (rooted_undelete par2 x _ Hd (ancestors_depth _ _ _ _ Ha)) as Hr2.
  assert (length l < length (nodes_ c2))%nat as Hfuel.
  { pose proof (ancestors_length _ _ _ _ _ H2 Hxl Ha). pose proof (lk_used _ _ _ H2). pose proof (lk_len _ _ _ H2).
    unfold used in *. lia. }
  exists c2. split; [|by exists l2, par2]. unfold AddCallChain. rewrite Eb. cbn [mbind res_bind].
  assert (can_extend (cb ++ [x]) c1 = Ok true) as ->.
  { unfold can_extend. destruct Hlim1 as [_ ->]. rewrite Hm. destruct (Z.ltb_spec (zlen (cb ++ [x])) 1) as [Hz|]; [|done].
    exfalso. revert Hz. rewrite zlen_app. pose proof (zlen_nonneg cb). change (zlen [x]) with 1. lia. }
  cbn [mbind res_bind]. rewrite El. cbn [mbind res_bind]. rewrite last_snoc.
  rewrite (extend_ancestors c2 l2 par2 (cb ++ [x]) x x l) by done.
  assert (frame c2 <$> l = rest) as ->; [|by rewrite !(fmap_app _ (b ++ [f]))].
  apply list_eq_same_length with (length l); [|by rewrite length_fmap|].
  - apply (f_equal length) in Kl. by rewrite !length_fmap in Kl.
  - intros i g g' _ Hg Hg'. apply list_lookup_fmap_Some in Hg as (k & -> & Hki). rewrite Hfr2.
    apply (f_equal (.!! i)) in Kl. rewrite !list_lookup_fmap, Hki, Hg' in Kl. cbn in Kl. apply (inj Some) in Kl.
    by apply (key_frame c1 t).
Qed.

(** C13: joining works: once a chain of distinct frames was added and returned
    completed (itself and what it was extended by), a chain of the same thread
    that ends in a frame [f] of it is returned extended by all the frames that
    were above [f].  This holds for caches that match one node (the default)
    and have room for both chains, when the lower frames of the second chain
    are not [f] and not themselves above [f], and [f] is not above itself. *)
Theorem AddCallChain_joins t a b f pre rest c c1 ips1 sps1 :
  cache_ok c -> matched_node_count_to_extend_callchain (cache_stat_ c) = 1 ->
  (used c + length a + length (b ++ [f]) <= Z.to_nat (max_node_count (cache_stat_ c)))%nat -> zlen a < 2 ^ 64 ->
  a <> [] -> NoDup a -> AddCallChain t (fst <$> a) (snd <$> a) c = Some (Ok (c1, ips1, sps1)) ->
  zip ips1 sps1 = pre ++ f :: rest -> f ∉ b -> f ∉ rest -> (forall g, g ∈ b -> g ∉ rest) ->
  exists c2, AddCallChain t (fst <$> b ++ [f]) (snd <$> b ++ [f]) c1 =
    Some (Ok (c2, fst <$> (b ++ [f]) ++ rest, snd <$> (b ++ [f]) ++ rest)) /\ cache_ok c2.
Proof.
  intros Hok Hm Hroom Hz Hne Hnd E Hzip Hfb Hfr Hdis.
  destruct (AddCallChain_path t a c Hok Hne Hnd Hm ltac:(lia) Hz)
    as (c' & ext & lru & par & l & E' & H & Hr & Hlim & Hu & Hl & Hk & Hp).
  rewrite E in E'. injection E' as -> -> ->. rewrite zip_fst_snd in Hzip. rewrite Hzip in Hk.
  unfold keys in Hk. rewrite fmap_app, fmap_cons in Hk. unfold node_keys in Hk. apply fmap_app_inv in Hk as (lp & lr & Ep & Er & ->).
  destruct lr as [|x lr]; [done|].
  apply (AddCallChain_above t b f rest c' lru par lr x); try done.
  - destruct Hlim as [_ ->]. done.
  - destruct Hlim as [-> _]. lia.
  - by apply Forall_app in Hl as [_ Hl].
  - by eapply path_app.
Qed.

(** Whatever number of nodes is asked to match (two or more), a chain that
    is long enough may be extended exactly when, in the cache, its last node is
    the parent of the last but one: no other pair of the chain is compared. *)
Theorem can_extend_top_pair chain a b c :
  cache_ok c -> Forall (live c) (chain ++ [a; b]) ->
  2 <= matched_node_count_to_extend_callchain (cache_stat_ c) <= zlen (chain ++ [a; b]) -> zlen (chain ++ [a; b]) < 2 ^ 64 ->
  can_extend (chain ++ [a; b]) c = (p ← GetParent c a; Ok (bool_decide (p = Some b))).
Proof.
  intros (lru & par & H & _) Hch Hm Hz. unfold can_extend. set (m := matched_node_count_to_extend_callchain _) in *.
  rewrite (proj2 (Z.ltb_ge _ _)) by lia. pose proof (zlen_nonneg chain) as Hc.
  assert (zlen (chain ++ [a; b]) = zlen chain + 2) as El by (rewrite zlen_app; done).
  rewrite El, u64_small by (unfold_u; lia). replace (zlen chain + 2 - 2) with (zlen chain) by lia.
  apply Forall_app in Hch as [_ Hch]. apply Forall_cons in Hch as [Ha _].
  rewrite (GetParent_par _ _ _ _ H Ha). cbn [mbind res_bind].
  destruct (Z.to_nat (m - 1)) as [|count] eqn:En; [lia|]. clear En.
  assert (znth (chain ++ [a; b]) (zlen chain) = Some a) as Ea.
  { unfold znth. rewrite (proj2 (Z.ltb_ge _ _)) by lia. unfold zlen. rewrite Nat2Z.id, lookup_app_r, Nat.sub_diag by lia. done. }
  assert (znth (chain ++ [a; b]) (zlen chain +u64 1) = Some b) as Eb.
  { rewrite u64_small by (unfold_u; lia). unfold znth. rewrite (proj2 (Z.ltb_ge _ _)) by lia. unfold zlen.
    replace (Z.to_nat (Z.of_nat (length chain) + 1)) with (S (length chain)) by lia.
    rewrite lookup_app_r by lia. by replace (S (length chain) - length chain)%nat with 1%nat by lia. }
  induction count as [|count IH].
  - cbn [check_top]. rewrite Ea, Eb, (GetParent_par _ _ _ _ H Ha). cbn [mbind res_bind]. by destruct (bool_decide _).
  - cbn [check_top] in IH |- *. rewrite Ea, Eb, (GetParent_par _ _ _ _ H Ha) in IH |- *. cbn [mbind res_bind] in IH |- *.
    destruct (bool_decide_reflect (par !! a = Some b)); [|done]. exact IH.
Qed.

(** ** Examples *)

Definition small_cache : LRUCache :=
  match LRUCache_new (mkNode 9 9 9 false 9 9 9) 320 1 with Ok c => c | _ => mkLRU [] ∅ (mkStat 0 0 0 0 0) end.

Lemma small_cache_ok : cache_ok small_cache /\ used small_cache = 0%nat.
Proof.
  destruct (new_cache_ok (mkNode 9 9 9 false 9 9 9) 320 1) as (c & E & Hok & Hu & _); [change (320 / sizeof_CacheNode) with 10; lia|lia|].
  unfold small_cache. by rewrite E.
Qed.

Lemma AddCallChain_safe_witness :
  exists c' ext, AddCallChain 1 [10; 11; 12] [100; 101; 102] small_cache =
    Some (Ok (c', [10; 11; 12] ++ (fst <$> ext), [100; 101; 102] ++ (snd <$> ext))) /\ cache_ok c'.
Proof.
  destruct (AddCallChain_safe 1 [10; 11; 12] [100; 101; 102] small_cache) as (c' & ext & E & Hok & _);
    [apply small_cache_ok|done|done|vm_compute; reflexivity|]. exists c', ext. split; [exact E|exact Hok].
Defined.

Lemma AddCallChain_joins_witness :
  exists c1 c2, AddCallChain 1 [10; 11; 12] [100; 101; 102] small_cache = Some (Ok (c1, [10; 11; 12], [100; 101; 102])) /\
    AddCallChain 1 [20; 11] [90; 101] c1 = Some (Ok (c2, [20; 11; 12], [90; 101; 102])) /\ cache_ok c2.
Proof.
  destruct (AddCallChain 1 [10; 11; 12] [100; 101; 102] small_cache) as [[[[c1 i1] s1]| |]|] eqn:E;
    [|vm_compute in E; discriminate..].
  assert ((i1, s1) = ([10; 11; 12], [100; 101; 102])) as Ei by (revert E; vm_compute; congruence). injection Ei as -> ->.
  destruct (AddCallChain_joins 1 [(10, 100); (11, 101); (12, 102)] [(20, 90)] (11, 101) [(10, 100)] [(12, 102)] small_cache
    c1 [10; 11; 12] [100; 101; 102]) as (c2 & E2 & Hok2).
  - apply small_cache_ok.
  - reflexivity.
  - vm_compute. lia.
  - vm_compute. reflexivity.
  - done.
  - apply (bool_decide_unpack _). vm_compute. exact I.
  - exact E.
  - reflexivity.
  - apply (bool_decide_unpack _). vm_compute. exact I.
  - apply (bool_decide_unpack _). vm_compute. exact I.
  - intros g Hg. apply list_elem_of_singleton in Hg as ->. apply (bool_decide_unpack _). vm_compute. exact I.
  - exists c1, c2. split; [reflexivity|]. split; [exact E2|exact Hok2].
Defined.

Definition strict_cache : LRUCache :=
  match LRUCache_new (mkNode 9 9 9 false 9 9 9) 320 3 with Ok c => c | _ => mkLRU [] ∅ (mkStat 0 0 0 0 0) end.

Lemma strict_cache_built :
  exists c, build_chain 1 [10; 11; 12] [100; 101; 102] strict_cache = Ok (c, [1; 2; 3]%nat) /\ cache_ok c /\
    Forall (live c) [1; 2; 3]%nat /\ matched_node_count_to_extend_callchain (cache_stat_ c) = 3.
Proof.
  destruct (new_cache_ok (mkNode 9 9 9 false 9 9 9) 320 3) as (c & E & (lru & par & H & Hr) & _ & _ & Hm & _);
    [change (320 / sizeof_CacheNode) with 10; lia|lia|].
  destruct (build_chain_ok 1 [10; 11; 12] [100; 101; 102] c lru par H Hr eq_refl)
    as (c1 & chain & l1 & par1 & Eb & H1 & Hr1 & _ & Hch & _ & _ & [_ Hlim] & _).
  assert (strict_cache = c) as Es by (unfold strict_cache; by rewrite E). rewrite Es.
  assert (chain = [1; 2; 3]%nat) as ->.
  { assert (match build_chain 1 [10; 11; 12] [100; 101; 102] strict_cache with Ok (_, l) => l = [1; 2; 3]%nat | _ => False end) as Hc
      by (vm_compute; reflexivity). rewrite Es, Eb in Hc. exact Hc. }
  exists c1. split; [done|]. split; [by exists l1, par1|]. split; [|congruence].
  eapply Forall_impl; [exact Hch|]. by intros k [? _].
Qed.

Lemma can_extend_top_pair_witness :
  exists c, build_chain 1 [10; 11; 12] [100; 101; 102] strict_cache = Ok (c, [1; 2; 3]%nat) /\
    can_extend [1; 2; 3]%nat c = (p ← GetParent c 2; Ok (bool_decide (p = Some 3%nat))).
Proof.
  destruct strict_cache_built as (c & E & Hok & Hl & Hm). exists c. split; [exact E|].
  apply (can_extend_top_pair [1%nat] 2 3 c); [exact Hok|exact Hl|rewrite Hm; vm_compute; split; discriminate|vm_compute; reflexivity].
Defined.
