(* ===== verification/CallChainJoiner.v ===== *)
(** Model of [CallChainJoiner] of src/simpleperf/CallChainJoiner.h and
    CallChainJoiner.cpp: call chains are written to a temporary file, joined
    in two passes over it through an [LRUCache] (LRUCache.v), and read back.

    Files are those of File.v.  [CreateTempFp] may fail: its outcomes are
    arguments. *)
From stdpp Require Import base list numbers gmap.
From Stdlib Require Import ZArith Lia Sorted.
From S2P Require Import Prelude Utils File LRUCache.

(** * The format of a call chain *)

(** [int], for [pid_t]. *)
Definition int32_t : codec Z :=
  Codec 4 (fun x => le_encode 4 (u32 x)) (fun b => let x := le_decode b in if x <? 2 ^ 31 then x else x - 2 ^ 32).
Definition is_i32 (x : Z) : Prop := - 2 ^ 31 <= x < 2 ^ 31.

(** [enum ChainType] *)
Definition ORIGINAL_OFFLINE : Z := 0.
Definition ORIGINAL_REMOTE : Z := 1.
Definition JOINED_OFFLINE : Z := 2.
Definition JOINED_REMOTE : Z := 3.

(** (pid, tid, type, ips, sps) *)
Record Chain := mkChain { ch_pid : Z; ch_tid : Z; ch_type : Z; ch_ips : list Z; ch_sps : list Z }.

Section joiner.
Context (disk : Z).

Definition WriteCallChain (fp : FILE) (pid tid type : Z) (ips sps : list Z) (ip_count : Z) : res (option FILE) :=
  let size := u32 (4 * 4 + 8 * ip_count * 2 + 4) in
  let data := replicate (Z.to_nat size) 0 in
  '(data, p) ← MoveToBinaryFormat int32_t pid data 0;
  '(data, p) ← MoveToBinaryFormat int32_t tid data p;
  '(data, p) ← MoveToBinaryFormat uint32_t type data p;
  '(data, p) ← MoveToBinaryFormat uint32_t (u32 ip_count) data p;
  '(data, p) ← MoveToBinaryFormatN uint64_t ips ip_count data p;
  '(data, p) ← MoveToBinaryFormatN uint64_t sps ip_count data p;
  '(data, _) ← MoveToBinaryFormat uint32_t size data p;
  Ok (fwrite disk data fp).

Definition ReadCallChain (fp : FILE) : res (option (Chain * FILE)) :=
  match fread (4 * 4) fp with
  | None => Ok None
  | Some (data, fp) =>
      '(pid, p) ← MoveFromBinaryFormat int32_t data 0;
      '(tid, p) ← MoveFromBinaryFormat int32_t data p;
      '(type, p) ← MoveFromBinaryFormat uint32_t data p;
      '(ip_count, _) ← MoveFromBinaryFormat uint32_t data p;
      match fread (8 * ip_count * 2 + 4) fp with
      | None => Ok None
      | Some (data, fp) =>
          '(ips, p) ← MoveFromBinaryFormatN uint64_t ip_count data 0;
          '(sps, _) ← MoveFromBinaryFormatN uint64_t ip_count data p;
          Ok (Some (mkChain pid tid type ips sps, fp))
      end
  end.

(** [static_cast<int>] of a [uint32_t] *)
Definition int_of_u32 (x : Z) : Z := if x <? 2 ^ 31 then x else x - 2 ^ 32.

Definition ReadCallChainInReverseOrder (fp : FILE) : res (option (Chain * FILE)) :=
  match (fp ← fseek_cur (-4) fp; fread 4 fp) with
  | None => Ok None
  | Some (b, fp) =>
      let size := le_decode b in
      let data_size := u32 (size - 4) in
      match (fp ← fseek_cur (- int_of_u32 size) fp;
             '(data, fp) ← fread data_size fp;
             fp ← fseek_cur (- int_of_u32 data_size) fp;
             Some (data, fp)) with
      | None => Ok None
      | Some (data, fp) =>
          '(pid, p) ← MoveFromBinaryFormat int32_t data 0;
          '(tid, p) ← MoveFromBinaryFormat int32_t data p;
          '(type, p) ← MoveFromBinaryFormat uint32_t data p;
          '(ip_count, p) ← MoveFromBinaryFormat uint32_t data p;
          '(ips, p) ← MoveFromBinaryFormatN uint64_t ip_count data p;
          '(sps, _) ← MoveFromBinaryFormatN uint64_t ip_count data p;
          Ok (Some (mkChain pid tid type ips sps, fp))
      end
  end.

(** * [CallChainJoiner] *)

Record Stat := mkJoinStat {
  chain_count : Z;
  before_join_node_count : Z;
  after_join_node_count : Z;
  after_join_max_chain_length : Z;
}.

Record CallChainJoiner := mkJoiner {
  keep_original_callchains_ : bool;
  original_chains_fp_ : option FILE;
  joined_chains_fp_ : option FILE;
  next_chain_index_ : Z;
  join_cache_stat_ : LRUCacheStat;
  stat_ : Stat;
}.

Definition CallChainJoiner_new (cache_size matched : Z) (keep : bool) : CallChainJoiner :=
  mkJoiner keep None None 0 (mkStat cache_size matched 0 0 0) (mkJoinStat 0 0 0 0).

(** [for (j = i; j > 0 && sps[j - 1] == sps[i]; --j)] over the frames before
    the frame [i], the nearest first. *)
Fixpoint has_duplicated_items (i s : Z) (before : list (Z * Z)) : bool :=
  match before with
  | [] => false
  | (i', s') :: before => if s' =? s then if i' =? i then true else has_duplicated_items i s before else false
  end.

(** The loop that cuts the chain: the number of frames to keep.  [before] are
    the frames seen, the last one first. *)
Fixpoint valid_count (before frames : list (Z * Z)) : nat :=
  match frames with
  | [] => length before
  | (i, s) :: frames =>
      match before with
      | [] => valid_count [(i, s)] frames
      | (_, s') :: _ =>
          if s <? s' then length before
          else if (s =? s') && has_duplicated_items i s before then length before
          else valid_count ((i, s) :: before) frames
      end
  end.

(** [tmp]: whether [CreateTempFp] gives a file. *)
Definition Joiner_AddCallChain (tmp : bool) (pid tid type : Z) (ips sps : list Z) (j : CallChainJoiner)
    : res (CallChainJoiner * bool) :=
  _ ← CHECK (zlen ips =? zlen sps);
  _ ← CHECK (0 <? zlen ips);
  _ ← CHECK ((type =? ORIGINAL_OFFLINE) || (type =? ORIGINAL_REMOTE));
  let ip_count := Z.of_nat (valid_count [] (zip ips sps)) in
  match (match original_chains_fp_ j with Some f => Some f | None => if tmp then Some empty_file else None end) with
  | None => Ok (j, false)
  | Some f =>
      let s := stat_ j in
      let stat := mkJoinStat (chain_count s +u64 1) (before_join_node_count s) (after_join_node_count s)
                    (after_join_max_chain_length s) in
      r ← WriteCallChain f pid tid type ips sps ip_count;
      let mk f := mkJoiner (keep_original_callchains_ j) (Some f) (joined_chains_fp_ j) (next_chain_index_ j)
                    (join_cache_stat_ j) stat in
      Ok (match r with Some f => (mk f, true) | None => (mk f, false) end)
  end.

Definition joined_type (type : Z) : Z :=
  if type =? ORIGINAL_OFFLINE then JOINED_OFFLINE
  else if type =? ORIGINAL_REMOTE then JOINED_REMOTE else type.

(** One pass over [n] chains: from the end of [from] towards its start, to [to_]. *)
Fixpoint join_pass (n : nat) (first_pass : bool) (from to_ : FILE) (cache : LRUCache) (s : Stat)
    : res (option (FILE * FILE * LRUCache * Stat)) :=
  match n with
  | O => Ok (Some (from, to_, cache, s))
  | S n =>
      r ← ReadCallChainInReverseOrder from;
      match r with
      | None => Ok None
      | Some (mkChain pid tid type ips sps, from) =>
          let type := if first_pass then joined_type type else type in
          let s := if first_pass
                   then mkJoinStat (chain_count s) (before_join_node_count s +u64 zlen ips) (after_join_node_count s)
                          (after_join_max_chain_length s)
                   else s in
          '(cache, ips, sps) ← match AddCallChain tid ips sps cache with Some r => r | None => OutOfBounds end;
          let s := if first_pass then s
                   else mkJoinStat (chain_count s) (before_join_node_count s) (after_join_node_count s +u64 zlen ips)
                          (Z.max (after_join_max_chain_length s) (zlen ips)) in
          w ← WriteCallChain to_ pid tid type ips sps (zlen ips);
          match w with
          | None => Ok None
          | Some to_ => join_pass n first_pass from to_ cache s
          end
      end
  end.

(** [tmp], [joined]: whether the two [CreateTempFp] give a file.  On failure
    only the return value is given. *)
Definition JoinCallChains (undef : CacheNode) (tmp joined : bool) (j : CallChainJoiner) : res (option CallChainJoiner) :=
  if chain_count (stat_ j) =? 0 then Ok (Some j)
  else
    cache ← LRUCache_new undef (cache_size (join_cache_stat_ j)) (matched_node_count_to_extend_callchain (join_cache_stat_ j));
    if negb tmp then Ok None
    else if negb joined then Ok None
    else match original_chains_fp_ j with
         | None => OutOfBounds
         | Some f =>
             let n := Z.to_nat (chain_count (stat_ j)) in
             r ← join_pass n true (fseek_end f) empty_file cache (stat_ j);
             match r with
             | None => Ok None
             | Some (original, tmp_fp, cache, s) =>
                 r ← join_pass n false tmp_fp empty_file cache s;
                 match r with
                 | None => Ok None
                 | Some (_, joined, cache, s) =>
                     Ok (Some (mkJoiner (keep_original_callchains_ j) (Some original) (Some joined)
                                 (next_chain_index_ j) (cache_stat_ cache) s))
                 end
             end
         end.

Definition set_files (o jn : FILE) (index : Z) (j : CallChainJoiner) : CallChainJoiner :=
  mkJoiner (keep_original_callchains_ j) (Some o) (Some jn) index (join_cache_stat_ j) (stat_ j).

(** [None]: false; no state is given then. *)
Definition GetNextCallChain (j : CallChainJoiner) : res (option (Chain * CallChainJoiner)) :=
  if next_chain_index_ j =? chain_count (stat_ j) *u64 2 then Ok None
  else
    match original_chains_fp_ j, joined_chains_fp_ j with
    | Some o, Some jn =>
        let '(o, jn) := if next_chain_index_ j =? 0 then (fseek_set 0 o, fseek_set 0 jn) else (o, jn) in
        if keep_original_callchains_ j then
          let index := next_chain_index_ j +u64 1 in
          if Z.odd (next_chain_index_ j) then
            r ← ReadCallChain jn;
            Ok (match r with Some (c, jn) => Some (c, set_files o jn index j) | None => None end)
          else
            r ← ReadCallChain o;
            Ok (match r with Some (c, o) => Some (c, set_files o jn index j) | None => None end)
        else
          r ← ReadCallChain jn;
          Ok (match r with Some (c, jn) => Some (c, set_files o jn (next_chain_index_ j +u64 2) j) | None => None end)
    | _, _ => OutOfBounds
    end.
End joiner.

(** * Writing and reading one chain *)

#[export] Instance int32_t_ok : CodecOk int32_t is_i32.
Proof.
  split; [done|intros; apply zlen_le_encode|intros x Hx; cbn [enc dec int32_t]].
  rewrite le_decode_encode. change (256 ^ Z.of_nat 4) with (2 ^ 32). rewrite (Z.mod_small (u32 x)) by apply is_u32_u32.
  unfold u32, is_i32 in *. destruct (Z.le_gt_cases 0 x).
  - rewrite Z.mod_small by lia. by rewrite (proj2 (Z.ltb_lt _ _)) by lia.
  - rewrite <- (Z.mod_add x 1) by lia. rewrite Z.mod_small by lia. rewrite (proj2 (Z.ltb_ge _ _)) by lia. lia.
Qed.
















(** * Cutting a chain *)

(** Frames from the innermost out: stack pointers do not decrease and no
    frame appears twice. *)
Definition sp_le (f g : Z * Z) : Prop := f.2 <= g.2.
Definition valid_chain (l : list (Z * Z)) : Prop := StronglySorted sp_le l /\ NoDup l.

Lemma sp_sorted_snoc {A} (R : A -> A -> Prop) l x : StronglySorted R (l ++ [x]) <-> StronglySorted R l /\ Forall (fun y => R y x) l.
Proof.
  induction l as [|a l IH]; cbn [app].
  - split; [|repeat constructor]. intros _. split; constructor.
  - split.
    + intros H. apply StronglySorted_inv in H as [H F]. apply IH in H as [H1 H2]. apply Forall_app in F as [F1 F2].
      rewrite Forall_singleton in F2. split; [by constructor|]. by apply Forall_cons.
    + intros [H F]. apply StronglySorted_inv in H as [H F']. apply Forall_cons in F as [Fa F]. constructor; [by apply IH|].
      apply Forall_app. split; [done|]. by apply Forall_singleton.
Qed.

(** The search backwards over equal stack pointers finds any duplicate. *)
Lemma has_duplicated_items_spec i s before :
  StronglySorted sp_le (rev before) -> Forall (fun f => f.2 <= s) before ->
  has_duplicated_items i s before = true <-> (i, s) ∈ before.
Proof.
  induction before as [|[i' s'] before IH]; intros Hs Hf; cbn [has_duplicated_items].
  { split; [done|]. intros H. by apply not_elem_of_nil in H. }
  cbn [rev] in Hs. apply sp_sorted_snoc in Hs as [Hs Hl]. apply Forall_cons in Hf as [Hs' Hf]. cbn [snd] in Hs'.
  rewrite elem_of_cons. destruct (Z.eqb_spec s' s) as [->|Hne].
  - destruct (Z.eqb_spec i' i) as [->|]; [split; [by left|done]|]. rewrite IH by done. split; [by right|]. intros [[= ->]|?]; done.
  - split; [done|]. intros [[= -> ->]|Hin]; [done|]. rewrite Forall_forall in Hl. specialize (Hl (i, s)).
    unfold sp_le in Hl. cbn [snd] in Hl. exfalso. apply Hne. enough (s <= s') by lia. apply Hl.
    apply list_elem_of_In. rewrite <- in_rev. by apply list_elem_of_In.
Qed.

Lemma valid_snoc before i s :
  valid_chain (rev before) -> (match before with (_, s') :: _ => s' <= s | [] => True end) -> (i, s) ∉ before ->
  valid_chain (rev ((i, s) :: before)).
Proof.
  intros [Hs Hn] Hle Hni. cbn [rev]. split.
  - apply sp_sorted_snoc. split; [done|]. destruct before as [|[i' s'] before]; [constructor|]. cbn [rev] in *.
    apply sp_sorted_snoc in Hs as [_ Hl]. apply Forall_app. split; [|by apply Forall_singleton].
    eapply Forall_impl; [exact Hl|]. unfold sp_le. cbn [snd]. intros f Hf. lia.
  - apply NoDup_app. split; [done|]. split; [|apply NoDup_singleton]. intros f Hf Hf'. apply list_elem_of_singleton in Hf' as ->.
    apply Hni. apply list_elem_of_In. rewrite in_rev. by apply list_elem_of_In.
Qed.

Lemma valid_count_ok frames : forall before,
  valid_chain (rev before) ->
  (length before <= valid_count before frames <= length before + length frames)%nat /\
  valid_chain (take (valid_count before frames) (rev before ++ frames)) /\
  (valid_count before frames = (length before + length frames)%nat \/
   ~ valid_chain (take (S (valid_count before frames)) (rev before ++ frames))).
Proof.
  induction frames as [|[i s] frames IH]; intros before Hv; cbn [valid_count].
  { rewrite app_nil_r, take_ge by (by rewrite length_rev). cbn. split_and!; [lia|lia|done|]. left. lia. }
  assert (forall b, valid_chain (rev ((i, s) :: b)) -> b = before ->
    (length before <= valid_count ((i, s) :: before) frames <= length before + length ((i, s) :: frames))%nat /\
    valid_chain (take (valid_count ((i, s) :: before) frames) (rev before ++ (i, s) :: frames)) /\
    (valid_count ((i, s) :: before) frames = (length before + length ((i, s) :: frames))%nat \/
     ~ valid_chain (take (S (valid_count ((i, s) :: before) frames)) (rev before ++ (i, s) :: frames)))) as Hgo.
  { intros b Hvb ->. destruct (IH _ Hvb) as (B & V & M). cbn [rev length] in *. rewrite <- app_assoc in V, M. cbn [app] in V, M.
    split_and!; [lia|lia|done|]. destruct M as [->|M]; [left; lia|by right]. }
  assert (~ valid_chain (rev before ++ [(i, s)]) ->
    (length before <= length before <= length before + length ((i, s) :: frames))%nat /\
    valid_chain (take (length before) (rev before ++ (i, s) :: frames)) /\
    (length before = (length before + length ((i, s) :: frames))%nat \/
     ~ valid_chain (take (S (length before)) (rev before ++ (i, s) :: frames)))) as Hstop.
  { intros Hbad. split; [lia|]. rewrite <- (length_rev before). split; [by rewrite take_app_length|]. right.
    rewrite firstn_app. replace (S (length (rev before)) - length (rev before))%nat with 1%nat by lia.
    rewrite take_ge by lia. done. }
  destruct before as [|[i' s'] before']; [apply (Hgo []); [split; repeat constructor; set_solver|done]|].
  set (before := (i', s') :: before') in *. pose proof Hv as [Hs Hn].
  assert (StronglySorted sp_le (rev before) /\ Forall (fun f => f.2 <= s') before) as [_ Hmax].
  { split; [done|]. unfold before in *. cbn [rev] in Hs. apply sp_sorted_snoc in Hs as [_ Hl]. constructor; [done|].
    apply Forall_forall. intros f Hf. rewrite Forall_forall in Hl. apply Hl. apply list_elem_of_In. rewrite <- in_rev. by apply list_elem_of_In. }
  destruct (Z.ltb_spec s s') as [Hlt|Hge].
  { apply Hstop. intros [Hb _]. apply sp_sorted_snoc in Hb as [_ Hl]. rewrite Forall_forall in Hl. specialize (Hl (i', s')).
    unfold sp_le in Hl. cbn [snd] in Hl. enough (s' <= s) by lia. apply Hl. apply list_elem_of_In. rewrite <- in_rev. by left. }
  assert (Forall (fun f => f.2 <= s) before) as Hmax' by (eapply Forall_impl; [exact Hmax|]; cbn; intros f Hf; lia).
  pose proof (has_duplicated_items_spec i s before Hs Hmax') as Hdup.
  destruct ((s =? s') && has_duplicated_items i s before) eqn:E.
  { apply andb_prop in E as [_ E]. apply Hdup in E. apply Hstop. intros [_ Hb]. apply NoDup_app in Hb as (_ & Hb & _).
    apply (Hb (i, s)); [|apply list_elem_of_here]. apply list_elem_of_In. rewrite <- in_rev. by apply list_elem_of_In. }
  apply (Hgo before); [|done]. apply valid_snoc; [done|exact Hge|]. intros Hin.
  apply andb_false_iff in E as [E|E]; [|by rewrite (proj2 Hdup Hin) in E].
  apply Z.eqb_neq in E. rewrite Forall_forall in Hmax. specialize (Hmax _ Hin). cbn [snd] in Hmax. lia.
Qed.

(** The frames of a chain that [CallChainJoiner::AddCallChain] keeps are the
    longest prefix in which stack pointers do not decrease and no (ip, sp)
    appears twice; at least the first frame is kept. *)
Theorem valid_count_longest frames :
  let k := valid_count [] frames in
  (k <= length frames)%nat /\ valid_chain (take k frames) /\
  (k = length frames \/ ~ valid_chain (take (S k) frames)) /\ (frames <> [] -> (0 < k)%nat).
Proof.
  intros k. destruct (valid_count_ok frames []) as (B & V & M); [split; constructor|]. cbn [rev app length] in *. fold k in B, V, M.
  split; [lia|]. split; [done|]. split; [exact M|]. intros Hne. subst k. destruct frames as [|[i s] frames]; [done|].
  cbn [valid_count]. destruct (valid_count_ok frames [(i, s)]) as ([B' _] & _); [split; repeat constructor; set_solver|]. cbn [length] in B'. lia.
Qed.

(** * One pass *)



(** The frames of a chain. *)
Definition frames (r : Chain) : list (Z * Z) := zip (ch_ips r) (ch_sps r).













(** * Adding, joining and reading back *)

Fixpoint add_chains (disk : Z) (l : list Chain) (j : CallChainJoiner) : res (CallChainJoiner * bool) :=
  match l with
  | [] => Ok (j, true)
  | r :: l =>
      '(j, ok) ← Joiner_AddCallChain disk true (ch_pid r) (ch_tid r) (ch_type r) (ch_ips r) (ch_sps r) j;
      if (ok : bool) then add_chains disk l j else Ok (j, false)
  end.

(** [GetNextCallChain] until it returns false; [None]: it did not within [fuel] calls. *)
Fixpoint read_all (fuel : nat) (j : CallChainJoiner) : res (option (list Chain)) :=
  match fuel with
  | O => Ok None
  | S fuel =>
      r ← GetNextCallChain j;
      match r with
      | None => Ok (Some [])
      | Some (c, j) => l ← read_all fuel j; Ok (match l with Some l => Some (c :: l) | None => None end)
      end
  end.






















Section reading.
Context (stat : LRUCacheStat) (st : Stat) (Hsmall : 0 <= chain_count st < 2 ^ 62).




End reading.



(** * The whole life of a joiner *)

(** [AddCallChain] for every chain, [JoinCallChains], then [GetNextCallChain] until it returns false. *)
Definition join_all (disk : Z) (undef : CacheNode) (cache_size matched : Z) (keep : bool) (l : list Chain) : res (option (list Chain)) :=
  '(j, ok) ← add_chains disk l (CallChainJoiner_new cache_size matched keep);
  if negb ok then Ok None
  else r ← JoinCallChains disk undef true true j;
       match r with
       | None => Ok None
       | Some j => read_all (S (2 * length l)) j
       end.


Definition sample_chains : list Chain :=
  [mkChain 1 2 ORIGINAL_OFFLINE [1; 2] [10; 20]; mkChain 1 2 ORIGINAL_OFFLINE [1; 2; 3] [10; 20; 30];
   mkChain 1 2 ORIGINAL_REMOTE [5; 1; 2; 4] [5; 10; 20; 1]].


Example join_sample : join_all 10000 (mkNode 0 0 0 false 0 0 0) 256 1 false sample_chains =
  Ok (Some [mkChain 1 2 JOINED_OFFLINE [1; 2; 3] [10; 20; 30]; mkChain 1 2 JOINED_OFFLINE [1; 2; 3] [10; 20; 30];
            mkChain 1 2 JOINED_REMOTE [5; 1; 2; 3] [5; 10; 20; 30]]).
Proof. vm_compute. reflexivity. Qed.
