(* ===== verification/SampleComparator.v ===== *)
(** Model of src/simpleperf/SampleComparator.h: three-way comparisons and the
    class [SampleComparator] that composes them, and of [std::sort] and
    [std::set] with such a comparator.

    A compare function returns an [int] of which only the sign is used.  The
    functions that compare one member are generated by macros; they are
    instances of [Compare] and [strcmp] and are given with the samples they
    compare (SampleTree.v). *)
From stdpp Require Import base list numbers sorting.
From Stdlib Require Import ZArith Lia Sorted.
From S2P Require Import Prelude.

(** [Compare<T>] for the integral types it is used with; [bool] is 0 or 1. *)
Definition Compare (a b : Z) : Z := if negb (a =? b) then if a <? b then -1 else 1 else 0.

(** [strcmp] of the bytes before the terminating zeros. *)
Fixpoint strcmp_bytes (a b : bytes) : Z :=
  match a, b with
  | [], [] => 0
  | [], y :: _ => -1
  | x :: _, [] => 1
  | x :: a, y :: b => if x <? y then -1 else if y <? x then 1 else strcmp_bytes a b
  end.
Definition strcmp (a b : bytes) : Z := strcmp_bytes (c_str a) (c_str b).

(** * [SampleComparator] *)

Section comparator.
Context {EntryT : Type}.

Definition SampleComparator : Type := list (EntryT -> EntryT -> Z).

Definition AddCompareFunction (func : EntryT -> EntryT -> Z) (compare_v_ : SampleComparator) : SampleComparator := compare_v_ ++ [func].
Definition AddComparator (other : SampleComparator) (compare_v_ : SampleComparator) : SampleComparator := compare_v_ ++ other.

(** [operator()] *)
Fixpoint less (compare_v_ : SampleComparator) (sample1 sample2 : EntryT) : bool :=
  match compare_v_ with
  | [] => false
  | func :: l =>
      let ret := func sample1 sample2 in
      if negb (ret =? 0) then ret <? 0 else less l sample1 sample2
  end.

Fixpoint IsSameSample (compare_v_ : SampleComparator) (sample1 sample2 : EntryT) : bool :=
  match compare_v_ with
  | [] => true
  | func :: l => if negb (func sample1 sample2 =? 0) then false else IsSameSample l sample1 sample2
  end.

Definition empty (compare_v_ : SampleComparator) : bool := match compare_v_ with [] => true | _ => false end.
End comparator.
Arguments SampleComparator : clear implicits.

(** * Sorting with a strict order *)

Section sort.
Context {A : Type} (lt : A -> A -> bool).

Fixpoint insert_by (x : A) (l : list A) : list A :=
  match l with
  | [] => [x]
  | y :: l' => if lt y x then y :: insert_by x l' else x :: l
  end.
(** [std::sort(v.begin(), v.end(), lt)]; equivalent elements stay in order. *)
Definition sort_by (l : list A) : list A := foldr insert_by [] l.

(** What [std::sort] and [std::set] ask of [lt]. *)
Class StrictWeak : Prop := {
  lt_asym x y : lt x y = true -> lt y x = false;
  nlt_trans x y z : lt y x = false -> lt z y = false -> lt z x = false;
}.

Definition not_after (x y : A) : Prop := lt y x = false.

Lemma insert_by_perm x l : insert_by x l ≡ₚ x :: l.
Proof. induction l as [|y l IH]; [done|]. cbn [insert_by]. destruct (lt y x); [|done]. rewrite IH. apply Permutation_swap. Qed.

Lemma sort_by_perm l : sort_by l ≡ₚ l.
Proof. induction l as [|x l IH]; [done|]. cbn. by rewrite insert_by_perm, IH. Qed.

Context `{!StrictWeak}.

Lemma insert_by_sorted x l : StronglySorted not_after l -> StronglySorted not_after (insert_by x l).
Proof.
  induction 1 as [|y l Hs IH Hy]; cbn [insert_by]; [by repeat constructor|]. destruct (lt y x) eqn:E.
  - constructor; [done|]. rewrite insert_by_perm. constructor; [by apply lt_asym|done].
  - constructor; [by constructor|]. constructor; [done|]. eapply Forall_impl; [exact Hy|]. intros z Hz. by eapply nlt_trans.
Qed.

Lemma sort_by_sorted l : StronglySorted not_after (sort_by l).
Proof. induction l as [|x l IH]; [constructor|]. by apply insert_by_sorted. Qed.
End sort.

Lemma sorted_weaken {A} (R S : A -> A -> Prop) l : (forall x y, R x y -> S x y) -> StronglySorted R l -> StronglySorted S l.
Proof. intros H. induction 1 as [|x l _ IH Hx]; constructor; [done|]. eapply Forall_impl; [exact Hx|]. intros y. apply H. Qed.

(** * Three-way comparisons *)

Class ThreeWay {A} (f : A -> A -> Z) : Prop := {
  cmp_anti x y : Z.sgn (f y x) = - Z.sgn (f x y);
  cmp_trans x y z : f x y <= 0 -> f y z <= 0 -> f x z <= 0;
}.

Lemma Compare_sgn a b : Compare a b = Z.sgn (a - b).
Proof. unfold Compare. destruct (Z.eqb_spec a b), (Z.ltb_spec a b); cbn; lia. Qed.

#[export] Instance Compare_three_way : ThreeWay Compare.
Proof. split; intros; rewrite !Compare_sgn in *; lia. Qed.

Lemma strcmp_anti a : forall b, Z.sgn (strcmp_bytes b a) = - Z.sgn (strcmp_bytes a b).
Proof.
  induction a as [|x a IH]; intros [|y b]; try done. cbn [strcmp_bytes].
  destruct (Z.ltb_spec x y), (Z.ltb_spec y x); try lia; [done..|]. apply IH.
Qed.

Lemma strcmp_le_trans a : forall b c, strcmp_bytes a b <= 0 -> strcmp_bytes b c <= 0 -> strcmp_bytes a c <= 0.
Proof.
  induction a as [|x a IH]; intros [|y b] [|z c]; cbn [strcmp_bytes]; try lia.
  repeat case_if; bool_to_prop; try lia. eauto.
Qed.

#[export] Instance strcmp_three_way : ThreeWay strcmp.
Proof. unfold strcmp. split; [intros; apply strcmp_anti|intros x y z; apply strcmp_le_trans]. Qed.

(** A member of the samples, compared; [Compare(sample2->m, sample1->m)] is the reverse. *)
#[export] Instance three_way_member {A B} (f : B -> B -> Z) (m : A -> B) : ThreeWay f -> ThreeWay (fun x y => f (m x) (m y)).
Proof. intros [H1 H2]. split; intros; [apply H1|by eapply H2]. Qed.

#[export] Instance three_way_reverse {A} (f : A -> A -> Z) : ThreeWay f -> ThreeWay (fun x y => f y x).
Proof. intros [H1 H2]. split; intros; [apply H1|by eapply H2]. Qed.

Section composed.
Context {EntryT : Type}.

(** The first comparison that tells the samples apart. *)
Fixpoint compare_all (l : SampleComparator EntryT) (x y : EntryT) : Z :=
  match l with
  | [] => 0
  | f :: l => if f x y =? 0 then compare_all l x y else f x y
  end.

Lemma less_compare l x y : less l x y = (compare_all l x y <? 0).
Proof. induction l as [|f l IH]; [done|]. cbn [less compare_all]. by destruct (Z.eqb_spec (f x y) 0) as [E|E]; cbn [negb]. Qed.

Lemma same_compare l x y : IsSameSample l x y = (compare_all l x y =? 0).
Proof.
  induction l as [|f l IH]; [done|]. cbn [IsSameSample compare_all]. destruct (Z.eqb_spec (f x y) 0) as [E|E]; cbn [negb]; [done|].
  by rewrite (proj2 (Z.eqb_neq _ _) E).
Qed.

#[export] Instance compare_all_three_way l : Forall ThreeWay l -> ThreeWay (compare_all l).
Proof.
  induction 1 as [|f l [Ha Ht] _ [IHa IHt]]; [by split|]. split; intros x y.
  - cbn [compare_all]. pose proof (Ha x y). specialize (IHa x y).
    destruct (Z.eqb_spec (f x y) 0), (Z.eqb_spec (f y x) 0); lia.
  - intros z. cbn [compare_all]. pose proof (Ha x y). pose proof (Ha y z). pose proof (Ha x z).
    pose proof (Ht x y z). pose proof (Ht y z x). pose proof (Ht z x y). specialize (IHt x y z).
    destruct (Z.eqb_spec (f x y) 0), (Z.eqb_spec (f y z) 0), (Z.eqb_spec (f x z) 0); lia.
Qed.

Context (l : SampleComparator EntryT) (Hl : Forall ThreeWay l).

Lemma less_strict_weak : StrictWeak (less l).
Proof.
  destruct (compare_all_three_way l Hl) as [Ha Ht].
  split; intros x y; [|intros z]; rewrite !less_compare; pose proof (Ha x y); bool_to_prop;
    [lia|]. intros H1 H2. apply Z.ltb_ge in H1, H2. apply Z.ltb_ge. pose proof (Ha y z). pose proof (Ha x z). specialize (Ht x y z). lia.
Qed.

Lemma same_iff x y : IsSameSample l x y = true <-> less l x y = false /\ less l y x = false.
Proof.
  destruct (compare_all_three_way l Hl) as [Ha _]. rewrite same_compare, !less_compare, Z.eqb_eq, !Z.ltb_ge.
  specialize (Ha x y). lia.
Qed.

Lemma same_equivalence : Equivalence (fun x y => IsSameSample l x y = true).
Proof.
  destruct (compare_all_three_way l Hl) as [Ha Ht]. split.
  - intros x. rewrite same_compare, Z.eqb_eq. specialize (Ha x x). lia.
  - intros x y. rewrite !same_compare, !Z.eqb_eq. specialize (Ha x y). lia.
  - intros x y z. rewrite !same_compare, !Z.eqb_eq. pose proof (Ha x y). pose proof (Ha y z). pose proof (Ha x z).
    pose proof (Ht x y z). pose proof (Ht z y x). lia.
Qed.
End composed.
