(* ===== verification/CallChain.v ===== *)
(** Model of src/simpleperf/callchain.h: [CallChainNode] and [CallChainRoot],
    a prefix tree of call chains with the period spent in each.

    An [EntryT*] is a value of the type [A], and [is_same_sample] an argument
    of type [A -> A -> bool].  A node owns its children
    ([std::unique_ptr]), so that the tree is an inductive type.  Positions and
    sizes of vectors in memory are [nat]. *)
From Stdlib Require Import ZArith Lia Sorted.
From stdpp Require Import base numbers list.
From S2P Require Import Prelude SampleComparator.

#[warnings="-register-all"]
Inductive CallChainNode (A : Type) : Type :=
| mkChainNode (period children_period : Z) (chain : list A) (children : list (CallChainNode A)).
Arguments mkChainNode {A} period children_period chain children.

(** The address of a vector of nodes: the indices of the nodes that lead to it
    from the root, the node that owns it last. *)
Abbreviation path := (list nat).

Section node.
Context {A : Type}.
Abbreviation NodeT := (CallChainNode A).

Definition period (n : NodeT) : Z := let 'mkChainNode p _ _ _ := n in p.
Definition children_period (n : NodeT) : Z := let 'mkChainNode _ c _ _ := n in c.
Definition chain (n : NodeT) : list A := let 'mkChainNode _ _ c _ := n in c.
Definition children (n : NodeT) : list NodeT := let 'mkChainNode _ _ _ c := n in c.

Definition add_period (p : Z) (n : NodeT) : NodeT :=
  mkChainNode (period n +u64 p) (children_period n) (chain n) (children n).
Definition add_children_period (p : Z) (n : NodeT) : NodeT :=
  mkChainNode (period n) (children_period n +u64 p) (chain n) (children n).
Definition set_children (l : list NodeT) (n : NodeT) : NodeT :=
  mkChainNode (period n) (children_period n) (chain n) l.

(** [CallChainRoot] *)
Record CallChainRoot := mkRoot {
  duplicated : bool;
  root_children_period : Z;
  root_children : list NodeT;
}.
Definition CallChainRoot_new : CallChainRoot := mkRoot false 0 [].

(** * Private operations *)

Definition AllocateNode (chain : list A) (chain_start : nat) (period children_period : Z) : NodeT :=
  mkChainNode period children_period (drop chain_start chain) [].

Definition SplitNode (parent : NodeT) (parent_length : nat) : NodeT :=
  let child := set_children (children parent)
                 (AllocateNode (chain parent) parent_length (period parent) (children_period parent)) in
  mkChainNode 0 (period child +u64 children_period child) (take parent_length (chain parent)) [child].

Section same.
Context (is_same_sample : A -> A -> bool).

(** The index of the node; [node->chain.front()] of an empty chain is undefined. *)
Fixpoint FindMatchingNode (nodes : list NodeT) (sample : A) : res (option nat) :=
  match nodes with
  | [] => Ok None
  | node :: nodes =>
      match chain node with
      | [] => OutOfBounds
      | front :: _ =>
          if is_same_sample front sample then Ok (Some O)
          else r ← FindMatchingNode nodes sample; Ok (option_map S r)
      end
  end.

(** The loop of [GetMatchingLengthInNode]. *)
Fixpoint match_length (node_chain chain : list A) : nat :=
  match node_chain, chain with
  | x :: node_chain, y :: chain => if is_same_sample x y then S (match_length node_chain chain) else O
  | _, _ => O
  end.
Definition GetMatchingLengthInNode (node : NodeT) (chain_ : list A) (chain_start : nat) : nat :=
  match_length (chain node) (drop chain_start chain_).

(** * [AddCallChain] *)

(** The loop, from the node [p]; [None] is lack of fuel. *)
Fixpoint add_loop (fuel : nat) (callchain : list A) (period : Z) (p : NodeT) (callchain_pos : nat) : option (res NodeT) :=
  match fuel with
  | O => None
  | S fuel =>
      let match_length := GetMatchingLengthInNode p callchain callchain_pos in
      if Nat.eqb match_length 0 then Some CheckFailed
      else
        let callchain_pos := (callchain_pos + match_length)%nat in
        let '(p, find_child) :=
          if Nat.ltb match_length (length (chain p)) then (SplitNode p match_length, false) else (p, true) in
        if Nat.eqb callchain_pos (length callchain) then Some (Ok (add_period period p))
        else
          let p := add_children_period period p in
          let push := set_children (children p ++ [AllocateNode callchain callchain_pos period 0]) p in
          if find_child then
            match (match callchain !! callchain_pos with Some x => FindMatchingNode (children p) x | None => OutOfBounds end) with
            | Ok (Some i) =>
                match children p !! i with
                | Some np =>
                    match add_loop fuel callchain period np callchain_pos with
                    | Some (Ok np) => Some (Ok (set_children (<[i := np]> (children p)) p))
                    | r => r
                    end
                | None => Some OutOfBounds
                end
            | Ok None => Some (Ok push)
            | CheckFailed => Some CheckFailed
            | OutOfBounds => Some OutOfBounds
            end
          else Some (Ok push)
  end.

Definition AddCallChain (callchain : list A) (period : Z) (r : CallChainRoot) : option (res CallChainRoot) :=
  let cp := root_children_period r +u64 period in
  match (match callchain !! O with Some x => FindMatchingNode (root_children r) x | None => OutOfBounds end) with
  | Ok None => Some (Ok (mkRoot (duplicated r) cp (root_children r ++ [AllocateNode callchain 0 period 0])))
  | Ok (Some i) =>
      match root_children r !! i with
      | Some p =>
          match add_loop (length callchain) callchain period p 0 with
          | Some (Ok p) => Some (Ok (mkRoot (duplicated r) cp (<[i := p]> (root_children r))))
          | Some CheckFailed => Some CheckFailed
          | Some OutOfBounds => Some OutOfBounds
          | None => None
          end
      | None => Some OutOfBounds
      end
  | CheckFailed => Some CheckFailed
  | OutOfBounds => Some OutOfBounds
  end.
End same.

(** * [SortByPeriod] *)

Definition total (n : NodeT) : Z := period n +u64 children_period n.
Definition CompareNodeByPeriod (n1 n2 : NodeT) : bool := total n2 <? total n1.

Fixpoint vector_at (p : path) (v : list NodeT) : option (list NodeT) :=
  match p with
  | [] => Some v
  | i :: p => match v !! i with Some n => vector_at p (children n) | None => None end
  end.
Fixpoint set_vector (p : path) (f : list NodeT -> list NodeT) (v : list NodeT) : list NodeT :=
  match p with
  | [] => f v
  | i :: p => alter (fun n => set_children (set_vector p f (children n)) n) i v
  end.

(** The children that are pushed. *)
Fixpoint child_paths (p : path) (i : nat) (v : list NodeT) : list path :=
  match v with
  | [] => []
  | node :: v => (match children node with [] => [] | _ => [p ++ [i]] end) ++ child_paths p (S i) v
  end.

(** [None]: lack of fuel. *)
Fixpoint sort_loop (fuel : nat) (queue : list path) (v : list NodeT) : option (res (list NodeT)) :=
  match queue with
  | [] => Some (Ok v)
  | p :: queue =>
      match fuel with
      | O => None
      | S fuel =>
          match vector_at p v with
          | None => Some OutOfBounds
          | Some u =>
              let u := sort_by CompareNodeByPeriod u in
              sort_loop fuel (queue ++ child_paths p 0 u) (set_vector p (fun _ => u) v)
          end
      end
  end.

Fixpoint node_size (n : NodeT) : nat := S (sum_list (node_size <$> children n)).
Definition SortByPeriod (r : CallChainRoot) : option (res CallChainRoot) :=
  match sort_loop (S (sum_list (node_size <$> root_children r))) [[]] (root_children r) with
  | Some (Ok v) => Some (Ok (mkRoot (duplicated r) (root_children_period r) v))
  | Some CheckFailed => Some CheckFailed
  | Some OutOfBounds => Some OutOfBounds
  | None => None
  end.
End node.
Arguments CallChainRoot : clear implicits.

(** * The tree as a map from call chains to periods *)

Definition zsum (l : list Z) : Z := foldr Z.add 0 l.

Lemma zsum_cons x l : zsum (x :: l) = x + zsum l.
Proof. done. Qed.

Lemma zsum_app l k : zsum (l ++ k) = zsum l + zsum k.
Proof. induction l as [|x l IH]; [done|]. cbn [app]. rewrite !zsum_cons. lia. Qed.

Lemma zsum_insert {B} (f : B -> Z) l i x y :
  l !! i = Some x -> zsum (f <$> <[i := y]> l) = zsum (f <$> l) - f x + f y.
Proof.
  revert i. induction l as [|z l IH]; intros [|i] H; try done.
  - injection H as ->. change (<[0%nat := y]> (x :: l)) with (y :: l). rewrite !fmap_cons, !zsum_cons. lia.
  - specialize (IH i H). change (<[S i := y]> (z :: l)) with (z :: <[i := y]> l). rewrite !fmap_cons, !zsum_cons. lia.
Qed.

Lemma u64_plus_l a b : u64 (u64 a + b) = u64 (a + b).
Proof. unfold u64. apply Zplus_mod_idemp_l. Qed.
Lemma u64_plus_r a b : u64 (a + u64 b) = u64 (a + b).
Proof. unfold u64. apply Zplus_mod_idemp_r. Qed.
Lemma u64_u64 a : u64 (u64 a) = u64 a.
Proof. apply u64_small, is_u64_u64. Qed.

(** Equalities of sums modulo 2^64. *)
Ltac usum := rewrite ?u64_plus_l, ?u64_plus_r, ?u64_u64, ?u64_plus_l, ?u64_plus_r; first [done | f_equal; lia].

Lemma u64_cong a b c : u64 a = u64 b -> u64 (a + c) = u64 (b + c).
Proof. intros H. by rewrite <- (u64_plus_l a), H, u64_plus_l. Qed.

Section tree.
Context {A : Type} (same : A -> A -> bool).
Abbreviation NodeT := (CallChainNode A).

(** The frames of [k] after the chain [ch], if [k] starts with [ch]. *)
Fixpoint strip (ch k : list A) : option (list A) :=
  match ch, k with
  | [], _ => Some k
  | x :: ch, y :: k => if same x y then strip ch k else None
  | _ :: _, [] => None
  end.
Definition same_chain (c k : list A) : bool := match strip c k with Some [] => true | _ => false end.

(** The period of the call chain [k] in a tree. *)
Fixpoint node_weight (n : NodeT) (k : list A) : Z :=
  match strip (chain n) k with
  | None => 0
  | Some k' => (match k' with [] => period n | _ => 0 end) + zsum ((fun c => node_weight c k') <$> children n)
  end.
Definition weight (l : list NodeT) (k : list A) : Z := zsum ((fun c => node_weight c k) <$> l).

Lemma node_weight_eq n k : node_weight n k =
  match strip (chain n) k with
  | None => 0
  | Some k' => (match k' with [] => period n | _ => 0 end) + weight (children n) k'
  end.
Proof. by destruct n. Qed.

Definition heads_differ (l : list NodeT) : Prop :=
  forall i j a b x y, l !! i = Some a -> l !! j = Some b -> head (chain a) = Some x -> head (chain b) = Some y ->
    same x y = true -> i = j.

(** A well-formed node: the periods of the children are accounted for, and no
    two of them start with the same sample. *)
#[warnings="-register-all"]
Inductive node_ok : NodeT -> Prop :=
| node_ok_intro p cp ch kids :
    ch <> [] -> is_u64 p -> Forall node_ok kids -> heads_differ kids -> cp = u64 (zsum (total <$> kids)) ->
    node_ok (mkChainNode p cp ch kids).
Definition forest_ok (l : list NodeT) : Prop := Forall node_ok l /\ heads_differ l.
Definition root_ok (r : CallChainRoot A) : Prop :=
  forest_ok (root_children r) /\ root_children_period r = u64 (zsum (total <$> root_children r)).

Context {Hsame : Equivalence (fun x y => same x y = true)}.

Lemma same_back x y : same x y = true -> same y x = true.
Proof. apply (@Equivalence_Symmetric _ _ Hsame). Qed.
Lemma same_trans x y z : same x y = true -> same y z = true -> same x z = true.
Proof. apply (@Equivalence_Transitive _ _ Hsame). Qed.

Lemma same_cong x y z : same x y = true -> same x z = same y z.
Proof.
  intros H. destruct (same x z) eqn:E1, (same y z) eqn:E2; try done; exfalso.
  - rewrite (same_trans y x z) in E2; [done|by apply same_back|done].
  - rewrite (same_trans x y z) in E1; done.
Qed.

Lemma same_sym x y : same x y = same y x.
Proof.
  destruct (same x y) eqn:E; symmetry; [by apply same_back|]. destruct (same y x) eqn:E'; [|done].
  apply same_back in E'. congruence.
Qed.

Abbreviation alike := (Forall2 (fun x y => same x y = true)).

Lemma strip_alike a b k : alike a b -> strip a k = strip b k.
Proof. intros H. revert k. induction H as [|x y a b Hxy _ IH]; intros [|z k]; try done. cbn [strip]. by rewrite (same_cong _ _ _ Hxy), IH. Qed.

Lemma strip_app a b k : strip (a ++ b) k = match strip a k with Some k' => strip b k' | None => None end.
Proof. revert k. induction a as [|x a IH]; intros [|y k]; try done. cbn [strip app]. by destruct (same x y). Qed.

Lemma match_length_spec ch rest (m := match_length same ch rest) :
  (m <= length ch /\ m <= length rest)%nat /\ alike (take m ch) (take m rest) /\
  (forall x y, ch !! m = Some x -> rest !! m = Some y -> same x y = false).
Proof.
  subst m. revert rest. induction ch as [|x ch IH]; intros [|y rest]; cbn [match_length]; try (split_and!; cbn; try lia; done).
  destruct (same x y) eqn:E; [|split_and!; cbn; try lia; try done; intros; simplify_eq; done].
  destruct (IH rest) as (B & F & N). cbn. split_and!; [lia|lia|by constructor|done].
Qed.

(** A new node. *)
Lemma alloc_ok l p : l <> [] -> is_u64 p -> node_ok (mkChainNode p 0 l []).
Proof. intros. by constructor. Qed.

Lemma alloc_weight l p k : node_weight (mkChainNode p 0 l []) k = if same_chain l k then p else 0.
Proof. rewrite node_weight_eq. cbn [chain period children]. unfold same_chain. destruct (strip l k) as [[|]|]; cbn; lia. Qed.

Lemma heads_differ_snoc l n x :
  heads_differ l -> head (chain n) = Some x -> (forall a y, a ∈ l -> head (chain a) = Some y -> same y x = false) ->
  heads_differ (l ++ [n]).
Proof.
  intros Hd Hn Hx i j a b y z Hi Hj Ha Hb E. destruct (decide (i < length l)%nat) as [Hl|Hl].
  - rewrite lookup_app_l in Hi by done. destruct (decide (j < length l)%nat) as [Hl'|Hl'].
    + rewrite lookup_app_l in Hj by done. by eapply Hd.
    + rewrite lookup_app_r in Hj by lia. apply list_lookup_singleton_Some in Hj as [_ <-]. rewrite Hn in Hb. injection Hb as ->.
      apply list_elem_of_lookup_2 in Hi. by rewrite (Hx a y Hi Ha) in E.
  - rewrite lookup_app_r in Hi by lia. apply list_lookup_singleton_Some in Hi as [Hi <-]. rewrite Hn in Ha. injection Ha as ->.
    destruct (decide (j < length l)%nat) as [Hl'|Hl'].
    + rewrite lookup_app_l in Hj by done. apply list_elem_of_lookup_2 in Hj. rewrite same_sym, (Hx b z Hj Hb) in E. done.
    + rewrite lookup_app_r in Hj by lia. apply list_lookup_singleton_Some in Hj as [Hj _]. lia.
Qed.

Lemma heads_differ_insert l i n n' :
  heads_differ l -> l !! i = Some n -> head (chain n') = head (chain n) -> heads_differ (<[i := n']> l).
Proof.
  intros Hd Hi Hh j k a b x y Ha Hb Hx Hy E.
  assert (forall j a, <[i := n']> l !! j = Some a -> exists a', l !! j = Some a' /\ head (chain a') = head (chain a)) as H.
  { clear -Hi Hh. intros j a H. destruct (decide (i = j)) as [<-|Hne].
    - rewrite list_lookup_insert_eq in H by (by eapply lookup_lt_Some). injection H as <-. by exists n.
    - rewrite list_lookup_insert_ne in H by done. by exists a. }
  destruct (H _ _ Ha) as (a' & Ha' & Ea). destruct (H _ _ Hb) as (b' & Hb' & Eb). eapply Hd; [exact Ha'|exact Hb'| | |exact E]; congruence.
Qed.

Lemma FindMatchingNode_spec l x :
  Forall node_ok l ->
  (exists i n y, FindMatchingNode same l x = Ok (Some i) /\ l !! i = Some n /\ head (chain n) = Some y /\ same y x = true) \/
  (FindMatchingNode same l x = Ok None /\ forall a y, a ∈ l -> head (chain a) = Some y -> same y x = false).
Proof.
  induction 1 as [|n l Hn _ IH]; [right; split; [done|]; intros a y Ha; by apply not_elem_of_nil in Ha|]. cbn [FindMatchingNode].
  destruct Hn as [p cp [|y ch] kids Hne Hp Hk Hd Hcp]; [done|]. cbn [chain]. destruct (same y x) eqn:E.
  { left. by exists 0%nat, (mkChainNode p cp (y :: ch) kids), y. }
  destruct IH as [(i & n & z & -> & Hi & Hz & Hs)|[-> Hno]].
  - left. by exists (S i), n, z.
  - right. split; [done|]. intros a z Ha Hz. apply elem_of_cons in Ha as [->|Ha]; [|by eapply Hno].
    cbn in Hz. by injection Hz as <-.
Qed.

(** * Adding a chain *)

(** [q'] is [q] with the period [p] for the chain [rest]. *)
Record added (q q' : NodeT) (rest : list A) (p : Z) : Prop := {
  ad_ok : node_ok q';
  ad_head : head (chain q') = head (chain q);
  ad_total : total q' = u64 (total q + p);
  ad_weight : forall k, u64 (node_weight q' k) = u64 (node_weight q k + (if same_chain rest k then p else 0));
}.

Lemma added_compose q q1 q' rest p :
  head (chain q1) = head (chain q) -> total q1 = total q -> (forall k, node_weight q1 k = node_weight q k) ->
  added q1 q' rest p -> added q q' rest p.
Proof. intros H1 H2 H3 []. split; [done|congruence|congruence|]. intros k. by rewrite <- H3. Qed.

Lemma SplitNode_spec q m (q1 := SplitNode q m) :
  node_ok q -> (0 < m < length (chain q))%nat ->
  node_ok q1 /\ head (chain q1) = head (chain q) /\ total q1 = total q /\ (forall k, node_weight q1 k = node_weight q k) /\
  chain q1 = take m (chain q) /\
  exists n y, children q1 = [n] /\ chain q !! m = Some y /\ head (chain n) = Some y.
Proof.
  intros Hq Hm. destruct Hq as [p cp ch kids Hne Hp Hk Hd Hcp]. subst q1. unfold SplitNode, AllocateNode, set_children.
  cbn [chain period children_period children] in *. set (n := mkChainNode p cp (drop m ch) kids).
  assert (node_ok n) as Hn by (constructor; try done; intros E; apply (f_equal length) in E; rewrite length_drop in E; cbn in E; lia).
  assert (total n = u64 (p + cp)) as Et by done.
  destruct (lookup_lt_is_Some_2 ch m) as [y Hy]; [lia|]. split_and!.
  - constructor; [intros E; apply (f_equal length) in E; rewrite length_take in E; cbn in E; lia|unfold_u; lia|by constructor| |].
    + intros i j a b u v Ha Hb _ _ _. apply list_lookup_singleton_Some in Ha as [-> _]. by apply list_lookup_singleton_Some in Hb as [-> _].
    + cbn. rewrite <- Et, Z.add_0_r. rewrite Et. by rewrite u64_u64.
  - destruct ch, m; cbn in *; try done; lia.
  - unfold total. cbn [period children_period]. usum.
  - intros k. rewrite !node_weight_eq. cbn [chain period children]. rewrite <- (take_drop m ch) at 2. rewrite strip_app.
    destruct (strip (take m ch) k) as [k'|]; [|done]. unfold weight at 1. cbn [fmap list_fmap]. rewrite zsum_cons.
    change (zsum []) with 0. rewrite node_weight_eq. cbn [chain period children n].
    replace (match k' with [] => 0 | _ => 0 end) with 0 by (by destruct k'). lia.
  - done.
  - exists n, y. split_and!; [done|done|]. unfold n. cbn [chain]. by rewrite head_lookup, lookup_drop, Nat.add_0_r.
Qed.

Section matched.
(** The chain of [q] is the start [r1] of the rest of the call chain. *)
Context (q : NodeT) (r1 r2 : list A) (p : Z) (Hq : node_ok q) (Hp : is_u64 p) (Hr1 : alike (chain q) r1).

Lemma matched_rest k : strip (r1 ++ r2) k = match strip (chain q) k with Some k' => strip r2 k' | None => None end.
Proof. rewrite strip_app. by rewrite (strip_alike _ _ k Hr1). Qed.

Lemma add_period_added : r2 = [] -> added q (add_period p q) (r1 ++ r2) p.
Proof.
  intros E. pose proof matched_rest as Hm. subst r2. destruct Hq as [p0 cp ch kids Hne Hp0 Hk Hd Hcp]. unfold add_period.
  split; [constructor; try done; apply is_u64_u64|done|unfold total; cbn [period children_period]; usum|].
  intros k. rewrite !node_weight_eq. unfold same_chain. rewrite Hm. cbn [chain period children strip] in *.
  destruct (strip ch k) as [[|x k']|]; usum.
Qed.

(** A change to the children that adds [p] for the chain [r2]. *)
Lemma add_to_children l' :
  r2 <> [] -> forest_ok l' -> u64 (zsum (total <$> l')) = u64 (zsum (total <$> children q) + p) ->
  (forall k, u64 (weight l' k) = u64 (weight (children q) k + (if same_chain r2 k then p else 0))) ->
  added q (set_children l' (add_children_period p q)) (r1 ++ r2) p.
Proof.
  intros Hr2 [Hl Hh] Ht Hw. pose proof matched_rest as Hm. destruct Hq as [p0 cp ch kids Hne Hp0 Hk Hd Hcp].
  unfold set_children, add_children_period. cbn [chain period children children_period] in *.
  split; [constructor; try done; by rewrite Hcp, u64_plus_l|done|unfold total; cbn [period children_period]; usum|].
  intros k. rewrite !node_weight_eq. unfold same_chain in *. rewrite Hm. cbn [chain period children].
  destruct (strip ch k) as [k'|]; [|by rewrite Z.add_0_r]. specialize (Hw k').
  rewrite <- u64_plus_r, Hw, u64_plus_r. f_equal. lia.
Qed.

Lemma push_added x :
  head r2 = Some x -> (forall a y, a ∈ children q -> head (chain a) = Some y -> same y x = false) ->
  added q (set_children (children q ++ [mkChainNode p 0 r2 []]) (add_children_period p q)) (r1 ++ r2) p.
Proof.
  intros Hx Hno. assert (r2 <> []) as Hne by (by destruct r2). apply add_to_children; [done| | |].
  - destruct Hq as [p0 cp ch kids]. cbn [children] in *. split; [apply Forall_app; split; [done|by apply Forall_singleton, alloc_ok]|].
    by eapply heads_differ_snoc.
  - rewrite fmap_app, zsum_app. unfold total at 2. cbn. rewrite !Z.add_0_r. usum.
  - intros k. unfold weight. rewrite fmap_app, zsum_app. cbn [fmap list_fmap]. rewrite zsum_cons, alloc_weight. change (zsum []) with 0.
    usum.
Qed.

Lemma descend_added i n n' :
  children q !! i = Some n -> r2 <> [] -> added n n' r2 p ->
  added q (set_children (<[i := n']> (children q)) (add_children_period p q)) (r1 ++ r2) p.
Proof.
  intros Hi Hne [Ho Hh Ht Hw]. apply add_to_children; [done| | |].
  - destruct Hq as [p0 cp ch kids]. cbn [children] in *. split; [by apply Forall_insert|by eapply heads_differ_insert].
  - rewrite (zsum_insert total _ _ n n') by done. rewrite Ht.
    replace (zsum (total <$> children q) - total n + u64 (total n + p)) with (u64 (total n + p) + (zsum (total <$> children q) - total n)) by lia. usum.
  - intros k. unfold weight. rewrite (zsum_insert (fun c => node_weight c k) _ _ n n') by done. specialize (Hw k).
    set (s := zsum _).
    replace (s - node_weight n k + node_weight n' k) with (node_weight n' k + (s - node_weight n k)) by lia.
    rewrite (u64_cong _ _ _ Hw). f_equal. lia.
Qed.
End matched.

Lemma add_loop_ok callchain p (Hp : is_u64 p) fuel : forall q pos x y,
  node_ok q -> head (chain q) = Some x -> callchain !! pos = Some y -> same x y = true -> (length callchain - pos <= fuel)%nat ->
  exists q', add_loop same fuel callchain p q pos = Some (Ok q') /\ added q q' (drop pos callchain) p.
Proof.
  induction fuel as [|fuel IH]; intros q pos x y Hq Hx Hy E Hf; [apply lookup_lt_Some in Hy; lia|].
  cbn [add_loop]. unfold GetMatchingLengthInNode. set (rest := drop pos callchain).
  destruct (match_length_spec (chain q) rest) as ((B1 & B2) & Hal & Hstop). set (m := match_length same (chain q) rest) in *.
  assert (length rest = length callchain - pos)%nat as Hlr by apply length_drop.
  assert (0 < m)%nat as Hm0.
  { unfold m, rest. rewrite (drop_S _ y) by done. destruct (chain q) as [|x' ch]; [done|]. cbn in Hx. injection Hx as ->.
    cbn [match_length]. rewrite E. lia. }
  destruct (Nat.eqb_spec m 0); [lia|].
  assert (rest = take m rest ++ drop m rest) as Erest by (by rewrite take_drop).
  assert (drop (pos + m) callchain = drop m rest) as Edrop by (unfold rest; by rewrite drop_drop).
  set (q1 := if Nat.ltb m (length (chain q)) then SplitNode q m else q).
  set (b := negb (Nat.ltb m (length (chain q)))).
  replace (if Nat.ltb m (length (chain q)) then (SplitNode q m, false) else (q, true)) with (q1, b)
    by (unfold q1, b; by destruct (Nat.ltb m (length (chain q)))).
  assert (node_ok q1 /\ head (chain q1) = head (chain q) /\ total q1 = total q /\ (forall k, node_weight q1 k = node_weight q k) /\
    alike (chain q1) (take m rest) /\ (b = false -> forall z a v, head (drop m rest) = Some z -> a ∈ children q1 -> head (chain a) = Some v -> same v z = false))
    as (Hq1 & Hh & Ht & Hw & Hal1 & Hsplit).
  { unfold q1, b. destruct (Nat.ltb_spec m (length (chain q))) as [Hlt|Hge]; cbn [negb].
    - destruct (SplitNode_spec q m Hq) as (S1 & S2 & S3 & S4 & S5 & n1 & v1 & S6 & S7 & S8); [lia|].
      split; [done|]. split; [done|]. split; [done|]. split; [done|]. split; [by rewrite S5|]. intros _ z a v Hz Ha Hv. rewrite S6 in Ha. apply list_elem_of_singleton in Ha as ->.
      rewrite S8 in Hv. injection Hv as <-. rewrite head_lookup, lookup_drop, Nat.add_0_r in Hz. by apply Hstop.
    - split_and!; try done. by rewrite take_ge in Hal by lia. }
  assert (forall q', added q1 q' (take m rest ++ drop m rest) p -> added q q' rest p) as Hfin.
  { intros q' Ha. rewrite take_drop in Ha. by eapply added_compose. }
  destruct (Nat.eqb_spec (pos + m) (length callchain)) as [He|He].
  { eexists. split; [done|]. apply Hfin, add_period_added; [done|done|by apply drop_ge; lia]. }
  destruct (lookup_lt_is_Some_2 callchain (pos + m)) as [z Hz]; [lia|].
  assert (head (drop m rest) = Some z) as Hz' by (by rewrite <- Edrop, head_lookup, lookup_drop, Nat.add_0_r).
  assert (drop m rest <> []) as Hne by (by intros E0; rewrite E0 in Hz').
  unfold AllocateNode. rewrite Edrop. change (children (add_children_period p q1)) with (children q1).
  destruct b eqn:Eb.
  - rewrite Hz. destruct (FindMatchingNode_spec (children q1) z) as [(i & n1 & v & -> & Hi & Hv & Hs)|[-> Hno]]; [by destruct Hq1| |].
    + rewrite Hi. destruct (IH n1 (pos + m)%nat v z) as (n' & -> & Ha); [|done|done|done|lia|].
      { destruct Hq1 as [? ? ? kids ? ? Hk]. by eapply (Forall_lookup_1 _ _ _ _ Hk). }
      rewrite Edrop in Ha. eexists. split; [done|]. by eapply Hfin, descend_added.
    + eexists. split; [done|]. by eapply Hfin, push_added.
  - eexists. split; [done|]. eapply Hfin, push_added; [done|done|done|done|]. intros a v Ha Hv. by eapply Hsplit.
Qed.

Lemma add_call_chain_ok callchain p r :
  root_ok r -> callchain <> [] -> is_u64 p ->
  exists r', AddCallChain same callchain p r = Some (Ok r') /\ root_ok r' /\ duplicated r' = duplicated r /\
    root_children_period r' = root_children_period r +u64 p /\
    forall k, u64 (weight (root_children r') k) = u64 (weight (root_children r) k + (if same_chain callchain k then p else 0)).
Proof.
  intros [[Hf Hd] Hcp] Hne Hp. destruct callchain as [|x rest] eqn:Ec; [done|]. rewrite <- Ec. unfold AddCallChain.
  assert (callchain !! 0%nat = Some x) as Hx by (by rewrite Ec). rewrite <- Ec in Hne. clear Ec. rewrite Hx.
  destruct (FindMatchingNode_spec (root_children r) x Hf) as [(i & n & y & -> & Hi & Hy & Hs)|[-> Hno]].
  - rewrite Hi. destruct (add_loop_ok callchain p Hp (length callchain) n 0 y x) as (n' & -> & [Ho Hh Ht Hw]);
      [by eapply (Forall_lookup_1 _ _ _ _ Hf)|done|done|done|lia|].
    eexists. split; [done|]. split_and!; cbn [root_children root_children_period duplicated]; [|done|done|].
    + split; [split; [by apply Forall_insert|by eapply heads_differ_insert]|]. cbn [root_children root_children_period].
      rewrite Hcp, (zsum_insert total _ _ n n'), Ht by done.
      replace (zsum (total <$> root_children r) - total n + u64 (total n + p)) with (u64 (total n + p) + (zsum (total <$> root_children r) - total n)) by lia.
      usum.
    + intros k. unfold weight. rewrite (zsum_insert (fun c => node_weight c k) _ _ n n') by done. specialize (Hw k).
      set (s := zsum _). replace (s - node_weight n k + node_weight n' k) with (node_weight n' k + (s - node_weight n k)) by lia.
      rewrite (u64_cong _ _ _ Hw). f_equal. rewrite drop_0. lia.
  - eexists. split; [done|]. unfold AllocateNode. rewrite drop_0.
    split_and!; cbn [root_children root_children_period duplicated]; [|done|done|].
    + split; [split|]; cbn [root_children root_children_period].
      * apply Forall_app. split; [done|]. by apply Forall_singleton, alloc_ok.
      * eapply heads_differ_snoc; [done| |done]. cbn [chain]. by rewrite head_lookup.
      * rewrite Hcp, fmap_app, zsum_app. unfold total at 3. cbn. rewrite !Z.add_0_r. usum.
    + intros k. unfold weight. rewrite fmap_app, zsum_app. cbn [fmap list_fmap]. rewrite zsum_cons, alloc_weight.
      change (zsum []) with 0. usum.
Qed.

(** C12: a call chain is counted once.  With [same] an equivalence on samples,
    [AddCallChain] of a non-empty chain with a 64-bit period to a well-formed
    tree returns, no [CHECK] fails, the tree stays well-formed (in
    particular every node's [children_period] is the sum over its children, and
    siblings start with different samples), the period of the root grows by
    [period], and, with the tree read as a map from call chains to periods,
    exactly the chains that are the same as [callchain] grow by [period], all
    sums modulo 2^64. *)
Theorem CallChain_counts callchain p r :
  root_ok r -> callchain <> [] -> is_u64 p ->
  exists r', AddCallChain same callchain p r = Some (Ok r') /\ root_ok r' /\ duplicated r' = duplicated r /\
    root_children_period r' = root_children_period r +u64 p /\
    forall k, u64 (weight (root_children r') k) = u64 (weight (root_children r) k + (if same_chain callchain k then p else 0)).
Proof. intros Hr Hne Hp. exact (add_call_chain_ok callchain p r Hr Hne Hp). Qed.
End tree.

Lemma nat_eqb_equivalence : Equivalence (fun x y => Nat.eqb x y = true).
Proof.
  split; intros x; [apply Nat.eqb_refl|intros y; rewrite !Nat.eqb_eq; congruence|intros y z; rewrite !Nat.eqb_eq; congruence].
Qed.

Lemma CallChain_counts_witness :
  let r := mkRoot false 7 [mkChainNode 7 0 [1; 2; 3]%nat []] in
  exists r', AddCallChain Nat.eqb [1; 2; 4]%nat 5 r = Some (Ok r') /\ root_ok Nat.eqb r' /\ duplicated r' = duplicated r /\
    root_children_period r' = root_children_period r +u64 5 /\
    forall k, u64 (weight Nat.eqb (root_children r') k) =
      u64 (weight Nat.eqb (root_children r) k + (if same_chain Nat.eqb [1; 2; 4]%nat k then 5 else 0)).
Proof.
  apply (CallChain_counts (Hsame := nat_eqb_equivalence) Nat.eqb [1; 2; 4]%nat 5
    (mkRoot false 7 [mkChainNode 7 0 [1; 2; 3]%nat []])); [|discriminate|unfold is_u64; lia].
  split; [split|reflexivity].
  - apply Forall_singleton, alloc_ok; [discriminate|unfold is_u64; lia].
  - intros i j a b x y Hi Hj _ _ _. apply list_lookup_singleton_Some in Hi as [-> _]. by apply list_lookup_singleton_Some in Hj as [-> _].
Defined.

(** * Sorting *)

Section sorting.
Context {A : Type}.
Abbreviation NodeT := (CallChainNode A).

Lemma chain_node_ind (P : NodeT -> Prop) :
  (forall p cp ch kids, Forall P kids -> P (mkChainNode p cp ch kids)) -> forall n, P n.
Proof.
  intros H. fix IH 1. intros [p cp ch kids]. apply H. induction kids as [|k kids IHk]; constructor; [apply IH|exact IHk].
Qed.

(** The specification: every vector of children sorted. *)
Fixpoint sort_node (n : NodeT) : NodeT := set_children (sort_by CompareNodeByPeriod (sort_node <$> children n)) n.
Definition sort_vector (v : list NodeT) : list NodeT := sort_by CompareNodeByPeriod (sort_node <$> v).

Lemma sort_node_eq n : sort_node n = set_children (sort_vector (children n)) n.
Proof. by destruct n. Qed.

#[export] Instance by_period_strict_weak : StrictWeak (@CompareNodeByPeriod A).
Proof. unfold CompareNodeByPeriod. split; intros x y; [|intros z]; rewrite ?Z.ltb_lt, ?Z.ltb_ge; lia. Qed.

Lemma sort_by_fmap (g : NodeT -> NodeT) l : (forall n, total (g n) = total n) ->
  sort_by CompareNodeByPeriod (g <$> l) = g <$> sort_by CompareNodeByPeriod l.
Proof.
  intros Hg. assert (forall x l, insert_by CompareNodeByPeriod (g x) (g <$> l) = g <$> insert_by CompareNodeByPeriod x l) as Hi.
  { intros x k. induction k as [|y k IH]; [done|]. rewrite fmap_cons. cbn [insert_by]. unfold CompareNodeByPeriod at 1 3. rewrite !Hg.
    destruct (total x <? total y); [|done]. by rewrite IH. }
  induction l as [|x l IH]; [done|]. rewrite fmap_cons. unfold sort_by in *. cbn [foldr]. by rewrite IH, Hi.
Qed.

Lemma total_sort_node n : total (sort_node n) = total n.
Proof. by destruct n. Qed.

Lemma sort_vector_eq v : sort_vector v = sort_node <$> sort_by CompareNodeByPeriod v.
Proof. apply sort_by_fmap, total_sort_node. Qed.

(** ** Addresses *)

Lemma set_vector_app p q f (v : list NodeT) : set_vector (p ++ q) f v = set_vector p (set_vector q f) v.
Proof.
  revert v. induction p as [|i p IH]; intros v; [done|]. cbn [app set_vector]. apply list_alter_ext; [|done].
  intros n _. by rewrite IH.
Qed.

Lemma set_vector_twice p f g (v : list NodeT) : set_vector p f (set_vector p g v) = set_vector p (fun u => f (g u)) v.
Proof.
  revert v. induction p as [|i p IH]; intros v; [done|]. cbn [set_vector]. rewrite list_alter_alter_eq. apply list_alter_ext; [|done].
  intros n _. unfold compose, set_children. cbn [period children_period chain children]. by rewrite IH.
Qed.

Lemma set_vector_ext p f g (v : list NodeT) : (forall u, vector_at p v = Some u -> f u = g u) -> set_vector p f v = set_vector p g v.
Proof.
  revert v. induction p as [|i p IH]; intros v H; cbn [set_vector]; [by apply H|]. apply list_alter_ext; [|done].
  intros n Hn. rewrite (IH (children n)); [done|]. intros u Hu. apply H. cbn [vector_at]. by rewrite Hn.
Qed.

(** Neither vector is part of the other. *)
Fixpoint apart (p q : path) : Prop :=
  match p, q with
  | i :: p, j :: q => i <> j \/ apart p q
  | _, _ => False
  end.

Lemma apart_sym p : forall q, apart p q -> apart q p.
Proof. induction p as [|i p IH]; intros [|j q] H; try done. cbn in *. destruct H; [left; congruence|right; auto]. Qed.

Lemma apart_app p q r : apart p q -> apart p (q ++ r).
Proof. revert q. induction p as [|i p IH]; intros [|j q] H; try done. cbn in *. destruct H; [by left|right; auto]. Qed.

Lemma apart_children p i j : i <> j -> apart (p ++ [i]) (p ++ [j]).
Proof. intros H. induction p as [|k p IH]; cbn; [by left|by right]. Qed.

Lemma set_vector_comm p : forall q f g (v : list NodeT), apart p q ->
  set_vector p f (set_vector q g v) = set_vector q g (set_vector p f v).
Proof.
  induction p as [|i p IH]; intros [|j q] f g v H; try done. cbn [set_vector]. destruct (decide (i = j)) as [->|Hne].
  - destruct H as [|H]; [done|]. rewrite !list_alter_alter_eq. apply list_alter_ext; [|done]. intros n _.
    unfold compose, set_children. cbn [period children_period chain children]. by rewrite IH.
  - by apply list_alter_alter_ne.
Qed.

Lemma vector_at_apart p : forall q f (v : list NodeT), apart p q -> vector_at q (set_vector p f v) = vector_at q v.
Proof.
  induction p as [|i p IH]; intros [|j q] f v H; try done. cbn [set_vector vector_at]. destruct (decide (i = j)) as [->|Hne].
  - destruct H as [|H]; [done|]. rewrite list_lookup_alter_eq. destruct (v !! j) as [n|]; [|done]. cbn [fmap option_fmap option_map].
    unfold set_children. cbn [children]. by apply IH.
  - by rewrite list_lookup_alter_ne by done.
Qed.

Lemma vector_at_app p q (v u : list NodeT) : vector_at p v = Some u -> vector_at (p ++ q) v = vector_at q u.
Proof.
  revert v. induction p as [|i p IH]; intros v H; [by injection H as ->|]. cbn [app vector_at] in *. destruct (v !! i); [|done]. by apply IH.
Qed.

Lemma vector_at_set p f (v u : list NodeT) : vector_at p v = Some u -> vector_at p (set_vector p f v) = Some (f u).
Proof.
  revert v. induction p as [|i p IH]; intros v H; cbn [vector_at set_vector] in *; [by injection H as ->|].
  rewrite list_lookup_alter_eq. destruct (v !! i) as [n|]; [|done]. cbn. by apply IH.
Qed.

(** ** The queue *)

Definition sort_all (queue : list path) (v : list NodeT) : list NodeT := foldl (fun v p => set_vector p sort_vector v) v queue.

Lemma sort_all_set queue : forall p f v, Forall (apart p) queue -> sort_all queue (set_vector p f v) = set_vector p f (sort_all queue v).
Proof.
  induction queue as [|q queue IH]; intros p f v H; [done|]. apply Forall_cons_1 in H as [Hq H]. unfold sort_all in *. cbn [foldl].
  rewrite <- (set_vector_comm p q) by done. by apply IH.
Qed.

Lemma sort_all_comm q1 : forall q2 v, Forall (fun p => Forall (apart p) q2) q1 -> sort_all q2 (sort_all q1 v) = sort_all q1 (sort_all q2 v).
Proof.
  induction q1 as [|p q1 IH]; intros q2 v H; [done|]. apply Forall_cons_1 in H as [Hp H].
  change (sort_all (p :: q1) v) with (sort_all q1 (set_vector p sort_vector v)).
  change (sort_all (p :: q1) (sort_all q2 v)) with (sort_all q1 (set_vector p sort_vector (sort_all q2 v))).
  rewrite IH by done. by rewrite sort_all_set.
Qed.

Lemma set_vector_id p (v : list NodeT) : set_vector p (fun u => u) v = v.
Proof.
  revert v. induction p as [|i p IH]; intros v; [done|]. cbn [set_vector]. apply list_alter_id. intros n. rewrite IH. by destruct n.
Qed.

Lemma sort_all_under p qs : forall v, sort_all (app p <$> qs) v = set_vector p (sort_all qs) v.
Proof.
  induction qs as [|q qs IH]; intros v; [by rewrite set_vector_id|]. rewrite fmap_cons. unfold sort_all in *. cbn [foldl].
  rewrite IH, set_vector_app, set_vector_twice. done.
Qed.

Lemma child_paths_under p i (u : list NodeT) : child_paths p i u = app p <$> child_paths [] i u.
Proof. revert i. induction u as [|n u IH]; intros i; [done|]. cbn [child_paths]. rewrite fmap_app, <- IH. by destruct (children n). Qed.

Lemma sort_children u : forall pre, sort_all (child_paths [] (length pre) u) (pre ++ u) = pre ++ (sort_node <$> u).
Proof.
  induction u as [|n u IH]; intros pre; [done|]. cbn [child_paths app]. rewrite fmap_cons.
  assert (forall n', sort_all (child_paths [] (S (length pre)) u) (pre ++ n' :: u) = pre ++ n' :: (sort_node <$> u)) as H.
  { intros n'. specialize (IH (pre ++ [n'])). rewrite length_app in IH. cbn [length] in IH. rewrite Nat.add_1_r in IH.
    by rewrite <- !app_assoc in IH. }
  destruct (children n) as [|k kids] eqn:E.
  - cbn [app]. rewrite H. f_equal. f_equal. rewrite sort_node_eq, E. destruct n. cbn in E |- *. by rewrite E.
  - cbn [app]. unfold sort_all. cbn [foldl set_vector]. fold (sort_all (child_paths [] (S (length pre)) u)).
    rewrite alter_app_r_alt, Nat.sub_diag by done. cbn [alter list_alter]. rewrite <- sort_node_eq. apply H.
Qed.

Lemma sort_below p (u v : list NodeT) : vector_at p v = Some u ->
  sort_all (child_paths p 0 (sort_by CompareNodeByPeriod u)) (set_vector p (fun _ => sort_by CompareNodeByPeriod u) v) =
    set_vector p sort_vector v.
Proof.
  intros H. rewrite child_paths_under, sort_all_under, set_vector_twice. apply set_vector_ext. intros w Hw. rewrite H in Hw. injection Hw as <-.
  rewrite sort_vector_eq. apply (sort_children _ []).
Qed.

Fixpoint child_vectors (v : list NodeT) : list (list NodeT) :=
  match v with
  | [] => []
  | n :: v => (match children n with [] => [] | _ => [children n] end) ++ child_vectors v
  end.

Lemma child_paths_at p v u : forall pre, vector_at p v = Some (pre ++ u) ->
  Forall2 (fun q w => vector_at q v = Some w) (child_paths p (length pre) u) (child_vectors u).
Proof.
  induction u as [|n u IH]; intros pre H; [constructor|]. cbn [child_paths child_vectors].
  assert (Forall2 (fun q w => vector_at q v = Some w) (child_paths p (S (length pre)) u) (child_vectors u)) as H'.
  { specialize (IH (pre ++ [n])). rewrite length_app in IH. cbn [length] in IH. rewrite Nat.add_1_r, <- app_assoc in IH. by apply IH. }
  destruct (children n) as [|k kids] eqn:E; [done|]. constructor; [|done].
  rewrite (vector_at_app _ _ _ _ H). cbn [vector_at]. rewrite list_lookup_middle by done. by rewrite E.
Qed.

Definition vector_cost (v : list NodeT) : nat := S (sum_list (node_size <$> v)).

Lemma child_cost (u : list NodeT) : (sum_list (vector_cost <$> child_vectors u) <= sum_list (node_size <$> u))%nat.
Proof.
  induction u as [|n u IH]; [done|]. cbn [child_vectors].
  destruct n as [p cp ch [|k kids]]; cbn [children app]; rewrite ?fmap_cons; cbn [sum_list_with] in *; unfold id in *; [cbn [node_size]; lia|].
  unfold vector_cost at 1. cbn [node_size children]. unfold id. lia.
Qed.

Lemma sort_cost (u : list NodeT) : vector_cost (sort_by CompareNodeByPeriod u) = vector_cost u.
Proof. unfold vector_cost. by rewrite sort_by_perm. Qed.

Lemma child_paths_in p q (u : list NodeT) : forall i, q ∈ child_paths p i u -> exists j, (i <= j)%nat /\ q = p ++ [j].
Proof.
  induction u as [|n u IH]; intros i H; cbn [child_paths] in H; [by apply not_elem_of_nil in H|]. apply elem_of_app in H as [H|H].
  - destruct (children n); [by apply not_elem_of_nil in H|]. apply list_elem_of_singleton in H as ->. by exists i.
  - destruct (IH _ H) as (j & Hj & ->). exists j. split; [lia|done].
Qed.

Lemma child_paths_apart p (u : list NodeT) : forall i, StronglySorted apart (child_paths p i u).
Proof.
  induction u as [|n u IH]; intros i; cbn [child_paths]; [constructor|]. destruct (children n); [apply IH|]. constructor; [apply IH|].
  apply Forall_forall. intros q Hq. destruct (child_paths_in _ _ _ _ Hq) as (j & Hj & ->). apply apart_children. lia.
Qed.

Lemma sorted_app (l k : list path) :
  StronglySorted apart l -> StronglySorted apart k -> Forall (fun p => Forall (apart p) k) l -> StronglySorted apart (l ++ k).
Proof.
  induction 1 as [|p l Hl IH Hp]; intros Hk H; [done|]. apply Forall_cons_1 in H as [Hpk H]. cbn [app]. constructor; [by apply IH|].
  by apply Forall_app.
Qed.

Lemma sort_loop_ok fuel : forall queue us (v : list NodeT),
  Forall2 (fun q u => vector_at q v = Some u) queue us -> StronglySorted apart queue ->
  (sum_list (vector_cost <$> us) <= fuel)%nat -> sort_loop fuel queue v = Some (Ok (sort_all queue v)).
Proof.
  induction fuel as [|fuel IH]; intros queue us v H Hs Hf.
  { inversion H as [|p u queue' us' Hp Hr]; subst; [done|]. cbn in Hf. unfold vector_cost in Hf. lia. }
  inversion H as [|p u queue' us' Hp Hr]; subst; [done|]. cbn [sort_loop]. rewrite Hp. set (u' := sort_by CompareNodeByPeriod u).
  apply StronglySorted_inv in Hs as [Hs Hap].
  assert (Forall (fun q => Forall (apart q) (child_paths p 0 u')) queue') as Hcross.
  { eapply Forall_impl; [exact Hap|]. intros q Hq. apply Forall_forall. intros c Hc.
    destruct (child_paths_in _ _ _ _ Hc) as (j & _ & ->). by apply apart_app, apart_sym. }
  rewrite (IH _ (us' ++ child_vectors u')).
  - do 2 f_equal. unfold sort_all at 1. rewrite foldl_app.
    change (sort_all (child_paths p 0 u') (sort_all queue' (set_vector p (fun _ => u') v)) = sort_all (p :: queue') v).
    rewrite sort_all_comm by done. unfold u'. by rewrite sort_below.
  - apply Forall2_app.
    + clear -Hr Hap. induction Hr as [|q w queue' us' Hq _ IH']; [constructor|]. apply Forall_cons_1 in Hap as [Ha Hap]. constructor; [|by apply IH'].
      by rewrite vector_at_apart.
    + apply (child_paths_at p _ _ []). cbn [app]. by rewrite (vector_at_set _ _ _ _ Hp).
  - apply sorted_app; [done|apply child_paths_apart|done].
  - rewrite fmap_app. pose proof (child_cost u') as Hc. pose proof (sort_cost u) as Hcost. fold u' in Hcost. unfold vector_cost at 1 2 in Hcost.
    rewrite sum_list_with_app. rewrite fmap_cons in Hf. cbn [sum_list_with] in Hf. unfold vector_cost at 1, id at 1 in Hf. lia.
Qed.

(** Every vector is in the order of decreasing periods. *)
#[warnings="-register-all"]
Inductive levels_sorted : list NodeT -> Prop :=
| levels_sorted_intro v :
    StronglySorted (fun a b => total b <= total a) v -> Forall (fun n => levels_sorted (children n)) v -> levels_sorted v.

Lemma sorted_levels (l : list NodeT) :
  Forall (fun n => levels_sorted (children (sort_node n))) l -> levels_sorted (sort_vector l).
Proof.
  intros H. constructor.
  - pose proof (sort_by_sorted CompareNodeByPeriod (sort_node <$> l)) as Hs. fold (sort_vector l) in Hs.
    induction Hs as [|x v Hs IH Hx]; constructor; [done|]. eapply Forall_impl; [exact Hx|]. intros y. unfold not_after, CompareNodeByPeriod.
    rewrite Z.ltb_ge. done.
  - unfold sort_vector. rewrite sort_by_perm. by apply Forall_fmap.
Qed.

Lemma sort_node_levels (n : NodeT) : levels_sorted (children (sort_node n)).
Proof. induction n as [p cp ch kids IH] using chain_node_ind. rewrite sort_node_eq. unfold set_children. cbn [children]. by apply sorted_levels. Qed.

Lemma zsum_perm l k : l ≡ₚ k -> zsum l = zsum k.
Proof. induction 1; rewrite ?zsum_cons; lia. Qed.

Lemma zsum_sorted (f : NodeT -> Z) v : Forall (fun n => f (sort_node n) = f n) v -> zsum (f <$> sort_vector v) = zsum (f <$> v).
Proof.
  intros H. unfold sort_vector. rewrite (zsum_perm _ (f <$> (sort_node <$> v))) by (by rewrite sort_by_perm).
  induction H as [|n v Hn _ IH]; [done|]. rewrite !fmap_cons, !zsum_cons. lia.
Qed.

Context (same : A -> A -> bool).

Lemma sort_node_weight n : forall k, node_weight same (sort_node n) k = node_weight same n k.
Proof.
  induction n as [p cp ch kids IH] using chain_node_ind. intros k. rewrite sort_node_eq. rewrite !node_weight_eq. unfold set_children.
  cbn [chain period children]. destruct (strip same ch k) as [k'|]; [|done]. f_equal. apply zsum_sorted.
  eapply Forall_impl; [exact IH|]. intros n Hn. apply Hn.
Qed.

Context {Hsame : Equivalence (fun x y => same x y = true)}.

(** No child starts with the same sample as [n]. *)
Definition head_apart (n m : NodeT) : Prop :=
  forall x y, head (chain n) = Some x -> head (chain m) = Some y -> same x y = false.

Lemma heads_differ_cons n l : Forall (fun n => chain n <> []) (n :: l) ->
  heads_differ same (n :: l) <-> Forall (head_apart n) l /\ heads_differ same l.
Proof.
  intros Hne. split.
  - intros H. split.
    + apply Forall_forall. intros m Hm x y Hx Hy. apply list_elem_of_lookup in Hm as [i Hi]. destruct (same x y) eqn:E; [|done].
      by specialize (H 0%nat (S i) n m x y eq_refl Hi Hx Hy E).
    + intros i j a b x y Hi Hj Hx Hy E. by specialize (H (S i) (S j) a b x y Hi Hj Hx Hy E) as [= ->].
  - intros [Ha Hd] [|i] [|j] a b x y Hi Hj Hx Hy E; [done| | |].
    + injection Hi as ->. rewrite Forall_lookup in Ha. rewrite (Ha j b Hj x y Hx Hy) in E. done.
    + injection Hj as ->. rewrite Forall_lookup in Ha. apply same_back in E; [|done]. rewrite (Ha i a Hi y x Hy Hx) in E. done.
    + f_equal. by eapply Hd.
Qed.

Lemma head_apart_sym n m : head_apart n m -> head_apart m n.
Proof. intros H x y Hx Hy. destruct (same x y) eqn:E; [|done]. apply same_back in E; [|done]. by rewrite (H y x Hy Hx) in E. Qed.

Lemma heads_differ_perm l l' : l ≡ₚ l' -> Forall (fun n => chain n <> []) l -> heads_differ same l -> heads_differ same l'.
Proof.
  induction 1 as [|n l l' P IH|n m l|l l' l'' P1 IH1 P2 IH2]; intros Hne H; [done| | |].
  - pose proof Hne as Hne'. rewrite P in Hne'. apply heads_differ_cons in H as [Ha Hd]; [|done]. apply heads_differ_cons; [done|].
    apply Forall_cons_1 in Hne as [_ Hne]. split; [by rewrite <- P|auto].
  - assert (Forall (fun n => chain n <> []) (n :: m :: l)) as Hne' by (by rewrite Permutation_swap).
    apply Forall_cons_1 in Hne as [H1 Hne]. pose proof Hne' as [_ Hne2]%Forall_cons_1.
    apply heads_differ_cons in H as [Ha Hd]; [|by constructor]. apply heads_differ_cons in Hd as [Hb Hd]; [|done].
    apply Forall_cons_1 in Ha as [Hnm Ha].
    apply heads_differ_cons; [done|]. split; [constructor; [by apply head_apart_sym|done]|]. by apply heads_differ_cons.
  - apply IH2; [by rewrite <- P1|]. by apply IH1.
Qed.

Lemma heads_differ_fmap (f : NodeT -> NodeT) l : (forall n, chain (f n) = chain n) -> heads_differ same l -> heads_differ same (f <$> l).
Proof.
  intros Hf H i j a b x y Hi Hj Hx Hy E. rewrite list_lookup_fmap in Hi, Hj. destruct (l !! i) as [a'|] eqn:Ea, (l !! j) as [b'|] eqn:Eb; try done.
  injection Hi as <-. injection Hj as <-. rewrite Hf in Hx, Hy. by eapply H.
Qed.

Lemma ok_chain l : Forall (node_ok same) l -> Forall (fun n => chain n <> []) l.
Proof. intros H. eapply Forall_impl; [exact H|]. by intros n []. Qed.

Lemma sort_forest_ok (l : list NodeT) :
  Forall (fun n => node_ok same n -> node_ok same (sort_node n)) l -> forest_ok same l -> forest_ok same (sort_vector l).
Proof.
  intros IH [Hl Hd]. unfold sort_vector. assert (Forall (node_ok same) (sort_node <$> l)) as Hl'.
  { apply Forall_fmap, Forall_forall. intros n Hn. rewrite Forall_forall in IH, Hl. by apply IH, Hl. }
  split; [by rewrite sort_by_perm|]. eapply heads_differ_perm; [symmetry; apply sort_by_perm|by apply ok_chain|].
  apply heads_differ_fmap; [|done]. by intros [].
Qed.

Lemma sort_node_ok n : node_ok same n -> node_ok same (sort_node n).
Proof.
  induction n as [p cp ch kids IH] using chain_node_ind. intros H. inversion H; subst. rewrite sort_node_eq. unfold set_children.
  cbn [period children_period chain children]. destruct (sort_forest_ok kids IH) as [Hk Hd]; [done|]. constructor; try done.
  rewrite zsum_sorted; [done|]. apply Forall_true. apply total_sort_node.
Qed.

Lemma sort_by_period_ok r :
  root_ok same r ->
  exists r', SortByPeriod r = Some (Ok r') /\ root_ok same r' /\ levels_sorted (root_children r') /\
    root_children r' ≡ₚ sort_node <$> root_children r /\ duplicated r' = duplicated r /\
    root_children_period r' = root_children_period r /\
    forall k, weight same (root_children r') k = weight same (root_children r) k.
Proof.
  intros [Hf Hcp]. unfold SortByPeriod. rewrite (sort_loop_ok _ [[]] [root_children r]);
    [|by repeat constructor|by repeat constructor|cbn; unfold vector_cost, id; lia].
  change (sort_all [[]] (root_children r)) with (sort_vector (root_children r)). eexists. split; [done|].
  cbn [root_children root_children_period duplicated].
  assert (forall f, (forall n, f (sort_node n) = f n) -> zsum (f <$> sort_vector (root_children r)) = zsum (f <$> root_children r)) as Hsum
    by (intros f Hfn; by apply zsum_sorted, Forall_true).
  split_and!; try done.
  - split; [|by rewrite Hsum by apply total_sort_node]. apply sort_forest_ok; [|done]. apply Forall_true, sort_node_ok.
  - apply sorted_levels, Forall_true, sort_node_levels.
  - apply sort_by_perm.
  - intros k. apply Hsum. intros n. apply sort_node_weight.
Qed.

(** C31: with [same] an equivalence on samples, [SortByPeriod] terminates on every
    well-formed tree (chains not empty, siblings start with different samples,
    64-bit periods, every [children_period] the sum over the children), puts the
    children of the root and of every node in the order of decreasing total
    period, and changes nothing else: the tree stays well-formed, every call
    chain keeps its period, and the children of the root are those it had, each
    sorted in the same way. *)
Theorem SortByPeriod_sorts r :
  root_ok same r ->
  exists r', SortByPeriod r = Some (Ok r') /\ root_ok same r' /\ levels_sorted (root_children r') /\
    root_children r' ≡ₚ sort_node <$> root_children r /\ duplicated r' = duplicated r /\
    root_children_period r' = root_children_period r /\
    forall k, weight same (root_children r') k = weight same (root_children r) k.
Proof. intros Hr. exact (sort_by_period_ok r Hr). Qed.
End sorting.

Lemma SortByPeriod_sorts_witness :
  let r := mkRoot false 12 [mkChainNode 3 0 [1]%nat []; mkChainNode 9 0 [2]%nat []] in
  exists r', SortByPeriod r = Some (Ok r') /\ root_ok Nat.eqb r' /\ levels_sorted (root_children r') /\
    root_children r' ≡ₚ sort_node <$> root_children r /\ duplicated r' = duplicated r /\
    root_children_period r' = root_children_period r /\
    forall k, weight Nat.eqb (root_children r') k = weight Nat.eqb (root_children r) k.
Proof.
  apply (SortByPeriod_sorts (Hsame := nat_eqb_equivalence) Nat.eqb
    (mkRoot false 12 [mkChainNode 3 0 [1]%nat []; mkChainNode 9 0 [2]%nat []])).
  split; [split|reflexivity].
  - repeat (apply Forall_cons; split); [..|apply Forall_nil_2]; apply alloc_ok; try discriminate; unfold is_u64; lia.
  - intros [|[|]] [|[|]] a b x y Hi Hj Hx Hy; try done; cbn in Hi, Hj; simplify_eq; cbn in Hx, Hy; simplify_eq; discriminate.
Defined.

(** The tree of three chains, sorted. *)
Example tree_sample :
  (r ← (match AddCallChain Nat.eqb [1; 2; 3]%nat 5 CallChainRoot_new with Some (Ok r) => Some r | _ => None end);
   r ← (match AddCallChain Nat.eqb [1; 2; 4]%nat 7 r with Some (Ok r) => Some r | _ => None end);
   r ← (match AddCallChain Nat.eqb [1]%nat 2 r with Some (Ok r) => Some r | _ => None end);
   SortByPeriod r) =
  Some (Ok (mkRoot false 14 [mkChainNode 2 12 [1]%nat [mkChainNode 0 12 [2]%nat [mkChainNode 7 0 [4]%nat []; mkChainNode 5 0 [3]%nat []]]])).
Proof. vm_compute. reflexivity. Qed.

(** * The samples of a tree *)

Section samples.
Context {A : Type} (P : A -> Prop).

#[warnings="-register-all"]
Inductive node_all : CallChainNode A -> Prop :=
| node_all_intro p cp ch kids : Forall P ch -> Forall node_all kids -> node_all (mkChainNode p cp ch kids).
Definition root_all (r : CallChainRoot A) : Prop := Forall node_all (root_children r).

Lemma SplitNode_all q m : node_all q -> node_all (SplitNode q m).
Proof.
  intros [p cp ch kids Hc Hk]. unfold SplitNode, AllocateNode, set_children. cbn [period children_period chain children].
  constructor; [by apply Forall_take|]. apply Forall_singleton. constructor; [by apply Forall_drop|done].
Qed.

Lemma node_all_children q l : node_all q -> Forall node_all l -> node_all (set_children l q).
Proof. intros [] Hl. by constructor. Qed.

Lemma add_loop_all same callchain p fuel : forall q pos q',
  Forall P callchain -> node_all q -> add_loop same fuel callchain p q pos = Some (Ok q') -> node_all q'.
Proof.
  induction fuel as [|fuel IH]; intros q pos q' Hc Hq E; [done|]. cbn [add_loop] in E.
  set (m := GetMatchingLengthInNode same q callchain pos) in *. destruct (Nat.eqb m 0); [done|].
  set (qb := if Nat.ltb m (length (chain q)) then _ else _) in E.
  assert (node_all qb.1) as Hq1 by (unfold qb; destruct (Nat.ltb _ _); [by apply SplitNode_all|done]). destruct qb as [q1 b]. cbn [fst] in Hq1.
  assert (node_all (add_period p q1) /\ node_all (add_children_period p q1) /\ Forall node_all (children q1)) as (H1 & H2 & H3)
    by (destruct Hq1; split_and!; [by constructor|by constructor|done]).
  destruct (Nat.eqb (pos + m) (length callchain)); [by injection E as <-|].
  change (children (add_children_period p q1)) with (children q1) in E.
  assert (node_all (set_children (children q1 ++ [AllocateNode callchain (pos + m) p 0]) (add_children_period p q1))) as Hpush.
  { apply node_all_children; [done|]. apply Forall_app. split; [done|]. apply Forall_singleton. constructor; [by apply Forall_drop|done]. }
  destruct b; [|by injection E as <-].
  destruct (callchain !! (pos + m)%nat) as [x|]; [|done]. destruct (FindMatchingNode same (children q1) x) as [[i|]| |]; try done; [|by injection E as <-].
  destruct (children q1 !! i) as [np|] eqn:Ei; [|done]. destruct (add_loop same fuel callchain p np (pos + m)) as [[np'| |]|] eqn:En; try done.
  injection E as <-. apply node_all_children; [done|]. apply Forall_insert; [done|]. eapply IH; [done| |done].
  by apply (Forall_lookup_1 _ _ _ _ H3 Ei).
Qed.

Lemma AddCallChain_all same callchain p r r' :
  Forall P callchain -> root_all r -> AddCallChain same callchain p r = Some (Ok r') -> root_all r'.
Proof.
  unfold AddCallChain, root_all. intros Hc Hr E. destruct (callchain !! 0%nat) as [x|]; [|done].
  destruct (FindMatchingNode same (root_children r) x) as [[i|]| |]; try done.
  - destruct (root_children r !! i) as [q|] eqn:Ei; [|done]. destruct (add_loop same _ callchain p q 0) as [[q'| |]|] eqn:En; try done.
    injection E as <-. cbn. apply Forall_insert; [done|]. eapply add_loop_all; [done| |done]. by apply (Forall_lookup_1 _ _ _ _ Hr Ei).
  - injection E as <-. cbn. apply Forall_app. split; [done|]. apply Forall_singleton. constructor; [by apply Forall_drop|done].
Qed.

(** Only the samples of the tree are compared. *)
Context (same same' : A -> A -> bool) (Heq : forall x y, P x -> P y -> same x y = same' x y).

Lemma heads_differ_ext l : Forall node_all l -> heads_differ same l -> heads_differ same' l.
Proof.
  intros Hl H i j a b x y Hi Hj Hx Hy E. eapply H; [done|done|done|done|]. rewrite Heq; [done| |].
  - apply (Forall_lookup_1 _ _ _ _ Hl) in Hi. inversion Hi as [p cp ch kids Hc _]; subst a. cbn in Hx. destruct ch as [|z ch]; [done|]. injection Hx as <-. by apply Forall_cons_1 in Hc as [? _].
  - apply (Forall_lookup_1 _ _ _ _ Hl) in Hj. inversion Hj as [p cp ch kids Hc _]; subst b. cbn in Hy. destruct ch as [|z ch]; [done|]. injection Hy as <-. by apply Forall_cons_1 in Hc as [? _].
Qed.

Lemma node_ok_ext n : node_all n -> node_ok same n -> node_ok same' n.
Proof.
  induction n as [p cp ch kids IH] using chain_node_ind. intros Ha Ho. inversion Ha as [? ? ? ? Hc Hk]; subst. inversion Ho; subst.
  constructor; try done; [|by eapply heads_differ_ext]. rewrite Forall_forall in *. intros n Hn. eauto.
Qed.

Lemma root_ok_ext r : root_all r -> root_ok same r -> root_ok same' r.
Proof.
  intros Ha [[Hf Hd] Hp]. split; [split|done]; [|by eapply heads_differ_ext].
  unfold root_all in Ha. rewrite Forall_forall in *. intros n Hn. apply node_ok_ext; auto.
Qed.
End samples.

Lemma root_all_mono {A} (P Q : A -> Prop) r : (forall x, P x -> Q x) -> root_all P r -> root_all Q r.
Proof.
  intros H. assert (forall n, node_all P n -> node_all Q n) as Hn; [|intros Hr; by eapply Forall_impl].
  intros n. induction n as [p cp ch kids IH] using chain_node_ind. intros Ha. inversion Ha as [? ? ? ? Hc Hk]; subst.
  constructor; [by eapply Forall_impl|]. rewrite Forall_forall in *. intros n Hn. auto.
Qed.
