(* ===== verification/SampleTree.v ===== *)
(** Model of src/simpleperf/sample_tree.h ([SampleTreeBuilder],
    [SampleTreeSorter]) and of the builders of src/simpleperf/cmd_report.cpp
    ([ReportCmdSampleTreeBuilder], [EventCountSampleTreeBuilder],
    [TimestampSampleTreeBuilder]): samples are made from records through the
    thread tree, grouped by a comparator, and get a call graph each.

    A [SampleEntry*] is an index of [sample_storage_].  A [ThreadEntry*], a
    [MapEntry*] and a [Symbol*] in a sample are the values they point to when
    the sample is made: the members that are read through them (pid, tid, map
    set, library, name) do not change afterwards.  The offline unwinder and the
    demangler, which call libbacktrace and the C++ runtime, are arguments. *)
From Stdlib Require Import ZArith Lia Sorted.
From stdpp Require Import base numbers gmap list.
From S2P Require Import Prelude Utils RecordBase Records SampleRecord Maps KernelSymbols Dso ThreadTree SampleComparator CallChain.

(** * Samples *)

Record BranchFromEntry := mkBranchFrom {
  from_map : option MapEntry;
  from_symbol : option Symbol;
  from_vaddr_in_file : Z;
  from_flags : Z;
}.
Definition BranchFromEntry_new : BranchFromEntry := mkBranchFrom None None 0 0.

Record SampleEntry := mkEntry {
  e_time : Z;
  e_period : Z;
  accumulated_period : Z;
  sample_count : Z;
  e_thread : ThreadEntry;
  thread_comm : bytes;
  e_map : MapEntry;
  e_dso_path : bytes;          (* map->dso->Path() *)
  e_symbol : Symbol;
  vaddr_in_file : Z;
  branch_from : BranchFromEntry;
  callchain : CallChainRoot nat;
}.

Definition SampleEntry_new (time period accumulated_period sample_count : Z) (thread : ThreadEntry) (map : MapEntry)
    (dso_path : bytes) (symbol : Symbol) (vaddr_in_file : Z) : SampleEntry :=
  mkEntry time period accumulated_period sample_count thread (th_comm thread) map dso_path symbol vaddr_in_file
    BranchFromEntry_new CallChainRoot_new.

Definition set_thread_comm (x : bytes) (e : SampleEntry) : SampleEntry :=
  mkEntry (e_time e) (e_period e) (accumulated_period e) (sample_count e) (e_thread e) x (e_map e) (e_dso_path e) (e_symbol e)
    (vaddr_in_file e) (branch_from e) (callchain e).
Definition set_branch_from (x : BranchFromEntry) (e : SampleEntry) : SampleEntry :=
  mkEntry (e_time e) (e_period e) (accumulated_period e) (sample_count e) (e_thread e) (thread_comm e) (e_map e) (e_dso_path e)
    (e_symbol e) (vaddr_in_file e) x (callchain e).
Definition set_callgraph (x : CallChainRoot nat) (e : SampleEntry) : SampleEntry :=
  mkEntry (e_time e) (e_period e) (accumulated_period e) (sample_count e) (e_thread e) (thread_comm e) (e_map e) (e_dso_path e)
    (e_symbol e) (vaddr_in_file e) (branch_from e) x.

Definition MergeSample (sample1 sample2 : SampleEntry) : SampleEntry :=
  mkEntry (e_time sample1) (e_period sample1 +u64 e_period sample2) (accumulated_period sample1 +u64 accumulated_period sample2)
    (sample_count sample1 +u64 sample_count sample2) (e_thread sample1) (thread_comm sample1) (e_map sample1) (e_dso_path sample1)
    (e_symbol sample1) (vaddr_in_file sample1) (branch_from sample1) (callchain sample1).

(** * The compare functions *)

Definition ComparePid (s1 s2 : SampleEntry) : Z := Compare (th_pid (e_thread s1)) (th_pid (e_thread s2)).
Definition CompareTid (s1 s2 : SampleEntry) : Z := Compare (th_tid (e_thread s1)) (th_tid (e_thread s2)).
Definition CompareSampleCount (s1 s2 : SampleEntry) : Z := Compare (sample_count s2) (sample_count s1).
Definition CompareComm (s1 s2 : SampleEntry) : Z := strcmp (thread_comm s1) (thread_comm s2).
Definition CompareDso (s1 s2 : SampleEntry) : Z := strcmp (e_dso_path s1) (e_dso_path s2).
Definition CompareVaddrInFile (s1 s2 : SampleEntry) : Z := Compare (vaddr_in_file s1) (vaddr_in_file s2).
Definition CompareCallGraphDuplicated (s1 s2 : SampleEntry) : Z :=
  Compare (Z.b2z (duplicated (callchain s1))) (Z.b2z (duplicated (callchain s2))).
Definition CompareTotalPeriod (s1 s2 : SampleEntry) : Z :=
  let period1 := e_period s1 +u64 accumulated_period s1 in
  let period2 := e_period s2 +u64 accumulated_period s2 in
  Compare period2 period1.
Definition ComparePeriod (s1 s2 : SampleEntry) : Z := Compare (e_period s2) (e_period s1).

(** * The builder *)

Record CallChainParentInfo := mkParentInfo { parent : nat; has_multiple_parents : bool }.

(** The options; they do not change while samples are processed. *)
Record Options := mkOptions {
  sample_comparator_ : SampleComparator SampleEntry;
  use_branch_address_ : bool;
  accumulate_callchain_ : bool;
  build_callchain_ : bool;
  use_caller_as_callchain_root_ : bool;
  trace_offcpu : bool;         (* a TimestampSampleTreeBuilder *)
  pid_filter_ : gset Z;
  tid_filter_ : gset Z;
  comm_filter_ : gset bytes;
  dso_filter_ : gset bytes;
  symbol_filter_ : gset bytes;
}.

Record Builder := mkBuilder {
  sample_set_ : list nat;
  callchain_sample_set_ : list nat;
  sample_storage_ : list SampleEntry;
  callchain_parent_map_ : gmap nat CallChainParentInfo;
  b_tree : ThreadTree;         (* *thread_tree_ *)
  total_samples_ : Z;
  total_period_ : Z;
  total_error_callchains_ : Z;
  next_sample_cache_ : gmap Z SampleRecord;
}.
Definition Builder_new (t : ThreadTree) : Builder := mkBuilder [] [] [] ∅ t 0 0 0 ∅.

Definition set_storage (x : list SampleEntry) (b : Builder) : Builder :=
  mkBuilder (sample_set_ b) (callchain_sample_set_ b) x (callchain_parent_map_ b) (b_tree b) (total_samples_ b) (total_period_ b)
    (total_error_callchains_ b) (next_sample_cache_ b).
Definition set_tree (x : ThreadTree) (b : Builder) : Builder :=
  mkBuilder (sample_set_ b) (callchain_sample_set_ b) (sample_storage_ b) (callchain_parent_map_ b) x (total_samples_ b)
    (total_period_ b) (total_error_callchains_ b) (next_sample_cache_ b).
Definition set_parents (x : gmap nat CallChainParentInfo) (b : Builder) : Builder :=
  mkBuilder (sample_set_ b) (callchain_sample_set_ b) (sample_storage_ b) x (b_tree b) (total_samples_ b)
    (total_period_ b) (total_error_callchains_ b) (next_sample_cache_ b).
Definition set_cache (x : gmap Z SampleRecord) (b : Builder) : Builder :=
  mkBuilder (sample_set_ b) (callchain_sample_set_ b) (sample_storage_ b) (callchain_parent_map_ b) (b_tree b) (total_samples_ b)
    (total_period_ b) (total_error_callchains_ b) x.
Definition add_error_callchain (b : Builder) : Builder :=
  mkBuilder (sample_set_ b) (callchain_sample_set_ b) (sample_storage_ b) (callchain_parent_map_ b) (b_tree b) (total_samples_ b)
    (total_period_ b) (total_error_callchains_ b +u64 1) (next_sample_cache_ b).
Definition UpdateSummary (sample : SampleEntry) (b : Builder) : Builder :=
  mkBuilder (sample_set_ b) (callchain_sample_set_ b) (sample_storage_ b) (callchain_parent_map_ b) (b_tree b)
    (total_samples_ b +u64 sample_count sample) (total_period_ b +u64 e_period sample)
    (total_error_callchains_ b) (next_sample_cache_ b).

Definition sample_at (b : Builder) (p : nat) : res SampleEntry :=
  match sample_storage_ b !! p with Some e => Ok e | None => OutOfBounds end.

Section builder.
Context `{files : DsoFiles}.
Context (UnwindCallChain : SampleRecord -> ThreadEntry -> option (list Z)) (DemangledName : Symbol -> bytes).
Context (o : Options).

Definition CompareSymbol (s1 s2 : SampleEntry) : Z := strcmp (DemangledName (e_symbol s1)) (DemangledName (e_symbol s2)).

Definition FilterSample (sample : SampleEntry) : bool :=
  if negb (bool_decide (pid_filter_ o = ∅)) && bool_decide (th_pid (e_thread sample) ∉ pid_filter_ o) then false
  else if negb (bool_decide (tid_filter_ o = ∅)) && bool_decide (th_tid (e_thread sample) ∉ tid_filter_ o) then false
  else if negb (bool_decide (comm_filter_ o = ∅)) && bool_decide (thread_comm sample ∉ comm_filter_ o) then false
  else if negb (bool_decide (dso_filter_ o = ∅)) && bool_decide (e_dso_path sample ∉ dso_filter_ o) then false
  else if negb (bool_decide (symbol_filter_ o = ∅)) && bool_decide (DemangledName (e_symbol sample) ∉ symbol_filter_ o) then false
  else true.

(** ** [std::set<EntryT*, SampleComparator<EntryT>>]: the pointers in the order of the comparator *)

Abbreviation before := (less (sample_comparator_ o)).

(** [find]: the first element that is not before [sample], if [sample] is not before it. *)
Fixpoint set_find (sample : SampleEntry) (st : list SampleEntry) (set : list nat) : option nat :=
  match set with
  | [] => None
  | p :: set =>
      match st !! p with
      | None => None
      | Some e => if before e sample then set_find sample st set else if before sample e then None else Some p
      end
  end.

(** [insert] of the pointer [q] to [sample], which is not in the set. *)
Fixpoint set_insert_sample (q : nat) (sample : SampleEntry) (st : list SampleEntry) (set : list nat) : list nat :=
  match set with
  | [] => [q]
  | p :: rest =>
      match st !! p with
      | None => q :: set
      | Some e => if before e sample then p :: set_insert_sample q sample st rest else q :: set
      end
  end.

(** [sample_set_.insert(sample.get()); sample_storage_.push_back(std::move(sample))] *)
Definition store_sample (sample : SampleEntry) (b : Builder) : Builder * nat :=
  let q := length (sample_storage_ b) in
  (mkBuilder (set_insert_sample q sample (sample_storage_ b) (sample_set_ b)) (callchain_sample_set_ b)
     (sample_storage_ b ++ [sample]) (callchain_parent_map_ b) (b_tree b) (total_samples_ b) (total_period_ b)
     (total_error_callchains_ b) (next_sample_cache_ b), q).
(** The same with [callchain_sample_set_]. *)
Definition store_callchain_sample (sample : SampleEntry) (b : Builder) : Builder * nat :=
  let q := length (sample_storage_ b) in
  (mkBuilder (sample_set_ b) (set_insert_sample q sample (sample_storage_ b) (callchain_sample_set_ b))
     (sample_storage_ b ++ [sample]) (callchain_parent_map_ b) (b_tree b) (total_samples_ b) (total_period_ b)
     (total_error_callchains_ b) (next_sample_cache_ b), q).

Definition InsertSample (sample : SampleEntry) (b : Builder) : Builder * option nat :=
  if negb (FilterSample sample) then (b, None)
  else
    let b := UpdateSummary sample b in
    match set_find sample (sample_storage_ b) (sample_set_ b) with
    | None => let '(b, q) := store_sample sample b in (b, Some q)
    | Some p => (set_storage (alter (fun e => MergeSample e sample) p (sample_storage_ b)) b, Some p)
    end.

Definition InsertCallChainSample (sample : SampleEntry) (chain : list nat) (b : Builder) : Builder * option nat :=
  if negb (FilterSample sample) then
    match set_find sample (sample_storage_ b) (callchain_sample_set_ b) with
    | Some p => (b, Some p)
    | None => let '(b, q) := store_callchain_sample sample b in (b, Some q)
    end
  else
    match set_find sample (sample_storage_ b) (sample_set_ b) with
    | Some p => if bool_decide (p ∈ chain) then (b, Some p) else InsertSample sample b
    | None => InsertSample sample b
    end.

(** ** Making samples *)

Definition dso_path (map : MapEntry) (t : ThreadTree) : res bytes :=
  i ← dso_of map;
  match dsos_ t !! i with Some d => Ok (path_ d) | None => OutOfBounds end.

(** [EventCountSampleTreeBuilder] or [TimestampSampleTreeBuilder] *)
Definition GetPeriod (r : SampleRecord) (b : Builder) : res Z :=
  if trace_offcpu o then
    match next_sample_cache_ b !! to_int (tid (s_tid r)) with
    | None => CheckFailed
    | Some next => Ok (if s_time r <? s_time next then s_time next -u64 s_time r else 1)
    end
  else Ok (s_period r).

(** The sample and [*acc_info]. *)
Definition CreateSample (r : SampleRecord) (in_kernel : bool) (b : Builder) : res (Builder * option nat * Z) :=
  t ← FindThreadOrNew (to_int (pid (s_tid r))) (to_int (tid (s_tid r))) (b_tree b);
  thread ← get_thread (to_int (tid (s_tid r))) t;
  map ← FindMap_in thread (s_ip r) in_kernel t;
  '(t, symbol, vaddr_in_file, _) ← FindSymbol_tree map (s_ip r) t;
  path ← dso_path map t;
  let b := set_tree t b in
  period ← GetPeriod r b;
  let '(b, p) := InsertSample (SampleEntry_new (s_time r) period 0 1 thread map path symbol vaddr_in_file) b in
  Ok (b, p, period).

Definition CreateBranchSample (r : SampleRecord) (item : BranchStackItemType) (b : Builder) : res (Builder * option nat) :=
  t ← FindThreadOrNew (to_int (pid (s_tid r))) (to_int (tid (s_tid r))) (b_tree b);
  thread ← get_thread (to_int (tid (s_tid r))) t;
  from_map ← FindMap thread (from item) t;
  '(t, from_symbol, from_vaddr_in_file, _) ← FindSymbol_tree from_map (from item) t;
  to_map ← FindMap thread (to item) t;
  '(t, to_symbol, to_vaddr_in_file, _) ← FindSymbol_tree to_map (to item) t;
  path ← dso_path to_map t;
  let sample := SampleEntry_new (s_time r) (s_period r) 0 1 thread to_map path to_symbol to_vaddr_in_file in
  let sample := set_branch_from (mkBranchFrom (Some from_map) (Some from_symbol) from_vaddr_in_file (SampleRecord.flags item)) sample in
  Ok (InsertSample sample (set_tree t b)).

Definition CreateCallChainSample (sample : nat) (ip : Z) (in_kernel : bool) (chain : list nat) (acc_info : Z) (b : Builder)
    : res (Builder * option nat) :=
  sample ← sample_at b sample;
  map ← FindMap_in (e_thread sample) ip in_kernel (b_tree b);
  i ← dso_of map;
  if Nat.eqb i unknown_dso_ then Ok (add_error_callchain b, None)
  else
    '(t, symbol, vaddr_in_file, _) ← FindSymbol_tree map ip (b_tree b);
    path ← dso_path map t;
    let callchain_sample := SampleEntry_new (e_time sample) 0 acc_info 0 (e_thread sample) map path symbol vaddr_in_file in
    Ok (InsertCallChainSample (set_thread_comm (thread_comm sample) callchain_sample) chain (set_tree t b)).

(** ** Call graphs *)

(** [sample_comparator_.IsSameSample(s1, s2)]; the pointers in call chains are valid. *)
Definition same_at (st : list SampleEntry) (p q : nat) : bool :=
  match st !! p, st !! q with
  | Some s1, Some s2 => IsSameSample (sample_comparator_ o) s1 s2
  | None, None => true
  | _, _ => false
  end.

Definition InsertCallChainForSample (sample : nat) (chain : list nat) (acc_info : Z) (b : Builder) : res Builder :=
  e ← sample_at b sample;
  match CallChain.AddCallChain (same_at (sample_storage_ b)) chain acc_info (callchain e) with
  | Some (Ok g) => Ok (set_storage (alter (set_callgraph g) sample (sample_storage_ b)) b)
  | Some CheckFailed => CheckFailed
  | _ => OutOfBounds
  end.

Definition UpdateCallChainParentInfo (sample : nat) (parent_ : option nat) (b : Builder) : Builder :=
  match parent_ with
  | None => b
  | Some parent_ =>
      match callchain_parent_map_ b !! sample with
      | None => set_parents (<[sample := mkParentInfo parent_ false]> (callchain_parent_map_ b)) b
      | Some info =>
          if negb (Nat.eqb (parent info) parent_)
          then set_parents (<[sample := mkParentInfo (parent info) true]> (callchain_parent_map_ b)) b
          else b
      end
  end.

(** The loop over [ips]. *)
Fixpoint callchain_loop (sample : nat) (r : SampleRecord) (acc_info : Z) (ips : list Z) (in_kernel first_ip : bool)
    (chain : list nat) (b : Builder) : res (Builder * list nat) :=
  match ips with
  | [] => Ok (b, chain)
  | ip :: ips =>
      if PERF_CONTEXT_MAX <=? ip then
        let in_kernel := if ip =? PERF_CONTEXT_KERNEL then true
                         else if ip =? PERF_CONTEXT_USER then false else in_kernel in
        callchain_loop sample r acc_info ips in_kernel first_ip chain b
      else if first_ip && (ip =? s_ip r) then callchain_loop sample r acc_info ips in_kernel false chain b
      else
        '(b, s) ← CreateCallChainSample sample ip in_kernel chain acc_info b;
        match s with
        | None => Ok (b, chain)
        | Some s => callchain_loop sample r acc_info ips in_kernel false (chain ++ [s]) b
        end
  end.

(** [while (callchain.size() >= 2)] *)
Fixpoint build_graphs (chain : list nat) (added_set : gset nat) (parent_ : option nat) (acc_info : Z) (b : Builder) : res Builder :=
  match chain with
  | sample :: (_ :: _) as rest =>
      if bool_decide (sample ∈ added_set) then build_graphs rest added_set parent_ acc_info b
      else
        b ← InsertCallChainForSample sample rest acc_info b;
        build_graphs rest ({[sample]} ∪ added_set) (Some sample) acc_info (UpdateCallChainParentInfo sample parent_ b)
  | _ => Ok b
  end.

(** The loop over the branch stack, from the item [i]. *)
Fixpoint branch_loop (n : nat) (i : Z) (r : SampleRecord) (b : Builder) : res Builder :=
  match n with
  | O => Ok b
  | S n =>
      item ← deref branch_codec (s_rec r) (s_branch r + 24 * i);
      b ← (if negb (from item =? 0) && negb (to item =? 0) then '(b, _) ← CreateBranchSample r item b; Ok b else Ok b);
      branch_loop n (i + 1) r b
  end.

Definition sample_ips (r : SampleRecord) (thread : ThreadEntry) : res (list Z) :=
  ips ← (if has_bit r SAMPLE_CALLCHAIN then get_ips r else Ok []);
  Ok (if has_bit r SAMPLE_REGS_USER && negb (s_reg_mask r =? 0) && has_bit r SAMPLE_STACK_USER && (0 <? GetValidStackSize r) then
        match UnwindCallChain r thread with
        | Some user_ips => ips ++ PERF_CONTEXT_USER :: user_ips
        | None => ips
        end
      else ips).

Definition ProcessSampleRecord (r : SampleRecord) (b : Builder) : res Builder :=
  if use_branch_address_ o && has_bit r SAMPLE_BRANCH_STACK then branch_loop (Z.to_nat (s_branch_nr r)) 0 r b
  else
    let in_kernel := InKernel (s_rec r) in
    '(b, sample, acc_info) ← CreateSample r in_kernel b;
    match sample with
    | None => Ok b
    | Some sample =>
        if accumulate_callchain_ o then
          e ← sample_at b sample;
          ips ← sample_ips r (e_thread e);
          '(b, chain) ← callchain_loop sample r acc_info ips in_kernel true [sample] b;
          if build_callchain_ o then
            build_graphs (if use_caller_as_callchain_root_ o then rev chain else chain) ∅ None acc_info b
          else Ok b
        else Ok b
    end.

(** [ReportCmdProcessSampleRecord(std::shared_ptr<SampleRecord>&)] *)
Definition ReportCmdProcessSampleRecord (r : SampleRecord) (b : Builder) : res Builder :=
  if trace_offcpu o then
    let tid := to_int (tid (s_tid r)) in
    match next_sample_cache_ b !! tid with
    | None => Ok (set_cache (<[tid := r]> (next_sample_cache_ b)) b)
    | Some cur => ProcessSampleRecord cur (set_cache (<[tid := r]> (next_sample_cache_ b)) b)
    end
  else ProcessSampleRecord r b.

(** ** The result *)

Definition set_duplicated (e : SampleEntry) : SampleEntry :=
  set_callgraph (mkRoot true (root_children_period (callchain e)) (root_children (callchain e))) e.

Definition AddCallChainDuplicateInfo (b : Builder) : Builder :=
  if build_callchain_ o then
    foldl (fun b sample =>
      match callchain_parent_map_ b !! sample with
      | Some info => if negb (has_multiple_parents info)
                     then set_storage (alter set_duplicated sample (sample_storage_ b)) b else b
      | None => b
      end) b (sample_set_ b)
  else b.

Definition GetSamples (b : Builder) : list nat := sample_set_ b.

Record SampleTree := mkSampleTree {
  samples : list nat;
  total_samples : Z;
  total_period : Z;
  total_error_callchains : Z;
}.

Definition GetSampleTree (b : Builder) : Builder * SampleTree :=
  let b := AddCallChainDuplicateInfo b in
  (b, mkSampleTree (GetSamples b) (total_samples_ b) (total_period_ b) (total_error_callchains_ b)).

(** [SampleTreeSorter::Sort] of the samples [v], whose entries are in [st]. *)
Fixpoint sort_callchains (v : list nat) (st : list SampleEntry) : res (list SampleEntry) :=
  match v with
  | [] => Ok st
  | p :: v =>
      match st !! p with
      | None => OutOfBounds
      | Some e =>
          match SortByPeriod (callchain e) with
          | Some (Ok g) => sort_callchains v (<[p := set_callgraph g e]> st)
          | Some CheckFailed => CheckFailed
          | _ => OutOfBounds
          end
      end
  end.

Definition Sort (comparator_ : SampleComparator SampleEntry) (v : list nat) (sort_callchain : bool) (st : list SampleEntry)
    : res (list nat * list SampleEntry) :=
  st ← (if sort_callchain then sort_callchains v st else Ok st);
  let lt p q := match st !! p, st !! q with Some s1, Some s2 => less comparator_ s1 s2 | _, _ => false end in
  Ok (if negb (SampleComparator.empty comparator_) then sort_by lt v else v, st).
End builder.

(** * Keys of samples *)

(** What a sample is grouped by: everything but times, periods, counts and the call graph. *)
Definition sample_key (e : SampleEntry) : ThreadEntry * bytes * MapEntry * bytes * Symbol * Z * BranchFromEntry :=
  (e_thread e, thread_comm e, e_map e, e_dso_path e, e_symbol e, vaddr_in_file e, branch_from e).

(** A comparison of keys. *)
Class KeyCompare (f : SampleEntry -> SampleEntry -> Z) : Prop := {
  kc_three_way : ThreeWay f;
  kc_key x x' y y' : sample_key x = sample_key x' -> sample_key y = sample_key y' -> f x y = f x' y';
}.

#[export] Instance ComparePid_key : KeyCompare ComparePid.
Proof. split; [exact (three_way_member Compare (fun e => th_pid (e_thread e)) _)|]. unfold ComparePid, sample_key. intros; congruence. Qed.
#[export] Instance CompareTid_key : KeyCompare CompareTid.
Proof. split; [exact (three_way_member Compare (fun e => th_tid (e_thread e)) _)|]. unfold CompareTid, sample_key. intros; congruence. Qed.
#[export] Instance CompareComm_key : KeyCompare CompareComm.
Proof. split; [exact (three_way_member strcmp thread_comm _)|]. unfold CompareComm, sample_key. intros; congruence. Qed.
#[export] Instance CompareDso_key : KeyCompare CompareDso.
Proof. split; [exact (three_way_member strcmp e_dso_path _)|]. unfold CompareDso, sample_key. intros; congruence. Qed.
#[export] Instance CompareSymbol_key demangle : KeyCompare (CompareSymbol demangle).
Proof. split; [exact (three_way_member strcmp (fun e => demangle (e_symbol e)) _)|]. unfold CompareSymbol, sample_key. intros; congruence. Qed.
#[export] Instance CompareVaddrInFile_key : KeyCompare CompareVaddrInFile.
Proof. split; [exact (three_way_member Compare vaddr_in_file _)|]. unfold CompareVaddrInFile, sample_key. intros; congruence. Qed.

Section sets.
Context (o : Options) (Hcmp : Forall KeyCompare (sample_comparator_ o)).
Abbreviation before := (less (sample_comparator_ o)).
Abbreviation same := (IsSameSample (sample_comparator_ o)).

Lemma three_ways : Forall ThreeWay (sample_comparator_ o).
Proof. eapply Forall_impl; [exact Hcmp|]. by intros f []. Qed.

Lemma compare_key x x' y y' : sample_key x = sample_key x' -> sample_key y = sample_key y' ->
  compare_all (sample_comparator_ o) x y = compare_all (sample_comparator_ o) x' y'.
Proof. 
  intros Hx Hy. clear -Hcmp Hx Hy. induction (sample_comparator_ o) as [|f l IH]; [done|].
  apply Forall_cons_1 in Hcmp as [[_ Hk] Hl]. cbn [compare_all]. by rewrite (Hk x x' y y' Hx Hy), (IH Hl).
Qed.

Lemma before_key x x' y y' : sample_key x = sample_key x' -> sample_key y = sample_key y' -> before x y = before x' y'.
Proof. intros Hx Hy. by rewrite !less_compare, (compare_key x x' y y' Hx Hy). Qed.

Lemma same_key x x' y y' : sample_key x = sample_key x' -> sample_key y = sample_key y' -> same x y = same x' y'.
Proof. intros Hx Hy. by rewrite !same_compare, (compare_key x x' y y' Hx Hy). Qed.

Lemma before_trans x y z : before x y = true -> before y z = true -> before x z = true.
Proof.
  destruct (compare_all_three_way _ three_ways) as [Ha Ht]. rewrite !less_compare, !Z.ltb_lt. intros H1 H2.
  pose proof (Ht x y z). pose proof (Ha x z). pose proof (Ht z x y). pose proof (Ha y z). pose proof (Ha x y). lia.
Qed.

Lemma before_irrefl x y : same x y = true -> before x y = false.
Proof. intros H. by apply (same_iff _ three_ways) in H as [? _]. Qed.

(** ** The sets *)

(** The storage may grow and change the samples, but not their keys. *)
Definition keeps_keys (st st' : list SampleEntry) : Prop :=
  forall p e, st !! p = Some e -> exists e', st' !! p = Some e' /\ sample_key e' = sample_key e.

Lemma keeps_keys_refl st : keeps_keys st st.
Proof. intros p e H. by exists e. Qed.
Lemma keeps_keys_trans st1 st2 st3 : keeps_keys st1 st2 -> keeps_keys st2 st3 -> keeps_keys st1 st3.
Proof. intros H1 H2 p e H. destruct (H1 p e H) as (e' & H' & E). destruct (H2 p e' H') as (e'' & H'' & E'). exists e''. split; congruence. Qed.
Lemma keeps_keys_app st l : keeps_keys st (st ++ l).
Proof. intros p e H. exists e. split; [by apply lookup_app_l_Some|done]. Qed.
Lemma keeps_keys_alter st f p : (forall e, sample_key (f e) = sample_key e) -> keeps_keys st (alter f p st).
Proof.
  intros Hf q e H. destruct (decide (p = q)) as [->|Hne].
  - rewrite list_lookup_alter_eq, H. by exists (f e).
  - rewrite list_lookup_alter_ne by done. by exists e.
Qed.

(** [p] comes before [q] in a set. *)
Definition lt_at (st : list SampleEntry) (p q : nat) : Prop :=
  exists e e', st !! p = Some e /\ st !! q = Some e' /\ before e e' = true.

Definition set_ok (st : list SampleEntry) (set : list nat) : Prop :=
  StronglySorted (lt_at st) set /\ Forall (fun p => p < length st)%nat set.

Lemma set_ok_keys st st' set : keeps_keys st st' -> set_ok st set -> set_ok st' set.
Proof.
  intros Hk [Hs Hv]. split.
  - induction Hs as [|p set Hs IH Hp]; constructor; [apply IH; by apply Forall_cons_1 in Hv as [_ ?]|]. eapply Forall_impl; [exact Hp|].
    intros q (e & e' & H1 & H2 & H3). destruct (Hk _ _ H1) as (f & F1 & F2). destruct (Hk _ _ H2) as (f' & F1' & F2').
    exists f, f'. split_and!; [done|done|]. by rewrite (before_key _ e _ e').
  - eapply Forall_impl; [exact Hv|]. intros p Hp. apply lookup_lt_is_Some_2 in Hp as [e He]. destruct (Hk _ _ He) as (f & Hf & _).
    by eapply lookup_lt_Some.
Qed.

Lemma set_find_spec s st set : set_ok st set ->
  match set_find o s st set with
  | Some p => p ∈ set /\ exists e, st !! p = Some e /\ same e s = true
  | None => forall p e, p ∈ set -> st !! p = Some e -> same e s = false
  end.
Proof.
  intros [Hs Hv]. induction Hs as [|p set Hs IH Hp]; cbn [set_find]; [intros p e Hp; by apply not_elem_of_nil in Hp|].
  apply Forall_cons_1 in Hv as [Hpv Hv]. apply lookup_lt_is_Some_2 in Hpv as [e He]. rewrite He. specialize (IH Hv).
  destruct (before e s) eqn:E1.
  - assert (same e s = false) as Hne by (destruct (same e s) eqn:E; [by rewrite before_irrefl in E1|done]).
    destruct (set_find o s st set) as [q|].
    + destruct IH as [Hq Hf]. split; [by right|done].
    + intros q f Hq Hf. apply elem_of_cons in Hq as [->|Hq]; [congruence|by eapply IH].
  - destruct (before s e) eqn:E2.
    + intros q f Hq Hf. apply elem_of_cons in Hq as [->|Hq]; [|].
      * destruct (same f s) eqn:E; [|done]. rewrite He in Hf. injection Hf as <-. apply (same_iff _ three_ways) in E as [_ E]. congruence.
      * rewrite Forall_forall in Hp. destruct (Hp q Hq) as (e1 & f1 & H1 & H2 & H3). rewrite He in H1. rewrite Hf in H2. simplify_eq.
        destruct (same f1 s) eqn:E; [|done]. apply (same_iff _ three_ways) in E as [_ E].
        rewrite (before_trans s e1 f1) in E; done.
    + split; [left|]. exists e. split; [done|]. by apply (same_iff _ three_ways).
Qed.

Lemma set_insert_perm q s st set : Forall (fun p => p < length st)%nat set -> set_insert_sample o q s st set ≡ₚ q :: set.
Proof.
  induction 1 as [|p set Hp _ IH]; [done|]. cbn [set_insert_sample]. apply lookup_lt_is_Some_2 in Hp as [e ->].
  destruct (before e s); [|done]. rewrite IH. apply Permutation_swap.
Qed.

Lemma set_insert_ok s st set : set_ok st set -> set_find o s st set = None ->
  set_ok (st ++ [s]) (set_insert_sample o (length st) s st set).
Proof.
  intros Hok Hn. pose proof Hok as [_ Hv]. pose proof (set_find_spec s st set Hok) as Hno. rewrite Hn in Hno.
  assert ((st ++ [s]) !! length st = Some s) as Hq by (by rewrite lookup_app_r, Nat.sub_diag by done).
  pose proof (set_ok_keys _ _ _ (keeps_keys_app st [s]) Hok) as [Hs Hv']. split.
  2:{ rewrite set_insert_perm by done. constructor; [rewrite length_app; cbn; lia|done]. }
  clear Hn Hok Hv'. induction Hs as [|p set Hs IH Hp]; cbn [set_insert_sample]; [by repeat constructor|].
  pose proof Hv as [Hpv Hv']%Forall_cons_1. apply lookup_lt_is_Some_2 in Hpv as [e He]. rewrite He.
  assert ((st ++ [s]) !! p = Some e) as He' by (by apply lookup_app_l_Some).
  destruct (before e s) eqn:E.
  - constructor; [apply IH; [done|intros q f Hq'; apply Hno; by right]|]. rewrite set_insert_perm by done. constructor; [by exists e, s|done].
  - assert (before s e = true) as E'.
    { destruct (before s e) eqn:E'; [done|]. assert (same e s = true) as Es by (by apply (same_iff _ three_ways)).
      rewrite (Hno p e) in Es by (done || left). done. }
    constructor; [by constructor|]. constructor; [by exists s, e|]. eapply Forall_impl; [exact Hp|].
    intros q (e1 & f1 & H1 & H2 & H3). rewrite He' in H1. injection H1 as <-. exists s, f1. split_and!; [done|done|]. by eapply before_trans.
Qed.

(** ** Sums over the samples of a set *)

Definition at_sample (f : SampleEntry -> Z) (st : list SampleEntry) (p : nat) : Z :=
  match st !! p with Some e => f e | None => 0 end.
Definition set_sum (f : SampleEntry -> Z) (st : list SampleEntry) (set : list nat) : Z := zsum (at_sample f st <$> set).

Lemma set_sum_ext f g st st' set :
  (forall p, p ∈ set -> at_sample f st p = at_sample g st' p) -> set_sum f st set = set_sum g st' set.
Proof.
  unfold set_sum. induction set as [|p set IH]; intros H; [done|]. rewrite !fmap_cons, !zsum_cons, IH.
  - rewrite (H p) by left. done.
  - intros q Hq. apply H. by right.
Qed.

Lemma set_sum_perm f st set set' : set ≡ₚ set' -> set_sum f st set = set_sum f st set'.
Proof. intros H. unfold set_sum. apply zsum_perm. by rewrite H. Qed.

Lemma set_sum_store f s st set :
  set_ok st set -> set_sum f (st ++ [s]) (set_insert_sample o (length st) s st set) = set_sum f st set + f s.
Proof.
  intros [_ Hv]. rewrite (set_sum_perm _ _ _ (length st :: set)) by (by apply set_insert_perm). unfold set_sum at 1. rewrite fmap_cons, zsum_cons.
  unfold at_sample at 1. rewrite lookup_app_r, Nat.sub_diag by done. cbn. fold (set_sum f (st ++ [s]) set).
  rewrite (set_sum_ext f f (st ++ [s]) st); [lia|]. intros p Hp. rewrite Forall_forall in Hv. specialize (Hv p Hp). unfold at_sample.
  by rewrite lookup_app_l by done.
Qed.

Lemma set_NoDup st set : set_ok st set -> NoDup set.
Proof.
  intros [Hs _]. induction Hs as [|p set Hs IH Hp]; constructor; [|done]. intros Hin. rewrite Forall_forall in Hp.
  destruct (Hp p Hin) as (e & e' & H1 & H2 & H3). simplify_eq. rewrite before_irrefl in H3; [done|].
  apply (Equivalence_Reflexive (Equivalence := same_equivalence _ three_ways)).
Qed.

Lemma set_sum_alter f g p e st set :
  set_ok st set -> p ∈ set -> st !! p = Some e -> set_sum f (alter g p st) set = set_sum f st set - f e + f (g e).
Proof.
  intros Hok Hp He. pose proof (set_NoDup st set Hok) as Hn. apply list_elem_of_lookup in Hp as [i Hi].
  assert (forall q, q <> p -> at_sample f (alter g p st) q = at_sample f st q) as Hne
    by (intros q Hq; unfold at_sample; by rewrite list_lookup_alter_ne by congruence).
  assert (at_sample f (alter g p st) p = f (g e)) as Hpe by (unfold at_sample; by rewrite list_lookup_alter_eq, He).
  assert (at_sample f st p = f e) as Hpe' by (unfold at_sample; by rewrite He).
  clear Hok. revert i Hi. induction Hn as [|q set Hq Hn IH]; intros [|i] Hi; [done..| |]; unfold set_sum in *; rewrite !fmap_cons, !zsum_cons.
  - injection Hi as ->. pose proof (set_sum_ext f f (alter g p st) st set) as E. unfold set_sum in E. rewrite E; [lia|].
    intros r Hr. apply Hne. by intros ->.
  - specialize (IH i Hi). rewrite (Hne q); [lia|]. intros ->. apply Hq. by eapply list_elem_of_lookup_2.
Qed.

(** ** [InsertSample] *)

Context (demangle : Symbol -> bytes).
Abbreviation passes := (FilterSample demangle o).

Lemma passes_key e e' : sample_key e = sample_key e' -> passes e = passes e'.
Proof. unfold sample_key, FilterSample. intros [=]. by repeat match goal with H : _ = _ |- _ => rewrite H; clear H end. Qed.

(** The invariant of a builder: both sets are in order and without two samples
    of the same key, and the totals are those of the samples. *)
Record sets_ok (b : Builder) : Prop := {
  so_set : set_ok (sample_storage_ b) (sample_set_ b);
  so_callchain : set_ok (sample_storage_ b) (callchain_sample_set_ b);
  so_passes : forall p e, p ∈ sample_set_ b -> sample_storage_ b !! p = Some e -> passes e = true;
  so_period : total_period_ b = u64 (set_sum e_period (sample_storage_ b) (sample_set_ b));
  so_samples : total_samples_ b = u64 (set_sum sample_count (sample_storage_ b) (sample_set_ b));
}.

Lemma new_sets_ok t : sets_ok (Builder_new t).
Proof. split; cbn; try done; split; try apply SSorted_nil; done. Qed.

(** Members that [MergeSample] adds up. *)
Class Additive (f : SampleEntry -> Z) : Prop := merge_adds a b : f (MergeSample a b) = f a +u64 f b.
#[export] Instance period_additive : Additive e_period.
Proof. done. Qed.
#[export] Instance accumulated_additive : Additive accumulated_period.
Proof. done. Qed.
#[export] Instance count_additive : Additive sample_count.
Proof. done. Qed.

(** The sum of [f] over the samples with the key of [s]. *)
Definition group (f : SampleEntry -> Z) (s : SampleEntry) (b : Builder) : Z :=
  set_sum (fun e => if same e s then f e else 0) (sample_storage_ b) (sample_set_ b).

(** What does not change when samples are inserted. *)
Definition same_rest (b b' : Builder) : Prop :=
  callchain_parent_map_ b' = callchain_parent_map_ b /\ b_tree b' = b_tree b /\ next_sample_cache_ b' = next_sample_cache_ b.

Lemma merge_key a b : sample_key (MergeSample a b) = sample_key a.
Proof. done. Qed.

Lemma same_refl e : same e e = true.
Proof. apply (Equivalence_Reflexive (Equivalence := same_equivalence _ three_ways)). Qed.
Lemma same_subst x y z : same x y = true -> same x z = same y z.
Proof. intros H. pose proof (same_equivalence _ three_ways). by apply (same_cong same). Qed.

Lemma insert_sample_ok s b b' r :
  sets_ok b -> InsertSample demangle o s b = (b', r) ->
  sets_ok b' /\ same_rest b b' /\ keeps_keys (sample_storage_ b) (sample_storage_ b') /\
  (length (sample_storage_ b) <= length (sample_storage_ b'))%nat /\
  (forall f, Additive f -> forall k, u64 (group f k b') = u64 (group f k b + (if passes s && same s k then f s else 0))) /\
  match r with
  | Some p => passes s = true /\ p ∈ sample_set_ b' /\ exists e, sample_storage_ b' !! p = Some e /\ same e s = true
  | None => passes s = false /\ b' = b
  end.
Proof.
  intros [H1 H2 H3 H4 H5] E. unfold InsertSample in E. destruct (passes s) eqn:Hf; cbn [negb] in E.
  2:{ injection E as <- <-. split_and!; try done; [apply keeps_keys_refl|]. intros. cbn [andb]. f_equal. lia. }
  change (sample_storage_ (UpdateSummary s b)) with (sample_storage_ b) in E. change (sample_set_ (UpdateSummary s b)) with (sample_set_ b) in E.
  pose proof (set_find_spec s _ _ H1) as Hfind. destruct (set_find o s (sample_storage_ b) (sample_set_ b)) as [p|] eqn:Ef; injection E as <- <-.
  - destruct Hfind as [Hp (e & He & Hs)]. set (g := fun e => MergeSample e s).
    assert (keeps_keys (sample_storage_ b) (alter g p (sample_storage_ b))) as Hk by (by apply keeps_keys_alter).
    assert (forall f, set_sum f (alter g p (sample_storage_ b)) (sample_set_ b) = set_sum f (sample_storage_ b) (sample_set_ b) - f e + f (g e)) as Hsum
      by (intros f; by apply set_sum_alter).
    split_and!; try done; [split; cbn [set_storage UpdateSummary sample_set_ sample_storage_ callchain_sample_set_ total_period_ total_samples_]| | |].
    + by eapply set_ok_keys.
    + by eapply set_ok_keys.
    + intros q x Hq Hx. destruct (decide (p = q)) as [<-|Hne].
      * rewrite list_lookup_alter_eq, He in Hx. injection Hx as <-. rewrite (passes_key _ e) by done. by apply (H3 p).
      * rewrite list_lookup_alter_ne in Hx by done. by apply (H3 q).
    + rewrite Hsum, H4. cbn [g MergeSample e_period]. set (x := set_sum _ _ _).
      replace (x - e_period e + u64 (e_period e + e_period s)) with (u64 (e_period e + e_period s) + (x - e_period e)) by lia. usum.
    + rewrite Hsum, H5. cbn [g MergeSample sample_count]. set (x := set_sum _ _ _).
      replace (x - sample_count e + u64 (sample_count e + sample_count s)) with (u64 (sample_count e + sample_count s) + (x - sample_count e)) by lia. usum.
    + cbn. by rewrite length_alter.
    + intros f Hadd k. unfold group. cbn [set_storage UpdateSummary sample_set_ sample_storage_]. rewrite Hsum. cbn [andb].
      rewrite (same_key (g e) e k k), <- (same_subst e s k) by done. destruct (same e k); [|f_equal; lia].
      unfold g. rewrite merge_adds. set (x := set_sum _ _ _).
      replace (x - f e + u64 (f e + f s)) with (u64 (f e + f s) + (x - f e)) by lia. usum.
    + exists (g e). cbn. rewrite list_lookup_alter_eq, He. split; [done|]. by rewrite (same_key (g e) e s s).
  - split_and!; try done; [split; cbn [store_sample UpdateSummary fst sample_set_ sample_storage_ callchain_sample_set_ total_period_ total_samples_]| | | | |].
    + by apply set_insert_ok.
    + eapply set_ok_keys; [apply keeps_keys_app|done].
    + intros q x Hq Hx. rewrite set_insert_perm in Hq by apply H1. apply elem_of_cons in Hq as [->|Hq].
      * rewrite lookup_app_r, Nat.sub_diag in Hx by done. by injection Hx as <-.
      * destruct H1 as [_ Hv]. rewrite Forall_forall in Hv. rewrite lookup_app_l in Hx by (by apply Hv). by apply (H3 q).
    + rewrite set_sum_store, H4 by done. usum.
    + rewrite set_sum_store, H5 by done. usum.
    + apply keeps_keys_app.
    + cbn. rewrite length_app. cbn. lia.
    + intros f Hadd k. unfold group. cbn [store_sample UpdateSummary sample_set_ sample_storage_ fst]. rewrite set_sum_store by done. by cbn [andb].
    + cbn. rewrite set_insert_perm by apply H1. left.
    + exists s. cbn. rewrite lookup_app_r, Nat.sub_diag by done. split; [done|apply same_refl].
Qed.

Lemma set_distinct st set p q e e' :
  set_ok st set -> p ∈ set -> q ∈ set -> st !! p = Some e -> st !! q = Some e' -> same e e' = true -> p = q.
Proof.
  intros [Hs _] Hp Hq He He' E. induction Hs as [|r set Hs IH Hr]; [by apply not_elem_of_nil in Hp|].
  assert (forall p q e e', p = r -> q ∈ set -> st !! p = Some e -> st !! q = Some e' -> before e e' = true) as Hlt.
  { intros p' q' x y -> Hq' Hx Hy. rewrite Forall_forall in Hr. destruct (Hr q' Hq') as (x' & y' & ? & ? & ?). by simplify_eq. }
  apply elem_of_cons in Hp as [Hp|Hp], Hq as [Hq|Hq]; [congruence| | |by apply IH].
  - pose proof (Hlt p q e e' Hp Hq He He') as H. by rewrite before_irrefl in H.
  - pose proof (Hlt q p e' e Hq Hp He' He) as H. apply (same_iff _ three_ways) in E as [_ E]. congruence.
Qed.

Lemma group_member f b p e :
  sets_ok b -> p ∈ sample_set_ b -> sample_storage_ b !! p = Some e -> group f e b = f e.
Proof.
  intros [Hs _ _ _ _] Hp He. unfold group. set (st := sample_storage_ b) in *. pose proof (set_NoDup _ _ Hs) as Hn.
  assert (forall q, q ∈ sample_set_ b -> q <> p -> at_sample (fun x => if same x e then f x else 0) st q = 0) as Hz.
  { intros q Hq Hne. unfold at_sample. destruct (st !! q) as [x|] eqn:Ex; [|done]. destruct (same x e) eqn:E; [|done].
    by rewrite (set_distinct st (sample_set_ b) q p x e) in Hne. }
  assert (at_sample (fun x => if same x e then f x else 0) st p = f e) as Hpe by (unfold at_sample; by rewrite He, same_refl).
  clear Hs He. unfold set_sum. induction Hn as [|q set Hq Hn IH]; [by apply not_elem_of_nil in Hp|]. rewrite fmap_cons, zsum_cons.
  apply elem_of_cons in Hp as [<-|Hp].
  - rewrite Hpe. assert (set_sum (fun x => if same x e then f x else 0) st set = 0) as E; [|unfold set_sum in E; lia].
    clear IH Hn. unfold set_sum. induction set as [|r set IHs]; [done|]. rewrite fmap_cons, zsum_cons, IHs.
    + rewrite (Hz r); [done|right; left|]. intros ->. apply Hq. left.
    + intros Hin. apply Hq. by right.
    + intros r' Hr'. apply Hz. apply elem_of_cons in Hr' as [->|Hr']; [left|right; by right].
  - rewrite IH, (Hz q); [lia|left|by intros ->|done|]. intros r Hr. apply Hz. by right.
Qed.

(** Inserting samples one after the other. *)
Definition insert_all (es : list SampleEntry) (b : Builder) : Builder :=
  foldl (fun b s => fst (InsertSample demangle o s b)) b es.

Lemma insert_all_ok es : forall b, sets_ok b ->
  sets_ok (insert_all es b) /\ keeps_keys (sample_storage_ b) (sample_storage_ (insert_all es b)) /\
  (forall p, p ∈ sample_set_ b -> p ∈ sample_set_ (insert_all es b)) /\
  (forall f, Additive f -> forall k, u64 (group f k (insert_all es b)) =
     u64 (group f k b + zsum ((fun s => if passes s && same s k then f s else 0) <$> es))) /\
  (forall s, s ∈ es -> passes s = true ->
     exists p e, p ∈ sample_set_ (insert_all es b) /\ sample_storage_ (insert_all es b) !! p = Some e /\ same e s = true).
Proof.
  induction es as [|s es IH]; intros b Hb.
  { split_and!; [done|apply keeps_keys_refl|done|intros; cbn; f_equal; lia|intros s Hs; by apply not_elem_of_nil in Hs]. }
  unfold insert_all. cbn [foldl]. fold (insert_all es). destruct (InsertSample demangle o s b) as [b1 r] eqn:E. cbn [fst].
  destruct (insert_sample_ok s b b1 r Hb E) as (Hb1 & _ & Hk1 & _ & Hg & Hr).
  destruct (IH b1 Hb1) as (Hb2 & Hk2 & Hsub & Hg2 & Hin).
  assert (forall p, p ∈ sample_set_ b -> p ∈ sample_set_ b1) as Hsub1.
  { intros p Hp. clear -E Hp Hb. unfold InsertSample in E. destruct (negb (passes s)); [by injection E as <- _|].
    destruct (set_find _ _ _ _); injection E as <- _; cbn; [done|]. rewrite set_insert_perm by apply Hb. by right. }
  split_and!; [done|by eapply keeps_keys_trans|auto| |].
  - intros f Hf k. rewrite Hg2, <- u64_plus_l, Hg, u64_plus_l by done. rewrite fmap_cons, zsum_cons. f_equal. lia.
  - intros x Hx Hp. apply elem_of_cons in Hx as [->|Hx]; [|by apply Hin]. destruct r as [p|]; [|destruct Hr; congruence].
    destruct Hr as (_ & Hr & e & He & Hs). destruct (Hk2 p e He) as (e' & He' & Ek). exists p, e'. split_and!; [auto|done|].
    by rewrite (same_key e' e s s).
Qed.

(** ** What grouping promises *)

(** An empty filter lets everything pass. *)
Definition allows {A} `{Countable A} (filter : gset A) (x : A) : Prop := filter = ∅ \/ x ∈ filter.

Definition selected (s : SampleEntry) : Prop :=
  allows (pid_filter_ o) (th_pid (e_thread s)) /\ allows (tid_filter_ o) (th_tid (e_thread s)) /\
  allows (comm_filter_ o) (thread_comm s) /\ allows (dso_filter_ o) (e_dso_path s) /\
  allows (symbol_filter_ o) (demangle (e_symbol s)).

(** No comparison of the list tells the samples apart, or the first that does
    puts [s] first. *)
Definition equal_key (s e : SampleEntry) : Prop := Forall (fun cmp => cmp s e = 0) (sample_comparator_ o).
Definition key_before (s e : SampleEntry) : Prop :=
  exists l cmp l', sample_comparator_ o = l ++ cmp :: l' /\ Forall (fun cmp => cmp s e = 0) l /\ cmp s e < 0.

#[export] Instance selected_dec s : Decision (selected s).
Proof. unfold selected, allows. apply _. Defined.
#[export] Instance equal_key_dec s e : Decision (equal_key s e).
Proof. unfold equal_key. apply _. Defined.

(** The sum of [f] over the selected samples of [es] with the key of [e]. *)
Definition sum_of (f : SampleEntry -> Z) (e : SampleEntry) (es : list SampleEntry) : Z :=
  zsum (f <$> filter (fun s => selected s /\ equal_key s e) es).

Lemma allows_guard {A} `{Countable A} (flt : gset A) x : negb (bool_decide (flt = ∅)) && bool_decide (x ∉ flt) = false <-> allows flt x.
Proof. unfold allows. repeat case_bool_decide; cbn; naive_solver. Qed.

Lemma passes_selected s : passes s = true <-> selected s.
Proof.
  unfold FilterSample, selected. rewrite <- !allows_guard.
  repeat match goal with |- context [if ?c then _ else _] => destruct c end; naive_solver.
Qed.

Lemma same_equal_key s e : same s e = true <-> equal_key s e.
Proof.
  clear Hcmp. unfold equal_key. induction (sample_comparator_ o) as [|f l IH]; cbn [IsSameSample]; [by split|].
  rewrite Forall_cons. destruct (Z.eqb_spec (f s e) 0); cbn [negb]; naive_solver.
Qed.

Lemma before_key_before s e : before s e = true <-> key_before s e.
Proof.
  clear Hcmp. unfold key_before. induction (sample_comparator_ o) as [|f l IH]; cbn [less].
  { split; [done|]. by intros ([|] & ? & ? & ? & _). }
  destruct (Z.eqb_spec (f s e) 0) as [E|E]; cbn [negb].
  - rewrite IH. split; intros (l1 & c & l2 & H).
    + destruct H as (-> & H1 & H2). exists (f :: l1), c, l2. split_and!; [done|by constructor|done].
    + destruct l1 as [|f' l1], H as (H0 & H1 & H2); cbn in H0; injection H0 as -> ->; [lia|].
      apply Forall_cons_1 in H1 as [_ H1]. by exists l1, c, l2.
  - rewrite Z.ltb_lt. split; [intros H; by exists [], f, l|]. intros ([|f' l1] & c & l2 & H0 & H1 & H2); cbn in H0; injection H0 as -> ->; [done|].
    by apply Forall_cons_1 in H1 as [? _].
Qed.

Lemma sum_of_guarded f e es : zsum ((fun s => if passes s && same s e then f s else 0) <$> es) = sum_of f e es.
Proof.
  unfold sum_of. induction es as [|s es IH]; [done|]. rewrite fmap_cons, zsum_cons, IH, filter_cons.
  pose proof (passes_selected s). pose proof (same_equal_key s e).
  destruct (decide (selected s /\ equal_key s e)) as [[H1 H2]|H1].
  - rewrite fmap_cons, zsum_cons, (proj2 (passes_selected s)), (proj2 (same_equal_key s e)) by done. done.
  - destruct (passes s), (same s e); cbn [andb]; naive_solver lia.
Qed.

(** Every sample of the set comes from an inserted one, and the totals count those. *)
Lemma insert_all_origin es : forall b, sets_ok b ->
  (forall p e, p ∈ sample_set_ (insert_all es b) -> sample_storage_ (insert_all es b) !! p = Some e ->
     p ∈ sample_set_ b \/ exists s, s ∈ es /\ passes s = true /\ sample_key e = sample_key s) /\
  u64 (total_period_ (insert_all es b)) = u64 (total_period_ b + zsum (e_period <$> filter selected es)) /\
  u64 (total_samples_ (insert_all es b)) = u64 (total_samples_ b + zsum (sample_count <$> filter selected es)).
Proof.
  induction es as [|s es IH]; intros b Hb; [cbn; rewrite !Z.add_0_r; split_and!; [by left|done..]|].
  change (insert_all (s :: es) b) with (insert_all es (fst (InsertSample demangle o s b))).
  destruct (InsertSample demangle o s b) as [b1 r] eqn:E. cbn [fst].
  destruct (insert_sample_ok s b b1 r Hb E) as (Hb1 & _). destruct (IH b1 Hb1) as (H1 & -> & ->).
  destruct (insert_all_ok es b1 Hb1) as (_ & Hk & _). rewrite filter_cons. unfold InsertSample in E.
  destruct (passes s) eqn:Hp; cbn [negb] in E.
  2:{ injection E as <- <-. rewrite decide_False by (rewrite <- passes_selected; congruence). split_and!; [|done..].
      intros p e Hin He. destruct (H1 p e Hin He) as [?|(x & ? & ?)]; [by left|right; exists x; by rewrite elem_of_cons; auto]. }
  rewrite decide_True, !fmap_cons, !zsum_cons by (by apply passes_selected).
  change (sample_storage_ (UpdateSummary s b)) with (sample_storage_ b) in E. change (sample_set_ (UpdateSummary s b)) with (sample_set_ b) in E.
  destruct (set_find o s (sample_storage_ b) (sample_set_ b)) as [q|]; injection E as <- <-;
    cbn [set_storage store_sample UpdateSummary fst sample_set_ sample_storage_ total_period_ total_samples_] in *; (split_and!; [|usum..]);
    intros p e Hin He; (destruct (H1 p e Hin He) as [H|(x & ? & ?)]; [|right; exists x; by rewrite elem_of_cons; auto]); [by left|].
  rewrite set_insert_perm in H by apply Hb. apply elem_of_cons in H as [->|H]; [right|by left]. exists s. split; [left|]. split; [done|].
  destruct (Hk (length (sample_storage_ b)) s) as (e' & He' & Ee); [by rewrite lookup_app_r, Nat.sub_diag by done|]. congruence.
Qed.

(** C26: inserting samples groups them.  Whatever samples are inserted into a new
    builder whose comparators are three-way orders on the key of a sample (its
    thread, command, map, library, symbol, address and branch): the set is in
    strict lexicographic order of the comparators, so it has one sample per key;
    the period, the accumulated period and the sample count of each are the sums,
    modulo 2^64, over the inserted samples that no comparator tells from it and
    that are selected, that is, for each of the five filters (process, thread,
    command, library, demangled symbol), the filter is empty or holds the
    sample's value; each sample of the set has the key of a selected inserted
    sample and each selected inserted sample is represented; the builder's totals
    are the sums over all selected samples modulo 2^64. *)
Theorem InsertSample_groups es t :
  let b := insert_all es (Builder_new t) in
  StronglySorted (fun p q => exists e e', sample_storage_ b !! p = Some e /\ sample_storage_ b !! q = Some e' /\ key_before e e')
    (sample_set_ b) /\
  (forall p e, p ∈ sample_set_ b -> sample_storage_ b !! p = Some e ->
     u64 (e_period e) = u64 (sum_of e_period e es) /\
     u64 (accumulated_period e) = u64 (sum_of accumulated_period e es) /\
     u64 (sample_count e) = u64 (sum_of sample_count e es) /\
     exists s, s ∈ es /\ selected s /\ sample_key e = sample_key s) /\
  (forall s, s ∈ es -> selected s ->
     exists p e, p ∈ sample_set_ b /\ sample_storage_ b !! p = Some e /\ equal_key e s) /\
  u64 (total_period_ b) = u64 (zsum (e_period <$> filter selected es)) /\
  u64 (total_samples_ b) = u64 (zsum (sample_count <$> filter selected es)).
Proof.
  intros b. destruct (insert_all_ok es (Builder_new t) (new_sets_ok t)) as (Hb & _ & _ & Hg & Hin).
  destruct (insert_all_origin es (Builder_new t) (new_sets_ok t)) as (Ho & Hp & Hn). fold b in Hb, Hg, Hin, Ho, Hp, Hn.
  split_and!; [| | |done|done].
  - apply (sorted_weaken (lt_at (sample_storage_ b))); [|apply Hb]. intros p q (e & e' & ? & ? & H). exists e, e'. by rewrite <- before_key_before.
  - intros p e Hpe He. assert (forall f, Additive f -> u64 (f e) = u64 (sum_of f e es)) as Hsum
      by (intros f Hf; rewrite <- (group_member f b p e), Hg, <- sum_of_guarded by done; done).
    split_and!; [apply Hsum, _..|]. destruct (Ho p e Hpe He) as [H|(s & H1 & H2 & H3)]; [by apply not_elem_of_nil in H|].
    exists s. by rewrite <- passes_selected.
  - intros s Hs Hsel. destruct (Hin s Hs) as (p & e & ? & ? & ?); [by apply passes_selected|]. exists p, e. by rewrite <- same_equal_key.
Qed.
End sets.

(** Three samples of one key, one of another, and one of a thread that is filtered out. *)
Definition group_example (tid period vaddr : Z) : SampleEntry :=
  SampleEntry_new 1 period 2 1 (mkThread 5 tid [] 0) (mkMap 0 100 0 0 (Some 2%nat) false 0) [] (Symbol_new [] 0 0) vaddr.

Definition group_options : Options := mkOptions [CompareVaddrInFile] false false false false false ∅ {[5]} ∅ ∅ ∅.
Definition group_samples : list SampleEntry :=
  [group_example 5 3 20; group_example 5 5 10; group_example 5 7 20; group_example 6 9 20; group_example 5 1 20].

Lemma InsertSample_groups_witness :
  let b := insert_all group_options symbol_name group_samples (Builder_new two_threads) in
  sample_set_ b = [1; 0]%nat /\
  (exists e, sample_storage_ b !! 0%nat = Some e /\ e_period e = 11 /\ accumulated_period e = 6 /\
     u64 (accumulated_period e) = u64 (sum_of group_options symbol_name accumulated_period e group_samples)) /\
  u64 (total_period_ b) = u64 (zsum (e_period <$> filter (selected group_options symbol_name) group_samples)).
Proof.
  assert (Forall KeyCompare (sample_comparator_ group_options)) as Hc by (apply Forall_singleton; apply CompareVaddrInFile_key).
  destruct (InsertSample_groups group_options Hc symbol_name group_samples two_threads) as (_ & H & _ & Ht & _).
  split; [reflexivity|]. split; [|exact Ht]. eexists. split; [reflexivity|]. split; [reflexivity|]. split; [reflexivity|].
  apply (H 0%nat); [cbn; right; left|reflexivity].
Defined.
