(* ===== verification/Report.v ===== *)
(** Composition: the report as a whole.  Thread and map records update the
    thread tree (ThreadTree.v), sample records are looked up in it, grouped and
    added to call graphs (SampleTree.v, CallChain.v); the lemmas show that each
    step succeeds and keeps the invariants, whatever the order of the records. *)
From Stdlib Require Import ZArith Lia Sorted.
From stdpp Require Import base numbers strings gmap list.
From S2P Require Import Prelude Utils RecordBase Records SampleRecord Maps KernelSymbols Dso ThreadTree SampleComparator CallChain SampleTree.

(** * The libraries of maps *)

Definition dso_valid (n : nat) (m : MapEntry) : Prop := exists i, dso m = Some i /\ (i < n)%nat.

Lemma dso_valid_mono n n' l : (n <= n')%nat -> Forall (dso_valid n) l -> Forall (dso_valid n') l.
Proof. intros Hn H. eapply Forall_impl; [exact H|]. intros m (i & Hi & Hlt). exists i. split; [done|lia]. Qed.

Section pieces.
Context (Q : option nat -> Prop).
Abbreviation all := (Forall (fun m => Q (dso m))).

Lemma set_insert_all m l : Q (dso m) -> all l -> all (fst (set_insert m l)).
Proof.
  intros Hm. induction 1 as [|x l Hx Hl IH]; cbn [set_insert]; [by constructor|].
  destruct (MapComparator x m); [|destruct (MapComparator m x); by repeat constructor].
  destruct (set_insert m l) as [l' b]. by constructor.
Qed.

Lemma insert_around_all m old done rest : Q (dso m) -> all done -> all rest ->
  all (fst (insert_around m old done rest)) /\ all (snd (insert_around m old done rest)).
Proof.
  intros Hm Hd Hr. unfold insert_around. destruct (MapComparator m old); [split; [by apply set_insert_all|done]|].
  destruct (MapComparator old m); [split; [done|by apply set_insert_all]|done].
Qed.

Lemma split_old_all map old done rest : Q (dso old) -> all done -> all rest ->
  all (fst (split_old map old done rest)) /\ all (snd (split_old map old done rest)).
Proof.
  intros Ho Hd Hr. unfold split_old.
  assert (forall m d r, Q (dso m) -> all d -> all r -> all (fst (insert_around m old d r)) /\ all (snd (insert_around m old d r))) as H
    by (intros; by apply insert_around_all).
  destruct (start_addr old <? start_addr map).
  - destruct (insert_around _ old done rest) as [d r] eqn:E. edestruct H as [H1 H2]; [|exact Hd|exact Hr|]; [|rewrite E in H1, H2; cbn in H1, H2]; [done|].
    destruct (get_end_addr map <? get_end_addr old); [by apply H|done].
  - destruct (get_end_addr map <? get_end_addr old); [by apply H|done].
Qed.

Lemma fix_overlapped_all fuel map : forall done todo, all done -> all todo -> all (FixOverlappedMap_loop fuel map done todo).
Proof.
  induction fuel as [|fuel IH]; intros done todo Hd Ht; cbn [FixOverlappedMap_loop]; [by apply Forall_app|].
  destruct todo as [|old rest]; [by apply Forall_app|]. pose proof Ht as [Ho Hr]%Forall_cons_1.
  destruct (get_end_addr map <=? start_addr old); [by apply Forall_app|].
  destruct (get_end_addr old <=? start_addr map).
  - apply IH; [|done]. apply Forall_app. split; [done|]. by apply Forall_singleton.
  - pose proof (split_old_all map old done rest Ho Hd Hr) as [H1 H2]. destruct (split_old map old done rest) as [d r]. by apply IH.
Qed.

Lemma add_map_all map m m' : Q (dso map) -> all (maps m) -> add_map map m = Ok m' -> all (maps m').
Proof.
  intros Hm Hl. unfold add_map. pose proof (set_insert_all map (FixOverlappedMap (maps m) map) Hm) as H.
  destruct (set_insert _ _) as [l b]. destruct b; [|done]. intros [= <-]. cbn [maps fst] in *. apply H.
  apply fix_overlapped_all; [done|done].
Qed.
End pieces.

(** * The thread tree *)

Record dsos_ok (t : ThreadTree) : Prop := {
  do_kernel : Forall (dso_valid (length (dsos_ t))) (maps (kernel_maps_ t));
  do_sets : Forall (fun m => Forall (dso_valid (length (dsos_ t))) (maps m)) (map_set_storage_ t);
  do_user : map_Forall (fun _ d => d < length (dsos_ t))%nat (user_dso_tree_ t);
  do_module : map_Forall (fun _ d => d < length (dsos_ t))%nat (module_dso_tree_ t);
}.

Section tree.
Context `{files : DsoFiles}.

(** A tree in which every lookup succeeds. *)
Record tree_complete (t : ThreadTree) : Prop := {
  tc_ok : tree_ok t;
  tc_dsos : dsos_ok t;
  tc_symbols : kallsyms_readable (globals_ t);
}.

(** The steps of the tree leave map sets where they are. *)
Definition grows (t t' : ThreadTree) : Prop := (length (map_set_storage_ t) <= length (map_set_storage_ t'))%nat.

Lemma thread_complete pid tid t t' th :
  tree_complete t -> FindThreadOrNew pid tid t = Ok t' -> thread_tree_ t' !! tid = Some th -> tree_complete t' /\ grows t t' /\ extends t t'.
Proof.
  intros [H1 H2 H3] E Hth. destruct (find_thread pid tid t H1) as (u & th' & E' & Hu & _ & Hx & _). rewrite E in E'. injection E' as <-.
  pose proof (find_thread_rest _ _ _ _ E) as [= Hk Hd Hmo Hus Hg]. pose proof Hx as [_ (new & En & Hnew) _ _].
  split_and!; [|unfold grows; rewrite En, length_app; lia|done]. split; [done| |by rewrite Hg]. destruct H2 as [D1 D2 D3 D4].
  split; rewrite ?Hd, ?Hk, ?Hmo, ?Hus; try done. rewrite En. apply Forall_app. split; [done|].
  eapply Forall_impl; [exact Hnew|]. intros m ->. constructor.
Qed.

Lemma symbol_complete map ip t :
  tree_complete t -> dso_valid (length (dsos_ t)) map ->
  exists t' s v d, FindSymbol_tree map ip t = Ok (t', s, v, d) /\ tree_complete t' /\ dso_step t t'.
Proof.
  intros [H1 H2 H3] (i & Hi & Hlt). destruct (find_symbol_ok map i ip t Hi Hlt (tk_dsos _ H1) H3) as (t' & s & v & d & E & Hs & _).
  exists t', s, v, d. split; [done|]. split; [|done].
  destruct Hs as ((A1 & A2 & A3) & A4 & A5 & A6 & Em & Eu). split; [| |by rewrite A6].
  - destruct H1. split; rewrite ?A1, ?A2, ?A3, ?A4; done.
  - destruct H2. split; rewrite ?A2, ?A3, ?A4, ?Eu, ?Em; done.
Qed.

Lemma find_map_in l a m : FindMapByAddr l a = Some m -> m ∈ l.
Proof.
  unfold FindMapByAddr. intros H. destruct (before_upper_bound _ l) as [it|] eqn:E; [|done].
  assert (m = it) as -> by (destruct (IsAddrInMap a it); [by injection H|done]). clear H. revert E.
  generalize (mkMap a UINT64_MAX 0 UINT64_MAX None false 0) as f. intros f E. revert it E.
  induction l as [|x l IH]; intros it E; [done|]. cbn [before_upper_bound] in E. destruct (MapComparator f x); [done|].
  destruct (before_upper_bound f l) as [y|]; injection E as <-; [right; by apply IH|left].
Qed.

Lemma found_valid n l a : (2 <= n)%nat -> Forall (dso_valid n) l -> dso_valid n (default unknown_map_ (FindMapByAddr l a)).
Proof.
  intros Hn Hl. destruct (FindMapByAddr l a) as [m|] eqn:E; cbn [default].
  - rewrite Forall_forall in Hl. apply Hl. by eapply find_map_in.
  - exists 0%nat. split; [done|lia].
Qed.

Lemma maps_found t th : tree_complete t -> (th_maps th < length (map_set_storage_ t))%nat ->
  exists m, get_maps (th_maps th) t = Ok m /\ Forall (dso_valid (length (dsos_ t))) (maps m).
Proof.
  intros [_ [_ Hs _ _] _] Hlt. apply lookup_lt_is_Some_2 in Hlt as [m Hm]. exists m. unfold get_maps. rewrite Hm. split; [done|].
  by apply (Forall_lookup_1 _ _ _ _ Hs Hm).
Qed.

Lemma find_map_valid t th ip k : tree_complete t -> (th_maps th < length (map_set_storage_ t))%nat ->
  (exists m, FindMap_in th ip k t = Ok m /\ dso_valid (length (dsos_ t)) m) /\
  (exists m, FindMap th ip t = Ok m /\ dso_valid (length (dsos_ t)) m).
Proof.
  intros Ht Hlt. destruct (maps_found t th Ht Hlt) as (m & Em & Hm). destruct Ht as [H1 [Hk _ _ _] _]. pose proof (tk_dsos _ H1) as H2. split.
  - unfold FindMap_in. rewrite Em. destruct k; cbn [negb mbind res_bind]; eexists; (split; [done|]); by apply found_valid.
  - unfold FindMap. rewrite Em. cbn [mbind res_bind]. destruct (FindMapByAddr (maps m) ip) as [r|] eqn:E; eexists; (split; [done|]).
    + pose proof (found_valid _ _ ip H2 Hm) as H. by rewrite E in H.
    + by apply found_valid.
Qed.

(** * The operations of the tree *)

Lemma find_thread_complete pid tid t : tree_complete t ->
  exists t' th, FindThreadOrNew pid tid t = Ok t' /\ tree_complete t' /\ grows t t' /\ extends t t' /\ thread_tree_ t' !! tid = Some th /\
    (th_maps th < length (map_set_storage_ t'))%nat.
Proof.
  intros Ht. destruct (find_thread pid tid t (tc_ok _ Ht)) as (t' & th & E & Hok & Hth & _).
  destruct (thread_complete pid tid t t' th Ht E Hth) as (Ht' & Hg & Hx). exists t', th. split_and!; try done.
  destruct (tk_thread _ Hok tid th Hth) as [_ Hm]. by apply lookup_lt_is_Some.
Qed.

Lemma set_comm_complete tid comm t : tree_complete t -> tree_complete (set_comm tid comm t).
Proof. intros [H1 [] H3]. split; [by apply set_comm_ok|by split|done]. Qed.

Lemma new_dso_dsos d t : dsos_ok t -> dsos_ok (fst (new_dso d t)).
Proof.
  intros [D1 D2 D3 D4]. split; cbn [fst new_dso set_dsos dsos_ kernel_maps_ map_set_storage_ user_dso_tree_ module_dso_tree_].
  - eapply dso_valid_mono; [|exact D1]. rewrite length_app. lia.
  - eapply Forall_impl; [exact D2|]. intros m. apply dso_valid_mono. rewrite length_app. lia.
  - intros k d' H. specialize (D3 k d' H). cbn in *. rewrite length_app. lia.
  - intros k d' H. specialize (D4 k d' H). cbn in *. rewrite length_app. lia.
Qed.

Lemma user_dso_complete f a ty t t' d : tree_complete t -> FindUserDsoOrNew f a ty t = (t', d) ->
  tree_complete t' /\ same_threads t t' /\ (d < length (dsos_ t'))%nat.
Proof.
  intros [H1 H2 H3] E. pose proof (user_dso_threads f a ty t) as [Hs Hk]. rewrite E in Hs, Hk. cbn [fst] in *.
  unfold FindUserDsoOrNew in E. destruct (user_dso_tree_ t !! f) as [d0|] eqn:Eu.
  - injection E as <- <-. split_and!; [by split|done|]. destruct H2 as [_ _ D3 _]. by apply (D3 f d0).
  - injection E as <- <-. assert (length (dsos_ t) < length (dsos_ t ++ [CreateDso ty f (UINT32_MAX <? a)%Z (globals_ t)]))%nat as Hl
      by (rewrite length_app; cbn; lia).
    split_and!; [|done|done]. split; [by apply Hk| |done]. destruct (new_dso_dsos (CreateDso ty f (UINT32_MAX <? a) (globals_ t)) t H2) as [D1 D2 D3 D4].
    split; try done. intros k x H. cbn [set_users user_dso_tree_] in H. apply lookup_insert_Some in H as [[<- <-]|[_ H]]; [done|by apply (D3 k)].
Qed.

Lemma kernel_dso_complete f t t' d : tree_complete t -> FindKernelDsoOrNew f t = (t', d) ->
  tree_complete t' /\ same_threads t t' /\ (d < length (dsos_ t'))%nat.
Proof.
  intros [H1 H2 H3] E. pose proof (kernel_dso_threads f t) as [Hs Hk]. rewrite E in Hs, Hk. cbn [fst] in *. unfold FindKernelDsoOrNew in E.
  destruct (_ || _); [injection E as <- <-; split_and!; [by split|done|]; pose proof (tk_dsos _ H1); unfold kernel_dso_; lia|].
  destruct (module_dso_tree_ t !! f) as [d0|] eqn:Eu.
  - injection E as <- <-. split_and!; [by split|done|]. destruct H2 as [_ _ _ D4]. by apply (D4 f d0).
  - injection E as <- <-. assert (length (dsos_ t) < length (dsos_ t ++ [CreateDso DSO_KERNEL_MODULE f false (globals_ t)]))%nat as Hl
      by (rewrite length_app; cbn; lia).
    split_and!; [|done|done]. split; [by apply Hk| |done]. destruct (new_dso_dsos (CreateDso DSO_KERNEL_MODULE f false (globals_ t)) t H2) as [D1 D2 D3 D4].
    split; try done. intros k x H. cbn [set_modules module_dso_tree_] in H. apply lookup_insert_Some in H as [[<- <-]|[_ H]]; [done|by apply (D4 k)].
Qed.

Definition not_clear (op : tree_op) : Prop := match op with OpClear => False | _ => True end.

Lemma run_op_complete op t : tree_complete t -> op_ok op -> not_clear op ->
  exists t', run_op op t = Ok t' /\ tree_complete t' /\ grows t t'.
Proof.
  intros Ht Ho Hc. destruct (run_op_ok op t (tc_ok _ Ht) Ho) as (t' & E & Hok'). exists t'. split; [done|].
  destruct op as [pid tid comm|pid tid ppid ptid|s l p tm f|pid tid s l p tm f fl|]; cbn [run_op op_ok] in *; [..|done].
  - unfold SetThreadName in E. destruct (find_thread_complete pid tid t Ht) as (t1 & th & E1 & H1 & Hg & _ & Hth & _). rewrite E1 in E.
    cbn [mbind res_bind] in E. unfold get_thread in E. rewrite Hth in E. cbn [mbind res_bind] in E. injection E as <-.
    destruct (bool_decide _); [done|]. split; [by apply set_comm_complete|done].
  - unfold ForkThread in E. destruct (find_thread_complete ppid ptid t Ht) as (t1 & th1 & E1 & H1 & Hg1 & _ & _). rewrite E1 in E.
    cbn [mbind res_bind] in E. destruct (find_thread_complete pid tid t1 H1) as (t2 & th2 & E2 & H2 & Hg2 & _ & _). rewrite E2 in E.
    cbn [mbind res_bind] in E. destruct (get_thread ptid t2) as [parent| |]; [|done..]. cbn [mbind res_bind] in E.
    set (t3 := set_comm tid (th_comm parent) t2) in *. assert (tree_complete t3) as H3 by (by apply set_comm_complete).
    assert (grows t t3) as Hg3 by (unfold grows in *; unfold t3; cbn; lia).
    destruct (get_thread tid t3) as [child| |]; [|done..]. cbn [mbind res_bind] in E. destruct (pid =? ppid); cbn [negb] in E; [by injection E as <-|].
    destruct (get_maps (th_maps parent) t3) as [m| |] eqn:Em; [|done..]. cbn [mbind res_bind] in E. injection E as <-.
    split; [|unfold grows in *; cbn; by rewrite length_insert]. split; [done| |apply H3]. destruct H3 as [_ [D1 D2 D3 D4] _]. split; try done.
    cbn [set_map_sets map_set_storage_ dsos_]. apply Forall_insert; [done|]. unfold get_maps in Em.
    destruct (map_set_storage_ t3 !! th_maps parent) as [m'|] eqn:El; [|done]. injection Em as ->. by apply (Forall_lookup_1 _ _ _ _ D2 El).
  - unfold AddKernelMap in E. destruct (l =? 0); [injection E as <-; split; [done|by unfold grows]|]. destruct (FindKernelDsoOrNew f t) as [t1 d] eqn:E1.
    destruct (kernel_dso_complete f t t1 d Ht E1) as (H1 & (Hs1 & Hs2 & Hs3) & Hd).
    destruct (add_map _ (kernel_maps_ t1)) as [m| |] eqn:Em; [|done..]. cbn [mbind res_bind] in E. injection E as <-.
    split; [|unfold grows; cbn; by rewrite Hs2]. destruct H1 as [_ [D1 D2 D3 D4] H1]. split; [done| |done]. split; try done.
    cbn [set_kernel_maps kernel_maps_ dsos_].
    refine (add_map_all (fun d => exists i, d = Some i /\ (i < length (dsos_ t1))%nat) _ _ _ _ D1 Em). by exists d.
  - unfold AddThreadMap in E. destruct (find_thread_complete pid tid t Ht) as (t1 & th & E1 & H1 & Hg1 & _ & Hth & Hlt). rewrite E1 in E.
    cbn [mbind res_bind] in E. unfold get_thread in E. rewrite Hth in E. cbn [mbind res_bind] in E.
    destruct (FindUserDsoOrNew f s DSO_ELF_FILE t1) as [t2 d] eqn:E2. destruct (user_dso_complete f s DSO_ELF_FILE t1 t2 d H1 E2) as (H2 & (Hs1 & Hs2 & Hs3) & Hd).
    destruct (get_maps (th_maps th) t2) as [m| |] eqn:Egm; [|done..]. cbn [mbind res_bind] in E.
    destruct (add_map _ m) as [m'| |] eqn:Em; [|done..]. cbn [mbind res_bind] in E. injection E as <-.
    split; [|unfold grows in *; cbn; rewrite length_insert, Hs2; lia]. destruct H2 as [_ [D1 D2 D3 D4] H2]. split; [done| |done]. split; try done.
    cbn [set_map_sets map_set_storage_ dsos_]. apply Forall_insert; [done|]. cbn [maps].
    refine (add_map_all (fun d => exists i, d = Some i /\ (i < length (dsos_ t2))%nat) _ _ _ _ _ Em); [by exists d|].
    unfold get_maps in Egm. destruct (map_set_storage_ t2 !! th_maps th) as [m0|] eqn:El; [|done]. injection Egm as ->.
    by apply (Forall_lookup_1 _ _ _ _ D2 El).
Qed.

Lemma new_tree_complete g : kallsyms_readable g -> exists t, ThreadTree_new g = Ok t /\ tree_complete t.
Proof.
  intros Hg. unfold ThreadTree_new. match goal with |- exists t, SetThreadName _ _ _ ?x = _ /\ _ => set (t0 := x) end.
  assert (tree_complete t0) as H0.
  { split; [|split; cbn; try done; constructor|done].
    split; [intros k th H; cbn in H; by rewrite lookup_empty in H|constructor|apply maps_ok_nil|done]. }
  destruct (run_op_complete (OpName 0 0 (str "swapper"%string)) t0 H0 I I) as (t & E & Ht & _). by exists t.
Qed.

(** * The state of a report *)

Context (unwind : SampleRecord -> ThreadEntry -> option (list Z)) (demangle : Symbol -> bytes).
Context (o : Options) (Hcmp : Forall KeyCompare (sample_comparator_ o)).

Lemma keeps_length st st' : keeps_keys st st' -> (length st <= length st')%nat.
Proof.
  intros Hk. destruct (decide (length st <= length st')%nat) as [|Hn]; [done|].
  destruct (lookup_lt_is_Some_2 st (length st') ltac:(lia)) as [e He]. destruct (Hk _ _ He) as (e' & He' & _). apply lookup_lt_Some in He'. lia.
Qed.

Lemma same_at_keys st st' p q : keeps_keys st st' -> (p < length st)%nat -> (q < length st)%nat -> same_at o st p q = same_at o st' p q.
Proof.
  intros Hk [e He]%lookup_lt_is_Some_2 [f Hf]%lookup_lt_is_Some_2. destruct (Hk _ _ He) as (e' & He' & Ee). destruct (Hk _ _ Hf) as (f' & Hf' & Ef).
  unfold same_at. rewrite He, Hf, He', Hf'. by apply (same_key o Hcmp).
Qed.

#[local] Instance same_at_equivalence st : Equivalence (fun p q => same_at o st p q = true).
Proof.
  pose proof (same_equivalence _ (three_ways o Hcmp)) as [R S T]. split; unfold same_at.
  - intros p. destruct (st !! p); [apply R|done].
  - intros p q. destruct (st !! p), (st !! q); try done. apply S.
  - intros p q r. destruct (st !! p), (st !! q), (st !! r); try done. apply T.
Qed.

(** A stored sample: its thread has maps, and its call graph is one of stored samples. *)
Record entry_ok (st : list SampleEntry) (n : nat) (e : SampleEntry) : Prop := {
  en_maps : (th_maps (e_thread e) < n)%nat;
  en_stored : root_all (fun p => p < length st)%nat (callchain e);
  en_graph : root_ok (same_at o st) (callchain e);
}.

Lemma entry_ok_mono st st' n n' e : keeps_keys st st' -> (n <= n')%nat -> entry_ok st n e -> entry_ok st' n' e.
Proof.
  intros Hk Hn [H1 H2 H3]. pose proof (keeps_length _ _ Hk). split; [lia| |].
  - eapply root_all_mono; [|done]. cbn. lia.
  - eapply root_ok_ext; [|done|done]. cbn. intros. by apply same_at_keys.
Qed.

(** A sample record that was read from a file: what it points to can be read. *)
Record record_ok (r : SampleRecord) : Prop := {
  ro_period : is_u64 (s_period r);
  ro_ips : has_bit r SAMPLE_CALLCHAIN = true -> exists l, get_ips r = Ok l;
  ro_branches : has_bit r SAMPLE_BRANCH_STACK = true -> forall i, 0 <= i < s_branch_nr r ->
    exists item, deref branch_codec (s_rec r) (s_branch r + 24 * i) = Ok item;
}.

Abbreviation entries_ok st t := (Forall (entry_ok st (length (map_set_storage_ t))) st).
Abbreviation tid_of r := (to_int (tid (s_tid r))).

Record report_ok (b : Builder) : Prop := {
  rp_sets : sets_ok o demangle b;
  rp_tree : tree_complete (b_tree b);
  rp_entries : entries_ok (sample_storage_ b) (b_tree b);
  rp_cache : map_Forall (fun k r => tid_of r = k /\ record_ok r) (next_sample_cache_ b);
}.

(** What one step of the report leaves: samples stay where they are, the cache is as it was. *)
Record step (b b' : Builder) : Prop := {
  st_ok : report_ok b';
  st_keys : keeps_keys (sample_storage_ b) (sample_storage_ b');
  st_cache : next_sample_cache_ b' = next_sample_cache_ b;
}.

Lemma step_refl b : report_ok b -> step b b.
Proof. intros. split; [done|apply keeps_keys_refl|done]. Qed.
Lemma step_trans b1 b2 b3 : step b1 b2 -> step b2 b3 -> step b1 b3.
Proof. intros [_ K1 C1] [H K2 C2]. split; [done|by eapply keeps_keys_trans|congruence]. Qed.

Definition stored (b : Builder) (p : nat) : Prop := (p < length (sample_storage_ b))%nat.
Lemma step_stored b b' p : step b b' -> stored b p -> stored b' p.
Proof. intros [_ K _] H. unfold stored in *. apply keeps_length in K. lia. Qed.

Lemma set_member b set p : set_ok o (sample_storage_ b) set -> p ∈ set -> stored b p.
Proof. intros [_ Hv] Hp. rewrite Forall_forall in Hv. by apply Hv. Qed.

(** The tree of a builder may be replaced by one that has grown. *)
Lemma set_tree_ok t b : report_ok b -> tree_complete t -> grows (b_tree b) t -> step b (set_tree t b).
Proof.
  intros [[S1 S2 S3 S4 S5] H2 H3 H4] Ht Hg. split; [split|apply keeps_keys_refl|done]; cbn [set_tree b_tree sample_storage_ next_sample_cache_]; [by split|done| |done].
  eapply Forall_impl; [exact H3|]. intros e. apply entry_ok_mono; [apply keeps_keys_refl|done].
Qed.

(** Storage that has grown by, or changed into, samples that are in order. *)
Lemma entries_step st st' n : keeps_keys st st' -> Forall (entry_ok st n) st ->
  (forall p e, st' !! p = Some e -> entry_ok st' n e \/ st !! p = Some e) -> Forall (entry_ok st' n) st'.
Proof.
  intros Hk H Hnew. apply Forall_lookup_2. intros p e He. destruct (Hnew p e He) as [|Ho]; [done|].
  eapply entry_ok_mono; [exact Hk|done|]. by apply (Forall_lookup_1 _ _ _ _ H Ho).
Qed.

Lemma entries_alter g p st n : (forall e, sample_key (g e) = sample_key e) ->
  (forall e, st !! p = Some e -> entry_ok st n e -> entry_ok st n (g e)) ->
  Forall (entry_ok st n) st -> Forall (entry_ok (alter g p st) n) (alter g p st).
Proof.
  intros Hk Hg H. apply (entries_step st); [by apply keeps_keys_alter|done|]. intros q e Hq. destruct (decide (p = q)) as [<-|Hne].
  - left. rewrite list_lookup_alter_eq in Hq. destruct (st !! p) as [e0|] eqn:He; [|done]. injection Hq as <-.
    eapply entry_ok_mono; [by apply keeps_keys_alter|done|]. apply Hg; [done|]. by apply (Forall_lookup_1 _ _ _ _ H He).
  - right. by rewrite list_lookup_alter_ne in Hq by done.
Qed.

Lemma entries_snoc s st n : (th_maps (e_thread s) < n)%nat -> callchain s = CallChainRoot_new ->
  Forall (entry_ok st n) st -> Forall (entry_ok (st ++ [s]) n) (st ++ [s]).
Proof.
  intros Hm Hc H. apply (entries_step st); [apply keeps_keys_app|done|]. intros q e Hq. apply lookup_snoc_Some in Hq as [[_ Hq]|[_ <-]]; [by right|left].
  split; [done|rewrite Hc; by apply Forall_nil_2|]. rewrite Hc. split; [split; [by apply Forall_nil_2|intros i j a b x y Hi; done]|done].
Qed.

(** * Inserting samples *)

Definition fresh_entry (b : Builder) (s : SampleEntry) : Prop :=
  (th_maps (e_thread s) < length (map_set_storage_ (b_tree b)))%nat /\ callchain s = CallChainRoot_new.

Lemma insert_step s b b' r : report_ok b -> InsertSample demangle o s b = (b', r) -> fresh_entry b s ->
  step b b' /\ b_tree b' = b_tree b /\ forall p, r = Some p -> stored b' p.
Proof.
  intros [H1 H2 H3 H4] E [Hm Hc]. destruct (insert_sample_ok o Hcmp demangle s b b' r H1 E) as (S1 & (_ & S2 & S3) & S4 & _ & _ & S5).
  split_and!; [|done|intros p ->; destruct S5 as (_ & Hp & _); apply set_member with (sample_set_ b'); [apply S1|done]].
  split; [|done|done]. split; [done|by rewrite S2| |by rewrite S3]. rewrite S2. unfold InsertSample in E.
  destruct (negb (FilterSample demangle o s)); [by injection E as <- <-|].
  destruct (set_find o s (sample_storage_ (UpdateSummary s b)) (sample_set_ (UpdateSummary s b))) as [p|]; injection E as <- <-.
  - cbn. apply entries_alter; [done| |done]. intros e He []. by split.
  - cbn. by apply entries_snoc.
Qed.

Lemma store_callchain_step s b : report_ok b -> fresh_entry b s ->
  set_find o s (sample_storage_ b) (callchain_sample_set_ b) = None ->
  let '(b', q) := store_callchain_sample o s b in step b b' /\ b_tree b' = b_tree b /\ stored b' q.
Proof.
  intros [[S1 S2 S3 S4 S5] H2 H3 H4] [Hm Hc] Hf. cbn [store_callchain_sample].
  split_and!; [|done|unfold stored; cbn; rewrite length_app; cbn; lia]. split; [|apply keeps_keys_app|done].
  assert (forall f, set_sum f (sample_storage_ b ++ [s]) (sample_set_ b) = set_sum f (sample_storage_ b) (sample_set_ b)) as Hs.
  { intros f. apply set_sum_ext. intros p Hp. unfold at_sample. rewrite lookup_app_l; [done|]. by apply (set_member b (sample_set_ b)). }
  split; cbn [b_tree next_sample_cache_ sample_storage_]; [|done|by apply entries_snoc|done].
  split; cbn [sample_storage_ sample_set_ callchain_sample_set_ total_period_ total_samples_]; rewrite ?Hs; [| | |done|done].
  - apply (set_ok_keys o Hcmp (sample_storage_ b)); [apply keeps_keys_app|done].
  - by apply set_insert_ok.
  - intros p e Hp He. apply (S3 p e Hp). rewrite lookup_app_l in He; [done|]. by apply (set_member b (sample_set_ b)).
Qed.

Lemma insert_callchain_step s chain b b' r : report_ok b ->
  InsertCallChainSample demangle o s chain b = (b', r) -> fresh_entry b s ->
  step b b' /\ b_tree b' = b_tree b /\ forall p, r = Some p -> stored b' p.
Proof.
  intros Hb E Hs. unfold InsertCallChainSample in E. pose proof (rp_sets _ Hb) as [S1 S2 _ _ _].
  destruct (negb (FilterSample demangle o s)).
  - pose proof (set_find_spec o Hcmp s _ _ S2) as Hf. destruct (set_find o s _ (callchain_sample_set_ b)) as [p|] eqn:Ef.
    + injection E as <- <-. split_and!; [by apply step_refl|done|]. intros q [= <-]. destruct Hf as [Hp _]. by apply (set_member b (callchain_sample_set_ b)).
    + pose proof (store_callchain_step s b Hb Hs Ef) as Hst. destruct (store_callchain_sample o s b) as [b1 q]. injection E as <- <-.
      destruct Hst as (? & ? & ?). split_and!; [done|done|]. by intros ? [= <-].
  - pose proof (set_find_spec o Hcmp s _ _ S1) as Hf. destruct (set_find o s _ (sample_set_ b)) as [p|]; [|by eapply insert_step].
    destruct (bool_decide (p ∈ chain)); [|by eapply insert_step]. injection E as <- <-. split_and!; [by apply step_refl|done|].
    intros q [= <-]. destruct Hf as [Hp _]. by apply (set_member b (sample_set_ b)).
Qed.

(** Changing only the call graph of a sample. *)
Lemma alter_graph_step f p b : report_ok b ->
  (forall e, sample_storage_ b !! p = Some e -> entry_ok (sample_storage_ b) (length (map_set_storage_ (b_tree b))) (set_callgraph (f e) e)) ->
  step b (set_storage (alter (fun e => set_callgraph (f e) e) p (sample_storage_ b)) b).
Proof.
  intros [[S1 S2 S3 S4 S5] H2 H3 H4] Hg. set (g := fun e => set_callgraph (f e) e).
  assert (keeps_keys (sample_storage_ b) (alter g p (sample_storage_ b))) as Hk by (by apply keeps_keys_alter).
  assert (forall h, (forall e, h (g e) = h e) -> set_sum h (alter g p (sample_storage_ b)) (sample_set_ b) = set_sum h (sample_storage_ b) (sample_set_ b)) as Hs.
  { intros h Hh. apply set_sum_ext. intros q _. unfold at_sample. destruct (decide (p = q)) as [<-|Hne].
    - rewrite list_lookup_alter_eq. destruct (sample_storage_ b !! p); [apply Hh|done].
    - by rewrite list_lookup_alter_ne by done. }
  split; [|done|done]. split; cbn [set_storage b_tree sample_storage_ next_sample_cache_]; [|done|apply entries_alter; [done|intros e He _; by apply Hg|done]|done].
  split; cbn [set_storage sample_storage_ sample_set_ callchain_sample_set_ total_period_ total_samples_]; rewrite ?Hs by done; [| | |done|done].
  - by eapply set_ok_keys.
  - by eapply set_ok_keys.
  - intros q x Hq Hx. destruct (decide (p = q)) as [<-|Hne].
    + rewrite list_lookup_alter_eq in Hx. destruct (sample_storage_ b !! p) as [e|] eqn:He; [|done]. injection Hx as <-.
      rewrite (passes_key o demangle _ e) by done. by apply (S3 p).
    + rewrite list_lookup_alter_ne in Hx by done. by apply (S3 q).
Qed.

(** * Making samples *)

Lemma dso_path_ok map t : dso_valid (length (dsos_ t)) map -> exists path, dso_path map t = Ok path.
Proof. intros (i & Hi & [d Hd]%lookup_lt_is_Some_2). unfold dso_path, dso_of. rewrite Hi. cbn [mbind res_bind]. rewrite Hd. by eexists. Qed.

Lemma dso_step_facts t t' map : dso_step t t' -> dso_valid (length (dsos_ t)) map ->
  dso_valid (length (dsos_ t')) map /\ map_set_storage_ t' = map_set_storage_ t.
Proof. intros ((A1 & A2 & A3) & A4 & _) Hv. rewrite A4. done. Qed.

Lemma symbol_path map ip t : tree_complete t -> dso_valid (length (dsos_ t)) map ->
  exists t' s v d path, FindSymbol_tree map ip t = Ok (t', s, v, d) /\ dso_path map t' = Ok path /\
    tree_complete t' /\ map_set_storage_ t' = map_set_storage_ t.
Proof.
  intros Ht Hv. destruct (symbol_complete map ip t Ht Hv) as (t' & s & v & d & E & Ht' & Hs).
  destruct (dso_step_facts _ _ _ Hs Hv) as [Hv' Hm]. destruct (dso_path_ok map t' Hv') as [path Ep]. by exists t', s, v, d, path.
Qed.

Lemma thread_found pid tid t : tree_complete t ->
  exists t' th, FindThreadOrNew pid tid t = Ok t' /\ get_thread tid t' = Ok th /\ tree_complete t' /\ grows t t' /\
    (th_maps th < length (map_set_storage_ t'))%nat.
Proof.
  intros Ht. destruct (find_thread_complete pid tid t Ht) as (t' & th & E & Ht' & Hg & _ & Hth & Hm). exists t', th.
  split_and!; try done. unfold get_thread. by rewrite Hth.
Qed.

(** In a trace of what runs off-cpu the next sample of the thread is known. *)
Definition period_known (r : SampleRecord) (b : Builder) : Prop := trace_offcpu o = true -> is_Some (next_sample_cache_ b !! tid_of r).

Lemma period_ok r b : record_ok r -> period_known r b -> exists p, GetPeriod o r b = Ok p /\ is_u64 p.
Proof.
  intros [Hp _ _] Hk. unfold GetPeriod. destruct (trace_offcpu o) eqn:Eo; [|by eexists]. destruct (Hk Eo) as [next ->]. eexists. split; [done|].
  destruct (_ <? _); [apply is_u64_u64|]. unfold is_u64. lia.
Qed.

Lemma create_sample_step r k b : report_ok b -> record_ok r -> period_known r b ->
  exists b' p period, CreateSample demangle o r k b = Ok (b', p, period) /\ step b b' /\ is_u64 period /\ forall q, p = Some q -> stored b' q.
Proof.
  intros Hb Hr Hk. unfold CreateSample.
  destruct (thread_found (to_int (pid (s_tid r))) (tid_of r) (b_tree b) (rp_tree _ Hb)) as (t1 & th & E1 & E2 & H1 & Hg & Hm). rewrite E1.
  cbn [mbind res_bind]. rewrite E2. cbn [mbind res_bind]. destruct (find_map_valid t1 th (s_ip r) k H1 Hm) as [(map & -> & Hv) _]. cbn [mbind res_bind].
  destruct (symbol_path map (s_ip r) t1 H1 Hv) as (t2 & sym & v & d & path & -> & E3 & H2 & Hs). cbn [mbind res_bind]. rewrite E3. cbn [mbind res_bind].
  destruct (period_ok r (set_tree t2 b) Hr Hk) as (period & -> & Hp). cbn [mbind res_bind].
  destruct (InsertSample demangle o _ (set_tree t2 b)) as [b' p] eqn:E. exists b', p, period.
  assert (step b (set_tree t2 b)) as Hst by (apply set_tree_ok; [done|done|]; unfold grows in *; by rewrite Hs).
  destruct (insert_step _ _ _ _ (st_ok _ _ Hst) E) as (Hi & _ & Hq); [split; [cbn; by rewrite Hs|done]|].
  split_and!; [done|by eapply step_trans|done|done].
Qed.

Lemma create_branch_step r item b : report_ok b ->
  exists b' p, CreateBranchSample demangle o r item b = Ok (b', p) /\ step b b'.
Proof.
  intros Hb. unfold CreateBranchSample.
  destruct (thread_found (to_int (pid (s_tid r))) (tid_of r) (b_tree b) (rp_tree _ Hb)) as (t1 & th & E1 & E2 & H1 & Hg & Hm). rewrite E1.
  cbn [mbind res_bind]. rewrite E2. cbn [mbind res_bind]. destruct (find_map_valid t1 th (from item) true H1 Hm) as [_ (map & -> & Hv)]. cbn [mbind res_bind].
  destruct (symbol_path map (from item) t1 H1 Hv) as (t2 & sym & v & d & path & -> & _ & H2 & Hs). cbn [mbind res_bind].
  assert (th_maps th < length (map_set_storage_ t2))%nat as Hm2 by (by rewrite Hs).
  destruct (find_map_valid t2 th (to item) true H2 Hm2) as [_ (map2 & -> & Hv2)]. cbn [mbind res_bind].
  destruct (symbol_path map2 (to item) t2 H2 Hv2) as (t3 & sym2 & v2 & d2 & path2 & -> & E4 & H3 & Hs2). cbn [mbind res_bind]. rewrite E4. cbn [mbind res_bind].
  destruct (InsertSample demangle o _ (set_tree t3 b)) as [b' p] eqn:E. exists b', p. split; [done|].
  assert (step b (set_tree t3 b)) as Hst by (apply set_tree_ok; [done|done|]; unfold grows in *; by rewrite Hs2, Hs).
  destruct (insert_step _ _ _ _ (st_ok _ _ Hst) E) as (Hi & _ & _); [split; [cbn; by rewrite Hs2|done]|]. by eapply step_trans.
Qed.

Lemma create_callchain_step p ip k chain acc b : report_ok b -> stored b p ->
  exists b' r, CreateCallChainSample demangle o p ip k chain acc b = Ok (b', r) /\ step b b' /\ forall q, r = Some q -> stored b' q.
Proof.
  intros Hb Hp. unfold CreateCallChainSample, sample_at. apply lookup_lt_is_Some_2 in Hp as [e He]. rewrite He. cbn [mbind res_bind].
  pose proof (en_maps _ _ _ (Forall_lookup_1 _ _ _ _ (rp_entries _ Hb) He)) as Hm. pose proof (rp_tree _ Hb) as Ht.
  destruct (find_map_valid _ _ ip k Ht Hm) as [(map & -> & Hv) _]. cbn [mbind res_bind]. pose proof Hv as (i & Hi & _). unfold dso_of at 1.
  rewrite Hi. cbn [mbind res_bind]. destruct (Nat.eqb i unknown_dso_).
  { eexists _, _. split_and!; [done| |done]. destruct Hb as [[] ? ? ?]. split; [|apply keeps_keys_refl|done]. by split. }
  destruct (symbol_path map ip _ Ht Hv) as (t2 & sym & v & d & path & -> & E3 & H2 & Hs). cbn [mbind res_bind]. rewrite E3. cbn [mbind res_bind].
  destruct (InsertCallChainSample demangle o _ chain (set_tree t2 b)) as [b' r] eqn:E. exists b', r.
  assert (step b (set_tree t2 b)) as Hst by (apply set_tree_ok; [done|done|]; unfold grows; by rewrite Hs).
  destruct (insert_callchain_step _ _ _ _ _ (st_ok _ _ Hst) E) as (Hi' & _ & Hq); [split; [cbn; by rewrite Hs|done]|].
  split_and!; [done|by eapply step_trans|done].
Qed.

(** * Call graphs *)

Lemma insert_chain_step p chain acc b : report_ok b -> stored b p -> Forall (stored b) chain -> chain <> [] -> is_u64 acc ->
  exists b', InsertCallChainForSample o p chain acc b = Ok b' /\ step b b'.
Proof.
  intros Hb Hp Hc Hne Ha. unfold InsertCallChainForSample, sample_at. apply lookup_lt_is_Some_2 in Hp as [e He]. rewrite He. cbn [mbind res_bind].
  pose proof (Forall_lookup_1 _ _ _ _ (rp_entries _ Hb) He) as [E1 E2 E3].
  destruct (add_call_chain_ok (same_at o (sample_storage_ b)) chain acc (callchain e) E3 Hne Ha) as (g & Eg & Hg & _). rewrite Eg.
  eexists. split; [done|]. apply (alter_graph_step (fun _ => g)); [done|]. intros e' He'. rewrite He in He'. injection He' as <-.
  split; [done| |done]. by apply (AddCallChain_all _ _ _ _ _ _ Hc E2 Eg).
Qed.

Lemma parent_step p parent_ b : report_ok b -> step b (UpdateCallChainParentInfo p parent_ b).
Proof.
  intros Hb. assert (forall m, step b (set_parents m b)) as H.
  { intros m. destruct Hb as [[] ? ? ?]. split; [|apply keeps_keys_refl|done]. by split. }
  unfold UpdateCallChainParentInfo. destruct parent_ as [q|]; [|by apply step_refl]. destruct (callchain_parent_map_ b !! p) as [info|]; [|apply H].
  destruct (negb _); [apply H|by apply step_refl].
Qed.

Lemma stored_all b b' chain : step b b' -> Forall (stored b) chain -> Forall (stored b') chain.
Proof. intros Hs H. eapply Forall_impl; [exact H|]. intros p. by apply step_stored. Qed.

Lemma build_graphs_step chain acc : is_u64 acc -> forall added parent_ b, report_ok b -> Forall (stored b) chain ->
  exists b', build_graphs o chain added parent_ acc b = Ok b' /\ step b b'.
Proof.
  intros Ha. induction chain as [|p chain IH]; intros added parent_ b Hb Hc; [exists b; split; [done|by apply step_refl]|].
  destruct chain as [|q chain]; [exists b; split; [done|by apply step_refl]|]. cbn [build_graphs]. apply Forall_cons_1 in Hc as [Hp Hc].
  destruct (bool_decide (p ∈ added)); [by apply IH|].
  destruct (insert_chain_step p (q :: chain) acc b Hb Hp Hc ltac:(done) Ha) as (b1 & -> & S1). cbn [mbind res_bind].
  pose proof (parent_step p parent_ b1 (st_ok _ _ S1)) as S2.
  destruct (IH ({[p]} ∪ added) (Some p) _ (st_ok _ _ S2)) as (b2 & E & S3); [by eapply stored_all, stored_all|].
  exists b2. split; [exact E|]. eapply step_trans; [done|]. by eapply step_trans.
Qed.

Lemma callchain_loop_step p r acc ips : forall k first chain b, report_ok b -> Forall (stored b) chain -> stored b p ->
  exists b' chain', callchain_loop demangle o p r acc ips k first chain b = Ok (b', chain') /\ step b b' /\ Forall (stored b') chain'.
Proof.
  induction ips as [|ip ips IH]; intros k first chain b Hb Hc Hp; cbn [callchain_loop].
  { exists b, chain. split_and!; [done|by apply step_refl|done]. }
  destruct (PERF_CONTEXT_MAX <=? ip); [by apply IH|]. destruct (_ && _); [by apply IH|].
  destruct (create_callchain_step p ip k chain acc b Hb Hp) as (b1 & s & -> & S1 & Hq). cbn [mbind res_bind].
  destruct s as [q|]; [|exists b1, chain; split_and!; [done|done|by eapply stored_all]].
  destruct (IH k false (chain ++ [q]) b1) as (b2 & chain' & E & S2 & H2); [apply S1| |by eapply step_stored|].
  - apply Forall_app. split; [by eapply stored_all|]. apply Forall_singleton. by apply Hq.
  - exists b2, chain'. split_and!; [done|by eapply step_trans|done].
Qed.

Lemma branch_loop_step r n : record_ok r -> has_bit r SAMPLE_BRANCH_STACK = true -> forall i b, report_ok b -> 0 <= i ->
  i + Z.of_nat n <= s_branch_nr r -> exists b', branch_loop demangle o n i r b = Ok b' /\ step b b'.
Proof.
  intros Hr Hbit. induction n as [|n IH]; intros i b Hb Hi Hn; cbn [branch_loop]; [exists b; split; [done|by apply step_refl]|].
  destruct (ro_branches _ Hr Hbit i ltac:(lia)) as [item ->]. cbn [mbind res_bind].
  destruct (create_branch_step r item b Hb) as (b1 & q & E & S1). rewrite E.
  destruct (_ && _); cbn [mbind res_bind]; [|apply IH; [done|lia|lia]].
  destruct (IH (i + 1) b1 (st_ok _ _ S1)) as (b2 & E2 & S2); [lia|lia|]. exists b2. split; [done|by eapply step_trans].
Qed.

(** * Records *)

Lemma sample_ips_ok r th : record_ok r -> exists l, sample_ips unwind r th = Ok l.
Proof.
  intros [_ Hi _]. unfold sample_ips. destruct (has_bit r SAMPLE_CALLCHAIN); [destruct (Hi eq_refl) as [l ->]|]; cbn [mbind res_bind]; by eexists.
Qed.

Lemma process_step r b : report_ok b -> record_ok r -> period_known r b -> exists b', ProcessSampleRecord unwind demangle o r b = Ok b' /\ step b b'.
Proof.
  intros Hb Hr Hk. unfold ProcessSampleRecord. destruct (use_branch_address_ o && has_bit r SAMPLE_BRANCH_STACK) eqn:Ebr.
  { apply andb_true_iff in Ebr as [_ Ebr]. destruct (decide (0 <= s_branch_nr r)) as [Hn|Hn].
    - apply branch_loop_step; [done|done|done|lia|lia].
    - replace (Z.to_nat (s_branch_nr r)) with 0%nat by lia. exists b. split; [done|by apply step_refl]. }
  destruct (create_sample_step r (InKernel (s_rec r)) b Hb Hr Hk) as (b1 & s & acc & -> & S1 & Ha & Hs). cbn [mbind res_bind].
  destruct s as [p|]; [|by exists b1]. destruct (accumulate_callchain_ o); [|by exists b1]. specialize (Hs p eq_refl).
  pose proof Hs as [e He]%lookup_lt_is_Some_2. unfold sample_at. rewrite He. cbn [mbind res_bind].
  destruct (sample_ips_ok r (e_thread e) Hr) as [ips ->]. cbn [mbind res_bind].
  destruct (callchain_loop_step p r acc ips (InKernel (s_rec r)) true [p] b1 (st_ok _ _ S1) ltac:(by apply Forall_singleton) Hs) as (b2 & chain & -> & S2 & Hc).
  cbn [mbind res_bind]. assert (step b b2) as S by (by eapply step_trans). destruct (build_callchain_ o); [|by exists b2].
  destruct (build_graphs_step (if use_caller_as_callchain_root_ o then rev chain else chain) acc Ha ∅ None b2 (st_ok _ _ S2)) as (b3 & E & S3).
  - destruct (use_caller_as_callchain_root_ o); [|done]. by apply Forall_rev.
  - exists b3. split; [done|by eapply step_trans].
Qed.

Lemma cached_report_ok r b : report_ok b -> record_ok r -> report_ok (set_cache (<[tid_of r := r]> (next_sample_cache_ b)) b).
Proof.
  intros [[] ? ? Hc] Hr. split; try done. intros k x H. cbn [set_cache next_sample_cache_] in H. apply lookup_insert_Some in H as [[<- <-]|[_ H]]; [done|by apply Hc].
Qed.

Lemma record_step r b : report_ok b -> record_ok r ->
  exists b', ReportCmdProcessSampleRecord unwind demangle o r b = Ok b' /\ report_ok b' /\ keeps_keys (sample_storage_ b) (sample_storage_ b').
Proof.
  intros Hb Hr. unfold ReportCmdProcessSampleRecord. pose proof (cached_report_ok r b Hb Hr) as Hc. destruct (trace_offcpu o) eqn:Eo.
  - destruct (next_sample_cache_ b !! tid_of r) as [cur|] eqn:Ec; [|eexists; split_and!; [done|done|apply keeps_keys_refl]].
    destruct (rp_cache _ Hb _ _ Ec) as [Et Hcur].
    destruct (process_step cur _ Hc Hcur) as (b' & -> & [S1 S2 _]); [|by exists b'].
    intros _. cbn. rewrite Et, lookup_insert_eq. by eexists.
  - destruct (process_step r b Hb Hr) as (b' & -> & [S1 S2 _]); [intros H; congruence|by exists b'].
Qed.

(** * A sequence of records *)

(** What [ThreadTree::Update] does for a record, or a sample. *)
Inductive event :=
| EvTree (op : tree_op)
| EvSample (r : SampleRecord).

Definition run_event (e : event) (b : Builder) : res Builder :=
  match e with
  | EvTree op => t ← run_op op (b_tree b); Ok (set_tree t b)
  | EvSample r => ReportCmdProcessSampleRecord unwind demangle o r b
  end.

Fixpoint run_events (l : list event) (b : Builder) : res Builder :=
  match l with
  | [] => Ok b
  | e :: l => b ← run_event e b; run_events l b
  end.

Definition event_ok (e : event) : Prop :=
  match e with
  | EvTree op => op_ok op /\ not_clear op
  | EvSample r => record_ok r
  end.

Lemma run_event_ok e b : report_ok b -> event_ok e -> exists b', run_event e b = Ok b' /\ report_ok b'.
Proof.
  intros Hb He. destruct e as [op|r]; cbn [run_event event_ok] in *.
  - destruct He as [Ho Hc]. destruct (run_op_complete op _ (rp_tree _ Hb) Ho Hc) as (t & -> & Ht & Hg). cbn [mbind res_bind].
    eexists. split; [done|]. by apply set_tree_ok.
  - destruct (record_step r b Hb He) as (b' & E & Hb' & _). by exists b'.
Qed.

Lemma run_events_ok l : forall b, report_ok b -> Forall event_ok l -> exists b', run_events l b = Ok b' /\ report_ok b'.
Proof.
  induction l as [|e l IH]; intros b Hb Hl; [by exists b|]. apply Forall_cons_1 in Hl as [He Hl]. cbn [run_events].
  destruct (run_event_ok e b Hb He) as (b1 & -> & H1). cbn [mbind res_bind]. by apply IH.
Qed.

Lemma new_report_ok t : tree_complete t -> report_ok (Builder_new t).
Proof. intros Ht. split; [apply new_sets_ok|done|by apply Forall_nil_2|apply map_Forall_empty]. Qed.

(** C15: a report on sane records does not fail.  From a new thread tree and a
    new builder, any sequence of thread names, forks, kernel maps, user maps and
    samples, in any order, is processed without a failed check or an access out
    of bounds; at the end the tree is well formed, both sample sets are in the
    order of the chosen comparators with one sample per key, the totals are the
    sums over the samples of the set modulo 2^64, and the call graph of each
    sample is a prefix tree of stored samples whose periods add up.  Conditions:
    the kallsyms texts have no empty line; user maps are not empty, end below
    2^64 and have a 64-bit time; kernel maps are the same or empty; samples have
    a 64-bit period and, when they have a call chain or branches, these lie
    inside the record; threads and maps are not cleared in between; each
    comparator of the report is a three-way order on the key of a sample (its
    thread, command, map, library, symbol, address and branch). *)
Theorem Report_total g l :
  kallsyms_readable g -> Forall event_ok l ->
  exists t b, ThreadTree_new g = Ok t /\ run_events l (Builder_new t) = Ok b /\ report_ok b.
Proof.
  intros Hg Hl. destruct (new_tree_complete g Hg) as (t & E & Ht). destruct (run_events_ok l _ (new_report_ok t Ht) Hl) as (b & Eb & Hb).
  by exists t, b.
Qed.

(** * The sorted result *)

(** The sample [p] is called by the samples of one other sample only. *)
Definition one_parent (b : Builder) (p : nat) : bool :=
  match callchain_parent_map_ b !! p with Some info => negb (has_multiple_parents info) | None => false end.

(** The sample [p] of [b] is in [b'] with the same call graph, duplicated or not. *)
Definition marked (b b' : Builder) (p : nat) (d : bool) : Prop :=
  sample_storage_ b' !! p =
    (fun e => set_callgraph (mkRoot (duplicated (callchain e) || d) (root_children_period (callchain e)) (root_children (callchain e))) e) <$>
    sample_storage_ b !! p.

Lemma marked_refl b p : marked b b p false.
Proof. unfold marked. destruct (sample_storage_ b !! p) as [[? ? ? ? ? ? ? ? ? ? ? []]|]; [|done]. cbn. by rewrite orb_false_r. Qed.

Lemma marked_trans b1 b2 b3 p d d' : marked b1 b2 p d -> marked b2 b3 p d' -> marked b1 b3 p (d || d').
Proof. unfold marked. intros H1 H2. rewrite H2, H1. destruct (sample_storage_ b1 !! p) as [e|]; [|done]. cbn. by rewrite orb_assoc. Qed.

(** What marking samples leaves as it is. *)
Definition same_report (b b' : Builder) : Prop :=
  sample_set_ b' = sample_set_ b /\ total_samples_ b' = total_samples_ b /\ total_period_ b' = total_period_ b /\
  callchain_parent_map_ b' = callchain_parent_map_ b.

Lemma set_duplicated_step p b : report_ok b ->
  let b' := set_storage (alter set_duplicated p (sample_storage_ b)) b in
  step b b' /\ forall q, marked b b' q (bool_decide (p = q)).
Proof.
  intros Hb b'. split.
  - apply (alter_graph_step (fun e => mkRoot true (root_children_period (callchain e)) (root_children (callchain e)))); [done|].
    intros e He. pose proof (Forall_lookup_1 _ _ _ _ (rp_entries _ Hb) He) as [? ? ?]. by split.
  - intros q. case_bool_decide as Hpq; [subst q|].
    + unfold marked, b'. cbn. rewrite list_lookup_alter_eq. destruct (sample_storage_ b !! p); [|done]. cbn. by rewrite orb_true_r.
    + pose proof (marked_refl b q) as Hr. unfold marked in *. rewrite <- Hr. by apply list_lookup_alter_ne.
Qed.

Lemma duplicate_info_step b : report_ok b ->
  let b' := AddCallChainDuplicateInfo o b in
  step b b' /\ same_report b b' /\
  forall p, marked b b' p (build_callchain_ o && bool_decide (p ∈ sample_set_ b) && one_parent b p).
Proof.
  intros Hb. unfold AddCallChainDuplicateInfo. destruct (build_callchain_ o); [|split_and!; [by apply step_refl|done|intros p; apply marked_refl]].
  match goal with |- context [foldl ?f b _] => set (F := f) end.
  enough (forall v b, report_ok b -> step b (foldl F b v) /\ same_report b (foldl F b v) /\
    forall p, marked b (foldl F b v) p (bool_decide (p ∈ v) && one_parent b p)) as H by (by apply H).
  clear b Hb. intros v. induction v as [|p v IH]; intros b Hb; [split_and!; [by apply step_refl|done|intros p; apply marked_refl]|].
  cbn [foldl]. assert (step b (F b p) /\ same_report b (F b p) /\ forall q, marked b (F b p) q (bool_decide (p = q) && one_parent b p)) as (S1 & E1 & M1).
  { unfold F, one_parent. destruct (callchain_parent_map_ b !! p) as [info|]; [destruct (negb _)|]; cbn [andb].
    - destruct (set_duplicated_step p b Hb) as [S M]. split_and!; [done|done|]. intros q. rewrite andb_true_r. apply M.
    - split_and!; [by apply step_refl|done|]. intros q. rewrite andb_false_r. apply marked_refl.
    - split_and!; [by apply step_refl|done|]. intros q. rewrite andb_false_r. apply marked_refl. }
  destruct (IH (F b p) (st_ok _ _ S1)) as (S2 & E2 & M2). split_and!; [by eapply step_trans|destruct E1 as (?&?&?&?), E2 as (?&?&?&?); split_and!; congruence|].
  intros q. pose proof (marked_trans _ _ _ _ _ _ (M1 q) (M2 q)) as M. destruct E1 as (_ & _ & _ & Ep).
  replace (bool_decide (q ∈ p :: v) && one_parent b q) with
    (bool_decide (p = q) && one_parent b p || bool_decide (q ∈ v) && one_parent (F b p) q); [done|].
  assert (one_parent (F b p) q = one_parent b q) as -> by (unfold one_parent; by rewrite Ep). destruct (decide (p = q)) as [<-|Hne].
  - rewrite (bool_decide_true (p = p)), (bool_decide_true (p ∈ p :: v)) by (done || left). cbn [andb]. destruct (one_parent b p); [done|]. by rewrite andb_false_r.
  - rewrite (bool_decide_false (p = q)) by done. cbn [andb orb]. f_equal. apply bool_decide_ext. rewrite elem_of_cons. naive_solver.
Qed.

(** The call graph [g] is [c] with its levels sorted, or [c]. *)
Definition graph_sorted (sort_callchain : bool) (c g : CallChainRoot nat) : Prop :=
  duplicated g = duplicated c /\ root_children_period g = root_children_period c /\
  if sort_callchain then levels_sorted (root_children g) /\ root_children g ≡ₚ sort_node <$> root_children c
  else root_children g = root_children c.

Lemma sort_callchains_ok same `{!Equivalence (fun x y => same x y = true)} v : NoDup v -> forall st,
  (forall p, p ∈ v -> exists e, st !! p = Some e /\ root_ok same (callchain e)) ->
  exists st', sort_callchains v st = Ok st' /\ (forall p, p ∉ v -> st' !! p = st !! p) /\
    (forall p e, p ∈ v -> st !! p = Some e ->
       exists g, st' !! p = Some (set_callgraph g e) /\ graph_sorted true (callchain e) g).
Proof.
  induction 1 as [|p v Hp Hn IH]; intros st Hst.
  { exists st. split_and!; [done|done|]. intros p e Hp. by apply not_elem_of_nil in Hp. }
  cbn [sort_callchains]. destruct (Hst p ltac:(left)) as (e & He & Hok). rewrite He.
  destruct (sort_by_period_ok same (callchain e) Hok) as (g & Eg & _ & Hl & Hpm & Hd & Hcp & _). rewrite Eg.
  destruct (IH (<[p := set_callgraph g e]> st)) as (st' & E & Hout & Hin).
  { intros q Hq. rewrite list_lookup_insert_ne by (by intros ->). apply Hst. by right. }
  exists st'. split_and!; [done| |].
  - intros q Hq. rewrite Hout; [|intros H; apply Hq; by right]. apply list_lookup_insert_ne. intros ->. apply Hq. left.
  - intros q x Hq Hx. apply elem_of_cons in Hq as [->|Hq].
    + rewrite Hx in He. injection He as ->. exists g. split; [|done]. rewrite Hout by done.
      rewrite list_lookup_insert_eq; [done|]. by eapply lookup_lt_Some.
    + apply Hin; [done|]. by rewrite list_lookup_insert_ne by (by intros ->).
Qed.

Lemma maybe_sort_ok b (sort_callchain : bool) : report_ok b ->
  exists st : list SampleEntry, (if sort_callchain then sort_callchains (sample_set_ b) (sample_storage_ b) else Ok (sample_storage_ b)) = Ok st /\
    forall p, p ∈ sample_set_ b -> exists e g, sample_storage_ b !! p = Some e /\ st !! p = Some (set_callgraph g e) /\
      graph_sorted sort_callchain (callchain e) g.
Proof.
  intros Hb. pose proof (so_set _ _ _ (rp_sets _ Hb)) as Hset.
  assert (forall p, p ∈ sample_set_ b -> exists e, sample_storage_ b !! p = Some e /\ root_ok (same_at o (sample_storage_ b)) (callchain e)) as Hin.
  { intros p Hp. pose proof (set_member _ _ _ Hset Hp) as [e He]%lookup_lt_is_Some_2. exists e. split; [done|].
    by apply (Forall_lookup_1 _ _ _ _ (rp_entries _ Hb) He). }
  destruct sort_callchain.
  - destruct (sort_callchains_ok _ _ (set_NoDup o Hcmp _ _ Hset) _ Hin) as (st & E & _ & H). exists st. split; [done|].
    intros p Hp. destruct (Hin p Hp) as (e & He & _). destruct (H p e Hp He) as (g & ? & ?). by exists e, g.
  - eexists. split; [done|]. intros p Hp. destruct (Hin p Hp) as (e & He & _). exists e, (callchain e). split_and!; [done| |done]. rewrite He. by destruct e.
Qed.

(** The position [q] does not have to come before [p]. *)
Definition in_order (cmp : SampleComparator SampleEntry) (st : list SampleEntry) (p q : nat) : Prop :=
  exists e f, st !! p = Some e /\ st !! q = Some f /\ less cmp f e = false.

Lemma insert_by_ext {A} (P : A -> Prop) (lt lt' : A -> A -> bool) x l :
  (forall x y, P x -> P y -> lt x y = lt' x y) -> P x -> Forall P l -> insert_by lt x l = insert_by lt' x l.
Proof. intros H Hx. induction 1 as [|y l Hy Hl IH]; [done|]. cbn [insert_by]. by rewrite (H y x Hy Hx), IH. Qed.

Lemma sort_by_ext {A} (P : A -> Prop) (lt lt' : A -> A -> bool) l :
  (forall x y, P x -> P y -> lt x y = lt' x y) -> Forall P l -> sort_by lt l = sort_by lt' l.
Proof.
  intros H. induction 1 as [|x l Hx Hl IH]; [done|]. unfold sort_by in *. cbn [foldr]. rewrite <- IH. apply (insert_by_ext P); [done|done|].
  change (Forall P (sort_by lt l)). by rewrite sort_by_perm.
Qed.

Lemma sort_positions cmp st v : Forall ThreeWay cmp -> Forall (fun p => p < length st)%nat v ->
  let lt p q := match st !! p, st !! q with Some s1, Some s2 => less cmp s1 s2 | _, _ => false end in
  StronglySorted (in_order cmp st) (sort_by lt v).
Proof.
  intros Hc Hv lt. destruct v as [|p0 v0]; [apply SSorted_nil|]. pose proof Hv as [[e0 _]%lookup_lt_is_Some_2 _]%Forall_cons_1.
  revert Hv. generalize (p0 :: v0) as v. clear p0 v0. intros v Hv.
  set (at_ p := default e0 (st !! p)). set (lt' p q := less cmp (at_ p) (at_ q)).
  assert (forall p, (p < length st)%nat -> st !! p = Some (at_ p)) as Hat by (intros p [e He]%lookup_lt_is_Some_2; unfold at_; by rewrite He).
  rewrite (sort_by_ext (fun p => p < length st)%nat lt lt') by (done || (intros p q Hp Hq; unfold lt, lt'; by rewrite !Hat)).
  assert (StrictWeak lt') as Hsw by (destruct (less_strict_weak cmp Hc) as [A1 A2]; split; unfold lt'; eauto).
  pose proof (sort_by_sorted lt' v) as Hs. assert (Forall (fun p => p < length st)%nat (sort_by lt' v)) as Hv' by (by rewrite sort_by_perm).
  induction Hs as [|p l Hs IH Hp]; constructor; apply Forall_cons_1 in Hv' as [Hpv Hv']; [by apply IH|].
  rewrite Forall_forall in *. intros q Hq. exists (at_ p), (at_ q). split_and!; [by apply Hat|by apply Hat, Hv'|]. by apply Hp.
Qed.

(** The report of a builder that holds its invariant can always be made:
    [GetSampleTree] and [Sort] succeed; the result lists exactly the samples of
    the builder, in the order of the sort keys; every sample keeps its key,
    periods and count and the periods of its call graph, which is marked as a
    duplicate if the sample has one caller only; with [sort_callchain] every level of every call graph is
    in the order of decreasing periods; the totals are those of the samples. *)
Theorem Report_sorted b cmp sort_callchain :
  report_ok b -> Forall ThreeWay cmp ->
  exists b' tree v st, GetSampleTree o b = (b', tree) /\
    Sort cmp (samples tree) sort_callchain (sample_storage_ b') = Ok (v, st) /\
    v ≡ₚ sample_set_ b /\
    (cmp <> [] -> StronglySorted (in_order cmp st) v) /\
    total_period tree = u64 (set_sum e_period (sample_storage_ b) (sample_set_ b)) /\
    total_samples tree = u64 (set_sum sample_count (sample_storage_ b) (sample_set_ b)) /\
    (forall p, p ∈ v -> exists e c g, sample_storage_ b !! p = Some e /\ st !! p = Some (set_callgraph g e) /\
       c = mkRoot (duplicated (callchain e) || build_callchain_ o && one_parent b p)
             (root_children_period (callchain e)) (root_children (callchain e)) /\
       graph_sorted sort_callchain c g).
Proof.
  intros Hb Hc. destruct (duplicate_info_step b Hb) as (S1 & (E1 & E2 & E3 & _) & M). set (b' := AddCallChainDuplicateInfo o b) in *.
  destruct (maybe_sort_ok b' sort_callchain (st_ok _ _ S1)) as (st & Est & Hst).
  set (lt := fun p q => match st !! p, st !! q with Some s1, Some s2 => less cmp s1 s2 | _, _ => false end).
  exists b', (mkSampleTree (sample_set_ b') (total_samples_ b') (total_period_ b') (total_error_callchains_ b')).
  exists (if negb (SampleComparator.empty cmp) then sort_by lt (sample_set_ b') else sample_set_ b'), st.
  assert ((if negb (SampleComparator.empty cmp) then sort_by lt (sample_set_ b') else sample_set_ b') ≡ₚ sample_set_ b') as Hperm
    by (destruct (negb _); [apply sort_by_perm|done]).
  split_and!; [done| |by rewrite Hperm, E1| | | |].
  - unfold Sort. cbn [samples]. rewrite Est. done.
  - intros Hne. destruct cmp as [|f cmp]; [done|]. cbn [SampleComparator.empty negb]. apply sort_positions; [done|].
    apply Forall_forall. intros p Hp. destruct (Hst p Hp) as (e & g & _ & Hg & _). by eapply lookup_lt_Some.
  - cbn. rewrite E3. apply Hb.
  - cbn. rewrite E2. apply Hb.
  - intros p Hp. rewrite Hperm in Hp. destruct (Hst p Hp) as (e' & g & He' & Hg & Hs). specialize (M p). unfold marked in M.
    rewrite He' in M. destruct (sample_storage_ b !! p) as [e|]; [|done]. injection M as ->. rewrite bool_decide_true, andb_true_r in Hs by (by rewrite <- E1).
    eexists e, _, g. split_and!; [done|exact Hg|reflexivity|exact Hs].
Qed.
End tree.

(** * An example *)

#[local] Existing Instance no_files.

Definition report_options : Options :=
  mkOptions [ComparePid; CompareSymbol symbol_name; CompareVaddrInFile] false true true false false ∅ ∅ ∅ ∅ ∅.

Lemma report_options_cmp : Forall KeyCompare (sample_comparator_ report_options).
Proof. repeat apply Forall_cons_2; [apply ComparePid_key|apply CompareSymbol_key|apply CompareVaddrInFile_key|by apply Forall_nil_2]. Qed.

Definition chain_record (ip : Z) (ips : list Z) : SampleRecord :=
  mkSample (mkRecord (mkHeader PERF_RECORD_SAMPLE PERF_RECORD_MISC_USER 0) SampleId_default (concat (enc uint64_t <$> ips)) false)
    (2 ^ SAMPLE_CALLCHAIN) ip (mkTid 5 5) 1 0 0 0 (mkCpu 0 0) 10 (zlen ips) 0 0 0 0 0 0 0 0 0 0 0 0.

Definition report_events : list event :=
  [EvTree (OpName 5 5 (str "main"%string)); EvTree (OpThreadMap 5 5 1000 500 0 1 (str "a.so"%string) 0);
   EvSample (chain_record 1010 [1010; 1020; 1030]); EvSample (chain_record 1010 [1010; 1020; 1040]); EvSample (chain_record 1040 [1040])].

Abbreviation no_unwind := (fun _ _ => None).

Lemma report_events_ok : Forall event_ok report_events.
Proof.
  assert (forall ip ips, (exists l, get_ips (chain_record ip ips) = Ok l) -> record_ok (chain_record ip ips)) as Hr.
  { intros ip ips H. split; [unfold is_u64; cbn; lia|done|]. intros E. vm_compute in E. discriminate. }
  unfold report_events. repeat apply Forall_cons_2; [..|by apply Forall_nil_2]; cbn [event_ok].
  - done.
  - split; [|done]. unfold op_ok, range_ok, UINT64_MAX. lia.
  - apply Hr. eexists. vm_compute. reflexivity.
  - apply Hr. eexists. vm_compute. reflexivity.
  - apply Hr. eexists. vm_compute. reflexivity.
Qed.

Lemma example_readable : kallsyms_readable DsoGlobals_init.
Proof. by split. Qed.

Definition report_builder : Builder :=
  match ThreadTree_new DsoGlobals_init with
  | Ok t => match run_events no_unwind symbol_name report_options report_events (Builder_new t) with Ok b => b | _ => Builder_new t end
  | _ => Builder_new two_threads
  end.

(** Four samples: 1010 twice, 1020 and 1030 as callers, 1040 as sample and caller. *)
Example report_example :
  ((fun p => (vaddr_in_file <$> sample_storage_ report_builder !! p, e_period <$> sample_storage_ report_builder !! p,
     accumulated_period <$> sample_storage_ report_builder !! p)) <$> sample_set_ report_builder, total_samples_ report_builder) =
  ([(Some 10, Some 20, Some 0); (Some 20, Some 0, Some 20); (Some 30, Some 0, Some 10); (Some 40, Some 10, Some 10)], 3).
Proof. vm_compute. reflexivity. Qed.

Lemma Report_total_witness :
  exists t b, ThreadTree_new DsoGlobals_init = Ok t /\
    run_events no_unwind symbol_name report_options report_events (Builder_new t) = Ok b /\ report_ok symbol_name report_options b.
Proof.
  apply (Report_total no_unwind symbol_name report_options report_options_cmp DsoGlobals_init report_events).
  - exact example_readable.
  - exact report_events_ok.
Defined.

Lemma report_builder_ok : report_ok symbol_name report_options report_builder.
Proof.
  destruct (new_tree_complete DsoGlobals_init example_readable) as (t & E & Ht).
  destruct (run_events_ok no_unwind symbol_name report_options report_options_cmp report_events (Builder_new t)) as (b & Eb & Hb);
    [by apply new_report_ok|exact report_events_ok|]. unfold report_builder. by rewrite E, Eb.
Qed.

Lemma Report_sorted_witness :
  exists b' tree v st, GetSampleTree report_options report_builder = (b', tree) /\
    Sort [CompareTotalPeriod] (samples tree) true (sample_storage_ b') = Ok (v, st) /\ v ≡ₚ sample_set_ report_builder.
Proof.
  destruct (Report_sorted symbol_name report_options report_options_cmp report_builder [CompareTotalPeriod] true)
    as (b' & tree & v & st & H1 & H2 & H3 & _).
  - exact report_builder_ok.
  - apply Forall_singleton. apply (three_way_reverse (fun x y => Compare (e_period x +u64 accumulated_period x) (e_period y +u64 accumulated_period y))).
    apply (three_way_member Compare (fun e => e_period e +u64 accumulated_period e) _).
  - exists b', tree, v, st. exact (conj H1 (conj H2 H3)).
Defined.
