(* ===== verification/EventAttr.v ===== *)
(** Model of the part of src/simpleperf/event_attr.h and event_attr.cpp that
    reading records relies on: where a record has its event id, and whether
    records have a time or a cpu. *)
From stdpp Require Import base list numbers.
From Stdlib Require Import ZArith Lia.
From S2P Require Import Prelude Utils RecordBase Records SampleRecord.

(** [PERF_SAMPLE_IDENTIFIER | PERF_SAMPLE_IP | PERF_SAMPLE_TID | PERF_SAMPLE_TIME | PERF_SAMPLE_ADDR] *)
Definition flags_before_id_mask : Z :=
  Z.lor (Z.lor (Z.lor (Z.lor (2 ^ SAMPLE_IDENTIFIER) (2 ^ SAMPLE_IP)) (2 ^ SAMPLE_TID)) (2 ^ SAMPLE_TIME)) (2 ^ SAMPLE_ADDR).
(** [PERF_SAMPLE_IDENTIFIER | PERF_SAMPLE_CPU | PERF_SAMPLE_STREAM_ID] *)
Definition flags_after_id_mask : Z :=
  Z.lor (Z.lor (2 ^ SAMPLE_IDENTIFIER) (2 ^ SAMPLE_CPU)) (2 ^ SAMPLE_STREAM_ID).

(** [while (flags != 0) { flags &= flags - 1; pos += 8; }]; a [uint64_t] has 64 bits. *)
Fixpoint add_flags (fuel : nat) (flags pos : Z) : Z :=
  match fuel with
  | O => pos
  | S fuel => if flags =? 0 then pos else add_flags fuel (Z.land flags (flags -u64 1)) (pos +u64 8)
  end.

(** The two positions; [None] is false. *)
Definition GetCommonEventIdPositionsForAttrs (attrs : list perf_event_attr) : res (option (Z * Z)) :=
  let sample_types := attr_sample_type <$> attrs in
  match sample_types with
  | [] => OutOfBounds
  | first :: _ =>
      let flags_before_id := Z.land first flags_before_id_mask in
      let identifier_enabled := forallb (fun type => has type SAMPLE_IDENTIFIER) sample_types in
      let id_enabled := forallb (fun type => has type SAMPLE_ID) sample_types in
      let flags_before_id_are_the_same :=
        forallb (fun type => Z.land type flags_before_id_mask =? flags_before_id) sample_types in
      let event_id_pos :=
        if identifier_enabled then Some (sizeof perf_event_header)
        else if id_enabled && flags_before_id_are_the_same then Some (add_flags 64 flags_before_id (sizeof perf_event_header))
        else None in
      match event_id_pos with
      | None => Ok None
      | Some event_id_pos =>
          if negb (forallb attr_sample_id_all attrs) then Ok None
          else
            let flags_after_id := Z.land first flags_after_id_mask in
            let flags_after_id_are_the_same :=
              forallb (fun type => Z.land type flags_after_id_mask =? flags_after_id) sample_types in
            if identifier_enabled then Ok (Some (event_id_pos, 8))
            else if id_enabled && flags_after_id_are_the_same then Ok (Some (event_id_pos, add_flags 64 flags_after_id 8))
            else Ok None
      end
  end.

Definition IsTimestampSupported (attr : perf_event_attr) : bool := attr_sample_id_all attr && has (attr_sample_type attr) SAMPLE_TIME.
Definition IsCpuSupported (attr : perf_event_attr) : bool := attr_sample_id_all attr && has (attr_sample_type attr) SAMPLE_CPU.

(** * The positions are right *)

(** The bits of [st] that are in [bits], as a number. *)
Definition selected (st : Z) (bits : list Z) : Z := foldr (fun b x => (if has st b then 2 ^ b else 0) + x) 0 bits.

Definition before_bits : list Z := [SAMPLE_IDENTIFIER; SAMPLE_IP; SAMPLE_TID; SAMPLE_TIME; SAMPLE_ADDR].
Definition after_bits : list Z := [SAMPLE_IDENTIFIER; SAMPLE_CPU; SAMPLE_STREAM_ID].

Lemma land_const st c mask :
  Z.land c mask = c -> (forall n, 0 <= n -> Z.testbit mask n = true -> Z.testbit st n = Z.testbit c n) -> Z.land st mask = c.
Proof.
  intros Hc Hn. apply Z.bits_inj'. intros n H0. rewrite <- Hc, !Z.land_spec. destruct (Z.testbit mask n) eqn:E; [|by rewrite !andb_false_r].
  by rewrite !andb_true_r, Hn.
Qed.

Lemma testbit_sum bits n : 0 <= n -> Forall (fun b => 0 <= b) bits ->
  Z.testbit (foldr (fun b x => Z.lor (2 ^ b) x) 0 bits) n = true -> n ∈ bits.
Proof.
  intros Hn. induction 1 as [|b bits Hb _ IH]; cbn [foldr]; [by rewrite Z.testbit_0_l|]. rewrite Z.lor_spec, orb_true_iff.
  intros [H|H]; [|right; auto]. rewrite Z.pow2_bits_eqb in H by done. apply Z.eqb_eq in H as ->. left.
Qed.

Lemma land_before st : Z.land st flags_before_id_mask = selected st before_bits.
Proof.
  unfold selected, before_bits, has. cbn [foldr].
  destruct (Z.testbit st SAMPLE_IDENTIFIER) eqn:E1, (Z.testbit st SAMPLE_IP) eqn:E2, (Z.testbit st SAMPLE_TID) eqn:E3,
    (Z.testbit st SAMPLE_TIME) eqn:E4, (Z.testbit st SAMPLE_ADDR) eqn:E5;
    (apply land_const; [vm_compute; reflexivity|]; intros n Hn H;
     apply (testbit_sum before_bits n Hn) in H; [|repeat apply Forall_cons_2; [done..|by apply Forall_nil_2]];
     repeat (apply elem_of_cons in H as [->|H]; [first [rewrite E1|rewrite E2|rewrite E3|rewrite E4|rewrite E5]; vm_compute; reflexivity|]);
     by apply not_elem_of_nil in H).
Qed.

Lemma land_after st : Z.land st flags_after_id_mask = selected st after_bits.
Proof.
  unfold selected, after_bits, has. cbn [foldr].
  destruct (Z.testbit st SAMPLE_IDENTIFIER) eqn:E1, (Z.testbit st SAMPLE_CPU) eqn:E2, (Z.testbit st SAMPLE_STREAM_ID) eqn:E3;
    (apply land_const; [vm_compute; reflexivity|]; intros n Hn H;
     apply (testbit_sum after_bits n Hn) in H; [|repeat apply Forall_cons_2; [done..|by apply Forall_nil_2]];
     repeat (apply elem_of_cons in H as [->|H]; [first [rewrite E1|rewrite E2|rewrite E3]; vm_compute; reflexivity|]);
     by apply not_elem_of_nil in H).
Qed.

(** How many of [bits] are set. *)
Definition how_many (st : Z) (bits : list Z) : Z := foldr (fun b x => (if has st b then 1 else 0) + x) 0 bits.

Lemma add_flags_before st : add_flags 64 (selected st before_bits) 8 = 8 + 8 * how_many st before_bits.
Proof. unfold selected, how_many, before_bits. cbn [foldr]. by destruct (has st _), (has st _), (has st _), (has st _), (has st _). Qed.

Lemma add_flags_after st : add_flags 64 (selected st after_bits) 8 = 8 + 8 * how_many st after_bits.
Proof. unfold selected, how_many, after_bits. cbn [foldr]. by destruct (has st _), (has st _), (has st _). Qed.

(** The number of set bits is determined by the selected ones. *)
Lemma how_many_before st st' : selected st before_bits = selected st' before_bits -> how_many st before_bits = how_many st' before_bits.
Proof. intros H. pose proof (add_flags_before st). pose proof (add_flags_before st'). rewrite H in *. lia. Qed.
Lemma how_many_after st st' : selected st after_bits = selected st' after_bits -> how_many st after_bits = how_many st' after_bits.
Proof. intros H. pose proof (add_flags_after st). pose proof (add_flags_after st'). rewrite H in *. lia. Qed.

(** The sample id at the end of a record of the kernel. *)
Definition kernel_id_bytes (s : SampleId) : bytes :=
  SampleId_bytes s ++ opt_bytes (sample_id_all s && has (sid_sample_type s) SAMPLE_IDENTIFIER) uint64_t (sid_id s).

Lemma id_in_sample st c h : has st SAMPLE_IDENTIFIER = true -> bytes_at (header_bytes h ++ body_bytes st c) 8 (enc uint64_t (c_id c)).
Proof.
  intros E. unfold body_bytes, prefix_bytes. rewrite E. cbn [opt_bytes]. rewrite <- !app_assoc.
  eexists (header_bytes h), _. split; [done|]. by rewrite zlen_header_bytes.
Qed.

Lemma id_after_prefix st c h : has st SAMPLE_ID = true ->
  bytes_at (header_bytes h ++ body_bytes st c) (8 + 8 * how_many st before_bits) (enc uint64_t (c_id c)).
Proof.
  intros E. unfold body_bytes, prefix_bytes. rewrite E. cbn [opt_bytes].
  set (f1 := opt_bytes (has st SAMPLE_IDENTIFIER) _ _). set (f2 := opt_bytes (has st SAMPLE_IP) _ _). set (f3 := opt_bytes (has st SAMPLE_TID) _ _).
  set (f4 := opt_bytes (has st SAMPLE_TIME) _ _). set (f5 := opt_bytes (has st SAMPLE_ADDR) _ _).
  eexists (header_bytes h ++ f1 ++ f2 ++ f3 ++ f4 ++ f5), _. split; [by rewrite <- !app_assoc|].
  unfold how_many, before_bits, f1, f2, f3, f4, f5, opt_bytes. cbn [foldr]. rewrite !zlen_app, zlen_header_bytes.
  repeat case_match; repeat rewrite enc_len; rewrite ?zlen_nil; cbn [sizeof uint64_t tid_codec struct_codec pair_codec uint32_t]; reflexivity.
Qed.

Lemma id_before_end s pre : sample_id_all s = true -> has (sid_sample_type s) SAMPLE_ID = true ->
  bytes_at (pre ++ kernel_id_bytes s)
    (zlen (pre ++ kernel_id_bytes s) - (8 + 8 * how_many (sid_sample_type s) after_bits)) (enc uint64_t (sid_id s)).
Proof.
  intros Ea E. unfold kernel_id_bytes, SampleId_bytes. rewrite Ea, E. cbn [andb opt_bytes].
  set (st := sid_sample_type s). set (f1 := opt_bytes (has st SAMPLE_TID) _ _). set (f2 := opt_bytes (has st SAMPLE_TIME) _ _).
  set (f3 := opt_bytes (has st SAMPLE_STREAM_ID) _ _). set (f4 := opt_bytes (has st SAMPLE_CPU) _ _). set (f5 := opt_bytes (has st SAMPLE_IDENTIFIER) _ _).
  exists (pre ++ f1 ++ f2), (f3 ++ f4 ++ f5). split; [by rewrite <- !app_assoc|].
  assert (zlen f3 + zlen f4 + zlen f5 = 8 * how_many st after_bits) as Hl.
  { unfold how_many, after_bits, f3, f4, f5, opt_bytes. cbn [foldr].
    repeat case_match; repeat rewrite enc_len; rewrite ?zlen_nil; cbn [sizeof uint64_t cpu_codec struct_codec pair_codec uint32_t]; reflexivity. }
  rewrite !zlen_app, enc_len. cbn [sizeof uint64_t]. lia.
Qed.

Lemma identifier_at_end s pre : sample_id_all s = true -> has (sid_sample_type s) SAMPLE_IDENTIFIER = true ->
  bytes_at (pre ++ kernel_id_bytes s) (zlen (pre ++ kernel_id_bytes s) - 8) (enc uint64_t (sid_id s)).
Proof.
  intros Ea E. unfold kernel_id_bytes. rewrite Ea, E. cbn [andb opt_bytes]. exists (pre ++ SampleId_bytes s), [].
  split; [by rewrite app_nil_r, app_assoc|]. rewrite !zlen_app, enc_len. cbn [sizeof uint64_t]. lia.
Qed.

Lemma ok_pair_inj (a b c d : Z) : Ok (Some (a, b)) = Ok (Some (c, d)) -> a = c /\ b = d.
Proof. by intros [= -> ->]. Qed.

(** When the attrs of a file have common event id positions, they are right
    for the records of every one of the attrs: a sample has its id at the
    first position, and any other record of the kernel has the id of its sample
    id at the second one, counted from its end. *)
Theorem EventId_positions attrs p q attr :
  GetCommonEventIdPositionsForAttrs attrs = Ok (Some (p, q)) -> attr ∈ attrs ->
  (forall h c, bytes_at (header_bytes h ++ body_bytes (attr_sample_type attr) c) p (enc uint64_t (c_id c))) /\
  (forall s pre, attr_of s attr -> bytes_at (pre ++ kernel_id_bytes s) (zlen (pre ++ kernel_id_bytes s) - q) (enc uint64_t (sid_id s))).
Proof.
  intros H Hin. unfold GetCommonEventIdPositionsForAttrs in H. destruct attrs as [|a0 attrs']; [done|]. set (attrs := a0 :: attrs') in *.
  cbn [attrs fmap list_fmap] in H. change (attr_sample_type a0 :: (attr_sample_type <$> attrs')) with (attr_sample_type <$> attrs) in H.
  assert (forall f, forallb f (attr_sample_type <$> attrs) = true -> f (attr_sample_type attr) = true) as Hall.
  { intros f Hf. rewrite forallb_forall in Hf. apply Hf. apply list_elem_of_In. by apply list_elem_of_fmap_2. }
  destruct (forallb attr_sample_id_all attrs) eqn:Eall; cbn [negb] in H; [|destruct (if forallb _ _ then _ else _); done].
  assert (attr_sample_id_all attr = true) as Ha by (rewrite forallb_forall in Eall; apply Eall; by apply list_elem_of_In).
  destruct (forallb (fun type => has type SAMPLE_IDENTIFIER) (attr_sample_type <$> attrs)) eqn:Ei.
  - injection H as <- <-. apply Hall in Ei. split; [intros h c; by apply id_in_sample|]. intros s pre [H1 H2]. apply identifier_at_end; congruence.
  - destruct (forallb (fun type => has type SAMPLE_ID) (attr_sample_type <$> attrs)) eqn:Eid; [|done]. cbn [andb] in H.
    destruct (forallb (fun type => Z.land type flags_before_id_mask =? _) _) eqn:Eb; [|done].
    destruct (forallb (fun type => Z.land type flags_after_id_mask =? _) _) eqn:Ea; [|done]. apply ok_pair_inj in H as [<- <-].
    apply Hall in Eid, Eb, Ea. apply Z.eqb_eq in Eb, Ea. rewrite !land_before in *. rewrite !land_after in *.
    change (sizeof perf_event_header) with 8. rewrite add_flags_before, add_flags_after, <- (how_many_before _ _ Eb), <- (how_many_after _ _ Ea).
    split; [intros h c; by apply id_after_prefix|]. intros s pre [H1 H2]. rewrite <- H2. apply id_before_end; congruence.
Qed.

Lemma EventId_positions_witness :
  let attr t := {| attr_sample_id_all := true; attr_sample_type := t; attr_sample_regs_user := 0 |} in
  GetCommonEventIdPositionsForAttrs [attr 455; attr 199] = Ok (Some (32, 16)) /\
  forall h c, bytes_at (header_bytes h ++ body_bytes 199 c) 32 (enc uint64_t (c_id c)).
Proof.
  intros attr. assert (GetCommonEventIdPositionsForAttrs [attr 455; attr 199] = Ok (Some (32, 16))) as E by (vm_compute; reflexivity).
  split; [exact E|]. apply (EventId_positions [attr 455; attr 199] 32 16 (attr 199) E). right. left.
Defined.
