(* ===== verification/RecordFileWriter.v ===== *)
(** Model of src/simpleperf/record_file_format.h and record_file_writer.cpp: the
    format of perf.data and [RecordFileWriter].

    The object representation of the kernel's [perf_event_attr] is not in the
    repository: an attr is the bytes of one, of which there are [attr_size].
    Files are those of File.v; a write may fail when the disk is full.  [Dso*]
    arguments are the values they point to. *)
From stdpp Require Import base list numbers strings gmap.
From Stdlib Require Import ZArith Lia Sorted.
From S2P Require Import Prelude Utils File RecordBase Records SampleRecord RecordRead Dso.

(** * record_file_format.h *)

Definition FEAT_FIRST_FEATURE : Z := 1.
Definition FEAT_TRACING_DATA : Z := 1.
Definition FEAT_BUILD_ID : Z := 2.
Definition FEAT_HOSTNAME : Z := 3.
Definition FEAT_OSRELEASE : Z := 4.
Definition FEAT_VERSION : Z := 5.
Definition FEAT_ARCH : Z := 6.
Definition FEAT_NRCPUS : Z := 7.
Definition FEAT_CPUDESC : Z := 8.
Definition FEAT_CPUID : Z := 9.
Definition FEAT_TOTAL_MEM : Z := 10.
Definition FEAT_CMDLINE : Z := 11.
Definition FEAT_EVENT_DESC : Z := 12.
Definition FEAT_CPU_TOPOLOGY : Z := 13.
Definition FEAT_NUMA_TOPOLOGY : Z := 14.
Definition FEAT_BRANCH_STACK : Z := 15.
Definition FEAT_PMU_MAPPINGS : Z := 16.
Definition FEAT_GROUP_DESC : Z := 17.
Definition FEAT_FILE : Z := 128.
Definition FEAT_META_INFO : Z := 129.
Definition FEAT_MAX_NUM : Z := 256.

Record SectionDesc := mkDesc { sec_offset : Z; sec_size : Z }.
Definition SectionDesc_codec : codec SectionDesc :=
  struct_codec (pair_codec uint64_t uint64_t) (fun x => mkDesc x.1 x.2) (fun d => (sec_offset d, sec_size d)).

Definition PERF_MAGIC : bytes := str "PERFILE2".

Record FileHeader := mkFileHeader {
  magic : bytes;
  fh_header_size : Z;
  fh_attr_size : Z;
  fh_attrs : SectionDesc;
  fh_data : SectionDesc;
  fh_event_types : SectionDesc;
  fh_features : bytes;
}.
Definition FileHeader_codec : codec FileHeader :=
  struct_codec
    (pair_codec (raw_codec 8) (pair_codec uint64_t (pair_codec uint64_t (pair_codec SectionDesc_codec
      (pair_codec SectionDesc_codec (pair_codec SectionDesc_codec (raw_codec 32)))))))
    (fun '(m, (h, (a, (at_, (d, (e, f)))))) => mkFileHeader m h a at_ d e f)
    (fun h => (magic h, (fh_header_size h, (fh_attr_size h, (fh_attrs h, (fh_data h, (fh_event_types h, fh_features h))))))).

Record FileAttr := mkFileAttr { fa_attr : bytes; fa_ids : SectionDesc }.
Definition FileAttr_codec (attr_size : Z) : codec FileAttr :=
  struct_codec (pair_codec (raw_codec attr_size) SectionDesc_codec) (fun x => mkFileAttr x.1 x.2) (fun f => (fa_attr f, fa_ids f)).

(** * [std::map<int, SectionDesc>]: the pairs in the order of the keys *)

Abbreviation features_map := (list (Z * SectionDesc)).

Fixpoint features_find (k : Z) (m : features_map) : option SectionDesc :=
  match m with
  | [] => None
  | (k', d) :: m => if k' =? k then Some d else features_find k m
  end.

(** [m[k] = d] *)
Fixpoint features_set (k : Z) (d : SectionDesc) (m : features_map) : features_map :=
  match m with
  | [] => [(k, d)]
  | (k', d') :: m' =>
      if k' =? k then (k, d) :: m' else if k <? k' then (k, d) :: m else (k', d') :: features_set k d m'
  end.

(** * [RecordFileWriter] *)

Record RecordFileWriter := mkWriter {
  record_fp_ : option FILE;
  event_attr_ : bytes;
  attr_section_offset_ : Z;
  attr_section_size_ : Z;
  data_section_offset_ : Z;
  data_section_size_ : Z;
  feature_section_offset_ : Z;
  features_ : features_map;
  feature_count_ : Z;
}.

(** The object after [CreateInstance] made the file; [event_attr_] is not initialised. *)
Definition RecordFileWriter_new (undef : bytes) : RecordFileWriter := mkWriter (Some empty_file) undef 0 0 0 0 0 [] 0.

Definition set_fp (x : option FILE) (w : RecordFileWriter) : RecordFileWriter :=
  mkWriter x (event_attr_ w) (attr_section_offset_ w) (attr_section_size_ w) (data_section_offset_ w) (data_section_size_ w)
    (feature_section_offset_ w) (features_ w) (feature_count_ w).
Definition set_sections (attr : bytes) (attr_off attr_sz data_off : Z) (w : RecordFileWriter) : RecordFileWriter :=
  mkWriter (record_fp_ w) attr attr_off attr_sz data_off (data_section_size_ w)
    (feature_section_offset_ w) (features_ w) (feature_count_ w).
Definition add_data_size (n : Z) (w : RecordFileWriter) : RecordFileWriter :=
  mkWriter (record_fp_ w) (event_attr_ w) (attr_section_offset_ w) (attr_section_size_ w) (data_section_offset_ w)
    (data_section_size_ w +u64 n) (feature_section_offset_ w) (features_ w) (feature_count_ w).
Definition set_feature_section (off count : Z) (w : RecordFileWriter) : RecordFileWriter :=
  mkWriter (record_fp_ w) (event_attr_ w) (attr_section_offset_ w) (attr_section_size_ w) (data_section_offset_ w)
    (data_section_size_ w) off (features_ w) count.
Definition set_features (m : features_map) (w : RecordFileWriter) : RecordFileWriter :=
  mkWriter (record_fp_ w) (event_attr_ w) (attr_section_offset_ w) (attr_section_size_ w) (data_section_offset_ w)
    (data_section_size_ w) (feature_section_offset_ w) m (feature_count_ w).

(** The file; a null pointer is only passed to <stdio.h> after [Close]. *)
Definition get_fp (w : RecordFileWriter) : res FILE :=
  match record_fp_ w with Some f => Ok f | None => OutOfBounds end.

(** [EventAttrWithId]: the bytes of the attr and its ids *)
Abbreviation EventAttrWithId := (bytes * list Z)%type.

Section writer.
Context (disk attr_size : Z).

Definition Write (buf : bytes) (w : RecordFileWriter) : res (option RecordFileWriter) :=
  if zlen buf =? 0 then Ok (Some w)
  else
    f ← get_fp w;
    Ok (match fwrite disk buf f with Some f => Some (set_fp (Some f) w) | None => None end).

Definition Read (len : Z) (w : RecordFileWriter) : res (option (bytes * RecordFileWriter)) :=
  if len =? 0 then Ok (Some ([], w))
  else
    f ← get_fp w;
    Ok (match fread len f with Some (b, f) => Some (b, set_fp (Some f) w) | None => None end).

Definition GetFilePos (w : RecordFileWriter) : res Z := f ← get_fp w; Ok (fpos f).

(** [fseek(record_fp_, off, SEEK_SET)] *)
Definition Seek (off : Z) (w : RecordFileWriter) : res (option RecordFileWriter) :=
  f ← get_fp w;
  Ok (match fseek_u64 off f with Some f => Some (set_fp (Some f) w) | None => None end).

(** ** The attr section *)

Fixpoint write_ids (attr_ids : list EventAttrWithId) (w : RecordFileWriter) : res (option RecordFileWriter) :=
  match attr_ids with
  | [] => Ok (Some w)
  | attr_id :: attr_ids => w ←? Write (enc_array uint64_t (snd attr_id)) w; write_ids attr_ids w
  end.

Fixpoint write_attrs (attr_ids : list EventAttrWithId) (id_section_offset : Z) (w : RecordFileWriter) : res (option RecordFileWriter) :=
  match attr_ids with
  | [] => Ok (Some w)
  | attr_id :: attr_ids =>
      let ids_size := u64 (zlen (snd attr_id) * 8) in
      w ←? Write (enc (FileAttr_codec attr_size) (mkFileAttr (fst attr_id) (mkDesc id_section_offset ids_size))) w;
      write_attrs attr_ids (id_section_offset +u64 ids_size) w
  end.

Definition WriteAttrSection (attr_ids : list EventAttrWithId) (w : RecordFileWriter) : res (option RecordFileWriter) :=
  match attr_ids with
  | [] => Ok None
  | first :: _ =>
      w ←? Seek (sizeof FileHeader_codec) w;
      id_section_offset ← GetFilePos w;
      w ←? write_ids attr_ids w;
      attr_section_offset ← GetFilePos w;
      w ←? write_attrs attr_ids id_section_offset w;
      data_section_offset ← GetFilePos w;
      Ok (Some (set_sections (fst first) attr_section_offset (data_section_offset -u64 attr_section_offset) data_section_offset w))
  end.

(** ** The data section *)

Definition WriteData (buf : bytes) (w : RecordFileWriter) : res (option RecordFileWriter) :=
  w ←? Write buf w;
  Ok (Some (add_data_size (zlen buf) w)).

Definition RECORD_SIZE_LIMIT : Z := 65535.

(** The eight bytes of [header_buf]. *)
Definition header_buf (h : RecordHeader) : res bytes :=
  '(m, _) ← RecordHeader_MoveToBinaryFormat h (replicate 8 0) 0; Ok m.

(** [while (left_bytes > 0)], from the offset [p] of the binary. *)
Fixpoint write_split (fuel : nat) (binary : bytes) (p left_bytes : Z) (w : RecordFileWriter) : res (option RecordFileWriter) :=
  if 0 <? left_bytes then
    match fuel with
    | O => OutOfBounds
    | S fuel =>
        let bytes_to_write := Z.min (RECORD_SIZE_LIMIT - header_size) left_bytes in
        hb ← header_buf (mkHeader SIMPLE_PERF_RECORD_SPLIT 0 (bytes_to_write + header_size));
        w ←? WriteData hb w;
        b ← mem_read binary p bytes_to_write;
        w ←? WriteData b w;
        write_split fuel binary (p + bytes_to_write) (left_bytes - bytes_to_write) w
    end
  else Ok (Some w).

Definition WriteRecord (r : Record_) (w : RecordFileWriter) : res (option RecordFileWriter) :=
  if size (header r) <=? RECORD_SIZE_LIMIT then
    b ← mem_read (binary_ r) 0 (size (header r));
    o ← WriteData b w;
    Ok (Some (default w o))
  else
    _ ← CHECK (SIMPLE_PERF_RECORD_TYPE_START <? type (header r));
    w ←? write_split (Z.to_nat (size (header r))) (binary_ r) 0 (size (header r)) w;
    hb ← header_buf (mkHeader SIMPLE_PERF_RECORD_SPLIT_END 0 header_size);
    WriteData hb w.

(** [ReadDataSection]: the records the callback gets.  A record refers to
    [record_buf], whose content behind the record is that of earlier records. *)
Fixpoint read_data_loop (undef : SampleRecord) (attr : perf_event_attr) (fuel : nat) (record_buf : bytes) (read_pos : Z)
    (w : RecordFileWriter) : res (option (RecordFileWriter * list AnyRecord)) :=
  if read_pos <? data_section_size_ w then
    match fuel with
    | O => OutOfBounds
    | S fuel =>
        '(b, w) ←? Read header_size w;
        record_buf ← mem_write record_buf 0 b;
        h ← RecordHeader_read record_buf;
        let record_buf := if zlen record_buf <? size h
                          then record_buf ++ replicate (Z.to_nat (size h - zlen record_buf)) 0 else record_buf in
        '(b, w) ←? Read (u64 (size h - header_size)) w;
        record_buf ← mem_write record_buf header_size b;
        r ← ReadRecordFromBuffer_type undef attr (type h) record_buf;
        '(w, l) ←? read_data_loop undef attr fuel record_buf (read_pos +u64 size h) w;
        Ok (Some (w, r :: l))
    end
  else Ok (Some (w, [])).

Definition Writer_ReadDataSection (attr_view : bytes -> perf_event_attr) (undef : SampleRecord) (w : RecordFileWriter)
    : res (option (RecordFileWriter * list AnyRecord)) :=
  w ←? Seek (data_section_offset_ w) w;
  read_data_loop undef (attr_view (event_attr_ w)) (Z.to_nat (data_section_size_ w)) (replicate 512 0) 0 w.

(** ** Features *)

Definition BeginWriteFeatures (feature_count : Z) (w : RecordFileWriter) : res (option RecordFileWriter) :=
  let w := set_feature_section (data_section_offset_ w +u64 data_section_size_ w) feature_count w in
  let feature_header_size := u64 (feature_count * sizeof SectionDesc_codec) in
  w ←? Seek (feature_section_offset_ w) w;
  Write (replicate (Z.to_nat feature_header_size) 0) w.

Definition WriteFeatureBegin (feature : Z) (w : RecordFileWriter) : res (option RecordFileWriter) :=
  match features_find feature (features_ w) with
  | None =>
      _ ← CHECK (zlen (features_ w) <? feature_count_ w);
      offset ← GetFilePos w;
      Ok (Some (set_features (features_set feature (mkDesc offset 0) (features_ w)) w))
  | Some _ => Ok (Some w)
  end.

Definition WriteFeatureEnd (feature : Z) (w : RecordFileWriter) : res (option RecordFileWriter) :=
  match features_find feature (features_ w) with
  | None => Ok None
  | Some d =>
      offset ← GetFilePos w;
      Ok (Some (set_features (features_set feature (mkDesc (sec_offset d) (offset -u64 sec_offset d)) (features_ w)) w))
  end.

Definition WriteFeature (feature : Z) (data : bytes) (w : RecordFileWriter) : res (option RecordFileWriter) :=
  w ←? WriteFeatureBegin feature w;
  w ←? Write data w;
  WriteFeatureEnd feature w.

Fixpoint write_build_ids (l : list BuildIdRecord) (w : RecordFileWriter) : res (option RecordFileWriter) :=
  match l with
  | [] => Ok (Some w)
  | r :: l =>
      b ← mem_read (binary_ (bid_rec r)) 0 (size (header (bid_rec r)));
      w ←? Write b w;
      write_build_ids l w
  end.

Definition WriteBuildIdFeature (build_id_records : list BuildIdRecord) (w : RecordFileWriter) : res (option RecordFileWriter) :=
  w ←? WriteFeatureBegin FEAT_BUILD_ID w;
  w ←? write_build_ids build_id_records w;
  WriteFeatureEnd FEAT_BUILD_ID w.

Definition WriteStringWithLength (s : bytes) (w : RecordFileWriter) : res (option RecordFileWriter) :=
  let len := u32 (Align (zlen s + 1) 64) in
  w ←? Write (enc uint32_t len) w;
  w ←? Write (s ++ [0]) w;
  let pad_size := Align (zlen s + 1) 64 - zlen s - 1 in
  if 0 <? pad_size then Write (replicate (Z.to_nat pad_size) 0) w else Ok (Some w).

Definition WriteFeatureString (feature : Z) (s : bytes) (w : RecordFileWriter) : res (option RecordFileWriter) :=
  w ←? WriteFeatureBegin feature w;
  w ←? WriteStringWithLength s w;
  WriteFeatureEnd feature w.

Fixpoint write_strings (l : list bytes) (w : RecordFileWriter) : res (option RecordFileWriter) :=
  match l with
  | [] => Ok (Some w)
  | arg :: l => w ←? WriteStringWithLength arg w; write_strings l w
  end.

Definition WriteCmdlineFeature (cmdline : list bytes) (w : RecordFileWriter) : res (option RecordFileWriter) :=
  w ←? WriteFeatureBegin FEAT_CMDLINE w;
  w ←? Write (enc uint32_t (u32 (zlen cmdline))) w;
  w ←? write_strings cmdline w;
  WriteFeatureEnd FEAT_CMDLINE w.

Definition WriteBranchStackFeature (w : RecordFileWriter) : res (option RecordFileWriter) :=
  w ←? WriteFeatureBegin FEAT_BRANCH_STACK w;
  WriteFeatureEnd FEAT_BRANCH_STACK w.

(** [MoveToBinaryFormat(s.c_str(), s.size() + 1, p)] *)
Definition MoveTo_string (s : bytes) (m : bytes) (p : Z) : res (bytes * Z) :=
  m ← mem_write m p (s ++ [0]); Ok (m, p + zlen s + 1).

Fixpoint write_symbols (symbols : list Symbol) (m : bytes) (p : Z) : res (bytes * Z) :=
  match symbols with
  | [] => Ok (m, p)
  | symbol :: symbols =>
      '(m, p) ← MoveToBinaryFormat uint64_t (symbol_addr symbol) m p;
      '(m, p) ← MoveToBinaryFormat uint32_t (u32 (symbol_len symbol)) m p;
      '(m, p) ← MoveTo_string (symbol_name symbol) m p;
      write_symbols symbols m p
  end.

Definition file_feature_size (file_path : bytes) (symbols : list Symbol) (dex_file_offsets : option (list Z)) : Z :=
  let size := u32 (zlen file_path + 1 + 4 * 2 + 8 + zlen symbols * (8 + 4)) in
  let size := foldl (fun size symbol => size +u32 (zlen (symbol_name symbol) + 1)) size symbols in
  match dex_file_offsets with
  | Some offsets => size +u32 (4 + 8 * zlen offsets)
  | None => size
  end.

Definition WriteFileFeature (file_path : bytes) (file_type min_vaddr : Z) (symbols : list Symbol)
    (dex_file_offsets : option (list Z)) (w : RecordFileWriter) : res (option RecordFileWriter) :=
  let size := file_feature_size file_path symbols dex_file_offsets in
  let buf := replicate (Z.to_nat (4 + size)) 0 in
  '(buf, p) ← MoveToBinaryFormat uint32_t size buf 0;
  '(buf, p) ← MoveTo_string file_path buf p;
  '(buf, p) ← MoveToBinaryFormat uint32_t file_type buf p;
  '(buf, p) ← MoveToBinaryFormat uint64_t min_vaddr buf p;
  '(buf, p) ← MoveToBinaryFormat uint32_t (u32 (zlen symbols)) buf p;
  '(buf, p) ← write_symbols symbols buf p;
  '(buf, p) ←
    match dex_file_offsets with
    | Some offsets =>
        '(buf, p) ← MoveToBinaryFormat uint32_t (u32 (zlen offsets)) buf p;
        MoveToBinaryFormatN uint64_t offsets (u32 (zlen offsets)) buf p
    | None => Ok (buf, p)
    end;
  _ ← CHECK (zlen buf =? p);
  WriteFeature FEAT_FILE buf w.

(** [dso->type()] as a number *)
Definition dso_type_id (t : DsoType) : Z :=
  match t with DSO_KERNEL => 0 | DSO_KERNEL_MODULE => 1 | DSO_ELF_FILE => 2 | DSO_DEX_FILE => 3 | DSO_UNKNOWN_FILE => 4 end.

(** The libraries are returned too: [MinVirtualAddress] keeps what it reads. *)
Fixpoint WriteFileFeatures `{files : DsoFiles} (g : DsoGlobals) (l : list Dso) (w : RecordFileWriter)
    : res (option (list Dso * RecordFileWriter)) :=
  match l with
  | [] => Ok (Some ([], w))
  | dso :: l =>
      if (dump_id_ dso =? UINT32_MAX) && negb (bool_decide (type_ dso = DSO_DEX_FILE)) then
        '(l, w) ←? WriteFileFeatures g l w; Ok (Some (dso :: l, w))
      else
        let '(dso, min_vaddr) := MinVirtualAddress g dso in
        let dump_symbols := std_sort (filter (fun s => Symbol_HasDumpId s = true) (symbols_ dso)) in
        w ←? WriteFileFeature (path_ dso) (dso_type_id (type_ dso)) min_vaddr dump_symbols (dex_file_offsets_ dso) w;
        '(l, w) ←? WriteFileFeatures g l w; Ok (Some (dso :: l, w))
  end.

(** The pairs of the map in the order of iteration. *)
Fixpoint write_infos (l : list (bytes * bytes)) (m : bytes) (p : Z) : res (bytes * Z) :=
  match l with
  | [] => Ok (m, p)
  | info :: l =>
      '(m, p) ← MoveTo_string (fst info) m p;
      '(m, p) ← MoveTo_string (snd info) m p;
      write_infos l m p
  end.

Definition WriteMetaInfoFeature (info_map : list (bytes * bytes)) (w : RecordFileWriter) : res (option RecordFileWriter) :=
  let size := foldl (fun size info => size +u32 (zlen (fst info) + 1) +u32 (zlen (snd info) + 1)) 0 info_map in
  '(buf, _) ← write_infos info_map (replicate (Z.to_nat size) 0) 0;
  WriteFeature FEAT_META_INFO buf w.

Fixpoint write_descs (m : features_map) (w : RecordFileWriter) : res (option RecordFileWriter) :=
  match m with
  | [] => Ok (Some w)
  | (_, d) :: m => w ←? Write (enc SectionDesc_codec d) w; write_descs m w
  end.

Definition EndWriteFeatures (w : RecordFileWriter) : res (option RecordFileWriter) :=
  _ ← CHECK (zlen (features_ w) <=? feature_count_ w);
  w ←? Seek (feature_section_offset_ w) w;
  write_descs (features_ w) w.

(** ** The file header *)

(** [header.features[i] |= (1 << j)] for each feature; the keys are not negative. *)
Fixpoint feature_bits (m : features_map) (bits : bytes) : res bytes :=
  match m with
  | [] => Ok bits
  | (k, _) :: m =>
      match bits !! Z.to_nat (k / 8) with
      | Some x => feature_bits m (<[Z.to_nat (k / 8) := u8 (Z.lor x (Z.shiftl 1 (k mod 8)))]> bits)
      | None => OutOfBounds
      end
  end.

Definition WriteFileHeader (w : RecordFileWriter) : res (option RecordFileWriter) :=
  features ← feature_bits (features_ w) (replicate 32 0);
  let h := mkFileHeader PERF_MAGIC (sizeof FileHeader_codec) (sizeof (FileAttr_codec attr_size))
             (mkDesc (attr_section_offset_ w) (attr_section_size_ w))
             (mkDesc (data_section_offset_ w) (data_section_size_ w)) (mkDesc 0 0) features in
  w ←? Seek 0 w;
  Write (enc FileHeader_codec h) w.

(** The returned bool, and the file as it is left; [fclose] does not fail. *)
Definition Close (w : RecordFileWriter) : res (bool * FILE * RecordFileWriter) :=
  f ← (match record_fp_ w with Some f => Ok f | None => CheckFailed end);
  o ← WriteFileHeader w;
  Ok (match o with
      | Some w' => (true, default f (record_fp_ w'), set_fp None w')
      | None => (false, f, set_fp None w)
      end).
End writer.
