(* ===== verification/RecordFileReader.v ===== *)
(** Model of src/simpleperf/record_file_reader.cpp: [RecordFileReader].

    [PLOG(FATAL)] aborts the process, as a failed [CHECK] does, so that a read
    behind the end of the file is [CheckFailed].  [attr_view] gives the fields
    of a [perf_event_attr] from its bytes.  The parameter [junk] is the content
    of new memory, [undef] that of an uninitialised sample. *)
From stdpp Require Import base list numbers strings gmap.
From Stdlib Require Import ZArith Lia.
From S2P Require Import Prelude Utils File RecordBase Records SampleRecord RecordRead RecordCache Dso ThreadTree EventAttr RecordFileWriter.

(** * Names of features *)

Definition feature_name_map : list (Z * bytes) :=
  [(FEAT_TRACING_DATA, str "tracing_data"); (FEAT_BUILD_ID, str "build_id"); (FEAT_HOSTNAME, str "hostname");
   (FEAT_OSRELEASE, str "osrelease"); (FEAT_VERSION, str "version"); (FEAT_ARCH, str "arch"); (FEAT_NRCPUS, str "nrcpus");
   (FEAT_CPUDESC, str "cpudesc"); (FEAT_CPUID, str "cpuid"); (FEAT_TOTAL_MEM, str "total_mem"); (FEAT_CMDLINE, str "cmdline");
   (FEAT_EVENT_DESC, str "event_desc"); (FEAT_CPU_TOPOLOGY, str "cpu_topology"); (FEAT_NUMA_TOPOLOGY, str "numa_topology");
   (FEAT_BRANCH_STACK, str "branch_stack"); (FEAT_PMU_MAPPINGS, str "pmu_mappings"); (FEAT_GROUP_DESC, str "group_desc");
   (FEAT_FILE, str "file"); (FEAT_META_INFO, str "meta_info")].

Definition GetFeatureName (feature_id : Z) : bytes :=
  match list_find (fun p => fst p = feature_id) feature_name_map with Some (_, p) => snd p | None => [] end.
Definition GetFeatureId (feature_name : bytes) : Z :=
  match list_find (fun p => snd p = feature_name) feature_name_map with Some (_, p) => fst p | None => -1 end.

(** * [RecordFileReader] *)

Record RecordFileReader := mkReader {
  rd_fp : FILE;                                   (* record_fp_ *)
  header_ : FileHeader;
  file_attrs_ : list FileAttr;
  event_ids_for_file_attrs_ : list (list Z);
  event_id_to_attr_map_ : gmap Z Z;
  feature_section_descriptors_ : features_map;
  event_id_pos_in_sample_records_ : Z;
  event_id_reverse_pos_in_non_sample_records_ : Z;
  record_cache_ : option (@RecordCache AnyRecord);
  read_record_size_ : Z;
}.
Definition RecordFileReader_new (fp : FILE) (undef : FileHeader) : RecordFileReader := mkReader fp undef [] [] ∅ [] 0 0 None 0.

Definition set_rd_fp (x : FILE) (r : RecordFileReader) : RecordFileReader :=
  mkReader x (header_ r) (file_attrs_ r) (event_ids_for_file_attrs_ r) (event_id_to_attr_map_ r) (feature_section_descriptors_ r)
    (event_id_pos_in_sample_records_ r) (event_id_reverse_pos_in_non_sample_records_ r) (record_cache_ r) (read_record_size_ r).
Definition set_file_header (x : FileHeader) (r : RecordFileReader) : RecordFileReader :=
  mkReader (rd_fp r) x (file_attrs_ r) (event_ids_for_file_attrs_ r) (event_id_to_attr_map_ r) (feature_section_descriptors_ r)
    (event_id_pos_in_sample_records_ r) (event_id_reverse_pos_in_non_sample_records_ r) (record_cache_ r) (read_record_size_ r).
Definition set_attrs (x : list FileAttr) (pos : Z * Z) (r : RecordFileReader) : RecordFileReader :=
  mkReader (rd_fp r) (header_ r) x (event_ids_for_file_attrs_ r) (event_id_to_attr_map_ r) (feature_section_descriptors_ r)
    (fst pos) (snd pos) (record_cache_ r) (read_record_size_ r).
Definition set_ids (ids : list (list Z)) (m : gmap Z Z) (r : RecordFileReader) : RecordFileReader :=
  mkReader (rd_fp r) (header_ r) (file_attrs_ r) ids m (feature_section_descriptors_ r)
    (event_id_pos_in_sample_records_ r) (event_id_reverse_pos_in_non_sample_records_ r) (record_cache_ r) (read_record_size_ r).
Definition set_descriptors (x : features_map) (r : RecordFileReader) : RecordFileReader :=
  mkReader (rd_fp r) (header_ r) (file_attrs_ r) (event_ids_for_file_attrs_ r) (event_id_to_attr_map_ r) x
    (event_id_pos_in_sample_records_ r) (event_id_reverse_pos_in_non_sample_records_ r) (record_cache_ r) (read_record_size_ r).
Definition set_cache (x : @RecordCache AnyRecord) (r : RecordFileReader) : RecordFileReader :=
  mkReader (rd_fp r) (header_ r) (file_attrs_ r) (event_ids_for_file_attrs_ r) (event_id_to_attr_map_ r) (feature_section_descriptors_ r)
    (event_id_pos_in_sample_records_ r) (event_id_reverse_pos_in_non_sample_records_ r) (Some x) (read_record_size_ r).
Definition add_read_size (n : Z) (r : RecordFileReader) : RecordFileReader :=
  mkReader (rd_fp r) (header_ r) (file_attrs_ r) (event_ids_for_file_attrs_ r) (event_id_to_attr_map_ r) (feature_section_descriptors_ r)
    (event_id_pos_in_sample_records_ r) (event_id_reverse_pos_in_non_sample_records_ r) (record_cache_ r) (read_record_size_ r +u64 n).

(** The two vectors have the same length. *)
Definition AttrSection (r : RecordFileReader) : list EventAttrWithId := zip (fa_attr <$> file_attrs_ r) (event_ids_for_file_attrs_ r).

Definition Read_file (len : Z) (r : RecordFileReader) : res (bytes * RecordFileReader) :=
  if len =? 0 then Ok ([], r)
  else match fread len (rd_fp r) with Some (b, f) => Ok (b, set_rd_fp f r) | None => CheckFailed end.

Definition Seek_file (off : Z) (r : RecordFileReader) : res (option RecordFileReader) :=
  Ok (match fseek_u64 off (rd_fp r) with Some f => Some (set_rd_fp f r) | None => None end).

Section reader.
Context (attr_size : Z) (attr_view : bytes -> perf_event_attr).

(** ** Opening a file *)

Definition ReadHeader (r : RecordFileReader) : res (option RecordFileReader) :=
  '(b, r) ← Read_file (sizeof FileHeader_codec) r;
  let r := set_file_header (dec FileHeader_codec b) r in
  if negb (bool_decide (magic (header_ r) = PERF_MAGIC)) then Ok None else Ok (Some r).

Fixpoint read_attrs (n : nat) (r : RecordFileReader) : res (list FileAttr * RecordFileReader) :=
  match n with
  | O => Ok ([], r)
  | S n =>
      '(buf, r) ← Read_file (fh_attr_size (header_ r)) r;
      let perf_event_attr_size := u64 (fh_attr_size (header_ r) - sizeof SectionDesc_codec) in
      b ← mem_read buf 0 (Z.min attr_size perf_event_attr_size);
      attr ← mem_write (replicate (Z.to_nat attr_size) 0) 0 b;
      ids ← mem_read buf perf_event_attr_size (sizeof SectionDesc_codec);
      '(l, r) ← read_attrs n r;
      Ok (mkFileAttr attr (dec SectionDesc_codec ids) :: l, r)
  end.

Definition ReadIdsForAttr (attr : FileAttr) (r : RecordFileReader) : res (option (list Z * RecordFileReader)) :=
  let id_count := sec_size (fa_ids attr) / 8 in
  r ←? Seek_file (sec_offset (fa_ids attr)) r;
  '(b, r) ← Read_file (sec_size (fa_ids attr)) r;
  if id_count * 8 <? sec_size (fa_ids attr) then OutOfBounds
  else Ok (Some (dec_array uint64_t (Z.to_nat id_count) b, r)).

(** [for (auto id : ids) event_id_to_attr_map_[id] = i] *)
Definition add_ids (i : Z) (ids : list Z) (m : gmap Z Z) : gmap Z Z := foldl (fun m id => <[id := i]> m) m ids.

Fixpoint read_ids (i : Z) (attrs : list FileAttr) (r : RecordFileReader) : res (option RecordFileReader) :=
  match attrs with
  | [] => Ok (Some r)
  | attr :: attrs =>
      '(ids, r) ←? ReadIdsForAttr attr r;
      read_ids (i + 1) attrs (set_ids (event_ids_for_file_attrs_ r ++ [ids]) (add_ids i ids (event_id_to_attr_map_ r)) r)
  end.

(** A division by zero is undefined behaviour. *)
Definition ReadAttrSection (r : RecordFileReader) : res (option RecordFileReader) :=
  if fh_attr_size (header_ r) =? 0 then OutOfBounds
  else
    let attr_count := sec_size (fh_attrs (header_ r)) / fh_attr_size (header_ r) in
    if attr_count =? 0 then Ok None
    else
      r ←? Seek_file (sec_offset (fh_attrs (header_ r))) r;
      '(attrs, r) ← read_attrs (Z.to_nat attr_count) r;
      pos ←? (if 1 <? zlen attrs then GetCommonEventIdPositionsForAttrs ((fun a => attr_view (fa_attr a)) <$> attrs)
              else Ok (Some (0, 0)));
      read_ids 0 attrs (set_attrs attrs pos r).

(** The features whose bits are set. *)
Definition header_features (features : bytes) : list Z :=
  filter (fun k => (match features !! Z.to_nat (k / 8) with Some x => Z.testbit x (k mod 8) | None => false end) = true)
    (seqZ 0 256).

Fixpoint read_descriptors (ids : list Z) (r : RecordFileReader) : res RecordFileReader :=
  match ids with
  | [] => Ok r
  | id :: ids =>
      '(b, r) ← Read_file (sizeof SectionDesc_codec) r;
      read_descriptors ids (set_descriptors (feature_section_descriptors_ r ++ [(id, dec SectionDesc_codec b)]) r)
  end.

Definition ReadFeatureSectionDescriptors (r : RecordFileReader) : res (option RecordFileReader) :=
  let features := header_features (fh_features (header_ r)) in
  let feature_section_offset := sec_offset (fh_data (header_ r)) +u64 sec_size (fh_data (header_ r)) in
  r ←? Seek_file feature_section_offset r;
  r ← read_descriptors features r;
  Ok (Some r).

(** The file exists and can be opened. *)
Definition CreateInstance (fp : FILE) (undef : FileHeader) : res (option RecordFileReader) :=
  r ←? ReadHeader (RecordFileReader_new fp undef);
  r ←? ReadAttrSection r;
  ReadFeatureSectionDescriptors r.

(** ** Records *)

Context (junk : nat -> Z) (undef : SampleRecord).

(** [while (header.type == SIMPLE_PERF_RECORD_SPLIT)]: the buffer, and the
    header that ends the loop.  Each turn reads a header. *)
Fixpoint read_split (fuel : nat) (h : RecordHeader) (buf : bytes) (r : RecordFileReader) : res (bytes * RecordHeader * RecordFileReader) :=
  if type h =? SIMPLE_PERF_RECORD_SPLIT then
    match fuel with
    | O => OutOfBounds
    | S fuel =>
        '(b, r) ← Read_file (u64 (size h - header_size)) r;
        let r := add_read_size (size h) r in
        '(hb, r) ← Read_file header_size r;
        h ← RecordHeader_read hb;
        read_split fuel h (buf ++ b) r
    end
  else Ok (buf, h, r).

(** The header and the bytes of the next record; [None] is a null pointer. *)
Definition ReadRecordBytes (r : RecordFileReader) : res (option (RecordHeader * bytes * RecordFileReader)) :=
  '(hb, r) ← Read_file header_size r;
  h ← RecordHeader_read hb;
  if type h =? SIMPLE_PERF_RECORD_SPLIT then
    '(buf, h, r) ← read_split (length (content (rd_fp r))) h [] r;
    if negb (type h =? SIMPLE_PERF_RECORD_SPLIT_END) then Ok None
    else
      let r := add_read_size (size h) r in
      h ← RecordHeader_read buf;
      p ← mem_write (new_char junk (size h)) 0 buf;
      Ok (Some (h, p, r))
  else
    p ← mem_write (new_char junk (size h)) 0 hb;
    '(p, r) ← (if header_size <? size h then
                 '(b, r) ← Read_file (size h - header_size) r;
                 p ← mem_write p header_size b;
                 Ok (p, r)
               else Ok (p, r));
    Ok (Some (h, p, add_read_size (size h) r)).

(** The attr of a record. *)
Definition attr_of_record (h : RecordHeader) (p : bytes) (r : RecordFileReader) : res FileAttr :=
  match file_attrs_ r with
  | [] => OutOfBounds
  | first :: _ =>
      if (1 <? zlen (file_attrs_ r)) && (type h <? PERF_RECORD_USER_DEFINED_TYPE_START) then
        event_id ←
          (if type h =? PERF_RECORD_SAMPLE then
             if event_id_pos_in_sample_records_ r + 8 <? size h
             then '(id, _) ← MoveFromBinaryFormat uint64_t p (event_id_pos_in_sample_records_ r); Ok (Some id) else Ok None
           else
             if event_id_reverse_pos_in_non_sample_records_ r <? size h
             then '(id, _) ← MoveFromBinaryFormat uint64_t p (size h - event_id_reverse_pos_in_non_sample_records_ r); Ok (Some id)
             else Ok None);
        match event_id with
        | Some id =>
            match event_id_to_attr_map_ r !! id with
            | Some i => match znth (file_attrs_ r) i with Some a => Ok a | None => OutOfBounds end
            | None => Ok first
            end
        | None => Ok first
        end
      else Ok first
  end.

(** [ReadRecord(uint64_t* nbytes_read)] with [&read_record_size_] *)
Definition ReadRecord_next (r : RecordFileReader) : res (option (AnyRecord * RecordFileReader)) :=
  '(h, p, r) ←? ReadRecordBytes r;
  attr ← attr_of_record h p r;
  a ← ReadRecordFromOwnedBuffer undef (attr_view (fa_attr attr)) (type h) p;
  Ok (Some (a, r)).

(** [event_ids_for_file_attrs_[r.data[i].attr_id].push_back(...)] *)
Fixpoint process_event_ids (n : nat) (i : Z) (e : EventIdRecord) (r : RecordFileReader) : res RecordFileReader :=
  match n with
  | O => Ok r
  | S n =>
      d ← deref EventIdData_codec (eid_rec e) (eid_data e + sizeof EventIdData_codec * i);
      match event_ids_for_file_attrs_ r !! Z.to_nat (attr_id d) with
      | None => OutOfBounds
      | Some ids =>
          process_event_ids n (i + 1) e
            (set_ids (<[Z.to_nat (attr_id d) := ids ++ [event_id d]]> (event_ids_for_file_attrs_ r))
               (<[event_id d := attr_id d]> (event_id_to_attr_map_ r)) r)
      end
  end.
Definition ProcessEventIdRecord (e : EventIdRecord) (r : RecordFileReader) : res RecordFileReader :=
  process_event_ids (Z.to_nat (eid_count e)) 0 e r.

(** The callchain up to the first zero. *)
Fixpoint count_nonzero (ips : list Z) : Z :=
  match ips with
  | [] => 0
  | ip :: ips => if ip =? 0 then 0 else 1 + count_nonzero ips
  end.
Definition trim_callchain (r : SampleRecord) : res SampleRecord :=
  if has_bit r SAMPLE_CALLCHAIN then
    ips ← get_ips r; Ok (set_callchain (count_nonzero ips) (s_ips r) r)
  else Ok r.

(** What [ReadRecord] does with a record before it hands it on. *)
Definition process_read (a : AnyRecord) (r : RecordFileReader) : res (AnyRecord * RecordFileReader) :=
  match a with
  | AEventId e => r ← ProcessEventIdRecord e r; Ok (a, r)
  | ASample s => s ← trim_callchain s; Ok (ASample s, r)
  | _ => Ok (a, r)
  end.

(** [while (read_record_size_ < header_.data.size && record == nullptr)] *)
Fixpoint read_record_loop (fuel : nat) (sorted : bool) (r : RecordFileReader) : res (option (option AnyRecord * RecordFileReader)) :=
  if read_record_size_ r <? sec_size (fh_data (header_ r)) then
    match fuel with
    | O => OutOfBounds
    | S fuel =>
        '(a, r) ←? ReadRecord_next r;
        '(a, r) ← process_read a r;
        if sorted then
          match record_cache_ r with
          | None => OutOfBounds
          | Some c =>
              '(c, o) ← Pop (Push a c);
              match o with
              | Some a => Ok (Some (Some a, set_cache c r))
              | None => read_record_loop fuel sorted (set_cache c r)
              end
          end
        else Ok (Some (Some a, r))
    end
  else Ok (Some (None, r)).

Definition ReadRecord_file (sorted : bool) (r : RecordFileReader) : res (option (option AnyRecord * RecordFileReader)) :=
  r ←? (if read_record_size_ r =? 0 then
          r ←? Seek_file (sec_offset (fh_data (header_ r))) r;
          let has_timestamp := forallb (fun a => IsTimestampSupported (attr_view (fa_attr a))) (file_attrs_ r) in
          Ok (Some (set_cache (RecordCache_new has_timestamp 1000 1000000) r))
        else Ok (Some r));
  '(record, r) ←? read_record_loop (Z.to_nat (sec_size (fh_data (header_ r)))) sorted r;
  match record with
  | Some a => Ok (Some (Some a, r))
  | None =>
      match record_cache_ r with
      | None => OutOfBounds
      | Some c => let '(c, o) := ForcedPop c in Ok (Some (o, set_cache c r))
      end
  end.

(** [ReadDataSection]; the callback changes a state [A], [None] is false. *)
Fixpoint read_data_section {A} (callback : AnyRecord -> A -> res (option A)) (fuel : nat) (sorted : bool) (r : RecordFileReader) (x : A)
    : res (option (RecordFileReader * A)) :=
  match fuel with
  | O => OutOfBounds
  | S fuel =>
      '(record, r) ←? ReadRecord_file sorted r;
      match record with
      | None => Ok (Some (r, x))
      | Some a => x ←? callback a x; read_data_section callback fuel sorted r x
      end
  end.
Definition ReadDataSection {A} (callback : AnyRecord -> A -> res (option A)) (sorted : bool) (r : RecordFileReader) (x : A)
    : res (option (RecordFileReader * A)) :=
  read_data_section callback (S (Z.to_nat (sec_size (fh_data (header_ r))))) sorted r x.

Definition DataSection (r : RecordFileReader) : res (option (RecordFileReader * list AnyRecord)) :=
  ReadDataSection (fun a l => Ok (Some (l ++ [a]))) true r [].

(** The virtual [Record::Id()] *)
Definition AnyRecord_Id (a : AnyRecord) : Z :=
  match a with ASample s => SampleRecord_Id s | _ => Record_Id (base_of a) end.
Definition GetAttrIndexOfRecord (a : AnyRecord) (r : RecordFileReader) : Z :=
  default 0 (event_id_to_attr_map_ r !! AnyRecord_Id a).
End reader.

(** * Features *)

Definition HasFeature (feature : Z) (r : RecordFileReader) : bool :=
  match features_find feature (feature_section_descriptors_ r) with Some _ => true | None => false end.

Definition ReadFeatureSection (feature : Z) (r : RecordFileReader) : res (option (bytes * RecordFileReader)) :=
  match features_find feature (feature_section_descriptors_ r) with
  | None => Ok None
  | Some section =>
      if sec_size section =? 0 then Ok (Some ([], r))
      else
        r ←? Seek_file (sec_offset section) r;
        '(b, r) ← Read_file (sec_size section) r;
        Ok (Some (b, r))
  end.

(** [std::string(p)] *)
Definition cstr_at (m : bytes) (p : Z) : res bytes := n ← strlen m p; mem_read m p n.

Fixpoint read_args (n : nat) (buf : bytes) (p : Z) : res (list bytes) :=
  match n with
  | O => Ok []
  | S n =>
      '(len, p) ← MoveFromBinaryFormat uint32_t buf p;
      _ ← CHECK (p + len <=? zlen buf);
      s ← cstr_at buf p;
      l ← read_args n buf (p + len);
      Ok (s :: l)
  end.

Definition parse_cmdline (buf : bytes) : res (list bytes) :=
  '(arg_count, p) ← MoveFromBinaryFormat uint32_t buf 0;
  _ ← CHECK (p <=? zlen buf);
  read_args (Z.to_nat arg_count) buf p.

Definition ReadCmdlineFeature (r : RecordFileReader) : res (list bytes * RecordFileReader) :=
  o ← ReadFeatureSection FEAT_CMDLINE r;
  match o with
  | None => Ok ([], r)
  | Some (buf, r) => l ← parse_cmdline buf; Ok (l, r)
  end.

(** [while (p < end)]; a record without bytes cannot be parsed. *)
Fixpoint parse_build_ids (fuel : nat) (buf : bytes) (p : Z) : res (list BuildIdRecord) :=
  if p <? zlen buf then
    match fuel with
    | O => OutOfBounds
    | S fuel =>
        '(pheader, _) ← MoveFromBinaryFormat perf_event_header buf p;
        let size := snd (snd pheader) in
        _ ← CHECK (p + size <=? zlen buf);
        binary ← mem_read buf p size;
        record ← BuildIdRecord_read binary;
        let b := SetTypeAndMisc PERF_RECORD_BUILD_ID (misc (header (bid_rec record))) (OwnBinary (bid_rec record)) in
        l ← parse_build_ids fuel buf (p + size);
        Ok (mkBuildIdRec b (bid_pid record) (bid_build_id record) (bid_filename record) :: l)
    end
  else Ok [].

Definition ReadBuildIdFeature (r : RecordFileReader) : res (list BuildIdRecord * RecordFileReader) :=
  o ← ReadFeatureSection FEAT_BUILD_ID r;
  match o with
  | None => Ok ([], r)
  | Some (buf, r) => l ← parse_build_ids (length buf) buf 0; Ok (l, r)
  end.

Definition parse_feature_string (buf : bytes) : res bytes :=
  '(len, p) ← MoveFromBinaryFormat uint32_t buf 0;
  _ ← CHECK (p + len <=? zlen buf);
  cstr_at buf p.

Definition ReadFeatureString (feature : Z) (r : RecordFileReader) : res (bytes * RecordFileReader) :=
  o ← ReadFeatureSection feature r;
  match o with
  | None => Ok ([], r)
  | Some (buf, r) => s ← parse_feature_string buf; Ok (s, r)
  end.

(** What [ReadFileFeature] returns. *)
Record FileInfo := mkFileInfo {
  file_path : bytes;
  file_type : Z;
  fi_min_vaddr : Z;
  fi_symbols : list Symbol;
  fi_dex_file_offsets : list Z;
}.

Fixpoint parse_symbols (n : nat) (buf : bytes) (p : Z) : res (list Symbol * Z) :=
  match n with
  | O => Ok ([], p)
  | S n =>
      '(start_vaddr, p) ← MoveFromBinaryFormat uint64_t buf p;
      '(len, p) ← MoveFromBinaryFormat uint32_t buf p;
      name ← cstr_at buf p;
      '(l, p) ← parse_symbols n buf (p + zlen name + 1);
      Ok (Symbol_new name start_vaddr len :: l, p)
  end.

Definition parse_file_feature (size : Z) (buf : bytes) : res FileInfo :=
  path ← cstr_at buf 0;
  '(ty, p) ← MoveFromBinaryFormat uint32_t buf (zlen path + 1);
  '(min_vaddr, p) ← MoveFromBinaryFormat uint64_t buf p;
  '(symbol_count, p) ← MoveFromBinaryFormat uint32_t buf p;
  '(symbols, p) ← parse_symbols (Z.to_nat symbol_count) buf p;
  '(offsets, p) ←
    (if ty =? dso_type_id DSO_DEX_FILE then
       '(offset_count, p) ← MoveFromBinaryFormat uint32_t buf p;
       MoveFromBinaryFormatN uint64_t offset_count buf p
     else Ok ([], p));
  _ ← CHECK (size =? p);
  Ok (mkFileInfo path ty min_vaddr symbols offsets).

(** The information and the new [read_pos]; [None] is false. *)
Definition ReadFileFeature (read_pos : Z) (r : RecordFileReader) : res (option (FileInfo * Z * RecordFileReader)) :=
  match features_find FEAT_FILE (feature_section_descriptors_ r) with
  | None => Ok None
  | Some d =>
      if sec_size d <=? read_pos then Ok None
      else
        r ←? (if read_pos =? 0 then Seek_file (sec_offset d) r else Ok (Some r));
        '(b, r) ← Read_file 4 r;
        let size := le_decode b in
        '(buf, r) ← Read_file size r;
        info ← parse_file_feature size buf;
        Ok (Some (info, u64 (read_pos + u32 (4 + size)), r))
  end.

(** [while (p < end)] *)
Fixpoint parse_infos (fuel : nat) (buf : bytes) (p : Z) (m : gmap bytes bytes) : res (gmap bytes bytes) :=
  if p <? zlen buf then
    match fuel with
    | O => OutOfBounds
    | S fuel =>
        key ← cstr_at buf p;
        let value := p + zlen key + 1 in
        _ ← CHECK (value <? zlen buf);
        v ← cstr_at buf value;
        parse_infos fuel buf (value + zlen v + 1) (<[key := v]> m)
    end
  else Ok m.

Definition ReadMetaInfoFeature (info_map : gmap bytes bytes) (r : RecordFileReader)
    : res (option (gmap bytes bytes * RecordFileReader)) :=
  '(buf, r) ←? ReadFeatureSection FEAT_META_INFO r;
  m ← parse_infos (length buf) buf 0 info_map;
  Ok (Some (m, r)).

(** ** [LoadBuildIdAndFileFeatures] *)

Definition SetBuildIds_tree (l : list (bytes * BuildId)) (t : ThreadTree) : ThreadTree :=
  mkTree (thread_tree_ t) (map_set_storage_ t) (kernel_maps_ t) (dsos_ t) (module_dso_tree_ t) (user_dso_tree_ t)
    (show_ip_for_unknown_symbol_ t) (show_mark_for_unknown_symbol_ t) (unknown_symbol_ t) (SetBuildIds l (globals_ t)).

Section load.
Context `{files : DsoFiles}.

Fixpoint build_ids_of (l : list BuildIdRecord) : res (list (bytes * BuildId)) :=
  match l with
  | [] => Ok []
  | r :: l => name ← deref_str (bid_rec r) (bid_filename r); k ← build_ids_of l; Ok ((name, bid_build_id r) :: k)
  end.

Fixpoint load_files (fuel : nat) (read_pos : Z) (r : RecordFileReader) (t : ThreadTree) : res (RecordFileReader * ThreadTree) :=
  match fuel with
  | O => OutOfBounds
  | S fuel =>
      o ← ReadFileFeature read_pos r;
      match o with
      | None => Ok (r, t)
      | Some (info, read_pos, r) =>
          t ← AddDsoInfo (file_path info) (file_type info) (fi_min_vaddr info) (fi_symbols info) (fi_dex_file_offsets info) t;
          load_files fuel read_pos r t
      end
  end.

Definition LoadBuildIdAndFileFeatures (r : RecordFileReader) (t : ThreadTree) : res (RecordFileReader * ThreadTree) :=
  '(records, r) ← ReadBuildIdFeature r;
  build_ids ← build_ids_of records;
  let t := SetBuildIds_tree build_ids t in
  if HasFeature FEAT_FILE r
  then load_files (S (length (content (rd_fp r)))) 0 r t
  else Ok (r, t).
End load.

(** In a file with several attrs a sample is read with the attr to which
    its event id belongs, and with the first attr if the id is unknown - or if
    the id ends exactly where the record ends, as in samples that have nothing
    but an id: the size is compared with [>]. *)
Theorem attr_of_record_sample first attrs h p r id :
  file_attrs_ r = first :: attrs -> attrs <> [] -> type h = PERF_RECORD_SAMPLE -> is_u64 id ->
  bytes_at p (event_id_pos_in_sample_records_ r) (enc uint64_t id) ->
  let pos := event_id_pos_in_sample_records_ r in
  (pos + 8 < size h -> forall i a, event_id_to_attr_map_ r !! id = Some i -> znth (file_attrs_ r) i = Some a -> attr_of_record h p r = Ok a) /\
  (pos + 8 < size h -> event_id_to_attr_map_ r !! id = None -> attr_of_record h p r = Ok first) /\
  (size h = pos + 8 -> attr_of_record h p r = Ok first).
Proof.
  intros Hf Ha Ht Hid Hat pos. unfold attr_of_record. rewrite Hf, Ht. destruct attrs as [|a0 attrs]; [done|].
  rewrite (proj2 (Z.ltb_lt 1 _)) by (rewrite !zlen_cons; pose proof (zlen_nonneg attrs); lia).
  change (PERF_RECORD_SAMPLE <? PERF_RECORD_USER_DEFINED_TYPE_START) with true. cbn [andb]. rewrite Z.eqb_refl. fold pos in Hat |- *.
  rewrite (MoveFrom_at _ _ _ _ _ Hat) by done. cbn [mbind res_bind]. split_and!.
  - intros Hs i a Hi Hz. rewrite (proj2 (Z.ltb_lt _ _)) by lia. cbn [mbind res_bind]. by rewrite Hi, Hz.
  - intros Hs Hi. rewrite (proj2 (Z.ltb_lt _ _)) by lia. cbn [mbind res_bind]. by rewrite Hi.
  - intros Hs. rewrite (proj2 (Z.ltb_ge _ _)) by lia. done.
Qed.

Lemma attr_of_record_sample_witness :
  let a := mkFileAttr [1] (mkDesc 0 0) in let b := mkFileAttr [2] (mkDesc 0 0) in
  let r := mkReader empty_file (mkFileHeader [] 0 0 (mkDesc 0 0) (mkDesc 0 0) (mkDesc 0 0) []) [a; b] [[5]; [6]] {[5 := 0; 6 := 1]} [] 8 8 None 0 in
  attr_of_record (mkHeader PERF_RECORD_SAMPLE 0 24) (replicate 8 0 ++ enc uint64_t 6 ++ replicate 8 0) r = Ok b /\
  attr_of_record (mkHeader PERF_RECORD_SAMPLE 0 16) (replicate 8 0 ++ enc uint64_t 6) r = Ok a.
Proof.
  intros a b r. split.
  - apply (attr_of_record_sample a [b] (mkHeader PERF_RECORD_SAMPLE 0 24) (replicate 8 0 ++ enc uint64_t 6 ++ replicate 8 0) r 6 eq_refl
      ltac:(done) eq_refl ltac:(unfold is_u64; lia) ltac:(by exists (replicate 8 0), (replicate 8 0))) with (i := 1); [reflexivity|reflexivity|reflexivity].
  - apply (attr_of_record_sample a [b] (mkHeader PERF_RECORD_SAMPLE 0 16) (replicate 8 0 ++ enc uint64_t 6) r 6 eq_refl
      ltac:(done) eq_refl ltac:(unfold is_u64; lia) ltac:(by exists (replicate 8 0), [])). reflexivity.
Defined.
