(* ===== verification/RecordFile.v ===== *)
(** perf.data as a whole: what [RecordFileWriter] (RecordFileWriter.v) writes,
    [RecordFileReader] (RecordFileReader.v) reads back.

    The first part gives the bytes that each operation of the writer appends,
    the second the parts of the finished file, the third what the reader makes
    of them. *)
From stdpp Require Import base list numbers strings gmap.
From Stdlib Require Import ZArith Lia Sorted.
From S2P Require Import Prelude Utils File RecordBase Records SampleRecord SampleEdit RecordRead RecordCache Dso ThreadTree EventAttr RecordFileWriter RecordFileReader.

(** * Codecs *)

#[export] Instance SectionDesc_codec_ok : CodecOk SectionDesc_codec (fun d => is_u64 (sec_offset d) /\ is_u64 (sec_size d)).
Proof. by refine (struct_codec_ok (pair_codec uint64_t uint64_t) _ (fun d => (sec_offset d, sec_size d)) _ _ _); intros []. Qed.

#[export] Instance raw8_ok : CodecOk (raw_codec 8) (fun b => zlen b = 8).
Proof. by apply raw_codec_ok. Qed.
#[export] Instance raw32_ok : CodecOk (raw_codec 32) (fun b => zlen b = 32).
Proof. by apply raw_codec_ok. Qed.

Definition desc_ok (d : SectionDesc) : Prop := is_u64 (sec_offset d) /\ is_u64 (sec_size d).

Record file_header_ok (h : FileHeader) : Prop := {
  fho_magic : zlen (magic h) = 8;
  fho_sizes : is_u64 (fh_header_size h) /\ is_u64 (fh_attr_size h);
  fho_attrs : desc_ok (fh_attrs h);
  fho_data : desc_ok (fh_data h);
  fho_event_types : desc_ok (fh_event_types h);
  fho_features : zlen (fh_features h) = 32;
}.

#[export] Instance FileHeader_codec_ok : CodecOk FileHeader_codec file_header_ok.
Proof.
  eapply struct_codec_ok_by.
  - repeat (apply pair_codec_ok; [apply _|]). apply _.
  - by intros [].
  - intros h [Hm [Hh Ha] Hat Hd He Hf]. cbn. done.
Qed.

Lemma FileAttr_codec_ok n : 0 <= n -> CodecOk (FileAttr_codec n) (fun f => zlen (fa_attr f) = n /\ desc_ok (fa_ids f)).
Proof.
  intros Hn. pose proof (raw_codec_ok n Hn). eapply struct_codec_ok_by; [apply pair_codec_ok; apply _|by intros []|].
  intros f [H1 H2]. cbn. done.
Qed.

Lemma zlen_pos {A} (l : list A) : l <> [] -> 0 < zlen l.
Proof. destruct l; [done|]. rewrite zlen_cons. pose proof (zlen_nonneg l). lia. Qed.

(** * What the writer appends *)

(** The writer [w] with the file [c], positioned at its end. *)
Definition put (c : bytes) (w : RecordFileWriter) : RecordFileWriter := set_fp (Some (mkFile c (zlen c))) w.

Section write.
Context (disk attr_size : Z) (Hattr : 0 <= attr_size) (Hdisk : disk < 2 ^ 63).

Lemma Write_put b c w : zlen c + zlen b <= disk -> Write disk b (put c w) = Ok (Some (put (c ++ b) w)).
Proof.
  intros Hl. unfold Write. destruct (Z.eqb_spec (zlen b) 0) as [E|E].
  - destruct b; [by rewrite app_nil_r|]. rewrite zlen_cons in E. pose proof (zlen_nonneg b). lia.
  - cbn [put set_fp record_fp_ get_fp mbind res_bind]. rewrite fwrite_append; [done| |done]. by intros ->.
Qed.

(** ** The attr section *)

(** The writer after [fseek] behind the header, before anything is written. *)
Definition gap (n : Z) (w : RecordFileWriter) : RecordFileWriter := set_fp (Some (mkFile [] n)) w.

(** The file of [w'] is [c], possibly with its zeros still missing. *)
Definition ends (n : Z) (w : RecordFileWriter) (c : bytes) (w' : RecordFileWriter) : Prop :=
  w' = put c w \/ (c = replicate (Z.to_nat n) 0 /\ w' = gap n w).

Lemma Write_ends n b c w w' : 0 <= n -> ends n w c w' -> zlen c + zlen b <= disk ->
  exists w'', Write disk b w' = Ok (Some w'') /\ ends n w (c ++ b) w'' /\ (b <> [] -> w'' = put (c ++ b) w).
Proof.
  intros Hn [->|[-> ->]] Hl; [rewrite Write_put by done; eexists; split_and!; [done|by left|done]|].
  destruct b as [|x b]; [exists (gap n w); rewrite app_nil_r; split_and!; [done|by right|done]|].
  unfold Write. destruct (Z.eqb_spec (zlen (x :: b)) 0) as [E|E]; [rewrite zlen_cons in E; pose proof (zlen_nonneg b); lia|].
  cbn [gap set_fp record_fp_ get_fp mbind res_bind]. unfold fwrite. cbn [content fpos]. rewrite zlen_replicate, Z2Nat.id in Hl by lia.
  pose proof (zlen_nonneg (x :: b)). rewrite (proj2 (Z.ltb_lt _ _)), (proj2 (Z.leb_le _ _)) by lia. cbn [andb].
  assert (pad_to n [] = replicate (Z.to_nat n) 0) as -> by (unfold pad_to; rewrite zlen_nil, Z.sub_0_r; done).
  rewrite ztake_all, zdrop_ge, app_nil_r by (rewrite zlen_replicate; lia).
  eexists. split; [done|].
  assert (n + zlen (x :: b) = zlen (replicate (Z.to_nat n) 0 ++ x :: b)) as -> by (rewrite zlen_app, zlen_replicate; lia).
  split; [by left|done].
Qed.

Lemma GetFilePos_ends n c w w' : 0 <= n -> ends n w c w' -> GetFilePos w' = Ok (zlen c).
Proof. intros Hn [->|[-> ->]]; [done|]. cbn. rewrite zlen_replicate. f_equal. lia. Qed.

Definition ids_bytes (attrs : list EventAttrWithId) : bytes := concat ((fun a => enc_array uint64_t (snd a)) <$> attrs).

Fixpoint file_attrs (off : Z) (attrs : list EventAttrWithId) : list FileAttr :=
  match attrs with
  | [] => []
  | a :: attrs => mkFileAttr (fst a) (mkDesc off (zlen (snd a) * 8)) :: file_attrs (off + zlen (snd a) * 8) attrs
  end.
Definition attrs_bytes (off : Z) (attrs : list EventAttrWithId) : bytes :=
  enc_array (FileAttr_codec attr_size) (file_attrs off attrs).

Lemma zlen_ids_bytes_cons a attrs : zlen (ids_bytes (a :: attrs)) = zlen (snd a) * 8 + zlen (ids_bytes attrs).
Proof. unfold ids_bytes. cbn. by rewrite zlen_app, zlen_enc_array_u64. Qed.

Lemma write_ids_ends n attrs : 0 <= n -> forall c w w', ends n w c w' -> zlen c + zlen (ids_bytes attrs) <= disk ->
  exists w'', write_ids disk attrs w' = Ok (Some w'') /\ ends n w (c ++ ids_bytes attrs) w''.
Proof.
  intros Hn. induction attrs as [|a attrs IH]; intros c w w' He Hl; cbn [write_ids].
  { exists w'. unfold ids_bytes. cbn. by rewrite app_nil_r. }
  rewrite zlen_ids_bytes_cons in Hl. pose proof (zlen_nonneg (ids_bytes attrs)).
  destruct (Write_ends n (enc_array uint64_t (snd a)) c w w' Hn He) as (w1 & -> & E1 & _); [rewrite zlen_enc_array_u64; lia|]. cbn [try_bind].
  destruct (IH _ _ _ E1) as (w2 & -> & E2); [rewrite zlen_app, zlen_enc_array_u64; lia|]. exists w2. split; [done|].
  unfold ids_bytes in *. cbn. by rewrite app_assoc.
Qed.

Lemma zlen_attrs_bytes off attrs : zlen (attrs_bytes off attrs) = zlen attrs * (attr_size + 16).
Proof.
  unfold attrs_bytes. pose proof (FileAttr_codec_ok attr_size Hattr).
  erewrite zlen_enc_array by apply _. cbn [sizeof FileAttr_codec struct_codec pair_codec raw_codec SectionDesc_codec uint64_t].
  assert (forall off, zlen (file_attrs off attrs) = zlen attrs) as ->; [|lia]. clear off.
  induction attrs as [|a attrs IH]; intros off; [done|]. cbn [file_attrs]. by rewrite !zlen_cons, IH.
Qed.

Lemma attrs_bytes_cons off a attrs :
  attrs_bytes off (a :: attrs) =
    enc (FileAttr_codec attr_size) (mkFileAttr (fst a) (mkDesc off (zlen (snd a) * 8))) ++ attrs_bytes (off + zlen (snd a) * 8) attrs.
Proof. done. Qed.

Lemma zlen_file_attr f : zlen (enc (FileAttr_codec attr_size) f) = attr_size + 16.
Proof.
  pose proof (FileAttr_codec_ok attr_size Hattr). rewrite enc_len.
  cbn [sizeof FileAttr_codec struct_codec pair_codec raw_codec SectionDesc_codec uint64_t]. lia.
Qed.

Lemma write_attrs_put attrs : forall off c w, 0 <= off ->
  off + zlen (ids_bytes attrs) < 2 ^ 63 -> zlen c + zlen (attrs_bytes off attrs) <= disk ->
  write_attrs disk attr_size attrs off (put c w) = Ok (Some (put (c ++ attrs_bytes off attrs) w)).
Proof.
  induction attrs as [|a attrs IH]; intros off c w Hoff Hid Hl; cbn [write_attrs]; [unfold attrs_bytes; cbn; by rewrite app_nil_r|].
  rewrite zlen_ids_bytes_cons in Hid. pose proof (zlen_nonneg (ids_bytes attrs)). pose proof (zlen_nonneg (snd a)).
  rewrite (u64_small (zlen _ * 8)), u64_small by (unfold is_u64; lia). rewrite attrs_bytes_cons, zlen_app in *.
  pose proof (zlen_nonneg (attrs_bytes (off + zlen (snd a) * 8) attrs)). rewrite Write_put by lia. cbn [try_bind].
  rewrite IH by (rewrite ?zlen_app; lia). by rewrite app_assoc.
Qed.

Lemma write_attrs_ends n attrs off c w w' : 0 <= n -> ends n w c w' -> attrs <> [] -> 0 <= off ->
  off + zlen (ids_bytes attrs) < 2 ^ 63 -> zlen c + zlen (attrs_bytes off attrs) <= disk ->
  write_attrs disk attr_size attrs off w' = Ok (Some (put (c ++ attrs_bytes off attrs) w)).
Proof.
  intros Hn He Hne Hoff Hid Hl. destruct attrs as [|a attrs]; [done|]. cbn [write_attrs].
  rewrite zlen_ids_bytes_cons in Hid. pose proof (zlen_nonneg (ids_bytes attrs)). pose proof (zlen_nonneg (snd a)).
  rewrite (u64_small (zlen _ * 8)), u64_small by (unfold is_u64; lia). rewrite attrs_bytes_cons in *. set (e := enc _ _) in *.
  assert (zlen e = attr_size + 16) as He16 by apply zlen_file_attr. rewrite zlen_app in Hl.
  pose proof (zlen_nonneg (attrs_bytes (off + zlen (snd a) * 8) attrs)).
  destruct (Write_ends n e c w w' Hn He) as (w1 & -> & _ & Hp); [lia|]. cbn [try_bind].
  rewrite Hp by (intros E; rewrite E, zlen_nil in He16; lia). rewrite write_attrs_put by (rewrite ?zlen_app; lia). by rewrite app_assoc.
Qed.

(** The bytes behind the file header. *)
Definition attr_section (attrs : list EventAttrWithId) : bytes := ids_bytes attrs ++ attrs_bytes 104 attrs.

Lemma WriteAttrSection_put first attrs' undef :
  let attrs := first :: attrs' in let c := replicate 104 0 ++ attr_section attrs in
  zlen c <= disk ->
  WriteAttrSection disk attr_size attrs (RecordFileWriter_new undef) =
    Ok (Some (put c (set_sections (fst first) (104 + zlen (ids_bytes attrs)) (zlen (attrs_bytes 104 attrs)) (zlen c) (RecordFileWriter_new undef)))).
Proof.
  intros attrs c Hl. unfold WriteAttrSection. change (sizeof FileHeader_codec) with 104. unfold attrs at 1. fold attrs.
  unfold c, attr_section in Hl. rewrite !zlen_app, zlen_replicate in Hl. pose proof (zlen_nonneg (attrs_bytes 104 attrs)). pose proof (zlen_nonneg (ids_bytes attrs)).
  set (w := RecordFileWriter_new undef). change (Seek 104 w) with (@Ok (option RecordFileWriter) (Some (gap 104 w))). cbn [try_bind].
  assert (ends 104 w (replicate 104 0) (gap 104 w)) as He by (by right).
  rewrite (GetFilePos_ends 104 _ w _ ltac:(lia) He). cbn [mbind res_bind]. change (zlen (replicate 104 0)) with 104.
  destruct (write_ids_ends 104 attrs ltac:(lia) _ w _ He) as (w1 & -> & E1); [change (zlen (replicate 104 0)) with 104; lia|]. cbn [try_bind].
  rewrite (GetFilePos_ends 104 _ w _ ltac:(lia) E1). cbn [mbind res_bind].
  rewrite (write_attrs_ends 104 attrs 104 _ w w1) by (done || (rewrite ?zlen_app; change (zlen (replicate 104 0)) with 104; lia)). cbn [try_bind].
  cbn [GetFilePos get_fp put set_fp record_fp_ mbind res_bind fpos]. rewrite <- !app_assoc. fold (attr_section attrs). fold c.
  unfold c at 1 3, attr_section at 1 2. rewrite !zlen_app, zlen_replicate. rewrite u64_small by (unfold is_u64; lia).
  replace (Z.of_nat 104 + zlen (ids_bytes attrs)) with (104 + zlen (ids_bytes attrs)) by lia.
  match goal with |- context [set_sections _ _ ?x _ _] => replace x with (zlen (attrs_bytes 104 attrs)) by lia end. done.
Qed.

(** ** The data section *)

Definition set_data_size (n : Z) (w : RecordFileWriter) : RecordFileWriter :=
  mkWriter (record_fp_ w) (event_attr_ w) (attr_section_offset_ w) (attr_section_size_ w) (data_section_offset_ w) n
    (feature_section_offset_ w) (features_ w) (feature_count_ w).

(** The writer with the file [c] that has [n] bytes of data. *)
Definition putd (c : bytes) (n : Z) (w : RecordFileWriter) : RecordFileWriter := put c (set_data_size n w).

Lemma WriteData_put b c n w : 0 <= n <= zlen c -> zlen c + zlen b <= disk ->
  WriteData disk b (putd c n w) = Ok (Some (putd (c ++ b) (n + zlen b) w)).
Proof.
  intros Hn Hl. unfold WriteData, putd. rewrite Write_put by done. cbn [try_bind]. do 2 f_equal. unfold add_data_size, put, set_data_size.
  cbn. rewrite u64_small; [done|]. pose proof (zlen_nonneg b). unfold is_u64. lia.
Qed.

Lemma header_buf_ok h : header_ok h -> header_buf h = Ok (header_bytes h).
Proof.
  intros Hh. unfold header_buf. change (replicate 8 0) with ([] ++ replicate 8 0). rewrite RecordHeader_write by done. cbn [mbind res_bind].
  rewrite zdrop_ge by done. by rewrite app_nil_r.
Qed.

(** The pieces of a long record. *)
Definition split_header (n : Z) : RecordHeader := mkHeader SIMPLE_PERF_RECORD_SPLIT 0 (n + 8).
Definition split_end : RecordHeader := mkHeader SIMPLE_PERF_RECORD_SPLIT_END 0 8.
Definition PIECE : Z := 65527.

Lemma split_header_ok n : 0 <= n <= PIECE -> header_ok (split_header n).
Proof. unfold PIECE, header_ok, split_header, SIMPLE_PERF_RECORD_SPLIT, SIMPLE_PERF_RECORD_TYPE_START. cbn. unfold_u. lia. Qed.
Lemma split_end_ok : header_ok split_end.
Proof. unfold header_ok, split_end, SIMPLE_PERF_RECORD_SPLIT_END, SIMPLE_PERF_RECORD_TYPE_START. cbn. unfold_u. lia. Qed.

Fixpoint pieces (fuel : nat) (b : bytes) : list bytes :=
  match fuel, b with
  | S fuel, _ :: _ => ztake PIECE b :: pieces fuel (zdrop PIECE b)
  | _, _ => []
  end.
Definition piece_bytes (b : bytes) : bytes := header_bytes (split_header (zlen b)) ++ b.

(** What the file has for a record. *)
Definition record_binary (r : Record_) : bytes := ztake (size (header r)) (binary_ r).
Definition stored_bytes (r : Record_) : bytes :=
  if size (header r) <=? RECORD_SIZE_LIMIT then record_binary r
  else concat (piece_bytes <$> pieces (length (record_binary r)) (record_binary r)) ++ header_bytes split_end.

(** A record that can be written: its binary starts with its header. *)
Record writable (r : Record_) : Prop := {
  wr_header : header_ok (header r);
  wr_size : 8 <= size (header r) <= zlen (binary_ r);
  wr_binary : bytes_at (binary_ r) 0 (header_bytes (header r));
  wr_type : type (header r) <> SIMPLE_PERF_RECORD_SPLIT;
  wr_long : RECORD_SIZE_LIMIT < size (header r) -> SIMPLE_PERF_RECORD_TYPE_START < type (header r);
}.

Lemma zlen_record_binary r : writable r -> zlen (record_binary r) = size (header r).
Proof. intros [_ Hs _ _ _]. apply zlen_ztake. lia. Qed.

Lemma zlen_ztake_min {A} n (l : list A) : 0 <= n -> zlen (ztake n l) = Z.min n (zlen l).
Proof. intros. unfold zlen, ztake. rewrite length_take. lia. Qed.

Lemma piece_step fuel l : 0 < zlen l ->
  concat (piece_bytes <$> pieces (S fuel) l) = piece_bytes (ztake PIECE l) ++ concat (piece_bytes <$> pieces fuel (zdrop PIECE l)).
Proof. intros H. destruct l; [done|]. reflexivity. Qed.

Lemma zlen_piece_bytes b : zlen (piece_bytes b) = 8 + zlen b.
Proof. unfold piece_bytes. by rewrite zlen_app, zlen_header_bytes. Qed.

Lemma write_split_put fuel : forall binary p left c n w,
  0 <= p -> 0 <= left -> p + left <= zlen binary -> left <= Z.of_nat fuel -> 0 <= n <= zlen c ->
  let out := concat (piece_bytes <$> pieces fuel (ztake left (zdrop p binary))) in
  zlen c + zlen out <= disk ->
  write_split disk fuel binary p left (putd c n w) = Ok (Some (putd (c ++ out) (n + zlen out) w)).
Proof.
  induction fuel as [|fuel IH]; intros binary p left c n w Hp Hl Hb Hf Hn out Hd.
  { assert (left = 0) as -> by lia. cbn. unfold out. cbn. by rewrite app_nil_r, Z.add_0_r. }
  cbn [write_split]. destruct (Z.ltb_spec 0 left) as [H0|H0].
  2:{ assert (left = 0) as -> by lia. unfold out. cbn. by rewrite app_nil_r, Z.add_0_r. }
  change (RECORD_SIZE_LIMIT - header_size) with PIECE. set (k := Z.min PIECE left). assert (0 < k <= left /\ k <= PIECE) as Hk by (unfold k, PIECE; lia).
  change (mkHeader SIMPLE_PERF_RECORD_SPLIT 0 (k + header_size)) with (split_header k). rewrite header_buf_ok by (apply split_header_ok; lia).
  cbn [mbind res_bind]. set (l := ztake left (zdrop p binary)) in *. assert (zlen l = left) as Hll by (apply zlen_ztake; rewrite zlen_zdrop; lia).
  assert (ztake PIECE l = ztake k (zdrop p binary)) as Ek by (unfold l, ztake, k; rewrite take_take; f_equal; unfold PIECE; lia).
  assert (zlen (ztake PIECE l) = k) as Hkl by (rewrite zlen_ztake_min by (unfold PIECE; lia); unfold k; lia).
  assert (zdrop PIECE l = ztake (left - k) (zdrop (p + k) binary)) as Edrop.
  { unfold l. destruct (Z.le_gt_cases left PIECE) as [Hle|Hgt].
    - assert (k = left) as -> by (unfold k; lia). rewrite Z.sub_diag. rewrite zdrop_ge; [done|]. fold l. lia.
    - assert (k = PIECE) as -> by (unfold k; lia). unfold zdrop, ztake, PIECE. rewrite skipn_firstn_comm, drop_drop.
      f_equal; [lia|]. f_equal. lia. }
  assert (out = piece_bytes (ztake PIECE l) ++ concat (piece_bytes <$> pieces fuel (zdrop PIECE l))) as Eout by (apply piece_step; lia).
  clearbody out. subst out. set (rest := concat _) in *. unfold piece_bytes in Hd |- *. rewrite !zlen_app, zlen_header_bytes, !Hkl in *.
  pose proof (zlen_nonneg rest). rewrite WriteData_put by (rewrite ?zlen_header_bytes; lia). cbn [try_bind]. rewrite zlen_header_bytes.
  unfold mem_read. rewrite (proj2 (Z.leb_le 0 p)), (proj2 (Z.leb_le 0 k)), (proj2 (Z.leb_le _ _)) by lia. cbn [andb mbind res_bind].
  rewrite <- Ek. rewrite WriteData_put by (rewrite ?zlen_app, ?zlen_header_bytes, ?Hkl; lia). cbn [try_bind]. rewrite Hkl.
  unfold rest in *. rewrite Edrop in *. rewrite IH by (rewrite ?zlen_app, ?zlen_header_bytes, ?Hkl; lia). rewrite <- !app_assoc. do 3 f_equal. lia.
Qed.

Lemma WriteRecord_put r c n w : writable r -> 0 <= n <= zlen c -> zlen c + zlen (stored_bytes r) <= disk ->
  WriteRecord disk r (putd c n w) = Ok (Some (putd (c ++ stored_bytes r) (n + zlen (stored_bytes r)) w)).
Proof.
  intros Hr Hn Hd. pose proof (zlen_record_binary r Hr) as Hz. destruct Hr as [Hh Hs _ _ Hlong]. unfold WriteRecord, stored_bytes in *.
  destruct (Z.leb_spec (size (header r)) RECORD_SIZE_LIMIT) as [Hle|Hgt].
  - unfold mem_read. rewrite (proj2 (Z.leb_le 0 0)), (proj2 (Z.leb_le 0 _)), (proj2 (Z.leb_le _ _)) by lia. cbn [andb mbind res_bind].
    rewrite zdrop_0. fold (record_binary r). rewrite WriteData_put by done. done.
  - rewrite CHECK_lt by auto. cbn [mbind res_bind].
    assert (length (record_binary r) = Z.to_nat (size (header r))) as El by (unfold zlen in Hz; lia). rewrite El in *.
    pose proof (write_split_put (Z.to_nat (size (header r))) (binary_ r) 0 (size (header r)) c n w) as E. rewrite zdrop_0 in E. cbv zeta in E.
    fold (record_binary r) in E. set (out := concat _) in *. rewrite zlen_app, zlen_header_bytes in Hd. pose proof (zlen_nonneg out).
    rewrite E by lia. cbn [try_bind]. change (mkHeader SIMPLE_PERF_RECORD_SPLIT_END 0 header_size) with split_end.
    rewrite header_buf_ok by apply split_end_ok. cbn [mbind res_bind].
    rewrite WriteData_put by (rewrite ?zlen_app, ?zlen_header_bytes; lia). rewrite !zlen_app, zlen_header_bytes, <- app_assoc. do 3 f_equal. lia.
Qed.

Fixpoint write_records (l : list Record_) (w : RecordFileWriter) : res (option RecordFileWriter) :=
  match l with
  | [] => Ok (Some w)
  | r :: l => w ←? WriteRecord disk r w; write_records l w
  end.

Definition data_section (l : list Record_) : bytes := concat (stored_bytes <$> l).

Lemma write_records_put l : forall c n w, Forall writable l -> 0 <= n <= zlen c -> zlen c + zlen (data_section l) <= disk ->
  write_records l (putd c n w) = Ok (Some (putd (c ++ data_section l) (n + zlen (data_section l)) w)).
Proof.
  unfold data_section. induction l as [|r l IH]; intros c n w Hw Hn Hd; cbn [write_records]; [cbn; by rewrite app_nil_r, Z.add_0_r|].
  apply Forall_cons_1 in Hw as [Hr Hw]. rewrite fmap_cons in *. cbn [concat] in *. rewrite zlen_app in *. set (rest := concat _) in *.
  pose proof (zlen_nonneg rest). pose proof (zlen_nonneg (stored_bytes r)). rewrite WriteRecord_put by (done || lia). cbn [try_bind].
  rewrite IH by (done || rewrite ?zlen_app; lia). rewrite <- app_assoc. do 3 f_equal. lia.
Qed.

(** ** Features *)

Abbreviation keys := (fmap (M := list) (@fst Z SectionDesc)).

Lemma find_set_eq k d m : features_find k (features_set k d m) = Some d.
Proof.
  induction m as [|[k' d'] m IH]; cbn [features_set features_find]; [by rewrite Z.eqb_refl|].
  destruct (Z.eqb_spec k' k) as [->|Hne]; [cbn [features_find]; by rewrite Z.eqb_refl|].
  destruct (k <? k'); cbn [features_find]; [by rewrite Z.eqb_refl|]. by rewrite (proj2 (Z.eqb_neq _ _) Hne).
Qed.

Lemma find_set_ne k k' d m : k <> k' -> features_find k' (features_set k d m) = features_find k' m.
Proof.
  intros Hk. induction m as [|[j d'] m IH]; cbn [features_set features_find]; [by rewrite (proj2 (Z.eqb_neq _ _) Hk)|].
  destruct (Z.eqb_spec j k) as [->|Hne]; [cbn [features_find]; by rewrite !(proj2 (Z.eqb_neq _ _) Hk)|].
  destruct (k <? j); cbn [features_find]; [by rewrite (proj2 (Z.eqb_neq _ _) Hk)|]. by rewrite IH.
Qed.

Lemma set_set k d d' m : features_set k d (features_set k d' m) = features_set k d m.
Proof.
  induction m as [|[j e] m IH]; cbn [features_set]; [by rewrite Z.eqb_refl|].
  destruct (Z.eqb_spec j k) as [->|Hne]; [cbn [features_set]; by rewrite Z.eqb_refl|].
  destruct (k <? j) eqn:E; cbn [features_set]; [by rewrite Z.eqb_refl|]. by rewrite (proj2 (Z.eqb_neq _ _) Hne), E, IH.
Qed.

Lemma set_new_perm k d m : features_find k m = None -> features_set k d m ≡ₚ (k, d) :: m.
Proof.
  induction m as [|[j e] m IH]; cbn [features_set features_find]; [done|]. destruct (j =? k); [done|]. intros H.
  destruct (k <? j); [done|]. rewrite IH by done. apply Permutation_swap.
Qed.

Lemma find_none k m : features_find k m = None <-> k ∉ keys m.
Proof.
  induction m as [|[j e] m IH]; cbn [features_find fmap list_fmap fst]; [split; [intros _; apply not_elem_of_nil|done]|].
  rewrite not_elem_of_cons. destruct (Z.eqb_spec j k) as [->|Hne]; [split; [done|by intros []]|]. rewrite IH. split; [done|by intros []].
Qed.

Definition keys_sorted (m : features_map) : Prop := StronglySorted Z.lt (keys m).

Lemma set_sorted k d m : keys_sorted m -> keys_sorted (features_set k d m).
Proof.
  unfold keys_sorted. induction m as [|[j e] m IH]; cbn [features_set]; [intros _; cbn; constructor; [constructor|by apply Forall_nil_2]|].
  intros Hs. inversion Hs as [|? ? Hm Hj]; subst. destruct (Z.eqb_spec j k) as [->|Hne]; [done|].
  destruct (Z.ltb_spec k j) as [Hlt|Hge]; cbn [fmap list_fmap fst].
  - constructor; [done|]. constructor; [done|]. eapply Forall_impl; [exact Hj|]. intros x Hx. cbn in *. lia.
  - constructor; [by apply IH|]. rewrite Forall_forall in *. intros x Hx. destruct (decide (x = k)) as [->|Hx']; [lia|].
    apply Hj. clear -Hx Hx'. induction m as [|[a b] m IH]; cbn [features_set fmap list_fmap fst] in *.
    + apply list_elem_of_singleton in Hx. congruence.
    + destruct (Z.eqb_spec a k) as [->|]; [cbn in Hx; apply elem_of_cons in Hx as [->|Hx]; [done|by right]|].
      destruct (k <? a); cbn [fmap list_fmap fst] in Hx.
      * apply elem_of_cons in Hx as [->|Hx]; [done|done].
      * apply elem_of_cons in Hx as [->|Hx]; [left|right; by apply IH].
Qed.

Lemma WriteFeature_new id data c w :
  features_find id (features_ w) = None -> zlen (features_ w) < feature_count_ w -> zlen c + zlen data <= disk ->
  WriteFeature disk id data (put c w) =
    Ok (Some (put (c ++ data) (set_features (features_set id (mkDesc (zlen c) (zlen data)) (features_ w)) w))).
Proof.
  intros Hf Hc Hd. unfold WriteFeature, WriteFeatureBegin. change (features_ (put c w)) with (features_ w). change (feature_count_ (put c w)) with (feature_count_ w).
  rewrite Hf, CHECK_lt by done. cbn [mbind res_bind GetFilePos get_fp put set_fp record_fp_ try_bind fpos].
  set (w1 := set_features (features_set id (mkDesc (zlen c) 0) (features_ w)) w).
  change (try_bind (Write disk data (put c w1)) (fun w => WriteFeatureEnd id w) = Ok (Some (put (c ++ data) (set_features (features_set id (mkDesc (zlen c) (zlen data)) (features_ w)) w)))).
  rewrite Write_put by done. cbn [try_bind]. unfold WriteFeatureEnd. change (features_ (put (c ++ data) w1)) with (features_set id (mkDesc (zlen c) 0) (features_ w)).
  rewrite find_set_eq. cbn [GetFilePos get_fp put set_fp record_fp_ mbind res_bind fpos sec_offset].
  pose proof (zlen_nonneg data). pose proof (zlen_nonneg c). rewrite set_set, zlen_app, u64_small by (unfold is_u64; lia).
  replace (zlen c + zlen data - zlen c) with (zlen data) by lia. unfold put, w1. by rewrite zlen_app.
Qed.

Lemma WriteFeature_more id data c w off sz :
  features_find id (features_ w) = Some (mkDesc off sz) -> off + sz = zlen c -> 0 <= sz -> 0 <= off -> zlen c + zlen data <= disk ->
  WriteFeature disk id data (put c w) =
    Ok (Some (put (c ++ data) (set_features (features_set id (mkDesc off (sz + zlen data)) (features_ w)) w))).
Proof.
  intros Hf Ho Hs Hoff Hd. unfold WriteFeature, WriteFeatureBegin. change (features_ (put c w)) with (features_ w). rewrite Hf. cbn [try_bind].
  rewrite Write_put by done. cbn [try_bind]. unfold WriteFeatureEnd. change (features_ (put (c ++ data) w)) with (features_ w). rewrite Hf.
  cbn [GetFilePos get_fp put set_fp record_fp_ mbind res_bind fpos sec_offset]. pose proof (zlen_nonneg data).
  rewrite zlen_app, u64_small by (unfold is_u64; lia). replace (zlen c + zlen data - off) with (sz + zlen data) by lia.
  unfold put. by rewrite zlen_app.
Qed.

(** One feature, in one or more parts. *)
Fixpoint write_parts (id : Z) (parts : list bytes) (w : RecordFileWriter) : res (option RecordFileWriter) :=
  match parts with
  | [] => Ok (Some w)
  | data :: parts => w ←? WriteFeature disk id data w; write_parts id parts w
  end.

Lemma set_features_set k d d' m w : set_features (features_set k d (features_set k d' m)) (set_features (features_set k d' m) w) = set_features (features_set k d m) w.
Proof. unfold set_features. cbn. by rewrite set_set. Qed.

Lemma write_parts_more id parts : forall c w off sz m,
  off + sz = zlen c -> 0 <= sz -> 0 <= off -> zlen c + zlen (concat parts) <= disk ->
  write_parts id parts (put c (set_features (features_set id (mkDesc off sz) m) w)) =
    Ok (Some (put (c ++ concat parts) (set_features (features_set id (mkDesc off (sz + zlen (concat parts))) m) w))).
Proof.
  induction parts as [|data parts IH]; intros c w off sz m Ho Hs Hoff Hd; cbn [write_parts concat] in *; [by rewrite app_nil_r, zlen_nil, Z.add_0_r|].
  rewrite zlen_app in *. pose proof (zlen_nonneg (concat parts)). pose proof (zlen_nonneg data).
  rewrite (WriteFeature_more id data c _ off sz) by (done || lia || apply find_set_eq). cbn [try_bind features_ set_features]. rewrite set_set.
  change (set_features ?x (set_features ?y w)) with (set_features x w). rewrite IH by (rewrite ?zlen_app; lia).
  rewrite <- app_assoc. do 6 f_equal. lia.
Qed.

Lemma write_parts_new id parts c w :
  parts <> [] -> features_find id (features_ w) = None -> zlen (features_ w) < feature_count_ w -> zlen c + zlen (concat parts) <= disk ->
  write_parts id parts (put c w) =
    Ok (Some (put (c ++ concat parts) (set_features (features_set id (mkDesc (zlen c) (zlen (concat parts))) (features_ w)) w))).
Proof.
  intros Hne Hf Hc Hd. destruct parts as [|data parts]; [done|]. cbn [write_parts concat] in *. rewrite zlen_app in *.
  pose proof (zlen_nonneg (concat parts)). pose proof (zlen_nonneg data). pose proof (zlen_nonneg c).
  rewrite WriteFeature_new by (done || lia). cbn [try_bind]. rewrite write_parts_more by (rewrite ?zlen_app; lia). by rewrite <- app_assoc.
Qed.

Abbreviation feature := (Z * list bytes)%type.
Definition feature_data (f : feature) : bytes := concat (snd f).

Fixpoint write_features (l : list feature) (w : RecordFileWriter) : res (option RecordFileWriter) :=
  match l with
  | [] => Ok (Some w)
  | f :: l => w ←? write_parts (fst f) (snd f) w; write_features l w
  end.

(** Where the features are. *)
Fixpoint feature_descs (off : Z) (l : list feature) : features_map :=
  match l with
  | [] => []
  | f :: l => (fst f, mkDesc off (zlen (feature_data f))) :: feature_descs (off + zlen (feature_data f)) l
  end.
Definition add_features (l m : features_map) : features_map := foldl (fun m kd => features_set (fst kd) (snd kd) m) m l.
Definition features_bytes (l : list feature) : bytes := concat (feature_data <$> l).

Lemma write_features_put l : forall c w,
  Forall (fun f => snd f <> []) l -> NoDup (fst <$> l) -> (forall id, id ∈ fst <$> l -> features_find id (features_ w) = None) ->
  zlen (features_ w) + zlen l <= feature_count_ w -> zlen c + zlen (features_bytes l) <= disk ->
  write_features l (put c w) =
    Ok (Some (put (c ++ features_bytes l) (set_features (add_features (feature_descs (zlen c) l) (features_ w)) w))).
Proof.
  unfold features_bytes. induction l as [|[id parts] l IH]; intros c w Hp Hn Hf Hc Hd; cbn [write_features].
  { cbn. rewrite app_nil_r. by destruct w. }
  rewrite !fmap_cons in *. cbn [concat fst snd feature_descs] in *. rewrite zlen_app, zlen_cons in *. set (rest := concat (feature_data <$> l)) in *.
  apply Forall_cons_1 in Hp as [Hp1 Hp2]. inversion Hn as [|? ? Hn1 Hn2]; subst. pose proof (zlen_nonneg rest). pose proof (zlen_nonneg l).
  change (feature_data (id, parts)) with (concat parts) in *.
  rewrite write_parts_new; [|done|apply Hf; left|lia|lia]. cbn [try_bind].
  rewrite IH; [|done|done| | |rewrite zlen_app; lia].
  - fold rest. rewrite <- app_assoc. unfold add_features. cbn [foldl fst snd features_ set_features]. by rewrite zlen_app.
  - intros k Hk. cbn. rewrite find_set_ne; [apply Hf; by right|]. intros ->. done.
  - cbn [set_features features_ feature_count_]. unfold zlen at 1. rewrite (Permutation_length (set_new_perm _ _ _ (Hf id ltac:(left)))). cbn [length]. unfold zlen in *. lia.
Qed.

(** ** The end of the file *)

Definition descs_bytes (m : features_map) : bytes := enc_array SectionDesc_codec (snd <$> m).

Lemma zlen_descs_bytes m : zlen (descs_bytes m) = zlen m * 16.
Proof. unfold descs_bytes. erewrite zlen_enc_array by apply _. by rewrite zlen_fmap. Qed.

Definition at_pos (c : bytes) (p : Z) (w : RecordFileWriter) : RecordFileWriter := set_fp (Some (mkFile c p)) w.

Lemma write_descs_over m : forall pre old post w, zlen old = zlen m * 16 -> zlen (pre ++ old ++ post) <= disk ->
  write_descs disk m (at_pos (pre ++ old ++ post) (zlen pre) w) =
    Ok (Some (at_pos (pre ++ descs_bytes m ++ post) (zlen pre + zlen m * 16) w)).
Proof.
  unfold descs_bytes. induction m as [|[k d] m IH]; intros pre old post w Ho Hd; cbn [write_descs fmap list_fmap enc_array snd].
  { change (zlen []) with 0 in *. destruct old; [|rewrite zlen_cons in Ho; pose proof (zlen_nonneg old); lia]. cbn. by rewrite Z.add_0_r. }
  rewrite zlen_cons in Ho. pose proof (zlen_nonneg m). set (e := enc SectionDesc_codec d).
  assert (zlen e = 16) as He by (unfold e; by rewrite enc_len).
  assert (zlen (ztake 16 old) = 16) as H16 by (apply zlen_ztake; lia). assert (zlen (zdrop 16 old) = zlen m * 16) as Hr by (rewrite zlen_zdrop; lia).
  rewrite <- (ztake_zdrop 16 old), <- app_assoc in Hd |- *. unfold Write. destruct (Z.eqb_spec (zlen e) 0); [lia|].
  cbn [at_pos set_fp record_fp_ get_fp mbind res_bind]. rewrite fwrite_over by (done || lia || (intros ->; rewrite zlen_nil in He; lia)). cbn [try_bind].
  match goal with |- write_descs disk m ?s = _ => replace s with (at_pos ((pre ++ e) ++ zdrop 16 old ++ post) (zlen (pre ++ e)) w)
    by (unfold at_pos; by rewrite zlen_app, <- (app_assoc pre e)) end.
  rewrite (IH (pre ++ e) (zdrop 16 old) post w Hr) by (rewrite !zlen_app in *; lia).
  unfold at_pos. rewrite zlen_app, zlen_cons, He, <- !app_assoc. do 5 f_equal. lia.
Qed.

(** The bit of a feature. *)
Definition feature_bit (bits : bytes) (k : Z) : bool :=
  match bits !! Z.to_nat (k / 8) with Some x => Z.testbit x (k mod 8) | None => false end.

Lemma set_bit x j i : 0 <= i < 8 -> 0 <= j < 8 -> Z.testbit (u8 (Z.lor x (Z.shiftl 1 j))) i = Z.testbit x i || (i =? j).
Proof.
  intros Hi Hj. unfold u8. rewrite Z.mod_pow2_bits_low by lia. rewrite Z.lor_spec, Z.shiftl_1_l, Z.pow2_bits_eqb by lia. by rewrite Z.eqb_sym.
Qed.

Lemma feature_bits_ok m : forall bits, length bits = 32%nat -> Forall (fun k => 0 <= k < 256) (keys m) ->
  exists bits', feature_bits m bits = Ok bits' /\ length bits' = 32%nat /\
    forall k, 0 <= k < 256 -> feature_bit bits' k = feature_bit bits k || bool_decide (k ∈ keys m).
Proof.
  induction m as [|[j d] m IH]; intros bits Hb Hk; cbn [feature_bits fmap list_fmap fst] in *.
  { exists bits. split_and!; [done|done|]. intros k _. by rewrite orb_false_r. }
  apply Forall_cons_1 in Hk as [Hj Hk]. pose proof (Z.div_pos j 8 ltac:(lia) ltac:(lia)). pose proof (Z.div_lt_upper_bound j 8 32 ltac:(lia) ltac:(lia)).
  destruct (lookup_lt_is_Some_2 bits (Z.to_nat (j / 8)) ltac:(lia)) as [x Hx]. rewrite Hx.
  destruct (IH (<[Z.to_nat (j / 8) := u8 (Z.lor x (Z.shiftl 1 (j mod 8)))]> bits)) as (bits' & E & Hl & Hbit); [by rewrite length_insert|done|].
  exists bits'. split_and!; [done|done|]. intros k Hk'. rewrite Hbit by done. clear Hbit E IH. unfold feature_bit.
  pose proof (Z.div_pos k 8 ltac:(lia) ltac:(lia)). pose proof (Z.mod_pos_bound j 8 ltac:(lia)). pose proof (Z.mod_pos_bound k 8 ltac:(lia)).
  pose proof (Z.div_mod j 8 ltac:(lia)). pose proof (Z.div_mod k 8 ltac:(lia)).
  assert (bool_decide (k ∈ j :: keys m) = (k =? j) || bool_decide (k ∈ keys m)) as ->.
  { destruct (Z.eqb_spec k j) as [->|Hne]; cbn [orb]; [by apply bool_decide_true; left|]. apply bool_decide_ext. rewrite elem_of_cons. naive_solver. }
  destruct (decide (k / 8 = j / 8)) as [E|E].
  - rewrite E, list_lookup_insert_eq by lia. rewrite Hx, set_bit by lia. rewrite <- orb_assoc. do 2 f_equal.
    destruct (Z.eqb_spec (k mod 8) (j mod 8)), (Z.eqb_spec k j); try done; lia.
  - rewrite list_lookup_insert_ne by lia. rewrite (proj2 (Z.eqb_neq k j)); [done|]. by intros ->.
Qed.

Lemma sorted_ext (l k : list Z) : StronglySorted Z.lt l -> StronglySorted Z.lt k -> (forall x, x ∈ l <-> x ∈ k) -> l = k.
Proof.
  intros Hl. revert k. induction Hl as [|x l Hl IH Hx]; intros k Hk H.
  { destruct k as [|y k]; [done|]. exfalso. apply (not_elem_of_nil y), H. left. }
  destruct Hk as [|y k Hk Hy]; [exfalso; apply (not_elem_of_nil x), H; left|]. rewrite Forall_forall in Hx, Hy.
  assert (x = y) as <-.
  { pose proof (proj1 (H x) ltac:(left)) as H1. pose proof (proj2 (H y) ltac:(left)) as H2.
    apply elem_of_cons in H1 as [->|H1]; [done|]. apply elem_of_cons in H2 as [->|H2]; [done|]. specialize (Hx y H2). specialize (Hy x H1). lia. }
  f_equal. apply IH; [done|]. intros z. split; intros Hz.
  - pose proof (proj1 (H z) ltac:(by right)) as H1. apply elem_of_cons in H1 as [->|H1]; [specialize (Hx x Hz); lia|done].
  - pose proof (proj2 (H z) ltac:(by right)) as H1. apply elem_of_cons in H1 as [->|H1]; [specialize (Hy x Hz); lia|done].
Qed.

Lemma seqZ_sorted n : forall m, 0 <= n -> StronglySorted Z.lt (seqZ m n).
Proof.
  intros m Hn. revert m. pattern n. apply natlike_ind; [|clear|done].
  - intros m. rewrite seqZ_nil by lia. constructor.
  - intros k Hk IH m. rewrite seqZ_cons by lia. constructor; [replace (Z.pred (Z.succ k)) with k by lia; apply IH|].
    apply Forall_forall. intros x Hx. apply elem_of_seqZ in Hx. lia.
Qed.

Lemma filter_sorted (P : Z -> Prop) `{!forall x, Decision (P x)} l : StronglySorted Z.lt l -> StronglySorted Z.lt (filter P l).
Proof.
  induction 1 as [|x l Hl IH Hx]; [constructor|]. rewrite filter_cons. destruct (decide (P x)); [|done]. constructor; [done|].
  rewrite Forall_forall in *. intros y Hy. apply list_elem_of_filter in Hy as [_ Hy]. by apply Hx.
Qed.

Lemma header_features_keys bits m : keys_sorted m -> Forall (fun k => 0 <= k < 256) (keys m) ->
  (forall k, 0 <= k < 256 -> feature_bit bits k = bool_decide (k ∈ keys m)) -> header_features bits = keys m.
Proof.
  intros Hs Hr Hb. apply sorted_ext; [|done|]; [apply filter_sorted, seqZ_sorted; lia|]. intros k. rewrite Forall_forall in Hr.
  unfold header_features. rewrite list_elem_of_filter, elem_of_seqZ. fold (feature_bit bits k). split.
  - intros [H1 H2]. rewrite Hb in H1 by lia. by apply bool_decide_eq_true in H1.
  - intros H. specialize (Hr k H). split; [|lia]. rewrite Hb by done. by apply bool_decide_eq_true.
Qed.

Lemma add_features_spec l : forall m, NoDup (keys l) -> (forall k, k ∈ keys l -> features_find k m = None) -> keys_sorted m ->
  let m' := add_features l m in
  keys_sorted m' /\ m' ≡ₚ l ++ m /\ (forall k d, (k, d) ∈ l -> features_find k m' = Some d).
Proof.
  induction l as [|[k d] l IH]; intros m Hn Hf Hs; cbn [add_features foldl fst snd] in *.
  { split_and!; [done|done|]. intros k d Hd. by apply not_elem_of_nil in Hd. }
  cbn [fmap list_fmap fst] in *. inversion Hn as [|? ? Hk Hn']; subst. fold (add_features l (features_set k d m)).
  destruct (IH (features_set k d m) Hn') as (H1 & H2 & H3); [|by apply set_sorted|].
  { intros j Hj. rewrite find_set_ne; [apply Hf; by right|]. by intros ->. }
  split_and!; [done| |].
  - rewrite H2, set_new_perm by (apply Hf; left). by rewrite <- Permutation_middle.
  - intros j e Hj. apply elem_of_cons in Hj as [[= -> ->]|Hj]; [|by apply H3].
    destruct (features_find k (add_features l (features_set k d m))) as [e|] eqn:E.
    + enough (forall l m, k ∉ keys l -> features_find k (add_features l m) = features_find k m) as Hkeep by (rewrite Hkeep, find_set_eq in E by done; congruence).
      clear. induction l as [|[j e] l IH]; intros m Hk; [done|]. cbn [fmap list_fmap fst] in Hk. apply not_elem_of_cons in Hk as [Hk1 Hk2].
      unfold add_features. cbn [foldl fst snd]. fold (add_features l (features_set j e m)). rewrite IH by done. by rewrite find_set_ne.
    + apply find_none in E. exfalso. apply E. rewrite H2, set_new_perm by (apply Hf; left). rewrite fmap_app. apply elem_of_app. right. left.
Qed.

Lemma feature_descs_keys l : forall off, keys (feature_descs off l) = fst <$> l.
Proof. induction l as [|f l IH]; intros off; [done|]. cbn [feature_descs]. rewrite !fmap_cons, IH. done. Qed.

Lemma Seek_put off c w : off < 2 ^ 63 -> Seek off (put c w) = Ok (Some (at_pos c off w)).
Proof. intros H. unfold Seek, fseek_u64. by rewrite (proj2 (Z.ltb_lt _ _) H). Qed.

(** ** The whole file *)

Section whole.
Context (attrs : list EventAttrWithId) (recs : list Record_) (feats : list feature) (count : Z).

Definition write_file (undef : bytes) : res (option FILE) :=
  w ←? WriteAttrSection disk attr_size attrs (RecordFileWriter_new undef);
  w ←? write_records recs w;
  w ←? BeginWriteFeatures disk count w;
  w ←? write_features feats w;
  w ←? EndWriteFeatures disk w;
  '(ok, f, _) ← Close disk attr_size w;
  Ok (if (ok : bool) then Some f else None).

Definition data_off : Z := 104 + zlen (attr_section attrs).
Definition features_off : Z := data_off + zlen (data_section recs).
Definition file_descs : features_map := add_features (feature_descs (features_off + count * 16) feats) [].
Definition rest_bytes : bytes := replicate (Z.to_nat (count * 16 - zlen file_descs * 16)) 0 ++ features_bytes feats.

Definition whole_header (bits : bytes) : FileHeader :=
  mkFileHeader PERF_MAGIC 104 (attr_size + 16) (mkDesc (104 + zlen (ids_bytes attrs)) (zlen (attrs_bytes 104 attrs)))
    (mkDesc data_off (zlen (data_section recs))) (mkDesc 0 0) bits.
Definition whole_file (bits : bytes) : bytes :=
  enc FileHeader_codec (whole_header bits) ++ attr_section attrs ++ data_section recs ++ descs_bytes file_descs ++ rest_bytes.

Record whole_ok : Prop := {
  wh_attrs : attrs <> [] /\ Forall (fun a => zlen (fst a) = attr_size /\ Forall is_u64 (snd a)) attrs;
  wh_recs : Forall writable recs;
  wh_feats : NoDup (fst <$> feats) /\ Forall (fun f => 0 <= fst f < 256 /\ snd f <> []) feats;
  wh_count : zlen feats <= count;
  wh_size : features_off + count * 16 + zlen (features_bytes feats) <= disk;
}.

Lemma file_descs_spec : whole_ok ->
  keys_sorted file_descs /\ zlen file_descs = zlen feats /\ Forall (fun k => 0 <= k < 256) (keys file_descs) /\
  (forall k, k ∈ keys file_descs <-> k ∈ fst <$> feats) /\
  (forall k d, (k, d) ∈ feature_descs (features_off + count * 16) feats -> features_find k file_descs = Some d).
Proof.
  intros [_ _ [Hn Hf] _ _]. set (l := feature_descs (features_off + count * 16) feats).
  destruct (add_features_spec l []) as (H1 & H2 & H3); [unfold l; by rewrite feature_descs_keys|done|constructor|]. rewrite app_nil_r in H2.
  fold file_descs in *. change (add_features l []) with file_descs in *.
  assert (keys file_descs ≡ₚ fst <$> feats) as Hk by (rewrite <- (feature_descs_keys feats (features_off + count * 16)); by rewrite H2).
  split_and!; [done| | |by intros k; rewrite Hk|done].
  - unfold zlen. rewrite <- (length_fmap fst file_descs), Hk. by rewrite length_fmap.
  - rewrite Hk. apply Forall_fmap. eapply Forall_impl; [exact Hf|]. by intros f [? _].
Qed.

Lemma write_file_ok undef : whole_ok ->
  exists bits, write_file undef = Ok (Some (mkFile (whole_file bits) 104)) /\ length bits = 32%nat /\ header_features bits = keys file_descs.
Proof.
  intros Hok. pose proof (file_descs_spec Hok) as (M1 & M2 & M3 & M4 & M5). destruct Hok as [[Hne Ha] Hr [Hn Hf] Hc Hs].
  destruct (feature_bits_ok file_descs (replicate 32 0) eq_refl M3) as (bits & Ebits & Hl & Hb).
  exists bits. split_and!; [|done|].
  2:{ apply header_features_keys; [done|done|]. intros k Hk. rewrite Hb by done.
      assert (feature_bit (replicate 32 0) k = false) as ->; [|done]. unfold feature_bit. destruct (replicate 32 0 !! _) as [x|] eqn:E; [|done].
      apply lookup_replicate in E as [-> _]. by rewrite Z.testbit_0_l. }
  assert (0 <= count) by (pose proof (zlen_nonneg feats); lia).
  pose proof (zlen_nonneg (features_bytes feats)). pose proof (zlen_nonneg (data_section recs)). pose proof (zlen_nonneg (attr_section attrs)).
  assert (104 <= data_off /\ data_off + zlen (data_section recs) = features_off /\ 104 + zlen (attr_section attrs) = data_off) as (Hd1 & Hd2 & Hd3)
    by (unfold features_off, data_off; lia). unfold write_file. destruct attrs as [|first attrs'] eqn:Eattrs; [done|]. rewrite <- Eattrs in *.
  rewrite Eattrs. rewrite WriteAttrSection_put by (rewrite <- Eattrs, zlen_app; change (zlen (replicate 104 0)) with 104; lia). rewrite <- Eattrs. cbn [try_bind].
  set (c := replicate 104 0 ++ attr_section attrs). assert (zlen c = data_off) as Hc0 by (unfold c, data_off; rewrite zlen_app; done).
  set (w0 := set_sections _ _ _ _ _). change (put c w0) with (putd c 0 w0).
  rewrite write_records_put by (done || lia || (rewrite Hc0; lia)). cbn [try_bind]. rewrite Z.add_0_l. set (D := data_section recs) in *.
  set (w1 := set_data_size (zlen D) w0). change (putd (c ++ D) (zlen D) w0) with (put (c ++ D) w1).
  (* the feature section *)
  assert (zlen (c ++ D) = features_off) as Hc1 by (rewrite zlen_app, Hc0; done).
  unfold BeginWriteFeatures. change (data_section_offset_ (put (c ++ D) w1)) with (zlen c). change (data_section_size_ (put (c ++ D) w1)) with (zlen D).
  rewrite <- zlen_app, Hc1. rewrite (u64_small features_off) by (unfold is_u64; lia).
  change (sizeof SectionDesc_codec) with 16. rewrite (u64_small (count * 16)) by (unfold is_u64; lia).
  set (w2 := set_feature_section features_off count w1). change (set_feature_section features_off count (put (c ++ D) w1)) with (put (c ++ D) w2).
  change (feature_section_offset_ (put (c ++ D) w2)) with features_off. rewrite Seek_put by lia. cbn [try_bind].
  assert (at_pos (c ++ D) features_off w2 = put (c ++ D) w2) as -> by (unfold at_pos, put; by rewrite Hc1).
  set (Zs := replicate (Z.to_nat (count * 16)) 0). assert (zlen Zs = count * 16) as HZ by (unfold Zs; rewrite zlen_replicate; lia).
  rewrite Write_put by lia. cbn [try_bind].
  assert (zlen ((c ++ D) ++ Zs) = features_off + count * 16) as Hc2 by (rewrite zlen_app, Hc1; lia).
  rewrite write_features_put; [|eapply Forall_impl; [exact Hf|]; by intros f []|done|done|change (0 + zlen feats <= count); lia|rewrite Hc2; lia].
  cbn [try_bind]. rewrite Hc2. change (add_features (feature_descs (features_off + count * 16) feats) (features_ w2)) with file_descs.
  set (w3 := set_features file_descs w2). set (F := features_bytes feats) in *.
  (* the descriptors *)
  unfold EndWriteFeatures. change (features_ (put (((c ++ D) ++ Zs) ++ F) w3)) with file_descs. change (feature_count_ (put (((c ++ D) ++ Zs) ++ F) w3)) with count.
  rewrite CHECK_le by lia. cbn [mbind res_bind]. change (feature_section_offset_ (put (((c ++ D) ++ Zs) ++ F) w3)) with features_off.
  rewrite Seek_put by lia. cbn [try_bind]. change (features_ (at_pos (((c ++ D) ++ Zs) ++ F) features_off w3)) with file_descs.
  pose proof (zlen_nonneg feats). set (k := zlen file_descs * 16).
  assert (Zs = ztake k Zs ++ zdrop k Zs) as EZ by (symmetry; apply ztake_zdrop).
  assert (zdrop k Zs = replicate (Z.to_nat (count * 16 - k)) 0) as EZ2 by (unfold Zs, zdrop; rewrite drop_replicate; f_equal; lia).
  match goal with |- context [write_descs disk file_descs ?s] =>
    replace s with (at_pos ((c ++ D) ++ ztake k Zs ++ rest_bytes) (zlen (c ++ D)) w3) end.
  2:{ unfold at_pos, rest_bytes. fold k F. rewrite <- EZ2, Hc1, (app_assoc (ztake k Zs)), <- EZ, <- !app_assoc. done. }
  rewrite write_descs_over.
  2:{ rewrite zlen_ztake by lia. done. }
  2:{ unfold rest_bytes. fold k F. rewrite <- EZ2, (app_assoc (ztake k Zs)), <- EZ, !zlen_app, HZ, <- (zlen_app c D), Hc1. lia. }
  cbn [try_bind].
  (* the header *)
  set (all := (c ++ D) ++ descs_bytes file_descs ++ rest_bytes). set (p := zlen (c ++ D) + zlen file_descs * 16).
  unfold Close, WriteFileHeader. change (record_fp_ (at_pos all p w3)) with (Some (mkFile all p)). change (features_ (at_pos all p w3)) with file_descs.
  cbn [mbind res_bind]. rewrite Ebits. cbn [mbind res_bind]. change (Seek 0 (at_pos all p w3)) with (@Ok (option RecordFileWriter) (Some (at_pos all 0 w3))). cbn [try_bind].
  match goal with |- context [enc FileHeader_codec ?h] => replace h with (whole_header bits) end.
  2:{ unfold whole_header. cbn [at_pos set_fp w3 set_features w2 set_feature_section w1 set_data_size w0 set_sections attr_section_offset_ attr_section_size_
        data_section_offset_ data_section_size_]. by rewrite Hc0. }
  set (h := enc FileHeader_codec (whole_header bits)). assert (zlen h = 104) as Hh by (unfold h; by rewrite enc_len).
  unfold Write. destruct (Z.eqb_spec (zlen h) 0); [lia|]. cbn [at_pos set_fp record_fp_ get_fp mbind res_bind].
  assert (all = [] ++ replicate 104 0 ++ (attr_section attrs ++ D ++ descs_bytes file_descs ++ rest_bytes)) as -> by (unfold all, c; by rewrite <- !app_assoc).
  rewrite fwrite_over; [|intros E; rewrite E, zlen_nil in Hh; lia|done|done|].
  - cbn [try_bind default mbind res_bind]. rewrite Hh. unfold whole_file. fold h D. reflexivity.
  - unfold rest_bytes. rewrite !zlen_app, zlen_descs_bytes, !zlen_replicate. change (zlen []) with 0. fold F D. lia.
Qed.

(** * What the reader finds *)

(** The reader [r] at the position [p] of the file [c]. *)
Definition rat (c : bytes) (p : Z) (r : RecordFileReader) : RecordFileReader := set_rd_fp (mkFile c p) r.

Lemma Read_rat c p b n r : bytes_at c p b -> n = zlen b -> Read_file n (rat c p r) = Ok (b, rat c (p + n) r).
Proof.
  intros (pre & post & -> & ->) ->. unfold Read_file. destruct (Z.eqb_spec (zlen b) 0) as [E|E].
  - destruct b as [|x b]; [by rewrite Z.add_0_r|]. rewrite zlen_cons in E. pose proof (zlen_nonneg b). lia.
  - change (rd_fp (rat (pre ++ b ++ post) (zlen pre) r)) with (mkFile (pre ++ b ++ post) (zlen pre)). rewrite fread_app by (done || by intros ->). done.
Qed.

Lemma Seek_rat off c p r : off < 2 ^ 63 -> Seek_file off (rat c p r) = Ok (Some (rat c off r)).
Proof. intros H. unfold Seek_file, fseek_u64. by rewrite (proj2 (Z.ltb_lt _ _) H). Qed.

Lemma read_attrs_ok c l : forall p r, fh_attr_size (header_ r) = attr_size + 16 -> attr_size + 16 < 2 ^ 63 ->
  Forall (fun f => zlen (fa_attr f) = attr_size /\ desc_ok (fa_ids f)) l -> bytes_at c p (enc_array (FileAttr_codec attr_size) l) ->
  read_attrs attr_size (length l) (rat c p r) = Ok (l, rat c (p + zlen l * (attr_size + 16)) r).
Proof.
  induction l as [|f l IH]; intros p r Hh Hlt Hl Hat; cbn [read_attrs length]; [by rewrite Z.add_0_r|].
  apply Forall_cons_1 in Hl as [[Hf1 Hf2] Hl]. cbn [enc_array] in Hat. apply bytes_at_split in Hat as [H1 H2]. rewrite zlen_file_attr in H2.
  change (fh_attr_size (header_ (rat c p r))) with (fh_attr_size (header_ r)). rewrite Hh.
  rewrite (Read_rat _ _ _ _ _ H1) by (by rewrite zlen_file_attr). cbn [mbind res_bind].
  change (fh_attr_size (header_ (rat c (p + (attr_size + 16)) r))) with (fh_attr_size (header_ r)). rewrite Hh. change (sizeof SectionDesc_codec) with 16.
  replace (attr_size + 16 - 16) with attr_size by lia. rewrite u64_small by (unfold is_u64; lia). rewrite Z.min_id.
  assert (enc (FileAttr_codec attr_size) f = fa_attr f ++ enc SectionDesc_codec (fa_ids f)) as Ee.
  { cbn [enc FileAttr_codec struct_codec pair_codec raw_codec fst snd]. by rewrite ztake_app_exact. }
  assert (zlen (enc SectionDesc_codec (fa_ids f)) = 16) as H16 by (by rewrite enc_len). rewrite Ee.
  pose proof (mem_read_app [] (fa_attr f) (enc SectionDesc_codec (fa_ids f)) 0 attr_size eq_refl ltac:(done)) as E0. cbn [app] in E0.
  rewrite E0. cbn [mbind res_bind].
  pose proof (mem_write_app [] (fa_attr f) (replicate (Z.to_nat attr_size) 0) 0 eq_refl ltac:(rewrite zlen_replicate; lia)) as Ew. cbn [app] in Ew.
  rewrite Ew, zdrop_ge, app_nil_r by (rewrite zlen_replicate; lia). cbn [mbind res_bind].
  pose proof (mem_read_app (fa_attr f) (enc SectionDesc_codec (fa_ids f)) [] attr_size 16 ltac:(done) ltac:(done)) as Er. rewrite app_nil_r in Er.
  rewrite Er. cbn [mbind res_bind]. rewrite IH by done. cbn [mbind res_bind]. rewrite dec_enc by done. rewrite zlen_cons. destruct f as [fa fi]. cbn [fa_attr fa_ids].
  replace (p + (attr_size + 16) + zlen l * (attr_size + 16)) with (p + (1 + zlen l) * (attr_size + 16)) by ring. done.
Qed.

Lemma read_ids_ok c attrs0 : forall i off p r,
  Forall (fun a => Forall is_u64 (snd a)) attrs0 -> 0 <= off -> off + zlen (ids_bytes attrs0) < 2 ^ 63 -> bytes_at c off (ids_bytes attrs0) ->
  exists p', read_ids i (file_attrs off attrs0) (rat c p r) =
    Ok (Some (rat c p' (set_ids (event_ids_for_file_attrs_ r ++ (snd <$> attrs0))
      (snd (foldl (fun '(j, m) a => (j + 1, add_ids j (snd a) m)) (i, event_id_to_attr_map_ r) attrs0)) r))).
Proof.
  induction attrs0 as [|a l IH]; intros i off p r Hl Hoff Hlt Hat; cbn [file_attrs read_ids].
  { exists p. rewrite app_nil_r. by destruct r. }
  apply Forall_cons_1 in Hl as [Ha Hl]. rewrite zlen_ids_bytes_cons in Hlt. pose proof (zlen_nonneg (ids_bytes l)). pose proof (zlen_nonneg (snd a)).
  change (ids_bytes (a :: l)) with (enc_array uint64_t (snd a) ++ ids_bytes l) in Hat. apply bytes_at_split in Hat as [H1 H2]. rewrite zlen_enc_array_u64 in H2.
  unfold ReadIdsForAttr. cbn [fa_ids sec_size sec_offset]. rewrite Seek_rat by lia. cbn [try_bind].
  rewrite (Read_rat _ _ _ _ _ H1) by (by rewrite zlen_enc_array_u64). cbn [mbind res_bind]. rewrite Z.div_mul by lia. rewrite Z.ltb_irrefl. cbn [try_bind].
  assert (Z.to_nat (zlen (snd a)) = length (snd a)) as -> by (unfold zlen; lia). rewrite (dec_enc_array uint64_t is_u64) by done.
  match goal with |- context [read_ids _ _ ?s] => replace s with
    (rat c (off + zlen (snd a) * 8) (set_ids (event_ids_for_file_attrs_ r ++ [snd a]) (add_ids i (snd a) (event_id_to_attr_map_ r)) r)) by done end.
  destruct (IH (i + 1) (off + zlen (snd a) * 8) (off + zlen (snd a) * 8) (set_ids (event_ids_for_file_attrs_ r ++ [snd a]) (add_ids i (snd a) (event_id_to_attr_map_ r)) r))
    as [p' E]; [done|lia|lia|done|]. exists p'. rewrite E. cbn [set_ids event_ids_for_file_attrs_ event_id_to_attr_map_ foldl].
  rewrite fmap_cons, <- app_assoc. done.
Qed.

Lemma read_descriptors_ok c m : forall p r, Forall (fun kd => desc_ok (snd kd)) m -> bytes_at c p (descs_bytes m) ->
  read_descriptors (keys m) (rat c p r) = Ok (rat c (p + zlen m * 16) (set_descriptors (feature_section_descriptors_ r ++ m) r)).
Proof.
  induction m as [|[k d] m IH]; intros p r Hm Hat; cbn [fmap list_fmap fst read_descriptors].
  { rewrite Z.add_0_r, app_nil_r. by destruct r. }
  apply Forall_cons_1 in Hm as [Hd Hm]. cbn [snd] in Hd. unfold descs_bytes in Hat. cbn [fmap list_fmap snd enc_array] in Hat.
  apply bytes_at_split in Hat as [H1 H2]. change (sizeof SectionDesc_codec) with 16.
  assert (zlen (enc SectionDesc_codec d) = 16) as H16 by (by rewrite enc_len). rewrite H16 in H2.
  rewrite (Read_rat _ _ _ _ _ H1) by done. cbn [mbind res_bind]. rewrite dec_enc by done.
  change (set_descriptors ?x (rat c ?q r)) with (rat c q (set_descriptors x r)).
  rewrite IH by done. cbn [feature_section_descriptors_ set_descriptors rat set_rd_fp]. rewrite zlen_cons, <- app_assoc. cbn [app].
  unfold rat, set_rd_fp, set_descriptors. cbn. do 3 f_equal. lia.
Qed.

Context (attr_view : bytes -> perf_event_attr).

(** The event ids as [ReadAttrSection] collects them. *)
Definition ids_map : gmap Z Z :=
  snd (foldl (fun '(j, m) a => (j + 1, add_ids j (snd a) m)) (0, ∅) attrs).

(** The positions of event ids in records; a file with one attr does not need them. *)
Definition event_id_pos (pos : Z * Z) : Prop :=
  if 1 <? zlen attrs then GetCommonEventIdPositionsForAttrs ((fun a => attr_view (fst a)) <$> attrs) = Ok (Some pos) else pos = (0, 0).

(** The reader of the file, at the position [p]. *)
Definition opened (bits : bytes) (pos : Z * Z) (p : Z) : RecordFileReader :=
  mkReader (mkFile (whole_file bits) p) (whole_header bits) (file_attrs 104 attrs) (snd <$> attrs) ids_map file_descs (fst pos) (snd pos) None 0.

Lemma whole_parts bits :
  bytes_at (whole_file bits) 0 (enc FileHeader_codec (whole_header bits)) /\ bytes_at (whole_file bits) 104 (ids_bytes attrs) /\
  bytes_at (whole_file bits) (104 + zlen (ids_bytes attrs)) (attrs_bytes 104 attrs) /\
  bytes_at (whole_file bits) data_off (data_section recs) /\ bytes_at (whole_file bits) features_off (descs_bytes file_descs) /\
  (zlen file_descs <= count -> bytes_at (whole_file bits) (features_off + count * 16) (features_bytes feats)).
Proof.
  assert (bytes_at (whole_file bits) 0 (whole_file bits)) as H by (exists [], []; by rewrite app_nil_r). unfold whole_file in H at 2. apply bytes_at_split in H as [H1 H].
  assert (zlen (enc FileHeader_codec (whole_header bits)) = 104) as E by (by rewrite enc_len). rewrite E, Z.add_0_l in H. unfold attr_section in H.
  rewrite <- app_assoc in H. apply bytes_at_split in H as [H2 H]. apply bytes_at_split in H as [H3 H]. apply bytes_at_split in H as [H4 H].
  apply bytes_at_split in H as [H5 H]. unfold features_off, data_off, attr_section. rewrite zlen_app, Z.add_assoc. split_and!; try done.
  intros Hc. unfold rest_bytes in H. apply bytes_at_split in H as [_ H]. rewrite zlen_descs_bytes, zlen_replicate in H.
  replace (104 + zlen (ids_bytes attrs) + zlen (attrs_bytes 104 attrs) + zlen (data_section recs) + count * 16) with
    (104 + zlen (ids_bytes attrs) + zlen (attrs_bytes 104 attrs) + zlen (data_section recs) + zlen file_descs * 16 +
      Z.of_nat (Z.to_nat (count * 16 - zlen file_descs * 16))) by lia. done.
Qed.

Lemma feature_descs_ok l : forall off, 0 <= off -> off + zlen (features_bytes l) < 2 ^ 64 -> Forall (fun kd => desc_ok (snd kd)) (feature_descs off l).
Proof.
  unfold features_bytes. induction l as [|f l IH]; intros off Ho Hl; [by apply Forall_nil_2|]. rewrite fmap_cons in Hl. cbn [concat] in Hl. rewrite zlen_app in Hl.
  pose proof (zlen_nonneg (feature_data f)). pose proof (zlen_nonneg (concat (feature_data <$> l))). cbn [feature_descs].
  apply Forall_cons_2; [|apply IH; lia]. cbn. unfold desc_ok, is_u64. cbn. lia.
Qed.

Lemma file_attrs_ok l : forall off, Forall (fun a => zlen (fst a) = attr_size) l -> 0 <= off -> off + zlen (ids_bytes l) < 2 ^ 64 ->
  Forall (fun f => zlen (fa_attr f) = attr_size /\ desc_ok (fa_ids f)) (file_attrs off l).
Proof.
  induction l as [|a l IH]; intros off Hl Ho Hb; [by apply Forall_nil_2|]. apply Forall_cons_1 in Hl as [Ha Hl]. rewrite zlen_ids_bytes_cons in Hb.
  pose proof (zlen_nonneg (ids_bytes l)). pose proof (zlen_nonneg (snd a)). cbn [file_attrs].
  apply Forall_cons_2; [|apply IH; [done|lia|lia]]. cbn. unfold desc_ok, is_u64. cbn. split; [done|lia].
Qed.

Lemma length_file_attrs l : forall off, length (file_attrs off l) = length l.
Proof. induction l as [|a l IH]; intros off; [done|]. cbn. by rewrite IH. Qed.

Lemma fa_attr_file_attrs l : forall off, fa_attr <$> file_attrs off l = fst <$> l.
Proof. induction l as [|a l IH]; intros off; [done|]. cbn. by rewrite IH. Qed.

Lemma whole_sizes : whole_ok ->
  0 <= count /\ 104 <= data_off <= features_off /\ features_off + count * 16 + zlen (features_bytes feats) <= disk /\
  data_off = 104 + zlen (ids_bytes attrs) + zlen attrs * (attr_size + 16) /\ 1 <= zlen attrs /\ 0 <= zlen (ids_bytes attrs).
Proof.
  intros [[Hne _] _ _ Hc Hs]. pose proof (zlen_nonneg feats). pose proof (zlen_nonneg (ids_bytes attrs)). pose proof (zlen_nonneg (data_section recs)).
  pose proof (zlen_pos attrs Hne). assert (data_off = 104 + zlen (ids_bytes attrs) + zlen attrs * (attr_size + 16)) as E
    by (unfold data_off, attr_section; rewrite zlen_app, zlen_attrs_bytes; lia).
  unfold features_off in *. split_and!; try lia; nia.
Qed.

Lemma CreateInstance_ok bits pos undef : whole_ok -> length bits = 32%nat -> header_features bits = keys file_descs -> event_id_pos pos ->
  CreateInstance attr_size attr_view (mkFile (whole_file bits) 0) undef = Ok (Some (opened bits pos (features_off + zlen file_descs * 16))).
Proof.
  intros Hok Hbits Hkeys Hpos. pose proof (file_descs_spec Hok) as (M1 & M2 & _ & _ & _). destruct (whole_sizes Hok) as (Z1 & Z2 & Z3 & Z4 & Z5 & Z6).
  destruct (whole_parts bits) as (P1 & P2 & P3 & P4 & P5 & _). set (c := whole_file bits) in *. destruct Hok as [[Hne Ha] _ [Hnd _] Hc _].
  pose proof (zlen_nonneg (features_bytes feats)). unfold CreateInstance, ReadHeader. change (sizeof FileHeader_codec) with 104.
  change (RecordFileReader_new (mkFile c 0) undef) with (rat c 0 (RecordFileReader_new (mkFile c 0) undef)).
  rewrite (Read_rat _ _ _ _ _ P1) by (by rewrite enc_len). cbn [mbind res_bind].
  assert (file_header_ok (whole_header bits)) as Hh.
  { split; cbn; unfold desc_ok, is_u64; cbn; [done|nia|rewrite zlen_attrs_bytes; nia|unfold features_off in *; pose proof (zlen_nonneg (data_section recs)); lia|lia|].
    unfold zlen. by rewrite Hbits. }
  rewrite dec_enc by done. rewrite bool_decide_true by done. cbn [negb try_bind].
  set (r1 := set_file_header (whole_header bits) (RecordFileReader_new (mkFile c 0) undef)).
  change (set_file_header (whole_header bits) (rat c (0 + 104) (RecordFileReader_new (mkFile c 0) undef))) with (rat c 104 r1).
  unfold ReadAttrSection. change (fh_attr_size (header_ (rat c 104 r1))) with (attr_size + 16). destruct (Z.eqb_spec (attr_size + 16) 0); [lia|].
  change (sec_size (fh_attrs (header_ (rat c 104 r1)))) with (zlen (attrs_bytes 104 attrs)). rewrite zlen_attrs_bytes, Z.div_mul by lia.
  destruct (Z.eqb_spec (zlen attrs) 0); [lia|]. change (sec_offset (fh_attrs (header_ (rat c 104 r1)))) with (104 + zlen (ids_bytes attrs)).
  rewrite Seek_rat by nia. cbn [try_bind]. assert (Z.to_nat (zlen attrs) = length (file_attrs 104 attrs)) as -> by (rewrite length_file_attrs; unfold zlen; lia).
  rewrite (read_attrs_ok c (file_attrs 104 attrs)); [|done|nia|apply file_attrs_ok; [eapply Forall_impl; [exact Ha|]; by intros a []|lia|nia]|exact P3].
  cbn [mbind res_bind].
  assert (((fun a => attr_view (fa_attr a)) <$> file_attrs 104 attrs) = ((fun a => attr_view (fst a)) <$> attrs)) as ->.
  { pose proof (fa_attr_file_attrs attrs 104) as E. apply (f_equal (fmap attr_view)) in E. rewrite <- !list_fmap_compose in E. exact E. }
  assert (zlen (file_attrs 104 attrs) = zlen attrs) as El by (unfold zlen; by rewrite length_file_attrs). rewrite El.
  assert ((if 1 <? zlen attrs then GetCommonEventIdPositionsForAttrs ((fun a => attr_view (fst a)) <$> attrs) else Ok (Some (0, 0))) = Ok (Some pos)) as ->
    by (unfold event_id_pos in Hpos; destruct (1 <? zlen attrs); [done|by rewrite Hpos]).
  cbn [try_bind]. set (q := 104 + zlen (ids_bytes attrs) + zlen attrs * (attr_size + 16)).
  change (set_attrs (file_attrs 104 attrs) pos (rat c q r1)) with (rat c q (set_attrs (file_attrs 104 attrs) pos r1)).
  destruct (read_ids_ok c attrs 0 104 q (set_attrs (file_attrs 104 attrs) pos r1)) as [p' ->]; [eapply Forall_impl; [exact Ha|]; by intros a []|lia|nia|exact P2|].
  cbn [try_bind]. set (r2 := set_ids _ _ _). unfold ReadFeatureSectionDescriptors. change (fh_features (header_ (rat c p' r2))) with bits. rewrite Hkeys.
  change (sec_offset (fh_data (header_ (rat c p' r2)))) with data_off. change (sec_size (fh_data (header_ (rat c p' r2)))) with (zlen (data_section recs)).
  fold features_off. rewrite u64_small by (unfold is_u64; lia). rewrite Seek_rat by lia. cbn [try_bind].
  rewrite read_descriptors_ok; [done| |exact P5].
  unfold file_descs. destruct (add_features_spec (feature_descs (features_off + count * 16) feats) []) as (_ & Hp & _).
  - by rewrite feature_descs_keys.
  - done.
  - constructor.
  - rewrite Hp, app_nil_r. apply feature_descs_ok; lia.
Qed.

(** ** Records *)

Context (junk : nat -> Z) (undef : SampleRecord).

(** The reader [r] at the position [p], with [n] bytes of the data section read. *)
Definition rpos (c : bytes) (p n : Z) (r : RecordFileReader) : RecordFileReader :=
  mkReader (mkFile c p) (header_ r) (file_attrs_ r) (event_ids_for_file_attrs_ r) (event_id_to_attr_map_ r) (feature_section_descriptors_ r)
    (event_id_pos_in_sample_records_ r) (event_id_reverse_pos_in_non_sample_records_ r) (record_cache_ r) n.

Lemma Read_rpos c p b k n r : bytes_at c p b -> k = zlen b -> Read_file k (rpos c p n r) = Ok (b, rpos c (p + k) n r).
Proof. exact (Read_rat c p b k (rpos c p n r)). Qed.

Lemma add_read_size_rpos k c p n r : is_u64 (n + k) -> add_read_size k (rpos c p n r) = rpos c p (n + k) r.
Proof. intros H. unfold add_read_size, rpos. cbn. by rewrite u64_small. Qed.

Lemma rpos_eq c p p' n n' r : p = p' -> n = n' -> rpos c p n r = rpos c p' n' r.
Proof. by intros -> ->. Qed.

Definition record_tail (r : Record_) : bytes := zdrop 8 (record_binary r).

Lemma record_binary_split r : writable r ->
  record_binary r = header_bytes (header r) ++ record_tail r /\ zlen (record_tail r) = size (header r) - 8.
Proof.
  intros Hr. pose proof (zlen_record_binary r Hr) as Hz. destruct Hr as [_ Hs (pre & post & E & Hp) _ _].
  assert (pre = []) as -> by (destruct pre; [done|]; rewrite zlen_cons in Hp; pose proof (zlen_nonneg pre); lia). cbn [app] in E.
  pose proof (zlen_header_bytes (header r)) as H8. unfold record_tail. split; [|rewrite zlen_zdrop; lia].
  rewrite <- (ztake_zdrop 8 (record_binary r)) at 1. f_equal. unfold record_binary. rewrite E. unfold ztake. rewrite take_take.
  rewrite take_app_le by (unfold zlen in H8; lia). rewrite take_ge; [done|]. unfold zlen in H8. lia.
Qed.

Lemma header_read h b : header_ok h -> RecordHeader_read (header_bytes h ++ b) = Ok h.
Proof. intros H. apply RecordHeader_read_at; [done|apply bytes_at_intro]. Qed.

Lemma header_read_alone h : header_ok h -> RecordHeader_read (header_bytes h) = Ok h.
Proof. intros H. rewrite <- (app_nil_r (header_bytes h)). by apply header_read. Qed.

Lemma fill_new n b1 b2 : zlen b1 + zlen b2 = n ->
  exists m, mem_write (new_char junk n) 0 b1 = Ok m /\ (mem_write m (zlen b1) b2 = Ok (b1 ++ b2)) /\ (b2 = [] -> m = b1).
Proof.
  intros H. pose proof (zlen_nonneg b1). pose proof (zlen_nonneg b2). assert (zlen (new_char junk n) = n) as Hn by (apply zlen_new_char; lia).
  pose proof (mem_write_app [] b1 (new_char junk n) 0 eq_refl ltac:(lia)) as E. cbn [app] in E. rewrite E. eexists. split; [done|].
  assert (zlen (zdrop (zlen b1) (new_char junk n)) = zlen b2) as Hd by (rewrite zlen_zdrop; lia). split.
  - rewrite mem_write_app by (done || lia). rewrite (zdrop_ge (zlen b2)) by lia. by rewrite app_nil_r.
  - intros ->. rewrite zlen_nil in *. rewrite zdrop_ge by lia. by rewrite app_nil_r.
Qed.

(** A long record is put together from its pieces. *)
Lemma read_split_pieces c fuel : forall fuel' b buf p n r,
  zlen b <= Z.of_nat fuel -> (fuel <= fuel')%nat -> 0 < zlen b -> 0 <= n ->
  bytes_at c p (concat (piece_bytes <$> pieces fuel b) ++ header_bytes split_end) -> n + zlen (concat (piece_bytes <$> pieces fuel b)) < 2 ^ 64 ->
  let k := zlen (concat (piece_bytes <$> pieces fuel b)) in
  read_split fuel' (split_header (Z.min PIECE (zlen b))) buf (rpos c (p + 8) n r) =
    Ok (buf ++ b, split_end, rpos c (p + k + 8) (n + k) r).
Proof.
  induction fuel as [|fuel IH]; intros fuel' b buf p n r Hf Hf' Hb Hn Hat Hk k; [lia|]. destruct fuel' as [|fuel']; [lia|].
  cbn [read_split]. change (type (split_header _) =? SIMPLE_PERF_RECORD_SPLIT) with true. cbv iota.
  unfold k in *. clear k. rewrite piece_step in * by done. set (t := ztake PIECE b) in *. set (d := zdrop PIECE b) in *. set (rest := concat _) in *.
  assert (zlen t = Z.min PIECE (zlen b)) as Ht by (unfold t; apply zlen_ztake_min; unfold PIECE; lia).
  assert (zlen d = zlen b - Z.min PIECE (zlen b)) as Hd by (pose proof (f_equal zlen (ztake_zdrop PIECE b)) as E; rewrite zlen_app in E; fold t d in E; lia).
  assert (b = t ++ d) as Eb by (symmetry; apply ztake_zdrop).
  change (size (split_header ?x)) with (x + 8). rewrite <- Ht. change header_size with 8. replace (zlen t + 8 - 8) with (zlen t) by lia.
  assert (0 < zlen t <= PIECE) as Htp by (rewrite Ht; unfold PIECE; lia). unfold PIECE in Htp.
  rewrite u64_small by (unfold is_u64; lia). rewrite <- app_assoc in Hat. apply bytes_at_split in Hat as [H1 H2]. unfold piece_bytes in H1 at 1.
  apply bytes_at_split in H1 as [_ H1]. rewrite zlen_header_bytes in H1. rewrite zlen_piece_bytes in H2. rewrite zlen_app, zlen_piece_bytes in *.
  pose proof (zlen_nonneg rest). rewrite (Read_rpos _ _ _ _ _ _ H1) by done. cbn [mbind res_bind]. rewrite add_read_size_rpos by (unfold is_u64; lia).
  destruct (Z.le_gt_cases (zlen d) 0) as [H0|H0].
  - assert (d = []) as Ed by (destruct d; [done|]; rewrite zlen_cons in H0; pose proof (zlen_nonneg d); lia).
    assert (rest = []) as Er by (unfold rest; rewrite Ed; by destruct fuel). rewrite Er in *. cbn [app] in H2.
    rewrite (Read_rpos c (p + 8 + zlen t) (header_bytes split_end)) by (rewrite ?zlen_header_bytes; done || (by replace (p + 8 + zlen t) with (p + (8 + zlen t)) by lia)).
    cbn [mbind res_bind]. rewrite header_read_alone by apply split_end_ok. cbn [mbind res_bind].
    assert (forall f b r, read_split f split_end b r = Ok (b, split_end, r)) as -> by (by intros []).
    rewrite Eb, Ed, !app_nil_r, zlen_nil, Z.add_0_r. do 2 f_equal. apply rpos_eq; lia.
  - pose proof (zlen_pos d) as _. destruct fuel as [|fuel]; [lia|]. unfold rest in H2. rewrite piece_step in H2 by lia. rewrite <- app_assoc in H2.
    set (t2 := ztake PIECE d) in *. pose proof H2 as H3. apply bytes_at_split in H3 as [H3 _]. unfold piece_bytes in H3 at 1. apply bytes_at_split in H3 as [H3 _].
    assert (zlen t2 = Z.min PIECE (zlen d)) as Ht2 by (unfold t2; apply zlen_ztake_min; unfold PIECE; lia).
    rewrite (Read_rpos c (p + 8 + zlen t) (header_bytes (split_header (zlen t2)))) by (rewrite ?zlen_header_bytes; done || (by replace (p + 8 + zlen t) with (p + (8 + zlen t)) by lia)).
    cbn [mbind res_bind]. rewrite header_read_alone by (apply split_header_ok; unfold PIECE in *; lia). cbn [mbind res_bind]. rewrite Ht2.
    replace (p + 8 + zlen t + 8) with (p + (8 + zlen t) + 8) by lia.
    rewrite (IH fuel' d (buf ++ t) (p + (8 + zlen t)) (n + (zlen t + 8)) r); [|unfold PIECE in *; lia|lia|done|lia| |fold rest; lia].
    + fold rest. rewrite <- app_assoc, <- Eb. do 2 f_equal. apply rpos_eq; lia.
    + rewrite piece_step by lia. by rewrite <- app_assoc.
Qed.

Lemma pieces_len fuel : forall b, zlen b <= Z.of_nat fuel -> zlen b <= zlen (concat (piece_bytes <$> pieces fuel b)).
Proof.
  induction fuel as [|fuel IH]; intros b Hb; [pose proof (zlen_nonneg (concat (piece_bytes <$> pieces 0 b))); lia|].
  destruct (Z.le_gt_cases (zlen b) 0) as [H0|H0]; [pose proof (zlen_nonneg (concat (piece_bytes <$> pieces (S fuel) b))); lia|].
  rewrite piece_step, zlen_app, zlen_piece_bytes by lia. pose proof (f_equal zlen (ztake_zdrop PIECE b)) as E. rewrite zlen_app in E.
  assert (zlen (ztake PIECE b) = Z.min PIECE (zlen b)) as Ht by (apply zlen_ztake_min; unfold PIECE; lia). unfold PIECE in Ht, E.
  specialize (IH (zdrop PIECE b)). unfold PIECE in *. lia.
Qed.

Lemma zlen_stored_bytes r : writable r -> 8 <= zlen (stored_bytes r).
Proof.
  intros Hr. pose proof (zlen_record_binary r Hr) as Hz. destruct Hr as [_ Hs _ _ _]. unfold stored_bytes.
  destruct (_ <=? _); [lia|]. rewrite zlen_app, zlen_header_bytes. pose proof (zlen_nonneg (concat (piece_bytes <$> pieces (length (record_binary r)) (record_binary r)))). lia.
Qed.

(** The bytes of a record are read back from what the writer stored for it. *)
Lemma ReadRecordBytes_stored rec c p n r : writable rec -> bytes_at c p (stored_bytes rec) -> 0 <= n -> n + zlen (stored_bytes rec) < 2 ^ 64 ->
  ReadRecordBytes junk (rpos c p n r) = Ok (Some (header rec, record_binary rec, rpos c (p + zlen (stored_bytes rec)) (n + zlen (stored_bytes rec)) r)).
Proof.
  intros Hr Hat Hn Hlt. pose proof (zlen_record_binary rec Hr) as Hz. destruct (record_binary_split rec Hr) as [Eb Ht].
  pose proof (bytes_at_bound _ _ _ Hat) as [Hp Hc]. destruct Hr as [Hh Hs _ Hty _]. unfold ReadRecordBytes, stored_bytes in *. change header_size with 8 in *.
  destruct (Z.leb_spec (size (header rec)) RECORD_SIZE_LIMIT) as [Hle|Hgt].
  - rewrite Hz in *. rewrite Eb in Hat. apply bytes_at_split in Hat as [H1 H2]. rewrite zlen_header_bytes in H2.
    rewrite (Read_rpos _ _ _ _ _ _ H1) by (by rewrite zlen_header_bytes). cbn [mbind res_bind].
    rewrite header_read_alone by done. cbn [mbind res_bind]. rewrite (proj2 (Z.eqb_neq _ _) Hty).
    destruct (fill_new (size (header rec)) (header_bytes (header rec)) (record_tail rec)) as (m & -> & E2 & E3); [rewrite zlen_header_bytes; lia|]. cbn [mbind res_bind].
    rewrite zlen_header_bytes in E2. destruct (Z.ltb_spec 8 (size (header rec))) as [H8|H8].
    + rewrite (Read_rpos _ _ _ _ _ _ H2) by lia. cbn [mbind res_bind]. rewrite E2. cbn [mbind res_bind].
      rewrite add_read_size_rpos by (unfold is_u64; lia). rewrite <- Eb. do 3 f_equal. apply rpos_eq; lia.
    + assert (record_tail rec = []) as E0 by (destruct (record_tail rec) as [|x l]; [done|]; rewrite zlen_cons in Ht; pose proof (zlen_nonneg l); lia).
      cbn [mbind res_bind]. rewrite add_read_size_rpos by (unfold is_u64; lia). rewrite E3 by done. rewrite Eb, E0, app_nil_r. do 3 f_equal. apply rpos_eq; lia.
  - set (b := record_binary rec) in *. assert (RECORD_SIZE_LIMIT = 65535) as HL by done. rewrite HL in Hgt.
    pose proof (pieces_len (length b) b ltac:(unfold zlen; lia)) as Hpl. set (out := concat _) in *. rewrite zlen_app, zlen_header_bytes in *.
    assert (bytes_at c p (header_bytes (split_header (Z.min PIECE (zlen b))))) as H1.
    { unfold out in Hat. destruct (length b) as [|f] eqn:El; [unfold zlen in Hz; lia|]. rewrite piece_step, <- app_assoc in Hat by lia.
      apply bytes_at_split in Hat as [H1 _]. unfold piece_bytes in H1. apply bytes_at_split in H1 as [H1 _].
      rewrite zlen_ztake_min in H1 by (unfold PIECE; lia). done. }
    rewrite (Read_rpos _ _ _ _ _ _ H1) by (by rewrite zlen_header_bytes). cbn [mbind res_bind].
    rewrite header_read_alone by (apply split_header_ok; unfold PIECE; lia). cbn [mbind res_bind].
    change (type (split_header _) =? SIMPLE_PERF_RECORD_SPLIT) with true. cbv iota. change (content (rd_fp (rpos c (p + 8) n r))) with c.
    rewrite (read_split_pieces c (length b) (length c) b [] p n r); [|unfold zlen; lia|unfold zlen in *; lia|lia|lia|done|fold out; lia].
    fold out. cbn [app mbind res_bind]. change (negb (type split_end =? SIMPLE_PERF_RECORD_SPLIT_END)) with false. cbv iota. change (size split_end) with 8.
    rewrite add_read_size_rpos by (unfold is_u64; lia). rewrite Eb, header_read by done. cbn [mbind res_bind]. rewrite <- Eb.
    destruct (fill_new (size (header rec)) b []) as (m & -> & _ & E3); [rewrite zlen_nil; lia|]. cbn [mbind res_bind]. rewrite E3 by done.
    do 3 f_equal. apply rpos_eq; lia.
Qed.

(** ** All records *)

(** What the records mean to a reader: each is parsed with its attr. *)
Definition parse_one (rec : Record_) (r : RecordFileReader) : res (AnyRecord * RecordFileReader) :=
  attr ← attr_of_record (header rec) (record_binary rec) r;
  a ← ReadRecordFromOwnedBuffer undef (attr_view (fa_attr attr)) (type (header rec)) (record_binary rec);
  process_read a r.
Fixpoint parse_all (l : list Record_) (r : RecordFileReader) : res (list AnyRecord * RecordFileReader) :=
  match l with
  | [] => Ok ([], r)
  | rec :: l =>
      '(a, r) ← parse_one rec r;
      '(as_, r) ← parse_all l r;
      Ok (a :: as_, r)
  end.

(** [process_read] changes nothing but the event ids, and looks at nothing else. *)
Definition off_ids (g : RecordFileReader -> RecordFileReader) : Prop :=
  forall r, event_ids_for_file_attrs_ (g r) = event_ids_for_file_attrs_ r /\ event_id_to_attr_map_ (g r) = event_id_to_attr_map_ r /\
    forall ids m, g (set_ids ids m r) = set_ids ids m (g r).

Lemma process_read_frame g a r : off_ids g -> process_read a (g r) = ('(a', r') ← process_read a r; Ok (a', g r')).
Proof.
  intros Hg. destruct a as [| | | | | |s| | | | |e| | |]; try done; cbn [process_read]; [by destruct (trim_callchain s)|].
  unfold ProcessEventIdRecord. generalize 0 as i. induction (Z.to_nat (eid_count e)) as [|k IH] in r |- *; intros i; [done|].
  cbn [process_event_ids]. destruct (deref _ _ _) as [d| |]; [|done..]. cbn [mbind res_bind].
  destruct (Hg r) as (-> & -> & Hs). destruct (_ !! _) as [ids|]; [|done]. rewrite <- Hs. apply IH.
Qed.

Lemma parse_one_set_cache k rec r : parse_one rec (set_cache k r) = ('(a, r') ← parse_one rec r; Ok (a, set_cache k r')).
Proof.
  unfold parse_one. change (attr_of_record (header rec) (record_binary rec) (set_cache k r)) with (attr_of_record (header rec) (record_binary rec) r).
  destruct (attr_of_record _ _ r) as [attr| |]; [|done..]. cbn [mbind res_bind].
  destruct (ReadRecordFromOwnedBuffer _ _ _ _) as [x| |]; [|done..]. cbn [mbind res_bind]. by apply (process_read_frame (set_cache k)).
Qed.

Lemma parse_all_set_cache k l : forall r, parse_all l (set_cache k r) = ('(a, r') ← parse_all l r; Ok (a, set_cache k r')).
Proof.
  induction l as [|rec l IH]; intros r; [done|]. cbn [parse_all]. rewrite parse_one_set_cache. destruct (parse_one rec r) as [[a r1]| |]; [|done..].
  cbn [mbind res_bind]. rewrite IH. by destruct (parse_all l r1) as [[as_ r2]| |].
Qed.

Lemma parse_one_keeps rec r a r' : parse_one rec r = Ok (a, r') -> header_ r' = header_ r /\ record_cache_ r' = record_cache_ r.
Proof.
  unfold parse_one. destruct (attr_of_record _ _ r) as [attr| |]; [|done..]. cbn [mbind res_bind].
  destruct (ReadRecordFromOwnedBuffer _ _ _ _) as [x| |]; [|done..]. cbn [mbind res_bind].
  destruct x as [| | | | | |s| | | | |e| | |]; cbn [process_read]; try (intros [= _ ->]; done).
  - destruct (trim_callchain s); [|done..]. cbn [mbind res_bind]. by intros [= _ ->].
  - unfold ProcessEventIdRecord. generalize 0 as i. induction (Z.to_nat (eid_count e)) as [|k IH] in r |- *; intros i; cbn [process_event_ids].
    { cbn [mbind res_bind]. by intros [= _ ->]. }
    destruct (deref _ _ _) as [d| |]; [|done..]. cbn [mbind res_bind]. destruct (_ !! _) as [ids|]; [|done]. intros E. by apply IH in E.
Qed.

(** [ReadRecord(record, sorted)] behind its first lines. *)
Definition ReadRecord_more (sorted : bool) (r : RecordFileReader) : res (option (option AnyRecord * RecordFileReader)) :=
  '(record, r) ←? read_record_loop attr_view junk undef (Z.to_nat (sec_size (fh_data (header_ r)))) sorted r;
  match record with
  | Some a => Ok (Some (Some a, r))
  | None =>
      match record_cache_ r with
      | None => OutOfBounds
      | Some c => let '(c, o) := ForcedPop c in Ok (Some (o, set_cache c r))
      end
  end.

Lemma ReadRecord_more_stored rec c p n r a r' :
  writable rec -> bytes_at c p (stored_bytes rec) -> 0 <= n -> n < sec_size (fh_data (header_ r)) -> n + zlen (stored_bytes rec) < 2 ^ 64 ->
  parse_one rec r = Ok (a, r') ->
  ReadRecord_more false (rpos c p n r) = Ok (Some (Some a, rpos c (p + zlen (stored_bytes rec)) (n + zlen (stored_bytes rec)) r')).
Proof.
  intros Hr Hat Hn Hlt H64 Hp. unfold ReadRecord_more. change (header_ (rpos c p n r)) with (header_ r).
  destruct (Z.to_nat (sec_size (fh_data (header_ r)))) as [|fuel] eqn:Ef; [lia|]. cbn [read_record_loop].
  change (read_record_size_ (rpos c p n r)) with n. change (header_ (rpos c p n r)) with (header_ r). rewrite (proj2 (Z.ltb_lt _ _) Hlt).
  unfold ReadRecord_next. rewrite (ReadRecordBytes_stored rec) by done. cbn [try_bind].
  set (r1 := rpos c _ _ r). change (attr_of_record (header rec) (record_binary rec) r1) with (attr_of_record (header rec) (record_binary rec) r).
  unfold parse_one in Hp. destruct (attr_of_record _ _ r) as [attr| |]; [|done..]. cbn [mbind res_bind] in *.
  destruct (ReadRecordFromOwnedBuffer _ _ _ _) as [x| |]; [|done..]. cbn [mbind res_bind try_bind] in *.
  unfold r1. rewrite (process_read_frame (rpos c _ _)), Hp by done. done.
Qed.

Abbreviation collect := (fun (a : AnyRecord) (l : list AnyRecord) => @Ok (option (list AnyRecord)) (Some (l ++ [a]))).

Lemma new_cache_empty (b : bool) : ForcedPop (@RecordCache_new AnyRecord b 1000 1000000) = (RecordCache_new b 1000 1000000, None).
Proof. done. Qed.

Lemma ReadRecord_file_more sorted c p n r : 0 < n ->
  ReadRecord_file attr_view junk undef sorted (rpos c p n r) = ReadRecord_more sorted (rpos c p n r).
Proof.
  intros Hn. unfold ReadRecord_file. change (read_record_size_ (rpos c p n r)) with n. rewrite (proj2 (Z.eqb_neq n 0)) by lia. done.
Qed.

Lemma read_data_section_ok b l : forall c p n r r0 acc fuel as_ r',
  Forall writable l -> bytes_at c p (data_section l) -> 0 <= n -> n + zlen (data_section l) = sec_size (fh_data (header_ r)) ->
  sec_size (fh_data (header_ r)) < 2 ^ 64 -> (length l < fuel)%nat -> record_cache_ r = Some (RecordCache_new b 1000 1000000) ->
  parse_all l r = Ok (as_, r') -> ReadRecord_file attr_view junk undef false r0 = ReadRecord_more false (rpos c p n r) ->
  read_data_section attr_view junk undef collect fuel false r0 acc =
    Ok (Some (rpos c (p + zlen (data_section l)) (n + zlen (data_section l)) r', acc ++ as_)).
Proof.
  unfold data_section. induction l as [|rec l IH]; intros c p n r r0 acc fuel as_ r' Hw Hat Hn Hsum H64 Hf Hcache Hp H0.
  - destruct fuel as [|fuel]; [cbn in Hf; lia|]. cbn [read_data_section]. rewrite H0. cbn [fmap list_fmap concat] in *. rewrite zlen_nil, Z.add_0_r in *.
    cbn [parse_all] in Hp. injection Hp as <- <-. unfold ReadRecord_more. change (header_ (rpos c p n r)) with (header_ r).
    assert (forall f, read_record_loop attr_view junk undef f false (rpos c p n r) = Ok (Some (None, rpos c p n r))) as ->.
    { intros f. destruct f; cbn [read_record_loop]; change (header_ (rpos c p n r)) with (header_ r); change (read_record_size_ (rpos c p n r)) with n;
        by rewrite (proj2 (Z.ltb_ge _ _)) by lia. }
    cbn [try_bind]. change (record_cache_ (rpos c p n r)) with (record_cache_ r). rewrite Hcache, new_cache_empty. cbn [try_bind].
    rewrite app_nil_r. do 3 f_equal. rewrite Z.add_0_r. unfold rpos at 2. by rewrite Hcache.
  - destruct fuel as [|fuel]; [cbn in Hf; lia|]. cbn [read_data_section length] in *. rewrite H0. apply Forall_cons_1 in Hw as [Hr Hw].
    rewrite fmap_cons in *. cbn [concat] in *. apply bytes_at_split in Hat as [H1 H2]. rewrite zlen_app in *. set (k := zlen (stored_bytes rec)) in *.
    pose proof (zlen_stored_bytes rec Hr) as Hk. fold k in Hk. pose proof (zlen_nonneg (concat (stored_bytes <$> l))) as Hrest.
    cbn [parse_all] in Hp. destruct (parse_one rec r) as [[a r1]| |] eqn:E1; [|done..]. cbn [mbind res_bind] in Hp.
    destruct (parse_all l r1) as [[as1 r2]| |] eqn:E2; [|done..]. cbn [mbind res_bind] in Hp. injection Hp as <- <-.
    destruct (parse_one_keeps _ _ _ _ E1) as [Hh Hc]. rewrite (ReadRecord_more_stored rec c p n r a r1) by (done || lia). cbn [try_bind]. fold k.
    rewrite (IH c (p + k) (n + k) r1 _ _ fuel as1 r2); [|done|done|lia|rewrite Hh; lia|by rewrite Hh|lia|by rewrite Hc|done|apply ReadRecord_file_more; lia].
    rewrite <- app_assoc. cbn [app]. do 3 f_equal. apply rpos_eq; lia.
Qed.

(** ** The file as a whole *)

Lemma feature_descs_at c l : forall off f, f ∈ l -> bytes_at c off (features_bytes l) -> 0 <= off ->
  exists o, (fst f, mkDesc o (zlen (feature_data f))) ∈ feature_descs off l /\ bytes_at c o (feature_data f) /\ 0 <= o <= off + zlen (features_bytes l).
Proof.
  unfold features_bytes. induction l as [|g l IH]; intros off f Hf Hat Ho; [by apply not_elem_of_nil in Hf|].
  rewrite fmap_cons in *. cbn [concat feature_descs] in *. apply bytes_at_split in Hat as [H1 H2]. rewrite zlen_app.
  pose proof (zlen_nonneg (feature_data g)). pose proof (zlen_nonneg (concat (feature_data <$> l))).
  apply elem_of_cons in Hf as [->|Hf]; [exists off; split_and!; [left|done|lia|lia]|].
  destruct (IH _ _ Hf H2) as (o & Hin & Hat & Hr); [lia|]. exists o. split_and!; [by right|done|lia|lia].
Qed.

Lemma opened_features bits pos p id parts : whole_ok -> (id, parts) ∈ feats ->
  HasFeature id (opened bits pos p) = true /\ exists r, ReadFeatureSection id (opened bits pos p) = Ok (Some (concat parts, r)).
Proof.
  intros Hok Hin. pose proof (file_descs_spec Hok) as (_ & M2 & _ & _ & M5). destruct (whole_sizes Hok) as (Z1 & Z2 & Z3 & _).
  destruct (whole_parts bits) as (_ & _ & _ & _ & _ & P6). pose proof (wh_count Hok).
  destruct (feature_descs_at _ feats (features_off + count * 16) (id, parts) Hin (P6 ltac:(lia))) as (o & Ho & Hat & Hr); [lia|].
  apply M5 in Ho. cbn [fst] in Ho. unfold HasFeature, ReadFeatureSection. change (feature_section_descriptors_ (opened bits pos p)) with file_descs. rewrite Ho. split; [done|].
  change (feature_data (id, parts)) with (concat parts) in *. cbn [sec_size sec_offset]. destruct (Z.eqb_spec (zlen (concat parts)) 0) as [E|E].
  - destruct (concat parts) as [|x l]; [by eexists|]. rewrite zlen_cons in E. pose proof (zlen_nonneg l). lia.
  - change (opened bits pos p) with (rat (whole_file bits) p (opened bits pos p)). rewrite Seek_rat by lia. cbn [try_bind].
    rewrite (Read_rat _ _ _ _ _ Hat) by done. by eexists.
Qed.

Lemma opened_no_feature bits pos p id : whole_ok -> id ∉ fst <$> feats ->
  HasFeature id (opened bits pos p) = false /\ ReadFeatureSection id (opened bits pos p) = Ok None.
Proof.
  intros Hok Hin. pose proof (file_descs_spec Hok) as (_ & _ & _ & M4 & _). rewrite <- M4 in Hin. apply find_none in Hin.
  unfold HasFeature, ReadFeatureSection. change (feature_section_descriptors_ (opened bits pos p)) with file_descs. by rewrite Hin.
Qed.

(** The state in which the data section is read. *)
Definition reading (bits : bytes) (pos : Z * Z) (p : Z) : RecordFileReader :=
  set_cache (RecordCache_new (forallb (fun a => IsTimestampSupported (attr_view (fst a))) attrs) 1000 1000000) (opened bits pos p).

Lemma forallb_file_attrs (f : bytes -> bool) l : forall off, forallb (fun a => f (fa_attr a)) (file_attrs off l) = forallb (fun a => f (fst a)) l.
Proof. induction l as [|a l IH]; intros off; [done|]. cbn. by rewrite IH. Qed.

Lemma records_len l : Forall writable l -> zlen l <= zlen (data_section l).
Proof.
  unfold data_section. induction l as [|r l IH]; intros H; [done|]. apply Forall_cons_1 in H as [Hr H].
  rewrite fmap_cons, zlen_cons. cbn [concat]. rewrite zlen_app. pose proof (zlen_stored_bytes r Hr). specialize (IH H). lia.
Qed.

Lemma ReadRecord_file_start sorted bits pos p : whole_ok ->
  ReadRecord_file attr_view junk undef sorted (opened bits pos p) = ReadRecord_more sorted (rpos (whole_file bits) data_off 0 (reading bits pos p)).
Proof.
  intros Hok. destruct (whole_sizes Hok) as (Z1 & Z2 & Z3 & _). pose proof (zlen_nonneg (features_bytes feats)).
  unfold ReadRecord_file. change (read_record_size_ (opened bits pos p) =? 0) with true. cbv iota.
  change (sec_offset (fh_data (header_ (opened bits pos p)))) with data_off. change (opened bits pos p) with (rat (whole_file bits) p (opened bits pos p)) at 1.
  rewrite Seek_rat by lia. cbn [try_bind]. change (file_attrs_ (rat (whole_file bits) data_off (opened bits pos p))) with (file_attrs 104 attrs).
  rewrite (forallb_file_attrs (fun b => IsTimestampSupported (attr_view b))). done.
Qed.

Lemma opened_records bits pos p as_ r' : whole_ok -> parse_all recs (opened bits pos p) = Ok (as_, r') ->
  exists r, ReadDataSection attr_view junk undef collect false (opened bits pos p) [] = Ok (Some (r, as_)).
Proof.
  intros Hok Hp. destruct (whole_sizes Hok) as (Z1 & Z2 & Z3 & _). destruct (whole_parts bits) as (_ & _ & _ & P4 & _ & _).
  pose proof (wh_recs Hok) as Hw. pose proof (records_len recs Hw). pose proof (zlen_nonneg (features_bytes feats)). unfold ReadDataSection.
  change (sec_size (fh_data (header_ (opened bits pos p)))) with (zlen (data_section recs)).
  eexists. rewrite (read_data_section_ok (forallb (fun a => IsTimestampSupported (attr_view (fst a))) attrs) recs (whole_file bits) data_off 0 (reading bits pos p) _ [] _ as_ (set_cache (RecordCache_new (forallb (fun a => IsTimestampSupported (attr_view (fst a))) attrs) 1000 1000000) r')).
  - done.
  - done.
  - done.
  - done.
  - done.
  - change (sec_size (fh_data (header_ (reading bits pos p)))) with (zlen (data_section recs)). unfold features_off in *. lia.
  - unfold zlen in *. lia.
  - done.
  - unfold reading. by rewrite parse_all_set_cache, Hp.
  - by apply ReadRecord_file_start.
Qed.

(** ** Sorted reading *)

(** What sorted reading does to the cache for the records it parses. *)
Definition feeds (l : list AnyRecord) : list (op (R := AnyRecord)) := concat ((fun a => [OPush a; OPop]) <$> l).

(** The records [l] are still to be read, at [p], and take the cache from [s] to [s']. *)
Definition pending (c : bytes) (r' : RecordFileReader) (s' : state) (l : list Record_) (p n : Z) (r : RecordFileReader) (s : state) : Prop :=
  Forall writable l /\ bytes_at c p (data_section l) /\ 0 <= n /\ n + zlen (data_section l) = sec_size (fh_data (header_ r)) /\
  sec_size (fh_data (header_ r)) < 2 ^ 64 /\ exists as_, parse_all l r = Ok (as_, r') /\ run (feeds as_) s = Ok s'.

Lemma PopSeq_length (k k' : RecordCache (R := AnyRecord)) o : PopSeq k = Ok (k', o) -> (length (queue_ k') + length (option_list o) = length (queue_ k))%nat.
Proof.
  unfold PopSeq. destruct (_ <? _); [intros [= <- <-]; cbn; by rewrite Nat.add_0_r|]. destruct (queue_ k) as [|x q] eqn:Eq; [done|].
  destruct (extract_top x q) as [t rest] eqn:Et. apply extract_top_length in Et.
  destruct (_ && _); intros [= <- <-]; cbn; [rewrite Eq; cbn; lia|]. lia.
Qed.

(** One record is parsed, pushed, and the cache asked for a record. *)
Lemma loop_step c r' s' rec l p n r s : pending c r' s' (rec :: l) p n r s ->
  exists o r1 s1, pending c r' s' l (p + zlen (stored_bytes rec)) (n + zlen (stored_bytes rec)) r1 s1 /\ popped s1 = popped s ++ option_list o /\
    (length (queue_ (cache s1)) + length (option_list o) = S (length (queue_ (cache s))))%nat /\ header_ r1 = header_ r /\
    forall fuel, read_record_loop attr_view junk undef (S fuel) true (rpos c p n (set_cache (cache s) r)) =
      let r2 := rpos c (p + zlen (stored_bytes rec)) (n + zlen (stored_bytes rec)) (set_cache (cache s1) r1) in
      match o with Some a => Ok (Some (Some (record a), r2)) | None => read_record_loop attr_view junk undef fuel true r2 end.
Proof.
  intros (Hw & Hat & Hn & Hsum & H64 & as_ & Hp & Hrun). apply Forall_cons_1 in Hw as [Hr Hw]. unfold data_section in *. rewrite fmap_cons in *. cbn [concat] in *.
  apply bytes_at_split in Hat as [H1 H2]. rewrite zlen_app in Hsum. set (k := zlen (stored_bytes rec)) in *. pose proof (zlen_stored_bytes rec Hr) as Hk. fold k in Hk.
  pose proof (zlen_nonneg (concat (stored_bytes <$> l))). cbn [parse_all] in Hp. destruct (parse_one rec r) as [[a r1]| |] eqn:E1; [|done..].
  cbn [mbind res_bind] in Hp. destruct (parse_all l r1) as [[as1 r2]| |] eqn:E2; [|done..]. cbn [mbind res_bind] in Hp. injection Hp as <- <-.
  destruct (parse_one_keeps _ _ _ _ E1) as [Hh _]. unfold feeds in Hrun. rewrite fmap_cons in Hrun. cbn [concat app run step mbind res_bind cache] in Hrun.
  destruct (PopSeq (Push a (cache s))) as [[k1 o]| |] eqn:Ek; [|done..]. cbn [mbind res_bind] in Hrun. pose proof (PopSeq_length _ _ _ Ek) as Hq.
  eexists o, r1, _. split_and!; [split_and!; [done|done|lia|unfold data_section; rewrite Hh; lia|by rewrite Hh|by exists as1]|done| |done|].
  - cbn [cache Push queue_] in Hq |- *. rewrite length_app in Hq. cbn [length] in Hq. lia.
  - intros fuel. cbn [read_record_loop cache]. change (read_record_size_ (rpos c p n (set_cache (cache s) r))) with n.
    change (header_ (rpos c p n (set_cache (cache s) r))) with (header_ r). rewrite (proj2 (Z.ltb_lt _ _)) by lia.
    unfold ReadRecord_next. rewrite (ReadRecordBytes_stored rec) by (done || lia). fold k. cbn [try_bind]. set (q := rpos c _ _ _).
    change (attr_of_record (header rec) (record_binary rec) q) with (attr_of_record (header rec) (record_binary rec) r).
    unfold parse_one in E1. destruct (attr_of_record _ _ r) as [attr| |]; [|done..]. cbn [mbind res_bind] in *.
    destruct (ReadRecordFromOwnedBuffer _ _ _ _) as [x| |]; [|done..]. cbn [mbind res_bind try_bind] in *.
    unfold q. rewrite (process_read_frame (fun r => rpos c (p + k) (n + k) (set_cache (cache s) r))), E1 by done. cbn [mbind res_bind].
    change (record_cache_ (rpos c (p + k) (n + k) (set_cache (cache s) r1))) with (Some (cache s)). cbv iota.
    unfold Pop. rewrite Ek. cbn [fmap res_fmap mbind res_bind prod_map id fst snd option_map]. by destruct o.
Qed.

Lemma read_record_loop_sorted c r' s' l : forall p n r s fuel, pending c r' s' l p n r s -> (length l <= fuel)%nat ->
  exists o l2 p2 n2 r2 s2, pending c r' s' l2 p2 n2 r2 s2 /\ popped s2 = popped s ++ option_list o /\
    (length l2 + length (queue_ (cache s2)) + length (option_list o) = length l + length (queue_ (cache s)))%nat /\ header_ r2 = header_ r /\
    (o = None -> l2 = []) /\ (o <> None \/ l <> [] -> n < n2) /\ n <= n2 /\
    read_record_loop attr_view junk undef fuel true (rpos c p n (set_cache (cache s) r)) =
      Ok (Some (record <$> o, rpos c p2 n2 (set_cache (cache s2) r2))).
Proof.
  induction l as [|rec l IH]; intros p n r s fuel Hpend Hf.
  - exists None, [], p, n, r, s. split_and!; [done|by rewrite app_nil_r|cbn; lia|done|done|by intros []|done|].
    destruct Hpend as (_ & _ & _ & Hsum & _). cbn in Hsum. rewrite zlen_nil in Hsum.
    destruct fuel; cbn [read_record_loop]; change (header_ (rpos c p n (set_cache (cache s) r))) with (header_ r);
      change (read_record_size_ (rpos c p n (set_cache (cache s) r))) with n; by rewrite (proj2 (Z.ltb_ge _ _)) by lia.
  - cbn [length] in Hf. destruct fuel as [|fuel]; [lia|]. assert (8 <= zlen (stored_bytes rec)) as Hk.
    { destruct Hpend as (Hw & _). apply Forall_cons_1 in Hw as [Hr _]. by apply zlen_stored_bytes. }
    destruct (loop_step _ _ _ _ _ _ _ _ _ Hpend) as (o & r1 & s1 & Hp1 & Hpop & Hq & Hh & Hloop). rewrite Hloop. cbv zeta.
    destruct o as [a|].
    + eexists (Some a), l, _, _, r1, s1. split_and!; [done|done|cbn in *; lia|done|done|lia|lia|done].
    + destruct (IH _ _ _ _ fuel Hp1) as (o & l2 & p2 & n2 & r2 & s2 & H1 & H2 & H3 & H4 & H5 & H6 & H7 & H8); [lia|].
      exists o, l2, p2, n2, r2, s2. split_and!; [done|rewrite H2, Hpop; cbn; by rewrite app_nil_r|cbn in *; lia|by rewrite H4|done|lia|lia|done].
Qed.

Lemma ForcedPop_PopAll (k k' : RecordCache (R := AnyRecord)) a : ForcedPop k = (k', Some a) ->
  exists t, a = record t /\ PopAllSeq k = t :: PopAllSeq k' /\ (length (queue_ k) = S (length (queue_ k')))%nat.
Proof.
  unfold ForcedPop, PopAllSeq. destruct (queue_ k) as [|x q] eqn:Eq; [done|]. destruct (extract_top x q) as [t rest] eqn:Et. intros [= <- <-].
  exists t. cbn [length PopAll_loop set_queue queue_]. rewrite Et. by rewrite (extract_top_length _ _ _ _ Et).
Qed.

Lemma read_data_section_sorted c r' fuel : forall s' l p n r s r0 acc,
  pending c r' s' l p n r s -> (length l + length (queue_ (cache s)) < fuel)%nat -> (n = 0 -> queue_ (cache s) = []) ->
  (length l <= Z.to_nat (sec_size (fh_data (header_ r))))%nat ->
  ReadRecord_file attr_view junk undef true r0 = ReadRecord_more true (rpos c p n (set_cache (cache s) r)) ->
  exists rf m, read_data_section attr_view junk undef collect fuel true r0 acc = Ok (Some (rf, acc ++ (record <$> m))) /\
    popped s' ++ PopAllSeq (cache s') = popped s ++ m.
Proof.
  induction fuel as [|fuel IH]; intros s' l p n r s r0 acc Hpend Hf Hn0 Hl H0; [lia|]. cbn [read_data_section]. rewrite H0. unfold ReadRecord_more.
  change (header_ (rpos c p n (set_cache (cache s) r))) with (header_ r).
  destruct (read_record_loop_sorted _ _ _ _ _ _ _ _ (Z.to_nat (sec_size (fh_data (header_ r)))) Hpend Hl)
    as (o & l2 & p2 & n2 & r2 & s2 & H1 & H2 & H3 & H4 & H5 & H6 & H7 & ->). assert (0 <= n) as Hn by apply Hpend.
  destruct o as [t|]; cbn [fmap option_fmap option_map try_bind].
  - assert (n < n2) by (apply H6; by left). cbn in H3 |- *.
    assert (length l2 <= Z.to_nat (sec_size (fh_data (header_ r2))))%nat as Hl2.
    { destruct H1 as (Hw & _ & Hn2 & Hsum & _). pose proof (records_len l2 Hw). unfold zlen in *. lia. }
    destruct (IH s' l2 p2 n2 r2 s2 (rpos c p2 n2 (set_cache (cache s2) r2)) (acc ++ [record t]) H1) as (rf & m & E1 & E2);
      [lia|lia|done|apply ReadRecord_file_more; lia|].
    exists rf, (t :: m). rewrite E1, E2, H2. rewrite fmap_cons, <- !app_assoc. done.
  - specialize (H5 eq_refl) as ->. cbn in H3 |- *. rewrite app_nil_r in H2.
    destruct H1 as (_ & Hat & Hn2 & Hsum & H64 & as_ & Hp & Hrun). cbn [parse_all] in Hp. injection Hp as <- <-. cbn in Hrun. injection Hrun as <-.
    change (record_cache_ (rpos c p2 n2 (set_cache (cache s2) r2))) with (Some (cache s2)). cbv iota.
    destruct (ForcedPop (cache s2)) as [k [a|]] eqn:Ek; cbn [try_bind].
    + destruct (ForcedPop_PopAll _ _ _ Ek) as (t & -> & EP & Elen).
      assert (0 < n2) as Hpos.
      { destruct (Z.eq_dec n2 0) as [->|]; [|lia]. assert (n = 0) as -> by lia.
        destruct l as [|x l]; [|assert (0 < 0) by (apply H6; by right); lia]. rewrite Hn0 in H3 by done. cbn in H3. lia. }
      set (s3 := mkState k (pushed s2) (popped s2 ++ [t])).
      destruct (IH s3 [] p2 n2 r2 s3 (rpos c p2 n2 (set_cache k r2)) (acc ++ [record t])) as (rf & m & E1 & E2);
        [split_and!; [by apply Forall_nil_2|done..|by exists []]|cbn; lia|lia|cbn; lia|by apply ReadRecord_file_more|].
      change (set_cache k (rpos c p2 n2 (set_cache (cache s2) r2))) with (rpos c p2 n2 (set_cache k r2)).
      exists rf, (t :: m). split; [by rewrite E1, fmap_cons, <- app_assoc|].
      cbn [s3 popped cache] in E2. rewrite EP, <- H2. rewrite <- app_assoc in E2. cbn [app] in E2. rewrite <- app_assoc in E2. exact E2.
    + eexists _, []. split; [by rewrite app_nil_r|]. rewrite H2. f_equal. unfold ForcedPop in Ek. unfold PopAllSeq.
      destruct (queue_ (cache s2)) as [|x q]; [done|]. by destruct (extract_top x q).
Qed.

Lemma pushes_feeds (l : list AnyRecord) : pushes (feeds l) = l.
Proof. unfold feeds. induction l as [|a l IH]; [done|]. cbn. by f_equal. Qed.

Lemma zlen_feeds (l : list AnyRecord) : zlen (feeds l) = 2 * zlen l.
Proof. unfold feeds. induction l as [|a l IH]; [done|]. rewrite fmap_cons. cbn [concat]. rewrite zlen_app, IH, !zlen_cons, zlen_nil. lia. Qed.

Lemma opened_sorted bits pos p as_ r' :
  whole_ok -> parse_all recs (opened bits pos p) = Ok (as_, r') ->
  forallb (fun a => IsTimestampSupported (attr_view (fst a))) attrs = true -> disorder_bounded 1000000 0 (feeds as_) -> 2 * zlen as_ < 2 ^ 32 ->
  exists r q numbered, DataSection attr_view junk undef (opened bits pos p) = Ok (Some (r, record <$> q)) /\
    record <$> numbered = as_ /\ (forall i a, numbered !! i = Some a -> seq a = Z.of_nat i) /\ q ≡ₚ numbered /\
    StronglySorted happens_before q.
Proof.
  intros Hok Hp Hts Hdis Hlen. destruct (whole_sizes Hok) as (Z1 & Z2 & Z3 & _). destruct (whole_parts bits) as (_ & _ & _ & P4 & _ & _).
  pose proof (wh_recs Hok) as Hw. pose proof (records_len recs Hw). pose proof (zlen_nonneg (features_bytes feats)).
  set (s := @init_state AnyRecord 1000 1000000). destruct (run_inv (feeds as_) s) as (s' & Hrun & Hinv & Hpush);
    [by apply init_inv|done|rewrite zlen_feeds; change (zlen (pushed s)) with 0; lia|done|].
  destruct (inv_ordered s' Hinv) as [Hperm Hsort]. change (omap _ (feeds as_)) with (pushes (feeds as_)) in Hpush. rewrite pushes_feeds in Hpush.
  assert (reading bits pos p = set_cache (cache s) (opened bits pos p)) as Er by (unfold reading; by rewrite Hts).
  unfold DataSection, ReadDataSection. change (sec_size (fh_data (header_ (opened bits pos p)))) with (zlen (data_section recs)).
  destruct (read_data_section_sorted (whole_file bits) r' (S (Z.to_nat (zlen (data_section recs)))) s' recs data_off 0 (opened bits pos p) s (opened bits pos p) [])
    as (rf & m & -> & Em).
  - split_and!; [done|done|done|done| |by exists as_].
    change (sec_size (fh_data (header_ (opened bits pos p)))) with (zlen (data_section recs)). unfold features_off in *. lia.
  - cbn. unfold zlen in *. lia.
  - done.
  - change (sec_size (fh_data (header_ (opened bits pos p)))) with (zlen (data_section recs)). unfold zlen in *. lia.
  - rewrite ReadRecord_file_start by done. by rewrite Er.
  - change (popped s ++ m) with m in Em. rewrite Em in Hperm, Hsort. exists rf, m, (pushed s'). split_and!; [done|done|by apply (ci_seq _ Hinv)|done|by apply sorted_happens_before].
Qed.

(** C4: a perf.data file written by [RecordFileWriter] - at least one attr, each
    of the given size and with 64-bit event ids; records whose binary starts with
    their header, those longer than a record may be being of simpleperf's own
    types; features of different ids below 256, no more than announced, each in
    one or more parts; all of it fitting on the disk - is closed with success,
    and, when the event id of records is at a common position or there is only
    one attr, [RecordFileReader] opens it with the same attrs and ids; each
    written feature reads back as its bytes and no other is found; and the
    records read in file order are the ones that parsing the written binaries
    gives, when they parse, long records, stored in pieces, included. *)
Theorem RecordFile_roundtrip pos undef_attr undef_header :
  whole_ok -> event_id_pos pos ->
  exists f r, write_file undef_attr = Ok (Some f) /\ CreateInstance attr_size attr_view (mkFile (content f) 0) undef_header = Ok (Some r) /\
    AttrSection r = attrs /\
    (forall id parts, (id, parts) ∈ feats -> HasFeature id r = true /\ exists r', ReadFeatureSection id r = Ok (Some (concat parts, r'))) /\
    (forall id, id ∉ fst <$> feats -> HasFeature id r = false /\ ReadFeatureSection id r = Ok None) /\
    (forall as_ r', parse_all recs r = Ok (as_, r') ->
       exists r'', ReadDataSection attr_view junk undef (fun a l => Ok (Some (l ++ [a]))) false r [] = Ok (Some (r'', as_))).
Proof.
  intros Hok Hpos. destruct (write_file_ok undef_attr Hok) as (bits & Hw & Hl & Hb).
  eexists _, _. split_and!; [exact Hw|by apply CreateInstance_ok| | | |].
  - unfold AttrSection. cbn [opened file_attrs_ event_ids_for_file_attrs_]. rewrite fa_attr_file_attrs. clear. induction attrs as [|[a l] k IH]; [done|]. cbn. by f_equal.
  - intros id parts. by apply opened_features.
  - intros id. by apply opened_no_feature.
  - intros as_ r'. by apply opened_records.
Qed.

(** C8: [DataSection] on a file that [RecordFileWriter] has written (under the
    conditions for which it reads back: well-formed attrs, records and features,
    room on the disk, a common event id position unless there is one attr) and
    whose records parse returns every record of the file once, in the order of
    happening: by time, at equal times the records that are no samples before the
    samples, and otherwise in file order; as long as every attr has timestamps,
    the times do not wrap, there are fewer than 2^31 records and no record is a
    millisecond or more behind the latest one before it. *)
Theorem RecordFile_sorted pos undef_attr undef_header :
  whole_ok -> event_id_pos pos -> forallb (fun a => IsTimestampSupported (attr_view (fst a))) attrs = true ->
  exists f r, write_file undef_attr = Ok (Some f) /\ CreateInstance attr_size attr_view (mkFile (content f) 0) undef_header = Ok (Some r) /\
    forall as_ r', parse_all recs r = Ok (as_, r') -> disorder_bounded 1000000 0 (feeds as_) -> 2 * zlen as_ < 2 ^ 32 ->
      exists r'' q numbered, DataSection attr_view junk undef r = Ok (Some (r'', record <$> q)) /\
        record <$> numbered = as_ /\ (forall i a, numbered !! i = Some a -> seq a = Z.of_nat i) /\ q ≡ₚ numbered /\
        StronglySorted happens_before q.
Proof.
  intros Hok Hpos Hts. destruct (write_file_ok undef_attr Hok) as (bits & Hw & Hl & Hb).
  eexists _, _. split_and!; [exact Hw|by apply CreateInstance_ok|]. intros as_ r' Hp Hd Hz. by eapply opened_sorted.
Qed.
End whole.
End write.

(** * A small file *)

Definition demo_attr : perf_event_attr := {| attr_sample_id_all := true; attr_sample_type := 6; attr_sample_regs_user := 0 |}.
Definition demo_attrs : list EventAttrWithId := [([1; 2; 3; 4], [7; 8])].
Definition demo_comm (name : bytes) (time : Z) : Record_ :=
  match CommRecord_new (fun _ => 3) demo_attr 1 2 name 0 time with Ok r => comm_rec r | _ => Record_default end.
Definition demo_recs : list Record_ := [demo_comm (str "late") 20; demo_comm (str "early") 10].
Definition demo_feats : list (Z * list bytes) := [(FEAT_FILE, [[1; 2]; [3]]); (FEAT_OSRELEASE, [[4]])].

Definition demo_undef : FileHeader := mkFileHeader [] 0 0 (mkDesc 0 0) (mkDesc 0 0) (mkDesc 0 0) [].

Lemma demo_recs_ok : Forall writable demo_recs.
Proof.
  unfold demo_recs. repeat apply Forall_cons_2; try apply Forall_nil_2.
  all: split; [vm_compute; split_and!; intros; congruence|vm_compute; split; congruence| |vm_compute; congruence|vm_compute; congruence].
  all: eexists [], _; split; vm_compute; reflexivity.
Qed.

Lemma demo_ok : whole_ok 4096 4 demo_attrs demo_recs demo_feats 3.
Proof.
  split; [split; [done|]|apply demo_recs_ok|split|vm_compute; congruence|vm_compute; congruence].
  - repeat constructor; cbn; unfold is_u64; lia.
  - unfold demo_feats. cbn. apply NoDup_cons. split; [|apply NoDup_singleton]. rewrite list_elem_of_singleton. vm_compute. congruence.
  - unfold demo_feats. repeat constructor; cbn; (done || (vm_compute; congruence)).
Qed.

Lemma RecordFile_roundtrip_witness :
  whole_ok 4096 4 demo_attrs demo_recs demo_feats 3 /\
  exists f r, write_file 4096 4 demo_attrs demo_recs demo_feats 3 [] = Ok (Some f) /\
    CreateInstance 4 (fun _ => demo_attr) (mkFile (content f) 0) demo_undef = Ok (Some r) /\
    AttrSection r = demo_attrs /\ (exists r', ReadFeatureSection FEAT_FILE r = Ok (Some ([1; 2; 3], r'))) /\
    HasFeature FEAT_CMDLINE r = false.
Proof.
  split; [apply demo_ok|].
  destruct (RecordFile_roundtrip 4096 4 ltac:(lia) ltac:(lia) demo_attrs demo_recs demo_feats 3 (fun _ => demo_attr) (fun _ => 3) sample_undef (0, 0) []
    demo_undef demo_ok eq_refl) as (f & r & H1 & H2 & H4 & H5 & H6 & H7).
  exists f, r. split; [exact H1|]. split; [exact H2|]. split; [exact H4|]. split.
  - exact (proj2 (H5 FEAT_FILE [[1; 2]; [3]] ltac:(left))).
  - apply H6. intros H. vm_compute in H. apply elem_of_cons in H as [H|H]; [congruence|]. apply list_elem_of_singleton in H. congruence.
Defined.

Lemma try_parsed {A B C} (m : res (option A)) (g : A -> res (option B)) (h : B -> res C) a b x :
  m = Ok (Some a) -> g a = Ok (Some b) -> (a ←? m; b ←? g a; x ← h b; Ok (Some x)) = Ok (Some x) -> h b = Ok x.
Proof. intros -> H. cbn. rewrite H. cbn. destruct (h b); by intros [= <-]. Qed.

(** The file is written, opened and its records parsed. *)
Lemma demo_parsed_ok : exists as_ r,
  (f ←? write_file 4096 4 demo_attrs demo_recs demo_feats 3 [];
   r ←? CreateInstance 4 (fun _ => demo_attr) (mkFile (content f) 0) demo_undef;
   x ← parse_all (fun _ => demo_attr) sample_undef demo_recs r;
   Ok (Some x)) = Ok (Some (as_, r)) /\ (rec_Timestamp <$> as_ = [20; 10]) /\
  disorder_bounded 1000000 0 (feeds as_) /\ 2 * zlen as_ < 2 ^ 32.
Proof. eexists _, _. split; [vm_compute; reflexivity|]. split; [vm_compute; reflexivity|]. split; [vm_compute; intuition congruence|vm_compute; reflexivity]. Qed.

Lemma RecordFile_sorted_witness :
  exists f r, write_file 4096 4 demo_attrs demo_recs demo_feats 3 [] = Ok (Some f) /\
    CreateInstance 4 (fun _ => demo_attr) (mkFile (content f) 0) demo_undef = Ok (Some r) /\
    exists r'' (q numbered : list (RecordWithSeq (R := AnyRecord))), DataSection (fun _ => demo_attr) (fun _ => 3) sample_undef r = Ok (Some (r'', record <$> q)) /\
      rec_Timestamp <$> (record <$> numbered) = [20; 10] /\ q ≡ₚ numbered /\ StronglySorted happens_before q.
Proof.
  destruct (RecordFile_sorted 4096 4 ltac:(lia) ltac:(lia) demo_attrs demo_recs demo_feats 3 (fun _ => demo_attr) (fun _ => 3) sample_undef (0, 0) []
    demo_undef demo_ok eq_refl eq_refl) as (f & r & H1 & H2 & H3). exists f, r. split; [exact H1|]. split; [exact H2|].
  destruct demo_parsed_ok as (as_ & r1 & E & Ht & Hd & Hl).
  pose proof (try_parsed _ (fun f => CreateInstance 4 (fun _ => demo_attr) (mkFile (content f) 0) demo_undef)
    (parse_all (fun _ => demo_attr) sample_undef demo_recs) f r (as_, r1) H1 H2 E) as Hp. destruct (H3 as_ r1 Hp Hd Hl) as (r'' & q & numbered & A1 & A2 & A3 & A4 & A5).
  exists r'', q, numbered. split; [exact A1|]. split; [rewrite A2; exact Ht|]. split; [exact A4|exact A5].
Defined.
