(* ===== verification/FileFeatures.v ===== *)
(** The features of perf.data: the payload that each [Write*Feature] of
    [RecordFileWriter] hands to [WriteFeature], and that the parser of
    [RecordFileReader] gives back what was written. *)
From stdpp Require Import base list numbers strings gmap.
From Stdlib Require Import ZArith Lia.
From S2P Require Import Prelude Utils File RecordBase Records Dso ThreadTree RecordFileWriter RecordFileReader RecordFile.

(** * Strings in buffers *)

Lemma cstr_at_ok m p s : bytes_at m p (s ++ [0]) -> cstring_ok s -> cstr_at m p = Ok s.
Proof.
  intros Hat Hs. unfold cstr_at. rewrite (bytes_at_strlen m p s []) by done. cbn [mbind res_bind].
  apply bytes_at_split in Hat as [H1 _]. by apply bytes_at_read.
Qed.

Lemma MoveTo_string_app s pre rest p : p = zlen pre -> zlen s + 1 <= zlen rest ->
  MoveTo_string s (pre ++ rest) p = Ok ((pre ++ s ++ [0]) ++ zdrop (zlen s + 1) rest, zlen (pre ++ s ++ [0])).
Proof.
  intros -> Hl. unfold MoveTo_string. assert (zlen (s ++ [0]) = zlen s + 1) as E by (rewrite zlen_app; done).
  rewrite mem_write_app by (done || lia). cbn [mbind res_bind]. rewrite E, !zlen_app, <- !app_assoc. change (zlen [0]) with 1. by rewrite Z.add_assoc.
Qed.

(** * Strings with their lengths *)

Definition string_bytes (s : bytes) : bytes :=
  enc uint32_t (u32 (Align (zlen s + 1) 64)) ++ (s ++ [0]) ++ replicate (Z.to_nat (Align (zlen s + 1) 64 - zlen s - 1)) 0.

(** A string that can be written: no NUL, and its padded length is a [uint32_t]. *)
Definition string_ok (s : bytes) : Prop := cstring_ok s /\ zlen s + 65 < 2 ^ 32.

Lemma string_len s : zlen s + 65 < 2 ^ 32 -> zlen s + 1 <= Align (zlen s + 1) 64 < 2 ^ 32 /\ zlen (string_bytes s) = 4 + Align (zlen s + 1) 64.
Proof.
  intros Hs. pose proof (zlen_nonneg s). pose proof (Align_64 (zlen s + 1) ltac:(lia)). split; [lia|].
  unfold string_bytes. rewrite !zlen_app, zlen_replicate. change (zlen [0]) with 1. rewrite enc_len. change (sizeof uint32_t) with 4. lia.
Qed.

Section features.
Context (disk : Z) (Hdisk : disk < 2 ^ 63).

Lemma WriteStringWithLength_put s c w : zlen s + 65 < 2 ^ 32 -> zlen c + zlen (string_bytes s) <= disk ->
  WriteStringWithLength disk s (put c w) = Ok (Some (put (c ++ string_bytes s) w)).
Proof.
  intros Hs Hd. destruct (string_len s Hs) as [Ha Hz]. rewrite Hz in Hd. unfold WriteStringWithLength.
  rewrite Write_put by (rewrite enc_len; change (sizeof uint32_t) with 4; pose proof (zlen_nonneg s); lia). cbn [try_bind].
  rewrite Write_put by (rewrite !zlen_app, enc_len; change (sizeof uint32_t) with 4; change (zlen [0]) with 1; lia). cbn [try_bind].
  unfold string_bytes. destruct (Z.ltb_spec 0 (Align (zlen s + 1) 64 - zlen s - 1)) as [Hp|Hp].
  - rewrite Write_put; [by rewrite <- !app_assoc|]. rewrite !zlen_app, enc_len, zlen_replicate. change (sizeof uint32_t) with 4. change (zlen [0]) with 1. lia.
  - assert (Z.to_nat (Align (zlen s + 1) 64 - zlen s - 1) = 0%nat) as -> by lia. cbn [replicate]. by rewrite app_nil_r, <- !app_assoc.
Qed.

(** Any writer that appends [b] between [WriteFeatureBegin] and [WriteFeatureEnd] is [WriteFeature] with [b]. *)
Lemma feature_of_writes id b (write : RecordFileWriter -> res (option RecordFileWriter)) c w :
  zlen c + zlen b <= disk -> (forall w, write (put c w) = Ok (Some (put (c ++ b) w))) ->
  (w ←? WriteFeatureBegin id (put c w); w ←? write w; WriteFeatureEnd id w) = WriteFeature disk id b (put c w).
Proof.
  intros Hl Hw. unfold WriteFeature, WriteFeatureBegin. change (features_ (put c w)) with (features_ w). change (feature_count_ (put c w)) with (feature_count_ w).
  destruct (features_find id (features_ w)); cbn [try_bind]; [by rewrite Hw, Write_put|].
  destruct (CHECK _); [|done..]. cbn [mbind res_bind]. change (GetFilePos (put c w)) with (@Ok Z (zlen c)). cbn [mbind res_bind try_bind].
  change (set_features (features_set id (mkDesc (zlen c) 0) (features_ w)) (put c w)) with (put c (set_features (features_set id (mkDesc (zlen c) 0) (features_ w)) w)).
  by rewrite Hw, Write_put.
Qed.

Definition strings_bytes (l : list bytes) : bytes := concat (string_bytes <$> l).

Lemma write_strings_put l : forall c w, Forall (fun s => zlen s + 65 < 2 ^ 32) l -> zlen c + zlen (strings_bytes l) <= disk ->
  write_strings disk l (put c w) = Ok (Some (put (c ++ strings_bytes l) w)).
Proof.
  unfold strings_bytes. induction l as [|s l IH]; intros c w Hl Hd; cbn [write_strings]; [by rewrite app_nil_r|].
  apply Forall_cons_1 in Hl as [Hs Hl]. rewrite fmap_cons in *. cbn [concat] in *. rewrite zlen_app in Hd. pose proof (zlen_nonneg (concat (string_bytes <$> l))).
  rewrite WriteStringWithLength_put by (done || lia). cbn [try_bind]. rewrite IH by (done || rewrite zlen_app; lia). by rewrite app_assoc.
Qed.

Definition cmdline_bytes (l : list bytes) : bytes := enc uint32_t (u32 (zlen l)) ++ strings_bytes l.

Lemma WriteFeatureString_put id s c w : zlen s + 65 < 2 ^ 32 -> zlen c + zlen (string_bytes s) <= disk ->
  WriteFeatureString disk id s (put c w) = WriteFeature disk id (string_bytes s) (put c w).
Proof. intros Hs Hd. apply feature_of_writes; [done|]. intros w'. by apply WriteStringWithLength_put. Qed.

Lemma WriteCmdlineFeature_put l c w : Forall (fun s => zlen s + 65 < 2 ^ 32) l -> zlen c + zlen (cmdline_bytes l) <= disk ->
  WriteCmdlineFeature disk l (put c w) = WriteFeature disk FEAT_CMDLINE (cmdline_bytes l) (put c w).
Proof.
  intros Hl Hd. rewrite <- (feature_of_writes FEAT_CMDLINE (cmdline_bytes l)
    (fun w => w ←? Write disk (enc uint32_t (u32 (zlen l))) w; write_strings disk l w)) by
    (done || (intros w'; unfold cmdline_bytes in *; rewrite zlen_app in Hd; pose proof (zlen_nonneg (strings_bytes l));
      rewrite Write_put by lia; cbn [try_bind]; rewrite write_strings_put by (done || rewrite zlen_app; lia); by rewrite app_assoc)).
  unfold WriteCmdlineFeature. destruct (WriteFeatureBegin _ _) as [[w'|]| |]; [|done..]. cbn [try_bind].
  by destruct (Write _ _ w') as [[]| |].
Qed.

(** * Reading them *)

Lemma read_string m p s : bytes_at m p (string_bytes s) -> string_ok s ->
  MoveFromBinaryFormat uint32_t m p = Ok (Align (zlen s + 1) 64, p + 4) /\ cstr_at m (p + 4) = Ok s /\ p + 4 + Align (zlen s + 1) 64 <= zlen m.
Proof.
  intros Hat [Hs Hl]. destruct (string_len s Hl) as [Ha Hz]. pose proof (bytes_at_bound _ _ _ Hat) as [_ Hb]. rewrite Hz in Hb.
  pose proof (zlen_nonneg s). unfold string_bytes in Hat. rewrite u32_small in Hat by (unfold is_u32; lia). apply bytes_at_split in Hat as [H1 H2].
  rewrite enc_len in H2. change (sizeof uint32_t) with 4 in H2. apply bytes_at_split in H2 as [H2 _].
  split_and!; [|by apply cstr_at_ok|lia]. by rewrite (MoveFrom_at _ _ _ _ _ H1) by (unfold is_u32; lia).
Qed.

Lemma read_args_ok m l : forall p, bytes_at m p (strings_bytes l) -> Forall string_ok l -> read_args (length l) m p = Ok l.
Proof.
  unfold strings_bytes. induction l as [|s l IH]; intros p Hat Hl; [done|]. apply Forall_cons_1 in Hl as [Hs Hl].
  rewrite fmap_cons in Hat. cbn [concat] in Hat. apply bytes_at_split in Hat as [H1 H2]. rewrite (proj2 (string_len s (proj2 Hs))) in H2.
  destruct (read_string _ _ _ H1 Hs) as (E1 & E2 & E3). cbn [length read_args]. rewrite E1. cbn [mbind res_bind]. rewrite CHECK_le by done. cbn [mbind res_bind].
  rewrite E2. cbn [mbind res_bind]. rewrite IH by (done || by rewrite <- Z.add_assoc). done.
Qed.

(** * Meta information *)

Definition infos_bytes (l : list (bytes * bytes)) : bytes := concat ((fun i => (fst i ++ [0]) ++ (snd i ++ [0])) <$> l).
Definition info_ok (i : bytes * bytes) : Prop := cstring_ok (fst i) /\ cstring_ok (snd i).

Lemma infos_bytes_cons i l : infos_bytes (i :: l) = (fst i ++ [0]) ++ (snd i ++ [0]) ++ infos_bytes l.
Proof. unfold infos_bytes. rewrite fmap_cons. cbn [concat]. by rewrite <- !app_assoc. Qed.

Lemma zlen_infos_cons i l : zlen (infos_bytes (i :: l)) = (zlen (fst i) + 1) + (zlen (snd i) + 1) + zlen (infos_bytes l).
Proof. rewrite infos_bytes_cons, !zlen_app. change (zlen [0]) with 1. lia. Qed.

Lemma infos_size l : forall n, 0 <= n -> n + zlen (infos_bytes l) < 2 ^ 32 ->
  foldl (fun size (info : bytes * bytes) => size +u32 (zlen (fst info) + 1) +u32 (zlen (snd info) + 1)) n l = n + zlen (infos_bytes l).
Proof.
  induction l as [|i l IH]; intros n Hn Hl; [by rewrite Z.add_0_r|]. rewrite zlen_infos_cons in *. cbn [foldl].
  pose proof (zlen_nonneg (fst i)). pose proof (zlen_nonneg (snd i)). pose proof (zlen_nonneg (infos_bytes l)).
  rewrite (u32_small (n + _)), u32_small by (unfold is_u32; lia). rewrite IH by lia. lia.
Qed.

Lemma write_infos_app l : forall pre rest p, p = zlen pre -> zlen (infos_bytes l) <= zlen rest ->
  write_infos l (pre ++ rest) p = Ok ((pre ++ infos_bytes l) ++ zdrop (zlen (infos_bytes l)) rest, zlen (pre ++ infos_bytes l)).
Proof.
  induction l as [|i l IH]; intros pre rest p Hp Hl; cbn [write_infos].
  { change (infos_bytes []) with (@nil Z). by rewrite !app_nil_r, zdrop_0, Hp. }
  rewrite zlen_infos_cons in *. pose proof (zlen_nonneg (infos_bytes l)). pose proof (zlen_nonneg (fst i)). pose proof (zlen_nonneg (snd i)).
  rewrite MoveTo_string_app by (done || lia). cbn [mbind res_bind]. rewrite MoveTo_string_app by (done || rewrite zlen_zdrop_max; lia). cbn [mbind res_bind].
  rewrite IH by (done || rewrite !zlen_zdrop_max; lia). rewrite !zdrop_zdrop by lia.
  rewrite infos_bytes_cons, <- !app_assoc, !Z.add_assoc. done.
Qed.

Lemma WriteMetaInfoFeature_payload l w : zlen (infos_bytes l) < 2 ^ 32 ->
  WriteMetaInfoFeature disk l w = WriteFeature disk FEAT_META_INFO (infos_bytes l) w.
Proof.
  intros Hl. unfold WriteMetaInfoFeature. rewrite infos_size by lia. rewrite Z.add_0_l. pose proof (zlen_nonneg (infos_bytes l)).
  pose proof (write_infos_app l [] (replicate (Z.to_nat (zlen (infos_bytes l))) 0) 0 eq_refl ltac:(rewrite zlen_replicate; lia)) as E. cbn [app] in E.
  rewrite E. cbn [mbind res_bind]. by rewrite zdrop_ge, app_nil_r by (rewrite zlen_replicate; lia).
Qed.

Lemma parse_infos_ok buf l : forall p fuel m, bytes_at buf p (infos_bytes l) -> p + zlen (infos_bytes l) = zlen buf -> Forall info_ok l -> (length l <= fuel)%nat ->
  parse_infos fuel buf p m = Ok (foldl (fun m i => <[fst i := snd i]> m) m l).
Proof.
  induction l as [|i l IH]; intros p fuel m Hat Hp Hl Hf.
  { cbn in Hp. rewrite zlen_nil in Hp. destruct fuel; cbn [parse_infos]; by rewrite (proj2 (Z.ltb_ge _ _)) by lia. }
  cbn [length] in Hf. destruct fuel as [|fuel]; [lia|]. apply Forall_cons_1 in Hl as [[Hi1 Hi2] Hl]. rewrite zlen_infos_cons in Hp.
  pose proof (zlen_nonneg (infos_bytes l)). pose proof (zlen_nonneg (fst i)). pose proof (zlen_nonneg (snd i)). rewrite infos_bytes_cons in Hat.
  apply bytes_at_split in Hat as [A1 A2]. apply bytes_at_split in A2 as [A2 A3]. rewrite !zlen_app in *. change (zlen [0]) with 1 in *.
  cbn [parse_infos foldl]. rewrite (proj2 (Z.ltb_lt _ _)) by lia. rewrite (cstr_at_ok _ _ _ A1) by done. cbn [mbind res_bind].
  rewrite CHECK_lt by lia. cbn [mbind res_bind]. rewrite Z.add_assoc in A2. rewrite (cstr_at_ok _ _ _ A2) by done. cbn [mbind res_bind].
  apply IH; [|lia|done|lia]. by replace (p + zlen (fst i) + 1 + zlen (snd i) + 1) with (p + (zlen (fst i) + 1) + (zlen (snd i) + 1)) by lia.
Qed.

Lemma insert_all (l : list (bytes * bytes)) : NoDup (fst <$> l) -> forall m : gmap bytes bytes,
  foldl (fun m i => <[fst i := snd i]> m) m l = list_to_map l ∪ m.
Proof.
  induction l as [|[k v] l IH]; intros Hn m; cbn [foldl fst snd]; [by rewrite left_id_L by apply _|].
  rewrite fmap_cons in Hn. apply NoDup_cons in Hn as [Hk Hn]. rewrite IH by done. rewrite list_to_map_cons, <- insert_union_l, insert_union_r; [done|].
  by apply not_elem_of_list_to_map_1.
Qed.

Lemma parse_infos_all l : Forall info_ok l -> NoDup (fst <$> l) -> parse_infos (length (infos_bytes l)) (infos_bytes l) 0 ∅ = Ok (list_to_map l).
Proof.
  intros Hl Hn. rewrite (parse_infos_ok _ l); [|by exists [], []; rewrite app_nil_r|done|done|].
  - rewrite insert_all by done. by rewrite right_id_L by apply _.
  - assert (zlen l <= zlen (infos_bytes l)); [|unfold zlen in *; lia]. clear. induction l as [|i l IH]; [done|]. rewrite zlen_infos_cons, zlen_cons.
    pose proof (zlen_nonneg (fst i)). pose proof (zlen_nonneg (snd i)). lia.
Qed.

(** What [WriteFeatureString], [WriteCmdlineFeature] and
    [WriteMetaInfoFeature] write is, as the payload of the feature, parsed back
    to the string, the arguments and the map. *)
Theorem string_features_roundtrip id s args infos c w :
  string_ok s -> Forall string_ok args -> zlen args < 2 ^ 32 -> Forall info_ok infos -> NoDup (fst <$> infos) -> zlen (infos_bytes infos) < 2 ^ 32 ->
  zlen c + zlen (string_bytes s) <= disk -> zlen c + zlen (cmdline_bytes args) <= disk ->
  WriteFeatureString disk id s (put c w) = WriteFeature disk id (string_bytes s) (put c w) /\ parse_feature_string (string_bytes s) = Ok s /\
  WriteCmdlineFeature disk args (put c w) = WriteFeature disk FEAT_CMDLINE (cmdline_bytes args) (put c w) /\ parse_cmdline (cmdline_bytes args) = Ok args /\
  WriteMetaInfoFeature disk infos (put c w) = WriteFeature disk FEAT_META_INFO (infos_bytes infos) (put c w) /\
  parse_infos (length (infos_bytes infos)) (infos_bytes infos) 0 ∅ = Ok (list_to_map infos).
Proof.
  intros Hs Ha Hn Hi Hnd Hz H1 H2.
  assert (Forall (fun s => zlen s + 65 < 2 ^ 32) args) as Ha' by (eapply Forall_impl; [exact Ha|]; by intros x []).
  split_and!; [apply WriteFeatureString_put; [apply Hs|done]| |by apply WriteCmdlineFeature_put| |by apply WriteMetaInfoFeature_payload|by apply parse_infos_all].
  - destruct (read_string (string_bytes s) 0 s) as (E1 & E2 & E3); [by exists [], []; rewrite app_nil_r|done|].
    unfold parse_feature_string. rewrite E1. cbn [mbind res_bind]. by rewrite CHECK_le.
  - assert (bytes_at (cmdline_bytes args) 0 (cmdline_bytes args)) as Hat by (exists [], []; by rewrite app_nil_r). pose proof (zlen_nonneg args).
    unfold cmdline_bytes in Hat at 2. rewrite u32_small in Hat by (unfold is_u32; lia). apply bytes_at_split in Hat as [A1 A2].
    unfold parse_cmdline. rewrite (MoveFrom_at _ _ _ _ _ A1) by (unfold is_u32; lia). cbn [mbind res_bind]. rewrite enc_len in A2.
    change (sizeof uint32_t) with 4 in *. pose proof (bytes_at_bound _ _ _ A2) as [_ Hb]. pose proof (zlen_nonneg (strings_bytes args)). rewrite CHECK_le by lia.
    cbn [mbind res_bind]. unfold zlen. rewrite Nat2Z.id. by apply read_args_ok.
Qed.

(** * The file feature *)

Definition symbol_bytes (s : Symbol) : bytes :=
  enc uint64_t (symbol_addr s) ++ enc uint32_t (u32 (symbol_len s)) ++ symbol_name s ++ [0].
Definition symbols_bytes (l : list Symbol) : bytes := concat (symbol_bytes <$> l).
Definition offsets_bytes (o : option (list Z)) : bytes :=
  match o with Some l => enc uint32_t (u32 (zlen l)) ++ enc_array uint64_t l | None => [] end.
Definition file_bytes (path : bytes) (ty min_vaddr : Z) (symbols : list Symbol) (offsets : option (list Z)) : bytes :=
  (path ++ [0]) ++ enc uint32_t ty ++ enc uint64_t min_vaddr ++ enc uint32_t (u32 (zlen symbols)) ++ symbols_bytes symbols ++ offsets_bytes offsets.

Definition symbol_ok (s : Symbol) : Prop := cstring_ok (symbol_name s) /\ is_u64 (symbol_addr s).

Lemma symbols_bytes_cons s l : symbols_bytes (s :: l) = enc uint64_t (symbol_addr s) ++ enc uint32_t (u32 (symbol_len s)) ++ (symbol_name s ++ [0]) ++ symbols_bytes l.
Proof. unfold symbols_bytes. rewrite fmap_cons. cbn [concat]. unfold symbol_bytes at 1. by rewrite <- !app_assoc. Qed.

Lemma zlen_u32 x : zlen (enc uint32_t x) = 4. Proof. by rewrite enc_len. Qed.
Lemma zlen_u64 x : zlen (enc uint64_t x) = 8. Proof. by rewrite enc_len. Qed.
Lemma zlen_cstr s : zlen (s ++ [0]) = zlen s + 1. Proof. by rewrite zlen_app. Qed.
Hint Rewrite zlen_u32 zlen_u64 zlen_cstr @zlen_zdrop_max zlen_enc_array_u64 : zlen.

Lemma zlen_symbols_cons s l : zlen (symbols_bytes (s :: l)) = 12 + (zlen (symbol_name s) + 1) + zlen (symbols_bytes l).
Proof. rewrite symbols_bytes_cons. autorewrite with zlen. lia. Qed.

Lemma symbols_len l : 12 * zlen l <= zlen (symbols_bytes l).
Proof. induction l as [|s l IH]; [done|]. rewrite zlen_symbols_cons, zlen_cons. pose proof (zlen_nonneg (symbol_name s)). lia. Qed.

Lemma symbols_size l : forall n, 0 <= n -> n + (zlen (symbols_bytes l) - 12 * zlen l) < 2 ^ 32 ->
  foldl (fun size s => size +u32 (zlen (symbol_name s) + 1)) n l = n + (zlen (symbols_bytes l) - 12 * zlen l).
Proof.
  induction l as [|s l IH]; intros n Hn Hl; [change (zlen (symbols_bytes [])) with 0; change (zlen (@nil Symbol)) with 0; cbn [foldl]; lia|].
  rewrite zlen_symbols_cons, zlen_cons in *. cbn [foldl]. pose proof (zlen_nonneg (symbol_name s)). pose proof (symbols_len l).
  rewrite u32_small by (unfold is_u32; lia). rewrite IH by lia. lia.
Qed.

Lemma write_symbols_app l : forall pre rest p, p = zlen pre -> zlen (symbols_bytes l) <= zlen rest ->
  write_symbols l (pre ++ rest) p = Ok ((pre ++ symbols_bytes l) ++ zdrop (zlen (symbols_bytes l)) rest, zlen (pre ++ symbols_bytes l)).
Proof.
  induction l as [|s l IH]; intros pre rest p Hp Hl; cbn [write_symbols].
  { change (symbols_bytes []) with (@nil Z). by rewrite !app_nil_r, zdrop_0, Hp. }
  rewrite zlen_symbols_cons in *. pose proof (zlen_nonneg (symbols_bytes l)). pose proof (zlen_nonneg (symbol_name s)).
  rewrite (MoveTo_app uint64_t is_u64) by (done || cbn; lia). cbn [mbind res_bind]. rewrite (MoveTo_app uint32_t is_u32) by (done || autorewrite with zlen; cbn; lia). cbn [mbind res_bind].
  rewrite MoveTo_string_app by (done || autorewrite with zlen; cbn; lia). cbn [mbind res_bind].
  rewrite IH by (done || autorewrite with zlen; cbn; lia). change (sizeof uint64_t) with 8. change (sizeof uint32_t) with 4. rewrite !zdrop_zdrop by lia.
  rewrite symbols_bytes_cons, <- !app_assoc, !Z.add_assoc. done.
Qed.

Lemma zlen_offsets_bytes o : zlen (offsets_bytes o) = match o with Some l => 4 + 8 * zlen l | None => 0 end.
Proof. destruct o; [|done]. unfold offsets_bytes. autorewrite with zlen. lia. Qed.

Lemma zlen_file_bytes path ty min_vaddr symbols offsets :
  zlen (file_bytes path ty min_vaddr symbols offsets) = zlen path + 1 + 16 + zlen (symbols_bytes symbols) + zlen (offsets_bytes offsets).
Proof. unfold file_bytes. autorewrite with zlen. lia. Qed.

Lemma file_feature_size_ok path ty min_vaddr symbols offsets : zlen (file_bytes path ty min_vaddr symbols offsets) < 2 ^ 32 ->
  file_feature_size path symbols offsets = zlen (file_bytes path ty min_vaddr symbols offsets) /\ zlen symbols < 2 ^ 32.
Proof.
  rewrite zlen_file_bytes, zlen_offsets_bytes. intros Hl. unfold file_feature_size. pose proof (zlen_nonneg path). pose proof (zlen_nonneg symbols).
  assert (0 <= match offsets with Some l => 4 + 8 * zlen l | None => 0 end) by (destruct offsets as [l|]; [pose proof (zlen_nonneg l)|]; lia).
  pose proof (symbols_len symbols). rewrite (u32_small (zlen path + 1 + _ + _ + _)) by (unfold is_u32; lia). rewrite symbols_size by lia.
  split; [|lia]. destruct offsets as [l|]; [rewrite u32_small by (unfold is_u32; lia)|]; lia.
Qed.

Lemma WriteFileFeature_payload path ty min_vaddr symbols offsets w :
  let b := file_bytes path ty min_vaddr symbols offsets in zlen b < 2 ^ 32 ->
  WriteFileFeature disk path ty min_vaddr symbols offsets w = WriteFeature disk FEAT_FILE (enc uint32_t (zlen b) ++ b) w.
Proof.
  intros b Hb. destruct (file_feature_size_ok path ty min_vaddr symbols offsets Hb) as [Es Hn]. unfold WriteFileFeature. rewrite Es. fold b.
  pose proof (zlen_nonneg symbols). pose proof (zlen_nonneg path). pose proof (zlen_nonneg (symbols_bytes symbols)). pose proof (zlen_nonneg (offsets_bytes offsets)).
  assert (zlen b = zlen path + 1 + 16 + zlen (symbols_bytes symbols) + zlen (offsets_bytes offsets)) as Ez by apply zlen_file_bytes.
  set (zeros := replicate (Z.to_nat (4 + zlen b)) 0). assert (zlen zeros = 4 + zlen b) as Hz by (unfold zeros; rewrite zlen_replicate; lia).
  change zeros with ([] ++ zeros). rewrite (MoveTo_app uint32_t is_u32) by (done || cbn; lia). cbn [mbind res_bind].
  rewrite MoveTo_string_app by (done || autorewrite with zlen; cbn; lia). cbn [mbind res_bind].
  rewrite (MoveTo_app uint32_t is_u32) by (done || autorewrite with zlen; cbn; lia). cbn [mbind res_bind].
  rewrite (MoveTo_app uint64_t is_u64) by (done || autorewrite with zlen; cbn; lia). cbn [mbind res_bind].
  rewrite (MoveTo_app uint32_t is_u32) by (done || autorewrite with zlen; cbn; lia). cbn [mbind res_bind].
  rewrite write_symbols_app by (done || autorewrite with zlen; cbn; lia). cbn [mbind res_bind].
  change (sizeof uint64_t) with 8. change (sizeof uint32_t) with 4. rewrite !zdrop_zdrop by lia.
  set (pre := _ ++ symbols_bytes symbols). match goal with |- context [zdrop ?x zeros] => set (k := x) end.
  assert (enc uint32_t (zlen b) ++ b = pre ++ offsets_bytes offsets) as Epre by (unfold pre, b, file_bytes; cbn [app]; by rewrite <- !app_assoc).
  assert (zlen pre = k /\ k + zlen (offsets_bytes offsets) = 4 + zlen b) as [Hpre Hk].
  { pose proof (f_equal zlen Epre) as E. rewrite !zlen_app, zlen_u32 in E. unfold k in *. lia. }
  rewrite Epre. destruct offsets as [l|]; cbn [offsets_bytes] in *.
  - rewrite zlen_app, zlen_u32, zlen_enc_array_u64 in Hk. pose proof (zlen_nonneg l). rewrite (u32_small (zlen l)) by (unfold is_u32; lia).
    rewrite (MoveTo_app uint32_t is_u32) by (done || autorewrite with zlen; cbn; lia). cbn [mbind res_bind].
    rewrite (MoveToN_app uint64_t is_u64) by (done || autorewrite with zlen; cbn; lia). cbn [mbind res_bind].
    change (sizeof uint64_t) with 8. change (sizeof uint32_t) with 4. rewrite !zdrop_zdrop by lia. rewrite zdrop_ge, app_nil_r, <- app_assoc by lia.
    cbn [mbind res_bind]. by rewrite Z.eqb_refl.
  - rewrite zdrop_ge, !app_nil_r by (rewrite ?zlen_nil in Hk; lia). cbn [mbind res_bind]. by rewrite Z.eqb_refl.
Qed.

(** A symbol as it comes back: its length is cut to a [uint32_t] and it has no dump id. *)
Definition reread (s : Symbol) : Symbol := Symbol_new (symbol_name s) (symbol_addr s) (u32 (symbol_len s)).

Lemma parse_symbols_ok m l : forall p, bytes_at m p (symbols_bytes l) -> Forall symbol_ok l ->
  parse_symbols (length l) m p = Ok (reread <$> l, p + zlen (symbols_bytes l)).
Proof.
  induction l as [|s l IH]; intros p Hat Hl; [cbn; by rewrite Z.add_0_r|]. apply Forall_cons_1 in Hl as [[Hs1 Hs2] Hl]. rewrite zlen_symbols_cons.
  rewrite symbols_bytes_cons in Hat. apply bytes_at_split in Hat as [A1 Hat]. apply bytes_at_split in Hat as [A2 Hat]. apply bytes_at_split in Hat as [A3 Hat].
  rewrite zlen_cstr, zlen_u32, zlen_u64 in *. cbn [length parse_symbols]. rewrite (MoveFrom_at _ _ _ _ _ A1) by done. cbn [mbind res_bind].
  change (sizeof uint64_t) with 8. rewrite (MoveFrom_at _ is_u32 _ _ _ A2) by (unfold is_u32, u32; apply Z.mod_pos_bound; lia).
  cbn [mbind res_bind]. change (sizeof uint32_t) with 4. rewrite (cstr_at_ok _ _ _ A3) by done. cbn [mbind res_bind].
  rewrite IH by (done || by rewrite <- (Z.add_assoc (p + 8 + 4))). cbn [mbind res_bind]. rewrite fmap_cons. unfold reread at 2. do 2 f_equal. lia.
Qed.

Lemma parse_file_bytes path ty min_vaddr symbols offsets :
  let b := file_bytes path ty min_vaddr symbols offsets in
  zlen b < 2 ^ 32 -> cstring_ok path -> is_u32 ty -> is_u64 min_vaddr -> Forall symbol_ok symbols -> Forall is_u64 (default [] offsets) ->
  (ty = dso_type_id DSO_DEX_FILE <-> is_Some offsets) ->
  parse_file_feature (zlen b) b = Ok (mkFileInfo path ty min_vaddr (reread <$> symbols) (default [] offsets)).
Proof.
  intros b Hb Hp Ht Hm Hs Ho Hdex. destruct (file_feature_size_ok path ty min_vaddr symbols offsets Hb) as [_ Hn]. pose proof (zlen_nonneg symbols).
  assert (bytes_at b 0 b) as Hat by (exists [], []; by rewrite app_nil_r). pose proof (zlen_file_bytes path ty min_vaddr symbols offsets) as Ez. fold b in Ez.
  unfold b in Hat at 2. unfold file_bytes in Hat. rewrite u32_small in Hat by (unfold is_u32; lia).
  apply bytes_at_split in Hat as [A1 Hat]. apply bytes_at_split in Hat as [A2 Hat]. apply bytes_at_split in Hat as [A3 Hat]. apply bytes_at_split in Hat as [A4 Hat].
  apply bytes_at_split in Hat as [A5 Hat]. rewrite !zlen_cstr, !zlen_u32, ?zlen_u64 in *. rewrite Z.add_0_l in *.
  unfold parse_file_feature. rewrite (cstr_at_ok _ _ _ A1) by done. cbn [mbind res_bind]. rewrite (MoveFrom_at _ _ _ _ _ A2) by done. cbn [mbind res_bind].
  change (sizeof uint32_t) with 4. rewrite (MoveFrom_at _ _ _ _ _ A3) by done. cbn [mbind res_bind]. change (sizeof uint64_t) with 8.
  rewrite (MoveFrom_at _ is_u32 _ _ _ A4) by (unfold is_u32; lia). cbn [mbind res_bind]. change (sizeof uint32_t) with 4.
  assert (Z.to_nat (zlen symbols) = length symbols) as -> by (unfold zlen; lia). rewrite (parse_symbols_ok b symbols) by done. cbn [mbind res_bind].
  rewrite zlen_offsets_bytes in Ez. destruct offsets as [l|]; cbn [offsets_bytes default] in *.
  - rewrite (proj2 (Z.eqb_eq _ _)) by (apply Hdex; by eexists). pose proof (zlen_nonneg l). pose proof (zlen_nonneg path). pose proof (zlen_nonneg (symbols_bytes symbols)).
    rewrite u32_small in Hat by (unfold is_u32; lia). apply bytes_at_split in Hat as [A6 A7]. rewrite zlen_u32 in A7.
    rewrite (MoveFrom_at _ is_u32 _ _ _ A6) by (unfold is_u32; lia). cbn [mbind res_bind]. change (sizeof uint32_t) with 4.
    rewrite (MoveFromN_at _ is_u64 _ _ l) by (done || (change (sizeof uint64_t) with 8; lia)). cbn [mbind res_bind]. change (sizeof uint64_t) with 8.
    rewrite (proj2 (Z.eqb_eq _ _)) by lia. done.
  - rewrite (proj2 (Z.eqb_neq ty _)) by (intros E; apply Hdex in E as [? [=]]). cbn [mbind res_bind]. rewrite (proj2 (Z.eqb_eq _ _)) by lia. done.
Qed.

(** C30: what [WriteFileFeature] writes for a file is a length and that many
    bytes, which [ReadFileFeature] parses back to the path, the type, the
    minimal address, the dex file offsets and the symbols; of the length of a
    symbol only the low 32 bits are kept, and dump ids are lost.  The feature is below
    2^32 bytes, the strings have no zero inside, the numbers have their widths, and
    dex file offsets are given exactly for dex files. *)
Theorem file_feature_roundtrip path ty min_vaddr symbols offsets w :
  zlen (file_bytes path ty min_vaddr symbols offsets) < 2 ^ 32 -> cstring_ok path -> is_u32 ty -> is_u64 min_vaddr ->
  Forall symbol_ok symbols -> Forall is_u64 (default [] offsets) -> (ty = dso_type_id DSO_DEX_FILE <-> is_Some offsets) ->
  exists b, WriteFileFeature disk path ty min_vaddr symbols offsets w = WriteFeature disk FEAT_FILE (enc uint32_t (zlen b) ++ b) w /\
    parse_file_feature (zlen b) b = Ok (mkFileInfo path ty min_vaddr (reread <$> symbols) (default [] offsets)).
Proof.
  intros Hb Hp Ht Hm Hs Ho Hdex. exists (file_bytes path ty min_vaddr symbols offsets).
  split; [by apply WriteFileFeature_payload|by apply parse_file_bytes].
Qed.
End features.

(** * Loading the file feature *)

Section load.
Context `{files : DsoFiles}.

(** [AddDsoInfo] for each file. *)
Fixpoint add_infos (l : list FileInfo) (t : ThreadTree) : res ThreadTree :=
  match l with
  | [] => Ok t
  | i :: l => t ← AddDsoInfo (file_path i) (file_type i) (fi_min_vaddr i) (fi_symbols i) (fi_dex_file_offsets i) t; add_infos l t
  end.

Definition part (b : bytes) : bytes := enc uint32_t (zlen b) ++ b.
Definition part_of (bi : bytes * FileInfo) : Prop := zlen (fst bi) + 4 < 2 ^ 32 /\ parse_file_feature (zlen (fst bi)) (fst bi) = Ok (snd bi).
Definition parts_bytes (l : list (bytes * FileInfo)) : bytes := concat ((fun bi => part (fst bi)) <$> l).

Lemma parts_bytes_cons b i l : parts_bytes ((b, i) :: l) = part b ++ parts_bytes l.
Proof. done. Qed.

Lemma ReadFileFeature_part c p pos r d b i :
  features_find FEAT_FILE (feature_section_descriptors_ r) = Some d -> desc_ok d -> sec_offset d < 2 ^ 63 -> 0 <= pos -> pos + 4 + zlen b <= sec_size d ->
  bytes_at c (sec_offset d + pos) (part b) -> part_of (b, i) -> pos = 0 \/ p = sec_offset d + pos ->
  ReadFileFeature pos (rat c p r) = Ok (Some (i, pos + zlen (part b), rat c (sec_offset d + (pos + zlen (part b))) r)).
Proof.
  intros Hd [Ho1 Ho2] Hlt Hpos Hle Hat [Hb Hi] Hp. cbn [fst snd] in *. pose proof (zlen_nonneg b). unfold ReadFileFeature, part in *.
  change (feature_section_descriptors_ (rat c p r)) with (feature_section_descriptors_ r). rewrite Hd, (proj2 (Z.leb_gt _ _)) by lia.
  assert ((if pos =? 0 then Seek_file (sec_offset d) (rat c p r) else Ok (Some (rat c p r))) = Ok (Some (rat c (sec_offset d + pos) r))) as ->.
  { destruct (Z.eqb_spec pos 0) as [->|Hne]; [by rewrite Seek_rat, Z.add_0_r by lia|]. destruct Hp as [->| ->]; done. }
  cbn [try_bind]. apply bytes_at_split in Hat as [A1 A2]. rewrite zlen_u32 in A2. rewrite (Read_rat _ _ _ _ _ A1) by (by rewrite zlen_u32). cbn [mbind res_bind].
  assert (le_decode (enc uint32_t (zlen b)) = zlen b) as -> by (apply (dec_enc (c := uint32_t) (zlen b)); unfold is_u32; lia).
  rewrite (Read_rat _ _ _ _ _ A2) by done. cbn [mbind res_bind]. rewrite Hi. cbn [mbind res_bind]. unfold is_u64 in *.
  rewrite u32_small by (unfold is_u32; lia). rewrite u64_small by (unfold is_u64; lia). rewrite zlen_app, zlen_u32.
  replace (sec_offset d + pos + 4 + zlen b) with (sec_offset d + (pos + (4 + zlen b))) by lia. done.
Qed.

Lemma load_files_parts c d l : forall fuel p pos r t,
  features_find FEAT_FILE (feature_section_descriptors_ r) = Some d -> desc_ok d -> sec_offset d < 2 ^ 63 -> 0 <= pos -> pos + zlen (parts_bytes l) = sec_size d ->
  bytes_at c (sec_offset d + pos) (parts_bytes l) -> Forall part_of l -> pos = 0 \/ p = sec_offset d + pos -> (length l < fuel)%nat ->
  exists q, load_files fuel pos (rat c p r) t = (t ← add_infos (snd <$> l) t; Ok (rat c q r, t)).
Proof.
  induction l as [|[b i] l IH]; intros fuel p pos r t Hd Hok Hlt Hpos Hsum Hat Hl Hp Hf; (destruct fuel as [|fuel]; [cbn in Hf; lia|]); cbn [load_files].
  - exists p. change (zlen (parts_bytes [])) with 0 in Hsum. unfold ReadFileFeature.
    change (feature_section_descriptors_ (rat c p r)) with (feature_section_descriptors_ r). by rewrite Hd, (proj2 (Z.leb_le _ _)) by lia.
  - rewrite parts_bytes_cons in *. rewrite zlen_app in Hsum. apply bytes_at_split in Hat as [A1 A2]. apply Forall_cons_1 in Hl as [Hi Hl].
    pose proof (zlen_nonneg (parts_bytes l)).
    rewrite (ReadFileFeature_part c p pos r d b i) by (done || (unfold part in *; rewrite zlen_app, zlen_u32 in Hsum; lia)). cbn [mbind res_bind].
    rewrite fmap_cons. cbn [snd add_infos]. destruct (AddDsoInfo _ _ _ _ _ t) as [t1| |]; [|by exists 0..]. cbn [mbind res_bind].
    apply IH; [done|done|done|pose proof (zlen_nonneg (part b)); lia|lia|by rewrite Z.add_assoc|done|by right|cbn in Hf; lia].
Qed.

Lemma parts_len l : Forall part_of l -> zlen l <= zlen (parts_bytes l).
Proof.
  induction l as [|[b i] l IH]; intros Hl; [done|]. apply Forall_cons_1 in Hl as [_ Hl]. specialize (IH Hl).
  rewrite parts_bytes_cons, zlen_app, zlen_cons. unfold part. rewrite zlen_app, zlen_u32. pose proof (zlen_nonneg b). lia.
Qed.

(** [LoadBuildIdAndFileFeatures] on a file whose file feature consists of
    such parts, and which has no build ids, adds the information of every file
    to the thread tree, in order, and of nothing else. *)
Theorem LoadFileFeatures_all d l r t :
  features_find FEAT_BUILD_ID (feature_section_descriptors_ r) = None -> features_find FEAT_FILE (feature_section_descriptors_ r) = Some d ->
  desc_ok d -> sec_offset d < 2 ^ 63 -> sec_size d = zlen (parts_bytes l) -> bytes_at (content (rd_fp r)) (sec_offset d) (parts_bytes l) -> Forall part_of l ->
  exists q, LoadBuildIdAndFileFeatures r t =
    (t' ← add_infos (snd <$> l) (SetBuildIds_tree [] t); Ok (set_rd_fp (mkFile (content (rd_fp r)) q) r, t')).
Proof.
  intros Hb Hd Hok Hlt Hs Hat Hl. unfold LoadBuildIdAndFileFeatures, ReadBuildIdFeature, ReadFeatureSection. rewrite Hb. cbn [mbind res_bind build_ids_of].
  unfold HasFeature. rewrite Hd. set (c := content (rd_fp r)) in *. pose proof (bytes_at_bound _ _ _ Hat). pose proof (parts_len l Hl).
  assert (r = rat c (fpos (rd_fp r)) r) as Er by (unfold c; by destruct r as [[]]).
  replace (load_files (S (length c)) 0 r) with (load_files (S (length c)) 0 (rat c (fpos (rd_fp r)) r)) by (by rewrite <- Er).
  apply (load_files_parts c d l); [done|done|done|done|lia|by rewrite Z.add_0_r|done|by left|]. destruct Hok. unfold is_u64, zlen in *. lia.
Qed.
End load.

(** * Examples *)

Definition demo_writer : RecordFileWriter := RecordFileWriter_new [].

Lemma string_features_roundtrip_witness :
  parse_feature_string (string_bytes (str "4.4.0")) = Ok (str "4.4.0") /\
  parse_cmdline (cmdline_bytes [str "record"; str "ls"]) = Ok [str "record"; str "ls"] /\
  WriteMetaInfoFeature 4096 [(str "system", str "linux")] (put [] demo_writer) =
    WriteFeature 4096 FEAT_META_INFO (infos_bytes [(str "system", str "linux")]) (put [] demo_writer).
Proof.
  destruct (string_features_roundtrip 4096 FEAT_OSRELEASE (str "4.4.0") [str "record"; str "ls"] [(str "system", str "linux")] [] demo_writer)
    as (_ & H2 & _ & H4 & H5 & _).
  - split; [repeat constructor; cbn; lia|vm_compute; reflexivity].
  - repeat constructor; cbn; (lia || (vm_compute; reflexivity)).
  - vm_compute; reflexivity.
  - repeat constructor; cbn; lia.
  - apply NoDup_singleton.
  - vm_compute; reflexivity.
  - vm_compute; congruence.
  - vm_compute; congruence.
  - split; [exact H2|]. split; [exact H4|exact H5].
Defined.

Lemma file_feature_roundtrip_witness :
  exists b, WriteFileFeature 4096 (str "a.dex") 3 0 [mkSym (str "f") 16 (2 ^ 32 + 8) 5] (Some [40]) demo_writer =
      WriteFeature 4096 FEAT_FILE (enc uint32_t (zlen b) ++ b) demo_writer /\
    parse_file_feature (zlen b) b = Ok (mkFileInfo (str "a.dex") 3 0 [Symbol_new (str "f") 16 8] [40]).
Proof.
  apply (file_feature_roundtrip 4096 (str "a.dex") 3 0 [mkSym (str "f") 16 (2 ^ 32 + 8) 5] (Some [40]) demo_writer).
  - vm_compute; reflexivity.
  - repeat constructor; cbn; lia.
  - unfold is_u32; lia.
  - unfold is_u64; lia.
  - repeat constructor; cbn; lia.
  - repeat constructor; cbn; lia.
  - split; [intros _; by eexists|done].
Defined.

Definition demo_payload : bytes := file_bytes (str "a.dex") 3 0 [mkSym (str "f") 16 8 5] (Some [40]).
Definition demo_info : FileInfo := mkFileInfo (str "a.dex") 3 0 [Symbol_new (str "f") 16 8] [40].
Definition demo_reader : RecordFileReader :=
  mkReader (mkFile (replicate 10 0 ++ part demo_payload) 0) demo_undef [] [] ∅ [(FEAT_FILE, mkDesc 10 (zlen (part demo_payload)))] 0 0 None 0.

Definition demo_tree : ThreadTree :=
  mkTree ∅ [] (mkMapSet [] 0) [] ∅ ∅ false false (Symbol_new (str "unknown") 0 UINT64_MAX) DsoGlobals_init.

Lemma LoadFileFeatures_all_witness :
  exists q, LoadBuildIdAndFileFeatures (files := no_files) demo_reader demo_tree =
    (t' ← add_infos (files := no_files) [demo_info] (SetBuildIds_tree [] demo_tree); Ok (set_rd_fp (mkFile (content (rd_fp demo_reader)) q) demo_reader, t')).
Proof.
  apply (LoadFileFeatures_all (files := no_files) (mkDesc 10 (zlen (part demo_payload))) [(demo_payload, demo_info)] demo_reader demo_tree).
  - reflexivity.
  - reflexivity.
  - split; vm_compute; split; congruence.
  - reflexivity.
  - reflexivity.
  - by exists (replicate 10 0), [].
  - repeat constructor; vm_compute; reflexivity.
Defined.
