(* ===== verification/UnixSocket.v ===== *)
(** Model of src/simpleperf/UnixSocket.h and UnixSocket.cpp: messages over a
    stream socket.

    The circular buffer of messages to send, the connection around it, and two
    connected ends with the bytes that are under way between them.  The kernel
    decides how many bytes a [send] or [read] moves, and whether libevent can
    add or remove an event ([ok]); threads may call [SendMessage] and
    [NoMoreMessage] at any time, also between the parts of [WriteData] that hold
    the lock. *)
From stdpp Require Import base list numbers relations.
From Stdlib Require Import ZArith Lia.
From S2P Require Import Prelude Utils File.

(** * Messages *)

(** [UnixSocketMessage], with the [data] behind it. *)
Record UnixSocketMessage := mkMessage { msg_len : Z; msg_type : Z; msg_data : bytes }.
Definition UnixSocketMessageAlignment : Z := 8.

(** The memory at a message. *)
Definition message_bytes (m : UnixSocketMessage) : bytes := enc uint32_t (msg_len m) ++ enc uint32_t (msg_type m) ++ msg_data m.

(** [uint32_t aligned_len = Align(len, UnixSocketMessageAlignment)] *)
Definition aligned (len : Z) : Z := u32 (Align len UnixSocketMessageAlignment).

(** * [UnixSocketMessageBuffer] *)

Record UnixSocketMessageBuffer := mkBuffer { data_ : bytes; read_head_ : Z; valid_bytes_ : Z }.
Definition UnixSocketMessageBuffer_new (capacity : Z) : UnixSocketMessageBuffer := mkBuffer (replicate (Z.to_nat capacity) 0) 0 0.

Definition Empty (b : UnixSocketMessageBuffer) : bool := valid_bytes_ b =? 0.
Definition HalfFull (b : UnixSocketMessageBuffer) : bool := zlen (data_ b) <=? u32 (valid_bytes_ b * 2).

(** [a % b]; a division by zero is undefined behaviour. *)
Definition rem_u (a b : Z) : res Z := if b =? 0 then OutOfBounds else Ok (a mod b).

(** The message is copied to [write_head], around the end of the memory. *)
Definition copy_message (m : UnixSocketMessage) (write_head : Z) (data : bytes) : res bytes :=
  if msg_len m <=? u64 (zlen data - write_head) then
    s ← mem_read (message_bytes m) 0 (msg_len m);
    mem_write data write_head s
  else
    let len1 := u32 (zlen data - write_head) in
    s1 ← mem_read (message_bytes m) 0 len1;
    data ← mem_write data write_head s1;
    s2 ← mem_read (message_bytes m) len1 (u32 (msg_len m - len1));
    mem_write data 0 s2.

(** [None] is false: there is no room. *)
Definition StoreMessage (m : UnixSocketMessage) (b : UnixSocketMessageBuffer) : res (option UnixSocketMessageBuffer) :=
  let aligned_len := aligned (msg_len m) in
  if u64 (zlen (data_ b) - valid_bytes_ b) <? aligned_len then Ok None
  else
    write_head ← rem_u (read_head_ b +u32 valid_bytes_ b) (zlen (data_ b));
    d ← copy_message m write_head (data_ b);
    Ok (Some (mkBuffer d (read_head_ b) (valid_bytes_ b +u32 aligned_len))).

(** The position of the data and its size. *)
Definition PeekData (b : UnixSocketMessageBuffer) : Z * Z :=
  (read_head_ b,
   if (read_head_ b +u32 valid_bytes_ b) <=? zlen (data_ b) then valid_bytes_ b else zlen (data_ b) - read_head_ b).

Definition CommitData (size : Z) (b : UnixSocketMessageBuffer) : res UnixSocketMessageBuffer :=
  _ ← CHECK (size <=? valid_bytes_ b);
  h ← rem_u (u64 (read_head_ b + size)) (zlen (data_ b));
  Ok (mkBuffer (data_ b) (u32 h) (u32 (valid_bytes_ b - size))).

(** * [UnixSocketConnection] *)

Definition SEND_BUFFER_SIZE : Z := 512 * 1024.
Definition READ_BUFFER_SIZE : Z := 16 * 1024.

(** [read_event_] and [write_event_] are the member [enabled] of the events. *)
Record UnixSocketConnection := mkConn {
  is_open : bool;                          (* fd_ != -1 *)
  read_buffer_ : bytes;
  read_buffer_size_ : Z;
  read_event_ : bool;
  send_buffer_ : UnixSocketMessageBuffer;
  write_event_enabled_ : bool;
  write_event_ : bool;
  no_more_message_ : bool;
}.
Definition UnixSocketConnection_new : UnixSocketConnection :=
  mkConn true (replicate (Z.to_nat READ_BUFFER_SIZE) 0) 0 false (UnixSocketMessageBuffer_new SEND_BUFFER_SIZE) true false false.

Definition set_send_buffer (b : UnixSocketMessageBuffer) (c : UnixSocketConnection) : UnixSocketConnection :=
  mkConn (is_open c) (read_buffer_ c) (read_buffer_size_ c) (read_event_ c) b (write_event_enabled_ c) (write_event_ c) (no_more_message_ c).
Definition set_write_event (enabled e : bool) (c : UnixSocketConnection) : UnixSocketConnection :=
  mkConn (is_open c) (read_buffer_ c) (read_buffer_size_ c) (read_event_ c) (send_buffer_ c) enabled e (no_more_message_ c).
Definition set_read_event (e : bool) (c : UnixSocketConnection) : UnixSocketConnection :=
  mkConn (is_open c) (read_buffer_ c) (read_buffer_size_ c) e (send_buffer_ c) (write_event_enabled_ c) (write_event_ c) (no_more_message_ c).
Definition set_no_more_message (c : UnixSocketConnection) : UnixSocketConnection :=
  mkConn (is_open c) (read_buffer_ c) (read_buffer_size_ c) (read_event_ c) (send_buffer_ c) (write_event_enabled_ c) (write_event_ c) true.
Definition set_closed (c : UnixSocketConnection) : UnixSocketConnection :=
  mkConn false (read_buffer_ c) (read_buffer_size_ c) (read_event_ c) (send_buffer_ c) (write_event_enabled_ c) (write_event_ c) (no_more_message_ c).
Definition set_read_buffer (b : bytes) (n : Z) (c : UnixSocketConnection) : UnixSocketConnection :=
  mkConn (is_open c) b n (read_event_ c) (send_buffer_ c) (write_event_enabled_ c) (write_event_ c) (no_more_message_ c).

(** [IOEventLoop::EnableEvent] and [DisableEvent] on an event that is [e]: the
    returned bool and the event; [ok] is the success of libevent. *)
Definition EnableEvent (ok e : bool) : bool * bool := if e then (true, true) else if ok then (true, true) else (false, false).
Definition DisableEvent (ok e : bool) : bool * bool := if e then (if ok then (true, false) else (false, true)) else (true, false).

Definition EnableWriteEventWithLock (ok : bool) (c : UnixSocketConnection) : bool * UnixSocketConnection :=
  if write_event_enabled_ c then (true, c)
  else let '(r, e) := EnableEvent ok (write_event_ c) in (r, set_write_event r e c).
Definition DisableWriteEventWithLock (ok : bool) (c : UnixSocketConnection) : bool * UnixSocketConnection :=
  if write_event_enabled_ c
  then let '(r, e) := DisableEvent ok (write_event_ c) in (r, set_write_event (negb r) e c)
  else (true, c).

Definition SendMessage (ok : bool) (m : UnixSocketMessage) (undelayed : bool) (c : UnixSocketConnection) : res (bool * UnixSocketConnection) :=
  if no_more_message_ c then Ok (false, c)
  else
    o ← StoreMessage m (send_buffer_ c);
    match o with
    | None => Ok (false, c)
    | Some b =>
        let c := set_send_buffer b c in
        if undelayed || HalfFull (send_buffer_ c) then Ok (EnableWriteEventWithLock ok c) else Ok (true, c)
    end.

Definition NoMoreMessage (ok : bool) (c : UnixSocketConnection) : bool * UnixSocketConnection :=
  if no_more_message_ c then (true, c) else EnableWriteEventWithLock ok (set_no_more_message c).

(** [PrepareForIO], when the events could be added to the loop, which enables them. *)
Definition PrepareForIO (ok : bool) (c : UnixSocketConnection) : bool * UnixSocketConnection :=
  DisableWriteEventWithLock ok (set_write_event (write_event_enabled_ c) true (set_read_event true c)).

(** The result of [close_callback_] is [closed]. *)
Definition CloseConnection (ok1 ok2 closed : bool) (c : UnixSocketConnection) : bool * UnixSocketConnection :=
  let '(r, e) := DisableEvent ok1 (read_event_ c) in
  let c := set_read_event e c in
  if r then
    let '(r, c) := DisableWriteEventWithLock ok2 (set_no_more_message c) in
    if r then (closed, set_closed c) else (false, c)
  else (false, c).

(** [GetDataFromSendBuffer]: the bool, and the data, unless it returns false. *)
Definition GetDataFromSendBuffer (ok1 ok2 closed : bool) (c : UnixSocketConnection) : bool * (Z * Z) * UnixSocketConnection :=
  let d := PeekData (send_buffer_ c) in
  if negb (snd d =? 0) then (true, d, c)
  else
    let '(r, c) := if negb (no_more_message_ c) then DisableWriteEventWithLock ok1 c else CloseConnection ok1 ok2 closed c in
    (r, d, c).

(** [WriteData] is [GetDataFromSendBuffer], [send], which reads the data from
    the memory of the buffer, and then this. *)
Definition WriteData_commit (result : Z) (c : UnixSocketConnection) : res UnixSocketConnection :=
  b ← CommitData result (send_buffer_ c); Ok (set_send_buffer b c).

(** ** Receiving *)

Section receive.
(** What [read_callback_] answers to a message, given as its [len] bytes. *)
Context (callback : bytes -> bool).

(** [while (left_size >= sizeof(UnixSocketMessage))]: the messages delivered,
    whether the callback accepted them all, and [p], [left_size] and
    [aligned_len].  [None] when the fuel runs out. *)
Fixpoint consume_loop (fuel : nat) (buf : bytes) (p left_size aligned_len : Z) : res (option (list bytes * bool * Z * Z * Z)) :=
  if 8 <=? left_size then
    match fuel with
    | O => Ok None
    | S fuel =>
        '(len, _) ← MoveFromBinaryFormat uint32_t buf p;
        let aligned_len := aligned len in
        if left_size <? aligned_len then Ok (Some ([], true, p, left_size, aligned_len))
        else
          m ← mem_read buf p len;
          if callback m then
            o ← consume_loop fuel buf (p + aligned_len) (left_size - aligned_len) aligned_len;
            Ok (match o with Some (l, r, p, n, a) => Some (m :: l, r, p, n, a) | None => None end)
          else Ok (Some ([m], false, p, left_size, aligned_len))
    end
  else Ok (Some ([], true, p, left_size, aligned_len)).

(** The bool, the messages delivered and the connection. *)
Definition ConsumeDataInReadBuffer (c : UnixSocketConnection) : res (option (bool * list bytes * UnixSocketConnection)) :=
  o ← consume_loop (S (Z.to_nat (read_buffer_size_ c))) (read_buffer_ c) 0 (read_buffer_size_ c) 0;
  match o with
  | None => Ok None
  | Some (l, false, _, _, _) => Ok (Some (false, l, c))
  | Some (l, true, p, left_size, aligned_len) =>
      b ← (if 0 <? left_size then
             s ← mem_read (read_buffer_ c) p left_size;
             b ← mem_write (read_buffer_ c) 0 s;
             Ok (if zlen b <? aligned_len then b ++ replicate (Z.to_nat (aligned_len - zlen b)) 0 else b)
           else Ok (read_buffer_ c));
      Ok (Some (true, l, set_read_buffer b left_size c))
  end.

(** [ReadData] when [read] has returned the bytes [s]; no bytes are the end of
    the stream. *)
Definition ReadData (ok1 ok2 closed : bool) (s : bytes) (c : UnixSocketConnection) : res (option (bool * list bytes * UnixSocketConnection)) :=
  match s with
  | [] => let '(r, c) := CloseConnection ok1 ok2 closed c in Ok (Some (r, [], c))
  | _ =>
      b ← mem_write (read_buffer_ c) (read_buffer_size_ c) s;
      ConsumeDataInReadBuffer (set_read_buffer b (read_buffer_size_ c + zlen s) c)
  end.
End receive.

(** * The circular buffer is a queue of bytes *)

Lemma mod_wrap x c : 0 <= x < 2 * c -> x mod c = if x <? c then x else x - c.
Proof.
  intros Hx. destruct (Z.ltb_spec x c); [by rewrite Z.mod_small by lia|].
  symmetry. apply (Z.mod_unique_pos _ _ 1); lia.
Qed.

(** The bytes in the buffer, oldest first. *)
Definition nth_byte (b : UnixSocketMessageBuffer) (i : Z) : Z := default 0 (znth (data_ b) ((read_head_ b + i) mod zlen (data_ b))).
Definition contents (b : UnixSocketMessageBuffer) : bytes := nth_byte b <$> seqZ 0 (valid_bytes_ b).

Definition buffer_ok (b : UnixSocketMessageBuffer) : Prop :=
  0 < zlen (data_ b) < 2 ^ 31 /\ 0 <= read_head_ b < zlen (data_ b) /\ 0 <= valid_bytes_ b <= zlen (data_ b).

Lemma zlen_contents b : buffer_ok b -> zlen (contents b) = valid_bytes_ b.
Proof. intros (_ & _ & Hv). unfold contents. rewrite zlen_fmap, zlen_seqZ by lia. done. Qed.

Lemma znth_contents b i : 0 <= i < valid_bytes_ b -> znth (contents b) i = Some (nth_byte b i).
Proof. intros Hi. unfold contents. rewrite znth_fmap, znth_seqZ by lia. cbn. by rewrite Z.add_0_l. Qed.

(** The bytes from [read_head_] up to the end of the memory or of the data. *)
Lemma peek_bytes b n : buffer_ok b -> 0 <= n <= valid_bytes_ b -> read_head_ b + n <= zlen (data_ b) ->
  mem_read (data_ b) (read_head_ b) n = Ok (ztake n (contents b)).
Proof.
  intros Hb Hn Hc. pose proof (zlen_contents b Hb) as Hz. destruct Hb as (Hcap & Hr & Hv). apply bytes_at_read; [|by rewrite zlen_ztake by lia].
  apply bytes_at_znth. rewrite zlen_ztake by lia. split_and!; [lia|lia|]. intros i Hi. rewrite znth_ztake, znth_contents by lia.
  unfold nth_byte. rewrite Z.mod_small by lia. destruct (znth_some (data_ b) (read_head_ b + i)) as [x ->]; [lia|]. done.
Qed.

Lemma PeekData_size b : buffer_ok b -> snd (PeekData b) = Z.min (valid_bytes_ b) (zlen (data_ b) - read_head_ b).
Proof.
  intros (Hcap & Hr & Hv). cbn. rewrite u32_small by (unfold is_u32; lia). destruct (Z.leb_spec (read_head_ b + valid_bytes_ b) (zlen (data_ b))); lia.
Qed.

Lemma contents_eq b l : buffer_ok b -> zlen l = valid_bytes_ b -> (forall i, 0 <= i < valid_bytes_ b -> znth l i = Some (nth_byte b i)) -> contents b = l.
Proof.
  intros Hb Hl H. apply list_eq_znth; [by rewrite zlen_contents|]. intros i Hi. rewrite zlen_contents in Hi by done. by rewrite H, znth_contents.
Qed.

Lemma CommitData_ok k b : buffer_ok b -> 0 <= k <= valid_bytes_ b ->
  exists b', CommitData k b = Ok b' /\ buffer_ok b' /\ contents b' = zdrop k (contents b) /\ zlen (data_ b') = zlen (data_ b).
Proof.
  intros Hb Hk. pose proof Hb as (Hcap & Hr & Hv). unfold CommitData, rem_u. rewrite CHECK_le by lia. cbn [mbind res_bind].
  rewrite (proj2 (Z.eqb_neq _ _)) by lia. cbn [mbind res_bind]. rewrite u64_small by (unfold is_u64; lia).
  assert (0 <= (read_head_ b + k) mod zlen (data_ b) < zlen (data_ b)) as Hm by (apply Z.mod_pos_bound; lia).
  rewrite !u32_small by (unfold is_u32; lia). eexists. split; [done|]. set (b' := mkBuffer _ _ _).
  assert (buffer_ok b') as Hb' by (unfold buffer_ok; cbn; lia). split; [done|]. split; [|done]. pose proof (zlen_contents b Hb) as Hz.
  apply contents_eq; [done|rewrite zlen_zdrop by lia; cbn; lia|]. intros i Hi. cbn in Hi. rewrite znth_zdrop, znth_contents by lia.
  f_equal. unfold nth_byte, b'. cbn [data_ read_head_]. rewrite Z.add_mod_idemp_l by lia. do 3 f_equal. lia.
Qed.

(** A message as senders build it: its length covers the header and the data. *)
Definition message_ok (m : UnixSocketMessage) : Prop := msg_len m = 8 + zlen (msg_data m) /\ msg_len m <= 2 ^ 32 - 8 /\ is_u32 (msg_type m).

Lemma message_len m : message_ok m -> 8 <= msg_len m /\ zlen (message_bytes m) = msg_len m /\ msg_len m <= aligned (msg_len m) < msg_len m + 8.
Proof.
  intros (Hl & Hm & _). pose proof (zlen_nonneg (msg_data m)). split; [lia|]. split.
  - unfold message_bytes. rewrite !zlen_app, !enc_len. change (sizeof uint32_t) with 4. lia.
  - unfold aligned, UnixSocketMessageAlignment. pose proof (Align_8 (msg_len m) ltac:(lia)). rewrite u32_small by (unfold is_u32; lia). lia.
Qed.

(** A message in the stream, with the padding behind it. *)
Definition padded (m : UnixSocketMessage) (c : bytes) : Prop := message_ok m /\ exists pad, c = message_bytes m ++ pad /\ zlen c = aligned (msg_len m).

(** [b] is written from [w] on, around the end of the memory [d]. *)
Definition wraps (d : bytes) (w : Z) (b d' : bytes) : Prop :=
  zlen d' = zlen d /\ (forall j, 0 <= j < zlen b -> znth d' ((w + j) mod zlen d) = znth b j) /\
  (forall i, 0 <= i < zlen d -> (forall j, 0 <= j < zlen b -> i <> (w + j) mod zlen d) -> znth d' i = znth d i).

Lemma wraps_once d w b d' : 0 <= w -> w + zlen b <= zlen d -> mem_write d w b = Ok d' -> wraps d w b d'.
Proof.
  intros Hw Hb E. split_and!; [by apply mem_write_len in E| |].
  - intros j Hj. rewrite Z.mod_small by lia. rewrite (mem_write_znth _ _ _ _ _ E), (proj2 (Z.leb_le _ _)), (proj2 (Z.ltb_lt _ _)) by lia. cbn. f_equal. lia.
  - intros i Hi Hn. rewrite (mem_write_znth _ _ _ _ _ E). destruct (Z.leb_spec w i), (Z.ltb_spec i (w + zlen b)); cbn; try done.
    exfalso. apply (Hn (i - w)); [lia|]. rewrite Z.mod_small by lia. lia.
Qed.

Lemma wraps_twice d w b n d1 d' : 0 <= w < zlen d -> n = zlen d - w -> n <= zlen b <= zlen d ->
  mem_write d w (ztake n b) = Ok d1 -> mem_write d1 0 (zdrop n b) = Ok d' -> wraps d w b d'.
Proof.
  intros Hw Hn Hb E1 E2. assert (zlen (ztake n b) = n) as H1 by (apply zlen_ztake; lia). assert (zlen (zdrop n b) = zlen b - n) as H2 by (apply zlen_zdrop; lia).
  pose proof (mem_write_len _ _ _ _ E1) as L1. pose proof (mem_write_len _ _ _ _ E2) as L2.
  assert (forall i, 0 <= i < zlen d -> znth d' i = if i <? zlen b - n then znth b (n + i) else if w <=? i then znth b (i - w) else znth d i) as Hd.
  { intros i Hi. rewrite (mem_write_znth _ _ _ _ _ E2), (mem_write_znth _ _ _ _ _ E1), H1, H2, Z.add_0_l, (proj2 (Z.leb_le 0 i)) by lia. cbn [andb].
    destruct (Z.ltb_spec i (zlen b - n)); [rewrite znth_zdrop by lia; f_equal; lia|].
    rewrite (proj2 (Z.ltb_lt i (w + n))) by lia. destruct (Z.leb_spec w i); cbn [andb]; [|done]. rewrite znth_ztake by lia. done. }
  split_and!; [congruence| |].
  - intros j Hj. rewrite mod_wrap by lia. destruct (Z.ltb_spec (w + j) (zlen d)).
    + rewrite Hd by lia. destruct (Z.ltb_spec (w + j) (zlen b - n)); [lia|]. destruct (Z.leb_spec w (w + j)); [f_equal; lia|lia].
    + rewrite Hd by lia. destruct (Z.ltb_spec (w + j - zlen d) (zlen b - n)); [f_equal; lia|lia].
  - intros i Hi Hno. rewrite Hd by lia. destruct (Z.ltb_spec i (zlen b - n)).
    + exfalso. apply (Hno (n + i)); [lia|]. rewrite mod_wrap by lia. destruct (Z.ltb_spec (w + (n + i)) (zlen d)); lia.
    + destruct (Z.leb_spec w i); [|done]. exfalso. apply (Hno (i - w)); [lia|]. rewrite mod_wrap by lia. destruct (Z.ltb_spec (w + (i - w)) (zlen d)); lia.
Qed.

Lemma wraps_contents b d' m : buffer_ok b -> message_ok m -> valid_bytes_ b + aligned (msg_len m) <= zlen (data_ b) ->
  wraps (data_ b) ((read_head_ b + valid_bytes_ b) mod zlen (data_ b)) (message_bytes m) d' ->
  let b' := mkBuffer d' (read_head_ b) (valid_bytes_ b + aligned (msg_len m)) in
  buffer_ok b' /\ exists c, padded m c /\ contents b' = contents b ++ c.
Proof.
  intros Hb Hm Hroom (Hl & Hin & Hout) b'. destruct (message_len m Hm) as (H8 & Hz & Ha). pose proof Hb as (Hcap & Hr & Hv). pose proof (zlen_contents b Hb) as Hc.
  set (cap := zlen (data_ b)) in *. set (w := (read_head_ b + valid_bytes_ b) mod cap) in *.
  assert (w = if read_head_ b + valid_bytes_ b <? cap then read_head_ b + valid_bytes_ b else read_head_ b + valid_bytes_ b - cap) as Ew by (apply mod_wrap; lia).
  assert (0 <= w < cap) as Hw by (apply Z.mod_pos_bound; lia).
  assert (buffer_ok b') as Hb' by (unfold buffer_ok; cbn; rewrite Hl; lia). split; [done|].
  pose proof (zlen_contents b' Hb') as Hc'. cbn [b' valid_bytes_] in Hc'.
  assert (forall i, 0 <= i < valid_bytes_ b -> nth_byte b' i = nth_byte b i) as Hold.
  { intros i Hi. unfold nth_byte, b'. cbn [data_ read_head_]. rewrite Hl. fold cap. rewrite Hout; [done|apply Z.mod_pos_bound; lia|].
    intros j Hj. rewrite Hz in Hj. rewrite !mod_wrap by lia. destruct (Z.ltb_spec (read_head_ b + valid_bytes_ b) cap), (Z.ltb_spec (read_head_ b + i) cap), (Z.ltb_spec (w + j) cap); lia. }
  assert (forall j, 0 <= j < msg_len m -> Some (nth_byte b' (valid_bytes_ b + j)) = znth (message_bytes m) j) as Hnew.
  { intros j Hj. rewrite <- Hin by lia. unfold nth_byte, b'. cbn [data_ read_head_]. rewrite Hl. fold cap.
    rewrite Z.add_assoc, <- (Z.add_mod_idemp_l (read_head_ b + valid_bytes_ b)) by lia. fold w.
    destruct (znth_some d' ((w + j) mod cap)) as [x ->]; [rewrite Hl; apply Z.mod_pos_bound; lia|]. done. }
  exists (zdrop (valid_bytes_ b) (contents b')). split.
  - split; [done|]. exists (zdrop (valid_bytes_ b + msg_len m) (contents b')). split; [|rewrite zlen_zdrop; lia].
    rewrite <- (ztake_zdrop (msg_len m) (zdrop (valid_bytes_ b) (contents b'))), zdrop_zdrop by lia. f_equal.
    apply list_eq_znth; [rewrite zlen_ztake; [lia|rewrite zlen_zdrop; lia]|]. intros i Hi. rewrite zlen_ztake in Hi by (rewrite zlen_zdrop; lia).
    rewrite znth_ztake, znth_zdrop, znth_contents by (cbn; lia). by apply Hnew.
  - apply list_eq_znth; [rewrite zlen_app, zlen_zdrop; lia|]. intros i Hi. rewrite znth_app, Hc. destruct (Z.ltb_spec i (valid_bytes_ b)).
    + rewrite !znth_contents by (cbn; lia). f_equal. apply Hold. lia.
    + rewrite znth_zdrop by lia. f_equal. lia.
Qed.

Lemma copy_message_ok m d w : message_ok m -> 0 <= w < zlen d -> msg_len m <= zlen d < 2 ^ 31 ->
  exists d', copy_message m w d = Ok d' /\ wraps d w (message_bytes m) d'.
Proof.
  intros Hm Hw Hd. destruct (message_len m Hm) as (H8 & Hz & Ha). unfold copy_message. rewrite (u64_small (zlen d - w)) by (unfold is_u64; lia).
  destruct (Z.leb_spec (msg_len m) (zlen d - w)) as [Hfit|Hwrap].
  - rewrite (bytes_at_read _ 0 (message_bytes m)) by (done || by exists [], []; rewrite app_nil_r). cbn [mbind res_bind].
    destruct (mem_write_ok d w (message_bytes m)) as [d' E]; [lia|lia|]. exists d'. split; [done|by apply wraps_once; [lia|lia|]].
  - cbv zeta. rewrite (u32_small (zlen d - w)) by (unfold is_u32; lia). set (n := zlen d - w).
    assert (zlen (ztake n (message_bytes m)) = n) as Hn by (apply zlen_ztake; lia).
    rewrite (bytes_at_read _ 0 (ztake n (message_bytes m))) by (done || (exists [], (zdrop n (message_bytes m)); split; [by rewrite app_nil_l, ztake_zdrop|done])).
    cbn [mbind res_bind].
    destruct (mem_write_ok d w (ztake n (message_bytes m))) as [d1 E1]; [lia|lia|]. rewrite E1. cbn [mbind res_bind].
    rewrite u32_small by (unfold is_u32; lia).
    rewrite (bytes_at_read _ n (zdrop n (message_bytes m))) by ((exists (ztake n (message_bytes m)), []; by rewrite app_nil_r, ztake_zdrop) || (rewrite zlen_zdrop; lia)).
    cbn [mbind res_bind].
    destruct (mem_write_ok d1 0 (zdrop n (message_bytes m))) as [d' E2]; [lia|rewrite zlen_zdrop by lia; rewrite (mem_write_len _ _ _ _ E1); lia|].
    exists d'. split; [done|]. apply (wraps_twice d w (message_bytes m) n d1 d'); [lia|done|lia|exact E1|exact E2].
Qed.

Lemma StoreMessage_ok m b : buffer_ok b -> message_ok m ->
  (zlen (data_ b) < valid_bytes_ b + aligned (msg_len m) /\ StoreMessage m b = Ok None) \/
  (exists b' c, StoreMessage m b = Ok (Some b') /\ buffer_ok b' /\ padded m c /\ contents b' = contents b ++ c /\
     read_head_ b' = read_head_ b /\ valid_bytes_ b <= valid_bytes_ b' /\ zlen (data_ b') = zlen (data_ b)).
Proof.
  intros Hb Hm. destruct (message_len m Hm) as (H8 & Hz & Ha). pose proof Hb as (Hcap & Hr & Hv). unfold StoreMessage, rem_u.
  rewrite u64_small by (unfold is_u64; lia). destruct (Z.ltb_spec (zlen (data_ b) - valid_bytes_ b) (aligned (msg_len m))) as [Hno|Hroom]; [left; split; [lia|done]|right].
  rewrite (proj2 (Z.eqb_neq _ _)) by lia. cbn [mbind res_bind]. rewrite (u32_small (read_head_ b + _)) by (unfold is_u32; lia).
  destruct (copy_message_ok m (data_ b) ((read_head_ b + valid_bytes_ b) mod zlen (data_ b)) Hm) as (d' & -> & Hwr); [apply Z.mod_pos_bound; lia|lia|].
  cbn [mbind res_bind]. rewrite u32_small by (unfold is_u32; lia). destruct (wraps_contents b d' m Hb Hm ltac:(lia) Hwr) as (Hb' & c & Hc & E).
  eexists _, c. split; [done|]. split_and!; [done|done|done|done|cbn; lia|apply Hwr].
Qed.

(** * Messages out of the stream *)

Abbreviation accept_all := (fun _ : bytes => true).

Lemma padded_len m c : padded m c -> 8 <= zlen c /\ zlen c = aligned (msg_len m) /\ msg_len m <= zlen c.
Proof. intros [Hm (pad & -> & Hz)]. destruct (message_len m Hm) as (H8 & _ & Ha). lia. Qed.

(** A message whose header is in the buffer. *)
Lemma padded_read m c buf p v rest : padded m c -> bytes_at buf p v -> 8 <= zlen v -> (exists more, v ++ rest = c ++ more) ->
  MoveFromBinaryFormat uint32_t buf p = Ok (msg_len m, p + 4) /\
  (zlen c <= zlen v -> mem_read buf p (msg_len m) = Ok (message_bytes m) /\ exists v', v = c ++ v').
Proof.
  intros Hpad Hat H8 [more E]. destruct (padded_len m c Hpad) as (Hc8 & Hc & Hmc). destruct Hpad as [Hm (pad & -> & Hz)].
  destruct (message_len m Hm) as (_ & Hml & _). destruct Hm as (Hlen & Hmax & _). pose proof (zlen_nonneg (msg_data m)). split.
  - assert (exists t, v = enc uint32_t (msg_len m) ++ t) as [t ->].
    { exists (zdrop 4 v). rewrite <- (ztake_zdrop 4 v) at 1. f_equal. pose proof (f_equal (ztake 4) E) as E4. unfold message_bytes in E4. rewrite <- !app_assoc in E4.
      rewrite (ztake_app_exact 4 (enc uint32_t (msg_len m))) in E4 by (by rewrite enc_len). rewrite <- E4. unfold ztake. rewrite take_app_le; [done|]. unfold zlen in H8. lia. }
    apply bytes_at_split in Hat as [H1 _]. rewrite (MoveFrom_at _ is_u32 _ _ _ H1) by (unfold is_u32; lia). reflexivity.
  - intros Hle. assert (exists v', v = (message_bytes m ++ pad) ++ v') as [v' ->].
    { exists (zdrop (zlen (message_bytes m ++ pad)) v). rewrite <- (ztake_zdrop (zlen (message_bytes m ++ pad)) v) at 1. f_equal.
      pose proof (f_equal (ztake (zlen (message_bytes m ++ pad))) E) as E4. rewrite (ztake_app_exact _ (message_bytes m ++ pad) more) in E4 by done. etransitivity; [|exact E4]. unfold ztake. rewrite take_app_le; [done|]. unfold zlen in *. lia. }
    split; [|by exists v']. rewrite <- app_assoc in Hat. apply bytes_at_split in Hat as [H1 _]. by apply bytes_at_read.
Qed.

Definition starts (v : bytes) (chunks : list bytes) : Prop := match chunks with [] => v = [] | c :: _ => zlen v < zlen c end.

Lemma consume_loop_ok buf msgs chunks : Forall2 padded msgs chunks -> forall fuel p v rest a, bytes_at buf p v -> v ++ rest = concat chunks -> (Z.to_nat (zlen v) < fuel)%nat ->
  exists j v' a', consume_loop accept_all fuel buf p (zlen v) a = Ok (Some (message_bytes <$> take j msgs, true, p + zlen v - zlen v', zlen v', a')) /\
    bytes_at buf (p + zlen v - zlen v') v' /\ v' ++ rest = concat (drop j chunks) /\ starts v' (drop j chunks) /\ (8 <= zlen v' -> zlen v' < a') /\ zlen v' <= zlen v.
Proof.
  induction 1 as [|m c msgs chunks Hpad Hall IH]; intros fuel p v rest a Hat Hv Hf.
  - assert (v = []) as -> by (by destruct v). exists 0%nat, [], a. rewrite zlen_nil, Z.sub_0_r, Z.add_0_r. split_and!; try done. destruct fuel; done.
  - destruct (padded_len m c Hpad) as (Hc8 & Hc & Hmc). cbn [concat] in Hv. pose proof (zlen_nonneg v).
    destruct (Z.le_gt_cases 8 (zlen v)) as [H8|H8].
    + destruct fuel as [|fuel]; [lia|]. destruct (padded_read m c buf p v rest Hpad Hat H8) as [E1 E2]; [by eexists|].
      cbn [consume_loop]. rewrite (proj2 (Z.leb_le _ _) H8), E1. cbn [mbind res_bind]. rewrite <- Hc. destruct (Z.ltb_spec (zlen v) (zlen c)) as [Hlt|Hge].
      * exists 0%nat, v, (zlen c). replace (p + zlen v - zlen v) with p by lia. split_and!; try done.
      * destruct (E2 Hge) as [-> (v' & Ev)]. cbn [mbind res_bind]. subst v. rewrite zlen_app in *. rewrite <- app_assoc in Hv. apply app_inv_head in Hv.
        apply bytes_at_split in Hat as [_ Hat]. replace (zlen c + zlen v' - zlen c) with (zlen v') by lia. pose proof (zlen_nonneg v').
        destruct (IH fuel (p + zlen c) v' rest (zlen c) Hat Hv ltac:(lia)) as (j & v2 & a' & -> & H1 & H2 & H3 & H4 & H5). cbn [mbind res_bind].
        exists (S j), v2, a'. replace (p + (zlen c + zlen v') - zlen v2) with (p + zlen c + zlen v' - zlen v2) by lia. split_and!; try done. lia.
    + exists 0%nat, v, a. replace (p + zlen v - zlen v) with p by lia. split_and!; try done; [|cbn; lia|lia].
      destruct fuel; cbn [consume_loop]; by rewrite (proj2 (Z.leb_gt _ _)) by lia.
Qed.

(** The receiving end: the bytes in its buffer, and there is room for more. *)
Definition read_bytes (c : UnixSocketConnection) : bytes := ztake (read_buffer_size_ c) (read_buffer_ c).
Definition read_ok (c : UnixSocketConnection) : Prop := 0 <= read_buffer_size_ c < zlen (read_buffer_ c) /\ READ_BUFFER_SIZE <= zlen (read_buffer_ c).

Lemma ReadData_ok ok1 ok2 closed s c msgs chunks rest : read_ok c -> s <> [] -> zlen s <= zlen (read_buffer_ c) - read_buffer_size_ c ->
  Forall2 padded msgs chunks -> read_bytes c ++ s ++ rest = concat chunks ->
  exists j c', ReadData accept_all ok1 ok2 closed s c = Ok (Some (true, message_bytes <$> take j msgs, c')) /\ read_ok c' /\
    read_bytes c' ++ rest = concat (drop j chunks) /\ starts (read_bytes c') (drop j chunks) /\
    (exists b n, c' = set_read_buffer b n c).
Proof.
  intros [Hn Hsz] Hs Hroom Hall Hst. destruct s as [|x s]; [done|]. set (t := x :: s) in *. unfold ReadData. fold t. assert (0 < zlen t) as Ht by (unfold t; rewrite zlen_cons; pose proof (zlen_nonneg s); lia).
  destruct (mem_write_ok (read_buffer_ c) (read_buffer_size_ c) t) as [b E]; [lia|lia|]. rewrite E. cbn [mbind res_bind].
  pose proof (mem_write_len _ _ _ _ E) as Lb. assert (b = (read_bytes c ++ t) ++ zdrop (read_buffer_size_ c + zlen t) (read_buffer_ c)) as Eb.
  { unfold mem_write in E. destruct (_ && _); [|done]. unfold read_bytes. rewrite <- app_assoc. congruence. }
  unfold ConsumeDataInReadBuffer. cbn [read_buffer_size_ set_read_buffer read_buffer_].
  assert (zlen (read_bytes c) = read_buffer_size_ c) as Lr by (apply zlen_ztake; lia). set (v := read_bytes c ++ t) in *.
  assert (zlen v = read_buffer_size_ c + zlen t) as Lv by (unfold v; rewrite zlen_app; lia). rewrite <- Lv.
  assert (bytes_at b 0 v) as Hat by (rewrite Eb; apply bytes_at_intro).
  destruct (consume_loop_ok b msgs chunks Hall (S (Z.to_nat (zlen v))) 0 v rest 0 Hat) as (j & v' & a' & -> & H1 & H2 & H3 & H4 & H5); [unfold v; by rewrite <- app_assoc|lia|].
  cbn [mbind res_bind]. rewrite Z.add_0_l in *. pose proof (zlen_nonneg v') as Hv'.
  assert (forall b' rb, bytes_at b' 0 v' -> READ_BUFFER_SIZE <= zlen b' -> zlen v' < zlen b' -> rb = set_read_buffer b' (zlen v') (set_read_buffer b (zlen v) c) ->
    read_ok rb /\ read_bytes rb ++ rest = concat (drop j chunks) /\ starts (read_bytes rb) (drop j chunks) /\ exists b n, rb = set_read_buffer b n c) as Hend.
  { intros b' rb Hat' Hsz' Hlt ->. assert (read_bytes (set_read_buffer b' (zlen v') (set_read_buffer b (zlen v) c)) = v') as ->.
    { unfold read_bytes. cbn. destruct Hat' as (pre & post & -> & Hp). assert (pre = []) as -> by (destruct pre; [done|]; rewrite zlen_cons in Hp; pose proof (zlen_nonneg pre); lia).
      rewrite app_nil_l. by apply ztake_app_exact. }
    split_and!; [split; cbn; lia|done|done|by eexists _, _]. }
  unfold READ_BUFFER_SIZE in *. destruct (Z.ltb_spec 0 (zlen v')) as [Hpos|Hz].
  - rewrite (bytes_at_read _ _ _ _ H1) by done. cbn [mbind res_bind]. destruct (mem_write_ok b 0 v') as [b' Eb']; [lia|lia|]. rewrite Eb'. cbn [mbind res_bind].
    pose proof (mem_write_len _ _ _ _ Eb') as Lb'. pose proof (bytes_at_write_same _ _ _ _ Eb') as Hat'. eexists j, _. split; [done|].
    destruct (Z.ltb_spec (zlen b') a') as [Hgrow|Hsame].
    + apply (Hend (b' ++ replicate (Z.to_nat (a' - zlen b')) 0)); [|rewrite zlen_app; pose proof (zlen_nonneg (replicate (Z.to_nat (a' - zlen b')) 0)); lia|rewrite zlen_app, zlen_replicate; lia|done].
      destruct Hat' as (pre & post & -> & Hp). exists pre, (post ++ replicate (Z.to_nat (a' - zlen (pre ++ v' ++ post))) 0). by rewrite <- !app_assoc.
    + apply (Hend b'); [done|lia| |done]. destruct (Z.le_gt_cases 8 (zlen v')); [specialize (H4 ltac:(lia)); lia|lia].
  - cbn [mbind res_bind]. eexists j, _. split; [done|]. assert (v' = []) as -> by (destruct v'; [done|]; rewrite zlen_cons in Hz; pose proof (zlen_nonneg v'); lia).
    apply (Hend b); [by exists [], b|lia|rewrite zlen_nil; lia|by rewrite zlen_nil].
Qed.

(** * Two connected ends *)

(** Where the thread of the sender is in [WriteData]: outside; with the
    position and size of the data to send; behind [send], which took [k] bytes. *)
Inductive io := Idle | Peeked (p n : Z) | Sent (k : Z).

(** [accepted] are the messages that were stored, [delivered] those that the
    callback of the receiver has seen. *)
Record system := mkSystem {
  sender : UnixSocketConnection;
  pc : io;
  wire : bytes;
  receiver : UnixSocketConnection;
  accepted : list UnixSocketMessage;
  delivered : list bytes;
}.

Definition stored (m : UnixSocketMessage) (c : UnixSocketConnection) : bool :=
  negb (no_more_message_ c) && match StoreMessage m (send_buffer_ c) with Ok (Some _) => true | _ => false end.

Inductive step : system -> system -> Prop :=
| step_SendMessage s ok m undelayed r c :
    message_ok m -> SendMessage ok m undelayed (sender s) = Ok (r, c) ->
    step s (mkSystem c (pc s) (wire s) (receiver s) (if stored m (sender s) then accepted s ++ [m] else accepted s) (delivered s))
| step_NoMoreMessage s ok :
    step s (mkSystem (snd (NoMoreMessage ok (sender s))) (pc s) (wire s) (receiver s) (accepted s) (delivered s))
| step_peek s ok1 ok2 closed r d c :
    pc s = Idle -> write_event_ (sender s) = true -> GetDataFromSendBuffer ok1 ok2 closed (sender s) = (r, d, c) ->
    step s (mkSystem c (if r && negb (snd d =? 0) then Peeked (fst d) (snd d) else Idle) (wire s) (receiver s) (accepted s) (delivered s))
| step_send s p n k b :
    pc s = Peeked p n -> 0 <= k <= n -> mem_read (data_ (send_buffer_ (sender s))) p k = Ok b ->
    step s (mkSystem (sender s) (Sent k) (wire s ++ b) (receiver s) (accepted s) (delivered s))
| step_send_fails s p n :
    pc s = Peeked p n -> step s (mkSystem (sender s) Idle (wire s) (receiver s) (accepted s) (delivered s))
| step_commit s k c :
    pc s = Sent k -> WriteData_commit k (sender s) = Ok c ->
    step s (mkSystem c Idle (wire s) (receiver s) (accepted s) (delivered s))
| step_read s k ok1 ok2 closed r l c :
    read_event_ (receiver s) = true -> 0 < k <= zlen (wire s) -> k <= zlen (read_buffer_ (receiver s)) - read_buffer_size_ (receiver s) ->
    ReadData accept_all ok1 ok2 closed (ztake k (wire s)) (receiver s) = Ok (Some (r, l, c)) ->
    step s (mkSystem (sender s) (pc s) (zdrop k (wire s)) c (accepted s) (delivered s ++ l))
| step_end s ok1 ok2 closed r l c :
    read_event_ (receiver s) = true -> wire s = [] -> is_open (sender s) = false ->
    ReadData accept_all ok1 ok2 closed [] (receiver s) = Ok (Some (r, l, c)) ->
    step s (mkSystem (sender s) (pc s) (wire s) c (accepted s) (delivered s ++ l)).

Definition connected : system :=
  let c := snd (PrepareForIO true UnixSocketConnection_new) in mkSystem c Idle [] c [] [].

Definition reachable (s : system) : Prop := rtc step connected s.

(** ** The invariant *)

Definition sent (s : system) : Z := match pc s with Sent k => k | _ => 0 end.
Definition pc_ok (s : system) : Prop :=
  let b := send_buffer_ (sender s) in
  match pc s with
  | Idle => True
  | Peeked p n => p = read_head_ b /\ 0 <= n <= valid_bytes_ b /\ p + n <= zlen (data_ b)
  | Sent k => 0 <= k <= valid_bytes_ b
  end.

Record socket_inv (s : system) : Prop := {
  si_read : read_ok (receiver s);
  si_buffer : buffer_ok (send_buffer_ (sender s));
  si_pc : pc_ok s;
  si_stream : exists n chunks, Forall2 padded (accepted s) chunks /\ (n <= length chunks)%nat /\ delivered s = message_bytes <$> take n (accepted s) /\
    read_bytes (receiver s) ++ wire s ++ zdrop (sent s) (contents (send_buffer_ (sender s))) = concat (drop n chunks) /\
    starts (read_bytes (receiver s)) (drop n chunks);
}.

(** The operations on events keep the buffers. *)
Definition same_buffers (c c' : UnixSocketConnection) : Prop :=
  send_buffer_ c' = send_buffer_ c /\ read_buffer_ c' = read_buffer_ c /\ read_buffer_size_ c' = read_buffer_size_ c.

Lemma Enable_same ok c : same_buffers c (snd (EnableWriteEventWithLock ok c)).
Proof. unfold EnableWriteEventWithLock. destruct (write_event_enabled_ c); [done|]. by destruct (EnableEvent ok (write_event_ c)). Qed.
Lemma Disable_same ok c : same_buffers c (snd (DisableWriteEventWithLock ok c)).
Proof. unfold DisableWriteEventWithLock. destruct (write_event_enabled_ c); [|done]. by destruct (DisableEvent ok (write_event_ c)). Qed.
Lemma Close_same ok1 ok2 closed c : same_buffers c (snd (CloseConnection ok1 ok2 closed c)).
Proof.
  unfold CloseConnection. destruct (DisableEvent ok1 (read_event_ c)) as [r e]. destruct r; [|done].
  pose proof (Disable_same ok2 (set_no_more_message (set_read_event e c))) as H. destruct (DisableWriteEventWithLock _ _) as [r c']. by destruct r.
Qed.
Lemma NoMoreMessage_same ok c : same_buffers c (snd (NoMoreMessage ok c)).
Proof. unfold NoMoreMessage. destruct (no_more_message_ c); [done|]. exact (Enable_same ok (set_no_more_message c)). Qed.
Lemma GetData_same ok1 ok2 closed c r d c' : GetDataFromSendBuffer ok1 ok2 closed c = (r, d, c') -> same_buffers c c' /\ d = PeekData (send_buffer_ c).
Proof.
  unfold GetDataFromSendBuffer. destruct (negb _); [by intros [= <- <- <-]|]. pose proof (Disable_same ok1 c) as H1. pose proof (Close_same ok1 ok2 closed c) as H2.
  destruct (negb (no_more_message_ c)); [destruct (DisableWriteEventWithLock ok1 c)|destruct (CloseConnection ok1 ok2 closed c)]; by intros [= <- <- <-].
Qed.

Lemma read_ok_same c c' : same_buffers c c' -> read_ok c -> read_ok c' /\ read_bytes c' = read_bytes c.
Proof. intros (_ & E1 & E2). unfold read_ok, read_bytes. by rewrite E1, E2. Qed.

(** A sender with the same buffer. *)
Lemma inv_sender s c pc' : socket_inv s -> send_buffer_ c = send_buffer_ (sender s) ->
  pc_ok (mkSystem c pc' (wire s) (receiver s) (accepted s) (delivered s)) -> (forall k, pc' = Sent k -> sent s = k) -> (sent s <> 0 -> exists k, pc' = Sent k) ->
  socket_inv (mkSystem c pc' (wire s) (receiver s) (accepted s) (delivered s)).
Proof.
  intros [H1 H2 H3 (n & chunks & A)] E Hpc Hs1 Hs2. split; [done|cbn; by rewrite E|done|]. exists n, chunks. cbn. rewrite E.
  assert (sent (mkSystem c pc' (wire s) (receiver s) (accepted s) (delivered s)) = sent s) as ->; [|done].
  unfold sent at 1. cbn. destruct pc' as [| |k]; [| |by rewrite (Hs1 k)]; destruct (Z.eq_dec (sent s) 0) as [->|Hne]; try done; by destruct (Hs2 Hne).
Qed.

(** [SendMessage] appends the message to the stream, or leaves it. *)
Lemma SendMessage_ok ok m undelayed c : buffer_ok (send_buffer_ c) -> message_ok m ->
  exists r c', SendMessage ok m undelayed c = Ok (r, c') /\ buffer_ok (send_buffer_ c') /\
    read_head_ (send_buffer_ c') = read_head_ (send_buffer_ c) /\ valid_bytes_ (send_buffer_ c) <= valid_bytes_ (send_buffer_ c') /\
    zlen (data_ (send_buffer_ c')) = zlen (data_ (send_buffer_ c)) /\
    (if stored m c then exists x, padded m x /\ contents (send_buffer_ c') = contents (send_buffer_ c) ++ x else contents (send_buffer_ c') = contents (send_buffer_ c)).
Proof.
  intros Hb Hm. unfold SendMessage, stored. destruct (no_more_message_ c); [by eexists _, _|]. cbn [negb andb].
  destruct (StoreMessage_ok m (send_buffer_ c) Hb Hm) as [[_ ->]|(b & x & -> & H1 & H2 & H3 & H4 & H5 & H6)]; cbn [mbind res_bind]; [by eexists _, _|].
  destruct (undelayed || HalfFull (send_buffer_ (set_send_buffer b c))).
  - destruct (EnableWriteEventWithLock ok (set_send_buffer b c)) as [r c'] eqn:E. destruct (Enable_same ok (set_send_buffer b c)) as (Es & _). rewrite E in Es. cbn in Es.
    exists r, c'. rewrite Es. split_and!; try done. by exists x.
  - eexists _, _. split; [done|]. cbn. split_and!; try done. by exists x.
Qed.

Lemma drop_app_chunk n (chunks : list bytes) x : (n <= length chunks)%nat -> drop n (chunks ++ [x]) = drop n chunks ++ [x].
Proof. intros H. by rewrite drop_app_le. Qed.

Lemma inv_SendMessage s ok m undelayed r c : socket_inv s -> message_ok m -> SendMessage ok m undelayed (sender s) = Ok (r, c) ->
  socket_inv (mkSystem c (pc s) (wire s) (receiver s) (if stored m (sender s) then accepted s ++ [m] else accepted s) (delivered s)).
Proof.
  intros [H1 H2 H3 (n & chunks & A1 & A2 & A3 & A4 & A5)] Hm E.
  destruct (SendMessage_ok ok m undelayed (sender s) H2 Hm) as (r' & c' & E' & B1 & B2 & B3 & B4 & B5). rewrite E in E'. injection E' as <- <-.
  split; [done|done| |].
  - unfold pc_ok in *. cbn. destruct (pc s); [done|rewrite B2, B4; lia|lia].
  - change (sent (mkSystem c (pc s) (wire s) (receiver s) _ (delivered s))) with (sent s). cbn [accepted delivered receiver wire sender].
    destruct (stored m (sender s)); [|exists n, chunks; by rewrite B5]. destruct B5 as (x & Hx & B5). exists n, (chunks ++ [x]).
    pose proof (Forall2_length _ _ _ A1) as Hlen. assert (sent s <= zlen (contents (send_buffer_ (sender s)))) as Hs.
    { rewrite zlen_contents by done. unfold sent, pc_ok in *. destruct H2 as (? & ? & ?). destruct (pc s); lia. }
    split_and!.
    + apply Forall2_app; [done|by constructor].
    + rewrite length_app. lia.
    + rewrite A3, take_app_le by lia. done.
    + rewrite B5, drop_app_chunk, concat_app by done. cbn [concat]. rewrite app_nil_r, <- A4, <- !app_assoc. do 2 f_equal.
      unfold zdrop. rewrite drop_app_le; [done|]. unfold zlen in Hs. lia.
    + rewrite drop_app_chunk by done. destruct (drop n chunks) as [|y l]; [|done]. cbn in *. rewrite A5. destruct (padded_len m x Hx). rewrite zlen_nil. lia.
Qed.

Lemma inv_send s p n k b : socket_inv s -> pc s = Peeked p n -> 0 <= k <= n -> mem_read (data_ (send_buffer_ (sender s))) p k = Ok b ->
  socket_inv (mkSystem (sender s) (Sent k) (wire s ++ b) (receiver s) (accepted s) (delivered s)).
Proof.
  intros [H1 H2 H3 (j & chunks & A1 & A2 & A3 & A4 & A5)] Hpc Hk E. unfold pc_ok in H3. rewrite Hpc in H3. destruct H3 as (-> & Hn & Hc).
  rewrite peek_bytes in E by (done || lia). injection E as <-. split; [done|done|cbn; unfold pc_ok; cbn; lia|]. exists j, chunks. cbn [accepted delivered receiver wire sender].
  split_and!; try done. rewrite <- A4. unfold sent. rewrite Hpc. cbn [pc]. rewrite zdrop_0, <- app_assoc. do 2 f_equal. apply ztake_zdrop.
Qed.

Lemma inv_commit s k c : socket_inv s -> pc s = Sent k -> WriteData_commit k (sender s) = Ok c ->
  socket_inv (mkSystem c Idle (wire s) (receiver s) (accepted s) (delivered s)).
Proof.
  intros [H1 H2 H3 (j & chunks & A)] Hpc E. unfold pc_ok in H3. rewrite Hpc in H3. destruct (CommitData_ok k (send_buffer_ (sender s)) H2 H3) as (b & Eb & B1 & B2 & _).
  unfold WriteData_commit in E. rewrite Eb in E. cbn [mbind res_bind] in E. injection E as <-. split; [done|done|done|]. exists j, chunks.
  unfold sent in *. rewrite Hpc in A. cbn. rewrite zdrop_0. change (send_buffer_ (set_send_buffer b (sender s))) with b. by rewrite B2.
Qed.

Lemma inv_read s k ok1 ok2 closed r l c : socket_inv s -> 0 < k <= zlen (wire s) -> k <= zlen (read_buffer_ (receiver s)) - read_buffer_size_ (receiver s) ->
  ReadData accept_all ok1 ok2 closed (ztake k (wire s)) (receiver s) = Ok (Some (r, l, c)) ->
  socket_inv (mkSystem (sender s) (pc s) (zdrop k (wire s)) c (accepted s) (delivered s ++ l)).
Proof.
  intros [H1 H2 H3 (j & chunks & A1 & A2 & A3 & A4 & A5)] Hk Hroom E. pose proof (Forall2_length _ _ _ A1) as Hlen.
  set (tl := zdrop (sent s) (contents (send_buffer_ (sender s)))) in *.
  destruct (ReadData_ok ok1 ok2 closed (ztake k (wire s)) (receiver s) (drop j (accepted s)) (drop j chunks) (zdrop k (wire s) ++ tl)) as (i & c' & E' & B1 & B2 & B3 & _).
  - done.
  - intros E0. pose proof (f_equal zlen E0) as Ez. rewrite zlen_ztake, zlen_nil in Ez by lia. lia.
  - rewrite zlen_ztake by lia. done.
  - by apply Forall2_drop.
  - by rewrite (app_assoc (ztake k (wire s))), ztake_zdrop.
  - rewrite E in E'. injection E' as -> -> ->. rewrite !drop_drop in B2, B3.
    split; [done|done|done|]. exists (Nat.min (j + i) (length chunks)), chunks. cbn [accepted delivered receiver wire sender].
    change (sent (mkSystem _ (pc s) _ _ _ _)) with (sent s). fold tl.
    assert (drop (Nat.min (j + i) (length chunks)) chunks = drop (j + i) chunks) as ->.
    { destruct (Nat.min_spec (j + i) (length chunks)) as [[_ ->]|[? ->]]; [done|]. by rewrite !drop_ge by lia. }
    split_and!; [done|lia| |done|done]. rewrite A3, <- fmap_app. f_equal.
    assert (take j (accepted s) ++ take i (drop j (accepted s)) = take (j + i) (accepted s)) as -> by (by rewrite take_take_drop).
    destruct (Nat.min_spec (j + i) (length chunks)) as [[_ ->]|[? ->]]; [done|]. by rewrite !take_ge by lia.
Qed.

Lemma step_inv s s' : step s s' -> socket_inv s -> socket_inv s'.
Proof.
  intros Hstep Hinv. destruct Hstep.
  - by eapply inv_SendMessage.
  - apply inv_sender; [done|apply NoMoreMessage_same| | |].
    + destruct Hinv as [_ _ H3 _]. unfold pc_ok in *. cbn. by rewrite (proj1 (NoMoreMessage_same ok (sender s))).
    + intros k Hk. unfold sent. by rewrite Hk.
    + intros Hs. unfold sent in Hs. destruct (pc s); [done|done|by eexists].
  - destruct (GetData_same _ _ _ _ _ _ _ H1) as [[Es _] ->]. apply inv_sender; [done|done| | |].
    + destruct Hinv as [_ H2 _ _]. unfold pc_ok. cbn [pc sender]. rewrite Es. destruct (r && _); [|done]. cbn [fst].
      rewrite PeekData_size by done. change (fst (PeekData (send_buffer_ (sender s)))) with (read_head_ (send_buffer_ (sender s))). destruct H2 as (? & ? & ?). lia.
    + intros k Hk. by destruct (r && _).
    + intros Hs. unfold sent in Hs. by rewrite H in Hs.
  - by eapply inv_send.
  - apply inv_sender; [done|done|done|done|]. intros Hs. unfold sent in Hs. by rewrite H in Hs.
  - by eapply inv_commit.
  - by eapply inv_read.
  - cbn in H2. destruct (CloseConnection ok1 ok2 closed (receiver s)) as [r' c'] eqn:E. injection H2 as <- <- <-.
    destruct Hinv as [H3 H4 H5 (n & chunks & A)]. pose proof (Close_same ok1 ok2 closed (receiver s)) as Hs. rewrite E in Hs. cbn in Hs.
    destruct (read_ok_same _ _ Hs H3) as [H6 H7]. split; [done|done|done|]. exists n, chunks. cbn. rewrite H7, app_nil_r. done.
Qed.

Lemma buffer_new_ok n : 0 < n < 2 ^ 31 -> buffer_ok (UnixSocketMessageBuffer_new n) /\ contents (UnixSocketMessageBuffer_new n) = [].
Proof. intros Hn. split; [|done]. unfold buffer_ok, UnixSocketMessageBuffer_new. cbn [data_ read_head_ valid_bytes_]. rewrite zlen_replicate. lia. Qed.

Lemma connected_inv : socket_inv connected.
Proof.
  destruct (buffer_new_ok SEND_BUFFER_SIZE) as [H1 H2]; [unfold SEND_BUFFER_SIZE; lia|].
  assert (forall c, same_buffers UnixSocketConnection_new c -> read_ok c /\ read_bytes c = [] /\ send_buffer_ c = UnixSocketMessageBuffer_new SEND_BUFFER_SIZE) as Hc.
  { intros c (E1 & E2 & E3). unfold read_ok, read_bytes. rewrite E1, E2, E3. unfold UnixSocketConnection_new. cbn [read_buffer_ read_buffer_size_ send_buffer_].
    rewrite zlen_replicate. unfold READ_BUFFER_SIZE. split_and!; [lia|lia|lia|done|done]. }
  destruct (Hc (snd (PrepareForIO true UnixSocketConnection_new))) as (R1 & R2 & R3); [exact (Disable_same true (set_write_event true true (set_read_event true UnixSocketConnection_new)))|].
  unfold connected. set (c := snd (PrepareForIO true UnixSocketConnection_new)) in *. clearbody c. split; [done|by rewrite <- R3 in H1|done|].
  exists 0%nat, []. cbn [accepted delivered receiver wire sender]. rewrite R2, R3, H2. by split_and!.
Qed.

Lemma reachable_inv s : reachable s -> socket_inv s.
Proof.
  unfold reachable. intros H. pose proof connected_inv as Hi. induction H as [s|s1 s2 s3 Hst _ IH]; [done|]. apply IH. by eapply step_inv.
Qed.

(** C10: for messages as the senders build them (the length of header and data, at
    most 2^32 - 8, and a 32-bit type): however the threads interleave and however many bytes each [send] and
    [read] moves, the receiver has been handed the first of the messages that
    the sender stored in its buffer, whole, once and in order; and when nothing is left in
    the send buffer and under way, it has been handed all of them. *)
Theorem UnixSocket_fifo s :
  reachable s ->
  (exists n, delivered s = message_bytes <$> take n (accepted s)) /\
  (wire s = [] -> Empty (send_buffer_ (sender s)) = true -> delivered s = message_bytes <$> accepted s).
Proof.
  intros Hr. destruct (reachable_inv s Hr) as [H1 H2 H3 (n & chunks & A1 & A2 & A3 & A4 & A5)]. split; [by exists n|]. intros Hw He. rewrite A3. f_equal.
  apply Z.eqb_eq in He. assert (contents (send_buffer_ (sender s)) = []) as Ec by (unfold contents; by rewrite He).
  rewrite Hw, Ec in A4. assert (zdrop (sent s) (@nil Z) = []) as Ez by (unfold zdrop; apply drop_nil). rewrite Ez, app_nil_l, app_nil_r in A4.
  destruct (drop n chunks) as [|c l] eqn:Ed.
  - apply take_ge. rewrite (Forall2_length _ _ _ A1). pose proof (f_equal length Ed) as El. rewrite length_drop in El. cbn in El. lia.
  - cbn in A4, A5. rewrite A4, zlen_app in A5. pose proof (zlen_nonneg (concat l)). lia.
Qed.

(** C11: in every state that is reached with messages as the senders build them (the
    length of header and data, at most 2^32 - 8, and a 32-bit type), no operation
    of the two ends fails a check or leaves its memory: such a message can always be stored or refused, what was peeked can be sent also
    after more messages were stored, what was sent can be committed, and
    reading always has room for more and takes the messages out. *)
Theorem UnixSocket_safe s :
  reachable s ->
  (forall ok m undelayed, message_ok m -> is_ok (SendMessage ok m undelayed (sender s)) = true) /\
  (forall p n k, pc s = Peeked p n -> 0 <= k <= n -> is_ok (mem_read (data_ (send_buffer_ (sender s))) p k) = true) /\
  (forall k, pc s = Sent k -> is_ok (WriteData_commit k (sender s)) = true) /\
  0 < zlen (read_buffer_ (receiver s)) - read_buffer_size_ (receiver s) /\
  (forall k ok1 ok2 closed, 0 < k <= zlen (wire s) -> k <= zlen (read_buffer_ (receiver s)) - read_buffer_size_ (receiver s) ->
     exists l c, ReadData accept_all ok1 ok2 closed (ztake k (wire s)) (receiver s) = Ok (Some (true, l, c))).
Proof.
  intros Hr. destruct (reachable_inv s Hr) as [H1 H2 H3 (n & chunks & A1 & A2 & A3 & A4 & A5)]. split_and!.
  - intros ok m undelayed Hm. by destruct (SendMessage_ok ok m undelayed (sender s) H2 Hm) as (r & c & -> & _).
  - intros p k' k Hpc Hk. unfold pc_ok in H3. rewrite Hpc in H3. destruct H3 as (-> & Hn & Hc). by rewrite peek_bytes by (done || lia).
  - intros k Hpc. unfold pc_ok in H3. rewrite Hpc in H3. destruct (CommitData_ok k _ H2 H3) as (b & Eb & _). unfold WriteData_commit. by rewrite Eb.
  - destruct H1. lia.
  - intros k ok1 ok2 closed Hk Hroom. set (tl := zdrop (sent s) (contents (send_buffer_ (sender s)))) in *.
    destruct (ReadData_ok ok1 ok2 closed (ztake k (wire s)) (receiver s) (drop n (accepted s)) (drop n chunks) (zdrop k (wire s) ++ tl)) as (i & c' & E' & _); [done| | |by apply Forall2_drop| |by eexists _, _].
    + intros E0. pose proof (f_equal zlen E0) as Ez. rewrite zlen_ztake, zlen_nil in Ez by lia. lia.
    + rewrite zlen_ztake by lia. done.
    + by rewrite (app_assoc (ztake k (wire s))), ztake_zdrop.
Qed.

(** A message that claims a length of 0 - which no sender of this program
    builds, but any peer can send - makes the receiver call its callback with
    the same message for ever: no number of turns of the loop is enough. *)
Theorem consume_loop_zero_length buf p left_size a fuel :
  bytes_at buf p (enc uint32_t 0) -> 8 <= left_size -> consume_loop accept_all fuel buf p left_size a = Ok None.
Proof.
  intros Hat H8. induction fuel as [|fuel IH] in a |- *; cbn [consume_loop]; rewrite (proj2 (Z.leb_le _ _) H8); [done|].
  rewrite (MoveFrom_at _ is_u32 _ _ _ Hat) by (unfold is_u32; lia). cbn [mbind res_bind]. change (aligned 0) with 0. rewrite (proj2 (Z.ltb_ge _ _)) by lia.
  pose proof (bytes_at_bound _ _ _ Hat) as [Hp _]. rewrite (bytes_at_read buf p []).
  - cbn [mbind res_bind]. rewrite Z.add_0_r, Z.sub_0_r, IH. done.
  - destruct Hat as (pre & post & -> & ->). by exists pre, (enc uint32_t 0 ++ post).
  - done.
Qed.

(** * Examples *)

Definition hello : UnixSocketMessage := mkMessage 13 1 [104; 101; 108; 108; 111].

Lemma hello_ok : message_ok hello.
Proof. unfold message_ok, hello, is_u32. cbn [msg_len msg_type msg_data]. split_and!; (reflexivity || lia). Qed.

Lemma hello_stored : stored hello (sender connected) = true.
Proof. vm_compute. reflexivity. Qed.

(** The message is in the send buffer. *)
Lemma hello_reachable : exists s, reachable s /\ accepted s = [hello].
Proof.
  destruct (SendMessage_ok true hello true (sender connected)) as (r & c & E & _); [apply connected_inv|apply hello_ok|].
  eexists. split; [eapply rtc_once, step_SendMessage; [apply hello_ok|exact E]|]. cbn [accepted]. by rewrite hello_stored.
Qed.

Lemma UnixSocket_fifo_witness :
  exists s, (reachable s /\ accepted s = [hello]) /\ (exists n, delivered s = message_bytes <$> take n [hello]).
Proof.
  destruct hello_reachable as (s & Hr & Ha). exists s. split; [split; [exact Hr|exact Ha]|].
  rewrite <- Ha. exact (proj1 (UnixSocket_fifo s Hr)).
Defined.

Lemma UnixSocket_safe_witness :
  exists s, (reachable s /\ accepted s = [hello]) /\ 0 < zlen (read_buffer_ (receiver s)) - read_buffer_size_ (receiver s).
Proof.
  destruct hello_reachable as (s & Hr & Ha). exists s. split; [split; [exact Hr|exact Ha]|].
  exact (proj1 (proj2 (proj2 (proj2 (UnixSocket_safe s Hr))))).
Defined.

Lemma consume_loop_zero_length_witness : consume_loop accept_all 1000 (replicate 16 0) 0 16 0 = Ok None.
Proof.
  apply (consume_loop_zero_length (replicate 16 0) 0 16 0 1000); [by exists [], (replicate 12 0)|lia].
Defined.
