(* ===== verification/Ext4Base.v ===== *)
(** Model of the data of src/ext4_utils (allocate.h, ext4_utils.h, ext4_sb.h)
    and of the helpers the block allocator is built on (ext4_utils.c):
    bitmaps, the placement of backup superblocks and the derived parameters of
    a file system.

    [force] is the global of the same name: the macro [error] prints and then,
    unless [force] is set, leaves by [longjmp] for the [setjmp] of the program,
    which ends the run ([CheckFailed] here).  [critical_error] always leaves.
    Allocation by malloc, calloc and realloc succeeds. *)
From stdpp Require Import base gmap list numbers strings.
From Stdlib Require Import ZArith Lia.
From S2P Require Import Prelude.

(** * Data *)

Record fs_info := FsInfo {
  len : Z;
  block_size : Z;
  blocks_per_group : Z;
  inodes_per_group : Z;
  inode_size : Z;
  feat_ro_compat : Z;
  bg_desc_reserve_blocks : Z;
}.

Record fs_aux_info := FsAuxInfo {
  first_data_block : Z;
  len_blocks : Z;
  inode_table_blocks : Z;
  groups : Z;
  bg_desc_blocks : Z;
  blocks_per_ind : Z;
  blocks_per_dind : Z;
  blocks_per_tind : Z;
}.

(** [error(...)] where execution goes on only when [force] is set. *)
Definition error (force : bool) : res unit := if force then Ok tt else CheckFailed.

Definition critical_error {A} : res A := CheckFailed.

(** [(x + y - 1) / y], in the unsigned type of width [2 ^ w] of its operands. *)
Definition DIV_ROUND_UP (w x y : Z) : Z := ((x + y - 1) mod 2 ^ w) / y.

(** * Bitmaps *)

(** [bitmap[bit / 8] & (1 << (bit % 8))] *)
Definition bit_mask (bit : Z) : Z := Z.shiftl 1 (bit mod 8).

Definition bitmap_get_bit (bitmap : bytes) (bit : Z) : res Z :=
  match znth bitmap (bit / 8) with
  | Some b => Ok (if negb (Z.land b (bit_mask bit) =? 0) then 1 else 0)
  | None => OutOfBounds
  end.

Definition bitmap_clear_bit (bitmap : bytes) (bit : Z) : res bytes :=
  match znth bitmap (bit / 8) with
  | Some b => Ok (<[Z.to_nat (bit / 8) := u8 (Z.land b (Z.lnot (bit_mask bit)))]> bitmap)
  | None => OutOfBounds
  end.

(** Returns 1, and changes nothing, when the bit is set already. *)
Definition bitmap_set_bit (bitmap : bytes) (bit : Z) : res (bytes * Z) :=
  match znth bitmap (bit / 8) with
  | Some b =>
      if negb (Z.land b (bit_mask bit) =? 0) then Ok (bitmap, 1)
      else Ok (<[Z.to_nat (bit / 8) := u8 (Z.lor b (bit_mask bit))]> bitmap, 0)
  | None => OutOfBounds
  end.

(** Returns the previous byte. *)
Definition bitmap_set_8_bits (bitmap : bytes) (bit : Z) : res (bytes * Z) :=
  match znth bitmap (bit / 8) with
  | Some b => Ok (<[Z.to_nat (bit / 8) := 255]> bitmap, b)
  | None => OutOfBounds
  end.

(** * Backup superblocks *)

(** [while (a > b) { if (a % b) return 0; a /= b; }  return a == b], with fuel
    for the loop. *)
Fixpoint is_power_of_loop (fuel : nat) (a b : Z) : bool :=
  match fuel with
  | O => false
  | S fuel =>
      if b <? a then
        if negb (a mod b =? 0) then false else is_power_of_loop fuel (a / b) b
      else a =? b
  end.

Definition is_power_of (a b : Z) : bool := is_power_of_loop (S (Z.to_nat (Z.log2 a))) a b.

Definition EXT4_FEATURE_RO_COMPAT_SPARSE_SUPER : Z := 1.

Definition ext4_bg_has_super_block (info : fs_info) (bg : Z) : bool :=
  if Z.land (feat_ro_compat info) EXT4_FEATURE_RO_COMPAT_SPARSE_SUPER =? 0 then true
  else if (bg =? 0) || (bg =? 1) then true
  else if is_power_of bg 3 || is_power_of bg 5 || is_power_of bg 7 then true
  else false.

(** * Derived parameters *)

Definition sizeof_ext2_group_desc : Z := 32.

(** The superblock buffers the function allocates are not modelled. *)
Definition ext4_create_fs_aux_info (info : fs_info) : res fs_aux_info :=
  let first_data_block := if 1024 <? block_size info then 0 else 1 in
  let len_blocks := u64 (Z.quot (len info) (block_size info)) in
  let inode_table_blocks :=
    DIV_ROUND_UP 32 (u32 (inodes_per_group info * inode_size info)) (block_size info) in
  let groups :=
    u32 (DIV_ROUND_UP 64 (len_blocks -u64 first_data_block) (blocks_per_group info)) in
  let blocks_per_ind := block_size info / 4 in
  let blocks_per_dind := u32 (blocks_per_ind * blocks_per_ind) in
  let blocks_per_tind := u32 (blocks_per_dind * blocks_per_dind) in
  let bg_desc_blocks :=
    u32 (DIV_ROUND_UP 64 (groups * sizeof_ext2_group_desc) (block_size info)) in
  let last_group_size := u32 (len_blocks mod blocks_per_group info) in
  let last_header_size :=
    if ext4_bg_has_super_block info (groups - 1)
    then u32 (2 + inode_table_blocks + 1 + bg_desc_blocks + bg_desc_reserve_blocks info)
    else u32 (2 + inode_table_blocks) in
  if (groups <=? 1) && (last_group_size <? last_header_size) then critical_error
  else
    let drop := (0 <? last_group_size) && (last_group_size <? last_header_size) in
    Ok {| first_data_block := first_data_block;
          len_blocks := if drop then len_blocks -u64 last_group_size else len_blocks;
          inode_table_blocks := inode_table_blocks;
          groups := if drop then groups -u32 1 else groups;
          bg_desc_blocks := bg_desc_blocks;
          blocks_per_ind := blocks_per_ind;
          blocks_per_dind := blocks_per_dind;
          blocks_per_tind := blocks_per_tind |}.
