(* ===== verification/Ext4Crc.v ===== *)
(** Model of src/ext4_utils/crc16.c, the checksum of group descriptors, and its
    equivalence with the bit-serial definition of the code. *)
From stdpp Require Import base gmap list numbers strings.
From Stdlib Require Import ZArith Lia.
From S2P Require Import Prelude.

Definition crc16_tab : list Z :=
  [0x0000; 0xC0C1; 0xC181; 0x0140; 0xC301; 0x03C0; 0x0280; 0xC241;
   0xC601; 0x06C0; 0x0780; 0xC741; 0x0500; 0xC5C1; 0xC481; 0x0440;
   0xCC01; 0x0CC0; 0x0D80; 0xCD41; 0x0F00; 0xCFC1; 0xCE81; 0x0E40;
   0x0A00; 0xCAC1; 0xCB81; 0x0B40; 0xC901; 0x09C0; 0x0880; 0xC841;
   0xD801; 0x18C0; 0x1980; 0xD941; 0x1B00; 0xDBC1; 0xDA81; 0x1A40;
   0x1E00; 0xDEC1; 0xDF81; 0x1F40; 0xDD01; 0x1DC0; 0x1C80; 0xDC41;
   0x1400; 0xD4C1; 0xD581; 0x1540; 0xD701; 0x17C0; 0x1680; 0xD641;
   0xD201; 0x12C0; 0x1380; 0xD341; 0x1100; 0xD1C1; 0xD081; 0x1040;
   0xF001; 0x30C0; 0x3180; 0xF141; 0x3300; 0xF3C1; 0xF281; 0x3240;
   0x3600; 0xF6C1; 0xF781; 0x3740; 0xF501; 0x35C0; 0x3480; 0xF441;
   0x3C00; 0xFCC1; 0xFD81; 0x3D40; 0xFF01; 0x3FC0; 0x3E80; 0xFE41;
   0xFA01; 0x3AC0; 0x3B80; 0xFB41; 0x3900; 0xF9C1; 0xF881; 0x3840;
   0x2800; 0xE8C1; 0xE981; 0x2940; 0xEB01; 0x2BC0; 0x2A80; 0xEA41;
   0xEE01; 0x2EC0; 0x2F80; 0xEF41; 0x2D00; 0xEDC1; 0xEC81; 0x2C40;
   0xE401; 0x24C0; 0x2580; 0xE541; 0x2700; 0xE7C1; 0xE681; 0x2640;
   0x2200; 0xE2C1; 0xE381; 0x2340; 0xE101; 0x21C0; 0x2080; 0xE041;
   0xA001; 0x60C0; 0x6180; 0xA141; 0x6300; 0xA3C1; 0xA281; 0x6240;
   0x6600; 0xA6C1; 0xA781; 0x6740; 0xA501; 0x65C0; 0x6480; 0xA441;
   0x6C00; 0xACC1; 0xAD81; 0x6D40; 0xAF01; 0x6FC0; 0x6E80; 0xAE41;
   0xAA01; 0x6AC0; 0x6B80; 0xAB41; 0x6900; 0xA9C1; 0xA881; 0x6840;
   0x7800; 0xB8C1; 0xB981; 0x7940; 0xBB01; 0x7BC0; 0x7A80; 0xBA41;
   0xBE01; 0x7EC0; 0x7F80; 0xBF41; 0x7D00; 0xBDC1; 0xBC81; 0x7C40;
   0xB401; 0x74C0; 0x7580; 0xB541; 0x7700; 0xB7C1; 0xB681; 0x7640;
   0x7200; 0xB2C1; 0xB381; 0x7340; 0xB101; 0x71C0; 0x7080; 0xB041;
   0x5000; 0x90C1; 0x9181; 0x5140; 0x9301; 0x53C0; 0x5280; 0x9241;
   0x9601; 0x56C0; 0x5780; 0x9741; 0x5500; 0x95C1; 0x9481; 0x5440;
   0x9C01; 0x5CC0; 0x5D80; 0x9D41; 0x5F00; 0x9FC1; 0x9E81; 0x5E40;
   0x5A00; 0x9AC1; 0x9B81; 0x5B40; 0x9901; 0x59C0; 0x5880; 0x9841;
   0x8801; 0x48C0; 0x4980; 0x8941; 0x4B00; 0x8BC1; 0x8A81; 0x4A40;
   0x4E00; 0x8EC1; 0x8F81; 0x4F40; 0x8D01; 0x4DC0; 0x4C80; 0x8C41;
   0x4400; 0x84C1; 0x8581; 0x4540; 0x8701; 0x47C0; 0x4680; 0x8641;
   0x8201; 0x42C0; 0x4380; 0x8341; 0x4100; 0x81C1; 0x8081; 0x4040].

(** [while (size--) crc = crc16_tab[(crc ^ *p++) & 0xFF] ^ (crc >> 8)] *)
Fixpoint ext4_crc16 (crc : Z) (buf : bytes) : res Z :=
  match buf with
  | [] => Ok crc
  | p :: buf =>
      match znth crc16_tab (Z.land (Z.lxor crc p) 0xFF) with
      | Some t => ext4_crc16 (Z.lxor t (Z.shiftr crc 8)) buf
      | None => OutOfBounds
      end
  end.

(** The bit-serial definition of the code: a byte is added to the low end of the
    register, which is shifted out bit by bit; a bit that falls out is
    replaced by the (reflected) polynomial. *)
Definition crc16_step (crc : Z) : Z :=
  if Z.odd crc then Z.lxor (Z.shiftr crc 1) 0xA001 else Z.shiftr crc 1.

Definition crc16_byte (crc p : Z) : Z := Nat.iter 8 crc16_step (Z.lxor crc p).

Definition crc16_spec (crc : Z) (buf : bytes) : Z := foldl crc16_byte crc buf.

Lemma crc16_step_lxor x y : crc16_step (Z.lxor x y) = Z.lxor (crc16_step x) (crc16_step y).
Proof.
  unfold crc16_step. rewrite <- !Z.bit0_odd, Z.lxor_spec, Z.shiftr_lxor.
  destruct (Z.testbit x 0), (Z.testbit y 0); simpl xorb; cbv iota;
    apply Z.bits_inj'; intros n Hn; rewrite !Z.lxor_spec;
    destruct (Z.testbit (Z.shiftr x 1) n), (Z.testbit (Z.shiftr y 1) n), (Z.testbit 0xA001 n); done.
Qed.

Lemma crc16_steps_lxor n x y :
  Nat.iter n crc16_step (Z.lxor x y) = Z.lxor (Nat.iter n crc16_step x) (Nat.iter n crc16_step y).
Proof. induction n as [|n IH]; [done|]. by rewrite !Nat.iter_succ, IH, crc16_step_lxor. Qed.

(** Eight steps shift out the high byte when the low byte is zero. *)
Lemma crc16_steps_high n x :
  0 <= x -> Nat.iter n crc16_step (Z.shiftl x (Z.of_nat n)) = x.
Proof.
  revert x. induction n as [|n IH]; intros x Hx; [apply Z.shiftl_0_r|].
  rewrite Nat.iter_succ_r. unfold crc16_step at 2.
  rewrite <- Z.bit0_odd, Z.shiftl_spec_low by lia.
  rewrite Z.shiftr_shiftl_l by lia. replace (Z.of_nat (S n) - 1) with (Z.of_nat n) by lia. auto.
Qed.

Lemma split_byte x : x = Z.lxor (Z.land x 0xFF) (Z.shiftl (Z.shiftr x 8) 8).
Proof.
  apply Z.bits_inj'. intros n Hn. rewrite Z.lxor_spec, Z.land_spec, Z.shiftl_spec by lia.
  change 0xFF with (Z.ones 8).
  destruct (Z.ltb_spec n 8).
  - rewrite Z.ones_spec_low by lia. rewrite (Z.testbit_neg_r _ (n - 8)) by lia. by rewrite andb_true_r, xorb_false_r.
  - rewrite Z.ones_spec_high, Z.shiftr_spec, andb_false_r by lia.
    rewrite xorb_false_l. f_equal. lia.
Qed.

Lemma crc16_tab_ok i : 0 <= i < 256 -> znth crc16_tab i = Some (Nat.iter 8 crc16_step i).
Proof.
  intros Hi. assert (Hall : Forall (fun k => znth crc16_tab (Z.of_nat k) =
    Some (Nat.iter 8 crc16_step (Z.of_nat k))) (seq 0 256)).
  { apply Forall_forall. assert (H : forallb (fun k => bool_decide (znth crc16_tab (Z.of_nat k) =
      Some (Nat.iter 8 crc16_step (Z.of_nat k)))) (seq 0 256) = true) by (vm_compute; done).
    rewrite forallb_forall in H. intros k Hk. eapply bool_decide_eq_true_1, H. by apply list_elem_of_In. }
  rewrite Forall_forall in Hall. specialize (Hall (Z.to_nat i)).
  rewrite Z2Nat.id in Hall by lia. apply Hall, elem_of_seq. lia.
Qed.

(** C37: the table-driven checksum never leaves its table and is the bit-serial
    CRC of the reflected polynomial 0xA001. *)
Theorem ext4_crc16_spec crc buf :
  0 <= crc -> bytes_ok buf -> ext4_crc16 crc buf = Ok (crc16_spec crc buf).
Proof.
  intros Hc Hb. revert crc Hc. induction Hb as [|p buf Hp _ IH]; intros crc Hc; [done|].
  cbn [ext4_crc16 crc16_spec foldl].
  assert (Hi : 0 <= Z.land (Z.lxor crc p) 0xFF < 256).
  { change 0xFF with (Z.ones 8). rewrite Z.land_ones by lia. apply Z.mod_pos_bound. lia. }
  assert (Hx : 0 <= Z.lxor crc p) by (rewrite Z.lxor_nonneg; unfold is_u8 in Hp; lia).
  assert (Hs : Z.shiftr crc 8 = Z.shiftr (Z.lxor crc p) 8).
  { rewrite Z.shiftr_lxor. rewrite (Z.shiftr_div_pow2 p) by lia.
    unfold is_u8 in Hp. rewrite Z.div_small by lia. by rewrite Z.lxor_0_r. }
  assert (Hstep : Z.lxor (Nat.iter 8 crc16_step (Z.land (Z.lxor crc p) 0xFF)) (Z.shiftr crc 8)
                  = crc16_byte crc p).
  { unfold crc16_byte. rewrite (split_byte (Z.lxor crc p)) at 2.
    rewrite crc16_steps_lxor, Hs. f_equal.
    rewrite (crc16_steps_high 8) by (apply Z.shiftr_nonneg; done). done. }
  rewrite crc16_tab_ok, Hstep by done. apply IH. rewrite <- Hstep. apply Z.lxor_nonneg.
  split; intros _; [by apply Z.shiftr_nonneg|].
  assert (Hn : forall n x, 0 <= x -> 0 <= Nat.iter n crc16_step x).
  { intros n x Hx'. induction n as [|n IHn]; [done|]. rewrite Nat.iter_succ. unfold crc16_step at 1.
    case_if; [rewrite Z.lxor_nonneg|]; rewrite Z.shiftr_nonneg; lia. }
  apply Hn. lia.
Qed.

(** The check value of this CRC for the digits 1 to 9. *)
Lemma ext4_crc16_spec_witness :
  ext4_crc16 0 (str "123456789") = Ok (crc16_spec 0 (str "123456789")) /\
  crc16_spec 0 (str "123456789") = 0xBB3D.
Proof.
  split; [|vm_compute; reflexivity]. apply ext4_crc16_spec; [lia|].
  repeat constructor; vm_compute; congruence.
Defined.
