(* ===== verification/Ext4Allocate.v ===== *)
(** Model of src/ext4_utils/allocate.c: the block and inode allocator of
    make_ext4fs.

    The regions of allocations are nodes of doubly linked lists that the code
    relinks in place, so they live in a heap: [heap] maps the address of a
    [struct region] to its contents, [brk] is the next address [malloc] gives.
    Reading or writing a region that is not allocated, [NULL] included, is
    [OutOfBounds].  A [struct block_allocation] is only reached through the
    pointer its functions get, so that it is a value which they return.  The
    chunks of a group form an array of which the first [chunk_count] entries
    are used, the list [chunks]; their links are never used.  The two bitmaps of
    a group are arrays of [block_size] bytes each.

    libsparse is not part of the repository: the calls that queue data for the
    image are recorded in [sparse], in order.

    Loops over linked lists have the number of allocated regions as fuel: a
    walk that is longer runs in a cycle and does not end ([OutOfBounds]). *)
From stdpp Require Import base gmap list numbers strings.
From Stdlib Require Import ZArith Lia.
From S2P Require Import Prelude Ext4Base.

(** * State *)

Record region := Region {
  r_block : Z;
  r_len : Z;
  r_bg : Z;
  r_next : option Z;
  r_prev : option Z;
}.

Record region_list := RegionList {
  l_first : option Z;
  l_last : option Z;
  l_iter : option Z;
  l_partial : Z;
}.

Record block_allocation := BlockAllocation {
  a_list : region_list;
  a_oob_list : region_list;
  a_filename : option bytes;
}.

(** An entry of the array [chunks], also a [struct region]. *)
Record chunk := Chunk {
  c_block : Z;
  c_len : Z;
  c_bg : Z;
}.

Record block_group_info := BlockGroup {
  first_block : Z;
  header_blocks : Z;
  data_blocks_used : Z;
  has_superblock : bool;
  block_bitmap : bytes;
  inode_bitmap : bytes;
  inode_table : option bytes;
  bg_free_blocks : Z;
  bg_free_inodes : Z;
  first_free_inode : Z;
  flags : Z;
  used_dirs : Z;
  max_chunk_count : Z;
  chunks : list chunk;
}.

Definition chunk_count (bg : block_group_info) : Z := zlen (chunks bg).

(** A call that queues data for blocks of the image. *)
Inductive sparse_op :=
| sparse_file_add_data (len block : Z)
| sparse_file_add_file (filename : bytes) (file_offset len block : Z).

Record fs := Fs {
  heap : gmap Z region;
  brk : Z;
  bgs : list block_group_info;
  sparse : list sparse_op;
}.

Definition EXT4_ALLOCATE_FAILED : Z := UINT32_MAX.
Definition EXT4_BG_INODE_UNINIT : Z := 1.

(** ** Record updates *)

Definition set_next (n : option Z) (r : region) : region :=
  Region (r_block r) (r_len r) (r_bg r) n (r_prev r).
Definition set_prev (p : option Z) (r : region) : region :=
  Region (r_block r) (r_len r) (r_bg r) (r_next r) p.
Definition set_len (n : Z) (r : region) : region :=
  Region (r_block r) n (r_bg r) (r_next r) (r_prev r).

Definition set_list (l : region_list) (a : block_allocation) : block_allocation :=
  BlockAllocation l (a_oob_list a) (a_filename a).
Definition set_oob_list (l : region_list) (a : block_allocation) : block_allocation :=
  BlockAllocation (a_list a) l (a_filename a).

Definition set_blocks (bitmap : bytes) (free : Z) (bg : block_group_info) : block_group_info :=
  BlockGroup (first_block bg) (header_blocks bg) (data_blocks_used bg) (has_superblock bg)
    bitmap (inode_bitmap bg) (inode_table bg) free (bg_free_inodes bg)
    (first_free_inode bg) (flags bg) (used_dirs bg) (max_chunk_count bg) (chunks bg).
Definition set_chunks (max : Z) (cs : list chunk) (bg : block_group_info) : block_group_info :=
  BlockGroup (first_block bg) (header_blocks bg) (data_blocks_used bg) (has_superblock bg)
    (block_bitmap bg) (inode_bitmap bg) (inode_table bg) (bg_free_blocks bg)
    (bg_free_inodes bg) (first_free_inode bg) (flags bg) (used_dirs bg) max cs.
Definition set_data_blocks_used (n : Z) (bg : block_group_info) : block_group_info :=
  BlockGroup (first_block bg) (header_blocks bg) n (has_superblock bg)
    (block_bitmap bg) (inode_bitmap bg) (inode_table bg) (bg_free_blocks bg)
    (bg_free_inodes bg) (first_free_inode bg) (flags bg) (used_dirs bg)
    (max_chunk_count bg) (chunks bg).
Definition set_inodes (bitmap : bytes) (free first : Z) (bg : block_group_info) : block_group_info :=
  BlockGroup (first_block bg) (header_blocks bg) (data_blocks_used bg) (has_superblock bg)
    (block_bitmap bg) bitmap (inode_table bg) (bg_free_blocks bg) free first
    (flags bg) (used_dirs bg) (max_chunk_count bg) (chunks bg).
Definition set_inode_table (t : option bytes) (fl : Z) (bg : block_group_info) : block_group_info :=
  BlockGroup (first_block bg) (header_blocks bg) (data_blocks_used bg) (has_superblock bg)
    (block_bitmap bg) (inode_bitmap bg) t (bg_free_blocks bg) (bg_free_inodes bg)
    (first_free_inode bg) fl (used_dirs bg) (max_chunk_count bg) (chunks bg).
Definition set_used_dirs (n : Z) (bg : block_group_info) : block_group_info :=
  BlockGroup (first_block bg) (header_blocks bg) (data_blocks_used bg) (has_superblock bg)
    (block_bitmap bg) (inode_bitmap bg) (inode_table bg) (bg_free_blocks bg)
    (bg_free_inodes bg) (first_free_inode bg) (flags bg) n (max_chunk_count bg) (chunks bg).

(** ** Programs on the state *)

Definition M (A : Type) : Type := fs -> res (A * fs).

#[export] Instance M_ret : MRet M := fun A a s => Ok (a, s).
#[export] Instance M_bind : MBind M := fun A B f m s =>
  match m s with Ok (a, s) => f a s | CheckFailed => CheckFailed | OutOfBounds => OutOfBounds end.

Definition lift {A} (m : res A) : M A := fun s =>
  match m with Ok a => Ok (a, s) | CheckFailed => CheckFailed | OutOfBounds => OutOfBounds end.

Definition get_state : M fs := fun s => Ok (s, s).

(** [*p] *)
Definition load (p : option Z) : M region := fun s =>
  match p ≫= (heap s !!.) with Some r => Ok (r, s) | None => OutOfBounds end.

(** An assignment to fields of [*p]. *)
Definition store (p : option Z) (f : region -> region) : M unit := fun s =>
  match p with
  | Some a => match heap s !! a with
              | Some r => Ok (tt, Fs (<[a := f r]> (heap s)) (brk s) (bgs s) (sparse s))
              | None => OutOfBounds
              end
  | None => OutOfBounds
  end.

(** [malloc], and the assignments that fill the region in. *)
Definition malloc (r : region) : M (option Z) := fun s =>
  Ok (Some (brk s), Fs (<[brk s := r]> (heap s)) (brk s + 1) (bgs s) (sparse s)).

Definition free (p : option Z) : M unit := fun s =>
  match p with
  | Some a => match heap s !! a with
              | Some _ => Ok (tt, Fs (delete a (heap s)) (brk s) (bgs s) (sparse s))
              | None => OutOfBounds
              end
  | None => Ok (tt, s)
  end.

(** [aux_info.bgs[i]] *)
Definition load_bg (i : Z) : M block_group_info := fun s =>
  match znth (bgs s) i with Some b => Ok (b, s) | None => OutOfBounds end.
Definition store_bg (i : Z) (b : block_group_info) : M unit := fun s =>
  match znth (bgs s) i with
  | Some _ => Ok (tt, Fs (heap s) (brk s) (<[Z.to_nat i := b]> (bgs s)) (sparse s))
  | None => OutOfBounds
  end.

Definition queue (o : sparse_op) : M unit := fun s =>
  Ok (tt, Fs (heap s) (brk s) (bgs s) (sparse s ++ [o])).

(** Fuel for a walk over a list of regions. *)
Definition regions_fuel : M nat := fun s => Ok (S (size (heap s)), s).

Definition diverge {A} : M A := fun _ => OutOfBounds.

(** * Region lists *)

Definition empty_list : region_list := RegionList None None None 0.

Definition create_allocation : block_allocation := BlockAllocation empty_list empty_list None.

Definition region_list_remove (list : region_list) (reg : option Z) : M region_list :=
  r ← load reg;
  (match r_prev r with Some _ => store (r_prev r) (set_next (r_next r)) | None => mret tt end);;
  r ← load reg;
  (match r_next r with Some _ => store (r_next r) (set_prev (r_prev r)) | None => mret tt end);;
  r ← load reg;
  let first := if decide (l_first list = reg) then r_next r else l_first list in
  let last := if decide (l_last list = reg) then r_prev r else l_last list in
  store reg (set_next None);;
  store reg (set_prev None);;
  mret (RegionList first last (l_iter list) (l_partial list)).

Definition region_list_append (list : region_list) (reg : option Z) : M region_list :=
  list ← (match l_first list with
          | None =>
              store reg (set_prev None);;
              mret (RegionList reg reg reg 0)
          | Some _ =>
              store (l_last list) (set_next reg);;
              store reg (set_prev (l_last list));;
              mret (RegionList (l_first list) reg (l_iter list) (l_partial list))
          end : M region_list);
  store reg (set_next None);;
  mret list.

Definition region_list_merge (list1 list2 : region_list) : M region_list :=
  match l_first list1 with
  | None =>
      store (l_first list2) (set_prev None);;
      mret (RegionList (l_first list2) (l_last list2) (l_first list2) 0)
  | Some _ =>
      store (l_last list1) (set_next (l_first list2));;
      store (l_first list2) (set_prev (l_last list1));;
      mret (RegionList (l_first list1) (l_last list2) (l_iter list1) (l_partial list1))
  end.

Definition append_region (alloc : block_allocation) (block len bg_num : Z) : M block_allocation :=
  reg ← malloc (Region block len bg_num None None);
  l ← region_list_append (a_list alloc) reg;
  mret (set_list l alloc).

(** * Bitmaps of a block group *)

(** What a loop of [reserve_blocks] leaves: the counters, or the block that was
    reserved already. *)
Inductive reserved :=
| Reserved (bitmap : bytes) (i block : Z)
| AlreadyReserved (bitmap : bytes) (block : Z).

(** [for (; i < num && !stop(block); i++, block++) bitmap_set_bit(...)]; [n] is
    the number of iterations [i < num] leaves. *)
Fixpoint reserve_bits (stop : Z -> bool) (n : nat) (bitmap : bytes) (i block : Z) : res reserved :=
  match n with
  | O => Ok (Reserved bitmap i block)
  | S n =>
      if stop block then Ok (Reserved bitmap i block)
      else
        '(bitmap, ret) ← bitmap_set_bit bitmap block;
        if negb (ret =? 0) then Ok (AlreadyReserved bitmap block)
        else reserve_bits stop n bitmap (i +u32 1) (block +u32 1)
  end.

(** [for (; i + 8 <= (num & ~7); i += 8, block += 8) bitmap_set_8_bits(...)] *)
Fixpoint reserve_bytes (fuel : nat) (num : Z) (bitmap : bytes) (i block : Z) : res reserved :=
  match fuel with
  | O => Ok (Reserved bitmap i block)
  | S fuel =>
      if i +u32 8 <=? Z.land num (u32 (Z.lnot 7)) then
        '(bitmap, ret) ← bitmap_set_8_bits bitmap block;
        if negb (ret =? 0) then Ok (AlreadyReserved bitmap block)
        else reserve_bytes fuel num bitmap (i +u32 8) (block +u32 8)
      else Ok (Reserved bitmap i block)
  end.

(** [error(...)] and [return -1]: what has been set in the bitmap stays set. *)
Definition already_reserved (force : bool) (bg : block_group_info) (bitmap : bytes) :
    res (block_group_info * Z) :=
  error force;; Ok (set_blocks bitmap (bg_free_blocks bg) bg, -1).

Definition reserve_blocks (force : bool) (bg : block_group_info) (start num : Z) :
    res (block_group_info * Z) :=
  r ← reserve_bits (fun block => block mod 8 =? 0) (Z.to_nat num) (block_bitmap bg) 0 start;
  match r with
  | AlreadyReserved bitmap _ => already_reserved force bg bitmap
  | Reserved bitmap i block =>
      r ← reserve_bytes (Z.to_nat num) num bitmap i block;
      match r with
      | AlreadyReserved bitmap _ => already_reserved force bg bitmap
      | Reserved bitmap i block =>
          r ← reserve_bits (fun _ => false) (Z.to_nat (num - i)) bitmap i block;
          match r with
          | AlreadyReserved bitmap _ => already_reserved force bg bitmap
          | Reserved bitmap _ _ => Ok (set_blocks bitmap (bg_free_blocks bg -u32 num) bg, 0)
          end
      end
  end.

(** [for (i = 0; i < num_blocks; i++, block--) bitmap[block / 8] &= ~(1 << (block % 8))] *)
Fixpoint clear_bits (n : nat) (bitmap : bytes) (block : Z) : res (bytes * Z) :=
  match n with
  | O => Ok (bitmap, block)
  | S n => bitmap ← bitmap_clear_bit bitmap block; clear_bits n bitmap (block -u32 1)
  end.

(** The loop of [free_blocks] that gives the blocks back to a chunk, from the
    last chunk down. *)
Fixpoint free_chunk (i : nat) (cs : list chunk) (block num_blocks : Z) : list chunk :=
  match i with
  | O => cs
  | S i =>
      match cs !! i with
      | None => cs
      | Some c =>
          if (num_blocks <=? c_len c) && (c_block c <=? block) then
            if c_block c =? block then
              <[i := Chunk (c_block c +u32 num_blocks) (c_len c -u32 num_blocks) (c_bg c)]> cs
            else if c_block c +u32 c_len c =? block +u32 num_blocks then
              <[i := Chunk (c_block c) (c_len c -u32 num_blocks) (c_bg c)]> cs
            else cs
          else free_chunk i cs block num_blocks
      end
  end.

Definition free_blocks (bg : block_group_info) (block num_blocks : Z) : res block_group_info :=
  if num_blocks =? 0 then Ok bg
  else
    '(bitmap, block) ← clear_bits (Z.to_nat num_blocks) (block_bitmap bg) block;
    let bg := set_blocks bitmap (bg_free_blocks bg +u32 num_blocks) bg in
    let block := block +u32 1 in
    Ok (set_chunks (max_chunk_count bg)
          (free_chunk (length (chunks bg)) (chunks bg) block num_blocks) bg).

Section Allocator.
Context (force : bool) (info : fs_info) (aux_info : fs_aux_info).

(** [error(...)] in a function that goes on when [force] is set. *)
Definition merror : M unit := lift (error force).

Definition reserve_blocks_in (bg start num : Z) : M Z :=
  b ← load_bg bg;
  '(b, ret) ← lift (reserve_blocks force b start num);
  store_bg bg b;;
  mret ret.

Definition reserve_bg_chunk (bg start_block size : Z) : M unit :=
  b ← load_bg bg;
  let max := if chunk_count b =? max_chunk_count b then 2 * max_chunk_count b
             else max_chunk_count b in
  store_bg bg (set_chunks max (chunks b ++ [Chunk start_block size bg]) b).

(** [while (len)]: an iteration either ends the loop or frees a region. *)
Fixpoint reduce_loop (fuel : nat) (list : region_list) (len : Z) : M region_list :=
  if len =? 0 then mret list
  else
    match fuel with
    | O => diverge
    | S fuel =>
        last_reg ← load (l_last list);
        bg ← load_bg (r_bg last_reg);
        let block := u32 (r_block last_reg + r_len last_reg - first_block bg - 1) in
        if len <? r_len last_reg then
          bg ← lift (free_blocks bg block len);
          store_bg (r_bg last_reg) bg;;
          store (l_last list) (set_len (r_len last_reg -u32 len));;
          mret list
        else
          bg ← lift (free_blocks bg block (r_len last_reg));
          store_bg (r_bg last_reg) bg;;
          list' ← (match r_prev last_reg with
                   | Some reg =>
                       store (Some reg) (set_next None);;
                       mret (RegionList (l_first list) (Some reg) (l_iter list) (l_partial list))
                   | None => mret empty_list
                   end : M region_list);
          free (l_last list);;
          reduce_loop fuel list' (len -u32 r_len last_reg)
    end.

Definition reduce_allocation (alloc : block_allocation) (len : Z) : M block_allocation :=
  fuel ← regions_fuel;
  l ← reduce_loop fuel (a_list alloc) len;
  mret (set_list l alloc).

(** The group as [init_bg] fills it in, before blocks are reserved in it. *)
Definition new_bg (i : Z) : block_group_info :=
  let has_sb := ext4_bg_has_super_block info i in
  {| first_block := first_data_block aux_info +u32 u32 (i * blocks_per_group info);
     header_blocks :=
       if has_sb
       then u32 (2 + inode_table_blocks aux_info + 1 + bg_desc_blocks aux_info +
                 bg_desc_reserve_blocks info)
       else u32 (2 + inode_table_blocks aux_info);
     data_blocks_used := 0;
     has_superblock := has_sb;
     block_bitmap := replicate (Z.to_nat (block_size info)) 0;
     inode_bitmap := replicate (Z.to_nat (block_size info)) 0;
     inode_table := None;
     bg_free_blocks := blocks_per_group info;
     bg_free_inodes := inodes_per_group info;
     first_free_inode := 1;
     flags := EXT4_BG_INODE_UNINIT;
     used_dirs := 0;
     max_chunk_count := 1;
     chunks := [] |}.

Definition init_bg (i : Z) : M unit :=
  let bg := new_bg i in
  store_bg i bg;;
  let block := if has_superblock bg
               then u32 (first_block bg + 1 + bg_desc_blocks aux_info + bg_desc_reserve_blocks info)
               else first_block bg in
  queue (sparse_file_add_data (u32 (2 * block_size info)) block);;
  ret ← reserve_blocks_in i 0 (header_blocks bg);
  (if ret <? 0 then merror else mret tt);;
  reserve_bg_chunk i (header_blocks bg) 0;;
  let group_end := u32 (first_block bg + blocks_per_group info) in
  if len_blocks aux_info <? group_end then
    let overrun := u32 (group_end - len_blocks aux_info) in
    reserve_blocks_in i (blocks_per_group info -u32 overrun) overrun;;
    reserve_bg_chunk i (blocks_per_group info -u32 overrun) 0
  else reserve_bg_chunk i (blocks_per_group info -u32 1) 0.

Fixpoint init_bgs (n : nat) (i : Z) : M unit :=
  match n with
  | O => mret tt
  | S n => init_bg i;; init_bgs n (i + 1)
  end.

(** What [calloc] gives for a group. *)
Definition zero_bg : block_group_info :=
  BlockGroup 0 0 0 false [] [] None 0 0 0 0 0 0 [].

Definition block_allocator_init : M unit :=
  (fun s => Ok (tt, Fs (heap s) (brk s) (replicate (Z.to_nat (groups aux_info)) zero_bg) (sparse s)));;
  init_bgs (Z.to_nat (groups aux_info)) 0.

(** * Allocating blocks *)

(** The variables of the search in [ext4_allocate_best_fit_partial]. *)
Record found := Found {
  found_bg : Z;
  found_prev_chunk : Z;
  found_block : Z;
  found_allocate_len : Z;
  minimize : bool;
}.

(** The holes of group [i] behind chunk [j - 1]; [inl] is [goto done]. *)
Fixpoint scan_chunks (len i j : Z) (prev : chunk) (cs : list chunk) (f : found) : found + found :=
  match cs with
  | [] => inr f
  | c :: cs =>
      let hole_start := c_block prev +u32 c_len prev in
      let hole_size := c_block c -u32 hole_start in
      if hole_size =? len then inl (Found i (j - 1) hole_start hole_size (minimize f))
      else
        scan_chunks len i (j + 1) c cs
          (if (len <? hole_size) &&
              ((found_allocate_len f =? 0) || (hole_size <? found_allocate_len f))
           then Found i (j - 1) hole_start hole_size true
           else if negb (minimize f) then
             if found_allocate_len f <? hole_size
             then Found i (j - 1) hole_start hole_size (minimize f)
             else f
           else f)
  end.

Definition scan_bg (len i : Z) (bg : block_group_info) (f : found) : found + found :=
  match chunks bg with
  | [] => inr f
  | c :: cs => scan_chunks len i 1 c cs f
  end.

Fixpoint scan_bgs (len i : Z) (l : list block_group_info) (f : found) : found + found :=
  match l with
  | [] => inr f
  | bg :: l =>
      match scan_bg len i bg f with
      | inl f => inl f
      | inr f => scan_bgs len (i + 1) l f
      end
  end.

(** The code at the label [done]. *)
Definition take_hole (f : found) : M (option Z) :=
  bg ← load_bg (found_bg f);
  c ← lift (match znth (chunks bg) (found_prev_chunk f) with Some c => Ok c | None => OutOfBounds end);
  store_bg (found_bg f)
    (set_chunks (max_chunk_count bg)
       (<[Z.to_nat (found_prev_chunk f) :=
            Chunk (c_block c) (c_len c +u32 found_allocate_len f) (c_bg c)]> (chunks bg)) bg);;
  ret ← reserve_blocks_in (found_bg f) (found_block f) (found_allocate_len f);
  if ret <? 0 then merror;; mret None
  else
    bg ← load_bg (found_bg f);
    store_bg (found_bg f)
      (set_data_blocks_used (data_blocks_used bg + found_allocate_len f) bg);;
    malloc (Region (found_block f +u32 first_block bg) (found_allocate_len f) (found_bg f) None None).

Definition ext4_allocate_best_fit_partial (len : Z) : M (option Z) :=
  s ← get_state;
  match scan_bgs len 0 (bgs s) (Found 0 0 0 0 false) with
  | inl f => take_hole f
  | inr f =>
      if found_allocate_len f =? 0 then merror;; mret None
      else
        take_hole (if len <? found_allocate_len f
                   then Found (found_bg f) (found_prev_chunk f) (found_block f) len (minimize f)
                   else f)
  end.

(** [while (len > 0)]; a region has at least one block, so that [len] iterations
    are enough. *)
Fixpoint best_fit_loop (fuel : nat) (len : Z) (first_reg prev_reg : option Z) : M (option Z) :=
  if 0 <? len then
    match fuel with
    | O => diverge
    | S fuel =>
        reg ← ext4_allocate_best_fit_partial len;
        match reg with
        | None => mret None
        | Some _ =>
            let first_reg := match first_reg with None => reg | Some _ => first_reg end in
            (match prev_reg with
             | Some _ =>
                 store prev_reg (set_next reg);;
                 store reg (set_prev prev_reg)
             | None => mret tt
             end);;
            r ← load reg;
            best_fit_loop fuel (len -u32 r_len r) first_reg reg
        end
    end
  else mret first_reg.

Definition ext4_allocate_best_fit (len : Z) : M (option Z) :=
  best_fit_loop (Z.to_nat len) len None None.

(** [while (reg->next != NULL) reg = reg->next;] *)
Fixpoint last_of (fuel : nat) (reg : option Z) : M (option Z) :=
  match fuel with
  | O => diverge
  | S fuel =>
      r ← load reg;
      match r_next r with
      | None => mret reg
      | Some _ => last_of fuel (r_next r)
      end
  end.

Definition allocate_blocks (len : Z) : M (option block_allocation) :=
  reg ← ext4_allocate_best_fit len;
  match reg with
  | None => mret None
  | Some _ =>
      fuel ← regions_fuel;
      last ← last_of fuel reg;
      mret (Some (set_list (RegionList reg last reg 0) create_allocation))
  end.

Fixpoint free_regions (fuel : nat) (reg : option Z) : M unit :=
  match reg with
  | None => mret tt
  | Some _ =>
      match fuel with
      | O => diverge
      | S fuel => r ← load reg; free reg;; free_regions fuel (r_next r)
      end
  end.

Definition free_alloc (alloc : block_allocation) : M unit :=
  fuel ← regions_fuel;
  free_regions fuel (l_first (a_list alloc));;
  free_regions fuel (l_first (a_oob_list alloc)).

Definition allocate_block : M Z :=
  blk_alloc ← allocate_blocks 1;
  match blk_alloc with
  | None => mret EXT4_ALLOCATE_FAILED
  | Some alloc =>
      r ← load (l_first (a_list alloc));
      free_alloc alloc;;
      mret (r_block r)
  end.

(** * Reading allocations *)

Fixpoint num_regions (fuel : nat) (reg : option Z) (i : Z) : M Z :=
  match reg with
  | None => mret i
  | Some _ =>
      match fuel with
      | O => diverge
      | S fuel => r ← load reg; num_regions fuel (r_next r) (i +u32 1)
      end
  end.

Definition block_allocation_num_regions (alloc : block_allocation) : M Z :=
  fuel ← regions_fuel; num_regions fuel (l_first (a_list alloc)) 0.

Fixpoint regions_len (fuel : nat) (reg : option Z) (i : Z) : M Z :=
  match reg with
  | None => mret i
  | Some _ =>
      match fuel with
      | O => diverge
      | S fuel => r ← load reg; regions_len fuel (r_next r) (i +u32 r_len r)
      end
  end.

Definition block_allocation_len (alloc : block_allocation) : M Z :=
  fuel ← regions_fuel; regions_len fuel (l_first (a_list alloc)) 0.

Fixpoint find_block (fuel : nat) (reg : option Z) (block : Z) : M Z :=
  match reg with
  | None => mret EXT4_ALLOCATE_FAILED
  | Some _ =>
      match fuel with
      | O => diverge
      | S fuel =>
          r ← load reg;
          if block <? r_len r then mret (r_block r +u32 block)
          else find_block fuel (r_next r) (block -u32 r_len r)
      end
  end.

Definition get_block (alloc : block_allocation) (block : Z) : M Z :=
  fuel ← regions_fuel;
  find_block fuel (l_iter (a_list alloc)) (block +u32 l_partial (a_list alloc)).

Definition get_oob_block (alloc : block_allocation) (block : Z) : M Z :=
  fuel ← regions_fuel;
  find_block fuel (l_iter (a_oob_list alloc)) (block +u32 l_partial (a_oob_list alloc)).

Definition get_region (alloc : block_allocation) : M (Z * Z) :=
  r ← load (l_iter (a_list alloc));
  mret (r_block r, r_len r -u32 l_partial (a_list alloc)).

Definition get_next_region (alloc : block_allocation) : M block_allocation :=
  let l := a_list alloc in
  r ← load (l_iter l);
  mret (set_list (RegionList (l_first l) (l_last l) (r_next r) 0) alloc).

Definition get_free_blocks (bg : Z) : M Z := b ← load_bg bg; mret (bg_free_blocks b).

Definition last_region (alloc : block_allocation) : bool := bool_decide (l_iter (a_list alloc) = None).

Definition rewind_alloc (alloc : block_allocation) : block_allocation :=
  let l := a_list alloc in set_list (RegionList (l_first l) (l_last l) (l_first l) 0) alloc.

(** * Splitting allocations *)

(** [while (reg && len >= reg->len) { len -= reg->len; reg = reg->next; }] *)
Fixpoint skip_regions (fuel : nat) (reg : option Z) (len : Z) : M (option Z * Z) :=
  match reg with
  | None => mret (None, len)
  | Some _ =>
      match fuel with
      | O => diverge
      | S fuel =>
          r ← load reg;
          if r_len r <=? len then skip_regions fuel (r_next r) (len -u32 r_len r)
          else mret (reg, len)
      end
  end.

Definition do_split_allocation (alloc : block_allocation) (len : Z) :
    M (option Z * block_allocation) :=
  let l := a_list alloc in
  fuel ← regions_fuel;
  '(reg, len) ← skip_regions fuel (l_iter l) len;
  match reg with
  | None => mret (None, alloc)
  | Some _ =>
      if 0 <? len then
        r ← load reg;
        new ← malloc (Region (r_block r +u32 len) (r_len r -u32 len) (r_bg r) (r_next r) reg);
        store reg (fun r => set_len len (set_next new r));;
        mret (l_iter l, set_list (RegionList (l_first l) (l_last l) new (l_partial l)) alloc)
      else mret (reg, alloc)
  end.

Definition split_allocation (alloc : block_allocation) (len : Z) :
    M (option Z * block_allocation) :=
  '(_, alloc) ← do_split_allocation alloc (l_partial (a_list alloc));
  '(middle, alloc) ← do_split_allocation alloc len;
  let l := a_list alloc in
  mret (middle, set_list (RegionList (l_first l) (l_last l) (l_iter l) 0) alloc).

(** [while (oob && oob != alloc->list.iter)]: each iteration moves a region. *)
Fixpoint move_oob (fuel : nat) (alloc : block_allocation) (oob : option Z) : M block_allocation :=
  match oob with
  | None => mret alloc
  | Some _ =>
      if decide (oob = l_iter (a_list alloc)) then mret alloc
      else
        match fuel with
        | O => diverge
        | S fuel =>
            r ← load oob;
            l ← region_list_remove (a_list alloc) oob;
            o ← region_list_append (a_oob_list alloc) oob;
            move_oob fuel (set_oob_list o (set_list l alloc)) (r_next r)
        end
  end.

Definition reserve_oob_blocks (alloc : block_allocation) (blocks : Z) : M (Z * block_allocation) :=
  '(oob, alloc) ← split_allocation alloc (u32 blocks);
  match oob with
  | None => mret (-1, alloc)
  | Some _ =>
      fuel ← regions_fuel;
      alloc ← move_oob fuel alloc oob;
      mret (0, alloc)
  end.

(** The walk of [advance_list_ptr]: the iterator of the list does not move. *)
Fixpoint advance_loop (fuel : nat) (reg : option Z) (partial blocks : Z) : M (Z * Z) :=
  match reg with
  | None => mret (if 0 <? blocks then -1 else 0, partial)
  | Some _ =>
      if 0 <? blocks then
        match fuel with
        | O => diverge
        | S fuel =>
            r ← load reg;
            if partial +u32 blocks <? r_len r then mret (0, partial +u32 blocks)
            else advance_loop fuel (r_next r) 0 (blocks - (r_len r -u32 partial))
        end
      else mret (0, partial)
  end.

Definition advance_list_ptr (list : region_list) (blocks : Z) : M (Z * region_list) :=
  fuel ← regions_fuel;
  '(ret, partial) ← advance_loop fuel (l_iter list) (l_partial list) blocks;
  mret (ret, RegionList (l_first list) (l_last list) (l_iter list) partial).

Definition advance_blocks (alloc : block_allocation) (blocks : Z) : M (Z * block_allocation) :=
  '(ret, l) ← advance_list_ptr (a_list alloc) blocks; mret (ret, set_list l alloc).

Definition advance_oob_blocks (alloc : block_allocation) (blocks : Z) : M (Z * block_allocation) :=
  '(ret, l) ← advance_list_ptr (a_oob_list alloc) blocks; mret (ret, set_oob_list l alloc).

(** [for (; reg; reg = reg->next) region_list_append(&alloc->oob_list, reg);] *)
Fixpoint append_all (fuel : nat) (list : region_list) (reg : option Z) : M region_list :=
  match reg with
  | None => mret list
  | Some _ =>
      match fuel with
      | O => diverge
      | S fuel =>
          list ← region_list_append list reg;
          r ← load reg;
          append_all fuel list (r_next r)
      end
  end.

Definition append_oob_allocation (alloc : block_allocation) (len : Z) : M (Z * block_allocation) :=
  reg ← ext4_allocate_best_fit len;
  match reg with
  | None => merror;; mret (-1, alloc)
  | Some _ =>
      fuel ← regions_fuel;
      l ← append_all fuel (a_oob_list alloc) reg;
      mret (0, set_oob_list l alloc)
  end.

(** [reserve_blocks_for_allocation] on the regions of a list. *)
Fixpoint reserve_regions (fuel : nat) (reg : option Z) : M Z :=
  match reg with
  | None => mret 0
  | Some _ =>
      match fuel with
      | O => diverge
      | S fuel =>
          r ← load reg;
          bg ← load_bg (r_bg r);
          ret ← reserve_blocks_in (r_bg r) (r_block r -u32 first_block bg) (r_len r);
          if ret <? 0 then mret (-1) else reserve_regions fuel (r_next r)
      end
  end.

Definition reserve_blocks_for_allocation (alloc : option block_allocation) : M Z :=
  match alloc with
  | None => mret 0
  | Some alloc => fuel ← regions_fuel; reserve_regions fuel (l_first (a_list alloc))
  end.

(** * Inodes *)

Definition allocate_bg_inode_table (bg : Z) : M unit :=
  b ← load_bg bg;
  match inode_table b with
  | Some _ => mret tt
  | None =>
      let block := first_block b +u32 2 in
      let block := if has_superblock b
                   then u32 (block + (bg_desc_blocks aux_info + bg_desc_reserve_blocks info + 1))
                   else block in
      let size := inode_table_blocks aux_info * block_size info in
      queue (sparse_file_add_data (u32 size) block);;
      store_bg bg (set_inode_table (Some (replicate (Z.to_nat size) 0))
                     (Z.land (flags b) (u16 (Z.lnot EXT4_BG_INODE_UNINIT))) b)
  end.

(** The inode as the group and the offset in its inode table. *)
Definition get_inode (inode : Z) : M (Z * Z) :=
  let inode := inode -u32 1 in
  let bg := inode / inodes_per_group info in
  let inode := inode mod inodes_per_group info in
  allocate_bg_inode_table bg;;
  mret (bg, u32 (inode * inode_size info)).

Definition get_free_inodes (bg : Z) : M Z := b ← load_bg bg; mret (bg_free_inodes b).

(** [for (i = 0; i < num; i++) inode_bitmap[inode / 8] |= 1 << (inode % 8)] *)
Fixpoint set_inode_bits (n : nat) (bitmap : bytes) (inode : Z) : res bytes :=
  match n with
  | O => Ok bitmap
  | S n =>
      match znth bitmap (inode / 8) with
      | None => OutOfBounds
      | Some b =>
          set_inode_bits n (<[Z.to_nat (inode / 8) := u8 (Z.lor b (bit_mask inode))]> bitmap)
            (inode +u32 1)
      end
  end.

Definition reserve_inodes (bg num : Z) : M Z :=
  free ← get_free_inodes bg;
  if free <? num then mret EXT4_ALLOCATE_FAILED
  else
    b ← load_bg bg;
    bitmap ← lift (set_inode_bits (Z.to_nat num) (inode_bitmap b) (first_free_inode b -u32 1));
    let inode := first_free_inode b in
    store_bg bg (set_inodes bitmap (bg_free_inodes b -u32 num) (first_free_inode b +u32 num) b);;
    mret inode.

(** [for (bg = 0; bg < aux_info.groups; bg++)]; [n] groups are left. *)
Fixpoint allocate_inode_loop (n : nat) (bg : Z) : M Z :=
  match n with
  | O => mret EXT4_ALLOCATE_FAILED
  | S n =>
      inode ← reserve_inodes bg 1;
      if negb (inode =? EXT4_ALLOCATE_FAILED)
      then mret (u32 (bg * inodes_per_group info + inode))
      else allocate_inode_loop n (bg + 1)
  end.

Definition allocate_inode : M Z := allocate_inode_loop (Z.to_nat (groups aux_info)) 0.

Definition add_directory (inode : Z) : M unit :=
  let bg := (inode -u32 1) / inodes_per_group info in
  b ← load_bg bg;
  store_bg bg (set_used_dirs (u16 (used_dirs b + 1)) b).

Definition get_directories (bg : Z) : M Z := b ← load_bg bg; mret (used_dirs b).

Definition get_bg_flags (bg : Z) : M Z := b ← load_bg bg; mret (flags b).

End Allocator.
