(* ===== verification/Ext4Bitmap.v ===== *)
(** Bitmaps as sets of bits, and the correctness of the functions of allocate.c
    that set and clear ranges of them. *)
From stdpp Require Import base gmap list numbers strings.
From Stdlib Require Import ZArith Lia.
From S2P Require Import Prelude Ext4Base Ext4Allocate.

(** * Bits *)

(** Linear arithmetic with divisions by constants. *)
Ltac dlia := Z.to_euclidean_division_equations; lia.

Definition bit (bm : bytes) (k : Z) : bool :=
  match znth bm (k / 8) with Some x => Z.testbit x (k mod 8) | None => false end.

Lemma znth_lookup {A} (l : list A) i : 0 <= i -> znth l i = l !! Z.to_nat i.
Proof. intros. unfold znth. case_if; [lia|done]. Qed.

Lemma znth_is_Some {A} (l : list A) i : 0 <= i < zlen l -> is_Some (znth l i).
Proof.
  intros. rewrite znth_lookup by lia. apply lookup_lt_is_Some. unfold zlen in *. lia.
Qed.

Lemma znth_insert {A} (l : list A) i j x :
  0 <= i < zlen l -> 0 <= j ->
  znth (<[Z.to_nat i := x]> l) j = if j =? i then Some x else znth l j.
Proof.
  intros. unfold zlen in *. rewrite !znth_lookup by lia.
  destruct (Z.eqb_spec j i) as [->|]; [by rewrite list_lookup_insert_eq by lia|].
  by rewrite list_lookup_insert_ne by lia.
Qed.

Lemma zlen_insert {A} (l : list A) i x : zlen (<[i := x]> l) = zlen l.
Proof. unfold zlen. by rewrite length_insert. Qed.
#[export] Hint Rewrite @zlen_insert : zlen.

Lemma znth_bytes_ok bm i x : bytes_ok bm -> znth bm i = Some x -> is_u8 x.
Proof.
  unfold znth. case_if; [done|]. intros H Hx. unfold bytes_ok in H. rewrite Forall_forall in H.
  apply H. by eapply list_elem_of_lookup_2.
Qed.

Lemma mask_testbit x k : negb (Z.land x (bit_mask k) =? 0) = Z.testbit x (k mod 8).
Proof.
  unfold bit_mask. rewrite Z.shiftl_1_l.
  assert (Hk : 0 <= k mod 8) by (apply Z.mod_pos_bound; lia).
  destruct (Z.testbit x (k mod 8)) eqn:E.
  - apply negb_true_iff, Z.eqb_neq. intros H0.
    assert (Z.testbit (Z.land x (2 ^ (k mod 8))) (k mod 8) = false) as H by by rewrite H0, Z.bits_0.
    rewrite Z.land_spec, E, Z.pow2_bits_true in H by lia. done.
  - apply negb_false_iff, Z.eqb_eq, Z.bits_inj_0. intros n. rewrite Z.land_spec.
    destruct (Z.eq_dec n (k mod 8)) as [->|]; [by rewrite E|].
    by rewrite Z.pow2_bits_false, andb_false_r by lia.
Qed.

Lemma testbit_u8 x n : 0 <= n < 8 -> Z.testbit (u8 x) n = Z.testbit x n.
Proof. intros. unfold u8. apply Z.mod_pow2_bits_low. lia. Qed.

Lemma div_mod_eq8 a b : a / 8 = b / 8 -> a mod 8 = b mod 8 -> a = b.
Proof. dlia. Qed.

(** The bits of a bitmap with one byte replaced. *)
Lemma bit_insert bm k x j :
  0 <= k < 8 * zlen bm -> 0 <= j ->
  bit (<[Z.to_nat (k / 8) := x]> bm) j = if j / 8 =? k / 8 then Z.testbit x (j mod 8) else bit bm j.
Proof.
  intros. unfold bit. rewrite znth_insert by dlia.
  by destruct (Z.eqb_spec (j / 8) (k / 8)).
Qed.

Lemma bytes_ok_insert bm i x : bytes_ok bm -> is_u8 x -> bytes_ok (<[i := x]> bm).
Proof. intros. by apply Forall_insert. Qed.

Lemma u8_ok x : is_u8 (u8 x).
Proof. apply Z.mod_pos_bound. lia. Qed.
#[export] Hint Resolve u8_ok : u64.

Lemma bit_byte bm k :
  0 <= k < 8 * zlen bm -> exists x, znth bm (k / 8) = Some x /\ forall j, j / 8 = k / 8 -> bit bm j = Z.testbit x (j mod 8).
Proof.
  intros. destruct (znth_is_Some bm (k / 8)) as [x Hx].
  { dlia. }
  exists x. split; [done|]. intros j Hj. unfold bit. by rewrite Hj, Hx.
Qed.

(** * Sets of bits that change *)

(** [bm'] is [bm] with the bits in [a, b) set to [v]. *)
Record ranged (v : bool) (bm bm' : bytes) (a b : Z) : Prop := Ranged {
  ranged_len : zlen bm' = zlen bm;
  ranged_ok : bytes_ok bm';
  ranged_bit : forall k, 0 <= k -> bit bm' k = if (a <=? k) && (k <? b) then v else bit bm k;
}.
Abbreviation marks := (ranged true).
Abbreviation clears := (ranged false).

Lemma ranged_refl v bm a : bytes_ok bm -> ranged v bm bm a a.
Proof.
  intros. split; [done..|]. intros k _. destruct (Z.leb_spec a k), (Z.ltb_spec k a); cbn; done || lia.
Qed.

Lemma ranged_trans v bm bm1 bm2 a b c :
  a <= b <= c -> ranged v bm bm1 a b -> ranged v bm1 bm2 b c -> ranged v bm bm2 a c.
Proof.
  intros Habc [L1 O1 B1] [L2 O2 B2]. split; [congruence|done|]. intros k Hk.
  rewrite B2, B1 by done.
  destruct (Z.leb_spec b k), (Z.leb_spec a k), (Z.ltb_spec k c), (Z.ltb_spec k b); cbn; done || lia.
Qed.

Lemma ranged_trans_down v bm bm1 bm2 a b c :
  a <= b <= c -> ranged v bm bm1 b c -> ranged v bm1 bm2 a b -> ranged v bm bm2 a c.
Proof.
  intros Habc [L1 O1 B1] [L2 O2 B2]. split; [congruence|done|]. intros k Hk.
  rewrite B2, B1 by done.
  destruct (Z.leb_spec b k), (Z.leb_spec a k), (Z.ltb_spec k c), (Z.ltb_spec k b); cbn; done || lia.
Qed.

Lemma range_one_eq k b : (b <=? k) && (k <? b + 1) = (k =? b).
Proof. destruct (Z.leb_spec b k), (Z.ltb_spec k (b + 1)), (Z.eqb_spec k b); cbn; done || lia. Qed.

Lemma or_bit_marks bm b :
  bytes_ok bm -> 0 <= b < 8 * zlen bm ->
  exists x, znth bm (b / 8) = Some x /\ bit bm b = Z.testbit x (b mod 8) /\
    marks bm (<[Z.to_nat (b / 8) := u8 (Z.lor x (bit_mask b))]> bm) b (b + 1).
Proof.
  intros Hok Hb. destruct (bit_byte bm b Hb) as (x & Hx & Hbits). exists x. split; [done|]. split; [by apply Hbits|].
  split; [apply zlen_insert|apply bytes_ok_insert; auto with u64|].
  intros k Hk. rewrite bit_insert, range_one_eq by lia.
  pose proof (Z.mod_pos_bound k 8). destruct (Z.eqb_spec (k / 8) (b / 8)) as [Hq|Hq].
  - rewrite testbit_u8, Z.lor_spec by lia. rewrite <- (Hbits k Hq). unfold bit_mask.
    rewrite Z.shiftl_1_l. destruct (Z.eqb_spec k b) as [->|Hne].
    + rewrite Z.pow2_bits_true by lia. apply orb_true_r.
    + rewrite Z.pow2_bits_false; [apply orb_false_r|]. intros ?. by apply Hne, div_mod_eq8.
  - destruct (Z.eqb_spec k b) as [->|]; done.
Qed.

Lemma bitmap_set_bit_spec bm b :
  bytes_ok bm -> 0 <= b < 8 * zlen bm ->
  if bit bm b then bitmap_set_bit bm b = Ok (bm, 1)
  else exists bm', bitmap_set_bit bm b = Ok (bm', 0) /\ marks bm bm' b (b + 1).
Proof.
  intros Hok Hb. destruct (or_bit_marks bm b Hok Hb) as (x & Hx & Hbit & Hm).
  unfold bitmap_set_bit. rewrite Hx, mask_testbit, <- Hbit.
  destruct (bit bm b); [done|]. by eexists.
Qed.

Lemma bitmap_clear_bit_spec bm b :
  bytes_ok bm -> 0 <= b < 8 * zlen bm ->
  exists bm', bitmap_clear_bit bm b = Ok bm' /\ clears bm bm' b (b + 1).
Proof.
  intros Hok Hb. destruct (bit_byte bm b Hb) as (x & Hx & Hbits).
  unfold bitmap_clear_bit. rewrite Hx. eexists. split; [done|].
  split; [apply zlen_insert|apply bytes_ok_insert; auto with u64|].
  intros k Hk. rewrite bit_insert, range_one_eq by lia.
  pose proof (Z.mod_pos_bound k 8). destruct (Z.eqb_spec (k / 8) (b / 8)) as [Hq|Hq].
  - rewrite testbit_u8, Z.land_spec, Z.lnot_spec by lia. rewrite <- (Hbits k Hq). unfold bit_mask.
    rewrite Z.shiftl_1_l. destruct (Z.eqb_spec k b) as [->|Hne].
    + rewrite Z.pow2_bits_true by lia. apply andb_false_r.
    + rewrite Z.pow2_bits_false; [apply andb_true_r|]. intros ?. by apply Hne, div_mod_eq8.
  - destruct (Z.eqb_spec k b) as [->|]; done.
Qed.

Lemma byte_zero_bits x : is_u8 x -> (forall j, 0 <= j < 8 -> Z.testbit x j = false) -> x = 0.
Proof.
  intros Hx H. apply Z.bits_inj_0. intros n. destruct (Z.ltb_spec n 8).
  - destruct (Z.ltb_spec n 0); [by apply Z.testbit_neg_r|apply H; lia].
  - unfold is_u8 in Hx. rewrite <- (Z.mod_small x (2 ^ 8)) by lia. apply Z.mod_pow2_bits_high. lia.
Qed.

(** A whole byte: it returns zero exactly when no bit of it was set. *)
Lemma bitmap_set_8_bits_spec bm b :
  bytes_ok bm -> 0 <= b -> b + 8 <= 8 * zlen bm -> b mod 8 = 0 ->
  exists bm' x, bitmap_set_8_bits bm b = Ok (bm', x) /\ marks bm bm' b (b + 8) /\
    (if x =? 0 then forall k, b <= k < b + 8 -> bit bm k = false
     else exists k, b <= k < b + 8 /\ bit bm k = true).
Proof.
  intros Hok Hb Hlen Hm. destruct (bit_byte bm b) as (x & Hx & Hbits); [lia|].
  assert (Hdiv : forall k, (b <= k < b + 8) <-> k / 8 = b / 8).
  { intros k. dlia. }
  unfold bitmap_set_8_bits. rewrite Hx. eexists _, x. split; [done|]. split.
  - split; [apply zlen_insert|by apply bytes_ok_insert|].
    intros k Hk. rewrite bit_insert by lia.
    replace ((b <=? k) && (k <? b + 8)) with (k / 8 =? b / 8).
    + destruct (k / 8 =? b / 8); [|done]. change 255 with (Z.ones 8).
      apply Z.ones_spec_low. pose proof (Z.mod_pos_bound k 8). lia.
    + apply eq_bool_prop_intro. rewrite !Is_true_true, andb_true_iff, Z.eqb_eq, Z.leb_le, Z.ltb_lt.
      symmetry. apply Hdiv.
  - destruct (Z.eqb_spec x 0) as [->|Hne].
    + intros k Hk. rewrite Hbits by by apply Hdiv. apply Z.bits_0.
    + destruct (decide (Forall (fun k => bit bm k = false) (seqZ b 8))) as [Hall|Hex].
      * exfalso. apply Hne, byte_zero_bits; [by eapply znth_bytes_ok|]. intros j Hj.
        rewrite Forall_forall in Hall. specialize (Hall (b + j)).
        rewrite Hbits in Hall by (apply Hdiv; lia).
        rewrite <- Z.add_mod_idemp_l, Hm, Z.add_0_l, Z.mod_small in Hall by lia.
        apply Hall, elem_of_seqZ. lia.
      * apply not_Forall_Exists, Exists_exists in Hex as (k & Hk & Hbit); [|apply _].
        exists k. rewrite elem_of_seqZ in Hk. split; [lia|]. apply not_false_is_true, Hbit.
Qed.

(** * Ranges *)

(** No bit in [a, b) is set. *)
Definition all_clear (bm : bytes) (a b : Z) : Prop := forall k, a <= k < b -> bit bm k = false.

Lemma all_clear_nil bm a : all_clear bm a a.
Proof. intros k. lia. Qed.

Lemma all_clear_app bm a b c : all_clear bm a b -> all_clear bm b c -> all_clear bm a c.
Proof. intros H1 H2 k Hk. destruct (Z.ltb_spec k b); [apply H1|apply H2]; lia. Qed.

Lemma marks_other v bm bm' a b k : ranged v bm bm' a b -> 0 <= k -> k < a \/ b <= k -> bit bm' k = bit bm k.
Proof.
  intros H Hk Hout. rewrite (ranged_bit _ _ _ _ _ H) by done.
  destruct (Z.leb_spec a k), (Z.ltb_spec k b); cbn; done || lia.
Qed.

Lemma ranged_in v bm bm' a b k : ranged v bm bm' a b -> 0 <= k -> a <= k < b -> bit bm' k = v.
Proof.
  intros H Hk Hin. rewrite (ranged_bit _ _ _ _ _ H) by done.
  destruct (Z.leb_spec a k), (Z.ltb_spec k b); cbn; done || lia.
Qed.

(** What the loops of [reserve_blocks] do from [block] on, with at most [n]
    blocks to go: bits are set from [block] up to the returned counter, and
    each of them was clear, or a bit that was set already is hit. *)
Definition reserve_post (bm : bytes) (i block n : Z) (r : reserved) : Prop :=
  match r with
  | Reserved bm' i' block' =>
      exists k, 0 <= k <= n /\ i' = i + k /\ block' = block + k /\
        marks bm bm' block (block + k) /\ all_clear bm block (block + k)
  | AlreadyReserved bm' b =>
      (exists k, block <= k < block + n /\ bit bm k = true) /\
      exists e, block <= e <= block + n /\ marks bm bm' block e
  end.

(** A loop that goes on where another one stopped. *)
Lemma reserve_post_trans bm i block n k bm1 r :
  0 <= block -> 0 <= k <= n ->
  marks bm bm1 block (block + k) -> all_clear bm block (block + k) ->
  reserve_post bm1 (i + k) (block + k) (n - k) r -> reserve_post bm i block n r.
Proof.
  intros Hb Hk Hm Hc. destruct r as [bm' i' block'|bm' b]; cbn.
  - intros (k' & Hk' & -> & -> & Hm' & Hc'). exists (k + k'). rewrite !Z.add_assoc.
    split_and!; try lia. 
    + eapply ranged_trans; [|done..]. lia.
    + eapply all_clear_app; [done|]. intros j Hj. rewrite <- (Hc' j) by lia.
      symmetry. eapply marks_other; [done|lia..].
  - intros [(j & Hj & Hbit) (e & He & Hm')]. split.
    + exists j. split; [lia|]. rewrite <- Hbit. symmetry. eapply marks_other; [done|lia..].
    + exists e. split; [lia|]. eapply ranged_trans; [|done..]. lia.
Qed.

Section Reserve.
Context (num lim : Z) (Hlim : 8 * lim + 8 < 2 ^ 32).

Lemma reserve_bits_spec stop n bm i block :
  bytes_ok bm -> zlen bm = lim -> 0 <= i -> 0 <= block -> block + Z.of_nat n <= 8 * lim ->
  i + Z.of_nat n < 2 ^ 32 ->
  exists r, reserve_bits stop n bm i block = Ok r /\ reserve_post bm i block (Z.of_nat n) r /\
    match r with
    | Reserved _ i' block' => i' = i + Z.of_nat n \/ stop block' = true
    | _ => True
    end.
Proof.
  revert bm i block. induction n as [|n IH]; intros bm i block Hok Hl Hi Hb Hn Hin.
  { eexists. split; [done|]. split; [|left; lia]. exists 0. rewrite !Z.add_0_r.
    split_and!; try lia; [by apply ranged_refl|apply all_clear_nil]. }
  cbn [reserve_bits]. destruct (stop block) eqn:Hs.
  { eexists. split; [done|]. split; [|by right]. exists 0. rewrite !Z.add_0_r.
    split_and!; try lia; [by apply ranged_refl|apply all_clear_nil]. }
  pose proof (bitmap_set_bit_spec bm block Hok) as Hset. rewrite Hl in Hset.
  specialize (Hset ltac:(lia)). destruct (bit bm block) eqn:E.
  - rewrite Hset. eexists. split; [done|]. split; [|done]. split.
    + exists block. split; [lia|done].
    + exists block. split; [lia|]. by apply ranged_refl.
  - destruct Hset as (bm1 & -> & Hm). cbn [mbind res_bind]. rewrite Z.eqb_refl. cbn [negb].
    rewrite !u32_small by (unfold is_u32; lia).
    destruct (IH bm1 (i + 1) (block + 1)) as (r & -> & Hp & Hx); [apply Hm| |lia..|].
    { rewrite <- Hl. apply Hm. }
    exists r. split; [done|]. split.
    + apply (reserve_post_trans bm i block _ 1 bm1); [lia..|done| |].
      * intros k Hk. by replace k with block by lia.
      * by replace (Z.of_nat (S n) - 1) with (Z.of_nat n) by lia.
    + destruct r; [|done]. destruct Hx; [left; lia|by right].
Qed.

(** Clearing the three low bits of a 32-bit number. *)
Lemma land_not7 x : is_u32 x -> Z.land x (u32 (Z.lnot 7)) = 8 * (x / 8).
Proof.
  intros Hx. replace (u32 (Z.lnot 7)) with (Z.ldiff (Z.ones 32) (Z.ones 3)) by done.
  replace (8 * (x / 8)) with (Z.ldiff x (Z.ones 3)).
  - unfold is_u32 in Hx. rewrite <- (Z.mod_small x (2 ^ 32)) at 2 by lia.
    rewrite <- Z.land_ones by lia. apply Z.bits_inj'. intros n _.
    rewrite !Z.ldiff_spec, !Z.land_spec, Z.ldiff_spec. apply andb_assoc.
  - rewrite Z.ldiff_ones_r, Z.shiftr_div_pow2, Z.shiftl_mul_pow2 by lia.
    change (2 ^ 3) with 8. lia.
Qed.

Lemma reserve_bytes_spec fuel bm i block :
  bytes_ok bm -> zlen bm = lim -> 0 <= i <= num -> i <= block ->
  block + (num - i) <= 8 * lim -> (i + 8 <= num -> block mod 8 = 0) -> num < i + Z.of_nat fuel * 8 + 8 ->
  exists r, reserve_bytes fuel num bm i block = Ok r /\ reserve_post bm i block (num - i) r.
Proof.
  revert bm i block. induction fuel as [|fuel IH]; intros bm i block Hok Hl Hi Hb Hn Hal Hf.
  { eexists. split; [done|]. exists 0. rewrite !Z.add_0_r.
    split_and!; try lia; [by apply ranged_refl|apply all_clear_nil]. }
  cbn [reserve_bytes]. rewrite land_not7, (u32_small (i + 8)) by (unfold is_u32; lia).
  destruct (Z.leb_spec (i + 8) (8 * (num / 8))) as [Hle|Hgt]; cycle 1.
  { eexists. split; [done|]. exists 0. rewrite !Z.add_0_r.
    split_and!; try lia; [by apply ranged_refl|apply all_clear_nil]. }
  assert (i + 8 <= num) by dlia.
  destruct (bitmap_set_8_bits_spec bm block) as (bm1 & x & -> & Hm & Hx); [done|lia|lia|auto|].
  cbn [mbind res_bind]. destruct (Z.eqb_spec x 0); cbn [negb].
  - rewrite (u32_small (block + 8)) by (unfold is_u32; lia).
    destruct (IH bm1 (i + 8) (block + 8)) as (r & -> & Hp); [apply Hm| |lia..|dlia|lia|].
    { rewrite <- Hl. apply Hm. }
    exists r. split; [done|]. apply (reserve_post_trans bm i block _ 8 bm1); [lia..|done|done|].
    by replace (num - i - 8) with (num - (i + 8)) by lia.
  - eexists. split; [done|]. destruct Hx as (k & Hk & Hbit). split.
    + exists k. split; [lia|done].
    + exists (block + 8). split; [lia|done].
Qed.
End Reserve.

Lemma already_reserved_eq force bg bm :
  already_reserved force bg bm =
  if force then Ok (set_blocks bm (bg_free_blocks bg) bg, -1) else CheckFailed.
Proof. by destruct force. Qed.

(** What a call of [reserve_blocks] does to the group, in terms of bits. *)
Definition reserve_blocks_post (force : bool) (bg : block_group_info) (start num : Z)
    (r : res (block_group_info * Z)) : Prop :=
  (all_clear (block_bitmap bg) start (start + num) /\
   exists bm', r = Ok (set_blocks bm' (bg_free_blocks bg -u32 num) bg, 0) /\
     marks (block_bitmap bg) bm' start (start + num)) \/
  ((exists k, start <= k < start + num /\ bit (block_bitmap bg) k = true) /\
   exists bm' e, start <= e <= start + num /\ marks (block_bitmap bg) bm' start e /\
     r = if force then Ok (set_blocks bm' (bg_free_blocks bg) bg, -1) else CheckFailed).

Lemma reserve_blocks_spec force bg start num :
  bytes_ok (block_bitmap bg) -> 0 <= start -> 0 <= num ->
  start + num <= 8 * zlen (block_bitmap bg) -> 8 * zlen (block_bitmap bg) + 8 < 2 ^ 32 ->
  reserve_blocks_post force bg start num (reserve_blocks force bg start num).
Proof.
  intros Hok Hs Hn Hlen Hlim. unfold reserve_blocks. set (bm := block_bitmap bg) in *.
  destruct (reserve_bits_spec (zlen bm) Hlim (fun b => b mod 8 =? 0) (Z.to_nat num) bm 0 start)
    as (r1 & -> & H1 & Hx1); [done|done|lia..|].
  rewrite Z2Nat.id in H1, Hx1 by lia. cbn [mbind res_bind].
  assert (Hfail : forall bm', (exists k, start <= k < start + num /\ bit bm k = true) /\
      (exists e, start <= e <= start + num /\ marks bm bm' start e) ->
      reserve_blocks_post force bg start num (already_reserved force bg bm')).
  { intros bm' (Hk & e & He & Hm). right. split; [done|]. exists bm', e.
    by rewrite already_reserved_eq. }
  destruct r1 as [bm1 i1 b1|bm1 b1]; [|by apply Hfail].
  destruct H1 as (k1 & Hk1 & -> & -> & Hm1 & Hc1). rewrite Z.add_0_l in Hx1.
  destruct (reserve_bytes_spec num (zlen bm) Hlim (Z.to_nat num) bm1 (0 + k1) (start + k1))
    as (r2 & -> & H2); [apply Hm1|apply Hm1|lia..| |lia|].
  { intros Hle. destruct Hx1 as [|Hx1]; [lia|]. lia. }
  apply (reserve_post_trans bm 0 start num k1 bm1) in H2; [|done..|by replace (num - k1) with (num - (0 + k1)) by lia].
  cbn [mbind res_bind]. destruct r2 as [bm2 i2 b2|bm2 b2]; [|by apply Hfail].
  destruct H2 as (k2 & Hk2 & -> & -> & Hm2 & Hc2).
  destruct (reserve_bits_spec (zlen bm) Hlim (fun _ => false) (Z.to_nat (num - (0 + k2))) bm2 (0 + k2) (start + k2))
    as (r3 & -> & H3 & Hx3); [apply Hm2|apply Hm2|lia..|].
  rewrite Z2Nat.id in H3, Hx3 by lia.
  apply (reserve_post_trans bm 0 start num k2 bm2) in H3; [|done..|by replace (num - k2) with (num - (0 + k2)) by lia].
  cbn [mbind res_bind]. destruct r3 as [bm3 i3 b3|bm3 b3]; [|by apply Hfail].
  destruct H3 as (k3 & Hk3 & -> & -> & Hm3 & Hc3). destruct Hx3; [|done].
  replace k3 with num in * by lia. left. split; [done|]. by exists bm3.
Qed.

Lemma u32_sub a b : u32 (u32 a - b) = u32 (a - b).
Proof. unfold u32. apply Zminus_mod_idemp_l. Qed.
Lemma u32_add a b : u32 (u32 a + b) = u32 (a + b).
Proof. unfold u32. apply Z.add_mod_idemp_l. lia. Qed.

Lemma clear_bits_spec n bm block :
  bytes_ok bm -> 8 * zlen bm < 2 ^ 32 -> Z.of_nat n - 1 <= block < 8 * zlen bm ->
  exists bm', clear_bits n bm (u32 block) = Ok (bm', u32 (block - Z.of_nat n)) /\
    clears bm bm' (block - Z.of_nat n + 1) (block + 1).
Proof.
  revert bm block. induction n as [|n IH]; intros bm block Hok Hlim Hb.
  { cbn [clear_bits]. exists bm. rewrite Z.sub_0_r. split; [done|]. by apply ranged_refl. }
  cbn [clear_bits]. rewrite (u32_small block) by (unfold is_u32; lia).
  destruct (bitmap_clear_bit_spec bm block) as (bm1 & -> & Hm1); [done|lia|].
  cbn [mbind res_bind]. destruct (IH bm1 (block - 1)) as (bm2 & -> & Hm2).
  { apply Hm1. }
  { rewrite (ranged_len _ _ _ _ _ Hm1). lia. }
  { rewrite (ranged_len _ _ _ _ _ Hm1). lia. }
  exists bm2. split; [do 3 f_equal; lia|].
  eapply (ranged_trans_down _ _ bm1 _ _ block); [lia|done|].
  replace (block - Z.of_nat (S n) + 1) with (block - 1 - Z.of_nat n + 1) by lia.
  by replace block with (block - 1 + 1) at 2 by lia.
Qed.

(** * Counting clear bits *)

(** The number of clear bits among the [n] from [lo]. *)
Fixpoint count_clear (bm : bytes) (lo : Z) (n : nat) : Z :=
  match n with
  | O => 0
  | S n => (if bit bm lo then 0 else 1) + count_clear bm (lo + 1) n
  end.

Lemma count_clear_ext bm bm' lo n :
  (forall k, lo <= k < lo + Z.of_nat n -> bit bm k = bit bm' k) ->
  count_clear bm lo n = count_clear bm' lo n.
Proof.
  revert lo. induction n as [|n IH]; intros lo H; [done|]. cbn. rewrite H by lia.
  rewrite IH; [done|]. intros. apply H. lia.
Qed.

Lemma count_clear_app bm lo n m :
  count_clear bm lo (n + m) = count_clear bm lo n + count_clear bm (lo + Z.of_nat n) m.
Proof.
  revert lo. induction n as [|n IH]; intros lo; [cbn [Nat.add count_clear]; by rewrite Z.add_0_r|].
  cbn [Nat.add count_clear]. rewrite IH. replace (lo + Z.of_nat (S n)) with (lo + 1 + Z.of_nat n) by lia.
  lia.
Qed.

Lemma count_clear_const v bm lo n :
  (forall k, lo <= k < lo + Z.of_nat n -> bit bm k = v) ->
  count_clear bm lo n = if v then 0 else Z.of_nat n.
Proof.
  revert lo. induction n as [|n IH]; intros lo H; [by destruct v|]. cbn [count_clear].
  rewrite IH by (intros; apply H; lia). rewrite H by lia. destruct v; lia.
Qed.

Lemma count_clear_nonneg bm lo n : 0 <= count_clear bm lo n.
Proof. revert lo. induction n as [|n IH]; intros lo; [done|]. cbn [count_clear]. specialize (IH (lo + 1)). case_if; lia. Qed.

Lemma count_clear_le bm lo n : count_clear bm lo n <= Z.of_nat n.
Proof. revert lo. induction n as [|n IH]; intros lo; [done|]. cbn [count_clear]. specialize (IH (lo + 1)). case_if; lia. Qed.

(** Clear bits among the first [n]. *)
Definition free_count (bm : bytes) (n : Z) : Z := count_clear bm 0 (Z.to_nat n).

Lemma free_count_range bm n : 0 <= n -> 0 <= free_count bm n <= n.
Proof.
  intros. unfold free_count. pose proof (count_clear_nonneg bm 0 (Z.to_nat n)).
  pose proof (count_clear_le bm 0 (Z.to_nat n)). lia.
Qed.

Lemma free_count_split bm a b n :
  0 <= a <= b -> b <= n ->
  free_count bm n = count_clear bm 0 (Z.to_nat a) + count_clear bm a (Z.to_nat (b - a)) +
                    count_clear bm b (Z.to_nat (n - b)).
Proof.
  intros. unfold free_count.
  replace (Z.to_nat n) with (Z.to_nat a + (Z.to_nat (b - a) + Z.to_nat (n - b)))%nat by lia.
  rewrite !count_clear_app, !Z2Nat.id by lia. rewrite Z.add_0_l.
  replace (a + (b - a)) with b by lia. lia.
Qed.

(** Turning a whole range from [negb v] to [v]. *)
Lemma free_count_ranged v bm bm' a b n :
  0 <= a <= b -> b <= n -> ranged v bm bm' a b -> (forall k, a <= k < b -> bit bm k = negb v) ->
  free_count bm' n = free_count bm n + if v then a - b else b - a.
Proof.
  intros Hab Hbn Hr Hv. rewrite !(free_count_split _ a b n) by done.
  rewrite (count_clear_ext bm' bm 0), (count_clear_ext bm' bm b).
  - rewrite (count_clear_const v bm' a), (count_clear_const (negb v) bm a).
    + destruct v; cbn [negb]; lia.
    + intros. apply Hv. lia.
    + intros. eapply ranged_in; [done|lia..].
  - intros. eapply marks_other; [done|lia..].
  - intros. eapply marks_other; [done|lia..].
Qed.

(** * Reserving blocks *)

(** C35: the byte-wise loops of [reserve_blocks] are a per-block reservation:
    when no block of the range is reserved, exactly the bits of the range are
    set, at any alignment, and the free count drops by the length; when one is
    reserved, the call fails, and has set bits of a prefix of the range only.
    It never leaves the bitmap.  The range lies inside the bitmap, which has fewer
    than 2^32 - 8 bits. *)
Theorem reserve_blocks_bits force bg start num :
  bytes_ok (block_bitmap bg) -> 0 <= start -> 0 <= num ->
  start + num <= 8 * zlen (block_bitmap bg) -> 8 * zlen (block_bitmap bg) + 8 < 2 ^ 32 ->
  reserve_blocks_post force bg start num (reserve_blocks force bg start num).
Proof. apply reserve_blocks_spec. Qed.

Lemma reserve_blocks_bits_witness :
  exists bm', reserve_blocks false (set_blocks (replicate 4 0) 32 zero_bg) 3 19 =
    Ok (set_blocks bm' 13 zero_bg, 0) /\ marks (replicate 4 0) bm' 3 22.
Proof.
  pose proof (reserve_blocks_bits false (set_blocks (replicate 4 0) 32 zero_bg) 3 19) as H.
  destruct H as [(_ & H)|((k & _ & Hbit) & _)].
  - repeat constructor; lia.
  - lia.
  - lia.
  - vm_compute; congruence.
  - vm_compute; congruence.
  - exact H.
  - exfalso. revert Hbit. unfold bit, znth. cbn [block_bitmap set_blocks].
    destruct (k / 8 <? 0); [done|]. destruct (replicate 4 0 !! Z.to_nat (k / 8)) as [x|] eqn:E; [|done].
    apply lookup_replicate in E as [-> _]. by rewrite Z.bits_0.
Defined.
