(* ===== verification/Ext4Blocks.v ===== *)
(** The block groups of allocate.c: the invariant of a group (its chunks are in
    order, the holes between them are free, the free count is that of the
    bitmap), and what taking blocks out of a hole, giving blocks back and the
    search for a hole do with respect to it. *)
From stdpp Require Import base gmap list numbers strings.
From Stdlib Require Import ZArith Lia.
From S2P Require Import Prelude Ext4Base Ext4Allocate Ext4Bitmap.

(** * Chunks and holes *)

Definition c_end (c : chunk) : Z := c_block c + c_len c.

(** Between chunk [j] and the next one, the blocks in [a, b) are not in use. *)
Definition hole (cs : list chunk) (j : nat) (a b : Z) : Prop :=
  exists c c', cs !! j = Some c /\ cs !! S j = Some c' /\ a = c_end c /\ b = c_block c'.

(** The [n] blocks from [a] are in one chunk. *)
Definition owns (cs : list chunk) (a n : Z) : Prop :=
  exists (j : nat) c, cs !! j = Some c /\ c_block c <= a /\ a + n <= c_end c.

Record chunks_ok (lo lim : Z) (cs : list chunk) : Prop := ChunksOk {
  co_range : forall j c, cs !! j = Some c ->
    0 <= lo <= c_block c /\ 0 <= c_len c /\ c_end c <= lim;
  co_hole : forall j a b, hole cs j a b -> a <= b;
}.

Lemma chunks_sorted lo lim cs i j c c' :
  chunks_ok lo lim cs -> (i < j)%nat -> cs !! i = Some c -> cs !! j = Some c' -> c_end c <= c_block c'.
Proof.
  intros Hok Hij Hi. revert c'. induction j as [|j IH]; intros c' Hj; [lia|].
  destruct (decide (i = j)) as [->|].
  { eapply (co_hole _ _ _ Hok j). by exists c, c'. }
  destruct (cs !! j) as [d|] eqn:Hd.
  2:{ apply lookup_ge_None in Hd. apply lookup_lt_Some in Hj. lia. }
  specialize (IH ltac:(lia) d eq_refl).
  pose proof (co_range _ _ _ Hok j d Hd). pose proof (co_hole _ _ _ Hok j (c_end d) (c_block c')) as Hh.
  specialize (Hh ltac:(by exists d, c')). unfold c_end in *. lia.
Qed.

Lemma hole_in_range lo lim cs j a b : chunks_ok lo lim cs -> hole cs j a b -> 0 <= lo <= a /\ a <= b <= lim.
Proof.
  intros Hok Hh. pose proof (co_hole _ _ _ Hok _ _ _ Hh). destruct Hh as (c & c' & H1 & H2 & -> & ->).
  pose proof (co_range _ _ _ Hok _ _ H1). pose proof (co_range _ _ _ Hok _ _ H2). unfold c_end in *. lia.
Qed.

Lemma owns_in_range lo lim cs a n : chunks_ok lo lim cs -> owns cs a n -> 0 <= lo <= a /\ a + n <= lim.
Proof.
  intros Hok (j & c & Hj & Ha & Hn). pose proof (co_range _ _ _ Hok _ _ Hj). lia.
Qed.

(** Holes come in the order of their chunks. *)
Lemma holes_apart lo lim cs i j a b a' b' :
  chunks_ok lo lim cs -> hole cs i a b -> hole cs j a' b' -> (i < j)%nat -> b <= a'.
Proof.
  intros Hok (c & d & _ & Hd & _ & ->) (e & _ & He & _ & -> & _) Hij.
  pose proof (co_range _ _ _ Hok _ _ He). destruct (decide (S i = j)) as [<-|].
  - rewrite Hd in He. injection He as <-. unfold c_end. lia.
  - assert (c_end d <= c_block e) by (eapply (chunks_sorted _ _ _ (S i) j); [done|lia|done..]).
    pose proof (co_range _ _ _ Hok _ _ Hd). unfold c_end in *. lia.
Qed.

(** Replacing one chunk: the holes on its two sides change. *)
Lemma hole_insert cs i c d j a b :
  cs !! i = Some c -> hole (<[i := d]> cs) j a b ->
  (j <> i /\ S j <> i /\ hole cs j a b) \/
  (j = i /\ a = c_end d /\ hole cs j (c_end c) b) \/
  (S j = i /\ b = c_block d /\ hole cs j a (c_block c)).
Proof.
  intros Hi (e & e' & H1 & H2 & -> & ->). apply lookup_lt_Some in Hi as Hlt.
  destruct (decide (j = i)) as [->|Hji]; [|destruct (decide (S j = i)) as [<-|Hji']].
  - rewrite list_lookup_insert_eq in H1 by done. injection H1 as <-.
    rewrite list_lookup_insert_ne in H2 by lia. right; left. split_and!; [done..|]. by exists c, e'.
  - rewrite list_lookup_insert_eq in H2 by done. injection H2 as <-.
    rewrite list_lookup_insert_ne in H1 by lia. right; right. split_and!; [done..|]. by exists e, c.
  - rewrite list_lookup_insert_ne in H1 by lia. rewrite list_lookup_insert_ne in H2 by lia.
    left. split_and!; [done..|]. by exists e, e'.
Qed.

Lemma chunks_ok_insert lo lim cs i c d :
  chunks_ok lo lim cs -> cs !! i = Some c ->
  0 <= c_len d -> c_end d <= lim ->
  (forall b, hole cs i (c_end c) b -> c_end d <= b) ->
  c_block c <= c_block d ->
  chunks_ok lo lim (<[i := d]> cs).
Proof.
  intros Hok Hi Hl He Hnext Hprev. pose proof (co_range _ _ _ Hok _ _ Hi) as Hr. split.
  - intros j e. rewrite list_lookup_insert. case_decide as H; [intros [= <-]; lia|apply Hok].
  - intros j a b Hh. apply (hole_insert _ _ _ _ _ _ _ Hi) in Hh as [(_ & _ & Hh)|[(-> & -> & Hh)|(<- & -> & Hh)]].
    + by eapply co_hole.
    + by apply Hnext.
    + apply (co_hole _ _ _ Hok) in Hh. lia.
Qed.

(** * The invariant of a block group *)

Definition geometry_ok (info : fs_info) : Prop :=
  0 < blocks_per_group info <= 8 * block_size info /\ 8 * block_size info + 8 < 2 ^ 32.

(** Where the blocks of the group end: with the group, or with the file system. *)
Definition data_end (info : fs_info) (aux_info : fs_aux_info) (bg : block_group_info) : Z :=
  Z.min (blocks_per_group info) (len_blocks aux_info - first_block bg).

Record bg_ok (info : fs_info) (aux_info : fs_aux_info) (bg : block_group_info) : Prop := BgOk {
  bo_bytes : bytes_ok (block_bitmap bg);
  bo_len : zlen (block_bitmap bg) = block_size info;
  bo_chunks : chunks_ok (header_blocks bg) (data_end info aux_info bg) (chunks bg);
  bo_holes : forall j a b, hole (chunks bg) j a b -> all_clear (block_bitmap bg) a b;
  bo_free : bg_free_blocks bg = free_count (block_bitmap bg) (blocks_per_group info);
  bo_header : 0 < header_blocks bg;
}.

Lemma data_end_le info aux_info bg : data_end info aux_info bg <= blocks_per_group info.
Proof. unfold data_end. lia. Qed.

Section Chunks.
Context (info : fs_info) (Hgeo : geometry_ok info) (lo lim : Z) (Hlim : lim <= blocks_per_group info).

Lemma chunk_u32 cs i c :
  chunks_ok lo lim cs -> cs !! i = Some c ->
  is_u32 (c_block c) /\ is_u32 (c_len c) /\ is_u32 (c_end c).
Proof.
  intros Hok Hi. pose proof (co_range _ _ _ Hok _ _ Hi). unfold geometry_ok, is_u32, c_end in *. lia.
Qed.

(** The chunk before a hole grows by [n] blocks. *)
Definition grow (c : chunk) (n : Z) : chunk := Chunk (c_block c) (c_len c + n) (c_bg c).

Lemma grow_u32 cs j a b n c :
  chunks_ok lo lim cs -> hole cs j a b -> cs !! j = Some c -> 0 < n <= b - a ->
  a = c_end c /\ Chunk (c_block c) (c_len c +u32 n) (c_bg c) = grow c n.
Proof.
  intros Hck Hh Hj Hn. pose proof (hole_in_range _ _ _ _ _ _ Hck Hh).
  destruct Hh as (c0 & c' & Hj' & HSj & -> & ->). rewrite Hj in Hj'. injection Hj' as <-.
  split; [done|]. unfold grow. rewrite u32_small; [done|].
  pose proof (co_range _ _ _ Hck _ _ Hj). unfold geometry_ok, is_u32, c_end in *. lia.
Qed.

Lemma chunks_ok_grow cs j b n c :
  chunks_ok lo lim cs -> hole cs j (c_end c) b -> cs !! j = Some c ->
  0 < n <= b - c_end c -> chunks_ok lo lim (<[j := grow c n]> cs).
Proof.
  intros Hck Hh Hj Hn. pose proof (hole_in_range _ _ _ _ _ _ Hck Hh).
  pose proof (co_range _ _ _ Hck _ _ Hj).
  eapply chunks_ok_insert; [done..| | | |]; unfold grow, c_end in *; cbn; try lia.
  intros b' (d & d' & Hd & Hd' & _ & ->). destruct Hh as (e & e' & _ & He' & _ & ->).
  rewrite He' in Hd'. injection Hd' as <-. lia.
Qed.

Lemma owns_grow cs j n c a' n' :
  0 <= n -> cs !! j = Some c -> owns cs a' n' -> owns (<[j := grow c n]> cs) a' n'.
Proof.
  intros Hn Hj (i & d & Hi & Hd & Hd'). destruct (decide (i = j)) as [->|].
  - exists j, (grow c n). rewrite list_lookup_insert_eq by by eapply lookup_lt_Some.
    rewrite Hj in Hi. injection Hi as <-. unfold c_end, grow in *. cbn. split; [done|lia].
  - exists i, d. by rewrite list_lookup_insert_ne.
Qed.

(** After the first [n] blocks of hole [j] are set, the holes are still free. *)
Lemma holes_grow bm bm' cs j b n c :
  chunks_ok lo lim cs -> (forall j a b, hole cs j a b -> all_clear bm a b) ->
  hole cs j (c_end c) b -> cs !! j = Some c -> 0 < n <= b - c_end c ->
  marks bm bm' (c_end c) (c_end c + n) ->
  forall i x y, hole (<[j := grow c n]> cs) i x y -> all_clear bm' x y.
Proof.
  intros Hck Hho Hh Hj Hn Hm i x y Hxy k Hk.
  pose proof (co_range _ _ _ Hck _ _ Hj).
  apply (hole_insert _ _ _ _ _ _ _ Hj) in Hxy as [(H1 & H2 & Hxy)|[(-> & -> & Hxy)|(<- & -> & Hxy)]];
    pose proof (hole_in_range _ _ _ _ _ _ Hck Hxy).
  - rewrite (marks_other _ _ _ _ _ k Hm); [by apply (Hho _ _ _ Hxy)|lia|].
    destruct (decide (i < j)%nat).
    + pose proof (holes_apart _ _ _ _ _ _ _ _ _ Hck Hxy Hh). lia.
    + pose proof (holes_apart _ _ _ _ _ _ _ _ _ Hck Hh Hxy). lia.
  - unfold grow, c_end in *. cbn in Hk. rewrite (marks_other _ _ _ _ _ k Hm) by lia.
    apply (Hho _ _ _ Hxy). lia.
  - cbn in Hk. rewrite (marks_other _ _ _ _ _ k Hm); [by apply (Hho _ _ _ Hxy)|lia|].
    unfold c_end in *. lia.
Qed.

(** * Giving blocks back *)

(** The search of [free_blocks] ends at the chunk the blocks are in. *)
Lemma free_chunk_at cs n j c block num :
  chunks_ok lo lim cs -> cs !! j = Some c -> (j < n <= length cs)%nat -> 0 < num ->
  c_block c <= block -> block + num <= c_end c ->
  free_chunk n cs block num =
    if c_block c =? block then <[j := Chunk (c_block c + num) (c_len c - num) (c_bg c)]> cs
    else if c_end c =? block + num then <[j := Chunk (c_block c) (c_len c - num) (c_bg c)]> cs
    else cs.
Proof.
  intros Hck Hj Hjn Hnum Hb He. pose proof (co_range _ _ _ Hck _ _ Hj).
  induction n as [|n IH]; [lia|]. cbn [free_chunk]. destruct (decide (n = j)) as [->|Hne].
  - rewrite Hj. unfold c_end, geometry_ok in *.
    destruct (Z.leb_spec num (c_len c)); [|lia]. destruct (Z.leb_spec (c_block c) block); [|lia].
    cbn [andb]. rewrite !u32_small by (unfold is_u32; lia). done.
  - destruct (lookup_lt_is_Some_2 cs n) as [d Hd]; [lia|]. rewrite Hd.
    assert (c_end c <= c_block d) by (eapply (chunks_sorted _ _ _ j n); [done|lia|done..]).
    destruct (Z.leb_spec (c_block d) block); [lia|]. rewrite andb_false_r. apply IH. lia.
Qed.

Lemma chunk_shrink_front num c : c_end (Chunk (c_block c + num) (c_len c - num) (c_bg c)) = c_end c.
Proof. unfold c_end. cbn. lia. Qed.
Lemma chunk_shrink_back num c : c_end (Chunk (c_block c) (c_len c - num) (c_bg c)) = c_end c - num.
Proof. unfold c_end. cbn. lia. Qed.

(** The chunks after blocks of chunk [c] were given back. *)
Definition shrunk (c d : chunk) (block num : Z) : Prop :=
  (d = c /\ c_block c < block /\ block + num < c_end c) \/
  (c_block d = c_block c + num /\ block = c_block c /\ c_end d = c_end c) \/
  (c_block d = c_block c /\ block + num = c_end c /\ c_end d = c_end c - num).

Lemma free_chunk_shrunk cs j c block num :
  chunks_ok lo lim cs -> cs !! j = Some c -> 0 < num ->
  c_block c <= block -> block + num <= c_end c ->
  exists d, free_chunk (length cs) cs block num = <[j := d]> cs /\ shrunk c d block num.
Proof.
  intros Hck Hj Hnum Hb He.
  rewrite (free_chunk_at cs _ j c) by (done || apply lookup_lt_Some in Hj; lia).
  case_if; [|case_if]; eexists.
  - split; [done|]. right; left. by rewrite chunk_shrink_front.
  - split; [done|]. right; right. rewrite chunk_shrink_back. cbn. lia.
  - split; [symmetry; by apply list_insert_id|]. left. split; [done|lia].
Qed.

Lemma chunks_ok_shrunk cs j c d block num :
  chunks_ok lo lim cs -> cs !! j = Some c -> 0 < num ->
  c_block c <= block -> block + num <= c_end c -> shrunk c d block num ->
  chunks_ok lo lim (<[j := d]> cs).
Proof.
  intros Hck Hj Hnum Hb He Hs. pose proof (co_range _ _ _ Hck _ _ Hj).
  assert (c_block c <= c_block d /\ c_end d <= c_end c /\ 0 <= c_len d)
    by (destruct Hs as [(-> & ?)|[(? & ? & ?)|(? & ? & ?)]]; unfold c_end in *; lia).
  eapply chunks_ok_insert; [done..|lia|lia| |lia].
  intros b Hh. apply (co_hole _ _ _ Hck) in Hh. lia.
Qed.

Lemma holes_shrunk bm bm' cs j c d block num :
  chunks_ok lo lim cs -> (forall j a b, hole cs j a b -> all_clear bm a b) ->
  cs !! j = Some c -> 0 < num -> c_block c <= block -> block + num <= c_end c ->
  shrunk c d block num -> clears bm bm' block (block + num) ->
  forall i x y, hole (<[j := d]> cs) i x y -> all_clear bm' x y.
Proof.
  intros Hck Hho Hj Hnum Hb He Hs Hm i x y Hxy k Hk.
  pose proof (co_range _ _ _ Hck _ _ Hj).
  assert (Hkeep : forall i a b, hole cs i a b -> a <= k < b -> bit bm' k = false).
  { intros i' a b Hh Hin. pose proof (hole_in_range _ _ _ _ _ _ Hck Hh).
    rewrite (ranged_bit _ _ _ _ _ Hm) by lia. case_if; [done|]. by apply (Hho _ _ _ Hh). }
  assert (Hfreed : block <= k < block + num -> bit bm' k = false).
  { intros. eapply ranged_in; [done|lia..]. }
  apply (hole_insert _ _ _ _ _ _ _ Hj) in Hxy as [(H1 & H2 & Hxy)|[(-> & -> & Hxy)|(<- & -> & Hxy)]].
  - by eapply Hkeep.
  - destruct (decide (c_end c <= k)); [eapply Hkeep; [done|lia]|].
    apply Hfreed. destruct Hs as [(-> & ?)|[(? & ? & ?)|(? & ? & ?)]]; lia.
  - destruct (decide (k < c_block c)); [eapply Hkeep; [done|lia]|].
    apply Hfreed. destruct Hs as [(-> & ?)|[(? & ? & ?)|(? & ? & ?)]]; lia.
Qed.

Lemma owns_shrunk cs j c d block num a n :
  cs !! j = Some c -> shrunk c d block num -> owns cs a n -> 0 < n -> 
  a + n <= block \/ block + num <= a -> owns (<[j := d]> cs) a n.
Proof.
  intros Hj Hs (i & e & Hi & He & He') Hn Hdis. destruct (decide (i = j)) as [->|].
  - exists j, d. rewrite list_lookup_insert_eq by by eapply lookup_lt_Some. split; [done|].
    rewrite Hj in Hi. injection Hi as <-. destruct Hs as [(-> & ?)|[(? & ? & ?)|(? & ? & ?)]]; lia.
  - exists i, e. by rewrite list_lookup_insert_ne.
Qed.

End Chunks.

(** * Taking and giving back blocks of a group *)

Section Groups.
Context (force : bool) (info : fs_info) (aux_info : fs_aux_info) (Hgeo : geometry_ok info).

(** Reserving the first [n] blocks of a hole in the chunk before it. *)
Lemma take_hole_bg bg j b n c :
  bg_ok info aux_info bg -> hole (chunks bg) j (c_end c) b -> chunks bg !! j = Some c -> 0 < n <= b - c_end c ->
  let bg1 := set_chunks (max_chunk_count bg) (<[j := grow c n]> (chunks bg)) bg in
  exists bm', reserve_blocks force bg1 (c_end c) n = Ok (set_blocks bm' (bg_free_blocks bg - n) bg1, 0) /\
    marks (block_bitmap bg) bm' (c_end c) (c_end c + n) /\
    bg_ok info aux_info (set_blocks bm' (bg_free_blocks bg - n) bg1).
Proof.
  intros [Hby Hlen Hck Hho Hfr Hhd] Hh Hj Hn bg1.
  destruct (hole_in_range _ _ _ _ _ _ Hck Hh) as [Ha Hb]. pose proof (data_end_le info aux_info bg).
  assert (Hclear : all_clear (block_bitmap bg) (c_end c) (c_end c + n)).
  { intros k Hk. apply (Hho _ _ _ Hh). lia. }
  destruct (reserve_blocks_spec force bg1 (c_end c) n) as [(_ & bm' & -> & Hm)|((k & Hk & Hbit) & _)];
    try (cbn; rewrite ?Hlen; unfold geometry_ok in *; done || lia).
  2:{ cbn in Hbit. rewrite Hclear in Hbit by done. done. }
  assert (Hcnt : free_count bm' (blocks_per_group info) = bg_free_blocks bg - n).
  { rewrite (free_count_ranged true (block_bitmap bg) bm' (c_end c) (c_end c + n)); [|lia..|done|done].
    rewrite Hfr. lia. }
  exists bm'. cbn [bg_free_blocks bg1 set_chunks]. rewrite u32_small; [split; [done|]; split; [done|]|].
  - split; cbn; [apply Hm|rewrite <- Hlen; apply Hm|by eapply chunks_ok_grow|by eapply holes_grow|done|done].
  - rewrite <- Hcnt. pose proof (free_count_range bm' (blocks_per_group info)).
    unfold geometry_ok, is_u32 in *. lia.
Qed.

(** [free_blocks] on the last block of a range of reserved blocks in a chunk. *)
Lemma free_blocks_bg bg a n :
  bg_ok info aux_info bg -> owns (chunks bg) a n -> 0 < n ->
  (forall k, a <= k < a + n -> bit (block_bitmap bg) k = true) ->
  exists bm' cs',
    let bg' := set_chunks (max_chunk_count bg) cs' (set_blocks bm' (bg_free_blocks bg + n) bg) in
    free_blocks bg (a + n - 1) n = Ok bg' /\ bg_ok info aux_info bg' /\
    clears (block_bitmap bg) bm' a (a + n) /\
    (forall a' n', owns (chunks bg) a' n' -> 0 < n' -> a' + n' <= a \/ a + n <= a' -> owns cs' a' n').
Proof.
  intros [Hby Hlen Hck Hho Hfr Hhd] Ho Hn Hset. destruct Ho as (j & c & Hj & Ha & He).
  pose proof (co_range _ _ _ Hck _ _ Hj). pose proof Hgeo as [Hg1 Hg2].
  pose proof (data_end_le info aux_info bg).
  destruct (clear_bits_spec (Z.to_nat n) (block_bitmap bg) (a + n - 1)) as (bm' & Hcl & Hm); [done|lia..|].
  destruct (free_chunk_shrunk info Hgeo (header_blocks bg) (data_end info aux_info bg) H0 (chunks bg) j c a n) as (d & Hfc & Hs); [done|done|lia..|].
  rewrite Z2Nat.id in Hcl, Hm by lia. replace (a + n - 1 - n + 1) with a in Hm by lia.
  replace (a + n - 1 + 1) with (a + n) in Hm by lia.
  assert (Hcnt : free_count bm' (blocks_per_group info) = bg_free_blocks bg + n).
  { rewrite (free_count_ranged false (block_bitmap bg) bm' a (a + n)); [|lia..|done|done].
    rewrite Hfr. lia. }
  exists bm', (<[j := d]> (chunks bg)). cbn zeta. split; [|split; [|split; [done|]]].
  - unfold free_blocks. destruct (Z.eqb_spec n 0); [lia|].
    rewrite u32_small in Hcl at 1 by (unfold is_u32; lia). rewrite Hcl. cbn [mbind res_bind].
    rewrite u32_add. replace (a + n - 1 - n + 1) with a by lia.
    rewrite (u32_small a) by (unfold is_u32; lia). cbn [chunks set_blocks max_chunk_count].
    rewrite Hfc, u32_small; [done|]. rewrite <- Hcnt.
    pose proof (free_count_range bm' (blocks_per_group info)). unfold is_u32. lia.
  - split; cbn; [apply Hm|rewrite <- Hlen; apply Hm|by eapply chunks_ok_shrunk|by eapply holes_shrunk|done|done].
  - intros a' n' Hown Hn' Hdis. by eapply owns_shrunk.
Qed.
End Groups.

(** * The search for a hole *)

(** [f] names a hole of the groups [l], from its start on. *)
Definition names_hole (l : list block_group_info) (f : found) (a b : Z) : Prop :=
  exists (i j : nat) bg, found_bg f = Z.of_nat i /\ found_prev_chunk f = Z.of_nat j /\
    l !! i = Some bg /\ hole (chunks bg) j a b /\ found_block f = a.

(** What the search knows when it has seen the holes in [P]. *)
Record scanned (l : list block_group_info) (len : Z) (P : nat -> nat -> Prop) (f : found) : Prop := Scanned {
  sc_hole : found_allocate_len f = 0 \/
            exists a b, names_hole l f a b /\ found_allocate_len f = b - a /\ a < b;
  sc_minimize : minimize f = true -> len < found_allocate_len f;
  sc_best : forall i j bg a b, P i j -> l !! i = Some bg -> hole (chunks bg) j a b ->
            Z.min len (b - a) <= found_allocate_len f;
}.

Definition scan_post (l : list block_group_info) (len : Z) (P : nat -> nat -> Prop)
    (r : found + found) : Prop :=
  match r with
  | inl f => exists a b, names_hole l f a b /\ b - a = len /\ found_allocate_len f = len
  | inr f => scanned l len P f
  end.

Section Scan.
Context (info : fs_info) (aux_info : fs_aux_info) (Hgeo : geometry_ok info) (l : list block_group_info) (len : Z).
Context (Hl : Forall (bg_ok info aux_info) l) (Hlen : 0 < len).

(** One hole more. *)
Lemma scanned_step P f (i j : nat) bg a b :
  scanned l len P f -> l !! i = Some bg -> hole (chunks bg) j a b -> a <= b -> b - a <> len ->
  scanned l len (fun i' j' => P i' j' \/ (i' = i /\ j' = j))
    (if (len <? b - a) && ((found_allocate_len f =? 0) || (b - a <? found_allocate_len f))
     then Found (Z.of_nat i) (Z.of_nat j) a (b - a) true
     else if negb (minimize f) then
       if found_allocate_len f <? b - a then Found (Z.of_nat i) (Z.of_nat j) a (b - a) (minimize f)
       else f
     else f).
Proof.
  intros [Hs1 Hs2 Hs3] Hi Hh Hab Hne.
  assert (H0 : 0 <= found_allocate_len f) by (destruct Hs1 as [->|(x & y & _ & -> & ?)]; lia).
  assert (Hnew : a < b -> forall m, names_hole l (Found (Z.of_nat i) (Z.of_nat j) a (b - a) m) a b)
    by (intros _ m; by exists i, j, bg).
  match goal with |- scanned _ _ _ ?g => set (f' := g) end.
  assert (Hf : (f' = f /\ (b - a <= found_allocate_len f \/ len < found_allocate_len f)) \/
               (exists m, f' = Found (Z.of_nat i) (Z.of_nat j) a (b - a) m /\ 0 < b - a /\
                 (m = true -> len < b - a) /\ (found_allocate_len f < b - a \/ len < b - a))).
  { subst f'. destruct (minimize f) eqn:Hm; cbn [negb]; [specialize (Hs2 eq_refl)|clear Hs2];
    destruct (Z.ltb_spec len (b - a)), (Z.eqb_spec (found_allocate_len f) 0),
      (Z.ltb_spec (b - a) (found_allocate_len f)), (Z.ltb_spec (found_allocate_len f) (b - a));
      cbn [andb orb]; try lia;
      first [left; split; [done|lia] | right; eexists; split; [done|]; split; [lia|]; split; [done || lia|lia]]. }
  destruct Hf as [[-> Hf]|(m & -> & Hpos & Hmin & Hf)].
  - split; [done|done|]. intros i' j' bg' a' b' [HP|[-> ->]] Hi' Hh'; [by eapply Hs3|].
    rewrite Hi in Hi'. injection Hi' as <-.
    destruct Hh as (c1 & c2 & E1 & E2 & -> & ->), Hh' as (c1' & c2' & E1' & E2' & -> & ->). simplify_eq. lia.
  - split; cbn [found_allocate_len minimize].
    + right. exists a, b. split; [apply Hnew; lia|lia].
    + done.
    + intros i' j' bg' a' b' [HP|[-> ->]] Hi' Hh'.
      * pose proof (Hs3 _ _ _ _ _ HP Hi' Hh'). lia.
      * rewrite Hi in Hi'. injection Hi' as <-.
        destruct Hh as (c1 & c2 & E1 & E2 & -> & ->), Hh' as (c1' & c2' & E1' & E2' & -> & ->). simplify_eq. lia.
Qed.

Lemma scanned_weaken (P Q : nat -> nat -> Prop) f :
  scanned l len P f ->
  (forall i j bg a b, Q i j -> l !! i = Some bg -> hole (chunks bg) j a b -> P i j) ->
  scanned l len Q f.
Proof. intros [H1 H2 H3] HPQ. split; [done..|]. intros. by eapply H3; [eapply HPQ| |]. Qed.

Lemma scan_chunks_spec (i : nat) bg pre prev cs f :
  l !! i = Some bg -> chunks bg = pre ++ prev :: cs ->
  scanned l len (fun i' j' => (i' < i)%nat \/ (i' = i /\ (j' < length pre)%nat)) f ->
  scan_post l len (fun i' _ => (i' <= i)%nat)
    (scan_chunks len (Z.of_nat i) (Z.of_nat (length pre) + 1) prev cs f).
Proof.
  intros Hi. assert (Hck : chunks_ok (header_blocks bg) (data_end info aux_info bg) (chunks bg)).
  { rewrite Forall_forall in Hl. apply (bo_chunks _ _ _ (Hl bg (list_elem_of_lookup_2 _ _ _ Hi))). }
  pose proof (data_end_le info aux_info bg).
  revert pre prev f. induction cs as [|c cs IH]; intros pre prev f Hcs Hf.
  { cbn. eapply scanned_weaken; [done|]. intros i' j' bg' a b Hi' Hl' (c1 & c2 & _ & E & _).
    destruct (decide (i' = i)) as [->|]; [|left; lia]. right. split; [done|].
    rewrite Hi in Hl'. injection Hl' as <-. apply lookup_lt_Some in E. rewrite Hcs, length_app in E. cbn in E. lia. }
  assert (H1 : chunks bg !! length pre = Some prev) by by rewrite Hcs, list_lookup_middle.
  assert (H2 : chunks bg !! S (length pre) = Some c).
  { rewrite Hcs, cons_middle, app_assoc. rewrite list_lookup_middle; [done|]. rewrite length_app. cbn. lia. }
  assert (Hh : hole (chunks bg) (length pre) (c_end prev) (c_block c)) by by exists prev, c.
  pose proof (hole_in_range _ _ _ _ _ _ Hck Hh) as [Ha Hb].
  cbn [scan_chunks]. rewrite (u32_small (c_block prev + c_len prev)).
  2:{ unfold geometry_ok, is_u32, c_end in *. lia. }
  fold (c_end prev). rewrite (u32_small (c_block c - c_end prev)).
  2:{ unfold geometry_ok, is_u32 in *. lia. }
  replace (Z.of_nat (length pre) + 1 - 1) with (Z.of_nat (length pre)) by lia.
  destruct (Z.eqb_spec (c_block c - c_end prev) len) as [Heq|Hne].
  { cbn. exists (c_end prev), (c_block c). split; [|done]. by exists i, (length pre), bg. }
  replace (Z.of_nat (length pre) + 1 + 1) with (Z.of_nat (length (pre ++ [prev])) + 1)
    by (rewrite length_app; cbn; lia).
  apply IH.
  { by rewrite Hcs, <- app_assoc. }
  eapply scanned_weaken; [eapply scanned_step; [done|done|done|lia|done]|].
  intros i' j' bg' a b HQ _ _. rewrite length_app in HQ. cbn in HQ |- *. lia.
Qed.

Lemma scan_bgs_spec rest pre f :
  l = pre ++ rest -> scanned l len (fun i' _ => (i' < length pre)%nat) f ->
  scan_post l len (fun _ _ => True) (scan_bgs len (Z.of_nat (length pre)) rest f).
Proof.
  revert pre f. induction rest as [|bg rest IH]; intros pre f Heq Hf.
  { cbn. eapply scanned_weaken; [done|]. intros i j bg a b _ Hi _. apply lookup_lt_Some in Hi.
    rewrite Heq, app_nil_r in Hi. done. }
  assert (Hi : l !! length pre = Some bg) by by rewrite Heq, list_lookup_middle.
  cbn [scan_bgs].
  assert (Hsc : scan_post l len (fun i' _ => (i' <= length pre)%nat) (scan_bg len (Z.of_nat (length pre)) bg f)).
  { unfold scan_bg. destruct (chunks bg) as [|c cs] eqn:Hc.
    - cbn. eapply scanned_weaken; [done|]. intros i j bg' a b Hle Hi' (c1 & c2 & E & _).
      destruct (decide (i = length pre)) as [->|]; [|lia].
      rewrite Hi in Hi'. injection Hi' as <-. by rewrite Hc in E.
    - apply (scan_chunks_spec (length pre) bg [] c cs f Hi Hc).
      eapply scanned_weaken; [done|]. cbn. lia. }
  destruct (scan_bg _ _ _ _) as [f'|f']; [done|].
  replace (Z.of_nat (length pre) + 1) with (Z.of_nat (length (pre ++ [bg]))) by (rewrite length_app; cbn; lia).
  apply IH; [by rewrite Heq, <- app_assoc|]. eapply scanned_weaken; [done|].
  intros i j bg' a b Hlt _ _. rewrite length_app in Hlt. cbn in Hlt |- *. lia.
Qed.

(** The hole that is taken: it has room for [len] blocks when any hole has, and
    otherwise no hole is larger; without one, every hole is empty. *)
Lemma scan_best :
  match scan_bgs len 0 l (Found 0 0 0 0 false) with
  | inl f => exists a b, names_hole l f a b /\ b - a = len /\ found_allocate_len f = len
  | inr f =>
      (found_allocate_len f = 0 \/ exists a b, names_hole l f a b /\ found_allocate_len f = b - a /\ a < b) /\
      forall (i j : nat) bg a b, l !! i = Some bg -> hole (chunks bg) j a b ->
        Z.min len (b - a) <= found_allocate_len f
  end.
Proof.
  pose proof (scan_bgs_spec l [] (Found 0 0 0 0 false) eq_refl) as H. cbn [length Z.of_nat] in H.
  assert (H0 : scanned l len (fun i' _ => (i' < 0)%nat) (Found 0 0 0 0 false)).
  { split; cbn; [by left|done|lia]. }
  specialize (H H0). destruct (scan_bgs _ _ _ _); [done|]. destruct H as [H1 _ H3].
  split; [done|]. intros. by eapply H3.
Qed.
End Scan.
