(* ===== verification/Ext4Use.v ===== *)
(** The blocks that are in use, over all block groups: how changing the bitmap
    and the chunks of one group changes them, and the room that is left in the
    holes. *)
From stdpp Require Import base gmap list numbers strings.
From Stdlib Require Import ZArith Lia.
From S2P Require Import Prelude Ext4Base Ext4Allocate Ext4Bitmap Ext4Blocks.

(** * Blocks in use *)

(** A region without its links. *)
Record span := Span { sp_block : Z; sp_len : Z; sp_bg : Z }.

Definition in_span (sp : span) (B : Z) : Prop := sp_block sp <= B < sp_block sp + sp_len sp.

Section Use.
Context (info : fs_info) (aux_info : fs_aux_info) (Hgeo : geometry_ok info).

Definition in_group (bg : block_group_info) (B : Z) : Prop :=
  first_block bg <= B < first_block bg + blocks_per_group info.

(** Every group keeps its invariant, and the groups follow one another. *)
Record groups_ok (l : list block_group_info) : Prop := GroupsOk {
  go_bg : Forall (bg_ok info aux_info) l;
  go_first : forall (i : nat) bg, l !! i = Some bg ->
    first_block bg = first_data_block aux_info + Z.of_nat i * blocks_per_group info /\
    0 <= first_block bg /\ first_block bg + blocks_per_group info < 2 ^ 32;
}.

(** Block [B] is marked in the bitmap of its group. *)
Definition used (l : list block_group_info) (B : Z) : Prop :=
  exists (i : nat) bg, l !! i = Some bg /\ in_group bg B /\
    bit (block_bitmap bg) (B - first_block bg) = true.

(** The blocks of [sp] are marked, and in one chunk of the group. *)
Definition in_use (l : list block_group_info) (sp : span) : Prop :=
  0 < sp_len sp /\ exists (i : nat) bg, sp_bg sp = Z.of_nat i /\ l !! i = Some bg /\
    owns (chunks bg) (sp_block sp - first_block bg) (sp_len sp) /\
    forall B, in_span sp B -> bit (block_bitmap bg) (B - first_block bg) = true.

Lemma group_unique l (i j : nat) bg bg' B :
  groups_ok l -> l !! i = Some bg -> l !! j = Some bg' -> in_group bg B -> in_group bg' B -> i = j.
Proof.
  intros Hl Hi Hj Hb Hb'. destruct (go_first _ Hl _ _ Hi) as [Hf _], (go_first _ Hl _ _ Hj) as [Hf' _].
  unfold in_group, geometry_ok in *. nia.
Qed.

Lemma used_in_group l (i : nat) bg B :
  groups_ok l -> l !! i = Some bg -> in_group bg B ->
  used l B <-> bit (block_bitmap bg) (B - first_block bg) = true.
Proof.
  intros Hl Hi Hg. split.
  - intros (j & bg' & Hj & Hg' & Hbit). assert (j = i) as -> by by eapply group_unique.
    rewrite Hi in Hj. injection Hj as <-. done.
  - intros. by exists i, bg.
Qed.

Lemma groups_bg l (i : nat) bg : groups_ok l -> l !! i = Some bg -> bg_ok info aux_info bg.
Proof. intros [H _] Hi. rewrite Forall_forall in H. apply H. by eapply list_elem_of_lookup_2. Qed.

Lemma in_use_in_group l sp (i : nat) bg B :
  groups_ok l -> in_use l sp -> sp_bg sp = Z.of_nat i -> l !! i = Some bg -> in_span sp B -> in_group bg B.
Proof.
  intros Hl (_ & j & bg' & E & Hj & Ho & _) Hi Hbg HB. rewrite E in Hi. apply Nat2Z.inj in Hi as ->.
  rewrite Hbg in Hj. injection Hj as <-.
  apply (owns_in_range _ _ _ _ _ (bo_chunks _ _ _ (groups_bg _ _ _ Hl Hbg))) in Ho.
  pose proof (data_end_le info aux_info bg). unfold in_group, in_span in *. lia.
Qed.

Lemma in_use_used l sp B : groups_ok l -> in_use l sp -> in_span sp B -> used l B.
Proof.
  intros Hl Hu HB. pose proof Hu as (_ & i & bg & Hi & Hbg & _ & Hbits).
  eapply used_in_group; [done..| |by apply Hbits]. by eapply in_use_in_group.
Qed.

(** Replacing a group by one in which a range of blocks changed. *)
Lemma update_group v l (i : nat) bg bg' a b :
  groups_ok l -> l !! i = Some bg -> bg_ok info aux_info bg' -> first_block bg' = first_block bg ->
  ranged v (block_bitmap bg) (block_bitmap bg') a b -> 0 <= a -> b <= blocks_per_group info ->
  groups_ok (<[i := bg']> l) /\
  forall B, used (<[i := bg']> l) B <->
    if (first_block bg + a <=? B) && (B <? first_block bg + b) then v = true else used l B.
Proof.
  intros Hl Hi Hok Hf Hr Ha Hb. apply lookup_lt_Some in Hi as Hlt.
  assert (Hl' : groups_ok (<[i := bg']> l)).
  { split.
    - apply Forall_insert; [apply Hl|done].
    - intros j c. rewrite list_lookup_insert. case_decide as Hd; [|apply Hl].
      intros [= <-]. destruct Hd as [-> _]. rewrite Hf. by apply (go_first _ Hl). }
  split; [done|]. intros B.
  assert (Hi' : <[i := bg']> l !! i = Some bg') by by rewrite list_lookup_insert_eq.
  destruct (decide (first_block bg <= B < first_block bg + blocks_per_group info)) as [Hin|Hout].
  - rewrite (used_in_group _ i bg') by (try done; unfold in_group; by rewrite Hf).
    pose proof (used_in_group l i bg B Hl Hi Hin) as Hu. rewrite Hf, (ranged_bit _ _ _ _ _ Hr) by lia.
    destruct (Z.leb_spec a (B - first_block bg)), (Z.ltb_spec (B - first_block bg) b),
      (Z.leb_spec (first_block bg + a) B), (Z.ltb_spec B (first_block bg + b)); cbn; done || lia || by rewrite Hu.
  - replace ((first_block bg + a <=? B) && (B <? first_block bg + b)) with false.
    2:{ symmetry. apply andb_false_iff. rewrite Z.leb_gt, Z.ltb_ge. lia. }
    split; intros (j & c & Hj & Hg & Hbit).
    + destruct (decide (j = i)) as [->|].
      { rewrite Hi' in Hj. injection Hj as <-. unfold in_group in Hg. rewrite Hf in Hg. done. }
      rewrite list_lookup_insert_ne in Hj by done. by exists j, c.
    + destruct (decide (j = i)) as [->|]; [by rewrite Hi in Hj; injection Hj as <-|].
      exists j, c. by rewrite list_lookup_insert_ne.
Qed.

(** A span stays in use when its group keeps it in a chunk and its bits set. *)
Lemma in_use_update l (i : nat) bg bg' sp :
  groups_ok l -> l !! i = Some bg -> first_block bg' = first_block bg -> in_use l sp ->
  (sp_bg sp = Z.of_nat i -> owns (chunks bg) (sp_block sp - first_block bg) (sp_len sp) ->
   (forall B, in_span sp B -> bit (block_bitmap bg) (B - first_block bg) = true) ->
   owns (chunks bg') (sp_block sp - first_block bg) (sp_len sp) /\
   forall B, in_span sp B -> bit (block_bitmap bg') (B - first_block bg) = true) ->
  in_use (<[i := bg']> l) sp.
Proof.
  intros Hl Hi Hf (Hlen & j & c & Hj & Hc & Ho & Hbits) Hkeep. split; [done|].
  destruct (decide (j = i)) as [->|].
  - rewrite Hi in Hc. injection Hc as <-. exists i, bg'. rewrite Hf.
    rewrite list_lookup_insert_eq by by eapply lookup_lt_Some. split; [done|]. split; [done|]. by apply Hkeep.
  - exists j, c. by rewrite list_lookup_insert_ne.
Qed.

(** * The room that is left *)

(** The blocks of the holes of a list of chunks. *)
Fixpoint hole_total (cs : list chunk) : Z :=
  match cs with
  | c :: ((c' :: _) as cs') => c_block c' - c_end c + hole_total cs'
  | _ => 0
  end.

Definition capacity (l : list block_group_info) : Z :=
  foldr (fun bg n => hole_total (chunks bg) + n) 0 l.

Lemma hole_total_cons c c' cs :
  hole_total (c :: c' :: cs) = c_block c' - c_end c + hole_total (c' :: cs).
Proof. done. Qed.

Lemma hole_total_grow cs j c n :
  cs !! j = Some c -> is_Some (cs !! S j) ->
  hole_total (<[j := grow c n]> cs) = hole_total cs - n.
Proof.
  revert j. induction cs as [|d cs IH]; intros j Hj HS; [done|].
  destruct cs as [|e cs]; [by destruct HS|]. destruct j as [|j].
  - injection Hj as ->. change (<[0%nat := grow c n]> (c :: e :: cs)) with (grow c n :: e :: cs).
    rewrite !hole_total_cons. unfold grow, c_end. cbn [c_block c_len]. lia.
  - specialize (IH j Hj HS). rewrite hole_total_cons.
    destruct j as [|j].
    + injection Hj as ->.
      change (hole_total (d :: grow c n :: cs) = c_block c - c_end d + hole_total (c :: cs) - n).
      change (hole_total (grow c n :: cs) = hole_total (c :: cs) - n) in IH.
      rewrite hole_total_cons, IH. cbn [grow c_block]. lia.
    + change (hole_total (d :: e :: <[j := grow c n]> cs) = c_block e - c_end d + hole_total (e :: cs) - n).
      change (hole_total (e :: <[j := grow c n]> cs) = hole_total (e :: cs) - n) in IH.
      rewrite hole_total_cons, IH. lia.
Qed.

Lemma capacity_insert l (i : nat) bg bg' :
  l !! i = Some bg ->
  capacity (<[i := bg']> l) = capacity l + hole_total (chunks bg') - hole_total (chunks bg).
Proof.
  revert i. induction l as [|c l IH]; intros i Hi; [done|]. destruct i as [|i].
  - injection Hi as ->. cbn. lia.
  - change (hole_total (chunks c) + capacity (<[i := bg']> l) =
      hole_total (chunks c) + capacity l + hole_total (chunks bg') - hole_total (chunks bg)).
    rewrite (IH i Hi). lia.
Qed.

Lemma hole_total_nonneg lo lim cs : chunks_ok lo lim cs -> 0 <= hole_total cs.
Proof.
  induction cs as [|c cs IH]; intros Hok; [done|]. destruct cs as [|c' cs]; [done|].
  assert (Hc : c_end c <= c_block c') by (eapply (co_hole _ _ _ Hok 0%nat); by exists c, c').
  change (0 <= c_block c' - c_end c + hole_total (c' :: cs)).
  assert (0 <= hole_total (c' :: cs)); [|lia]. apply IH. split.
  - intros j d Hj. by apply (co_range _ _ _ Hok (S j)).
  - intros j a b (d & d' & H1 & H2 & H). apply (co_hole _ _ _ Hok (S j)). by exists d, d'.
Qed.

Lemma capacity_nonneg l : groups_ok l -> 0 <= capacity l.
Proof.
  intros [H _]. induction H as [|bg l Hbg _ IH]; [done|].
  change (0 <= hole_total (chunks bg) + capacity l).
  pose proof (hole_total_nonneg _ _ _ (bo_chunks _ _ _ Hbg)). lia.
Qed.

(** Without a hole there is no room. *)
Lemma hole_total_zero cs :
  (forall (j : nat) a b, hole cs j a b -> b - a <= 0) -> hole_total cs <= 0.
Proof.
  induction cs as [|c cs IH]; intros H; [done|]. destruct cs as [|c' cs]; [done|].
  change (c_block c' - c_end c + hole_total (c' :: cs) <= 0).
  assert (c_block c' - c_end c <= 0) by (apply (H 0%nat); by exists c, c').
  assert (hole_total (c' :: cs) <= 0); [|lia]. apply IH.
  intros j a b (d & d' & H1 & H2 & E). apply (H (S j)). by exists d, d'.
Qed.

Lemma capacity_zero l :
  (forall (i j : nat) bg a b, l !! i = Some bg -> hole (chunks bg) j a b -> b - a <= 0) -> capacity l <= 0.
Proof.
  induction l as [|bg l IH]; intros H; [done|].
  change (hole_total (chunks bg) + capacity l <= 0).
  assert (hole_total (chunks bg) <= 0) by (apply hole_total_zero; intros; by eapply (H 0%nat)).
  assert (capacity l <= 0) by (apply IH; intros i j b' a b Hi; by apply (H (S i))). lia.
Qed.
End Use.
