(* ===== verification/Ext4Lists.v ===== *)
(** Doubly linked lists of regions in the heap of allocate.c, and what the
    functions that walk over them compute. *)
From stdpp Require Import base gmap list numbers strings.
From Stdlib Require Import ZArith Lia.
From S2P Require Import Prelude Ext4Base Ext4Allocate Ext4Bitmap Ext4Blocks Ext4Use.

(** * Running programs *)

Lemma bind_Ok {A B} (m : M A) (f : A -> M B) s a s' :
  m s = Ok (a, s') -> (m ≫= f) s = f a s'.
Proof. intros H. unfold mbind, M_bind. by rewrite H. Qed.

Lemma bind_CheckFailed {A B} (m : M A) (f : A -> M B) s :
  m s = CheckFailed -> (m ≫= f) s = CheckFailed.
Proof. intros H. unfold mbind, M_bind. by rewrite H. Qed.

Lemma lift_Ok {A} (m : res A) a s : m = Ok a -> lift m s = Ok (a, s).
Proof. by intros ->. Qed.

Lemma load_Ok p r s : heap s !! p = Some r -> load (Some p) s = Ok (r, s).
Proof. intros H. unfold load. cbn. by rewrite H. Qed.

Definition with_heap (s : fs) (h : gmap Z region) : fs := Fs h (brk s) (bgs s) (sparse s).
Definition with_bgs (s : fs) (l : list block_group_info) : fs := Fs (heap s) (brk s) l (sparse s).

Lemma store_Ok p f r s :
  heap s !! p = Some r -> store (Some p) f s = Ok (tt, with_heap s (<[p := f r]> (heap s))).
Proof. intros H. unfold store. by rewrite H. Qed.

Lemma free_Ok p r s :
  heap s !! p = Some r -> free (Some p) s = Ok (tt, with_heap s (delete p (heap s))).
Proof. intros H. unfold free. by rewrite H. Qed.

Lemma load_bg_Ok (i : nat) bg s : bgs s !! i = Some bg -> load_bg (Z.of_nat i) s = Ok (bg, s).
Proof. intros H. unfold load_bg. rewrite znth_lookup, Nat2Z.id by lia. by rewrite H. Qed.

Lemma store_bg_Ok (i : nat) bg bg' s :
  bgs s !! i = Some bg -> store_bg (Z.of_nat i) bg' s = Ok (tt, with_bgs s (<[i := bg']> (bgs s))).
Proof. intros H. unfold store_bg. rewrite znth_lookup, Nat2Z.id by lia. by rewrite H. Qed.

(** Run the next command of a program. *)
Ltac mstep := erewrite bind_Ok by (reflexivity || eassumption || (by eapply load_Ok) || (by eapply lift_Ok) || (by eapply store_Ok) ||
                                   (by eapply free_Ok) || (by eapply load_bg_Ok) || (by eapply store_bg_Ok)); cbn beta iota.

(** * List segments *)

Abbreviation node := (Z * span)%type.

Definition region_of (sp : span) (next prev : option Z) : region :=
  Region (sp_block sp) (sp_len sp) (sp_bg sp) next prev.

Definition head_addr (ns : list node) (nxt : option Z) : option Z :=
  match ns with [] => nxt | (p, _) :: _ => Some p end.

Fixpoint last_addr (prev : option Z) (ns : list node) : option Z :=
  match ns with [] => prev | (p, _) :: ns => last_addr (Some p) ns end.

(** The regions of [ns] are linked in order, between [prev] and [nxt]. *)
Fixpoint dseg (h : gmap Z region) (prev : option Z) (ns : list node) (nxt : option Z) : Prop :=
  match ns with
  | [] => True
  | (p, sp) :: ns => h !! p = Some (region_of sp (head_addr ns nxt) prev) /\ dseg h (Some p) ns nxt
  end.

Lemma dseg_frame h h' prev ns nxt :
  (forall p, p ∈ ns.*1 -> h' !! p = h !! p) -> dseg h prev ns nxt -> dseg h' prev ns nxt.
Proof.
  revert prev. induction ns as [|[p sp] ns IH]; intros prev H; [done|]. cbn. intros [H1 H2]. split.
  - rewrite H; [done|]. cbn. by left.
  - apply IH; [|done]. intros q Hq. apply H. cbn. by right.
Qed.

Lemma last_addr_snoc prev ns p sp : last_addr prev (ns ++ [(p, sp)]) = Some p.
Proof. revert prev. induction ns as [|[q sq] ns IH]; intros prev; [done|]. apply IH. Qed.

Lemma dseg_app h prev ns ms nxt :
  dseg h prev (ns ++ ms) nxt <->
  dseg h prev ns (head_addr ms nxt) /\ dseg h (last_addr prev ns) ms nxt.
Proof.
  revert prev. induction ns as [|[p sp] ns IH]; intros prev; cbn; [tauto|]. rewrite IH.
  replace (head_addr (ns ++ ms) nxt) with (head_addr ns (head_addr ms nxt)) by by destruct ns as [|[]].
  tauto.
Qed.

Lemma dseg_in h prev ns nxt p : dseg h prev ns nxt -> p ∈ ns.*1 -> is_Some (h !! p).
Proof.
  revert prev. induction ns as [|[q sp] ns IH]; intros prev; cbn; [by rewrite elem_of_nil|].
  intros [H1 H2]. rewrite elem_of_cons. intros [->|Hp]; [by eexists|by eapply IH].
Qed.

Lemma length_le_size (h : gmap Z region) (l : list Z) :
  NoDup l -> (forall p, p ∈ l -> is_Some (h !! p)) -> (length l <= size h)%nat.
Proof.
  intros Hnd Hin. rewrite <- size_dom. rewrite <- (size_list_to_set (C := gset Z) l) by done.
  apply subseteq_size. intros p. rewrite elem_of_list_to_set, elem_of_dom. apply Hin.
Qed.

Lemma dseg_length h prev ns nxt : dseg h prev ns nxt -> NoDup ns.*1 -> (length ns <= size h)%nat.
Proof.
  intros Hd Hnd. rewrite <- (length_fmap fst). apply length_le_size; [done|]. intros. by eapply dseg_in.
Qed.

(** Linking a region behind the last one. *)
Lemma dseg_link h prev ns q sq p sp nxt nxt' prev' :
  dseg h prev (ns ++ [(q, sq)]) nxt -> NoDup (ns ++ [(q, sq)]).*1 -> p ∉ (ns ++ [(q, sq)]).*1 ->
  h !! p = Some (region_of sp nxt' prev') ->
  dseg (<[p := region_of sp nxt' (Some q)]>
          (<[q := region_of sq (Some p) (last_addr prev ns)]> h))
    prev ((ns ++ [(q, sq)]) ++ [(p, sp)]) nxt'.
Proof.
  intros Hd Hnd Hp Hlook. rewrite !fmap_app in *. cbn in *.
  apply NoDup_app in Hnd as (Hnd & Hq & _). apply dseg_app in Hd as [Hd1 Hd2].
  apply not_elem_of_app in Hp as [Hp Hpq]. rewrite list_elem_of_singleton in Hpq.
  apply dseg_app. split; [apply dseg_app; split|].
  - eapply dseg_frame; [|exact Hd1]. intros r Hr.
    rewrite lookup_insert_ne by congruence. rewrite lookup_insert_ne; [done|].
    intros <-. apply (Hq q Hr). by apply list_elem_of_singleton.
  - cbn. split; [|done]. by rewrite lookup_insert_ne, lookup_insert_eq by done.
  - rewrite last_addr_snoc. cbn. split; [|done]. by rewrite lookup_insert_eq.
Qed.

(** * Walks *)

Definition spans (ns : list node) : list span := ns.*2.

Fixpoint total (l : list span) : Z :=
  match l with [] => 0 | sp :: l => sp_len sp + total l end.

(** The blocks of a list of regions, in order. *)
Definition blocks (l : list span) : list Z := l ≫= fun sp => seqZ (sp_block sp) (sp_len sp).

Lemma total_app l k : total (l ++ k) = total l + total k.
Proof. induction l as [|sp l IH]; [done|]. cbn [app total]. rewrite IH. lia. Qed.

Lemma total_nonneg l : Forall (fun sp => 0 <= sp_len sp) l -> 0 <= total l.
Proof. induction 1 as [|sp l H _ IH]; [done|]. cbn [total]. lia. Qed.

Lemma elem_of_blocks l B : B ∈ blocks l <-> exists sp, sp ∈ l /\ in_span sp B.
Proof.
  unfold blocks. rewrite list_elem_of_bind. unfold in_span. setoid_rewrite elem_of_seqZ. naive_solver.
Qed.

Lemma zlen_blocks l : Forall (fun sp => 0 <= sp_len sp) l -> zlen (blocks l) = total l.
Proof.
  induction 1 as [|sp l H _ IH]; [done|]. unfold blocks in *. cbn. rewrite zlen_app, IH.
  unfold zlen. rewrite length_seqZ. lia.
Qed.

Section Walk.
Context (s : fs).

Lemma last_of_spec fuel prev p sp ns :
  dseg (heap s) prev ((p, sp) :: ns) None -> (length ns < fuel)%nat ->
  last_of fuel (Some p) s = Ok (last_addr prev ((p, sp) :: ns), s).
Proof.
  revert fuel prev p sp. induction ns as [|[q sq] ns IH]; intros [|fuel] prev p sp Hd Hf; cbn in Hf; try lia.
  - destruct Hd as [Hd _]. cbn [last_of]. mstep. done.
  - destruct Hd as [Hd Hd']. cbn [last_of]. mstep. cbn [r_next region_of head_addr].
    by rewrite (IH _ (Some p) q sq) by (done || lia).
Qed.

Lemma num_regions_spec fuel prev ns i :
  dseg (heap s) prev ns None -> (length ns <= fuel)%nat -> 0 <= i -> i + zlen ns < 2 ^ 32 ->
  num_regions fuel (head_addr ns None) i s = Ok (i + zlen ns, s).
Proof.
  revert fuel prev i. induction ns as [|[p sp] ns IH]; intros fuel prev i Hd Hf Hi Hlim.
  { destruct fuel; cbn; by rewrite zlen_nil, Z.add_0_r. }
  destruct fuel as [|fuel]; cbn in Hf; [lia|]. destruct Hd as [Hd Hd'].
  cbn [num_regions head_addr]. mstep. cbn [r_next region_of]. rewrite zlen_cons in *.
  pose proof (zlen_nonneg ns). rewrite u32_small by (unfold is_u32; lia).
  rewrite (IH _ (Some p)) by (done || lia). do 2 f_equal. lia.
Qed.

Lemma regions_len_spec fuel prev ns i :
  dseg (heap s) prev ns None -> (length ns <= fuel)%nat ->
  Forall (fun sp => 0 <= sp_len sp) (spans ns) -> 0 <= i -> i + total (spans ns) < 2 ^ 32 ->
  regions_len fuel (head_addr ns None) i s = Ok (i + total (spans ns), s).
Proof.
  revert fuel prev i. induction ns as [|[p sp] ns IH]; intros fuel prev i Hd Hf Hpos Hi Hlim.
  { destruct fuel; cbn; by rewrite Z.add_0_r. }
  destruct fuel as [|fuel]; cbn in Hf; [lia|]. destruct Hd as [Hd Hd'].
  cbn in Hpos. apply Forall_cons in Hpos as [Hsp Hpos]. fold (spans ns) in Hpos. pose proof (total_nonneg _ Hpos).
  change (total (spans ((p, sp) :: ns))) with (sp_len sp + total (spans ns)) in *.
  cbn [regions_len head_addr]. mstep. cbn [r_next r_len region_of].
  rewrite u32_small by (unfold is_u32; lia).
  rewrite (IH _ (Some p)) by (done || lia). do 2 f_equal. lia.
Qed.

Lemma find_block_spec fuel prev ns k :
  dseg (heap s) prev ns None -> (length ns <= fuel)%nat ->
  Forall (fun sp => 0 <= sp_len sp /\ is_u32 (sp_block sp) /\ is_u32 (sp_block sp + sp_len sp)) (spans ns) ->
  is_u32 k ->
  find_block fuel (head_addr ns None) k s =
    Ok (default EXT4_ALLOCATE_FAILED (znth (blocks (spans ns)) k), s).
Proof.
  revert fuel prev k. induction ns as [|[p sp] ns IH]; intros fuel prev k Hd Hf Hpos Hk.
  { unfold is_u32 in Hk. rewrite znth_lookup by lia. by destruct fuel. }
  destruct fuel as [|fuel]; cbn in Hf; [lia|]. destruct Hd as [Hd Hd'].
  cbn in Hpos. apply Forall_cons in Hpos as [(Hsp & Hb & He) Hpos]. unfold is_u32 in *.
  change (blocks (spans ((p, sp) :: ns))) with (seqZ (sp_block sp) (sp_len sp) ++ blocks (spans ns)).
  cbn [find_block head_addr]. mstep. cbn [r_next r_len r_block region_of].
  rewrite !znth_lookup by lia. destruct (Z.ltb_spec k (sp_len sp)).
  - rewrite lookup_app_l by (rewrite length_seqZ; lia). rewrite lookup_seqZ_lt by lia. cbn.
    rewrite u32_small by (unfold is_u32; lia). unfold mret, M_ret. do 2 f_equal. lia.
  - rewrite lookup_app_r by (rewrite length_seqZ; lia). rewrite length_seqZ.
    rewrite (u32_small (k - sp_len sp)) by (unfold is_u32; lia).
    rewrite (IH _ (Some p)) by (done || unfold is_u32; lia). rewrite znth_lookup by lia.
    do 3 f_equal. f_equal. lia.
Qed.
End Walk.
