(* ===== verification/Ext4Alloc.v ===== *)
(** Correctness of [allocate_blocks]: which blocks an allocation gets, that it
    succeeds whenever there is room, and the list of regions it returns. *)
From stdpp Require Import base gmap list numbers strings.
From Stdlib Require Import ZArith Lia.
From S2P Require Import Prelude Ext4Base Ext4Allocate Ext4Bitmap Ext4Blocks Ext4Use Ext4Lists.

Section Alloc.
Context (force : bool) (info : fs_info) (aux_info : fs_aux_info) (Hgeo : geometry_ok info).

Definition fs_ok (s : fs) : Prop :=
  groups_ok info aux_info (bgs s) /\ forall p, brk s <= p -> heap s !! p = None.

Abbreviation used := (used info).

(** [s'] is [s] with the regions [new] allocated; the regions at [keep] have not
    been touched. *)
Record extends (s s' : fs) (keep : Z -> Prop) (new : list node) : Prop := Extends {
  ex_ok : fs_ok s';
  ex_new : Forall (in_use (bgs s')) (spans new);
  ex_keep : forall sp, in_use (bgs s) sp -> in_use (bgs s') sp;
  ex_used : forall B, used (bgs s') B <-> used (bgs s) B \/ B ∈ blocks (spans new);
  ex_fresh : forall B, B ∈ blocks (spans new) -> ~ used (bgs s) B;
  ex_nodup : NoDup (blocks (spans new));
  ex_addrs : NoDup new.*1;
  ex_addr : forall p, p ∈ new.*1 -> brk s <= p < brk s';
  ex_brk : brk s <= brk s';
  ex_heap : forall p, p < brk s -> keep p -> heap s' !! p = heap s !! p;
  ex_cap : capacity (bgs s') = capacity (bgs s) - total (spans new);
  ex_sparse : sparse s' = sparse s;
}.

Lemma blocks_app l k : blocks (l ++ k) = blocks l ++ blocks k.
Proof. unfold blocks. apply bind_app. Qed.

Lemma spans_app n1 n2 : spans (n1 ++ n2) = spans n1 ++ spans n2.
Proof. apply fmap_app. Qed.

Lemma allocated_refl s keep : fs_ok s -> extends s s keep [].
Proof.
  intros Hs. split; cbn; try done; try lia; try set_solver; constructor.
Qed.

Lemma allocated_trans s s1 s2 keep keep' n1 n2 :
  extends s s1 keep n1 -> extends s1 s2 keep' n2 -> (forall p, p < brk s -> keep p -> keep' p) ->
  extends s s2 keep (n1 ++ n2).
Proof.
  intros E1 E2 Hk. pose proof (ex_brk _ _ _ _ E1). pose proof (ex_brk _ _ _ _ E2).
  split; rewrite ?spans_app, ?blocks_app, ?fmap_app.
  - apply E2.
  - apply Forall_app. split; [|apply E2].
    eapply Forall_impl; [apply E1|]. intros sp. apply E2.
  - intros sp Hsp. by apply E2, E1.
  - intros B. rewrite elem_of_app, (ex_used _ _ _ _ E2), (ex_used _ _ _ _ E1). tauto.
  - intros B [HB|HB]%elem_of_app; [by apply E1|]. intros Hu. apply (ex_fresh _ _ _ _ E2 B HB).
    apply (ex_used _ _ _ _ E1). by left.
  - apply NoDup_app. split; [apply E1|]. split; [|apply E2]. intros B H1 H2.
    apply (ex_fresh _ _ _ _ E2 B H2), (ex_used _ _ _ _ E1). by right.
  - apply NoDup_app. split; [apply E1|]. split; [|apply E2]. intros p H1 H2.
    apply (ex_addr _ _ _ _ E1) in H1. apply (ex_addr _ _ _ _ E2) in H2. lia.
  - intros p [Hp|Hp]%elem_of_app; [apply (ex_addr _ _ _ _ E1) in Hp|apply (ex_addr _ _ _ _ E2) in Hp]; lia.
  - lia.
  - intros p Hp Hkp. rewrite (ex_heap _ _ _ _ E2), (ex_heap _ _ _ _ E1); auto. lia.
  - rewrite total_app, (ex_cap _ _ _ _ E2), (ex_cap _ _ _ _ E1). lia.
  - rewrite (ex_sparse _ _ _ _ E2). apply E1.
Qed.

(** A change of links only. *)
Lemma extends_links s s' h keep new :
  extends s s' keep new -> (forall p, p < brk s -> keep p -> h !! p = heap s' !! p) ->
  (forall p, brk s' <= p -> h !! p = None) -> extends s (with_heap s' h) keep new.
Proof.
  intros [] Hh Hn. split; cbn; try done.
  - by destruct ex_ok0.
  - intros p Hp Hk. rewrite Hh by done. auto.
Qed.

(** ** Taking a hole *)

(** The group after [n] blocks of the hole behind its chunk [c] are taken. *)
Definition taken (bg : block_group_info) (j : nat) (c : chunk) (n : Z) (bm : list Z) : block_group_info :=
  let bg1 := set_chunks (max_chunk_count bg) (<[j := grow c n]> (chunks bg)) bg in
  let bg2 := set_blocks bm (bg_free_blocks bg - n) bg1 in
  set_data_blocks_used (data_blocks_used bg2 + n) bg2.

Definition taken_span (i : nat) (bg : block_group_info) (c : chunk) (n : Z) : span :=
  Span (c_end c + first_block bg) n (Z.of_nat i).

(** The lines of [take_hole] one after the other. *)
Lemma take_hole_run f s (i j : nat) bg c n bm :
  found_bg f = Z.of_nat i -> found_prev_chunk f = Z.of_nat j -> found_allocate_len f = n -> found_block f = c_end c ->
  bgs s !! i = Some bg -> chunks bg !! j = Some c -> Chunk (c_block c) (c_len c +u32 n) (c_bg c) = grow c n ->
  is_u32 (c_end c + first_block bg) ->
  (let bg1 := set_chunks (max_chunk_count bg) (<[j := grow c n]> (chunks bg)) bg in
   reserve_blocks force bg1 (c_end c) n = Ok (set_blocks bm (bg_free_blocks bg - n) bg1, 0)) ->
  take_hole force f s = Ok (Some (brk s),
    Fs (<[brk s := region_of (taken_span i bg c n) None None]> (heap s)) (brk s + 1)
      (<[i := taken bg j c n bm]> (bgs s)) (sparse s)).
Proof.
  intros Hfb Hfp Hn Hfa Hi Hj Hgrow Hu Hres. assert (Hlen : (i < length (bgs s))%nat) by by eapply lookup_lt_Some.
  unfold take_hole. rewrite Hn, Hfb, Hfp. mstep. rewrite znth_lookup, Nat2Z.id, Hj by lia.
  erewrite bind_Ok by done. rewrite Hgrow. mstep.
  set (bg1 := set_chunks _ _ bg) in *. cbv zeta in Hres. set (bg2 := set_blocks bm (bg_free_blocks bg - n) bg1) in *.
  assert (H1 : bgs (with_bgs s (<[i := bg1]> (bgs s))) !! i = Some bg1) by by apply list_lookup_insert_eq.
  erewrite bind_Ok.
  2:{ unfold reserve_blocks_in. mstep. rewrite Hfa. mstep. erewrite bind_Ok by by eapply store_bg_Ok. done. }
  cbn [Z.ltb Z.compare]. cbn [bgs with_bgs]. rewrite list_insert_insert_eq.
  assert (H2 : bgs (with_bgs (with_bgs s (<[i := bg1]> (bgs s))) (<[i := bg2]> (bgs s))) !! i = Some bg2)
    by by apply list_lookup_insert_eq.
  erewrite bind_Ok by by eapply load_bg_Ok. erewrite bind_Ok by by eapply store_bg_Ok.
  unfold malloc. cbn [brk with_bgs heap bgs sparse]. rewrite list_insert_insert_eq, Hfa.
  cbn [first_block bg2 set_blocks bg1 set_chunks]. by rewrite (u32_small (c_end c + first_block bg)).
Qed.

(** The blocks taken were free and are in use afterwards; nothing else changes. *)
Lemma taken_extends s (i j : nat) bg c b n bm :
  fs_ok s -> bgs s !! i = Some bg -> hole (chunks bg) j (c_end c) b -> chunks bg !! j = Some c -> 0 < n <= b - c_end c ->
  marks (block_bitmap bg) bm (c_end c) (c_end c + n) -> bg_ok info aux_info (taken bg j c n bm) ->
  let sp := taken_span i bg c n in
  extends s (Fs (<[brk s := region_of sp None None]> (heap s)) (brk s + 1) (<[i := taken bg j c n bm]> (bgs s)) (sparse s))
    (fun _ => True) [(brk s, sp)].
Proof.
  intros [Hg Hbrk] Hi Hh Hj Hn Hm Hok3 sp. set (bg3 := taken bg j c n bm) in *. set (l3 := <[i := bg3]> (bgs s)).
  pose proof (groups_bg _ _ _ _ _ Hg Hi) as Hok. pose proof (bo_chunks _ _ _ Hok) as Hck.
  pose proof (data_end_le info aux_info bg). pose proof (hole_in_range _ _ _ _ _ _ Hck Hh) as [Hlo Hhi].
  destruct (go_first _ _ _ Hg _ _ Hi) as (_ & Hf0 & Hf1).
  assert (Hlen : (i < length (bgs s))%nat) by by eapply lookup_lt_Some.
  destruct (update_group info aux_info Hgeo true (bgs s) i bg bg3 (c_end c) (c_end c + n)) as [Hg3 Hused];
    [done|done|done|done|done|lia|lia|].
  assert (Hsp : forall B, in_span sp B <-> (first_block bg + c_end c <=? B) && (B <? first_block bg + (c_end c + n)) = true).
  { intros B. rewrite andb_true_iff, Z.leb_le, Z.ltb_lt. unfold in_span. cbn. lia. }
  assert (HB : forall B, B ∈ blocks [sp] <-> in_span sp B).
  { intros B. rewrite elem_of_blocks. setoid_rewrite list_elem_of_singleton. naive_solver. }
  split; cbn [bgs heap brk sparse spans fmap list_fmap snd fst].
  - split; [done|]. cbn. intros p Hp. rewrite lookup_insert_ne by lia. apply Hbrk. lia.
  - apply Forall_singleton. split; [cbn; lia|]. exists i, bg3. split; [done|].
    split; [by apply list_lookup_insert_eq|]. change (first_block bg3) with (first_block bg). split.
    + exists j, (grow c n). cbn. rewrite list_lookup_insert_eq by by eapply lookup_lt_Some.
      pose proof (co_range _ _ _ Hck _ _ Hj). unfold c_end, grow in *. cbn. split; [done|lia].
    + intros B HBs. unfold in_span in HBs. cbn in HBs. eapply ranged_in; [exact Hm|lia..].
  - intros sp' Hsp'. eapply in_use_update; [done|done|done|done|]. intros _ Hown Hbits. split.
    + apply owns_grow; [lia|done|done].
    + intros B HBs. specialize (Hbits B HBs). cbn [bg3 taken block_bitmap set_data_blocks_used set_blocks].
      rewrite (ranged_bit _ _ _ _ _ Hm); [by case_if|].
      apply (owns_in_range _ _ _ _ _ Hck) in Hown. unfold in_span in HBs. lia.
  - intros B. unfold l3. rewrite Hused, HB, Hsp. destruct (_ && _)%bool; [naive_solver|]. intuition done.
  - intros B HBs Hbit. apply HB in HBs. pose proof HBs as HBs'. unfold in_span in HBs'. cbn in HBs'.
    apply (used_in_group info aux_info Hgeo _ _ _ _ Hg Hi) in Hbit; [|unfold in_group; lia].
    rewrite (bo_holes _ _ _ Hok _ _ _ Hh) in Hbit by lia. done.
  - cbn. rewrite app_nil_r. apply NoDup_seqZ.
  - apply NoDup_singleton.
  - intros p ->%list_elem_of_singleton. lia.
  - lia.
  - intros p Hp _. by rewrite lookup_insert_ne by lia.
  - unfold l3. rewrite (capacity_insert _ _ bg) by done.
    change (chunks bg3) with (<[j := grow c n]> (chunks bg)).
    rewrite hole_total_grow by (done || by destruct Hh as (? & c' & ? & ? & ? & ?); eexists). cbn [total sp sp_len taken_span]. lia.
  - done.
Qed.

Lemma take_hole_spec f s a b :
  fs_ok s -> names_hole (bgs s) f a b -> 0 < found_allocate_len f <= b - a ->
  exists sp s', take_hole force f s = Ok (Some (brk s), s') /\ sp_len sp = found_allocate_len f /\
    extends s s' (fun _ => True) [(brk s, sp)] /\
    heap s' = <[brk s := region_of sp None None]> (heap s).
Proof.
  intros Hs (i & j & bg & Hfb & Hfp & Hi & Hh & Hfa) Hn. pose proof Hs as [Hg _].
  pose proof (groups_bg _ _ _ _ _ Hg Hi) as Hok. pose proof (bo_chunks _ _ _ Hok) as Hck.
  pose proof Hh as (c & c' & Hj & HSj & -> & ->). pose proof (data_end_le info aux_info bg).
  destruct (grow_u32 info Hgeo _ _ (data_end_le info aux_info bg) _ _ _ _ _ _ Hck Hh Hj Hn) as [_ Hgrow].
  destruct (take_hole_bg force info aux_info Hgeo bg j _ _ c Hok Hh Hj Hn) as (bm' & Hres & Hm & Hok').
  pose proof (hole_in_range _ _ _ _ _ _ Hck Hh). destruct (go_first _ _ _ Hg _ _ Hi) as (_ & Hf0 & Hf1).
  exists (taken_span i bg c (found_allocate_len f)). eexists. split; [|split; [done|split]].
  - eapply take_hole_run; try done. unfold is_u32. lia.
  - eapply taken_extends; try done. destruct Hok'; by split.
  - done.
Qed.

(** ** The search and the loop *)

(** What the allocator gets from one search: a region whose length is that of
    the request or of the largest hole, whichever is smaller. *)
Lemma partial_spec len s :
  fs_ok s -> 0 < len < 2 ^ 32 ->
  if 0 <? capacity (bgs s) then
    exists sp s', ext4_allocate_best_fit_partial force len s = Ok (Some (brk s), s') /\
      extends s s' (fun _ => True) [(brk s, sp)] /\
      heap s' = <[brk s := region_of sp None None]> (heap s) /\
      0 < sp_len sp <= len /\
      forall (i j : nat) bg a b, bgs s !! i = Some bg -> hole (chunks bg) j a b ->
        Z.min len (b - a) <= sp_len sp
  else ext4_allocate_best_fit_partial force len s = if force then Ok (None, s) else CheckFailed.
Proof.
  intros Hs Hlen. unfold ext4_allocate_best_fit_partial. mstep.
  pose proof (scan_best info aux_info Hgeo (bgs s) len (go_bg _ _ _ (proj1 Hs)) ltac:(lia)) as Hscan.
  destruct (scan_bgs len 0 (bgs s) (Found 0 0 0 0 false)) as [f|f].
  - destruct Hscan as (a & b & Hn & Hab & Hfl).
    destruct (take_hole_spec f s a b Hs Hn) as (sp & s' & Hrun & Hsl & Hext & Hheap); [lia|].
    assert (0 < capacity (bgs s)).
    { pose proof (capacity_nonneg info aux_info _ (proj1 (ex_ok _ _ _ _ Hext))).
      rewrite (ex_cap _ _ _ _ Hext) in *. cbn [spans fmap list_fmap snd total] in *. lia. }
    destruct (Z.ltb_spec 0 (capacity (bgs s))); [|lia].
    exists sp, s'. split_and!; [done..|lia|lia|]. intros. lia.
  - destruct Hscan as [Hf Hbest]. destruct (Z.eqb_spec (found_allocate_len f) 0) as [H0|H0].
    + assert (capacity (bgs s) <= 0).
      { apply capacity_zero. intros i j bg a b Hi Hh. specialize (Hbest i j bg a b Hi Hh). lia. }
      destruct (Z.ltb_spec 0 (capacity (bgs s))); [lia|]. unfold merror, error.
      by destruct force.
    + destruct Hf as [|(a & b & Hn & Hfl & Hab)]; [done|].
      set (g := if len <? found_allocate_len f then _ else f).
      assert (Hg : found_allocate_len g = Z.min len (found_allocate_len f) /\ names_hole (bgs s) g a b).
      { subst g. destruct (Z.ltb_spec len (found_allocate_len f)); (split; [cbn; lia|done]). }
      destruct Hg as [Hg Hng].
      destruct (take_hole_spec g s a b Hs Hng) as (sp & s' & Hrun & Hsl & Hext & Hheap); [lia|].
      assert (0 < capacity (bgs s)).
      { pose proof (capacity_nonneg info aux_info _ (proj1 (ex_ok _ _ _ _ Hext))).
        rewrite (ex_cap _ _ _ _ Hext) in *. cbn [spans fmap list_fmap snd total] in *. lia. }
      destruct (Z.ltb_spec 0 (capacity (bgs s))); [|lia].
      exists sp, s'. split_and!; [done..|lia|lia|].
      intros i j bg a' b' Hi Hh. specialize (Hbest i j bg a' b' Hi Hh). lia.
Qed.

(** The regions allocated so far, and where the loop links the next one. *)
Definition linked (h : gmap Z region) (acc : list node) (first prev : option Z) : Prop :=
  dseg h None acc None /\ NoDup acc.*1 /\ first = head_addr acc None /\ prev = last_addr None acc.

Lemma linked_snoc s acc first prev p sp :
  linked (heap s) acc first prev -> (forall q, q ∈ acc.*1 -> q < p) ->
  heap s !! p = Some (region_of sp None None) ->
  exists h, ((match prev with
              | Some _ => store prev (set_next (Some p));; store (Some p) (set_prev prev)
              | None => mret tt end : M unit) s) = Ok (tt, with_heap s h) /\
    linked h (acc ++ [(p, sp)]) (match first with None => Some p | Some _ => first end) (Some p) /\
    (forall q, q <> p -> q ∉ acc.*1 -> h !! q = heap s !! q).
Proof.
  intros (Hd & Hnd & -> & ->) Hlt Hp. destruct acc as [|nd acc _] using rev_ind.
  { exists (heap s). split; [by destruct s|]. split; [|done]. split_and!; [cbn; done| |done|done].
    cbn. apply NoDup_singleton. }
  destruct nd as [q sq]. rewrite last_addr_snoc.
  assert (Hpq : p ∉ (acc ++ [(q, sq)]).*1) by (intros H; specialize (Hlt p H); lia).
  pose proof (dseg_link _ _ _ _ _ _ _ _ _ _ Hd Hnd Hpq Hp) as Hl.
  apply dseg_app in Hd as [Hd1 Hd2]. destruct Hd2 as [Hq _]. cbn [head_addr] in Hq.
  assert (p <> q) by (intros ->; apply Hpq; rewrite fmap_app; set_solver).
  eexists. split; [|split; [|]].
  { mstep. rewrite (store_Ok p _ (region_of sp None None)); [reflexivity|]. cbn. by rewrite lookup_insert_ne. }
  - cbn [heap with_heap]. split_and!; [exact Hl| | |by rewrite last_addr_snoc].
    + rewrite fmap_app. apply NoDup_app. split; [done|]. split; [|apply NoDup_singleton].
      intros x Hx ->%list_elem_of_singleton. done.
    + by destruct acc as [|[]].
  - cbn [heap with_heap]. intros x Hx Hx'. rewrite lookup_insert_ne by done. rewrite lookup_insert_ne; [done|].
    intros ->. apply Hx'. rewrite fmap_app. set_solver.
Qed.

Lemma linked_last h acc p sp first :
  linked h (acc ++ [(p, sp)]) first (Some p) -> exists r, h !! p = Some r /\ r_len r = sp_len sp.
Proof. intros (Hd & _). apply dseg_app in Hd as [_ [Hp _]]. by eexists. Qed.

Lemma best_fit_loop_spec fuel len first prev acc s :
  fs_ok s -> 0 <= len < 2 ^ 32 -> len <= Z.of_nat fuel ->
  linked (heap s) acc first prev -> (forall q, q ∈ acc.*1 -> q < brk s) ->
  if len <=? capacity (bgs s) then
    exists new s', best_fit_loop force fuel len first prev s = Ok (head_addr (acc ++ new) None, s') /\
      extends s s' (fun p => p ∉ acc.*1) new /\ dseg (heap s') None (acc ++ new) None /\
      total (spans new) = len
  else if force then
    exists new s', best_fit_loop force fuel len first prev s = Ok (None, s') /\
      extends s s' (fun p => p ∉ acc.*1) new /\ capacity (bgs s') = 0
  else best_fit_loop force fuel len first prev s = CheckFailed.
Proof.
  revert len first prev acc s. induction fuel as [|fuel IH]; intros len first prev acc s Hs Hlen Hfuel Hl Hacc;
    pose proof (capacity_nonneg info aux_info _ (proj1 Hs)) as Hcap0.
  1: assert (len = 0) as -> by lia.
  2: destruct (Z.eq_dec len 0) as [->|Hne].
  1,2: destruct (Z.leb_spec 0 (capacity (bgs s))); [|lia]; exists [], s; rewrite app_nil_r;
    destruct Hl as (Hd & _ & -> & _); split; [done|]; split; [by apply allocated_refl|done].
  cbn [best_fit_loop]. destruct (Z.ltb_spec 0 len); [|lia].
  pose proof (partial_spec len s Hs ltac:(lia)) as Hp.
  destruct (Z.ltb_spec 0 (capacity (bgs s))) as [Hcap|Hcap].
  2:{ destruct (Z.leb_spec len (capacity (bgs s))); [lia|]. destruct force.
      - exists [], s. rewrite (bind_Ok _ _ _ _ _ Hp). split; [done|]. split; [by apply allocated_refl|lia].
      - by rewrite (bind_CheckFailed _ _ _ Hp). }
  destruct Hp as (sp & s1 & Hrun & Hext & Hheap & Hsp & _). rewrite (bind_Ok _ _ _ _ _ Hrun).
  assert (Hl1 : linked (heap s1) acc first prev).
  { destruct Hl as (Hd & Hl). split; [|done]. eapply dseg_frame; [|exact Hd].
    intros q Hq. rewrite Hheap, lookup_insert_ne; [done|]. specialize (Hacc q Hq). lia. }
  assert (Hb1 : heap s1 !! brk s = Some (region_of sp None None)) by by rewrite Hheap, lookup_insert_eq.
  destruct (linked_snoc s1 acc first prev (brk s) sp Hl1 Hacc Hb1) as (h & Hlink & Hl2 & Hframe).
  cbn beta iota zeta. rewrite (bind_Ok _ _ _ _ _ Hlink).
  destruct (linked_last _ _ _ _ _ Hl2) as (r & Hr & Hrl). erewrite bind_Ok by by eapply load_Ok.
  assert (Hext' : extends s (with_heap s1 h) (fun p => p ∉ acc.*1) [(brk s, sp)]).
  { assert (Hb : brk s < brk s1) by (apply (ex_addr _ _ _ _ Hext); cbn; set_solver).
    apply extends_links.
    - destruct Hext. by split; auto.
    - intros p Hp Hk. apply Hframe; [lia|done].
    - intros p Hp. rewrite Hframe; [by apply (ex_ok _ _ _ _ Hext)|lia|].
      intros Hin. specialize (Hacc p Hin). lia. }
  pose proof (ex_cap _ _ _ _ Hext') as Hc. cbn [spans fmap list_fmap snd total] in Hc.
  pose proof (ex_brk _ _ _ _ Hext') as Hbrk.
  rewrite Hrl, u32_small by (unfold is_u32; lia).
  specialize (IH (len - sp_len sp) (match first with None => Some (brk s) | Some _ => first end) (Some (brk s))
    (acc ++ [(brk s, sp)]) (with_heap s1 h) (ex_ok _ _ _ _ Hext') ltac:(lia) ltac:(lia) Hl2).
  assert (Hacc' : forall q, q ∈ (acc ++ [(brk s, sp)]).*1 -> q < brk (with_heap s1 h)).
  { intros q. rewrite fmap_app, elem_of_app. intros [Hq|Hq]; [specialize (Hacc q Hq); lia|].
    apply (ex_addr _ _ _ _ Hext'). done. }
  specialize (IH Hacc'). rewrite Hc in IH.
  assert (Hk : forall p, p < brk s -> p ∉ acc.*1 -> p ∉ (acc ++ [(brk s, sp)]).*1).
  { intros p Hp Hna. rewrite fmap_app, not_elem_of_app. split; [done|]. cbn. rewrite list_elem_of_singleton. lia. }
  replace (len - sp_len sp <=? capacity (bgs s) - (sp_len sp + 0)) with (len <=? capacity (bgs s)) in IH
    by (destruct (Z.leb_spec len (capacity (bgs s))), (Z.leb_spec (len - sp_len sp) (capacity (bgs s) - (sp_len sp + 0))); done || lia).
  destruct (len <=? capacity (bgs s)); [|destruct force; [|done]].
  - destruct IH as (new & s2 & Hr2 & He2 & Hd2 & Ht2). exists ((brk s, sp) :: new), s2.
    rewrite <- app_assoc in Hr2, Hd2. split; [exact Hr2|]. split; [|split; [exact Hd2|change (sp_len sp + total (spans new) = len); lia]].
    by apply (allocated_trans s (with_heap s1 h) s2 _ _ [(brk s, sp)] new Hext' He2).
  - destruct IH as (new & s2 & Hr2 & He2 & Hc2). exists ((brk s, sp) :: new), s2. split; [exact Hr2|]. split; [|exact Hc2].
    by apply (allocated_trans s (with_heap s1 h) s2 _ _ [(brk s, sp)] new Hext' He2).
Qed.

(** ** Allocations *)

(** [alloc] is the list of the regions [ns], with its iterator at the start and
    nothing out of band. *)
Record alloc_ok (h : gmap Z region) (alloc : block_allocation) (ns : list node) : Prop := AllocOk {
  al_list : a_list alloc = RegionList (head_addr ns None) (last_addr None ns) (head_addr ns None) 0;
  al_oob : a_oob_list alloc = empty_list;
  al_dseg : dseg h None ns None;
  al_nodup : NoDup ns.*1;
}.

Lemma allocate_blocks_spec len s :
  fs_ok s -> 0 < len < 2 ^ 32 ->
  if len <=? capacity (bgs s) then
    exists alloc ns s', allocate_blocks force len s = Ok (Some alloc, s') /\
      alloc_ok (heap s') alloc ns /\ extends s s' (fun _ => True) ns /\ total (spans ns) = len
  else if force then
    exists ns s', allocate_blocks force len s = Ok (None, s') /\ extends s s' (fun _ => True) ns /\ capacity (bgs s') = 0
  else allocate_blocks force len s = CheckFailed.
Proof.
  intros Hs Hlen. unfold allocate_blocks, ext4_allocate_best_fit.
  pose proof (best_fit_loop_spec (Z.to_nat len) len None None [] s Hs ltac:(lia) ltac:(lia)) as H.
  specialize (H ltac:(split_and!; [done|constructor|done|done]) ltac:(cbn; intros q Hq; by apply elem_of_nil in Hq)).
  assert (Hk : forall s' new, extends s s' (fun p => p ∉ ([] : list node).*1) new -> extends s s' (fun _ => True) new).
  { intros s' new [H1 H2 H3 H4 H5 H6 H7 H8 H9 H10 H11 H12]. split; try done.
    intros p Hp _. apply H10; [done|]. apply not_elem_of_nil. }
  destruct (len <=? capacity (bgs s)); [|destruct force].
  - destruct H as (new & s1 & Hrun & Hext & Hd & Ht). cbn [app] in *. apply Hk in Hext.
    rewrite (bind_Ok _ _ _ _ _ Hrun). destruct new as [|[p sp] new].
    { cbn in Ht. lia. }
    cbn [head_addr]. mstep. pose proof (dseg_length _ _ _ _ Hd (ex_addrs _ _ _ _ Hext)) as Hsz. cbn [length] in Hsz.
    rewrite (bind_Ok _ _ _ _ _ (last_of_spec s1 (S (size (heap s1))) None p sp new Hd ltac:(lia))).
    eexists _, ((p, sp) :: new), s1. split; [done|]. split; [|done].
    split; [done|done|done|apply Hext].
  - destruct H as (new & s1 & Hrun & Hext & Hc). rewrite (bind_Ok _ _ _ _ _ Hrun). exists new, s1. auto.
  - by rewrite (bind_CheckFailed _ _ _ H).
Qed.
End Alloc.
