(* ===== verification/Ext4Reduce.v ===== *)
(** Correctness of [reduce_allocation]: the last blocks of an allocation are
    given back to their groups, and the list of regions is cut accordingly. *)
From stdpp Require Import base gmap list numbers strings.
From Stdlib Require Import ZArith Lia.
From S2P Require Import Prelude Ext4Base Ext4Allocate Ext4Bitmap Ext4Blocks Ext4Use Ext4Lists Ext4Alloc.

Section Reduce.
Context (info : fs_info) (aux_info : fs_aux_info) (Hgeo : geometry_ok info).

Abbreviation used := (used info).
Abbreviation fs_ok := (fs_ok info aux_info).

(** Giving back the last [n] blocks of a span in use. *)
Lemma give_back l sp n :
  groups_ok info aux_info l -> in_use l sp -> 0 < n <= sp_len sp ->
  exists (i : nat) bg bg', sp_bg sp = Z.of_nat i /\ l !! i = Some bg /\
    free_blocks bg (u32 (sp_block sp + sp_len sp - first_block bg - 1)) n = Ok bg' /\
    groups_ok info aux_info (<[i := bg']> l) /\
    let e := sp_block sp + sp_len sp in
    (forall B, used (<[i := bg']> l) B <-> used l B /\ ~ e - n <= B < e) /\
    (forall sp', in_use l sp' -> (forall B, in_span sp' B -> ~ e - n <= B < e) ->
       in_use (<[i := bg']> l) sp').
Proof.
  intros Hl (Hpos & i & bg & Hb & Hi & Hown & Hbits) Hn.
  pose proof (groups_bg _ _ _ _ _ Hl Hi) as Hok. destruct (go_first _ _ _ Hl _ _ Hi) as (_ & Hf0 & Hf1).
  pose proof (data_end_le info aux_info bg).
  pose proof (owns_in_range _ _ _ _ _ (bo_chunks _ _ _ Hok) Hown) as Hr.
  set (a := sp_block sp + sp_len sp - n - first_block bg).
  destruct (free_blocks_bg info aux_info Hgeo bg a n Hok) as (bm' & cs' & Hrun & Hok' & Hcl & Hkeep).
  { destruct Hown as (j & c & Hj & Ho). exists j, c. subst a. split; [done|lia]. }
  { lia. }
  { intros k Hk. replace k with (first_block bg + k - first_block bg) by lia. apply Hbits.
    subst a. unfold in_span. lia. }
  cbn zeta in *. set (bg' := set_chunks _ _ _) in *.
  destruct (update_group info aux_info Hgeo false l i bg bg' a (a + n)) as [Hg Hused]; [done..|subst a; lia|subst a; lia|].
  exists i, bg, bg'. split; [done|]. split; [done|]. split; [|split; [done|split]].
  - rewrite u32_small by (unfold is_u32; lia). rewrite <- Hrun. f_equal. subst a. lia.
  - intros B. rewrite Hused.
    destruct (Z.leb_spec (first_block bg + a) B), (Z.ltb_spec B (first_block bg + (a + n)));
      cbn; subst a;
      (split; [intros Hx; first [discriminate Hx|split; [exact Hx|lia]]|intros [Hx Hy]; first [exact Hx|exfalso; lia]]).
  - intros sp' Hsp' Hdis. eapply in_use_update; [done|done|done|done|]. intros Hb' Hown' Hbits'.
    pose proof Hsp' as (Hpos' & _).
    assert (Hsep : sp_block sp' - first_block bg + sp_len sp' <= a \/ a + n <= sp_block sp' - first_block bg).
    { subst a. destruct (Z.le_gt_cases (sp_block sp') (sp_block sp + sp_len sp - n)).
      - pose proof (Hdis (sp_block sp + sp_len sp - n)) as Hd. unfold in_span in Hd. lia.
      - pose proof (Hdis (sp_block sp')) as Hd. unfold in_span in Hd. lia. }
    split; [by apply Hkeep|]. intros B HB. cbn [bg' block_bitmap set_chunks set_blocks].
    apply (owns_in_range _ _ _ _ _ (bo_chunks _ _ _ Hok)) in Hown'. unfold in_span in HB.
    rewrite (marks_other _ _ _ _ _ _ Hcl) by lia. by apply Hbits'.
Qed.

(** [s'] is [s] with the blocks [freed] given back, the last ones of the list
    [ns], of which [ns'] is left. *)
Record gives_back (s s' : fs) (ns ns' : list node) (freed : list Z) : Prop := GivesBack {
  gb_ok : fs_ok s';
  gb_dseg : dseg (heap s') None ns' None;
  gb_prefix : ns'.*1 `prefix_of` ns.*1;
  gb_in_use : Forall (in_use (bgs s')) (spans ns');
  gb_blocks : blocks (spans ns) = blocks (spans ns') ++ freed;
  gb_used : forall B, used (bgs s') B <-> used (bgs s) B /\ B ∉ freed;
  gb_keep : forall sp, in_use (bgs s) sp -> (forall B, in_span sp B -> B ∉ freed) -> in_use (bgs s') sp;
  gb_heap : forall p, p ∉ ns.*1 -> heap s' !! p = heap s !! p;
  gb_brk : brk s' = brk s;
  gb_sparse : sparse s' = sparse s;
}.

Lemma gives_back_refl s ns :
  fs_ok s -> dseg (heap s) None ns None -> Forall (in_use (bgs s)) (spans ns) -> gives_back s s ns ns [].
Proof. intros. split; try done; [by rewrite app_nil_r|]. intros B. set_solver. Qed.

Lemma seqZ_split m n k : 0 <= k <= n -> seqZ m n = seqZ m (n - k) ++ seqZ (m + n - k) k.
Proof.
  intros. replace n with (n - k + k) at 1 by lia. rewrite seqZ_app by lia.
  do 2 f_equal. lia.
Qed.

Lemma blocks_snoc l sp : blocks (l ++ [sp]) = blocks l ++ seqZ (sp_block sp) (sp_len sp).
Proof. rewrite blocks_app. unfold blocks at 2. cbn. by rewrite app_nil_r. Qed.

(** The spans before the last one do not meet it. *)
Lemma blocks_before ns sp sp' B :
  NoDup (blocks (ns ++ [sp])) -> sp' ∈ ns -> in_span sp' B -> ~ in_span sp B.
Proof.
  rewrite blocks_snoc. intros (_ & Hd & _)%NoDup_app Hin HB HB'.
  apply (Hd B); [apply elem_of_blocks; by exists sp'|].
  apply elem_of_seqZ. unfold in_span in *. lia.
Qed.

(** Cutting the last region short. *)
Lemma reduce_last ns p sp n s :
  fs_ok s -> dseg (heap s) None (ns ++ [(p, sp)]) None -> NoDup (ns ++ [(p, sp)]).*1 ->
  Forall (in_use (bgs s)) (spans (ns ++ [(p, sp)])) -> NoDup (blocks (spans (ns ++ [(p, sp)]))) ->
  0 < n < sp_len sp ->
  exists (i : nat) bg bg', sp_bg sp = Z.of_nat i /\ bgs s !! i = Some bg /\
    free_blocks bg (u32 (sp_block sp + sp_len sp - first_block bg - 1)) n = Ok bg' /\
    let sp' := Span (sp_block sp) (sp_len sp - n) (sp_bg sp) in
    let h := <[p := region_of sp' None (last_addr None ns)]> (heap s) in
    gives_back s (Fs h (brk s) (<[i := bg']> (bgs s)) (sparse s)) (ns ++ [(p, sp)]) (ns ++ [(p, sp')])
      (seqZ (sp_block sp + sp_len sp - n) n).
Proof.
  intros [Hg Hbrk] Hd Hnd Hu Hb Hn. rewrite spans_app in Hu, Hb. apply Forall_app in Hu as [Hu1 Hu2].
  assert (Hsp : in_use (bgs s) sp) by exact (Forall_inv Hu2).
  destruct (give_back (bgs s) sp n Hg Hsp ltac:(lia)) as (i & bg & bg' & Hi & Hbg & Hrun & Hg' & Hused & Hkeep).
  exists i, bg, bg'. split; [done|]. split; [done|]. split; [done|].
  assert (Hfreed : forall B, B ∈ seqZ (sp_block sp + sp_len sp - n) n <-> sp_block sp + sp_len sp - n <= B < sp_block sp + sp_len sp).
  { intros B. rewrite elem_of_seqZ. lia. }
  rewrite fmap_app in Hnd. apply NoDup_app in Hnd as (Hnd & Hp & _).
  apply dseg_app in Hd as [Hd1 Hd2]. cbn in Hd2. destruct Hd2 as [Hd2 _].
  cbn zeta. split; cbn [bgs heap brk sparse]; rewrite ?spans_app.
  - split; [done|]. cbn. intros q Hq. rewrite lookup_insert_ne; [by apply Hbrk|].
    intros ->. rewrite (Hbrk q Hq) in Hd2. done.
  - apply dseg_app. split; [|split; [|done]].
    + eapply dseg_frame; [|exact Hd1]. intros q Hq. rewrite lookup_insert_ne; [done|].
      intros <-. apply (Hp p Hq). set_solver.
    + by rewrite lookup_insert_eq.
  - by rewrite !fmap_app.
  - apply Forall_app. split; [|apply Forall_singleton; cbn].
    + rewrite Forall_forall in Hu1 |- *. intros sp' Hin. apply Hkeep; [by apply Hu1|].
      intros B HB Hlast. eapply (blocks_before _ sp sp'); [exact Hb|exact Hin|exact HB|].
      unfold in_span. lia.
    + apply Hkeep; [|unfold in_span; cbn; lia].
      destruct Hsp as (Hpos & j & c & Hj & Hc & Hown & Hbits). split; [cbn; lia|].
      exists j, c. cbn. split; [done|]. split; [done|]. split.
      * destruct Hown as (k & ck & Hk & Ho). exists k, ck. split; [done|lia].
      * intros B HB. apply Hbits. unfold in_span in *. cbn in HB. lia.
  - cbn. rewrite !blocks_snoc. cbn. rewrite <- app_assoc. f_equal. apply seqZ_split. lia.
  - intros B. rewrite Hused, Hfreed. done.
  - intros sp' Hsp' Hdis. apply Hkeep; [done|]. intros B HB HB'. apply (Hdis B HB). by apply Hfreed.
  - intros q Hq. rewrite lookup_insert_ne; [done|]. intros <-. apply Hq. rewrite fmap_app. set_solver.
  - done.
  - done.
Qed.

(** Freeing the last region; the one before it becomes the last. *)
Lemma reduce_drop ns p sp h s :
  fs_ok s -> dseg (heap s) None (ns ++ [(p, sp)]) None -> NoDup (ns ++ [(p, sp)]).*1 ->
  Forall (in_use (bgs s)) (spans (ns ++ [(p, sp)])) -> NoDup (blocks (spans (ns ++ [(p, sp)]))) ->
  dseg h None ns None -> (forall q, q ∉ ns.*1 -> h !! q = heap s !! q) ->
  exists (i : nat) bg bg', sp_bg sp = Z.of_nat i /\ bgs s !! i = Some bg /\
    free_blocks bg (u32 (sp_block sp + sp_len sp - first_block bg - 1)) (sp_len sp) = Ok bg' /\
    gives_back s (Fs (delete p h) (brk s) (<[i := bg']> (bgs s)) (sparse s)) (ns ++ [(p, sp)]) ns
      (seqZ (sp_block sp) (sp_len sp)).
Proof.
  intros [Hg Hbrk] Hd Hnd Hu Hb Hh Hframe. rewrite spans_app in Hu, Hb. apply Forall_app in Hu as [Hu1 Hu2].
  assert (Hsp : in_use (bgs s) sp) by exact (Forall_inv Hu2). pose proof Hsp as (Hpos & _).
  destruct (give_back (bgs s) sp (sp_len sp) Hg Hsp ltac:(lia)) as (i & bg & bg' & Hi & Hbg & Hrun & Hg' & Hused & Hkeep).
  exists i, bg, bg'. split; [done|]. split; [done|]. split; [done|].
  assert (Hfreed : forall B, B ∈ seqZ (sp_block sp) (sp_len sp) <->
            sp_block sp + sp_len sp - sp_len sp <= B < sp_block sp + sp_len sp).
  { intros B. rewrite elem_of_seqZ. lia. }
  rewrite fmap_app in Hnd. apply NoDup_app in Hnd as (Hnd & Hp & _).
  assert (Hpn : p ∉ ns.*1) by (intros Hin; apply (Hp p Hin); set_solver).
  split; cbn [bgs heap brk sparse].
  - split; [done|]. cbn. intros q Hq. rewrite lookup_delete_None. right. rewrite Hframe; [by apply Hbrk|].
    intros Hin. apply dseg_app in Hd as [Hd _]. destruct (dseg_in _ _ _ _ _ Hd Hin) as [r Hr].
    rewrite (Hbrk q Hq) in Hr. done.
  - eapply dseg_frame; [|exact Hh]. intros q Hq. rewrite lookup_delete_ne; [done|]. by intros ->.
  - rewrite fmap_app. by eexists.
  - rewrite Forall_forall in Hu1 |- *. intros sp' Hin. apply Hkeep; [by apply Hu1|].
    intros B HB Hlast. eapply (blocks_before _ sp sp'); [exact Hb|exact Hin|exact HB|].
    unfold in_span. lia.
  - rewrite spans_app. apply blocks_snoc.
  - intros B. rewrite Hused, Hfreed. done.
  - intros sp' Hsp' Hdis. apply Hkeep; [done|]. intros B HB HB'. apply (Hdis B HB). by apply Hfreed.
  - intros q Hq. rewrite fmap_app, not_elem_of_app in Hq. destruct Hq as [Hq1 Hq2].
    rewrite lookup_delete_ne, Hframe; [done..|]. intros ->. apply Hq2. set_solver.
  - done.
  - done.
Qed.

Definition list_of (ns : list node) : region_list :=
  RegionList (head_addr ns None) (last_addr None ns) (head_addr ns None) 0.

(** Unlinking the last region of a list. *)
Lemma unlink_last ns p sp h0 :
  dseg h0 None (ns ++ [(p, sp)]) None -> NoDup (ns ++ [(p, sp)]).*1 ->
  exists h, (forall s, heap s = h0 -> (match last_addr None ns with
             | Some reg =>
                 store (Some reg) (set_next None);;
                 mret (RegionList (l_first (list_of (ns ++ [(p, sp)]))) (Some reg)
                         (l_iter (list_of (ns ++ [(p, sp)]))) (l_partial (list_of (ns ++ [(p, sp)]))))
             | None => mret empty_list
             end : M region_list) s = Ok (list_of ns, with_heap s h)) /\
    dseg h None ns None /\ (forall q, q ∉ ns.*1 -> h !! q = h0 !! q) /\
    h !! p = Some (region_of sp None (last_addr None ns)).
Proof.
  intros Hd Hnd. apply dseg_app in Hd as [Hd [Hp _]].
  destruct ns as [|[q sq] ns _] using rev_ind.
  { exists h0. split; [|done]. intros s <-. by destruct s. }
  rewrite last_addr_snoc in *. apply dseg_app in Hd as [Hd [Hq _]].
  rewrite !fmap_app in *. apply NoDup_app in Hnd as (Hnd & Hnp & _).
  apply NoDup_app in Hnd as (_ & Hn & _). assert (p <> q).
  { intros ->. apply (Hnp q); set_solver. }
  exists (<[q := set_next None (region_of sq (Some p) (last_addr None ns))]> h0).
  split; [|split; [|split]].
  - intros s <-. mstep. unfold list_of. rewrite !last_addr_snoc. by destruct ns as [|[]].
  - apply dseg_app. split; [|split; [|done]].
    + eapply dseg_frame; [|exact Hd]. intros x Hx. rewrite lookup_insert_ne; [done|].
      intros <-. apply (Hn q Hx). set_solver.
    + by rewrite lookup_insert_eq.
  - intros x Hx. rewrite lookup_insert_ne; [done|]. set_solver.
  - by rewrite lookup_insert_ne.
Qed.

Lemma gives_back_trans s s1 s2 ns n1 n2 f1 f2 :
  gives_back s s1 ns n1 f1 -> gives_back s1 s2 n1 n2 f2 -> gives_back s s2 ns n2 (f2 ++ f1).
Proof.
  intros G1 G2. split.
  - apply G2.
  - apply G2.
  - etrans; [apply G2|apply G1].
  - apply G2.
  - rewrite (gb_blocks _ _ _ _ _ G1), (gb_blocks _ _ _ _ _ G2). by rewrite app_assoc.
  - intros B. rewrite (gb_used _ _ _ _ _ G2), (gb_used _ _ _ _ _ G1), not_elem_of_app. tauto.
  - intros sp Hsp Hd. apply G2; [apply G1; [done|]|]; intros B HB; specialize (Hd B HB); set_solver.
  - intros p Hp. rewrite (gb_heap _ _ _ _ _ G2), (gb_heap _ _ _ _ _ G1); [done..|].
    intros Hin. apply Hp. destruct (gb_prefix _ _ _ _ _ G1) as [k ->]. set_solver.
  - rewrite (gb_brk _ _ _ _ _ G2). apply G1.
  - rewrite (gb_sparse _ _ _ _ _ G2). apply G1.
Qed.

Lemma reduce_loop_spec fuel ns len s :
  fs_ok s -> dseg (heap s) None ns None -> NoDup ns.*1 -> Forall (in_use (bgs s)) (spans ns) ->
  NoDup (blocks (spans ns)) -> (length ns <= fuel)%nat -> 0 <= len <= total (spans ns) ->
  total (spans ns) < 2 ^ 32 ->
  exists ns' freed s', reduce_loop fuel (list_of ns) len s = Ok (list_of ns', s') /\
    gives_back s s' ns ns' freed /\ zlen freed = len.
Proof.
  revert ns len s. induction fuel as [|fuel IH]; intros ns len s Hs Hd Hnd Hu Hb Hf Hlen Hlim.
  { destruct ns; [|cbn in Hf; lia]. cbn in Hlen. assert (len = 0) as -> by lia.
    exists [], [], s. split; [done|]. split; [by apply gives_back_refl|done]. }
  cbn [reduce_loop]. destruct (Z.eqb_spec len 0) as [->|Hne].
  { exists ns, [], s. split; [done|]. split; [by apply gives_back_refl|done]. }
  destruct ns as [|[p sp] ns _] using rev_ind; [cbn in Hlen; lia|].
  rewrite spans_app, total_app in Hlen, Hlim. cbn [spans fmap list_fmap snd total] in Hlen, Hlim.
  assert (Hp : heap s !! p = Some (region_of sp None (last_addr None ns))).
  { apply dseg_app in Hd as [_ [Hd _]]. exact Hd. }
  assert (Hsp : in_use (bgs s) sp).
  { rewrite spans_app in Hu. apply Forall_app in Hu as [_ Hu]. exact (Forall_inv Hu). }
  assert (Htot : 0 <= total (spans ns)).
  { apply total_nonneg. rewrite spans_app in Hu. apply Forall_app in Hu as [Hu _].
    eapply Forall_impl; [exact Hu|]. intros x [Hx _]. lia. }
  pose proof Hsp as (Hpos & _).
  assert (Hll : l_last (list_of (ns ++ [(p, sp)])) = Some p) by apply last_addr_snoc. rewrite Hll.
  mstep. cbn [r_bg region_of r_block r_len r_prev].
  destruct (Z.ltb_spec len (sp_len sp)) as [Hlt|Hge].
  - destruct (reduce_last ns p sp len s Hs Hd Hnd Hu Hb ltac:(lia)) as (i & bg & bg' & Hi & Hbg & Hrun & Hgb).
    cbn zeta in Hgb. rewrite Hi. mstep. mstep. mstep.
    erewrite bind_Ok by (eapply store_Ok; exact Hp).
    eexists _, _, _. split; [|split; [exact Hgb|]].
    + unfold set_len, region_of. cbn. rewrite u32_small by (unfold is_u32; lia).
      unfold mret, M_ret, list_of. rewrite !last_addr_snoc. rewrite Hi.
      by destruct ns as [|[]].
    + unfold zlen. rewrite length_seqZ. lia.
  - destruct (unlink_last ns p sp (heap s) Hd Hnd) as (h & Hunl & Hh & Hframe & Hhp).
    destruct (reduce_drop ns p sp h s Hs Hd Hnd Hu Hb Hh Hframe) as (i & bg & bg' & Hi & Hbg & Hrun & Hgb).
    rewrite Hi. mstep. mstep. mstep.
    set (s1 := with_bgs s (<[i := bg']> (bgs s))).
    rewrite (bind_Ok _ _ _ _ _ (Hunl s1 eq_refl)). erewrite bind_Ok by (eapply free_Ok; exact Hhp).
    cbn [with_heap with_bgs s1 heap brk bgs sparse].
    set (s2 := Fs (delete p h) (brk s) (<[i := bg']> (bgs s)) (sparse s)) in *.
    rewrite u32_small by (unfold is_u32; lia).
    rewrite spans_app, blocks_app in Hb. apply NoDup_app in Hb as (Hb & _ & _).
    rewrite fmap_app in Hnd. apply NoDup_app in Hnd as (Hnd & _ & _). rewrite length_app in Hf. cbn in Hf.
    destruct (IH ns (len - sp_len sp) s2 (gb_ok _ _ _ _ _ Hgb) (gb_dseg _ _ _ _ _ Hgb) Hnd (gb_in_use _ _ _ _ _ Hgb) Hb
      ltac:(lia) ltac:(lia) ltac:(lia)) as (ns' & freed & s' & Hrun' & Hgb' & Hz).
    exists ns', (freed ++ seqZ (sp_block sp) (sp_len sp)), s'. split; [exact Hrun'|].
    split; [by eapply gives_back_trans|]. rewrite zlen_app, Hz. unfold zlen. rewrite length_seqZ. lia.
Qed.
End Reduce.
