(* ===== verification/Ext4Init.v ===== *)
(** Setting up the allocator: the parameters that [ext4_create_fs_aux_info]
    derives make [block_allocator_init] succeed, and it establishes the
    invariant of every block group. *)
From stdpp Require Import base gmap list numbers strings.
From Stdlib Require Import ZArith Lia.
From S2P Require Import Prelude Ext4Base Ext4Allocate Ext4Bitmap Ext4Blocks Ext4Use Ext4Lists Ext4Alloc.

Section Init.
Context (force : bool) (info : fs_info) (aux_info : fs_aux_info) (Hgeo : geometry_ok info).

(** Group [i] has room for its header, and its blocks are numbered in 32 bits. *)
Definition group_fits (i : Z) : Prop :=
  let bg := new_bg info aux_info i in
  first_block bg = first_data_block aux_info + i * blocks_per_group info /\ 0 <= first_block bg /\
  first_block bg + blocks_per_group info < 2 ^ 32 /\
  0 < header_blocks bg < blocks_per_group info /\ first_block bg + header_blocks bg <= len_blocks aux_info.

Lemma reserve_blocks_in_clear s (i : nat) bg start num :
  bgs s !! i = Some bg -> bytes_ok (block_bitmap bg) -> zlen (block_bitmap bg) = block_size info ->
  0 <= start -> 0 <= num -> start + num <= blocks_per_group info ->
  all_clear (block_bitmap bg) start (start + num) ->
  exists bm', reserve_blocks_in force (Z.of_nat i) start num s =
      Ok (0, with_bgs s (<[i := set_blocks bm' (bg_free_blocks bg -u32 num) bg]> (bgs s))) /\
    marks (block_bitmap bg) bm' start (start + num).
Proof.
  intros Hi Hok Hlen Hs Hn Hlim Hc. unfold geometry_ok in Hgeo.
  destruct (reserve_blocks_spec force bg start num) as [(_ & bm' & Hr & Hm)|((k & Hk & Hbit) & _)]; [done|lia..| |].
  - exists bm'. split; [|done]. unfold reserve_blocks_in. mstep. mstep. mstep. done.
  - by rewrite Hc in Hbit.
Qed.

Lemma reserve_bg_chunk_spec s (i : nat) bg start size :
  bgs s !! i = Some bg ->
  exists max, reserve_bg_chunk (Z.of_nat i) start size s =
    Ok (tt, with_bgs s (<[i := set_chunks max (chunks bg ++ [Chunk start size (Z.of_nat i)]) bg]> (bgs s))).
Proof. intros Hi. unfold reserve_bg_chunk. mstep. eexists. by eapply store_bg_Ok. Qed.

Lemma bit_zeros n k : bit (replicate n 0) k = false.
Proof.
  unfold bit, znth. case_if; [done|]. destruct (replicate n 0 !! _) as [x|] eqn:E; [|done].
  apply lookup_replicate in E as [-> _]. apply Z.bits_0.
Qed.

Lemma bytes_ok_zeros n : bytes_ok (replicate n 0).
Proof. apply Forall_replicate. by compute. Qed.

(** The first [h] and the last [o] blocks are reserved, and the chunks delimit
    a hole in between. *)
Lemma initial_bg_ok bg bm1 bm2 h o e i :
  0 < h -> 0 <= o -> h <= e <= blocks_per_group info - o ->
  first_block bg = first_block (new_bg info aux_info i) -> header_blocks bg = h -> e <= data_end info aux_info bg ->
  marks (block_bitmap (new_bg info aux_info i)) bm1 0 h ->
  marks bm1 bm2 (blocks_per_group info - o) (blocks_per_group info) ->
  block_bitmap bg = bm2 -> chunks bg = [Chunk h 0 i; Chunk e 0 i] ->
  bg_free_blocks bg = blocks_per_group info - h - o ->
  bg_ok info aux_info bg.
Proof.
  intros Hh Ho He Hf Hhd Hend H1 H2 Hbm Hcs Hfree. unfold geometry_ok in Hgeo.
  assert (Hhole : forall j a b, hole (chunks bg) j a b -> a = h /\ b = e).
  { intros j a b (c & c' & Hj & HSj & -> & ->). rewrite Hcs in Hj, HSj.
    destruct j as [|[|j]]; [|done..]. injection Hj as <-. injection HSj as <-. unfold c_end. cbn. lia. }
  split.
  - rewrite Hbm. apply H2.
  - rewrite Hbm, (ranged_len _ _ _ _ _ H2), (ranged_len _ _ _ _ _ H1). cbn. rewrite zlen_replicate. lia.
  - split.
    + intros j c Hj. rewrite Hcs in Hj. rewrite Hhd.
      destruct j as [|[|j]]; [| |done]; injection Hj as <-; unfold c_end; cbn; lia.
    + intros j a b Hj. apply Hhole in Hj. lia.
  - intros j a b Hj k Hk. apply Hhole in Hj as [-> ->]. rewrite Hbm.
    rewrite (marks_other _ _ _ _ _ _ H2), (marks_other _ _ _ _ _ _ H1) by lia. apply bit_zeros.
  - rewrite Hfree, Hbm.
    rewrite (free_count_ranged true bm1 bm2 (blocks_per_group info - o) (blocks_per_group info)); [|lia..|done|].
    + rewrite (free_count_ranged true (block_bitmap (new_bg info aux_info i)) bm1 0 h); [|lia..|done|].
      * unfold free_count. rewrite (count_clear_const false) by (intros; apply bit_zeros). lia.
      * intros. apply bit_zeros.
    + intros k Hk. rewrite (marks_other _ _ _ _ _ _ H1) by lia. apply bit_zeros.
  - by rewrite Hhd.
Qed.

(** The inodes of a group. *)
Definition inodes_of (bg : block_group_info) : bytes * Z * Z :=
  (inode_bitmap bg, bg_free_inodes bg, first_free_inode bg).

Lemma with_bgs_twice s l l' : with_bgs (with_bgs s l) l' = with_bgs s l'.
Proof. done. Qed.

Lemma init_bg_spec s (i : nat) bg0 :
  bgs s !! i = Some bg0 -> group_fits (Z.of_nat i) ->
  exists bg o, init_bg force info aux_info (Z.of_nat i) s =
      Ok (tt, Fs (heap s) (brk s) (<[i := bg]> (bgs s)) (sparse s ++ [o])) /\
    bg_ok info aux_info bg /\ first_block bg = first_block (new_bg info aux_info (Z.of_nat i)) /\
    inodes_of bg = inodes_of (new_bg info aux_info (Z.of_nat i)).
Proof.
  intros Hi (Hf & Hf0 & Hf1 & Hh & Hl). unfold geometry_ok in Hgeo.
  set (ng := new_bg info aux_info (Z.of_nat i)) in *. set (h := header_blocks ng) in *.
  assert (Hlt : (i < length (bgs s))%nat) by by eapply lookup_lt_Some.
  assert (Hat : forall bg l s', length l = length (bgs s) -> bgs (with_bgs s' (<[i := bg]> l)) !! i = Some bg).
  { intros bg l s' Hlen. apply list_lookup_insert_eq. lia. }
  assert (Hz : zlen (block_bitmap ng) = block_size info) by (cbn; rewrite zlen_replicate; lia).
  assert (Hzok : bytes_ok (block_bitmap ng)) by apply bytes_ok_zeros.
  unfold init_bg. fold ng. mstep. unfold queue at 1. mstep.
  set (o := sparse_file_add_data _ _). set (s1 := Fs _ _ _ _).
  assert (H1 : bgs s1 !! i = Some ng) by by apply list_lookup_insert_eq.
  destruct (reserve_blocks_in_clear s1 i ng 0 h H1 Hzok Hz) as (bm1 & Hr1 & Hm1); [lia..| |].
  { intros k _. apply bit_zeros. }
  rewrite (bind_Ok _ _ _ _ _ Hr1). cbn [Z.ltb Z.compare]. mstep.
  change (bg_free_blocks ng) with (blocks_per_group info). rewrite (u32_small (blocks_per_group info - h)) by (unfold is_u32; lia). set (g1 := set_blocks _ _ ng).
  assert (H2 : bgs (with_bgs s1 (<[i := g1]> (bgs s1))) !! i = Some g1)
    by (apply Hat; cbn; by rewrite length_insert).
  destruct (reserve_bg_chunk_spec _ i g1 h 0 H2) as (max1 & Hc1). rewrite (bind_Ok _ _ _ _ _ Hc1).
  cbn [bgs with_bgs s1]. rewrite !list_insert_insert_eq. rewrite with_bgs_twice.
  set (g2 := set_chunks max1 _ g1). set (s2 := with_bgs s1 _).
  assert (H3 : bgs s2 !! i = Some g2) by (apply Hat; done).
  assert (Hge : u32 (first_block ng + blocks_per_group info) = first_block ng + blocks_per_group info)
    by (apply u32_small; unfold is_u32; lia).
  change (first_block (new_bg info aux_info (Z.of_nat i))) with (first_block ng). rewrite Hge.
  destruct (Z.ltb_spec (len_blocks aux_info) (first_block ng + blocks_per_group info)) as [Hover|Hfull].
  - set (ov := first_block ng + blocks_per_group info - len_blocks aux_info).
    assert (Hov : 0 < ov <= blocks_per_group info - h) by (subst ov; lia).
    rewrite (u32_small ov), (u32_small (blocks_per_group info - ov)) by (unfold is_u32; lia).
    destruct (reserve_blocks_in_clear s2 i g2 (blocks_per_group info - ov) ov H3) as (bm2 & Hr2 & Hm2);
      [apply Hm1|rewrite <- Hz; apply Hm1|lia..| |].
    { intros k Hk. cbn. rewrite (marks_other _ _ _ _ _ _ Hm1) by lia. apply bit_zeros. }
    rewrite (bind_Ok _ _ _ _ _ Hr2). cbn [bg_free_blocks g2 set_chunks g1 set_blocks].
    change (bg_free_blocks ng) with (blocks_per_group info).
    rewrite (u32_small (blocks_per_group info - h - ov)) by (unfold is_u32; lia).
    set (g3 := set_blocks bm2 _ g2).
    assert (H4 : bgs (with_bgs s2 (<[i := g3]> (bgs s2))) !! i = Some g3)
      by (apply Hat; cbn; by rewrite length_insert).
    destruct (reserve_bg_chunk_spec _ i g3 (blocks_per_group info - ov) 0 H4) as (max2 & Hc2). rewrite Hc2.
    eexists _, o. split.
    { cbn [bgs with_bgs s2 heap brk sparse s1]. rewrite !list_insert_insert_eq. reflexivity. }
    split; [|done].
    eapply (initial_bg_ok _ bm1 bm2 h ov (blocks_per_group info - ov) (Z.of_nat i)); try done; try lia.
    + change (blocks_per_group info - ov <= Z.min (blocks_per_group info) (len_blocks aux_info - first_block ng)). lia.
    + replace (blocks_per_group info) with (blocks_per_group info - ov + ov) at 2 by lia. exact Hm2.
  - destruct (reserve_bg_chunk_spec s2 i g2 (blocks_per_group info -u32 1) 0 H3) as (max2 & Hc2). rewrite Hc2.
    eexists _, o. split.
    { cbn [bgs with_bgs s2 heap brk sparse s1]. rewrite !list_insert_insert_eq. reflexivity. }
    split; [|done]. rewrite (u32_small (blocks_per_group info - 1)) by (unfold is_u32; lia).
    eapply (initial_bg_ok _ bm1 bm1 h 0 (blocks_per_group info - 1) (Z.of_nat i)); try done; try lia.
    + change (blocks_per_group info - 1 <= Z.min (blocks_per_group info) (len_blocks aux_info - first_block ng)). lia.
    + rewrite Z.sub_0_r. apply ranged_refl, Hm1.
    + cbn. lia.
Qed.

(** A group that has been set up. *)
Definition bg_ready (i : nat) (bg : block_group_info) : Prop :=
  bg_ok info aux_info bg /\ first_block bg = first_block (new_bg info aux_info (Z.of_nat i)) /\
  inodes_of bg = inodes_of (new_bg info aux_info (Z.of_nat i)).

Lemma init_bgs_spec n (i : nat) s :
  (i + n)%nat = length (bgs s) -> (forall j : nat, (j < length (bgs s))%nat -> group_fits (Z.of_nat j)) ->
  (forall j bg, (j < i)%nat -> bgs s !! j = Some bg -> bg_ready j bg) ->
  exists s', init_bgs force info aux_info n (Z.of_nat i) s = Ok (tt, s') /\
    heap s' = heap s /\ brk s' = brk s /\ length (bgs s') = length (bgs s) /\
    forall j bg, bgs s' !! j = Some bg -> bg_ready j bg.
Proof.
  revert i s. induction n as [|n IH]; intros i s Hn Hfit Hdone.
  { exists s. split; [done|]. split_and!; [done..|]. intros j bg Hj. apply Hdone; [|done].
    apply lookup_lt_Some in Hj. lia. }
  destruct (lookup_lt_is_Some_2 (bgs s) i) as [bg0 Hi]; [lia|].
  destruct (init_bg_spec s i bg0 Hi (Hfit i ltac:(lia))) as (bg & o & Hrun & Hok & Hf & Hino).
  cbn [init_bgs]. rewrite (bind_Ok _ _ _ _ _ Hrun). replace (Z.of_nat i + 1) with (Z.of_nat (S i)) by lia.
  destruct (IH (S i) (Fs (heap s) (brk s) (<[i := bg]> (bgs s)) (sparse s ++ [o]))) as (s' & Hr & Hh & Hb & Hl & Hall);
    cbn [bgs heap brk] in *; rewrite ?length_insert in *; [lia|done| |].
  { intros j bg' Hj Hj'. destruct (decide (j = i)) as [->|].
    - rewrite list_lookup_insert_eq in Hj' by lia. by injection Hj' as <-.
    - rewrite list_lookup_insert_ne in Hj' by done. apply Hdone; [lia|done]. }
  exists s'. done.
Qed.

Lemma block_allocator_init_spec s :
  0 <= groups aux_info -> (forall i, 0 <= i < groups aux_info -> group_fits i) ->
  (forall p, brk s <= p -> heap s !! p = None) ->
  exists s', block_allocator_init force info aux_info s = Ok (tt, s') /\
    fs_ok info aux_info s' /\ zlen (bgs s') = groups aux_info /\
    forall i bg, bgs s' !! i = Some bg -> inodes_of bg = inodes_of (new_bg info aux_info (Z.of_nat i)).
Proof.
  intros Hg Hfit Hbrk. unfold block_allocator_init. erewrite bind_Ok by reflexivity.
  destruct (init_bgs_spec (Z.to_nat (groups aux_info)) 0
    (Fs (heap s) (brk s) (replicate (Z.to_nat (groups aux_info)) zero_bg) (sparse s)))
    as (s' & Hr & Hh & Hb & Hl & Hall); cbn [bgs] in *; rewrite ?length_replicate in *.
  - lia.
  - intros j Hj. apply Hfit. lia.
  - lia.
  - exists s'. split; [done|]. split; [|unfold zlen; rewrite Hl; split; [lia|]; intros i bg Hi; apply (Hall i bg Hi)]. split; [split|].
    + apply Forall_forall. intros bg (j & Hj)%list_elem_of_lookup. by apply (Hall j).
    + intros j bg Hj. destruct (Hall j bg Hj) as (_ & -> & _). apply lookup_lt_Some in Hj.
      destruct (Hfit (Z.of_nat j)) as (Hf & Hf0 & Hf1 & _); [lia|]. by rewrite Hf in *.
    + intros p. rewrite Hh, Hb. apply Hbrk.
Qed.
End Init.

(** * The derived parameters *)

Lemma DIV_ROUND_UP_small w x y :
  0 < y -> 0 <= x -> x + y - 1 < 2 ^ w -> DIV_ROUND_UP w x y = (x + y - 1) / y.
Proof. intros. unfold DIV_ROUND_UP. by rewrite Z.mod_small by lia. Qed.

(** Sizes for which no computation of [ext4_create_fs_aux_info] wraps around. *)
Record sizes_ok (info : fs_info) : Prop := SizesOk {
  so_geometry : geometry_ok info;
  so_block : 1024 < block_size info;
  so_len : 0 <= len info /\ len info / block_size info + blocks_per_group info < 2 ^ 32;
  so_inodes : 0 <= inodes_per_group info * inode_size info /\
              inodes_per_group info * inode_size info + block_size info < 2 ^ 32;
  so_reserve : 0 <= bg_desc_reserve_blocks info;
  (** a group is larger than its header *)
  so_header : forall aux, ext4_create_fs_aux_info info = Ok aux ->
    3 + inode_table_blocks aux + bg_desc_blocks aux + bg_desc_reserve_blocks info < blocks_per_group info;
}.

Lemma round_up_cases L n :
  0 < n -> 0 <= L ->
  let G := (L + n - 1) / n in
  0 <= G <= L /\ 0 <= L mod n <= L /\
  ((L mod n = 0 /\ L = G * n) \/ (0 < L mod n < n /\ 1 <= G /\ L = (G - 1) * n + L mod n)).
Proof.
  intros Hn HL G. pose proof (Z.div_mod L n ltac:(lia)) as Hd. pose proof (Z.mod_pos_bound L n Hn) as Hm.
  assert (Hq : 0 <= L / n) by (apply Z.div_pos; lia).
  destruct (Z.eq_dec (L mod n) 0) as [H0|H0].
  - assert (G = L / n) as ->.
    { symmetry. apply (Z.div_unique _ _ _ (n - 1)); lia. }
    split; [nia|]. split; [nia|]. left. lia.
  - assert (G = L / n + 1) as ->.
    { symmetry. apply (Z.div_unique _ _ _ (L mod n - 1)); lia. }
    split; [nia|]. split; [nia|]. right. lia.
Qed.

Lemma new_bg_header info aux i :
  0 <= inode_table_blocks aux -> 0 <= bg_desc_blocks aux -> 0 <= bg_desc_reserve_blocks info ->
  3 + inode_table_blocks aux + bg_desc_blocks aux + bg_desc_reserve_blocks info < 2 ^ 32 ->
  0 < header_blocks (new_bg info aux i) <=
    3 + inode_table_blocks aux + bg_desc_blocks aux + bg_desc_reserve_blocks info.
Proof.
  intros. cbn. destruct (ext4_bg_has_super_block info i); rewrite u32_small; unfold is_u32; lia.
Qed.

(** In a file system with [L] blocks, [G] groups, of which the last one may be
    short but has room for its header. *)
Lemma group_fits_intro info aux i :
  geometry_ok info -> first_data_block aux = 0 -> 0 <= i < groups aux ->
  groups aux * blocks_per_group info <= len_blocks aux \/
  (groups aux - 1) * blocks_per_group info + header_blocks (new_bg info aux (groups aux - 1)) <= len_blocks aux ->
  groups aux * blocks_per_group info < 2 ^ 32 ->
  (forall j, 0 < header_blocks (new_bg info aux j) < blocks_per_group info) ->
  group_fits info aux i.
Proof.
  intros [Hg _] Hf Hi Hlen Hlim Hh. unfold group_fits.
  assert (Hfb : first_block (new_bg info aux i) = i * blocks_per_group info).
  { cbn [first_block new_bg]. rewrite Hf, Z.add_0_l.
    rewrite (u32_small (i * blocks_per_group info)); apply u32_small || idtac; unfold is_u32; nia. }
  rewrite Hfb, Hf. split; [lia|]. split; [nia|]. split; [nia|]. split; [apply Hh|].
  pose proof (Hh i). pose proof (Hh (groups aux - 1)). destruct Hlen as [Hlen|Hlen]; [nia|].
  destruct (Z.eq_dec i (groups aux - 1)) as [->|]; [done|]. nia.
Qed.

Lemma aux_info_fits info aux :
  sizes_ok info -> ext4_create_fs_aux_info info = Ok aux ->
  0 <= groups aux /\ forall i, 0 <= i < groups aux -> group_fits info aux i.
Proof.
  intros [Hgeo Hbs Hlen Hino Hres Hhdr] Haux. specialize (Hhdr aux Haux). revert Haux.
  unfold ext4_create_fs_aux_info. destruct (Z.ltb_spec 1024 (block_size info)); [|lia].
  rewrite Z.quot_div_nonneg by lia. set (L := len info / block_size info) in *.
  assert (HL : 0 <= L) by (apply Z.div_pos; lia). pose proof Hgeo as [Hgeo1 Hgeo2].
  rewrite (u64_small L), Z.sub_0_r, (u64_small L) by (unfold is_u64; lia).
  rewrite (u32_small (inodes_per_group info * _)) by (unfold is_u32; lia).
  rewrite (DIV_ROUND_UP_small 32), (DIV_ROUND_UP_small 64 L) by lia.
  destruct (round_up_cases L (blocks_per_group info)) as (HG & HRL & HL'); [lia..|].
  set (G := (L + blocks_per_group info - 1) / blocks_per_group info) in *.
  set (R := L mod blocks_per_group info) in *.
  rewrite (u32_small G) by (unfold is_u32; lia). rewrite (u32_small R) by (unfold is_u32; lia).
  set (itb := (_ + block_size info - 1) / block_size info).
  set (bgd := u32 (DIV_ROUND_UP 64 (G * _) _)). set (hdr := if ext4_bg_has_super_block info (G - 1) then _ else _).
  assert (0 <= itb) by (apply Z.div_pos; lia). assert (0 <= bgd) by apply is_u32_u32.
  destruct (Z.leb_spec G 1), (Z.ltb_spec R hdr); cbn [andb]; try done;
    destruct (Z.ltb_spec 0 R); cbn [andb]; intros [= <-]; cbn [inode_table_blocks bg_desc_blocks] in Hhdr.
  all: cbn [groups].
  all: rewrite ?(u32_small (G - 1)), ?(u64_small (L - R)) by (unfold is_u32, is_u64; lia).
  all: split; [lia|]; intros i Hi; apply group_fits_intro; cbn [groups len_blocks first_data_block]; try done; try lia.
  all: try (intros j; match goal with |- context [new_bg ?a ?b j] => pose proof (new_bg_header a b j) as Hb end;
            cbn [inode_table_blocks bg_desc_blocks] in Hb; lia).
  all: destruct HL' as [HL'|HL']; [left; lia|right].
  all: match goal with |- context [header_blocks ?g] => change (header_blocks g) with hdr end; lia.
Qed.

(** * An example *)

(** Two groups of 64 blocks of 2 KiB, with 16 inodes each. *)
Definition small_info : fs_info := FsInfo (2048 * 128) 2048 64 16 128 1 0.

Definition small_aux : fs_aux_info := FsAuxInfo 0 128 1 2 1 512 262144 0.

Lemma small_aux_eq : ext4_create_fs_aux_info small_info = Ok small_aux.
Proof. reflexivity. Qed.

Lemma small_sizes_ok : sizes_ok small_info.
Proof.
  split; [vm_compute; intuition congruence..|].
  intros aux. rewrite small_aux_eq. intros [= <-]. reflexivity.
Qed.

(** The size of the file system is that of one block group. *)
Definition one_full_group (info : fs_info) : Prop := len info = block_size info * blocks_per_group info.

(** A file system of exactly one full block group is refused as too small:
    [last_group_size] is zero for a full last group, and is compared with the
    size of the header all the same. *)
Theorem one_full_group_refused info :
  geometry_ok info -> 1024 < block_size info -> one_full_group info ->
  0 <= inodes_per_group info * inode_size info ->
  inodes_per_group info * inode_size info + block_size info < 2 ^ 32 ->
  0 <= bg_desc_reserve_blocks info < 2 ^ 31 ->
  ext4_create_fs_aux_info info = CheckFailed.
Proof.
  intros [Hg1 Hg2] Hbs Hlen Hi0 Hi1 Hres. unfold ext4_create_fs_aux_info.
  destruct (Z.ltb_spec 1024 (block_size info)); [|lia]. rewrite Hlen, Z.quot_div_nonneg by nia.
  rewrite (Z.mul_comm (block_size info)), Z.div_mul by lia.
  rewrite Z.sub_0_r, !(u64_small (blocks_per_group info)) by (unfold is_u64; lia).
  rewrite (DIV_ROUND_UP_small 64 (blocks_per_group info)) by lia.
  assert (H1 : (blocks_per_group info + blocks_per_group info - 1) / blocks_per_group info = 1).
  { symmetry. apply (Z.div_unique _ _ _ (blocks_per_group info - 1)); lia. }
  rewrite H1, Z.mod_same by lia. change (u32 1) with 1. change (u32 0) with 0.
  rewrite (u32_small (inodes_per_group info * _)), (DIV_ROUND_UP_small 32) by (unfold is_u32; lia).
  set (itb := (_ + block_size info - 1) / block_size info).
  assert (Hitb : 0 <= itb < 2 ^ 22).
  { split; [apply Z.div_pos; lia|]. apply Z.div_lt_upper_bound; lia. }
  assert (Hbgd : u32 (DIV_ROUND_UP 64 (1 * sizeof_ext2_group_desc) (block_size info)) = 1).
  { unfold sizeof_ext2_group_desc. rewrite DIV_ROUND_UP_small by lia.
    rewrite <- (Z.div_unique (1 * 32 + block_size info - 1) (block_size info) 1 31) by lia. done. }
  rewrite Hbgd. cbn [Z.leb Z.compare andb].
  destruct (Z.ltb_spec 0 (if ext4_bg_has_super_block info (1 - 1)
    then u32 (2 + itb + 1 + 1 + bg_desc_reserve_blocks info) else u32 (2 + itb))) as [_|Hle]; [done|].
  destruct (ext4_bg_has_super_block info (1 - 1)); rewrite u32_small in Hle; unfold is_u32; lia.
Qed.

Lemma one_full_group_refused_witness :
  ext4_create_fs_aux_info (FsInfo (4096 * 32768) 4096 32768 8192 256 1 7) = CheckFailed.
Proof. apply one_full_group_refused; vm_compute; intuition congruence. Defined.
