(* ===== verification/Ext4Safety.v ===== *)
(** Any sequence of allocations, reductions and releases: the blocks of the
    allocations that are held never overlap, nor do they meet the headers of the
    groups, and the free counts of the groups are right. *)
From stdpp Require Import base gmap list numbers strings.
From Stdlib Require Import ZArith Lia.
From S2P Require Import Prelude Ext4Base Ext4Allocate Ext4Bitmap Ext4Blocks Ext4Use Ext4Lists Ext4Alloc Ext4Reduce Ext4Init.

(** * Clients of the allocator *)

(** The calls of a client that holds a list of allocations.  It never gives back
    more blocks than the allocation has. *)
Inductive op :=
| Allocate (len : Z)
| Reduce (k : nat) (n : Z)
| Release (k : nat).

Definition exec (force : bool) (o : op) (held : list block_allocation) : M (list block_allocation) :=
  match o with
  | Allocate len =>
      a ← allocate_blocks force len;
      mret (match a with Some a => held ++ [a] | None => held end)
  | Reduce k n =>
      match held !! k with
      | None => mret held
      | Some a =>
          total ← block_allocation_len a;
          if n <=? total then a ← reduce_allocation a n; mret (<[k := a]> held)
          else mret held
      end
  | Release k =>
      match held !! k with
      | None => mret held
      | Some a => free_alloc a;; mret (delete k held)
      end
  end.

Fixpoint run (force : bool) (ops : list op) (held : list block_allocation) : M (list block_allocation) :=
  match ops with
  | [] => mret held
  | o :: ops => held ← exec force o held; run force ops held
  end.

(** The arguments are 32-bit numbers. *)
Definition op_ok (o : op) : Prop :=
  match o with Allocate len => is_u32 len | Reduce _ n => is_u32 n | Release _ => True end.

(** The regions of an allocation, read off its list, and their blocks. *)
Fixpoint walk_spans (fuel : nat) (h : gmap Z region) (p : option Z) : list span :=
  match fuel with
  | O => []
  | S fuel =>
      match p ≫= (h !!.) with
      | Some r => Span (r_block r) (r_len r) (r_bg r) :: walk_spans fuel h (r_next r)
      | None => []
      end
  end.

Definition alloc_spans (s : fs) (a : block_allocation) : list span :=
  walk_spans (S (size (heap s))) (heap s) (l_first (a_list a)).

Definition alloc_blocks (s : fs) (a : block_allocation) : list Z := blocks (alloc_spans s a).

(** * The invariant *)

Section Safety.
Context (force : bool) (info : fs_info) (aux_info : fs_aux_info) (Hgeo : geometry_ok info).

Abbreviation used := (used info).
Abbreviation fs_ok := (fs_ok info aux_info).

(** The allocations that are held, each with its regions. *)
Abbreviation holding := (list (block_allocation * list node)).

Definition flat (gl : holding) : list node := concat gl.*2.

Record world_ok (s : fs) (gl : holding) : Prop := WorldOk {
  wo_fs : fs_ok s;
  wo_alloc : forall a ns, (a, ns) ∈ gl -> alloc_ok (heap s) a ns;
  wo_addr : NoDup (flat gl).*1;
  wo_in_use : Forall (in_use (bgs s)) (spans (flat gl));
  wo_blocks : NoDup (blocks (spans (flat gl)));
}.

Lemma flat_lookup gl k a ns :
  gl !! k = Some (a, ns) -> flat gl ≡ₚ ns ++ flat (delete k gl).
Proof.
  revert k. induction gl as [|[b ms] gl IH]; intros [|k] Hk; [done..| |].
  - by injection Hk as -> ->.
  - cbn in Hk. unfold flat in *. cbn. rewrite (IH k Hk). cbn. by rewrite !app_assoc, (Permutation_app_comm ms ns).
Qed.

Lemma delete_insert_same {A} (l : list A) k x : delete k (<[k := x]> l) = delete k l.
Proof. revert k. induction l as [|y l IH]; intros [|k]; [done..|]. cbn. f_equal. apply IH. Qed.

Lemma flat_insert gl k x a ns :
  gl !! k = Some x -> flat (<[k := (a, ns)]> gl) ≡ₚ ns ++ flat (delete k gl).
Proof.
  intros Hk. rewrite (flat_lookup (<[k := (a, ns)]> gl) k a ns).
  - by rewrite delete_insert_same.
  - apply list_lookup_insert_eq. by eapply lookup_lt_Some.
Qed.

#[local] Instance blocks_perm : Proper (Permutation ==> Permutation) blocks.
Proof. intros l k H. unfold blocks. by rewrite H. Qed.

Lemma spans_perm n m : n ≡ₚ m -> spans n ≡ₚ spans m.
Proof. intros H. unfold spans. by rewrite H. Qed.

(** The parts of the invariant that concern one allocation and the others. *)
Lemma world_split s gl k a ns :
  world_ok s gl -> gl !! k = Some (a, ns) ->
  alloc_ok (heap s) a ns /\ NoDup ns.*1 /\ Forall (in_use (bgs s)) (spans ns) /\ NoDup (blocks (spans ns)) /\
  (forall p, p ∈ ns.*1 -> p ∉ (flat (delete k gl)).*1) /\
  (forall B, B ∈ blocks (spans ns) -> B ∉ blocks (spans (flat (delete k gl)))) /\
  NoDup (flat (delete k gl)).*1 /\ Forall (in_use (bgs s)) (spans (flat (delete k gl))) /\
  NoDup (blocks (spans (flat (delete k gl)))) /\
  (forall b ms, (b, ms) ∈ delete k gl -> alloc_ok (heap s) b ms /\ forall p, p ∈ ms.*1 -> p ∈ (flat (delete k gl)).*1).
Proof.
  intros [Hfs Hal Had Hus Hbl] Hk. pose proof (flat_lookup _ _ _ _ Hk) as Hp.
  rewrite Hp, fmap_app in Had. apply NoDup_app in Had as (Ha1 & Ha2 & Ha3).
  rewrite (spans_perm _ _ Hp), spans_app in Hus, Hbl. apply Forall_app in Hus as [Hu1 Hu2].
  rewrite blocks_app in Hbl. apply NoDup_app in Hbl as (Hb1 & Hb2 & Hb3).
  split_and!; try done.
  - apply Hal. by eapply list_elem_of_lookup_2.
  - intros b ms Hin. split.
    + apply Hal. apply list_elem_of_lookup in Hin as (j & Hj).
      eapply elem_of_submseteq; [by eapply list_elem_of_lookup_2|].
      apply sublist_submseteq, sublist_delete.
    + intros p Hp'. apply list_elem_of_fmap in Hp' as ([q sp] & -> & Hq). apply list_elem_of_fmap.
      exists (q, sp). split; [done|]. unfold flat. apply list_elem_of_In, in_concat.
      exists ms. split; [|by apply list_elem_of_In]. apply list_elem_of_In, list_elem_of_fmap. by exists (b, ms).
Qed.

Lemma world_addr s gl p : world_ok s gl -> p ∈ (flat gl).*1 -> p < brk s.
Proof.
  intros [[_ Hbrk] Hal _ _ _] Hp. apply list_elem_of_fmap in Hp as ([q sp] & -> & Hin).
  unfold flat in Hin. apply list_elem_of_In, in_concat in Hin as (ns & Hns & Hin).
  apply list_elem_of_In, list_elem_of_fmap in Hns as ([a ms] & -> & Hg). cbn in Hin.
  destruct (dseg_in _ _ _ _ q (al_dseg _ _ _ (Hal a ms Hg))) as [r Hr].
  { apply list_elem_of_fmap. exists (q, sp). split; [done|by apply list_elem_of_In]. }
  cbn. destruct (Z.lt_ge_cases q (brk s)); [done|]. rewrite Hbrk in Hr by lia. done.
Qed.

Lemma alloc_ok_frame h h' a ns :
  (forall p, p ∈ ns.*1 -> h' !! p = h !! p) -> alloc_ok h a ns -> alloc_ok h' a ns.
Proof. intros H [H1 H2 H3 H4]. split; try done. by eapply dseg_frame. Qed.

Lemma in_flat gl a ns p : (a, ns) ∈ gl -> p ∈ ns.*1 -> p ∈ (flat gl).*1.
Proof.
  intros Hg Hp. apply list_elem_of_fmap in Hp as ([q sp] & -> & Hin). apply list_elem_of_fmap.
  exists (q, sp). split; [done|]. unfold flat. apply list_elem_of_In, in_concat.
  exists ns. split; [|by apply list_elem_of_In]. apply list_elem_of_In, list_elem_of_fmap. by exists (a, ns).
Qed.

Lemma flat_snoc gl a ns : flat (gl ++ [(a, ns)]) = flat gl ++ ns.
Proof. unfold flat. rewrite fmap_app, concat_app. cbn. by rewrite app_nil_r. Qed.

(** The allocations that were held before an allocation are still intact. *)
Lemma world_extends s s' gl ns :
  world_ok s gl -> extends info aux_info s s' (fun _ => True) ns -> world_ok s' gl.
Proof.
  intros Hw Hx. pose proof Hw as [Hfs Hal Had Hus Hbl]. split; try done.
  - apply Hx.
  - intros a ms Hg. eapply alloc_ok_frame; [|by apply Hal]. intros p Hp.
    apply Hx; [|done]. eapply world_addr; [done|]. by eapply in_flat.
  - eapply Forall_impl; [exact Hus|]. intros sp. apply Hx.
Qed.

Lemma world_allocate s s' gl a ns :
  world_ok s gl -> alloc_ok (heap s') a ns -> extends info aux_info s s' (fun _ => True) ns ->
  world_ok s' (gl ++ [(a, ns)]).
Proof.
  intros Hw Ha Hx. pose proof Hw as [[Hg Hb] Hal Had Hus Hbl].
  pose proof (world_extends _ _ _ _ Hw Hx) as [Hfs' Hal' _ Hus' _].
  split; rewrite ?flat_snoc, ?spans_app, ?blocks_app, ?fmap_app.
  - done.
  - intros b ms [Hin|Hin]%elem_of_app; [by apply Hal'|]. apply list_elem_of_singleton in Hin. by injection Hin as -> ->.
  - apply NoDup_app. split; [done|]. split; [|apply Hx]. intros p H1 H2.
    apply (world_addr _ _ _ Hw) in H1. apply (ex_addr _ _ _ _ _ _ Hx) in H2. lia.
  - apply Forall_app. split; [done|apply Hx].
  - apply NoDup_app. split; [done|]. split; [|apply Hx]. intros B H1 H2.
    apply (ex_fresh _ _ _ _ _ _ Hx B H2). apply elem_of_blocks in H1 as (sp & Hsp & HB).
    rewrite Forall_forall in Hus. eapply in_use_used; [done..|by apply Hus|done].
Qed.

Lemma world_update s s' gl k a ns a' ns' :
  world_ok s gl -> gl !! k = Some (a, ns) -> fs_ok s' -> alloc_ok (heap s') a' ns' ->
  (forall p, p ∈ ns'.*1 -> p ∈ ns.*1) -> (forall B, B ∈ blocks (spans ns') -> B ∈ blocks (spans ns)) ->
  Forall (in_use (bgs s')) (spans ns') -> NoDup (blocks (spans ns')) ->
  (forall sp, in_use (bgs s) sp -> (forall B, in_span sp B -> B ∉ blocks (spans ns)) -> in_use (bgs s') sp) ->
  (forall p, p ∉ ns.*1 -> heap s' !! p = heap s !! p) ->
  world_ok s' (<[k := (a', ns')]> gl).
Proof.
  intros Hw Hk Hfs Ha' Hsub Hbsub Hu' Hb' Hkeep Hheap.
  destruct (world_split _ _ _ _ _ Hw Hk) as (_ & Hn1 & Hu1 & Hb1 & Hdp & Hdb & Hn2 & Hu2 & Hb2 & Hal).
  pose proof (flat_insert _ _ _ a' ns' Hk) as Hp.
  split; rewrite ?Hp, ?(spans_perm _ _ Hp), ?spans_app, ?blocks_app, ?fmap_app.
  - done.
  - intros b ms Hin. apply list_elem_of_lookup in Hin as (j & Hj). rewrite list_lookup_insert in Hj.
    case_decide as Hd; [by injection Hj as <- <-|].
    destruct (Hal b ms) as [Hab Hin].
    { assert (Hjk : j <> k) by (intros ->; apply Hd; split; [done|by eapply lookup_lt_Some]).
      apply list_elem_of_lookup. destruct (decide (j < k)%nat).
      - exists j. by rewrite list_lookup_delete_lt.
      - exists (pred j). rewrite list_lookup_delete_ge by lia. by replace (S (pred j)) with j by lia. }
    eapply alloc_ok_frame; [|exact Hab]. intros p Hpm. apply Hheap. intros Hpn. by apply (Hdp p Hpn), Hin.
  - apply NoDup_app. split; [apply Ha'|]. split; [|done]. intros p H1. by apply Hdp, Hsub.
  - apply Forall_app. split; [done|]. rewrite Forall_forall in Hu2 |- *. intros sp Hsp.
    apply Hkeep; [by apply Hu2|]. intros B HB HBn. apply (Hdb B HBn), elem_of_blocks. by exists sp.
  - apply NoDup_app. split; [done|]. split; [|done]. intros B H1. by apply Hdb, Hbsub.
Qed.

Lemma in_use_bounds l sp :
  groups_ok info aux_info l -> in_use l sp ->
  0 < sp_len sp /\ 0 <= sp_block sp /\ sp_block sp + sp_len sp < 2 ^ 32.
Proof.
  intros Hl Hu. pose proof Hu as (Hpos & i & bg & Hi & Hbg & Hown & _).
  destruct (go_first _ _ _ Hl _ _ Hbg) as (_ & Hf0 & Hf1).
  pose proof (owns_in_range _ _ _ _ _ (bo_chunks _ _ _ (groups_bg _ _ _ _ _ Hl Hbg)) Hown).
  pose proof (data_end_le info aux_info bg). lia.
Qed.

(** An allocation has fewer than [2 ^ 32] blocks, as they are all different. *)
Lemma total_u32 l sps :
  groups_ok info aux_info l -> Forall (in_use l) sps -> NoDup (blocks sps) -> 0 <= total sps < 2 ^ 32.
Proof.
  intros Hl Hu Hnd. assert (Hpos : Forall (fun sp => 0 <= sp_len sp) sps).
  { eapply Forall_impl; [exact Hu|]. intros sp [Hp _]. lia. }
  split; [by apply total_nonneg|]. rewrite <- zlen_blocks by done.
  assert (Hsub : blocks sps ⊆+ seqZ 0 (2 ^ 32 - 1)).
  { apply NoDup_submseteq; [done|]. intros B HB. apply elem_of_blocks in HB as (sp & Hsp & HB).
    rewrite Forall_forall in Hu. pose proof (in_use_bounds _ _ Hl (Hu sp Hsp)).
    apply elem_of_seqZ. unfold in_span in HB. lia. }
  apply submseteq_length in Hsub. rewrite length_seqZ in Hsub. unfold zlen. lia.
Qed.

(** * The operations *)

Lemma alloc_len_spec s a ns :
  alloc_ok (heap s) a ns -> fs_ok s -> Forall (in_use (bgs s)) (spans ns) -> NoDup (blocks (spans ns)) ->
  block_allocation_len a s = Ok (total (spans ns), s).
Proof.
  intros [Hl _ Hd Hn] [Hg _] Hu Hb. unfold block_allocation_len. mstep. rewrite Hl. cbn [l_first].
  pose proof (dseg_length _ _ _ _ Hd Hn). pose proof (total_u32 _ _ Hg Hu Hb).
  rewrite (regions_len_spec s _ None); [by rewrite Z.add_0_l|done|lia| |lia|lia].
  eapply Forall_impl; [exact Hu|]. intros sp [Hp _]. lia.
Qed.

Lemma world_reduce s gl k a ns n :
  world_ok s gl -> gl !! k = Some (a, ns) -> 0 <= n <= total (spans ns) ->
  exists a' ns' s', reduce_allocation a n s = Ok (a', s') /\ world_ok s' (<[k := (a', ns')]> gl).
Proof.
  intros Hw Hk Hn. pose proof (wo_fs _ _ Hw) as Hfs.
  destruct (world_split _ _ _ _ _ Hw Hk) as (Ha & Hn1 & Hu1 & Hb1 & _).
  pose proof Ha as [Hl Ho Hd _]. pose proof (dseg_length _ _ _ _ Hd Hn1).
  pose proof (total_u32 _ _ (proj1 Hfs) Hu1 Hb1).
  destruct (reduce_loop_spec info aux_info Hgeo (S (size (heap s))) ns n s) as (ns' & freed & s' & Hrun & Hgb & _);
    [done..|lia|lia|lia|].
  exists (set_list (list_of ns') a), ns', s'. split.
  { unfold reduce_allocation. mstep. rewrite Hl. change (RegionList _ _ _ _) with (list_of ns). mstep. done. }
  destruct (gb_prefix _ _ _ _ _ _ _ Hgb) as [rest Hpre].
  assert (Hnd' : NoDup ns'.*1) by (rewrite Hpre in Hn1; by apply NoDup_app in Hn1 as (? & _)).
  rewrite (gb_blocks _ _ _ _ _ _ _ Hgb) in Hb1. apply NoDup_app in Hb1 as (Hb1 & _).
  eapply world_update; [done|done|apply Hgb| | | |apply Hgb|done| |apply Hgb].
  - split; [done|done|apply Hgb|done].
  - intros p Hp. rewrite Hpre. by apply elem_of_app; left.
  - intros B HB. rewrite (gb_blocks _ _ _ _ _ _ _ Hgb). by apply elem_of_app; left.
  - intros sp Hsp Hdis. apply Hgb; [done|]. intros B HB HBf. apply (Hdis B HB).
    rewrite (gb_blocks _ _ _ _ _ _ _ Hgb). by apply elem_of_app; right.
Qed.

Lemma free_regions_spec fuel prev ns s :
  dseg (heap s) prev ns None -> NoDup ns.*1 -> (length ns <= fuel)%nat ->
  exists h, free_regions fuel (head_addr ns None) s = Ok (tt, with_heap s h) /\
    forall p, h !! p = if decide (p ∈ ns.*1) then None else heap s !! p.
Proof.
  revert fuel prev s. induction ns as [|[p sp] ns IH]; intros fuel prev s Hd Hn Hf.
  { exists (heap s). split; [by destruct fuel, s|]. intros p. case_decide as Hp; [|done]. by apply elem_of_nil in Hp. }
  destruct fuel as [|fuel]; cbn in Hf; [lia|]. destruct Hd as [Hp Hd]. cbn in Hn. apply NoDup_cons in Hn as [Hpn Hn].
  cbn [free_regions head_addr]. mstep. mstep. cbn [r_next region_of].
  destruct (IH fuel (Some p) (with_heap s (delete p (heap s)))) as (h & Hrun & Hh); [|done|lia|].
  { eapply dseg_frame; [|exact Hd]. intros q Hq. cbn. rewrite lookup_delete_ne; [done|]. by intros ->. }
  exists h. split; [exact Hrun|]. intros q. rewrite Hh. cbn [heap with_heap]. cbn.
  destruct (decide (q ∈ ns.*1)) as [Hq|Hq].
  - by rewrite decide_True by by apply elem_of_cons; right.
  - destruct (decide (q = p)) as [->|Hne].
    + rewrite decide_True by (apply elem_of_cons; by left). by rewrite lookup_delete_eq.
    + rewrite decide_False by (rewrite elem_of_cons; tauto). by rewrite lookup_delete_ne.
Qed.

Lemma world_release s gl k a ns :
  world_ok s gl -> gl !! k = Some (a, ns) ->
  exists s', free_alloc a s = Ok (tt, s') /\ world_ok s' (delete k gl).
Proof.
  intros Hw Hk. pose proof (wo_fs _ _ Hw) as [Hg Hbrk].
  destruct (world_split _ _ _ _ _ Hw Hk) as ([Hl Ho Hd _] & Hn1 & _ & _ & Hdp & _ & Hn2 & Hu2 & Hb2 & Hal).
  pose proof (dseg_length _ _ _ _ Hd Hn1).
  destruct (free_regions_spec (S (size (heap s))) None ns s Hd Hn1 ltac:(lia)) as (h & Hrun & Hh).
  exists (with_heap s h). split.
  { unfold free_alloc. mstep. rewrite Hl, Ho. cbn [l_first empty_list]. by rewrite (bind_Ok _ _ _ _ _ Hrun). }
  split; cbn [bgs with_heap heap]; try done.
  - split; [done|]. cbn. intros p Hp. rewrite Hh. case_decide; [done|]. by apply Hbrk.
  - intros b ms Hin. destruct (Hal b ms Hin) as [Hab Hsub]. eapply alloc_ok_frame; [|exact Hab].
    intros p Hp. rewrite Hh, decide_False; [done|]. intros Hpn. by apply (Hdp p Hpn), Hsub.
Qed.

Lemma fmap_insert_fst (gl : holding) k a ns : (<[k := (a, ns)]> gl).*1 = <[k := a]> gl.*1.
Proof. by rewrite list_fmap_insert. Qed.

Lemma fmap_delete_fst (gl : holding) k : (delete k gl).*1 = delete k gl.*1.
Proof. revert k. induction gl as [|x gl IH]; intros [|k]; [done..|]. cbn. f_equal. apply IH. Qed.

(** One call keeps the invariant, and ends unless the space runs out. *)
Lemma exec_ok o s gl :
  world_ok s gl -> op_ok o ->
  match exec force o gl.*1 s with
  | Ok (held, s') => exists gl', held = gl'.*1 /\ world_ok s' gl'
  | CheckFailed => force = false
  | OutOfBounds => False
  end.
Proof.
  intros Hw Ho. destruct o as [len|k n|k]; cbn [exec].
  - destruct (Z.eq_dec len 0) as [->|Hne].
    { cbn. by exists gl. }
    pose proof (allocate_blocks_spec force info aux_info Hgeo len s (wo_fs _ _ Hw)) as H.
    unfold op_ok, is_u32 in Ho. specialize (H ltac:(lia)).
    destruct (len <=? capacity (bgs s)); [|destruct force].
    + destruct H as (a & ns & s' & Hrun & Ha & Hx & _). rewrite (bind_Ok _ _ _ _ _ Hrun). cbn.
      exists (gl ++ [(a, ns)]). rewrite fmap_app. split; [done|]. by eapply world_allocate.
    + destruct H as (ns & s' & Hrun & Hx & _). rewrite (bind_Ok _ _ _ _ _ Hrun). cbn.
      exists gl. split; [done|]. by eapply world_extends.
    + by rewrite (bind_CheckFailed _ _ _ H).
  - rewrite list_lookup_fmap. destruct (gl !! k) as [[a ns]|] eqn:Hk; cbn [fmap option_fmap option_map fst].
    2:{ cbn. by exists gl. }
    destruct (world_split _ _ _ _ _ Hw Hk) as (Ha & _ & Hu & Hb & _).
    rewrite (bind_Ok _ _ _ _ _ (alloc_len_spec _ _ _ Ha (wo_fs _ _ Hw) Hu Hb)).
    destruct (Z.leb_spec n (total (spans ns))).
    2:{ cbn. by exists gl. }
    unfold op_ok, is_u32 in Ho. destruct (world_reduce s gl k a ns n Hw Hk ltac:(lia)) as (a' & ns' & s' & Hrun & Hw').
    rewrite (bind_Ok _ _ _ _ _ Hrun). cbn. exists (<[k := (a', ns')]> gl). by rewrite fmap_insert_fst.
  - rewrite list_lookup_fmap. destruct (gl !! k) as [[a ns]|] eqn:Hk; cbn [fmap option_fmap option_map fst].
    2:{ cbn. by exists gl. }
    destruct (world_release s gl k a ns Hw Hk) as (s' & Hrun & Hw').
    rewrite (bind_Ok _ _ _ _ _ Hrun). cbn. exists (delete k gl). by rewrite fmap_delete_fst.
Qed.

Lemma run_ok ops s gl :
  world_ok s gl -> Forall op_ok ops ->
  match run force ops gl.*1 s with
  | Ok (held, s') => exists gl', held = gl'.*1 /\ world_ok s' gl'
  | CheckFailed => force = false
  | OutOfBounds => False
  end.
Proof.
  intros Hw Hops. revert s gl Hw. induction Hops as [|o ops Ho _ IH]; intros s gl Hw.
  { cbn. by exists gl. }
  cbn [run]. pose proof (exec_ok o s gl Hw Ho) as He. unfold mbind, M_bind.
  destruct (exec force o gl.*1 s) as [[held s']| |]; [|done..].
  destruct He as (gl' & -> & Hw'). by apply IH.
Qed.

(** * What the invariant says about the blocks *)

Lemma walk_spans_spec fuel h prev ns :
  dseg h prev ns None -> (length ns < fuel)%nat ->
  walk_spans fuel h (head_addr ns None) = spans ns.
Proof.
  revert fuel prev. induction ns as [|[p sp] ns IH]; intros fuel prev Hd Hf; (destruct fuel as [|fuel]; [cbn in Hf; lia|]).
  { done. }
  destruct Hd as [Hp Hd]. cbn in Hf. cbn [walk_spans head_addr]. unfold mbind, option_bind. rewrite Hp.
  cbn [region_of r_block r_len r_bg r_next]. rewrite (IH fuel (Some p)) by (done || lia). by destruct sp.
Qed.

Lemma alloc_spans_spec s a ns : alloc_ok (heap s) a ns -> alloc_spans s a = spans ns.
Proof.
  intros [Hl _ Hd Hn]. unfold alloc_spans. rewrite Hl. cbn [l_first]. eapply walk_spans_spec; [done|].
  pose proof (dseg_length _ _ _ _ Hd Hn). lia.
Qed.

Lemma alloc_blocks_spec s a ns : alloc_ok (heap s) a ns -> alloc_blocks s a = blocks (spans ns).
Proof. intros H. unfold alloc_blocks. by rewrite (alloc_spans_spec s a ns). Qed.

Lemma world_blocks s gl : world_ok s gl -> concat (alloc_blocks s <$> gl.*1) = blocks (spans (flat gl)).
Proof.
  intros Hw. pose proof (wo_alloc _ _ Hw) as Hal. clear Hw.
  induction gl as [|[a0 ns] gl IH]; [done|]. unfold flat in *. cbn. rewrite spans_app, blocks_app. f_equal.
  - apply alloc_blocks_spec, Hal. by left.
  - apply IH. intros b ms Hin. apply Hal. by right.
Qed.

(** A block of the data area of a group that is marked in its bitmap. *)
Definition data_block (s : fs) (B : Z) : Prop :=
  exists (i : nat) bg, bgs s !! i = Some bg /\
    first_block bg + header_blocks bg <= B < first_block bg + blocks_per_group info /\
    B < len_blocks aux_info /\ bit (block_bitmap bg) (B - first_block bg) = true.

Lemma in_use_data s sp B : fs_ok s -> in_use (bgs s) sp -> in_span sp B -> data_block s B.
Proof.
  intros [Hg _] (Hpos & i & bg & Hi & Hbg & Hown & Hbits) HB. exists i, bg. split; [done|].
  pose proof (owns_in_range _ _ _ _ _ (bo_chunks _ _ _ (groups_bg _ _ _ _ _ Hg Hbg)) Hown) as Ho.
  unfold data_end, in_span in *. split; [lia|]. split; [lia|]. by apply Hbits.
Qed.
End Safety.

(** The free count of every group is the number of clear bits in its bitmap. *)
Definition counts_ok (info : fs_info) (s : fs) : Prop :=
  Forall (fun bg => bg_free_blocks bg = free_count (block_bitmap bg) (blocks_per_group info)) (bgs s).

Definition fs_empty : fs := Fs ∅ 0 [] [].

Lemma world_empty info aux_info s : fs_ok info aux_info s -> world_ok info aux_info s [].
Proof.
  intros Hs. split; [done| |constructor..]. intros a ns Hin. by apply elem_of_nil in Hin.
Qed.

(** C16: a file system whose parameters pass [sizes_ok] and come through
    [ext4_create_fs_aux_info] is set up without an error, and then, whatever a
    client allocates, gives back and releases, with 32-bit numbers of blocks: no
    access leaves its object (and every walk over regions ends); the blocks of
    the allocations it holds are all different, lie in the data areas of the
    groups and are marked in their bitmaps; the free count of each group is
    exact.  The program leaves by [longjmp] only without [force].  [sizes_ok]: the
    block size is above 1024; a group has at least one block and no more than
    bits in a block; the number of blocks plus those of a group, the size of a
    group's inode table plus a block, and the number of bits of a block plus 8
    are below 2^32; and a group has more blocks than its superblock, descriptors
    with their reserve, two bitmaps and inode table take. *)
Theorem allocator_safe force info aux_info ops :
  sizes_ok info -> ext4_create_fs_aux_info info = Ok aux_info -> Forall op_ok ops ->
  exists s0, block_allocator_init force info aux_info fs_empty = Ok (tt, s0) /\
    match run force ops [] s0 with
    | Ok (held, s) =>
        NoDup (concat (alloc_blocks s <$> held)) /\
        (forall B, B ∈ concat (alloc_blocks s <$> held) -> data_block info aux_info s B) /\
        counts_ok info s
    | CheckFailed => force = false
    | OutOfBounds => False
    end.
Proof.
  intros Hsz Haux Hops. pose proof (so_geometry _ Hsz) as Hgeo.
  destruct (aux_info_fits _ _ Hsz Haux) as [Hg0 Hfit].
  destruct (block_allocator_init_spec force info aux_info Hgeo fs_empty Hg0 Hfit) as (s0 & Hrun & Hs0 & _).
  { intros p _. apply lookup_empty. }
  exists s0. split; [done|].
  pose proof (run_ok force info aux_info Hgeo ops s0 [] (world_empty _ _ _ Hs0) Hops) as H.
  cbn [fmap list_fmap] in H. destruct (run force ops [] s0) as [[held s]| |]; [|done..].
  destruct H as (gl & -> & Hw). rewrite (world_blocks info aux_info) by done. pose proof Hw as [Hfs _ _ Hus Hbl].
  split; [done|]. split.
  - intros B (sp & Hsp & HB)%elem_of_blocks. rewrite Forall_forall in Hus. by eapply in_use_data; [done|apply Hus|].
  - eapply Forall_impl; [apply Hfs|]. intros bg Hbg. apply Hbg.
Qed.

Lemma allocator_safe_witness :
  exists s0, block_allocator_init false small_info small_aux fs_empty = Ok (tt, s0) /\
    match run false [Allocate 70; Allocate 5; Reduce 0 12; Release 1; Allocate 8] [] s0 with
    | Ok (held, s) =>
        NoDup (concat (alloc_blocks s <$> held)) /\
        (forall B, B ∈ concat (alloc_blocks s <$> held) -> data_block small_info small_aux s B) /\
        counts_ok small_info s
    | CheckFailed => false = false
    | OutOfBounds => False
    end.
Proof.
  apply (allocator_safe false small_info small_aux _ small_sizes_ok small_aux_eq).
  repeat constructor; vm_compute; congruence.
Defined.

(** * Single calls *)

Section Calls.
Context (force : bool) (info : fs_info) (aux_info : fs_aux_info) (Hgeo : geometry_ok info).

Lemma get_block_spec s a ns k :
  fs_ok info aux_info s -> alloc_ok (heap s) a ns -> Forall (in_use (bgs s)) (spans ns) -> is_u32 k ->
  get_block a k s = Ok (default EXT4_ALLOCATE_FAILED (znth (blocks (spans ns)) k), s).
Proof.
  intros Hs [Hl _ Hd Hn] Hu Hk. unfold get_block. mstep. rewrite Hl. cbn [l_iter l_partial].
  rewrite Z.add_0_r, u32_small by done. pose proof (dseg_length _ _ _ _ Hd Hn).
  apply (find_block_spec s _ None); [done|lia| |done]. eapply Forall_impl; [exact Hu|].
  intros sp Hsp. pose proof (in_use_bounds info aux_info _ _ (proj1 Hs) Hsp). unfold is_u32. lia.
Qed.

Lemma alloc_zlen l ns : groups_ok info aux_info l -> Forall (in_use l) (spans ns) -> zlen (blocks (spans ns)) = total (spans ns).
Proof. intros Hl Hu. apply zlen_blocks. eapply Forall_impl; [exact Hu|]. intros sp [H _]. lia. Qed.

Lemma allocate_reduce_spec n k s a s1 :
  fs_ok info aux_info s -> 0 < n < 2 ^ 32 -> 0 <= k <= n -> allocate_blocks force n s = Ok (Some a, s1) ->
  exists a' s2, reduce_allocation a k s1 = Ok (a', s2) /\ fs_ok info aux_info s2 /\
    alloc_blocks s2 a' = ztake (n - k) (alloc_blocks s1 a) /\
    forall B, used info (bgs s2) B <-> used info (bgs s) B \/ B ∈ ztake (n - k) (alloc_blocks s1 a).
Proof.
  intros Hs Hn Hk Hrun. pose proof (allocate_blocks_spec force info aux_info Hgeo n s Hs Hn) as H.
  rewrite Hrun in H. destruct (n <=? capacity (bgs s)).
  2:{ destruct force; [|done]. by destruct H as (ns & s' & [= <- <-] & _). }
  destruct H as (a0 & ns & s' & [= <- <-] & Ha & Hx & Ht).
  pose proof (ex_ok _ _ _ _ _ _ Hx) as Hs1. pose proof (ex_new _ _ _ _ _ _ Hx) as Hu. pose proof (ex_nodup _ _ _ _ _ _ Hx) as Hb.
  pose proof Ha as [Hl Ho Hd Hnd]. pose proof (dseg_length _ _ _ _ Hd Hnd).
  destruct (reduce_loop_spec info aux_info Hgeo (S (size (heap s1))) ns k s1) as (ns' & freed & s2 & Hr & Hgb & Hz);
    [done..|lia|lia|lia|].
  exists (set_list (list_of ns') a), s2. split.
  { unfold reduce_allocation. mstep. rewrite Hl. change (RegionList _ _ _ _) with (list_of ns). mstep. done. }
  split; [apply Hgb|]. destruct (gb_prefix _ _ _ _ _ _ _ Hgb) as [rest Hpre].
  assert (Ha' : alloc_ok (heap s2) (set_list (list_of ns') a) ns').
  { split; [done|done|apply Hgb|]. rewrite Hpre in Hnd. by apply NoDup_app in Hnd as (? & _). }
  rewrite (alloc_blocks_spec _ _ _ Ha), (alloc_blocks_spec _ _ _ Ha'), (gb_blocks _ _ _ _ _ _ _ Hgb).
  assert (Hlen : n - k = zlen (blocks (spans ns'))).
  { pose proof (alloc_zlen _ _ (proj1 Hs1) Hu) as Hz'. rewrite (gb_blocks _ _ _ _ _ _ _ Hgb), zlen_app in Hz'. lia. }
  rewrite ztake_app_exact by done. split; [done|]. intros B.
  rewrite (gb_used _ _ _ _ _ _ _ Hgb), (ex_used _ _ _ _ _ _ Hx), (gb_blocks _ _ _ _ _ _ _ Hgb), elem_of_app.
  pose proof (ex_fresh _ _ _ _ _ _ Hx B) as Hfr. rewrite (gb_blocks _ _ _ _ _ _ _ Hgb) in Hb, Hfr.
  apply NoDup_app in Hb as (_ & Hb & _). specialize (Hb B). rewrite elem_of_app in Hfr. tauto.
Qed.
End Calls.

(** C17: in a well-formed state, and for a number [n] of blocks that is not 0 and
    has 32 bits, [allocate_blocks] succeeds exactly when the holes of all groups
    together have room for [n] blocks.  The allocation then has [n] blocks, all
    different and all free before, the blocks in use are those before and these,
    and [get_block] returns them in order, and EXT4_ALLOCATE_FAILED behind the
    end.  Without room it leaves by [longjmp] when [force] is not set; when
    [force] is set it returns NULL, and the regions it had taken on the way are
    lost: the state is well formed, what was in use still is, and no hole is left
    in any group. *)
Theorem allocate_blocks_exact force info aux_info n s :
  geometry_ok info -> fs_ok info aux_info s -> 0 < n < 2 ^ 32 ->
  if n <=? capacity (bgs s) then
    exists a s', allocate_blocks force n s = Ok (Some a, s') /\ fs_ok info aux_info s' /\
      let bl := alloc_blocks s' a in
      zlen bl = n /\ NoDup bl /\ (forall B, B ∈ bl -> ~ used info (bgs s) B) /\
      (forall B, used info (bgs s') B <-> used info (bgs s) B \/ B ∈ bl) /\
      (forall k, is_u32 k -> get_block a k s' = Ok (default EXT4_ALLOCATE_FAILED (znth bl k), s'))
  else if force then exists s', allocate_blocks force n s = Ok (None, s') /\ fs_ok info aux_info s' /\
      (forall B, used info (bgs s) B -> used info (bgs s') B) /\ capacity (bgs s') = 0
  else allocate_blocks force n s = CheckFailed.
Proof.
  intros Hgeo Hs Hn. pose proof (allocate_blocks_spec force info aux_info Hgeo n s Hs Hn) as H.
  destruct (n <=? capacity (bgs s)); [|destruct force; [|done]].
  - destruct H as (a & ns & s' & Hrun & Ha & Hx & Ht). exists a, s'. split; [done|]. split; [apply Hx|].
    cbn zeta. rewrite (alloc_blocks_spec _ _ _ Ha).
    split; [by rewrite (alloc_zlen info aux_info _ _ (proj1 (ex_ok _ _ _ _ _ _ Hx)) (ex_new _ _ _ _ _ _ Hx))|].
    split; [apply Hx|]. split; [apply Hx|]. split; [apply Hx|]. intros k Hk.
    by apply (get_block_spec info aux_info); [apply Hx| |apply Hx|].
  - destruct H as (ns & s' & Hrun & Hx & Hc). exists s'. split; [done|]. split; [apply Hx|]. split; [|done].
    intros B HB. apply Hx. by left.
Qed.

(** The state after the example file system was set up. *)
Definition small_fs : fs :=
  match block_allocator_init false small_info small_aux fs_empty with Ok (_, s) => s | _ => fs_empty end.

Lemma small_fs_ok : fs_ok small_info small_aux small_fs.
Proof.
  pose proof small_sizes_ok as Hsz. destruct (aux_info_fits _ _ Hsz small_aux_eq) as [Hg0 Hfit].
  destruct (block_allocator_init_spec false small_info small_aux (so_geometry _ Hsz) fs_empty Hg0 Hfit)
    as (s0 & Hrun & Hs0 & _); [intros p _; apply lookup_empty|].
  unfold small_fs. by rewrite Hrun.
Qed.

Lemma allocate_blocks_exact_witness :
  exists a s', allocate_blocks false 70 small_fs = Ok (Some a, s') /\ fs_ok small_info small_aux s' /\
    zlen (alloc_blocks s' a) = 70.
Proof.
  pose proof (allocate_blocks_exact false small_info small_aux 70 small_fs (so_geometry _ small_sizes_ok) small_fs_ok
    ltac:(lia)) as H.
  replace (70 <=? capacity (bgs small_fs)) with true in H by (vm_compute; reflexivity).
  destruct H as (a & s' & H1 & H2 & H3 & _). exists a, s'. split; [exact H1|]. split; [exact H2|exact H3].
Defined.

(** C33: giving back the last [k] blocks of an allocation of [n], in a well-formed
    state, with [n] neither 0 nor above 32 bits, [k] at most [n]: the allocation
    keeps its first [n - k] blocks, and the blocks in use are those before the
    allocation and these; with [k = n] the bitmaps are as they were. *)
Theorem allocate_reduce_exact force info aux_info n k s a s1 :
  geometry_ok info -> fs_ok info aux_info s -> 0 < n < 2 ^ 32 -> 0 <= k <= n ->
  allocate_blocks force n s = Ok (Some a, s1) ->
  exists a' s2, reduce_allocation a k s1 = Ok (a', s2) /\ fs_ok info aux_info s2 /\
    alloc_blocks s2 a' = ztake (n - k) (alloc_blocks s1 a) /\
    forall B, used info (bgs s2) B <-> used info (bgs s) B \/ B ∈ ztake (n - k) (alloc_blocks s1 a).
Proof. intros Hgeo. by apply allocate_reduce_spec. Qed.

Lemma allocate_reduce_exact_witness :
  exists a s1 a' s2, allocate_blocks false 70 small_fs = Ok (Some a, s1) /\
    reduce_allocation a 60 s1 = Ok (a', s2) /\ alloc_blocks s2 a' = ztake 10 (alloc_blocks s1 a).
Proof.
  destruct (allocate_blocks false 70 small_fs) as [[[a|] s1]| |] eqn:E; try (vm_compute in E; discriminate E).
  destruct (allocate_reduce_exact false small_info small_aux 70 60 small_fs a s1 (so_geometry _ small_sizes_ok)
    small_fs_ok ltac:(lia) ltac:(lia) E) as (a' & s2 & H1 & _ & H2 & _).
  exists a, s1, a', s2. split; [reflexivity|]. split; [exact H1|exact H2].
Defined.
