(* ===== verification/Ext4BestFit.v ===== *)
(** Which hole [ext4_allocate_best_fit_partial] takes. *)
From stdpp Require Import base gmap list numbers strings.
From Stdlib Require Import ZArith Lia.
From S2P Require Import Prelude Ext4Base Ext4Allocate Ext4Bitmap Ext4Blocks Ext4Use Ext4Lists Ext4Alloc Ext4Init Ext4Safety.

(** No hole of any group could have given more of the [n] blocks than [r] has. *)
Definition serves_best (n : Z) (l : list block_group_info) (r : region) : Prop :=
  forall (i j : nat) bg a b, l !! i = Some bg -> hole (chunks bg) j a b -> Z.min n (b - a) <= r_len r.

(** C38: one search returns a region of as many blocks as were asked for when any
    hole of any group has room for them, and otherwise one as large as the largest
    hole: no hole could have served the request better.  When all groups are full
    it changes nothing and returns NULL with [force], and leaves by [longjmp]
    without.  (In a well-formed state, for a 32-bit number of blocks above 0.) *)
Theorem best_fit_region force info aux_info n s :
  geometry_ok info -> fs_ok info aux_info s -> 0 < n < 2 ^ 32 ->
  if 0 <? capacity (bgs s) then
    exists p r s', ext4_allocate_best_fit_partial force n s = Ok (Some p, s') /\ heap s' !! p = Some r /\
      fs_ok info aux_info s' /\ 0 < r_len r <= n /\
      (forall B, r_block r <= B < r_block r + r_len r -> ~ used info (bgs s) B /\ used info (bgs s') B) /\
      serves_best n (bgs s) r
  else ext4_allocate_best_fit_partial force n s = if force then Ok (None, s) else CheckFailed.
Proof.
  intros Hgeo Hs Hn. pose proof (partial_spec force info aux_info Hgeo n s Hs Hn) as H.
  destruct (0 <? capacity (bgs s)); [|done].
  destruct H as (sp & s' & Hrun & Hx & Hheap & Hlen & Hbest).
  exists (brk s), (region_of sp None None), s'. split; [done|]. split; [by rewrite Hheap, lookup_insert_eq|].
  split; [apply Hx|]. split; [done|]. split; [|done]. intros B HB.
  assert (HB' : B ∈ blocks (spans [(brk s, sp)])).
  { apply elem_of_blocks. exists sp. split; [by apply list_elem_of_singleton|done]. }
  split; [by apply Hx|]. apply Hx. by right.
Qed.

Lemma best_fit_region_witness :
  exists p r s', ext4_allocate_best_fit_partial false 100 small_fs = Ok (Some p, s') /\
    heap s' !! p = Some r /\ 0 < r_len r <= 100.
Proof.
  pose proof (best_fit_region false small_info small_aux 100 small_fs (so_geometry _ small_sizes_ok) small_fs_ok
    ltac:(lia)) as H.
  replace (0 <? capacity (bgs small_fs)) with true in H by (vm_compute; reflexivity).
  destruct H as (p & r & s' & H1 & H2 & _ & H3 & _). exists p, r, s'. split; [exact H1|]. split; [exact H2|exact H3].
Defined.

(** A group with holes of 3, 20 and 30 blocks. *)
Definition three_holes : fs :=
  Fs ∅ 0 [set_blocks (replicate 16 0) 128
            (set_chunks 4 [Chunk 8 0 0; Chunk 11 2 0; Chunk 33 2 0; Chunk 65 0 0] zero_bg)] [].

(** The hole that is taken is not always the smallest that fits: when the
    first hole is too small, the search goes on as for the largest hole, and of
    holes of 3, 20 and 30 blocks a request for 10 gets part of the one of 30. *)
Theorem best_fit_not_smallest :
  hole (chunks (set_chunks 4 [Chunk 8 0 0; Chunk 11 2 0; Chunk 33 2 0; Chunk 65 0 0] zero_bg)) 1 13 33 /\
  exists p r s', ext4_allocate_best_fit_partial false 10 three_holes = Ok (Some p, s') /\
    heap s' !! p = Some r /\ r_block r = 35 /\ r_len r = 10.
Proof.
  split; [by eexists _, _|]. destruct (ext4_allocate_best_fit_partial false 10 three_holes) as [[[p|] s']| |] eqn:E;
    vm_compute in E; try discriminate E.
  injection E as <- <-. eexists _, _, _. split; [reflexivity|]. by vm_compute.
Qed.
