(* ===== verification/Ext4Inode.v ===== *)
(** The inode allocator of allocate.c: inodes are handed out in order, so that
    the bitmaps, free counts and first free inodes of all groups together are a
    single counter. *)
From stdpp Require Import base gmap list numbers strings.
From Stdlib Require Import ZArith Lia.
From S2P Require Import Prelude Ext4Base Ext4Allocate Ext4Bitmap Ext4Blocks Ext4Use Ext4Lists Ext4Alloc Ext4Init Ext4Safety.

(** [for] loops of the program that call [allocate_inode] [k] times. *)
Fixpoint allocate_inodes (info : fs_info) (aux_info : fs_aux_info) (k : nat) : M (list Z) :=
  match k with
  | O => mret []
  | S k =>
      i ← allocate_inode info aux_info;
      l ← allocate_inodes info aux_info k;
      mret (i :: l)
  end.

Lemma set_inode_bits_spec n bm a :
  bytes_ok bm -> 0 <= a -> a + Z.of_nat n <= 8 * zlen bm -> 8 * zlen bm < 2 ^ 32 - 1 ->
  exists bm', set_inode_bits n bm a = Ok bm' /\ marks bm bm' a (a + Z.of_nat n).
Proof.
  revert bm a. induction n as [|n IH]; intros bm a Hok Ha Hn Hlim.
  { exists bm. split; [done|]. rewrite Z.add_0_r. by apply ranged_refl. }
  destruct (or_bit_marks bm a Hok ltac:(lia)) as (x & Hx & _ & Hm). cbn [set_inode_bits]. rewrite Hx.
  rewrite u32_small by (unfold is_u32; lia). set (bm1 := <[_ := _]> bm) in *.
  destruct (IH bm1 (a + 1)) as (bm' & -> & Hm'); [apply Hm|lia|rewrite (ranged_len _ _ _ _ _ Hm); lia..|].
  exists bm'. split; [done|]. replace (a + Z.of_nat (S n)) with (a + 1 + Z.of_nat n) by lia.
  eapply ranged_trans; [|done..]. lia.
Qed.

Section Inodes.
Context (info : fs_info) (aux_info : fs_aux_info).
Context (Hipg : 0 < inodes_per_group info <= 8 * block_size info) (Hbs : 8 * block_size info + 8 < 2 ^ 32).
Context (Hmax : groups aux_info * inodes_per_group info + 1 < 2 ^ 32).

(** The first [used] inodes of the group are taken. *)
Record inodes_ok (bg : block_group_info) (used : Z) : Prop := InodesOk {
  io_range : 0 <= used <= inodes_per_group info;
  io_first : first_free_inode bg = used + 1;
  io_free : bg_free_inodes bg = inodes_per_group info - used;
  io_bytes : bytes_ok (inode_bitmap bg);
  io_len : zlen (inode_bitmap bg) = block_size info;
  io_bits : forall k, 0 <= k < inodes_per_group info -> bit (inode_bitmap bg) k = (k <? used);
}.

(** How many of the first [m] inodes are in group [i]. *)
Definition share (m i : Z) : Z := Z.max 0 (Z.min (inodes_per_group info) (m - i * inodes_per_group info)).

(** The first [m] inodes of the file system are taken. *)
Definition counter (s : fs) (m : Z) : Prop :=
  zlen (bgs s) = groups aux_info /\
  forall (i : nat) bg, bgs s !! i = Some bg -> inodes_ok bg (share m (Z.of_nat i)).

(** The new group after the next [num] inodes of a group are taken. *)
Lemma take_inodes bg used num :
  inodes_ok bg used -> 0 <= num -> used + num <= inodes_per_group info ->
  exists bm', set_inode_bits (Z.to_nat num) (inode_bitmap bg) (first_free_inode bg -u32 1) = Ok bm' /\
    inodes_ok (set_inodes bm' (bg_free_inodes bg -u32 num) (first_free_inode bg +u32 num) bg) (used + num).
Proof.
  intros [Hr Hf Hn Hby Hl Hb] Hnum Hle.
  rewrite Hf, (u32_small (used + 1 - 1)) by (unfold is_u32; lia). replace (used + 1 - 1) with used by lia.
  destruct (set_inode_bits_spec (Z.to_nat num) (inode_bitmap bg) used) as (bm' & Hrun & Hm); [done|lia..|].
  exists bm'. split; [done|]. rewrite Z2Nat.id in Hm by lia.
  rewrite Hn, !u32_small by (unfold is_u32; lia). split; cbn.
  - lia.
  - lia.
  - lia.
  - apply Hm.
  - rewrite <- Hl. apply Hm.
  - intros k Hk. rewrite (ranged_bit _ _ _ _ _ Hm), Hb by lia.
    destruct (Z.leb_spec used k), (Z.ltb_spec k (used + num)), (Z.ltb_spec k used); cbn; done || lia.
Qed.

Lemma reserve_inodes_spec s m (i : nat) bg used num :
  counter s m -> bgs s !! i = Some bg -> share m (Z.of_nat i) = used -> 0 <= num < 2 ^ 32 ->
  if inodes_per_group info <? used + num then
    reserve_inodes (Z.of_nat i) num s = Ok (EXT4_ALLOCATE_FAILED, s)
  else exists bg', reserve_inodes (Z.of_nat i) num s = Ok (used + 1, with_bgs s (<[i := bg']> (bgs s))) /\
    inodes_ok bg' (used + num).
Proof.
  intros [Hlen Hc] Hi Hu Hnum. specialize (Hc i bg Hi). rewrite Hu in Hc. pose proof Hc as [Hr Hf Hn _ _ _].
  unfold reserve_inodes. erewrite bind_Ok by (unfold get_free_inodes; mstep; reflexivity).
  rewrite Hn. destruct (Z.ltb_spec (inodes_per_group info) (used + num)).
  - destruct (Z.ltb_spec (inodes_per_group info - used) num); [done|lia].
  - destruct (Z.ltb_spec (inodes_per_group info - used) num); [lia|].
    destruct (take_inodes bg used num Hc) as (bm' & Hrun & Hok); [lia..|].
    eexists. split; [|exact Hok]. rewrite Hn. mstep. mstep. mstep. by rewrite Hf, Hn.
Qed.

Lemma share_next m i :
  0 <= i -> 0 <= m - i * inodes_per_group info < inodes_per_group info ->
  share m i = m - i * inodes_per_group info /\ share (m + 1) i = share m i + 1 /\
  forall j, 0 <= j -> j <> i -> share (m + 1) j = share m j.
Proof. intros Hi Hm. unfold share. split; [lia|]. split; [lia|]. intros j Hj Hne. nia. Qed.

(** A step of the counter, in the group it is at. *)
Lemma counter_next s m (i : nat) bg' :
  counter s m -> 0 <= m - Z.of_nat i * inodes_per_group info < inodes_per_group info ->
  inodes_ok bg' (share m (Z.of_nat i) + 1) -> counter (with_bgs s (<[i := bg']> (bgs s))) (m + 1).
Proof.
  intros [Hlen Hc] Hm Hok. destruct (share_next m (Z.of_nat i) ltac:(lia) Hm) as (_ & Hi & Hj).
  split; [cbn; by rewrite zlen_insert|]. intros j bg Hl. cbn in Hl. rewrite list_lookup_insert in Hl.
  case_decide as Hd.
  - injection Hl as <-. destruct Hd as [<- _]. by rewrite Hi.
  - destruct (decide (i = j)) as [<-|Hne].
    + exfalso. apply Hd. split; [done|]. by eapply lookup_lt_Some.
    + rewrite Hj by lia. by apply Hc.
Qed.

(** The search: groups before the counter are full. *)
Lemma allocate_inode_loop_spec n (i : nat) s m :
  counter s m -> Z.of_nat i + Z.of_nat n = groups aux_info ->
  Z.of_nat i * inodes_per_group info <= m <= groups aux_info * inodes_per_group info ->
  if m <? groups aux_info * inodes_per_group info then
    exists s', allocate_inode_loop info n (Z.of_nat i) s = Ok (m + 1, s') /\ counter s' (m + 1)
  else allocate_inode_loop info n (Z.of_nat i) s = Ok (EXT4_ALLOCATE_FAILED, s).
Proof.
  revert i. induction n as [|n IH]; intros i Hc Hn Hm.
  { destruct (Z.ltb_spec m (groups aux_info * inodes_per_group info)); [nia|done]. }
  pose proof Hc as [Hlen _]. destruct (lookup_lt_is_Some_2 (bgs s) i) as [bg Hi]; [unfold zlen in Hlen; lia|].
  pose proof (reserve_inodes_spec s m i bg _ 1 Hc Hi eq_refl ltac:(lia)) as Hres.
  cbn [allocate_inode_loop]. destruct (Z.le_gt_cases ((Z.of_nat i + 1) * inodes_per_group info) m) as [Hfull|Hroom].
  - assert (Hsh : share m (Z.of_nat i) = inodes_per_group info) by (unfold share; lia).
    rewrite Hsh in Hres. destruct (Z.ltb_spec (inodes_per_group info) (inodes_per_group info + 1)); [|lia].
    rewrite (bind_Ok _ _ _ _ _ Hres). rewrite Z.eqb_refl. cbn [negb].
    replace (Z.of_nat i + 1) with (Z.of_nat (S i)) by lia. apply IH; [done|lia|lia].
  - destruct (share_next m (Z.of_nat i) ltac:(lia) ltac:(lia)) as (Hsh & _). rewrite Hsh in Hres.
    destruct (Z.ltb_spec (inodes_per_group info) (m - Z.of_nat i * inodes_per_group info + 1)); [lia|].
    destruct Hres as (bg' & Hrun & Hok). rewrite (bind_Ok _ _ _ _ _ Hrun).
    unfold EXT4_ALLOCATE_FAILED, UINT32_MAX.
    destruct (Z.eqb_spec (m - Z.of_nat i * inodes_per_group info + 1) (2 ^ 32 - 1)); [lia|]. cbn [negb].
    destruct (Z.ltb_spec m (groups aux_info * inodes_per_group info)); [|nia].
    exists (with_bgs s (<[i := bg']> (bgs s))). split; [|apply counter_next; [done|lia|by rewrite Hsh]].
    unfold mret, M_ret. rewrite u32_small by (unfold is_u32; nia). do 2 f_equal. lia.
Qed.

Lemma allocate_inodes_spec k s m :
  counter s m -> 0 <= m -> m + Z.of_nat k <= groups aux_info * inodes_per_group info -> 0 <= groups aux_info ->
  exists s', allocate_inodes info aux_info k s = Ok (seqZ (m + 1) (Z.of_nat k), s') /\ counter s' (m + Z.of_nat k).
Proof.
  revert s m. induction k as [|k IH]; intros s m Hc Hm Hk Hg.
  { exists s. by rewrite Z.add_0_r. }
  pose proof (allocate_inode_loop_spec (Z.to_nat (groups aux_info)) 0 s m Hc ltac:(lia) ltac:(lia)) as H.
  destruct (Z.ltb_spec m (groups aux_info * inodes_per_group info)); [|lia].
  destruct H as (s1 & Hrun & Hc1). cbn [allocate_inodes]. unfold allocate_inode at 1. mstep.
  destruct (IH s1 (m + 1) Hc1) as (s' & Hrun' & Hc'); [lia..|]. mstep.
  exists s'. rewrite (seqZ_cons (m + 1)) by lia. rewrite <- Z.add_1_r, <- Z.sub_1_r.
  replace (Z.of_nat (S k) - 1) with (Z.of_nat k) by lia.
  replace (m + Z.of_nat (S k)) with (m + 1 + Z.of_nat k) by lia. done.
Qed.
End Inodes.

(** C36: the inode allocator hands out consecutive numbers: after the file system
    was set up and [r] inodes were reserved in the first group, as make_ext4fs
    does, [k] calls of [allocate_inode] return [r + 1] to [r + k], across groups,
    and once all are taken it fails and changes nothing.  The sizes pass [sizes_ok]
    and [ext4_create_fs_aux_info], there is a group, a group has at least one inode
    and no more than bits in a block, all inodes are below 2^32 - 1, [r] is at most
    the inodes of a group and [r + k] at most those of all. *)
Theorem inode_numbers force info aux_info r k :
  sizes_ok info -> ext4_create_fs_aux_info info = Ok aux_info -> 1 <= groups aux_info ->
  0 < inodes_per_group info <= 8 * block_size info -> groups aux_info * inodes_per_group info + 1 < 2 ^ 32 ->
  0 <= r <= inodes_per_group info -> r + Z.of_nat k <= groups aux_info * inodes_per_group info ->
  exists s0 s1 s2, block_allocator_init force info aux_info fs_empty = Ok (tt, s0) /\
    reserve_inodes 0 r s0 = Ok (1, s1) /\
    allocate_inodes info aux_info k s1 = Ok (seqZ (r + 1) (Z.of_nat k), s2) /\
    (r + Z.of_nat k = groups aux_info * inodes_per_group info ->
     allocate_inode info aux_info s2 = Ok (EXT4_ALLOCATE_FAILED, s2)).
Proof.
  intros Hsz Haux Hg Hipg Hmax Hr Hk. pose proof (so_geometry _ Hsz) as Hgeo. pose proof Hgeo as [Hg1 Hg2].
  destruct (aux_info_fits _ _ Hsz Haux) as [Hg0 Hfit].
  destruct (block_allocator_init_spec force info aux_info Hgeo fs_empty Hg0 Hfit) as (s0 & Hrun & _ & Hlen & Hino).
  { intros p _. apply lookup_empty. }
  assert (Hc0 : counter info aux_info s0 0).
  { split; [done|]. intros i bg Hi. specialize (Hino i bg Hi). unfold inodes_of in Hino.
    injection Hino as Hb Hf Hff. assert (Hsh : share info 0 (Z.of_nat i) = 0) by (unfold share; nia). rewrite Hsh.
    split; rewrite ?Hb, ?Hf, ?Hff; cbn; try lia.
    - apply bytes_ok_zeros.
    - rewrite zlen_replicate. lia.
    - intros j Hj. rewrite bit_zeros. destruct (Z.ltb_spec j 0); [lia|done]. }
  destruct (lookup_lt_is_Some_2 (bgs s0) 0) as [bg Hi]; [unfold zlen in Hlen; lia|].
  pose proof (reserve_inodes_spec info aux_info Hipg Hg2 s0 0 0 bg _ r Hc0 Hi eq_refl ltac:(lia)) as Hres.
  assert (Hsh : share info 0 (Z.of_nat 0) = 0) by (unfold share; lia). rewrite Hsh, !Z.add_0_l in Hres.
  destruct (Z.ltb_spec (inodes_per_group info) r); [lia|]. destruct Hres as (bg' & Hres & Hok).
  assert (Hc1 : counter info aux_info (with_bgs s0 (<[0%nat := bg']> (bgs s0))) r).
  { destruct Hc0 as [_ Hc0]. split; [cbn; by rewrite zlen_insert|]. intros i b Hb. cbn in Hb.
    destruct i as [|i].
    - rewrite list_lookup_insert_eq in Hb by (unfold zlen in Hlen; lia). injection Hb as <-.
      replace (share info r (Z.of_nat 0)) with r by (unfold share; lia). done.
    - rewrite list_lookup_insert_ne in Hb by done. specialize (Hc0 _ _ Hb).
      replace (share info r (Z.of_nat (S i))) with (share info 0 (Z.of_nat (S i))) by (unfold share; nia). done. }
  destruct (allocate_inodes_spec info aux_info Hipg Hg2 Hmax k _ r Hc1 ltac:(lia) Hk ltac:(lia)) as (s2 & Hall & Hc2).
  exists s0, (with_bgs s0 (<[0%nat := bg']> (bgs s0))), s2. split; [done|]. split; [done|]. split; [done|].
  intros Hend. pose proof (allocate_inode_loop_spec info aux_info Hipg Hg2 Hmax (Z.to_nat (groups aux_info)) 0 s2 _ Hc2) as H'.
  specialize (H' ltac:(lia) ltac:(lia)). rewrite Hend, Z.ltb_irrefl in H'. exact H'.
Qed.

Lemma inode_numbers_witness :
  exists s0 s1 s2, block_allocator_init false small_info small_aux fs_empty = Ok (tt, s0) /\
    reserve_inodes 0 10 s0 = Ok (1, s1) /\
    allocate_inodes small_info small_aux 22 s1 = Ok (seqZ 11 22, s2) /\
    (10 + 22 = 2 * 16 -> allocate_inode small_info small_aux s2 = Ok (EXT4_ALLOCATE_FAILED, s2)).
Proof.
  apply (inode_numbers false small_info small_aux 10 22 small_sizes_ok small_aux_eq); vm_compute; intuition congruence.
Defined.
