(* ===== verification/Ext4Extent.v ===== *)
(** Model of src/ext4_utils/extent.c: the extent tree of an inode.

    The functions write through pointers into the inode and into a block of
    extents that they allocate; both are byte arrays here, so that a write
    behind their end is [OutOfBounds].  The block of extents is returned, as
    its contents are filled in after it was queued for the image. *)
From stdpp Require Import base gmap list numbers strings.
From Stdlib Require Import ZArith Lia.
From S2P Require Import Prelude Utils Ext4Base Ext4Allocate.

(** The fields of [struct ext4_inode] that extent.c writes; [i_block] is an
    array of 15 words. *)
Record ext4_inode := Inode {
  i_flags : Z;
  i_size_lo : Z;
  i_size_high : Z;
  i_blocks_lo : Z;
  l_i_blocks_high : Z;
  i_block : bytes;
}.

Definition EXT4_EXT_MAGIC : Z := 0xf30a.
Definition EXT4_EXTENTS_FL : Z := 0x80000.

(** ** On-disk structures *)

Record ext4_extent_header := ExtentHeader {
  eh_magic : Z;
  eh_entries : Z;
  eh_max : Z;
  eh_depth : Z;
  eh_generation : Z;
}.

Definition extent_header_codec : codec ext4_extent_header :=
  struct_codec (pair_codec uint16_t (pair_codec uint16_t (pair_codec uint16_t (pair_codec uint16_t uint32_t))))
    (fun '(a, (b, (c, (d, e)))) => ExtentHeader a b c d e)
    (fun h => (eh_magic h, (eh_entries h, (eh_max h, (eh_depth h, eh_generation h))))).

Record ext4_extent := Extent {
  ee_block : Z;
  ee_len : Z;
  ee_start_hi : Z;
  ee_start_lo : Z;
}.

Definition extent_codec : codec ext4_extent :=
  struct_codec (pair_codec uint32_t (pair_codec uint16_t (pair_codec uint16_t uint32_t)))
    (fun '(a, (b, (c, d))) => Extent a b c d)
    (fun e => (ee_block e, (ee_len e, (ee_start_hi e, ee_start_lo e)))).

Record ext4_extent_idx := ExtentIdx {
  ei_block : Z;
  ei_leaf_lo : Z;
  ei_leaf_hi : Z;
  ei_unused : Z;
}.

Definition extent_idx_codec : codec ext4_extent_idx :=
  struct_codec (pair_codec uint32_t (pair_codec uint32_t (pair_codec uint16_t uint16_t)))
    (fun '(a, (b, (c, d))) => ExtentIdx a b c d)
    (fun e => (ei_block e, (ei_leaf_lo e, (ei_leaf_hi e, ei_unused e)))).

Section Extents.
Context (force : bool) (info : fs_info).

(** [for (; !last_region(alloc); extent++, get_next_region(alloc))]; [p] is the
    offset of [extent] in [m]. *)
Fixpoint write_extents (fuel : nat) (m : bytes) (p file_block : Z) (alloc : block_allocation) :
    M (bytes * block_allocation) :=
  if last_region alloc then mret (m, alloc)
  else
    match fuel with
    | O => diverge
    | S fuel =>
        '(region_block, region_len) ← get_region alloc;
        m ← lift (mem_write m p (enc extent_codec (Extent file_block region_len 0 region_block)));
        alloc ← get_next_region alloc;
        write_extents fuel m (p + sizeof extent_codec) (file_block +u32 region_len) alloc
    end.

(** The blocks for the file and one for extents. *)
Definition allocate_for_extents (block_len : Z) (prealloc : option block_allocation) :
    M (option block_allocation) :=
  match prealloc with
  | None =>
      alloc ← allocate_blocks force (block_len +u32 1);
      match alloc with
      | None => merror force;; mret None
      | Some alloc => mret (Some alloc)
      end
  | Some prealloc =>
      prealloc_block_len ← block_allocation_len prealloc;
      if prealloc_block_len <? block_len +u32 1 then
        alloc ← allocate_blocks force (block_len +u32 1 -u32 prealloc_block_len);
        match alloc with
        | None => merror force;; mret None
        | Some alloc =>
            l ← region_list_merge (a_list prealloc) (a_list alloc);
            mret (Some (set_list l prealloc))
        end
      else mret (Some prealloc)
  end.

Definition set_i_block (b : bytes) (inode : ext4_inode) : ext4_inode :=
  Inode (i_flags inode) (i_size_lo inode) (i_size_high inode) (i_blocks_lo inode)
    (l_i_blocks_high inode) b.

(** The fields of the inode that describe its size. *)
Definition set_inode_size (len block_len : Z) (i_block : bytes) (inode : ext4_inode) : ext4_inode :=
  let blocks := u64 (block_len * block_size info) / 512 in
  Inode (Z.lor (i_flags inode) EXT4_EXTENTS_FL) (u32 len) (u32 (Z.shiftr len 32))
    (u32 blocks) (u16 (Z.shiftr blocks 32)) i_block.

(** Returns the allocation ([NULL] when it fails), the inode and the block of
    extents, if there is one. *)
Definition do_inode_allocate_extents (inode : ext4_inode) (len : Z) (prealloc : option block_allocation) :
    M (option block_allocation * ext4_inode * option bytes) :=
  let block_len := u32 (DIV_ROUND_UP 64 len (block_size info)) in
  alloc ← allocate_for_extents block_len prealloc;
  match alloc with
  | None => mret (None, inode, None)
  | Some alloc =>
      allocation_len ← block_allocation_num_regions alloc;
      '(alloc, allocation_len, extent_block) ←
        (if allocation_len <=? 3 then
           alloc ← reduce_allocation alloc 1;
           allocation_len ← block_allocation_num_regions alloc;
           mret (alloc, allocation_len, 0)
         else
           '(_, alloc) ← reserve_oob_blocks alloc 1;
           extent_block ← get_oob_block alloc 0;
           mret (alloc, allocation_len, extent_block) : M (block_allocation * Z * Z));
      if extent_block =? 0 then
        i_block ← lift (mem_write (i_block inode) 0
                          (enc extent_header_codec
                             (ExtentHeader EXT4_EXT_MAGIC (u16 allocation_len) 3 0 0)));
        fuel ← regions_fuel;
        '(i_block, alloc) ← write_extents fuel i_block 12 0 alloc;
        mret (Some (rewind_alloc alloc), set_inode_size len block_len i_block inode, None)
      else
        i_block ← lift (mem_write (i_block inode) 0
                          (enc extent_header_codec (ExtentHeader EXT4_EXT_MAGIC 1 3 1 0)));
        i_block ← lift (mem_write i_block 12 (enc extent_idx_codec (ExtentIdx 0 extent_block 0 0)));
        queue (sparse_file_add_data (block_size info) extent_block);;
        let data := replicate (Z.to_nat (block_size info)) 0 in
        if block_size info - 12 / 12 <? allocation_len then
          merror force;; mret (None, set_i_block i_block inode, Some data)
        else
          data ← lift (mem_write data 0
                         (enc extent_header_codec
                            (ExtentHeader EXT4_EXT_MAGIC (u16 allocation_len)
                               (u16 ((block_size info - 12) / 12)) 0 0)));
          fuel ← regions_fuel;
          '(data, alloc) ← write_extents fuel data 12 0 alloc;
          mret (Some (rewind_alloc alloc), set_inode_size len (block_len +u32 1) i_block inode, Some data)
  end.

(** ** Backing *)

(** [for (; alloc != NULL && backing_len > 0; get_next_region(alloc))]: each
    iteration queues a region. *)
Fixpoint create_backing (fuel : nat) (op : Z -> Z -> Z -> sparse_op) (alloc : block_allocation)
    (offset backing_len : Z) : M block_allocation :=
  if 0 <? backing_len then
    match fuel with
    | O => diverge
    | S fuel =>
        '(region_block, region_len) ← get_region alloc;
        let len := u32 (Z.min (u32 (region_len * block_size info)) backing_len) in
        queue (op offset len region_block);;
        alloc ← get_next_region alloc;
        create_backing fuel op alloc (offset + len) (backing_len -u64 len)
    end
  else mret alloc.

Definition extent_create_backing (alloc : block_allocation) (backing_len : Z) : M block_allocation :=
  fuel ← regions_fuel;
  create_backing fuel (fun _ len block => sparse_file_add_data len block) alloc 0 backing_len.

Definition extent_create_backing_file (alloc : block_allocation) (backing_len : Z) (filename : bytes) :
    M block_allocation :=
  fuel ← regions_fuel;
  create_backing fuel (fun offset len block => sparse_file_add_file filename offset len block)
    alloc 0 backing_len.

(** The result tells whether there is an allocation. *)
Definition inode_allocate_data_extents (inode : ext4_inode) (len backing_len : Z) :
    M (bool * ext4_inode * option bytes) :=
  '(r, inode, data) ← do_inode_allocate_extents inode len None;
  match r with
  | None => merror force;; mret (false, inode, data)
  | Some alloc =>
      alloc ← (if negb (backing_len =? 0) then extent_create_backing alloc backing_len
               else mret alloc : M block_allocation);
      free_alloc alloc;;
      mret (true, inode, data)
  end.

(** The search in [base_fs_allocations] for the blocks the file had in the base
    image; it stops at an entry without a name, which is then used. *)
Fixpoint find_prealloc (filename : bytes) (base : list block_allocation) :
    option block_allocation * list block_allocation :=
  match base with
  | [] => (None, [])
  | a :: base =>
      match a_filename a with
      | None => (Some a, base)
      | Some f =>
          if decide (f = filename) then (Some a, base)
          else let '(r, base) := find_prealloc filename base in (r, a :: base)
      end
  end.

Definition inode_allocate_file_extents (inode : ext4_inode) (len : Z) (filename : bytes)
    (base_fs_allocations : list block_allocation) :
    M (option block_allocation * ext4_inode * option bytes * list block_allocation) :=
  let '(prealloc, base) := find_prealloc filename base_fs_allocations in
  '(r, inode, data) ← do_inode_allocate_extents inode len prealloc;
  match r with
  | None => merror force;; mret (None, inode, data, base)
  | Some alloc =>
      alloc ← extent_create_backing_file alloc len filename;
      mret (Some alloc, inode, data, base)
  end.

Definition inode_allocate_extents (inode : ext4_inode) (len : Z) : M (ext4_inode * option bytes) :=
  '(r, inode, data) ← do_inode_allocate_extents inode len None;
  match r with
  | None => merror force;; mret (inode, data)
  | Some alloc => free_alloc alloc;; mret (inode, data)
  end.
End Extents.

(** * Reading an extent tree back *)

(** The extents of a node: its header says how many. *)
Definition read_node (m : bytes) : res (ext4_extent_header * list ext4_extent) :=
  '(h, p) ← MoveFromBinaryFormat extent_header_codec m 0;
  '(l, _) ← MoveFromBinaryFormatN extent_codec (eh_entries h) m p;
  Ok (h, l).

(** The extents of an inode, from the inode itself or from its block of extents. *)
Definition read_tree (inode : ext4_inode) (leaf : option bytes) : res (list ext4_extent) :=
  '(h, _) ← MoveFromBinaryFormat extent_header_codec (i_block inode) 0;
  if eh_depth h =? 0 then '(_, l) ← read_node (i_block inode); Ok l
  else match leaf with Some m => '(_, l) ← read_node m; Ok l | None => OutOfBounds end.

(** The block that holds block [k] of the file. *)
Fixpoint map_block (l : list ext4_extent) (k : Z) : option Z :=
  match l with
  | [] => None
  | e :: l =>
      if (ee_block e <=? k) && (k <? ee_block e + ee_len e) then Some (ee_start_lo e + (k - ee_block e))
      else map_block l k
  end.
