(* ===== verification/Ext4Tree.v ===== *)
(** The extent trees that extent.c writes: they map the blocks of a file to the
    blocks that were allocated for it. *)
From stdpp Require Import base gmap list numbers strings.
From Stdlib Require Import ZArith Lia.
From S2P Require Import Prelude Utils Ext4Base Ext4Allocate Ext4Bitmap Ext4Blocks Ext4Use Ext4Lists Ext4Alloc Ext4Reduce Ext4Init Ext4Safety Ext4Extent.

(** * Codecs *)

Definition header_ok (h : ext4_extent_header) : Prop :=
  is_u16 (eh_magic h) /\ is_u16 (eh_entries h) /\ is_u16 (eh_max h) /\ is_u16 (eh_depth h) /\ is_u32 (eh_generation h).
Definition extent_ok (e : ext4_extent) : Prop :=
  is_u32 (ee_block e) /\ is_u16 (ee_len e) /\ is_u16 (ee_start_hi e) /\ is_u32 (ee_start_lo e).

#[export] Instance extent_header_codec_ok : CodecOk extent_header_codec header_ok.
Proof. eapply struct_codec_ok_by; [apply _|by intros []|]. intros h (? & ? & ? & ? & ?). by split_and!. Qed.

#[export] Instance extent_codec_ok : CodecOk extent_codec extent_ok.
Proof. eapply struct_codec_ok_by; [apply _|by intros []|]. intros e (? & ? & ? & ?). by split_and!. Qed.

Lemma sizeof_extent : sizeof extent_codec = 12.
Proof. done. Qed.
Lemma sizeof_header : sizeof extent_header_codec = 12.
Proof. done. Qed.
Lemma zlen_enc_extent e : zlen (enc extent_codec e) = 12.
Proof. rewrite <- sizeof_extent. apply enc_len. Qed.
Lemma zlen_enc_header h : zlen (enc extent_header_codec h) = 12.
Proof. rewrite <- sizeof_header. apply enc_len. Qed.
#[export] Hint Rewrite zlen_enc_extent zlen_enc_header : zlen.

Lemma header_ok_intro e m d :
  is_u16 e -> is_u16 m -> is_u16 d -> header_ok (ExtentHeader EXT4_EXT_MAGIC e m d 0).
Proof. intros. by split_and!. Qed.

(** * Writing extents *)

(** The regions can be reached from the first one; the links back may be stale. *)
Fixpoint fseg (h : gmap Z region) (ns : list node) : Prop :=
  match ns with
  | [] => True
  | (p, sp) :: ns => (exists prev, h !! p = Some (region_of sp (head_addr ns None) prev)) /\ fseg h ns
  end.

Lemma dseg_fseg h prev ns : dseg h prev ns None -> fseg h ns.
Proof.
  revert prev. induction ns as [|[p sp] ns IH]; intros prev; [done|]. cbn. intros [H1 H2].
  split; [by eexists|by eapply IH].
Qed.

Lemma fseg_frame h h' ns : (forall p, p ∈ ns.*1 -> h' !! p = h !! p) -> fseg h ns -> fseg h' ns.
Proof.
  induction ns as [|[p sp] ns IH]; intros H; [done|]. cbn. intros [(prev & H1) H2]. split.
  - exists prev. rewrite H; [done|]. cbn. by left.
  - apply IH; [|done]. intros q Hq. apply H. cbn. by right.
Qed.

(** The extents of a list of regions, for a file from block [fb] on. *)
Fixpoint extents_of (sps : list span) (fb : Z) : list ext4_extent :=
  match sps with
  | [] => []
  | sp :: sps => Extent fb (sp_len sp) 0 (sp_block sp) :: extents_of sps (fb + sp_len sp)
  end.

Lemma length_extents_of sps fb : zlen (extents_of sps fb) = zlen sps.
Proof. revert fb. induction sps as [|sp sps IH]; intros fb; [done|]. cbn. by rewrite !zlen_cons, IH. Qed.

Definition done_alloc (alloc : block_allocation) : block_allocation :=
  set_list (RegionList (l_first (a_list alloc)) (l_last (a_list alloc)) None 0) alloc.

Section Write.
Context (s : fs).

Lemma write_extents_step fuel p sp ns alloc m pre rest fb :
  fseg (heap s) ((p, sp) :: ns) -> l_iter (a_list alloc) = Some p -> l_partial (a_list alloc) = 0 ->
  is_u32 (sp_len sp) -> is_u32 (fb + sp_len sp) -> m = pre ++ rest ->
  write_extents (S fuel) m (zlen pre) fb alloc s =
    if 12 <=? zlen rest then
      let e := Extent fb (sp_len sp) 0 (sp_block sp) in
      write_extents fuel ((pre ++ enc extent_codec e) ++ zdrop 12 rest) (zlen (pre ++ enc extent_codec e))
        (fb + sp_len sp)
        (set_list (RegionList (l_first (a_list alloc)) (l_last (a_list alloc)) (head_addr ns None) 0) alloc) s
    else OutOfBounds.
Proof.
  intros [(prev & Hp) _] Hi Hpart Hl Hu ->. cbn [write_extents]. unfold last_region. rewrite Hi, bool_decide_false by done.
  set (e := Extent _ _ _ _).
  assert (Hreg : get_region alloc s = Ok ((sp_block sp, sp_len sp), s)).
  { unfold get_region. rewrite Hi. mstep. cbn. by rewrite Hpart, Z.sub_0_r, u32_small. }
  rewrite (bind_Ok _ _ _ _ _ Hreg). cbn beta iota. fold e.
  destruct (Z.leb_spec 12 (zlen rest)) as [Hle|Hgt].
  - rewrite mem_write_app by (done || by rewrite zlen_enc_extent). mstep.
    assert (Hnext : get_next_region alloc s =
      Ok (set_list (RegionList (l_first (a_list alloc)) (l_last (a_list alloc)) (head_addr ns None) 0) alloc, s)).
    { unfold get_next_region. rewrite Hi. mstep. done. }
    rewrite (bind_Ok _ _ _ _ _ Hnext). rewrite u32_small by done. autorewrite with zlen.
    rewrite sizeof_extent, <- app_assoc. done.
  - unfold mem_write. autorewrite with zlen.
    destruct (Z.leb_spec (zlen pre + 12) (zlen pre + zlen rest)); [lia|]. by rewrite andb_false_r.
Qed.

Lemma write_extents_spec fuel ns alloc pre rest fb :
  fseg (heap s) ns -> (length ns <= fuel)%nat ->
  l_iter (a_list alloc) = head_addr ns None -> l_partial (a_list alloc) = 0 ->
  Forall (fun sp => 0 <= sp_len sp) (spans ns) -> 0 <= fb -> fb + total (spans ns) < 2 ^ 32 ->
  write_extents fuel (pre ++ rest) (zlen pre) fb alloc s =
    if 12 * zlen ns <=? zlen rest then
      Ok (((pre ++ enc_array extent_codec (extents_of (spans ns) fb)) ++ zdrop (12 * zlen ns) rest, done_alloc alloc), s)
    else OutOfBounds.
Proof.
  revert fuel alloc pre rest fb. induction ns as [|[p sp] ns IH]; intros fuel alloc pre rest fb Hs Hf Hi Hp Hpos Hfb Hlim.
  { change (12 * zlen (@nil node)) with 0. pose proof (zlen_nonneg rest). destruct (Z.leb_spec 0 (zlen rest)); [|lia].
    assert (Hd : done_alloc alloc = alloc) by (destruct alloc as [[] ? ?]; cbn in *; by subst).
    rewrite Hd. cbn. rewrite app_nil_r, zdrop_0. destruct fuel; cbn; unfold last_region; by rewrite Hi, bool_decide_true. }
  destruct fuel as [|fuel]; cbn in Hf; [lia|]. cbn in Hpos. apply Forall_cons in Hpos as [Hsp Hpos].
  fold (spans ns) in Hpos. pose proof (total_nonneg _ Hpos). cbn in Hlim. fold (spans ns) in Hlim.
  rewrite (write_extents_step fuel p sp ns alloc _ pre rest fb Hs Hi Hp) by (done || unfold is_u32; lia).
  rewrite zlen_cons. destruct Hs as [_ Hs]. cbn zeta.
  pose proof (zlen_nonneg ns). destruct (Z.leb_spec 12 (zlen rest)) as [Hle|Hgt].
  2:{ destruct (Z.leb_spec (12 * (1 + zlen ns)) (zlen rest)); [lia|done]. }
  rewrite IH by (done || lia). rewrite zlen_zdrop by lia.
  replace (12 * zlen ns <=? zlen rest - 12) with (12 * (1 + zlen ns) <=? zlen rest)
    by (destruct (Z.leb_spec (12 * (1 + zlen ns)) (zlen rest)), (Z.leb_spec (12 * zlen ns) (zlen rest - 12)); done || lia).
  destruct (12 * (1 + zlen ns) <=? zlen rest); [|done].
  rewrite zdrop_zdrop by lia. replace (12 + 12 * zlen ns) with (12 * (1 + zlen ns)) by lia.
  cbn [extents_of spans fmap list_fmap snd enc_array]. by rewrite <- (app_assoc pre).
Qed.
End Write.

(** * Reading them back *)

Lemma extents_of_ok sps fb :
  Forall (fun sp => is_u16 (sp_len sp) /\ is_u32 (sp_block sp)) sps -> 0 <= fb -> fb + total sps < 2 ^ 32 ->
  Forall extent_ok (extents_of sps fb).
Proof.
  intros H. revert fb. induction H as [|sp sps [H1 H2] Hall IH]; intros fb Hfb Hlim; [constructor|].
  cbn in Hlim. assert (0 <= total sps).
  { apply total_nonneg. eapply Forall_impl; [exact Hall|]. intros x [Hx _]. unfold is_u16 in Hx. lia. }
  unfold is_u16 in H1. cbn [extents_of]. constructor.
  - split_and!; unfold is_u32, is_u16; cbn; done || lia.
  - apply IH; lia.
Qed.

Lemma read_node_spec h exts rest :
  header_ok h -> eh_entries h = zlen exts -> Forall extent_ok exts ->
  read_node (enc extent_header_codec h ++ enc_array extent_codec exts ++ rest) = Ok (h, exts).
Proof.
  intros Hh Hn Hx. unfold read_node.
  rewrite (MoveFrom_at extent_header_codec header_ok _ 0 h) by (done || apply bytes_at_intro).
  cbn [mbind res_bind]. rewrite Z.add_0_l, sizeof_header.
  assert (is_u16 (eh_entries h)) as Hu by apply Hh. unfold is_u16 in Hu.
  rewrite (MoveFromN_at extent_codec extent_ok _ 12 exts (eh_entries h)); [done| |done|done|rewrite sizeof_extent; lia].
  exists (enc extent_header_codec h), rest. split; [done|]. by autorewrite with zlen.
Qed.

Lemma map_block_spec sps fb k :
  Forall (fun sp => 0 <= sp_len sp) sps -> fb <= k < fb + total sps ->
  map_block (extents_of sps fb) k = znth (blocks sps) (k - fb).
Proof.
  intros H. revert fb. induction H as [|sp sps Hsp _ IH]; intros fb Hk; cbn in Hk; [lia|].
  change (blocks (sp :: sps)) with (seqZ (sp_block sp) (sp_len sp) ++ blocks sps).
  cbn [extents_of map_block ee_block ee_len ee_start_lo]. rewrite znth_lookup by lia.
  destruct (Z.leb_spec fb k); [|lia]. cbn [andb]. destruct (Z.ltb_spec k (fb + sp_len sp)).
  - rewrite lookup_app_l by (rewrite length_seqZ; lia). rewrite lookup_seqZ_lt by lia. f_equal. lia.
  - rewrite IH by lia. rewrite lookup_app_r by (rewrite length_seqZ; lia). rewrite length_seqZ, znth_lookup by lia.
    f_equal. lia.
Qed.

(** * Setting one block apart *)

Lemma last_addr_in prev ns : ns <> [] -> exists q, last_addr prev ns = Some q /\ q ∈ ns.*1.
Proof.
  destruct ns as [|[q sq] ns _] using rev_ind; [done|]. intros _. exists q. rewrite last_addr_snoc. split; [done|].
  rewrite fmap_app. apply elem_of_app. right. by apply list_elem_of_singleton.
Qed.

(** A list whose iterator is at the second region: the first one moves to the
    other, empty, list. *)
Lemma move_first fuel s alloc p q rp rq lst :
  a_list alloc = RegionList (Some p) lst (Some q) 0 -> a_oob_list alloc = empty_list ->
  lst <> Some p -> p <> q -> heap s !! p = Some rp -> heap s !! q = Some rq ->
  r_prev rp = None -> r_next rp = Some q ->
  move_oob (S (S fuel)) alloc (Some p) s =
    Ok (set_oob_list (RegionList (Some p) (Some p) (Some p) 0)
          (set_list (RegionList (Some q) lst (Some q) 0) alloc),
        with_heap s (<[p := set_next None rp]> (<[q := set_prev None rq]> (heap s)))).
Proof.
  intros Hl Ho Hlast Hpq Hp Hq Hprev Hnext.
  set (hq := <[q := set_prev None rq]> (heap s)).
  assert (Hpp : hq !! p = Some rp) by (unfold hq; by rewrite lookup_insert_ne).
  set (h2 := <[p := set_next None rp]> hq).
  assert (Hrem : region_list_remove (a_list alloc) (Some p) s =
    Ok (RegionList (Some q) lst (Some q) 0, with_heap s h2)).
  { unfold region_list_remove. mstep. rewrite Hprev. erewrite bind_Ok by reflexivity. mstep.
    rewrite Hnext, Hprev. mstep. erewrite bind_Ok by (eapply load_Ok; exact Hpp).
    rewrite Hl. cbn [l_first l_last l_iter l_partial]. rewrite decide_True, decide_False by done.
    erewrite bind_Ok by (eapply store_Ok; exact Hpp).
    erewrite bind_Ok by (eapply store_Ok; apply lookup_insert_eq).
    rewrite Hnext. unfold mret, M_ret, with_heap. cbn [heap brk bgs sparse]. rewrite insert_insert_eq.
    unfold h2, set_prev, set_next. cbn. by rewrite Hprev. }
  assert (Happ : region_list_append empty_list (Some p) (with_heap s h2) =
    Ok (RegionList (Some p) (Some p) (Some p) 0, with_heap s h2)).
  { unfold region_list_append. cbn [l_first empty_list]. erewrite bind_Ok.
    2:{ erewrite bind_Ok by (eapply store_Ok; apply lookup_insert_eq). reflexivity. }
    erewrite bind_Ok by (eapply store_Ok; apply lookup_insert_eq).
    unfold mret, M_ret, with_heap. cbn [heap brk bgs sparse]. unfold h2. rewrite !insert_insert_eq.
    unfold set_prev, set_next. cbn. by rewrite Hprev. }
  cbn [move_oob]. rewrite Hl. cbn [l_iter]. rewrite decide_False by (intros [= ?]; done).
  mstep. rewrite <- Hl. mstep. rewrite Ho. mstep. rewrite Hnext. cbn [a_list set_oob_list set_list l_iter].
  rewrite decide_True by done. done.
Qed.

(** [reserve_oob_blocks] for one block, when the first region has more than one:
    the region is split, and its first block moves to the other list. *)
Lemma reserve_oob_first s alloc p sp ns :
  alloc_ok (heap s) alloc ((p, sp) :: ns) -> ns <> [] -> p <> brk s ->
  1 < sp_len sp < 2 ^ 32 -> 0 <= sp_block sp -> sp_block sp + 1 < 2 ^ 32 ->
  let q := brk s in
  let sp' := Span (sp_block sp + 1) (sp_len sp - 1) (sp_bg sp) in
  exists h, reserve_oob_blocks alloc 1 s =
      Ok ((0, set_oob_list (RegionList (Some p) (Some p) (Some p) 0)
                (set_list (RegionList (Some q) (last_addr None ((p, sp) :: ns)) (Some q) 0) alloc)),
          Fs h (brk s + 1) (bgs s) (sparse s)) /\
    h !! p = Some (region_of (Span (sp_block sp) 1 (sp_bg sp)) None None) /\
    h !! q = Some (region_of sp' (head_addr ns None) None) /\
    (forall r, r <> p -> r <> q -> h !! r = heap s !! r).
Proof.
  intros [Hl Ho [Hp Hd] Hn] Hns Hpq Hlen Hb0 Hb1 q sp'. cbn in Hp.
  cbn [list_fmap fmap fst] in Hn. apply NoDup_cons in Hn as [Hpn _].
  unfold reserve_oob_blocks. change (u32 1) with 1.
  set (alloc1 := set_list (RegionList (Some p) (last_addr None ((p, sp) :: ns)) (Some q) 0) alloc).
  set (h1 := <[p := region_of (Span (sp_block sp) 1 (sp_bg sp)) (Some q) None]>
              (<[q := region_of sp' (head_addr ns None) (Some p)]> (heap s))).
  set (s1 := Fs h1 (brk s + 1) (bgs s) (sparse s)).
  assert (Hskip : forall n, 0 <= n <= 1 ->
    skip_regions (S (size (heap s))) (Some p) n s = Ok ((Some p, n), s)).
  { intros n Hn. cbn [skip_regions]. mstep. cbn [r_len region_of].
    destruct (Z.leb_spec (sp_len sp) n); [lia|done]. }
  assert (Hsplit : split_allocation alloc 1 s = Ok ((Some p, alloc1), s1)).
  { unfold split_allocation. rewrite Hl. cbn [l_partial].
    assert (H0 : do_split_allocation alloc 0 s = Ok ((Some p, alloc), s)).
    { unfold do_split_allocation. rewrite Hl. cbn [l_iter head_addr]. mstep. rewrite (bind_Ok _ _ _ _ _ (Hskip 0 ltac:(lia))). done. }
    rewrite (bind_Ok _ _ _ _ _ H0). cbn beta iota.
    assert (H1 : do_split_allocation alloc 1 s = Ok ((Some p, alloc1), s1)).
    { unfold do_split_allocation. rewrite Hl. cbn [l_iter head_addr l_first l_last l_partial]. mstep.
      rewrite (bind_Ok _ _ _ _ _ (Hskip 1 ltac:(lia))). cbn beta iota. cbn [Z.ltb Z.compare]. mstep.
      cbn [region_of r_block r_len r_bg r_next r_prev]. rewrite !u32_small by (unfold is_u32; lia).
      erewrite bind_Ok by reflexivity. erewrite bind_Ok.
      2:{ eapply store_Ok. cbn. rewrite lookup_insert_ne by done. exact Hp. }
      done. }
    rewrite (bind_Ok _ _ _ _ _ H1). done. }
  rewrite (bind_Ok _ _ _ _ _ Hsplit). cbn beta iota.
  set (a2 := set_oob_list _ _). set (h2 := <[p := region_of (Span (sp_block sp) 1 (sp_bg sp)) None None]>
    (<[q := region_of sp' (head_addr ns None) None]> h1)).
  assert (Hp1 : h1 !! p = Some (region_of (Span (sp_block sp) 1 (sp_bg sp)) (Some q) None))
    by apply lookup_insert_eq.
  assert (Hq1 : h1 !! q = Some (region_of sp' (head_addr ns None) (Some p)))
    by (unfold h1; by rewrite lookup_insert_ne, lookup_insert_eq).
  exists h2. assert (Hmove : move_oob (S (size h1)) alloc1 (Some p) s1 = Ok (a2, with_heap s1 h2)).
  { assert (Hlast : last_addr None ((p, sp) :: ns) <> Some p).
    { cbn. destruct (last_addr_in (Some p) ns Hns) as (x & -> & Hx). by intros [= ->]. }
    destruct (size h1) as [|n] eqn:Hsz.
    { apply map_size_empty_iff in Hsz. by rewrite Hsz in Hp1. }
    rewrite (move_first n s1 alloc1 p q _ _ (last_addr None ((p, sp) :: ns))) by (exact Hp1 || exact Hq1 || done).
    done. }
  split; [|split; [|split]].
  - mstep. change (heap s1) with h1. mstep. done.
  - apply lookup_insert_eq.
  - unfold h2. by rewrite lookup_insert_ne, lookup_insert_eq.
  - intros r Hrp Hrq. unfold h2, h1. by rewrite !lookup_insert_ne.
Qed.

(** * Files *)

Section Files.
Context (force : bool) (info : fs_info) (aux_info : fs_aux_info) (Hgeo : geometry_ok info).
(** the length of an extent has 16 bits *)
Context (Hbpg : blocks_per_group info < 2 ^ 16).

Abbreviation fs_ok := (fs_ok info aux_info).

(** The inode and the block of extents describe the file blocks [bl]. *)
Definition tree_maps (inode : ext4_inode) (leaf : option bytes) (bl : list Z) : Prop :=
  exists exts, read_tree inode leaf = Ok exts /\
    forall k, 0 <= k < zlen bl -> map_block exts k = znth bl k.

Lemma span_sizes l sps :
  groups_ok info aux_info l -> Forall (in_use l) sps ->
  Forall (fun sp => is_u16 (sp_len sp) /\ is_u32 (sp_block sp)) sps /\ Forall (fun sp => 0 <= sp_len sp) sps.
Proof.
  intros Hl Hu. split; (eapply Forall_impl; [exact Hu|]); intros sp Hsp; cbn beta.
  - pose proof (in_use_bounds info aux_info _ _ Hl Hsp) as (H1 & H2 & H3).
    pose proof Hsp as (_ & i & bg & _ & Hbg & Hown & _).
    pose proof (owns_in_range _ _ _ _ _ (bo_chunks _ _ _ (groups_bg _ _ _ _ _ Hl Hbg)) Hown).
    pose proof (data_end_le info aux_info bg). unfold is_u16, is_u32. lia.
  - destruct Hsp as [H _]. lia.
Qed.

(** Extents that were written behind a header are read back. *)
Lemma node_maps h sps rest :
  header_ok h -> eh_entries h = zlen sps ->
  Forall (fun sp => is_u16 (sp_len sp) /\ is_u32 (sp_block sp)) sps -> total sps < 2 ^ 32 ->
  exists exts, read_node ((enc extent_header_codec h ++ enc_array extent_codec (extents_of sps 0)) ++ rest) = Ok (h, exts) /\
    forall k, 0 <= k < zlen (blocks sps) -> map_block exts k = znth (blocks sps) k.
Proof.
  intros Hh Hn Hs Hlim. exists (extents_of sps 0).
  assert (Hpos : Forall (fun sp => 0 <= sp_len sp) sps).
  { eapply Forall_impl; [exact Hs|]. intros sp [H _]. unfold is_u16 in H. lia. }
  split.
  - rewrite <- app_assoc. apply read_node_spec; [done|by rewrite length_extents_of|]. apply extents_of_ok; [done|lia|lia].
  - intros k Hk. rewrite zlen_blocks in Hk by done. rewrite map_block_spec by (done || lia). by rewrite Z.sub_0_r.
Qed.

Lemma num_regions_alloc s a ns :
  alloc_ok (heap s) a ns -> zlen ns < 2 ^ 32 -> block_allocation_num_regions a s = Ok (zlen ns, s).
Proof.
  intros [Hl _ Hd Hn] Hz. unfold block_allocation_num_regions. mstep. rewrite Hl. cbn [l_first].
  pose proof (dseg_length _ _ _ _ Hd Hn). by rewrite (num_regions_spec s _ None) by (done || lia).
Qed.

Lemma mem_write_head m b : zlen b <= zlen m -> mem_write m 0 b = Ok (b ++ zdrop (zlen b) m).
Proof. intros H. exact (mem_write_app [] b m 0 eq_refl H). Qed.


(** Block 0 belongs to the header of the first group. *)
Lemma in_use_nonzero s sp : fs_ok s -> in_use (bgs s) sp -> sp_block sp <> 0.
Proof.
  intros Hs (_ & i & bg & _ & Hbg & Hown & _).
  pose proof (groups_bg _ _ _ _ _ (proj1 Hs) Hbg) as Hok. pose proof (bo_header _ _ _ Hok).
  pose proof (owns_in_range _ _ _ _ _ (bo_chunks _ _ _ Hok) Hown).
  pose proof (go_first _ _ _ (proj1 Hs) _ _ Hbg). lia.
Qed.

(** The list of regions once its first block is set apart: the rest of the first
    region, at a fresh address [q], then the other regions as they were. *)
Lemma split_chain (h h' : gmap Z region) p q sp' ns prev :
  dseg h (Some p) ns None -> p ∉ ns.*1 -> NoDup ns.*1 -> h !! q = None ->
  h' !! q = Some (region_of sp' (head_addr ns None) prev) ->
  (forall r, r <> p -> r <> q -> h' !! r = h !! r) ->
  fseg h' ((q, sp') :: ns) /\ (length ((q, sp') :: ns) <= S (size h'))%nat.
Proof.
  intros Hd Hp Hn Hq Hq' Hframe.
  assert (Hf : forall r, r ∈ ns.*1 -> h' !! r = h !! r /\ is_Some (h !! r) /\ r <> q).
  { intros r Hr. pose proof (dseg_in _ _ _ _ _ Hd Hr) as [x Hx].
    assert (r <> q) by (intros ->; by rewrite Hx in Hq). split; [apply Hframe; [by intros ->|done]|].
    split; [by eexists|done]. }
  split.
  - split; [by eexists|]. eapply fseg_frame; [|by eapply dseg_fseg]. intros r Hr. by apply Hf.
  - assert (length (q :: ns.*1) <= size h')%nat; [|cbn in *; rewrite length_fmap in *; lia].
    apply length_le_size.
    + apply NoDup_cons. split; [|done]. intros Hr. by apply Hf in Hr as (_ & _ & ?).
    + intros r [->|Hr]%elem_of_cons; [by eexists|]. apply Hf in Hr as (-> & ? & _). done.
Qed.

Lemma blocks_tail q sp ns :
  1 < sp_len sp ->
  zdrop 1 (blocks (sp :: spans ns)) =
  blocks (spans ((q, Span (sp_block sp + 1) (sp_len sp - 1) (sp_bg sp)) :: ns)).
Proof. intros. unfold blocks. cbn. fold (spans ns). rewrite (seqZ_cons (sp_block sp)) by lia. cbn. by rewrite Z.sub_1_r. Qed.

(** What the leaf branch does up to the loop over the regions: the first block is
    set apart, and the loop starts behind the header of the leaf. *)
Lemma leaf_tree inode len s0 s alloc p sp ns :
  fs_ok s -> alloc_ok (heap s) alloc ((p, sp) :: ns) -> Forall (in_use (bgs s)) (spans ((p, sp) :: ns)) ->
  NoDup (blocks (spans ((p, sp) :: ns))) ->
  3 < zlen ((p, sp) :: ns) <= block_size info - 1 -> zlen ((p, sp) :: ns) < 2 ^ 16 ->
  1 < sp_len sp -> zlen (i_block inode) = 60 -> 24 <= block_size info ->
  allocate_for_extents force (u32 (DIV_ROUND_UP 64 len (block_size info))) None s0 = Ok (Some alloc, s) ->
  let fits := 12 * (1 + zlen ((p, sp) :: ns)) <=? block_size info in
  exists a inode' leaf s', do_inode_allocate_extents force info inode len None s0 =
      (if fits then Ok ((Some a, inode', Some leaf), s') else OutOfBounds) /\
    bgs s' = bgs s /\ (fits = true -> tree_maps inode' (Some leaf) (zdrop 1 (blocks (spans ((p, sp) :: ns))))).
Proof.
  intros Hs Ha Hu Hb Hz Hz16 Hsp Hi Hbs Halloc fits.
  unfold do_inode_allocate_extents. rewrite (bind_Ok _ _ _ _ _ Halloc). rewrite (bind_Ok _ _ _ _ _ (num_regions_alloc s alloc _ Ha ltac:(lia))).
  destruct (Z.leb_spec (zlen ((p, sp) :: ns)) 3); [lia|].
  pose proof (total_u32 info aux_info _ _ (proj1 Hs) Hu Hb) as Htot.
  destruct (span_sizes _ _ (proj1 Hs) Hu) as [Hsz Hpos]. cbn in Hu, Hsz, Hpos, Htot. fold (spans ns) in *.
  apply Forall_cons in Hu as [Hu1 Hu2]. apply Forall_cons in Hsz as [[Hsp16 Hsp32] Hsz].
  apply Forall_cons in Hpos as [_ Hpos]. pose proof (total_nonneg _ Hpos).
  pose proof (in_use_bounds info aux_info _ _ (proj1 Hs) Hu1) as (_ & Hb0 & Hb1).
  assert (Hns : ns <> []) by (intros ->; change (zlen [(p, sp)]) with 1 in Hz; lia).
  pose proof Ha as [_ _ [Hpl Hd] Hn]. cbn in Hn. apply NoDup_cons in Hn as [Hpn Hn].
  assert (Hpq : p <> brk s) by (intros ->; rewrite (proj2 Hs) in Hpl by lia; done).
  destruct (reserve_oob_first s alloc p sp ns Ha Hns Hpq ltac:(lia) Hb0 ltac:(lia)) as (h & Hrun & Hhp & Hhq & Hframe).
  set (q := brk s) in *. set (sp' := Span (sp_block sp + 1) (sp_len sp - 1) (sp_bg sp)) in *.
  set (a' := set_oob_list _ _) in *. set (s1 := Fs h (brk s + 1) (bgs s) (sparse s)) in *.
  eexists _, _, _, _. erewrite bind_Ok.
  2:{ rewrite (bind_Ok _ _ _ _ _ Hrun). cbn beta iota. erewrite bind_Ok; [reflexivity|].
      unfold get_oob_block. mstep. change (0 +u32 l_partial _) with 0. cbn [l_iter a_oob_list a' set_oob_list find_block].
      erewrite bind_Ok by (eapply load_Ok; exact Hhp). cbn [r_len r_block region_of sp_len sp_block Z.ltb Z.compare].
      rewrite Z.add_0_r, u32_small by done. reflexivity. }
  cbn beta iota. pose proof (in_use_nonzero _ _ Hs Hu1).
  destruct (Z.eqb_spec (sp_block sp) 0) as [|_]; [done|]. set (n := zlen ((p, sp) :: ns)) in *.
  rewrite (mem_write_head (i_block inode)) by (rewrite zlen_enc_header; lia). mstep.
  set (h1 := ExtentHeader EXT4_EXT_MAGIC 1 3 1 0). rewrite zlen_enc_header.
  rewrite mem_write_app; [|by rewrite zlen_enc_header|].
  2:{ rewrite zlen_zdrop by lia. change (zlen (enc extent_idx_codec _)) with 12. lia. }
  mstep. mstep. change (12 / 12) with 1. destruct (Z.ltb_spec (block_size info - 1) n); [lia|].
  rewrite (u16_small n) by (unfold is_u16; lia). set (hdr := ExtentHeader EXT4_EXT_MAGIC n _ 0 0).
  rewrite (mem_write_head (replicate _ _)) by (rewrite zlen_enc_header, zlen_replicate; lia). mstep. mstep.
  destruct (split_chain (heap s) h p q sp' ns _ Hd Hpn Hn (proj2 Hs _ (Z.le_refl _)) Hhq Hframe) as [Hfs Hlen].
  match goal with |- (_ ≫= _) ?st = _ /\ _ => set (s2 := st) end.
  pose proof (write_extents_spec s2 (S (size h)) ((q, sp') :: ns) a' (enc extent_header_codec hdr)
    (zdrop 12 (replicate (Z.to_nat (block_size info)) 0)) 0 Hfs Hlen eq_refl eq_refl) as Hw.
  assert (Hpos' : Forall (fun sp => 0 <= sp_len sp) (spans ((q, sp') :: ns))) by (constructor; [cbn; lia|done]).
  assert (Htot' : total (spans ((q, sp') :: ns)) = total (spans ns) + sp_len sp - 1) by (cbn; fold (spans ns); lia).
  specialize (Hw Hpos' ltac:(lia) ltac:(lia)). rewrite zlen_zdrop, zlen_replicate in Hw by (rewrite zlen_replicate; lia).
  replace (12 * zlen ((q, sp') :: ns) <=? Z.of_nat (Z.to_nat (block_size info)) - 12) with (12 * (1 + n) <=? block_size info) in Hw
    by (unfold n; rewrite !zlen_cons; destruct (Z.leb_spec (12 * (1 + (1 + zlen ns))) (block_size info)),
          (Z.leb_spec (12 * (1 + zlen ns)) (Z.of_nat (Z.to_nat (block_size info)) - 12)); done || lia).
  rewrite zlen_enc_header in Hw |- *. unfold fits. split.
  { unfold mbind at 1, M_bind at 1. change (heap s2) with h. rewrite Hw.
    destruct (12 * (1 + n) <=? block_size info); reflexivity. }
  split; [reflexivity|]. intros _.
  change (spans ((p, sp) :: ns)) with (sp :: spans ns). rewrite (blocks_tail q) by lia. fold sp'.
  assert (Hh : header_ok hdr).
  { apply header_ok_intro; [unfold is_u16; lia| |unfold is_u16; lia]. apply Z.mod_pos_bound. lia. }
  destruct (node_maps hdr (spans ((q, sp') :: ns)) (zdrop (12 * zlen ((q, sp') :: ns))
    (zdrop 12 (replicate (Z.to_nat (block_size info)) 0))) Hh) as (exts & Hread & Hmap).
  { cbn. unfold n, spans. by rewrite !zlen_cons, zlen_fmap. }
  { constructor; [|done]. unfold is_u16, is_u32 in *. cbn. lia. }
  { lia. }
  exists exts. split; [|done]. unfold read_tree. cbn [i_block set_inode_size].
  rewrite (MoveFrom_at extent_header_codec header_ok _ 0 h1).
  - cbn [mbind res_bind eh_depth h1 Z.eqb]. fold n. fold hdr. by rewrite Hread.
  - apply bytes_at_intro.
  - by apply header_ok_intro.
Qed.
End Files.

(** What [allocate_blocks] returned is the list of its regions. *)
Lemma allocated force info aux_info n s alloc s1 :
  geometry_ok info -> fs_ok info aux_info s -> 0 < n < 2 ^ 32 -> allocate_blocks force n s = Ok (Some alloc, s1) ->
  exists ns, alloc_ok (heap s1) alloc ns /\ extends info aux_info s s1 (fun _ => True) ns /\ total (spans ns) = n.
Proof.
  intros Hgeo Hs Hn Hrun. pose proof (allocate_blocks_spec force info aux_info Hgeo n s Hs Hn) as H.
  rewrite Hrun in H. destruct (n <=? capacity (bgs s)); [|destruct force; [|done]].
  - destruct H as (a & ns & s' & [= <- <-] & Ha & Hx & Ht). by exists ns.
  - by destruct H as (ns & s' & [= <- <-] & _).
Qed.

Section Theorems.
Context (force : bool) (info : fs_info) (aux_info : fs_aux_info).
Context (inode : ext4_inode) (len : Z) (s s1 : fs) (alloc : block_allocation).
Context (Hgeo : geometry_ok info) (Hbpg : blocks_per_group info < 2 ^ 16) (Hs : fs_ok info aux_info s).
Context (Hi : zlen (i_block inode) = 60) (Hbs : 24 <= block_size info <= 2 ^ 16).

(** The number of blocks of the file, and the regions for it and one block more. *)
Let n : Z := u32 (DIV_ROUND_UP 64 len (block_size info)).
Let rs : list span := alloc_spans s1 alloc.
Context (Hn : n + 1 < 2 ^ 32) (Hrun : allocate_blocks force (n + 1) s = Ok (Some alloc, s1)).

Lemma tree_setup :
  0 <= n /\ allocate_for_extents force n None s = Ok (Some alloc, s1) /\
  exists ns, alloc_ok (heap s1) alloc ns /\ rs = spans ns /\ extends info aux_info s s1 (fun _ => True) ns /\
    total (spans ns) = n + 1.
Proof.
  assert (Hn0 : 0 <= n) by apply is_u32_u32. split; [done|]. split.
  - unfold allocate_for_extents. rewrite u32_small by (unfold is_u32; lia). mstep. done.
  - destruct (allocated force info aux_info (n + 1) s alloc s1 Hgeo Hs ltac:(lia) Hrun) as (ns & Ha & Hx & Ht).
    exists ns. split; [done|]. split; [by apply alloc_spans_spec|done].
Qed.



Lemma tree_overflow :
  3 < zlen rs <= block_size info - 1 -> (forall sp, head rs = Some sp -> 1 < sp_len sp) ->
  block_size info < 12 * (1 + zlen rs) ->
  do_inode_allocate_extents force info inode len None s = OutOfBounds.
Proof.
  intros Hz Hfirst Hover. destruct tree_setup as (Hn0 & Halloc & ns & Ha & Hrs & Hx & Ht).
  rewrite Hrs in *. unfold spans in Hz, Hover. rewrite zlen_fmap in Hz, Hover. fold (spans ns) in *.
  destruct ns as [|[p sp] ns]; [change (zlen (@nil node)) with 0 in *; lia|]. specialize (Hfirst sp eq_refl).
  destruct (leaf_tree force info aux_info Hbpg inode len s s1 alloc p sp ns (ex_ok _ _ _ _ _ _ Hx) Ha (ex_new _ _ _ _ _ _ Hx)
    (ex_nodup _ _ _ _ _ _ Hx)) as (a & inode' & leaf & s' & Hdo & _); [lia|lia|lia|done|lia|done|].
  cbn zeta in Hdo. rewrite Hdo. by rewrite (proj2 (Z.leb_gt _ _)) by lia.
Qed.
End Theorems.


Definition zero_inode : ext4_inode := Inode 0 0 0 0 0 (replicate 60 0).


(** The check that the extents fit into one block compares their number with
    [block_size - 1] and not with the room for them: a new file in more than
    three regions, the first of more than one block, that are no more than
    [block_size - 1] but whose extents do not fit into a block behind the header,
    makes [do_inode_allocate_extents] write behind the end of the block of
    extents (in a well-formed state, with groups of less than 2^16 blocks, a
    block size from 24 to 2^16, an inode with 60 bytes of block data, and room for
    the blocks of the file and one more, which is below 2^32). *)
Theorem extent_block_overflow force info aux_info inode len s s1 alloc :
  geometry_ok info -> blocks_per_group info < 2 ^ 16 -> fs_ok info aux_info s ->
  zlen (i_block inode) = 60 -> 24 <= block_size info <= 2 ^ 16 ->
  let n := u32 (DIV_ROUND_UP 64 len (block_size info)) in
  let rs := alloc_spans s1 alloc in
  n + 1 < 2 ^ 32 -> allocate_blocks force (n + 1) s = Ok (Some alloc, s1) ->
  3 < zlen rs <= block_size info - 1 -> (forall sp, head rs = Some sp -> 1 < sp_len sp) ->
  block_size info < 12 * (1 + zlen rs) ->
  do_inode_allocate_extents force info inode len None s = OutOfBounds.
Proof. intros. by eapply tree_overflow. Qed.

(** One group of 64 blocks of 40 bytes, which empty chunks divide into holes of
    10 blocks. *)
Definition tiny_info : fs_info := FsInfo (64 * 40) 40 64 8 5 1 0.
Definition tiny_aux : fs_aux_info := FsAuxInfo 0 64 1 1 1 10 100 10000.
Definition tiny_bg : block_group_info :=
  BlockGroup 0 2 0 true (replicate 40 0) (replicate 40 0) None 64 8 1 0 0 8
    ((fun b => Chunk b 0 0) <$> [2; 12; 22; 32; 42; 52; 62]).
Definition tiny_fs : fs := Fs ∅ 0 [tiny_bg] [].

Lemma tiny_chunk (j : nat) c :
  chunks tiny_bg !! j = Some c -> c = Chunk (2 + 10 * Z.of_nat j) 0 0 /\ Z.of_nat j <= 6.
Proof. intros Hj. do 7 (destruct j as [|j]; [injection Hj as <-; done|]). done. Qed.

Lemma tiny_fs_ok : fs_ok tiny_info tiny_aux tiny_fs.
Proof.
  split; [split|].
  - apply Forall_singleton. split.
    + apply bytes_ok_zeros.
    + reflexivity.
    + split.
      * intros j c [-> Hj]%tiny_chunk. unfold c_end, data_end. cbn. lia.
      * intros j a b (c & c' & [-> _]%tiny_chunk & [-> _]%tiny_chunk & -> & ->). unfold c_end. cbn [c_block c_len]. lia.
    + intros j a b _ k _. apply bit_zeros.
    + vm_compute. reflexivity.
    + reflexivity.
  - intros [|i] bg Hi; [|done]. injection Hi as <-. cbn. lia.
  - intros p _. apply lookup_empty.
Qed.

Lemma extent_block_overflow_witness :
  do_inode_allocate_extents false tiny_info zero_inode (35 * 40) None tiny_fs = OutOfBounds.
Proof.
  destruct (allocate_blocks false 36 tiny_fs) as [[[a|] s1]| |] eqn:E; try (vm_compute in E; discriminate E).
  assert (Hrs : zlen (alloc_spans s1 a) = 4 /\ forall sp, head (alloc_spans s1 a) = Some sp -> sp_len sp = 10).
  { vm_compute in E. injection E as <- <-. vm_compute. split; [reflexivity|]. by intros sp [= <-]. }
  destruct Hrs as [Hz Hfirst].
  assert (Hg : geometry_ok tiny_info) by (vm_compute; intuition congruence).
  refine (extent_block_overflow false tiny_info tiny_aux zero_inode (35 * 40) tiny_fs s1 a Hg
    ltac:(reflexivity) tiny_fs_ok ltac:(reflexivity) _ ltac:(reflexivity) E _ _ _).
  - cbn. lia.
  - rewrite Hz. cbn. lia.
  - intros sp Hsp. rewrite (Hfirst sp Hsp). lia.
  - rewrite Hz. cbn. lia.
Defined.

(** A list of four regions, the first of one block. *)
Definition four_regions : fs :=
  Fs (list_to_map [(0, Region 10 1 0 (Some 1) None); (1, Region 20 5 0 (Some 2) (Some 0));
                   (2, Region 30 5 0 (Some 3) (Some 1)); (3, Region 40 5 0 None (Some 2))]) 4 [zero_bg] [].
Definition four_alloc : block_allocation :=
  set_list (RegionList (Some 0) (Some 3) (Some 0) 0) create_allocation.

(** When the first region has a single block, setting one block apart for
    extents takes the other regions instead: [do_split_allocation] returns the
    region behind the split and leaves the iterator where it was.  Of the 15
    blocks of a file in regions of 1, 5, 5 and 5 blocks, the extent tree maps
    the first only, to the block that should hold the extents, and the header
    still counts four extents. *)
Theorem single_block_first_region :
  exists a inode leaf s' exts,
    do_inode_allocate_extents false small_info zero_inode (15 * 2048) (Some four_alloc) four_regions =
      Ok ((Some a, inode, Some leaf), s') /\
    read_tree inode (Some leaf) = Ok exts /\ zlen exts = 4 /\ map_block exts 0 = Some 10 /\
    (forall k, 1 <= k < 15 -> map_block exts k = None) /\
    l_first (a_oob_list a) = Some 1.
Proof.
  destruct (do_inode_allocate_extents false small_info zero_inode (15 * 2048) (Some four_alloc) four_regions)
    as [[[[[a|] inode] [leaf|]] s']| |] eqn:E; vm_compute in E; try discriminate E.
  injection E as <- <- <- <-. eexists _, _, _, _, _. split; [reflexivity|]. split; [by vm_compute|].
  split; [done|]. split; [done|]. split; [|done]. intros k Hk. cbn [map_block ee_block ee_len].
  destruct (Z.leb_spec 0 k), (Z.ltb_spec k (0 + 1)), (Z.ltb_spec k (0 + 0)); cbn [andb]; done || lia.
Qed.
