(* ===== verification/Ext4Dir.v ===== *)
(** Model of the directories, files and links of src/ext4_utils/contents.c:
    the blocks of a directory, and the inodes that [make_directory], [make_file]
    and [make_link] fill in.

    The buffer of a directory is a byte array, as is the inode table of a group;
    pointers are offsets.  [data] of the functions of extent.c is the buffer that
    is queued for the image: zero when it is allocated. *)
From stdpp Require Import base gmap list numbers strings.
From Stdlib Require Import ZArith Lia.
From S2P Require Import Prelude Utils Ext4Base Ext4Allocate Ext4Extent.

(** [((y) * DIV_ROUND_UP((x), (y)))] on values that do not overflow. *)
Definition EXT4_ALIGN (x y : Z) : Z := y * ((x + y - 1) / y).

Definition EXT4_FT_DIR : Z := 2.
Definition EXT4_ROOT_INO : Z := 2.

(** The fields of [struct dentry] that contents.c reads. *)
Record dentry := Dentry { filename : bytes; file_type : Z }.

Section Directory.
Context (block_size : Z).

Definition dentry_size_step (len : Z) (d : dentry) : Z :=
  let dentry_len := u32 (8 + u32 (EXT4_ALIGN (zlen (filename d)) 4)) in
  let len := if block_size <? len mod block_size +u32 dentry_len then len +u32 (block_size - len mod block_size) else len in
  len +u32 dentry_len.

Definition dentry_size (dentries : list dentry) : Z := foldl dentry_size_step 24 dentries.

(** A store to [rec_len] of the entry at [p]. *)
Definition set_rec_len (data : bytes) (p : Z) (rec_len : Z) : res bytes := mem_write data (p + 4) (le_encode 2 rec_len).
Definition add_rec_len (data : bytes) (p : Z) (n : Z) : res bytes :=
  b ← mem_read data (p + 4) 2; set_rec_len data p (u16 (le_decode b + n)).

(** Returns the buffer, the new [*offset] and the offset of the entry. *)
Definition add_dentry (data : bytes) (offset : Z) (prev : option Z) (inode : Z) (name : bytes) (ft : Z) :
    res (bytes * Z * Z) :=
  let name_len := u8 (zlen name) in
  let rec_len := u16 (8 + EXT4_ALIGN name_len 4) in
  let start_block := offset / block_size in
  let end_block := (offset +u32 (rec_len - 1)) / block_size in
  '(data, offset) ←
    (if negb (start_block =? end_block) then
       match prev with
       | None => critical_error
       | Some prev =>
           data ← add_rec_len data prev (u32 (end_block * block_size) -u32 offset);
           Ok (data, u32 (end_block * block_size))
       end
     else Ok (data, offset));
  data ← mem_write data offset (le_encode 4 inode ++ le_encode 2 rec_len ++ [name_len; ft]);
  data ← mem_write data (offset + 8) (ztake name_len name);
  Ok (data, offset +u32 rec_len, offset).

(** The loop over the entries.  Returns the locations of the inode numbers too. *)
Fixpoint add_dentries (len : Z) (data : bytes) (offset dentry_p : Z) (l : list dentry) :
    res (bytes * Z * Z * list Z) :=
  match l with
  | [] => Ok (data, offset, dentry_p, [])
  | d :: l =>
      '(data, offset, p) ← add_dentry data offset (Some dentry_p) 0 (filename d) (file_type d);
      if (len <? offset) || ((offset =? len) && negb (bool_decide (l = []))) then critical_error
      else
        '(data, offset, q, ptrs) ← add_dentries len data offset p l;
        Ok (data, offset, q, p :: ptrs)
  end.

(** What [make_directory] writes to the buffer. *)
Definition fill_directory (inode_num dir_inode_num len : Z) (dentries : list dentry) (data : bytes) : res (bytes * list Z) :=
  '(data, offset, p) ← add_dentry data 0 None inode_num (str ".") EXT4_FT_DIR;
  '(data, offset, p) ← add_dentry data offset (Some p) dir_inode_num (str "..") EXT4_FT_DIR;
  '(data, offset, p, ptrs) ← add_dentries len data offset p dentries;
  data ← add_rec_len data p (len -u32 offset);
  Ok (data, ptrs).
End Directory.

(** * Inodes in the inode table *)

(** Where the fields are in [struct ext4_inode], and their sizes. *)
Definition o_mode : Z * Z := (0, 2).
Definition o_uid : Z * Z := (2, 2).
Definition o_size_lo : Z * Z := (4, 4).
Definition o_atime : Z * Z := (8, 4).
Definition o_ctime : Z * Z := (12, 4).
Definition o_mtime : Z * Z := (16, 4).
Definition o_gid : Z * Z := (24, 2).
Definition o_links_count : Z * Z := (26, 2).
Definition o_blocks_lo : Z * Z := (28, 4).
Definition o_flags : Z * Z := (32, 4).
Definition o_block : Z * Z := (40, 60).
Definition o_size_high : Z * Z := (108, 4).
Definition o_blocks_high : Z * Z := (116, 2).

(** [inode->field] of the inode at group [bg] and offset [p]. *)
Definition load_field (ip : Z * Z) (f : Z * Z) : M bytes :=
  b ← load_bg ip.1;
  match inode_table b with Some t => lift (mem_read t (ip.2 + f.1) f.2) | None => lift OutOfBounds end.
Definition store_field (ip : Z * Z) (f : Z * Z) (v : bytes) : M unit :=
  b ← load_bg ip.1;
  match inode_table b with
  | Some t => t ← lift (mem_write t (ip.2 + f.1) v); store_bg ip.1 (set_inode_table (Some t) (flags b) b)
  | None => lift OutOfBounds
  end.
Definition load_num (ip f : Z * Z) : M Z := v ← load_field ip f; mret (le_decode v).
Definition store_num (ip f : Z * Z) (n : Z) : M unit := store_field ip f (le_encode (Z.to_nat f.2) n).

(** The part of the inode that extent.c works on. *)
Definition load_inode (ip : Z * Z) : M ext4_inode :=
  fl ← load_num ip o_flags; lo ← load_num ip o_size_lo; hi ← load_num ip o_size_high;
  blo ← load_num ip o_blocks_lo; bhi ← load_num ip o_blocks_high; blk ← load_field ip o_block;
  mret (Inode fl lo hi blo bhi blk).
Definition store_inode (ip : Z * Z) (i : ext4_inode) : M unit :=
  store_num ip o_flags (i_flags i);; store_num ip o_size_lo (i_size_lo i);; store_num ip o_size_high (i_size_high i);;
  store_num ip o_blocks_lo (i_blocks_lo i);; store_num ip o_blocks_high (l_i_blocks_high i);; store_field ip o_block (i_block i).

Definition S_IFDIR : Z := 0x4000.
Definition S_IFREG : Z := 0x8000.
Definition S_IFLNK : Z := 0xA000.

Section Contents.
Context (force : bool) (info : fs_info) (aux_info : fs_aux_info).
(** [aux_info.default_i_flags] *)
Context (default_i_flags : Z).

(** The last lines that the functions share. *)
Definition set_mode (ip : Z * Z) (mode links : Z) : M unit :=
  store_num ip o_mode mode;;
  store_num ip o_links_count links;;
  fl ← load_num ip o_flags;
  store_num ip o_flags (Z.lor fl default_i_flags).

(** Returns the inode number, and the buffer of the directory with the locations
    of the inode numbers of its entries. *)
Definition make_directory (dir_inode_num : Z) (dentries : list dentry) (dirs : Z) : M (Z * option (bytes * list Z)) :=
  let failed : M (Z * option (bytes * list Z)) := merror force;; mret (EXT4_ALLOCATE_FAILED, None) in
  let blocks := DIV_ROUND_UP 32 (dentry_size (block_size info) dentries) (block_size info) in
  let len := u32 (blocks * block_size info) in
  '(dir_inode_num, inode_num) ←
    (if negb (dir_inode_num =? 0) then n ← allocate_inode info aux_info; mret (dir_inode_num, n)
     else mret (EXT4_ROOT_INO, EXT4_ROOT_INO) : M (Z * Z));
  if inode_num =? EXT4_ALLOCATE_FAILED then failed
  else
    add_directory info inode_num;;
    ip ← get_inode info aux_info inode_num;
    i ← load_inode ip;
    '(ok, i, _) ← inode_allocate_data_extents force info i len len;
    store_inode ip i;;
    if (ok : bool) then
      set_mode ip S_IFDIR (u16 (dirs + 2));;
      r ← lift (fill_directory (block_size info) inode_num dir_inode_num len dentries (replicate (Z.to_nat len) 0));
      mret (inode_num, Some r)
    else failed.

(** [saved]: the chain of allocations of files. *)
Definition make_file (name : bytes) (len : Z) (base saved : list block_allocation) :
    M (Z * list block_allocation * list block_allocation) :=
  inode_num ← allocate_inode info aux_info;
  if inode_num =? EXT4_ALLOCATE_FAILED then merror force;; mret (EXT4_ALLOCATE_FAILED, base, saved)
  else
    ip ← get_inode info aux_info inode_num;
    '(base, saved) ←
      (if 0 <? len then
         i ← load_inode ip;
         '(alloc, i, _, base) ← inode_allocate_file_extents force info i len name base;
         store_inode ip i;;
         mret (base, match alloc with
                     | Some a => BlockAllocation (a_list a) (a_oob_list a) (Some name) :: saved
                     | None => saved
                     end)
       else mret (base, saved) : M (list block_allocation * list block_allocation));
    set_mode ip S_IFREG 1;;
    mret (inode_num, base, saved).

Definition inode_set_permissions (inode_num mode uid gid mtime : Z) : M Z :=
  ip ← get_inode info aux_info inode_num;
  m ← load_num ip o_mode;
  store_num ip o_mode (Z.lor m mode);;
  store_num ip o_uid uid;;
  store_num ip o_gid gid;;
  store_num ip o_mtime mtime;;
  store_num ip o_atime mtime;;
  store_num ip o_ctime mtime;;
  mret 0.
End Contents.

(** * Reading a directory *)

(** The entries of a directory, as a file system checks them: an entry is a
    multiple of 4 bytes long, has room for its name, and lies in one block; the
    last ends with the directory. *)
Fixpoint read_dir (fuel : nat) (block_size : Z) (data : bytes) (p : Z) : option (list (Z * bytes * Z)) :=
  if p =? zlen data then Some []
  else
    match fuel, ztake 8 (zdrop p data) with
    | S fuel, [i0; i1; i2; i3; r0; r1; name_len; ft] =>
        let rec_len := le_decode [r0; r1] in
        if (8 + name_len <=? rec_len) && (rec_len mod 4 =? 0) && (p + rec_len <=? zlen data) &&
           (p / block_size =? (p + rec_len - 1) / block_size)
        then l ← read_dir fuel block_size data (p + rec_len);
             Some ((le_decode [i0; i1; i2; i3], ztake name_len (zdrop (p + 8) data), ft) :: l)
        else None
    | _, _ => None
    end.

(** [*dentries[i].inode = entry_inode] for each entry (make_ext4fs.c). *)
Fixpoint store_inodes (data : bytes) (ptrs nums : list Z) : res bytes :=
  match ptrs, nums with
  | p :: ptrs, n :: nums => data ← mem_write data p (le_encode 4 n); store_inodes data ptrs nums
  | _, _ => Ok data
  end.

Example sample_dir :
  match fill_directory 40 11 2 80 [Dentry (str "a") 1; Dentry (str "longname") 2; Dentry (str "b") 1] (replicate 80 0) with
  | Ok (data, ptrs) => ptrs = [24; 40; 56] /\
      read_dir 10 40 data 0 = Some [(11, str ".", 2); (2, str "..", 2); (0, str "a", 1); (0, str "longname", 2); (0, str "b", 1)]
  | _ => False
  end.
Proof. vm_compute. split; reflexivity. Qed.

(** * Chains of entries *)

Record entry := Entry { e_inode : Z; e_name : bytes; e_type : Z }.

Definition rec_len_of (name : bytes) : Z := 8 + EXT4_ALIGN (zlen name) 4.

(** The bytes of an entry of length [r]. *)
Definition entry_header (r : Z) (e : entry) : bytes := le_encode 4 (e_inode e) ++ le_encode 2 r ++ [zlen (e_name e); e_type e].
Definition enc_entry (x : Z * entry) : bytes :=
  let '(r, e) := x in entry_header r e ++ e_name e ++ replicate (Z.to_nat (r - 8 - zlen (e_name e))) 0.
Definition flat (l : list (Z * entry)) : bytes := mjoin (enc_entry <$> l).

Definition entry_ok (e : entry) : Prop := is_u32 (e_inode e) /\ 0 < zlen (e_name e) <= 255.

(** An entry at [p] is as a file system wants it. *)
Definition placed (bs p : Z) (x : Z * entry) : Prop :=
  entry_ok x.2 /\ rec_len_of (e_name x.2) <= x.1 < 2 ^ 16 /\ x.1 mod 4 = 0 /\ p / bs = (p + x.1 - 1) / bs.
Fixpoint chain (bs p : Z) (l : list (Z * entry)) : Prop :=
  match l with [] => True | x :: l => placed bs p x /\ chain bs (p + x.1) l end.

Lemma rec_len_bounds name : zlen name <= 255 -> 8 + zlen name <= rec_len_of name < 12 + zlen name /\ rec_len_of name mod 4 = 0.
Proof.
  intros H. unfold rec_len_of, EXT4_ALIGN. pose proof (zlen_nonneg name). pose proof (Z.div_mod (zlen name + 4 - 1) 4 ltac:(done)).
  pose proof (Z.mod_pos_bound (zlen name + 4 - 1) 4 ltac:(done)). split; [lia|].
  replace (8 + 4 * ((zlen name + 4 - 1) / 4)) with (0 + (2 + (zlen name + 4 - 1) / 4) * 4) by lia. by rewrite Z.mod_add.
Qed.

Lemma zlen_header r e : zlen (entry_header r e) = 8.
Proof. done. Qed.

Lemma zlen_enc_entry r e : 8 + zlen (e_name e) <= r -> zlen (enc_entry (r, e)) = r.
Proof.
  intros H. pose proof (zlen_nonneg (e_name e)). unfold enc_entry. rewrite !zlen_app, zlen_header, zlen_replicate. lia.
Qed.

Lemma flat_app l k : flat (l ++ k) = flat l ++ flat k.
Proof. unfold flat. by rewrite fmap_app, join_app. Qed.

Lemma flat_single x : flat [x] = enc_entry x.
Proof. unfold flat. cbn. by rewrite app_nil_r. Qed.

Fixpoint chain_len (l : list (Z * entry)) : Z := match l with [] => 0 | x :: l => x.1 + chain_len l end.

Lemma placed_room bs p x : placed bs p x -> 8 + zlen (e_name x.2) <= x.1.
Proof. intros ((_ & H) & Hr & _). pose proof (rec_len_bounds (e_name x.2)). lia. Qed.

Lemma zlen_flat bs l : forall p, chain bs p l -> zlen (flat l) = chain_len l.
Proof.
  induction l as [|[r e] l IH]; intros p; cbn [chain chain_len fst]; [done|]. intros [Hx Hl].
  change (flat ((r, e) :: l)) with (enc_entry (r, e) ++ flat l). rewrite zlen_app, zlen_enc_entry by (by apply placed_room in Hx).
  by rewrite (IH _ Hl).
Qed.

Lemma chain_app bs l k : forall p, chain bs p (l ++ k) <-> chain bs p l /\ chain bs (p + chain_len l) k.
Proof.
  induction l as [|x l IH]; intros p; cbn [app chain chain_len]; [rewrite Z.add_0_r; tauto|]. rewrite IH, Z.add_assoc. tauto.
Qed.

Lemma chain_len_app l k : chain_len (l ++ k) = chain_len l + chain_len k.
Proof. induction l as [|x l IH]; cbn [app chain_len]; [done|]. rewrite IH. lia. Qed.

Lemma le_decode_u16 r : 0 <= r < 2 ^ 16 -> le_decode (le_encode 2 r) = r.
Proof. intros H. rewrite le_decode_encode. apply Z.mod_small. done. Qed.

(** ** Reading a chain back *)

Lemma entry_header_parts r e :
  exists i0 i1 i2 i3 r0 r1, entry_header r e = [i0; i1; i2; i3; r0; r1; zlen (e_name e); e_type e] /\
    le_encode 4 (e_inode e) = [i0; i1; i2; i3] /\ le_encode 2 r = [r0; r1].
Proof. unfold entry_header, le_encode. cbn [app]. repeat eexists. Qed.

Lemma read_chain bs l : forall fuel pre,
  chain bs (zlen pre) l -> (length l <= fuel)%nat ->
  read_dir fuel bs (pre ++ flat l) (zlen pre) = Some ((fun x => (e_inode x.2, e_name x.2, e_type x.2)) <$> l).
Proof.
  induction l as [|[r e] l IH]; intros fuel pre Hc Hf.
  { change (flat []) with (@nil Z). rewrite app_nil_r. destruct fuel; cbn [read_dir]; by rewrite Z.eqb_refl. }
  destruct fuel as [|fuel]; cbn in Hf; [lia|]. pose proof (zlen_flat _ _ _ Hc) as Hlen. cbn [chain] in Hc. destruct Hc as [Hx Hc].
  pose proof (placed_room _ _ _ Hx) as Hroom. destruct Hx as ((He & Hn) & Hr & H4 & Hb). cbn [fst snd] in *.
  pose proof (zlen_flat _ _ _ Hc) as Hlen'. cbn [chain_len fst] in Hlen. pose proof (zlen_nonneg (flat l)). pose proof (zlen_nonneg (e_name e)).
  assert (zlen pre + r = zlen (pre ++ enc_entry (r, e))) as Ep by (rewrite zlen_app, zlen_enc_entry; lia).
  assert (zlen (pre ++ flat ((r, e) :: l)) = zlen pre + (r + chain_len l)) as ED by (rewrite zlen_app; lia).
  specialize (IH fuel (pre ++ enc_entry (r, e))). rewrite <- Ep in IH. specialize (IH Hc ltac:(lia)).
  change (flat ((r, e) :: l)) with (enc_entry (r, e) ++ flat l) in *. rewrite <- app_assoc in IH.
  assert (zdrop (zlen pre) (pre ++ enc_entry (r, e) ++ flat l) = entry_header r e ++ e_name e ++ replicate (Z.to_nat (r - 8 - zlen (e_name e))) 0 ++ flat l) as E0.
  { rewrite zdrop_app_exact by done. unfold enc_entry. by rewrite <- !app_assoc. }
  assert (ztake (zlen (e_name e)) (zdrop (zlen pre + 8) (pre ++ enc_entry (r, e) ++ flat l)) = e_name e) as E8.
  { rewrite <- (zdrop_zdrop 8 (zlen pre)), E0, zdrop_app_exact by (done || apply zlen_nonneg). by apply ztake_app_exact. }
  set (D := pre ++ enc_entry (r, e) ++ flat l) in *. clearbody D.
  cbn [read_dir]. rewrite ED. destruct (Z.eqb_spec (zlen pre) (zlen pre + (r + chain_len l))); [lia|].
  rewrite E0, ztake_app_exact by done. destruct (entry_header_parts r e) as (i0 & i1 & i2 & i3 & r0 & r1 & -> & Hi & Hrr).
  rewrite <- Hrr, <- Hi, le_decode_u16 by lia.
  rewrite (proj2 (Z.leb_le _ _)), (proj2 (Z.eqb_eq (r mod 4) 0)), (proj2 (Z.leb_le _ _)), (proj2 (Z.eqb_eq _ _)) by (done || lia). cbn [andb].
  rewrite IH, E8. cbn [mbind option_bind fmap list_fmap snd]. do 4 f_equal. rewrite le_decode_encode. by apply Z.mod_small.
Qed.

(** * Adding entries *)

Definition zeros (n : Z) : bytes := replicate (Z.to_nat n) 0.

Lemma zlen_zero_bytes n : 0 <= n -> zlen (zeros n) = n.
Proof. intros. unfold zeros. rewrite zlen_replicate. lia. Qed.
Lemma zeros_add a b : 0 <= a -> 0 <= b -> zeros (a + b) = zeros a ++ zeros b.
Proof. intros. unfold zeros. rewrite Z2Nat.inj_add by lia. by rewrite replicate_add. Qed.
Lemma zdrop_zeros k n : 0 <= k <= n -> zdrop k (zeros n) = zeros (n - k).
Proof. intros. unfold zdrop, zeros. rewrite drop_replicate. f_equal. lia. Qed.

(** The last entry of a buffer is made longer. *)
Lemma add_rec_len_spec X r e n g :
  8 + zlen (e_name e) <= r -> 0 <= g <= n -> r + g < 2 ^ 16 ->
  add_rec_len (X ++ enc_entry (r, e) ++ zeros n) (zlen X) g = Ok (X ++ enc_entry (r + g, e) ++ zeros (n - g)).
Proof.
  intros Hr Hg H16. pose proof (zlen_nonneg (e_name e)). pose proof (zlen_nonneg X). unfold add_rec_len, set_rec_len, enc_entry, entry_header.
  set (rest := [zlen (e_name e); e_type e] ++ e_name e). fold (zeros (r - 8 - zlen (e_name e))). fold (zeros (r + g - 8 - zlen (e_name e))).
  assert (forall r' z, X ++ ((le_encode 4 (e_inode e) ++ le_encode 2 r' ++ [zlen (e_name e); e_type e]) ++ e_name e ++ z) ++ zeros n =
    (X ++ le_encode 4 (e_inode e)) ++ le_encode 2 r' ++ (rest ++ z ++ zeros n)) as E by (intros; unfold rest; by rewrite <- !app_assoc).
  rewrite E, (mem_read_app _ (le_encode 2 r)) by (by rewrite ?zlen_app). cbn [mbind res_bind].
  rewrite le_decode_u16, u16_small by (unfold is_u16; lia). rewrite mem_write_app; [|by rewrite zlen_app|].
  2: { rewrite zlen_app, !zlen_le_encode. pose proof (zlen_nonneg (rest ++ zeros (r - 8 - zlen (e_name e)) ++ zeros n)). lia. }
  rewrite zdrop_app_exact by done. unfold rest. rewrite <- !app_assoc. do 6 f_equal. rewrite <- !zeros_add by lia. f_equal. lia.
Qed.

(** An entry is written behind the others. *)
Lemma write_entry_spec X e n :
  zlen (e_name e) <= 255 -> rec_len_of (e_name e) <= n ->
  (data ← mem_write (X ++ zeros n) (zlen X) (entry_header (rec_len_of (e_name e)) e);
   mem_write data (zlen X + 8) (e_name e)) = Ok (X ++ enc_entry (rec_len_of (e_name e), e) ++ zeros (n - rec_len_of (e_name e))).
Proof.
  intros Hn Hr. pose proof (rec_len_bounds (e_name e) Hn) as [Hb _]. pose proof (zlen_nonneg (e_name e)).
  rewrite mem_write_app by (rewrite ?zlen_header, ?zlen_zero_bytes; (done || lia)). cbn [mbind res_bind]. rewrite zlen_header, zdrop_zeros by lia.
  rewrite app_assoc, mem_write_app by (rewrite ?zlen_app, ?zlen_header, ?zlen_zero_bytes; (done || lia)). rewrite zdrop_zeros by lia.
  unfold enc_entry. rewrite <- !app_assoc. do 4 f_equal. fold (zeros (rec_len_of (e_name e) - 8 - zlen (e_name e))). rewrite <- zeros_add by lia. f_equal. lia.
Qed.

(** Where an entry of length [r] goes behind [off] bytes. *)
Definition place (bs off r : Z) : Z := if bs <? off mod bs + r then off + (bs - off mod bs) else off.

Lemma place_spec bs off r :
  0 < r <= bs -> 0 <= off ->
  off <= place bs off r /\ place bs off r / bs = (place bs off r + r - 1) / bs /\
  (if off / bs =? (off + r - 1) / bs then place bs off r = off
   else place bs off r = (off + r - 1) / bs * bs /\ off mod bs <> 0 /\ place bs off r < off + bs /\ off / bs = (place bs off r - 1) / bs).
Proof.
  intros Hr Ho. pose proof (Z.div_mod off bs ltac:(lia)) as D. pose proof (Z.mod_pos_bound off bs ltac:(lia)) as B. unfold place.
  destruct (Z.ltb_spec bs (off mod bs + r)) as [H|H].
  - assert ((off + r - 1) / bs = off / bs + 1) as E1 by (symmetry; apply (Z.div_unique_pos _ _ _ (off mod bs + r - 1 - bs)); lia).
    assert ((off + (bs - off mod bs)) / bs = off / bs + 1) as E2 by (symmetry; apply (Z.div_unique_pos _ _ _ 0); lia).
    assert ((off + (bs - off mod bs) + r - 1) / bs = off / bs + 1) as E3 by (symmetry; apply (Z.div_unique_pos _ _ _ (r - 1)); lia).
    assert ((off + (bs - off mod bs) - 1) / bs = off / bs) as E4 by (symmetry; apply (Z.div_unique_pos _ _ _ (bs - 1)); lia).
    rewrite E1, E2, E3, E4. destruct (Z.eqb_spec (off / bs) (off / bs + 1)); [lia|]. split; [lia|]. split; [done|]. split; [lia|]. split; [lia|]. split; [lia|done].
  - assert ((off + r - 1) / bs = off / bs) as E1 by (symmetry; apply (Z.div_unique_pos _ _ _ (off mod bs + r - 1)); lia).
    rewrite E1, Z.eqb_refl. lia.
Qed.

Section adding.
Context (bs N : Z) (Hbs : 264 <= bs <= 2 ^ 15) (Hbs4 : bs mod 4 = 0) (HN : N < 2 ^ 32).

(** A buffer of [N] bytes with entries, the last of which is [e]. *)
Record dir_at (init : list (Z * entry)) (e : entry) (data : bytes) (off prev : Z) : Prop := {
  da_chain : chain bs 0 (init ++ [(rec_len_of (e_name e), e)]);
  da_prev : prev = chain_len init;
  da_off : off = prev + rec_len_of (e_name e) /\ off <= N;
  da_data : data = flat init ++ enc_entry (rec_len_of (e_name e), e) ++ zeros (N - off);
}.

Lemma chain_len_nonneg l : forall p, chain bs p l -> 0 <= chain_len l.
Proof. intros p H. rewrite <- (zlen_flat _ _ _ H). apply zlen_nonneg. Qed.

Lemma chain_len_mod4 l : forall p, chain bs p l -> chain_len l mod 4 = 0.
Proof.
  induction l as [|x l IH]; intros p; cbn [chain chain_len]; [done|]. intros [(_ & _ & H4 & _) Hl].
  rewrite Z.add_mod, H4, (IH _ Hl) by done. done.
Qed.

(** Making the last entry reach the place of the next. *)
Lemma placed_padded p r e r' :
  placed bs p (r, e) -> 0 <= p -> p mod 4 = 0 -> r <= 264 -> 0 < r' <= bs ->
  placed bs p (r + (place bs (p + r) r' - (p + r)), e).
Proof.
  intros (He & Hr & H4 & Hb) Hp Hp4 H264 Hr'. cbn [fst snd] in *. pose proof (rec_len_bounds (e_name e) ltac:(unfold entry_ok in He; lia)) as [Hrb _].
  pose proof (zlen_nonneg (e_name e)). destruct (place_spec bs (p + r) r' Hr' ltac:(lia)) as (P1 & P2 & P3).
  destruct (Z.eqb_spec ((p + r) / bs) ((p + r + r' - 1) / bs)) as [E|E].
  - rewrite P3. replace (r + (p + r - (p + r))) with r by lia. done.
  - destruct P3 as (P3 & P4 & P5 & P6). split; [done|]. cbn [fst snd]. split; [lia|]. split.
    + replace (r + (place bs (p + r) r' - (p + r))) with (place bs (p + r) r' - p) by lia. rewrite P3.
      rewrite Zdiv.Zminus_mod, Hp4, Z.mul_mod, Hbs4 by done. by rewrite Z.mul_0_r.
    + replace (p + (r + (place bs (p + r) r' - (p + r))) - 1) with (place bs (p + r) r' - 1) by lia. rewrite <- P6, Hb.
      symmetry. apply (Z.div_unique_pos _ _ _ ((p + r) mod bs - 1)); pose proof (Z.mod_pos_bound (p + r) bs ltac:(lia)); pose proof (Z.div_mod (p + r) bs ltac:(lia)); lia.
Qed.

Lemma u16_rec_len e : entry_ok e -> u8 (zlen (e_name e)) = zlen (e_name e) /\ u16 (8 + EXT4_ALIGN (zlen (e_name e)) 4) = rec_len_of (e_name e) /\
  0 < rec_len_of (e_name e) <= bs /\ rec_len_of (e_name e) <= 264.
Proof.
  intros [_ Hn]. pose proof (rec_len_bounds (e_name e) ltac:(lia)) as [Hb H4].
  assert (rec_len_of (e_name e) <= 264) by (unfold rec_len_of, EXT4_ALIGN in *; pose proof (Z.div_le_mono (zlen (e_name e) + 4 - 1) 258 4); change (258 / 4) with 64 in *; lia).
  unfold u8. rewrite Z.mod_small by lia. rewrite u16_small by (unfold is_u16; change (8 + EXT4_ALIGN (zlen (e_name e)) 4) with (rec_len_of (e_name e)); lia).
  split; [done|]. split; [done|]. lia.
Qed.

Lemma add_dentry_first e data :
  entry_ok e -> data = zeros N -> rec_len_of (e_name e) <= N ->
  exists data', add_dentry bs data 0 None (e_inode e) (e_name e) (e_type e) = Ok (data', rec_len_of (e_name e), 0) /\
    dir_at [] e data' (rec_len_of (e_name e)) 0.
Proof.
  intros He -> HrN. destruct (u16_rec_len e He) as (E8 & E16 & Hr & H264). unfold add_dentry. rewrite E8, E16.
  rewrite (u32_small (0 + _)) by (unfold is_u32; lia). rewrite Z.add_0_l, (Z.div_small 0), (Z.div_small (rec_len_of _ - 1)) by lia. rewrite Z.eqb_refl. cbn [negb mbind res_bind].
  pose proof (write_entry_spec [] e N ltac:(unfold entry_ok in He; lia) HrN) as HW. change (zlen []) with 0 in HW. cbn [app] in HW.
  change (le_encode 4 (e_inode e) ++ le_encode 2 (rec_len_of (e_name e)) ++ [zlen (e_name e); e_type e]) with (entry_header (rec_len_of (e_name e)) e).
  rewrite ztake_all by done. destruct (mem_write (zeros N) 0 _) as [d| |]; cbn [mbind res_bind] in HW |- *; try done. rewrite HW. cbn [mbind res_bind].
  rewrite u32_small by (unfold is_u32; lia). eexists. split; [reflexivity|]. split; [|done|lia|done].
  cbn [app chain]. split; [|done]. split; [done|]. cbn [fst snd]. pose proof (rec_len_bounds (e_name e) ltac:(unfold entry_ok in He; lia)) as [_ H4].
  split; [lia|]. split; [done|]. rewrite Z.add_0_l, !Z.div_small by lia. done.
Qed.

Lemma add_dentry_next init e data off prev e' :
  dir_at init e data off prev -> entry_ok e' ->
  let r' := rec_len_of (e_name e') in let off' := place bs off r' in
  off' + r' <= N ->
  exists data', add_dentry bs data off (Some prev) (e_inode e') (e_name e') (e_type e') = Ok (data', off' + r', off') /\
    dir_at (init ++ [(rec_len_of (e_name e) + (off' - off), e)]) e' data' (off' + r') off'.
Proof.
  intros [Hc Hp [Ho HoN] Hd] He' r' off' HoN'. apply chain_app in Hc as [Hc [Hpl _]]. rewrite Z.add_0_l, <- Hp in Hpl.
  pose proof (chain_len_nonneg _ _ Hc) as Hp0. pose proof (chain_len_mod4 _ _ Hc) as Hp4. rewrite <- Hp in Hp0, Hp4.
  pose proof Hpl as ((Hei & Hen) & Hrr & Hr4 & Hbb). cbn [fst snd] in *.
  destruct (u16_rec_len e (conj Hei Hen)) as (_ & _ & Hr & H264). destruct (u16_rec_len e' He') as (E8 & E16 & Hr' & H264'). fold r' in E16, Hr', H264'.
  pose proof (placed_padded prev _ e r' Hpl Hp0 Hp4 H264 Hr') as Hpad. rewrite <- Ho in Hpad. fold off' in Hpad.
  destruct (place_spec bs off r' Hr' ltac:(lia)) as (P1 & P2 & P3). fold off' in P1, P2, P3.
  pose proof Hpad as (_ & [_ H16] & _). cbn [fst snd] in H16.
  unfold add_dentry. rewrite E8, E16. replace (off + (r' - 1)) with (off + r' - 1) by lia. rewrite (u32_small (off + r' - 1)) by (unfold is_u32; lia).
  assert ((if negb (off / bs =? (off + r' - 1) / bs)
     then data ← add_rec_len data prev (u32 ((off + r' - 1) / bs * bs) -u32 off); Ok (data, u32 ((off + r' - 1) / bs * bs))
     else Ok (data, off)) = Ok (flat (init ++ [(rec_len_of (e_name e) + (off' - off), e)]) ++ zeros (N - off'), off')) as ->.
  { rewrite flat_app, flat_single, <- app_assoc. destruct (Z.eqb_spec (off / bs) ((off + r' - 1) / bs)) as [E|E]; cbn [negb].
    - rewrite P3, Hd, Z.sub_diag, Z.add_0_r. done.
    - destruct P3 as (P3 & _). rewrite <- P3, (u32_small off') by (unfold is_u32; lia). rewrite (u32_small (off' - off)) by (unfold is_u32; lia).
      assert (prev = zlen (flat init)) as -> by (by rewrite (zlen_flat _ _ _ Hc)). rewrite Hd.
      rewrite add_rec_len_spec by (apply placed_room in Hpl; cbn [fst snd] in Hpl; lia). cbn [mbind res_bind]. do 5 f_equal. lia. }
  cbn [mbind res_bind]. set (X := flat (init ++ _)).
  assert (chain bs 0 (init ++ [(rec_len_of (e_name e) + (off' - off), e)])) as Hc'.
  { apply chain_app. split; [done|]. cbn [chain]. by rewrite Z.add_0_l, <- Hp. }
  assert (off' = zlen X) as EX. { unfold X. rewrite (zlen_flat _ _ _ Hc'), chain_len_app. cbn [chain_len fst]. lia. }
  pose proof (write_entry_spec X e' (N - off') ltac:(unfold entry_ok in He'; lia) ltac:(fold r'; lia)) as HW. rewrite <- EX in HW. fold r' in HW.
  change (le_encode 4 (e_inode e') ++ le_encode 2 r' ++ [zlen (e_name e'); e_type e']) with (entry_header r' e').
  rewrite ztake_all by done. destruct (mem_write (X ++ zeros (N - off')) off' _) as [d| |]; cbn [mbind res_bind] in HW |- *; try done. rewrite HW. cbn [mbind res_bind].
  rewrite u32_small by (unfold is_u32; lia). eexists. split; [reflexivity|]. fold r'. split; fold r'.
  - apply chain_app. split; [done|]. cbn [chain]. split; [|done]. rewrite Z.add_0_l, chain_len_app. cbn [chain_len fst].
    replace (chain_len init + (rec_len_of (e_name e) + (off' - off) + 0)) with off' by lia. split; [done|]. cbn [fst snd].
    pose proof (rec_len_bounds (e_name e') ltac:(unfold entry_ok in He'; lia)) as [_ H4']. split; [fold r'; lia|]. done.
  - rewrite chain_len_app. cbn [chain_len fst]. lia.
  - lia.
  - fold X. do 3 f_equal. lia.
Qed.
End adding.

(** * The whole directory *)

Definition dentry_ok (d : dentry) : Prop := 0 < zlen (filename d) <= 255.
Definition entry_of (d : dentry) : entry := Entry 0 (filename d) (file_type d).

(** The size of a directory, without overflow. *)
Definition dir_step (bs off : Z) (d : dentry) : Z := place bs off (rec_len_of (filename d)) + rec_len_of (filename d).
Definition dir_size (bs : Z) (l : list dentry) : Z := foldl (dir_step bs) 24 l.

Fixpoint positions (p : Z) (l : list (Z * entry)) : list Z :=
  match l with [] => [] | x :: l => p :: positions (p + x.1) l end.

Lemma positions_app l k : forall p, positions p (l ++ k) = positions p l ++ positions (p + chain_len l) k.
Proof. induction l as [|x l IH]; intros p; cbn [app positions chain_len]; [by rewrite Z.add_0_r|]. by rewrite IH, Z.add_assoc. Qed.

Section whole.
Context (bs : Z) (Hbs : 264 <= bs <= 2 ^ 15) (Hbs4 : bs mod 4 = 0).

Lemma entry_of_ok d : dentry_ok d -> entry_ok (entry_of d).
Proof. done. Qed.

Lemma dir_step_grows off d : dentry_ok d -> 0 <= off -> off < dir_step bs off d <= off + bs + 264.
Proof.
  intros Hd Ho. destruct (u16_rec_len bs Hbs (entry_of d) (entry_of_ok d Hd)) as (_ & _ & Hr & H264). cbn [entry_of e_name] in *. unfold dir_step.
  destruct (place_spec bs off _ Hr Ho) as (P1 & _ & P3). destruct (_ =? _); lia.
Qed.

Lemma dir_size_grows l : forall off, Forall dentry_ok l -> 0 <= off -> off <= foldl (dir_step bs) off l /\ (l <> [] -> off < foldl (dir_step bs) off l).
Proof.
  induction l as [|d l IH]; intros off Hl Ho; cbn [foldl]; [split; [lia|done]|]. apply list.Forall_cons in Hl as [Hd Hl].
  pose proof (dir_step_grows off d Hd Ho). destruct (IH (dir_step bs off d) Hl ltac:(lia)) as [H1 _]. split; [lia|]. intros _. lia.
Qed.

Lemma dentry_size_dir_size l : forall off,
  Forall dentry_ok l -> 0 <= off -> foldl (dir_step bs) off l + bs < 2 ^ 32 -> foldl (dentry_size_step bs) off l = foldl (dir_step bs) off l.
Proof.
  induction l as [|d l IH]; intros off Hl Ho Hlim; [done|]. apply list.Forall_cons in Hl as [Hd Hl]. cbn [foldl] in *.
  pose proof (dir_step_grows off d Hd Ho) as Hg. destruct (dir_size_grows l (dir_step bs off d) Hl ltac:(lia)) as [Hm _].
  assert (dentry_size_step bs off d = dir_step bs off d) as ->; [|apply IH; [done|lia|done]].
  destruct (u16_rec_len bs Hbs (entry_of d) (entry_of_ok d Hd)) as (_ & _ & Hr & H264). cbn [entry_of e_name] in *.
  pose proof (Z.mod_pos_bound off bs ltac:(lia)). pose proof (rec_len_bounds (filename d) ltac:(unfold dentry_ok in Hd; lia)) as [Hb _].
  pose proof (zlen_nonneg (filename d)). unfold dentry_size_step, dir_step, place in *.
  unfold rec_len_of in *. rewrite !(u32_small (EXT4_ALIGN _ _)) by (unfold is_u32; lia). rewrite !(u32_small (8 + _)) by (unfold is_u32; lia).
  rewrite (u32_small (off mod bs + _)) by (unfold is_u32; lia). destruct (bs <? _).
  - rewrite (u32_small (off + _)) by (unfold is_u32; lia). rewrite u32_small by (unfold is_u32; lia). done.
  - rewrite u32_small by (unfold is_u32; lia). done.
Qed.

Lemma add_dentries_spec N l : forall init e data off prev,
  N < 2 ^ 32 -> dir_at bs N init e data off prev -> Forall dentry_ok l -> foldl (dir_step bs) off l <= N ->
  exists init' e' data' prev' ptrs,
    add_dentries bs N data off prev l = Ok (data', foldl (dir_step bs) off l, prev', ptrs) /\
    dir_at bs N init' e' data' (foldl (dir_step bs) off l) prev' /\
    init'.*2 ++ [e'] = init.*2 ++ [e] ++ (entry_of <$> l) /\
    positions 0 init' ++ [prev'] = positions 0 init ++ [prev] ++ ptrs.
Proof.
  induction l as [|d l IH]; intros init e data off prev HN Ha Hl Hlim.
  { exists init, e, data, prev, []. cbn [add_dentries foldl fmap list_fmap]. rewrite app_nil_r. split; [done|]. split; [done|]. split; [done|]. by rewrite app_nil_r. }
  apply list.Forall_cons in Hl as [Hd Hl]. cbn [foldl] in Hlim. assert (0 <= off) as Ho.
  { destruct Ha as [Hc Hp [Ho _] _]. apply chain_app in Hc as [Hc [Hpl _]]. apply placed_room in Hpl. cbn [fst snd] in Hpl.
    pose proof (chain_len_nonneg bs _ _ Hc). pose proof (zlen_nonneg (e_name e)). lia. }
  pose proof (dir_step_grows off d Hd Ho) as Hg. destruct (dir_size_grows l (dir_step bs off d) Hl ltac:(lia)) as [Hm1 Hm2].
  destruct (add_dentry_next bs N Hbs Hbs4 HN init e data off prev (entry_of d) Ha (entry_of_ok d Hd)) as (data1 & E1 & Ha1); [unfold dir_step in *; cbn [entry_of e_name]; lia|].
  cbn [entry_of e_name e_type e_inode] in E1, Ha1. fold (entry_of d) in Ha1. fold (dir_step bs off d) in E1, Ha1.
  set (off' := place bs off (rec_len_of (filename d))) in *.
  destruct (IH _ _ _ _ _ HN Ha1 Hl Hlim) as (init' & e' & data' & prev' & ptrs & E2 & Ha2 & He & Hp).
  exists init', e', data', prev', (off' :: ptrs). cbn [add_dentries foldl]. rewrite E1. cbn [mbind res_bind].
  assert ((N <? dir_step bs off d) || ((dir_step bs off d =? N) && negb (bool_decide (l = []))) = false) as ->.
  { apply orb_false_iff. split; [lia|]. destruct (Z.eqb_spec (dir_step bs off d) N); [|done]. cbn [andb].
    apply negb_false_iff, bool_decide_eq_true_2. destruct l; [done|]. specialize (Hm2 ltac:(done)). lia. }
  rewrite E2. cbn [mbind res_bind]. split; [done|]. split; [done|]. split.
  - rewrite He, fmap_app. cbn [fmap list_fmap snd]. by rewrite <- !app_assoc.
  - rewrite Hp, positions_app. cbn [positions]. rewrite <- !app_assoc. cbn [app]. do 2 f_equal.
    destruct Ha as [_ -> _ _]. by rewrite Z.add_0_l.
Qed.

(** ** Inode numbers *)

Definition set_inode (n : Z) (x : Z * entry) : Z * entry := (x.1, Entry n (e_name x.2) (e_type x.2)).

Lemma store_inode_at pre x rest n :
  mem_write (pre ++ enc_entry x ++ rest) (zlen pre) (le_encode 4 n) = Ok (pre ++ enc_entry (set_inode n x) ++ rest).
Proof.
  destruct x as [r e]. unfold enc_entry, set_inode, entry_header. cbn [fst snd e_name e_type e_inode]. rewrite <- !app_assoc.
  set (R := le_encode 2 r ++ _). pose proof (zlen_nonneg R).
  rewrite mem_write_app; [|done|rewrite zlen_app, !zlen_le_encode; lia]. by rewrite zdrop_app_exact.
Qed.

Lemma placed_set_inode p x n : is_u32 n -> placed bs p x -> placed bs p (set_inode n x).
Proof. intros Hn ((_ & ?) & ?). done. Qed.

Lemma store_inodes_spec l : forall pre nums, chain bs (zlen pre) l -> length nums = length l -> Forall is_u32 nums ->
  exists l', store_inodes (pre ++ flat l) (positions (zlen pre) l) nums = Ok (pre ++ flat l') /\ chain bs (zlen pre) l' /\ chain_len l' = chain_len l /\
    ((fun x => (e_inode x.2, e_name x.2, e_type x.2)) <$> l') = zip_with (fun n x => (n, e_name x.2, e_type x.2)) nums l.
Proof.
  induction l as [|x l IH]; intros pre [|n nums] Hc Hl Hn; try done; [by exists []|].
  cbn [positions store_inodes]. cbn [chain] in Hc. destruct Hc as [Hx Hc]. apply list.Forall_cons in Hn as [Hn Hns].
  change (flat (x :: l)) with (enc_entry x ++ flat l). rewrite store_inode_at. cbn [mbind res_bind].
  assert (zlen (enc_entry (set_inode n x)) = x.1) as Hz by (destruct x; apply zlen_enc_entry; by apply placed_room in Hx).
  specialize (IH (pre ++ enc_entry (set_inode n x)) nums). rewrite zlen_app, Hz, <- app_assoc in IH.
  destruct IH as (l' & E & Hc' & Hlen & He); [done|by injection Hl|done|]. exists (set_inode n x :: l').
  rewrite E, <- app_assoc. split; [done|]. split; [split; [by apply placed_set_inode|done]|]. split; [cbn [chain_len set_inode fst]; by rewrite Hlen|].
  cbn [fmap list_fmap zip_with]. by rewrite He.
Qed.

(** The last entry is made to reach the end. *)
Lemma finish_dir N init e data off prev :
  N < 2 ^ 32 -> N mod bs = 0 -> N < off + bs -> dir_at bs N init e data off prev ->
  let x := (rec_len_of (e_name e) + (N - off), e) in
  add_rec_len data prev (N -u32 off) = Ok (flat (init ++ [x])) /\ chain bs 0 (init ++ [x]) /\ chain_len (init ++ [x]) = N.
Proof.
  intros HN HNb HNo [Hc Hp [Ho HoN] Hd] x. apply chain_app in Hc as [Hc [Hpl _]]. rewrite Z.add_0_l, <- Hp in Hpl.
  pose proof (chain_len_nonneg _ _ _ Hc) as Hp0. pose proof (chain_len_mod4 _ _ _ Hc) as Hp4. rewrite <- Hp in Hp0, Hp4.
  pose proof Hpl as ((Hei & Hen) & Hrr & Hr4 & Hbb). cbn [fst snd] in *. pose proof (placed_room _ _ _ Hpl) as Hroom. cbn [fst snd] in Hroom.
  destruct (u16_rec_len bs Hbs e (conj Hei Hen)) as (_ & _ & Hr & H264). pose proof (zlen_nonneg (e_name e)).
  rewrite (u32_small (N - off)) by (unfold is_u32; lia). split; [|split].
  - assert (prev = zlen (flat init)) as -> by (by rewrite (zlen_flat _ _ _ Hc)). rewrite Hd, add_rec_len_spec by lia.
    rewrite flat_app, flat_single, Z.sub_diag. change (zeros 0) with (@nil Z). by rewrite app_nil_r.
  - apply chain_app. split; [done|]. cbn [chain]. split; [|done]. rewrite Z.add_0_l, <- Hp. split; [done|]. unfold x. cbn [fst snd]. split; [lia|].
    pose proof (Z.div_mod N bs ltac:(lia)) as DN. split.
    + replace (rec_len_of (e_name e) + (N - off)) with (N - prev) by lia. rewrite Zdiv.Zminus_mod, Hp4.
      replace N with (bs * (N / bs)) by lia. rewrite Z.mul_mod, Hbs4 by done. done.
    + replace (prev + (rec_len_of (e_name e) + (N - off)) - 1) with (N - 1) by lia. rewrite Hbb.
      assert ((N - 1) / bs = N / bs - 1) as -> by (symmetry; apply (Z.div_unique_pos _ _ _ (bs - 1)); lia).
      symmetry. apply (Z.div_unique_pos _ _ _ (off - 1 - bs * (N / bs - 1))); lia.
  - rewrite chain_len_app. unfold x. cbn [chain_len fst]. lia.
Qed.
End whole.

(** The buffer is a chain of the entries. *)
Lemma fill_directory_chain bs inode_num dir_inode_num dentries :
  264 <= bs <= 2 ^ 15 -> bs mod 4 = 0 -> is_u32 inode_num -> is_u32 dir_inode_num ->
  Forall dentry_ok dentries -> dir_size bs dentries + bs < 2 ^ 32 ->
  let len := u32 (DIV_ROUND_UP 32 (dentry_size bs dentries) bs * bs) in
  exists L ptrs,
    fill_directory bs inode_num dir_inode_num len dentries (replicate (Z.to_nat len) 0) = Ok (flat L, ptrs) /\
    chain bs 0 L /\ chain_len L = len /\ positions 0 L = 0 :: 12 :: ptrs /\
    L.*2 = Entry inode_num (str ".") 2 :: Entry dir_inode_num (str "..") 2 :: (entry_of <$> dentries).
Proof.
  intros Hbs Hbs4 Hi Hdi Hl Hsz len.
  destruct (dir_size_grows bs Hbs dentries 24 Hl ltac:(lia)) as [H24 _]. fold (dir_size bs dentries) in H24.
  set (sz := dir_size bs dentries) in *.
  assert (len = (sz + bs - 1) / bs * bs /\ sz <= len < sz + bs) as [Elen Hlen].
  { assert (dentry_size bs dentries = sz) as ES by (apply dentry_size_dir_size; (done || lia)).
    pose proof (Z.div_mod (sz + bs - 1) bs ltac:(lia)). pose proof (Z.mod_pos_bound (sz + bs - 1) bs ltac:(lia)).
    unfold len, DIV_ROUND_UP. rewrite ES, (Z.mod_small (sz + bs - 1)) by lia. rewrite u32_small by (unfold is_u32; lia). lia. }
  assert (len mod bs = 0) as Hmod by (rewrite Elen; apply Z.mod_mul; lia).
  assert (len < 2 ^ 32) as HN by lia. clearbody len.
  set (e1 := Entry inode_num (str ".") 2). set (e2 := Entry dir_inode_num (str "..") 2).
  destruct (add_dentry_first bs len Hbs e1 (zeros len)) as (d1 & E1 & A1); [by split|done|change (rec_len_of (e_name e1)) with 12; lia|].
  change (rec_len_of (e_name e1)) with 12 in *.
  assert (place bs 12 12 = 12) as P12 by (unfold place; rewrite Z.mod_small by lia; destruct (Z.ltb_spec bs (12 + 12)); lia).
  destruct (add_dentry_next bs len Hbs Hbs4 HN [] e1 d1 12 0 e2 A1) as (d2 & E2 & A2); [by split|change (rec_len_of (e_name e2)) with 12; lia|].
  change (rec_len_of (e_name e2)) with 12 in *. rewrite P12 in *. change (12 + 12) with 24 in *. change (rec_len_of (e_name e1)) with 12 in *.
  destruct (add_dentries_spec bs Hbs Hbs4 len dentries _ _ _ _ _ HN A2 Hl) as (init & e & d3 & prev & ptrs & E3 & A3 & He & Hp); [fold (dir_size bs dentries); fold sz; lia|].
  fold (dir_size bs dentries) in E3, A3. fold sz in E3, A3.
  destruct (finish_dir bs Hbs Hbs4 len init e d3 sz prev HN Hmod ltac:(lia) A3) as (E4 & C4 & L4). set (L := init ++ _) in *.
  exists L, ptrs. split; [|split; [done|split; [done|split]]].
  - cbn [e1 e2 e_inode e_name e_type] in E1, E2. unfold fill_directory, EXT4_FT_DIR. change (replicate (Z.to_nat len) 0) with (zeros len).
    rewrite E1. cbn [mbind res_bind]. rewrite E2. cbn [mbind res_bind]. rewrite E3. cbn [mbind res_bind]. rewrite E4. done.
  - unfold L. rewrite positions_app. cbn [positions]. rewrite Z.add_0_l, <- (da_prev _ _ _ _ _ _ _ A3), Hp. done.
  - unfold L. rewrite fmap_app. exact He.
Qed.

(** C24: the buffer of a directory.  For names of 1 to 255 bytes, a block size that
    is a multiple of 4 between 264 and 32768, 32-bit inode numbers and a directory
    whose size and one block more are below 2^32: the size that [make_directory]
    computes ([dentry_size], rounded up to blocks) is enough, and its part that
    fills the zeroed buffer ([fill_directory]) makes no write outside it and fails
    no check.  When the inode numbers, one per entry, are then stored at
    the locations that it leaves in the entries, reading the buffer as a file
    system does ([read_dir]) gives ".", ".." and the entries, in order, with their
    names, types and inode numbers; no entry crosses the end of a block, and the
    entries fill the buffer up to its end. *)
Theorem directory_roundtrip bs inode_num dir_inode_num dentries nums :
  264 <= bs <= 2 ^ 15 -> bs mod 4 = 0 -> is_u32 inode_num -> is_u32 dir_inode_num ->
  Forall dentry_ok dentries -> dir_size bs dentries + bs < 2 ^ 32 ->
  length nums = length dentries -> Forall is_u32 nums ->
  let len := u32 (DIV_ROUND_UP 32 (dentry_size bs dentries) bs * bs) in
  exists data ptrs data',
    fill_directory bs inode_num dir_inode_num len dentries (replicate (Z.to_nat len) 0) = Ok (data, ptrs) /\
    store_inodes data ptrs nums = Ok data' /\ zlen data' = len /\
    read_dir (S (S (length dentries))) bs data' 0 =
      Some ((inode_num, str ".", 2) :: (dir_inode_num, str "..", 2) :: zip_with (fun n d => (n, filename d, file_type d)) nums dentries).
Proof.
  intros Hbs Hbs4 Hi Hdi Hl Hsz Hn Hns len.
  destruct (fill_directory_chain bs inode_num dir_inode_num dentries Hbs Hbs4 Hi Hdi Hl Hsz) as (L & ptrs & E4 & C4 & L4 & HP & HL).
  set (e1 := Entry inode_num (str ".") 2) in *. set (e2 := Entry dir_inode_num (str "..") 2) in *. fold len in E4, L4.
  destruct L as [|[r1 x1] [|[r2 x2] L]]; try done. cbn [fmap list_fmap snd] in HL. injection HL as -> -> HL.
  cbn [positions fst] in HP. injection HP as _ Hptr.
  set (pre := enc_entry (r1, e1) ++ enc_entry (r2, e2)). pose proof C4 as (C1 & C2 & C3). cbn [fst] in C2, C3.
  assert (zlen pre = 0 + r1 + r2) as Hpre.
  { unfold pre. rewrite zlen_app, !zlen_enc_entry by (by apply placed_room in C1; apply placed_room in C2). lia. }
  destruct (store_inodes_spec bs L pre nums) as (L' & E5 & C5 & L5 & He5); [by rewrite Hpre| |done|].
  { rewrite Hn, <- (length_fmap entry_of dentries), <- HL. apply length_fmap. }
  exists (flat ((r1, e1) :: (r2, e2) :: L)), ptrs, (pre ++ flat L').
  assert (flat ((r1, e1) :: (r2, e2) :: L) = pre ++ flat L) as Ef by (unfold pre; by rewrite <- app_assoc).
  split_and!; [done|rewrite Ef, <- Hptr, <- Hpre; exact E5|rewrite zlen_app, (zlen_flat _ _ _ C5), L5, Hpre; cbn [chain_len fst] in L4; lia|].
  pose proof (read_chain bs ((r1, e1) :: (r2, e2) :: L') (S (S (length dentries))) []) as HR. cbn [app] in HR.
  change (flat ((r1, e1) :: (r2, e2) :: L')) with (enc_entry (r1, e1) ++ enc_entry (r2, e2) ++ flat L') in HR. rewrite app_assoc in HR. fold pre in HR.
  change (zlen []) with 0 in HR. rewrite HR; clear HR.
  - cbn [fmap list_fmap]. rewrite He5. do 3 f_equal. rewrite <- (zip_with_fmap_r (fun n e => (n, e_name e, e_type e)) snd), HL, zip_with_fmap_r. done.
  - cbn [chain fst]. by rewrite <- Hpre.
  - cbn [length]. apply (f_equal length) in HL, He5. rewrite !length_fmap in HL. rewrite length_fmap, length_zip_with in He5. lia.
Qed.

Lemma directory_roundtrip_witness :
  let dentries := [Dentry (str "system") 2; Dentry (str "init.rc") 1] in
  let len := u32 (DIV_ROUND_UP 32 (dentry_size 264 dentries) 264 * 264) in
  exists data ptrs data',
    fill_directory 264 12 2 len dentries (replicate (Z.to_nat len) 0) = Ok (data, ptrs) /\
    store_inodes data ptrs [13; 14] = Ok data' /\ zlen data' = len /\
    read_dir 4 264 data' 0 = Some [(12, str ".", 2); (2, str "..", 2); (13, str "system", 2); (14, str "init.rc", 1)].
Proof.
  apply (directory_roundtrip 264 12 2 [Dentry (str "system") 2; Dentry (str "init.rc") 1] [13; 14]).
  - lia.
  - reflexivity.
  - unfold is_u32. lia.
  - unfold is_u32. lia.
  - repeat apply Forall_cons_2; [vm_compute; split; congruence|vm_compute; split; congruence|apply Forall_nil_2].
  - vm_compute. reflexivity.
  - reflexivity.
  - repeat apply Forall_cons_2; [unfold is_u32; lia|unfold is_u32; lia|apply Forall_nil_2].
Defined.
