(* ===== verification/Ext4Xattr.v ===== *)
(** Model of the extended attributes of src/ext4_utils/contents.c (and of the
    list of attribute blocks in allocate.c): entries grow from the front of a
    range of memory, their values from its end.

    The range is part of a byte array [m]: the inode table for attributes in the
    inode, a block otherwise; pointers are offsets in it. *)
From stdpp Require Import base gmap list numbers strings.
From Stdlib Require Import ZArith Lia.
From S2P Require Import Prelude Utils Ext4Base Ext4Allocate Ext4Extent Ext4Dir.

Definition EXT4_XATTR_MAGIC : Z := 0xEA020000.
Definition EXT4_XATTR_INDEX_SECURITY : Z := 6.
Definition EXT4_XATTR_ROUND : Z := 3.

(** In the unsigned type [size_t]. *)
Definition EXT4_XATTR_LEN (name_len : Z) : Z := Z.land (u64 (name_len + EXT4_XATTR_ROUND + 16)) (u64 (Z.lnot EXT4_XATTR_ROUND)).
Definition EXT4_XATTR_SIZE (size : Z) : Z := Z.land (u64 (size + EXT4_XATTR_ROUND)) (u64 (Z.lnot EXT4_XATTR_ROUND)).

(** A field of the entry at [p]. *)
Definition e_name_len (m : bytes) (p : Z) : res Z := b ← mem_read m p 1; Ok (le_decode b).
Definition e_name_index (m : bytes) (p : Z) : res Z := b ← mem_read m (p + 1) 1; Ok (le_decode b).
Definition e_value_offs (m : bytes) (p : Z) : res Z := b ← mem_read m (p + 2) 2; Ok (le_decode b).
Definition e_value_block (m : bytes) (p : Z) : res Z := b ← mem_read m (p + 4) 4; Ok (le_decode b).
Definition e_value_size (m : bytes) (p : Z) : res Z := b ← mem_read m (p + 8) 4; Ok (le_decode b).

Definition IS_LAST_ENTRY (m : bytes) (p : Z) : res bool := b ← mem_read m p 4; Ok (le_decode b =? 0).
Definition EXT4_XATTR_NEXT (m : bytes) (p : Z) : res Z := n ← e_name_len m p; Ok (p + EXT4_XATTR_LEN n).

Section Xattrs.
Context (force : bool).

(** [while (!IS_LAST_ENTRY(entry) && entry < end)] *)
Fixpoint free_space_loop (fuel : nat) (m : bytes) (entry end_ : Z) : res (Z * Z) :=
  last ← IS_LAST_ENTRY m entry;
  if negb last && (entry <? end_) then
    match fuel with
    | O => OutOfBounds
    | S fuel =>
        size ← e_value_size m entry;
        next ← EXT4_XATTR_NEXT m entry;
        free_space_loop fuel m next (end_ - EXT4_XATTR_SIZE size)
    end
  else Ok (entry, end_).

(** An entry takes at least 16 bytes, so that there are less than bytes in [m]. *)
Definition xattr_free_space (m : bytes) (entry end_ : Z) : res Z :=
  '(entry, end_) ← free_space_loop (length m) m entry (end_ - 4);
  if end_ <? entry then error force;; Ok 0 else Ok (end_ - entry).

Fixpoint get_last_loop (fuel : nat) (m : bytes) (entry : Z) : res Z :=
  last ← IS_LAST_ENTRY m entry;
  if negb last then
    match fuel with
    | O => OutOfBounds
    | S fuel => next ← EXT4_XATTR_NEXT m entry; get_last_loop fuel m next
    end
  else Ok entry.
Definition xattr_get_last (m : bytes) (entry : Z) : res Z := get_last_loop (length m) m entry.

(** The sign of [memcmp]. *)
Fixpoint memcmp (a b : bytes) : Z :=
  match a, b with
  | x :: a, y :: b => if x <? y then -1 else if y <? x then 1 else memcmp a b
  | _, _ => 0
  end.

Fixpoint sane_loop (fuel : nat) (m : bytes) (entry : Z) : res unit :=
  last ← IS_LAST_ENTRY m entry;
  if negb last then
    match fuel with
    | O => OutOfBounds
    | S fuel =>
        next ← EXT4_XATTR_NEXT m entry;
        last ← IS_LAST_ENTRY m next;
        if (last : bool) then Ok tt
        else
          ni ← e_name_index m next; i ← e_name_index m entry;
          nl ← e_name_len m next; l ← e_name_len m entry;
          cmp ← (if negb (ni - i =? 0) then Ok (ni - i)
                 else if negb (nl - l =? 0) then Ok (nl - l)
                 else a ← mem_read m (next + 16) nl; b ← mem_read m (entry + 16) nl; Ok (memcmp a b));
          if cmp <? 0 then error force
          else if cmp =? 0 then error force
          else sane_loop fuel m next
    end
  else Ok tt.
Definition xattr_assert_sane (m : bytes) (entry : Z) : res unit := sane_loop (length m) m entry.

(** A [char] as a 32-bit number. *)
Definition char_u32 (c : Z) : Z := u32 (if c <? 128 then c else c - 256).

Fixpoint hash_name (hash : Z) (name : bytes) : Z :=
  match name with
  | [] => hash
  | c :: name => hash_name (Z.lxor (Z.lxor (u32 (Z.shiftl hash 5)) (Z.shiftr hash (32 - 5))) (char_u32 c)) name
  end.
Fixpoint hash_value (n : nat) (hash : Z) (m : bytes) (value : Z) : res Z :=
  match n with
  | O => Ok hash
  | S n =>
      b ← mem_read m value 4;
      hash_value n (Z.lxor (Z.lxor (u32 (Z.shiftl hash 16)) (Z.shiftr hash (32 - 16))) (le_decode b)) m (value + 4)
  end.

Definition ext4_xattr_hash_entry (m : bytes) (header entry : Z) : res bytes :=
  len ← e_name_len m entry;
  name ← mem_read m (entry + 16) len;
  let hash := hash_name 0 name in
  block ← e_value_block m entry;
  size ← e_value_size m entry;
  hash ← (if (block =? 0) && negb (size =? 0) then
            offs ← e_value_offs m entry;
            hash_value (Z.to_nat (Z.shiftr (size +u32 EXT4_XATTR_ROUND) 2)) hash m (header + offs)
          else Ok hash);
  mem_write m (entry + 12) (le_encode 4 hash).

(** Returns the memory and the new entry; [None] when there is no room. *)
Definition xattr_addto_range (m : bytes) (block_start block_end first name_index : Z) (name value : bytes) :
    res (bytes * option Z) :=
  let name_len := zlen name in
  let value_len := zlen value in
  if 255 <? name_len then Ok (m, None)
  else
    available_size ← xattr_free_space m first block_end;
    let needed_size := EXT4_XATTR_LEN name_len +u64 EXT4_XATTR_SIZE value_len in
    if available_size <? needed_size then Ok (m, None)
    else
      new_entry ← xattr_get_last m first;
      m ← mem_write m new_entry (replicate (Z.to_nat (EXT4_XATTR_LEN name_len)) 0);
      m ← mem_write m new_entry (le_encode 1 name_len);
      m ← mem_write m (new_entry + 1) (le_encode 1 name_index);
      m ← mem_write m (new_entry + 16) name;
      m ← mem_write m (new_entry + 4) (le_encode 4 0);
      m ← mem_write m (new_entry + 8) (le_encode 4 value_len);
      let val := new_entry + available_size - EXT4_XATTR_SIZE value_len in
      m ← mem_write m (new_entry + 2) (le_encode 2 (val - block_start));
      m ← mem_write m val (replicate (Z.to_nat (EXT4_XATTR_SIZE value_len)) 0);
      m ← mem_write m val value;
      xattr_assert_sane m first;;
      Ok (m, Some new_entry).
End Xattrs.

(** * Attributes of inodes *)

(** [sizeof(struct ext4_inode)]; the fields that are not in Ext4Dir.v. *)
Definition sizeof_ext4_inode : Z := 156.
Definition o_file_acl_lo : Z * Z := (104, 4).
Definition o_extra_isize : Z * Z := (128, 2).

Section Inodes.
Context (force : bool) (info : fs_info) (aux_info : fs_aux_info).

(** Work on the inode table that holds an inode. *)
Definition with_table {A} (ip : Z * Z) (f : bytes -> res (bytes * A)) : M A :=
  b ← load_bg ip.1;
  match inode_table b with
  | None => lift OutOfBounds
  | Some t => '(t, r) ← lift (f t); store_bg ip.1 (set_inode_table (Some t) (flags b) b);; mret r
  end.

Definition xattr_addto_inode (ip : Z * Z) (name_index : Z) (name value : bytes) : M Z :=
  let hdr := ip.2 + sizeof_ext4_inode in
  let first := hdr + 4 in
  let block_end := ip.2 + inode_size info in
  result ← with_table ip (fun t => xattr_addto_range force t first block_end first name_index name value);
  match result with
  | None => mret (-1)
  | Some _ =>
      store_field ip (sizeof_ext4_inode, 4) (le_encode 4 EXT4_XATTR_MAGIC);;
      store_num ip o_extra_isize (sizeof_ext4_inode - 128);;
      mret 0
  end.

(** [aux_info.xattrs], the blocks of attributes by inode. *)
Definition xattr_list : Type := list ((Z * Z) * bytes).

Definition xattr_list_find (ip : Z * Z) (xattrs : xattr_list) : option bytes :=
  snd <$> find (fun x => bool_decide (x.1 = ip)) xattrs.
Fixpoint xattr_list_store (ip : Z * Z) (block : bytes) (xattrs : xattr_list) : xattr_list :=
  match xattrs with
  | [] => []
  | x :: l => if bool_decide (x.1 = ip) then (ip, block) :: l else x :: xattr_list_store ip block l
  end.
Definition xattr_list_insert (ip : Z * Z) (block : bytes) (xattrs : xattr_list) : xattr_list := (ip, block) :: xattrs.

(** The header of 32 bytes. *)
Definition xattr_header : bytes := le_encode 4 EXT4_XATTR_MAGIC ++ le_encode 4 1 ++ le_encode 4 1 ++ replicate 20 0.

Definition get_xattr_block_for_inode (ip : Z * Z) (xattrs : xattr_list) : M (bytes * xattr_list) :=
  match xattr_list_find ip xattrs with
  | Some block => mret (block, xattrs)
  | None =>
      block_num ← allocate_block force;
      block ← lift (mem_write (replicate (Z.to_nat (block_size info)) 0) 0 xattr_header);
      blocks ← load_num ip o_blocks_lo;
      store_num ip o_blocks_lo (blocks +u32 block_size info / 512);;
      store_num ip o_file_acl_lo block_num;;
      queue (sparse_file_add_data (block_size info) block_num);;
      mret (block, xattr_list_insert ip block xattrs)
  end.

Definition xattr_addto_block (ip : Z * Z) (name_index : Z) (name value : bytes) (xattrs : xattr_list) : M (Z * xattr_list) :=
  '(header, xattrs) ← get_xattr_block_for_inode ip xattrs;
  '(header, result) ← lift (xattr_addto_range force header 0 (block_size info) 32 name_index name value);
  match result with
  | None => mret (-1, xattr_list_store ip header xattrs)
  | Some result =>
      header ← lift (ext4_xattr_hash_entry header 0 result);
      mret (0, xattr_list_store ip header xattrs)
  end.

Definition xattr_add (inode_num name_index : Z) (name value : bytes) (xattrs : xattr_list) : M (Z * xattr_list) :=
  ip ← get_inode info aux_info inode_num;
  result ← xattr_addto_inode ip name_index name value;
  if negb (result =? 0) then xattr_addto_block ip name_index name value xattrs
  else mret (result, xattrs).

Definition inode_set_selinux (inode_num : Z) (secon : option bytes) (xattrs : xattr_list) : M (Z * xattr_list) :=
  match secon with
  | None => mret (0, xattrs)
  | Some secon => xattr_add inode_num EXT4_XATTR_INDEX_SECURITY (str "selinux") (secon ++ [0]) xattrs
  end.

(** [VFS_CAP_REVISION | VFS_CAP_FLAGS_EFFECTIVE] *)
Definition cap_magic : Z := Z.lor 0x02000000 1.

Definition inode_set_capabilities (inode_num capabilities : Z) (xattrs : xattr_list) : M (Z * xattr_list) :=
  if capabilities =? 0 then mret (0, xattrs)
  else
    let cap_data := le_encode 4 cap_magic ++ le_encode 4 (Z.land capabilities 0xffffffff) ++ le_encode 4 0 ++
                    le_encode 4 (Z.shiftr capabilities 32) ++ le_encode 4 0 in
    xattr_add inode_num EXT4_XATTR_INDEX_SECURITY (str "capability") cap_data xattrs.
End Inodes.

(** * Reading attributes *)

(** A number of [n] bytes in memory, and the next multiple of 4. *)
Definition field (m : bytes) (p n : Z) : res Z := b ← mem_read m p n; Ok (le_decode b).
Definition align4 (x : Z) : Z := (x + 3) / 4 * 4.

(** The attributes of a range, as a file system reads them: entries of 16 bytes
    (the length of the name, its index, the offset of the value from [base] and,
    at 8, its size) with the name behind them, padded to 4 bytes, up to four zero
    bytes, which must be in the range. *)
Fixpoint read_xattrs (fuel : nat) (m : bytes) (base p end_ : Z) : res (list (Z * bytes * bytes)) :=
  if end_ <? p + 4 then OutOfBounds
  else
    word ← field m p 4;
    if word =? 0 then Ok []
    else
      match fuel with
      | O => OutOfBounds
      | S fuel =>
          len ← field m p 1;
          index ← field m (p + 1) 1;
          name ← mem_read m (p + 16) len;
          offs ← field m (p + 2) 2;
          size ← field m (p + 8) 4;
          value ← mem_read m (base + offs) size;
          l ← read_xattrs fuel m base (p + 16 + align4 len) end_;
          Ok ((index, name, value) :: l)
      end.

Example sample_xattrs :
  (m ← xattr_addto_range false (replicate 100 0) 0 96 0 6 (str "selinux") (str "u:r:x:s0");
   m ← xattr_addto_range false m.1 0 96 0 6 (str "capability") [1; 2; 3];
   read_xattrs 10 m.1 0 0 96) = Ok [(6, str "selinux", str "u:r:x:s0"); (6, str "capability", [1; 2; 3])].
Proof. vm_compute. reflexivity. Qed.

(** * The layout of a range *)

Record attr := Attr { a_index : Z; a_name : bytes; a_value : bytes; a_hash : Z }.

(** The bytes that an entry and a value take. *)
Definition xlen (a : attr) : Z := 16 + align4 (zlen (a_name a)).
Definition vsize (a : attr) : Z := align4 (zlen (a_value a)).

Definition attr_ok (a : attr) : Prop :=
  is_u8 (a_index a) /\ 0 < zlen (a_name a) <= 255 /\ zlen (a_value a) < 2 ^ 16 /\ is_u32 (a_hash a).

Lemma align4_spec x : x <= align4 x < x + 4 /\ align4 x mod 4 = 0.
Proof.
  unfold align4. pose proof (Z.div_mod (x + 3) 4 ltac:(done)). pose proof (Z.mod_pos_bound (x + 3) 4 ltac:(done)). split; [lia|]. by apply Z.mod_mul.
Qed.

Lemma round_up_4 x : 0 <= x < 2 ^ 40 -> Z.land (u64 (x + 3)) (u64 (Z.lnot 3)) = align4 x.
Proof.
  intros Hx. rewrite (u64_small (x + 3)) by (unfold is_u64; lia). change (u64 (Z.lnot 3)) with (u64 (Z.lnot (Z.ones 2))).
  rewrite land_u64_lnot_ones by (unfold is_u64; lia). done.
Qed.

Lemma LEN_xlen a : 0 < zlen (a_name a) <= 255 -> EXT4_XATTR_LEN (zlen (a_name a)) = xlen a.
Proof.
  intros H. unfold xlen, EXT4_XATTR_LEN, EXT4_XATTR_ROUND. replace (zlen (a_name a) + 3 + 16) with ((zlen (a_name a) + 16) + 3) by lia.
  rewrite round_up_4 by lia. unfold align4. replace (zlen (a_name a) + 16 + 3) with (zlen (a_name a) + 3 + 4 * 4) by lia.
  rewrite Z.div_add by done. lia.
Qed.
Lemma SIZE_vsize a : zlen (a_value a) < 2 ^ 16 -> EXT4_XATTR_SIZE (zlen (a_value a)) = vsize a.
Proof. intros H. pose proof (zlen_nonneg (a_value a)). apply round_up_4. lia. Qed.

Lemma xlen_spec a : 0 < zlen (a_name a) <= 255 -> 16 + zlen (a_name a) <= xlen a < 20 + zlen (a_name a) /\ xlen a mod 4 = 0.
Proof.
  intros H. destruct (align4_spec (zlen (a_name a))) as [H1 H2]. unfold xlen. split; [lia|].
  rewrite Z.add_comm. change 16 with (4 * 4). by rewrite Z.mod_add.
Qed.
Lemma vsize_spec a : zlen (a_value a) < 2 ^ 16 -> zlen (a_value a) <= vsize a < zlen (a_value a) + 4 /\ vsize a mod 4 = 0.
Proof. intros _. apply align4_spec. Qed.

(** The bytes of an entry whose value is at [offs], and of a value. *)
Definition attr_header (offs : Z) (a : attr) : bytes :=
  le_encode 1 (zlen (a_name a)) ++ le_encode 1 (a_index a) ++ le_encode 2 offs ++ le_encode 4 0 ++
  le_encode 4 (zlen (a_value a)) ++ le_encode 4 (a_hash a).
Definition enc_attr (offs : Z) (a : attr) : bytes := attr_header offs a ++ a_name a ++ zeros (xlen a - 16 - zlen (a_name a)).
Definition enc_value (a : attr) : bytes := a_value a ++ zeros (vsize a - zlen (a_value a)).

(** The entries of a list of attributes whose values end at [voff], and the
    values. *)
Fixpoint entries (base voff : Z) (l : list attr) : bytes :=
  match l with [] => [] | a :: l => enc_attr (voff - vsize a - base) a ++ entries base (voff - vsize a) l end.
Fixpoint attr_values (l : list attr) : bytes := match l with [] => [] | a :: l => attr_values l ++ enc_value a end.
Fixpoint xlens (l : list attr) : Z := match l with [] => 0 | a :: l => xlen a + xlens l end.
Fixpoint vsizes (l : list attr) : Z := match l with [] => 0 | a :: l => vsize a + vsizes l end.

Lemma zlen_enc_attr offs a : attr_ok a -> zlen (enc_attr offs a) = xlen a.
Proof.
  intros (_ & Hn & _). pose proof (xlen_spec a Hn) as [H _]. unfold enc_attr. rewrite !zlen_app, zlen_zero_bytes by lia. change (zlen (attr_header offs a)) with 16. lia.
Qed.
Lemma zlen_enc_value a : attr_ok a -> zlen (enc_value a) = vsize a.
Proof. intros (_ & _ & Hv & _). pose proof (vsize_spec a Hv) as [H _]. unfold enc_value. rewrite zlen_app, zlen_zero_bytes by lia. lia. Qed.

Lemma zlen_entries base l : forall voff, Forall attr_ok l -> zlen (entries base voff l) = xlens l.
Proof.
  induction l as [|a l IH]; intros voff Hl; cbn [entries xlens]; [done|]. apply list.Forall_cons in Hl as [Ha Hl].
  by rewrite zlen_app, zlen_enc_attr, IH.
Qed.
Lemma zlen_attr_values l : Forall attr_ok l -> zlen (attr_values l) = vsizes l.
Proof.
  induction l as [|a l IH]; intros Hl; cbn [attr_values vsizes]; [done|]. apply list.Forall_cons in Hl as [Ha Hl].
  rewrite zlen_app, zlen_enc_value, IH by done. lia.
Qed.

Lemma entries_app base l k : forall voff, entries base voff (l ++ k) = entries base voff l ++ entries base (voff - vsizes l) k.
Proof.
  induction l as [|a l IH]; intros voff; cbn [app entries vsizes]; [by rewrite Z.sub_0_r|]. rewrite IH, <- app_assoc. do 3 f_equal. lia.
Qed.
Lemma attr_values_snoc l a : attr_values (l ++ [a]) = enc_value a ++ attr_values l.
Proof. induction l as [|b l IH]; cbn [app attr_values]; [by rewrite app_nil_r|]. by rewrite IH, app_assoc. Qed.
Lemma xlens_app l k : xlens (l ++ k) = xlens l + xlens k.
Proof. induction l as [|a l IH]; cbn [app xlens]; lia. Qed.
Lemma vsizes_app l k : vsizes (l ++ k) = vsizes l + vsizes k.
Proof. induction l as [|a l IH]; cbn [app vsizes]; lia. Qed.

Lemma xlens_bound l : Forall attr_ok l -> 16 * zlen l <= xlens l /\ 0 <= vsizes l /\ xlens l mod 4 = 0 /\ vsizes l mod 4 = 0.
Proof.
  induction 1 as [|a l Ha _ IH]; [done|]. destruct Ha as (_ & Hn & Hv & _). pose proof (xlen_spec a Hn) as [H1 H1']. pose proof (vsize_spec a Hv) as [H2 H2'].
  pose proof (zlen_nonneg (a_value a)). cbn [xlens vsizes]. rewrite zlen_cons, (Z.add_mod (xlen a)), (Z.add_mod (vsize a)), H1', H2' by done.
  destruct IH as (I1 & I2 & -> & ->). split_and!; (done || lia).
Qed.

(** ** Reading an entry *)

Lemma field_read X pre b post m p n :
  m = X ++ pre ++ b ++ post -> p = zlen X + zlen pre -> n = zlen b -> mem_read m p n = Ok b.
Proof. intros -> -> ->. rewrite app_assoc. apply mem_read_app; [by rewrite zlen_app|done]. Qed.

Lemma le_decode_small k x : 0 <= x < 256 ^ Z.of_nat k -> le_decode (le_encode k x) = x.
Proof. intros. rewrite le_decode_encode. by apply Z.mod_small. Qed.

Lemma entry_reads X offs a rest m :
  attr_ok a -> is_u16 offs -> m = X ++ enc_attr offs a ++ rest ->
  e_name_len m (zlen X) = Ok (zlen (a_name a)) /\ e_name_index m (zlen X) = Ok (a_index a) /\
  e_value_offs m (zlen X) = Ok offs /\ e_value_block m (zlen X) = Ok 0 /\ e_value_size m (zlen X) = Ok (zlen (a_value a)) /\
  mem_read m (zlen X + 16) (zlen (a_name a)) = Ok (a_name a) /\ IS_LAST_ENTRY m (zlen X) = Ok false.
Proof.
  intros (Hi & Hn & Hv & Hh) Ho Hm. pose proof (zlen_nonneg (a_value a)). unfold is_u8, is_u16 in *.
  unfold enc_attr, attr_header in Hm. set (tail := a_name a ++ _) in Hm. rewrite <- !app_assoc in Hm.
  set (b0 := le_encode 1 (zlen (a_name a))) in *. set (b1 := le_encode 1 (a_index a)) in *. set (b2 := le_encode 2 offs) in *.
  set (b4 := le_encode 4 0) in *. set (b8 := le_encode 4 (zlen (a_value a))) in *. set (b12 := le_encode 4 (a_hash a)) in *.
  assert (zlen b0 = 1) by apply zlen_le_encode. assert (zlen b1 = 1) by apply zlen_le_encode. assert (zlen b2 = 2) by apply zlen_le_encode.
  assert (zlen b4 = 4) by apply zlen_le_encode. assert (zlen b8 = 4) by apply zlen_le_encode. assert (zlen b12 = 4) by apply zlen_le_encode.
  unfold e_name_len, e_name_index, e_value_offs, e_value_block, e_value_size, IS_LAST_ENTRY. split_and!.
  - rewrite (field_read X [] b0 (b1 ++ b2 ++ b4 ++ b8 ++ b12 ++ tail ++ rest)); [|exact Hm|rewrite zlen_nil; lia|lia].
    cbn [mbind res_bind]. unfold b0. rewrite le_decode_small; [done|]. change (256 ^ Z.of_nat 1) with 256. lia.
  - rewrite (field_read X b0 b1 (b2 ++ b4 ++ b8 ++ b12 ++ tail ++ rest)); [|exact Hm|lia|lia].
    cbn [mbind res_bind]. unfold b1. rewrite le_decode_small; [done|]. change (256 ^ Z.of_nat 1) with 256. lia.
  - rewrite (field_read X (b0 ++ b1) b2 (b4 ++ b8 ++ b12 ++ tail ++ rest)); [|by rewrite <- app_assoc|rewrite zlen_app; lia|lia].
    cbn [mbind res_bind]. unfold b2. rewrite le_decode_small; [done|]. change (256 ^ Z.of_nat 2) with (2 ^ 16). lia.
  - rewrite (field_read X (b0 ++ b1 ++ b2) b4 (b8 ++ b12 ++ tail ++ rest)); [|by rewrite <- !app_assoc|rewrite !zlen_app; lia|lia]. reflexivity.
  - rewrite (field_read X (b0 ++ b1 ++ b2 ++ b4) b8 (b12 ++ tail ++ rest)); [|by rewrite <- !app_assoc|rewrite !zlen_app; lia|lia].
    cbn [mbind res_bind]. unfold b8. rewrite le_decode_small; [done|]. change (256 ^ Z.of_nat 4) with (2 ^ 32). lia.
  - apply (field_read X (b0 ++ b1 ++ b2 ++ b4 ++ b8 ++ b12) (a_name a) (zeros (xlen a - 16 - zlen (a_name a)) ++ rest)); [|rewrite !zlen_app; lia|done].
    rewrite Hm. unfold tail. by rewrite <- !app_assoc.
  - rewrite (field_read X [] (b0 ++ b1 ++ b2) (b4 ++ b8 ++ b12 ++ tail ++ rest)); [|by rewrite <- !app_assoc|rewrite zlen_nil; lia|rewrite !zlen_app; lia].
    cbn [mbind res_bind]. f_equal. apply Z.eqb_neq.
    pose proof (le_decode_bound (b1 ++ b2) ltac:(apply Forall_app; split; apply le_encode_ok)) as HB.
    assert (le_decode (b0 ++ b1 ++ b2) = zlen (a_name a) + 256 * le_decode (b1 ++ b2)) as ->; [|lia].
    unfold b0 at 1. cbn [le_encode app le_decode]. rewrite Z.mod_small by lia. done.
Qed.

Lemma terminator_read X g rest : 4 <= g -> IS_LAST_ENTRY (X ++ zeros g ++ rest) (zlen X) = Ok true.
Proof.
  intros Hg. unfold IS_LAST_ENTRY. replace g with (4 + (g - 4)) by lia. rewrite zeros_add, <- app_assoc by lia.
  rewrite mem_read_app by done. reflexivity.
Qed.

(** ** Walking over the entries *)

(** The order of attributes in a block. *)
Definition attr_lt (a b : attr) : Prop :=
  a_index a < a_index b \/
  a_index a = a_index b /\ (zlen (a_name a) < zlen (a_name b) \/ zlen (a_name a) = zlen (a_name b) /\ 0 < memcmp (a_name b) (a_name a)).

Section walk.
Context (force : bool) (base : Z).

(** The offsets of the values fit in 16 bits. *)
Definition offs_ok (voff : Z) (l : list attr) : Prop := base <= voff - vsizes l /\ voff - base <= 2 ^ 16 - 1.

Lemma offs_ok_cons voff a l : Forall attr_ok (a :: l) -> offs_ok voff (a :: l) -> is_u16 (voff - vsize a - base) /\ offs_ok (voff - vsize a) l.
Proof.
  intros Hl [H1 H2]. apply list.Forall_cons in Hl as [Ha Hl]. cbn [vsizes] in H1. pose proof (xlens_bound l Hl) as (_ & Hv & _).
  destruct Ha as (_ & _ & Hva & _). pose proof (vsize_spec a Hva) as [Hs _]. pose proof (zlen_nonneg (a_value a)).
  unfold is_u16, offs_ok. lia.
Qed.

Lemma free_space_walk l : forall fuel X voff g rest E m,
  Forall attr_ok l -> offs_ok voff l -> 4 <= g -> m = X ++ entries base voff l ++ zeros g ++ rest ->
  zlen X + xlens l + g + vsizes l = E -> (length l <= fuel)%nat ->
  free_space_loop fuel m (zlen X) E = Ok (zlen X + xlens l, E - vsizes l).
Proof.
  induction l as [|a l IH]; intros fuel X voff g rest E m Hl Ho Hg Hm HE Hf.
  { cbn [entries app] in Hm. subst m. destruct fuel; cbn [free_space_loop]; rewrite terminator_read by done; cbn; by rewrite Z.add_0_r, Z.sub_0_r. }
  destruct fuel as [|fuel]; cbn in Hf; [lia|]. destruct (offs_ok_cons _ _ _ Hl Ho) as [Ho1 Ho2].
  pose proof (xlens_bound _ Hl) as (Hx & Hv & _). apply list.Forall_cons in Hl as [Ha Hl]. cbn [xlens vsizes entries] in *.
  rewrite <- app_assoc in Hm. destruct (entry_reads X _ a _ m Ha Ho1 Hm) as (R1 & _ & _ & _ & R5 & _ & R7).
  cbn [free_space_loop]. rewrite R7. cbn [mbind res_bind negb andb]. rewrite zlen_cons in Hx. pose proof (zlen_nonneg l).
  destruct (Z.ltb_spec (zlen X) E); [|lia]. rewrite R5. cbn [mbind res_bind]. unfold EXT4_XATTR_NEXT. rewrite R1. cbn [mbind res_bind].
  rewrite LEN_xlen, SIZE_vsize by apply Ha. specialize (IH fuel (X ++ enc_attr (voff - vsize a - base) a) (voff - vsize a) g rest (E - vsize a) m).
  rewrite zlen_app, zlen_enc_attr in IH by done. rewrite IH; [do 2 f_equal; lia|done|done|done|by rewrite <- app_assoc|lia|lia].
Qed.

Lemma get_last_walk l : forall fuel X voff g rest m,
  Forall attr_ok l -> offs_ok voff l -> 4 <= g -> m = X ++ entries base voff l ++ zeros g ++ rest -> (length l <= fuel)%nat ->
  get_last_loop fuel m (zlen X) = Ok (zlen X + xlens l).
Proof.
  induction l as [|a l IH]; intros fuel X voff g rest m Hl Ho Hg Hm Hf.
  { cbn [entries app] in Hm. subst m. destruct fuel; cbn [get_last_loop]; rewrite terminator_read by done; cbn; by rewrite Z.add_0_r. }
  destruct fuel as [|fuel]; cbn in Hf; [lia|]. destruct (offs_ok_cons _ _ _ Hl Ho) as [Ho1 Ho2]. apply list.Forall_cons in Hl as [Ha Hl].
  cbn [xlens entries] in *. rewrite <- app_assoc in Hm. destruct (entry_reads X _ a _ m Ha Ho1 Hm) as (R1 & _ & _ & _ & _ & _ & R7).
  cbn [get_last_loop]. rewrite R7. cbn [mbind res_bind negb]. unfold EXT4_XATTR_NEXT. rewrite R1. cbn [mbind res_bind]. rewrite LEN_xlen by apply Ha.
  specialize (IH fuel (X ++ enc_attr (voff - vsize a - base) a) (voff - vsize a) g rest m).
  rewrite zlen_app, zlen_enc_attr in IH by done. rewrite IH; [f_equal; lia|done|done|done|by rewrite <- app_assoc|lia].
Qed.

Lemma sane_walk l : forall fuel X voff g rest m,
  Forall attr_ok l -> offs_ok voff l -> 4 <= g -> m = X ++ entries base voff l ++ zeros g ++ rest -> (length l <= fuel)%nat ->
  (forall i a b, l !! i = Some a -> l !! S i = Some b -> attr_lt a b) ->
  sane_loop force fuel m (zlen X) = Ok tt.
Proof.
  induction l as [|a l IH]; intros fuel X voff g rest m Hl Ho Hg Hm Hf Hs.
  { cbn [entries app] in Hm. subst m. destruct fuel; cbn [sane_loop]; by rewrite terminator_read. }
  destruct fuel as [|fuel]; cbn in Hf; [lia|]. destruct (offs_ok_cons _ _ _ Hl Ho) as [Ho1 Ho2]. pose proof Hl as Hall. apply list.Forall_cons in Hl as [Ha Hl].
  cbn [entries] in *. rewrite <- app_assoc in Hm. destruct (entry_reads X _ a _ m Ha Ho1 Hm) as (R1 & R2 & _ & _ & _ & R6 & R7).
  cbn [sane_loop]. rewrite R7. cbn [mbind res_bind negb]. unfold EXT4_XATTR_NEXT. rewrite R1. cbn [mbind res_bind]. rewrite LEN_xlen by apply Ha.
  specialize (IH fuel (X ++ enc_attr (voff - vsize a - base) a) (voff - vsize a) g rest m).
  set (Y := X ++ enc_attr (voff - vsize a - base) a) in *. assert (zlen X + xlen a = zlen Y) as -> by (unfold Y; by rewrite zlen_app, zlen_enc_attr).
  assert (m = Y ++ entries base (voff - vsize a) l ++ zeros g ++ rest) as HmY by (unfold Y; by rewrite <- app_assoc).
  destruct l as [|b l].
  { cbn [entries app] in HmY. rewrite HmY, terminator_read by done. done. }
  pose proof (Hs 0%nat a b eq_refl eq_refl) as Hlt. destruct (offs_ok_cons _ _ _ Hl Ho2) as [Ho1' _]. apply list.Forall_cons in Hl as Hl'. destruct Hl' as [Hb _].
  pose proof HmY as HmY'. cbn [entries] in HmY'. rewrite <- app_assoc in HmY'.
  destruct (entry_reads Y _ b _ m Hb Ho1' HmY') as (S1 & S2 & _ & _ & _ & S6 & S7). rewrite S7. cbn [mbind res_bind].
  rewrite S2. cbn [mbind res_bind]. rewrite R2. cbn [mbind res_bind]. rewrite S1. cbn [mbind res_bind].
  assert (exists cmp, (if negb (a_index b - a_index a =? 0) then Ok (a_index b - a_index a)
     else if negb (zlen (a_name b) - zlen (a_name a) =? 0) then Ok (zlen (a_name b) - zlen (a_name a))
     else x ← mem_read m (zlen Y + 16) (zlen (a_name b)); y ← mem_read m (zlen X + 16) (zlen (a_name b)); Ok (memcmp x y)) = Ok cmp /\ 0 < cmp) as (cmp & -> & Hc).
  { destruct (Z.eqb_spec (a_index b - a_index a) 0); cbn [negb]; [|eexists; split; [done|]; destruct Hlt; lia].
    destruct (Z.eqb_spec (zlen (a_name b) - zlen (a_name a)) 0) as [El|El]; cbn [negb]; [|eexists; split; [done|]; destruct Hlt; lia].
    rewrite S6. cbn [mbind res_bind]. replace (zlen (a_name b)) with (zlen (a_name a)) by lia. rewrite R6. cbn [mbind res_bind].
    eexists. split; [done|]. destruct Hlt as [?|[_ [?|[_ ?]]]]; lia. }
  cbn [mbind res_bind]. destruct (Z.ltb_spec cmp 0); [lia|]. destruct (Z.eqb_spec cmp 0); [lia|].
  apply IH; [done|done|done|done|lia|]. intros i x y Hx Hy. by apply (Hs (S i)).
Qed.
End walk.

(** ** A range that holds attributes *)

Record layout (m : bytes) (base first end_ : Z) (l : list attr) (X post : bytes) (g : Z) : Prop := {
  la_bytes : m = X ++ entries base (end_ - 4) l ++ zeros g ++ attr_values l ++ post;
  la_first : zlen X = first /\ base <= first /\ end_ - base <= 2 ^ 16 - 1;
  la_room : first + xlens l + g + vsizes l = end_ - 4 /\ 4 <= g;
  la_attrs : Forall attr_ok l;
  la_sorted : forall i a b, l !! i = Some a -> l !! S i = Some b -> attr_lt a b;
}.

Lemma layout_offs m base first end_ l X post g : layout m base first end_ l X post g -> offs_ok base (end_ - 4) l.
Proof. intros [_ (H1 & H2 & H3) [H4 H5] Ha _]. pose proof (xlens_bound l Ha) as (Hx & _). pose proof (zlen_nonneg l). unfold offs_ok. lia. Qed.

Lemma layout_fuel m base first end_ l X post g : layout m base first end_ l X post g -> (length l <= length m)%nat.
Proof.
  intros [-> _ [_ Hg] Ha _]. pose proof (xlens_bound l Ha) as (Hx & _). pose proof (zlen_entries base l (end_ - 4) Ha) as He. unfold zlen in *.
  rewrite !length_app. lia.
Qed.

Lemma read_walk base l : forall fuel X voff g post end_ m,
  Forall attr_ok l -> offs_ok base voff l -> 4 <= g -> m = X ++ entries base voff l ++ zeros g ++ attr_values l ++ post ->
  zlen X + xlens l + g + vsizes l = voff -> voff <= end_ -> (length l <= fuel)%nat ->
  read_xattrs fuel m base (zlen X) end_ = Ok ((fun a => (a_index a, a_name a, a_value a)) <$> l).
Proof.
  induction l as [|a l IH]; intros fuel X voff g post end_ m Hl Ho Hg Hm HE Hend Hf.
  { cbn [entries app xlens vsizes] in *. subst m. pose proof (terminator_read X g (attr_values [] ++ post)) as R. unfold IS_LAST_ENTRY in R.
    destruct fuel; cbn [read_xattrs]; (destruct (Z.ltb_spec end_ (zlen X + 4)); [lia|]); unfold field;
      (destruct (mem_read _ (zlen X) 4); [|by specialize (R Hg)|by specialize (R Hg)]; cbn [mbind res_bind] in R |- *; specialize (R Hg); injection R as ->; done). }
  destruct fuel as [|fuel]; cbn in Hf; [lia|]. destruct (offs_ok_cons _ _ _ _ Hl Ho) as [Ho1 Ho2].
  pose proof (xlens_bound _ Hl) as (Hx & Hv & _). apply list.Forall_cons in Hl as [Ha Hl]. pose proof (xlens_bound _ Hl) as (_ & Hv' & _). cbn [xlens vsizes entries attr_values] in *.
  pose proof Ha as (_ & _ & Hva & _). pose proof (vsize_spec a Hva) as [Hvs _]. pose proof (zlen_nonneg (a_value a)).
  rewrite zlen_cons in Hx. pose proof (zlen_nonneg l). rewrite <- !app_assoc in Hm.
  destruct (entry_reads X _ a _ m Ha Ho1 Hm) as (R1 & R2 & R3 & _ & R5 & R6 & R7).
  cbn [read_xattrs]. destruct (Z.ltb_spec end_ (zlen X + 4)); [lia|]. 
  change (field m (zlen X) 1) with (e_name_len m (zlen X)). change (field m (zlen X + 1) 1) with (e_name_index m (zlen X)).
  change (field m (zlen X + 2) 2) with (e_value_offs m (zlen X)). change (field m (zlen X + 8) 4) with (e_value_size m (zlen X)).
  unfold IS_LAST_ENTRY in R7. unfold field. destruct (mem_read m (zlen X) 4) as [w| |]; [|done|done]. cbn [mbind res_bind] in R7 |- *. injection R7 as ->.
  rewrite R1. cbn [mbind res_bind]. rewrite R2. cbn [mbind res_bind].
  rewrite R6. cbn [mbind res_bind]. rewrite R3. cbn [mbind res_bind]. rewrite R5. cbn [mbind res_bind].
  set (Y := X ++ enc_attr (voff - vsize a - base) a) in *. assert (zlen Y = zlen X + xlen a) as HY by (unfold Y; by rewrite zlen_app, zlen_enc_attr).
  assert (mem_read m (base + (voff - vsize a - base)) (zlen (a_value a)) = Ok (a_value a)) as ->.
  { apply (field_read (Y ++ entries base (voff - vsize a) l) (zeros g ++ attr_values l) (a_value a) (zeros (vsize a - zlen (a_value a)) ++ post)); [|rewrite !zlen_app, zlen_zero_bytes, zlen_entries, zlen_attr_values by (done || lia); lia|done].
    rewrite Hm. unfold Y, enc_value. by rewrite <- !app_assoc. }
  cbn [mbind res_bind]. rewrite <- Z.add_assoc. fold (xlen a). rewrite <- HY.
  rewrite (IH fuel Y (voff - vsize a) g (enc_value a ++ post) end_ m); [done|done|done|done| |lia|lia|lia]. unfold Y. rewrite Hm. by rewrite <- !app_assoc.
Qed.

Lemma layout_read m base first end_ l X post g : layout m base first end_ l X post g ->
  read_xattrs (length l) m base first end_ = Ok ((fun a => (a_index a, a_name a, a_value a)) <$> l).
Proof.
  intros H. pose proof (layout_offs _ _ _ _ _ _ _ _ H) as Ho. destruct H as [Hm (Hf & Hb & He) [Hr Hg] Ha _]. subst first.
  eapply read_walk; [done|done|exact Hg|exact Hm|done|lia|lia].
Qed.

(** ** Writing an entry *)

Lemma zeros_16 : zeros 16 = [0; 0; 0; 0; 0; 0; 0; 0; 0; 0; 0; 0; 0; 0; 0; 0].
Proof. reflexivity. Qed.

(** A write inside a part of the memory. *)
Lemma mem_write_mid X B R p k b B' :
  p = zlen X + k -> 0 <= k -> mem_write B k b = Ok B' -> mem_write (X ++ B ++ R) p b = Ok (X ++ B' ++ R).
Proof.
  intros -> Hk H. pose proof H as H'. unfold mem_write in H. destruct (_ && _) eqn:E in H; [|done]. injection H as <-. bool_to_prop.
  pose proof (zlen_nonneg b). pose proof (zlen_nonneg X). pose proof (zlen_nonneg R).
  rewrite <- (ztake_zdrop k B) at 1. rewrite <- app_assoc, app_assoc. rewrite mem_write_app.
  - rewrite <- !app_assoc. do 3 f_equal. unfold zdrop. rewrite drop_app_le, drop_drop by (rewrite length_drop; unfold zlen in *; lia). f_equal. f_equal. f_equal. lia.
  - rewrite zlen_app, zlen_ztake by lia. done.
  - rewrite zlen_app, zlen_zdrop by lia. lia.
Qed.

Lemma write_attr X k R idx name value offs_base m :
  let a := Attr idx name value 0 in
  attr_ok a -> 0 <= k -> m = X ++ zeros (xlen a + k + vsize a) ++ R ->
  let p := zlen X in let val := p + (xlen a + k) in
  (m ← mem_write m p (replicate (Z.to_nat (xlen a)) 0);
   m ← mem_write m p (le_encode 1 (zlen name));
   m ← mem_write m (p + 1) (le_encode 1 idx);
   m ← mem_write m (p + 16) name;
   m ← mem_write m (p + 4) (le_encode 4 0);
   m ← mem_write m (p + 8) (le_encode 4 (zlen value));
   m ← mem_write m (p + 2) (le_encode 2 (val - offs_base));
   m ← mem_write m val (replicate (Z.to_nat (vsize a)) 0);
   mem_write m val value) = Ok (X ++ enc_attr (val - offs_base) a ++ zeros k ++ enc_value a ++ R).
Proof.
  intros a Ha Hk -> p val. destruct Ha as (_ & Hn & Hv & _). cbn [a a_name a_value] in Hn, Hv. pose proof (xlen_spec a Hn) as [Hx _]. pose proof (vsize_spec a Hv) as [Hs _].
  cbn [a a_name a_value] in Hx, Hs. pose proof (zlen_nonneg name). pose proof (zlen_nonneg value). unfold enc_attr. cbn [a_name a].
  fold (zeros (xlen a)). fold (zeros (vsize a)). set (n := xlen a - 16 - zlen name). set (v := vsize a - zlen value).
  assert (zeros (xlen a + k + vsize a) = zeros (xlen a) ++ zeros k ++ zeros (vsize a)) as -> by (rewrite !zeros_add by lia; by rewrite <- app_assoc).
  rewrite <- !app_assoc. rewrite (mem_write_mid X (zeros (xlen a)) _ p 0 _ (zeros (xlen a))); [|unfold p; lia|lia|].
  2: { rewrite <- (app_nil_r (zeros (xlen a))) at 1. rewrite <- (app_nil_l (zeros (xlen a) ++ [])). rewrite mem_write_app by (rewrite ?app_nil_r; (done || lia)).
       cbn [app]. rewrite app_nil_r, zdrop_ge by lia. by rewrite app_nil_r. }
  cbn [mbind res_bind]. assert (zeros (xlen a) = zeros 16 ++ zeros (zlen name + n)) as -> by (rewrite <- zeros_add by (unfold n; lia); f_equal; unfold n; lia).
  rewrite zeros_16, <- !app_assoc.
  set (l0 := zlen name mod 256). set (i0 := idx mod 256). set (s0 := zlen value mod 256). set (s1 := zlen value / 256 mod 256).
  set (s2 := zlen value / 256 / 256 mod 256). set (s3 := zlen value / 256 / 256 / 256 mod 256).
  set (o0 := (val - offs_base) mod 256). set (o1 := (val - offs_base) / 256 mod 256).
  rewrite (mem_write_mid X _ _ p 0 _ (l0 :: zeros 15)) by (done || unfold p; lia || reflexivity). cbn [mbind res_bind].
  rewrite (mem_write_mid X _ _ (p + 1) 1 _ (l0 :: i0 :: zeros 14)) by (done || reflexivity). cbn [mbind res_bind].
  rewrite (zeros_add (zlen name)), <- app_assoc by (unfold n; lia).
  rewrite (app_assoc X), (mem_write_mid _ (zeros (zlen name)) _ (p + 16) 0 _ name); [|rewrite zlen_app; change (zlen (l0 :: i0 :: zeros 14)) with 16; unfold p; lia|lia|].
  2: { rewrite <- (app_nil_l (zeros (zlen name))), mem_write_app by (rewrite ?zlen_zero_bytes; (done || lia)). rewrite zdrop_ge by (rewrite zlen_zero_bytes; lia). by rewrite app_nil_r. }
  cbn [mbind res_bind]. rewrite <- app_assoc.
  rewrite (mem_write_mid X _ _ (p + 4) 4 _ (l0 :: i0 :: zeros 14)) by (done || reflexivity). cbn [mbind res_bind].
  rewrite (mem_write_mid X _ _ (p + 8) 8 _ [l0; i0; 0; 0; 0; 0; 0; 0; s0; s1; s2; s3; 0; 0; 0; 0]) by (done || reflexivity). cbn [mbind res_bind].
  rewrite (mem_write_mid X _ _ (p + 2) 2 _ [l0; i0; o0; o1; 0; 0; 0; 0; s0; s1; s2; s3; 0; 0; 0; 0]) by (done || reflexivity). cbn [mbind res_bind].
  change [l0; i0; o0; o1; 0; 0; 0; 0; s0; s1; s2; s3; 0; 0; 0; 0] with (attr_header (val - offs_base) a). set (H4 := attr_header (val - offs_base) a).
  assert (forall Y, X ++ H4 ++ name ++ zeros n ++ zeros k ++ Y = (X ++ H4 ++ name ++ zeros n ++ zeros k) ++ Y) as EA by (intros; by rewrite <- !app_assoc).
  assert (val = zlen (X ++ H4 ++ name ++ zeros n ++ zeros k)) as Ev by (rewrite !zlen_app, !zlen_zero_bytes by (unfold n; lia); change (zlen H4) with 16; unfold val, n, p; lia).
  rewrite !EA, mem_write_app by (done || rewrite zlen_app; pose proof (zlen_nonneg R); lia). cbn [mbind res_bind].
  rewrite zdrop_app_exact by done. replace (vsize a) with (zlen value + v) at 1 by (unfold v; lia).
  rewrite (zeros_add (zlen value) v) by (unfold v; lia). rewrite <- (app_assoc (zeros (zlen value)) (zeros v) R).
  pose proof (zlen_nonneg R). rewrite mem_write_app by (done || (rewrite !zlen_app, !zlen_zero_bytes by (unfold v; lia); unfold v; lia)).
  rewrite zdrop_app_exact by (rewrite zlen_zero_bytes; lia). unfold enc_value. cbn [a_value a]. fold v. by rewrite <- !app_assoc.
Qed.

(** ** Adding an attribute *)

Lemma needed_size a : attr_ok a ->
  EXT4_XATTR_LEN (zlen (a_name a)) +u64 EXT4_XATTR_SIZE (zlen (a_value a)) = xlen a + vsize a.
Proof.
  intros (_ & Hn & Hv & _). pose proof (xlen_spec a Hn) as [H1 _]. pose proof (vsize_spec a Hv) as [H2 _]. pose proof (zlen_nonneg (a_value a)).
  rewrite LEN_xlen, SIZE_vsize by lia. apply u64_small. unfold is_u64. lia.
Qed.

Lemma layout_free_space force m base first end_ l X post g :
  layout m base first end_ l X post g -> xattr_free_space force m first end_ = Ok g.
Proof.
  intros H. pose proof (layout_offs _ _ _ _ _ _ _ _ H) as Ho. pose proof (layout_fuel _ _ _ _ _ _ _ _ H) as Hfu.
  destruct H as [Hm (Hf & Hb & He) [Hr Hg] Ha _]. unfold xattr_free_space. subst first.
  rewrite (free_space_walk base l (length m) X (end_ - 4) g (attr_values l ++ post) (end_ - 4) m) by done. cbn [mbind res_bind].
  destruct (Z.ltb_spec (end_ - 4 - vsizes l) (zlen X + xlens l)); [lia|]. f_equal. lia.
Qed.

Lemma layout_get_last m base first end_ l X post g :
  layout m base first end_ l X post g -> xattr_get_last m first = Ok (first + xlens l).
Proof.
  intros H. pose proof (layout_offs _ _ _ _ _ _ _ _ H) as Ho. pose proof (layout_fuel _ _ _ _ _ _ _ _ H) as Hfu.
  destruct H as [Hm (Hf & Hb & He) [Hr Hg] Ha _]. unfold xattr_get_last. subst first. by eapply get_last_walk.
Qed.

Lemma layout_sane force m base first end_ l X post g :
  layout m base first end_ l X post g -> xattr_assert_sane force m first = Ok tt.
Proof.
  intros H. pose proof (layout_offs _ _ _ _ _ _ _ _ H) as Ho. pose proof (layout_fuel _ _ _ _ _ _ _ _ H) as Hfu.
  destruct H as [Hm (Hf & Hb & He) [Hr Hg] Ha Hs]. unfold xattr_assert_sane. subst first. by eapply sane_walk.
Qed.

(** Without room for the entry and its value nothing is written. *)
Lemma add_full force m base first end_ l X post g a :
  layout m base first end_ l X post g -> attr_ok a -> g < xlen a + vsize a ->
  xattr_addto_range force m base end_ first (a_index a) (a_name a) (a_value a) = Ok (m, None).
Proof.
  intros H Ha Hg. pose proof Ha as (_ & Hn & _). unfold xattr_addto_range. destruct (Z.ltb_spec 255 (zlen (a_name a))); [lia|].
  rewrite (layout_free_space force _ _ _ _ _ _ _ _ H). cbn [mbind res_bind]. rewrite needed_size by done.
  destruct (Z.ltb_spec g (xlen a + vsize a)); [done|lia].
Qed.

Definition follows (l : list attr) (a : attr) : Prop := forall b, last l = Some b -> attr_lt b a.

Lemma attrs_sorted_snoc l a :
  (forall i x y, l !! i = Some x -> l !! S i = Some y -> attr_lt x y) -> follows l a ->
  forall i x y, (l ++ [a]) !! i = Some x -> (l ++ [a]) !! S i = Some y -> attr_lt x y.
Proof.
  intros Hs Hf i x y Hx Hy. destruct (decide (S i < length l)%nat) as [Hi|Hi].
  - rewrite lookup_app_l in Hx, Hy by lia. by eapply Hs.
  - pose proof (lookup_lt_Some _ _ _ Hy) as Hlt. rewrite length_app in Hlt. cbn in Hlt. rewrite lookup_app_l in Hx by lia.
    rewrite lookup_app_r in Hy by lia. replace (S i - length l)%nat with 0%nat in Hy by lia. injection Hy as <-.
    apply Hf. rewrite last_lookup. replace (Init.Nat.pred (length l)) with i by lia. done.
Qed.

(** With room for them and for the four zero bytes after the last entry, the
    attribute is added after the others. *)
Lemma add_fits force m base first end_ l X post g idx name value :
  let a := Attr idx name value 0 in
  layout m base first end_ l X post g -> attr_ok a -> follows l a -> xlen a + vsize a + 4 <= g ->
  exists m', xattr_addto_range force m base end_ first idx name value = Ok (m', Some (first + xlens l)) /\
    layout m' base first end_ (l ++ [a]) X post (g - xlen a - vsize a).
Proof.
  intros a H Ha Hl Hg. pose proof Ha as (_ & Hn & Hv & _). cbn [a_name a_value a] in Hn, Hv. pose proof (zlen_nonneg (a_value a)).
  pose proof (xlen_spec a Hn) as [Hx Hx4]. pose proof (vsize_spec a Hv) as [Hs Hs4].
  pose proof H as [Hm (Hf & Hb & He) [Hr Hg'] Hall Hsort].
  unfold xattr_addto_range. destruct (Z.ltb_spec 255 (zlen name)); [lia|].
  rewrite (layout_free_space force _ _ _ _ _ _ _ _ H). cbn [mbind res_bind]. pose proof (needed_size a Ha) as HN. cbn [a a_name a_value] in HN. rewrite HN.
  destruct (Z.ltb_spec g (xlen a + vsize a)); [lia|]. rewrite (layout_get_last _ _ _ _ _ _ _ _ H). cbn [mbind res_bind].
  set (Y := X ++ entries base (end_ - 4) l). assert (first + xlens l = zlen Y) as HY by (unfold Y; rewrite zlen_app, zlen_entries by done; lia).
  pose proof (write_attr Y (g - xlen a - vsize a) (attr_values l ++ post) idx name value base m Ha ltac:(lia)) as HW.
  replace (xlen (Attr idx name value 0) + (g - xlen a - vsize a) + vsize (Attr idx name value 0)) with g in HW by (fold a; lia).
  specialize (HW ltac:(unfold Y; by rewrite <- app_assoc)). fold a in HW. cbn zeta in HW.
  rewrite HY. pose proof (LEN_xlen a Hn) as EL. pose proof (SIZE_vsize a Hv) as ES. cbn [a a_name a_value] in EL, ES. rewrite EL, ES.
  replace (zlen Y + g - vsize a) with (zlen Y + (xlen a + (g - xlen a - vsize a))) by lia.
  set (m' := Y ++ _) in HW. assert (layout m' base first end_ (l ++ [a]) X post (g - xlen a - vsize a)) as HL.
  { constructor.
    - unfold m', Y. rewrite entries_app, attr_values_snoc. cbn [entries]. rewrite app_nil_r, <- !app_assoc.
      by replace (end_ - 4 - vsizes l - vsize a - base) with (zlen Y + (xlen a + (g - xlen a - vsize a)) - base) by lia.
    - done.
    - rewrite xlens_app, vsizes_app. cbn [xlens vsizes]. lia.
    - apply Forall_app. split; [done|]. by apply Forall_cons_2.
    - by apply attrs_sorted_snoc. }
  exists m'. split; [|done]. clearbody m'.
  repeat match type of HW with mem_write ?x ?y ?z ≫= _ = _ => destruct (mem_write x y z); cbn [mbind res_bind] in HW |- *; try discriminate HW end.
  rewrite HW. cbn [mbind res_bind]. by rewrite (layout_sane force _ _ _ _ _ _ _ _ HL).
Qed.

(** ** Adding the attributes of a file *)

Fixpoint add_all (force : bool) (m : bytes) (base end_ first : Z) (l : list attr) : res bytes :=
  match l with
  | [] => Ok m
  | a :: l =>
      '(m, r) ← xattr_addto_range force m base end_ first (a_index a) (a_name a) (a_value a);
      match r with None => OutOfBounds | Some _ => add_all force m base end_ first l end
  end.

Lemma add_all_layout force base first end_ X post k : forall l m g,
  layout m base first end_ l X post g -> Forall attr_ok k -> Forall (fun a => a_hash a = 0) k ->
  (forall i a b, (l ++ k) !! i = Some a -> (l ++ k) !! S i = Some b -> attr_lt a b) -> xlens k + vsizes k + 4 <= g ->
  exists m', add_all force m base end_ first k = Ok m' /\ layout m' base first end_ (l ++ k) X post (g - xlens k - vsizes k).
Proof.
  induction k as [|a k IH]; intros l m g HL Hk Hh Hs Hg.
  { exists m. split; [done|]. cbn [xlens vsizes]. by rewrite app_nil_r, !Z.sub_0_r. }
  apply list.Forall_cons in Hk as [Ha Hk]. apply list.Forall_cons in Hh as [Hh0 Hh]. pose proof (xlens_bound k Hk) as (Hx & Hv & _). pose proof (zlen_nonneg k).
  cbn [xlens vsizes] in *. destruct a as [idx name value h]. cbn in Hh0. subst h. set (a := Attr idx name value 0) in *.
  destruct (add_fits force m base first end_ l X post g idx name value HL Ha) as (m1 & E1 & L1); [|fold a; lia|].
  { intros b Hb. rewrite last_lookup in Hb. pose proof (lookup_lt_Some _ _ _ Hb). apply (Hs (Init.Nat.pred (length l))).
    - by rewrite lookup_app_l by lia.
    - rewrite lookup_app_r by lia. replace (S (Init.Nat.pred (length l)) - length l)%nat with 0%nat by lia. done. }
  fold a in L1. destruct (IH (l ++ [a]) m1 (g - xlen a - vsize a) L1 Hk Hh) as (m2 & E2 & L2); [by rewrite <- app_assoc|lia|].
  exists m2. split; [cbn [add_all a_index a_name a_value a]; rewrite E1; cbn [mbind res_bind]; done|].
  rewrite <- app_assoc in L2. cbn [app] in L2. replace (g - (xlen a + xlens k) - (vsize a + vsizes k)) with (g - xlen a - vsize a - xlens k - vsizes k) by lia. done.
Qed.

(** C27: the extended attributes that [xattr_addto_range] adds to an empty range of
    memory are the ones a file system reads back.  In a zeroed range of [n] bytes
    between [X] and [post], values being addressed from a [base] not behind the
    range and less than 2^16 bytes before its end: attributes added in the order
    ext4 requires (name index, then length of the name, then the name), with
    8-bit indices, names of 1 to 255 bytes, values below 2^16 bytes and no hash,
    whose entries (16 bytes and the name) and values, each padded to 4 bytes, and
    8 bytes more fit into the range, are all accepted and are read ([read_xattrs])
    in that order with their names and values; the bytes around the range are
    unchanged.  An attribute that needs more than what is then left without the
    last 4 bytes is refused and the memory stays as it was. *)
Theorem xattr_roundtrip force base X post n l :
  Forall attr_ok l -> Forall (fun a => a_hash a = 0) l ->
  (forall i a b, l !! i = Some a -> l !! S i = Some b -> attr_lt a b) ->
  base <= zlen X -> zlen X + n - base <= 2 ^ 16 - 1 -> xlens l + vsizes l + 8 <= n ->
  let first := zlen X in let end_ := zlen X + n in
  exists m mid, add_all force (X ++ zeros n ++ post) base end_ first l = Ok m /\ m = X ++ mid ++ post /\ zlen mid = n /\
    read_xattrs (length l) m base first end_ = Ok ((fun a => (a_index a, a_name a, a_value a)) <$> l) /\
    (forall a, attr_ok a -> n - 4 - xlens l - vsizes l < xlen a + vsize a ->
       xattr_addto_range force m base end_ first (a_index a) (a_name a) (a_value a) = Ok (m, None)).
Proof.
  intros Hl Hh Hs Hb He Hn first end_. pose proof (xlens_bound l Hl) as (Hx & Hv & _). pose proof (zlen_nonneg l).
  assert (layout (X ++ zeros n ++ post) base first end_ [] X (zeros 4 ++ post) (n - 4)) as H0.
  { constructor; [|done|cbn; unfold end_, first; lia|done|intros i a b Hi; by rewrite lookup_nil in Hi].
    cbn [entries attr_values app]. rewrite (app_assoc (zeros (n - 4))), <- zeros_add by lia. do 3 f_equal. lia. }
  destruct (add_all_layout force base first end_ X (zeros 4 ++ post) l [] _ _ H0 Hl Hh Hs ltac:(lia)) as (m & E & L).
  cbn [app] in L. pose proof L as [Hm _ [Hr _] _ _]. exists m, (entries base (end_ - 4) l ++ zeros (n - 4 - xlens l - vsizes l) ++ attr_values l ++ zeros 4).
  split_and!; [done|rewrite Hm; by rewrite <- !app_assoc| |exact (layout_read _ _ _ _ _ _ _ _ L)|].
  - rewrite !zlen_app, zlen_entries, zlen_attr_values, !zlen_zero_bytes by (done || lia). lia.
  - intros a Ha Hna. by eapply add_full.
Qed.

Definition sample_attrs : list attr := [Attr 6 (str "selinux") (str "u:r:x:s0") 0; Attr 6 (str "capability") [1; 2; 3] 0].

Lemma xattr_roundtrip_witness :
  let X := [7; 7] in
  exists m mid, add_all false (X ++ zeros 90 ++ [9]) 2 (zlen X + 90) (zlen X) sample_attrs = Ok m /\ m = X ++ mid ++ [9] /\ zlen mid = 90 /\
    read_xattrs (length sample_attrs) m 2 (zlen X) (zlen X + 90) = Ok ((fun a => (a_index a, a_name a, a_value a)) <$> sample_attrs) /\
    (forall a, attr_ok a -> 90 - 4 - xlens sample_attrs - vsizes sample_attrs < xlen a + vsize a ->
       xattr_addto_range false m 2 (zlen X + 90) (zlen X) (a_index a) (a_name a) (a_value a) = Ok (m, None)).
Proof.
  refine (xattr_roundtrip false 2 [7; 7] [9] 90 sample_attrs _ _ _ _ _ _).
  - repeat apply Forall_cons_2; try apply Forall_nil_2; repeat split; vm_compute; congruence.
  - repeat apply Forall_cons_2; try apply Forall_nil_2; reflexivity.
  - intros [|[|i]] a b Ha Hb; [|discriminate Hb|discriminate Hb]. injection Ha as <-. injection Hb as <-. right. split; [reflexivity|]. left. reflexivity.
  - vm_compute. congruence.
  - vm_compute. congruence.
  - vm_compute. congruence.
Defined.

(** xattr_free_space leaves the four zero bytes at the end of the range instead
    of after the last entry: an attribute that fits exactly leaves no zero bytes
    between the entries and the values. Here in an inode of 256 bytes a security
    context of 67 characters: xattr_assert_sane takes the value for an entry and
    accepts it, and the attributes of the inode can no longer be read. *)
Definition long_context : bytes := str "u:object_r:a_label_of_a_file_whose_security_context_is_long_enough:" ++ [0].

Lemma exact_fit_unreadable :
  ('(m, r) ← xattr_addto_range false (zeros 512) 160 256 160 6 (str "selinux") long_context;
   Ok (r, read_xattrs 10 m 160 160 256)) = Ok (Some 160, OutOfBounds).
Proof. vm_compute. reflexivity. Qed.
