(* ===== verification/Ext4Indirect.v ===== *)
(** Model of src/ext4_utils/indirect.c, of make_link in contents.c and of
    ext4_create_resize_inode in ext4_utils.c: files mapped by direct and indirect
    blocks, symbolic links, and the inode that reserves room for group descriptors.

    The tables of block numbers are buffers that are queued for writing before
    they are filled; the functions return them with the blocks they are for. *)
From stdpp Require Import base gmap list numbers strings.
From Stdlib Require Import ZArith Lia.
From S2P Require Import Prelude Utils Ext4Base Ext4Allocate Ext4Extent Ext4Dir.

Definition EXT4_NDIR_BLOCKS : Z := 12.
Definition EXT4_IND_BLOCK : Z := 12.
Definition EXT4_DIND_BLOCK : Z := 13.
Definition EXT4_TIND_BLOCK : Z := 14.
Definition EXT4_RESIZE_INO : Z := 7.

(** [table[i] = v] and [table[i]] for an array of [u32]. *)
Definition table_set (t : bytes) (i v : Z) : res bytes := mem_write t (4 * i) (le_encode 4 v).
Definition table_get (t : bytes) (i : Z) : res Z := b ← mem_read t (4 * i) 4; Ok (le_decode b).

(** The value of an unsigned 32-bit number as an [int]. *)
Definition to_int (x : Z) : Z := if x <? 2 ^ 31 then x else x - 2 ^ 32.

(** The unsigned division; by zero it does not return. *)
Definition div_u32 (x y : Z) : res Z := if y =? 0 then OutOfBounds else Ok (x / y).

(** Buffers with the block they are written to. *)
Definition tables : Type := list (Z * bytes).

Section Indirect.
Context (force : bool) (info : fs_info) (aux_info : fs_aux_info).

Definition empty_table : bytes := zeros (block_size info).

(** Queues the buffer; its contents are zero. *)
Definition indirect_create_backing (alloc : block_allocation) (backing_len : Z) : M block_allocation :=
  if EXT4_NDIR_BLOCKS <? DIV_ROUND_UP 64 backing_len (block_size info) then lift critical_error
  else
    fuel ← regions_fuel;
    create_backing info fuel (fun _ len block => sparse_file_add_data len block) alloc 0 backing_len.

(** * Reserving *)

Definition reserve_indirect_block (alloc : block_allocation) (len : Z) : M block_allocation :=
  '(r, alloc) ← reserve_oob_blocks alloc 1;
  if negb (r =? 0) then merror force;; mret alloc
  else
    '(r, alloc) ← advance_blocks alloc len;
    if negb (r =? 0) then merror force;; mret alloc
    else mret alloc.

(** [while (len > 0)]: each turn takes at least one block when [n] is positive. *)
Fixpoint reserve_loop (reserve : block_allocation -> Z -> M block_allocation) (fuel : nat) (n : Z)
    (alloc : block_allocation) (len : Z) : M block_allocation :=
  if 0 <? len then
    match fuel with
    | O => diverge
    | S fuel =>
        let ind_block_len := Z.min n len in
        alloc ← reserve alloc ind_block_len;
        reserve_loop reserve fuel n alloc (len - ind_block_len)
    end
  else mret alloc.

Definition reserve_dindirect_block (alloc : block_allocation) (len : Z) : M block_allocation :=
  '(r, alloc) ← reserve_oob_blocks alloc 1;
  if negb (r =? 0) then merror force;; mret alloc
  else reserve_loop reserve_indirect_block (Z.to_nat len) (to_int (blocks_per_ind aux_info)) alloc len.

Definition reserve_tindirect_block (alloc : block_allocation) (len : Z) : M block_allocation :=
  '(r, alloc) ← reserve_oob_blocks alloc 1;
  if negb (r =? 0) then merror force;; mret alloc
  else reserve_loop reserve_dindirect_block (Z.to_nat len) (to_int (blocks_per_dind aux_info)) alloc len.

Definition reserve_all_indirect_blocks (alloc : block_allocation) (len : Z) : M block_allocation :=
  if len <=? EXT4_NDIR_BLOCKS then mret alloc
  else
    let len := len -u32 EXT4_NDIR_BLOCKS in
    '(_, alloc) ← advance_blocks alloc EXT4_NDIR_BLOCKS;
    let ind_block_len := Z.min (blocks_per_ind aux_info) len in
    alloc ← reserve_indirect_block alloc (to_int ind_block_len);
    let len := len -u32 ind_block_len in
    if len =? 0 then mret alloc
    else
      let dind_block_len := Z.min (blocks_per_dind aux_info) len in
      alloc ← reserve_dindirect_block alloc (to_int dind_block_len);
      let len := len -u32 dind_block_len in
      if len =? 0 then mret alloc
      else
        let tind_block_len := Z.min (blocks_per_tind aux_info) len in
        alloc ← reserve_tindirect_block alloc (to_int tind_block_len);
        let len := len -u32 tind_block_len in
        if len =? 0 then mret alloc else merror force;; mret alloc.

Definition indirect_blocks_needed (len : Z) : res Z :=
  if len <=? EXT4_NDIR_BLOCKS then Ok 0
  else
    let len := len -u32 EXT4_NDIR_BLOCKS in
    n ← div_u32 (len +u32 blocks_per_ind aux_info -u32 1) (blocks_per_ind aux_info);
    let ind := n in
    if len <=? blocks_per_ind aux_info then Ok ind
    else
      let len := len -u32 blocks_per_ind aux_info in
      n ← div_u32 (len +u32 blocks_per_dind aux_info -u32 1) (blocks_per_dind aux_info);
      let ind := ind +u32 n in
      if len <=? blocks_per_dind aux_info then Ok ind
      else
        let len := len -u32 blocks_per_dind aux_info in
        n ← div_u32 (len +u32 blocks_per_tind aux_info -u32 1) (blocks_per_tind aux_info);
        let ind := ind +u32 n in
        if len <=? blocks_per_tind aux_info then Ok ind else critical_error.

(** * Filling tables *)

(** [for (i = 0; i < len; i++) ind_block[i] = get_block(alloc, i)]; [n] turns are left. *)
Fixpoint fill_indirect_block (n : nat) (i : Z) (t : bytes) (alloc : block_allocation) : M bytes :=
  match n with
  | O => mret t
  | S n =>
      b ← get_block alloc i;
      t ← lift (table_set t i b);
      fill_indirect_block n (i + 1) t alloc
  end.

(** An indirect block for the next [len] blocks: its number, or [None] after an error. *)
Definition next_oob_block (alloc : block_allocation) : M (option Z * block_allocation) :=
  b ← get_oob_block alloc 0;
  '(r, alloc) ← advance_oob_blocks alloc 1;
  if negb (r =? 0) then merror force;; mret (None, alloc)
  else mret (Some b, alloc).

Fixpoint fill_dindirect_block (fuel : nat) (i len : Z) (t : bytes) (alloc : block_allocation) :
    M (bytes * block_allocation * tables) :=
  if 0 <? len then
    match fuel with
    | O => diverge
    | S fuel =>
        '(ind_block, alloc) ← next_oob_block alloc;
        match ind_block with
        | None => mret (t, alloc, [])
        | Some ind_block =>
            t ← lift (table_set t i ind_block);
            queue (sparse_file_add_data (block_size info) ind_block);;
            let ind_block_len := Z.min (to_int (blocks_per_ind aux_info)) len in
            data ← fill_indirect_block (Z.to_nat ind_block_len) 0 empty_table alloc;
            '(r, alloc) ← advance_blocks alloc ind_block_len;
            if negb (r =? 0) then merror force;; mret (t, alloc, [(ind_block, data)])
            else
              '(t, alloc, l) ← fill_dindirect_block fuel (i + 1) (len - ind_block_len) t alloc;
              mret (t, alloc, (ind_block, data) :: l)
        end
    end
  else mret (t, alloc, []).

Fixpoint fill_tindirect_block (fuel : nat) (i len : Z) (t : bytes) (alloc : block_allocation) :
    M (bytes * block_allocation * tables) :=
  if 0 <? len then
    match fuel with
    | O => diverge
    | S fuel =>
        '(dind_block, alloc) ← next_oob_block alloc;
        match dind_block with
        | None => mret (t, alloc, [])
        | Some dind_block =>
            t ← lift (table_set t i dind_block);
            queue (sparse_file_add_data (block_size info) dind_block);;
            let dind_block_len := Z.min (to_int (blocks_per_dind aux_info)) len in
            '(data, alloc, l) ← fill_dindirect_block (Z.to_nat dind_block_len) 0 dind_block_len empty_table alloc;
            '(t, alloc, l') ← fill_tindirect_block fuel (i + 1) (len - dind_block_len) t alloc;
            mret (t, alloc, (dind_block, data) :: l ++ l')
        end
    end
  else mret (t, alloc, []).

(** * Attaching blocks to an inode *)

(** What the functions change: the inode, the allocation, the blocks left and the
    tables; the first component is the result. *)
Definition attached : Type := Z * ext4_inode * block_allocation * Z * tables.

Definition inode_attach_direct_blocks (inode : ext4_inode) (alloc : block_allocation) (block_len : Z) : M attached :=
  let len := Z.min block_len EXT4_NDIR_BLOCKS in
  b ← fill_indirect_block (Z.to_nat len) 0 (i_block inode) alloc;
  let inode := set_i_block b inode in
  '(r, alloc) ← advance_blocks alloc len;
  if negb (r =? 0) then merror force;; mret (-1, inode, alloc, block_len, [])
  else mret (0, inode, alloc, block_len -u32 len, []).

(** The three functions for indirect blocks, which differ in the number of blocks
    [n], the entry of [i_block] and the way to fill the table. *)
Definition attach_table (n slot : Z) (fill : Z -> bytes -> block_allocation -> M (bytes * block_allocation * tables))
    (inode : ext4_inode) (alloc : block_allocation) (block_len : Z) : M attached :=
  let len := to_int (Z.min block_len n) in
  ind_block ← get_oob_block alloc 0;
  b ← lift (table_set (i_block inode) slot ind_block);
  let inode := set_i_block b inode in
  '(r, alloc) ← advance_oob_blocks alloc 1;
  if negb (r =? 0) then merror force;; mret (-1, inode, alloc, block_len, [])
  else
    queue (sparse_file_add_data (block_size info) ind_block);;
    '(data, alloc, l) ← fill len empty_table alloc;
    '(r, alloc) ← advance_blocks alloc len;
    if negb (r =? 0) then merror force;; mret (-1, inode, alloc, block_len, (ind_block, data) :: l)
    else mret (0, inode, alloc, block_len -u32 u32 len, (ind_block, data) :: l).

Definition inode_attach_indirect_blocks : ext4_inode -> block_allocation -> Z -> M attached :=
  attach_table (blocks_per_ind aux_info) EXT4_IND_BLOCK
    (fun len t alloc => t ← fill_indirect_block (Z.to_nat len) 0 t alloc; mret (t, alloc, [])).
Definition inode_attach_dindirect_blocks : ext4_inode -> block_allocation -> Z -> M attached :=
  attach_table (blocks_per_dind aux_info) EXT4_DIND_BLOCK
    (fun len t alloc => fill_dindirect_block (Z.to_nat len) 0 len t alloc).
Definition inode_attach_tindirect_blocks : ext4_inode -> block_allocation -> Z -> M attached :=
  attach_table (blocks_per_tind aux_info) EXT4_TIND_BLOCK
    (fun len t alloc => fill_tindirect_block (Z.to_nat len) 0 len t alloc).

(** [if (count > 0) if (attach(...)) { error(...); return -1; }] *)
Definition attach_more (attach : ext4_inode -> block_allocation -> Z -> M attached) (a : attached) : M attached :=
  let '(r, inode, alloc, count, l) := a in
  if negb (r =? 0) then mret a
  else if 0 <? count then
    '(r, inode, alloc, count, l') ← attach inode alloc count;
    (if negb (r =? 0) then merror force else mret tt);;
    mret (r, inode, alloc, count, l ++ l')
  else mret a.

Definition do_inode_attach_indirect (inode : ext4_inode) (alloc : block_allocation) (block_len : Z) :
    M (Z * ext4_inode * block_allocation * tables) :=
  a ← inode_attach_direct_blocks inode alloc block_len;
  (if negb (a.1.1.1.1 =? 0) then merror force else mret tt);;
  a ← attach_more inode_attach_indirect_blocks a;
  a ← attach_more inode_attach_dindirect_blocks a;
  a ← attach_more inode_attach_tindirect_blocks a;
  let '(r, inode, alloc, count, l) := a in
  if negb (r =? 0) then mret (-1, inode, alloc, l)
  else if negb (count =? 0) then merror force;; mret (-1, inode, alloc, l)
  else mret (0, inode, rewind_alloc alloc, l).

Definition do_inode_allocate_indirect (block_len : Z) : M (option block_allocation) :=
  indirect_len ← lift (indirect_blocks_needed block_len);
  alloc ← allocate_blocks force (block_len +u32 indirect_len);
  match alloc with
  | None => merror force;; mret None
  | Some alloc => mret (Some alloc)
  end.

Definition set_indirect_size (len blocks : Z) (inode : ext4_inode) : ext4_inode :=
  Inode 0 (u32 len) (i_size_high inode) (u32 (blocks * block_size info) / 512) (l_i_blocks_high inode) (i_block inode).

Definition inode_allocate_indirect (inode : ext4_inode) (len : Z) : M (ext4_inode * tables) :=
  let block_len := u32 (DIV_ROUND_UP 64 len (block_size info)) in
  indirect_len ← lift (indirect_blocks_needed block_len);
  alloc ← do_inode_allocate_indirect block_len;
  match alloc with
  | None => merror force;; mret (inode, [])
  | Some alloc =>
      alloc ← reserve_all_indirect_blocks alloc block_len;
      '(r, inode, alloc, l) ← do_inode_attach_indirect inode (rewind_alloc alloc) block_len;
      (if negb (r =? 0) then merror force else mret tt);;
      free_alloc alloc;;
      mret (set_indirect_size len (block_len +u32 indirect_len) inode, l)
  end.

(** The result tells whether there is a buffer of [backing_len] bytes. *)
Definition inode_allocate_data_indirect (inode : ext4_inode) (len backing_len : Z) : M (bool * ext4_inode * tables) :=
  let block_len := u32 (DIV_ROUND_UP 64 len (block_size info)) in
  alloc ← do_inode_allocate_indirect block_len;
  match alloc with
  | None => merror force;; mret (false, inode, [])
  | Some alloc =>
      alloc ← (if negb (backing_len =? 0) then indirect_create_backing alloc backing_len else mret alloc : M block_allocation);
      '(r, inode, alloc, l) ← do_inode_attach_indirect inode (rewind_alloc alloc) block_len;
      (if negb (r =? 0) then merror force else mret tt);;
      free_alloc alloc;;
      mret (negb (backing_len =? 0), inode, l)
  end.

(** * The resize inode *)

(** [for (j = 1; j < superblocks; j++)]; [n] turns are left. *)
Fixpoint resize_entries (n : nat) (j r : Z) (alloc : block_allocation) (ind : bytes) : M bytes :=
  match n with
  | O => mret ind
  | S n =>
      b ← get_block alloc (u32 (j * bg_desc_reserve_blocks info) +u32 r);
      ind ← lift (table_set ind (u32 (r * blocks_per_ind aux_info) +u32 (j - 1)) b);
      resize_entries n (j + 1) r alloc ind
  end.

(** [(i - aux_info.bg_desc_blocks) % info.bg_desc_reserve_blocks], in the type
    [u32], as an [int]. *)
Definition resize_index (i : Z) : Z :=
  let r := to_int ((i -u32 bg_desc_blocks aux_info) mod bg_desc_reserve_blocks info) in
  if r <? 0 then to_int (u32 (u32 r + bg_desc_reserve_blocks info)) else r.

Fixpoint resize_loop (n : nat) (i superblocks : Z) (alloc : block_allocation) (dind ind : bytes) : M (bytes * bytes) :=
  match n with
  | O => mret (dind, ind)
  | S n =>
      let r := resize_index i in
      b ← get_block alloc (u32 r);
      dind ← lift (table_set dind i b);
      ind ← resize_entries (Z.to_nat (superblocks - 1)) 1 r alloc ind;
      resize_loop n (i + 1) superblocks alloc dind ind
  end.

Definition set_resize_size (block_len superblocks : Z) (b : bytes) (inode : ext4_inode) : ext4_inode :=
  let last_block := u32 (EXT4_NDIR_BLOCKS + blocks_per_ind aux_info +
                         u32 (blocks_per_ind aux_info * (bg_desc_reserve_blocks info -u32 1)) + superblocks - 2) in
  let blocks := u64 ((block_len + 1) * block_size info) / 512 in
  let size := u64 (last_block * block_size info) in
  Inode 0 (u32 size) (u32 (Z.shiftr size 32)) (u32 blocks) (u16 (Z.shiftr blocks 32)) b.

Definition inode_attach_resize (inode : ext4_inode) (alloc : block_allocation) :
    M (ext4_inode * block_allocation * tables) :=
  block_len ← block_allocation_len alloc;
  superblocks ← lift (div_u32 block_len (bg_desc_reserve_blocks info));
  if negb (block_len mod bg_desc_reserve_blocks info =? 0) then lift critical_error
  else
    '(_, alloc) ← append_oob_allocation force alloc 1;
    dind_block ← get_oob_block alloc 0;
    queue (sparse_file_add_data (block_size info) dind_block);;
    b0 ← get_block alloc 0;
    queue (sparse_file_add_data (u32 (block_size info * bg_desc_reserve_blocks info)) b0);;
    '(dind, ind) ← resize_loop (Z.to_nat (bg_desc_reserve_blocks info)) 0 superblocks alloc empty_table
                     (zeros (block_size info * bg_desc_reserve_blocks info));
    b ← lift (table_set (i_block inode) EXT4_DIND_BLOCK dind_block);
    mret (set_resize_size block_len superblocks b inode, alloc, [(dind_block, dind); (b0, ind)]).

(** The loop over the groups of ext4_create_resize_inode. *)
Fixpoint reserved_regions (n : nat) (i : Z) (alloc : block_allocation) : M block_allocation :=
  match n with
  | O => mret alloc
  | S n =>
      alloc ← (if ext4_bg_has_super_block info i then
                 let group_start_block := u32 (first_data_block aux_info + i * blocks_per_group info) in
                 append_region alloc (u32 (group_start_block + 1 + bg_desc_blocks aux_info)) (bg_desc_reserve_blocks info) i
               else mret alloc : M block_allocation);
      reserved_regions n (i + 1) alloc
  end.

Definition ext4_create_resize_inode : M tables :=
  ip ← get_inode info aux_info EXT4_RESIZE_INO;
  alloc ← reserved_regions (Z.to_nat (groups aux_info)) 0 create_allocation;
  i ← load_inode ip;
  '(i, alloc, l) ← inode_attach_resize i alloc;
  store_inode ip i;;
  store_num ip o_mode (Z.lor S_IFREG 384);;
  store_num ip o_links_count 1;;
  free_alloc alloc;;
  mret l.

(** * Symbolic links *)

(** Returns the inode number and the buffer of a link that is too long for the inode. *)
Definition make_link (default_i_flags : Z) (link : bytes) : M (Z * option bytes) :=
  let len := u32 (zlen link) in
  inode_num ← allocate_inode info aux_info;
  if inode_num =? EXT4_ALLOCATE_FAILED then merror force;; mret (EXT4_ALLOCATE_FAILED, None)
  else
    ip ← get_inode info aux_info inode_num;
    set_mode default_i_flags ip S_IFLNK 1;;
    store_num ip o_size_lo len;;
    if u32 (len + 1) <=? 60 then
      store_field ip (fst o_block, len) link;;
      mret (inode_num, None)
    else
      i ← load_inode ip;
      '(ok, i, _) ← inode_allocate_data_indirect i (block_size info) (block_size info);
      store_inode ip i;;
      if (ok : bool) then
        data ← lift (mem_write (zeros (block_size info)) 0 link);
        store_num ip o_blocks_lo (block_size info / 512);;
        mret (inode_num, Some data)
      else lift OutOfBounds.
End Indirect.

(** ** What the code makes of files of more than twelve blocks *)

Definition table_list (n : nat) (t : bytes) : list (res Z) := (fun i => table_get t (Z.of_nat i)) <$> seq 0 n.
