(* ===== verification/Ext4Resize.v ===== *)
(** What indirect.c writes: the direct blocks of an inode, and the tables of the
    resize inode. *)
From stdpp Require Import base gmap list numbers strings.
From Stdlib Require Import ZArith Lia.
From S2P Require Import Prelude Utils Ext4Base Ext4Allocate Ext4Bitmap Ext4Blocks Ext4Use Ext4Lists Ext4Alloc Ext4Init Ext4Safety Ext4Extent Ext4Tree Ext4Dir Ext4Indirect.

(** * Tables *)

Lemma mem_read_outside m p b m' q n :
  mem_write m p b = Ok m' -> q + n <= p \/ p + zlen b <= q -> mem_read m' q n = mem_read m q n.
Proof.
  intros H Hd. pose proof (mem_write_len _ _ _ _ H) as Hl. unfold mem_read. rewrite Hl.
  destruct ((0 <=? q) && (0 <=? n) && (q + n <=? zlen m)) eqn:E; [|done]. bool_to_prop. f_equal.
  apply list_eq_znth; rewrite !zlen_ztake by (rewrite zlen_zdrop; lia); [done|].
  intros i Hi. rewrite !znth_ztake, !znth_zdrop by lia. rewrite (mem_write_znth _ _ _ _ _ H).
  destruct (Z.leb_spec p (q + i)), (Z.ltb_spec (q + i) (p + zlen b)); done || lia.
Qed.

Lemma mem_read_same m p b m' : mem_write m p b = Ok m' -> mem_read m' p (zlen b) = Ok b.
Proof. intros H. apply bytes_at_write_same in H as (pre & post & -> & ->). by apply mem_read_app. Qed.

Lemma table_set_get t i v :
  0 <= i -> 4 * i + 4 <= zlen t -> is_u32 v ->
  exists t', table_set t i v = Ok t' /\ zlen t' = zlen t /\
    forall j, table_get t' j = if decide (j = i) then Ok v else table_get t j.
Proof.
  intros Hi Ht Hv. unfold table_set, table_get. destruct (mem_write_ok t (4 * i) (le_encode 4 v)) as [t' E]; [lia|rewrite zlen_le_encode; lia|].
  exists t'. split; [done|]. split; [by eapply mem_write_len|]. intros j. case_decide as Hj.
  - subst j. pose proof (mem_read_same _ _ _ _ E) as R. rewrite zlen_le_encode in R. change (Z.of_nat 4) with 4 in R. rewrite R. cbn [mbind res_bind].
    rewrite le_decode_encode. f_equal. apply Z.mod_small. exact Hv.
  - rewrite (mem_read_outside _ _ _ _ _ _ E); [done|]. rewrite zlen_le_encode. lia.
Qed.

Lemma znth_Some_bound {A} (l : list A) i x : znth l i = Some x -> 0 <= i < zlen l.
Proof. unfold znth. destruct (Z.ltb_spec i 0); [done|]. intros E. apply lookup_lt_Some in E. unfold zlen. lia. Qed.

(** * Filling a table *)

Section Fill.
Context (s : fs) (alloc : block_allocation) (bl : list Z).
(** The blocks of the allocation are [bl]. *)
Context (Hget : forall k, 0 <= k < zlen bl -> get_block alloc k s = Ok (default 0 (znth bl k), s)).
Context (Hbl : Forall is_u32 bl).

Lemma block_u32 k : is_u32 (default 0 (znth bl k)).
Proof.
  destruct (znth bl k) as [x|] eqn:E; [|done]. cbn. unfold znth in E. destruct (_ <? _) eqn:? in E; [done|].
  by eapply list.Forall_lookup_1 in Hbl.
Qed.

Lemma fill_indirect_block_spec n : forall i t,
  0 <= i -> i + Z.of_nat n <= zlen bl -> 4 * (i + Z.of_nat n) <= zlen t ->
  exists t', fill_indirect_block n i t alloc s = Ok (t', s) /\ zlen t' = zlen t /\
    forall j, table_get t' j = if decide (i <= j < i + Z.of_nat n) then Ok (default 0 (znth bl j)) else table_get t j.
Proof.
  induction n as [|n IH]; intros i t Hi Hb Ht.
  { exists t. split; [done|]. split; [done|]. intros j. by rewrite decide_False by lia. }
  cbn [fill_indirect_block]. rewrite (bind_Ok _ _ _ _ _ (Hget i ltac:(lia))).
  destruct (table_set_get t i (default 0 (znth bl i))) as (t1 & E1 & L1 & G1); [lia|lia|apply block_u32|].
  rewrite (bind_Ok _ _ _ _ _ (lift_Ok _ _ _ E1)). destruct (IH (i + 1) t1) as (t2 & E2 & L2 & G2); [lia|lia|lia|].
  exists t2. split; [done|]. split; [lia|]. intros j. rewrite G2, G1.
  destruct (decide (i + 1 <= j < i + 1 + Z.of_nat n)); [by rewrite decide_True by lia|].
  destruct (decide (j = i)) as [->|]; [by rewrite decide_True by lia|]. by rewrite decide_False by lia.
Qed.
End Fill.

(** * Files of at most twelve blocks *)

Definition with_sparse (s : fs) (l : list sparse_op) : fs := Fs (heap s) (brk s) (bgs s) l.

Lemma total_pos l : Forall (fun sp => 0 < sp_len sp) l -> 0 <= total l.
Proof. intros H. apply total_nonneg. eapply Forall_impl; [exact H|]. cbn. intros. lia. Qed.

Lemma advance_loop_all s ns : forall fuel prev,
  dseg (heap s) prev ns None -> (length ns <= fuel)%nat -> Forall (fun sp => 0 < sp_len sp) (spans ns) -> total (spans ns) < 2 ^ 32 ->
  advance_loop fuel (head_addr ns None) 0 (total (spans ns)) s = Ok ((0, 0), s).
Proof.
  induction ns as [|[p sp] ns IH]; intros fuel prev Hd Hf Hl Ht; [by destruct fuel|].
  destruct fuel as [|fuel]; cbn in Hf; [lia|]. destruct Hd as [Hd Hd']. cbn in Hl. apply list.Forall_cons in Hl as [Hsp Hl]. fold (spans ns) in Hl.
  pose proof (total_pos _ Hl).
  change (total (spans ((p, sp) :: ns))) with (sp_len sp + total (spans ns)) in *.
  cbn [advance_loop head_addr]. destruct (Z.ltb_spec 0 (sp_len sp + total (spans ns))); [|lia]. mstep. cbn [r_len r_next region_of].
  rewrite (u32_small (sp_len sp - 0)), Z.sub_0_r by (unfold is_u32; lia).
  destruct (Z.ltb_spec (0 +u32 (sp_len sp + total (spans ns))) (sp_len sp)) as [Hlt|_].
  { rewrite u32_small in Hlt by (unfold is_u32; lia). lia. }
  replace (sp_len sp + total (spans ns) - sp_len sp) with (total (spans ns)) by lia. by eapply IH; [|lia| |lia].
Qed.

(** What is queued for the regions of a buffer. *)
Definition queued (bs : Z) (l : list span) : list sparse_op := (fun sp => sparse_file_add_data (sp_len sp * bs) (sp_block sp)) <$> l.

Lemma create_backing_all info ns : forall fuel off lf ll oob fn prev s,
  dseg (heap s) prev ns None -> (length ns <= fuel)%nat -> Forall (fun sp => 0 < sp_len sp) (spans ns) ->
  0 < block_size info -> total (spans ns) * block_size info < 2 ^ 32 ->
  exists it, create_backing info fuel (fun _ len block => sparse_file_add_data len block)
    (BlockAllocation (RegionList lf ll (head_addr ns None) 0) oob fn) off (total (spans ns) * block_size info) s =
    Ok (BlockAllocation (RegionList lf ll it 0) oob fn, with_sparse s (sparse s ++ queued (block_size info) (spans ns))).
Proof.
  induction ns as [|[p sp] ns IH]; intros fuel off lf ll oob fn prev s Hd Hf Hl Hbs Ht.
  { exists None. destruct fuel; cbn; rewrite app_nil_r; by destruct s. }
  destruct fuel as [|fuel]; cbn in Hf; [lia|]. destruct Hd as [Hd Hd']. cbn in Hl. apply list.Forall_cons in Hl as [Hsp Hl]. fold (spans ns) in Hl.
  pose proof (total_pos _ Hl).
  change (total (spans ((p, sp) :: ns))) with (sp_len sp + total (spans ns)) in *. set (bs := block_size info) in *.
  assert (sp_len sp * bs + total (spans ns) * bs = (sp_len sp + total (spans ns)) * bs) as Esum by lia.
  assert (0 <= total (spans ns) * bs /\ 0 < sp_len sp * bs /\ sp_len sp <= sp_len sp * bs) as (? & ? & ?) by nia.
  cbn [create_backing head_addr]. destruct (Z.ltb_spec 0 ((sp_len sp + total (spans ns)) * bs)); [|lia].
  unfold get_region at 1. cbn [a_list l_iter l_partial]. erewrite bind_Ok by (erewrite bind_Ok by (by eapply load_Ok); reflexivity).
  cbn beta iota zeta. cbn [r_block r_len region_of]. fold bs. rewrite Z.sub_0_r, (u32_small (sp_len sp)) by (unfold is_u32; lia).
  rewrite (u32_small (sp_len sp * bs)), Z.min_l, u32_small by (unfold is_u32; lia).
  erewrite bind_Ok by reflexivity. unfold get_next_region at 1. cbn [a_list l_iter l_first l_last set_list a_oob_list a_filename].
  erewrite bind_Ok by (erewrite bind_Ok by (by eapply load_Ok); reflexivity). cbn [r_next region_of].
  rewrite (u64_small ((sp_len sp + total (spans ns)) * bs - sp_len sp * bs)) by (unfold is_u64; lia).
  replace ((sp_len sp + total (spans ns)) * bs - sp_len sp * bs) with (total (spans ns) * bs) by lia.
  destruct (IH fuel (off + sp_len sp * bs) lf ll oob fn (Some p) (with_sparse s (sparse s ++ [sparse_file_add_data (sp_len sp * bs) (sp_block sp)])))
    as (it & E); [done|lia|done|done|lia|].
  exists it. etransitivity; [exact E|]. cbn [sparse with_sparse]. rewrite <- app_assoc. done.
Qed.

Lemma indirect_blocks_needed_direct aux_info n : n <= 12 -> indirect_blocks_needed aux_info n = Ok 0.
Proof. intros H. unfold indirect_blocks_needed, EXT4_NDIR_BLOCKS. by destruct (Z.leb_spec n 12); [|lia]. Qed.

(** Moving over all blocks leaves the iterator where it is. *)
Lemma advance_blocks_all s alloc ns :
  alloc_ok (heap s) alloc ns -> Forall (fun sp => 0 < sp_len sp) (spans ns) -> total (spans ns) < 2 ^ 32 ->
  advance_blocks alloc (total (spans ns)) s = Ok ((0, alloc), s).
Proof.
  intros [Hl _ Hd Hnd] Hpos Ht. pose proof (dseg_length _ _ _ _ Hd Hnd) as Hlen. unfold advance_blocks, advance_list_ptr. rewrite Hl. cbn [l_first l_last l_iter l_partial].
  erewrite bind_Ok.
  2: { erewrite bind_Ok; [|reflexivity]. erewrite bind_Ok; [|apply (advance_loop_all s ns _ None); [done|lia|done|lia]]. reflexivity. }
  cbn beta iota. rewrite <- Hl. by destruct alloc.
Qed.

Section Direct.
Context (force : bool) (info : fs_info) (aux_info : fs_aux_info).
Context (s : fs) (alloc : block_allocation) (ns : list node).
Context (Hs : fs_ok info aux_info s) (Ha : alloc_ok (heap s) alloc ns) (Hu : Forall (in_use (bgs s)) (spans ns)).
Let bl := blocks (spans ns).
Let n := total (spans ns).
Context (Hn : n <= 12).

Lemma spans_bounds : Forall (fun sp => 0 < sp_len sp) (spans ns) /\ zlen bl = n /\ Forall is_u32 bl.
Proof.
  pose proof (proj1 Hs) as Hg. split; [|split].
  - eapply Forall_impl; [exact Hu|]. by intros sp [Hp _].
  - by eapply alloc_zlen.
  - apply list.Forall_forall. intros B HB. apply elem_of_blocks in HB as (sp & Hsp & HB). rewrite list.Forall_forall in Hu.
    pose proof (in_use_bounds info aux_info _ _ Hg (Hu sp Hsp)). unfold in_span, is_u32 in *. lia.
Qed.

Lemma attach_direct inode :
  zlen (i_block inode) = 60 ->
  exists b, do_inode_attach_indirect force info aux_info inode alloc n s = Ok ((0, set_i_block b inode, rewind_alloc alloc, []), s) /\
    zlen b = 60 /\ forall k, table_get b k = match znth bl k with Some x => Ok x | None => table_get (i_block inode) k end.
Proof.
  intros Hi. destruct spans_bounds as (Hpos & Hz & Hbl). pose proof (zlen_nonneg bl).
  destruct (fill_indirect_block_spec s alloc bl) with (n := Z.to_nat n) (i := 0) (t := i_block inode) as (b & E & Hb & G); [|done|lia|lia|lia|].
  { intros k Hk. rewrite (get_block_spec info aux_info s alloc ns k Hs Ha Hu) by (unfold is_u32; lia).
    fold bl. destruct (znth_is_Some bl k Hk) as [x ->]. done. }
  exists b. unfold do_inode_attach_indirect, inode_attach_direct_blocks, EXT4_NDIR_BLOCKS. rewrite Z.min_l by lia.
  split; [|split; [lia|]].
  - erewrite bind_Ok.
    2: { erewrite bind_Ok; [|exact E]. erewrite bind_Ok; [|apply advance_blocks_all; [done|done|unfold n in Hn; lia]].
         cbn beta iota. cbn [negb Z.eqb]. reflexivity. }
    rewrite Z.sub_diag. reflexivity.
  - intros k. rewrite G. destruct (decide _) as [Hk|Hk].
    + destruct (znth_is_Some bl k) as [x ->]; [lia|done].
    + destruct (znth bl k) as [x|] eqn:Ex; [|done]. apply znth_Some_bound in Ex. lia.
Qed.
End Direct.

Lemma free_alloc_all s alloc ns :
  alloc_ok (heap s) alloc ns -> exists h, free_alloc alloc s = Ok (tt, with_heap s h).
Proof.
  intros [Hl Ho Hd Hnd]. pose proof (dseg_length _ _ _ _ Hd Hnd) as Hlen. unfold free_alloc. rewrite Hl, Ho. cbn [l_first empty_list].
  destruct (free_regions_spec (S (size (heap s))) None ns s) as (h & E & _); [done|done|lia|]. exists h.
  erewrite bind_Ok; [|reflexivity]. erewrite bind_Ok; [|exact E]. done.
Qed.

(** A file of at most twelve blocks gets them as the direct blocks of its inode:
    [inode_allocate_data_indirect] stores in [i_block], in order, the different
    and until then free blocks that [allocate_blocks] took, leaves the rest of the
    inode as it is, queues the buffer of the whole file region by region for the
    same blocks and frees what it allocated for itself. *)
Theorem direct_blocks_map force info aux_info inode n s s1 alloc :
  geometry_ok info -> fs_ok info aux_info s -> zlen (i_block inode) = 60 -> 0 < n <= 12 -> 0 < block_size info < 2 ^ 28 ->
  allocate_blocks force n s = Ok (Some alloc, s1) ->
  let bl := alloc_blocks s1 alloc in
  exists b s', inode_allocate_data_indirect force info aux_info inode (n * block_size info) (n * block_size info) s =
      Ok ((true, set_i_block b inode, []), s') /\
    zlen bl = n /\ NoDup bl /\ (forall B, B ∈ bl -> ~ used info (bgs s) B /\ used info (bgs s') B) /\
    (forall k, table_get b k = match znth bl k with Some B => Ok B | None => table_get (i_block inode) k end) /\
    bgs s' = bgs s1 /\ sparse s' = sparse s ++ queued (block_size info) (alloc_spans s1 alloc).
Proof.
  intros Hgeo Hs Hi Hn Hbs Hrun bl. destruct (allocated force info aux_info n s alloc s1 Hgeo Hs ltac:(lia) Hrun) as (ns & Ha & Hx & Ht).
  assert (bl = blocks (spans ns)) as Ebl by by apply alloc_blocks_spec. pose proof (ex_ok _ _ _ _ _ _ Hx) as Hs1. pose proof (ex_new _ _ _ _ _ _ Hx) as Hu.
  destruct (spans_bounds info aux_info s1 ns Hs1 Hu) as (Hpos & Hz & _). rewrite (alloc_spans_spec _ _ _ Ha).
  assert (DIV_ROUND_UP 64 (n * block_size info) (block_size info) = n) as En.
  { unfold DIV_ROUND_UP. assert (n * block_size info <= 12 * block_size info) by nia. rewrite Z.mod_small by nia.
    replace (n * block_size info + block_size info - 1) with (block_size info - 1 + n * block_size info) by lia.
    rewrite Z.div_add, Z.div_small by lia. done. }
  pose proof Ha as [Hl Ho Hd Hnd]. pose proof (dseg_length _ _ _ _ Hd Hnd) as Hlen. set (bs := block_size info) in *. assert (n * bs <= 12 * bs) by nia.
  set (s2 := with_sparse s1 (sparse s1 ++ queued bs (spans ns))).
  assert (exists it, indirect_create_backing info alloc (n * bs) s1 =
    Ok (BlockAllocation (RegionList (head_addr ns None) (last_addr None ns) it 0) (a_oob_list alloc) (a_filename alloc), s2)) as (it & Eb).
  { unfold indirect_create_backing. fold bs. unfold EXT4_NDIR_BLOCKS. destruct (Z.ltb_spec 12 (DIV_ROUND_UP 64 (n * bs) bs)) as [Hlt|_]; [lia|].
    destruct (create_backing_all info ns (S (size (heap s1))) 0 (head_addr ns None) (last_addr None ns) (a_oob_list alloc) (a_filename alloc) None s1)
      as (it & E); [done|lia|done|lia|fold bs; rewrite Ht; lia|].
    exists it. erewrite bind_Ok; [|reflexivity]. rewrite Ht in E. fold bs in E. destruct alloc as [al oob fn]. cbn in Hl. subst al. exact E. }
  destruct (attach_direct force info aux_info s2 alloc ns Hs1 Ha Hu ltac:(lia) inode Hi) as (b & E & Hb & G).
  destruct (free_alloc_all s2 (rewind_alloc alloc) ns) as (h & Ef).
  { split; [|done|done|done]. unfold rewind_alloc. rewrite Hl. done. }
  exists b, (with_heap s2 h). split; [|split; [by rewrite Ebl, Hz|]; split; [rewrite Ebl; apply Hx|]; split; [|split; [|split; [done|]]]].
  - unfold inode_allocate_data_indirect, do_inode_allocate_indirect. fold bs. rewrite En, (u32_small n) by (unfold is_u32; lia).
    erewrite bind_Ok.
    2: { rewrite indirect_blocks_needed_direct by lia. erewrite bind_Ok; [|reflexivity]. rewrite Z.add_0_r, u32_small by (unfold is_u32; lia).
         erewrite bind_Ok; [|exact Hrun]. reflexivity. }
    destruct (Z.eqb_spec (n * bs) 0); [nia|]. cbn [negb]. erewrite bind_Ok; [|exact Eb].
    rewrite <- Ht. erewrite bind_Ok.
    2: { replace (rewind_alloc _) with alloc; [exact E|]. unfold rewind_alloc. cbn. rewrite <- Hl. by destruct alloc. }
    cbn beta iota. cbn [negb Z.eqb]. erewrite bind_Ok; [|reflexivity]. erewrite bind_Ok; [|exact Ef]. reflexivity.
  - intros B HB. rewrite Ebl in HB. cbn [bgs with_heap s2 with_sparse]. split; [by apply Hx|]. apply Hx. by right.
  - intros k. rewrite Ebl. apply G.
  - cbn. by rewrite (ex_sparse _ _ _ _ _ _ Hx).
Qed.

Lemma direct_blocks_map_witness :
  exists alloc s1 b s', allocate_blocks false 9 small_fs = Ok (Some alloc, s1) /\
    inode_allocate_data_indirect false small_info small_aux zero_inode (9 * 2048) (9 * 2048) small_fs =
      Ok ((true, set_i_block b zero_inode, []), s') /\
    (forall k, table_get b k = match znth (alloc_blocks s1 alloc) k with Some B => Ok B | None => table_get (replicate 60 0) k end).
Proof.
  destruct (allocate_blocks false 9 small_fs) as [[[a|] s1]| |] eqn:E; try (vm_compute in E; discriminate E).
  destruct (direct_blocks_map false small_info small_aux zero_inode 9 small_fs s1 a (so_geometry _ small_sizes_ok) small_fs_ok
    ltac:(reflexivity) ltac:(lia) ltac:(cbn; lia) E) as (b & s' & H1 & _ & _ & _ & H2 & _).
  exists a, s1, b, s'. split; [reflexivity|]. split; [exact H1|exact H2].
Defined.

(** * Files of more than twelve blocks *)

(** [advance_blocks] counts down but leaves the iterator at the first region, and
    the direct blocks are not behind it afterwards: the table of a file of 14
    blocks has the first two blocks of the file again in place of blocks 12 and
    13. *)
Lemma indirect_blocks_repeat :
  exists inode t s', inode_allocate_indirect false small_info small_aux zero_inode (14 * 2048) small_fs = Ok (inode, [(17, t)], s') /\
    table_list 13 (i_block inode) = Ok <$> seqZ 5 13 /\ table_list 2 t = [Ok 5; Ok 6].
Proof.
  destruct (inode_allocate_indirect false small_info small_aux zero_inode (14 * 2048) small_fs) as [[[inode l] s']| |] eqn:E;
    vm_compute in E; try discriminate E.
  injection E as <- <- <-. eexists _, _, _. split; [reflexivity|]. split; vm_compute; reflexivity.
Qed.
