(* ===== verification/Sha1.v ===== *)
(** Model of src/ext4_utils/sha1.c, and of the UUID that ext4_utils.c derives
    from a hash; that it computes SHA-1 as FIPS 180-4 defines it, in however
    many pieces the message comes.

    The machine is little endian.  [SPARC64_GCC_WORKAROUND] is not defined, so
    that the 80 operations are those written out in [SHA1Transform]. *)
From stdpp Require Import base gmap list numbers strings.
From Stdlib Require Import ZArith Lia.
From S2P Require Import Prelude Utils.

(** * The code *)

(** [(value << bits) | (value >> (32 - bits))] on 32 bits. *)
Definition rol (value bits : Z) : Z := Z.lor (u32 (Z.shiftl value bits)) (Z.shiftr value (32 - bits)).

(** The words of a block; the indices are below 16. *)
Definition word (l : list Z) (i : Z) : Z := default 0 (l !! Z.to_nat i).

Definition blk0 (i : Z) (l : list Z) : Z * list Z :=
  let w := Z.lor (Z.land (rol (word l i) 24) 0xFF00FF00) (Z.land (rol (word l i) 8) 0x00FF00FF) in
  (w, <[Z.to_nat i := w]> l).

Definition blk (i : Z) (l : list Z) : Z * list Z :=
  let w := rol (Z.lxor (Z.lxor (Z.lxor (word l (Z.land (i + 13) 15)) (word l (Z.land (i + 8) 15)))
                               (word l (Z.land (i + 2) 15))) (word l (Z.land i 15))) 1 in
  (w, <[Z.to_nat (Z.land i 15) := w]> l).

(** [a], ..., [e] of [SHA1Transform], and the words of [state]. *)
Record vars := Vars { v_a : Z; v_b : Z; v_c : Z; v_d : Z; v_e : Z }.
Inductive var := va | vb | vc | vd | ve.

Definition get (x : var) (s : vars) : Z :=
  match x with va => v_a s | vb => v_b s | vc => v_c s | vd => v_d s | ve => v_e s end.
Definition set (x : var) (n : Z) (s : vars) : vars :=
  match x, s with
  | va, Vars _ b c d e => Vars n b c d e
  | vb, Vars a _ c d e => Vars a n c d e
  | vc, Vars a b _ d e => Vars a b n d e
  | vd, Vars a b c _ e => Vars a b c n e
  | ve, Vars a b c d _ => Vars a b c d n
  end.

(** The macros [R0] to [R4]. *)
Inductive macro := R0 | R1 | R2 | R3 | R4.
Inductive round := Round (op : macro) (v w x y z : var) (i : Z).

Definition mix (op : macro) (w x y : Z) : Z :=
  match op with
  | R0 | R1 => Z.lxor (Z.land w (Z.lxor x y)) y
  | R2 | R4 => Z.lxor (Z.lxor w x) y
  | R3 => Z.lor (Z.land (Z.lor w x) y) (Z.land w x)
  end.
Definition constant (op : macro) : Z :=
  match op with R0 | R1 => 0x5A827999 | R2 => 0x6ED9EBA1 | R3 => 0x8F1BBCDC | R4 => 0xCA62C1D6 end.
Definition expand (op : macro) : Z -> list Z -> Z * list Z := match op with R0 => blk0 | _ => blk end.

Definition exec (sl : vars * list Z) (r : round) : vars * list Z :=
  let '(s, l) := sl in
  let '(Round op v w x y z i) := r in
  let '(t, l) := expand op i l in
  let s := set z (u32 (get z s + (mix op (get w s) (get x s) (get y s) + t + constant op + rol (get v s) 5))) s in
  (set w (rol (get w s) 30) s, l).

Definition rounds : list round :=
  [
   Round R0 va vb vc vd ve 0; Round R0 ve va vb vc vd 1; Round R0 vd ve va vb vc 2; Round R0 vc vd ve va vb 3;
   Round R0 vb vc vd ve va 4; Round R0 va vb vc vd ve 5; Round R0 ve va vb vc vd 6; Round R0 vd ve va vb vc 7;
   Round R0 vc vd ve va vb 8; Round R0 vb vc vd ve va 9; Round R0 va vb vc vd ve 10; Round R0 ve va vb vc vd 11;
   Round R0 vd ve va vb vc 12; Round R0 vc vd ve va vb 13; Round R0 vb vc vd ve va 14; Round R0 va vb vc vd ve 15;
   Round R1 ve va vb vc vd 16; Round R1 vd ve va vb vc 17; Round R1 vc vd ve va vb 18; Round R1 vb vc vd ve va 19;
   Round R2 va vb vc vd ve 20; Round R2 ve va vb vc vd 21; Round R2 vd ve va vb vc 22; Round R2 vc vd ve va vb 23;
   Round R2 vb vc vd ve va 24; Round R2 va vb vc vd ve 25; Round R2 ve va vb vc vd 26; Round R2 vd ve va vb vc 27;
   Round R2 vc vd ve va vb 28; Round R2 vb vc vd ve va 29; Round R2 va vb vc vd ve 30; Round R2 ve va vb vc vd 31;
   Round R2 vd ve va vb vc 32; Round R2 vc vd ve va vb 33; Round R2 vb vc vd ve va 34; Round R2 va vb vc vd ve 35;
   Round R2 ve va vb vc vd 36; Round R2 vd ve va vb vc 37; Round R2 vc vd ve va vb 38; Round R2 vb vc vd ve va 39;
   Round R3 va vb vc vd ve 40; Round R3 ve va vb vc vd 41; Round R3 vd ve va vb vc 42; Round R3 vc vd ve va vb 43;
   Round R3 vb vc vd ve va 44; Round R3 va vb vc vd ve 45; Round R3 ve va vb vc vd 46; Round R3 vd ve va vb vc 47;
   Round R3 vc vd ve va vb 48; Round R3 vb vc vd ve va 49; Round R3 va vb vc vd ve 50; Round R3 ve va vb vc vd 51;
   Round R3 vd ve va vb vc 52; Round R3 vc vd ve va vb 53; Round R3 vb vc vd ve va 54; Round R3 va vb vc vd ve 55;
   Round R3 ve va vb vc vd 56; Round R3 vd ve va vb vc 57; Round R3 vc vd ve va vb 58; Round R3 vb vc vd ve va 59;
   Round R4 va vb vc vd ve 60; Round R4 ve va vb vc vd 61; Round R4 vd ve va vb vc 62; Round R4 vc vd ve va vb 63;
   Round R4 vb vc vd ve va 64; Round R4 va vb vc vd ve 65; Round R4 ve va vb vc vd 66; Round R4 vd ve va vb vc 67;
   Round R4 vc vd ve va vb 68; Round R4 vb vc vd ve va 69; Round R4 va vb vc vd ve 70; Round R4 ve va vb vc vd 71;
   Round R4 vd ve va vb vc 72; Round R4 vc vd ve va vb 73; Round R4 vb vc vd ve va 74; Round R4 va vb vc vd ve 75;
   Round R4 ve va vb vc vd 76; Round R4 vd ve va vb vc 77; Round R4 vc vd ve va vb 78; Round R4 vb vc vd ve va 79].

(** [memcpy(block, buffer, 64)], seen as words. *)
Fixpoint words_le (n : nat) (m : bytes) : list Z :=
  match n with O => [] | S n => le_decode (ztake 4 m) :: words_le n (zdrop 4 m) end.

Definition SHA1Transform (state : vars) (buffer : bytes) : vars :=
  let '(s, _) := foldl exec (state, words_le 16 buffer) rounds in
  Vars (v_a state +u32 v_a s) (v_b state +u32 v_b s) (v_c state +u32 v_c s) (v_d state +u32 v_d s) (v_e state +u32 v_e s).

Record SHA1_CTX := Ctx { state : vars; count0 : Z; count1 : Z; buffer : bytes }.

(** [buffer] is not initialised. *)
Definition SHA1Init (junk : bytes) : SHA1_CTX :=
  Ctx (Vars 0x67452301 0xEFCDAB89 0x98BADCFE 0x10325476 0xC3D2E1F0) 0 0 junk.

(** [for ( ; i + 63 < len; i += 64)] *)
Fixpoint transform_blocks (fuel : nat) (st : vars) (data : bytes) (len i : Z) : res (vars * Z) :=
  if i +u32 63 <? len then
    match fuel with
    | O => OutOfBounds
    | S fuel => b ← mem_read data i 64; transform_blocks fuel (SHA1Transform st b) data len (i +u32 64)
    end
  else Ok (st, i).

Definition SHA1Update (context : SHA1_CTX) (data : bytes) (len : Z) : res SHA1_CTX :=
  let j := count0 context in
  let c0 := count0 context +u32 u32 (Z.shiftl len 3) in
  let c1 := if c0 <? j then count1 context +u32 (Z.shiftr len 29 + 1) else count1 context in
  let j := Z.land (Z.shiftr j 3) 63 in
  '(st, buf, i, j) ←
    (if 63 <? j +u32 len then
       let i := 64 - j in
       d ← mem_read data 0 i;
       buf ← mem_write (buffer context) j d;
       '(st, i) ← transform_blocks (Z.to_nat (len / 64)) (SHA1Transform (state context) buf) data len i;
       Ok (st, buf, i, 0)
     else Ok (state context, buffer context, 0, j));
  d ← mem_read data i (len -u32 i);
  buf ← mem_write buf j d;
  Ok (Ctx st c0 c1 buf).

(** [(n >> ((3-(i & 3)) * 8)) & 255] for the bytes of a word. *)
Definition word_bytes (n : Z) : bytes :=
  (fun i => Z.land (Z.shiftr n ((3 - Z.land i 3) * 8)) 255) <$> [0; 1; 2; 3].

(** [while ((context->count[0] & 504) != 448)]: at most 64 bytes are added. *)
Fixpoint pad_zeros (fuel : nat) (context : SHA1_CTX) : res SHA1_CTX :=
  if negb (Z.land (count0 context) 504 =? 448) then
    match fuel with
    | O => OutOfBounds
    | S fuel => context ← SHA1Update context [0] 1; pad_zeros fuel context
    end
  else Ok context.

Definition SHA1Final (context : SHA1_CTX) : res bytes :=
  let finalcount := word_bytes (count1 context) ++ word_bytes (count0 context) in
  context ← SHA1Update context [128] 1;
  context ← pad_zeros 64 context;
  context ← SHA1Update context finalcount 8;
  let s := state context in
  Ok (word_bytes (v_a s) ++ word_bytes (v_b s) ++ word_bytes (v_c s) ++ word_bytes (v_d s) ++ word_bytes (v_e s)).

(** ** The UUID of a file system *)

(** [strlen] is cut to the [u_int] of the argument. *)
Definition sha1_hash (junk namespace name : bytes) : res bytes :=
  ctx ← SHA1Update (SHA1Init junk) namespace (u32 (zlen namespace));
  ctx ← SHA1Update ctx name (u32 (zlen name));
  SHA1Final ctx.

(** [ntohl], [ntohs] on the machine: the value of big endian bytes. *)
Definition be_decode (b : bytes) : Z := foldl (fun x c => x * 256 + c) 0 b.

Definition generate_sha1_uuid (junk namespace name : bytes) : res bytes :=
  sha1 ← sha1_hash junk namespace name;
  time_low ← mem_read sha1 0 4;
  time_mid ← mem_read sha1 4 2;
  time_hi ← mem_read sha1 6 2;
  clk_seq_hi ← mem_read sha1 8 1;
  rest ← mem_read sha1 9 7;
  let version := Z.lor (Z.land (be_decode time_hi) 0x0FFF) (Z.shiftl 5 12) in
  let res := Z.lor (Z.land (be_decode clk_seq_hi) (255 - Z.shiftl 1 6)) (Z.shiftl 1 7) in
  Ok (le_encode 4 (be_decode time_low) ++ le_encode 2 (be_decode time_mid) ++ le_encode 2 version ++ [res] ++ rest).

(** * SHA-1 as FIPS 180-4 defines it *)

Definition ROTL (n x : Z) : Z := Z.lor (u32 (Z.shiftl x n)) (Z.shiftr x (32 - n)).
Definition Ch (x y z : Z) : Z := Z.lxor (Z.land x y) (Z.land (Z.lnot x) z).
Definition Parity (x y z : Z) : Z := Z.lxor (Z.lxor x y) z.
Definition Maj (x y z : Z) : Z := Z.lxor (Z.lxor (Z.land x y) (Z.land x z)) (Z.land y z).

Definition f_t (t : nat) : Z -> Z -> Z -> Z :=
  if (t <? 20)%nat then Ch else if (t <? 40)%nat then Parity else if (t <? 60)%nat then Maj else Parity.
Definition K_t (t : nat) : Z :=
  if (t <? 20)%nat then 0x5a827999 else if (t <? 40)%nat then 0x6ed9eba1 else if (t <? 60)%nat then 0x8f1bbcdc else 0xca62c1d6.

(** The big endian words of a block, and the message schedule. *)
Definition M_t (m : bytes) (t : nat) : Z := be_decode (take 4 (drop (4 * t) m)).
Definition W_next (m : bytes) (W : list Z) (t : nat) : Z :=
  if (t <? 16)%nat then M_t m t
  else ROTL 1 (Z.lxor (Z.lxor (Z.lxor (W !!! (t - 3)%nat) (W !!! (t - 8)%nat)) (W !!! (t - 14)%nat)) (W !!! (t - 16)%nat)).
Definition schedule (m : bytes) : list Z := foldl (fun W t => W ++ [W_next m W t]) [] (seq 0 80).

Definition fips_round (W : list Z) (s : vars) (t : nat) : vars :=
  let '(Vars a b c d e) := s in
  Vars (u32 (ROTL 5 a + f_t t b c d + e + K_t t + W !!! t)) a (ROTL 30 b) c d.

(** The hash value behind a block. *)
Definition compress (s : vars) (m : bytes) : vars :=
  let s' := foldl (fips_round (schedule m)) s (seq 0 80) in
  Vars (v_a s +u32 v_a s') (v_b s +u32 v_b s') (v_c s +u32 v_c s') (v_d s +u32 v_d s') (v_e s +u32 v_e s').

Fixpoint hash_blocks (n : nat) (s : vars) (m : bytes) : vars :=
  match n with O => s | S n => hash_blocks n (compress s (ztake 64 m)) (zdrop 64 m) end.

Definition be_encode (n : nat) (x : Z) : bytes := rev (le_encode n x).

(** A one, zeros up to 8 bytes before the end of a block, the length in bits. *)
Definition padded (m : bytes) : bytes :=
  m ++ [128] ++ replicate (Z.to_nat ((55 - zlen m) mod 64)) 0 ++ be_encode 8 (8 * zlen m).

Definition H_0 : vars := Vars 0x67452301 0xefcdab89 0x98badcfe 0x10325476 0xc3d2e1f0.

Definition SHA1 (m : bytes) : bytes :=
  let h := hash_blocks (Z.to_nat (zlen (padded m) / 64)) H_0 (padded m) in
  be_encode 4 (v_a h) ++ be_encode 4 (v_b h) ++ be_encode 4 (v_c h) ++ be_encode 4 (v_d h) ++ be_encode 4 (v_e h).

Example SHA1_abc :
  SHA1 (str "abc") =
    be_encode 4 0xA9993E36 ++ be_encode 4 0x4706816A ++ be_encode 4 0xBA3E2571 ++ be_encode 4 0x7850C26C ++ be_encode 4 0x9CD0D89D.
Proof. vm_compute. reflexivity. Qed.

Example code_abc :
  (ctx ← SHA1Update (SHA1Init (replicate 64 7)) (str "abc") 3; SHA1Final ctx) = Ok (SHA1 (str "abc")).
Proof. vm_compute. reflexivity. Qed.

(** * A block *)

Lemma mix_Ch w x y : mix R0 w x y = Ch w x y.
Proof.
  unfold Ch. cbn [mix]. apply Z.bits_inj'. intros n Hn. rewrite !Z.lxor_spec, !Z.land_spec, Z.lxor_spec, Z.lnot_spec by done.
  by destruct (Z.testbit w n), (Z.testbit x n), (Z.testbit y n).
Qed.

Lemma mix_Maj w x y : mix R3 w x y = Maj w x y.
Proof.
  unfold Maj. cbn [mix]. apply Z.bits_inj'. intros n Hn. rewrite !Z.lxor_spec, Z.lor_spec, !Z.land_spec, Z.lor_spec.
  by destruct (Z.testbit w n), (Z.testbit x n), (Z.testbit y n).
Qed.

Lemma u8_testbit_high a n : is_u8 a -> 8 <= n -> Z.testbit a n = false.
Proof.
  intros Ha Hn. destruct (decide (a = 0)) as [->|]; [apply Z.bits_0|]. unfold is_u8 in Ha.
  apply Z.bits_above_log2; [lia|]. enough (Z.log2 a < 8) by lia. apply Z.log2_lt_pow2; lia.
Qed.

Lemma lor_shift_add a b k : 0 <= a < 2 ^ k -> 0 <= k -> a + b * 2 ^ k = Z.lor a (Z.shiftl b k).
Proof.
  intros Ha Hk. rewrite Z.shiftl_mul_pow2 by done. rewrite Z.add_nocarry_lxor, Z.lxor_lor; [done| |].
  all: apply Z.bits_inj'; intros n Hn; rewrite Z.land_spec, Z.bits_0; apply andb_false_iff;
    (destruct (decide (n < k)); [right; apply Z.mul_pow2_bits_low; lia|left]);
    (destruct (decide (a = 0)) as [->|]; [apply Z.bits_0|apply Z.bits_above_log2; [lia|]]; enough (Z.log2 a < k) by lia; apply Z.log2_lt_pow2; lia).
Qed.

(** A word of four bytes, as bits. *)
Lemma word_bits a b c d n :
  is_u8 a -> is_u8 b -> is_u8 c -> is_u8 d -> 0 <= n ->
  Z.testbit (a + 256 * (b + 256 * (c + 256 * d))) n =
    Z.testbit a n || Z.testbit b (n - 8) || Z.testbit c (n - 16) || Z.testbit d (n - 24).
Proof.
  intros Ha Hb Hc Hd Hn. unfold is_u8 in *.
  replace (a + 256 * (b + 256 * (c + 256 * d))) with (((a + b * 2 ^ 8) + c * 2 ^ 16) + d * 2 ^ 24) by lia.
  rewrite !lor_shift_add by lia. rewrite !Z.lor_spec, !Z.shiftl_spec by done. done.
Qed.

Lemma rol_bits x k n : 0 < k < 32 -> 0 <= n < 32 -> is_u32 x ->
  Z.testbit (rol x k) n = Z.testbit x (if n <? k then n - k + 32 else n - k).
Proof.
  intros Hk Hn Hx. unfold rol, u32. rewrite Z.lor_spec, Z.mod_pow2_bits_low, Z.shiftl_spec, Z.shiftr_spec by lia.
  destruct (Z.ltb_spec n k).
  - rewrite (Z.testbit_neg_r x (n - k)) by lia. cbn. f_equal. lia.
  - replace (Z.testbit x (n + (32 - k))) with false; [by rewrite orb_false_r|]. symmetry.
    destruct (decide (x = 0)) as [->|]; [apply Z.bits_0|]. unfold is_u32 in Hx. apply Z.bits_above_log2; [lia|].
    enough (Z.log2 x < 32) by lia. apply Z.log2_lt_pow2; lia.
Qed.

Lemma small_nat_cases (P : Z -> Prop) k n :
  (forall i, (i < k)%nat -> P (Z.of_nat i)) -> 0 <= n < Z.of_nat k -> P n.
Proof. intros H Hn. rewrite <- (Z2Nat.id n) by lia. apply H. lia. Qed.

(** One bit of [blk0_swap]. *)
Ltac swap_bit :=
  repeat match goal with
  | |- context [Z.testbit ?x ?k] =>
      first [is_var x; lazymatch k with context [Z.of_nat] => idtac end; let v := eval vm_compute in k in change k with v
            |lazymatch x with Z.pos _ => idtac end; let v := eval vm_compute in (Z.testbit x k) in change (Z.testbit x k) with v]
  end;
  repeat match goal with
  | |- context [Z.testbit ?x (Z.neg ?p)] => rewrite (Z.testbit_neg_r x (Z.neg p)) by done
  | H : is_u8 ?x |- context [Z.testbit ?x ?k] => rewrite (u8_testbit_high x k H) by lia
  end;
  rewrite ?andb_true_r, ?andb_false_r, ?orb_false_r, ?orb_false_l; reflexivity.

(** [blk0] turns the bytes of a word round. *)
Lemma blk0_swap a b c d :
  is_u8 a -> is_u8 b -> is_u8 c -> is_u8 d ->
  Z.lor (Z.land (rol (le_decode [a; b; c; d]) 24) 0xFF00FF00) (Z.land (rol (le_decode [a; b; c; d]) 8) 0x00FF00FF) =
    be_decode [a; b; c; d].
Proof.
  intros Ha Hb Hc Hd. assert (le_decode [a; b; c; d] = a + 256 * (b + 256 * (c + 256 * d))) as -> by (cbn; lia).
  assert (be_decode [a; b; c; d] = d + 256 * (c + 256 * (b + 256 * a))) as -> by (unfold be_decode; cbn; lia).
  assert (is_u32 (a + 256 * (b + 256 * (c + 256 * d)))) as Hu by (unfold is_u8, is_u32 in *; lia).
  apply Z.bits_inj'. intros n Hn. rewrite (word_bits d c b a) by done. rewrite Z.lor_spec, !Z.land_spec.
  destruct (decide (n < 32)) as [H32|H32].
  - rewrite !rol_bits by (done || lia). rewrite !word_bits by (done || destruct (_ <? _) eqn:E; rewrite ?Z.ltb_lt, ?Z.ltb_ge in E; lia).
    revert n Hn H32. intros n Hn H32. pattern n. apply (small_nat_cases _ 32); [|lia]. clear n Hn H32. intros i Hi.
    do 32 (destruct i as [|i]; [swap_bit|]).
    lia.
  - assert (forall x, 0 <= x < 2 ^ 32 -> Z.testbit x n = false) as Hhigh.
    { intros x Hx. destruct (decide (x = 0)) as [->|]; [apply Z.bits_0|]. apply Z.bits_above_log2; [lia|].
      enough (Z.log2 x < 32) by lia. apply Z.log2_lt_pow2; lia. }
    rewrite (Hhigh 0xFF00FF00), (Hhigh 0x00FF00FF), !andb_false_r by lia.
    rewrite !u8_testbit_high by (done || lia). done.
Qed.

(** The written out operations follow a pattern: the variables move on by one
    each time. *)
Definition roles : Type := var * var * var * var * var.
Definition turn (r : roles) : roles := let '(v, w, x, y, z) := r in (z, v, w, x, y).
Definition macro_at (t : nat) : macro :=
  if (t <? 16)%nat then R0 else if (t <? 20)%nat then R1 else if (t <? 40)%nat then R2 else if (t <? 60)%nat then R3 else R4.
Definition call_at (t : nat) (r : roles) : round := let '(v, w, x, y, z) := r in Round (macro_at t) v w x y z (Z.of_nat t).
Fixpoint calls (n t : nat) (r : roles) : list round :=
  match n with O => [] | S n => call_at t r :: calls n (S t) (turn r) end.

Lemma rounds_calls : rounds = calls 80 0 (va, vb, vc, vd, ve).
Proof. reflexivity. Qed.

#[export] Instance var_eq_dec : EqDecision var.
Proof. solve_decision. Defined.

Lemma get_set x y n s : get x (set y n s) = if decide (x = y) then n else get x s.
Proof. by destruct x, y, s. Qed.

Definition view (r : roles) (s : vars) : vars :=
  let '(v, w, x, y, z) := r in Vars (get v s) (get w s) (get x s) (get y s) (get z s).
Definition distinct (r : roles) : Prop := let '(v, w, x, y, z) := r in base.NoDup [v; w; x; y; z].

Lemma distinct_turn r : distinct r -> distinct (turn r).
Proof.
  destruct r as [[[[v w] x] y] z]. cbn [distinct turn]. intros H. eapply NoDup_Permutation_proper; [|exact H].
  change ([z] ++ [v; w; x; y] ≡ₚ [v; w; x; y] ++ [z]). apply Permutation_app_comm.
Qed.

Lemma macro_spec t w x y : mix (macro_at t) w x y = f_t t w x y /\ constant (macro_at t) = K_t t.
Proof.
  unfold macro_at, f_t, K_t.
  destruct (Nat.ltb_spec t 16), (Nat.ltb_spec t 20), (Nat.ltb_spec t 40), (Nat.ltb_spec t 60); try lia; split; try done;
    try (change (mix R1) with (mix R0)); by (apply mix_Ch || apply mix_Maj).
Qed.

(** One operation is a round, on the variables in their roles. *)
Lemma exec_round (W : list Z) t r s l l' :
  distinct r -> expand (macro_at t) (Z.of_nat t) l = (W !!! t, l') ->
  exec (s, l) (call_at t r) = ((exec (s, l) (call_at t r)).1, l') /\
  view (turn r) (exec (s, l) (call_at t r)).1 = fips_round W (view r s) t.
Proof.
  destruct r as [[[[v w] x] y] z]. intros Hd HW. cbn [call_at exec]. rewrite HW. split; [done|]. cbn [fst turn view fips_round].
  destruct (macro_spec t (get w s) (get x s) (get y s)) as [-> ->].
  cbn in Hd. rewrite !NoDup_cons, !not_elem_of_cons in Hd. destruct Hd as ((Hvw & Hvx & Hvy & Hvz & _) & (Hwx & Hwy & Hwz & _) & (Hxy & Hxz & _) & (Hyz & _) & _).
  rewrite !get_set. repeat ((rewrite decide_True by done) || (rewrite decide_False by congruence)).
  f_equal. change (ROTL 5 (get v s)) with (rol (get v s) 5). f_equal. lia.
Qed.

(** ** The schedule *)

Definition W_list (m : bytes) (n : nat) : list Z := foldl (fun W t => W ++ [W_next m W t]) [] (seq 0 n).

Lemma W_list_S m n : W_list m (S n) = W_list m n ++ [W_next m (W_list m n) n].
Proof. unfold W_list. by rewrite seq_S, foldl_app. Qed.

Lemma length_W_list m n : length (W_list m n) = n.
Proof. induction n as [|n IH]; [done|]. rewrite W_list_S, length_app, IH. cbn. lia. Qed.

Lemma W_list_lookup m n k t : (t < n)%nat -> (n <= k)%nat -> W_list m k !!! t = W_list m n !!! t.
Proof.
  intros Ht. induction 1 as [|k Hk IH]; [done|]. rewrite W_list_S, lookup_total_app_l by (rewrite length_W_list; lia). done.
Qed.

Lemma schedule_list m : schedule m = W_list m 80.
Proof. unfold schedule, W_list. reflexivity. Qed.

Lemma schedule_W m t : (t < 80)%nat -> schedule m !!! t = W_next m (schedule m) t.
Proof.
  intros Ht. rewrite schedule_list.
  rewrite (W_list_lookup m (S t)) by lia. rewrite W_list_S, list_lookup_total_middle by (by rewrite length_W_list).
  unfold W_next. destruct (Nat.ltb_spec t 16); [done|].
  by rewrite !(W_list_lookup m t 80) by lia.
Qed.

Lemma schedule_rol m t : (16 <= t < 80)%nat ->
  schedule m !!! t = rol (Z.lxor (Z.lxor (Z.lxor (schedule m !!! (t - 3)%nat) (schedule m !!! (t - 8)%nat)) (schedule m !!! (t - 14)%nat)) (schedule m !!! (t - 16)%nat)) 1.
Proof.
  intros Ht. transitivity (W_next m (schedule m) t); [apply schedule_W; lia|]. generalize (schedule m). intros W.
  unfold W_next. destruct (Nat.ltb_spec t 16); [lia|]. reflexivity.
Qed.
#[local] Opaque schedule.

Lemma lookup_words_le n m t : (t < n)%nat -> words_le n m !! t = Some (le_decode (take 4 (drop (4 * t) m))).
Proof.
  revert m t. induction n as [|n IH]; intros m t Ht; [lia|]. destruct t as [|t]; [done|]. cbn [words_le lookup list_lookup].
  fold (words_le n (zdrop 4 m) !! t). rewrite IH by lia. unfold zdrop. rewrite drop_drop. do 4 f_equal. lia.
Qed.

Lemma length_words_le n m : length (words_le n m) = n.
Proof. revert m. induction n as [|n IH]; intros m; cbn; [done|by rewrite IH]. Qed.

(** What the 16 words hold before operation [t]: the last words of the schedule,
    and words of the block that are not used yet. *)
Definition window (m : bytes) (t : nat) (l : list Z) : Prop :=
  length l = 16%nat /\
  (forall s, (s < t <= s + 16)%nat -> l !! (s `mod` 16)%nat = Some (schedule m !!! s)) /\
  (forall s, (t <= s < 16)%nat -> l !! s = Some (le_decode (take 4 (drop (4 * s) m)))).

Lemma window_start m : window m 0 (words_le 16 m).
Proof. split; [apply length_words_le|]. split; [lia|]. intros s Hs. apply lookup_words_le. lia. Qed.

Lemma window_word m t l s : window m t l -> (s < t <= s + 16)%nat -> word l (Z.of_nat (s `mod` 16)) = schedule m !!! s.
Proof. intros (_ & H & _) Hs. unfold word. by rewrite Nat2Z.id, H. Qed.

Lemma land_15 (t k : nat) : Z.land (Z.of_nat t + Z.of_nat k) 15 = Z.of_nat ((t + k) `mod` 16).
Proof. change 15 with (Z.ones 4). rewrite Z.land_ones by done. rewrite Nat2Z.inj_mod, Nat2Z.inj_add. done. Qed.

Lemma window_insert m t l l' :
  window m t l -> l' = <[(t `mod` 16)%nat := schedule m !!! t]> l -> window m (S t) l'.
Proof.
  intros (Hl & H1 & H2) ->. pose proof (Nat.mod_upper_bound t 16). split; [by rewrite length_insert|]. split; intros s Hs.
  - destruct (decide (s = t)) as [->|].
    + apply list_lookup_insert_eq. lia.
    + rewrite list_lookup_insert_ne; [apply H1; lia|]. intros E.
      assert (exists k, t = (s + k)%nat /\ (0 < k < 16)%nat) as (k & -> & Hk) by (exists (t - s)%nat; lia).
      pose proof (Nat.div_mod_eq s 16). pose proof (Nat.div_mod_eq (s + k) 16). lia.
  - rewrite list_lookup_insert_ne; [apply H2; lia|]. rewrite Nat.mod_small by lia. lia.
Qed.

Lemma expand_window m t l :
  length m = 64%nat -> bytes_ok m -> window m t l -> (t < 80)%nat ->
  exists l', expand (macro_at t) (Z.of_nat t) l = (schedule m !!! t, l') /\ window m (S t) l'.
Proof.
  intros Hm Hb Hw Ht. destruct (Nat.ltb_spec t 16) as [H|H].
  - assert (macro_at t = R0) as -> by (unfold macro_at; destruct (Nat.ltb_spec t 16); [done|lia]). cbn [expand].
    assert (word l (Z.of_nat t) = le_decode (take 4 (drop (4 * t) m))) as E.
    { unfold word. rewrite Nat2Z.id. destruct Hw as (_ & _ & H2). by rewrite H2 by lia. }
    assert (length (take 4 (drop (4 * t) m)) = 4%nat) as H4 by (rewrite length_take, length_drop; lia).
    assert (schedule m !!! t = M_t m t) as HS.
    { rewrite schedule_W by done. unfold W_next. destruct (Nat.ltb_spec t 16); [done|lia]. }
    assert (bytes_ok (take 4 (drop (4 * t) m))) as Hb4 by (by apply Forall_take, Forall_drop).
    unfold blk0. rewrite E, HS. unfold M_t in *. destruct (take 4 (drop (4 * t) m)) as [|a [|b [|c [|d [|? ?]]]]] eqn:Et; try done.
    unfold bytes_ok in Hb4. rewrite !list.Forall_cons in Hb4. destruct Hb4 as (Ha & Hb' & Hc & Hd & _).
    rewrite blk0_swap by done. eexists. split; [reflexivity|]. apply (window_insert m t l); [done|].
    rewrite HS, Nat.mod_small, Nat2Z.id by lia. done.
  - assert (expand (macro_at t) = blk) as ->.
    { unfold macro_at. destruct (Nat.ltb_spec t 16); [lia|]. by destruct (t <? 20)%nat, (t <? 40)%nat, (t <? 60)%nat. }
    assert (forall k, (0 < k <= 16)%nat -> word l (Z.land (Z.of_nat t + Z.of_nat (16 - k)) 15) = schedule m !!! (t - k)%nat) as Hk.
    { intros k Hk. rewrite land_15. rewrite <- (window_word m t l) by (done || lia). do 2 f_equal.
      replace (t + (16 - k))%nat with ((t - k) + 1 * 16)%nat by lia. by rewrite Nat.Div0.mod_add. }
    unfold blk. pose proof (Hk 3%nat ltac:(lia)) as K3. pose proof (Hk 8%nat ltac:(lia)) as K8. pose proof (Hk 14%nat ltac:(lia)) as K14.
    pose proof (land_15 t 0) as L0. rewrite Nat.add_0_r in L0. change (Z.of_nat 0) with 0 in L0. rewrite Z.add_0_r in L0.
    pose proof (Hk 16%nat ltac:(lia)) as K16. change (Z.of_nat (16 - 16)) with 0 in K16. rewrite Z.add_0_r in K16.
    change (Z.of_nat (16 - 3)) with 13 in K3. change (Z.of_nat (16 - 8)) with 8 in K8. change (Z.of_nat (16 - 14)) with 2 in K14.
    rewrite K3, K8, K14, K16, L0, Nat2Z.id.
    rewrite <- schedule_rol by lia. eexists. split; [reflexivity|]. by apply (window_insert m t l).
Qed.

Fixpoint turns (n : nat) (r : roles) : roles := match n with O => r | S n => turns n (turn r) end.

Lemma exec_calls m n : forall t r s l,
  length m = 64%nat -> bytes_ok m -> distinct r -> window m t l -> (t + n = 80)%nat ->
  view (turns n r) (foldl exec (s, l) (calls n t r)).1 = foldl (fips_round (schedule m)) (view r s) (seq t n).
Proof.
  induction n as [|n IH]; intros t r s l Hm Hb Hd Hw Ht; [done|]. cbn [turns calls seq foldl].
  destruct (expand_window m t l) as (l' & He & Hw'); [done|done|done|lia|].
  destruct (exec_round (schedule m) t r s l l' Hd He) as [-> <-]. apply IH; [done|done|by apply distinct_turn|done|lia].
Qed.

(** The transformation is the compression of the standard. *)
Lemma SHA1Transform_compress s m : length m = 64%nat -> bytes_ok m -> SHA1Transform s m = compress s m.
Proof.
  intros Hm Hb. unfold SHA1Transform, compress. rewrite rounds_calls.
  pose proof (exec_calls m 80 0 (va, vb, vc, vd, ve) s (words_le 16 m) Hm Hb) as H.
  destruct (foldl exec (s, words_le 16 m) (calls 80 0 (va, vb, vc, vd, ve))) as [s' l']. cbn [fst] in H.
  change (turns 80 (va, vb, vc, vd, ve)) with (va, vb, vc, vd, ve) in H.
  assert (forall s, view (va, vb, vc, vd, ve) s = s) as Hv by (by intros []). rewrite !Hv in H.
  rewrite H; [done| |apply window_start|lia].
  cbn [distinct]. rewrite !NoDup_cons, !not_elem_of_cons. repeat split; (done || apply not_elem_of_nil || apply NoDup_nil_2).
Qed.

(** * A message in pieces *)

Lemma hash_blocks_app n k : forall s m, hash_blocks (n + k) s m = hash_blocks k (hash_blocks n s m) (zdrop (64 * Z.of_nat n) m).
Proof.
  induction n as [|n IH]; intros s m; cbn [hash_blocks Nat.add]; [by rewrite Z.mul_0_r, zdrop_0|].
  rewrite IH, zdrop_zdrop by lia. do 2 f_equal. lia.
Qed.

Lemma hash_blocks_prefix n : forall s m d, 64 * Z.of_nat n <= zlen m -> hash_blocks n s (m ++ d) = hash_blocks n s m.
Proof.
  induction n as [|n IH]; intros s m d Hn; cbn [hash_blocks]; [done|].
  assert (ztake 64 (m ++ d) = ztake 64 m) as -> by (unfold ztake; apply take_app_le; unfold zlen in Hn; lia).
  assert (zdrop 64 (m ++ d) = zdrop 64 m ++ d) as -> by (unfold zdrop; apply drop_app_le; unfold zlen in Hn; lia).
  apply IH. rewrite zlen_zdrop by lia. lia.
Qed.

Lemma mem_read_zdrop m p n : 0 <= p -> 0 <= n -> p + n <= zlen m -> mem_read m p n = Ok (ztake n (zdrop p m)).
Proof. intros. unfold mem_read. by rewrite (proj2 (Z.leb_le 0 p)), (proj2 (Z.leb_le 0 n)), (proj2 (Z.leb_le (p + n) (zlen m))) by lia. Qed.

Lemma transform_blocks_spec fuel : forall st data len i,
  zlen data = len -> bytes_ok data -> len < 2 ^ 31 -> 0 <= i <= len -> (Z.to_nat ((len - i) / 64) <= fuel)%nat ->
  transform_blocks fuel st data len i = Ok (hash_blocks (Z.to_nat ((len - i) / 64)) st (zdrop i data), i + 64 * ((len - i) / 64)).
Proof.
  induction fuel as [|fuel IH]; intros st data len i Hlen Hb Hl Hi Hf; cbn [transform_blocks]; rewrite u32_small by (unfold is_u32; lia).
  - destruct (Z.ltb_spec (i + 63) len).
    + pose proof (Z.div_le_lower_bound (len - i) 64 1). lia.
    + rewrite Z.div_small by lia. cbn. by rewrite Z.add_0_r.
  - destruct (Z.ltb_spec (i + 63) len).
    + rewrite mem_read_zdrop by lia. cbn [mbind res_bind].
      assert (zlen (ztake 64 (zdrop i data)) = 64) as H64 by (rewrite zlen_ztake; rewrite ?zlen_zdrop; lia).
      rewrite SHA1Transform_compress by (unfold zlen in H64; (lia || by apply Forall_take, Forall_drop)).
      rewrite u32_small by (unfold is_u32; lia).
      assert ((len - i) / 64 = (len - (i + 64)) / 64 + 1) as E.
      { replace (len - i) with ((len - (i + 64)) + 1 * 64) by lia. by rewrite Z.div_add. }
      pose proof (Z.div_pos (len - (i + 64)) 64). rewrite IH by (done || lia). rewrite E.
      replace (Z.to_nat ((len - (i + 64)) / 64 + 1)) with (S (Z.to_nat ((len - (i + 64)) / 64))) by lia. cbn [hash_blocks].
      rewrite zdrop_zdrop by lia. f_equal. f_equal. lia.
    + rewrite Z.div_small by lia. cbn. by rewrite Z.add_0_r.
Qed.

(** The context after a message. *)
Record absorbed (ctx : SHA1_CTX) (m : bytes) : Prop := {
  ab_state : state ctx = hash_blocks (Z.to_nat (zlen m / 64)) H_0 m;
  ab_count : count1 ctx * 2 ^ 32 + count0 ctx = (8 * zlen m) mod 2 ^ 64;
  ab_u32 : is_u32 (count0 ctx) /\ is_u32 (count1 ctx);
  ab_len : zlen (buffer ctx) = 64;
  ab_buffer : ztake (zlen m mod 64) (buffer ctx) = zdrop (64 * (zlen m / 64)) m;
}.

Lemma SHA1Init_absorbed junk : zlen junk = 64 -> absorbed (SHA1Init junk) [].
Proof. intros H. by split. Qed.

(** The count of bits. *)
Lemma count_add c0 c1 n len :
  is_u32 c0 -> is_u32 c1 -> c1 * 2 ^ 32 + c0 = (8 * n) mod 2 ^ 64 -> 0 <= n -> 0 <= len < 2 ^ 29 ->
  let c0' := c0 +u32 u32 (Z.shiftl len 3) in
  let c1' := if c0' <? c0 then c1 +u32 (Z.shiftr len 29 + 1) else c1 in
  is_u32 c0' /\ is_u32 c1' /\ c1' * 2 ^ 32 + c0' = (8 * (n + len)) mod 2 ^ 64.
Proof.
  intros H0 H1 E Hn Hl c0' c1'.
  assert (Z.shiftl len 3 = 8 * len) as Es by (rewrite Z.shiftl_mul_pow2 by done; lia).
  assert (Z.shiftr len 29 = 0) as Er by (rewrite Z.shiftr_div_pow2 by done; apply Z.div_small; lia).
  assert (c0' = u32 (c0 + 8 * len)) as Ec by (unfold c0'; rewrite Es, (u32_small (8 * len)) by (unfold is_u32; lia); done).
  assert (is_u32 c0') by (rewrite Ec; apply is_u32_u32).
  assert (is_u32 c1') by (unfold c1'; destruct (_ <? _); [apply is_u32_u32|done]).
  split; [done|]. split; [done|]. unfold is_u32 in *.
  replace (8 * (n + len)) with (8 * n + 8 * len) by lia. rewrite Z.add_mod, <- E, Z.add_mod_idemp_r by done.
  assert (c0' = c0 + 8 * len /\ c1' = c1 \/ c0' = c0 + 8 * len - 2 ^ 32 /\ c1' = u32 (c1 + 1)) as [[Ha Hb]|[Ha Hb]].
  { unfold c1'. rewrite Er, Z.add_0_l. destruct (Z.lt_ge_cases (c0 + 8 * len) (2 ^ 32)).
    - left. rewrite Ec, u32_small by (unfold is_u32; lia). split; [done|]. destruct (Z.ltb_spec (c0 + 8 * len) c0); [lia|done].
    - right. assert (c0' = c0 + 8 * len - 2 ^ 32) as E'.
      { rewrite Ec. unfold u32. symmetry. apply (Z.mod_unique_pos _ _ 1); lia. }
      rewrite E'. split; [done|]. destruct (Z.ltb_spec (c0 + 8 * len - 2 ^ 32) c0); [done|lia]. }
  - rewrite Ha, Hb in *. symmetry. rewrite Z.mod_small; lia.
  - rewrite Ha, Hb in *. unfold u32 in *. destruct (decide (c1 + 1 = 2 ^ 32)) as [E1|E1].
    + rewrite E1 in *. rewrite Z.mod_same in * by done. apply (Z.mod_unique_pos _ _ 1); lia.
    + rewrite (Z.mod_small (c1 + 1)) in * by lia. symmetry. rewrite Z.mod_small; lia.
Qed.

Lemma count_index c0 c1 n : is_u32 c0 -> c1 * 2 ^ 32 + c0 = (8 * n) mod 2 ^ 64 -> Z.land (Z.shiftr c0 3) 63 = n mod 64.
Proof.
  intros H0 E. change 63 with (Z.ones 6). rewrite Z.land_ones, Z.shiftr_div_pow2 by done. unfold is_u32 in H0.
  pose proof (Z.div_mod (8 * n) (2 ^ 64) ltac:(done)) as D. rewrite <- E in D.
  set (q := 8 * n / 2 ^ 64) in *. assert (c0 = 8 * (n - 2 ^ 61 * q - 2 ^ 29 * c1)) as -> by lia.
  change (2 ^ 3) with 8. rewrite Z.mul_comm, Z.div_mul by done. change (2 ^ 6) with 64.
  replace (n - 2 ^ 61 * q - 2 ^ 29 * c1) with (n + (- 2 ^ 55 * q - 2 ^ 23 * c1) * 64) by lia. by rewrite Z.mod_add.
Qed.

Lemma mem_write_parts m p b : 0 <= p -> p + zlen b <= zlen m -> mem_write m p b = Ok (ztake p m ++ b ++ zdrop (p + zlen b) m).
Proof.
  intros Hp Hb. pose proof (zlen_nonneg b). rewrite <- (ztake_zdrop p m) at 1. rewrite mem_write_app.
  - by rewrite zdrop_zdrop by lia.
  - rewrite zlen_ztake; lia.
  - rewrite zlen_zdrop; lia.
Qed.

(** The rest of the last block and the new data. *)
Lemma absorbed_more m d q :
  q = zlen m / 64 ->
  let T := zdrop (64 * q) m ++ d in
  forall r, 0 <= r -> zlen T / 64 = r ->
  zlen (m ++ d) / 64 = q + r /\ zlen (m ++ d) mod 64 = zlen T mod 64 /\
  hash_blocks (Z.to_nat (q + r)) H_0 (m ++ d) = hash_blocks (Z.to_nat r) (hash_blocks (Z.to_nat q) H_0 m) T /\
  zdrop (64 * (q + r)) (m ++ d) = zdrop (64 * r) T.
Proof.
  intros Hq T r Hr HT. pose proof (zlen_nonneg m). pose proof (zlen_nonneg d).
  pose proof (Z.div_mod (zlen m) 64 ltac:(done)). pose proof (Z.mod_pos_bound (zlen m) 64 ltac:(done)).
  assert (0 <= q) by (subst q; apply Z.div_pos; lia).
  assert (zlen T = zlen m + zlen d - 64 * q) as ET by (unfold T; rewrite zlen_app, zlen_zdrop; lia).
  assert (zdrop (64 * q) (m ++ d) = T) as ED by (unfold T, zdrop; apply drop_app_le; unfold zlen in *; lia).
  rewrite zlen_app. assert (zlen m + zlen d = zlen T + q * 64) as -> by lia. rewrite Z.div_add, Z.mod_add by done.
  split; [lia|]. split; [done|]. split.
  - rewrite Z2Nat.inj_add by lia. rewrite hash_blocks_app, hash_blocks_prefix by lia. rewrite Z2Nat.id by lia. by rewrite ED.
  - rewrite Z.mul_add_distr_l, <- ED, zdrop_zdrop by lia. done.
Qed.

(** The case in which a block is completed. *)
Lemma complete_block st buf T tail data j :
  zlen tail = j -> T = tail ++ data -> 0 <= j < 64 -> 64 <= j + zlen data -> zlen data < 2 ^ 29 -> bytes_ok T -> zlen buf = 64 -> ztake j buf = tail ->
  let k := (zlen data - (64 - j)) / 64 in
  exists buf',
    (d ← mem_read data 0 (64 - j);
     buf ← mem_write buf j d;
     '(st, i) ← transform_blocks (Z.to_nat (zlen data / 64)) (SHA1Transform st buf) data (zlen data) (64 - j);
     Ok (st, buf, i, 0)) = Ok (hash_blocks (Z.to_nat (1 + k)) st T, buf', 64 - j + 64 * k, 0) /\ zlen buf' = 64 /\ 0 <= k.
Proof.
  intros Hj ET Bj H63 Hl HT Hbl Hbuf k. assert (bytes_ok data) as Hd by (subst T; by apply Forall_app in HT as [_ ?]).
  assert (zlen T = j + zlen data) as EL by (subst T; rewrite zlen_app; lia).
  rewrite mem_read_zdrop, zdrop_0 by lia. cbn [mbind res_bind].
  assert (zlen (ztake (64 - j) data) = 64 - j) as Hz by (apply zlen_ztake; lia).
  rewrite mem_write_parts by lia. rewrite Hbuf, Hz, (zdrop_ge (j + (64 - j))), app_nil_r by lia. cbn [mbind res_bind].
  assert (tail ++ ztake (64 - j) data = ztake 64 T) as ->.
  { subst T. unfold ztake. rewrite take_app. rewrite (take_ge tail) by (unfold zlen in Hj; lia). f_equal. f_equal. unfold zlen in Hj. lia. }
  assert (zlen (ztake 64 T) = 64) as HT64 by (apply zlen_ztake; lia).
  rewrite SHA1Transform_compress by (unfold zlen in HT64; (lia || by apply Forall_take)). assert (0 <= k) as Hk by (apply Z.div_pos; lia).
  rewrite transform_blocks_spec; [|done|done|lia|lia|apply Z2Nat.inj_le; [lia|apply Z.div_pos; lia|apply Z.div_le_mono; lia]].
  fold k. cbn [mbind res_bind]. eexists. split; [|done]. do 4 f_equal.
  replace (Z.to_nat (1 + k)) with (S (Z.to_nat k)) by lia. cbn [hash_blocks]. f_equal. subst T. rewrite zdrop_app_ge by lia. by rewrite Hj.
Qed.

Lemma SHA1Update_absorbs ctx m data :
  absorbed ctx m -> bytes_ok m -> bytes_ok data -> zlen data < 2 ^ 29 ->
  exists ctx', SHA1Update ctx data (zlen data) = Ok ctx' /\ absorbed ctx' (m ++ data).
Proof.
  intros [Hst Hc [Hu0 Hu1] Hbl Hbuf] Hm Hd Hl. pose proof (zlen_nonneg m) as Hm0. pose proof (zlen_nonneg data) as Hd0.
  destruct (count_add _ _ (zlen m) (zlen data) Hu0 Hu1 Hc Hm0) as (Hc0 & Hc1 & Hcc); [lia|].
  unfold SHA1Update. rewrite (count_index _ _ _ Hu0 Hc).
  set (q := zlen m / 64) in *. set (j := zlen m mod 64) in *.
  pose proof (Z.div_mod (zlen m) 64 ltac:(done)) as Dm. pose proof (Z.mod_pos_bound (zlen m) 64 ltac:(done)) as Bj. fold q j in Dm, Bj.
  set (T := zdrop (64 * q) m ++ data).
  assert (zlen (zdrop (64 * q) m) = j) as Hj by (rewrite zlen_zdrop; unfold q in *; pose proof (Z.div_pos (zlen m) 64); lia).
  assert (zlen T = j + zlen data) as ET by (unfold T; rewrite zlen_app; lia).
  rewrite (u32_small (j + zlen data)) by (unfold is_u32; lia).
  assert (bytes_ok T) as HT by (apply Forall_app; split; [by apply Forall_drop|done]).
  destruct (Z.ltb_spec 63 (j + zlen data)) as [H63|H63].
  - set (k := (zlen data - (64 - j)) / 64).
    destruct (complete_block (state ctx) (buffer ctx) T (zdrop (64 * q) m) data j) as (buf & -> & Hb64 & Hk); try (done || lia). fold k in Hk |- *.
    pose proof (Z.div_mod (zlen data - (64 - j)) 64 ltac:(done)) as Dk. pose proof (Z.mod_pos_bound (zlen data - (64 - j)) 64 ltac:(done)) as Bk. fold k in Dk.
    cbn [mbind res_bind]. rewrite (u32_small (zlen data - _)) by (unfold is_u32; lia).
    rewrite mem_read_zdrop by lia. cbn [mbind res_bind]. rewrite (ztake_all _ (zdrop _ data)) by (rewrite zlen_zdrop; lia).
    assert (zlen (zdrop (64 - j + 64 * k) data) = zlen T - 64 * (1 + k)) as Hr by (rewrite zlen_zdrop; lia).
    rewrite mem_write_parts by lia. cbn [mbind res_bind]. eexists. split; [reflexivity|].
    destruct (absorbed_more m data q eq_refl (1 + k)) as (E1 & E2 & E3 & E4); [lia|fold T|fold T in E2, E3, E4].
    { rewrite ET. replace (j + zlen data) with ((zlen data - (64 - j)) + 1 * 64) by lia. rewrite Z.div_add by done. fold k. lia. }
    split; cbn [state count0 count1 buffer]; [by rewrite E1, E3, Hst|rewrite zlen_app; exact Hcc|done| |].
    + rewrite !zlen_app, Hr, zlen_zdrop by lia. change (zlen (ztake 0 buf)) with 0. lia.
    + rewrite E1, E2, E4. change (ztake 0 buf) with (@nil Z). rewrite app_nil_l. replace (64 * (1 + k)) with (64 * k + 64) by lia.
      unfold T at 2. rewrite zdrop_app_ge, Hj by lia. replace (64 * k + 64 - j) with (64 - j + 64 * k) by lia. apply ztake_app_exact.
      rewrite Hr, ET. replace (j + zlen data) with ((zlen data - (64 - j)) mod 64 + (1 + k) * 64) by lia. rewrite Z.mod_add, Z.mod_mod by done. lia.
  - cbn [mbind res_bind]. rewrite Z.sub_0_r, (u32_small (zlen data)) by (unfold is_u32; lia).
    rewrite mem_read_zdrop, zdrop_0 by lia. cbn [mbind res_bind]. rewrite ztake_all by done.
    rewrite mem_write_parts by lia. cbn [mbind res_bind]. eexists. split; [reflexivity|].
    destruct (absorbed_more m data q eq_refl 0) as (E1 & E2 & E3 & E4); [lia|fold T|fold T in E2, E3, E4]; [by rewrite ET, Z.div_small by lia|].
    split; cbn [state count0 count1 buffer]; [by rewrite E1, E3, Hst|rewrite zlen_app; exact Hcc|done| |].
    + rewrite !zlen_app, zlen_ztake, zlen_zdrop by lia. lia.
    + rewrite E1, E2, E4, Z.mul_0_r, zdrop_0, Hbuf, ET, Z.mod_small by lia. unfold T. rewrite app_assoc. apply ztake_app_exact.
      rewrite zlen_app. lia.
Qed.

(** * The padding and the digest *)

Lemma land_504 c : Z.land c 504 = 8 * Z.land (Z.shiftr c 3) 63.
Proof.
  rewrite Z.mul_comm. change 8 with (2 ^ 3). rewrite <- Z.shiftl_mul_pow2 by done. change 504 with (Z.shiftl 63 3).
  apply Z.bits_inj'. intros n Hn. rewrite Z.land_spec, !Z.shiftl_spec by done. destruct (decide (n < 3)).
  - rewrite !(Z.testbit_neg_r _ (n - 3)) by lia. apply andb_false_r.
  - rewrite Z.land_spec, Z.shiftr_spec by lia. do 2 f_equal. lia.
Qed.

Lemma pad_zeros_absorbs fuel : forall ctx m,
  absorbed ctx m -> bytes_ok m -> (Z.to_nat ((56 - zlen m) mod 64) <= fuel)%nat ->
  exists ctx', pad_zeros fuel ctx = Ok ctx' /\ absorbed ctx' (m ++ replicate (Z.to_nat ((56 - zlen m) mod 64)) 0).
Proof.
  induction fuel as [|fuel IH]; intros ctx m Ha Hm Hf; cbn [pad_zeros];
    rewrite land_504, (count_index _ _ _ (proj1 (ab_u32 _ _ Ha)) (ab_count _ _ Ha));
    pose proof (Z.mod_pos_bound (56 - zlen m) 64 ltac:(done)); pose proof (Z.mod_pos_bound (zlen m) 64 ltac:(done));
    pose proof (Z.div_mod (56 - zlen m) 64 ltac:(done)); pose proof (Z.div_mod (zlen m) 64 ltac:(done));
    (destruct (Z.eqb_spec (8 * (zlen m mod 64)) 448) as [E|E]; cbn [negb];
      [replace ((56 - zlen m) mod 64) with 0 by lia; cbn; rewrite app_nil_r; eauto|]).
  - lia.
  - destruct (SHA1Update_absorbs ctx m [0]) as (ctx1 & U1 & Ha1); [done|done|by repeat constructor|done|].
    change (zlen [0]) with 1 in U1. rewrite U1. cbn [mbind res_bind].
    assert ((56 - zlen (m ++ [0])) mod 64 = (56 - zlen m) mod 64 - 1) as Ez.
    { rewrite zlen_app. change (zlen [0]) with 1. symmetry. apply (Z.mod_unique_pos _ _ ((56 - zlen m) / 64)); lia. }
    destruct (IH ctx1 (m ++ [0])) as (ctx2 & U2 & Ha2); [done|apply Forall_app; split; [done|by repeat constructor]|lia|].
    rewrite U2. eexists. split; [done|]. rewrite Ez, <- app_assoc in Ha2.
    replace (Z.to_nat ((56 - zlen m) mod 64)) with (S (Z.to_nat ((56 - zlen m) mod 64 - 1))) by lia. exact Ha2.
Qed.

Lemma word_bytes_be n : word_bytes n = be_encode 4 n.
Proof.
  unfold word_bytes, be_encode. cbn [fmap list_fmap le_encode rev app].
  change 255 with (Z.ones 8). rewrite !Z.land_ones by done. rewrite !Z.shiftr_div_pow2 by done.
  repeat match goal with |- context [2 ^ ?k] => let v := eval vm_compute in (2 ^ k) in change (2 ^ k) with v end.
  rewrite Z.div_1_r, !Zdiv.Zdiv_Zdiv by done. done.
Qed.

Lemma le_encode_app n k x : le_encode (n + k) x = le_encode n x ++ le_encode k (x / 256 ^ Z.of_nat n).
Proof.
  revert x. induction n as [|n IH]; intros x; [by rewrite Z.div_1_r|].
  cbn [Nat.add le_encode app]. f_equal. rewrite IH. do 2 f_equal. rewrite Zdiv.Zdiv_Zdiv by lia. f_equal.
  rewrite Nat2Z.inj_succ, Z.pow_succ_r by lia. done.
Qed.

Lemma le_encode_mod n x : le_encode n (x mod 256 ^ Z.of_nat n) = le_encode n x.
Proof.
  revert x. induction n as [|n IH]; intros x; [done|]. cbn [le_encode]. rewrite Nat2Z.inj_succ, Z.pow_succ_r by lia.
  pose proof (Z.pow_pos_nonneg 256 (Z.of_nat n) ltac:(lia) ltac:(lia)).
  rewrite Z.rem_mul_r by lia. f_equal.
  - rewrite (Z.mul_comm 256), Z.mod_add, Z.mod_mod by done. done.
  - rewrite <- (IH (x / 256)). f_equal.
    rewrite (Z.mul_comm 256), Z.div_add by done. pose proof (Z.mod_pos_bound x 256 ltac:(done)). rewrite Z.div_small by lia. lia.
Qed.

Lemma finalcount_be c0 c1 n : is_u32 c0 -> is_u32 c1 -> c1 * 2 ^ 32 + c0 = n mod 2 ^ 64 -> word_bytes c1 ++ word_bytes c0 = be_encode 8 n.
Proof.
  intros H0 H1 E. rewrite !word_bytes_be. unfold be_encode. rewrite <- (le_encode_mod 8 n). change (256 ^ Z.of_nat 8) with (2 ^ 64).
  rewrite <- E. change 8%nat with (4 + 4)%nat. rewrite le_encode_app, rev_app_distr. change (256 ^ Z.of_nat 4) with (2 ^ 32).
  unfold is_u32 in *. rewrite (Z.add_comm _ c0), Z.div_add, Z.div_small by lia. f_equal.
  rewrite <- (le_encode_mod 4 (c0 + _)). change (256 ^ Z.of_nat 4) with (2 ^ 32). rewrite Z.mod_add, Z.mod_small by lia. done.
Qed.

Lemma SHA1Final_digest ctx m : absorbed ctx m -> bytes_ok m -> SHA1Final ctx = Ok (SHA1 m).
Proof.
  intros Ha Hm. unfold SHA1Final. destruct (ab_u32 _ _ Ha) as [Hu0 Hu1]. rewrite (finalcount_be _ _ _ Hu0 Hu1 (ab_count _ _ Ha)).
  destruct (SHA1Update_absorbs ctx m [128]) as (c1 & H1 & Ha1); [done|done|by repeat constructor|done|].
  change (zlen [128]) with 1 in H1. rewrite H1. cbn [mbind res_bind].
  assert (bytes_ok (m ++ [128])) as Hm1 by (apply Forall_app; split; [done|by repeat constructor]).
  assert ((56 - zlen (m ++ [128])) mod 64 = (55 - zlen m) mod 64) as E1 by (rewrite zlen_app; change (zlen [128]) with 1; f_equal; lia).
  pose proof (Z.mod_pos_bound (55 - zlen m) 64 ltac:(done)).
  destruct (pad_zeros_absorbs 64 c1 (m ++ [128])) as (c2 & H2 & Ha2); [done|done|lia|].
  rewrite H2. cbn [mbind res_bind]. rewrite E1 in Ha2.
  assert (zlen (be_encode 8 (8 * zlen m)) = 8) as H8 by done.
  destruct (SHA1Update_absorbs c2 _ (be_encode 8 (8 * zlen m)) Ha2) as (c3 & H3 & Ha3).
  { apply Forall_app. split; [done|]. by apply Forall_replicate. }
  { apply Forall_rev, le_encode_ok. }
  { by rewrite H8. }
  rewrite H8 in H3. rewrite H3. cbn [mbind res_bind]. rewrite !word_bytes_be. unfold SHA1.
  rewrite <- !app_assoc in Ha3. fold (padded m) in Ha3. by rewrite (ab_state _ _ Ha3).
Qed.

(** [SHA1Update] for each piece of a message. *)
Fixpoint updates (ctx : SHA1_CTX) (pieces : list bytes) : res SHA1_CTX :=
  match pieces with
  | [] => Ok ctx
  | d :: pieces => ctx ← SHA1Update ctx d (zlen d); updates ctx pieces
  end.

Lemma updates_absorb pieces : forall ctx m,
  absorbed ctx m -> bytes_ok m -> Forall (fun d => bytes_ok d /\ zlen d < 2 ^ 29) pieces ->
  exists ctx', updates ctx pieces = Ok ctx' /\ absorbed ctx' (m ++ mjoin pieces) /\ bytes_ok (m ++ mjoin pieces).
Proof.
  induction pieces as [|d pieces IH]; intros ctx m Ha Hm Hp; cbn [updates mjoin list_join].
  { exists ctx. by rewrite app_nil_r. }
  apply list.Forall_cons in Hp as [[Hd Hl] Hp]. destruct (SHA1Update_absorbs ctx m d Ha Hm Hd Hl) as (c1 & H1 & Ha1).
  rewrite H1. cbn [mbind res_bind]. rewrite app_assoc. apply IH; [done|by apply Forall_app|done].
Qed.

(** C34: [SHA1Init], any number of [SHA1Update] and [SHA1Final] compute the SHA-1
    digest of the concatenation of the pieces ([SHA1]: the padded message block by
    block, with the schedule of 80 words and the 80 rounds of FIPS 180), whatever
    the 64 bytes of the buffer held at first and however the message is cut into
    pieces, each of less than 2^29 bytes.  The code works on a window of 16 words
    and on five variables that change their roles from operation to operation. *)
Theorem SHA1_correct junk pieces :
  zlen junk = 64 -> Forall (fun d => bytes_ok d /\ zlen d < 2 ^ 29) pieces ->
  (ctx ← updates (SHA1Init junk) pieces; SHA1Final ctx) = Ok (SHA1 (mjoin pieces)).
Proof.
  intros Hj Hp. destruct (updates_absorb pieces (SHA1Init junk) []) as (ctx & H & Ha & Hb); [by apply SHA1Init_absorbed|by constructor|done|].
  rewrite H. by apply SHA1Final_digest.
Qed.

Lemma SHA1_correct_witness :
  (ctx ← updates (SHA1Init (replicate 64 7)) [str "a"; []; str "bc"]; SHA1Final ctx) =
    Ok (be_encode 4 0xA9993E36 ++ be_encode 4 0x4706816A ++ be_encode 4 0xBA3E2571 ++ be_encode 4 0x7850C26C ++ be_encode 4 0x9CD0D89D).
Proof.
  rewrite <- SHA1_abc. apply (SHA1_correct (replicate 64 7) [str "a"; []; str "bc"]); [reflexivity|].
  repeat apply Forall_cons; try apply Forall_nil; repeat split; try done; repeat constructor; done.
Defined.

(** ** Long pieces *)

(** A piece of 2^29 bytes or more adds nothing to [count[1]] unless [count[0]]
    wraps: the length that ends the message is wrong then. *)
Lemma long_piece_count ctx data ctx' :
  count0 ctx = 0 -> zlen data = 2 ^ 29 -> SHA1Update ctx data (2 ^ 29) = Ok ctx' -> count0 ctx' = 0 /\ count1 ctx' = count1 ctx.
Proof.
  intros H0 Hl H. unfold SHA1Update in H. rewrite H0 in H.
  change (0 +u32 u32 (Z.shiftl (2 ^ 29) 3)) with 0 in H. change (0 <? 0) with false in H.
  destruct (if 63 <? _ then _ else _) as [[[[st buf] i] j]| |]; cbn [mbind res_bind] in H; try done.
  destruct (mem_read data i _); cbn [mbind res_bind] in H; try done.
  destruct (mem_write buf j _); cbn [mbind res_bind] in H; try done. by injection H as <-.
Qed.

(** * The UUID *)

Lemma length_SHA1 m : zlen (SHA1 m) = 20.
Proof. unfold SHA1. rewrite !zlen_app. unfold be_encode, zlen. rewrite !length_rev, !length_le_encode. done. Qed.

Lemma SHA1_bytes m : bytes_ok (SHA1 m).
Proof. unfold bytes_ok, SHA1, be_encode. rewrite !Forall_app. repeat split; apply Forall_rev, le_encode_ok. Qed.

Lemma sha1_hash_digest junk namespace name :
  zlen junk = 64 -> bytes_ok namespace -> bytes_ok name -> zlen namespace < 2 ^ 29 -> zlen name < 2 ^ 29 ->
  sha1_hash junk namespace name = Ok (SHA1 (namespace ++ name)).
Proof.
  intros Hj Hns Hn Hl1 Hl2. pose proof (zlen_nonneg namespace). pose proof (zlen_nonneg name).
  unfold sha1_hash. rewrite !u32_small by (unfold is_u32; lia).
  destruct (SHA1Update_absorbs _ _ namespace (SHA1Init_absorbed junk Hj)) as (c1 & E1 & Ha1); [by constructor|done|done|].
  rewrite E1. cbn [mbind res_bind]. destruct (SHA1Update_absorbs _ _ name Ha1) as (c2 & E2 & Ha2); [done|done|done|].
  rewrite E2. cbn [mbind res_bind]. apply SHA1Final_digest; [done|]. by apply Forall_app.
Qed.

Lemma le_be_4 a b c d : is_u8 a -> is_u8 b -> is_u8 c -> is_u8 d -> le_encode 4 (be_decode [a; b; c; d]) = [d; c; b; a].
Proof.
  intros Ha Hb Hc Hd. assert (be_decode [a; b; c; d] = le_decode [d; c; b; a]) as -> by (unfold be_decode; cbn; lia).
  change 4%nat with (length [d; c; b; a]). apply le_encode_decode. repeat (apply Forall_cons_2; [done|]). apply Forall_nil_2.
Qed.

Lemma le_be_2 a b : is_u8 a -> is_u8 b -> le_encode 2 (be_decode [a; b]) = [b; a].
Proof.
  intros Ha Hb. assert (be_decode [a; b] = le_decode [b; a]) as -> by (unfold be_decode; cbn; lia).
  change 2%nat with (length [b; a]). apply le_encode_decode. repeat (apply Forall_cons_2; [done|]). apply Forall_nil_2.
Qed.

Lemma version_bits a b : is_u8 a -> is_u8 b ->
  Z.lor (Z.land (be_decode [a; b]) 0x0FFF) (Z.shiftl 5 12) = be_decode [a mod 16 + 80; b].
Proof.
  intros Ha Hb. unfold is_u8 in *. change 0x0FFF with (Z.ones 12). rewrite Z.land_ones by done.
  pose proof (Z.mod_pos_bound (be_decode [a; b]) (2 ^ 12) ltac:(done)). rewrite <- lor_shift_add by lia.
  assert (be_decode [a; b] mod 2 ^ 12 = a mod 16 * 256 + b) as ->.
  { symmetry. pose proof (Z.mod_pos_bound a 16 ltac:(done)). apply (Z.mod_unique_pos _ _ (a / 16)); [lia|].
    unfold be_decode. cbn [foldl]. pose proof (Z.div_mod a 16 ltac:(done)). lia. }
  unfold be_decode. cbn [foldl]. lia.
Qed.

Lemma variant_bits a : is_u8 a -> Z.lor (Z.land (be_decode [a]) (255 - Z.shiftl 1 6)) (Z.shiftl 1 7) = a mod 64 + 128.
Proof.
  intros Ha. change (be_decode [a]) with a. pose proof (small_nat_cases (fun a => Z.lor (Z.land a (255 - Z.shiftl 1 6)) (Z.shiftl 1 7) = a mod 64 + 128) 256 a) as H.
  apply H; [|unfold is_u8 in Ha; lia]. clear a Ha H. intros i Hi.
  assert (forallb (fun i => Z.lor (Z.land (Z.of_nat i) (255 - Z.shiftl 1 6)) (Z.shiftl 1 7) =? Z.of_nat i mod 64 + 128) (seq 0 256) = true) as Hall by (vm_compute; reflexivity).
  apply Z.eqb_eq. rewrite forallb_forall in Hall. apply Hall. apply in_seq. lia.
Qed.

(** The UUID of a file system is made of the first bytes of the SHA-1 digest
    of the namespace and the label, with version 5 and the variant of RFC 4122.
    The struct is left in the byte order of the machine, although a UUID is
    stored in network order: the first three fields are reversed, and the version
    is in byte 7 where it should be in byte 6. *)
Theorem generate_sha1_uuid_bytes junk namespace name :
  zlen junk = 64 -> bytes_ok namespace -> bytes_ok name -> zlen namespace < 2 ^ 29 -> zlen name < 2 ^ 29 ->
  let h := SHA1 (namespace ++ name) in
  generate_sha1_uuid junk namespace name =
    Ok ([h !!! 3%nat; h !!! 2%nat; h !!! 1%nat; h !!! 0%nat; h !!! 5%nat; h !!! 4%nat;
         h !!! 7%nat; (h !!! 6%nat) mod 16 + 80; (h !!! 8%nat) mod 64 + 128] ++ ztake 7 (zdrop 9 h)).
Proof.
  intros Hj Hns Hn Hl1 Hl2 h. unfold generate_sha1_uuid. rewrite sha1_hash_digest by done. cbn [mbind res_bind].
  pose proof (length_SHA1 (namespace ++ name)) as Hl. pose proof (SHA1_bytes (namespace ++ name)) as Hb. fold h in Hl, Hb |- *. clearbody h.
  rewrite !mem_read_zdrop by lia.
  do 10 (destruct h as [|? h]; [done|]). unfold bytes_ok in Hb. rewrite !list.Forall_cons in Hb.
  destruct Hb as (B0 & B1 & B2 & B3 & B4 & B5 & B6 & B7 & B8 & B9 & _).
  cbn -[le_encode be_decode Z.lor Z.land Z.modulo Z.add ztake zdrop].
  repeat match goal with |- context [be_decode (ztake ?n (zdrop ?p ?l))] =>
    let v := eval vm_compute in (take (Z.to_nat n) (drop (Z.to_nat p) l)) in change (ztake n (zdrop p l)) with v end.
  pose proof (Z.mod_pos_bound z5 16 ltac:(done)). rewrite version_bits, variant_bits, le_be_4, !le_be_2 by (done || (unfold is_u8; lia)).
  done.
Qed.

Lemma generate_sha1_uuid_bytes_witness :
  generate_sha1_uuid (replicate 64 0) (str "ab") (str "c") =
    Ok [0x36; 0x3E; 0x99; 0xA9; 0x06; 0x47; 0x6A; 0x51; 0xBA; 0x3E; 0x25; 0x71; 0x78; 0x50; 0xC2; 0x6C].
Proof.
  rewrite (generate_sha1_uuid_bytes (replicate 64 0) (str "ab") (str "c")).
  - change (str "ab" ++ str "c") with (str "abc"). rewrite SHA1_abc. vm_compute. reflexivity.
  - reflexivity.
  - vm_compute. repeat constructor; congruence.
  - vm_compute. repeat constructor; congruence.
  - reflexivity.
  - reflexivity.
Defined.
