(* ===== verification/FecBase.v ===== *)
(** Model of src/libfec/include/fec/{io,ecc}.h and src/libfec/fec_private.h: the
    parameters of forward error correction and dm-verity, the handle of an open
    image, and what libfec needs from outside: the digest, the Reed-Solomon
    code, reads and writes of the image, and threads.

    A function that returns an int is a program [F A]: it changes the handle,
    and [None] stands for the return of -1, which ends the caller too unless it
    looks at the result ([attempt]).  [check(p)] is such a return. *)
From stdpp Require Import base list numbers strings.
From Stdlib Require Import ZArith Lia.
From S2P Require Import Prelude Utils File.

(** * Parameters *)

Definition FEC_BLOCKSIZE : Z := 4096.
Definition SHA256_DIGEST_LENGTH : Z := 32.
Definition FEC_RSM : Z := 255.
Definition FEC_MAGIC : Z := 0xFECFECFE.
Definition FEC_VERSION : Z := 0.
Definition FEC_FS_EXT4 : Z := 1.
Definition FEC_FS_SQUASH : Z := 2.
Definition FEC_VERITY_DISABLE : Z := 256.

(** <fcntl.h> *)
Definition O_RDONLY : Z := 0.
Definition O_RDWR : Z := 2.

Definition VERITY_METADATA_SIZE : Z := 8 * FEC_BLOCKSIZE.
Definition VERITY_TABLE_ARGS : Z := 10.
Definition VERITY_MIN_TABLE_SIZE : Z := VERITY_TABLE_ARGS * 2.
Definition VERITY_MAGIC : Z := 0xB001B001.
Definition VERITY_MAGIC_DISABLE : Z := 0x46464F56.
Definition VERITY_VERSION : Z := 0.

Definition WORK_MIN_THREADS : Z := 1.
Definition WORK_MAX_THREADS : Z := 64.

(** The size of an RSA-2048 signature (crypto_utils). *)
Definition ANDROID_PUBKEY_MODULUS_SIZE : Z := 256.

(** [ceil(x / y)] for [y] other than 0. *)
Definition fec_div_round_up (x y : Z) : Z := x / y + (if 0 <? x mod y then 1 else 0).
Definition fec_round_up (x y : Z) : Z := fec_div_round_up x y *u64 y.

(** The offset in the image of a byte of the sequence of RS blocks. *)
Definition fec_ecc_interleave (offset rsn rounds : Z) : Z :=
  offset / rsn +u64 (offset mod rsn) * rounds * FEC_BLOCKSIZE.

Definition fec_ecc_get_size (file_size roots : Z) : Z :=
  u64 (fec_div_round_up (fec_div_round_up file_size FEC_BLOCKSIZE) (FEC_RSM - roots) * roots * FEC_BLOCKSIZE
       + FEC_BLOCKSIZE).

(** * Data on disk *)

Record fec_header := FecHeader {
  fh_magic : Z; fh_version : Z; fh_size : Z; fh_roots : Z; fh_fec_size : Z; fh_inp_size : Z; fh_hash : bytes;
}.

Definition fec_header_codec : codec fec_header :=
  struct_codec
    (pair_codec uint32_t (pair_codec uint32_t (pair_codec uint32_t (pair_codec uint32_t
      (pair_codec uint32_t (pair_codec uint64_t (raw_codec SHA256_DIGEST_LENGTH)))))))
    (fun '(a, (b, (c, (d, (e, (f, g)))))) => FecHeader a b c d e f g)
    (fun h => (fh_magic h, (fh_version h, (fh_size h, (fh_roots h, (fh_fec_size h, (fh_inp_size h, fh_hash h))))))).

Record verity_header := VerityHeader {
  vh_magic : Z; vh_version : Z; vh_signature : bytes; vh_length : Z;
}.

Definition verity_header_codec : codec verity_header :=
  struct_codec
    (pair_codec uint32_t (pair_codec uint32_t (pair_codec (raw_codec ANDROID_PUBKEY_MODULUS_SIZE) uint32_t)))
    (fun '(a, (b, (c, d))) => VerityHeader a b c d)
    (fun h => (vh_magic h, (vh_version h, (vh_signature h, vh_length h)))).

Definition VERITY_MAX_TABLE_SIZE : Z := VERITY_METADATA_SIZE - sizeof verity_header_codec.

(** * The handle *)

Record ecc_info := EccInfo {
  e_valid : bool; e_roots : Z; e_rsn : Z; e_size : Z; e_blocks : Z; e_rounds : Z; e_start : Z;
}.

(** Pointers to arrays are the array or [None]; the salt is [salt_size] bytes. *)
Record verity_info := VerityInfo {
  v_disabled : bool; v_table : option bytes; v_hash_data_blocks : Z; v_hash_size : Z; v_hash_data_offset : Z;
  v_hash_start : Z; v_hash : option bytes; v_salt_size : Z; v_salt : option bytes; v_data_blocks : Z;
  v_metadata_start : Z; v_zero_hash : bytes; v_header : verity_header; v_ecc_header : verity_header;
}.

(** [fd_data] is the content of the file or device behind [fd]; the mutex is not
    used. *)
Record fec_handle := FecHandle {
  ecc : ecc_info; fd_data : bytes; h_flags : Z; h_mode : Z; h_errors : Z; h_data_size : Z; h_pos : Z; h_size : Z;
  verity : verity_info;
}.

(** ** Assignments *)

Definition set_ecc (e : ecc_info) (f : fec_handle) : fec_handle :=
  FecHandle e (fd_data f) (h_flags f) (h_mode f) (h_errors f) (h_data_size f) (h_pos f) (h_size f) (verity f).
Definition set_fd_data (d : bytes) (f : fec_handle) : fec_handle :=
  FecHandle (ecc f) d (h_flags f) (h_mode f) (h_errors f) (h_data_size f) (h_pos f) (h_size f) (verity f).
Definition set_errors (n : Z) (f : fec_handle) : fec_handle :=
  FecHandle (ecc f) (fd_data f) (h_flags f) (h_mode f) n (h_data_size f) (h_pos f) (h_size f) (verity f).
Definition set_data_size (n : Z) (f : fec_handle) : fec_handle :=
  FecHandle (ecc f) (fd_data f) (h_flags f) (h_mode f) (h_errors f) n (h_pos f) (h_size f) (verity f).
Definition set_pos (n : Z) (f : fec_handle) : fec_handle :=
  FecHandle (ecc f) (fd_data f) (h_flags f) (h_mode f) (h_errors f) (h_data_size f) n (h_size f) (verity f).
Definition set_verity (v : verity_info) (f : fec_handle) : fec_handle :=
  FecHandle (ecc f) (fd_data f) (h_flags f) (h_mode f) (h_errors f) (h_data_size f) (h_pos f) (h_size f) v.

Definition set_disabled (b : bool) (v : verity_info) : verity_info :=
  VerityInfo b (v_table v) (v_hash_data_blocks v) (v_hash_size v) (v_hash_data_offset v) (v_hash_start v) (v_hash v)
    (v_salt_size v) (v_salt v) (v_data_blocks v) (v_metadata_start v) (v_zero_hash v) (v_header v) (v_ecc_header v).
Definition set_table (t : option bytes) (v : verity_info) : verity_info :=
  VerityInfo (v_disabled v) t (v_hash_data_blocks v) (v_hash_size v) (v_hash_data_offset v) (v_hash_start v) (v_hash v)
    (v_salt_size v) (v_salt v) (v_data_blocks v) (v_metadata_start v) (v_zero_hash v) (v_header v) (v_ecc_header v).
Definition set_hash_data (blocks offset : Z) (v : verity_info) : verity_info :=
  VerityInfo (v_disabled v) (v_table v) blocks (v_hash_size v) offset (v_hash_start v) (v_hash v)
    (v_salt_size v) (v_salt v) (v_data_blocks v) (v_metadata_start v) (v_zero_hash v) (v_header v) (v_ecc_header v).
Definition set_hash_size (n : Z) (v : verity_info) : verity_info :=
  VerityInfo (v_disabled v) (v_table v) (v_hash_data_blocks v) n (v_hash_data_offset v) (v_hash_start v) (v_hash v)
    (v_salt_size v) (v_salt v) (v_data_blocks v) (v_metadata_start v) (v_zero_hash v) (v_header v) (v_ecc_header v).
Definition set_hash_start (n : Z) (v : verity_info) : verity_info :=
  VerityInfo (v_disabled v) (v_table v) (v_hash_data_blocks v) (v_hash_size v) (v_hash_data_offset v) n (v_hash v)
    (v_salt_size v) (v_salt v) (v_data_blocks v) (v_metadata_start v) (v_zero_hash v) (v_header v) (v_ecc_header v).
Definition set_hash (h : option bytes) (v : verity_info) : verity_info :=
  VerityInfo (v_disabled v) (v_table v) (v_hash_data_blocks v) (v_hash_size v) (v_hash_data_offset v) (v_hash_start v) h
    (v_salt_size v) (v_salt v) (v_data_blocks v) (v_metadata_start v) (v_zero_hash v) (v_header v) (v_ecc_header v).
Definition set_salt_size (n : Z) (v : verity_info) : verity_info :=
  VerityInfo (v_disabled v) (v_table v) (v_hash_data_blocks v) (v_hash_size v) (v_hash_data_offset v) (v_hash_start v)
    (v_hash v) n (v_salt v) (v_data_blocks v) (v_metadata_start v) (v_zero_hash v) (v_header v) (v_ecc_header v).
Definition set_salt (s : option bytes) (v : verity_info) : verity_info :=
  VerityInfo (v_disabled v) (v_table v) (v_hash_data_blocks v) (v_hash_size v) (v_hash_data_offset v) (v_hash_start v)
    (v_hash v) (v_salt_size v) s (v_data_blocks v) (v_metadata_start v) (v_zero_hash v) (v_header v) (v_ecc_header v).
Definition set_data_blocks (n : Z) (v : verity_info) : verity_info :=
  VerityInfo (v_disabled v) (v_table v) (v_hash_data_blocks v) (v_hash_size v) (v_hash_data_offset v) (v_hash_start v)
    (v_hash v) (v_salt_size v) (v_salt v) n (v_metadata_start v) (v_zero_hash v) (v_header v) (v_ecc_header v).
Definition set_metadata_start (n : Z) (v : verity_info) : verity_info :=
  VerityInfo (v_disabled v) (v_table v) (v_hash_data_blocks v) (v_hash_size v) (v_hash_data_offset v) (v_hash_start v)
    (v_hash v) (v_salt_size v) (v_salt v) (v_data_blocks v) n (v_zero_hash v) (v_header v) (v_ecc_header v).
Definition set_zero_hash (h : bytes) (v : verity_info) : verity_info :=
  VerityInfo (v_disabled v) (v_table v) (v_hash_data_blocks v) (v_hash_size v) (v_hash_data_offset v) (v_hash_start v)
    (v_hash v) (v_salt_size v) (v_salt v) (v_data_blocks v) (v_metadata_start v) h (v_header v) (v_ecc_header v).
Definition set_headers (h e : verity_header) (v : verity_info) : verity_info :=
  VerityInfo (v_disabled v) (v_table v) (v_hash_data_blocks v) (v_hash_size v) (v_hash_data_offset v) (v_hash_start v)
    (v_hash v) (v_salt_size v) (v_salt v) (v_data_blocks v) (v_metadata_start v) (v_zero_hash v) h e.

(** * What is outside of libfec *)

(** <openssl/sha.h> *)
Class Digest := {
  sha256 : bytes -> bytes;
  sha256_len b : zlen (sha256 b) = SHA256_DIGEST_LENGTH;
}.

(** <fec.h>: the parity bytes of a block of data, and decoding a block of 255
    bytes with the positions of erasures, which returns the number of
    corrections or a negative number and changes the block.  The array of
    positions is overwritten with positions of corrected bytes: the last component
    is what its entries for erasures hold afterwards. *)
Class ReedSolomon := {
  encode_rs_char (roots : Z) (data : bytes) : bytes;
  decode_rs_char (roots : Z) (block : bytes) (eras : list Z) : Z * bytes * list Z;
  encode_rs_len roots data : 0 <= roots -> zlen (encode_rs_char roots data) = roots;
  decode_rs_len roots block eras : zlen (decode_rs_char roots block eras).1.2 = zlen block;
  decode_rs_eras roots block eras : zlen (decode_rs_char roots block eras).2 = zlen eras;
}.

(** The result of pread64(2) and pwrite64(2) for a file of the given content: a
    number of bytes, or 0 or less.  A read returns bytes that exist, and no more
    than were asked for; a write writes no more than it is given. *)
Class Kernel := {
  pread64 (file : bytes) (count offset : Z) : Z;
  pwrite64 (file : bytes) (count offset : Z) : Z;
  pread64_ok file count offset :
    pread64 file count offset <= count /\
    (0 < pread64 file count offset -> offset + pread64 file count offset <= zlen file);
  pwrite64_ok file count offset : pwrite64 file count offset <= count;
}.

(** sysconf(_SC_NPROCESSORS_ONLN), and whether the thread [i] of a request is
    created and joined. *)
Class Threads := {
  nprocessors : Z;
  pthread_create : Z -> bool;
  pthread_join : Z -> bool;
}.

(** * Programs *)

Definition F (A : Type) : Type := fec_handle -> res (option A * fec_handle).

#[export] Instance F_ret : MRet F := fun A a f => Ok (Some a, f).
#[export] Instance F_bind : MBind F := fun A B k m f =>
  match m f with
  | Ok (Some a, f) => k a f
  | Ok (None, f) => Ok (None, f)
  | CheckFailed => CheckFailed
  | OutOfBounds => OutOfBounds
  end.

(** [return -1] *)
Definition fail {A} : F A := fun f => Ok (None, f).

(** [check(p)] *)
Definition check (p : bool) : F unit := if p then mret tt else fail.

(** The result of a call, for a caller that goes on in either case. *)
Definition attempt {A} (m : F A) : F (option A) := fun f =>
  match m f with
  | Ok (a, f) => Ok (Some a, f)
  | CheckFailed => CheckFailed
  | OutOfBounds => OutOfBounds
  end.

Definition handle : F fec_handle := fun f => Ok (Some f, f).
Definition update (g : fec_handle -> fec_handle) : F unit := fun f => Ok (Some tt, g f).
Definition update_verity (g : verity_info -> verity_info) : F unit :=
  update (fun f => set_verity (g (verity f)) f).

(** An access to memory. *)
Definition access {A} (m : res A) : F A := fun f =>
  match m with Ok a => Ok (Some a, f) | CheckFailed => CheckFailed | OutOfBounds => OutOfBounds end.

(** [a / b] of unsigned integers. *)
Definition div_u (a b : Z) : res Z := if b =? 0 then OutOfBounds else Ok (a / b).
