(* ===== verification/FecRead.v ===== *)
(** Model of src/libfec/fec_read.cpp and src/libfec/fec_process.cpp, and of the
    hash of a block in fec_verity.cpp: reading an image with error correction
    and integrity checks.

    Output buffers are results.  A read that fails leaves its buffer partly
    filled, which matters in [__ecc_read] only.  The threads of [process] run one
    after the other: they work on disjoint parts of the buffer, and share the
    handle, which they do not change, and the image, to which they write
    corrected blocks when it is open for writing. *)
From stdpp Require Import base list numbers strings.
From Stdlib Require Import ZArith Lia.
From S2P Require Import Prelude Utils File FecBase.

Section Read.
Context {dg : Digest} {rs : ReedSolomon} {kn : Kernel} {th : Threads}.

(** * Reads and writes *)

(** The loop of [raw_pread]: whether all was read, and what was read.  Each turn
    reads at least one byte. *)
Fixpoint pread_loop (fuel : nat) (file : bytes) (remaining offset : Z) : bool * bytes :=
  if remaining <=? 0 then (true, [])
  else
    match fuel with
    | O => (false, [])
    | S fuel =>
        let n := pread64 file remaining offset in
        if n <=? 0 then (false, [])
        else
          let '(ok, rest) := pread_loop fuel file (remaining - n) (offset +u64 n) in
          (ok, ztake n (zdrop offset file) ++ rest)
    end.

Definition raw_pread (count offset : Z) : F (bool * bytes) :=
  f ← handle; mret (pread_loop (Z.to_nat count) (fd_data f) count offset).

Fixpoint pwrite_loop (fuel : nat) (file buf : bytes) (offset : Z) : bool * bytes :=
  if zlen buf <=? 0 then (true, file)
  else
    match fuel with
    | O => (false, file)
    | S fuel =>
        let n := pwrite64 file (zlen buf) offset in
        if n <=? 0 then (false, file)
        else
          let c := pad_to offset file in
          pwrite_loop fuel (ztake offset c ++ ztake n buf ++ zdrop (offset + n) c) (zdrop n buf) (offset +u64 n)
    end.

Definition raw_pwrite (buf : bytes) (offset : Z) : F bool :=
  f ← handle;
  let '(ok, file) := pwrite_loop (length buf) (fd_data f) buf offset in
  update (set_fd_data file);; mret ok.

(** A read into a buffer that is used only if all was read. *)
Definition read_all (count offset : Z) : F bytes :=
  '(ok, data) ← raw_pread count offset; if (ok : bool) then mret data else fail.

(** * Hashes of blocks *)

(** [verity_hash]: -1 without a salt. *)
Definition verity_hash (v : verity_info) (block : bytes) : option bytes :=
  match v_salt v with Some salt => Some (sha256 (salt ++ block)) | None => None end.

Definition verity_check_block (v : verity_info) (expected block : bytes) : bool :=
  match verity_hash v block with Some h => bool_decide (expected = h) | None => false end.

(** The hash at [p] of the array [v->hash]. *)
Definition hash_at (v : verity_info) (p : Z) : res bytes :=
  match v_hash v with Some h => mem_read h p SHA256_DIGEST_LENGTH | None => OutOfBounds end.

Definition is_erasure (offset : Z) (data : bytes) : F bool :=
  f ← handle;
  if h_data_size f <=? offset then mret false
  else
    h ← access (hash_at (verity f) (u64 (offset / FEC_BLOCKSIZE * SHA256_DIGEST_LENGTH)));
    mret (negb (verity_check_block (verity f) h data)).

Definition is_zero (offset : Z) : F bool :=
  f ← handle;
  match v_hash (verity f) with
  | None => mret false
  | Some _ =>
      if h_data_size f <=? offset then mret false
      else
        let hash_offset := u64 (offset / FEC_BLOCKSIZE * SHA256_DIGEST_LENGTH) in
        if u32 (v_hash_data_blocks (verity f) * FEC_BLOCKSIZE) -u32 SHA256_DIGEST_LENGTH <? hash_offset
        then mret false
        else
          h ← access (hash_at (verity f) hash_offset);
          mret (bool_decide (v_zero_hash (verity f) = h))
  end.

(** * Error correction *)

(** The block at position [i] of the RS blocks: what could be read of it, zeros
    for the rest, and whether it counts as an erasure. *)
Definition rs_column (use_erasures : bool) (neras interleaved : Z) : F (bytes * bool) :=
  f ← handle;
  let zeros := replicate (Z.to_nat FEC_BLOCKSIZE) 0 in
  zero ← is_zero interleaved;
  if (interleaved <? e_start (ecc f)) && negb zero then
    '(ok, data) ← raw_pread FEC_BLOCKSIZE interleaved;
    let bbuf := data ++ zdrop (zlen data) zeros in
    let room := use_erasures && (neras <=? e_roots (ecc f)) in
    if negb ok then mret (bbuf, room)
    else if room then erased ← is_erasure interleaved bbuf; mret (bbuf, erased)
    else mret (bbuf, false)
  else mret (zeros, false).

(** [for (int i = 0; i < e->rsn; ++i)] of [__ecc_read], with [n] turns left. *)
Fixpoint gather_columns (n : nat) (i rsb offset : Z) (use_erasures : bool) (data_index : Z) (erasures : list Z) :
    F (list bytes * Z * list Z) :=
  match n with
  | O => mret ([], data_index, erasures)
  | S n =>
      f ← handle;
      let e := ecc f in
      let interleaved := fec_ecc_interleave (u64 (rsb * e_rsn e + i)) (e_rsn e) (e_rounds e) in
      let data_index := if interleaved =? offset then i else data_index in
      '(bbuf, erased) ← rs_column use_erasures (zlen erasures) interleaved;
      '(rest, data_index, erasures) ← gather_columns n (i + 1) rsb offset use_erasures data_index
                                        (if erased : bool then erasures ++ [i] else erasures);
      mret (bbuf :: rest, data_index, erasures)
  end.

(** [for (int i = 0; i < FEC_BLOCKSIZE; ++i)] of [__ecc_read]: the bytes of [dest]
    from [i] on and the number of corrections.  The decoder overwrites the array of
    erasures, so that each row gets what the row before has left in it. *)
Fixpoint decode_rows (n : nat) (i : Z) (columns : list bytes) (rsb data_index : Z) (use_erasures : bool)
    (erasures : list Z) (nerrs : Z) : F (bytes * Z) :=
  match n with
  | O => mret ([], nerrs)
  | S n =>
      f ← handle;
      let e := ecc f in
      parity ← read_all (e_roots e) (e_start e +u64 (i + rsb) * e_roots e);
      data ← access (match mapM (fun b => znth b i) columns with Some d => Ok d | None => OutOfBounds end);
      let '(rc, row, erasures) := decode_rs_char (e_roots e) (data ++ parity) erasures in
      if rc <? 0 then fail
      else
        check ((rc <=? 0) || (rc <=? (if use_erasures then e_roots e else e_roots e / 2)));;
        b ← access (match znth row data_index with Some b => Ok b | None => OutOfBounds end);
        '(rest, nerrs) ← decode_rows n (i + 1) columns rsb data_index use_erasures erasures (nerrs +u64 rc);
        mret (b :: rest, nerrs)
  end.

(** [__ecc_read]: the block at [offset] and the number of corrections. *)
Definition __ecc_read (offset : Z) (use_erasures : bool) : F (bytes * Z) :=
  check (offset mod FEC_BLOCKSIZE =? 0);;
  f ← handle;
  let e := ecc f in
  let stripe := u64 (e_rounds e * FEC_BLOCKSIZE) in
  q ← access (div_u offset stripe);
  let rsb := offset -u64 q * e_rounds e * FEC_BLOCKSIZE in
  check (negb use_erasures || bool_decide (is_Some (v_hash (verity f))));;
  '(columns, data_index, erasures) ← gather_columns (Z.to_nat (e_rsn e)) 0 rsb offset use_erasures (-1) [];
  check (0 <=? data_index);;
  decode_rows (Z.to_nat FEC_BLOCKSIZE) 0 columns rsb data_index use_erasures erasures 0.

(** * Reading a range *)

(** [while (left > 0)] of [ecc_read]; a turn copies at least one byte. *)
Fixpoint ecc_read_loop (fuel : nat) (curr coff left errors : Z) : F (bytes * Z) :=
  if left <=? 0 then mret ([], errors)
  else
    match fuel with
    | O => access OutOfBounds
    | S fuel =>
        '(data, nerrs) ← __ecc_read (u64 (curr * FEC_BLOCKSIZE)) false;
        let copy := Z.min (FEC_BLOCKSIZE - coff) left in
        '(rest, errors) ← ecc_read_loop fuel (curr +u64 1) 0 (left - copy) (errors +u64 nerrs);
        mret (ztake copy (zdrop coff data) ++ rest, errors)
    end.

Definition ecc_read (count offset : Z) : F (bytes * Z) :=
  f ← handle;
  check (offset <? h_data_size f);;
  check (offset +u64 count <=? h_data_size f);;
  let curr := offset / FEC_BLOCKSIZE in
  ecc_read_loop (Z.to_nat count) curr (offset - curr * FEC_BLOCKSIZE) count 0.

(** What the loop of [verity_read] does for the block [curr], up to the label
    [valid]: the block and the number of corrections. *)
Definition verity_read_block (curr errors : Z) : F (bytes * Z) :=
  f ← handle;
  let v := verity f in
  let zeros := replicate (Z.to_nat FEC_BLOCKSIZE) 0 in
  let curr_offset := u64 (curr * FEC_BLOCKSIZE) in
  let corrected data errors :=
    (if negb (Z.land (h_mode f) O_RDWR =? 0) then ok ← raw_pwrite data curr_offset; check ok else mret tt);;
    mret (data, errors) in
  hash ← access (hash_at v (u64 (curr * SHA256_DIGEST_LENGTH)));
  expect_zeros ← is_zero curr_offset;
  if negb (Z.land (h_mode f) O_RDONLY =? 0) && expect_zeros then mret (zeros, errors)
  else
    data ← read_all FEC_BLOCKSIZE curr_offset;
    if verity_check_block v hash data then mret (data, errors)
    else if expect_zeros then corrected zeros errors
    else
      check (negb (e_start (ecc f) =? 0));;
      first ← attempt (__ecc_read curr_offset false);
      let errors := match first with Some (_, nerrs) => errors +u64 nerrs | None => errors end in
      match first with
      | Some (data, _) =>
          if verity_check_block v hash data then corrected data errors
          else
            '(data, nerrs) ← __ecc_read curr_offset true;
            check (verity_check_block v hash data);; corrected data (errors +u64 nerrs)
      | None =>
          '(data, nerrs) ← __ecc_read curr_offset true;
          check (verity_check_block v hash data);; corrected data (errors +u64 nerrs)
      end.

Definition max_hash_block (v : verity_info) : Z :=
  (u32 (v_hash_data_blocks v * FEC_BLOCKSIZE) -u32 SHA256_DIGEST_LENGTH) / SHA256_DIGEST_LENGTH.

Fixpoint verity_read_loop (fuel : nat) (curr coff left errors : Z) : F (bytes * Z) :=
  if left <=? 0 then mret ([], errors)
  else
    match fuel with
    | O => access OutOfBounds
    | S fuel =>
        f ← handle;
        check (curr <=? max_hash_block (verity f));;
        '(data, errors) ← verity_read_block curr errors;
        let copy := Z.min (FEC_BLOCKSIZE - coff) left in
        '(rest, errors) ← verity_read_loop fuel (curr +u64 1) 0 (left - copy) errors;
        mret (ztake copy (zdrop coff data) ++ rest, errors)
    end.

Definition verity_read (count offset : Z) : F (bytes * Z) :=
  f ← handle;
  check (offset <? h_data_size f);;
  check (offset +u64 count <=? h_data_size f);;
  check (bool_decide (is_Some (v_hash (verity f))));;
  let curr := offset / FEC_BLOCKSIZE in
  verity_read_loop (Z.to_nat count) curr (offset - curr * FEC_BLOCKSIZE) count 0.

(** * Threads *)

(** [for (int i = 0; i < threads; ++i)] of [process], with [n] threads to go: the
    results of the threads that were created, whether one was not, and the bytes
    that are left. *)
Fixpoint start_threads (func : Z -> Z -> F (bytes * Z)) (n : nat) (i pos end_ count_per_thread left : Z) :
    F (list (Z * option (bytes * Z)) * bool * Z) :=
  match n with
  | O => mret ([], true, left)
  | S n =>
      check (0 <? left);;
      let count := Z.min (end_ -u64 pos) left in
      result ← (if pthread_create i then r ← attempt (func count pos); mret (Some (i, r)) else mret None);
      '(rest, ok, left_) ← start_threads func n (i + 1) end_ (end_ +u64 count_per_thread) count_per_thread (left - count);
      match result with
      | Some r => mret (r :: rest, ok, left_)
      | None => mret (rest, false, left_)
      end
  end.

(** [for (auto thread : handles)] *)
Fixpoint join_threads (results : list (Z * option (bytes * Z))) : F (bytes * bool) :=
  match results with
  | [] => mret ([], true)
  | (i, r) :: results =>
      match (if pthread_join i then r else None) with
      | Some (data, errors) =>
          update (fun f => set_errors (h_errors f +u64 errors) f);;
          '(rest, ok) ← join_threads results;
          mret (data ++ rest, ok)
      | None => '(rest, _) ← join_threads results; mret (rest, false)
      end
  end.

Definition num_threads : Z :=
  if nprocessors <? WORK_MIN_THREADS then WORK_MIN_THREADS
  else if WORK_MAX_THREADS <? nprocessors then WORK_MAX_THREADS else nprocessors.

(** A failed check leaves the threads that were started running. *)
Definition process (count offset : Z) (func : Z -> Z -> F (bytes * Z)) : F bytes :=
  if count =? 0 then mret []
  else
    let start := offset / FEC_BLOCKSIZE * FEC_BLOCKSIZE in
    let blocks := fec_div_round_up count FEC_BLOCKSIZE in
    let count_per_thread := u64 (fec_div_round_up blocks num_threads * FEC_BLOCKSIZE) in
    let max_threads := fec_div_round_up count count_per_thread in
    let threads := if max_threads <? num_threads then max_threads else num_threads in
    '(results, created, left_) ← start_threads func (Z.to_nat threads) 0 offset (start +u64 count_per_thread)
                                  count_per_thread count;
    check (left_ =? 0);;
    '(data, joined) ← join_threads results;
    check ((created : bool) && joined);; mret data.

(** * The interface *)

Inductive whence := SEEK_SET | SEEK_CUR | SEEK_END.

Definition fec_seek (offset : Z) (w : whence) : F unit :=
  f ← handle;
  match w with
  | SEEK_SET => check (0 <=? offset);; update (set_pos offset)
  | SEEK_CUR =>
      check (negb ((offset <? 0) && (h_pos f <? - offset)));;
      check (negb ((0 <? offset) && (UINT64_MAX - h_pos f <? offset)));;
      update (set_pos (u64 (h_pos f + offset)))
  | SEEK_END =>
      check (offset <? 0);; check (- offset <=? h_size f);; update (set_pos (u64 (h_size f + offset)))
  end.

Definition get_max_count (offset count max : Z) : Z :=
  if max <=? offset then 0 else if max -u64 count <? offset then max - offset else count.

Definition fec_pread (count offset : Z) : F bytes :=
  check (negb (UINT64_MAX - count <? offset));;
  f ← handle;
  match v_hash (verity f) with
  | Some _ => process (get_max_count offset count (h_data_size f)) offset verity_read
  | None =>
      if negb (e_start (ecc f) =? 0) then
        check (e_start (ecc f) <? h_size f);;
        let count := get_max_count offset count (h_data_size f) in
        r ← attempt (process count offset ecc_read);
        match r with Some data => mret data | None => read_all count offset end
      else read_all (get_max_count offset count (h_size f)) offset
  end.

Definition fec_read (count : Z) : F bytes :=
  f ← handle;
  data ← fec_pread count (h_pos f);
  (if 0 <? zlen data then
     f ← handle;
     check (h_pos f <? UINT64_MAX - zlen data);; update (set_pos (h_pos f + zlen data))
   else mret tt);;
  mret data.

End Read.
