(* ===== verification/FecEcc.v ===== *)
(** What [ecc_read] gives back: the RS blocks of an image, their interleaving, and
    the correction of a block whose codewords have few errors. *)
From stdpp Require Import base list numbers strings.
From Stdlib Require Import ZArith Lia.
From S2P Require Import Prelude Utils File FecBase FecRead.

(** * Running programs *)

Lemma run_bind {A B} (m : F A) (k : A -> F B) f a f' : m f = Ok (Some a, f') -> (m ≫= k) f = k a f'.
Proof. intros H. unfold mbind, F_bind. by rewrite H. Qed.

Lemma run_bind_fail {A B} (m : F A) (k : A -> F B) f f' : m f = Ok (None, f') -> (m ≫= k) f = Ok (None, f').
Proof. intros H. unfold mbind, F_bind. by rewrite H. Qed.

Lemma run_check b f : b = true -> check b f = Ok (Some tt, f).
Proof. by intros ->. Qed.

Lemma run_access {A} (m : res A) a f : m = Ok a -> access m f = Ok (Some a, f).
Proof. by intros ->. Qed.

(** Run the next command of a program, or a check that holds. *)
Ltac fstep := erewrite run_bind by (reflexivity || eassumption || (by eapply run_access)); cbn beta iota zeta.
Ltac fcheck := erewrite run_bind by (apply run_check; first [by apply Z.leb_le; lia | by apply Z.ltb_lt; lia | by apply Z.eqb_eq; lia]);
  cbn beta iota zeta.

(** * Codewords *)

(** The byte at [o]; the image is followed by zeros. *)
Definition byte_at (img : bytes) (o : Z) : Z := default 0 (znth img o).

(** The data of the RS block [k]: a byte of each stripe. *)
Definition rs_data (img : bytes) (rsn rounds k : Z) : bytes :=
  (fun i => byte_at img (k + i * (rounds * FEC_BLOCKSIZE))) <$> seqZ 0 rsn.

Definition codeword `{!ReedSolomon} (roots rounds : Z) (img : bytes) (k : Z) : bytes :=
  let d := rs_data img (FEC_RSM - roots) rounds k in d ++ encode_rs_char roots d.

(** The number of positions at which two words differ. *)
Definition hamming (a b : bytes) : Z := zlen (filter (fun p => p.1 <> p.2) (zip a b)).

(** What a decoder with [roots] parity bytes promises: it corrects as many errors
    as half of them and returns their number. *)
Definition rs_corrects `{!ReedSolomon} (roots : Z) : Prop :=
  forall data block, zlen data = FEC_RSM - roots -> zlen block = FEC_RSM ->
    hamming (data ++ encode_rs_char roots data) block <= roots / 2 ->
    decode_rs_char roots block [] = (hamming (data ++ encode_rs_char roots data) block, data ++ encode_rs_char roots data, []).

(** A kernel that reads at least one byte of what is there. *)
Definition reads_reliably `{!Kernel} : Prop :=
  forall file count offset, 0 < count -> 0 <= offset < zlen file -> 0 < pread64 file count offset.

Lemma interleave_spec rsn rounds k i :
  0 < rsn -> 0 <= i < rsn -> 0 <= k -> 0 <= rounds ->
  k * rsn + i < 2 ^ 64 -> k + i * (rounds * FEC_BLOCKSIZE) < 2 ^ 64 ->
  fec_ecc_interleave (u64 (k * rsn + i)) rsn rounds = k + i * (rounds * FEC_BLOCKSIZE).
Proof.
  intros Hr Hi Hk Hro H1 H2. unfold fec_ecc_interleave. rewrite (u64_small (k * rsn + i)) by (unfold is_u64; nia).
  rewrite (Z.div_add_l k rsn i), Z.div_small, Z.add_0_r by lia.
  rewrite (Z.add_comm (k * rsn) i), Z.mod_add, Z.mod_small by lia.
  rewrite u64_small; [lia|]. unfold is_u64. unfold FEC_BLOCKSIZE in *. nia.
Qed.

Lemma byte_at_inside img o : 0 <= o < zlen img -> znth img o = Some (byte_at img o).
Proof.
  intros [x Hx]%znth_some. unfold byte_at. by rewrite Hx.
Qed.

Lemma byte_at_outside img o : zlen img <= o -> byte_at img o = 0.
Proof.
  intros Ho. unfold byte_at, znth. destruct (Z.ltb_spec o 0); [done|].
  rewrite lookup_ge_None_2; [done|]. unfold zlen in Ho. lia.
Qed.

Lemma zlen_rs_data img rsn rounds k : 0 <= rsn -> zlen (rs_data img rsn rounds k) = rsn.
Proof. intros. unfold rs_data. rewrite zlen_fmap. by apply zlen_seqZ. Qed.

Lemma znth_rs_data img rsn rounds k i :
  0 <= i < rsn -> znth (rs_data img rsn rounds k) i = Some (byte_at img (k + i * (rounds * FEC_BLOCKSIZE))).
Proof.
  intros Hi. unfold rs_data. by rewrite znth_fmap, znth_seqZ by done.
Qed.

Section Correct.
Context {dg : Digest} {rs : ReedSolomon} {kn : Kernel} {th : Threads} (Hkn : reads_reliably).

(** * Reads *)

Lemma pread_loop_all fuel file count offset :
  zlen file < 2 ^ 64 -> 0 <= count <= Z.of_nat fuel -> 0 <= offset -> offset + count <= zlen file ->
  pread_loop fuel file count offset = (true, ztake count (zdrop offset file)).
Proof.
  intros Hf. revert count offset. induction fuel as [|fuel IH]; intros count offset Hc Ho Hs; cbn [pread_loop].
  - destruct (Z.leb_spec count 0); [|lia]. by assert (count = 0) as -> by lia.
  - destruct (Z.leb_spec count 0); [by assert (count = 0) as -> by lia|].
    pose proof (Hkn file count offset ltac:(lia) ltac:(lia)) as Hpos.
    destruct (pread64_ok file count offset) as [Hle Hin]. specialize (Hin Hpos).
    set (n := pread64 file count offset) in *. destruct (Z.leb_spec n 0); [lia|].
    rewrite u64_small by (unfold is_u64; lia). rewrite IH by lia. f_equal.
    rewrite <- zdrop_zdrop by lia. unfold ztake.
    rewrite <- (take_drop (Z.to_nat n) (take (Z.to_nat count) (zdrop offset file))).
    rewrite take_take, skipn_firstn_comm. f_equal; [f_equal; lia|]. unfold zdrop at 1. f_equal. lia.
Qed.

Lemma raw_pread_all f count offset :
  zlen (fd_data f) < 2 ^ 64 -> 0 <= count -> 0 <= offset -> offset + count <= zlen (fd_data f) ->
  raw_pread count offset f = Ok (Some (true, ztake count (zdrop offset (fd_data f))), f).
Proof. intros. unfold raw_pread. fstep. by rewrite pread_loop_all by lia. Qed.

Lemma read_all_ok f count offset :
  zlen (fd_data f) < 2 ^ 64 -> 0 <= count -> 0 <= offset -> offset + count <= zlen (fd_data f) ->
  read_all count offset f = Ok (Some (ztake count (zdrop offset (fd_data f))), f).
Proof. intros. unfold read_all. by rewrite (run_bind _ _ _ _ _ (raw_pread_all f count offset ltac:(done) ltac:(done) ltac:(done) ltac:(done))). Qed.

(** * Blocks of the image *)

(** The [n] bytes at [o] of an image that is followed by zeros. *)
Definition block_at (img : bytes) (o n : Z) : bytes := (fun j => byte_at img (o + j)) <$> seqZ 0 n.

Lemma znth_block_at img o n j : 0 <= j < n -> znth (block_at img o n) j = Some (byte_at img (o + j)).
Proof.
  intros Hj. unfold block_at. by rewrite znth_fmap, znth_seqZ by done.
Qed.

Lemma zlen_block_at img o n : 0 <= n -> zlen (block_at img o n) = n.
Proof. intros. unfold block_at. rewrite zlen_fmap. by apply zlen_seqZ. Qed.

Lemma block_at_cons img o n :
  block_at img o (Z.of_nat (S n)) = byte_at img o :: block_at img (o + 1) (Z.of_nat n).
Proof.
  unfold block_at. rewrite (seqZ_cons 0) by lia. replace (Z.pred (Z.of_nat (S n))) with (Z.of_nat n) by lia.
  rewrite fmap_cons, Z.add_0_r. f_equal. change (Z.succ 0) with (1 + 0).
  rewrite <- (fmap_add_seqZ 1 0), <- list_fmap_compose. apply list_fmap_ext. intros _ x _. cbn. f_equal. lia.
Qed.

Lemma block_at_app img o a b :
  0 <= a -> 0 <= b -> block_at img o (a + b) = block_at img o a ++ block_at img (o + a) b.
Proof.
  intros Ha Hb. apply list_eq_znth; [by rewrite zlen_app, !zlen_block_at by lia|].
  intros j Hj. rewrite zlen_block_at in Hj by lia. rewrite znth_app, zlen_block_at, znth_block_at by lia.
  destruct (Z.ltb_spec j a); rewrite znth_block_at by lia; [done|]. do 2 f_equal. lia.
Qed.

(** A part of a block. *)
Lemma block_at_part img o n p a :
  0 <= p -> 0 <= a -> p + a <= n -> ztake a (zdrop p (block_at img o n)) = block_at img (o + p) a.
Proof.
  intros Hp Ha Hn. apply list_eq_znth.
  { rewrite zlen_ztake, zlen_block_at; [done|lia|]. rewrite zlen_zdrop; rewrite zlen_block_at; lia. }
  intros j Hj. rewrite zlen_ztake in Hj by (rewrite zlen_zdrop; rewrite zlen_block_at; lia).
  rewrite znth_ztake, znth_zdrop, !znth_block_at by lia. do 2 f_equal. lia.
Qed.

Lemma block_at_inside img o n : 0 <= o -> 0 <= n -> o + n <= zlen img -> ztake n (zdrop o img) = block_at img o n.
Proof.
  intros Ho Hn Hs. apply list_eq_znth.
  { rewrite zlen_ztake, zlen_block_at; [done|lia|]. rewrite zlen_zdrop by lia. lia. }
  intros j Hj. rewrite zlen_ztake in Hj by (rewrite zlen_zdrop by lia; lia).
  rewrite znth_block_at by lia. rewrite znth_ztake, znth_zdrop by lia. apply byte_at_inside. lia.
Qed.

Lemma block_at_outside img o n : 0 <= n -> zlen img <= o -> block_at img o n = replicate (Z.to_nat n) 0.
Proof.
  intros Hn Ho. apply list_eq_znth.
  { rewrite zlen_block_at, zlen_replicate by lia. lia. }
  intros j Hj. rewrite zlen_block_at in Hj by lia. rewrite znth_block_at, byte_at_outside by lia.
  unfold znth. destruct (Z.ltb_spec j 0); [lia|]. symmetry. apply lookup_replicate_2. lia.
Qed.

(** * Correcting a block *)

(** The bytes of an RS block as they are on the disk: data below [start], parity
    behind it. *)
Definition disk_word (roots rounds start : Z) (disk : bytes) (k : Z) : bytes :=
  rs_data (ztake start disk) (FEC_RSM - roots) rounds k ++ ztake roots (zdrop (start + k * roots) disk).

(** The disk holds the image and its codes, with few errors in each codeword. *)
Record protected (roots rounds : Z) (img disk : bytes) : Prop := Protected {
  pr_roots : 0 < roots < FEC_RSM;
  pr_blocks : zlen img mod FEC_BLOCKSIZE = 0;
  pr_some : 0 < zlen img;
  pr_rounds : 0 < rounds /\ zlen img <= rounds * FEC_BLOCKSIZE * (FEC_RSM - roots);
  pr_disk : zlen img + rounds * FEC_BLOCKSIZE * roots <= zlen disk < 2 ^ 62;
  pr_small : rounds * FEC_BLOCKSIZE * FEC_RSM < 2 ^ 62;
  pr_errors : forall k, 0 <= k < rounds * FEC_BLOCKSIZE ->
    hamming (codeword roots rounds img k) (disk_word roots rounds (zlen img) disk k) <= roots / 2;
}.

(** A handle with codes for the image and without hashes. *)
Record ecc_handle (roots rounds : Z) (img : bytes) (f : fec_handle) : Prop := EccHandle {
  eh_roots : e_roots (ecc f) = roots;
  eh_rsn : e_rsn (ecc f) = FEC_RSM - roots;
  eh_rounds : e_rounds (ecc f) = rounds;
  eh_start : e_start (ecc f) = zlen img;
  eh_data_size : h_data_size f = zlen img;
  eh_hash : v_hash (verity f) = None;
}.

Section Block.
Context (roots rounds : Z) (img : bytes) (f : fec_handle).
Context (Hp : protected roots rounds img (fd_data f)) (Hf : ecc_handle roots rounds img f).
Context (Hrs : rs_corrects roots).

Let stripe := rounds * FEC_BLOCKSIZE.
Let rsn := FEC_RSM - roots.
Let raw := ztake (zlen img) (fd_data f).

Lemma stripe_facts : 0 < stripe /\ stripe mod FEC_BLOCKSIZE = 0 /\ 0 < rsn /\ zlen raw = zlen img /\
  zlen img <= stripe * rsn /\ stripe * FEC_RSM < 2 ^ 62 /\ stripe * rsn <= stripe * FEC_RSM.
Proof.
  destruct Hp. subst stripe rsn raw. unfold FEC_BLOCKSIZE, FEC_RSM in *. rewrite Z.mod_mul by lia.
  assert (0 <= rounds * 4096 * roots) by nia. rewrite zlen_ztake by lia. nia.
Qed.

Lemma is_zero_without_hash o : is_zero o f = Ok (Some false, f).
Proof. unfold is_zero. fstep. by rewrite (eh_hash _ _ _ _ Hf). Qed.

Lemma rs_column_raw neras o :
  0 <= o -> o mod FEC_BLOCKSIZE = 0 ->
  rs_column false neras o f = Ok (Some (block_at raw o FEC_BLOCKSIZE, false), f).
Proof.
  intros Ho Hm. pose proof stripe_facts as (_ & _ & _ & Hraw & _). destruct Hp, Hf. unfold rs_column. fstep.
  rewrite (run_bind _ _ _ _ _ (is_zero_without_hash o)), eh_start0.
  destruct (Z.ltb_spec o (zlen img)) as [Hin|Hout]; cbn [andb negb].
  - assert (o + FEC_BLOCKSIZE <= zlen img).
    { unfold FEC_BLOCKSIZE in *. apply Z.mod_divide in Hm as [x ->], pr_blocks0 as [y Hy]; lia. }
    assert (0 <= rounds * FEC_BLOCKSIZE * roots) by (unfold FEC_BLOCKSIZE; nia).
    erewrite run_bind by (apply raw_pread_all; unfold FEC_BLOCKSIZE in *; lia). cbn beta iota zeta. cbn [negb].
    rewrite block_at_inside by (unfold FEC_BLOCKSIZE in *; lia).
    assert (Heq : block_at (fd_data f) o FEC_BLOCKSIZE = block_at raw o FEC_BLOCKSIZE).
    { rewrite <- !block_at_inside by (unfold FEC_BLOCKSIZE in *; lia). subst raw.
      unfold ztake, zdrop. rewrite skipn_firstn_comm, take_take. f_equal. unfold FEC_BLOCKSIZE in *. lia. }
    rewrite Heq, zlen_block_at by done. rewrite zdrop_ge by (by rewrite zlen_replicate). by rewrite app_nil_r.
  - by rewrite block_at_outside by (unfold FEC_BLOCKSIZE; lia).
Qed.

Lemma gather_raw n i rsb q di :
  0 <= rsb < stripe -> rsb mod FEC_BLOCKSIZE = 0 -> 0 <= q -> 0 <= i -> i + Z.of_nat n <= rsn ->
  gather_columns n i rsb (rsb + q * stripe) false di [] f =
    Ok (Some ((fun j => block_at raw (rsb + j * stripe) FEC_BLOCKSIZE) <$> seqZ i (Z.of_nat n),
              if (i <=? q) && (q <? i + Z.of_nat n) then q else di, []), f).
Proof.
  intros Hrsb Hm Hq. pose proof stripe_facts as (Hst & Hstm & Hrsn & _ & _ & Hsm & Hsr). revert i di.
  induction n as [|n IH]; intros i di Hi Hn; cbn [gather_columns].
  { destruct (Z.leb_spec i q), (Z.ltb_spec q (i + Z.of_nat 0)); done || lia. }
  fstep. rewrite (eh_rsn _ _ _ _ Hf), (eh_rounds _ _ _ _ Hf). fold rsn.
  assert (0 <= i * stripe <= rsn * stripe) by nia.
  assert (0 <= rsb * rsn < stripe * rsn) by nia.
  rewrite interleave_spec; [|subst stripe rsn; unfold FEC_RSM in *; destruct Hp; lia..]. fold stripe.
  erewrite run_bind by (apply rs_column_raw; [lia|]; rewrite Z.add_mod, Z.mul_mod, Hm, Hstm, Z.mul_0_r by done; done).
  cbn beta iota zeta. rewrite (run_bind _ _ _ _ _ (IH (i + 1) _ ltac:(lia) ltac:(lia))). cbn beta iota zeta.
  rewrite (seqZ_cons i (Z.of_nat (S n))) by lia. replace (Z.pred (Z.of_nat (S n))) with (Z.of_nat n) by lia.
  rewrite fmap_cons, Z.add_1_r. do 4 f_equal. f_equal.
  destruct (Z.eqb_spec (rsb + i * stripe) (rsb + q * stripe)) as [Heq|Hne].
  - assert (i = q) as -> by nia.
    destruct (Z.leb_spec (Z.succ q) q), (Z.leb_spec q q), (Z.ltb_spec q (q + Z.of_nat (S n))); done || lia.
  - assert (i <> q) by (by intros ->).
    destruct (Z.leb_spec (Z.succ i) q), (Z.leb_spec i q), (Z.ltb_spec q (Z.succ i + Z.of_nat n)), (Z.ltb_spec q (i + Z.of_nat (S n)));
      done || lia.
Qed.

(** The row [i] of the columns is the data of an RS block. *)
Lemma row_of_columns rsb i :
  0 <= i < FEC_BLOCKSIZE ->
  mapM (fun b => znth b i) ((fun j => block_at raw (rsb + j * stripe) FEC_BLOCKSIZE) <$> seqZ 0 rsn) =
  Some (rs_data raw rsn rounds (rsb + i)).
Proof.
  intros Hi. unfold rs_data. apply mapM_Some. generalize (seqZ 0 rsn). intros l. induction l as [|j l IH]; [constructor|].
  cbn. constructor; [|done]. rewrite znth_block_at by done. do 2 f_equal. subst stripe. lia.
Qed.

Lemma decode_rows_raw n i rsb q :
  0 <= rsb -> rsb + FEC_BLOCKSIZE <= stripe -> 0 <= q < rsn -> 0 <= i -> i + Z.of_nat n = FEC_BLOCKSIZE ->
  forall nerrs, exists nerrs', decode_rows n i ((fun j => block_at raw (rsb + j * stripe) FEC_BLOCKSIZE) <$> seqZ 0 rsn)
      rsb q false [] nerrs f =
    Ok (Some (block_at img (rsb + i + q * stripe) (Z.of_nat n), nerrs'), f).
Proof.
  intros Hr0 Hr1 Hq. pose proof stripe_facts as (Hst & Hstm & Hrsn & Hraw & _ & Hsm & Hsr). revert i.
  induction n as [|n IH]; intros i Hi Hn nerrs; cbn [decode_rows]; [by exists nerrs|].
  destruct (IH (i + 1) ltac:(lia) ltac:(lia) (nerrs +u64 0)) as [_ _]. fstep.
  rewrite (eh_roots _ _ _ _ Hf), (eh_start _ _ _ _ Hf).
  pose proof (pr_roots _ _ _ _ Hp) as Hroots. pose proof (pr_disk _ _ _ _ Hp) as Hdisk. fold stripe in Hdisk.
  assert (0 <= (i + rsb) * roots /\ (i + rsb) * roots + roots <= stripe * roots) as [Hk0 Hk1] by nia.
  rewrite (u64_small (zlen img + _)) by (unfold is_u64; pose proof (zlen_nonneg img); lia).
  erewrite run_bind by (apply read_all_ok; pose proof (zlen_nonneg img); lia).
  rewrite row_of_columns by lia. fstep.
  set (w := codeword roots rounds img (rsb + i)).
  assert (Hdec : exists rc, decode_rs_char roots (rs_data raw rsn rounds (rsb + i) ++
      ztake roots (zdrop (zlen img + (i + rsb) * roots) (fd_data f))) [] = (rc, w, []) /\ 0 <= rc <= roots / 2).
  { eexists. split; [apply (Hrs (rs_data img rsn rounds (rsb + i)))|split; [apply zlen_nonneg|]].
    - apply zlen_rs_data. lia.
    - rewrite zlen_app, zlen_rs_data, zlen_ztake by (try rewrite zlen_zdrop; pose proof (zlen_nonneg img); lia).
      subst rsn. lia.
    - rewrite (Z.add_comm i rsb). apply (pr_errors _ _ _ _ Hp). fold stripe. lia.
    - rewrite (Z.add_comm i rsb). apply (pr_errors _ _ _ _ Hp). fold stripe. lia. }
  destruct Hdec as (rc & -> & Hrc). cbn beta iota zeta. destruct (Z.ltb_spec rc 0); [lia|].
  erewrite run_bind by (apply run_check; apply orb_true_iff; right; apply Z.leb_le; lia).
  assert (Hw : znth w q = Some (byte_at img (rsb + i + q * stripe))).
  { subst w. unfold codeword. rewrite znth_app, zlen_rs_data by lia. fold rsn. destruct (Z.ltb_spec q rsn); [|lia].
    by apply znth_rs_data. }
  rewrite Hw. fstep. destruct (IH (i + 1) ltac:(lia) ltac:(lia) (nerrs +u64 rc)) as [nerrs' Hrest].
  rewrite (run_bind _ _ _ _ _ Hrest). cbn beta iota zeta. exists nerrs'. rewrite block_at_cons.
  by replace (rsb + (i + 1) + q * stripe) with (rsb + i + q * stripe + 1) by lia.
Qed.

Lemma ecc_read_block o :
  0 <= o < zlen img -> o mod FEC_BLOCKSIZE = 0 ->
  exists nerrs, __ecc_read o false f = Ok (Some (block_at img o FEC_BLOCKSIZE, nerrs), f).
Proof.
  intros Ho Hm. pose proof stripe_facts as (Hst & Hstm & Hrsn & Hraw & Hle & Hsm & Hsr). unfold __ecc_read. fcheck. fstep.
  rewrite (eh_rounds _ _ _ _ Hf), (eh_rsn _ _ _ _ Hf). fold stripe rsn. unfold FEC_RSM in *.
  rewrite (u64_small stripe) by (unfold is_u64; lia). unfold div_u. destruct (Z.eqb_spec stripe 0); [lia|]. fstep.
  set (q := o / stripe). pose proof (Z.div_mod o stripe ltac:(lia)) as Hdm. fold q in Hdm.
  pose proof (Z.mod_pos_bound o stripe Hst) as Hb.
  assert (Hq : 0 <= q < rsn).
  { split; [apply Z.div_pos; lia|]. apply Z.div_lt_upper_bound; lia. }
  replace (o - q * rounds * FEC_BLOCKSIZE) with (o mod stripe) by (subst stripe; lia).
  rewrite (u64_small (o mod stripe)) by (unfold is_u64; lia). fstep. set (rsb := o mod stripe) in *.
  assert (Hrsb : rsb mod FEC_BLOCKSIZE = 0).
  { apply Z.mod_divide in Hm as [x Hx]; [|done]. apply Z.mod_divide in Hstm as [y Hy]; [|done].
    apply Z.mod_divide; [done|]. exists (x - y * q).
    transitivity (o - stripe * q); [lia|]. clearbody q. rewrite Hx, Hy. ring. }
  assert (rsb + FEC_BLOCKSIZE <= stripe).
  { apply Z.mod_divide in Hrsb as [x Hx]; [|done]. apply Z.mod_divide in Hstm as [y Hy]; [|done]. unfold FEC_BLOCKSIZE in *. lia. }
  pose proof (gather_raw (Z.to_nat rsn) 0 rsb q (-1) ltac:(lia) Hrsb ltac:(lia) ltac:(lia) ltac:(lia)) as Hg.
  replace (rsb + q * stripe) with o in Hg by lia. rewrite (run_bind _ _ _ _ _ Hg). cbn beta iota zeta.
  rewrite Z2Nat.id by lia. rewrite Z.add_0_l.
  destruct (Z.leb_spec 0 q), (Z.ltb_spec q rsn); try lia. cbn [andb]. fcheck.
  destruct (decode_rows_raw (Z.to_nat FEC_BLOCKSIZE) 0 rsb q) with (nerrs := 0) as [nerrs Hrun]; [done || lia..|].
  exists nerrs. rewrite Z.add_0_r in Hrun. replace (rsb + q * stripe) with o in Hrun by lia. exact Hrun.
Qed.

Lemma ecc_read_loop_ok fuel curr coff left_ errors :
  0 <= curr -> 0 <= coff < FEC_BLOCKSIZE -> 0 <= left_ <= Z.of_nat fuel ->
  curr * FEC_BLOCKSIZE + coff + left_ <= zlen img ->
  exists errors', ecc_read_loop fuel curr coff left_ errors f =
    Ok (Some (block_at img (curr * FEC_BLOCKSIZE + coff) left_, errors'), f).
Proof.
  pose proof (pr_disk _ _ _ _ Hp) as Hd. pose proof stripe_facts as (Hst & _). fold stripe in Hd.
  assert (0 <= stripe * roots) by (pose proof (pr_roots _ _ _ _ Hp); nia).
  revert curr coff left_ errors. induction fuel as [|fuel IH]; intros curr coff left_ errors Hc Ho Hl Hin; cbn [ecc_read_loop].
  { destruct (Z.leb_spec left_ 0); [|lia]. exists errors. by assert (left_ = 0) as -> by lia. }
  destruct (Z.leb_spec left_ 0); [exists errors; by assert (left_ = 0) as -> by lia|].
  assert (0 <= curr * FEC_BLOCKSIZE) by (unfold FEC_BLOCKSIZE in *; lia).
  rewrite (u64_small (curr * FEC_BLOCKSIZE)) by (unfold is_u64; clear IH; lia).
  destruct (ecc_read_block (curr * FEC_BLOCKSIZE) ltac:(lia) (Z.mod_mul curr FEC_BLOCKSIZE ltac:(done))) as [nerrs Hrun].
  rewrite (run_bind _ _ _ _ _ Hrun). cbn beta iota zeta. set (copy := Z.min (FEC_BLOCKSIZE - coff) left_).
  rewrite (u64_small (curr + 1)) by (unfold is_u64, FEC_BLOCKSIZE in *; lia).
  assert (Hnext : exists errors', ecc_read_loop fuel (curr + 1) 0 (left_ - copy) (errors +u64 nerrs) f =
    Ok (Some (block_at img (curr * FEC_BLOCKSIZE + coff + copy) (left_ - copy), errors'), f)).
  { destruct (Z.le_gt_cases left_ (FEC_BLOCKSIZE - coff)).
    - replace (left_ - copy) with 0 by lia. exists (errors +u64 nerrs). by destruct fuel.
    - replace (curr * FEC_BLOCKSIZE + coff + copy) with ((curr + 1) * FEC_BLOCKSIZE + 0) by (unfold FEC_BLOCKSIZE in *; lia).
      apply IH; unfold FEC_BLOCKSIZE in *; lia. }
  destruct Hnext as [errors' Hnext]. rewrite (run_bind _ _ _ _ _ Hnext). cbn beta iota zeta. exists errors'.
  rewrite block_at_part by lia. rewrite <- block_at_app by lia. by replace (copy + (left_ - copy)) with left_ by lia.
Qed.

Lemma ecc_read_ok count offset :
  0 < count -> 0 <= offset -> offset + count <= zlen img ->
  exists errors, ecc_read count offset f = Ok (Some (ztake count (zdrop offset img), errors), f).
Proof.
  intros Hc Ho Hin. unfold ecc_read. pose proof (pr_disk _ _ _ _ Hp) as Hd. pose proof stripe_facts as (Hst & _).
  fold stripe in Hd. assert (0 <= stripe * roots) by (pose proof (pr_roots _ _ _ _ Hp); nia).
  fstep. rewrite (eh_data_size _ _ _ _ Hf), u64_small by (unfold is_u64; lia). do 2 fcheck.
  pose proof (Z.div_mod offset FEC_BLOCKSIZE ltac:(done)). pose proof (Z.mod_pos_bound offset FEC_BLOCKSIZE ltac:(done)).
  replace (offset - offset / FEC_BLOCKSIZE * FEC_BLOCKSIZE) with (offset mod FEC_BLOCKSIZE) by lia.
  destruct (ecc_read_loop_ok (Z.to_nat count) (offset / FEC_BLOCKSIZE) (offset mod FEC_BLOCKSIZE) count 0) as [errors Hrun];
    [by apply Z.div_pos|lia|lia|lia|].
  exists errors. rewrite Hrun. do 4 f_equal. rewrite block_at_inside by lia. f_equal. lia.
Qed.
End Block.

End Correct.
