(* ===== verification/FecInstances.v ===== *)
(** Concrete instances of what is outside of libfec, for examples: a device that
    always answers, a machine with four processors, a digest, and a code with 254
    parity bytes, which repeats the byte of data and decodes by majority. *)
From stdpp Require Import base list numbers strings.
From Stdlib Require Import ZArith Lia.
From S2P Require Import Prelude Utils File FecBase FecRead FecEcc.

(** All that is there is read and written at once. *)
Definition whole_kernel : Kernel.
Proof.
  refine {| pread64 file count offset := Z.min count (zlen file - offset);
            pwrite64 _ count _ := count |}.
  - intros. lia.
  - intros. lia.
Defined.

Lemma whole_kernel_reliable : @reads_reliably whole_kernel.
Proof. intros file count offset H1 H2. cbn. lia. Qed.

Definition four_threads : Threads := {| nprocessors := 4; pthread_create _ := true; pthread_join _ := true |}.

(** Not a good digest, but one that tells blocks apart by their sum. *)
Definition sum_digest : Digest.
Proof.
  refine {| sha256 b := le_encode 32 (foldr Z.add 0 b) |}. intros b. apply zlen_le_encode.
Defined.

(** Bytes of an image. *)
Definition sevens (n : Z) : bytes := replicate (Z.to_nat n) 7.

Definition occurrences (b : Z) (l : bytes) : Z := zlen (filter (fun x => x = b) l).

Definition majority (l : bytes) : option Z := snd <$> list_find (fun x => 127 < occurrences x l) l.

Definition repetition_code : ReedSolomon.
Proof.
  refine {| encode_rs_char roots data := replicate (Z.to_nat roots) (default 0 (head data));
            decode_rs_char _ block eras :=
              match majority block with
              | Some b => (zlen block - occurrences b block, replicate (length block) b, eras)
              | None => (-1, block, eras)
              end |}.
  - intros. rewrite zlen_replicate. lia.
  - intros roots block eras. destruct (majority block); [|done]. cbn. by rewrite zlen_replicate.
  - intros roots block eras. by destruct (majority block).
Defined.

Lemma hamming_replicate b l : hamming (replicate (length l) b) l = zlen l - occurrences b l.
Proof.
  unfold hamming, occurrences. induction l as [|x l IH]; [done|]. cbn [length replicate zip zip_with].
  rewrite !filter_cons. destruct (decide ((b, x).1 <> (b, x).2)) as [Hne|Heq], (decide (x = b)) as [->|Hn];
    cbn in *; rewrite ?zlen_cons; try lia; naive_solver lia.
Qed.

Lemma occurrences_pair a b l : a <> b -> occurrences a l + occurrences b l <= zlen l.
Proof.
  intros Hab. unfold occurrences. induction l as [|x l IH]; [done|]. rewrite !filter_cons.
  destruct (decide (x = a)), (decide (x = b)); rewrite ?zlen_cons; congruence || lia.
Qed.

Lemma majority_unique b l : zlen l = FEC_RSM -> 127 < occurrences b l -> majority l = Some b.
Proof.
  intros Hl Hb. unfold majority.
  destruct (list_find (fun x => 127 < occurrences x l) l) as [[i x]|] eqn:E; cbn.
  - apply list_find_Some in E as (_ & Hx & _). destruct (decide (x = b)) as [->|Hne]; [done|].
    pose proof (occurrences_pair x b l Hne). unfold FEC_RSM in *. lia.
  - exfalso. apply list_find_None in E. rewrite Forall_forall in E.
    assert (Hin : b ∈ l); [|by apply (E b)].
    unfold occurrences in Hb. destruct (filter (fun x => x = b) l) as [|y k] eqn:Ef; [by rewrite zlen_nil in Hb|].
    assert (Hy : y ∈ filter (fun x => x = b) l) by (rewrite Ef; left).
    apply list_elem_of_filter in Hy as [-> Hy]. done.
Qed.

Lemma repetition_corrects : @rs_corrects repetition_code 254.
Proof.
  intros data block Hd Hb Hh. unfold FEC_RSM in *. destruct data as [|b [|]]; try (rewrite ?zlen_cons in Hd; unfold zlen in Hd; cbn in Hd; lia).
  change ([b] ++ encode_rs_char 254 [b]) with (replicate 255 b) in *.
  assert (Hlen : length block = 255%nat) by (unfold zlen in Hb; lia).
  rewrite <- Hlen, hamming_replicate in Hh. change (254 / 2) with 127 in *. cbn [decode_rs_char repetition_code].
  rewrite (majority_unique b) by (unfold FEC_RSM; lia). do 2 f_equal; [|by rewrite Hlen].
  rewrite <- hamming_replicate, Hlen. done.
Qed.
