(* ===== verification/FecProcess.v ===== *)
(** The threads of [process] and reads through [fec_pread]: which parts of a range
    the threads read, and that images with few errors are read back. *)
From stdpp Require Import base list numbers strings.
From Stdlib Require Import ZArith Lia.
From S2P Require Import Prelude Utils File FecBase FecRead FecEcc FecInstances.

Lemma round_up_bounds x y : 0 < y -> 0 <= x -> x <= fec_div_round_up x y * y < x + y /\ 0 <= fec_div_round_up x y.
Proof.
  intros Hy Hx. unfold fec_div_round_up. pose proof (Z.div_mod x y ltac:(lia)). pose proof (Z.mod_pos_bound x y Hy).
  pose proof (Z.div_pos x y Hx Hy). destruct (Z.ltb_spec 0 (x mod y)); lia.
Qed.

Section Process.
Context {th : Threads}.

Lemma num_threads_range : WORK_MIN_THREADS <= num_threads <= WORK_MAX_THREADS.
Proof.
  unfold num_threads, WORK_MIN_THREADS, WORK_MAX_THREADS.
  destruct (Z.ltb_spec nprocessors 1); [lia|]. destruct (Z.ltb_spec 64 nprocessors); lia.
Qed.

(** The bytes that a thread reads at most. *)
Definition thread_share (count : Z) : Z := fec_div_round_up (fec_div_round_up count FEC_BLOCKSIZE) num_threads * FEC_BLOCKSIZE.

(** The bytes that all threads together read from [offset] on at most: the first
    one stops at a multiple of the block size. *)
Definition covered (count offset : Z) : Z :=
  fec_div_round_up count (thread_share count) * thread_share count - offset mod FEC_BLOCKSIZE.

Lemma thread_share_bounds count :
  0 < count -> FEC_BLOCKSIZE <= thread_share count < count + FEC_BLOCKSIZE /\
  fec_div_round_up count (thread_share count) <= num_threads /\ thread_share count mod FEC_BLOCKSIZE = 0.
Proof.
  intros Hc. pose proof num_threads_range as Ht. unfold WORK_MIN_THREADS, WORK_MAX_THREADS in *.
  destruct (round_up_bounds count FEC_BLOCKSIZE ltac:(done) ltac:(lia)) as [Hb Hb0].
  set (b := fec_div_round_up count FEC_BLOCKSIZE) in *.
  assert (Ht0 : 0 < num_threads) by lia. destruct (round_up_bounds b num_threads Ht0 Hb0) as [Hs Hs0]. unfold thread_share. fold b.
  set (s := fec_div_round_up b num_threads) in *. unfold FEC_BLOCKSIZE in *.
  assert (1 <= s) by nia. assert (s <= b).
  { apply Z.nlt_ge. intros Hlt. assert (0 <= b * (num_threads - 1)) by nia. assert (0 <= (s - b - 1) * num_threads) by nia. lia. }
  split; [lia|]. split; [|by apply Z.mod_mul].
  destruct (round_up_bounds count (s * 4096) ltac:(lia) ltac:(lia)) as [Hm Hm0].
  set (m := fec_div_round_up count (s * 4096)) in *. nia.
Qed.

Section Threads.
Context (img : bytes) (func : Z -> Z -> F (bytes * Z)) (f : fec_handle) (offset count : Z).
Context (Hfunc : forall c p, 0 < c -> offset <= p -> p + c <= offset + count ->
  exists e, func c p f = Ok (Some (block_at img p c, e), f)).
Context (Hcreate : forall i, pthread_create i = true) (Hjoin : forall i, pthread_join i = true).
Context (Hpos : 0 <= offset) (Hcount : 0 < count) (Hsmall : offset + 3 * count + 2 ^ 20 < 2 ^ 64).

Lemma start_threads_ok n i pos end_ cpt left_ :
  offset <= pos < end_ -> 0 < cpt -> end_ + Z.of_nat n * cpt < 2 ^ 64 ->
  (n = O \/ (end_ - pos) + (Z.of_nat n - 1) * cpt - cpt < left_ /\ 0 < left_) -> 0 <= left_ -> (0 < left_ -> pos + left_ <= offset + count) ->
  let done_ := Z.min left_ ((end_ - pos) + (Z.of_nat n - 1) * cpt) in
  exists results, start_threads func n i pos end_ cpt left_ f =
      Ok (Some (results, true, if bool_decide (n = O) then left_ else left_ - done_), f) /\
    (n <> O -> exists n', forall f0, join_threads results (set_errors f0 f) = Ok (Some (block_at img pos done_, true), set_errors (n' f0) f)) /\
    (n = O -> results = []).
Proof.
  revert i pos end_ left_. induction n as [|n IH]; intros i pos end_ left_ Hp Hcpt Hend Hlast Hl Hin done_.
  { exists []. split; [done|]. by split. }
  destruct Hlast as [|[Hlast Hl0]]; [done|]. cbn [start_threads]. fcheck.
  rewrite (u64_small (end_ - pos)) by (unfold is_u64; nia). set (c := Z.min (end_ - pos) left_).
  rewrite Hcreate. destruct (Hfunc c pos ltac:(lia) ltac:(lia) ltac:(lia)) as [e He].
  erewrite run_bind by (unfold attempt; erewrite run_bind by (rewrite He; reflexivity); reflexivity). cbn beta iota zeta.
  rewrite (u64_small (end_ + cpt)) by (unfold is_u64; nia).
  destruct (IH (i + 1) end_ (end_ + cpt) (left_ - c)) as (results & Hrun & Hjoins & Hnil);
    [lia|lia|lia| |lia|lia|].
  { destruct n as [|n]; [by left|right]. lia. }
  rewrite (run_bind _ _ _ _ _ Hrun). cbn beta iota zeta. exists ((i, Some (block_at img pos c, e)) :: results).
  split.
  { rewrite (bool_decide_false (S n = O)) by done.
    assert (Hleft : (if bool_decide (n = O) then left_ - c else left_ - c - Z.min (left_ - c) (end_ + cpt - end_ + (Z.of_nat n - 1) * cpt))
                    = left_ - done_); [|by rewrite Hleft].
    destruct n as [|n]; [rewrite bool_decide_true by done|rewrite bool_decide_false by done]; subst done_ c; lia. }
  split; [|done]. intros _. cbn [join_threads]. rewrite Hjoin. destruct n as [|n].
  - rewrite (Hnil eq_refl). eexists. intros f0. fstep. fstep. rewrite app_nil_r.
    replace done_ with c by (subst done_ c; lia). reflexivity.
  - destruct (Hjoins ltac:(done)) as [n' Hn']. exists (fun f0 => n' (f0 +u64 e)). intros f0. fstep.
    change (set_errors _ (set_errors f0 f)) with (set_errors (f0 +u64 e) f). rewrite (run_bind _ _ _ _ _ (Hn' _)). cbn beta iota zeta. assert (0 <= Z.of_nat n * cpt) by nia.
    replace end_ with (pos + c) by (subst c; lia). rewrite <- block_at_app by lia.
    replace done_ with (c + Z.min (left_ - c) (pos + c + cpt - (pos + c) + (Z.of_nat (S n) - 1) * cpt)) by (subst done_ c; lia).
    done.
Qed.

Lemma process_run :
  exists n, process count offset func f =
    if covered count offset <? count then Ok (None, f) else Ok (Some (block_at img offset count), set_errors n f).
Proof.
  unfold process. destruct (Z.eqb_spec count 0) as [|_]; [lia|]. fold (thread_share count).
  destruct (thread_share_bounds count Hcount) as (Hcpt & Hmax & _). unfold covered.
  set (cpt := thread_share count) in *. rewrite (u64_small cpt) by (unfold is_u64, FEC_BLOCKSIZE in *; lia).
  destruct (round_up_bounds count cpt ltac:(unfold FEC_BLOCKSIZE in *; lia) ltac:(lia)) as [Hn Hn0].
  set (n := fec_div_round_up count cpt) in *.
  assert (Hthreads : (if n <? num_threads then n else num_threads) = n) by (destruct (Z.ltb_spec n num_threads); lia).
  rewrite Hthreads. pose proof (Z.div_mod offset FEC_BLOCKSIZE ltac:(done)) as Hdm.
  pose proof (Z.mod_pos_bound offset FEC_BLOCKSIZE ltac:(done)) as Hb. set (delta := offset mod FEC_BLOCKSIZE) in *.
  replace (offset / FEC_BLOCKSIZE * FEC_BLOCKSIZE) with (offset - delta) by lia.
  rewrite (u64_small (offset - delta + cpt)) by (unfold is_u64, FEC_BLOCKSIZE in *; lia).
  assert (1 <= n) by (unfold FEC_BLOCKSIZE in *; nia).
  destruct (start_threads_ok (Z.to_nat n) 0 offset (offset - delta + cpt) cpt count) as (results & Hrun & Hjoins & _);
    [unfold FEC_BLOCKSIZE in *; lia..| |lia|lia|].
  { right. unfold FEC_BLOCKSIZE in *. lia. }
  rewrite (run_bind _ _ _ _ _ Hrun). cbn beta iota zeta. rewrite bool_decide_false by lia. clear Hrun.
  rewrite Z2Nat.id in * by lia. replace (offset - delta + cpt - offset + (n - 1) * cpt) with (n * cpt - delta) in * by lia.
  destruct (Z.ltb_spec (n * cpt - delta) count) as [Hlt|Hge].
  - exists 0. rewrite Z.min_r by lia. unfold check. destruct (Z.eqb_spec (count - (n * cpt - delta)) 0); [lia|]. done.
  - rewrite Z.min_l in * by lia. rewrite Z.sub_diag. fstep. destruct (Hjoins ltac:(lia)) as [n' Hj].
    exists (n' (h_errors f)). specialize (Hj (h_errors f)).
    replace (set_errors (h_errors f) f) with f in Hj by by destruct f.
    rewrite (run_bind _ _ _ _ _ Hj). cbn beta iota zeta. by fstep.
Qed.
End Threads.
End Process.

Lemma covered_aligned `{!Threads} count offset : 0 < count -> offset mod FEC_BLOCKSIZE = 0 -> count <= covered count offset.
Proof.
  intros Hc Ho. unfold covered. rewrite Ho. destruct (thread_share_bounds count Hc) as [Hs _].
  assert (Hs0 : 0 < thread_share count) by (unfold FEC_BLOCKSIZE in *; lia).
  pose proof (round_up_bounds count (thread_share count) Hs0 ltac:(lia)). lia.
Qed.

(** * Reading an image with codes *)

Section Pread.
Context {dg : Digest} {rs : ReedSolomon} {kn : Kernel} {th : Threads}.
Context (Hkn : reads_reliably) (Hcreate : forall i, pthread_create i = true) (Hjoin : forall i, pthread_join i = true).

(** A read of the image: corrected when the threads cover it, and raw otherwise. *)
Lemma fec_pread_ecc roots rounds img f offset count :
  rs_corrects roots -> protected roots rounds img (fd_data f) -> ecc_handle roots rounds img f -> zlen img < h_size f ->
  0 <= offset -> 0 < count -> offset + count <= zlen img ->
  exists n, fec_pread count offset f =
    if covered count offset <? count then Ok (Some (ztake count (zdrop offset (fd_data f))), f)
    else Ok (Some (ztake count (zdrop offset img)), set_errors n f).
Proof.
  intros Hrs Hp Hf Hsize Ho Hc Hin. pose proof (pr_disk _ _ _ _ Hp) as Hd. pose proof (pr_roots _ _ _ _ Hp).
  pose proof (pr_rounds _ _ _ _ Hp) as [Hr _].
  assert (0 <= rounds * FEC_BLOCKSIZE * roots) by (unfold FEC_BLOCKSIZE; nia).
  unfold fec_pread, UINT64_MAX. erewrite run_bind by (apply run_check, negb_true_iff, Z.ltb_ge; lia).
  fstep. rewrite (eh_hash _ _ _ _ Hf), (eh_start _ _ _ _ Hf), (eh_data_size _ _ _ _ Hf).
  pose proof (pr_some _ _ _ _ Hp). destruct (Z.eqb_spec (zlen img) 0) as [|_]; [lia|]. cbn [negb]. fcheck.
  assert (Hget : get_max_count offset count (zlen img) = count).
  { unfold get_max_count. destruct (Z.leb_spec (zlen img) offset); [lia|].
    rewrite u64_small by (unfold is_u64; lia). destruct (Z.ltb_spec (zlen img - count) offset); [lia|done]. }
  rewrite Hget. destruct (process_run img ecc_read f offset count) as [n Hrun]; [|done..|lia|].
  { intros c p Hc0 Hp0 Hp1. destruct (ecc_read_ok Hkn roots rounds img f Hp Hf Hrs c p) as [e He]; [lia..|].
    exists e. rewrite He. by rewrite block_at_inside by lia. }
  exists n. destruct (covered count offset <? count).
  - erewrite run_bind by (unfold attempt; rewrite Hrun; reflexivity). cbn beta iota. by rewrite (read_all_ok Hkn) by lia.
  - erewrite run_bind by (unfold attempt; rewrite Hrun; reflexivity). cbn beta iota. by rewrite block_at_inside by lia.
Qed.
End Pread.

(** Reading a range of an image through [fec_pread] gives the bytes of the
    original image, whatever the errors on the disk, as long as no RS block, whose
    bytes are spread over the image and its codes by the interleaving, has more
    errors than half of its parity bytes; this holds for any number of processors
    and any sizes of partial reads, and for all ranges that the threads cover,
    those with an aligned start among them. *)
Theorem fec_pread_corrects {dg : Digest} {rs : ReedSolomon} {kn : Kernel} {th : Threads} roots rounds img f offset count :
  reads_reliably -> (forall i, pthread_create i = true) -> (forall i, pthread_join i = true) -> rs_corrects roots ->
  protected roots rounds img (fd_data f) -> ecc_handle roots rounds img f -> zlen img < h_size f ->
  0 <= offset -> 0 < count -> offset + count <= zlen img -> count <= covered count offset ->
  exists n, fec_pread count offset f = Ok (Some (ztake count (zdrop offset img)), set_errors n f).
Proof.
  intros Hkn Hc Hj Hrs Hp Hf Hs Ho Hn Hin Hcov.
  destruct (fec_pread_ecc Hkn Hc Hj roots rounds img f offset count) as [n Hrun]; [done..|].
  exists n. rewrite Hrun. destruct (Z.ltb_spec (covered count offset) count); [lia|done].
Qed.

(** The number of threads and their shares are computed from the length of a
    read, but the first thread stops at a multiple of the block size.  So for a read
    that does not start on a block boundary and whose length is a multiple of the
    share of a thread, the shares do not cover the read: on a handle with error
    correction and without hashes, with a disk whose errors can all be corrected,
    reads that make progress and threads that can be created and joined,
    [fec_pread] inside of the image returns the bytes on the disk, with all their
    errors, although it could correct them. *)
Theorem fec_pread_unaligned {dg : Digest} {rs : ReedSolomon} {kn : Kernel} {th : Threads} roots rounds img f offset count :
  reads_reliably -> (forall i, pthread_create i = true) -> (forall i, pthread_join i = true) -> rs_corrects roots ->
  protected roots rounds img (fd_data f) -> ecc_handle roots rounds img f -> zlen img < h_size f ->
  0 <= offset -> 0 < count -> offset + count <= zlen img ->
  offset mod FEC_BLOCKSIZE <> 0 -> count mod thread_share count = 0 ->
  fec_pread count offset f = Ok (Some (ztake count (zdrop offset (fd_data f))), f).
Proof.
  intros Hkn Hc Hj Hrs Hp Hf Hs Ho Hn Hin Hun Hm.
  destruct (fec_pread_ecc Hkn Hc Hj roots rounds img f offset count) as [n Hrun]; [done..|].
  rewrite Hrun. unfold covered. destruct (thread_share_bounds count Hn) as [Hb _].
  unfold fec_div_round_up. rewrite Hm. change (0 <? 0) with false. cbn iota. rewrite Z.add_0_r.
  pose proof (Z.mod_pos_bound offset FEC_BLOCKSIZE ltac:(done)).
  assert (Hs0 : thread_share count <> 0) by (unfold FEC_BLOCKSIZE in *; lia).
  pose proof (Z.div_mod count (thread_share count) Hs0).
  destruct (Z.ltb_spec (count / thread_share count * thread_share count - offset mod FEC_BLOCKSIZE) count); [done|lia].
Qed.

(** An image of [n] blocks of zeros with 254 parity bytes for each byte, and an
    error in its first byte. *)
Definition zeros (n : Z) : bytes := replicate (Z.to_nat n) 0.
Definition bad_disk (n : Z) : bytes := 7 :: zeros (255 * (n * FEC_BLOCKSIZE) - 1).
Definition zero_verity : verity_info :=
  VerityInfo false None 0 0 0 0 None 0 None 0 0 [] (VerityHeader 0 0 [] 0) (VerityHeader 0 0 [] 0).
Definition bad_handle (n : Z) : fec_handle :=
  FecHandle (EccInfo true 254 1 (254 * (n * FEC_BLOCKSIZE)) n n (n * FEC_BLOCKSIZE)) (bad_disk n) 0 O_RDONLY 0
    (n * FEC_BLOCKSIZE) 0 (255 * (n * FEC_BLOCKSIZE)) zero_verity.

Lemma zlen_zeros n : 0 <= n -> zlen (zeros n) = n.
Proof. intros. unfold zeros. rewrite zlen_replicate. lia. Qed.

Lemma byte_at_zeros n o : byte_at (zeros n) o = 0.
Proof.
  unfold byte_at, znth, zeros. destruct (o <? 0); [done|].
  destruct (replicate (Z.to_nat n) 0 !! Z.to_nat o) as [x|] eqn:E; [|done]. by apply lookup_replicate in E as [-> _].
Qed.

Lemma hamming_head x y l : hamming (x :: l) (y :: l) <= 1.
Proof.
  assert (H : hamming l l = 0).
  { unfold hamming. induction l as [|z l IH]; [done|]. cbn [zip_with]. rewrite filter_cons. by destruct (decide _). }
  unfold hamming in *. cbn [zip_with]. rewrite filter_cons. destruct (decide _); rewrite ?zlen_cons; lia.
Qed.

Lemma bad_disk_protected n : 0 < n < 2 ^ 20 -> @protected repetition_code 254 n (zeros (n * FEC_BLOCKSIZE)) (bad_disk n).
Proof.
  intros Hn. assert (Hz : zlen (bad_disk n) = 255 * (n * FEC_BLOCKSIZE)).
  { unfold bad_disk. rewrite zlen_cons, zlen_zeros by (unfold FEC_BLOCKSIZE; lia). lia. }
  split; rewrite ?zlen_zeros by (unfold FEC_BLOCKSIZE; lia); unfold FEC_RSM;
    try (rewrite ?Hz; unfold FEC_BLOCKSIZE; lia); [by apply Z.mod_mul|].
  intros k Hk. unfold codeword, disk_word, FEC_RSM. change (255 - 254) with 1.
  unfold rs_data. change (seqZ 0 1) with [0]. cbn [fmap list_fmap]. rewrite Z.mul_0_l, Z.add_0_r, byte_at_zeros.
  assert (Htail : ztake 254 (zdrop (n * FEC_BLOCKSIZE + k * 254) (bad_disk n)) = replicate 254 0).
  { unfold bad_disk. change (7 :: ?l) with ([7] ++ l).
    rewrite zdrop_app_ge by (change (zlen [7]) with 1; unfold FEC_BLOCKSIZE in *; lia).
    unfold ztake, zdrop, zeros. rewrite drop_replicate, take_replicate. f_equal.
    change (zlen [7]) with 1. unfold FEC_BLOCKSIZE in *. lia. }
  rewrite Htail. etransitivity; [apply hamming_head|]. done.
Qed.

Lemma bad_handle_ecc n : 0 < n -> ecc_handle 254 n (zeros (n * FEC_BLOCKSIZE)) (bad_handle n).
Proof. intros. split; try done; by rewrite zlen_zeros by (unfold FEC_BLOCKSIZE; lia). Qed.

Lemma fec_pread_corrects_witness :
  exists n, @fec_pread sum_digest repetition_code whole_kernel four_threads 4096 0 (bad_handle 1) =
    Ok (Some (zeros 4096), set_errors n (bad_handle 1)).
Proof.
  destruct (@fec_pread_corrects sum_digest repetition_code whole_kernel four_threads 254 1 (zeros (1 * FEC_BLOCKSIZE))
    (bad_handle 1) 0 4096 whole_kernel_reliable (fun _ => eq_refl) (fun _ => eq_refl) repetition_corrects
    (bad_disk_protected 1 ltac:(lia)) (bad_handle_ecc 1 ltac:(lia))) as [n Hn].
  - by rewrite zlen_zeros.
  - lia.
  - lia.
  - by rewrite zlen_zeros.
  - by vm_compute.
  - exists n. exact Hn.
Defined.

Lemma fec_pread_unaligned_witness :
  @fec_pread sum_digest repetition_code whole_kernel four_threads 4096 100 (bad_handle 2) =
    Ok (Some (ztake 4096 (zdrop 100 (bad_disk 2))), bad_handle 2).
Proof.
  refine (@fec_pread_unaligned sum_digest repetition_code whole_kernel four_threads 254 2 (zeros (2 * FEC_BLOCKSIZE))
    (bad_handle 2) 100 4096 whole_kernel_reliable (fun _ => eq_refl) (fun _ => eq_refl) repetition_corrects
    (bad_disk_protected 2 ltac:(lia)) (bad_handle_ecc 2 ltac:(lia)) _ _ _ _ _ _).
  - by rewrite zlen_zeros.
  - lia.
  - lia.
  - rewrite zlen_zeros by done. unfold FEC_BLOCKSIZE. lia.
  - by vm_compute.
  - by vm_compute.
Defined.
