(* ===== verification/FecVerity.v ===== *)
(** Model of src/libfec/fec_verity.cpp: the size of a hash tree, its verification
    against a root hash, and the metadata with the table of parameters. *)
From stdpp Require Import base list numbers strings.
From Stdlib Require Import ZArith Lia.
From S2P Require Import Prelude Utils File FecBase FecRead.

(** * Numbers in text *)

(** <ctype.h> in the C locale *)
Definition isspace (c : Z) : bool := (c =? 32) || ((9 <=? c) && (c <=? 13)).
Definition tolower (c : Z) : Z := if (65 <=? c) && (c <=? 90) then c + 32 else c.

(** The value of a hex digit, or -1. *)
Definition hextobin (c : Z) : Z :=
  if (48 <=? c) && (c <=? 57) then c - 48
  else if (97 <=? c) && (c <=? 102) then c - 97 + 10
  else -1.

(** The loop of [parse_hex], [size] bytes to go; the caller has checked that there
    are twice as many characters. *)
Fixpoint parse_hex_loop (size : nat) (src : bytes) : option bytes :=
  match size, src with
  | O, _ => Some []
  | S size, h :: l :: src =>
      let h := hextobin (tolower h) in
      let l := hextobin (tolower l) in
      if (0 <=? l) && (0 <=? h)
      then cons (Z.lor (Z.shiftl h 4) l) <$> parse_hex_loop size src
      else None
  | _, _ => None
  end.

Definition parse_hex (size : Z) (src : bytes) : option bytes :=
  if u32 (2 * size) =? zlen src then parse_hex_loop (Z.to_nat size) src else None.

(** [strtoull(src, &end, 0)]: the value, whether it was out of range, and the rest
    of the string; the whole string is the rest when there is no number. *)
Definition digit_of (c : Z) : Z :=
  let c := tolower c in
  if (48 <=? c) && (c <=? 57) then c - 48 else if (97 <=? c) && (c <=? 122) then c - 87 else 36.

Fixpoint strtoull_digits (base acc : Z) (s : bytes) : Z * bytes :=
  match s with
  | c :: s' => if digit_of c <? base then strtoull_digits base (acc * base + digit_of c) s' else (acc, s)
  | [] => (acc, [])
  end.

Fixpoint skip_isspace (s : bytes) : bytes :=
  match s with c :: s' => if isspace c then skip_isspace s' else s | [] => [] end.

Definition strtoull_unsigned (s : bytes) : option (Z * bytes) :=
  match s with
  | c :: _ =>
      if digit_of c <? 10 then
        if c =? 48 then
          match s with
          | _ :: x :: d :: _ =>
              if (tolower x =? 120) && (digit_of d <? 16) then Some (strtoull_digits 16 0 (zdrop 2 s))
              else Some (strtoull_digits 8 0 s)
          | _ => Some (strtoull_digits 8 0 s)
          end
        else Some (strtoull_digits 10 0 s)
      else None
  | [] => None
  end.

Definition strtoull (src : bytes) : Z * bool * bytes :=
  let s := skip_isspace src in
  let '(neg, s) := match s with
                   | 43 :: s => (false, s)
                   | 45 :: s => (true, s)
                   | _ => (false, s)
                   end in
  match strtoull_unsigned s with
  | None => (0, false, src)
  | Some (n, rest) =>
      if UINT64_MAX <? n then (UINT64_MAX, true, rest)
      else (if neg : bool then u64 (- n) else n, false, rest)
  end.

Definition parse_uint64 (src : bytes) (maxval : Z) : option Z :=
  let '(value, erange, rest) := strtoull src in
  if bool_decide (src = []) || negb (bool_decide (rest = [])) || (erange && (value =? UINT64_MAX)) then None
  else if negb (maxval =? 0) && (maxval <? value) then None
  else Some value.

(** * The size of the tree *)

(** [do ... while (hashes > 1)]: the number of hashes on each level from the data
    up, and the number of hash blocks.  Each level has at most half the hashes of
    the one below it, so that 64 levels are enough. *)
Fixpoint tree_levels (fuel : nat) (hashes : Z) : list Z * Z :=
  match fuel with
  | O => ([], 0)
  | S fuel =>
      let blocks := fec_div_round_up (u64 (hashes * SHA256_DIGEST_LENGTH)) FEC_BLOCKSIZE in
      let '(levels, total) := if 1 <? blocks then tree_levels fuel blocks else ([], 0) in
      (u32 hashes :: levels, blocks + total)
  end.

(** [verity_get_size]: the size, and the number of hashes on each level. *)
Definition verity_get_size (file_size : Z) : Z * list Z :=
  let '(levels, total) := tree_levels 64 (file_size / FEC_BLOCKSIZE) in (u64 (total * FEC_BLOCKSIZE), levels).

Section Verity.
Context {dg : Digest} {rs : ReedSolomon} {kn : Kernel} {th : Threads}.

(** The function [android::base::Split]. *)
Context (Split : bytes -> bytes -> list bytes).

(** What memory that was not written contains. *)
Context (junk : nat -> Z).

(** * Verifying the tree *)

(** A read through [fec_pread] that must be complete. *)
Definition fec_pread_all (count offset : Z) : F bytes :=
  data ← fec_pread count offset; check (zlen data =? count);; mret data.

(** [ecc_read_hashes]: the hash, if one is wanted, and the block. *)
Definition ecc_read_hashes (hash_offset : option Z) (data_offset : Z) : F (bytes * bytes) :=
  hash ← (match hash_offset with Some o => fec_pread_all SHA256_DIGEST_LENGTH o | None => mret [] end);
  data ← fec_pread_all FEC_BLOCKSIZE data_offset;
  mret (hash, data).

(** A corrected block is written back in r/w mode. *)
Definition rewrite (data : bytes) (offset : Z) : F unit :=
  f ← handle;
  if negb (Z.land (h_mode f) O_RDWR =? 0) then ok ← raw_pwrite data offset; check ok else mret tt.

Definition verify_root (root : bytes) (hash_offset : Z) : F unit :=
  '(ok, data) ← raw_pread FEC_BLOCKSIZE hash_offset;
  f ← handle;
  if (ok : bool) && verity_check_block (verity f) root data then mret tt
  else
    '(_, data) ← ecc_read_hashes None hash_offset;
    f ← handle;
    check (verity_check_block (verity f) root data);; rewrite data hash_offset.

(** A block of the tree and its hash. *)
Definition verify_hash_block (hash_offset data_offset : Z) : F bytes :=
  hash ← read_all SHA256_DIGEST_LENGTH hash_offset;
  data ← read_all FEC_BLOCKSIZE data_offset;
  f ← handle;
  if verity_check_block (verity f) hash data then mret data
  else
    '(hash, data) ← ecc_read_hashes (Some hash_offset) data_offset;
    f ← handle;
    check (verity_check_block (verity f) hash data);;
    rewrite hash hash_offset;; rewrite data data_offset;; mret data.

(** [for (uint32_t j = 0; j < blocks; ++j)], with [n] blocks to go; the blocks of
    the lowest level of the tree are copied to [data_hashes]. *)
Fixpoint verify_blocks (n : nat) (j blocks hash_offset data_offset : Z) (data_hashes : bytes) : F bytes :=
  match n with
  | O => mret data_hashes
  | S n =>
      data ← verify_hash_block (hash_offset +u64 u32 (j * SHA256_DIGEST_LENGTH)) (data_offset +u64 u32 (j * FEC_BLOCKSIZE));
      f ← handle;
      data_hashes ← (if blocks =? v_hash_data_blocks (verity f)
                     then access (mem_write data_hashes (u32 (j * FEC_BLOCKSIZE)) data)
                     else mret data_hashes);
      verify_blocks n (j + 1) blocks hash_offset data_offset data_hashes
  end.

(** [for (uint32_t i = 1; i < levels; ++i)]: the numbers of blocks on the levels
    below the root block, from the top. *)
Fixpoint verify_levels (levels : list Z) (hash_offset data_offset : Z) (data_hashes : bytes) : F bytes :=
  match levels with
  | [] => mret data_hashes
  | blocks :: levels =>
      data_hashes ← verify_blocks (Z.to_nat blocks) 0 blocks hash_offset data_offset data_hashes;
      verify_levels levels data_offset (data_offset +u64 u32 (blocks * FEC_BLOCKSIZE)) data_hashes
  end.

(** The loop that finds the data hashes. *)
Fixpoint find_data_hashes (levels : list Z) (data_offset : Z) : F unit :=
  match levels with
  | [] => mret tt
  | blocks :: levels =>
      update_verity (set_hash_data blocks data_offset);;
      find_data_hashes levels (data_offset +u64 u32 (blocks * FEC_BLOCKSIZE))
  end.

Definition verify_tree (root : bytes) : F unit :=
  f ← handle;
  let '(hash_size, hashes) := verity_get_size (u64 (v_data_blocks (verity f) * FEC_BLOCKSIZE)) in
  update_verity (set_hash_size (u32 hash_size));;
  let hash_start := v_hash_start (verity f) in
  check (hash_start <? UINT64_MAX - u32 hash_size);;
  check (hash_start +u64 u32 hash_size <=? h_data_size f);;
  let data_offset := hash_start +u64 FEC_BLOCKSIZE in
  update_verity (fun v => set_hash_data (v_hash_data_blocks v) data_offset v);;
  verify_root root hash_start;;
  let levels := rev (tail hashes) in
  find_data_hashes levels data_offset;;
  f ← handle;
  let blocks := v_hash_data_blocks (verity f) in
  let offset := v_hash_data_offset (verity f) in
  check (negb (blocks =? 0));;
  check (blocks <=? v_hash_size (verity f) / FEC_BLOCKSIZE);;
  check (negb (offset =? 0));;
  check (offset <=? UINT64_MAX - u32 (blocks * FEC_BLOCKSIZE));;
  check (offset <? h_data_size f);;
  check (offset +u64 u32 (blocks * FEC_BLOCKSIZE) <=? h_data_size f);;
  data_hashes ← verify_levels levels hash_start data_offset (new_char junk (u32 (blocks * FEC_BLOCKSIZE)));
  update_verity (set_hash (Some data_hashes)).

(** * The table *)

(** [switch (i++)] for each token: the number of tokens, the root hash and the
    salt. *)
Fixpoint parse_tokens (tokens : list bytes) (i : Z) (root : bytes) (salt : option bytes) : F (Z * bytes * option bytes) :=
  match tokens with
  | [] => mret (i, root, salt)
  | token :: tokens =>
      f ← handle;
      '(root, salt) ←
        (if i =? 0 then check (bool_decide (token = str "1"));; mret (root, salt)
         else if (i =? 3) || (i =? 4) then check (bool_decide (token = str "4096"));; mret (root, salt)
         else if i =? 5 then
           match parse_uint64 token (h_data_size f / FEC_BLOCKSIZE) with
           | Some n => update_verity (set_data_blocks n);; mret (root, salt)
           | None => fail
           end
         else if i =? 6 then
           match parse_uint64 token (h_data_size f / FEC_BLOCKSIZE) with
           | Some n => update_verity (set_hash_start (u64 (n * FEC_BLOCKSIZE)));; mret (root, salt)
           | None => fail
           end
         else if i =? 7 then check (bool_decide (token = str "sha256"));; mret (root, salt)
         else if i =? 8 then
           match parse_hex SHA256_DIGEST_LENGTH token with Some r => mret (r, salt) | None => fail end
         else if i =? 9 then
           update_verity (set_salt_size (u32 (zlen token)));;
           check (u32 (zlen token) mod 2 =? 0);;
           update_verity (set_salt_size (u32 (zlen token) / 2));;
           match parse_hex (u32 (zlen token) / 2) token with Some s => mret (root, Some s) | None => fail end
         else mret (root, salt));
      parse_tokens tokens (i + 1) root salt
  end.

Definition parse_table (offset size : Z) (useecc : bool) : F unit :=
  check (VERITY_MIN_TABLE_SIZE <=? size);;
  check (size <=? VERITY_MAX_TABLE_SIZE);;
  table ← (if useecc then fec_pread_all size offset else read_all size offset);
  '(i, root, salt) ← parse_tokens (Split (c_str table) (str " ")) 0 (new_char junk SHA256_DIGEST_LENGTH) None;
  check (VERITY_TABLE_ARGS <=? i);;
  f ← handle;
  let v := verity f in
  check (v_hash_start v <? h_data_size f);;
  check (v_data_blocks v =? (if v_metadata_start v <? v_hash_start v then v_metadata_start v else v_hash_start v) / FEC_BLOCKSIZE);;
  update_verity (set_salt salt);;
  update_verity (set_table (Some (table ++ [0])));;
  if Z.land (h_flags f) FEC_VERITY_DISABLE =? 0 then
    verify_tree root;;
    f ← handle;
    check (bool_decide (is_Some (v_hash (verity f))));;
    match verity_hash (verity f) (replicate (Z.to_nat FEC_BLOCKSIZE) 0) with
    | Some h => update_verity (set_zero_hash h)
    | None => fail
    end
  else mret tt.

(** * The metadata *)

(** The result of [raw_pwrite], a bool, is returned as an int: 0 or 1. *)
Definition rewrite_metadata (offset : Z) : F bool :=
  f ← handle;
  check (VERITY_METADATA_SIZE <? h_data_size f);;
  check (offset <=? h_data_size f - VERITY_METADATA_SIZE);;
  match v_table (verity f) with
  | None => fail
  | Some t =>
      let table := c_str t in
      check (sizeof verity_header_codec + zlen table <=? VERITY_METADATA_SIZE);;
      let data := enc verity_header_codec (v_header (verity f)) ++ table in
      raw_pwrite (data ++ replicate (Z.to_nat (VERITY_METADATA_SIZE - zlen data)) 0) offset
  end.

(** Whether [validate_header] returns 0. *)
Definition validate_header (data_size : Z) (h : verity_header) (offset : Z) : bool :=
  ((vh_magic h =? VERITY_MAGIC) || (vh_magic h =? VERITY_MAGIC_DISABLE)) &&
  (vh_version h =? VERITY_VERSION) &&
  negb ((vh_length h <? VERITY_MIN_TABLE_SIZE) || (VERITY_MAX_TABLE_SIZE <? vh_length h)) &&
  negb (UINT64_MAX - vh_length h <? offset) &&
  negb (data_size <=? offset + vh_length h).

Definition verity_parse_header (offset : Z) : F unit :=
  f ← handle;
  check (VERITY_METADATA_SIZE <? h_data_size f);;
  check (negb (h_data_size f - VERITY_METADATA_SIZE <? offset));;
  let errors := h_errors f in
  raw ← read_all (sizeof verity_header_codec) offset;
  let header := dec verity_header_codec raw in
  update_verity (fun v => set_headers header (v_ecc_header v) v);;
  (if vh_magic header =? VERITY_MAGIC_DISABLE then update_verity (set_disabled true) else mret tt);;
  fixed ← fec_pread_all (sizeof verity_header_codec) offset;
  let ecc_header := dec verity_header_codec fixed in
  update_verity (fun v => set_headers (v_header v) ecc_header v);;
  f ← handle;
  (if validate_header (h_data_size f) header offset then mret tt
   else
     check (validate_header (h_data_size f) ecc_header offset);;
     update_verity (fun v =>
       set_headers (VerityHeader (if v_disabled v then vh_magic header else vh_magic ecc_header) (vh_version ecc_header)
                      (vh_signature header) (vh_length ecc_header)) ecc_header v));;
  update_verity (set_metadata_start offset);;
  f ← handle;
  let table := offset +u64 sizeof verity_header_codec in
  let length := vh_length (v_header (verity f)) in
  r ← attempt (parse_table table length false);
  (match r with Some _ => mret tt | None => parse_table table length true end);;
  f ← handle;
  (if negb (Z.land (h_mode f) O_RDWR =? 0) && (errors <? h_errors f)
   then attempt (rewrite_metadata offset);; mret tt else mret tt);;
  update (fun f => set_data_size (if v_metadata_start (verity f) <? v_hash_start (verity f)
                                  then v_metadata_start (verity f) else v_hash_start (verity f)) f).

Definition fec_verity_set_status (enabled : bool) : F unit :=
  f ← handle;
  check (negb (Z.land (h_mode f) O_RDWR =? 0));;
  check (negb (v_metadata_start (verity f) =? 0));;
  if bool_decide (v_disabled (verity f) = negb enabled) then mret tt
  else
    ok ← raw_pwrite (enc uint32_t (if enabled then VERITY_MAGIC else VERITY_MAGIC_DISABLE)) (v_metadata_start (verity f));
    check ok;; update_verity (set_disabled (negb enabled)).

End Verity.
