(* ===== verification/FecOpen.v ===== *)
(** Model of src/libfec/fec_open.cpp, and of the parsers of superblocks that it
    calls (src/ext4_utils/ext4_sb.c, src/squashfs_utils/squashfs_utils.c):
    finding the codes and the verity metadata of an image. *)
From stdpp Require Import base list numbers strings.
From Stdlib Require Import ZArith Lia.
From S2P Require Import Prelude Utils File FecBase FecRead FecVerity.

(** * Finding an offset by its size *)

(** [while (lo < hi)] of [find_offset]; a turn makes the interval smaller by at
    least half of it. *)
Fixpoint find_offset_loop (fuel : nat) (get_real_size : Z -> Z) (file_size lo hi : Z) : option Z :=
  if lo <? hi then
    match fuel with
    | O => None
    | S fuel =>
        let mi := u64 (u64 (hi + lo) / (2 * FEC_BLOCKSIZE) * FEC_BLOCKSIZE) in
        let total := mi +u64 get_real_size mi in
        if total <? file_size then find_offset_loop fuel get_real_size file_size (mi +u64 FEC_BLOCKSIZE) hi
        else if file_size <? total then find_offset_loop fuel get_real_size file_size lo mi
        else Some mi
    end
  else None.

Definition find_offset (file_size : Z) (get_appr_size get_real_size : Z -> Z) : option Z :=
  if negb (file_size mod FEC_BLOCKSIZE =? 0) then None
  else
    let mi := get_appr_size file_size in
    find_offset_loop 66 get_real_size file_size (file_size -u64 u64 (mi * 2)) (file_size -u64 mi / 2).

Definition get_verity_size (size : Z) : Z := VERITY_METADATA_SIZE +u64 (verity_get_size size).1.

Definition find_verity_offset (f : fec_handle) : option Z :=
  find_offset (h_data_size f) get_verity_size get_verity_size.

(** * Superblocks *)

(** A field of [n] bytes at offset [o] of a buffer. *)
Definition le_field (b : bytes) (o n : Z) : Z := le_decode (ztake n (zdrop o b)).

Definition EXT4_SUPER_MAGIC : Z := 0xEF53.
Definition sizeof_ext4_super_block : Z := 1024.

(** What [ext4_parse_sb] sets of struct fs_info. *)
Record sb_info := SbInfo {
  sb_block_size : Z; sb_blocks_per_group : Z; sb_inodes_per_group : Z; sb_inode_size : Z; sb_inodes : Z;
  sb_feat_ro_compat : Z; sb_feat_compat : Z; sb_feat_incompat : Z; sb_bg_desc_reserve_blocks : Z; sb_label : bytes; sb_len : Z;
}.

(** [ext4_parse_sb] for the superblock [sb]; [None] is -EINVAL. *)
Definition ext4_parse_sb (sb : bytes) : option sb_info :=
  if negb (le_field sb 56 2 =? EXT4_SUPER_MAGIC) then None
  else
    let block_size := u32 (Z.shiftl 1024 (le_field sb 24 4)) in
    let len_blocks := u64 (Z.shiftl (le_field sb 336 4) 32 + le_field sb 4 4) in
    Some (SbInfo block_size (le_field sb 32 4) (le_field sb 40 4) (le_field sb 88 2) (le_field sb 0 4)
            (le_field sb 100 4) (le_field sb 92 4) (le_field sb 96 4) (le_field sb 206 2) (ztake 16 (zdrop 120 sb))
            (u64 (block_size * len_blocks))).

(** The layout of a squashfs superblock, which squashfs_fs.h defines. *)
Class SquashfsFormat := {
  SQUASHFS_MAGIC : Z;
  squashfs_get_sb_size : Z;
  sq_magic : bytes -> Z;
  sq_bytes_used : bytes -> Z;
}.

(** [squashfs_parse_sb_buffer]: [bytes_used_4K_padded]. *)
Definition squashfs_parse_sb_buffer `{!SquashfsFormat} (buf : bytes) : option Z :=
  if negb (sq_magic buf =? SQUASHFS_MAGIC) then None
  else Some (sq_bytes_used buf +u64 (4096 - Z.land (sq_bytes_used buf) (4096 - 1))).

Section Open.
Context {dg : Digest} {rs : ReedSolomon} {kn : Kernel} {th : Threads} {sq : SquashfsFormat}.
Context (Split : bytes -> bytes -> list bytes) (junk : nat -> Z).

(** * Codes *)

(** The loop that hashes the codes: what is read, [FEC_BLOCKSIZE] bytes at a
    time. *)
Fixpoint read_codes (fuel : nat) (start n size : Z) : F bytes :=
  if n <? size then
    match fuel with
    | O => access OutOfBounds
    | S fuel =>
        let len := Z.min FEC_BLOCKSIZE (size - n) in
        data ← read_all len (start +u64 n);
        rest ← read_codes fuel start (n +u32 len) size;
        mret (data ++ rest)
    end
  else mret [].

Definition parse_ecc_header (offset : Z) : F unit :=
  f ← handle;
  check ((0 <? e_rsn (ecc f)) && (e_rsn (ecc f) <? FEC_RSM));;
  check (sizeof fec_header_codec <? h_size f);;
  check (negb (h_size f - sizeof fec_header_codec <? offset));;
  raw ← read_all (sizeof fec_header_codec) offset;
  let header := dec fec_header_codec raw in
  check (fh_magic header =? FEC_MAGIC);;
  check (fh_version header =? FEC_VERSION);;
  check (fh_size header =? sizeof fec_header_codec);;
  check (negb ((fh_roots header =? 0) || (FEC_RSM <=? fh_roots header)));;
  check (e_roots (ecc f) =? fh_roots header);;
  check (negb (negb (fh_fec_size header mod fh_roots header =? 0) || negb (fh_fec_size header mod FEC_BLOCKSIZE =? 0)));;
  let data_size := fh_inp_size header in
  let blocks := fec_div_round_up data_size FEC_BLOCKSIZE in
  let rounds := fec_div_round_up blocks (e_rsn (ecc f)) in
  update (set_data_size data_size);;
  update (fun f => let e := ecc f in
    set_ecc (EccInfo (e_valid e) (e_roots e) (e_rsn e) (e_size e) blocks rounds (e_start e)) f);;
  check (fh_fec_size header =? u32 (u32 (u32 rounds * e_roots (ecc f)) * FEC_BLOCKSIZE));;
  update (fun f => let e := ecc f in
    set_ecc (EccInfo (e_valid e) (e_roots e) (e_rsn e) (fh_fec_size header) (e_blocks e) (e_rounds e) data_size) f);;
  codes ← read_codes (Z.to_nat (fh_fec_size header)) data_size 0 (fh_fec_size header);
  update (fun f => let e := ecc f in
    set_ecc (EccInfo (bool_decide (sha256 codes = fh_hash header)) (e_roots e) (e_rsn e) (e_size e) (e_blocks e)
               (e_rounds e) (e_start e)) f).

Definition parse_ecc (offset : Z) : F unit :=
  check (offset mod FEC_BLOCKSIZE =? 0);;
  check (offset <? UINT64_MAX - FEC_BLOCKSIZE);;
  r ← attempt (parse_ecc_header offset);
  match r with
  | Some _ => mret tt
  | None => parse_ecc_header (offset + FEC_BLOCKSIZE - sizeof fec_header_codec)
  end.

Definition load_ecc : F unit :=
  f ← handle; parse_ecc (h_data_size f -u64 FEC_BLOCKSIZE).

(** * Verity *)

Definition get_squashfs_size : F Z :=
  buffer ← fec_pread_all squashfs_get_sb_size 0;
  match squashfs_parse_sb_buffer buffer with Some n => mret n | None => fail end.

Definition get_ext4_size : F Z :=
  f ← handle;
  check (1024 + sizeof_ext4_super_block <? h_size f);;
  sb ← fec_pread_all sizeof_ext4_super_block 1024;
  match ext4_parse_sb sb with Some info => mret (sb_len info) | None => fail end.

Definition get_fs_size : F Z :=
  f ← handle;
  if negb (Z.land (h_flags f) FEC_FS_EXT4 =? 0) then get_ext4_size
  else if negb (Z.land (h_flags f) FEC_FS_SQUASH =? 0) then get_squashfs_size
  else
    r ← attempt get_ext4_size;
    match r with Some n => mret n | None => get_squashfs_size end.

Definition load_verity : F unit :=
  f ← handle;
  r ← attempt (verity_parse_header Split junk (h_data_size f -u64 VERITY_METADATA_SIZE));
  match r with
  | Some _ => mret tt
  | None =>
      f ← handle;
      r ← attempt (match find_verity_offset f with Some o => verity_parse_header Split junk o | None => fail end);
      match r with
      | Some _ => mret tt
      | None => offset ← get_fs_size; verity_parse_header Split junk offset
      end
  end.

(** * The handle *)

Definition zero_header : verity_header := VerityHeader 0 0 (replicate (Z.to_nat ANDROID_PUBKEY_MODULUS_SIZE) 0) 0.
Definition reset_handle (data : bytes) : fec_handle :=
  FecHandle (EccInfo false 0 0 0 0 0 0) data 0 0 0 0 0 0
    (VerityInfo false None 0 0 0 0 None 0 None 0 0 (replicate (Z.to_nat SHA256_DIGEST_LENGTH) 0) zero_header zero_header).

(** The handle before the codes and the metadata are looked for. *)
Definition new_handle (data : bytes) (size mode flags roots : Z) : fec_handle :=
  FecHandle (EccInfo false roots (FEC_RSM - roots) 0 0 0 0) data flags mode 0 size 0 size (verity (reset_handle data)).

(** [fec_open] of a file or device with the given content and size; [None] when
    the parameters are refused. *)
Definition fec_open (data : bytes) (size mode flags roots : Z) : res (option fec_handle) :=
  if negb ((0 <? roots) && (roots <? FEC_RSM)) then Ok None
  else
    (* O_CREAT | O_TRUNC | O_EXCL | O_WRONLY *)
    if negb (Z.land mode (64 + 512 + 128 + 1) =? 0) then Ok None
    else
      '(_, f) ← load_ecc (new_handle data size mode flags roots);
      '(_, f) ← load_verity f;
      Ok (Some f).

(** ** Metadata *)

Record fec_verity_metadata := VerityMetadata {
  vm_disabled : bool; vm_data_size : Z; vm_signature : bytes; vm_ecc_signature : bytes; vm_table : option bytes;
  vm_table_length : Z;
}.

Definition fec_verity_get_metadata : F fec_verity_metadata :=
  f ← handle;
  let v := verity f in
  check (negb (v_metadata_start v =? 0));;
  check (h_data_size f <? h_size f);;
  check (h_data_size f <=? v_hash_start v);;
  check (h_data_size f <=? v_metadata_start v);;
  check (bool_decide (is_Some (v_table v)));;
  mret (VerityMetadata (v_disabled v) (h_data_size f) (vh_signature (v_header v)) (vh_signature (v_ecc_header v))
          (v_table v) (vh_length (v_header v))).

Record fec_ecc_metadata := EccMetadata { em_valid : bool; em_roots : Z; em_blocks : Z; em_rounds : Z; em_start : Z }.

Definition fec_ecc_get_metadata : F fec_ecc_metadata :=
  f ← handle;
  let e := ecc f in
  check (negb (e_start e =? 0));;
  check (h_data_size f <? h_size f);;
  check (h_data_size f <=? e_start e);;
  check (e_start e <? h_size f);;
  check (e_start e mod FEC_BLOCKSIZE =? 0);;
  mret (EccMetadata (e_valid e) (e_roots e) (e_blocks e) (e_rounds e) (e_start e)).

Record fec_status := FecStatus { st_flags : Z; st_mode : Z; st_errors : Z; st_data_size : Z; st_size : Z }.

Definition fec_get_status : F fec_status :=
  f ← handle; mret (FecStatus (h_flags f) (h_mode f) (h_errors f) (h_data_size f) (h_size f)).

End Open.
