(* ===== verification/FecImage.v ===== *)
(** Model of src/verity/fec/image.cpp, image.h and the encoder and decoder of
    main.cpp: the tool that computes error correcting codes for an image and
    corrects an image with them.

    [FATAL] and a failed [assert] end the program ([CheckFailed]).  [output] is
    the same array as [input] ([image_free] asserts it), so that there is one
    field for both.  The threads of [image_process] run one after the other: they
    work on different RS blocks, whose bytes are at different places of the image
    and of the codes. *)
From stdpp Require Import base list numbers strings.
From Stdlib Require Import ZArith Lia.
From S2P Require Import Prelude Utils FecBase.

Definition IMAGE_MIN_THREADS : Z := 1.
Definition IMAGE_MAX_THREADS : Z := 128.

Record image := Image {
  roots : Z; rs_n : Z; threads : Z; fec_size : Z; padding : Z; blocks : Z; inp_size : Z; pos : Z; rounds : Z; rv : Z;
  fec : bytes; input : bytes;
}.

Definition set_sizes (size b r : Z) (ctx : image) : image :=
  Image (roots ctx) (rs_n ctx) (threads ctx) (fec_size ctx) (padding ctx) b size (pos ctx) r (rv ctx) (fec ctx) (input ctx).
Definition set_roots (r n : Z) (ctx : image) : image :=
  Image r n (threads ctx) (fec_size ctx) (padding ctx) (blocks ctx) (inp_size ctx) (pos ctx) (rounds ctx) (rv ctx)
    (fec ctx) (input ctx).
Definition set_input (p : Z) (b : bytes) (ctx : image) : image :=
  Image (roots ctx) (rs_n ctx) (threads ctx) (fec_size ctx) (padding ctx) (blocks ctx) (inp_size ctx) p (rounds ctx)
    (rv ctx) (fec ctx) b.
Definition set_fec (n : Z) (b : bytes) (ctx : image) : image :=
  Image (roots ctx) (rs_n ctx) (threads ctx) n (padding ctx) (blocks ctx) (inp_size ctx) (pos ctx) (rounds ctx) (rv ctx)
    b (input ctx).
Definition set_rv (n : Z) (ctx : image) : image :=
  Image (roots ctx) (rs_n ctx) (threads ctx) (fec_size ctx) (padding ctx) (blocks ctx) (inp_size ctx) (pos ctx)
    (rounds ctx) n (fec ctx) (input ctx).

(** ** Loading an image *)

Definition calculate_rounds (size : Z) (ctx : image) : res image :=
  CHECK (negb (size =? 0));; CHECK (size mod FEC_BLOCKSIZE =? 0);;
  let blocks := fec_div_round_up size FEC_BLOCKSIZE in
  Ok (set_sizes size blocks (fec_div_round_up blocks (rs_n ctx)) ctx).

(** A chunk of a sparse file, as libsparse passes it to a callback: bytes, or a
    number of bytes that are not there. *)
Inductive sparse_chunk := Data (data : bytes) | Hole (len : Z).
Definition chunk_len (c : sparse_chunk) : Z := match c with Data d => zlen d | Hole n => n end.
Definition sparse_file_len (file : list sparse_chunk) : Z := foldr Z.add 0 (chunk_len <$> file).

Definition process_chunk (c : sparse_chunk) (ctx : image) : res image :=
  CHECK (chunk_len c mod FEC_BLOCKSIZE =? 0);;
  input ← (match c with Data d => mem_write (input ctx) (pos ctx) d | Hole _ => Ok (input ctx) end);
  Ok (set_input (pos ctx +u64 chunk_len c) input ctx).

(** [sparse_file_callback] *)
Fixpoint process_chunks (file : list sparse_chunk) (ctx : image) : res image :=
  match file with
  | [] => Ok ctx
  | c :: file => ctx ← process_chunk c ctx; process_chunks file ctx
  end.

Definition file_image_load (files : list (list sparse_chunk)) (ctx : image) : res image :=
  let size := u64 (foldr Z.add 0 (sparse_file_len <$> files)) in
  ctx ← calculate_rounds size ctx;
  process_chunks (concat files) (set_input 0 (replicate (Z.to_nat (inp_size ctx)) 0) ctx).

Definition image_load (files : list (list sparse_chunk)) (ctx : image) : res image :=
  CHECK ((0 <? roots ctx) && (roots ctx <? FEC_RSM));;
  file_image_load files (set_roots (roots ctx) (FEC_RSM - roots ctx) ctx).

(** ** Codes *)

(** The codes are not initialised: [junk]. *)
Definition image_ecc_new (junk : nat -> Z) (ctx : image) : res image :=
  CHECK (0 <? rounds ctx);;
  let size := u32 (rounds ctx * roots ctx * FEC_BLOCKSIZE) in
  Ok (set_fec size (new_char junk size) ctx).

Definition image_get_interleaved_byte (i : Z) (ctx : image) : res Z :=
  let offset := fec_ecc_interleave i (rs_n ctx) (rounds ctx) in
  if inp_size ctx <=? offset then Ok 0
  else match znth (input ctx) offset with Some b => Ok b | None => OutOfBounds end.

Definition image_set_interleaved_byte (i value : Z) (ctx : image) : res image :=
  let offset := fec_ecc_interleave i (rs_n ctx) (rounds ctx) in
  if inp_size ctx <=? offset then CHECK (value =? 0);; Ok ctx
  else input ← mem_write (input ctx) offset [value]; Ok (set_input (pos ctx) input ctx).

(** [for (j = 0; j < rs_n; ++j) data[j] = ...], with [n] bytes to go. *)
Fixpoint get_block (n : nat) (i : Z) (ctx : image) : res bytes :=
  match n with
  | O => Ok []
  | S n => b ← image_get_interleaved_byte i ctx; rest ← get_block n (i +u64 1) ctx; Ok (b :: rest)
  end.

Fixpoint set_block (i : Z) (data : bytes) (ctx : image) : res image :=
  match data with
  | [] => Ok ctx
  | b :: data => ctx ← image_set_interleaved_byte i b ctx; set_block (i +u64 1) data ctx
  end.

Section Tool.
Context {dg : Digest} {rs : ReedSolomon} {th : Threads}.

(** [for (i = ctx->start; i < ctx->end; i += fcx->rs_n)]; [fuel] bounds the
    number of RS blocks. *)
Fixpoint encode_rs (fuel : nat) (i end_ fec_pos : Z) (ctx : image) : res image :=
  if i <? end_ then
    match fuel with
    | O => OutOfBounds
    | S fuel =>
        data ← get_block (Z.to_nat (rs_n ctx)) i ctx;
        fec ← mem_write (fec ctx) fec_pos (encode_rs_char (roots ctx) data);
        encode_rs fuel (i +u64 rs_n ctx) end_ (fec_pos +u64 roots ctx) (set_fec (fec_size ctx) fec ctx)
    end
  else Ok ctx.

Fixpoint decode_rs (fuel : nat) (i end_ fec_pos : Z) (ctx : image) : res image :=
  CHECK (rs_n ctx + roots ctx =? FEC_RSM);;
  if i <? end_ then
    match fuel with
    | O => OutOfBounds
    | S fuel =>
        data ← get_block (Z.to_nat (rs_n ctx)) i ctx;
        parity ← mem_read (fec ctx) fec_pos (roots ctx);
        let '(rc, block, _) := decode_rs_char (roots ctx) (data ++ parity) [] in
        CHECK (0 <=? rc);;
        ctx ← (if 0 <? rc
               then ctx ← set_block i (ztake (rs_n ctx) block) ctx; Ok (set_rv (rv ctx +u64 rc) ctx)
               else Ok ctx);
        decode_rs fuel (i +u64 rs_n ctx) end_ (fec_pos +u64 roots ctx) ctx
    end
  else Ok ctx.

Definition num_image_threads (ctx : image) : Z :=
  let n := if threads ctx <? IMAGE_MIN_THREADS
           then (if nprocessors <? IMAGE_MIN_THREADS then IMAGE_MIN_THREADS else nprocessors)
           else threads ctx in
  let n := if rounds ctx <? n then rounds ctx else n in
  if IMAGE_MAX_THREADS <? n then IMAGE_MAX_THREADS else n.

(** [for (int i = 0; i < threads; ++i)], with [n] threads to go.  The second case
    of the bound on [end] asks for [i == threads] and does not happen. *)
Fixpoint run_threads (func : nat -> Z -> Z -> Z -> image -> res image) (n : nat) (i current per end_ : Z) (ctx : image) :
    res image :=
  match n with
  | O => Ok ctx
  | S n =>
      let start := u64 (current * rs_n ctx) in
      let stop := u64 ((current + per) * rs_n ctx) in
      let stop := if end_ <? stop then end_ else stop in
      CHECK (start <? stop);; CHECK ((stop - start) mod rs_n ctx =? 0);;
      CHECK (pthread_create i);;
      ctx ← func (Z.to_nat per) start stop (u64 (current * roots ctx)) ctx;
      CHECK (pthread_join i);;
      run_threads func n (i + 1) (current +u64 per) per end_ ctx
  end.

Definition image_process (func : nat -> Z -> Z -> Z -> image -> res image) (ctx : image) : res image :=
  CHECK (0 <? rounds ctx);;
  let n := num_image_threads ctx in
  let end_ := u64 (rounds ctx * rs_n ctx * FEC_BLOCKSIZE) in
  let per := fec_div_round_up (u64 (rounds ctx * FEC_BLOCKSIZE)) n in
  run_threads func (Z.to_nat n) 0 0 per end_ (set_rv 0 ctx).

(** ** The file of codes *)

Definition header_block (ctx : image) : bytes :=
  let h := enc fec_header_codec
             (FecHeader FEC_MAGIC FEC_VERSION (sizeof fec_header_codec) (roots ctx) (fec_size ctx) (inp_size ctx)
                (sha256 (fec ctx))) in
  h ++ replicate (Z.to_nat (FEC_BLOCKSIZE - 2 * sizeof fec_header_codec)) 0 ++ h.

(** [image_ecc_save]: what is written to the file.  [main] takes paddings that are
    multiples of the block size only, so that the loop over [padding] ends. *)
Definition image_ecc_save (ctx : image) : bytes :=
  fec ctx ++ replicate (Z.to_nat (fec_round_up (padding ctx) FEC_BLOCKSIZE)) 0 ++ header_block ctx.

(** [image_ecc_load] from a file of the given content. *)
Definition image_ecc_load (junk : nat -> Z) (file : bytes) (ctx : image) : res image :=
  CHECK (FEC_BLOCKSIZE <=? zlen file);;
  let header := zdrop (zlen file - FEC_BLOCKSIZE) file in
  '(p, _) ← MoveFromBinaryFormat fec_header_codec header 0;
  CHECK (fh_magic p =? FEC_MAGIC);;
  CHECK (fh_version p =? FEC_VERSION);;
  CHECK (fh_size p =? sizeof fec_header_codec);;
  CHECK (negb ((fh_roots p =? 0) || (FEC_RSM <=? fh_roots p)));;
  CHECK (negb (negb (fh_fec_size p mod fh_roots p =? 0) || negb (fh_fec_size p mod FEC_BLOCKSIZE =? 0)));;
  ctx ← calculate_rounds (fh_inp_size p) (set_roots (fh_roots p) (FEC_RSM - fh_roots p) ctx);
  ctx ← image_ecc_new junk ctx;
  CHECK (fh_fec_size p =? fec_size ctx);;
  CHECK (fec_size ctx <=? zlen file);;
  let codes := ztake (fec_size ctx) file in
  CHECK (bool_decide (sha256 codes = fh_hash p));;
  Ok (set_fec (fec_size ctx) codes ctx).

(** ** The tool *)

(** [encode]: the file of codes. *)
Definition encode (junk : nat -> Z) (files : list (list sparse_chunk)) (ctx : image) : res bytes :=
  ctx ← image_load files ctx;
  ctx ← image_ecc_new junk ctx;
  ctx ← image_process encode_rs ctx;
  Ok (image_ecc_save ctx).

(** [decode]: the corrected image and the number of corrections. *)
Definition decode (junk : nat -> Z) (file : list sparse_chunk) (codes : bytes) (ctx : image) : res (bytes * Z) :=
  CHECK (padding ctx =? 0);;
  ctx ← image_ecc_load junk codes ctx;
  ctx ← image_load [file] ctx;
  ctx ← image_process decode_rs ctx;
  Ok (input ctx, rv ctx).

End Tool.
