(* ===== verification/FecCodes.v ===== *)
(** What the fec tool computes: the codes of an image, whatever the number of
    threads, and the correction of an image by its codes. *)
From stdpp Require Import base list numbers strings.
From Stdlib Require Import ZArith Lia.
From S2P Require Import Prelude Utils File FecBase FecRead FecEcc FecInstances FecProcess FecImage.

(** * Images *)

Definition chunk_bytes (c : sparse_chunk) : bytes :=
  match c with Data d => d | Hole n => replicate (Z.to_nat n) 0 end.

(** The content of sparse files one behind the other. *)
Definition sparse_bytes (files : list (list sparse_chunk)) : bytes := concat (chunk_bytes <$> concat files).

Definition chunk_ok (c : sparse_chunk) : Prop := 0 <= chunk_len c /\ chunk_len c mod FEC_BLOCKSIZE = 0.

Lemma zlen_chunk_bytes c : chunk_ok c -> zlen (chunk_bytes c) = chunk_len c.
Proof. intros [H _]. destruct c; [done|]. cbn in *. rewrite zlen_replicate. lia. Qed.

Lemma sparse_bytes_app file files : sparse_bytes (file :: files) = concat (chunk_bytes <$> file) ++ sparse_bytes files.
Proof. unfold sparse_bytes. cbn. by rewrite fmap_app, concat_app. Qed.

Lemma zlen_chunks file : Forall chunk_ok file -> zlen (concat (chunk_bytes <$> file)) = sparse_file_len file.
Proof.
  induction 1 as [|c file Hc _ IH]; [done|]. cbn. unfold sparse_file_len in *. cbn.
  by rewrite zlen_app, zlen_chunk_bytes, IH.
Qed.

Lemma zlen_sparse_bytes files :
  Forall (Forall chunk_ok) files -> zlen (sparse_bytes files) = foldr Z.add 0 (sparse_file_len <$> files).
Proof.
  induction 1 as [|file files Hf _ IH]; [done|]. rewrite sparse_bytes_app, zlen_app, zlen_chunks, IH by done. done.
Qed.

Lemma process_chunks_ok file ctx done_ :
  Forall chunk_ok file -> pos ctx = zlen done_ -> zlen done_ + zlen (concat (chunk_bytes <$> file)) < 2 ^ 64 ->
  input ctx = done_ ++ replicate (length (concat (chunk_bytes <$> file))) 0 ->
  process_chunks file ctx =
    Ok (set_input (zlen done_ + zlen (concat (chunk_bytes <$> file))) (done_ ++ concat (chunk_bytes <$> file)) ctx).
Proof.
  intros Hok. revert ctx done_. induction Hok as [|c file Hc Hf IH]; intros ctx done_ Hpos Hlt Hin; cbn [process_chunks].
  { cbn in *. rewrite Z.add_0_r, <- Hpos, <- Hin. by destruct ctx. }
  unfold process_chunk. destruct Hc as [Hc0 Hcm]. rewrite Hcm. cbn [mbind res_bind CHECK Z.eqb].
  cbn [fmap list_fmap concat] in *. rewrite zlen_app, (zlen_chunk_bytes c) in * by done.
  pose proof (zlen_nonneg done_). pose proof (zlen_nonneg (concat (chunk_bytes <$> file))).
  assert (Hw : (match c with Data d => mem_write (input ctx) (pos ctx) d | Hole _ => Ok (input ctx) end) =
    Ok ((done_ ++ chunk_bytes c) ++ replicate (length (concat (chunk_bytes <$> file))) 0)).
  { rewrite Hin, length_app, replicate_add, <- app_assoc. destruct c as [d|n]; cbn.
    - rewrite Hpos, mem_write_app by (done || unfold zlen; rewrite length_app, length_replicate; lia).
      rewrite zdrop_app_exact by by rewrite zlen_replicate. done.
    - by rewrite length_replicate. }
  rewrite Hw. cbn [mbind res_bind]. rewrite Hpos, u64_small by (unfold is_u64; lia).
  rewrite (IH _ (done_ ++ chunk_bytes c)); cbn; [|by rewrite zlen_app, zlen_chunk_bytes|rewrite zlen_app, zlen_chunk_bytes by done; lia|done].
  rewrite zlen_app, zlen_chunk_bytes, <- app_assoc by done. unfold set_input. cbn. by rewrite Z.add_assoc.
Qed.

(** What [image_load] leaves: the content of the files and its geometry. *)
Definition loaded (img : bytes) (ctx : image) : image :=
  let rsn := FEC_RSM - roots ctx in
  let blocks := zlen img / FEC_BLOCKSIZE in
  Image (roots ctx) rsn (threads ctx) (fec_size ctx) (padding ctx) blocks (zlen img) (zlen img)
    (fec_div_round_up blocks rsn) (rv ctx) (fec ctx) img.

Lemma image_load_ok files ctx :
  Forall (Forall chunk_ok) files -> 0 < roots ctx < FEC_RSM -> 0 < zlen (sparse_bytes files) < 2 ^ 64 ->
  zlen (sparse_bytes files) mod FEC_BLOCKSIZE = 0 ->
  image_load files ctx = Ok (loaded (sparse_bytes files) ctx).
Proof.
  intros Hf Hr Hz Hm. unfold image_load. destruct (Z.ltb_spec 0 (roots ctx)), (Z.ltb_spec (roots ctx) FEC_RSM); try lia.
  cbn [andb CHECK mbind res_bind]. unfold file_image_load. rewrite <- zlen_sparse_bytes by done.
  rewrite u64_small by (unfold is_u64; lia). unfold calculate_rounds.
  destruct (Z.eqb_spec (zlen (sparse_bytes files)) 0); [lia|]. rewrite Hm. cbn [negb CHECK mbind res_bind Z.eqb].
  rewrite (process_chunks_ok _ _ []); cbn.
  - assert (Hb : fec_div_round_up (zlen (sparse_bytes files)) FEC_BLOCKSIZE = zlen (sparse_bytes files) / FEC_BLOCKSIZE)
      by (unfold fec_div_round_up; rewrite Hm; apply Z.add_0_r).
    unfold loaded, set_input, set_sizes. cbn. fold (sparse_bytes files). by rewrite Hb.
  - apply Forall_concat, Hf.
  - done.
  - fold (sparse_bytes files). change (zlen (@nil Z)) with 0. lia.
  - fold (sparse_bytes files). f_equal. unfold zlen. lia.
Qed.

(** * Threads *)

(** The number of RS blocks, and the parity bytes of the first [n] of them. *)
Definition rs_blocks (rounds : Z) : Z := rounds * FEC_BLOCKSIZE.

Definition codes `{!ReedSolomon} (roots rounds : Z) (img : bytes) (n : Z) : bytes :=
  concat ((fun k => encode_rs_char roots (rs_data img (FEC_RSM - roots) rounds k)) <$> seqZ 0 n).

Section Threads.
Context {th : Threads} (Hcreate : forall i, pthread_create i = true) (Hjoin : forall i, pthread_join i = true).

(** The threads cover the RS blocks, and none of them is without work. *)
Lemma threads_cover r T :
  0 < T <= 128 -> T <= r -> let per := fec_div_round_up (rs_blocks r) T in
  0 < per /\ (T - 1) * per < rs_blocks r <= T * per /\ per <= rs_blocks r.
Proof.
  intros HT Hr per. unfold rs_blocks, FEC_BLOCKSIZE in *. destruct (round_up_bounds (r * 4096) T) as [Hb Hb0]; [lia..|].
  fold per in Hb, Hb0. assert (Hlow : 128 <= per) by nia. nia.
Qed.

Lemma num_image_threads_range ctx :
  0 < rounds ctx -> 0 < num_image_threads ctx <= 128 /\ num_image_threads ctx <= rounds ctx.
Proof.
  intros Hr. unfold num_image_threads, IMAGE_MIN_THREADS, IMAGE_MAX_THREADS.
  assert (Hn : 0 < if threads ctx <? 1 then if nprocessors <? 1 then 1 else nprocessors else threads ctx)
    by (destruct (Z.ltb_spec (threads ctx) 1), (Z.ltb_spec nprocessors 1); lia).
  revert Hn. generalize (if threads ctx <? 1 then if nprocessors <? 1 then 1 else nprocessors else threads ctx). intros n Hn.
  cbn zeta. destruct (Z.ltb_spec (rounds ctx) n); [destruct (Z.ltb_spec 128 (rounds ctx))|destruct (Z.ltb_spec 128 n)]; lia.
Qed.

(** Work on RS blocks that goes from any state to any later one, in pieces. *)
Lemma image_process_ok func ctx (P : Z -> image -> Prop) rsn :
  let R := rs_blocks (rounds ctx) in
  0 < rounds ctx -> R * FEC_RSM < 2 ^ 62 -> 0 < rsn <= FEC_RSM -> 0 <= roots ctx <= FEC_RSM -> rs_n ctx = rsn ->
  P 0 (set_rv 0 ctx) -> (forall k c, P k c -> rs_n c = rsn /\ roots c = roots ctx) ->
  (forall k m c fuel, 0 <= k <= m -> m <= R -> m - k <= Z.of_nat fuel -> P k c ->
    exists c', func fuel (k * rsn) (m * rsn) (k * roots ctx) c = Ok c' /\ P m c') ->
  exists c', image_process func ctx = Ok c' /\ P R c'.
Proof.
  intros R Hr Hsm Hrsn Hroots Hn HP0 Hconst Hfunc. unfold image_process. destruct (Z.ltb_spec 0 (rounds ctx)); [|lia].
  cbn [CHECK mbind res_bind]. destruct (num_image_threads_range ctx Hr) as [HT1 HT2]. set (T := num_image_threads ctx) in *.
  assert (HR : 0 < R) by (subst R; unfold rs_blocks, FEC_BLOCKSIZE; lia).
  assert (HRn : 0 < R * rsn <= R * FEC_RSM) by (unfold FEC_RSM in *; nia).
  rewrite Hn. replace (rounds ctx * rsn * FEC_BLOCKSIZE) with (R * rsn) by (subst R; unfold rs_blocks; ring).
  fold (rs_blocks (rounds ctx)). fold R. unfold FEC_RSM in *. rewrite (u64_small R), (u64_small (R * rsn)) by (unfold is_u64; lia).
  destruct (threads_cover (rounds ctx) T HT1 HT2) as (Hper & Hcov & Hle). fold R in Hper, Hcov, Hle.
  set (per := fec_div_round_up R T) in *.
  assert (Hloop : forall n i c, Z.of_nat n + i = T -> 0 <= i -> P (Z.min (i * per) R) c ->
    exists c', run_threads func n i (i * per) per (R * rsn) c = Ok c' /\ P R c').
  { intros n. induction n as [|n IH]; intros i c Hi Hi0 HP; cbn [run_threads].
    { exists c. split; [done|]. by rewrite Z.min_r in HP by nia. }
    destruct (Hconst _ _ HP) as [-> ->].
    assert (Hik : i * per < R) by nia. rewrite Z.min_l in HP by lia.
    assert (0 <= i * per) by nia.
    set (m := Z.min ((i + 1) * per) R). assert (Hm : i * per < m <= R) by (subst m; nia).
    rewrite (u64_small (i * per * rsn)) by (unfold is_u64; nia).
    rewrite (u64_small (i * per * roots ctx)) by (unfold is_u64; nia).
    assert (Hi1 : (i * per + per) * rsn < 2 ^ 64) by nia.
    rewrite (u64_small ((i * per + per) * rsn)) by (unfold is_u64; nia).
    assert (Hstop : (if R * rsn <? (i * per + per) * rsn then R * rsn else (i * per + per) * rsn) = m * rsn).
    { subst m. destruct (Z.ltb_spec (R * rsn) ((i * per + per) * rsn)).
      - rewrite Z.min_r by nia. done.
      - rewrite Z.min_l by nia. ring. }
    rewrite Hstop. rewrite CHECK_lt by nia. cbn [mbind res_bind].
    replace (m * rsn - i * per * rsn) with ((m - i * per) * rsn) by ring. rewrite Z.mod_mul by lia.
    rewrite Hcreate. cbn [CHECK Z.eqb mbind res_bind].
    destruct (Hfunc (i * per) m c (Z.to_nat per)) as (c' & -> & HP'); [lia..|done|]. cbn [mbind res_bind]. rewrite Hjoin.
    cbn [CHECK mbind res_bind]. rewrite (u64_small (i * per + per)) by (unfold is_u64; nia).
    replace (i * per + per) with ((i + 1) * per) by ring. by apply IH; [lia|lia|]. }
  apply (Hloop (Z.to_nat T) 0); [lia|done|]. rewrite Z.mul_0_l, Z.min_l by lia. done.
Qed.
End Threads.

(** * Reading and writing RS blocks *)

(** The geometry of a loaded image. *)
Record geometry (img : bytes) (ctx : image) : Prop := Geometry {
  ge_roots : 0 < roots ctx < FEC_RSM;
  ge_rsn : rs_n ctx = FEC_RSM - roots ctx;
  ge_size : inp_size ctx = zlen img;
  ge_rounds : 0 < rounds ctx /\ zlen img <= rs_blocks (rounds ctx) * rs_n ctx;
  ge_small : rs_blocks (rounds ctx) * FEC_RSM < 2 ^ 62;
}.

Section Blocks.
Context (img : bytes) (ctx : image) (Hg : geometry img ctx).

Lemma interleaved k j :
  0 <= k < rs_blocks (rounds ctx) -> 0 <= j < rs_n ctx ->
  fec_ecc_interleave (k * rs_n ctx + j) (rs_n ctx) (rounds ctx) = k + j * (rounds ctx * FEC_BLOCKSIZE) /\
  0 <= k + j * (rounds ctx * FEC_BLOCKSIZE) /\ is_u64 (k * rs_n ctx + j + 1).
Proof.
  intros Hk Hj. destruct Hg as [Hr Hn _ [Ho _] Hs]. unfold rs_blocks, FEC_RSM in *. set (st := rounds ctx * FEC_BLOCKSIZE) in *.
  assert (0 <= j * st) by nia. assert (j * st <= 254 * st) by nia.
  assert (0 <= k * rs_n ctx <= k * 254) by nia.
  pose proof (interleave_spec (rs_n ctx) (rounds ctx) k j) as Hi. fold st in Hi.
  rewrite u64_small in Hi by (unfold is_u64; lia). rewrite Hi by lia. unfold is_u64. lia.
Qed.

Lemma get_byte k j :
  0 <= k < rs_blocks (rounds ctx) -> 0 <= j < rs_n ctx -> input ctx = img ->
  image_get_interleaved_byte (k * rs_n ctx + j) ctx = Ok (byte_at img (k + j * (rounds ctx * FEC_BLOCKSIZE))).
Proof.
  intros Hk Hj Hi. unfold image_get_interleaved_byte. destruct (interleaved k j Hk Hj) as (-> & H0 & _).
  rewrite (ge_size _ _ Hg), Hi. destruct (Z.leb_spec (zlen img) (k + j * (rounds ctx * FEC_BLOCKSIZE))).
  - by rewrite byte_at_outside.
  - by rewrite byte_at_inside.
Qed.

Lemma get_block_from n k j :
  0 <= k < rs_blocks (rounds ctx) -> 0 <= j -> j + Z.of_nat n = rs_n ctx -> input ctx = img ->
  get_block n (k * rs_n ctx + j) ctx = Ok ((fun i => byte_at img (k + i * (rounds ctx * FEC_BLOCKSIZE))) <$> seqZ j (Z.of_nat n)).
Proof.
  intros Hk Hj Hn Hi. revert j Hj Hn. induction n as [|n IH]; intros j Hj Hn; cbn [get_block]; [done|].
  rewrite get_byte by (done || lia). cbn [mbind res_bind].
  destruct (interleaved k j) as (_ & _ & Hu); [lia..|]. rewrite u64_small by done. rewrite <- Z.add_assoc, IH by lia.
  cbn [mbind res_bind]. rewrite (seqZ_cons j) by lia. replace (Z.pred (Z.of_nat (S n))) with (Z.of_nat n) by lia. done.
Qed.

Lemma get_block_ok k :
  0 <= k < rs_blocks (rounds ctx) -> input ctx = img ->
  get_block (Z.to_nat (rs_n ctx)) (k * rs_n ctx) ctx = Ok (rs_data img (FEC_RSM - roots ctx) (rounds ctx) k).
Proof.
  intros Hk Hi. pose proof (ge_rsn _ _ Hg). pose proof (ge_roots _ _ Hg).
  pose proof (get_block_from (Z.to_nat (rs_n ctx)) k 0 Hk) as H1. rewrite Z.add_0_r, Z2Nat.id in H1 by lia.
  rewrite H1 by (done || lia). unfold rs_data. by rewrite (ge_rsn _ _ Hg).
Qed.
End Blocks.

Section Encode.
Context {dg : Digest} {rs : ReedSolomon} {th : Threads}.
Context (Hcreate : forall i, pthread_create i = true) (Hjoin : forall i, pthread_join i = true).

Lemma codes_snoc roots rounds img n :
  0 <= n -> codes roots rounds img (n + 1) =
  codes roots rounds img n ++ encode_rs_char roots (rs_data img (FEC_RSM - roots) rounds n).
Proof. intros. unfold codes. rewrite seqZ_app, (seqZ_cons (0 + n)), fmap_app, concat_app by lia. cbn. by rewrite app_nil_r. Qed.

Lemma zlen_codes roots rounds img n : 0 <= roots -> 0 <= n -> zlen (codes roots rounds img n) = n * roots.
Proof.
  intros Hr. revert n. apply natlike_ind; [done|]. intros n Hn IH.
  rewrite <- Z.add_1_r, codes_snoc, zlen_app, IH, encode_rs_len by lia. lia.
Qed.

(** The parity bytes of an RS block among the codes. *)
Lemma codes_part roots rounds img n k :
  0 <= roots -> 0 <= k < n ->
  ztake roots (zdrop (k * roots) (codes roots rounds img n)) = encode_rs_char roots (rs_data img (FEC_RSM - roots) rounds k).
Proof.
  intros Hr Hk. unfold codes. replace n with (k + (1 + (n - k - 1))) by lia.
  rewrite (seqZ_app 0 k), (seqZ_app (0 + k) 1), !fmap_app, !concat_app by lia. change (seqZ (0 + k) 1) with [0 + k].
  fold (codes roots rounds img k). rewrite zdrop_app_exact by (rewrite zlen_codes by lia; lia).
  cbn [fmap list_fmap concat]. rewrite app_nil_r. rewrite ztake_app_exact by (rewrite encode_rs_len; lia). done.
Qed.

(** The codes of the first [k] RS blocks are there; the rest is what it was. *)
Definition encoded (img fec0 : bytes) (ctx : image) (k : Z) : image :=
  set_fec (fec_size ctx) (codes (roots ctx) (rounds ctx) img k ++ zdrop (k * roots ctx) fec0) ctx.

Lemma encode_rs_ok img fec0 ctx fuel k m :
  geometry img ctx -> input ctx = img -> zlen fec0 = rs_blocks (rounds ctx) * roots ctx ->
  0 <= k <= m -> m <= rs_blocks (rounds ctx) -> m - k <= Z.of_nat fuel ->
  encode_rs fuel (k * rs_n ctx) (m * rs_n ctx) (k * roots ctx) (encoded img fec0 ctx k) = Ok (encoded img fec0 ctx m).
Proof.
  intros Hg Hi Hf Hkm Hm. pose proof (ge_roots _ _ Hg) as Hr. pose proof (ge_rsn _ _ Hg) as Hn. pose proof (ge_small _ _ Hg) as Hs.
  unfold FEC_RSM in *. revert k Hkm. induction fuel as [|fuel IH]; intros k Hkm Hfuel; cbn [encode_rs].
  { assert (k = m) as -> by lia. by rewrite Z.ltb_irrefl. }
  destruct (Z.ltb_spec (k * rs_n ctx) (m * rs_n ctx)) as [Hlt|Hge]; [|by assert (k = m) as -> by nia].
  assert (Hk : k < m) by nia. change (rs_n (encoded img fec0 ctx k)) with (rs_n ctx).
  change (roots (encoded img fec0 ctx k)) with (roots ctx).
  assert (Hg' : geometry img (encoded img fec0 ctx k)) by by destruct Hg.
  pose proof (get_block_ok img _ Hg' k ltac:(done || (cbn; lia)) Hi) as Hb. cbn [rs_n roots rounds encoded set_fec] in Hb.
  unfold FEC_RSM in Hb. rewrite Hb. cbn [mbind res_bind]. set (d := rs_data img (255 - roots ctx) (rounds ctx) k).
  cbn [fec encoded set_fec]. pose proof (zlen_codes (roots ctx) (rounds ctx) img k ltac:(lia) ltac:(lia)) as Hz.
  assert (0 <= k * roots ctx /\ (k + 1) * roots ctx <= rs_blocks (rounds ctx) * roots ctx) as [Hk0 Hk1] by nia.
  rewrite mem_write_app by (rewrite ?zlen_zdrop, ?encode_rs_len by lia; lia). cbn [mbind res_bind].
  rewrite encode_rs_len, zdrop_zdrop by lia.
  assert (rs_blocks (rounds ctx) * roots ctx <= rs_blocks (rounds ctx) * 255) by nia.
  assert (rs_blocks (rounds ctx) * rs_n ctx <= rs_blocks (rounds ctx) * 255) by nia.
  rewrite (u64_small (k * rs_n ctx + rs_n ctx)), (u64_small (k * roots ctx + roots ctx)) by (unfold is_u64; nia).
  replace (k * rs_n ctx + rs_n ctx) with ((k + 1) * rs_n ctx) by ring.
  replace (k * roots ctx + roots ctx) with ((k + 1) * roots ctx) by ring.
  rewrite <- (IH (k + 1)) by lia. f_equal. unfold encoded, set_fec. cbn.
  rewrite codes_snoc, <- app_assoc by lia. unfold FEC_RSM. done.
Qed.

(** * The file of codes *)

Definition rounds_of (roots : Z) (img : bytes) : Z := fec_div_round_up (zlen img / FEC_BLOCKSIZE) (FEC_RSM - roots).

(** The codes of all RS blocks. *)
Definition all_codes (roots : Z) (img : bytes) : bytes :=
  codes roots (rounds_of roots img) img (rs_blocks (rounds_of roots img)).

Definition codes_header (roots : Z) (img : bytes) : fec_header :=
  FecHeader FEC_MAGIC FEC_VERSION 60 roots (zlen (all_codes roots img)) (zlen img) (sha256 (all_codes roots img)).

(** The last block has the header at both ends. *)
Definition codes_header_block (roots : Z) (img : bytes) : bytes :=
  let h := enc fec_header_codec (codes_header roots img) in h ++ replicate 3976 0 ++ h.

Definition codes_file (roots padding : Z) (img : bytes) : bytes :=
  all_codes roots img ++ replicate (Z.to_nat (fec_round_up padding FEC_BLOCKSIZE)) 0 ++ codes_header_block roots img.

(** Images that the tool takes. *)
Record encodable (roots : Z) (img : bytes) : Prop := Encodable {
  en_roots : 0 < roots < FEC_RSM;
  en_some : 0 < zlen img;
  en_blocks : zlen img mod FEC_BLOCKSIZE = 0;
  en_small : rs_blocks (rounds_of roots img) * roots < 2 ^ 32;
}.

Lemma rounds_of_bounds roots img :
  encodable roots img -> 0 < rounds_of roots img /\ zlen img <= rs_blocks (rounds_of roots img) * (FEC_RSM - roots) /\
  rs_blocks (rounds_of roots img) * FEC_RSM < 2 ^ 40.
Proof.
  intros [Hr Hs Hb Hz]. unfold rs_blocks, FEC_RSM, FEC_BLOCKSIZE in *.
  pose proof (Z.div_mod (zlen img) 4096 ltac:(lia)) as Hd. rewrite Hb in Hd.
  destruct (round_up_bounds (zlen img / 4096) (255 - roots)) as [Hu Hu0]; [lia..|].
  fold (rounds_of roots img) in *. unfold rounds_of, FEC_RSM, FEC_BLOCKSIZE in *.
  set (r := fec_div_round_up (zlen img / 4096) (255 - roots)) in *.
  assert (0 < r) by nia. assert (r * 4096 * 1 <= r * 4096 * roots) by nia. lia.
Qed.

Lemma zlen_all_codes roots img :
  encodable roots img -> zlen (all_codes roots img) = rs_blocks (rounds_of roots img) * roots.
Proof.
  intros He. destruct (rounds_of_bounds _ _ He) as (Hr & _). destruct He. apply zlen_codes; unfold rs_blocks, FEC_BLOCKSIZE; lia.
Qed.

(** The size of the codes is a multiple of what the header is checked for. *)
Lemma all_codes_aligned roots img :
  encodable roots img -> zlen (all_codes roots img) mod roots = 0 /\ zlen (all_codes roots img) mod FEC_BLOCKSIZE = 0.
Proof.
  intros He. rewrite zlen_all_codes by done. destruct He. unfold rs_blocks. split; [apply Z.mod_mul; lia|].
  rewrite <- Z.mul_assoc, (Z.mul_comm FEC_BLOCKSIZE), Z.mul_assoc. by apply Z.mod_mul.
Qed.

Lemma image_blocks roots img : encodable roots img -> fec_div_round_up (zlen img) FEC_BLOCKSIZE = zlen img / FEC_BLOCKSIZE.
Proof. intros [_ _ Hb _]. unfold fec_div_round_up. rewrite Hb. apply Z.add_0_r. Qed.

Lemma loaded_geometry img ctx : encodable (roots ctx) img -> geometry img (loaded img ctx).
Proof.
  intros He. destruct (rounds_of_bounds _ _ He) as (Hr & Hz & Hs). destruct He.
  split; unfold loaded; cbn; fold (rounds_of (roots ctx) img); try done. lia.
Qed.

Lemma encode_ok junk files ctx :
  let img := sparse_bytes files in
  Forall (Forall chunk_ok) files -> encodable (roots ctx) img ->
  encode junk files ctx = Ok (codes_file (roots ctx) (padding ctx) img).
Proof.
  intros img Hf He. pose proof (rounds_of_bounds _ _ He) as (Hr & Hz & Hs). pose proof (loaded_geometry _ ctx He) as Hg.
  pose proof (zlen_all_codes _ _ He) as Hlen.
  destruct He as [Hroots Hsome Hblocks Hsmall]. unfold FEC_RSM in *.
  unfold encode. rewrite image_load_ok by (unfold FEC_RSM; done || (fold img; nia)). cbn [mbind res_bind]. fold img.
  set (c1 := loaded img ctx) in *. assert (Hrc : rounds c1 = rounds_of (roots ctx) img) by done.
  unfold image_ecc_new. rewrite Hrc. rewrite CHECK_lt by done. cbn [mbind res_bind].
  assert (Hu : u32 (rounds_of (roots ctx) img * roots c1 * FEC_BLOCKSIZE) = rs_blocks (rounds_of (roots ctx) img) * roots ctx).
  { unfold rs_blocks in *. change (roots c1) with (roots ctx). rewrite u32_small; [ring|]. unfold is_u32, FEC_BLOCKSIZE in *. nia. }
  rewrite Hu. set (n := rs_blocks (rounds_of (roots ctx) img) * roots ctx) in *. set (fec0 := new_char junk n).
  set (c2 := set_fec n fec0 c1). assert (Hn0 : 0 <= n) by (rewrite <- Hlen; apply zlen_nonneg).
  assert (Hg2 : geometry img (set_rv 0 c2)) by by destruct Hg.
  assert (Hz0 : zlen fec0 = rs_blocks (rounds (set_rv 0 c2)) * roots (set_rv 0 c2)) by by apply zlen_new_char.
  destruct (image_process_ok Hcreate Hjoin encode_rs c2 (fun k c => c = encoded img fec0 (set_rv 0 c2) k) (rs_n c2)) as (c3 & Hrun & ->).
  - done.
  - pose proof (ge_small _ _ Hg2). done.
  - change (rs_n c2) with (FEC_RSM - roots ctx). unfold FEC_RSM. lia.
  - change (roots c2) with (roots ctx). unfold FEC_RSM. lia.
  - done.
  - unfold encoded. rewrite Z.mul_0_l. unfold c2, set_fec. cbn. by rewrite zdrop_0.
  - by intros k c ->.
  - intros k m c fuel Hkm Hm Hfuel ->. eexists. split; [|reflexivity].
    exact (encode_rs_ok img fec0 (set_rv 0 c2) fuel k m Hg2 eq_refl Hz0 Hkm Hm Hfuel).
  - rewrite Hrun. cbn [mbind res_bind]. f_equal.
    assert (Hfec : fec (encoded img fec0 (set_rv 0 c2) (rs_blocks (rounds c2))) = all_codes (roots ctx) img).
    { unfold encoded. cbn [fec set_fec]. change (rounds (set_rv 0 c2)) with (rounds_of (roots ctx) img).
      change (roots (set_rv 0 c2)) with (roots ctx). change (rounds c2) with (rounds_of (roots ctx) img).
      fold n. rewrite (zdrop_ge n) by (rewrite Hz0; done). apply app_nil_r. }
    unfold image_ecc_save, header_block. rewrite Hfec. unfold codes_file, codes_header_block, codes_header. rewrite Hlen. done.
Qed.
End Encode.
