(* ===== verification/FecLoad.v ===== *)
(** Opening an image with codes: [load_ecc] finds what the fec tool appended to
    the image, and reads through the handle give the image back. *)
From stdpp Require Import base list numbers strings.
From Stdlib Require Import ZArith Lia.
From S2P Require Import Prelude Utils File FecBase FecRead FecEcc FecInstances FecProcess FecImage FecCodes FecVerity FecOpen.

(** * The header *)

Record fec_header_ok (h : fec_header) : Prop := {
  fh_ok_magic : is_u32 (fh_magic h);
  fh_ok_version : is_u32 (fh_version h);
  fh_ok_size : is_u32 (fh_size h);
  fh_ok_roots : is_u32 (fh_roots h);
  fh_ok_fec_size : is_u32 (fh_fec_size h);
  fh_ok_inp_size : is_u64 (fh_inp_size h);
  fh_ok_hash : zlen (fh_hash h) = SHA256_DIGEST_LENGTH;
}.

#[export] Instance digest_codec_ok : CodecOk (raw_codec SHA256_DIGEST_LENGTH) (fun b => zlen b = SHA256_DIGEST_LENGTH).
Proof. by apply raw_codec_ok. Qed.

#[export] Instance fec_header_codec_ok : CodecOk fec_header_codec fec_header_ok.
Proof.
  eapply struct_codec_ok_by.
  - apply _.
  - by intros [].
  - by intros h [].
Qed.

Section Load.
Context {dg : Digest} {rs : ReedSolomon} {kn : Kernel} (Hkn : reads_reliably).

Lemma codes_header_ok roots img : encodable roots img -> fec_header_ok (codes_header roots img).
Proof.
  intros He. pose proof (rounds_of_bounds _ _ He) as (Hr & Hz & Hs). pose proof (zlen_all_codes _ _ He) as Hl.
  pose proof (zlen_nonneg (all_codes roots img)). pose proof (zlen_nonneg img).
  destruct He. unfold FEC_RSM in *. split; cbn -[sha256]; try done. 4: apply sha256_len.
  1,2: unfold is_u32; lia. unfold is_u64.
  assert (rs_blocks (rounds_of roots img) * (255 - roots) <= rs_blocks (rounds_of roots img) * 255) by (unfold rs_blocks, FEC_BLOCKSIZE; nia). lia.
Qed.

Lemma header_encoded roots img :
  encodable roots img -> zlen (enc fec_header_codec (codes_header roots img)) = 60 /\
  dec fec_header_codec (enc fec_header_codec (codes_header roots img)) = codes_header roots img.
Proof. intros He. split; [by rewrite enc_len|]. by apply dec_enc, codes_header_ok. Qed.

Lemma zlen_codes_header_block roots img : encodable roots img -> zlen (codes_header_block roots img) = FEC_BLOCKSIZE.
Proof. intros He. unfold codes_header_block. rewrite !zlen_app, (proj1 (header_encoded _ _ He)), zlen_replicate. done. Qed.

(** * Loading the codes *)

Lemma read_codes_ok fuel start n size f :
  zlen (fd_data f) < 2 ^ 62 -> 0 <= start -> 0 <= n <= size -> size < 2 ^ 32 -> start + size <= zlen (fd_data f) ->
  size - n <= Z.of_nat fuel ->
  read_codes fuel start n size f = Ok (Some (ztake (size - n) (zdrop (start + n) (fd_data f))), f).
Proof.
  intros Hd Hs Hn Hz Hin. revert n Hn. induction fuel as [|fuel IH]; intros n Hn Hfuel; cbn [read_codes].
  { assert (n = size) as -> by lia. rewrite Z.ltb_irrefl, Z.sub_diag. done. }
  destruct (Z.ltb_spec n size); [|by assert (n = size) as -> by lia; rewrite Z.sub_diag].
  set (len := Z.min FEC_BLOCKSIZE (size - n)). unfold FEC_BLOCKSIZE in *. assert (0 < len <= size - n) by lia.
  rewrite (u64_small (start + n)), (u32_small (n + len)) by (unfold is_u32, is_u64; lia).
  erewrite run_bind by (apply (read_all_ok Hkn); lia).
  erewrite run_bind by (apply IH; lia). cbn beta. unfold mret, F_ret. do 3 f_equal.
  rewrite (block_at_inside (fd_data f) (start + n) len), (block_at_inside (fd_data f) (start + (n + len))) by lia.
  rewrite block_at_inside by lia. rewrite Z.add_assoc, <- block_at_app by lia. f_equal. lia.
Qed.

(** The handle with the codes of an image. *)
Definition ecc_loaded (roots : Z) (img : bytes) (valid : bool) (f : fec_handle) : fec_handle :=
  set_ecc (EccInfo valid roots (FEC_RSM - roots) (zlen (all_codes roots img)) (zlen img / FEC_BLOCKSIZE)
             (rounds_of roots img) (zlen img)) (set_data_size (zlen img) f).

Section Header.
Context (roots : Z) (img : bytes) (f : fec_handle) (He : encodable roots img).
Context (Hroots : e_roots (ecc f) = roots) (Hrsn : e_rsn (ecc f) = FEC_RSM - roots).
Context (Hsize : h_size f = zlen (fd_data f)) (Hsmall : zlen (fd_data f) < 2 ^ 62).
Context (Hroom : zlen img + zlen (all_codes roots img) + 60 <= zlen (fd_data f)).

(** The raw bytes of a header at an offset. *)
Definition header_at (disk : bytes) (offset : Z) : bytes := ztake 60 (zdrop offset disk).

Lemma parse_ecc_header_ok offset :
  0 <= offset -> offset + 60 <= zlen (fd_data f) ->
  header_at (fd_data f) offset = enc fec_header_codec (codes_header roots img) ->
  exists valid, parse_ecc_header offset f = Ok (Some tt, ecc_loaded roots img valid f).
Proof.
  intros Ho Hin Hraw. pose proof (rounds_of_bounds _ _ He) as (Hr & Hz & Hs). pose proof (zlen_all_codes _ _ He) as Hl.
  pose proof (header_encoded _ _ He) as [_ Hdec]. pose proof He as [Hro Hsome Hblocks Hrs].
  unfold FEC_RSM, rs_blocks, FEC_BLOCKSIZE in *.
  unfold parse_ecc_header. fstep. rewrite Hrsn, Hsize, Hroots.
  erewrite run_bind by (apply run_check, andb_true_iff; unfold FEC_RSM; lia). cbn beta.
  change (sizeof fec_header_codec) with 60. fcheck.
  erewrite run_bind by (apply run_check, negb_true_iff, Z.ltb_ge; lia). cbn beta.
  erewrite run_bind by (apply (read_all_ok Hkn); lia). fold (header_at (fd_data f) offset). rewrite Hraw, Hdec. cbn beta.
  unfold codes_header. cbn [fh_magic fh_version fh_size fh_roots fh_fec_size fh_inp_size fh_hash].
  fcheck. fcheck. fcheck. unfold FEC_RSM.
  erewrite run_bind by (apply run_check, negb_true_iff, orb_false_iff; lia). cbn beta. fcheck.
  destruct (all_codes_aligned _ _ He) as [Hmod Hmod2].
  rewrite Hmod, Hmod2. fstep.
  rewrite (image_blocks _ _ He). change (fec_div_round_up (zlen img / FEC_BLOCKSIZE) (255 - roots)) with (rounds_of roots img).
  fstep. fstep.
  assert (0 < rounds_of roots img * roots /\ rounds_of roots img * 1 <= rounds_of roots img * roots) by nia.
  erewrite run_bind.
  2:{ apply run_check, Z.eqb_eq. unfold FEC_BLOCKSIZE. rewrite (u32_small (rounds_of roots img)), (u32_small (rounds_of roots img * roots)), u32_small by (unfold is_u32; lia). lia. }
  cbn beta. fstep.
  erewrite run_bind by (apply read_codes_ok; cbn; lia). cbn beta. eexists. unfold update, ecc_loaded, FEC_RSM. cbn.
  rewrite Hroots, Hrsn. unfold set_ecc, set_data_size. cbn. reflexivity.
Qed.

(** A header without the magic is not looked at. *)
Lemma parse_ecc_header_bad offset :
  0 <= offset -> offset + 60 <= zlen (fd_data f) ->
  fh_magic (dec fec_header_codec (header_at (fd_data f) offset)) <> FEC_MAGIC ->
  parse_ecc_header offset f = Ok (None, f).
Proof.
  intros Ho Hin Hbad. destruct He as [Hro Hsome _ _]. pose proof (zlen_nonneg (all_codes roots img)).
  unfold FEC_RSM in *. unfold parse_ecc_header. fstep. rewrite Hrsn, Hsize.
  erewrite run_bind by (apply run_check, andb_true_iff; unfold FEC_RSM; lia). cbn beta.
  change (sizeof fec_header_codec) with 60. fcheck.
  erewrite run_bind by (apply run_check, negb_true_iff, Z.ltb_ge; lia). cbn beta.
  erewrite run_bind by (apply (read_all_ok Hkn); lia). fold (header_at (fd_data f) offset). cbn beta zeta.
  apply run_bind_fail. unfold check. destruct (Z.eqb_spec (fh_magic (dec fec_header_codec (header_at (fd_data f) offset))) FEC_MAGIC); done.
Qed.
End Header.

(** One of the two copies of the header in the last block is there; the first one
    may have lost its magic. *)
Definition header_readable (roots : Z) (img disk : bytes) : Prop :=
  let h := enc fec_header_codec (codes_header roots img) in
  let block := zlen disk - FEC_BLOCKSIZE in
  header_at disk block = h \/
  (fh_magic (dec fec_header_codec (header_at disk block)) <> FEC_MAGIC /\ header_at disk (zlen disk - 60) = h).

Lemma load_ecc_ok roots img disk mode flags :
  encodable roots img -> zlen disk < 2 ^ 62 -> zlen disk mod FEC_BLOCKSIZE = 0 ->
  zlen img + zlen (all_codes roots img) + FEC_BLOCKSIZE <= zlen disk -> header_readable roots img disk ->
  exists valid, load_ecc (new_handle disk (zlen disk) mode flags roots) =
    Ok (Some tt, ecc_loaded roots img valid (new_handle disk (zlen disk) mode flags roots)).
Proof.
  intros He Hsm Hm Hroom Hh. pose proof (zlen_nonneg (all_codes roots img)). pose proof (en_some _ _ He).
  set (f := new_handle disk (zlen disk) mode flags roots). unfold FEC_BLOCKSIZE in *.
  unfold load_ecc, parse_ecc. fstep. unfold FEC_BLOCKSIZE. change (h_data_size f) with (zlen disk).
  rewrite u64_small by (unfold is_u64; lia).
  assert (Hm2 : (zlen disk - 4096) mod 4096 = 0) by (rewrite Zminus_mod, Hm; done).
  rewrite Hm2. fcheck. unfold UINT64_MAX. fcheck.
  destruct Hh as [Hfirst|[Hbad Hlast]]; unfold FEC_BLOCKSIZE in *.
  - destruct (parse_ecc_header_ok roots img f He eq_refl eq_refl eq_refl) with (offset := zlen disk - 4096) as [v Hv]; [cbn; lia..|done|].
    exists v. erewrite run_bind by (unfold attempt; rewrite Hv; reflexivity). done.
  - destruct (parse_ecc_header_ok roots img f He eq_refl eq_refl eq_refl) with (offset := zlen disk - 60) as [v Hv]; [cbn; lia..|done|].
    exists v. erewrite run_bind.
    2:{ unfold attempt. rewrite (parse_ecc_header_bad roots img) by (done || (cbn; lia)). reflexivity. }
    cbn beta iota. change (sizeof fec_header_codec) with 60. rewrite <- Hv. f_equal. lia.
Qed.
End Load.

(** * From the tool to the reader *)

Section Written.
Context {dg : Digest} {rs : ReedSolomon}.

(** What the tool writes holds the codewords of the image. *)
Lemma written_word roots img rest k :
  encodable roots img -> 0 <= k < rs_blocks (rounds_of roots img) ->
  disk_word roots (rounds_of roots img) (zlen img) (img ++ all_codes roots img ++ rest) k =
    codeword roots (rounds_of roots img) img k.
Proof.
  intros He Hk. pose proof (zlen_all_codes _ _ He) as Hl. destruct He as [Hr _ _ _]. unfold disk_word, codeword.
  rewrite ztake_app_exact by done. f_equal. assert (0 <= k * roots /\ (k + 1) * roots <= rs_blocks (rounds_of roots img) * roots) as [H0 H1] by nia.
  rewrite zdrop_app_ge by lia. replace (zlen img + k * roots - zlen img) with (k * roots) by lia.
  rewrite <- (codes_part _ _ _ (rs_blocks (rounds_of roots img))) by lia. fold (all_codes roots img).
  unfold zdrop, ztake. rewrite drop_app_le by (unfold zlen in *; lia). apply take_app_le.
  rewrite length_drop. unfold zlen in *. lia.
Qed.

Lemma zlen_codes_file roots padding img :
  encodable roots img -> zlen (codes_file roots padding img) mod FEC_BLOCKSIZE = 0 /\
  zlen (all_codes roots img) + FEC_BLOCKSIZE <= zlen (codes_file roots padding img).
Proof.
  intros He. pose proof (zlen_all_codes _ _ He) as Hl. pose proof (zlen_codes_header_block _ _ He) as Hb.
  assert (Hu : fec_round_up padding FEC_BLOCKSIZE mod FEC_BLOCKSIZE = 0 /\ 0 <= fec_round_up padding FEC_BLOCKSIZE).
  { unfold fec_round_up, FEC_BLOCKSIZE, u64. change (2 ^ 64) with (2 ^ 52 * 4096).
    rewrite Z.mul_mod_distr_r, Z.mod_mul by done. pose proof (Z.mod_pos_bound (fec_div_round_up padding 4096) (2 ^ 52)). lia. }
  unfold codes_file. rewrite !zlen_app, Hb, zlen_replicate, Z2Nat.id, Hl by lia. destruct Hu as [Hu Hu0]. split; [|lia].
  unfold rs_blocks. apply Z.mod_divide in Hu as [x ->]; [|done]. unfold FEC_BLOCKSIZE.
  replace (rounds_of roots img * 4096 * roots + (x * 4096 + 4096)) with ((rounds_of roots img * roots + x + 1) * 4096) by ring.
  by apply Z.mod_mul.
Qed.

(** What is left of an image and its codes on a disk: each RS block has lost no
    more bytes than half of its parity bytes, and the header can be found. *)
Record survives (roots padding : Z) (img disk : bytes) : Prop := Survives {
  su_len : zlen disk = zlen (img ++ codes_file roots padding img);
  su_small : zlen disk < 2 ^ 62;
  su_header : header_readable roots img disk;
  su_errors : forall k, 0 <= k < rs_blocks (rounds_of roots img) ->
    hamming (disk_word roots (rounds_of roots img) (zlen img) (img ++ codes_file roots padding img) k)
            (disk_word roots (rounds_of roots img) (zlen img) disk k) <= roots / 2;
}.

Lemma survives_protected roots padding img disk :
  encodable roots img -> survives roots padding img disk -> protected roots (rounds_of roots img) img disk.
Proof.
  intros He [Hl Hs Hh Herr]. pose proof (rounds_of_bounds _ _ He) as (Hr & Hz & Hsm).
  destruct (zlen_codes_file roots padding img He) as [_ Hc]. rewrite zlen_all_codes in Hc by done. rewrite zlen_app in Hl.
  unfold rs_blocks in *. split; try (by destruct He); try lia.
  - unfold FEC_BLOCKSIZE in *. lia.
  - intros k Hk. specialize (Herr k Hk). unfold codes_file in Herr. by rewrite written_word in Herr.
Qed.
End Written.

(** C5: from the fec tool to libfec.  The tool computes the codes of an image given
    as sparse files of whole blocks; image and codes, with their header, are on a
    disk of less than 2^62 bytes that has damaged at most half as many bytes of
    each RS block as it has parity bytes, and on which the first copy of the header
    is intact, or its magic is destroyed and the second copy is intact: [load_ecc]
    finds the codes, and [fec_pread] gives any range of the original image with an
    aligned start back.  This holds for 1 to 254 parity bytes, codes of less than
    2^32 bytes, any number of threads of the tool and of the reader (which can be
    created and joined), any padding, any sizes of partial reads (of at least one
    byte), and a decoder that corrects half as many errors as there are parity
    bytes. *)
Theorem encode_open_read {dg : Digest} {rs : ReedSolomon} {kn : Kernel} {th : Threads}
    junk files ctx disk mode flags offset count :
  let img := sparse_bytes files in
  reads_reliably -> (forall i, pthread_create i = true) -> (forall i, pthread_join i = true) -> rs_corrects (roots ctx) ->
  Forall (Forall chunk_ok) files -> encodable (roots ctx) img -> survives (roots ctx) (padding ctx) img disk ->
  0 <= offset -> 0 < count -> offset + count <= zlen img -> offset mod FEC_BLOCKSIZE = 0 ->
  encode junk files ctx = Ok (codes_file (roots ctx) (padding ctx) img) /\
  exists f n, load_ecc (new_handle disk (zlen disk) mode flags (roots ctx)) = Ok (Some tt, f) /\
    fec_pread count offset f = Ok (Some (ztake count (zdrop offset img)), set_errors n f).
Proof.
  intros img Hkn Hc Hj Hrs Hf He Hsu Ho Hn Hin Hal. split; [by apply encode_ok|].
  pose proof (survives_protected _ _ _ _ He Hsu) as Hp. destruct Hsu as [Hl Hs Hh _]. rewrite zlen_app in Hl.
  destruct (zlen_codes_file (roots ctx) (padding ctx) img He) as [Hm Hle].
  destruct (load_ecc_ok Hkn (roots ctx) img disk mode flags He Hs) as [v Hv]; [|lia|done|].
  { rewrite Hl, Z.add_mod, Hm, (en_blocks _ _ He) by done. done. }
  set (f := ecc_loaded _ _ _ _) in Hv. destruct (fec_pread_ecc Hkn Hc Hj (roots ctx) (rounds_of (roots ctx) img) img f offset count)
    as [n Hrun]; [done..| |done|done|done|].
  { pose proof (zlen_nonneg (all_codes (roots ctx) img)). change (h_size f) with (zlen disk). unfold FEC_BLOCKSIZE in *. lia. }
  exists f, n. split; [exact Hv|]. rewrite Hrun. pose proof (covered_aligned count offset Hn Hal).
  destruct (Z.ltb_spec (covered count offset) count); [lia|done].
Qed.

(** With 254 parity bytes for each byte of data, an image is read back even when
    nothing of it is left. *)
Lemma wiped_survives {dg : Digest} padding img wiped :
  @encodable 254 img -> zlen wiped = zlen img -> zlen (img ++ @codes_file dg repetition_code 254 padding img) < 2 ^ 62 ->
  @survives dg repetition_code 254 padding img (wiped ++ @codes_file dg repetition_code 254 padding img).
Proof.
  intros He Hw Hs. assert (Hl : zlen (wiped ++ codes_file (rs := repetition_code) 254 padding img) =
    zlen (img ++ codes_file (rs := repetition_code) 254 padding img)) by (rewrite !zlen_app; lia).
  split; [done|lia| |].
  - left. unfold codes_file, header_at. rewrite !app_assoc.
    pose proof (zlen_codes_header_block (rs := repetition_code) _ _ He) as Hb.
    rewrite zdrop_app_exact by (rewrite (zlen_app _ (codes_header_block _ _)), Hb; lia). unfold codes_header_block.
    apply ztake_app_exact. symmetry. apply (header_encoded (rs := repetition_code) _ _ He).
  - intros k Hk. unfold disk_word, FEC_RSM. change (255 - 254) with 1. unfold rs_data. change (seqZ 0 1) with [0].
    cbn [fmap list_fmap]. pose proof (zlen_nonneg img). unfold rs_blocks, FEC_BLOCKSIZE in Hk.
    rewrite !zdrop_app_ge by lia. rewrite Hw. etransitivity; [apply hamming_head|]. done.
Qed.

Lemma zeros_encodable : encodable 254 (zeros 4096).
Proof. split; rewrite ?zlen_zeros; done. Qed.

Lemma wiped_zeros_survive :
  @survives sum_digest repetition_code 254 0 (zeros 4096)
    (sevens 4096 ++ @codes_file sum_digest repetition_code 254 0 (zeros 4096)).
Proof.
  pose proof zeros_encodable as He. apply wiped_survives; [done|unfold sevens; rewrite zlen_replicate, zlen_zeros; lia|].
  unfold codes_file, codes_header_block.
  rewrite !zlen_app, (zlen_all_codes (rs := repetition_code) _ _ He), (proj1 (header_encoded (rs := repetition_code) _ _ He)), !zlen_replicate, zlen_zeros by lia.
  reflexivity.
Qed.

Lemma encode_open_read_witness :
  let file := @codes_file sum_digest repetition_code 254 0 (zeros 4096) in
  let disk := sevens 4096 ++ file in
  @encode sum_digest repetition_code four_threads (fun _ => 1) [[Hole 4096]] (Image 254 0 0 0 0 0 0 0 0 0 [] []) = Ok file /\
  exists f n, @load_ecc sum_digest whole_kernel (new_handle disk (zlen disk) 0 0 254) = Ok (Some tt, f) /\
    @fec_pread sum_digest repetition_code whole_kernel four_threads 4096 0 f = Ok (Some (ztake 4096 (zdrop 0 (zeros 4096))), set_errors n f).
Proof.
  assert (Himg : sparse_bytes [[Hole 4096]] = zeros 4096) by reflexivity. intros file disk.
  rewrite <- Himg. refine (@encode_open_read sum_digest repetition_code whole_kernel four_threads (fun _ => 1) [[Hole 4096]]
    (Image 254 0 0 0 0 0 0 0 0 0 [] []) disk 0 0 0 4096 whole_kernel_reliable (fun _ => eq_refl) (fun _ => eq_refl)
    repetition_corrects _ _ _ _ _ _ _).
  - by repeat constructor.
  - rewrite Himg. exact zeros_encodable.
  - rewrite Himg. exact wiped_zeros_survive.
  - lia.
  - lia.
  - rewrite Himg, zlen_zeros; lia.
  - reflexivity.
Defined.
