(* ===== verification/FecDecode.v ===== *)
(** The decoder of the fec tool: an image is corrected by its codes, and the number
    of corrections is the number of damaged bytes. *)
From stdpp Require Import base list numbers strings.
From Stdlib Require Import ZArith Lia.
From S2P Require Import Prelude Utils File FecBase FecRead FecEcc FecInstances FecProcess FecImage FecCodes FecVerity FecOpen FecLoad.

(** * Differences *)

Lemma hamming_cons x y a b : hamming (x :: a) (y :: b) = (if decide (x <> y) then 1 else 0) + hamming a b.
Proof. unfold hamming. cbn [zip_with]. rewrite filter_cons. cbn [fst snd]. destruct (decide (x <> y)); rewrite ?zlen_cons; lia. Qed.

Lemma hamming_self a : hamming a a = 0.
Proof. induction a as [|x a IH]; [done|]. rewrite hamming_cons, IH. by destruct (decide _). Qed.

Lemma hamming_zero a b : zlen a = zlen b -> hamming a b = 0 -> a = b.
Proof.
  intros Hl%Nat2Z.inj. revert b Hl. induction a as [|x a IH]; intros [|y b] Hl Hh; simplify_eq/=; [done|].
  rewrite hamming_cons in Hh. assert (0 <= hamming a b) by apply zlen_nonneg. destruct (decide (x <> y)) as [|Hxy]; [lia|].
  apply dec_stable in Hxy as ->. f_equal. by apply IH.
Qed.

(** The same bytes behind both words make no difference. *)
Lemma hamming_app_r a b c : zlen a = zlen b -> hamming (a ++ c) (b ++ c) = hamming a b.
Proof.
  intros Hl%Nat2Z.inj. revert b Hl. induction a as [|x a IH]; intros [|y b] Hl; simplify_eq/=; [apply hamming_self|].
  cbn [app]. by rewrite !hamming_cons, IH.
Qed.

(** * Writing an RS block *)

Section Block.
Context (img : bytes) (c0 : image) (Hg : geometry img c0).

Let st := rs_blocks (rounds c0).

(** [b] has the bytes of the image in the RS block [k], from the byte [j] of the
    block on, and is [b0] elsewhere. *)
Definition restored (k j : Z) (b0 b : bytes) : Prop :=
  zlen b = zlen img /\
  forall o, 0 <= o < zlen img -> byte_at b o = if (o mod st =? k) && (j <=? o / st) then byte_at img o else byte_at b0 o.

Lemma set_block_ok n k j b0 p v :
  0 <= k < st -> 0 <= j -> j + Z.of_nat n = rs_n c0 -> zlen b0 = zlen img ->
  exists b, set_block (k * rs_n c0 + j) ((fun i => byte_at img (k + i * (rounds c0 * FEC_BLOCKSIZE))) <$> seqZ j (Z.of_nat n))
              (set_rv v (set_input p b0 c0)) = Ok (set_rv v (set_input p b c0)) /\ restored k j b0 b.
Proof.
  intros Hk Hj Hn. revert j b0 Hj Hn. induction n as [|n IH]; intros j b0 Hj Hn Hb0.
  { exists b0. split; [done|]. split; [done|]. intros o Ho. pose proof (ge_rounds _ _ Hg) as [Hr Hz]. fold st in Hz.
    destruct (Z.leb_spec j (o / st)) as [Hge|]; [|by rewrite andb_false_r]. exfalso.
    assert (o / st < rs_n c0) by (apply Z.div_lt_upper_bound; lia). lia. }
  rewrite (seqZ_cons j) by lia. replace (Z.pred (Z.of_nat (S n))) with (Z.of_nat n) by lia. cbn [fmap list_fmap set_block].
  destruct (interleaved img c0 Hg k j) as (Hi & Ho & Hu); [done|lia|].
  unfold image_set_interleaved_byte. cbn [rs_n rounds inp_size input pos set_rv set_input]. rewrite Hi, (ge_size _ _ Hg).
  set (o := k + j * (rounds c0 * FEC_BLOCKSIZE)) in *.
  assert (Hst : 0 < st) by lia. assert (Ho_eq : o = j * st + k) by (unfold o, st, rs_blocks; ring).
  assert (Homod : o mod st = k) by (rewrite Ho_eq, Z.add_comm, Z.mod_add, Z.mod_small; lia).
  assert (Hodiv : o / st = j) by (rewrite Ho_eq, Z.div_add_l, Z.div_small; lia).
  destruct (Z.leb_spec (zlen img) o) as [Hout|Hinside].
  - rewrite byte_at_outside by done. cbn [CHECK Z.eqb mbind res_bind]. rewrite u64_small by done. rewrite <- Z.add_assoc.
    destruct (IH (j + 1) b0) as (b & Hrun & Hb & Hbytes); [lia..|]. exists b. split; [exact Hrun|]. split; [done|].
    intros x Hx. rewrite Hbytes by done. destruct (Z.eqb_spec (x mod st) k) as [Hxk|]; [|done]. cbn [andb].
    destruct (Z.leb_spec (j + 1) (x / st)), (Z.leb_spec j (x / st)); try done; [lia|]. exfalso.
    assert (x = o) by (rewrite Ho_eq, (Z.div_mod x st) by lia; nia). lia.
  - destruct (mem_write_ok b0 o [byte_at img o]) as [b1 Hw]; [lia|cbn; change (zlen [byte_at img o]) with 1; lia|].
    rewrite Hw. cbn [mbind res_bind]. rewrite u64_small by done. rewrite <- Z.add_assoc.
    pose proof (mem_write_len _ _ _ _ Hw) as Hl1.
    destruct (IH (j + 1) b1) as (b & Hrun & Hb & Hbytes); [lia..|]. exists b. split; [exact Hrun|]. split; [done|].
    assert (Hone : forall x, byte_at b1 x = if x =? o then byte_at img o else byte_at b0 x).
    { intros x. unfold byte_at at 1. rewrite (mem_write_znth _ _ _ _ x Hw). change (zlen [byte_at img o]) with 1.
      destruct (Z.eqb_spec x o) as [->|Hne].
      - destruct (Z.leb_spec o o), (Z.ltb_spec o (o + 1)); try lia. cbn [andb]. by rewrite Z.sub_diag.
      - destruct (Z.leb_spec o x), (Z.ltb_spec x (o + 1)); try lia; done. }
    intros x Hx. rewrite Hbytes, Hone by done. destruct (Z.eqb_spec x o) as [->|Hne].
    + rewrite Homod, Hodiv, Z.eqb_refl, Z.leb_refl. cbn [andb]. by destruct (j + 1 <=? j).
    + destruct (Z.eqb_spec (x mod st) k) as [Hxk|]; [|done]. cbn [andb].
      destruct (Z.leb_spec (j + 1) (x / st)), (Z.leb_spec j (x / st)); try done; [lia|]. exfalso. apply Hne.
      rewrite Ho_eq, (Z.div_mod x st) by lia. nia.
Qed.
End Block.

(** * Correcting an image *)

(** The number of damaged bytes in the first [n] RS blocks. *)
Definition damage (roots rounds : Z) (img bad : bytes) (n : Z) : Z :=
  foldr Z.add 0 ((fun k => hamming (rs_data img (FEC_RSM - roots) rounds k) (rs_data bad (FEC_RSM - roots) rounds k)) <$> seqZ 0 n).

Lemma foldr_add_app l m : foldr Z.add 0 (l ++ m) = foldr Z.add 0 l + foldr Z.add 0 m.
Proof. induction l as [|x l IH]; [done|]. cbn. lia. Qed.

Lemma damage_snoc roots rounds img bad n :
  0 <= n -> damage roots rounds img bad (n + 1) = damage roots rounds img bad n +
    hamming (rs_data img (FEC_RSM - roots) rounds n) (rs_data bad (FEC_RSM - roots) rounds n).
Proof. intros. unfold damage. rewrite seqZ_app, fmap_app, foldr_add_app by lia. change (seqZ (0 + n) 1) with [n]. cbn. lia. Qed.

Section Decode.
Context {rs : ReedSolomon} {th : Threads}.
Context (Hcreate : forall i, pthread_create i = true) (Hjoin : forall i, pthread_join i = true).
Context (img bad : bytes) (c0 : image) (Hg : geometry img c0) (Hlen : zlen bad = zlen img).
Context (Hrs : rs_corrects (roots c0)) (Hfec : fec c0 = codes (roots c0) (rounds c0) img (rs_blocks (rounds c0))).

Let st := rs_blocks (rounds c0).
Let good_word k := rs_data img (FEC_RSM - roots c0) (rounds c0) k.
Let bad_word k := rs_data bad (FEC_RSM - roots c0) (rounds c0) k.

Context (Herr : forall k, 0 <= k < st -> hamming (good_word k) (bad_word k) <= roots c0 / 2).

(** The first [k] RS blocks are corrected and counted. *)
Definition decoded (k : Z) (c : image) : Prop :=
  exists p b, c = set_rv (damage (roots c0) (rounds c0) img bad k) (set_input p b c0) /\ zlen b = zlen img /\
    forall o, 0 <= o < zlen img -> byte_at b o = if o mod st <? k then byte_at img o else byte_at bad o.

Lemma stripe_positive : 0 < st.
Proof. destruct (ge_rounds _ _ Hg). unfold st, rs_blocks, FEC_BLOCKSIZE. lia. Qed.

Lemma damage_bounds k : 0 <= k <= st -> 0 <= damage (roots c0) (rounds c0) img bad k <= k * 255.
Proof.
  intros [Hk0 Hk1]. revert k Hk0 Hk1. refine (natlike_ind _ _ _); [done|]. intros k Hk IH Hk1.
  rewrite <- Z.add_1_r, damage_snoc by done. fold (good_word k) (bad_word k).
  pose proof (Herr k ltac:(lia)) as He. pose proof (ge_roots _ _ Hg) as Hr. unfold FEC_RSM in Hr.
  assert (0 <= hamming (good_word k) (bad_word k)) by apply zlen_nonneg.
  assert (roots c0 / 2 <= roots c0) by (apply Z.div_le_upper_bound; lia). specialize (IH ltac:(lia)). lia.
Qed.

(** An RS block that was not corrected yet is as it was. *)
Lemma decoded_word k b :
  0 <= k < st -> zlen b = zlen img ->
  (forall o, 0 <= o < zlen img -> byte_at b o = if o mod st <? k then byte_at img o else byte_at bad o) ->
  rs_data b (FEC_RSM - roots c0) (rounds c0) k = bad_word k.
Proof.
  intros Hk Hb Hbytes. pose proof (ge_roots _ _ Hg). unfold bad_word, rs_data. apply list_fmap_ext. intros i x Hx.
  apply lookup_seqZ in Hx as [-> Hi]. fold (rs_blocks (rounds c0)). fold st.
  replace (k + (0 + Z.of_nat i) * st) with (Z.of_nat i * st + k) by ring. pose proof stripe_positive.
  destruct (Z.lt_ge_cases (Z.of_nat i * st + k) (zlen img)); [|by rewrite !byte_at_outside by lia].
  rewrite Hbytes by nia. rewrite Z.add_comm, Z.mod_add, Z.mod_small by lia. by rewrite Z.ltb_irrefl.
Qed.

Lemma undamaged_byte o :
  0 <= o < zlen img -> good_word (o mod st) = bad_word (o mod st) -> byte_at img o = byte_at bad o.
Proof.
  intros Ho Hw. pose proof stripe_positive as Hst. destruct (ge_rounds _ _ Hg) as [_ Hz]. fold st in Hz.
  assert (Hi : 0 <= o / st < FEC_RSM - roots c0).
  { rewrite <- (ge_rsn _ _ Hg). split; [apply Z.div_pos; lia|]. apply Z.div_lt_upper_bound; lia. }
  apply (f_equal (fun l => znth l (o / st))) in Hw. unfold good_word, bad_word in Hw. rewrite !znth_rs_data in Hw by done.
  fold (rs_blocks (rounds c0)) in Hw. fold st in Hw. rewrite Z.add_comm, Z.mul_comm, <- Z.div_mod in Hw by lia. by injection Hw.
Qed.

(** Correcting one RS block of [b], of which the first [k] are corrected. *)
Lemma correct_block k d p b :
  let rc := hamming (good_word k) (bad_word k) in
  0 <= k < st -> 0 <= d -> d + rc < 2 ^ 64 -> zlen b = zlen img ->
  (forall o, 0 <= o < zlen img -> byte_at b o = if o mod st <? k then byte_at img o else byte_at bad o) ->
  exists b', zlen b' = zlen img /\
    (forall o, 0 <= o < zlen img -> byte_at b' o = if o mod st <? k + 1 then byte_at img o else byte_at bad o) /\
    (if 0 <? rc
     then c ← set_block (k * rs_n c0) (good_word k) (set_rv d (set_input p b c0)); Ok (set_rv (rv c +u64 rc) c)
     else Ok (set_rv d (set_input p b c0))) = Ok (set_rv (d + rc) (set_input p b' c0)).
Proof.
  intros rc Hk Hd Hsum Hb Hbytes. pose proof (ge_roots _ _ Hg) as Hr. pose proof (ge_rsn _ _ Hg) as Hn. unfold FEC_RSM in *.
  assert (Hrc : 0 <= rc) by apply zlen_nonneg. pose proof stripe_positive. destruct (Z.ltb_spec 0 rc) as [Hpos|Hzero].
  - destruct (set_block_ok img c0 Hg (Z.to_nat (rs_n c0)) k 0 b p d Hk) as (b' & Hrun & Hb' & Hres); [lia..|].
    exists b'. split; [done|]. split.
    + intros o Ho. rewrite Hres, Hbytes by done. fold st. pose proof (Z.div_pos o st).
      destruct (Z.eqb_spec (o mod st) k), (Z.leb_spec 0 (o / st)), (Z.ltb_spec (o mod st) k), (Z.ltb_spec (o mod st) (k + 1)); done || lia.
    + rewrite Z.add_0_r, Z2Nat.id in Hrun by lia. unfold good_word, rs_data, FEC_RSM. rewrite <- Hn, Hrun.
      cbn [mbind res_bind]. cbn [rv set_rv]. rewrite u64_small by (unfold is_u64; lia). done.
  - assert (rc = 0) as Hz by lia. exists b. split; [done|]. rewrite Hz, Z.add_0_r. split; [|done].
    intros o Ho. rewrite Hbytes by done. destruct (Z.ltb_spec (o mod st) k), (Z.ltb_spec (o mod st) (k + 1)); try done; [lia|].
    symmetry. apply undamaged_byte; [done|]. replace (o mod st) with k by lia. apply hamming_zero; [|done].
    unfold good_word, bad_word. by rewrite !zlen_rs_data by (unfold FEC_RSM; lia).
Qed.

Lemma parity_read k :
  0 <= k < st -> mem_read (fec c0) (k * roots c0) (roots c0) = Ok (encode_rs_char (roots c0) (good_word k)).
Proof.
  intros Hk. pose proof (ge_roots _ _ Hg) as Hr. unfold mem_read. rewrite Hfec, zlen_codes by (fold st; lia). fold st.
  destruct (Z.leb_spec 0 (k * roots c0)); [|nia].
  destruct (Z.leb_spec 0 (roots c0)); [|lia]. destruct (Z.leb_spec (k * roots c0 + roots c0) (st * roots c0)); [|nia].
  cbn [andb]. by rewrite codes_part by lia.
Qed.

Lemma decode_step k c :
  0 <= k < st -> decoded k c ->
  exists c', decoded (k + 1) c' /\ forall fuel end_, k * rs_n c0 < end_ ->
    decode_rs (S fuel) (k * rs_n c0) end_ (k * roots c0) c = decode_rs fuel ((k + 1) * rs_n c0) end_ ((k + 1) * roots c0) c'.
Proof.
  intros Hk (p & b & -> & Hb & Hbytes). pose proof (ge_roots _ _ Hg) as Hr. pose proof (ge_rsn _ _ Hg) as Hn.
  pose proof (ge_small _ _ Hg) as Hs. fold st in Hs. unfold FEC_RSM in Hr, Hs, Hn.
  set (d := damage (roots c0) (rounds c0) img bad k) in *.
  assert (Hgb : geometry b (set_rv d (set_input p b c0))) by (destruct Hg; by split; cbn; rewrite ?Hb).
  pose proof (get_block_ok b _ Hgb k Hk eq_refl) as Hget. cbn [rs_n roots rounds set_rv set_input] in Hget.
  rewrite (decoded_word k b Hk Hb Hbytes) in Hget.
  assert (Hwg : zlen (good_word k) = FEC_RSM - roots c0) by (apply zlen_rs_data; unfold FEC_RSM; lia).
  assert (Hwb : zlen (bad_word k) = FEC_RSM - roots c0) by (apply zlen_rs_data; unfold FEC_RSM; lia).
  set (rc := hamming (good_word k) (bad_word k)).
  assert (Hdec : decode_rs_char (roots c0) (bad_word k ++ encode_rs_char (roots c0) (good_word k)) [] =
    (rc, good_word k ++ encode_rs_char (roots c0) (good_word k), [])).
  { rewrite (Hrs (good_word k)); [by rewrite hamming_app_r by lia|done|rewrite zlen_app, encode_rs_len by lia; lia|].
    rewrite hamming_app_r by lia. by apply Herr. }
  assert (Hrc : 0 <= rc) by apply zlen_nonneg. pose proof (damage_bounds k ltac:(lia)) as Hd. fold d in Hd.
  pose proof (damage_bounds (k + 1) ltac:(lia)) as Hd1. rewrite damage_snoc in Hd1 by lia. fold d (good_word k) (bad_word k) rc in Hd1.
  destruct (correct_block k d p b Hk) as (b' & Hb' & Hbytes' & Hrun); [lia|fold rc; lia|done|done|]. fold rc in Hrun.
  exists (set_rv (d + rc) (set_input p b' c0)). split; [exists p, b'; by rewrite damage_snoc by lia|].
  intros fuel end_ Hend. cbn [decode_rs]. cbn [rs_n roots fec set_rv set_input].
  destruct (Z.eqb_spec (rs_n c0 + roots c0) FEC_RSM) as [_|Hx]; [|unfold FEC_RSM in Hx; lia].
  cbn [CHECK mbind res_bind]. destruct (Z.ltb_spec (k * rs_n c0) end_); [|lia]. rewrite Hget. cbn [mbind res_bind].
  rewrite parity_read by done. cbn [mbind res_bind]. rewrite Hdec. destruct (Z.leb_spec 0 rc); [|lia]. cbn [CHECK mbind res_bind].
  rewrite ztake_app_exact by (unfold FEC_RSM in Hwg; lia). rewrite Hrun. cbn [mbind res_bind].
  assert (k * rs_n c0 <= st * 255 /\ k * roots c0 <= st * 255) as [? ?] by nia.
  rewrite (u64_small (k * rs_n c0 + _)), (u64_small (k * roots c0 + _)) by (unfold is_u64; cbn; nia). f_equal; cbn; ring.
Qed.

Lemma decode_rs_ok fuel k m c :
  0 <= k <= m -> m <= st -> m - k <= Z.of_nat fuel -> decoded k c ->
  exists c', decode_rs fuel (k * rs_n c0) (m * rs_n c0) (k * roots c0) c = Ok c' /\ decoded m c'.
Proof.
  intros Hkm Hm. pose proof (ge_roots _ _ Hg) as Hr. pose proof (ge_rsn _ _ Hg) as Hn. unfold FEC_RSM in Hr, Hn.
  assert (Hdone : forall fuel c, decoded m c -> decode_rs fuel (m * rs_n c0) (m * rs_n c0) (m * roots c0) c = Ok c).
  { intros fl c' (p & b & -> & _). assert (Hx : (rs_n c0 + roots c0 =? FEC_RSM) = true) by (apply Z.eqb_eq; unfold FEC_RSM; lia).
    destruct fl; cbn [decode_rs]; cbn [rs_n roots set_rv set_input]; rewrite Hx; cbn [CHECK mbind res_bind]; by rewrite Z.ltb_irrefl. }
  revert k c Hkm. induction fuel as [|fuel IH]; intros k c Hkm Hfuel Hc.
  { assert (k = m) as -> by lia. exists c. by rewrite Hdone. }
  destruct (decide (k = m)) as [->|Hne]; [exists c; by rewrite Hdone|].
  destruct (decode_step k c ltac:(lia) Hc) as (c' & Hc' & Hstep). rewrite Hstep by nia. apply IH; [lia|lia|done].
Qed.

Lemma image_decode_ok :
  input c0 = bad -> exists c', image_process decode_rs c0 = Ok c' /\ input c' = img /\
    rv c' = damage (roots c0) (rounds c0) img bad st.
Proof.
  intros Hi. pose proof (ge_roots _ _ Hg) as Hr. pose proof (ge_rsn _ _ Hg) as Hn.
  destruct (image_process_ok Hcreate Hjoin decode_rs c0 decoded (rs_n c0)) as (c' & Hrun & p & b & -> & Hb & Hbytes).
  - apply (ge_rounds _ _ Hg).
  - apply (ge_small _ _ Hg).
  - unfold FEC_RSM in *. lia.
  - lia.
  - done.
  - exists (pos c0), bad. split; [by rewrite <- Hi; destruct c0|]. split; [done|]. intros o Ho.
    pose proof (Z.mod_pos_bound o st stripe_positive). destruct (Z.ltb_spec (o mod st) 0); [lia|done].
  - by intros k c (p & b & -> & _).
  - intros k m c fuel Hkm Hm Hfuel Hc. by apply decode_rs_ok.
  - eexists. split; [exact Hrun|]. cbn [input rv set_rv set_input]. split; [|done]. apply list_eq_znth; [done|].
    intros o Ho. rewrite !byte_at_inside by lia. f_equal. rewrite Hbytes by lia. fold st.
    pose proof (Z.mod_pos_bound o st stripe_positive). destruct (Z.ltb_spec (o mod st) st); [done|lia].
Qed.
End Decode.

(** * The file of codes *)

Section CodesFile.
Context {dg : Digest} {rs : ReedSolomon}.

Lemma image_ecc_load_ok junk roots_ pad img ctx :
  encodable roots_ img ->
  image_ecc_load junk (codes_file roots_ pad img) ctx =
    Ok (set_fec (zlen (all_codes roots_ img)) (all_codes roots_ img)
         (set_sizes (zlen img) (zlen img / FEC_BLOCKSIZE) (rounds_of roots_ img) (set_roots roots_ (FEC_RSM - roots_) ctx))).
Proof.
  intros He. pose proof (zlen_all_codes _ _ He) as Hl. pose proof (rounds_of_bounds _ _ He) as (Hr & _ & _).
  pose proof (zlen_codes_header_block _ _ He) as Hb. destruct (zlen_codes_file roots_ pad img He) as [_ Hle].
  destruct (all_codes_aligned _ _ He) as [Hmod Hmod2]. pose proof (image_blocks _ _ He) as Hbl.
  unfold image_ecc_load. destruct (Z.leb_spec FEC_BLOCKSIZE (zlen (codes_file roots_ pad img))); [|pose proof (zlen_nonneg (all_codes roots_ img)); lia].
  cbn [CHECK mbind res_bind].
  assert (Hlast : zdrop (zlen (codes_file roots_ pad img) - FEC_BLOCKSIZE) (codes_file roots_ pad img) = codes_header_block roots_ img).
  { unfold codes_file. rewrite !app_assoc. apply zdrop_app_exact. rewrite (zlen_app _ (codes_header_block _ _)), Hb. lia. }
  rewrite Hlast. rewrite (MoveFrom_at fec_header_codec fec_header_ok _ _ (codes_header roots_ img));
    [|unfold codes_header_block; apply bytes_at_intro|by apply codes_header_ok].
  destruct He as [Hroots Hsome Hblocks Hsmall]. cbn [mbind res_bind].
  unfold codes_header. cbn [fh_magic fh_version fh_size fh_roots fh_fec_size fh_inp_size fh_hash].
  change (FEC_MAGIC =? FEC_MAGIC) with true. change (FEC_VERSION =? FEC_VERSION) with true.
  change (60 =? sizeof fec_header_codec) with true. cbn [CHECK mbind res_bind].
  destruct (Z.eqb_spec roots_ 0), (Z.leb_spec FEC_RSM roots_); try lia. cbn [orb negb CHECK mbind res_bind].
  rewrite Hmod, Hmod2. cbn [Z.eqb orb negb CHECK mbind res_bind]. unfold calculate_rounds.
  destruct (Z.eqb_spec (zlen img) 0); [lia|]. rewrite Hblocks. cbn [negb Z.eqb CHECK mbind res_bind].
  rewrite Hbl. unfold image_ecc_new. cbn [rounds roots rs_n set_sizes set_roots]. fold (rounds_of roots_ img).
  rewrite CHECK_lt by done. cbn [mbind res_bind fec_size set_fec].
  assert (Hu : u32 (rounds_of roots_ img * roots_ * FEC_BLOCKSIZE) = zlen (all_codes roots_ img)).
  { rewrite Hl. unfold rs_blocks in *. rewrite u32_small; [ring|]. unfold is_u32, FEC_BLOCKSIZE in *. nia. }
  rewrite Hu, Z.eqb_refl. cbn [CHECK mbind res_bind]. unfold FEC_BLOCKSIZE in Hle.
  destruct (Z.leb_spec (zlen (all_codes roots_ img)) (zlen (codes_file roots_ pad img))); [|lia]. cbn [CHECK mbind res_bind].
  assert (Htake : ztake (zlen (all_codes roots_ img)) (codes_file roots_ pad img) = all_codes roots_ img)
    by (unfold codes_file; by rewrite ztake_app_exact).
  rewrite Htake, bool_decide_true by done. done.
Qed.
End CodesFile.

(** C21: the decoder of the fec tool restores an image: an image is encoded, and what
    is left of the image is decoded with the codes; when each RS block has lost at
    most half as many bytes as it has parity bytes, the result is the image, and
    the number of corrections that is reported is the number of bytes that were
    damaged.  Neither the threads nor the layout of the sparse files, nor the
    padding of the codes, make a difference.  Conditions: threads can be started
    and joined, the Reed-Solomon decoder corrects what its documentation promises,
    the sparse files have well-formed chunks, the image is some whole blocks with 1
    to 254 parity bytes per RS block and less than 2^32 bytes of codes, what is
    left of it has its length, and the decoder is not told of a padding. *)
Theorem decode_encoded {dg : Digest} {rs : ReedSolomon} {th : Threads} junk junk' files ctx codes bad_file ctx' :
  let img := sparse_bytes files in let bad := sparse_bytes [bad_file] in let rounds := rounds_of (roots ctx) img in
  (forall i, pthread_create i = true) -> (forall i, pthread_join i = true) -> rs_corrects (roots ctx) ->
  Forall (Forall chunk_ok) files -> Forall chunk_ok bad_file -> encodable (roots ctx) img ->
  encode junk files ctx = Ok codes -> zlen bad = zlen img -> padding ctx' = 0 ->
  (forall k, 0 <= k < rs_blocks rounds ->
    hamming (rs_data img (FEC_RSM - roots ctx) rounds k) (rs_data bad (FEC_RSM - roots ctx) rounds k) <= roots ctx / 2) ->
  decode junk' bad_file codes ctx' = Ok (img, damage (roots ctx) rounds img bad (rs_blocks rounds)).
Proof.
  intros img bad rds Hc Hj Hrs Hf Hbf He Henc Hlen Hpad Herr. rewrite (encode_ok Hc Hj _ _ _ Hf He) in Henc. injection Henc as <-.
  unfold decode. rewrite Hpad. cbn [CHECK Z.eqb mbind res_bind]. rewrite image_ecc_load_ok by done. cbn [mbind res_bind].
  set (c1 := set_fec _ _ _). pose proof (rounds_of_bounds _ _ He) as (Hr0 & Hz & Hs). pose proof He as [Hr Hsome Hblocks Hsmall]. fold img in Hz, Hs, Hsome, Hblocks.
  fold rds in Hz, Hs, Hr0. unfold FEC_RSM in Hr, Hz, Hs.
  rewrite image_load_ok; [|by constructor|exact Hr|fold bad; rewrite Hlen; nia|fold bad; by rewrite Hlen]. cbn [mbind res_bind]. fold bad.
  set (c2 := loaded bad c1). assert (Hr2 : rounds c2 = rds) by (unfold rds, rounds_of; rewrite <- Hlen; done).
  assert (Hg : geometry img c2).
  { split; [done|done|exact Hlen| |]; rewrite Hr2; [|unfold FEC_RSM; lia]. change (rs_n c2) with (255 - roots ctx). lia. }
  destruct (image_decode_ok Hc Hj img bad c2 Hg Hlen Hrs) as (c3 & Hrun & Hin & Hrv); [|by rewrite Hr2|done|].
  { rewrite Hr2. done. }
  rewrite Hrun. cbn [mbind res_bind]. rewrite Hin, Hrv, Hr2. done.
Qed.

Lemma decode_encoded_witness :
  @decode sum_digest repetition_code four_threads (fun _ => 2) [Data (sevens 4096)]
    (@codes_file sum_digest repetition_code 254 0 (zeros 4096)) (Image 0 0 3 0 0 0 0 0 0 0 [] []) =
  Ok (zeros 4096, 4096).
Proof.
  set (ctx := Image 254 0 0 0 0 0 0 0 0 0 [] []). assert (Himg : sparse_bytes [[Hole 4096]] = zeros 4096) by reflexivity.
  assert (Hbad : sparse_bytes [[Data (sevens 4096)]] = sevens 4096) by (unfold sparse_bytes; cbn; apply app_nil_r).
  assert (Hok : Forall (Forall chunk_ok) [[Hole 4096]]) by by repeat constructor.
  assert (Hz : zlen (sevens 4096) = 4096) by (unfold sevens; rewrite zlen_replicate; lia).
  assert (He : encodable (roots ctx) (sparse_bytes [[Hole 4096]])) by (rewrite Himg; exact zeros_encodable).
  pose proof (@decode_encoded sum_digest repetition_code four_threads (fun _ => 1) (fun _ => 2) [[Hole 4096]] ctx
    (@codes_file sum_digest repetition_code 254 0 (zeros 4096))
    [Data (sevens 4096)] (Image 0 0 3 0 0 0 0 0 0 0 [] []) (fun _ => eq_refl) (fun _ => eq_refl) repetition_corrects Hok) as H.
  cbn zeta in H. rewrite Hbad, Himg in H.
  assert (Hd : damage (roots ctx) (rounds_of (roots ctx) (zeros 4096)) (zeros 4096) (sevens 4096)
    (rs_blocks (rounds_of (roots ctx) (zeros 4096))) = 4096) by (vm_compute; reflexivity).
  rewrite Hd in H. apply H.
  - repeat constructor; cbn [chunk_len]; rewrite Hz; done.
  - exact zeros_encodable.
  - apply (@encode_ok sum_digest repetition_code four_threads (fun _ => eq_refl) (fun _ => eq_refl) _ _ ctx Hok He).
  - rewrite Hz, zlen_zeros; lia.
  - reflexivity.
  - intros k Hk. unfold rs_data. change (FEC_RSM - roots ctx) with 1. change (seqZ 0 1) with [0]. cbn [fmap list_fmap].
    etransitivity; [apply hamming_head|]. done.
Defined.
