(* ===== verification/VerityTree.v ===== *)
(** Model of src/verity/build_verity_tree.cpp: the tool that computes the hash tree
    of an image.  The levels are parts of one array, the root level first; a
    pointer to a level is its offset in the array. *)
From stdpp Require Import base list numbers strings.
From Stdlib Require Import ZArith Lia.
From S2P Require Import Prelude Utils FecBase FecImage.

(** [div_round_up(x, y)] on uint64_t *)
Definition div_round_up (x y : Z) : Z := u64 (u64 (x + y) - 1) / y.

(** [do level_blocks = ... while (level--)], with [level] more turns after this
    one. *)
Fixpoint tree_blocks_loop (level : nat) (level_blocks hashes_per_block : Z) : Z :=
  let level_blocks := div_round_up level_blocks hashes_per_block in
  match level with O => level_blocks | S level => tree_blocks_loop level level_blocks hashes_per_block end.

Definition verity_tree_blocks (data_size block_size hash_size : Z) (level : nat) : Z :=
  tree_blocks_loop level (div_round_up data_size block_size) (div_round_up block_size hash_size).

Section Tree.
Context {dg : Digest}.
Context (salt : bytes).

Let block_size := FEC_BLOCKSIZE.
Let hash_size := SHA256_DIGEST_LENGTH.

Definition hash_block (block : bytes) : bytes := sha256 (salt ++ block).

(** [for (size_t i = 0; i < in_size; i += block_size)]: the hashes of the blocks at
    [p] of [m], [in_size] bytes to go. *)
Fixpoint hash_blocks (fuel : nat) (m : bytes) (p in_size : Z) : res bytes :=
  if in_size <=? 0 then Ok []
  else
    match fuel with
    | O => OutOfBounds
    | S fuel =>
        block ← mem_read m p block_size;
        rest ← hash_blocks fuel m (p + block_size) (in_size - block_size);
        Ok (hash_block block ++ rest)
    end.

(** The hashes that [hash_chunk] writes for a chunk. *)
Definition chunk_hashes (zero_block_hash : bytes) (c : sparse_chunk) : res bytes :=
  CHECK (chunk_len c mod block_size =? 0);;
  match c with
  | Data d => hash_blocks (length d) d 0 (zlen d)
  | Hole n => Ok (concat (replicate (Z.to_nat (n / block_size)) zero_block_hash))
  end.

(** [sparse_file_callback(file, false, false, hash_chunk, &ctx)]: [ctx.hashes] is
    the offset [p]. *)
Fixpoint hash_chunks (zero_block_hash : bytes) (file : list sparse_chunk) (tree : bytes) (p : Z) : res bytes :=
  match file with
  | [] => Ok tree
  | c :: file =>
      h ← chunk_hashes zero_block_hash c;
      tree ← mem_write tree p h;
      hash_chunks zero_block_hash file tree (p + zlen h)
  end.

(** [do ... while (level_blocks > 1)]: the numbers of blocks of the levels, from
    the lowest one.  Each level is smaller than the one below it, so that 64
    levels are enough. *)
Fixpoint count_levels (fuel : nat) (len : Z) (levels : nat) : list Z :=
  match fuel with
  | O => []
  | S fuel =>
      let level_blocks := verity_tree_blocks len block_size hash_size levels in
      level_blocks :: (if 1 <? level_blocks then count_levels fuel len (S levels) else [])
  end.

(** The offset of a level: those above it come first. *)
Definition level_offset (level_blocks : list Z) (i : nat) : Z :=
  foldr Z.add 0 (drop (S i) level_blocks) * block_size.

(** [for (int i = 0; i < levels; i++)], from the level [i] on: the tree and the
    root hash. *)
Fixpoint hash_levels (n i : nat) (level_blocks : list Z) (tree : bytes) : res (bytes * bytes) :=
  match n with
  | O => OutOfBounds
  | S n =>
      let blocks := default 0 (level_blocks !! i) in
      out ← hash_blocks (length tree) tree (level_offset level_blocks i) (blocks * block_size);
      match level_blocks !! S i with
      | Some next =>
          tree ← mem_write tree (level_offset level_blocks (S i)) out;
          CHECK (div_round_up (zlen out) block_size =? next);;
          hash_levels n (S i) level_blocks tree
      | None => CHECK (zlen out =? hash_size);; Ok (tree, out)
      end
  end.

(** [main]: the tree and the root hash. *)
Definition build_verity_tree (file : list sparse_chunk) : res (bytes * bytes) :=
  let len := sparse_file_len file in
  CHECK (len mod block_size =? 0);;
  let level_blocks := count_levels 64 len 0 in
  let verity_blocks := foldr Z.add 0 level_blocks in
  CHECK (default 0 (last level_blocks) =? 1);;
  let tree := replicate (Z.to_nat (verity_blocks * block_size)) 0 in
  let zero_block_hash := hash_block (replicate (Z.to_nat block_size) 0) in
  tree ← hash_chunks zero_block_hash file tree (level_offset level_blocks 0);
  hash_levels (length level_blocks) 0 level_blocks tree.

(** [main] with -s: the size of the tree. *)
Definition verity_tree_size (size : Z) : Z := u64 (foldr Z.add 0 (count_levels 64 size 0) * block_size).

End Tree.
