(* ===== verification/VerityLevels.v ===== *)
(** The hash tree of an image, as a definition: the levels from the data up, and
    that build_verity_tree computes them. *)
From stdpp Require Import base list numbers strings.
From Stdlib Require Import ZArith Lia.
From S2P Require Import Prelude Utils File FecBase FecRead FecEcc FecInstances FecProcess FecImage FecCodes FecVerity VerityTree.

(** * The number of blocks on each level *)

(** The blocks for the hashes of [n] blocks: 128 hashes in a block. *)
Definition blocks_above (n : Z) : Z := fec_div_round_up n 128.

(** The levels from the lowest one up to a single block. *)
Fixpoint level_counts (fuel : nat) (n : Z) : list Z :=
  match fuel with
  | O => []
  | S fuel => let b := blocks_above n in b :: (if 1 <? b then level_counts fuel b else [])
  end.

Lemma blocks_above_bounds n : 0 <= n -> n <= blocks_above n * 128 < n + 128 /\ 0 <= blocks_above n.
Proof. intros. by apply round_up_bounds. Qed.

Lemma div_round_up_eq x y : 0 <= x -> 0 < y -> x + y < 2 ^ 64 -> div_round_up x y = fec_div_round_up x y.
Proof.
  intros Hx Hy Hs. unfold div_round_up, fec_div_round_up. rewrite !u64_small by (unfold is_u64; rewrite ?u64_small by (unfold is_u64; lia); lia).
  pose proof (Z.div_mod x y ltac:(lia)) as Hd. pose proof (Z.mod_pos_bound x y Hy) as Hm.
  destruct (Z.ltb_spec 0 (x mod y)).
  - symmetry. apply (Z.div_unique _ _ _ (x mod y - 1)); lia.
  - symmetry. apply (Z.div_unique _ _ _ (y - 1)); lia.
Qed.

(** The number of blocks on the level [l], from 1 up; 0 is the data. *)
Fixpoint blocks_at_level (l : nat) (n : Z) : Z :=
  match l with O => n | S l => blocks_at_level l (blocks_above n) end.

Lemma blocks_at_level_succ l n : blocks_at_level (S l) n = blocks_above (blocks_at_level l n).
Proof. revert n. induction l as [|l IH]; intros n; [done|]. cbn [blocks_at_level] in *. by rewrite IH. Qed.

Lemma blocks_at_level_range l n : 0 <= n -> 0 <= blocks_at_level l n <= n.
Proof.
  revert n. induction l as [|l IH]; intros n Hn; cbn [blocks_at_level]; [lia|].
  destruct (blocks_above_bounds n Hn) as [H1 H2]. specialize (IH (blocks_above n) H2). nia.
Qed.

Lemma tree_blocks_loop_eq level n : 0 <= n < 2 ^ 63 -> tree_blocks_loop level n 128 = blocks_at_level (S level) n.
Proof.
  revert n. induction level as [|level IH]; intros n Hn; cbn [tree_blocks_loop]; rewrite div_round_up_eq by lia; [done|].
  fold (blocks_above n). destruct (blocks_above_bounds n) as [H1 H2]; [lia|]. rewrite IH by lia. done.
Qed.

Lemma count_levels_eq fuel len l :
  0 <= len < 2 ^ 63 -> len mod FEC_BLOCKSIZE = 0 ->
  count_levels fuel len l = level_counts fuel (blocks_at_level l (len / FEC_BLOCKSIZE)).
Proof.
  intros Hl Hm. revert l. induction fuel as [|fuel IH]; intros l; cbn [count_levels level_counts]; [done|].
  assert (Hb : verity_tree_blocks len FEC_BLOCKSIZE SHA256_DIGEST_LENGTH l = blocks_above (blocks_at_level l (len / FEC_BLOCKSIZE))).
  { unfold verity_tree_blocks. rewrite (div_round_up_eq len) by (unfold FEC_BLOCKSIZE in *; lia).
    change (div_round_up FEC_BLOCKSIZE SHA256_DIGEST_LENGTH) with 128.
    unfold fec_div_round_up. rewrite Hm. change (0 <? 0) with false. cbn iota. rewrite Z.add_0_r.
    rewrite tree_blocks_loop_eq by (unfold FEC_BLOCKSIZE; split; [apply Z.div_pos|apply Z.div_lt_upper_bound]; lia).
    apply blocks_at_level_succ. }
  rewrite Hb. f_equal. destruct (1 <? _); [|done]. by rewrite IH, blocks_at_level_succ.
Qed.

(** libfec computes the same numbers. *)
Lemma tree_levels_eq fuel n :
  0 < n -> n < 2 ^ 32 -> n < 2 ^ Z.of_nat fuel -> fuel <> O ->
  tree_levels fuel n = (n :: removelast (level_counts fuel n), foldr Z.add 0 (level_counts fuel n)) /\
  last (level_counts fuel n) = Some 1.
Proof.
  revert n. induction fuel as [|fuel IH]; intros n Hn H32 Hfuel Hne; [done|]. cbn [tree_levels level_counts].
  rewrite (u64_small (n * _)) by (unfold is_u64, SHA256_DIGEST_LENGTH; lia).
  assert (Hb : fec_div_round_up (n * SHA256_DIGEST_LENGTH) FEC_BLOCKSIZE = blocks_above n).
  { unfold blocks_above, fec_div_round_up. change FEC_BLOCKSIZE with (128 * SHA256_DIGEST_LENGTH).
    rewrite Z.div_mul_cancel_r, Z.mul_mod_distr_r by done. f_equal. unfold SHA256_DIGEST_LENGTH.
    destruct (Z.ltb_spec 0 (n mod 128 * 32)), (Z.ltb_spec 0 (n mod 128)); lia. }
  rewrite Hb, (u32_small n) by (unfold is_u32; lia). destruct (blocks_above_bounds n) as [H1 H2]; [lia|].
  destruct (Z.ltb_spec 1 (blocks_above n)) as [Hmore|Hone].
  - assert (Hpow : 2 ^ Z.of_nat (S fuel) = 2 * 2 ^ Z.of_nat fuel) by (rewrite Nat2Z.inj_succ, Z.pow_succ_r; lia).
    assert (Hf0 : fuel <> O) by (intros ->; change (2 ^ Z.of_nat 1) with 2 in *; lia).
    destruct (IH (blocks_above n)) as [-> Hlast]; [lia|lia|lia|done|]. rewrite last_cons, Hlast. split; [|done].
    destruct (level_counts fuel (blocks_above n)) eqn:E; [by destruct fuel|]. done.
  - replace (blocks_above n) with 1 by lia. done.
Qed.

(** Each number is that of the blocks above the one before it, up to 1. *)
Fixpoint chain (n : Z) (counts : list Z) : Prop :=
  match counts with
  | [] => n = 1
  | b :: counts => b = blocks_above n /\ 0 < b /\ 1 < n /\ chain b counts
  end.

Lemma level_counts_chain fuel n :
  0 < n -> last (level_counts fuel n) = Some 1 -> exists b rest, level_counts fuel n = b :: rest /\ b = blocks_above n /\ 0 < b /\ chain b rest.
Proof.
  revert n. induction fuel as [|fuel IH]; intros n Hn Hlast; [done|]. cbn [level_counts] in *.
  exists (blocks_above n), (if 1 <? blocks_above n then level_counts fuel (blocks_above n) else []). split; [done|]. split; [done|].
  destruct (blocks_above_bounds n) as [Hb _]; [lia|]. assert (Hb0 : 0 < blocks_above n) by lia. split; [done|].
  destruct (Z.ltb_spec 1 (blocks_above n)); [|cbn; lia].
  rewrite last_cons in Hlast. destruct (last (level_counts fuel (blocks_above n))) as [x|] eqn:E; [|].
  - destruct (IH (blocks_above n)) as (b & rest & -> & -> & Hpos & Hc); [lia|congruence|]. done.
  - apply last_None in E. destruct fuel; [|done]. cbn in Hlast. injection Hlast as Hlast. lia.
Qed.

(** * The hashes *)

Section Levels.
Context {dg : Digest} (salt : bytes).

(** The hashes of the blocks of [m]. *)
Definition hash_level (m : bytes) : bytes :=
  concat ((fun i => hash_block salt (block_at m (i * FEC_BLOCKSIZE) FEC_BLOCKSIZE)) <$> seqZ 0 (zlen m / FEC_BLOCKSIZE)).

(** Zeros up to a multiple of the block size. *)
Definition pad_block (b : bytes) : bytes := b ++ replicate (Z.to_nat (- zlen b mod FEC_BLOCKSIZE)) 0.

(** [n] levels above [m], the lowest one first. *)
Fixpoint levels_above (n : nat) (m : bytes) : list bytes :=
  match n with
  | O => []
  | S n => let l := pad_block (hash_level m) in l :: levels_above n l
  end.

(** The tree of an image, the root block first, and the hash of the root block. *)
Definition tree_levels_of (img : bytes) : list bytes :=
  levels_above (length (level_counts 64 (zlen img / FEC_BLOCKSIZE))) img.
Definition verity_tree (img : bytes) : bytes := concat (rev (tree_levels_of img)).
Definition root_hash (img : bytes) : bytes := hash_block salt (default [] (last (tree_levels_of img))).

Lemma zlen_hashes m k :
  0 <= k -> zlen (concat ((fun i => hash_block salt (block_at m (i * FEC_BLOCKSIZE) FEC_BLOCKSIZE)) <$> seqZ 0 k)) = k * SHA256_DIGEST_LENGTH.
Proof.
  revert k. apply natlike_ind; [done|]. intros k Hk IH.
  rewrite <- Z.add_1_r, seqZ_app, fmap_app, concat_app, zlen_app, IH by lia. change (seqZ (0 + k) 1) with [0 + k].
  cbn [fmap list_fmap concat]. rewrite app_nil_r. unfold hash_block. rewrite sha256_len. lia.
Qed.

Lemma zlen_hash_level m : zlen (hash_level m) = zlen m / FEC_BLOCKSIZE * SHA256_DIGEST_LENGTH.
Proof. apply zlen_hashes, Z.div_pos; [apply zlen_nonneg|done]. Qed.

Lemma zlen_level m :
  zlen (pad_block (hash_level m)) = blocks_above (zlen m / FEC_BLOCKSIZE) * FEC_BLOCKSIZE.
Proof.
  unfold pad_block. rewrite zlen_app, zlen_replicate, zlen_hash_level.
  set (n := zlen m / FEC_BLOCKSIZE). assert (Hn : 0 <= n) by (apply Z.div_pos; [apply zlen_nonneg|done]).
  destruct (blocks_above_bounds n Hn) as [Hb _]. unfold FEC_BLOCKSIZE, SHA256_DIGEST_LENGTH in *.
  assert (Hmod : - (n * 32) mod 4096 = blocks_above n * 4096 - n * 32).
  { symmetry. apply (Z.mod_unique _ _ (- blocks_above n)); lia. }
  rewrite Hmod. lia.
Qed.

Lemma hash_level_block b : zlen b = FEC_BLOCKSIZE -> hash_level b = hash_block salt b.
Proof.
  intros Hb. unfold hash_level. rewrite Hb. change (seqZ 0 (FEC_BLOCKSIZE / FEC_BLOCKSIZE)) with [0].
  cbn [fmap list_fmap concat]. rewrite app_nil_r, <- block_at_inside by (rewrite ?Hb; done).
  rewrite Z.mul_0_l, zdrop_0. unfold ztake. by rewrite take_ge by (unfold zlen in Hb; lia).
Qed.

Lemma hash_level_app a b : zlen a mod FEC_BLOCKSIZE = 0 -> hash_level (a ++ b) = hash_level a ++ hash_level b.
Proof.
  intros Ha. unfold hash_level. rewrite zlen_app. apply Z.mod_divide in Ha as [n Hn]; [|done]. rewrite Hn.
  rewrite Z.div_add_l, Z.div_mul by done. pose proof (zlen_nonneg a). pose proof (zlen_nonneg b).
  pose proof (Z.div_pos (zlen b) FEC_BLOCKSIZE ltac:(lia) ltac:(done)).
  rewrite seqZ_app, fmap_app, concat_app by (unfold FEC_BLOCKSIZE in *; lia). f_equal; f_equal.
  - apply list_fmap_ext. intros i x Hx. apply lookup_seqZ in Hx as [-> Hi]. f_equal.
    rewrite <- !block_at_inside by (rewrite ?zlen_app, ?Hn; unfold FEC_BLOCKSIZE in *; lia).
    unfold ztake, zdrop. rewrite drop_app_le by (unfold zlen, FEC_BLOCKSIZE in *; lia).
    apply take_app_le. rewrite length_drop. unfold zlen, FEC_BLOCKSIZE in *. lia.
  - rewrite Z.add_0_l. rewrite <- (Z.add_0_r n) at 1. rewrite <- fmap_add_seqZ, <- list_fmap_compose.
    apply list_fmap_ext. intros i x Hx. apply lookup_seqZ in Hx as [-> Hi]. cbn. f_equal.
    assert (0 <= Z.of_nat i < zlen b / FEC_BLOCKSIZE) as Hi2 by lia.
    assert (Z.of_nat i * FEC_BLOCKSIZE + FEC_BLOCKSIZE <= zlen b)
      by (pose proof (Z.mul_div_le (zlen b) FEC_BLOCKSIZE ltac:(done)); unfold FEC_BLOCKSIZE in *; lia).
    rewrite <- !block_at_inside by (rewrite ?zlen_app, ?Hn; unfold FEC_BLOCKSIZE in *; lia).
    rewrite zdrop_app_ge by (unfold FEC_BLOCKSIZE in *; lia). do 2 f_equal. lia.
Qed.

(** ** What the tool computes *)

Lemma hash_blocks_ok fuel pre m post p n :
  p = zlen pre -> n = zlen m -> zlen m mod FEC_BLOCKSIZE = 0 -> zlen m <= Z.of_nat fuel ->
  hash_blocks salt fuel (pre ++ m ++ post) p n = Ok (hash_level m).
Proof.
  intros -> ->. revert pre m. induction fuel as [|fuel IH]; intros pre m Hm Hfuel; cbn [hash_blocks].
  { pose proof (zlen_nonneg m). destruct (Z.leb_spec (zlen m) 0); [|lia]. unfold hash_level. by replace (zlen m) with 0 by lia. }
  destruct (Z.leb_spec (zlen m) 0) as [|Hpos].
  { pose proof (zlen_nonneg m). unfold hash_level. by replace (zlen m) with 0 by lia. }
  assert (Hlen : FEC_BLOCKSIZE <= zlen m) by (apply Z.mod_divide in Hm as [x Hx]; [|done]; unfold FEC_BLOCKSIZE in *; lia).
  set (b := ztake FEC_BLOCKSIZE m). set (r := zdrop FEC_BLOCKSIZE m).
  assert (Hsplit : b ++ r = m) by (apply take_drop).
  assert (Hb : zlen b = FEC_BLOCKSIZE) by (apply zlen_ztake; unfold FEC_BLOCKSIZE in *; lia).
  assert (Hr : zlen r = zlen m - FEC_BLOCKSIZE) by (apply zlen_zdrop; unfold FEC_BLOCKSIZE in *; lia).
  replace (pre ++ m ++ post) with (pre ++ b ++ r ++ post) by by rewrite (app_assoc b), Hsplit.
  rewrite mem_read_app by done. cbn [mbind res_bind]. rewrite (app_assoc pre b).
  rewrite <- Hb at 1. rewrite <- (zlen_app pre b), <- Hr.
  assert (Hrm : zlen r mod FEC_BLOCKSIZE = 0) by (rewrite Hr, Zminus_mod, Hm; done).
  rewrite IH by (unfold FEC_BLOCKSIZE in *; lia || done). cbn [mbind res_bind].
  rewrite <- (hash_level_block b Hb), <- hash_level_app by by rewrite Hb.
  by rewrite Hsplit.
Qed.

Lemma fmap_seqZ_const {B} (f : Z -> B) c n : 0 <= n -> (forall x, f x = c) -> f <$> seqZ 0 n = replicate (Z.to_nat n) c.
Proof.
  intros Hn Hf. rewrite <- (zlen_seqZ 0 n) at 2 by done. unfold zlen. rewrite Nat2Z.id.
  induction (seqZ 0 n) as [|x l IH]; [done|]. cbn. by rewrite Hf, IH.
Qed.

Lemma hash_level_zeros n :
  0 <= n -> hash_level (replicate (Z.to_nat n) 0) =
    concat (replicate (Z.to_nat (n / FEC_BLOCKSIZE)) (hash_block salt (replicate (Z.to_nat FEC_BLOCKSIZE) 0))).
Proof.
  intros Hn. unfold hash_level. rewrite zlen_replicate, Z2Nat.id by done. f_equal.
  apply fmap_seqZ_const; [by apply Z.div_pos|]. intros o. f_equal. apply fmap_seqZ_const; [done|]. intros x. apply byte_at_zeros.
Qed.

Lemma chunk_hashes_ok c :
  chunk_ok c -> chunk_hashes salt (hash_block salt (replicate (Z.to_nat FEC_BLOCKSIZE) 0)) c = Ok (hash_level (chunk_bytes c)).
Proof.
  intros [H0 Hm]. unfold chunk_hashes. rewrite Hm. cbn [CHECK Z.eqb mbind res_bind]. destruct c as [d|n]; cbn [chunk_len chunk_bytes] in *.
  - pose proof (hash_blocks_ok (length d) [] d [] 0 (zlen d) eq_refl eq_refl Hm) as H. rewrite app_nil_r in H. apply H. unfold zlen. lia.
  - by rewrite hash_level_zeros.
Qed.

Lemma hash_chunks_ok file pre old post p :
  Forall chunk_ok file -> p = zlen pre -> zlen old = zlen (hash_level (concat (chunk_bytes <$> file))) ->
  hash_chunks salt (hash_block salt (replicate (Z.to_nat FEC_BLOCKSIZE) 0)) file (pre ++ old ++ post) p =
    Ok (pre ++ hash_level (concat (chunk_bytes <$> file)) ++ post).
Proof.
  intros Hok. revert pre old p. induction Hok as [|c file Hc Hf IH]; intros pre old p -> Hold; cbn [hash_chunks].
  { destruct old as [|x old]; [done|]. rewrite zlen_cons in Hold. change (hash_level _) with (@nil Z) in Hold.
    rewrite zlen_nil in Hold. pose proof (zlen_nonneg old). lia. }
  rewrite chunk_hashes_ok by done. cbn [mbind res_bind]. cbn [fmap list_fmap concat] in *.
  assert (Hcm : zlen (chunk_bytes c) mod FEC_BLOCKSIZE = 0) by (rewrite zlen_chunk_bytes by done; apply Hc).
  rewrite hash_level_app, zlen_app in * by done. set (h := hash_level (chunk_bytes c)) in *.
  pose proof (zlen_nonneg h). pose proof (zlen_nonneg (hash_level (concat (chunk_bytes <$> file)))).
  rewrite mem_write_app by (rewrite ?zlen_app; try done; pose proof (zlen_nonneg post); lia). cbn [mbind res_bind].
  assert (Hd : zdrop (zlen h) (old ++ post) = zdrop (zlen h) old ++ post).
  { unfold zdrop. apply drop_app_le. unfold zlen in *. lia. }
  rewrite Hd, (app_assoc pre h), <- (zlen_app pre h). rewrite IH; [by rewrite <- !app_assoc|done|]. rewrite zlen_zdrop by lia. lia.
Qed.

Lemma counts_lookup before n rest :
  (before ++ n :: rest) !! length before = Some n /\ (before ++ n :: rest) !! S (length before) = head rest /\
  level_offset (before ++ n :: rest) (length before) = foldr Z.add 0 rest * FEC_BLOCKSIZE.
Proof.
  split; [by apply list_lookup_middle|]. unfold level_offset.
  replace (before ++ n :: rest) with ((before ++ [n]) ++ rest) by by rewrite <- app_assoc.
  assert (Hl : S (length before) = length (before ++ [n])) by (rewrite length_app; cbn; lia). rewrite Hl, drop_app_length. split; [|done].
  rewrite lookup_app_r, Nat.sub_diag by done. by destruct rest.
Qed.

Lemma sum_nonneg l : Forall (Z.le 0) l -> 0 <= foldr Z.add 0 l.
Proof. induction 1; cbn; lia. Qed.

(** A level is written in front of the one that it is computed from. *)
Lemma write_level m above post :
  0 <= above -> mem_write (replicate (Z.to_nat (above + blocks_above (zlen m / FEC_BLOCKSIZE) * FEC_BLOCKSIZE)) 0 ++ post) above (hash_level m) =
    Ok (replicate (Z.to_nat above) 0 ++ pad_block (hash_level m) ++ post).
Proof.
  intros Ha. pose proof (zlen_level m) as Hl. pose proof (Z.mod_pos_bound (- zlen (hash_level m)) FEC_BLOCKSIZE ltac:(done)).
  unfold pad_block in *. rewrite zlen_app, zlen_replicate, Z2Nat.id in Hl by lia. rewrite <- Hl.
  pose proof (zlen_nonneg (hash_level m)). pose proof (zlen_nonneg post).
  rewrite Z2Nat.inj_add, replicate_add, <- app_assoc by lia.
  rewrite mem_write_app by (rewrite ?zlen_app, ?zlen_replicate; lia). do 2 f_equal. rewrite <- app_assoc. f_equal. unfold zdrop.
  rewrite drop_app_le by (rewrite length_replicate; lia). rewrite drop_replicate. do 2 f_equal. lia.
Qed.

(** The levels above [m], of [n] blocks; what is above [m] in the array is zero. *)
Lemma hash_levels_ok before n rest m post :
  chain n rest -> zlen m = n * FEC_BLOCKSIZE -> 0 < n < 2 ^ 32 -> Forall (Z.le 0) rest ->
  hash_levels salt (S (length rest)) (length before) (before ++ n :: rest)
    (replicate (Z.to_nat (foldr Z.add 0 rest * FEC_BLOCKSIZE)) 0 ++ m ++ post) =
  Ok (concat (rev (levels_above (length rest) m)) ++ m ++ post, hash_block salt (default [] (last (m :: levels_above (length rest) m)))).
Proof.
  revert before n m post. induction rest as [|b rest IH]; intros before n m post Hc Hm Hn Hpos; cbn [hash_levels].
  - cbn in Hc. subst n. destruct (counts_lookup before 1 []) as (-> & -> & ->). cbn [head default id].
    rewrite (hash_blocks_ok _ [] m post); [|done|lia|by rewrite Hm|rewrite !length_app; unfold zlen; lia].
    cbn [mbind res_bind]. rewrite hash_level_block by done. assert (Hh : zlen (hash_block salt m) = SHA256_DIGEST_LENGTH) by apply sha256_len. by rewrite Hh.
  - destruct Hc as (Hb & Hb0 & _ & Hc). inversion_clear Hpos as [|? ? _ Hrest]. destruct (counts_lookup before n (b :: rest)) as (-> & -> & ->). cbn [head default id].
    assert (Hsum : 0 <= foldr Z.add 0 rest) by by apply sum_nonneg.
    rewrite (hash_blocks_ok _ _ m post);
      [|rewrite zlen_replicate, Z2Nat.id by (cbn; unfold FEC_BLOCKSIZE; lia); done|lia|rewrite Hm; by apply Z.mod_mul|rewrite !length_app; unfold zlen; lia].
    cbn [mbind res_bind]. replace (before ++ n :: b :: rest) with ((before ++ [n]) ++ b :: rest) by by rewrite <- app_assoc.
    assert (Hl : S (length before) = length (before ++ [n])) by (rewrite length_app; cbn; lia). rewrite Hl.
    destruct (counts_lookup (before ++ [n]) b rest) as (_ & _ & ->).
    assert (Hnm : zlen m / FEC_BLOCKSIZE = n) by (rewrite Hm; by apply Z.div_mul).
    pose proof (write_level m (foldr Z.add 0 rest * FEC_BLOCKSIZE) (m ++ post) ltac:(unfold FEC_BLOCKSIZE; lia)) as Hw.
    rewrite Hnm, <- Hb in Hw. cbn [foldr]. rewrite (Z.mul_add_distr_r b), (Z.add_comm (b * _)), Hw. cbn [mbind res_bind].
    pose proof (zlen_level m) as Hlen. rewrite Hnm, <- Hb in Hlen.
    assert (Hcheck : div_round_up (zlen (hash_level m)) FEC_BLOCKSIZE = b).
    { rewrite zlen_hash_level, Hnm. unfold SHA256_DIGEST_LENGTH, FEC_BLOCKSIZE. rewrite div_round_up_eq by lia.
      destruct (blocks_above_bounds n) as [H1 H2]; [lia|]. destruct (round_up_bounds (n * 32) 4096); [lia|lia|]. lia. }
    rewrite Hcheck, Z.eqb_refl. cbn [CHECK mbind res_bind length]. rewrite IH by (done || (destruct (blocks_above_bounds n); lia)).
    cbn [levels_above rev]. rewrite concat_app. cbn [concat]. by rewrite app_nil_r, <- !app_assoc.
Qed.

Lemma chain_nonneg n rest : chain n rest -> Forall (Z.le 0) rest.
Proof. revert n. induction rest as [|b rest IH]; intros n; [done|]. intros (_ & Hb & _ & Hc). constructor; [lia|by eapply IH]. Qed.

Lemma levels_end n : 0 < n < 2 ^ 32 -> last (level_counts 64 n) = Some 1.
Proof. intros Hn. by destruct (tree_levels_eq 64 n) as [_ Hlast]; [lia|lia|lia|done|]. Qed.

(** The numbers of blocks of the levels of an image. *)
Lemma image_levels n :
  0 < n < 2 ^ 32 -> exists b rest, level_counts 64 n = b :: rest /\ b = blocks_above n /\ 0 < b < 2 ^ 32 /\ chain b rest.
Proof.
  intros Hn. destruct (level_counts_chain 64 n) as (b & rest & Hl & Hb & Hb0 & Hc); [lia|by apply levels_end|]. exists b, rest.
  repeat split; try done. destruct (blocks_above_bounds n); lia.
Qed.

(** The hashes of the data, in an array of zeros. *)
Lemma hash_data_ok file b rest :
  let img := concat (chunk_bytes <$> file) in
  Forall chunk_ok file -> b = blocks_above (zlen img / FEC_BLOCKSIZE) -> 0 <= b -> 0 <= rest ->
  hash_chunks salt (hash_block salt (replicate (Z.to_nat FEC_BLOCKSIZE) 0)) file
    (replicate (Z.to_nat ((b + rest) * FEC_BLOCKSIZE)) 0) (rest * FEC_BLOCKSIZE) =
  Ok (replicate (Z.to_nat (rest * FEC_BLOCKSIZE)) 0 ++ pad_block (hash_level img)).
Proof.
  intros img Hok Hb Hb0 Hr. pose proof (zlen_level img) as Hl. rewrite <- Hb in Hl.
  pose proof (Z.mod_pos_bound (- zlen (hash_level img)) FEC_BLOCKSIZE ltac:(done)) as Hmod. unfold pad_block in *.
  rewrite zlen_app, zlen_replicate, Z2Nat.id in Hl by lia. pose proof (zlen_nonneg (hash_level img)).
  replace ((b + rest) * FEC_BLOCKSIZE) with (rest * FEC_BLOCKSIZE + (zlen (hash_level img) + - zlen (hash_level img) mod FEC_BLOCKSIZE)) by lia.
  rewrite !Z2Nat.inj_add, !replicate_add by (unfold FEC_BLOCKSIZE in *; lia).
  apply hash_chunks_ok; [done|rewrite zlen_replicate; unfold FEC_BLOCKSIZE; lia|rewrite zlen_replicate; fold img; lia].
Qed.

Lemma build_verity_tree_ok file :
  let img := concat (chunk_bytes <$> file) in
  Forall chunk_ok file -> 0 < zlen img < 2 ^ 44 -> zlen img mod FEC_BLOCKSIZE = 0 ->
  build_verity_tree salt file = Ok (verity_tree img, root_hash img).
Proof.
  intros img Hok Hs Hm. assert (Hn : 0 < zlen img / FEC_BLOCKSIZE < 2 ^ 32).
  { pose proof (Z.div_mod (zlen img) FEC_BLOCKSIZE ltac:(done)). unfold FEC_BLOCKSIZE in *. lia. }
  destruct (image_levels _ Hn) as (b & rest & Hcounts & Hb & Hb0 & Hc). pose proof (levels_end _ Hn) as Hlast. rewrite Hcounts in Hlast.
  assert (Hcl : count_levels 64 (zlen img) 0 = b :: rest) by (rewrite count_levels_eq by (done || lia); exact Hcounts).
  assert (Htree : tree_levels_of img = levels_above (S (length rest)) img) by (unfold tree_levels_of; by rewrite Hcounts).
  unfold build_verity_tree. cbv zeta. rewrite <- (zlen_chunks file Hok). fold img. rewrite Hm, Hcl, Hlast. unfold verity_tree, root_hash. rewrite Htree.
  change (CHECK (0 =? 0)) with (Ok tt). change (CHECK (default 0 (Some 1) =? 1)) with (Ok tt).
  cbn [mbind res_bind foldr length levels_above rev].
  pose proof (chain_nonneg _ _ Hc) as Hpos. pose proof (sum_nonneg _ Hpos).
  pose proof (counts_lookup [] b rest) as (_ & _ & Hoff). cbn [app length] in Hoff. rewrite Hoff.
  rewrite hash_data_ok by (done || lia). cbn [mbind res_bind]. fold img.
  pose proof (zlen_level img) as Hl. rewrite <- Hb in Hl.
  pose proof (hash_levels_ok [] b rest (pad_block (hash_level img)) [] Hc Hl Hb0 Hpos) as Hrun.
  cbn [app length] in Hrun. rewrite !app_nil_r in Hrun. rewrite Hrun. rewrite concat_app. cbn [concat]. by rewrite app_nil_r.
Qed.
End Levels.

(** C22: build_verity_tree computes the hash tree of an image, however the image is
    split into chunks and holes of a sparse file: each level is the hashes of the
    salted blocks of the level below it, padded to blocks, the lowest one over the
    data, up to a level of one block; the tree has the levels from the root block
    down, in the one array that all of them are computed in, and the root hash is
    that of the root block.  The chunks are well formed, and the image is not empty
    and below 2^44 bytes. *)
Theorem build_verity_tree_reference {dg : Digest} salt file :
  let img := concat (chunk_bytes <$> file) in
  Forall chunk_ok file -> 0 < zlen img < 2 ^ 44 ->
  build_verity_tree salt file = Ok (verity_tree salt img, root_hash salt img).
Proof.
  intros img Hok Hs. apply build_verity_tree_ok; [done|done|]. fold img. subst img. clear Hs.
  induction Hok as [|c file Hc _ IH]; [done|]. cbn. rewrite zlen_app, Z.add_mod, IH, zlen_chunk_bytes by done.
  destruct Hc as [_ ->]. done.
Qed.

Lemma build_verity_tree_reference_witness :
  @build_verity_tree sum_digest [1; 2] [Hole 8192; Data (replicate 4096 5)] =
  Ok (@verity_tree sum_digest [1; 2] (concat (chunk_bytes <$> [Hole 8192; Data (replicate 4096 5)])),
      @root_hash sum_digest [1; 2] (concat (chunk_bytes <$> [Hole 8192; Data (replicate 4096 5)]))).
Proof.
  apply (@build_verity_tree_reference sum_digest [1; 2] [Hole 8192; Data (replicate 4096 5)]).
  - repeat constructor; cbn; rewrite ?zlen_replicate; done || lia.
  - by vm_compute.
Defined.
