(* ===== verification/FecTree.v ===== *)
(** The trees of build_verity_tree are those that libfec accepts: [verify_tree]
    checks all blocks of a tree on the disk and loads the hashes of the data, and
    reads check the data against them. *)
From stdpp Require Import base list numbers strings.
From Stdlib Require Import ZArith Lia.
From S2P Require Import Prelude Utils File FecBase FecRead FecEcc FecInstances FecProcess FecImage FecCodes FecVerity VerityTree VerityLevels.

(** * Parts of the disk *)

(** A part of the bytes at a place of the disk. *)
Lemma bytes_at_part disk o b p n :
  bytes_at disk o b -> 0 <= p -> 0 <= n -> p + n <= zlen b -> ztake n (zdrop (o + p) disk) = ztake n (zdrop p b).
Proof.
  intros (pre & post & -> & ->) Hp Hn Hb. pose proof (zlen_nonneg pre).
  rewrite zdrop_app_ge by lia. replace (zlen pre + p - zlen pre) with p by lia. unfold ztake, zdrop.
  rewrite drop_app_le by (unfold zlen in *; lia). apply take_app_le. rewrite length_drop. unfold zlen in *. lia.
Qed.

(** A copy that is made block by block. *)
Lemma write_next m buf p n buf' :
  mem_write buf p (block_at m p n) = Ok buf' -> 0 <= p -> 0 <= n -> p + n <= zlen m -> zlen buf = zlen m ->
  ztake p buf = ztake p m -> ztake (p + n) buf' = ztake (p + n) m.
Proof.
  intros Hw Hp Hn Hm Hz Ht. unfold mem_write in Hw. destruct (_ && _); [|done]. injection Hw as <-.
  rewrite Ht, app_assoc, ztake_app_exact by (rewrite zlen_app, zlen_ztake, zlen_block_at by lia; lia).
  rewrite <- block_at_inside by lia. rewrite <- (take_drop (Z.to_nat p) (ztake (p + n) m)).
  unfold ztake, zdrop. rewrite take_take, skipn_firstn_comm. f_equal; f_equal; lia.
Qed.

Section Tree.
Context {dg : Digest} {rs : ReedSolomon} {kn : Kernel} {th : Threads} (Hkn : reads_reliably).
Context (salt : bytes) (junk : nat -> Z).

(** The hash of a block in the level above it. *)
Lemma hash_in_level m j :
  0 <= j < zlen m / FEC_BLOCKSIZE ->
  ztake SHA256_DIGEST_LENGTH (zdrop (j * SHA256_DIGEST_LENGTH) (pad_block (hash_level salt m))) =
    hash_block salt (block_at m (j * FEC_BLOCKSIZE) FEC_BLOCKSIZE).
Proof.
  intros Hj. unfold pad_block, hash_level. set (n := zlen m / FEC_BLOCKSIZE) in *.
  replace n with (j + (1 + (n - j - 1))) at 1 by lia. rewrite (seqZ_app 0 j), (seqZ_app (0 + j) 1), !fmap_app, !concat_app by lia.
  change (seqZ (0 + j) 1) with [j]. rewrite <- !app_assoc. rewrite zdrop_app_exact by (rewrite zlen_hashes; lia).
  cbn [fmap list_fmap concat]. rewrite app_nil_r. apply ztake_app_exact. unfold hash_block. by rewrite sha256_len.
Qed.

Lemma check_hash v b : v_salt v = Some salt -> verity_check_block v (hash_block salt b) b = true.
Proof. intros Hs. unfold verity_check_block, verity_hash, hash_block. rewrite Hs. by rewrite bool_decide_true. Qed.

Section Verify.
Context (f : fec_handle) (Hsalt : v_salt (verity f) = Some salt) (Hsmall : zlen (fd_data f) < 2 ^ 62).

Let hdb := v_hash_data_blocks (verity f).

Lemma verify_hash_block_ok ho do_ m j :
  bytes_at (fd_data f) ho (pad_block (hash_level salt m)) -> bytes_at (fd_data f) do_ m -> 0 <= j < zlen m / FEC_BLOCKSIZE ->
  verify_hash_block (ho + j * SHA256_DIGEST_LENGTH) (do_ + j * FEC_BLOCKSIZE) f =
    Ok (Some (block_at m (j * FEC_BLOCKSIZE) FEC_BLOCKSIZE), f).
Proof.
  intros Hp Hm Hj. destruct (bytes_at_bound _ _ _ Hp) as [Hp0 Hp1], (bytes_at_bound _ _ _ Hm) as [Hm0 Hm1].
  assert (Hjm : j * FEC_BLOCKSIZE + FEC_BLOCKSIZE <= zlen m)
    by (pose proof (Z.mul_div_le (zlen m) FEC_BLOCKSIZE ltac:(done)); unfold FEC_BLOCKSIZE in *; nia).
  assert (Hjp : j * SHA256_DIGEST_LENGTH + SHA256_DIGEST_LENGTH <= zlen (pad_block (hash_level salt m))).
  { unfold pad_block. rewrite zlen_app, zlen_hash_level, zlen_replicate. unfold SHA256_DIGEST_LENGTH. lia. }
  pose proof (hash_in_level m j Hj) as Hh. unfold verify_hash_block, SHA256_DIGEST_LENGTH, FEC_BLOCKSIZE in *.
  erewrite run_bind by (apply (read_all_ok Hkn); lia).
  erewrite run_bind by (apply (read_all_ok Hkn); lia). fstep.
  rewrite (bytes_at_part _ _ _ _ _ Hp), (bytes_at_part _ _ _ _ _ Hm) by lia.
  rewrite Hh. rewrite (block_at_inside m) by lia. by rewrite check_hash.
Qed.

(** All blocks of a level; those of the lowest one are copied. *)
Lemma verify_blocks_ok n j c ho do_ m buf :
  bytes_at (fd_data f) ho (pad_block (hash_level salt m)) -> bytes_at (fd_data f) do_ m ->
  zlen m = c * FEC_BLOCKSIZE -> zlen m < 2 ^ 32 -> 0 <= j -> j + Z.of_nat n = c ->
  (c = hdb -> zlen buf = zlen m /\ ztake (j * FEC_BLOCKSIZE) buf = ztake (j * FEC_BLOCKSIZE) m) ->
  verify_blocks n j c ho do_ buf f = Ok (Some (if c =? hdb then m else buf), f).
Proof.
  intros Hp Hm Hc Hs. revert j buf. induction n as [|n IH]; intros j buf Hj Hn Hbuf; cbn [verify_blocks].
  { destruct (Z.eqb_spec c hdb) as [He|]; [|done]. destruct (Hbuf He) as [Hz Ht]. assert (j * FEC_BLOCKSIZE = zlen m) as Hjm by lia.
    rewrite Hjm in Ht. unfold ztake in Ht. rewrite !take_ge in Ht by (unfold zlen in *; lia). by subst. }
  destruct (bytes_at_bound _ _ _ Hp) as [Hp0 Hp1], (bytes_at_bound _ _ _ Hm) as [Hm0 Hm1].
  assert (Hdiv : zlen m / FEC_BLOCKSIZE = c) by (rewrite Hc; by apply Z.div_mul).
  pose proof (zlen_hash_level salt m) as Hh. rewrite Hdiv in Hh.
  assert (zlen (hash_level salt m) <= zlen (pad_block (hash_level salt m))) by (unfold pad_block; rewrite zlen_app; pose proof (zlen_nonneg (replicate (Z.to_nat (- zlen (hash_level salt m) mod FEC_BLOCKSIZE)) 0)); lia).
  assert (Hblock := verify_hash_block_ok ho do_ m j Hp Hm ltac:(lia)). unfold FEC_BLOCKSIZE, SHA256_DIGEST_LENGTH in *.
  rewrite (u32_small (j * 32)), (u32_small (j * 4096)) by (unfold is_u32; lia).
  rewrite (u64_small (ho + _)), (u64_small (do_ + _)) by (unfold is_u64; lia).
  rewrite (run_bind _ _ _ _ _ Hblock). fstep. fold hdb. set (b := block_at m (j * 4096) 4096).
  assert (Hb : zlen b = 4096) by by apply zlen_block_at.
  destruct (Z.eqb_spec c hdb) as [He|Hne].
  - destruct (Hbuf He) as [Hz Ht]. destruct (mem_write_ok buf (j * 4096) b) as [buf' Hw]; [lia|lia|].
    erewrite run_bind by (apply run_access; exact Hw). cbn beta. rewrite IH; [done|lia|lia|]. intros _.
    rewrite (mem_write_len _ _ _ _ Hw). split; [done|]. replace ((j + 1) * 4096) with (j * 4096 + 4096) by lia.
    by apply (write_next m buf); [|lia..|].
  - fstep. apply IH; [lia|lia|done].
Qed.

(** Levels from the top down, each with the hashes of the next one. *)
Fixpoint linked (p : bytes) (ls : list bytes) : Prop :=
  match ls with [] => True | l :: ls => p = pad_block (hash_level salt l) /\ linked l ls end.

Lemma verify_levels_ok p ls low ho do_ buf :
  linked p (ls ++ [low]) -> bytes_at (fd_data f) ho p -> bytes_at (fd_data f) do_ (concat (ls ++ [low])) ->
  Forall (fun l => zlen l mod FEC_BLOCKSIZE = 0 /\ zlen l < 2 ^ 32) (ls ++ [low]) ->
  Forall (fun l => zlen l / FEC_BLOCKSIZE <> hdb) ls -> zlen low / FEC_BLOCKSIZE = hdb -> zlen buf = zlen low ->
  verify_levels ((fun l => zlen l / FEC_BLOCKSIZE) <$> (ls ++ [low])) ho do_ buf f = Ok (Some low, f).
Proof.
  intros Hlink Hp Hd Hok Hne Hlow Hbuf. revert p ho do_ Hlink Hp Hd Hok.
  induction Hne as [|l ls Hl Hne IH]; intros p ho do_ Hlink Hp Hd Hok; cbn [app fmap list_fmap verify_levels concat] in *;
    destruct Hlink as [-> Hlink]; apply bytes_at_split in Hd as [Hd Hrest]; inversion_clear Hok as [|? ? [Hm Hs] Hok'].
  - assert (Hz : zlen low = zlen low / FEC_BLOCKSIZE * FEC_BLOCKSIZE) by (pose proof (Z.div_mod (zlen low) FEC_BLOCKSIZE ltac:(done)); lia).
    erewrite run_bind by (apply (verify_blocks_ok _ 0 _ _ _ low buf); [done..|lia| |by intros _];
      rewrite Z2Nat.id; [lia|apply Z.div_pos; [apply zlen_nonneg|done]]).
    rewrite Hlow, Z.eqb_refl. done.
  - assert (Hz : zlen l = zlen l / FEC_BLOCKSIZE * FEC_BLOCKSIZE) by (pose proof (Z.div_mod (zlen l) FEC_BLOCKSIZE ltac:(done)); lia).
    erewrite run_bind by (apply (verify_blocks_ok _ 0 _ _ _ l buf); [done..|lia| |done];
      rewrite Z2Nat.id; [lia|apply Z.div_pos; [apply zlen_nonneg|done]]).
    destruct (Z.eqb_spec (zlen l / FEC_BLOCKSIZE) hdb); [done|]. rewrite <- Hz, (u32_small (zlen l)) by (pose proof (zlen_nonneg l); unfold is_u32; lia).
    destruct (bytes_at_bound _ _ _ Hrest) as [? ?]. pose proof (zlen_nonneg (concat (ls ++ [low]))).
    rewrite u64_small by (unfold is_u64; lia). by apply (IH l).
Qed.
End Verify.

(** ** The levels of a tree *)

Lemma level_linked_snoc p ls l m : linked p (ls ++ [l]) -> l = pad_block (hash_level salt m) -> linked p ((ls ++ [l]) ++ [m]).
Proof. revert p. induction ls as [|x ls IH]; intros p; cbn; [naive_solver|]. intros [-> H] Hl. split; [done|by apply IH]. Qed.

Lemma linked_init p ls l : linked p (ls ++ [l]) -> linked p ls.
Proof. revert p. induction ls as [|x ls IH]; intros p; cbn; [done|]. intros [-> H]. split; [done|by apply IH]. Qed.

Lemma levels_linked n m :
  exists top ls, rev (levels_above salt (S n) m) = top :: ls /\ linked top (ls ++ [m]).
Proof.
  revert m. induction n as [|n IH]; intros m.
  - exists (pad_block (hash_level salt m)), []. done.
  - destruct (IH (pad_block (hash_level salt m))) as (top & ls & Hrev & Hl). exists top, (ls ++ [pad_block (hash_level salt m)]).
    split; [|by apply level_linked_snoc].
    change (levels_above salt (S (S n)) m) with (pad_block (hash_level salt m) :: levels_above salt (S n) (pad_block (hash_level salt m))).
    cbn [rev]. by rewrite Hrev.
Qed.

Lemma levels_counts n rest m :
  chain n rest -> zlen m = n * FEC_BLOCKSIZE ->
  (fun l => zlen l / FEC_BLOCKSIZE) <$> levels_above salt (length rest) m = rest /\
  Forall (fun l => zlen l mod FEC_BLOCKSIZE = 0) (levels_above salt (length rest) m).
Proof.
  revert n m. induction rest as [|b rest IH]; intros n m Hc Hm; [done|]. destruct Hc as (Hb & Hb0 & _ & Hc).
  pose proof (zlen_level salt m) as Hl. rewrite Hm, Z.div_mul, <- Hb in Hl by done.
  destruct (IH b (pad_block (hash_level salt m)) Hc Hl) as [H1 H2]. cbn [length levels_above fmap list_fmap]. rewrite Hl, Z.div_mul by done.
  split; [by f_equal|]. constructor; [|done]. rewrite Hl. by apply Z.mod_mul.
Qed.

(** The numbers of blocks grow downwards: only the lowest level has its number. *)
Lemma chain_smaller n rest : chain n rest -> Forall (fun c => c < n) rest.
Proof.
  revert n. induction rest as [|b rest IH]; intros n; [done|]. intros (Hb & Hb0 & Hn & Hc).
  destruct (blocks_above_bounds n) as [H1 H2]; [lia|]. assert (Hlt : b < n) by lia. constructor; [done|].
  apply (Forall_impl (fun c => c < b)); [by apply IH|intros; lia].
Qed.

Lemma tail_rev {A} (l : list A) : tail (rev l) = rev (removelast l).
Proof. destruct (rev l) as [|x k] eqn:E; [by destruct l; [|apply (f_equal length) in E; rewrite length_rev in E]|].
  apply (f_equal (@rev A)) in E. rewrite rev_involutive in E. rewrite E. cbn [rev]. by rewrite removelast_last, rev_involutive.
Qed.

Lemma fmap_rev {A B} (g : A -> B) l : g <$> rev l = rev (g <$> l).
Proof. induction l as [|x l IH]; [done|]. cbn [rev fmap list_fmap]. by rewrite fmap_app, IH. Qed.

Lemma zlen_concat_blocks (ls : list bytes) :
  Forall (fun l => zlen l mod FEC_BLOCKSIZE = 0) ls ->
  zlen (concat ls) = foldr Z.add 0 ((fun l => zlen l / FEC_BLOCKSIZE) <$> ls) * FEC_BLOCKSIZE.
Proof.
  induction 1 as [|l ls Hl _ IH]; [done|]. cbn. rewrite zlen_app, IH.
  pose proof (Z.div_mod (zlen l) FEC_BLOCKSIZE ltac:(done)). lia.
Qed.

Lemma zlen_concat_elem (l : bytes) ls : l ∈ ls -> zlen l <= zlen (concat ls).
Proof.
  intros Hl. induction ls as [|x ls IH]; [by apply not_elem_of_nil in Hl|]. cbn. rewrite zlen_app.
  pose proof (zlen_nonneg (concat ls)). pose proof (zlen_nonneg x). apply elem_of_cons in Hl as [->|Hl]; [lia|]. specialize (IH Hl). lia.
Qed.

Lemma sum_rev l : foldr Z.add 0 (rev l) = foldr Z.add 0 l.
Proof. induction l as [|x l IH]; [done|]. cbn [rev]. rewrite foldr_app. cbn. rewrite Z.add_0_r.
  revert IH. generalize (rev l). intros k <-. induction k as [|y k IHk]; cbn; lia.
Qed.

Lemma zlen_verity_tree img :
  0 < zlen img / FEC_BLOCKSIZE < 2 ^ 32 ->
  zlen (verity_tree salt img) = foldr Z.add 0 (level_counts 64 (zlen img / FEC_BLOCKSIZE)) * FEC_BLOCKSIZE.
Proof.
  intros Hn. destruct (image_levels (zlen img / FEC_BLOCKSIZE) Hn) as (b & rest & Hcounts & Hb & Hb0 & Hc).
  unfold verity_tree, tree_levels_of. rewrite Hcounts. cbn [length levels_above]. set (low := pad_block (hash_level salt img)).
  assert (Hlow : zlen low = b * FEC_BLOCKSIZE) by (subst low; rewrite zlen_level; congruence).
  destruct (levels_counts b rest low Hc Hlow) as [Hcs Hal].
  rewrite zlen_concat_blocks, fmap_rev, sum_rev; [|apply List.Forall_rev; constructor; [rewrite Hlow; by apply Z.mod_mul|done]].
  cbn [fmap list_fmap]. by rewrite Hcs, Hlow, Z.div_mul by done.
Qed.

(** A tree of at least two levels: the root block, the levels below it, and the
    hashes of the data; and what libfec computes for it. *)
Record tree_parts (img top : bytes) (ls : list bytes) (low : bytes) : Prop := TreeParts {
  tp_tree : verity_tree salt img = concat (top :: ls ++ [low]);
  tp_low : low = pad_block (hash_level salt img);
  tp_linked : linked top (ls ++ [low]);
  tp_top : zlen top = FEC_BLOCKSIZE;
  tp_root : root_hash salt img = hash_block salt top;
  tp_aligned : Forall (fun l => zlen l mod FEC_BLOCKSIZE = 0) (top :: ls ++ [low]);
  tp_levels : rev (removelast (level_counts 64 (zlen img / FEC_BLOCKSIZE))) = (fun l => zlen l / FEC_BLOCKSIZE) <$> (ls ++ [low]);
  tp_size : foldr Z.add 0 (level_counts 64 (zlen img / FEC_BLOCKSIZE)) * FEC_BLOCKSIZE = zlen (verity_tree salt img);
  tp_other : Forall (fun l => zlen l / FEC_BLOCKSIZE <> zlen low / FEC_BLOCKSIZE) ls;
}.

Lemma tree_shape img : 128 < zlen img / FEC_BLOCKSIZE < 2 ^ 32 -> exists top ls low, tree_parts img top ls low.
Proof.
  intros Hn. destruct (image_levels (zlen img / FEC_BLOCKSIZE)) as (b & rest & Hcounts & Hb & Hb0 & Hc); [lia|].
  destruct (blocks_above_bounds (zlen img / FEC_BLOCKSIZE)) as [H1 _]; [lia|]. rewrite <- Hb in H1.
  destruct rest as [|c rest]; [cbn in Hc; lia|]. set (low := pad_block (hash_level salt img)).
  assert (Hlow : zlen low = b * FEC_BLOCKSIZE) by (subst low; rewrite zlen_level; congruence).
  destruct (levels_linked (length rest) low) as (top & ls & Hrev & Hlink).
  destruct (levels_counts b (c :: rest) low Hc Hlow) as [Hcs Hal]. cbn [length] in Hcs, Hal.
  assert (Htree : tree_levels_of salt img = low :: levels_above salt (S (length rest)) low) by (unfold tree_levels_of; by rewrite Hcounts).
  assert (Hrevt : rev (tree_levels_of salt img) = top :: ls ++ [low]) by (rewrite Htree; cbn [rev] in *; by rewrite Hrev).
  assert (Hal2 : Forall (fun l => zlen l mod FEC_BLOCKSIZE = 0) (top :: ls ++ [low])).
  { rewrite <- Hrevt, Htree. apply List.Forall_rev. constructor; [rewrite Hlow; by apply Z.mod_mul|done]. }
  assert (Hcounts2 : (fun l => zlen l / FEC_BLOCKSIZE) <$> (top :: ls ++ [low]) = rev (level_counts 64 (zlen img / FEC_BLOCKSIZE))).
  { rewrite <- Hrevt, Htree, Hcounts. rewrite fmap_rev. f_equal. cbn [fmap list_fmap]. rewrite Hlow, Z.div_mul by done. f_equal. exact Hcs. }
  pose proof (proj2 (tree_levels_eq 64 (zlen img / FEC_BLOCKSIZE) ltac:(lia) ltac:(lia) ltac:(lia) ltac:(done))) as Hlast.
  assert (Htop : zlen top / FEC_BLOCKSIZE = 1).
  { destruct (rev (level_counts 64 (zlen img / FEC_BLOCKSIZE))) as [|x k] eqn:E; [done|]. injection Hcounts2 as <- _.
    apply (f_equal (@rev Z)) in E. rewrite rev_involutive in E. rewrite E in Hlast. cbn [rev] in Hlast.
    rewrite last_snoc in Hlast. by injection Hlast. }
  exists top, ls, low. split; try done.
  - unfold verity_tree. by rewrite Hrevt.
  - inversion_clear Hal2 as [|? ? Hm _]. pose proof (Z.div_mod (zlen top) FEC_BLOCKSIZE ltac:(done)). lia.
  - unfold root_hash. apply (f_equal (@rev bytes)) in Hrevt. rewrite rev_involutive in Hrevt. rewrite Hrevt. cbn [rev]. by rewrite last_snoc.
  - rewrite <- tail_rev, <- Hcounts2. done.
  - symmetry. apply zlen_verity_tree. lia.
  - rewrite Hlow, Z.div_mul by done. pose proof (chain_smaller _ _ Hc) as Hsm. rewrite <- Hcs, Forall_fmap in Hsm.
    apply List.Forall_rev in Hsm. rewrite Hrev in Hsm. inversion_clear Hsm as [|? ? _ Hls].
    apply (Forall_impl _ _ _ Hls). intros l Hl. cbn in Hl. lia.
Qed.

(** ** Verifying a tree *)

Lemma find_data_hashes_ok (ls : list bytes) low off f :
  Forall (fun l => zlen l mod FEC_BLOCKSIZE = 0) (ls ++ [low]) -> zlen (concat (ls ++ [low])) < 2 ^ 32 ->
  0 <= off -> off + zlen (concat (ls ++ [low])) < 2 ^ 64 ->
  find_data_hashes ((fun l => zlen l / FEC_BLOCKSIZE) <$> (ls ++ [low])) off f =
    Ok (Some tt, set_verity (set_hash_data (zlen low / FEC_BLOCKSIZE) (off + zlen (concat ls)) (verity f)) f).
Proof.
  revert off f. induction ls as [|l ls IH]; intros off f Hal Hs Ho Hsum; cbn [app fmap list_fmap find_data_hashes concat] in *; fstep.
  - change (zlen (@nil Z)) with 0. by rewrite Z.add_0_r.
  - inversion_clear Hal as [|? ? Hm Hrest]. rewrite zlen_app in Hs, Hsum.
    pose proof (zlen_nonneg l). pose proof (zlen_nonneg (concat (ls ++ [low]))).
    pose proof (Z.div_mod (zlen l) FEC_BLOCKSIZE ltac:(done)).
    replace (zlen l / FEC_BLOCKSIZE * FEC_BLOCKSIZE) with (zlen l) by lia.
    rewrite (u32_small (zlen l)), u64_small by (unfold is_u32, is_u64; lia).
    rewrite IH by (done || lia). by rewrite zlen_app, Z.add_assoc.
Qed.

(** The tree of an image is on the disk, and the table says where. *)
Record tree_on_disk (img : bytes) (f : fec_handle) : Prop := TreeOnDisk {
  td_salt : v_salt (verity f) = Some salt;
  td_blocks : v_data_blocks (verity f) = zlen img / FEC_BLOCKSIZE;
  td_img : zlen img mod FEC_BLOCKSIZE = 0 /\ zlen img < 2 ^ 44;
  td_tree : bytes_at (fd_data f) (v_hash_start (verity f)) (verity_tree salt img);
  td_small : zlen (verity_tree salt img) < 2 ^ 32 /\ zlen (fd_data f) < 2 ^ 62 /\ h_data_size f < 2 ^ 62;
  td_room : v_hash_start (verity f) + zlen (verity_tree salt img) <= h_data_size f;
}.

(** What [verify_tree] leaves: the place of the data hashes, and the hashes. *)
Definition verified_handle (img : bytes) (f : fec_handle) : fec_handle :=
  let low := pad_block (hash_level salt img) in
  let v := verity f in
  set_verity
    (VerityInfo (v_disabled v) (v_table v) (zlen low / FEC_BLOCKSIZE) (zlen (verity_tree salt img))
       (v_hash_start v + (zlen (verity_tree salt img) - zlen low)) (v_hash_start v) (Some low) (v_salt_size v) (v_salt v)
       (v_data_blocks v) (v_metadata_start v) (v_zero_hash v) (v_header v) (v_ecc_header v)) f.

Lemma get_size_ok (img : bytes) :
  0 < zlen img / FEC_BLOCKSIZE < 2 ^ 32 ->
  verity_get_size (u64 (zlen img / FEC_BLOCKSIZE * FEC_BLOCKSIZE)) =
    (u64 (foldr Z.add 0 (level_counts 64 (zlen img / FEC_BLOCKSIZE)) * FEC_BLOCKSIZE),
     zlen img / FEC_BLOCKSIZE :: removelast (level_counts 64 (zlen img / FEC_BLOCKSIZE))).
Proof.
  intros Hn. unfold verity_get_size. rewrite u64_small by (unfold is_u64, FEC_BLOCKSIZE in *; lia). rewrite Z.div_mul by done.
  by destruct (tree_levels_eq 64 (zlen img / FEC_BLOCKSIZE)) as [-> _]; [lia|lia|lia|done|].
Qed.

Lemma verify_root_ok top f o :
  v_salt (verity f) = Some salt -> zlen (fd_data f) < 2 ^ 62 -> zlen top = FEC_BLOCKSIZE -> bytes_at (fd_data f) o top ->
  verify_root (hash_block salt top) o f = Ok (Some tt, f).
Proof.
  intros Hs Hsm Htop Hat. destruct (bytes_at_bound _ _ _ Hat) as [Ho Hb]. unfold verify_root.
  erewrite run_bind by (apply (raw_pread_all Hkn); unfold FEC_BLOCKSIZE in *; lia). cbn beta iota. fstep.
  pose proof (bytes_at_part _ _ _ 0 FEC_BLOCKSIZE Hat) as Hp. rewrite Z.add_0_r, zdrop_0 in Hp. rewrite Hp by (unfold FEC_BLOCKSIZE in *; lia).
  unfold ztake. rewrite take_ge by (unfold zlen in *; lia). by rewrite check_hash.
Qed.

(** The levels below the root block, once it is accepted. *)
Lemma verify_tree_below img f root (ok : Z -> Prop) :
  tree_on_disk img f -> 128 < zlen img / FEC_BLOCKSIZE ->
  (forall v, v_salt v = v_salt (verity f) -> v_hash v = v_hash (verity f) ->
    exists n, ok n /\ verify_root root (v_hash_start (verity f)) (set_verity v f) = Ok (Some tt, set_errors n (set_verity v f))) ->
  exists n, ok n /\ verify_tree junk root f = Ok (Some tt, set_errors n (verified_handle img f)).
Proof.
  intros Ht Hn Hvr. destruct Ht as [Hsalt Hblocks [Hm Hi] Hat (Hts & Hd & Hds) Hroom].
  assert (Hn2 : zlen img / FEC_BLOCKSIZE < 2 ^ 32) by (unfold FEC_BLOCKSIZE in *; apply Z.div_lt_upper_bound; lia).
  destruct (tree_shape img) as (top & ls & low & Hp); [lia|]. destruct Hp as [Htree Hlow Hlink Htop Hroot Hal Hlev Hsize Hother].
  destruct (bytes_at_bound _ _ _ Hat) as [Hat0 Hat1].
  unfold verify_tree. fstep. rewrite Hblocks, get_size_ok, Hsize by lia.
  pose proof (zlen_nonneg (verity_tree salt img)).
  rewrite (u64_small (zlen (verity_tree salt img))), (u32_small (zlen (verity_tree salt img))) by (unfold is_u32, is_u64; lia). fstep. unfold UINT64_MAX. fcheck.
  rewrite (u64_small (v_hash_start (verity f) + zlen _)) by (unfold is_u64; lia). fcheck.
  rewrite Htree in Hat. cbn [concat] in Hat. apply bytes_at_split in Hat as [Hatt Hatr]. rewrite Htop in Hatr.
  assert (Hlen : zlen (verity_tree salt img) = FEC_BLOCKSIZE + zlen (concat ls) + zlen low)
    by (rewrite Htree; cbn [concat]; rewrite concat_app, !zlen_app; cbn [concat]; rewrite app_nil_r, Htop; lia).
  assert (Hcon : zlen (concat (ls ++ [low])) = zlen (concat ls) + zlen low) by (rewrite concat_app, zlen_app; cbn [concat]; by rewrite app_nil_r).
  pose proof (zlen_nonneg (concat ls)). pose proof (zlen_nonneg low). unfold FEC_BLOCKSIZE in Hlen.
  rewrite (u64_small (v_hash_start (verity f) + FEC_BLOCKSIZE)) by (unfold is_u64, FEC_BLOCKSIZE; lia). fstep.
  match goal with |- context [set_verity ?v (set_verity _ f)] => 
    change (set_verity v (set_verity _ f)) with (set_verity v f); destruct (Hvr v eq_refl eq_refl) as (n & Hok & Hrv) end.
  exists n. split; [exact Hok|]. erewrite run_bind by exact Hrv. cbn [tail]. rewrite Hlev.
  inversion_clear Hal as [|? ? _ Hal'].
  erewrite run_bind by (apply find_data_hashes_ok; [done|unfold FEC_BLOCKSIZE; lia..]). fstep.
  cbn [verity set_errors set_verity set_hash_data set_hash_size v_hash_data_blocks v_hash_data_offset v_hash_size h_data_size].
  assert (Hlowm : zlen low mod FEC_BLOCKSIZE = 0) by (apply Forall_app in Hal' as [_ Hx]; by inversion_clear Hx).
  pose proof (Z.div_mod (zlen low) FEC_BLOCKSIZE ltac:(done)) as Hdm. rewrite Hlowm in Hdm.
  assert (Hlowpos : 0 < zlen low / FEC_BLOCKSIZE).
  { rewrite Hlow, zlen_level, Z.div_mul by done. destruct (blocks_above_bounds (zlen img / FEC_BLOCKSIZE)); lia. }
  replace (zlen low / FEC_BLOCKSIZE * FEC_BLOCKSIZE) with (zlen low) by lia. unfold FEC_BLOCKSIZE in *.
  erewrite run_bind by (apply run_check, negb_true_iff, Z.eqb_neq; lia). cbn beta.
  erewrite run_bind by (apply run_check, Z.leb_le, Z.div_le_mono; lia). cbn beta.
  erewrite run_bind by (apply run_check, negb_true_iff, Z.eqb_neq; lia). cbn beta.
  rewrite (u32_small (zlen low)) by (unfold is_u32; lia). fcheck. fcheck.
  rewrite (u64_small (_ + zlen low)) by (unfold is_u64; lia). fcheck.
  match goal with |- context [(verify_levels _ _ _ _ ≫= _) ?g] => set (f1 := g) end.
  assert (Hparts : Forall (fun l => zlen l mod 4096 = 0 /\ zlen l < 2 ^ 32) (ls ++ [low])).
  { apply Forall_and. split; [done|]. apply Forall_forall. intros l Hl. pose proof (zlen_concat_elem _ _ Hl). lia. }
  pose proof (verify_levels_ok f1 Hsalt Hd top ls low _ _ (new_char junk (zlen low)) Hlink Hatt Hatr Hparts Hother eq_refl
    ltac:(by apply zlen_new_char)) as Hrun. unfold FEC_BLOCKSIZE in Hrun.
  rewrite (run_bind _ _ _ _ _ Hrun). unfold verified_handle, FEC_BLOCKSIZE. rewrite <- Hlow, Hlen.
  replace (4096 + zlen (concat ls) + zlen low - zlen low) with (4096 + zlen (concat ls)) by lia.
  subst f1. rewrite Hlen, <- Z.add_assoc. done.
Qed.

Lemma verify_tree_ok img f :
  tree_on_disk img f -> 128 < zlen img / FEC_BLOCKSIZE -> verify_tree junk (root_hash salt img) f = Ok (Some tt, verified_handle img f).
Proof.
  intros Ht Hn. destruct (verify_tree_below img f (root_hash salt img) (fun n => n = h_errors f) Ht Hn) as (n & -> & Hrun); [|by rewrite Hrun].
  intros v Hv _. exists (h_errors f). split; [done|].
  destruct Ht as [Hsalt _ [_ Hi] Hat (_ & Hd & _) _].
  assert (Hn2 : zlen img / FEC_BLOCKSIZE < 2 ^ 32) by (unfold FEC_BLOCKSIZE in *; apply Z.div_lt_upper_bound; lia).
  destruct (tree_shape img) as (top & ls & low & Hp); [lia|]. rewrite (tp_root _ _ _ _ Hp). rewrite (tp_tree _ _ _ _ Hp) in Hat.
  cbn [concat] in Hat. apply bytes_at_split in Hat as [Hat _].
  rewrite verify_root_ok; [done|cbn; congruence|exact Hd|apply (tp_top _ _ _ _ Hp)|exact Hat].
Qed.

(** ** Reading data with its hashes *)

(** The hashes of the image are loaded, and the image is at the start of the disk. *)
Record hashed (img : bytes) (f : fec_handle) : Prop := Hashed {
  ha_salt : v_salt (verity f) = Some salt;
  ha_hash : v_hash (verity f) = Some (pad_block (hash_level salt img));
  ha_blocks : v_hash_data_blocks (verity f) = blocks_above (zlen img / FEC_BLOCKSIZE);
  ha_img : bytes_at (fd_data f) 0 img;
  ha_aligned : zlen img mod FEC_BLOCKSIZE = 0;
  ha_small : 0 < zlen img < 2 ^ 38 /\ zlen (fd_data f) < 2 ^ 62;
  ha_size : zlen img <= h_data_size f < 2 ^ 62;
}.

Section Hashed.
Context (img : bytes) (f : fec_handle) (Hh : hashed img f).

Lemma hashed_sizes :
  let n := zlen img / FEC_BLOCKSIZE in
  zlen img = n * FEC_BLOCKSIZE /\ 0 < n < 2 ^ 26 /\ n <= blocks_above n * 128 < n + 128 /\
  zlen (pad_block (hash_level salt img)) = blocks_above n * FEC_BLOCKSIZE.
Proof.
  destruct Hh as [_ _ _ _ Hal [Hs _] _]. pose proof (Z.div_mod (zlen img) FEC_BLOCKSIZE ltac:(done)) as Hd. rewrite Hal in Hd.
  cbn zeta. rewrite zlen_level. unfold FEC_BLOCKSIZE in *. destruct (blocks_above_bounds (zlen img / 4096)); lia.
Qed.

Lemma hash_at_ok curr :
  0 <= curr < zlen img / FEC_BLOCKSIZE ->
  hash_at (verity f) (u64 (curr * SHA256_DIGEST_LENGTH)) = Ok (hash_block salt (block_at img (curr * FEC_BLOCKSIZE) FEC_BLOCKSIZE)).
Proof.
  intros Hc. destruct hashed_sizes as (_ & Hn & Hb & Hz). set (n := zlen img / FEC_BLOCKSIZE) in *. unfold FEC_BLOCKSIZE in Hz.
  rewrite u64_small by (unfold is_u64, SHA256_DIGEST_LENGTH; lia). unfold hash_at. rewrite (ha_hash _ _ Hh). unfold mem_read.
  rewrite Hz. rewrite (hash_in_level img curr Hc). unfold SHA256_DIGEST_LENGTH in *.
  destruct (Z.leb_spec 0 (curr * 32)), (Z.leb_spec 0 32), (Z.leb_spec (curr * 32 + 32) (blocks_above n * 4096)); done || lia.
Qed.

Lemma is_zero_ok curr :
  0 <= curr < zlen img / FEC_BLOCKSIZE -> exists z, is_zero (curr * FEC_BLOCKSIZE) f = Ok (Some z, f).
Proof.
  intros Hc. unfold is_zero. fstep. rewrite (ha_hash _ _ Hh). rewrite Z.div_mul by done.
  destruct (h_data_size f <=? _); [by exists false|]. cbn zeta. destruct (_ <? _); [by exists false|].
  erewrite run_bind by (apply run_access, (hash_at_ok curr Hc)). by eexists.
Qed.

Lemma verity_read_block_ok curr errors :
  0 <= curr < zlen img / FEC_BLOCKSIZE ->
  verity_read_block curr errors f = Ok (Some (block_at img (curr * FEC_BLOCKSIZE) FEC_BLOCKSIZE, errors), f).
Proof.
  intros Hc. destruct hashed_sizes as (Hi & Hn & _). destruct (is_zero_ok curr Hc) as [z Hz].
  destruct (bytes_at_bound _ _ _ (ha_img _ _ Hh)) as [_ Hb]. pose proof (ha_small _ _ Hh) as [Hs Hd].
  unfold verity_read_block. fstep. rewrite (u64_small (curr * FEC_BLOCKSIZE)) by (unfold is_u64, FEC_BLOCKSIZE; lia).
  erewrite run_bind by (apply run_access, (hash_at_ok curr Hc)). rewrite (run_bind _ _ _ _ _ Hz).
  change O_RDONLY with 0. rewrite Z.land_0_r. cbn [Z.eqb negb andb].
  erewrite run_bind by (apply (read_all_ok Hkn); unfold FEC_BLOCKSIZE in *; lia). cbn beta.
  pose proof (bytes_at_part _ _ _ (curr * FEC_BLOCKSIZE) FEC_BLOCKSIZE (ha_img _ _ Hh)) as Hp. rewrite Z.add_0_l in Hp.
  rewrite Hp, block_at_inside by (unfold FEC_BLOCKSIZE in *; lia). by rewrite check_hash by apply Hh.
Qed.

Lemma verity_read_loop_ok fuel curr coff left_ errors :
  0 <= curr -> 0 <= coff < FEC_BLOCKSIZE -> 0 <= left_ <= Z.of_nat fuel -> curr * FEC_BLOCKSIZE + coff + left_ <= zlen img ->
  verity_read_loop fuel curr coff left_ errors f = Ok (Some (block_at img (curr * FEC_BLOCKSIZE + coff) left_, errors), f).
Proof.
  destruct hashed_sizes as (Hi & Hn & Hb & _). revert curr coff left_ errors.
  induction fuel as [|fuel IH]; intros curr coff left_ errors Hc Ho Hl Hin; cbn [verity_read_loop].
  { destruct (Z.leb_spec left_ 0); [|lia]. by assert (left_ = 0) as -> by lia. }
  destruct (Z.leb_spec left_ 0); [by assert (left_ = 0) as -> by lia|]. fstep.
  assert (Hcn : curr < zlen img / FEC_BLOCKSIZE) by (unfold FEC_BLOCKSIZE in *; nia).
  erewrite run_bind.
  2:{ apply run_check, Z.leb_le. unfold max_hash_block. rewrite (ha_blocks _ _ Hh). unfold FEC_BLOCKSIZE, SHA256_DIGEST_LENGTH in *.
      rewrite (u32_small (_ * 4096)), u32_small by (unfold is_u32; lia). apply Z.div_le_lower_bound; lia. }
  cbn beta. erewrite run_bind by (apply verity_read_block_ok; lia). cbn beta iota zeta. set (copy := Z.min (FEC_BLOCKSIZE - coff) left_).
  rewrite (u64_small (curr + 1)) by (unfold is_u64; lia). unfold FEC_BLOCKSIZE in *.
  assert (Hcopy : copy = Z.min (4096 - coff) left_) by done. clearbody copy. destruct (decide (left_ - copy = 0)) as [Hz|Hz].
  - assert (copy = left_) as -> by lia. rewrite Z.sub_diag.
    assert (Hend : verity_read_loop fuel (curr + 1) 0 0 errors f = Ok (Some ([], errors), f)) by by destruct fuel.
    rewrite (run_bind _ _ _ _ _ Hend). cbn beta iota zeta. rewrite block_at_part by lia. by rewrite app_nil_r.
  - erewrite run_bind by (apply IH; lia). cbn beta iota zeta. rewrite block_at_part by lia.
    replace ((curr + 1) * 4096 + 0) with (curr * 4096 + coff + copy) by lia. rewrite <- block_at_app by lia.
    replace (copy + (left_ - copy)) with left_ by lia. done.
Qed.

Lemma verity_read_ok count offset :
  0 < count -> 0 <= offset -> offset + count <= zlen img ->
  verity_read count offset f = Ok (Some (block_at img offset count, 0), f).
Proof.
  intros Hc Ho Hin. destruct Hh as [_ Hhash _ _ _ [Hs _] [Hd1 Hd2]]. unfold verity_read. fstep. fcheck.
  rewrite u64_small by (unfold is_u64; lia). fcheck. rewrite Hhash. fstep.
  pose proof (Z.div_mod offset FEC_BLOCKSIZE ltac:(done)) as Hdm. pose proof (Z.mod_pos_bound offset FEC_BLOCKSIZE ltac:(done)).
  pose proof (Z.div_pos offset FEC_BLOCKSIZE Ho ltac:(done)). rewrite verity_read_loop_ok by lia.
  replace (offset / FEC_BLOCKSIZE * FEC_BLOCKSIZE + (offset - offset / FEC_BLOCKSIZE * FEC_BLOCKSIZE)) with offset by lia. done.
Qed.
End Hashed.
End Tree.

(** What the image and the tree of a handle are like. *)
Record verity_image `{!Digest} (salt img : bytes) (f : fec_handle) : Prop := VerityImage {
  vi_tree : tree_on_disk salt img f;
  vi_img : bytes_at (fd_data f) 0 img;
  vi_small : 0 < zlen img < 2 ^ 38;
  vi_order : zlen img <= v_hash_start (verity f);
}.

Lemma verified_hashed `{!Digest} salt img f : verity_image salt img f -> hashed salt img (verified_handle salt img f).
Proof.
  intros [[Hs Hb [Hm _] Ht (H1 & H2 & H3) Hr] Hi Hsm Ho]. pose proof (zlen_nonneg (verity_tree salt img)).
  split; cbn; try done; [|lia]. rewrite zlen_level. by apply Z.div_mul.
Qed.

(** Reads with the hashes of an image. *)
Lemma fec_pread_hashed {dg : Digest} {rs : ReedSolomon} {kn : Kernel} {th : Threads} salt img f offset count :
  reads_reliably -> (forall i, pthread_create i = true) -> (forall i, pthread_join i = true) -> hashed salt img f ->
  0 <= offset -> 0 < count -> offset + count <= zlen img -> offset mod FEC_BLOCKSIZE = 0 ->
  exists n, fec_pread count offset f = Ok (Some (ztake count (zdrop offset img)), set_errors n f).
Proof.
  intros Hkn Hc Hj Hh Ho Hcnt Hin Hal. pose proof (ha_size _ _ _ Hh) as Hsz. pose proof (ha_small _ _ _ Hh) as [Hsm _].
  destruct (process_run img verity_read f offset count) as [n Hrun]; [|done..|lia|].
  { intros c p Hc0 Hp0 Hp1. exists 0. apply (verity_read_ok Hkn salt img f Hh); lia. }
  exists n. unfold fec_pread, UINT64_MAX. erewrite run_bind by (apply run_check, negb_true_iff, Z.ltb_ge; lia).
  fstep. rewrite (ha_hash _ _ _ Hh).
  assert (Hget : get_max_count offset count (h_data_size f) = count).
  { unfold get_max_count. destruct (Z.leb_spec (h_data_size f) offset); [lia|].
    rewrite u64_small by (unfold is_u64; lia). destruct (Z.ltb_spec (h_data_size f - count) offset); [lia|done]. }
  rewrite Hget, Hrun. pose proof (covered_aligned count offset Hcnt Hal).
  destruct (Z.ltb_spec (covered count offset) count); [lia|]. by rewrite block_at_inside by lia.
Qed.

(** A disk that starts with [img] and has the bytes [tree] at the place where the
    metadata say that the tree starts, behind the image. *)
Record image_with_tree (salt img tree : bytes) (f : fec_handle) : Prop := ImageWithTree {
  it_salt : v_salt (verity f) = Some salt;
  it_blocks : v_data_blocks (verity f) = zlen img / FEC_BLOCKSIZE;
  it_img : bytes_at (fd_data f) 0 img;
  it_tree : bytes_at (fd_data f) (v_hash_start (verity f)) tree;
  it_order : zlen img <= v_hash_start (verity f);
  it_room : v_hash_start (verity f) + zlen tree <= h_data_size f;
  it_small : zlen tree < 2 ^ 32 /\ zlen (fd_data f) < 2 ^ 62 /\ h_data_size f < 2 ^ 62;
}.

Lemma image_with_tree_verity `{!Digest} salt img f :
  image_with_tree salt img (verity_tree salt img) f -> zlen img mod FEC_BLOCKSIZE = 0 -> 0 < zlen img < 2 ^ 38 -> verity_image salt img f.
Proof. intros [Hs Hb Hi Ht Ho Hr Hsm] Hm Hz. split; [split|..]; (done || lia). Qed.

Lemma chunks_aligned file : Forall chunk_ok file -> zlen (concat (chunk_bytes <$> file)) mod FEC_BLOCKSIZE = 0.
Proof.
  induction 1 as [|c file Hc _ IH]; [done|]. cbn. rewrite zlen_app, Z.add_mod, IH, zlen_chunk_bytes by done.
  by destruct Hc as [_ ->].
Qed.

(** C7: from build_verity_tree to libfec.  For an image of more than 128 blocks and
    less than 2^38 bytes, in sparse chunks of whole blocks, the tool returns a tree
    and a root hash; on every disk that has the image at its start and these bytes
    of the tree behind it, where the metadata say, with the salt and the number of
    blocks of the image, [verify_tree] accepts the root hash, whatever the memory
    for the hashes contains, and [fec_pread] gives any range of the image with an
    aligned start back, on any number of processors; provided that preads make
    progress, threads can be created and joined, and the tree has less than 2^32
    bytes and the disk less than 2^62. *)
Theorem built_tree_verified {dg : Digest} {rs : ReedSolomon} {kn : Kernel} {th : Threads} salt file :
  let img := concat (chunk_bytes <$> file) in
  reads_reliably -> (forall i, pthread_create i = true) -> (forall i, pthread_join i = true) ->
  Forall chunk_ok file -> zlen img < 2 ^ 38 -> 128 < zlen img / FEC_BLOCKSIZE ->
  exists tree root, build_verity_tree salt file = Ok (tree, root) /\
    forall junk f offset count, image_with_tree salt img tree f ->
      0 <= offset -> 0 < count -> offset + count <= zlen img -> offset mod FEC_BLOCKSIZE = 0 ->
      exists f', verify_tree junk root f = Ok (Some tt, f') /\
        exists n, fec_pread count offset f' = Ok (Some (ztake count (zdrop offset img)), set_errors n f').
Proof.
  intros img Hkn Hc Hj Hok Hlt Hn. pose proof (chunks_aligned file Hok) as Hm. fold img in Hm.
  assert (0 < zlen img < 2 ^ 38) as Hz by (pose proof (Z.div_mod (zlen img) FEC_BLOCKSIZE ltac:(done)); unfold FEC_BLOCKSIZE in *; lia).
  exists (verity_tree salt img), (root_hash salt img). split; [apply build_verity_tree_ok; (done || (fold img; lia))|].
  intros junk f offset count Hd Ho Hcnt Hin Hal. pose proof (image_with_tree_verity _ _ _ Hd Hm Hz) as Hv.
  pose proof (verified_hashed _ _ _ Hv) as Hh. destruct Hv as [Ht _ _ _].
  exists (verified_handle salt img f). split; [by apply verify_tree_ok|]. by apply (fec_pread_hashed salt).
Qed.

(** C25: [verify_tree] refuses the trees of small images.  The tree of an image of
    128 blocks or fewer is one block, with the hashes of the data and the root
    hash over it; the loop that looks for the data hashes starts below the root
    block and finds none, so that the check of [hash_data_blocks] fails, although
    the tree is right and the root hash matches.  (The kernel's reads are reliable,
    the chunks well formed, the disk has the image, below 2^38 bytes, followed by its
    reference tree, and no hashes were loaded before.) *)
Theorem verify_tree_one_level {dg : Digest} {rs : ReedSolomon} {kn : Kernel} {th : Threads} junk salt file tree root f :
  let img := concat (chunk_bytes <$> file) in
  reads_reliably -> Forall chunk_ok file -> verity_image salt img f -> zlen img / FEC_BLOCKSIZE <= 128 ->
  build_verity_tree salt file = Ok (tree, root) -> v_hash_data_blocks (verity f) = 0 ->
  exists f', verify_root root (v_hash_start (verity f)) f = Ok (Some tt, f) /\ verify_tree junk root f = Ok (None, f').
Proof.
  intros img Hkn Hok Hv Hn Hbuild Hz. pose proof Hv as [[Hsalt Hblocks [Hm _] Hat (Hts & Hd & Hds) Hroom] _ Hsm _].
  rewrite build_verity_tree_ok in Hbuild by (done || (fold img; lia)). injection Hbuild as <- <-.
  assert (Hn0 : 0 < zlen img / FEC_BLOCKSIZE) by (pose proof (Z.div_mod (zlen img) FEC_BLOCKSIZE ltac:(done)); unfold FEC_BLOCKSIZE in *; lia).
  assert (Hone : blocks_above (zlen img / FEC_BLOCKSIZE) = 1) by (destruct (blocks_above_bounds (zlen img / FEC_BLOCKSIZE)); lia).
  assert (Hcounts : level_counts 64 (zlen img / FEC_BLOCKSIZE) = [1]) by (cbn [level_counts]; by rewrite Hone).
  set (top := pad_block (hash_level salt img)). assert (Htop : zlen top = FEC_BLOCKSIZE) by (subst top; by rewrite zlen_level, Hone).
  assert (Htree : verity_tree salt img = top /\ root_hash salt img = hash_block salt top).
  { unfold verity_tree, root_hash, tree_levels_of. rewrite Hcounts. cbn. by rewrite app_nil_r. }
  destruct Htree as [Htree Hroot]. fold img. rewrite Htree in *. rewrite Hroot. rewrite Htop in *. unfold FEC_BLOCKSIZE in Htop.
  destruct (bytes_at_bound _ _ _ Hat) as [Hat0 Hat1].
  assert (Hr : forall g, v_salt (verity g) = v_salt (verity f) -> fd_data g = fd_data f ->
    verify_root (hash_block salt top) (v_hash_start (verity f)) g = Ok (Some tt, g)).
  { intros g Hg Hgd. apply (verify_root_ok Hkn salt); [congruence|rewrite Hgd; exact Hd|exact Htop|rewrite Hgd; exact Hat]. }
  eexists. split; [apply Hr; auto|].
  unfold verify_tree. fstep. rewrite Hblocks. fold img. rewrite get_size_ok, Hcounts by lia. cbn [foldr removelast].
  change (u64 ((1 + 0) * FEC_BLOCKSIZE)) with 4096. change (u32 4096) with 4096. fstep. unfold UINT64_MAX, FEC_BLOCKSIZE in *. fcheck.
  rewrite (u64_small (_ + 4096)) by (unfold is_u64; lia). fcheck. fstep.
  erewrite run_bind by (apply Hr; auto). cbn [tail rev app]. fstep. fstep.
  apply run_bind_fail. cbn. rewrite Hz. done.
Qed.

(** A disk with an image and its tree, and nothing else. *)
Definition plain_handle `{!Digest} (salt img : bytes) : fec_handle :=
  let disk := img ++ verity_tree salt img in
  FecHandle (EccInfo false 0 0 0 0 0 0) disk 0 O_RDONLY 0 (zlen disk) 0 (zlen disk)
    (VerityInfo false None 0 0 0 (zlen img) None (zlen salt) (Some salt) (zlen img / FEC_BLOCKSIZE) 0 []
       (VerityHeader 0 0 [] 0) (VerityHeader 0 0 [] 0)).

Lemma plain_verity_image `{!Digest} salt img :
  0 < zlen img < 2 ^ 38 -> zlen img mod FEC_BLOCKSIZE = 0 ->
  foldr Z.add 0 (level_counts 64 (zlen img / FEC_BLOCKSIZE)) * FEC_BLOCKSIZE < 2 ^ 32 ->
  verity_image salt img (plain_handle salt img).
Proof.
  intros Hs Hm Ht. assert (Hn : 0 < zlen img / FEC_BLOCKSIZE < 2 ^ 32).
  { pose proof (Z.div_mod (zlen img) FEC_BLOCKSIZE ltac:(done)). unfold FEC_BLOCKSIZE in *. lia. }
  rewrite <- (zlen_verity_tree salt img Hn) in Ht. pose proof (zlen_nonneg (verity_tree salt img)).
  split; [split|..]; cbn [fd_data h_data_size verity plain_handle v_salt v_data_blocks v_hash_start]; try done; try (rewrite ?zlen_app; lia).
  - exists img, []. by rewrite app_nil_r.
  - by exists [], (verity_tree salt img).
Qed.

Lemma plain_image_with_tree `{!Digest} salt img :
  0 < zlen img < 2 ^ 38 -> zlen img mod FEC_BLOCKSIZE = 0 ->
  foldr Z.add 0 (level_counts 64 (zlen img / FEC_BLOCKSIZE)) * FEC_BLOCKSIZE < 2 ^ 32 ->
  image_with_tree salt img (verity_tree salt img) (plain_handle salt img).
Proof. intros Hs Hm Ht. destruct (plain_verity_image salt img Hs Hm Ht) as [[H1 H2 H3 H4 H5 H6] Hi Hsm Ho]. by split. Qed.

Lemma Ok_fst {A B} (a c : A) (b d : B) : Ok (a, b) = Ok (c, d) -> a = c.
Proof. by intros [= -> _]. Qed.

Lemma built_tree_verified_witness :
  let f := @plain_handle sum_digest [1; 2] (zeros 528384) in
  exists tree root f', @build_verity_tree sum_digest [1; 2] [Hole 528384] = Ok (tree, root) /\
    @verify_tree sum_digest repetition_code whole_kernel four_threads (fun _ => 3) root f = Ok (Some tt, f') /\
    exists n, @fec_pread sum_digest repetition_code whole_kernel four_threads 100 4096 f' = Ok (Some (ztake 100 (zdrop 4096 (zeros 528384))), set_errors n f').
Proof.
  assert (Himg : concat (chunk_bytes <$> [Hole 528384]) = zeros 528384) by (cbn [fmap list_fmap concat chunk_bytes]; apply app_nil_r).
  assert (Hz : zlen (zeros 528384) = 528384) by (by apply zlen_zeros). assert (Hok : Forall chunk_ok [Hole 528384]) by by repeat constructor.
  assert (Hd : image_with_tree [1; 2] (zeros 528384) (@verity_tree sum_digest [1; 2] (zeros 528384)) (@plain_handle sum_digest [1; 2] (zeros 528384))).
  { apply (@plain_image_with_tree sum_digest); rewrite Hz; [lia|reflexivity|vm_compute; reflexivity]. }
  intros f. destruct (@built_tree_verified sum_digest repetition_code whole_kernel four_threads [1; 2] [Hole 528384] whole_kernel_reliable
    (fun _ => eq_refl) (fun _ => eq_refl) Hok) as (tree & root & Hb & H); [rewrite Himg, Hz; lia|rewrite Himg, Hz; reflexivity|].
  pose proof (@build_verity_tree_ok sum_digest [1; 2] [Hole 528384] Hok) as Hb'. cbn zeta in Hb'. rewrite Himg, Hz in Hb'.
  specialize (Hb' ltac:(lia) eq_refl). rewrite Himg in H. destruct (H (fun _ => 3) f 4096 100) as (f' & H1 & H2).
  - rewrite (Ok_fst _ _ _ _ (eq_trans (eq_sym Hb) Hb')). exact Hd.
  - lia.
  - lia.
  - rewrite Hz. lia.
  - reflexivity.
  - exists tree, root, f'. split; [exact Hb|]. split; [exact H1|exact H2].
Defined.

Lemma verify_tree_one_level_witness :
  let f := @plain_handle sum_digest [1; 2] (zeros 8192) in
  let root := @root_hash sum_digest [1; 2] (zeros 8192) in
  exists f', @verify_root sum_digest repetition_code whole_kernel four_threads root 8192 f = Ok (Some tt, f) /\
    @verify_tree sum_digest repetition_code whole_kernel four_threads (fun _ => 3) root f = Ok (None, f').
Proof.
  assert (Himg : concat (chunk_bytes <$> [Hole 8192]) = zeros 8192) by (cbn [fmap list_fmap concat chunk_bytes]; apply app_nil_r).
  assert (Hz : zlen (zeros 8192) = 8192) by (by apply zlen_zeros). assert (Hok : Forall chunk_ok [Hole 8192]) by by repeat constructor.
  assert (Hv : verity_image (H := sum_digest) [1; 2] (zeros 8192) (plain_handle (H := sum_digest) [1; 2] (zeros 8192))).
  { apply plain_verity_image; rewrite Hz; [lia|reflexivity|vm_compute; reflexivity]. }
  pose proof (@build_verity_tree_ok sum_digest [1; 2] [Hole 8192] Hok) as Hbuild. cbn zeta in Hbuild. rewrite Himg, Hz in Hbuild.
  specialize (Hbuild ltac:(lia) eq_refl).
  intros f root. pose proof (@verify_tree_one_level sum_digest repetition_code whole_kernel four_threads (fun _ => 3) [1; 2] [Hole 8192]
    (@verity_tree sum_digest [1; 2] (zeros 8192)) root f whole_kernel_reliable Hok) as H. cbn zeta in H. rewrite Himg in H.
  change (v_hash_start (verity f)) with (zlen (zeros 8192)) in H. rewrite Hz in H. apply H.
  - exact Hv.
  - intros Hx. discriminate Hx.
  - exact Hbuild.
  - reflexivity.
Defined.
