(* ===== verification/FecSafe.v ===== *)
(** Integrity of reads: whatever is on the disk and whatever the decoder does, each
    byte that a read with hashes returns is a byte of a block with the right hash. *)
From stdpp Require Import base list numbers strings.
From Stdlib Require Import ZArith Lia.
From S2P Require Import Prelude Utils File FecBase FecRead FecEcc FecInstances FecProcess FecImage FecCodes FecVerity VerityTree VerityLevels FecTree.

(** * What programs leave as it is *)

(** Only the content of the disk and the number of errors may be different. *)
Definition same (f f' : fec_handle) : Prop := f' = set_errors (h_errors f') (set_fd_data (fd_data f') f).

#[export] Instance same_preorder : PreOrder same.
Proof.
  split; [by intros []|]. intros f g h Hg Hh. unfold same in *. rewrite Hh, Hg. by destruct f.
Qed.

Definition frames {A} (m : F A) : Prop := forall f r f', m f = Ok (r, f') -> same f f'.

Create HintDb frames.

Lemma bind_inv {A B} (m : F A) (k : A -> F B) f b f' :
  (m ≫= k) f = Ok (Some b, f') -> exists a g, m f = Ok (Some a, g) /\ k a g = Ok (Some b, f').
Proof. unfold mbind, F_bind. destruct (m f) as [[[a|] g]| |] eqn:E; try done. intros H. by exists a, g. Qed.

Lemma frames_bind {A B} (m : F A) (k : A -> F B) : frames m -> (forall a, frames (k a)) -> frames (m ≫= k).
Proof.
  intros Hm Hk f r f'. unfold mbind, F_bind. destruct (m f) as [[[a|] g]| |] eqn:E; try done.
  - intros H. etransitivity; [exact (Hm _ _ _ E)|exact (Hk _ _ _ _ H)].
  - intros [= <- <-]. exact (Hm _ _ _ E).
Qed.

Lemma frames_ret {A} (a : A) : frames (mret a).
Proof. by intros f r f' [= <- <-]. Qed.
Lemma frames_fail {A} : frames (@fail A).
Proof. by intros f r f' [= <- <-]. Qed.
Lemma frames_check b : frames (check b).
Proof. by destruct b; intros f r f' [= <- <-]. Qed.
Lemma frames_handle : frames handle.
Proof. by intros f r f' [= <- <-]. Qed.
Lemma frames_access {A} (m : res A) : frames (access m).
Proof. intros f r f'. unfold access. destruct m; [|done..]. by intros [= <- <-]. Qed.
Lemma frames_attempt {A} (m : F A) : frames m -> frames (attempt m).
Proof. intros Hm f r f'. unfold attempt. destruct (m f) as [[a g]| |] eqn:E; [|done..]. intros [= <- <-]. exact (Hm _ _ _ E). Qed.
Lemma frames_errors n : frames (update (fun f => set_errors (n f) f)).
Proof. intros f r f' [= <- <-]. by destruct f. Qed.
Lemma frames_data d : frames (update (set_fd_data d)).
Proof. intros f r f' [= <- <-]. by destruct f. Qed.

#[export] Hint Resolve frames_bind frames_ret frames_fail frames_check frames_handle frames_access frames_attempt frames_errors
  frames_data : frames.

(** Go through a program. *)
Ltac frames :=
  repeat first
    [ done | solve [eauto with frames nocore]
    | apply frames_bind; [|intros ?]
    | match goal with |- frames (match ?x with _ => _ end) => destruct x end ].

Section Frames.
Context {dg : Digest} {rs : ReedSolomon} {kn : Kernel} {th : Threads}.

Lemma frames_raw_pread count offset : frames (raw_pread count offset).
Proof. unfold raw_pread. frames. Qed.
Lemma frames_raw_pwrite buf offset : frames (raw_pwrite buf offset).
Proof. unfold raw_pwrite. frames. Qed.
#[local] Hint Resolve frames_raw_pread frames_raw_pwrite : frames.
Lemma frames_read_all count offset : frames (read_all count offset).
Proof. unfold read_all. frames. Qed.
Lemma frames_is_zero offset : frames (is_zero offset).
Proof. unfold is_zero. frames. Qed.
Lemma frames_is_erasure offset data : frames (is_erasure offset data).
Proof. unfold is_erasure. frames. Qed.
#[local] Hint Resolve frames_read_all frames_is_zero frames_is_erasure : frames.
Lemma frames_rs_column u n i : frames (rs_column u n i).
Proof. unfold rs_column. frames. Qed.
#[local] Hint Resolve frames_rs_column : frames.
Lemma frames_gather n i rsb offset u d e : frames (gather_columns n i rsb offset u d e).
Proof. revert i d e. induction n as [|n IH]; intros i d e; cbn [gather_columns]; frames. Qed.
Lemma frames_decode_rows n i cs rsb d u e nerrs : frames (decode_rows n i cs rsb d u e nerrs).
Proof. revert i e nerrs. induction n as [|n IH]; intros i e nerrs; cbn [decode_rows]; frames. Qed.
#[local] Hint Resolve frames_gather frames_decode_rows : frames.
Lemma frames_ecc_read_block offset u : frames (__ecc_read offset u).
Proof. unfold __ecc_read. frames. Qed.
#[local] Hint Resolve frames_ecc_read_block : frames.
Lemma frames_verity_read_block curr errors : frames (verity_read_block curr errors).
Proof. unfold verity_read_block. frames. Qed.
#[local] Hint Resolve frames_verity_read_block : frames.
Lemma frames_verity_read_loop fuel curr coff left_ errors : frames (verity_read_loop fuel curr coff left_ errors).
Proof. revert curr coff left_ errors. induction fuel as [|fuel IH]; intros curr coff left_ errors; cbn [verity_read_loop]; frames. Qed.
#[local] Hint Resolve frames_verity_read_loop : frames.
Lemma frames_verity_read count offset : frames (verity_read count offset).
Proof. unfold verity_read. frames. Qed.

(** * Lengths *)

Lemma pread_loop_len fuel file count offset data :
  0 <= count -> 0 <= offset -> pread_loop fuel file count offset = (true, data) -> zlen data = count.
Proof.
  revert count offset data. induction fuel as [|fuel IH]; intros count offset data Hc Ho; cbn [pread_loop].
  { destruct (Z.leb_spec count 0); [|done]. intros [= <-]. rewrite zlen_nil. lia. }
  destruct (Z.leb_spec count 0); [intros [= <-]; rewrite zlen_nil; lia|].
  destruct (pread64_ok file count offset) as [Hle Hin]. destruct (Z.leb_spec (pread64 file count offset) 0); [done|]. specialize (Hin ltac:(lia)).
  set (n := pread64 file count offset) in *. pose proof (is_u64_u64 (offset + n)) as [Hu _].
  destruct (pread_loop fuel file (count - n) (offset +u64 n)) as [ok rest] eqn:E. intros [= -> <-].
  rewrite zlen_app, zlen_ztake by (rewrite zlen_zdrop by lia; lia). rewrite (IH (count - n) (offset +u64 n) rest) by (done || lia). lia.
Qed.

Lemma read_all_len count offset f data f' :
  0 <= count -> 0 <= offset -> read_all count offset f = Ok (Some data, f') -> zlen data = count.
Proof.
  intros Hc Ho. unfold read_all, raw_pread. intros H. apply bind_inv in H as ([ok d] & g & H1 & H2). 
  apply bind_inv in H1 as (h & g' & [= <- <-] & [= E <-]). destruct ok; [|done]. injection H2 as <- <-.
  by apply (pread_loop_len _ _ _ _ _ Hc Ho E).
Qed.

Lemma decode_rows_len n i cs rsb d u e nerrs f data nerrs' f' :
  decode_rows n i cs rsb d u e nerrs f = Ok (Some (data, nerrs'), f') -> zlen data = Z.of_nat n.
Proof.
  revert i e nerrs f data nerrs' f'. induction n as [|n IH]; intros i e nerrs f data nerrs' f'; cbn [decode_rows].
  { by intros [= <- _ _]. }
  intros H. apply bind_inv in H as (h & g1 & _ & H). apply bind_inv in H as (parity & g2 & _ & H).
  apply bind_inv in H as (row & g3 & _ & H). destruct (decode_rs_char _ _ _) as [[rc w] er]. destruct (rc <? 0); [done|].
  apply bind_inv in H as ([] & g4 & _ & H). apply bind_inv in H as (b & g5 & _ & H).
  apply bind_inv in H as ([rest ne] & g6 & Hrest & H). injection H as <- <- <-. apply IH in Hrest. rewrite zlen_cons. lia.
Qed.

Lemma ecc_block_len offset u f data n f' : __ecc_read offset u f = Ok (Some (data, n), f') -> zlen data = FEC_BLOCKSIZE.
Proof.
  unfold __ecc_read. intros H. repeat (apply bind_inv in H as (? & ? & _ & H)). 
  match type of H with context [let '(_, _) := ?x in _] => destruct x as [[? ?] ?] end.
  apply bind_inv in H as (? & ? & _ & H). by apply decode_rows_len in H.
Qed.

(** * Blocks with the right hash *)

(** The 32 bytes of the loaded hashes that are for block [curr] are the SHA-256
    digest of the salt and the block; or the block is all zeros and they are the
    digest that was computed for such blocks. *)
Definition valid_block (v : verity_info) (curr : Z) (data : bytes) : Prop :=
  zlen data = 4096 /\ exists hashes h, v_hash v = Some hashes /\ mem_read hashes (curr * 32) 32 = Ok h /\
    ((exists salt, v_salt v = Some salt /\ h = sha256 (salt ++ data)) \/ (data = replicate 4096 0 /\ h = v_zero_hash v)).

(** The same as the code checks it. *)
Definition checked_block (v : verity_info) (curr : Z) (data : bytes) : Prop :=
  zlen data = FEC_BLOCKSIZE /\ exists h, hash_at v (u64 (curr * SHA256_DIGEST_LENGTH)) = Ok h /\
    (verity_check_block v h data = true \/ (data = replicate (Z.to_nat FEC_BLOCKSIZE) 0 /\ h = v_zero_hash v)).

Lemma checked_valid v curr data : 0 <= curr < 2 ^ 32 -> checked_block v curr data -> valid_block v curr data.
Proof.
  intros Hc (Hz & h & Hh & Hd). split; [done|]. rewrite u64_small in Hh by (unfold is_u64, SHA256_DIGEST_LENGTH; lia).
  unfold hash_at, SHA256_DIGEST_LENGTH in Hh. destruct (v_hash v) as [hs|]; [|done]. exists hs, h. split; [done|]. split; [done|].
  destruct Hd as [Hd|Hd]; [left|by right]. unfold verity_check_block, verity_hash in Hd. destruct (v_salt v) as [salt|]; [|done].
  exists salt. split; [done|]. by apply bool_decide_eq_true in Hd.
Qed.

Lemma is_zero_inv curr f f' :
  0 <= curr < 2 ^ 32 -> is_zero (u64 (curr * FEC_BLOCKSIZE)) f = Ok (Some true, f') ->
  hash_at (verity f) (u64 (curr * SHA256_DIGEST_LENGTH)) = Ok (v_zero_hash (verity f)).
Proof.
  intros Hc. unfold is_zero. rewrite (u64_small (curr * FEC_BLOCKSIZE)) by (unfold is_u64, FEC_BLOCKSIZE; lia). rewrite Z.div_mul by done.
  intros H. apply bind_inv in H as (g & g' & [= <- <-] & H). destruct (v_hash (verity f)); [|done].
  destruct (h_data_size f <=? _); [done|]. cbn zeta in H. destruct (_ <? _); [done|].
  apply bind_inv in H as (h & g & Ha & H). unfold access in Ha. destruct (hash_at _ _) as [h'| |]; [|done..]. injection Ha as -> <-.
  injection H as H _. apply bool_decide_eq_true in H. by rewrite H.
Qed.

(** Writing a corrected block back does not change it. *)
Lemma corrected_inv (c : bool) data (errors : Z) o f d e f' :
  ((if c then ok ← raw_pwrite data o; check ok else mret tt);; mret (data, errors)) f = Ok (Some (d, e), f') -> d = data.
Proof. intros H. apply bind_inv in H as (? & ? & _ & H). by injection H as <- _ _. Qed.

Lemma checked_inv {A} b (m : F A) f r f' : (check b;; m) f = Ok (Some r, f') -> b = true /\ m f = Ok (Some r, f').
Proof. intros H. apply bind_inv in H as (? & ? & Hc & H). by destruct b; [injection Hc as <- <-|]. Qed.

Lemma verity_read_block_checked curr errors f data e f' :
  0 <= curr < 2 ^ 32 -> verity_read_block curr errors f = Ok (Some (data, e), f') -> checked_block (verity f) curr data.
Proof.
  intros Hc. assert (Hzl : zlen (replicate (Z.to_nat FEC_BLOCKSIZE) 0) = FEC_BLOCKSIZE) by (rewrite zlen_replicate; by apply Z2Nat.id).
  unfold verity_read_block, checked_block. revert Hzl. generalize (replicate (Z.to_nat FEC_BLOCKSIZE) 0). intros zeros Hzl.
  cbn beta iota zeta. intros H. apply bind_inv in H as (g & g' & [= <- <-] & H). cbn beta in H.
  apply bind_inv in H as (h & g & Ha & H). unfold access in Ha. destruct (hash_at _ _) as [h'| |] eqn:Eh; [|done..]. injection Ha as -> <-.
  apply bind_inv in H as (z & g & Hz & H). cbn beta in H. pose proof (frames_is_zero _ _ _ _ Hz) as Hg.
  assert (Hro : negb (Z.land (h_mode f) O_RDONLY =? 0) = false) by (unfold O_RDONLY; by rewrite Z.land_0_r).
  rewrite Hro, andb_false_l in H. apply bind_inv in H as (d & g2 & Hd & H). apply read_all_len in Hd; [|done|apply is_u64_u64].
  destruct (verity_check_block (verity f) h d) eqn:Ec.
  { injection H as <- _ _. split; [done|]. exists h. by split; [|left]. }
  destruct z.
  { apply corrected_inv in H as ->. split; [done|]. exists h. split; [done|right]. split; [done|]. apply is_zero_inv in Hz; [|done]. congruence. }
  apply checked_inv in H as [_ H]. apply bind_inv in H as (first & g3 & Hfirst & H).
  assert (Hsecond : forall er g, ('(data, nerrs) ← __ecc_read (u64 (curr * FEC_BLOCKSIZE)) true;
    check (verity_check_block (verity f) h data);;
    (if negb (Z.land (h_mode f) O_RDWR =? 0) then ok ← raw_pwrite data (u64 (curr * FEC_BLOCKSIZE)); check ok else mret tt);;
    mret (data, er +u64 nerrs)) g = Ok (Some (data, e), f') ->
    zlen data = FEC_BLOCKSIZE /\ exists h0, Ok h = Ok h0 /\ (verity_check_block (verity f) h0 data = true \/ data = zeros /\ h0 = v_zero_hash (verity f))).
  { intros er k Hk. apply bind_inv in Hk as ([d2 n2] & g4 & He & Hk). apply checked_inv in Hk as [Hk1 Hk2].
    apply corrected_inv in Hk2 as ->. split; [by apply ecc_block_len in He|]. exists h. by split; [|left]. }
  destruct first as [[d1 n1]|]; [|exact (Hsecond _ _ H)].
  destruct (verity_check_block (verity f) h d1) eqn:E1; [|exact (Hsecond _ _ H)].
  apply corrected_inv in H as ->. unfold attempt in Hfirst. destruct (__ecc_read _ _ g2) as [[o k]| |] eqn:Ee; [|done..].
  injection Hfirst as -> ->. split; [by apply ecc_block_len in Ee|]. exists h. by split; [|left].
Qed.

(** * Ranges *)

(** Each byte of [data], read from [offset], is a byte of a block with the right
    hash. *)
Definition genuine (v : verity_info) (offset : Z) (data : bytes) : Prop :=
  forall i, 0 <= i < zlen data -> exists block, valid_block v ((offset + i) / FEC_BLOCKSIZE) block /\
    znth data i = znth block ((offset + i) mod FEC_BLOCKSIZE).

Lemma genuine_app v offset a b : genuine v offset a -> genuine v (offset + zlen a) b -> genuine v offset (a ++ b).
Proof.
  intros Ha Hb i Hi. rewrite zlen_app in Hi. rewrite znth_app. destruct (Z.ltb_spec i (zlen a)); [apply Ha; lia|].
  specialize (Hb (i - zlen a) ltac:(lia)). by replace (offset + zlen a + (i - zlen a)) with (offset + i) in Hb by lia.
Qed.

Lemma genuine_nil v offset : genuine v offset [].
Proof. intros i Hi. unfold zlen in Hi. cbn in Hi. lia. Qed.

(** A part of a block. *)
Lemma genuine_block v curr coff n block :
  valid_block v curr block -> 0 <= coff -> 0 <= n -> coff + n <= FEC_BLOCKSIZE ->
  zlen (ztake n (zdrop coff block)) = n /\ genuine v (curr * FEC_BLOCKSIZE + coff) (ztake n (zdrop coff block)).
Proof.
  intros Hv Hc Hn Hb. pose proof Hv as [Hz _]. change 4096 with FEC_BLOCKSIZE in Hz.
  assert (Hlen : zlen (ztake n (zdrop coff block)) = n) by (apply zlen_ztake; rewrite zlen_zdrop by lia; lia).
  split; [done|]. intros i Hi. rewrite Hlen in Hi. exists block. rewrite <- Z.add_assoc.
  rewrite Z.div_add_l, Z.div_small, Z.add_0_r by (done || lia). split; [done|].
  rewrite (Z.add_comm (curr * _)), Z.mod_add, Z.mod_small by (done || lia). rewrite znth_ztake, znth_zdrop by lia. done.
Qed.

Lemma verity_read_loop_valid fuel curr coff left_ errors f data e f' :
  0 <= curr -> 0 <= coff < FEC_BLOCKSIZE -> 0 <= left_ ->
  verity_read_loop fuel curr coff left_ errors f = Ok (Some (data, e), f') ->
  same f f' /\ zlen data = left_ /\ genuine (verity f) (curr * FEC_BLOCKSIZE + coff) data.
Proof.
  revert curr coff left_ errors f data e f'. induction fuel as [|fuel IH]; intros curr coff left_ errors f data e f' Hc Ho Hl; cbn [verity_read_loop].
  { destruct (Z.leb_spec left_ 0); [|done]. intros [= <- <- <-]. split; [done|]. split; [rewrite zlen_nil; lia|apply genuine_nil]. }
  destruct (Z.leb_spec left_ 0).
  { intros [= <- <- <-]. split; [done|]. split; [rewrite zlen_nil; lia|apply genuine_nil]. }
  intros H0. apply bind_inv in H0 as (g & g' & [= <- <-] & H0). apply checked_inv in H0 as [Hmax H0].
  assert (Hcurr : curr < 2 ^ 32).
  { apply Z.leb_le in Hmax. unfold max_hash_block in Hmax. pose proof (is_u32_u32 (u32 (v_hash_data_blocks (verity f) * FEC_BLOCKSIZE) - SHA256_DIGEST_LENGTH)) as [_ Hu].
    assert ((u32 (v_hash_data_blocks (verity f) * FEC_BLOCKSIZE) -u32 SHA256_DIGEST_LENGTH) / SHA256_DIGEST_LENGTH < 2 ^ 32)
      by (apply Z.div_lt_upper_bound; [done|unfold SHA256_DIGEST_LENGTH in *; lia]). lia. }
  apply bind_inv in H0 as ([d e1] & g1 & Hd & H0). pose proof (frames_verity_read_block _ _ _ _ _ Hd) as Hg1.
  apply verity_read_block_checked in Hd; [|lia]. apply checked_valid in Hd; [|lia]. cbn beta iota zeta in H0. apply bind_inv in H0 as ([rest e2] & g2 & Hrest & H0). injection H0 as <- <- <-.
  rewrite u64_small in Hrest by (unfold is_u64; lia). set (copy := Z.min (FEC_BLOCKSIZE - coff) left_) in *.
  apply IH in Hrest as (Hg2 & Hlen & Hgen); [|lia|done|lia]. split; [by etransitivity|].
  destruct (genuine_block _ _ coff copy _ Hd) as [Hz Hpart]; [lia..|].
  rewrite zlen_app, Hz, Hlen. split; [lia|]. apply genuine_app; [done|]. rewrite Hz.
  assert (Hv : verity g1 = verity f) by (rewrite Hg1; done). rewrite Hv in Hgen.
  destruct (decide (left_ = copy)) as [Heq|].
  - intros i Hi. lia.
  - replace (curr * FEC_BLOCKSIZE + coff + copy) with ((curr + 1) * FEC_BLOCKSIZE + 0) by lia. done.
Qed.

Lemma verity_read_valid count offset f data e f' :
  0 <= count -> 0 <= offset -> verity_read count offset f = Ok (Some (data, e), f') ->
  same f f' /\ zlen data = count /\ genuine (verity f) offset data.
Proof.
  intros Hc Ho. unfold verity_read. intros H. apply bind_inv in H as (g & g' & [= <- <-] & H).
  apply checked_inv in H as [_ H]. apply checked_inv in H as [_ H]. apply checked_inv in H as [_ H].
  pose proof (Z.div_mod offset FEC_BLOCKSIZE ltac:(done)). pose proof (Z.mod_pos_bound offset FEC_BLOCKSIZE ltac:(done)).
  apply verity_read_loop_valid in H; [|by apply Z.div_pos|lia|done].
  by replace (offset / FEC_BLOCKSIZE * FEC_BLOCKSIZE + (offset - offset / FEC_BLOCKSIZE * FEC_BLOCKSIZE)) with offset in H by lia.
Qed.

(** * Threads *)

Lemma same_verity f f' : same f f' -> verity f' = verity f.
Proof. intros H. by rewrite H. Qed.

Lemma attempt_inv {A} (m : F A) f r f' : attempt m f = Ok (Some r, f') -> m f = Ok (r, f').
Proof. unfold attempt. destruct (m f) as [[a g]| |]; [|done..]. by intros [= <- <-]. Qed.

Lemma start_threads_valid n i pos end_ cpt left_ f results rest f' :
  start_threads verity_read n i pos end_ cpt left_ f = Ok (Some (results, true, rest), f') ->
  0 <= pos <= end_ -> 0 < cpt -> end_ + Z.of_nat n * cpt < 2 ^ 64 -> 0 <= left_ ->
  same f f' /\ 0 <= rest /\ forall g data g', join_threads results g = Ok (Some (data, true), g') ->
    zlen data + rest = left_ /\ genuine (verity f) pos data.
Proof.
  revert i pos end_ left_ f results rest f'. induction n as [|n IH]; intros i pos end_ left_ f results rest f' H Hp Hcpt Hend Hl; cbn [start_threads] in H.
  { injection H as <- <- <-. split; [done|]. split; [done|]. intros g data g' [= <- _]. split; [rewrite zlen_nil; lia|apply genuine_nil]. }
  apply checked_inv in H as [Hpos H]. apply Z.ltb_lt in Hpos. cbn zeta in H.
  rewrite !(u64_small (end_ - pos)) in H by (unfold is_u64; nia). remember (Z.min (end_ - pos) left_) as count eqn:Hcount.
  apply bind_inv in H as (r & g1 & Hr & H). apply bind_inv in H as ([[results' ok] rest'] & g2 & Hrest & H).
  destruct r as [r|]; [|by injection H]. injection H as <- -> -> ->.
  destruct (pthread_create i); [|by injection Hr]. apply bind_inv in Hr as (r' & g3 & Hr & H2). injection H2 as <- <-. apply attempt_inv in Hr.
  rewrite u64_small in Hrest by (unfold is_u64; nia). pose proof (frames_verity_read _ _ _ _ _ Hr) as Hg3.
  destruct (IH _ _ _ _ _ _ _ _ Hrest) as (Hg & Hrest0 & Hjoin); [lia|lia|lia|lia|].
  split; [by etransitivity|]. split; [done|]. intros g data g' Hj. cbn [join_threads] in Hj.
  destruct (if pthread_join i then r' else None) as [[d e]|] eqn:Er.
  - destruct (pthread_join i); [|done]. subst r'. apply bind_inv in Hj as (? & h1 & _ & Hj).
    apply bind_inv in Hj as ([d2 ok] & h2 & Hj & Hd). injection Hd as <- -> <-. apply Hjoin in Hj as [Hlen Hgen].
    apply verity_read_valid in Hr as (_ & Hz & Hd); [|lia|lia]. rewrite zlen_app, Hz. split; [lia|]. apply genuine_app; [done|].
    rewrite (same_verity _ _ Hg3) in Hgen. rewrite Hz. destruct (decide (pos + count = end_)) as [->|Hne]; [done|].
    pose proof (zlen_nonneg d2). intros k Hk. lia.
  - apply bind_inv in Hj as ([? ?] & ? & _ & Hj). by injection Hj.
Qed.

Lemma process_valid count offset f data f' :
  0 <= count -> 0 <= offset -> offset + 3 * count + 2 ^ 20 < 2 ^ 64 -> process count offset verity_read f = Ok (Some data, f') ->
  zlen data = count /\ genuine (verity f) offset data.
Proof.
  intros Hc Ho Hs. unfold process. destruct (Z.eqb_spec count 0) as [->|Hc0].
  { intros [= <- <-]. split; [done|apply genuine_nil]. }
  fold (thread_share count). destruct (thread_share_bounds count) as (Hcpt & Hmax & _); [lia|]. set (cpt := thread_share count) in *.
  unfold FEC_BLOCKSIZE in Hcpt. rewrite (u64_small cpt) by (unfold is_u64; lia). cbn zeta.
  destruct (round_up_bounds count cpt) as [Hn Hn0]; [lia..|]. set (n := fec_div_round_up count cpt) in *.
  assert (Hth : (if n <? num_threads then n else num_threads) = n) by (destruct (Z.ltb_spec n num_threads); lia). rewrite Hth.
  pose proof (Z.div_mod offset FEC_BLOCKSIZE ltac:(done)) as Hdm. pose proof (Z.mod_pos_bound offset FEC_BLOCKSIZE ltac:(done)) as Hmod.
  unfold FEC_BLOCKSIZE in *. rewrite (u64_small (offset / 4096 * 4096 + cpt)) by (unfold is_u64; lia).
  intros H. apply bind_inv in H as ([[results created] rest] & g & Hst & H). apply checked_inv in H as [Hrest H].
  apply bind_inv in H as ([d joined] & g2 & Hj & H). apply checked_inv in H as [Hok H]. injection H as -> <-.
  apply andb_true_iff in Hok as [-> ->]. apply Z.eqb_eq in Hrest as ->.
  apply start_threads_valid in Hst as (_ & _ & Hjoin); [|lia|lia|rewrite Z2Nat.id by lia; lia|done].
  apply Hjoin in Hj as [Hz Hg]. split; [lia|done].
Qed.
End Frames.

(** C6: the integrity of verified reads.  With hashes loaded, for data of less than
    2^60 bytes, whatever is on the disk, whatever the Reed-Solomon decoder, the
    kernel and the threads do, a read with [fec_pread] inside of the data that
    succeeds returns as many bytes as asked for, and each of them is the byte, at
    its place, of a block of 4096 bytes for which the loaded hashes have, at the
    number of the block, the SHA-256 digest of the salt followed by the block; or
    of a block of zeros where they have the digest computed for blocks of zeros:
    a corruption that is not corrected is never returned. *)
Theorem fec_pread_genuine {dg : Digest} {rs : ReedSolomon} {kn : Kernel} {th : Threads} count offset f data f' :
  is_Some (v_hash (verity f)) -> 0 <= count -> 0 <= offset -> offset + count <= h_data_size f -> h_data_size f < 2 ^ 60 ->
  fec_pread count offset f = Ok (Some data, f') ->
  zlen data = count /\ genuine (verity f) offset data.
Proof.
  intros [h Hh] Hc Ho Hin Hs H. unfold fec_pread in H. apply checked_inv in H as [_ H].
  apply bind_inv in H as (g & g' & [= <- <-] & H). rewrite Hh in H.
  assert (Hget : get_max_count offset count (h_data_size f) = count).
  { unfold get_max_count. rewrite u64_small by (unfold is_u64; lia).
    destruct (Z.leb_spec (h_data_size f) offset); [lia|]. destruct (Z.ltb_spec (h_data_size f - count) offset); [lia|done]. }
  rewrite Hget in H. apply process_valid in H; [done|lia..].
Qed.

(** One block of data and its hash. *)
Definition one_block_handle : fec_handle :=
  FecHandle (EccInfo false 0 0 0 0 0 0) (sevens 4096) 0 O_RDONLY 0 4096 0 4096
    (VerityInfo false None 1 0 0 4096 (Some (@hash_block sum_digest [1; 2] (sevens 4096))) 2 (Some [1; 2]) 1 0 []
       (VerityHeader 0 0 [] 0) (VerityHeader 0 0 [] 0)).

Lemma fec_pread_genuine_witness :
  zlen (sevens 10) = 10 /\ @genuine sum_digest (verity one_block_handle) 20 (sevens 10).
Proof.
  apply (@fec_pread_genuine sum_digest repetition_code whole_kernel four_threads 10 20 one_block_handle (sevens 10) one_block_handle).
  - by eexists.
  - lia.
  - lia.
  - cbn. lia.
  - by cbn.
  - vm_compute. reflexivity.
Defined.
