(* ===== verification/FecGap.v ===== *)
(** The tree and error correction: [verify_tree] corrects the root block when it
    does not match the root hash, but takes the hashes of the next level from the
    disk as they are. *)
From stdpp Require Import base list numbers strings.
From Stdlib Require Import ZArith Lia.
From S2P Require Import Prelude Utils File FecBase FecRead FecEcc FecInstances FecProcess FecVerity FecOpen FecImage FecCodes FecLoad VerityTree VerityLevels FecTree.

Section Gap.
Context {dg : Digest} {rs : ReedSolomon} {kn : Kernel} {th : Threads}.
Context (Hkn : reads_reliably) (Hcreate : forall i, pthread_create i = true) (Hjoin : forall i, pthread_join i = true).

(** The root block is accepted when the corrected one has the root hash. *)
Lemma verify_root_corrected roots rounds salt full f o top :
  rs_corrects roots -> protected roots rounds full (fd_data f) -> ecc_handle roots rounds full f -> zlen full < h_size f ->
  v_salt (verity f) = Some salt -> Z.land (h_mode f) O_RDWR = 0 -> bytes_at full o top -> zlen top = FEC_BLOCKSIZE -> o mod FEC_BLOCKSIZE = 0 ->
  exists n, verify_root (hash_block salt top) o f = Ok (Some tt, set_errors n f).
Proof.
  intros Hrs Hp Hf Hsz Hsalt Hmode Hat Htop Hal. destruct (bytes_at_bound _ _ _ Hat) as [Ho Hb]. rewrite Htop in Hb.
  pose proof (pr_disk _ _ _ _ Hp) as Hd. pose proof (pr_roots _ _ _ _ Hp). pose proof (pr_rounds _ _ _ _ Hp) as [Hr _].
  assert (0 <= rounds * FEC_BLOCKSIZE * roots) by (unfold FEC_BLOCKSIZE; nia).
  unfold verify_root. erewrite run_bind by (apply (raw_pread_all Hkn); unfold FEC_BLOCKSIZE in *; lia). cbn beta iota. fstep.
  cbn [andb]. destruct (verity_check_block _ _ _); [by exists (h_errors f); destruct f|].
  destruct (fec_pread_ecc Hkn Hcreate Hjoin roots rounds full f o FEC_BLOCKSIZE) as [n Hrun]; [done..|].
  pose proof (covered_aligned FEC_BLOCKSIZE o ltac:(done) Hal). destruct (Z.ltb_spec (covered FEC_BLOCKSIZE o) FEC_BLOCKSIZE); [lia|].
  pose proof (bytes_at_part _ _ _ 0 FEC_BLOCKSIZE Hat ltac:(lia) ltac:(done) ltac:(lia)) as Hpart.
  rewrite Z.add_0_r, zdrop_0 in Hpart. unfold ztake in Hpart at 2. rewrite (take_ge top) in Hpart by (unfold zlen in Htop; lia). rewrite Hpart in Hrun.
  assert (Hread : ecc_read_hashes None o f = Ok (Some ([], top), set_errors n f)).
  { unfold ecc_read_hashes, fec_pread_all. fstep. erewrite run_bind by (rewrite (run_bind _ _ _ _ _ Hrun), Htop; reflexivity). done. }
  exists n. rewrite (run_bind _ _ _ _ _ Hread). cbn beta iota. fstep.
  erewrite run_bind by (apply run_check, check_hash; exact Hsalt). cbn beta. unfold rewrite. fstep.
  change (h_mode (set_errors n f)) with (h_mode f). by rewrite Hmode.
Qed.
End Gap.

(** C23: an integrity gap of [verify_tree] with error correction, in read-only mode.
    A disk has an image and its tree, with codes over both; image and tree are
    replaced by another image and its tree, changed so little that the codes still
    correct all of it.  The root block does not match the root hash any more and is
    corrected in memory; the hashes of the levels below it are then read from the
    disk, where they are those of the other image, and match.  So [verify_tree]
    accepts the root hash of the original image and loads the hashes of the other
    one, and reads give the other image back as verified data. *)
Theorem verify_tree_raw_hashes {dg : Digest} {rs : ReedSolomon} {kn : Kernel} {th : Threads} junk roots rounds salt img bad f offset count :
  let full := img ++ verity_tree salt img in
  reads_reliably -> (forall i, pthread_create i = true) -> (forall i, pthread_join i = true) -> rs_corrects roots ->
  zlen bad = zlen img -> verity_image salt bad f -> v_hash_start (verity f) = zlen img -> 128 < zlen img / FEC_BLOCKSIZE ->
  protected roots rounds full (fd_data f) -> ecc_handle roots rounds full f -> zlen full < h_size f -> Z.land (h_mode f) O_RDWR = 0 ->
  0 <= offset -> 0 < count -> offset + count <= zlen bad -> offset mod FEC_BLOCKSIZE = 0 ->
  exists f', verify_tree junk (root_hash salt img) f = Ok (Some tt, f') /\
    exists n, fec_pread count offset f' = Ok (Some (ztake count (zdrop offset bad)), set_errors n f').
Proof.
  intros full Hkn Hc Hj Hrs Hlen Hv Hstart Hn Hp Hf Hsz Hmode Ho Hcnt Hin Hal. pose proof (verified_hashed _ _ _ Hv) as Hh. destruct Hv as [Ht _ Hsm _].
  assert (Hn2 : 128 < zlen img / FEC_BLOCKSIZE < 2 ^ 32).
  { split; [done|]. rewrite Hlen in Hsm. unfold FEC_BLOCKSIZE. apply Z.div_lt_upper_bound; lia. }
  destruct (tree_shape salt img Hn2) as (top & ls & low & Hparts).
  destruct (verify_tree_below Hkn salt junk bad f (root_hash salt img) (fun _ => True) Ht) as (n & _ & Hrun); [by rewrite Hlen| |].
  - intros v Hsalt Hhash. rewrite (tp_root _ _ _ _ _ Hparts), Hstart.
    destruct (verify_root_corrected Hkn Hc Hj roots rounds salt full (set_verity v f) (zlen img) top) as [n Hn']; try done.
    + destruct Hf. split; try done. cbn. congruence.
    + rewrite <- (td_salt _ _ _ Ht). exact Hsalt.
    + unfold full. rewrite (tp_tree _ _ _ _ _ Hparts). exists img, (concat (ls ++ [low])). done.
    + apply (tp_top _ _ _ _ _ Hparts).
    + rewrite <- Hlen. apply (ha_aligned _ _ _ Hh).
    + by exists n.
  - exists (set_errors n (verified_handle salt bad f)). split; [exact Hrun|].
    apply (fec_pread_hashed salt); try done. by destruct Hh.
Qed.

(** An example: 129 blocks replaced by 129 other blocks, with 254 parity bytes for
    each byte. *)
Definition swapped_handle (img bad : bytes) : fec_handle :=
  let tree := @verity_tree sum_digest [1; 2] in
  let full := img ++ tree img in
  let disk := (bad ++ tree bad) ++ @codes_file sum_digest repetition_code 254 0 full in
  FecHandle (EccInfo true 254 1 0 (zlen full / FEC_BLOCKSIZE) (rounds_of 254 full) (zlen full)) disk 0 O_RDONLY 0 (zlen full) 0 (zlen disk)
    (VerityInfo false None 0 0 0 (zlen img) None 2 (Some [1; 2]) (zlen bad / FEC_BLOCKSIZE) 0 [] (VerityHeader 0 0 [] 0) (VerityHeader 0 0 [] 0)).

Section Example.
Context (img bad : bytes) (Hi : zlen img = 528384) (Hb : zlen bad = 528384).

Let tree (b : bytes) : bytes := @verity_tree sum_digest [1; 2] b.
Let full : bytes := img ++ tree img.

Lemma example_tree b : zlen b = 528384 -> zlen (@verity_tree sum_digest [1; 2] b) = 12288.
Proof.
  intros Hz. assert (Hn : zlen b / FEC_BLOCKSIZE = 129) by by rewrite Hz.
  rewrite zlen_verity_tree; rewrite Hn; [reflexivity|lia].
Qed.

Lemma example_full : zlen full = 540672.
Proof. unfold full, tree. rewrite zlen_app, example_tree by done. lia. Qed.

Lemma example_encodable : encodable 254 full.
Proof. split; unfold rounds_of; rewrite ?example_full; done. Qed.

Lemma example_protected : @protected repetition_code 254 (rounds_of 254 full) full (fd_data (swapped_handle img bad)).
Proof.
  pose proof example_encodable as He. pose proof example_full as Hz.
  apply (survives_protected (dg := sum_digest) (rs := repetition_code) 254 0); [done|].
  apply wiped_survives; [done|transitivity 540672; [rewrite zlen_app, (example_tree bad Hb); lia|symmetry; exact Hz]|].
  change (zlen (full ++ codes_file (dg := sum_digest) (rs := repetition_code) 254 0 full) < 2 ^ 62).
  unfold codes_file. rewrite (zlen_app full), Hz, !zlen_app, (zlen_all_codes (rs := repetition_code) _ _ He), (zlen_codes_header_block (rs := repetition_code) _ _ He), zlen_replicate.
  pose proof (en_small _ _ He). change (Z.of_nat (Z.to_nat (fec_round_up 0 FEC_BLOCKSIZE))) with 0. unfold FEC_BLOCKSIZE. lia.
Qed.

Lemma example_image : @verity_image sum_digest [1; 2] bad (swapped_handle img bad).
Proof.
  pose proof (pr_disk _ _ _ _ example_protected) as [_ Hd]. pose proof example_full as Hz. pose proof (example_tree bad Hb) as Ht.
  split; [split|..]; try done.
  - by rewrite Hb.
  - exists bad, (@codes_file sum_digest repetition_code 254 0 full). cbn [fd_data swapped_handle verity v_hash_start].
    split; [by rewrite <- app_assoc|lia].
  - rewrite Ht. split; [done|]. split; [exact Hd|]. change (h_data_size (swapped_handle img bad)) with (zlen full). lia.
  - rewrite Ht. change (h_data_size (swapped_handle img bad)) with (zlen full). cbn [swapped_handle verity v_hash_start]. lia.
  - exists [], (tree bad ++ @codes_file sum_digest repetition_code 254 0 full). cbn [fd_data swapped_handle]. split; [by rewrite <- app_assoc|done].
  - lia.
  - cbn [swapped_handle verity v_hash_start]. lia.
Qed.

Lemma example_room : zlen full < h_size (swapped_handle img bad).
Proof.
  pose proof (pr_disk _ _ _ _ example_protected) as [Hd _]. change (h_size (swapped_handle img bad)) with (zlen (fd_data (swapped_handle img bad))).
  destruct (rounds_of_bounds _ _ example_encodable) as [Hr _]. unfold FEC_BLOCKSIZE in Hd. lia.
Qed.
End Example.

Lemma verify_tree_raw_hashes_witness :
  exists f', @verify_tree sum_digest repetition_code whole_kernel four_threads (fun _ => 0) (@root_hash sum_digest [1; 2] (zeros 528384))
      (swapped_handle (zeros 528384) (sevens 528384)) = Ok (Some tt, f') /\
    exists n, @fec_pread sum_digest repetition_code whole_kernel four_threads 10 4096 f' = Ok (Some (ztake 10 (zdrop 4096 (sevens 528384))), set_errors n f').
Proof.
  assert (Hi : zlen (zeros 528384) = 528384) by (apply zlen_zeros; lia).
  assert (Hb : zlen (sevens 528384) = 528384) by (unfold sevens; rewrite zlen_replicate; lia).
  revert Hi Hb. generalize (zeros 528384), (sevens 528384). intros img bad Hi Hb.
  apply (@verify_tree_raw_hashes sum_digest repetition_code whole_kernel four_threads (fun _ => 0) 254
    (rounds_of 254 (img ++ @verity_tree sum_digest [1; 2] img)) [1; 2] img bad
    (swapped_handle img bad) 4096 10 whole_kernel_reliable (fun _ => eq_refl) (fun _ => eq_refl) repetition_corrects).
  - lia.
  - by apply example_image.
  - done.
  - by rewrite Hi.
  - by apply example_protected.
  - by split.
  - by apply example_room.
  - done.
  - lia.
  - lia.
  - lia.
  - done.
Defined.
