(* ===== verification/MemLine.v ===== *)
(** Model of the input side of src/memory_replay: [LineBuffer] (LineBuffer.h,
    LineBuffer.cpp), the lines of a dump and the actions made of them
    (Action.h, Action.cpp, main.cpp), and [GetMaxAllocs] (main.cpp).

    The kernel decides how many bytes a [read] returns.  [uintptr_t] and
    [size_t] have 64 bits; numbers are scanned as [strtoull] does. *)
From stdpp Require Import base list numbers strings.
From Stdlib Require Import ZArith Lia.
From S2P Require Import Prelude Utils KernelSymbols.

(** * A file descriptor of a regular file *)

(** The bytes behind the position, how many bytes the kernel hands out in each
    [read] (negative: the call fails), and how many reads there were. *)
Record Fd := mkFd { fd_rest : bytes; fd_short : nat -> Z; fd_reads : nat }.

(** The returned value and the bytes stored. *)
Definition read (n : Z) (fd : Fd) : Z * bytes * Fd :=
  let short := fd_short fd (fd_reads fd) in
  let most := Z.min n (zlen (fd_rest fd)) in
  if short <? 0 then (-1, [], mkFd (fd_rest fd) (fd_short fd) (S (fd_reads fd)))
  else
    let k := if most <=? 0 then 0 else Z.max 1 (Z.min short most) in
    (k, ztake k (fd_rest fd), mkFd (zdrop k (fd_rest fd)) (fd_short fd) (S (fd_reads fd))).

(** * [LineBuffer] *)

Record LineBuffer := mkLineBuffer { buffer_ : bytes; start_ : Z; bytes_ : Z }.
Definition LineBuffer_new (buffer : bytes) : LineBuffer := mkLineBuffer buffer 0 0.

(** [memchr] of a byte: the number of bytes before it. *)
Fixpoint memchr (c : Z) (s : bytes) : option Z :=
  match s with
  | [] => None
  | x :: s => if x =? c then Some 0 else Z.succ <$> memchr c s
  end.

(** The newline in the unread bytes, if there are any. *)
Definition find_line (b : LineBuffer) : res (option Z) :=
  if 0 <? bytes_ b then s ← mem_read (buffer_ b) (start_ b) (bytes_ b); Ok (memchr 10 s)
  else Ok None.

(** The unread bytes are moved to the front. *)
Definition move_front (b : LineBuffer) : res LineBuffer :=
  if 0 <? start_ b then
    s ← mem_read (buffer_ b) (start_ b) (bytes_ b);
    m ← mem_write (buffer_ b) 0 s;
    Ok (mkLineBuffer m 0 (bytes_ b))
  else Ok b.

(** One turn of the loop: [inl] when it returns ([None] is false, [Some] the
    position and the length of the line), [inr] when it goes on. *)
Definition GetLine_turn (b : LineBuffer) (fd : Fd) : res ((option (Z * Z) + unit) * LineBuffer * Fd) :=
  newline ← find_line b;
  match newline with
  | Some n =>
      m ← mem_write (buffer_ b) (start_ b + n) [0];
      Ok (inl (Some (start_ b, n)), mkLineBuffer m (start_ b + n + 1) (bytes_ b - (n + 1)), fd)
  | None =>
      b ← move_front b;
      let '(k, s, fd) := read (u64 (zlen (buffer_ b) - bytes_ b - 1)) fd in
      m ← mem_write (buffer_ b) (bytes_ b) s;
      if k <=? 0 then
        if 0 <? bytes_ b then
          m ← mem_write m (bytes_ b) [0];
          Ok (inl (Some (start_ b, bytes_ b)), mkLineBuffer m 0 0, fd)
        else Ok (inl None, mkLineBuffer m (start_ b) (bytes_ b), fd)
      else Ok (inr tt, mkLineBuffer m (start_ b) (bytes_ b + k), fd)
  end.

(** Each turn that goes on takes a byte from the file. *)
Fixpoint GetLine_loop (fuel : nat) (b : LineBuffer) (fd : Fd) : res (option (Z * Z) * LineBuffer * Fd) :=
  match fuel with
  | O => OutOfBounds
  | S fuel =>
      '(r, b, fd) ← GetLine_turn b fd;
      match r with
      | inl r => Ok (r, b, fd)
      | inr _ => GetLine_loop fuel b fd
      end
  end.
Definition GetLine (b : LineBuffer) (fd : Fd) : res (option (Z * Z) * LineBuffer * Fd) :=
  GetLine_loop (S (S (length (fd_rest fd)))) b fd.

(** The C string at a position of the buffer. *)
Definition text_at (m : bytes) (p : Z) : bytes := c_str (zdrop p m).

(** * Actions *)

Inductive Action :=
| EndThreadAction
| MallocAction (key_pointer size : Z)
| CallocAction (key_pointer n_elements size : Z)
| ReallocAction (key_pointer old_pointer size : Z)
| MemalignAction (key_pointer align size : Z)
| FreeAction (key_pointer : Z).

Definition EndThread (a : Action) : bool := match a with EndThreadAction => true | _ => false end.
Definition DoesFree (a : Action) : bool :=
  match a with
  | ReallocAction _ old_pointer _ => negb (old_pointer =? 0)
  | FreeAction key_pointer => negb (key_pointer =? 0)
  | _ => false
  end.

(** Decimal digits; whether there was one. *)
Fixpoint scan_decimal (acc : Z) (any : bool) (s : bytes) : Z * bool * bytes :=
  match s with
  | c :: s' =>
      if (48 <=? c) && (c <=? 57) then scan_decimal (acc * 10 + (c - 48)) true s' else (acc, any, s)
  | [] => (acc, any, [])
  end.

(** [%zu] *)
Definition scan_size (s : bytes) : option (Z * bytes) :=
  let '(neg, s) := scan_sign (skip_space s) in
  let '(v, any, rest) := scan_decimal 0 false s in
  if any then Some (if UINT64_MAX <? v then UINT64_MAX else if neg then u64 (- v) else v, rest) else None.

Definition i32 (x : Z) : Z := (x + 2 ^ 31) mod 2 ^ 32 - 2 ^ 31.

(** [%d]: what [strtoimax] gives, cut to 32 bits. *)
Definition scan_int (s : bytes) : option (Z * bytes) :=
  let '(neg, s) := scan_sign (skip_space s) in
  let '(v, any, rest) := scan_decimal 0 false s in
  if any then Some (i32 (if neg then - Z.min v (2 ^ 63) else Z.min v (2 ^ 63 - 1)), rest) else None.

(** [sscanf(line, "%zu %zu", ...) == 2], and with a pointer first. *)
Definition scan_two_sizes (s : bytes) : option (Z * Z) :=
  '(a, s) ← scan_size s; '(b, _) ← scan_size s; Some (a, b).
Definition scan_pointer_size (s : bytes) : option (Z * Z) :=
  '(a, s) ← scan_hex s; '(b, _) ← scan_size s; Some (a, b).

(** [None]: a null pointer, for an unknown type or arguments that do not
    scan. *)
Definition CreateAction (key_pointer : Z) (type line : bytes) : option Action :=
  if bool_decide (type = str "malloc") then '(size, _) ← scan_size line; Some (MallocAction key_pointer size)
  else if bool_decide (type = str "free") then Some (FreeAction key_pointer)
  else if bool_decide (type = str "calloc") then '(n, size) ← scan_two_sizes line; Some (CallocAction key_pointer n size)
  else if bool_decide (type = str "realloc") then '(old, size) ← scan_pointer_size line; Some (ReallocAction key_pointer old size)
  else if bool_decide (type = str "memalign") then '(al, size) ← scan_two_sizes line; Some (MemalignAction key_pointer al size)
  else if bool_decide (type = str "thread_done") then Some EndThreadAction
  else None.

(** [sscanf(line, "%d: %s %" SCNxPTR " %n", &tid, type, &key_pointer, &line_pos)]
    with three conversions: the thread, the type, the key and the rest of the
    line.  [char type[128]] has no room for longer words. *)
Definition scan_line (line : bytes) : res (option (Z * bytes * Z * bytes)) :=
  match scan_int line with
  | Some (tid, c :: s) =>
      if c =? 58 then
        let '(type, s) := span_word (skip_space s) in
        match type with
        | [] => Ok None
        | _ =>
            if zlen type + 1 <=? 128 then
              match scan_hex s with
              | Some (key_pointer, s) => Ok (Some (tid, type, key_pointer, skip_space s))
              | None => Ok None
              end
            else OutOfBounds
        end
      else Ok None
  | _ => Ok None
  end.

(** * [GetMaxAllocs] *)

(** [while (getline) body], where the body sees the buffer and the line. *)
Section for_lines.
Context {St : Type} (body : bytes -> Z -> Z -> St -> res St).
Fixpoint for_lines (fuel : nat) (b : LineBuffer) (fd : Fd) (s : St) : res St :=
  match fuel with
  | O => OutOfBounds
  | S fuel =>
      '(r, b, fd) ← GetLine b fd;
      match r with
      | None => Ok s
      | Some (line, line_len) => s ← body (buffer_ b) line line_len s; for_lines fuel b fd s
      end
  end.
End for_lines.

Definition mem_byte (m : bytes) (p : Z) : res Z := match znth m p with Some c => Ok c | None => OutOfBounds end.

(** [while ( *word++ == ' ');]: the position behind the first byte that is not
    a space. *)
Fixpoint skip_spaces_past (fuel : nat) (m : bytes) (word : Z) : res Z :=
  match fuel with
  | O => OutOfBounds
  | S fuel => c ← mem_byte m word; if c =? 32 then skip_spaces_past fuel m (word + 1) else Ok (word + 1)
  end.

(** [sscanf(word, "free %" SCNxPTR, &pointer) == 1] *)
Definition scan_free (s : bytes) : option Z :=
  if bool_decide (take 4 s = str "free") then fst <$> scan_hex (drop 4 s) else None.

Definition count_line (m : bytes) (line line_len num_allocs : Z) : res Z :=
  s ← mem_read m line line_len;
  match memchr 58 s with
  | None => Ok num_allocs
  | Some n =>
      word ← skip_spaces_past (S (S (length m))) m (line + n + 1);
      c ← mem_byte m word;
      if c =? 102 then
        Ok (match scan_free (text_at m word) with
            | Some pointer => if negb (pointer =? 0) then num_allocs -u64 1 else num_allocs
            | None => num_allocs
            end)
      else if negb (c =? 116) then Ok (num_allocs +u64 1)
      else Ok num_allocs
  end.

(** A line other than the last takes a byte. *)
Definition GetMaxAllocs (g_buffer : bytes) (fd : Fd) : res Z :=
  for_lines count_line (S (S (length (fd_rest fd)))) (LineBuffer_new g_buffer) fd 0.

(** * Lines *)

(** The parts between newlines; what is behind the last newline is a line unless
    it is empty. *)
Fixpoint lines_from (acc text : bytes) : list bytes :=
  match text with
  | [] => match acc with [] => [] | _ => [acc] end
  | c :: text => if c =? 10 then acc :: lines_from [] text else lines_from (acc ++ [c]) text
  end.
Definition lines_of (text : bytes) : list bytes := lines_from [] text.

Definition no_newline (l : bytes) : Prop := Forall (fun c => c <> 10) l.

Lemma lines_from_app l : forall acc rest, no_newline l -> lines_from acc (l ++ rest) = lines_from (acc ++ l) rest.
Proof.
  induction l as [|c l IH]; intros acc rest Hl; cbn [app lines_from]; [by rewrite app_nil_r|].
  apply Forall_cons in Hl as [Hc Hl]. rewrite (proj2 (Z.eqb_neq _ _) Hc), IH by done. by rewrite <- app_assoc.
Qed.

Lemma lines_of_newline l rest : no_newline l -> lines_of (l ++ 10 :: rest) = l :: lines_of rest.
Proof. intros Hl. unfold lines_of. by rewrite lines_from_app. Qed.

Lemma lines_of_last l : no_newline l -> l <> [] -> lines_of l = [l].
Proof.
  intros Hl Hn. unfold lines_of. rewrite <- (app_nil_r l), lines_from_app, app_nil_r by done.
  cbn. by destruct l.
Qed.

Lemma memchr_spec c s :
  match memchr c s with
  | Some n => 0 <= n < zlen s /\ s = ztake n s ++ c :: zdrop (n + 1) s /\ Forall (fun x => x <> c) (ztake n s)
  | None => Forall (fun x => x <> c) s
  end.
Proof.
  induction s as [|x s IH]; cbn [memchr]; [constructor|]. destruct (Z.eqb_spec x c) as [->|Hx].
  - rewrite zlen_cons. pose proof (zlen_nonneg s). split_and!; [lia..|done|constructor].
  - destruct (memchr c s) as [n|]; cbn.
    + destruct IH as (Hn & Hs & Hf). rewrite zlen_cons. unfold ztake, zdrop in *.
      replace (Z.to_nat (Z.succ n)) with (S (Z.to_nat n)) by lia.
      replace (Z.to_nat (Z.succ n + 1)) with (S (Z.to_nat (n + 1))) by lia. cbn.
      split_and!; [lia..|by f_equal|by constructor].
    + by constructor.
Qed.

(** The first line of a text. *)
Lemma lines_of_first text l ls :
  lines_of text = l :: ls ->
  no_newline l /\ ((exists rest, text = l ++ 10 :: rest /\ ls = lines_of rest) \/ (text = l /\ l <> [] /\ ls = [])).
Proof.
  intros H. pose proof (memchr_spec 10 text) as Hm. destruct (memchr 10 text) as [n|].
  - destruct Hm as (_ & Ht & Hn). rewrite Ht, lines_of_newline in H by done. injection H as <- <-.
    split; [done|]. left. eexists. done.
  - destruct text as [|c text]; [done|]. rewrite lines_of_last in H by done. injection H as <- <-. split; [done|].
    by right.
Qed.

(** * [GetLine] returns the lines of the file *)

Definition unread (b : LineBuffer) (fd : Fd) : bytes := ztake (bytes_ b) (zdrop (start_ b) (buffer_ b)) ++ fd_rest fd.

(** There is room for a terminator. *)
Definition lb_ok (b : LineBuffer) : Prop :=
  0 <= start_ b /\ 0 <= bytes_ b /\ start_ b + bytes_ b <= zlen (buffer_ b) - 1 /\ 2 <= zlen (buffer_ b) < 2 ^ 63.

Definition reads_ok (fd : Fd) : Prop := forall i, 0 <= fd_short fd i.

(** Each line, its newline and a terminator fit into a buffer of [n] bytes. *)
Definition lines_fit (n : Z) (text : bytes) : Prop := Forall (fun l => zlen l <= n - 2) (lines_of text).

Lemma mem_read_ok m p n : 0 <= p -> 0 <= n -> p + n <= zlen m -> mem_read m p n = Ok (ztake n (zdrop p m)).
Proof.
  intros. unfold mem_read. by rewrite !(proj2 (Z.leb_le _ _)) by lia.
Qed.

Lemma mem_write_eq m p b : 0 <= p -> p + zlen b <= zlen m -> mem_write m p b = Ok (ztake p m ++ b ++ zdrop (p + zlen b) m).
Proof. intros. unfold mem_write. by rewrite !(proj2 (Z.leb_le _ _)) by lia. Qed.

Lemma bytes_at_sub m p n : 0 <= p -> 0 <= n -> p + n <= zlen m -> bytes_at m p (ztake n (zdrop p m)).
Proof.
  intros. exists (ztake p m), (zdrop n (zdrop p m)). rewrite !ztake_zdrop. split; [done|]. by rewrite zlen_ztake by lia.
Qed.

Lemma zlen_sub {A} (m : list A) p n : 0 <= p -> 0 <= n -> p + n <= zlen m -> zlen (ztake n (zdrop p m)) = n.
Proof. intros. rewrite zlen_ztake; [done|]. rewrite zlen_zdrop; lia. Qed.

Lemma find_line_ok b : lb_ok b -> find_line b = Ok (memchr 10 (ztake (bytes_ b) (zdrop (start_ b) (buffer_ b)))).
Proof.
  intros (H1 & H2 & H3 & _). unfold find_line. destruct (Z.ltb_spec 0 (bytes_ b)).
  - by rewrite mem_read_ok by lia.
  - by replace (bytes_ b) with 0 by lia.
Qed.

Lemma move_front_ok b fd :
  lb_ok b ->
  exists b', move_front b = Ok b' /\ lb_ok b' /\ start_ b' = 0 /\ bytes_ b' = bytes_ b /\
    zlen (buffer_ b') = zlen (buffer_ b) /\ unread b' fd = unread b fd.
Proof.
  intros Hb. pose proof Hb as (H1 & H2 & H3 & H4). unfold move_front. destruct (Z.ltb_spec 0 (start_ b)).
  - rewrite mem_read_ok by lia. cbn [mbind res_bind].
    set (s := ztake (bytes_ b) (zdrop (start_ b) (buffer_ b))).
    assert (zlen s = bytes_ b) as Hs by (apply zlen_sub; lia).
    destruct (mem_write_ok (buffer_ b) 0 s) as (m & Hm); [lia..|]. rewrite Hm. cbn [mbind res_bind].
    pose proof (mem_write_len _ _ _ _ Hm) as Hl. eexists. split; [done|]. cbn. split_and!; try (done || lia).
    + unfold lb_ok. cbn. lia.
    + unfold unread. cbn. f_equal. fold s. rewrite mem_write_eq in Hm by lia. injection Hm as <-.
      rewrite zdrop_0. change (ztake 0 (buffer_ b)) with (@nil Z). cbn [app]. by rewrite ztake_app_exact by lia.
  - exists b. split_and!; try done. lia.
Qed.

Lemma read_ok fd n :
  reads_ok fd -> 0 < n ->
  exists k fd', read n fd = (k, ztake k (fd_rest fd), fd') /\ fd_rest fd' = zdrop k (fd_rest fd) /\ reads_ok fd' /\
    0 <= k <= Z.min n (zlen (fd_rest fd)) /\ (k = 0 -> fd_rest fd = []).
Proof.
  intros Hr Hn. unfold read. pose proof (Hr (fd_reads fd)). pose proof (zlen_nonneg (fd_rest fd)).
  rewrite (proj2 (Z.ltb_ge _ _)) by lia. eexists _, _. split; [done|]. cbn. split_and!; try done.
  - case_if; lia.
  - case_if; lia.
  - case_if; [|lia]. intros _. assert (zlen (fd_rest fd) = 0) as Hz by lia. unfold zlen in Hz. destruct (fd_rest fd); [done|cbn in Hz; lia].
Qed.

Lemma lines_from_nonempty acc rest : acc <> [] -> lines_from acc rest <> [].
Proof.
  revert acc. induction rest as [|x rest IH]; intros acc H; cbn; [by destruct acc|]. case_if; [done|]. apply IH. by destruct acc.
Qed.

(** The buffer holds a prefix of the first line, as long as it has no newline. *)
Lemma prefix_of_first s rest l ls :
  no_newline s -> lines_of (s ++ rest) = l :: ls -> zlen s <= zlen l.
Proof.
  intros Hs H. unfold lines_of in H. rewrite lines_from_app in H by done. cbn [app] in H.
  revert s l Hs H. induction rest as [|c rest IH]; intros s l Hs H; cbn in H.
  - destruct s; [done|]. injection H as <- <-. lia.
  - destruct (Z.eqb_spec c 10).
    + injection H as <- <-. lia.
    + enough (zlen (s ++ [c]) <= zlen l) by (rewrite zlen_app in *; change (zlen [c]) with 1 in *; lia).
      apply IH; [|done]. apply Forall_app. split; [done|]. by apply Forall_singleton.
Qed.

(** What a call promises about the text that is left. *)
Definition line_read (n : Z) (text : bytes) (r : option (Z * Z)) (b : LineBuffer) (fd : Fd) : Prop :=
  lb_ok b /\ reads_ok fd /\ zlen (buffer_ b) = n /\
  match lines_of text with
  | [] => r = None
  | l :: ls => exists p, r = Some (p, zlen l) /\ bytes_at (buffer_ b) p (l ++ [0]) /\
      lines_of (unread b fd) = ls /\ (length (unread b fd) < length text)%nat
  end.

(** The newline is in the buffer. *)
Lemma turn_newline b fd n :
  lb_ok b -> reads_ok fd -> memchr 10 (ztake (bytes_ b) (zdrop (start_ b) (buffer_ b))) = Some n ->
  exists r b' fd', GetLine_turn b fd = Ok (inl r, b', fd') /\ line_read (zlen (buffer_ b)) (unread b fd) r b' fd'.
Proof.
  intros Hb Hr Hm. pose proof Hb as (H1 & H2 & H3 & H4). unfold GetLine_turn. rewrite find_line_ok, Hm by done.
  cbn [mbind res_bind]. set (s := ztake (bytes_ b) (zdrop (start_ b) (buffer_ b))) in *.
  pose proof (memchr_spec 10 s) as Hs. rewrite Hm in Hs. destruct Hs as (Hn & Hsplit & Hf).
  assert (zlen s = bytes_ b) as Hl by (apply zlen_sub; lia).
  destruct (mem_write_ok (buffer_ b) (start_ b + n) [0]) as (m & Hw); [lia|change (zlen [0]) with 1; lia|].
  rewrite Hw. cbn [mbind res_bind]. pose proof (mem_write_len _ _ _ _ Hw) as Hlen.
  assert (unread b fd = ztake n s ++ 10 :: (zdrop (n + 1) s ++ fd_rest fd)) as Hu.
  { unfold unread. fold s. rewrite Hsplit at 1. by rewrite <- app_assoc. }
  assert (zdrop (n + 1) s = ztake (bytes_ b - (n + 1)) (zdrop (start_ b + n + 1) m)) as Hrest.
  { rewrite mem_write_eq in Hw by (change (zlen [0]) with 1; lia). injection Hw as <-. change (zlen [0]) with 1.
    replace (start_ b + n + 1) with (zlen (ztake (start_ b + n) (buffer_ b) ++ [0]))
      by (rewrite zlen_app, zlen_ztake by lia; done).
    rewrite (cons_middle 0 _ (zdrop _ _)), (app_assoc _ [0]), zdrop_app_exact by done. rewrite zlen_app, zlen_ztake by lia. change (zlen [0]) with 1.
    unfold s, ztake, zdrop. rewrite skipn_firstn_comm, drop_drop. f_equal; [lia|]. f_equal; lia. }
  eexists _, _, _. split; [done|]. unfold line_read. split_and!; [unfold lb_ok; cbn; lia|done|done|].
  rewrite Hu, lines_of_newline by done. exists (start_ b). unfold unread. cbn [buffer_ start_ bytes_].
  rewrite zlen_ztake by lia. rewrite <- Hrest. split_and!; try done.
  - apply bytes_at_app.
    + apply (bytes_at_write_other (buffer_ b) (start_ b + n) [0]); [done| |rewrite zlen_ztake by lia; lia].
      unfold s, ztake. rewrite firstn_firstn. replace (Z.to_nat n `min` Z.to_nat (bytes_ b))%nat with (Z.to_nat n) by lia.
      apply (bytes_at_sub _ _ n); lia.
    + rewrite zlen_ztake by lia. by eapply bytes_at_write_same.
  - rewrite !length_app. cbn. rewrite length_app. lia.
Qed.

(** There is none: the file ends, or there are more bytes in the buffer. *)
Lemma turn_read b fd :
  lb_ok b -> reads_ok fd -> memchr 10 (ztake (bytes_ b) (zdrop (start_ b) (buffer_ b))) = None ->
  lines_fit (zlen (buffer_ b)) (unread b fd) ->
  exists r b' fd', GetLine_turn b fd = Ok (r, b', fd') /\
    match r with
    | inl r => line_read (zlen (buffer_ b)) (unread b fd) r b' fd'
    | inr _ => lb_ok b' /\ reads_ok fd' /\ zlen (buffer_ b') = zlen (buffer_ b) /\ unread b' fd' = unread b fd /\
        (length (fd_rest fd') < length (fd_rest fd))%nat
    end.
Proof.
  intros Hb Hr Hm Hfit. unfold GetLine_turn. rewrite find_line_ok, Hm by done. cbn [mbind res_bind].
  pose proof (memchr_spec 10 (ztake (bytes_ b) (zdrop (start_ b) (buffer_ b)))) as Hs. rewrite Hm in Hs.
  destruct (move_front_ok b fd Hb) as (b1 & -> & Hb1 & Hs1 & Hn1 & Hl1 & Hu1). cbn [mbind res_bind].
  rewrite <- Hu1, <- Hl1 in *. assert (ztake (bytes_ b1) (zdrop (start_ b1) (buffer_ b1)) = ztake (bytes_ b) (zdrop (start_ b) (buffer_ b))) as He.
  { unfold unread in Hu1. by apply app_inv_tail in Hu1. }
  rewrite <- He in Hs. clear b Hb Hm Hu1 Hl1 Hn1 He. rename b1 into b. pose proof Hb1 as (_ & H2 & H3 & H4). rewrite Hs1 in *.
  set (s := ztake (bytes_ b) (zdrop 0 (buffer_ b))) in *.
  assert (zlen s = bytes_ b) as Hzs by (apply zlen_sub; lia).
  assert (unread b fd = s ++ fd_rest fd) as Hu by (unfold unread, s; by rewrite Hs1).
  assert (bytes_ b <= zlen (buffer_ b) - 2) as Hroom.
  { destruct (lines_of (unread b fd)) as [|l ls] eqn:El.
    - destruct (Z.eq_dec (bytes_ b) 0) as [->|Hne]; [lia|exfalso]. rewrite Hu in El.
      unfold lines_of in El. rewrite lines_from_app in El by done. revert El. apply lines_from_nonempty.
      cbn [app]. intros E. rewrite E, zlen_nil in Hzs. lia.
    - unfold lines_fit in Hfit. rewrite El in Hfit. apply Forall_cons in Hfit as [Hl _]. rewrite Hu in El.
      pose proof (prefix_of_first _ _ _ _ Hs El). lia. }
  rewrite u64_small by (unfold is_u64; lia).
  destruct (read_ok fd (zlen (buffer_ b) - bytes_ b - 1) Hr) as (k & fd' & -> & Hrest & Hr' & Hk & Hk0); [lia|].
  assert (zlen (ztake k (fd_rest fd)) = k) as Hzk by (apply zlen_ztake; lia).
  rewrite mem_write_eq by lia. cbn [mbind res_bind]. rewrite Hzk.
  set (m := ztake (bytes_ b) (buffer_ b) ++ _).
  assert (zlen m = zlen (buffer_ b)) as Hm by (unfold m; rewrite !zlen_app, Hzk, zlen_ztake, zlen_zdrop by lia; lia).
  destruct (Z.leb_spec k 0) as [Hle|Hgt].
  - specialize (Hk0 ltac:(lia)). replace k with 0 in * by lia. rewrite Hk0, app_nil_r in *.
    destruct (Z.ltb_spec 0 (bytes_ b)).
    + rewrite mem_write_eq by (change (zlen [0]) with 1; lia). cbn [mbind res_bind]. eexists _, _, _. split; [done|].
      unfold line_read. cbn [buffer_ start_ bytes_]. change (zlen [0]) with 1. split_and!; [unfold lb_ok; cbn [buffer_ start_ bytes_]|done|..].
      1,2: rewrite !zlen_app, zlen_ztake, zlen_zdrop by lia; change (zlen [0]) with 1; lia.
      rewrite Hu, lines_of_last by (done || intros E; rewrite E, zlen_nil in Hzs; lia). exists 0. rewrite Hzs.
      assert (ztake (bytes_ b) m = s) as Hms.
      { unfold m, s. rewrite zdrop_0, ztake_app_exact by (rewrite zlen_ztake by lia; lia). done. }
      unfold unread. cbn [buffer_ start_ bytes_]. rewrite Hrest, Hms. split_and!; [done| |done|].
      * exists [], (zdrop (bytes_ b + 1) m). split; [|done]. by rewrite <- app_assoc.
      * change (0 < length s)%nat. unfold zlen in Hzs. lia.
    + eexists _, _, _. split; [done|]. unfold line_read. cbn [buffer_ start_ bytes_]. split_and!; [|done..|].
      * unfold lb_ok. cbn [buffer_ start_ bytes_]. lia.
      * rewrite Hu. destruct s; [done|]. rewrite zlen_cons in Hzs. pose proof (zlen_nonneg s). lia.
  - eexists _, _, _. split; [done|]. cbn [buffer_ start_ bytes_]. split_and!; try done.
    + unfold lb_ok. cbn [buffer_ start_ bytes_]. lia.
    + rewrite Hu. unfold unread. cbn [buffer_ start_ bytes_]. rewrite zdrop_0, Hrest. unfold m.
      rewrite app_assoc, ztake_app_exact by (rewrite zlen_app, zlen_ztake, Hzk by lia; lia).
      unfold s. by rewrite zdrop_0, <- app_assoc, ztake_zdrop.
    + rewrite Hrest. unfold zdrop, zlen in *. rewrite length_drop. lia.
Qed.

(** [GetLine] returns the next line, with a terminator behind it, however many
    bytes each [read] returns. *)
Lemma GetLine_loop_ok fuel : forall b fd,
  lb_ok b -> reads_ok fd -> lines_fit (zlen (buffer_ b)) (unread b fd) -> (length (fd_rest fd) < fuel)%nat ->
  exists r b' fd', GetLine_loop fuel b fd = Ok (r, b', fd') /\ line_read (zlen (buffer_ b)) (unread b fd) r b' fd'.
Proof.
  induction fuel as [|fuel IH]; intros b fd Hb Hr Hf Hl; [lia|]. cbn [GetLine_loop].
  destruct (memchr 10 (ztake (bytes_ b) (zdrop (start_ b) (buffer_ b)))) eqn:Hm.
  - destruct (turn_newline b fd _ Hb Hr Hm) as (r & b' & fd' & -> & H). cbn. eauto.
  - destruct (turn_read b fd Hb Hr Hm Hf) as ([r|[]] & b' & fd' & -> & H); cbn; [eauto|].
    destruct H as (Hb' & Hr' & Hz & Hu & Hlt). rewrite <- Hu, <- Hz in *. apply IH; (done || lia).
Qed.

Lemma GetLine_ok b fd :
  lb_ok b -> reads_ok fd -> lines_fit (zlen (buffer_ b)) (unread b fd) ->
  exists r b' fd', GetLine b fd = Ok (r, b', fd') /\ line_read (zlen (buffer_ b)) (unread b fd) r b' fd'.
Proof. intros. apply GetLine_loop_ok; (done || lia). Qed.

(** * The text of a dump *)

(** Digits without leading zeros, the most significant first, of a number of
    at most [fuel] digits. *)
Fixpoint print_digits (base : Z) (fuel : nat) (x : Z) : bytes :=
  match fuel with
  | O => []
  | S fuel => if x <? base then [hex_char x] else print_digits base fuel (x / base) ++ [hex_char (x mod base)]
  end.
Definition print_dec (x : Z) : bytes := print_digits 10 20 x.
Definition print_ptr (x : Z) : bytes := [48; 120] ++ print_digits 16 16 x.

Definition action_text (a : Action) : bytes :=
  match a with
  | EndThreadAction => str "thread_done" ++ [32] ++ print_ptr 0
  | MallocAction key size => str "malloc" ++ [32] ++ print_ptr key ++ [32] ++ print_dec size
  | CallocAction key n size => str "calloc" ++ [32] ++ print_ptr key ++ [32] ++ print_dec n ++ [32] ++ print_dec size
  | ReallocAction key old size => str "realloc" ++ [32] ++ print_ptr key ++ [32] ++ print_ptr old ++ [32] ++ print_dec size
  | MemalignAction key al size => str "memalign" ++ [32] ++ print_ptr key ++ [32] ++ print_dec al ++ [32] ++ print_dec size
  | FreeAction key => str "free" ++ [32] ++ print_ptr key
  end.

(** A line that a recorder of allocations writes: the thread and the action. *)
Definition dump_line (c : Z * Action) : bytes := print_dec (fst c) ++ [58; 32] ++ action_text (snd c).
Definition dump (cmds : list (Z * Action)) : bytes := mjoin ((fun c => dump_line c ++ [10]) <$> cmds).

Definition action_numbers (a : Action) : list Z :=
  match a with
  | EndThreadAction => []
  | MallocAction key size => [key; size]
  | CallocAction key n size => [key; n; size]
  | ReallocAction key old size => [key; old; size]
  | MemalignAction key al size => [key; al; size]
  | FreeAction key => [key]
  end.
Definition cmd_ok (c : Z * Action) : Prop := 0 < fst c < 2 ^ 31 /\ Forall is_u64 (action_numbers (snd c)).

(** ** Scanning it again *)

Lemma print_digits_chars base fuel x :
  0 < base <= 16 -> 0 <= x -> Forall (fun c => exists d, 0 <= d < base /\ c = hex_char d) (print_digits base fuel x).
Proof.
  intros Hb. revert x. induction fuel as [|fuel IH]; intros x Hx; cbn; [constructor|]. case_if.
  - apply Forall_singleton. exists x. split; [lia|done].
  - apply Forall_app. split; [apply IH, Z.div_pos; lia|]. apply Forall_singleton. exists (x mod base).
    split; [apply Z.mod_pos_bound; lia|done].
Qed.

Lemma print_digits_nonempty base fuel x : (0 < fuel)%nat -> print_digits base fuel x <> [].
Proof. destruct fuel as [|fuel]; [lia|]. intros _ H. cbn in H. revert H. case_if; [done|]. by intros [_ ?]%app_eq_nil. Qed.

Lemma scan_decimal_print fuel x acc any rest :
  (0 < fuel)%nat -> 0 <= x < 10 ^ Z.of_nat fuel ->
  exists n, 0 <= n /\ scan_decimal acc any (print_digits 10 fuel x ++ rest) = scan_decimal (acc * 10 ^ n + x) true rest.
Proof.
  revert x acc any rest. induction fuel as [|fuel IH]; intros x acc any rest Hf Hx; [lia|]. cbn [print_digits].
  rewrite Nat2Z.inj_succ, Z.pow_succ_r in Hx by lia. destruct (Z.ltb_spec x 10).
  - exists 1. split; [lia|]. cbn [app scan_decimal]. unfold hex_char. rewrite (proj2 (Z.ltb_lt _ _)) by lia.
    rewrite !(proj2 (Z.leb_le _ _)) by lia. cbn [andb]. f_equal. lia.
  - assert (0 < x / 10 < 10 ^ Z.of_nat fuel) as Hd by (split; [apply Z.div_str_pos; lia|apply Z.div_lt_upper_bound; lia]).
    destruct fuel as [|fuel]; [cbn in Hd; lia|]. rewrite <- app_assoc.
    destruct (IH (x / 10) acc any ([hex_char (x mod 10)] ++ rest)) as (n & Hn & ->); [lia..|]. exists (n + 1). split; [lia|].
    pose proof (Z.mod_pos_bound x 10). pose proof (Z.div_mod x 10). cbn [app scan_decimal]. unfold hex_char.
    rewrite (proj2 (Z.ltb_lt _ _)), !(proj2 (Z.leb_le _ _)) by lia. cbn [andb]. f_equal.
    rewrite Z.pow_add_r by lia. lia.
Qed.

Lemma scan_digits_print fuel x acc any rest :
  (0 < fuel)%nat -> 0 <= x < 16 ^ Z.of_nat fuel ->
  exists n, 0 <= n /\ scan_digits acc any (print_digits 16 fuel x ++ rest) = scan_digits (acc * 16 ^ n + x) true rest.
Proof.
  revert x acc any rest. induction fuel as [|fuel IH]; intros x acc any rest Hf Hx; [lia|]. cbn [print_digits].
  rewrite Nat2Z.inj_succ, Z.pow_succ_r in Hx by lia. destruct (Z.ltb_spec x 16).
  - exists 1. split; [lia|]. cbn [app scan_digits]. destruct (hex_val_char x) as [-> _]; [lia|]. f_equal; lia.
  - assert (0 < x / 16 < 16 ^ Z.of_nat fuel) as Hd by (split; [apply Z.div_str_pos; lia|apply Z.div_lt_upper_bound; lia]).
    destruct fuel as [|fuel]; [cbn in Hd; lia|]. rewrite <- app_assoc.
    destruct (IH (x / 16) acc any ([hex_char (x mod 16)] ++ rest)) as (n & Hn & ->); [lia..|]. exists (n + 1). split; [lia|].
    pose proof (Z.mod_pos_bound x 16). pose proof (Z.div_mod x 16). cbn [app scan_digits].
    destruct (hex_val_char (x mod 16)) as [-> _]; [lia|]. f_equal. rewrite Z.pow_add_r by lia. lia.
Qed.

(** A number ends at the end of the text or at a space or colon. *)
Definition ends (rest : bytes) : Prop := match rest with c :: _ => c = 32 \/ c = 58 | [] => True end.

Lemma scan_decimal_ends v rest : ends rest -> scan_decimal v true rest = (v, true, rest).
Proof. destruct rest as [|c rest]; [done|]. by intros [-> | ->]. Qed.
Lemma scan_digits_ends v rest : ends rest -> scan_digits v true rest = (v, true, rest).
Proof. destruct rest as [|c rest]; [done|]. by intros [-> | ->]. Qed.

(** Leading spaces do not matter, and a digit is not a sign. *)
Lemma skip_dec x rest :
  0 <= x < 10 ^ 20 -> scan_sign (skip_space (print_dec x ++ rest)) = (false, print_dec x ++ rest).
Proof.
  intros Hx. pose proof (print_digits_chars 10 20 x ltac:(lia) ltac:(lia)) as Hc.
  pose proof (print_digits_nonempty 10 20 x ltac:(lia)) as Hn. unfold print_dec in *.
  destruct (print_digits 10 20 x) as [|c w]; [done|]. apply Forall_cons in Hc as [(d & Hd & ->) _].
  destruct (hex_val_char d) as (_ & H1 & H2 & H3 & _); [lia|]. cbn [app skip_space]. rewrite H1. cbn [scan_sign].
  by rewrite (proj2 (Z.eqb_neq _ _) H2), (proj2 (Z.eqb_neq _ _) H3).
Qed.

Lemma skip_space_sp s : skip_space (32 :: s) = skip_space s.
Proof. done. Qed.

Lemma scan_size_print x rest : is_u64 x -> ends rest -> scan_size (print_dec x ++ rest) = Some (x, rest).
Proof.
  intros Hx He. unfold is_u64 in Hx. unfold scan_size. rewrite skip_dec by lia.
  destruct (scan_decimal_print 20 x 0 false rest) as (n & _ & Hs); [lia..|]. unfold print_dec. rewrite Hs.
  rewrite Z.mul_0_l, Z.add_0_l, scan_decimal_ends by done. by rewrite (proj2 (Z.ltb_ge _ _)) by (unfold UINT64_MAX; lia).
Qed.

Lemma scan_int_print x rest : 0 < x < 2 ^ 31 -> ends rest -> scan_int (print_dec x ++ rest) = Some (x, rest).
Proof.
  intros Hx He. unfold scan_int. rewrite skip_dec by lia.
  destruct (scan_decimal_print 20 x 0 false rest) as (n & _ & Hs); [lia..|]. unfold print_dec. rewrite Hs.
  rewrite Z.mul_0_l, Z.add_0_l, scan_decimal_ends by done. unfold i32. rewrite Z.min_l, Z.mod_small by lia. do 2 f_equal. lia.
Qed.

Lemma scan_hex_print x rest : is_u64 x -> ends rest -> scan_hex (print_ptr x ++ rest) = Some (x, rest).
Proof.
  intros Hx He. unfold scan_hex, print_ptr. cbn [app skip_space is_space Z.eqb Z.leb Z.compare orb andb Pos.compare Pos.compare_cont Pos.eqb CompOpp scan_sign].
  cbn [scan_0x Z.eqb Pos.eqb andb orb].
  destruct (scan_digits_print 16 x 0 false rest) as (n & _ & ->); [lia|unfold is_u64 in Hx; lia|].
  rewrite Z.mul_0_l, Z.add_0_l, scan_digits_ends by done. unfold is_u64 in Hx.
  by rewrite (proj2 (Z.ltb_ge _ _)) by (unfold UINT64_MAX; lia).
Qed.

Lemma scan_size_sp s : scan_size (32 :: s) = scan_size s.
Proof. done. Qed.
Lemma scan_hex_sp s : scan_hex (32 :: s) = scan_hex s.
Proof. done. Qed.

Definition action_type (a : Action) : bytes :=
  match a with
  | EndThreadAction => str "thread_done"
  | MallocAction _ _ => str "malloc"
  | CallocAction _ _ _ => str "calloc"
  | ReallocAction _ _ _ => str "realloc"
  | MemalignAction _ _ _ => str "memalign"
  | FreeAction _ => str "free"
  end.
Definition action_key (a : Action) : Z :=
  match a with
  | EndThreadAction => 0
  | MallocAction key _ | CallocAction key _ _ | ReallocAction key _ _ | MemalignAction key _ _ | FreeAction key => key
  end.
(** The numbers behind the key, each with a space before it. *)
Definition action_args (a : Action) : bytes :=
  match a with
  | EndThreadAction | FreeAction _ => []
  | MallocAction _ size => [32] ++ print_dec size
  | CallocAction _ n size => [32] ++ print_dec n ++ [32] ++ print_dec size
  | ReallocAction _ old size => [32] ++ print_ptr old ++ [32] ++ print_dec size
  | MemalignAction _ al size => [32] ++ print_dec al ++ [32] ++ print_dec size
  end.

Lemma action_text_eq a : action_text a = action_type a ++ [32] ++ print_ptr (action_key a) ++ action_args a.
Proof. destruct a; cbn [action_text action_type action_key action_args]; by rewrite ?app_nil_r. Qed.

Lemma action_key_ok a : Forall is_u64 (action_numbers a) -> is_u64 (action_key a).
Proof. destruct a; cbn; [done|by inversion_clear 1..]. Qed.

Lemma action_type_chars a :
  Forall (fun c => 97 <= c <= 122 \/ c = 95) (action_type a) /\ 4 <= zlen (action_type a) <= 11.
Proof.
  assert (forallb (fun c => ((97 <=? c) && (c <=? 122)) || (c =? 95)) (action_type a) = true) as H by (destruct a; reflexivity).
  split; [|destruct a; vm_compute; split; congruence].
  apply Forall_forall. intros c Hc. rewrite forallb_forall in H. specialize (H c (proj1 (list_elem_of_In _ _) Hc)). lia.
Qed.

(** A number or a space is first. *)
Lemma skip_space_digits x rest : 0 <= x < 10 ^ 20 -> skip_space (print_dec x ++ rest) = print_dec x ++ rest.
Proof.
  intros Hx. pose proof (print_digits_chars 10 20 x ltac:(lia) ltac:(lia)) as Hc.
  pose proof (print_digits_nonempty 10 20 x ltac:(lia)) as Hn. unfold print_dec in *.
  destruct (print_digits 10 20 x) as [|c w]; [done|]. apply Forall_cons in Hc as [(d & Hd & ->) _].
  destruct (hex_val_char d) as (_ & H1 & _); [lia|]. cbn [app skip_space]. by rewrite H1.
Qed.

(** Reading the arguments of an action gives the action. *)
Lemma CreateAction_args a :
  Forall is_u64 (action_numbers a) -> CreateAction (action_key a) (action_type a) (skip_space (action_args a)) = Some a.
Proof.
  assert (forall s, scan_size (skip_space s) = scan_size s) as Hs.
  { intros s. unfold scan_size. enough (skip_space (skip_space s) = skip_space s) as -> by done.
    induction s as [|c s IH]; [done|]. cbn. destruct (is_space c) eqn:E; [done|]. cbn. by rewrite E. }
  assert (forall x, is_u64 x -> scan_size (print_dec x) = Some (x, [])) as Hlast.
  { intros x Hx. rewrite <- (app_nil_r (print_dec x)). by apply scan_size_print. }
  destruct a; intros H; cbn [action_numbers] in H; repeat (apply Forall_cons in H as [? H]); clear H;
    unfold CreateAction; cbn [action_key action_type action_args]; rewrite ?app_nil_l.
  - reflexivity.
  - rewrite bool_decide_true by done. cbn [app]. rewrite Hs, scan_size_sp, Hlast by done. reflexivity.
  - do 2 (rewrite bool_decide_false by done). rewrite bool_decide_true by done. unfold scan_two_sizes. cbn [app].
    rewrite Hs, scan_size_sp, scan_size_print by (done || by left). cbn [mbind option_bind].
    rewrite scan_size_sp, Hlast by done. reflexivity.
  - do 3 (rewrite bool_decide_false by done). rewrite bool_decide_true by done. unfold scan_pointer_size. cbn [app].
    rewrite skip_space_sp. change (skip_space (print_ptr old_pointer ++ 32 :: print_dec size)) with (print_ptr old_pointer ++ 32 :: print_dec size).
    rewrite scan_hex_print by (done || by left). cbn [mbind option_bind]. rewrite scan_size_sp, Hlast by done. reflexivity.
  - do 4 (rewrite bool_decide_false by done). rewrite bool_decide_true by done. unfold scan_two_sizes. cbn [app].
    rewrite Hs, scan_size_sp, scan_size_print by (done || by left). cbn [mbind option_bind].
    rewrite scan_size_sp, Hlast by done. reflexivity.
  - rewrite bool_decide_false by done. by rewrite bool_decide_true by done.
Qed.

(** A line of a dump is read back. *)
Lemma scan_dump_line c :
  cmd_ok c ->
  exists rest, scan_line (dump_line c) = Ok (Some (fst c, action_type (snd c), action_key (snd c), rest)) /\
    CreateAction (action_key (snd c)) (action_type (snd c)) rest = Some (snd c).
Proof.
  destruct c as [tid a]. intros [Ht Hn]. cbn [fst snd] in *. exists (skip_space (action_args a)).
  split; [|by apply CreateAction_args]. unfold scan_line, dump_line. cbn [fst snd app].
  rewrite scan_int_print by (done || by right). rewrite Z.eqb_refl, skip_space_sp, action_text_eq.
  destruct (action_type_chars a) as [Hc Hl].
  assert (Forall (fun c => is_space c = false) (action_type a)) as Hsp.
  { eapply Forall_impl; [exact Hc|]. cbn. intros c Hc'. unfold is_space. rewrite (proj2 (Z.eqb_neq c 32)) by lia.
    by rewrite (proj2 (Z.leb_gt c 13)), andb_false_r by lia. }
  assert (skip_space (action_type a ++ [32] ++ print_ptr (action_key a) ++ action_args a) =
          action_type a ++ [32] ++ print_ptr (action_key a) ++ action_args a) as ->.
  { destruct (action_type a) as [|c w]; [rewrite zlen_nil in Hl; lia|]. apply Forall_cons in Hsp as [Hc' _]. cbn [app skip_space]. by rewrite Hc'. }
  rewrite span_word_app by done. destruct (action_type a) as [|c w] eqn:E; [rewrite zlen_nil in Hl; lia|]. rewrite <- E in *.
  rewrite (proj2 (Z.leb_le _ _)) by lia. cbn [app]. rewrite scan_hex_sp, scan_hex_print; [done|by apply action_key_ok|].
  destruct a; cbn; auto.
Qed.

(** ** The lines of a dump *)

Lemma length_print_digits base fuel x : (length (print_digits base fuel x) <= fuel)%nat.
Proof.
  revert x. induction fuel as [|fuel IH]; intros x; cbn; [lia|]. case_if; cbn; [lia|]. rewrite length_app. cbn.
  specialize (IH (x / base)). lia.
Qed.

Definition line_char (c : Z) : Prop := c <> 10 /\ c <> 0.

Lemma digits_line base fuel x : 0 < base <= 16 -> 0 <= x -> Forall line_char (print_digits base fuel x).
Proof.
  intros Hb Hx. eapply Forall_impl; [by apply print_digits_chars|]. cbn. intros c (d & Hd & ->).
  destruct (hex_val_char d) as (_ & H1 & _ & _ & _ & _ & H2); [lia|]. split; [|lia]. intros E. by rewrite E in H1.
Qed.

Lemma dec_line x : is_u64 x -> Forall line_char (print_dec x) /\ zlen (print_dec x) <= 20.
Proof.
  intros Hx. unfold is_u64 in Hx. split; [apply digits_line; lia|]. pose proof (length_print_digits 10 20 x).
  unfold zlen, print_dec. lia.
Qed.

Lemma ptr_line x : is_u64 x -> Forall line_char (print_ptr x) /\ zlen (print_ptr x) <= 18.
Proof.
  intros Hx. unfold is_u64 in Hx. pose proof (length_print_digits 16 16 x). unfold print_ptr. split.
  - repeat (apply Forall_cons; split; [by split|]). apply digits_line; lia.
  - rewrite zlen_app. change (zlen [48; 120]) with 2. unfold zlen. lia.
Qed.

Lemma type_line a : Forall line_char (action_type a) /\ zlen (action_type a) <= 11.
Proof.
  destruct (action_type_chars a) as [Hc Hl]. split; [|lia]. eapply Forall_impl; [exact Hc|]. cbn. unfold line_char. lia.
Qed.

Lemma line_app b1 b2 n1 n2 n :
  Forall line_char b1 /\ zlen b1 <= n1 -> Forall line_char b2 /\ zlen b2 <= n2 -> n1 + n2 <= n ->
  Forall line_char (b1 ++ b2) /\ zlen (b1 ++ b2) <= n.
Proof. intros [? ?] [? ?] ?. rewrite Forall_app, zlen_app. split; [done|lia]. Qed.

Lemma sp_line : Forall line_char [32] /\ zlen [32] <= 1.
Proof. split; [by repeat constructor|reflexivity || done]. Qed.

Lemma args_line a : Forall is_u64 (action_numbers a) -> Forall line_char (action_args a) /\ zlen (action_args a) <= 42.
Proof.
  destruct a; intros H; cbn [action_numbers] in H; repeat (apply Forall_cons in H as [? H]); clear H; cbn [action_args];
    try (by split; [constructor|]).
  - by apply (line_app _ _ 1 20); [apply sp_line|apply dec_line|].
  - apply (line_app _ _ 1 41); [apply sp_line|apply (line_app _ _ 20 21); [by apply dec_line|apply (line_app _ _ 1 20); [apply sp_line|by apply dec_line|]|]|]; done.
  - apply (line_app _ _ 1 39); [apply sp_line|apply (line_app _ _ 18 21); [by apply ptr_line|apply (line_app _ _ 1 20); [apply sp_line|by apply dec_line|]|]|]; done.
  - apply (line_app _ _ 1 41); [apply sp_line|apply (line_app _ _ 20 21); [by apply dec_line|apply (line_app _ _ 1 20); [apply sp_line|by apply dec_line|]|]|]; done.
Qed.

Lemma dump_line_chars c : cmd_ok c -> Forall line_char (dump_line c) /\ zlen (dump_line c) <= 94.
Proof.
  destruct c as [tid a]. intros [Ht Hn]. unfold dump_line. cbn [fst snd] in *. rewrite action_text_eq.
  apply (line_app _ _ 20 74); [apply dec_line; unfold is_u64; lia| |done].
  apply (line_app _ _ 2 72); [by split; [repeat constructor|]| |done].
  apply (line_app _ _ 11 61); [apply type_line| |done]. apply (line_app _ _ 1 60); [apply sp_line| |done].
  apply (line_app _ _ 18 42); [by apply ptr_line, action_key_ok|by apply args_line|done].
Qed.

Lemma dump_lines cmds : Forall cmd_ok cmds -> lines_of (dump cmds) = dump_line <$> cmds.
Proof.
  induction 1 as [|c cmds Hc _ IH]; [done|]. unfold dump. cbn. rewrite <- app_assoc. cbn [app].
  rewrite lines_of_newline; [by f_equal|]. eapply Forall_impl; [apply dump_line_chars, Hc|]. by intros x [? _].
Qed.

Lemma dump_fits n cmds : 96 <= n -> Forall cmd_ok cmds -> lines_fit n (dump cmds).
Proof.
  intros Hn Hc. unfold lines_fit. rewrite dump_lines by done. apply Forall_fmap. eapply Forall_impl; [exact Hc|].
  intros c H. apply dump_line_chars in H as [_ H]. unfold compose. lia.
Qed.

(** ** Counting them *)

Lemma memchr_app c b rest : Forall (fun x => x <> c) b -> memchr c (b ++ c :: rest) = Some (zlen b).
Proof.
  induction 1 as [|x b Hx _ IH]; cbn [app memchr]; [by rewrite Z.eqb_refl|].
  rewrite (proj2 (Z.eqb_neq _ _) Hx), IH, zlen_cons. cbn. f_equal. lia.
Qed.

Lemma bytes_at_byte m p c rest : bytes_at m p (c :: rest) -> mem_byte m p = Ok c /\ bytes_at m (p + 1) rest.
Proof.
  intros H. pose proof H as Hz. apply bytes_at_znth in Hz as (Hp & Hl & Hb). rewrite zlen_cons in Hl. pose proof (zlen_nonneg rest).
  split.
  - unfold mem_byte. specialize (Hb 0). rewrite Z.add_0_r in Hb. rewrite zlen_cons in Hb. by rewrite Hb by lia.
  - by apply (bytes_at_split m p [c] rest) in H as [_ H].
Qed.

Lemma count_dump_line m p c num :
  cmd_ok c -> bytes_at m p (dump_line c ++ [0]) -> count_line m p (zlen (dump_line c)) num = Ok (num +u64 1).
Proof.
  intros Hc H. unfold count_line. pose proof H as [H1 _]%bytes_at_split. rewrite (bytes_at_read _ _ _ _ H1) by done.
  cbn [mbind res_bind]. unfold dump_line in *. destruct c as [tid a], Hc as [Ht _]. cbn [fst snd app] in *.
  rewrite memchr_app.
  2: { eapply Forall_impl; [apply (print_digits_chars 10 20 tid); lia|]. cbn beta. intros x (d & Hd & ->). unfold hex_char. case_if; lia. }
  apply bytes_at_split in H1 as [_ H1]. apply bytes_at_byte in H1 as [_ H1].
  assert (exists c1 c2 rest, action_text a = c1 :: c2 :: rest /\ c1 <> 32 /\ c2 <> 102 /\ c2 <> 116) as (c1 & c2 & rest & E & E1 & E2 & E3).
  { destruct a; cbn; eexists _, _, _; split_and!; (reflexivity || done). }
  rewrite E in H1. apply bytes_at_byte in H1 as [B0 H1]. apply bytes_at_byte in H1 as [B1 H1]. apply bytes_at_byte in H1 as [B2 _].
  cbn [skip_spaces_past]. rewrite B0. cbn [mbind res_bind]. rewrite Z.eqb_refl, B1.
  cbn [mbind res_bind]. rewrite (proj2 (Z.eqb_neq _ _) E1). cbn [mbind res_bind]. rewrite B2. cbn [mbind res_bind].
  by rewrite (proj2 (Z.eqb_neq _ _) E2), (proj2 (Z.eqb_neq _ _) E3).
Qed.

Lemma for_dump_lines cmds : forall fuel b fd num,
  Forall cmd_ok cmds -> lb_ok b -> reads_ok fd -> 96 <= zlen (buffer_ b) -> lines_of (unread b fd) = dump_line <$> cmds ->
  (length (unread b fd) < fuel)%nat -> 0 <= num -> num + zlen cmds < 2 ^ 64 ->
  for_lines count_line fuel b fd num = Ok (num + zlen cmds).
Proof.
  induction cmds as [|c cmds IH]; intros fuel b fd num Hc Hb Hr Hn Hl Hf Hz Hlt; (destruct fuel as [|fuel]; [lia|]);
    cbn [for_lines].
  - destruct (GetLine_ok b fd Hb Hr) as (r & b' & fd' & -> & H); [unfold lines_fit; by rewrite Hl|].
    destruct H as (_ & _ & _ & H). rewrite Hl in H. cbn in H. subst r. cbn. f_equal. rewrite zlen_nil. lia.
  - destruct (GetLine_ok b fd Hb Hr) as (r & b' & fd' & -> & H).
    { unfold lines_fit. rewrite Hl. apply Forall_fmap. eapply Forall_impl; [exact Hc|]. intros x Hx.
      apply dump_line_chars in Hx as [_ Hx]. unfold compose. lia. }
    destruct H as (Hb' & Hr' & Hbl & H). rewrite Hl in H. cbn [fmap list_fmap] in H. destruct H as (p & -> & Hat & Hu & Hlen).
    apply Forall_cons in Hc as [Hc Hcs]. rewrite zlen_cons in *. pose proof (zlen_nonneg cmds). cbn [mbind res_bind].
    rewrite count_dump_line by done. cbn [mbind res_bind]. rewrite u64_small by (unfold is_u64; lia).
    rewrite IH; try done; try lia. f_equal. lia.
Qed.

(** * What [GetMaxAllocs] computes *)

(** C39: [GetMaxAllocs] is meant to find the number of allocations "used at one
    time".  It looks at the byte behind the first letter of the action, which is
    neither the f of free nor the t of thread_done: for every dump, however the
    kernel cuts the file into reads, the result is the number of its lines,
    frees included.  So it is large enough, but not what is meant.  (The buffer of
    the program has 65535 bytes; 96 are enough for any line of a dump.) *)
Theorem GetMaxAllocs_counts_lines g_buffer fd cmds :
  96 <= zlen g_buffer < 2 ^ 63 -> reads_ok fd -> Forall cmd_ok cmds -> fd_rest fd = dump cmds -> zlen cmds < 2 ^ 64 ->
  GetMaxAllocs g_buffer fd = Ok (zlen cmds).
Proof.
  intros Hg Hr Hc Hd Hz. unfold GetMaxAllocs, LineBuffer_new.
  rewrite (for_dump_lines cmds); cbn [buffer_]; try (done || lia).
  - unfold lb_ok. cbn [buffer_ start_ bytes_]. lia.
  - change (unread _ fd) with (fd_rest fd). by rewrite Hd, dump_lines.
  - change (unread _ fd) with (fd_rest fd). lia.
Qed.

Lemma GetMaxAllocs_counts_lines_witness :
  GetMaxAllocs (replicate 128 0)
    (mkFd (dump [(7, MallocAction 16 8); (7, FreeAction 16); (7, EndThreadAction)]) (fun i => Z.of_nat i) 0) = Ok 3.
Proof.
  apply (GetMaxAllocs_counts_lines _ _ [(7, MallocAction 16 8); (7, FreeAction 16); (7, EndThreadAction)]).
  - vm_compute. split; congruence.
  - intros i. cbn. lia.
  - repeat constructor; cbn; try done; lia.
  - reflexivity.
  - reflexivity.
Defined.
