(* ===== verification/MemReplay.v ===== *)
(** Model of the replay of src/memory_replay: the hash table of allocations
    (Pointers.h, Pointers.cpp), the threads (Thread.h, Thread.cpp, Threads.h,
    Threads.cpp), the execution of actions (Action.cpp) and the loop over a dump
    ([ProcessDump] in main.cpp).  Definitions only.

    The program is a machine of a main thread and worker threads, which take
    steps in any order: [main_step], [worker_step].  A step ends at each access
    to memory that threads share: an atomic operation on a key of the table, the
    access to its pointer, a call of the allocator, and the critical sections of
    [Thread].  A thread that waits for a condition or for the end of another
    thread has no step ([None]).  [CheckFailed] is [err(1, ...)], which ends the
    process; [OutOfBounds] is undefined behaviour, such as freeing memory that
    is not allocated.

    The allocator under test is outside: an allocation returns the address, or
    the null pointer, that the environment chooses.  Creating threads and mapping memory succeeds. *)
From stdpp Require Import base gmap list numbers.
From Stdlib Require Import ZArith Lia.
From S2P Require Import Prelude Utils KernelSymbols MemLine.

(** * [Pointers] *)

Record pointer_data := mkPointerData { key_pointer : Z; pointer : Z }.
Definition sizeof_pointer_data : Z := 16.

(** The table; [max_pointers_] is its length.  [mmap] of no bytes fails. *)
Definition Pointers_new (pagesize max_allocs : Z) : res (list pointer_data) :=
  let pointers_size := Align (u64 (u64 (max_allocs * 4) * sizeof_pointer_data)) pagesize in
  let max_pointers := pointers_size / sizeof_pointer_data in
  if pointers_size =? 0 then CheckFailed
  else Ok (replicate (Z.to_nat max_pointers) (mkPointerData 0 0)).

Definition GetHash (key max_pointers : Z) : Z := key mod max_pointers.

(** [if (++index == max) index = 0;] *)
Definition next_index (index max : Z) : Z := if index + 1 =? max then 0 else index + 1.

(** * [Thread] *)

(** Where a worker is. *)
Inductive wpc :=
| Gone                                   (* not created, or returned from ThreadRunner *)
| WaitPending                            (* in WaitForPending *)
| Start                                  (* about to execute its action *)
| FindAt (key index entries : Z)         (* in the loop of Find, called by Remove *)
| ReadPtr (slot : nat)                   (* about to read data->pointer in Remove *)
| ClearKey (slot : nat) (memory : Z)     (* about to store 0 in Remove *)
| CallFree (memory : Z)
| CallAlloc (old_memory : option Z)      (* None: not a realloc, or of nullptr *)
| EmptyAt (memory index entries : Z)     (* in the loop of FindEmpty, called by Add *)
| StoreKey (slot : nat) (memory : Z)     (* about to store the key in Add *)
| StorePtr (slot : nat) (memory : Z)     (* about to store the pointer in Add *)
| Finished.                              (* the action is executed *)

Record Thread := mkThread {
  tid_ : Z;
  pending_ : bool;
  action_ : Action;                      (* action_memory_ *)
  total_time_nsecs_ : Z;
  pc : wpc;
}.

Definition set_pc (p : wpc) (t : Thread) : Thread := mkThread (tid_ t) (pending_ t) (action_ t) (total_time_nsecs_ t) p.
Definition set_pending (b : bool) (t : Thread) : Thread := mkThread (tid_ t) b (action_ t) (total_time_nsecs_ t) (pc t).
Definition set_action (a : Action) (t : Thread) : Thread := mkThread (tid_ t) (pending_ t) a (total_time_nsecs_ t) (pc t).
Definition set_tid (tid : Z) (t : Thread) : Thread := mkThread tid (pending_ t) (action_ t) (total_time_nsecs_ t) (pc t).
Definition AddTimeNsecs (nsecs : Z) (t : Thread) : Thread :=
  mkThread (tid_ t) (pending_ t) (action_ t) (u64 (total_time_nsecs_ t + nsecs)) (pc t).

(** * [Threads] *)

(** [sizeof_Thread] depends on the platform.  The memory is zero. *)
Definition Threads_new (pagesize sizeof_Thread max_threads : Z) : res (list Thread) :=
  let data_size := Align (u64 (max_threads * sizeof_Thread)) pagesize in
  if data_size =? 0 then CheckFailed
  else Ok (replicate (Z.to_nat (data_size / sizeof_Thread)) (mkThread 0 false EndThreadAction 0 Gone)).

(** A [pid_t] is converted to [size_t]. *)
Definition GetHashEntry (tid max_threads : Z) : res Z :=
  if max_threads =? 0 then OutOfBounds else Ok (u64 tid mod max_threads).

(** [fuel] bounds the turns: a round over all entries finds every thread. *)
Fixpoint FindThread_loop (fuel : nat) (threads : list Thread) (tid index entries : Z) : res (option nat) :=
  if entries =? 0 then Ok None
  else match fuel with
       | O => OutOfBounds
       | S fuel =>
           match threads !! Z.to_nat index with
           | None => OutOfBounds
           | Some t =>
               if tid_ t =? tid then Ok (Some (Z.to_nat index))
               else FindThread_loop fuel threads tid (next_index index (zlen threads))
                      (if negb (tid_ t =? 0) then entries - 1 else entries)
           end
       end.
Definition FindThread (threads : list Thread) (num_threads tid : Z) : res (option nat) :=
  index ← GetHashEntry tid (zlen threads);
  FindThread_loop (length threads) threads tid index num_threads.

Fixpoint FindEmptyEntry_loop (entries : nat) (threads : list Thread) (index : Z) : res (option nat) :=
  match entries with
  | O => Ok None
  | S entries =>
      match threads !! Z.to_nat index with
      | None => OutOfBounds
      | Some t =>
          if tid_ t =? 0 then Ok (Some (Z.to_nat index))
          else FindEmptyEntry_loop entries threads (next_index index (zlen threads))
      end
  end.
Definition FindEmptyEntry (threads : list Thread) (tid : Z) : res (option nat) :=
  index ← GetHashEntry tid (zlen threads);
  FindEmptyEntry_loop (length threads) threads index.

(** * The machine *)

(** Where the main thread is in [ProcessDump]. *)
Inductive mainpc :=
| MLine                                  (* in the loop condition *)
| MReady (thread : nat) (key : Z) (type args : bytes)  (* in WaitForReady, with the parsed line *)
| MQuiesce (thread i : nat) (seen : Z)   (* in WaitForAllToQuiesce, for an action that frees *)
| MSetPending (thread : nat)
| MJoin (thread : nat)                   (* in Finish *)
| MWaitAfter (thread : nat)              (* in the second WaitForReady *)
| MFinalQuiesce (i : nat) (seen : Z)     (* in WaitForAllToQuiesce behind the loop *)
| MFinishAll (i : nat)                   (* in FinishAll *)
| MFinishJoin (i : nat)                  (* in Finish, called by FinishAll *)
| MFreeAll (i : nat)                     (* in FreeAll *)
| MDone.

Record World := mkWorld {
  pointers_ : list pointer_data;
  heap : gset Z;                         (* addresses of allocated memory *)
  threads_ : list Thread;
  num_threads_ : Z;
  total_nsecs : Z;                       (* Threads::total_time_nsecs_ *)
  line_buf : LineBuffer;
  dump_fd : Fd;
  mpc : mainpc;
}.

Definition set_mpc (p : mainpc) (w : World) : World :=
  mkWorld (pointers_ w) (heap w) (threads_ w) (num_threads_ w) (total_nsecs w) (line_buf w) (dump_fd w) p.
Definition set_input (b : LineBuffer) (fd : Fd) (w : World) : World :=
  mkWorld (pointers_ w) (heap w) (threads_ w) (num_threads_ w) (total_nsecs w) b fd (mpc w).
Definition set_thread (i : nat) (t : Thread) (w : World) : World :=
  mkWorld (pointers_ w) (heap w) (<[i := t]> (threads_ w)) (num_threads_ w) (total_nsecs w) (line_buf w) (dump_fd w) (mpc w).
Definition set_num (n : Z) (w : World) : World :=
  mkWorld (pointers_ w) (heap w) (threads_ w) n (total_nsecs w) (line_buf w) (dump_fd w) (mpc w).
Definition set_total (n : Z) (w : World) : World :=
  mkWorld (pointers_ w) (heap w) (threads_ w) (num_threads_ w) n (line_buf w) (dump_fd w) (mpc w).
Definition set_slot (j : nat) (d : pointer_data) (w : World) : World :=
  mkWorld (<[j := d]> (pointers_ w)) (heap w) (threads_ w) (num_threads_ w) (total_nsecs w) (line_buf w) (dump_fd w) (mpc w).
Definition set_heap (h : gset Z) (w : World) : World :=
  mkWorld (pointers_ w) h (threads_ w) (num_threads_ w) (total_nsecs w) (line_buf w) (dump_fd w) (mpc w).

(** What the machine does to the allocator. *)
Inductive event :=
| EvAlloc (key memory : Z)
| EvRealloc (old_key old_memory key memory : Z)
| EvFree (key memory : Z).

(** [free] *)
Definition free (memory : Z) (h : gset Z) : res (gset Z) :=
  if memory =? 0 then Ok h else if bool_decide (memory ∈ h) then Ok (h ∖ {[memory]}) else OutOfBounds.

(** ** Workers: [ThreadRunner] and [Execute] *)

Definition max_pointers (w : World) : Z := zlen (pointers_ w).

(** The bytes that are set behind an allocation. *)
Definition memset_size (a : Action) : Z :=
  match a with
  | MallocAction _ size | ReallocAction _ _ size | MemalignAction _ _ size => size
  | CallocAction _ n size => u64 (n * size)
  | _ => 0
  end.

(** [Remove(key)] up to its loop. *)
Definition Remove_start (key : Z) (w : World) : res wpc :=
  if key =? 0 then CheckFailed else Ok (FindAt key (GetHash key (max_pointers w)) (max_pointers w)).

(** The first step of [Execute]. *)
Definition Execute_start (a : Action) (w : World) : res wpc :=
  match a with
  | EndThreadAction => Ok Finished
  | MallocAction _ _ | CallocAction _ _ _ | MemalignAction _ _ _ => Ok (CallAlloc None)
  | ReallocAction _ old_pointer _ => if negb (old_pointer =? 0) then Remove_start old_pointer w else Ok (CallAlloc None)
  | FreeAction key => if negb (key =? 0) then Remove_start key w else Ok Finished
  end.

(** Executing it is timed. *)
Definition timed (a : Action) : bool :=
  match a with EndThreadAction => false | FreeAction key => negb (key =? 0) | _ => true end.

(** The keys an action adds and removes. *)
Definition alloc_key (a : Action) : option Z :=
  match a with
  | MallocAction key _ | CallocAction key _ _ | ReallocAction key _ _ | MemalignAction key _ _ => Some key
  | _ => None
  end.
Definition free_key (a : Action) : option Z :=
  match a with
  | ReallocAction _ old_pointer _ => if old_pointer =? 0 then None else Some old_pointer
  | FreeAction key => if key =? 0 then None else Some key
  | _ => None
  end.

(** [malloc], [calloc], [memalign] or [realloc], which returns [memory], then
    [memset], then [Add] up to its loop. *)
Definition call_alloc (a : Action) (old : option Z) (memory : Z) (w : World) : res (gset Z * wpc * event) :=
  h ← match old with Some old => free old (heap w) | None => Ok (heap w) end;
  if (memory =? 0) && negb (memset_size a =? 0) then OutOfBounds
  else match alloc_key a with
       | None => OutOfBounds
       | Some key =>
           Ok (if memory =? 0 then h else {[memory]} ∪ h, EmptyAt memory (GetHash key (max_pointers w)) 0,
               match old, free_key a with
               | Some old, Some old_key => EvRealloc old_key old key memory
               | _, _ => EvAlloc key memory
               end)
       end.

(** A step of worker [i]; [memory] is what the allocator returns, [nsecs] the
    time it took. *)
Definition worker_step (memory nsecs : Z) (i : nat) (w : World) : res (option (World * list event)) :=
  match threads_ w !! i with
  | None => Ok None
  | Some t =>
      let a := action_ t in
      let go p w := Ok (Some (set_thread i (set_pc p t) w, [])) in
      match pc t with
      | Gone => Ok None
      | WaitPending => if pending_ t then go Start w else Ok None
      | Start => p ← Execute_start a w; go p w
      | FindAt key index entries =>
          if entries =? 0 then CheckFailed
          else match pointers_ w !! Z.to_nat index with
               | None => OutOfBounds
               | Some d =>
                   if key_pointer d =? key then go (ReadPtr (Z.to_nat index)) w
                   else go (FindAt key (next_index index (max_pointers w)) (entries - 1)) w
               end
      | ReadPtr slot =>
          match pointers_ w !! slot with
          | None => OutOfBounds
          | Some d => go (ClearKey slot (pointer d)) w
          end
      | ClearKey slot memory =>
          match pointers_ w !! slot with
          | None => OutOfBounds
          | Some d =>
              go (match alloc_key a with Some _ => CallAlloc (Some memory) | None => CallFree memory end)
                 (set_slot slot (mkPointerData 0 (pointer d)) w)
          end
      | CallFree memory =>
          h ← free memory (heap w);
          Ok (Some (set_thread i (set_pc Finished t) (set_heap h w), [EvFree (action_key a) memory]))
      | CallAlloc old =>
          '(h, p, ev) ← call_alloc a old memory w;
          Ok (Some (set_thread i (set_pc p t) (set_heap h w), [ev]))
      | EmptyAt memory index entries =>
          if entries <? max_pointers w then
            match pointers_ w !! Z.to_nat index with
            | None => OutOfBounds
            | Some d =>
                if key_pointer d =? 0 then go (StoreKey (Z.to_nat index) memory) (set_slot (Z.to_nat index) (mkPointerData 1 (pointer d)) w)
                else go (EmptyAt memory (next_index index (max_pointers w)) (entries + 1)) w
            end
          else CheckFailed
      | StoreKey slot memory =>
          match pointers_ w !! slot with
          | None => OutOfBounds
          | Some d => go (StorePtr slot memory) (set_slot slot (mkPointerData (action_key a) (pointer d)) w)
          end
      | StorePtr slot memory =>
          match pointers_ w !! slot with
          | None => OutOfBounds
          | Some d => go Finished (set_slot slot (mkPointerData (key_pointer d) memory) w)
          end
      | Finished =>
          (* AddTimeNsecs, EndThread, ClearPending *)
          let t := AddTimeNsecs (if timed a then nsecs else 0) t in
          Ok (Some (set_thread i (set_pc (if EndThread a then Gone else WaitPending) (set_pending false t)) w, []))
      end
  end.

(** ** The main thread: [ProcessDump] *)

Definition CreateThread (tid : Z) (w : World) : res (nat * World) :=
  if num_threads_ w =? zlen (threads_ w) then CheckFailed
  else
    o ← FindEmptyEntry (threads_ w) tid;
    match o with
    | None => CheckFailed
    | Some i =>
        match threads_ w !! i with
        | None => OutOfBounds
        | Some t => Ok (i, set_num (num_threads_ w + 1) (set_thread i (mkThread tid (pending_ t) (action_ t) 0 WaitPending) w))
        end
    end.

(** A turn of the loop up to [WaitForReady], or the end of the loop. *)
Definition next_line (w : World) : res World :=
  '(r, b, fd) ← GetLine (line_buf w) (dump_fd w);
  let w := set_input b fd w in
  match r with
  | None => Ok (set_mpc (MFinalQuiesce 0 0) w)
  | Some (line, _) =>
      p ← scan_line (text_at (buffer_ b) line);
      match p with
      | None => CheckFailed
      | Some (tid, type, key, args) =>
          o ← FindThread (threads_ w) (num_threads_ w) tid;
          match o with
          | Some i => Ok (set_mpc (MReady i key type args) w)
          | None => '(i, w) ← CreateThread tid w; Ok (set_mpc (MReady i key type args) w)
          end
      end
  end.

(** A turn of [WaitForAllToQuiesce], at entry [i] with [seen] threads before it:
    [None] when it waits, [inl] when it returns. *)
Definition quiesce_turn (i : nat) (seen : Z) (w : World) : res (option (unit + nat * Z)) :=
  if seen <? num_threads_ w then
    match threads_ w !! i with
    | None => OutOfBounds
    | Some t =>
        if tid_ t =? 0 then Ok (Some (inr (S i, seen)))
        else if pending_ t then Ok None else Ok (Some (inr (S i, seen + 1)))
    end
  else Ok (Some (inl tt)).

(** [Finish] once [pthread_join] returned. *)
Definition Finish (i : nat) (t : Thread) (w : World) : World :=
  set_num (num_threads_ w - 1) (set_total (u64 (total_nsecs w + total_time_nsecs_ t)) (set_thread i (set_tid 0 t) w)).

Definition main_step (w : World) : res (option (World * list event)) :=
  let with_thread i (k : Thread -> res (option (World * list event))) :=
    match threads_ w !! i with Some t => k t | None => OutOfBounds end in
  match mpc w with
  | MLine => w ← next_line w; Ok (Some (w, []))
  | MReady i key type args =>
      with_thread i (fun t =>
        if pending_ t then Ok None
        else match CreateAction key type args with
             | None => CheckFailed
             | Some a =>
                 Ok (Some (set_mpc (if DoesFree a then MQuiesce i 0 0 else MSetPending i) (set_thread i (set_action a t) w), []))
             end)
  | MQuiesce i j seen =>
      o ← quiesce_turn j seen w;
      Ok (match o with
          | None => None
          | Some (inl _) => Some (set_mpc (MSetPending i) w, [])
          | Some (inr (j, seen)) => Some (set_mpc (MQuiesce i j seen) w, [])
          end)
  | MSetPending i =>
      with_thread i (fun t =>
        let a := action_ t in
        Ok (Some (set_mpc (if EndThread a then MJoin i else if DoesFree a then MWaitAfter i else MLine)
                    (set_thread i (set_pending true t) w), [])))
  | MJoin i =>
      with_thread i (fun t =>
        match pc t with Gone => Ok (Some (set_mpc MLine (Finish i t w), [])) | _ => Ok None end)
  | MWaitAfter i =>
      with_thread i (fun t => if pending_ t then Ok None else Ok (Some (set_mpc MLine w, [])))
  | MFinalQuiesce j seen =>
      o ← quiesce_turn j seen w;
      Ok (match o with
          | None => None
          | Some (inl _) => Some (set_mpc (MFinishAll 0) w, [])
          | Some (inr (j, seen)) => Some (set_mpc (MFinalQuiesce j seen) w, [])
          end)
  | MFinishAll i =>
      match threads_ w !! i with
      | None => Ok (Some (set_mpc (MFreeAll 0) w, []))
      | Some t =>
          if negb (tid_ t =? 0)
          then Ok (Some (set_mpc (MFinishJoin i) (set_thread i (set_pending true (set_action EndThreadAction t)) w), []))
          else Ok (Some (set_mpc (MFinishAll (S i)) w, []))
      end
  | MFinishJoin i =>
      with_thread i (fun t =>
        match pc t with Gone => Ok (Some (set_mpc (MFinishAll (S i)) (Finish i t w), [])) | _ => Ok None end)
  | MFreeAll j =>
      match pointers_ w !! j with
      | None => Ok (Some (set_mpc MDone w, []))
      | Some d =>
          if negb (key_pointer d =? 0)
          then h ← free (pointer d) (heap w); Ok (Some (set_mpc (MFreeAll (S j)) (set_heap h w), [EvFree (key_pointer d) (pointer d)]))
          else Ok (Some (set_mpc (MFreeAll (S j)) w, []))
      end
  | MDone => Ok None
  end.

(** [ProcessDump] up to its loop. *)
Definition ProcessDump_start (pagesize sizeof_Thread max_allocs max_threads : Z) (g_buffer : bytes) (fd : Fd) : res World :=
  p ← Pointers_new pagesize max_allocs;
  t ← Threads_new pagesize sizeof_Thread max_threads;
  Ok (mkWorld p ∅ t 0 0 (LineBuffer_new g_buffer) fd MLine).

(** * Executions *)

(** An allocator: which addresses it can return when some memory is allocated.
    It returns a null pointer, or memory that is not in use. *)
Class Allocator := {
  returns : gset Z -> Z -> Prop;
  returns_fresh : forall h a, returns h a -> a = 0 \/ (0 < a /\ a ∉ h);
  returns_some : forall h, exists a, returns h a;
}.

(** It has memory whenever it is asked.  [Execute] hands what it gets to [memset]
    without a look at it, so the replay is only defined for such an allocator. *)
Class NeverNull `{Allocator} : Prop := never_null : forall h a, returns h a -> a <> 0.

Lemma returns_memory `{NeverNull} h a : returns h a -> 0 < a /\ a ∉ h.
Proof. intros Hr. pose proof (never_null h a Hr). by destruct (returns_fresh h a Hr). Qed.

(** A null pointer for an allocation of some bytes is undefined behaviour. *)
Lemma null_memory_fails nsecs i w t old :
  threads_ w !! i = Some t -> pc t = CallAlloc old -> memset_size (action_ t) <> 0 -> (forall a, old = Some a -> a ∈ heap w) ->
  worker_step 0 nsecs i w = OutOfBounds.
Proof.
  intros Ht Hp Hn Hold. unfold worker_step. rewrite Ht, Hp. unfold call_alloc.
  assert (exists h, match old with Some old => free old (heap w) | None => Ok (heap w) end = Ok h) as [h ->].
  { destruct old as [a|]; [|by eexists]. unfold free. case_if; [by eexists|]. rewrite bool_decide_true by (by apply Hold). by eexists. }
  cbn [mbind res_bind]. by rewrite (proj2 (Z.eqb_neq _ _) Hn).
Qed.

Section executions.
Context `{Allocator}.

(** The heap an allocation starts from: [realloc] may return its old memory. *)
Definition alloc_heap (t : Thread) (h : gset Z) : gset Z :=
  match pc t with CallAlloc (Some old) => h ∖ {[old]} | _ => h end.

Inductive step : World -> list event -> World -> Prop :=
| step_main w w' ev : main_step w = Ok (Some (w', ev)) -> step w ev w'
| step_worker memory nsecs i t w w' ev :
    threads_ w !! i = Some t -> returns (alloc_heap t (heap w)) memory ->
    worker_step memory nsecs i w = Ok (Some (w', ev)) -> step w ev w'.

Inductive steps : World -> list event -> World -> Prop :=
| steps_nil w : steps w [] w
| steps_snoc w tr w1 ev w2 : steps w tr w1 -> step w1 ev w2 -> steps w (tr ++ ev) w2.

(** No thread can fail. *)
Definition no_failure (w : World) : Prop :=
  is_ok (main_step w) = true /\
  forall memory nsecs i t, threads_ w !! i = Some t -> returns (alloc_heap t (heap w)) memory ->
    is_ok (worker_step memory nsecs i w) = true.
End executions.

(** * The specification: a map from keys to memory *)

(** What an event does to the memory that the dump has allocated, by key: an
    allocation has a new key and new memory, and what is freed is the memory of
    the key. *)
Definition spec_add (key memory : Z) (A : gmap Z Z) : option (gmap Z Z) :=
  if bool_decide (A !! key = None) && forallb (fun p => negb (snd p =? memory)) (map_to_list A)
  then Some (<[key := memory]> A) else None.
Definition spec_remove (key memory : Z) (A : gmap Z Z) : option (gmap Z Z) :=
  if bool_decide (A !! key = Some memory) then Some (delete key A) else None.
Definition spec_event (A : gmap Z Z) (e : event) : option (gmap Z Z) :=
  match e with
  | EvAlloc key memory => spec_add key memory A
  | EvRealloc old_key old_memory key memory => A ← spec_remove old_key old_memory A; spec_add key memory A
  | EvFree key memory => spec_remove key memory A
  end.
Fixpoint spec_run (A : gmap Z Z) (tr : list event) : option (gmap Z Z) :=
  match tr with
  | [] => Some A
  | e :: tr => A ← spec_event A e; spec_run A tr
  end.

(** The keys that are allocated behind each command of a dump, in order. *)
Definition live_after (live : gset Z) (a : Action) : gset Z :=
  match alloc_key a with Some k => {[k]} | None => ∅ end ∪
  (live ∖ match free_key a with Some k => {[k]} | None => ∅ end).
Definition live_keys (live : gset Z) (cmds : list (Z * Action)) : gset Z :=
  foldl (fun live c => live_after live (snd c)) live cmds.

(** The threads that are running. *)
Definition running_after (running : gset Z) (c : Z * Action) : gset Z :=
  if EndThread (snd c) then running ∖ {[fst c]} else {[fst c]} ∪ running.

(** A dump that a recorder can have written: keys are above 1 (0 and 1 have a
    meaning in the table), allocated keys are new, freed keys are allocated, and
    at most [max_threads] threads run at a time. *)
Fixpoint dump_valid (max_threads : Z) (live running : gset Z) (cmds : list (Z * Action)) : bool :=
  match cmds with
  | [] => true
  | c :: cmds =>
      match alloc_key (snd c) with
      | Some k => (1 <? k) && bool_decide (k ∉ live ∖ match free_key (snd c) with Some k => {[k]} | None => ∅ end)
      | None => true
      end &&
      match free_key (snd c) with Some k => bool_decide (k ∈ live) | None => true end &&
      (Z.of_nat (size ({[fst c]} ∪ running)) <=? max_threads) &&
      dump_valid max_threads (live_after live (snd c)) (running_after running c) cmds
  end.
