(* ===== verification/MemInv.v ===== *)
(** The invariant of the replay machine of MemReplay.v, and that the steps of
    the workers keep it.

    Memory that is allocated belongs to an entry of the table or to a worker
    that executes an action; a slot of the table that a worker has reserved
    belongs to this worker.  An action that frees runs alone. *)
From stdpp Require Import base gmap list numbers.
From Stdlib Require Import ZArith Lia.
From S2P Require Import Prelude Utils KernelSymbols MemLine MemReplay.

(** * Parts of a list *)

(** What the elements other than [i] contribute. *)
Definition others {A B} (f : nat -> A -> list B) (i : nat) (l : list A) : list B :=
  mjoin (imap f (take i l)) ++ mjoin (imap (fun k => f (S i + k)%nat) (drop (S i) l)).

Lemma join_at {A B} (f : nat -> A -> list B) i l x :
  l !! i = Some x -> mjoin (imap f l) ≡ₚ f i x ++ others f i l.
Proof.
  intros Hx. rewrite <- (take_drop_middle l i x Hx) at 1. pose proof (lookup_lt_Some _ _ _ Hx).
  rewrite imap_app, join_app. cbn [imap]. rewrite length_take_le by lia. cbn. unfold others.
  rewrite Permutation_app_comm, <- app_assoc. rewrite Nat.add_0_r. apply Permutation_app_head.
  rewrite Permutation_app_comm. apply Permutation_app_head. apply reflexive_eq. f_equal. apply imap_ext.
  intros k y _. cbn. f_equal. lia.
Qed.

Lemma others_insert {A B} (f : nat -> A -> list B) i l x : others f i (<[i := x]> l) = others f i l.
Proof. unfold others. by rewrite take_insert_ge, drop_insert_lt by lia. Qed.

Lemma others_ext {A B} (f g : nat -> A -> list B) i l :
  (forall j x, j <> i -> l !! j = Some x -> f j x = g j x) -> others f i l = others g i l.
Proof.
  intros H. unfold others. f_equal; f_equal; apply imap_ext; intros j x Hj.
  - apply H; [|by eapply lookup_take_Some in Hj as [? _]]. apply lookup_take_Some in Hj as [_ ?]. lia.
  - rewrite lookup_drop in Hj. apply H; [lia|done].
Qed.

Lemma join_insert {A B} (f : nat -> A -> list B) i l x y :
  l !! i = Some x -> mjoin (imap f (<[i := y]> l)) ≡ₚ f i y ++ others f i l.
Proof.
  intros Hx. rewrite (join_at f i _ y).
  - by rewrite others_insert.
  - apply list_lookup_insert_eq. by eapply lookup_lt_Some.
Qed.

Lemma elem_of_join_imap {A B} (f : nat -> A -> list B) l y :
  y ∈ mjoin (imap f l) <-> exists i x, l !! i = Some x /\ y ∈ f i x.
Proof.
  split.
  - intros (z & Hy & Hz)%list_elem_of_join. apply list_elem_of_lookup in Hz as (i & Hi).
    rewrite list_lookup_imap in Hi. destruct (l !! i) as [x|] eqn:E; [|done]. cbn in Hi. injection Hi as <-. eauto.
  - intros (i & x & Hx & Hy). apply list_elem_of_join. exists (f i x). split; [done|].
    apply list_elem_of_lookup. exists i. by rewrite list_lookup_imap, Hx.
Qed.

Lemma elem_of_others {A B} (f : nat -> A -> list B) i l y :
  y ∈ others f i l <-> exists j x, j <> i /\ l !! j = Some x /\ y ∈ f j x.
Proof.
  unfold others. rewrite elem_of_app, !elem_of_join_imap. split.
  - intros [(j & x & Hj & Hy)|(j & x & Hj & Hy)].
    + apply lookup_take_Some in Hj as [? ?]. exists j, x. split_and!; [lia|done..].
    + rewrite lookup_drop in Hj. eexists _, x. split_and!; [|exact Hj|done]. lia.
  - intros (j & x & Hne & Hj & Hy). destruct (decide (j < i)%nat).
    + left. exists j, x. split; [|done]. apply lookup_take_Some. done.
    + right. exists (j - S i)%nat, x. rewrite lookup_drop. replace (S i + (j - S i))%nat with j by lia. done.
Qed.

(** * What belongs to a worker *)

(** The slot it has reserved. *)
Definition busy (t : Thread) : list nat :=
  match pc t with StoreKey slot _ | StorePtr slot _ => [slot] | _ => [] end.

(** Memory, by key, that is not in the table. *)
Definition held (t : Thread) : list (Z * Z) :=
  match pc t with
  | EmptyAt memory _ _ | StoreKey _ memory | StorePtr _ memory => (fun k => (k, memory)) <$> option_list (alloc_key (action_ t))
  | CallFree memory | CallAlloc (Some memory) => (fun k => (k, memory)) <$> option_list (free_key (action_ t))
  | _ => []
  end.

(** Keys its action will still add and remove. *)
Definition todo (t : Thread) : list Z :=
  match pc t with
  | WaitPending => if pending_ t then option_list (alloc_key (action_ t)) else []
  | Start | FindAt _ _ _ | ReadPtr _ | ClearKey _ _ | CallAlloc _ => option_list (alloc_key (action_ t))
  | _ => []
  end.
Definition gone (t : Thread) : list Z :=
  match pc t with
  | WaitPending => if pending_ t then option_list (free_key (action_ t)) else []
  | Start | FindAt _ _ _ | ReadPtr _ | ClearKey _ _ | CallAlloc _ | CallFree _ => option_list (free_key (action_ t))
  | _ => []
  end.

Definition all {B} (f : Thread -> list B) (ts : list Thread) : list B := mjoin (imap (fun _ => f) ts).
Definition all_others {B} (f : Thread -> list B) (i : nat) (ts : list Thread) : list B := others (fun _ => f) i ts.

(** The entries of the table that belong to no worker. *)
Definition slot_pairs (bs : list nat) (j : nat) (d : pointer_data) : list (Z * Z) :=
  if bool_decide (j ∈ bs) then [] else if key_pointer d =? 0 then [] else [(key_pointer d, pointer d)].
Definition table_pairs (bs : list nat) (tbl : list pointer_data) : list (Z * Z) := mjoin (imap (slot_pairs bs) tbl).

(** * Probing *)

(** The index behind [e] steps from the hash of a key. *)
Definition probe (n key e : Z) : Z := (key mod n + e) mod n.

(** The first [e] slots from the hash on have keys with [P]. *)
Definition probed (tbl : list pointer_data) (key e : Z) (P : Z -> Prop) : Prop :=
  forall i d, 0 <= i < e -> tbl !! Z.to_nat (probe (zlen tbl) key i) = Some d -> P (key_pointer d).

(** * The invariant *)

Definition worker_active (t : Thread) : Prop := pending_ t = true /\ tid_ t <> 0.

(** A worker's position fits its action and the table. *)
Definition thread_ok (tbl : list pointer_data) (t : Thread) : Prop :=
  let a := action_ t in
  match pc t with
  | Gone => pending_ t = false
  | WaitPending => tid_ t <> 0
  | Start | Finished => worker_active t
  | FindAt key index entries =>
      worker_active t /\ free_key a = Some key /\ 0 <= entries <= zlen tbl /\
      index = probe (zlen tbl) key (zlen tbl - entries) /\ probed tbl key (zlen tbl - entries) (fun k => k <> key)
  | ReadPtr slot => worker_active t /\ exists d, tbl !! slot = Some d /\ free_key a = Some (key_pointer d)
  | ClearKey slot memory => worker_active t /\ exists d, tbl !! slot = Some d /\ free_key a = Some (key_pointer d) /\ pointer d = memory
  | CallFree _ => worker_active t /\ alloc_key a = None /\ is_Some (free_key a)
  | CallAlloc None => worker_active t /\ is_Some (alloc_key a) /\ free_key a = None
  | CallAlloc (Some _) => worker_active t /\ is_Some (alloc_key a) /\ is_Some (free_key a)
  | EmptyAt _ index entries =>
      worker_active t /\ exists key, alloc_key a = Some key /\ 0 <= entries <= zlen tbl /\
      index = probe (zlen tbl) key entries /\ probed tbl key entries (fun k => k <> 0)
  | StoreKey slot _ => worker_active t /\ is_Some (alloc_key a) /\ exists d, tbl !! slot = Some d /\ key_pointer d = 1
  | StorePtr slot _ => worker_active t /\ exists d, tbl !! slot = Some d /\ alloc_key a = Some (key_pointer d)
  end.

(** The identifiers of the running threads. *)
Definition nz (ts : list Thread) : list Z := filter (fun x => x <> 0) (tid_ <$> ts).

Definition all_idle (ts : list Thread) : Prop := forall i t, ts !! i = Some t -> pending_ t = false.

(** [WaitForAllToQuiesce] at entry [j]. *)
Definition quiesced (ts : list Thread) (j : nat) (seen : Z) : Prop :=
  (forall i t, (i < j)%nat -> ts !! i = Some t -> pending_ t = false) /\ seen = zlen (nz (take j ts)) /\ (j <= length ts)%nat.

Definition input_ok (w : World) (rest : list (Z * Action)) : Prop :=
  lb_ok (line_buf w) /\ reads_ok (dump_fd w) /\ 96 <= zlen (buffer_ (line_buf w)) /\
  lines_of (unread (line_buf w) (dump_fd w)) = dump_line <$> rest /\ Forall cmd_ok rest.

(** The main thread: [rest] are the commands that no worker has got yet. *)
Definition main_ok (w : World) (live : gset Z) (rest : list (Z * Action)) : Prop :=
  let ts := threads_ w in
  let running : gset Z := list_to_set (nz ts) in
  let valid r := dump_valid (zlen ts) live r rest = true in
  let at_thread i (P : Thread -> Prop) := exists t, ts !! i = Some t /\ tid_ t <> 0 /\ P t in
  match mpc w with
  | MLine => input_ok w rest /\ valid running
  | MReady i key type args =>
      exists c cs r, rest = c :: cs /\ input_ok w cs /\ CreateAction key type args = Some (snd c) /\
        valid r /\ running = ({[fst c]} ∪ r) /\ at_thread i (fun t => tid_ t = fst c)
  | MQuiesce i j seen =>
      exists c cs r, rest = c :: cs /\ input_ok w cs /\ valid r /\ running = ({[fst c]} ∪ r) /\
        at_thread i (fun t => tid_ t = fst c /\ action_ t = snd c /\ pending_ t = false) /\ quiesced ts j seen
  | MSetPending i =>
      exists c cs r, rest = c :: cs /\ input_ok w cs /\ valid r /\ running = ({[fst c]} ∪ r) /\
        at_thread i (fun t => tid_ t = fst c /\ action_ t = snd c /\ pending_ t = false) /\ (DoesFree (snd c) = true -> all_idle ts)
  | MJoin i =>
      exists r, input_ok w rest /\ valid r /\
        at_thread i (fun t => running = ({[tid_ t]} ∪ r) /\ (tid_ t ∉ r) /\ EndThread (action_ t) = true /\ (pending_ t = true \/ pc t = Gone))
  | MWaitAfter i => input_ok w rest /\ valid running /\ at_thread i (fun t => DoesFree (action_ t) = true)
  | MFinalQuiesce j seen => rest = [] /\ quiesced ts j seen
  | MFinishAll i => rest = [] /\ all_idle ts /\ (i <= length ts)%nat /\ nz (take i ts) = []
  | MFinishJoin i =>
      rest = [] /\ (forall j t, j <> i -> ts !! j = Some t -> pending_ t = false) /\ nz (take i ts) = [] /\
      at_thread i (fun t => EndThread (action_ t) = true /\ (pending_ t = true \/ pc t = Gone))
  | MFreeAll _ | MDone => False
  end.

Definition keys_ok (a : Action) : Prop :=
  (forall k, alloc_key a = Some k -> 1 < k) /\ (forall k, free_key a = Some k -> 1 < k).

(** [A] is the memory of the specification, [live] the keys that are allocated
    behind the commands that the workers have got. *)
Record Inv (w : World) (A : gmap Z Z) (live : gset Z) (rest : list (Z * Action)) : Prop := {
  inv_room : Z.of_nat (size live) + zlen rest < zlen (pointers_ w);
  inv_threads : forall i t, threads_ w !! i = Some t -> thread_ok (pointers_ w) t;
  inv_keys : forall i t, threads_ w !! i = Some t -> pending_ t = true -> keys_ok (action_ t);
  inv_excl : forall i t, threads_ w !! i = Some t -> pending_ t = true -> DoesFree (action_ t) = true ->
    mpc w = MWaitAfter i /\ forall j t', j <> i -> threads_ w !! j = Some t' -> pending_ t' = false;
  inv_end : forall i t, threads_ w !! i = Some t -> pending_ t = true -> EndThread (action_ t) = true ->
    mpc w = MJoin i \/ mpc w = MFinishJoin i;
  inv_gone : forall i t, threads_ w !! i = Some t -> pc t = Gone -> tid_ t = 0 \/ mpc w = MJoin i \/ mpc w = MFinishJoin i;
  inv_zero : forall i t, threads_ w !! i = Some t -> tid_ t = 0 -> pc t = Gone;
  inv_num : num_threads_ w = zlen (nz (threads_ w));
  inv_tids : NoDup (nz (threads_ w));
  inv_busy : NoDup (all busy (threads_ w));
  inv_slots : forall j d, pointers_ w !! j = Some d -> j ∉ all busy (threads_ w) -> key_pointer d = 0 \/ 1 < key_pointer d;
  inv_pairs : map_to_list A ≡ₚ table_pairs (all busy (threads_ w)) (pointers_ w) ++ all held (threads_ w);
  inv_heap : forall a, a ∈ heap w <-> exists k, A !! k = Some a;
  inv_inj : forall k1 k2 a, A !! k1 = Some a -> A !! k2 = Some a -> k1 = k2;
  inv_pos : forall k a, A !! k = Some a -> 0 < a;
  inv_live : (map_to_list A).*1 ++ all todo (threads_ w) ≡ₚ elements live ++ all gone (threads_ w);
  inv_above : forall k, k ∈ live -> 1 < k;
  inv_freed : forall k, k ∈ all gone (threads_ w) -> is_Some (A !! k);
  inv_main : main_ok w live rest;
}.

(** * Lemmas about the parts *)

Lemma all_at {B} (f : Thread -> list B) i ts t : ts !! i = Some t -> all f ts ≡ₚ f t ++ all_others f i ts.
Proof. apply (join_at (fun _ => f)). Qed.
Lemma all_insert {B} (f : Thread -> list B) i ts t t' : ts !! i = Some t -> all f (<[i := t']> ts) ≡ₚ f t' ++ all_others f i ts.
Proof. apply (join_insert (fun _ => f)). Qed.

Lemma table_pairs_ext bs bs' tbl : (forall j, j ∈ bs <-> j ∈ bs') -> table_pairs bs tbl = table_pairs bs' tbl.
Proof.
  intros H. unfold table_pairs. f_equal. apply imap_ext. intros j d _. unfold slot_pairs. by rewrite (bool_decide_ext _ _ (H j)).
Qed.

(** Entries change at one slot only. *)
Lemma table_pairs_at bs j tbl d :
  tbl !! j = Some d -> table_pairs bs tbl ≡ₚ slot_pairs bs j d ++ others (slot_pairs bs) j tbl.
Proof. apply (join_at (slot_pairs bs)). Qed.

Lemma table_pairs_insert bs bs' j tbl d d' :
  tbl !! j = Some d -> (forall k, k <> j -> k ∈ bs <-> k ∈ bs') ->
  table_pairs bs' (<[j := d']> tbl) ≡ₚ slot_pairs bs' j d' ++ others (slot_pairs bs) j tbl.
Proof.
  intros Hd Hb. unfold table_pairs. rewrite (join_insert _ j tbl d d') by done. apply Permutation_app_head, reflexive_eq.
  apply others_ext. intros k x Hk _. unfold slot_pairs. by rewrite (bool_decide_ext _ _ (Hb k Hk)).
Qed.

Lemma elem_of_table_pairs bs tbl k p :
  (k, p) ∈ table_pairs bs tbl <-> exists j d, tbl !! j = Some d /\ (j ∉ bs) /\ key_pointer d <> 0 /\ k = key_pointer d /\ p = pointer d.
Proof.
  unfold table_pairs. rewrite elem_of_join_imap. split.
  - intros (j & d & Hd & Hin). exists j, d. split; [done|]. unfold slot_pairs in Hin.
    destruct (bool_decide_reflect (j ∈ bs)); [by apply not_elem_of_nil in Hin|].
    destruct (Z.eqb_spec (key_pointer d) 0); [by apply not_elem_of_nil in Hin|].
    apply list_elem_of_singleton in Hin. by simplify_eq.
  - intros (j & d & Hd & Hb & Hk & -> & ->). exists j, d. split; [done|]. unfold slot_pairs.
    rewrite bool_decide_false by done. rewrite (proj2 (Z.eqb_neq _ _)) by done. by apply list_elem_of_singleton.
Qed.

Lemma length_table_pairs bs tbl j d :
  tbl !! j = Some d -> (j ∈ bs \/ key_pointer d = 0) -> (length (table_pairs bs tbl) < length tbl)%nat.
Proof.
  intros Hd Hz. rewrite (table_pairs_at bs j tbl d Hd), length_app.
  assert (slot_pairs bs j d = []) as ->.
  { unfold slot_pairs. destruct Hz as [Hz|Hz]; [by rewrite bool_decide_true|]. rewrite Hz. by destruct (bool_decide _). }
  assert (forall l f, (length (mjoin (imap (fun k => slot_pairs bs (f k)) l)) <= length l)%nat) as Hl.
  { induction l as [|x l IH]; intros f; cbn; [lia|]. rewrite length_app. specialize (IH (fun k => f (S k))). unfold compose.
    assert (length (slot_pairs bs (f 0%nat) x) <= 1)%nat by (unfold slot_pairs; repeat case_if; cbn; lia). exact (Nat.add_le_mono _ 1 _ _ H IH). }
  unfold others. rewrite length_app. pose proof (Hl (take j tbl) id) as H1. pose proof (Hl (drop (S j) tbl) (fun k => S j + k)%nat) as H2.
  rewrite length_take in H1. rewrite length_drop in H2. pose proof (lookup_lt_Some _ _ _ Hd). unfold id in H1. cbn [length].
  change (imap (slot_pairs bs) (take j tbl)) with (imap (fun k => slot_pairs bs k) (take j tbl)). lia.
Qed.

(** ** Probing *)

Lemma probe_range n key e : 0 < n -> 0 <= probe n key e < n.
Proof. intros. apply Z.mod_pos_bound. lia. Qed.

Lemma probe_0 n key : 0 < n -> probe n key 0 = GetHash key n.
Proof. intros. unfold probe, GetHash. rewrite Z.add_0_r. by apply Zmod_mod. Qed.

Lemma probe_next n key e : 0 < n -> next_index (probe n key e) n = probe n key (e + 1).
Proof.
  intros Hn. unfold next_index, probe. set (x := key mod n + e). replace (key mod n + (e + 1)) with (x + 1) by (unfold x; lia).
  pose proof (Z.mod_pos_bound x n Hn). rewrite (Z.add_mod x 1) by lia. destruct (Z.eqb_spec (x mod n + 1) n) as [E|E].
  - destruct (Z.eq_dec n 1) as [->|]; [by rewrite Z.mod_1_r|]. rewrite (Z.mod_small 1), E, Z.mod_same by lia. done.
  - rewrite (Z.mod_small 1), (Z.mod_small (x mod n + 1)) by lia. done.
Qed.

Lemma probe_lookup (tbl : list pointer_data) key e : 0 < zlen tbl -> exists d, tbl !! Z.to_nat (probe (zlen tbl) key e) = Some d.
Proof.
  intros Hn. apply lookup_lt_is_Some. pose proof (probe_range (zlen tbl) key e Hn). unfold zlen in *. lia.
Qed.

(** A full round sees every slot. *)
Lemma probed_all tbl key P :
  probed tbl key (zlen tbl) P -> forall j d, tbl !! j = Some d -> P (key_pointer d).
Proof.
  intros H j d Hd. pose proof (lookup_lt_Some _ _ _ Hd) as Hj. set (n := zlen tbl) in *.
  assert (0 <= Z.of_nat j < n) by (unfold n, zlen; lia).
  apply (H ((Z.of_nat j - key mod n) mod n)); [apply Z.mod_pos_bound; lia|].
  fold n. unfold probe. rewrite Zplus_mod_idemp_r. replace (key mod n + (Z.of_nat j - key mod n)) with (Z.of_nat j) by lia.
  by rewrite Z.mod_small, Nat2Z.id.
Qed.

Lemma probed_next tbl key e P d :
  probed tbl key e P -> tbl !! Z.to_nat (probe (zlen tbl) key e) = Some d -> P (key_pointer d) -> probed tbl key (e + 1) P.
Proof.
  intros H Hd HP i x Hi Hx. destruct (Z.eq_dec i e) as [->|]; [|apply (H i); [lia|done]]. by simplify_eq.
Qed.

Lemma probed_insert tbl key e (P : Z -> Prop) j d :
  probed tbl key e P -> P (key_pointer d) -> probed (<[j := d]> tbl) key e P.
Proof.
  intros H HP i x Hi Hx. unfold zlen in Hx. rewrite length_insert in Hx.
  apply list_lookup_insert_Some in Hx as [(_ & <- & _)|(_ & Hx)]; [done|]. by apply (H i).
Qed.

(** ** Identifiers *)

Lemma tids_insert (i : nat) (ts : list Thread) t t' : ts !! i = Some t -> tid_ t' = tid_ t -> tid_ <$> <[i := t']> ts = tid_ <$> ts.
Proof. intros Ht E. rewrite list_fmap_insert, E. apply list_insert_id. by rewrite list_lookup_fmap, Ht. Qed.

Lemma nz_insert i ts t t' : ts !! i = Some t -> tid_ t' = tid_ t -> nz (<[i := t']> ts) = nz ts.
Proof. intros. unfold nz. by erewrite tids_insert. Qed.

Lemma nz_take_insert i j ts t t' : ts !! i = Some t -> tid_ t' = tid_ t -> nz (take j (<[i := t']> ts)) = nz (take j ts).
Proof.
  intros Ht E. unfold nz. rewrite !fmap_take. by erewrite tids_insert.
Qed.

Lemma DoesFree_key a : DoesFree a = true <-> is_Some (free_key a).
Proof.
  assert (forall x, negb (x =? 0) = true <-> is_Some (if x =? 0 then None else Some x)) as H.
  { intros x. destruct (x =? 0); cbn; split; try done; by intros [? ?]. }
  destruct a; cbn; try (split; [done|by intros [? ?]]); apply H.
Qed.
