(* ===== verification/MemWorker.v ===== *)
(** The steps of the workers of the replay machine keep the invariant of
    MemInv.v, do not fail, and are steps of the specification. *)
From stdpp Require Import base gmap list numbers.
From Stdlib Require Import ZArith Lia.
From S2P Require Import Prelude Utils KernelSymbols MemLine MemReplay MemInv.

(** * Changing one worker *)

(** A worker has gone on: same identifier and action, and it is not pending
    unless it was. *)
Definition went_on (t t' : Thread) : Prop :=
  tid_ t' = tid_ t /\ action_ t' = action_ t /\ (pending_ t' = true -> pending_ t = true) /\
  (EndThread (action_ t) = true -> pending_ t = true \/ pc t = Gone -> pending_ t' = true \/ pc t' = Gone).

Lemma main_ok_worker w live rest i t t' tbl h :
  main_ok w live rest -> threads_ w !! i = Some t -> went_on t t' ->
  main_ok (mkWorld tbl h (<[i := t']> (threads_ w)) (num_threads_ w) (total_nsecs w) (line_buf w) (dump_fd w) (mpc w)) live rest.
Proof.
  intros Hm Ht (E1 & E2 & E3 & E4). pose proof (lookup_lt_Some _ _ _ Ht) as Hlt.
  assert (forall k (P : Thread -> Prop), (forall x, k = i -> x = t -> P x -> P t') ->
    (exists x, threads_ w !! k = Some x /\ tid_ x <> 0 /\ P x) ->
    exists x, <[i := t']> (threads_ w) !! k = Some x /\ tid_ x <> 0 /\ P x) as Hat.
  { intros k P HP (x & Hx & Hz & H). destruct (decide (k = i)) as [->|Hk].
    - rewrite Ht in Hx. injection Hx as <-. exists t'. rewrite list_lookup_insert_eq by done. split_and!; [done|congruence|].
      by eapply HP.
    - exists x. by rewrite list_lookup_insert_ne. }
  assert (forall k x, <[i := t']> (threads_ w) !! k = Some x -> exists y, threads_ w !! k = Some y /\ (pending_ y = false -> pending_ x = false)) as Hp.
  { intros k x Hx. apply list_lookup_insert_Some in Hx as [(-> & <- & _)|(_ & Hx)]; [|by exists x].
    exists t. split; [done|]. destruct (pending_ t'); [|done]. intros E. by rewrite E3 in E. }
  unfold main_ok in *. cbn [threads_ mpc]. rewrite (nz_insert i _ t t') by done.
  assert (zlen (<[i := t']> (threads_ w)) = zlen (threads_ w)) as -> by (unfold zlen; by rewrite length_insert).
  assert (forall j seen, quiesced (threads_ w) j seen -> quiesced (<[i := t']> (threads_ w)) j seen) as Hq.
  { intros j seen (Q1 & Q2 & Q3). split_and!.
    - intros k x Hk Hx. apply Hp in Hx as (y & Hy & HH). by apply HH, (Q1 k).
    - by rewrite (nz_take_insert i j _ t t').
    - by rewrite length_insert. }
  assert (all_idle (threads_ w) -> all_idle (<[i := t']> (threads_ w))) as Hi.
  { intros Q k x Hx. apply Hp in Hx as (y & Hy & HH). by apply HH, (Q k). }
  destruct (mpc w).
  - done.
  - destruct Hm as (c & cs & r & H1 & H2 & H3 & H4 & H5 & H6). exists c, cs, r. split_and!; try done. revert H6. apply Hat. congruence.
  - destruct Hm as (c & cs & r & H1 & H2 & H3 & H4 & H5 & H6). exists c, cs, r. split_and!; try done; [|by apply Hq]. revert H5. apply Hat.
    intros x _ -> (? & ? & ?). split_and!; [congruence..|]. destruct (pending_ t'); [|done]. by rewrite E3 in *.
  - destruct Hm as (c & cs & r & H1 & H2 & H3 & H4 & H5 & H6). exists c, cs, r. split_and!; try done; [|auto]. revert H5. apply Hat.
    intros x _ -> (? & ? & ?). split_and!; [congruence..|]. destruct (pending_ t'); [|done]. by rewrite E3 in *.
  - destruct Hm as (r & H1 & H2 & H3). exists r. split_and!; try done. revert H3. apply Hat.
    intros x _ -> (? & ? & ? & ?). rewrite E1, E2. split_and!; auto.
  - destruct Hm as (H1 & H2 & H3). split_and!; try done. revert H3. apply Hat. intros x _ ->. by rewrite E2.
  - destruct Hm as (-> & H). auto.
  - destruct Hm as (-> & H1 & H2 & H3). rewrite (nz_take_insert _ _ _ t t') by done. rewrite length_insert. auto.
  - destruct Hm as (-> & H1 & H2 & H3). rewrite (nz_take_insert _ _ _ t t') by done. split_and!; [done| |done|].
    + intros j x Hj Hx. apply Hp in Hx as (y & Hy & HH). by apply HH, (H1 j).
    + revert H3. apply Hat. intros x _ -> [? ?]. rewrite E2. auto.
  - done.
  - done.
Qed.

(** The parts of the other workers stay. *)
Lemma Inv_worker w A live rest i t t' tbl h A' :
  Inv w A live rest -> threads_ w !! i = Some t -> went_on t t' ->
  (pc t' = Gone -> mpc w = MJoin i \/ mpc w = MFinishJoin i) -> tid_ t <> 0 ->
  zlen tbl = zlen (pointers_ w) -> thread_ok tbl t' ->
  (forall j x, j <> i -> threads_ w !! j = Some x -> thread_ok tbl x) ->
  NoDup (busy t' ++ all_others busy i (threads_ w)) ->
  (forall j d, tbl !! j = Some d -> j ∉ busy t' ++ all_others busy i (threads_ w) -> key_pointer d = 0 \/ 1 < key_pointer d) ->
  map_to_list A' ≡ₚ table_pairs (busy t' ++ all_others busy i (threads_ w)) tbl ++ held t' ++ all_others held i (threads_ w) ->
  (forall a, a ∈ h <-> exists k, A' !! k = Some a) ->
  (forall k1 k2 a, A' !! k1 = Some a -> A' !! k2 = Some a -> k1 = k2) ->
  (forall k a, A' !! k = Some a -> 0 < a) ->
  (map_to_list A').*1 ++ todo t' ++ all_others todo i (threads_ w) ≡ₚ elements live ++ gone t' ++ all_others gone i (threads_ w) ->
  (forall k, k ∈ gone t' ++ all_others gone i (threads_ w) -> is_Some (A' !! k)) ->
  Inv (mkWorld tbl h (<[i := t']> (threads_ w)) (num_threads_ w) (total_nsecs w) (line_buf w) (dump_fd w) (mpc w)) A' live rest.
Proof.
  intros HI Ht Hw Hg Hz Hl Hok Hothers Hbusy Hslots Hpairs Hheap Hinj Hpos Hlive Hfreed.
  pose proof Hw as (E1 & E2 & E3 & _). pose proof (lookup_lt_Some _ _ _ Ht) as Hlt.
  assert (all busy (<[i := t']> (threads_ w)) ≡ₚ busy t' ++ all_others busy i (threads_ w)) as Hb by by eapply all_insert.
  assert (forall j, j ∈ all busy (<[i := t']> (threads_ w)) <-> j ∈ busy t' ++ all_others busy i (threads_ w)) as Hbe by (intros; by rewrite Hb).
  assert (forall k x, <[i := t']> (threads_ w) !! k = Some x -> (k = i /\ x = t') \/ (k <> i /\ threads_ w !! k = Some x)) as Hin.
  { intros k x Hx. apply list_lookup_insert_Some in Hx as [(-> & <- & _)|(? & Hx)]; auto. }
  split; cbn [pointers_ threads_ heap num_threads_ mpc].
  - rewrite Hl. apply (inv_room _ _ _ _ HI).
  - intros k x [(-> & ->)|(Hk & Hx)]%Hin; eauto.
  - intros k x [(-> & ->)|(Hk & Hx)]%Hin Hp; [rewrite E2; eapply (inv_keys _ _ _ _ HI); eauto|by eapply (inv_keys _ _ _ _ HI)].
  - intros k x Hx Hp Hd. assert (mpc w = MWaitAfter k /\ forall j y, j <> k -> threads_ w !! j = Some y -> pending_ y = false) as [Hm Ho].
    { destruct (Hin k x Hx) as [(-> & ->)|(Hk & Hx')]; [|by eapply (inv_excl _ _ _ _ HI)].
      apply (inv_excl _ _ _ _ HI i t); [done|auto|congruence]. }
    split; [done|]. intros j y Hj [(-> & ->)|(Hji & Hy)]%Hin; [|eauto].
    destruct (pending_ t') eqn:Ep; [|done]. specialize (E3 eq_refl). by rewrite (Ho i t) in E3 by done.
  - intros k x [(-> & ->)|(Hk & Hx)]%Hin Hp He; [|by eapply (inv_end _ _ _ _ HI)].
    apply (inv_end _ _ _ _ HI i t); [done|auto|congruence].
  - intros k x [(-> & ->)|(Hk & Hx)]%Hin Hp; [auto|by eapply (inv_gone _ _ _ _ HI)].
  - intros k x [(-> & ->)|(Hk & Hx)]%Hin Hp; [congruence|by eapply (inv_zero _ _ _ _ HI)].
  - rewrite (nz_insert i _ t t') by done. apply (inv_num _ _ _ _ HI).
  - rewrite (nz_insert i _ t t') by done. apply (inv_tids _ _ _ _ HI).
  - by rewrite Hb.
  - intros j d Hd Hj. apply (Hslots j d Hd). by rewrite <- Hbe.
  - rewrite Hpairs. rewrite (table_pairs_ext _ _ tbl Hbe). apply Permutation_app_head. symmetry. by eapply all_insert.
  - done.
  - done.
  - done.
  - rewrite (all_insert todo i _ t t'), (all_insert gone i _ t t') by done. done.
  - apply (inv_above _ _ _ _ HI).
  - intros k Hk. apply Hfreed. by rewrite <- (all_insert gone i _ t t').
  - apply (main_ok_worker w live rest i t t'); [apply (inv_main _ _ _ _ HI)|done|done].
Qed.

(** * Workers that wait *)

Lemma idle_ok tbl tbl' t : pending_ t = false -> thread_ok tbl t -> thread_ok tbl' t.
Proof. unfold thread_ok, worker_active. intros Hp. rewrite Hp. destruct (pc t) as [| | | | | | |[?|]| | | |]; (done || by intros [[? ?] ?] || by intros [? ?]). Qed.

Lemma idle_parts tbl t :
  pending_ t = false -> thread_ok tbl t -> busy t = [] /\ held t = [] /\ todo t = [] /\ gone t = [].
Proof.
  unfold thread_ok, worker_active, busy, held, todo, gone. intros Hp. rewrite Hp.
  destruct (pc t) as [| | | | | | |[?|]| | | |]; (done || by intros [[? ?] ?] || by intros [? ?]).
Qed.

Lemma all_others_nil {B} (f : Thread -> list B) i ts :
  (forall j x, j <> i -> ts !! j = Some x -> f x = []) -> all_others f i ts = [].
Proof.
  intros H. unfold all_others. destruct (others _ i ts) as [|y l] eqn:E; [done|].
  assert (y ∈ others (fun _ => f) i ts) as (j & x & Hj & Hx & Hy)%elem_of_others by (rewrite E; by left).
  rewrite (H j x) in Hy by done. by apply not_elem_of_nil in Hy.
Qed.

(** ** An action that frees runs alone *)

Section at_worker.
Context (w : World) (A : gmap Z Z) (live : gset Z) (rest : list (Z * Action)) (HI : Inv w A live rest).
Context (i : nat) (t : Thread) (Ht : threads_ w !! i = Some t).

Lemma alone : pending_ t = true -> is_Some (free_key (action_ t)) -> forall j x, j <> i -> threads_ w !! j = Some x -> pending_ x = false.
Proof. intros Hp Hf. apply (inv_excl _ _ _ _ HI i t); [done..|]. by apply DoesFree_key. Qed.

Lemma alone_parts :
  pending_ t = true -> is_Some (free_key (action_ t)) ->
  all_others busy i (threads_ w) = [] /\ all_others held i (threads_ w) = [] /\
  all_others todo i (threads_ w) = [] /\ all_others gone i (threads_ w) = [].
Proof.
  intros Hp Hf. split_and!; apply all_others_nil; intros j x Hj Hx;
    destruct (idle_parts (pointers_ w) x (alone Hp Hf j x Hj Hx) (inv_threads _ _ _ _ HI j x Hx)) as (? & ? & ? & ?); done.
Qed.

(** Next to one that does not free, no other frees. *)
Lemma others_keep : pending_ t = true -> free_key (action_ t) = None -> forall j x, j <> i -> threads_ w !! j = Some x -> pending_ x = true -> free_key (action_ x) = None.
Proof.
  intros Hp Hf j x Hj Hx Hpx. destruct (free_key (action_ x)) eqn:E; [|done].
  destruct (inv_excl _ _ _ _ HI j x Hx Hpx) as [_ H]; [apply DoesFree_key; by rewrite E|].
  by rewrite (H i t) in Hp by done.
Qed.

Lemma gone_pending x tbl : thread_ok tbl x -> gone x <> [] -> pending_ x = true /\ is_Some (free_key (action_ x)).
Proof.
  intros Hok Hg. destruct (pending_ x) eqn:Ep.
  - split; [done|]. unfold gone in Hg. destruct (free_key (action_ x)); [by eexists|].
    destruct (pc x); try done. by rewrite Ep in Hg.
  - by destruct (idle_parts tbl x Ep Hok) as (_ & _ & _ & E).
Qed.

Lemma no_other_gone : pending_ t = true -> all_others gone i (threads_ w) = [].
Proof.
  intros Hp. apply all_others_nil. intros j x Hj Hx. destruct (gone x) eqn:E; [done|].
  destruct (gone_pending x (pointers_ w)) as [Hpx Hf]; [by eapply inv_threads|by rewrite E|].
  destruct (inv_excl _ _ _ _ HI j x Hx Hpx) as [_ H]; [by apply DoesFree_key|]. by rewrite (H i t) in Hp by done.
Qed.

(** ** The parts of the worker and of the others *)

Lemma parts_busy : NoDup (busy t ++ all_others busy i (threads_ w)).
Proof. rewrite <- (all_at busy i _ t Ht). apply (inv_busy _ _ _ _ HI). Qed.

Lemma parts_slots j d :
  pointers_ w !! j = Some d -> j ∉ busy t ++ all_others busy i (threads_ w) -> key_pointer d = 0 \/ 1 < key_pointer d.
Proof. rewrite <- (all_at busy i _ t Ht). apply (inv_slots _ _ _ _ HI). Qed.

Lemma parts_pairs :
  map_to_list A ≡ₚ table_pairs (busy t ++ all_others busy i (threads_ w)) (pointers_ w) ++ held t ++ all_others held i (threads_ w).
Proof.
  rewrite (inv_pairs _ _ _ _ HI), (all_at held i _ t Ht). apply Permutation_app_tail, reflexive_eq, table_pairs_ext.
  intros j. by rewrite (all_at busy i _ t Ht).
Qed.

Lemma parts_live :
  (map_to_list A).*1 ++ todo t ++ all_others todo i (threads_ w) ≡ₚ elements live ++ gone t ++ all_others gone i (threads_ w).
Proof. rewrite <- (all_at todo i _ t Ht), <- (all_at gone i _ t Ht). apply (inv_live _ _ _ _ HI). Qed.

Lemma parts_freed k : k ∈ gone t ++ all_others gone i (threads_ w) -> is_Some (A !! k).
Proof. rewrite <- (all_at gone i _ t Ht). apply (inv_freed _ _ _ _ HI). Qed.

Lemma table_nonempty : 0 < zlen (pointers_ w).
Proof. pose proof (inv_room _ _ _ _ HI). pose proof (zlen_nonneg rest). lia. Qed.

(** * Steps that change only the position of the worker *)

Lemma Inv_quiet p :
  pending_ t = true -> tid_ t <> 0 -> p <> Gone ->
  busy (set_pc p t) = busy t -> held (set_pc p t) = held t -> todo (set_pc p t) = todo t -> gone (set_pc p t) = gone t ->
  thread_ok (pointers_ w) (set_pc p t) -> Inv (set_thread i (set_pc p t) w) A live rest.
Proof.
  intros Hp Hz Hg Eb Eh Et Eg Hok. unfold set_thread. apply (Inv_worker w A live rest i t); try done.
  - split_and!; (done || auto).
  - intros j x Hj Hx. by eapply inv_threads.
  - rewrite Eb. apply parts_busy.
  - rewrite Eb. apply parts_slots.
  - rewrite Eb, Eh. apply parts_pairs.
  - apply (inv_heap _ _ _ _ HI).
  - apply (inv_inj _ _ _ _ HI).
  - apply (inv_pos _ _ _ _ HI).
  - rewrite Et, Eg. apply parts_live.
  - rewrite Eg. apply parts_freed.
Qed.
End at_worker.

(** * Steps that change a slot *)

(** The parts of a worker by its position. *)
Lemma busy_eq t : busy t = match pc t with StoreKey slot _ | StorePtr slot _ => [slot] | _ => [] end.
Proof. done. Qed.
Lemma held_eq t : held t =
  match pc t with
  | EmptyAt memory _ _ | StoreKey _ memory | StorePtr _ memory => (fun k => (k, memory)) <$> option_list (alloc_key (action_ t))
  | CallFree memory | CallAlloc (Some memory) => (fun k => (k, memory)) <$> option_list (free_key (action_ t))
  | _ => []
  end.
Proof. done. Qed.
Lemma todo_eq t : todo t =
  match pc t with
  | WaitPending => if pending_ t then option_list (alloc_key (action_ t)) else []
  | Start | FindAt _ _ _ | ReadPtr _ | ClearKey _ _ | CallAlloc _ => option_list (alloc_key (action_ t))
  | _ => []
  end.
Proof. done. Qed.
Lemma gone_eq t : gone t =
  match pc t with
  | WaitPending => if pending_ t then option_list (free_key (action_ t)) else []
  | Start | FindAt _ _ _ | ReadPtr _ | ClearKey _ _ | CallAlloc _ | CallFree _ => option_list (free_key (action_ t))
  | _ => []
  end.
Proof. done. Qed.

(** The invariant at worker [t], whose position is [Epc]. *)
Ltac worker_parts HI Ht t Epc :=
  pose proof (inv_threads _ _ _ _ HI _ t Ht) as Hok; unfold thread_ok in Hok; rewrite Epc in Hok;
  pose proof (parts_pairs _ _ _ _ HI _ t Ht) as Hpairs; rewrite (busy_eq t), (held_eq t), Epc in Hpairs;
  pose proof (parts_busy _ _ _ _ HI _ t Ht) as Hb; rewrite (busy_eq t), Epc in Hb;
  pose proof (parts_slots _ _ _ _ HI _ t Ht) as Hslots; rewrite (busy_eq t), Epc in Hslots;
  pose proof (parts_live _ _ _ _ HI _ t Ht) as Hl; rewrite (todo_eq t), (gone_eq t), Epc in Hl;
  pose proof (parts_freed _ _ _ _ HI _ t Ht) as Hf; rewrite (gone_eq t), Epc in Hf;
  cbn [app] in Hpairs, Hb, Hslots, Hl, Hf.

Section slots.
Context (w : World) (A : gmap Z Z) (live : gset Z) (rest : list (Z * Action)) (HI : Inv w A live rest).
Context (i : nat) (t : Thread) (Ht : threads_ w !! i = Some t) (Hp : pending_ t = true) (Hz : tid_ t <> 0).

Lemma reserved_nonzero j x s :
  threads_ w !! j = Some x -> s ∈ busy x -> exists d, pointers_ w !! s = Some d /\ key_pointer d <> 0.
Proof.
  intros Hx Hs. pose proof (inv_threads _ _ _ _ HI j x Hx) as Hok. unfold thread_ok, busy in *.
  destruct (pc x); try (by apply not_elem_of_nil in Hs); apply list_elem_of_singleton in Hs as ->.
  - destruct Hok as (_ & _ & d & Hd & E). exists d. rewrite E. done.
  - destruct Hok as ([Hpx _] & d & Hd & E). exists d. split; [done|]. apply (inv_keys _ _ _ _ HI j x Hx Hpx) in E. lia.
Qed.

(** Other workers do not mind a slot that stays or becomes taken. *)
Lemma others_grow s d :
  s ∉ all_others busy i (threads_ w) -> key_pointer d <> 0 ->
  forall j x, j <> i -> threads_ w !! j = Some x -> thread_ok (<[s := d]> (pointers_ w)) x.
Proof.
  intros Hs Hd j x Hj Hx. pose proof (inv_threads _ _ _ _ HI j x Hx) as Hok.
  destruct (pending_ x) eqn:Hpx; [|by eapply idle_ok].
  destruct (free_key (action_ t)) as [k|] eqn:Ef.
  { by rewrite (alone w A live rest HI i t Ht Hp (ltac:(by eexists)) j x Hj Hx) in Hpx. }
  pose proof (others_keep w A live rest HI i t Ht Hp Ef j x Hj Hx Hpx) as Ex.
  assert (zlen (<[s := d]> (pointers_ w)) = zlen (pointers_ w)) as Hl by (unfold zlen; by rewrite length_insert).
  assert (forall s', s' ∈ busy x -> s' <> s) as Hne.
  { intros s' Hs' ->. apply Hs. apply elem_of_others. by exists j, x. }
  unfold thread_ok, busy in *. rewrite Ex in *.
  destruct (pc x) as [| | | | | | |[?|]| | | |]; try done.
  - by destruct Hok as (_ & ? & _).
  - by destruct Hok as (_ & ? & _ & ?).
  - by destruct Hok as (_ & ? & _ & ? & _).
  - destruct Hok as (Ha & key & H1 & H2 & H3 & H4). split; [done|]. exists key. rewrite Hl. split_and!; try (done || lia).
    by apply probed_insert.
  - destruct Hok as (Ha & H1 & d' & H2 & H3). split; [done|]. split; [done|]. exists d'.
    rewrite list_lookup_insert_ne; [done|]. apply not_eq_sym, Hne. by left.
  - destruct Hok as (Ha & d' & H2 & H3). split; [done|]. exists d'.
    rewrite list_lookup_insert_ne; [done|]. apply not_eq_sym, Hne. by left.
Qed.

Lemma went_on_pc p : p <> Gone -> went_on t (set_pc p t).
Proof. intros. split_and!; (done || auto). Qed.

(** [Add] reserves an empty slot. *)
Lemma Inv_reserve memory index entries s d :
  pc t = EmptyAt memory index entries -> pointers_ w !! s = Some d -> key_pointer d = 0 ->
  Inv (set_thread i (set_pc (StoreKey s memory) t) (set_slot s (mkPointerData 1 (pointer d)) w)) A live rest.
Proof.
  intros Epc Hd Hk. worker_parts HI Ht t Epc.
  destruct Hok as (Ha & key & Hkey & _). pose proof (lookup_lt_Some _ _ _ Hd) as Hlt.
  assert (s ∉ all_others busy i (threads_ w)) as Hs.
  { intros (j & x & _ & Hx & Hin)%elem_of_others. destruct (reserved_nonzero j x s Hx Hin) as (d' & Hd' & Hne). congruence. }
  unfold set_thread, set_slot. cbn [pointers_ heap threads_ num_threads_ total_nsecs line_buf dump_fd mpc].
  apply (Inv_worker w A live rest i t); try done.
  - by apply went_on_pc.
  - unfold zlen. by rewrite length_insert.
  - unfold thread_ok. cbn. split; [done|]. split; [by eexists|]. eexists. rewrite list_lookup_insert_eq by done. done.
  - by apply others_grow.
  - cbn. by constructor.
  - intros j d' Hd' Hj. cbn in Hj. apply not_elem_of_cons in Hj as [Hne Hj].
    rewrite list_lookup_insert_ne in Hd' by done. by apply (Hslots j).
  - rewrite Hpairs. apply Permutation_app_tail. rewrite (table_pairs_at _ s _ d Hd). cbn [busy pc set_pc app].
    rewrite (table_pairs_insert (all_others busy i (threads_ w)) _ s _ d) by (done || intros k Hne; rewrite elem_of_cons; naive_solver).
    unfold slot_pairs. rewrite bool_decide_false, Hk by done. cbn. by rewrite bool_decide_true by (by left).
  - apply (inv_heap _ _ _ _ HI).
  - apply (inv_inj _ _ _ _ HI).
  - apply (inv_pos _ _ _ _ HI).
Qed.

(** [Add] stores the key. *)
Lemma Inv_store_key memory s d :
  pc t = StoreKey s memory -> pointers_ w !! s = Some d ->
  Inv (set_thread i (set_pc (StorePtr s memory) t) (set_slot s (mkPointerData (action_key (action_ t)) (pointer d)) w)) A live rest.
Proof.
  intros Epc Hd. worker_parts HI Ht t Epc.
  destruct Hok as (Ha & [key Hkey] & _). pose proof (lookup_lt_Some _ _ _ Hd) as Hlt.
  assert (action_key (action_ t) = key) as -> by (by destruct (action_ t); simplify_eq/=).
  pose proof (proj1 (inv_keys _ _ _ _ HI i t Ht Hp) key Hkey) as Hpos.
  apply list.NoDup_cons in Hb as [Hs Hb].
  unfold set_thread, set_slot. cbn [pointers_ heap threads_ num_threads_ total_nsecs line_buf dump_fd mpc].
  apply (Inv_worker w A live rest i t); try done.
  - by apply went_on_pc.
  - unfold zlen. by rewrite length_insert.
  - unfold thread_ok. cbn. split; [done|]. eexists. rewrite list_lookup_insert_eq by done. done.
  - apply others_grow; [done|]. cbn. lia.
  - cbn. by constructor.
  - intros j d' Hd' Hj. cbn in Hj. pose proof Hj as [Hne _]%not_elem_of_cons.
    rewrite list_lookup_insert_ne in Hd' by done. by apply (Hslots j).
  - rewrite Hpairs. apply Permutation_app_tail. rewrite (table_pairs_at _ s _ d Hd). cbn [busy pc set_pc app].
    rewrite (table_pairs_insert (s :: all_others busy i (threads_ w)) _ s _ d) by done.
    unfold slot_pairs. rewrite !bool_decide_true by (by left). done.
  - apply (inv_heap _ _ _ _ HI).
  - apply (inv_inj _ _ _ _ HI).
  - apply (inv_pos _ _ _ _ HI).
Qed.

(** [Add] stores the pointer: the slot belongs to the table. *)
Lemma Inv_store_ptr memory s d :
  pc t = StorePtr s memory -> pointers_ w !! s = Some d ->
  Inv (set_thread i (set_pc Finished t) (set_slot s (mkPointerData (key_pointer d) memory) w)) A live rest.
Proof.
  intros Epc Hd. worker_parts HI Ht t Epc.
  destruct Hok as (Ha & d' & Hd' & Hkey). rewrite Hd in Hd'. injection Hd' as <-. pose proof (lookup_lt_Some _ _ _ Hd) as Hlt.
  pose proof (proj1 (inv_keys _ _ _ _ HI i t Ht Hp) _ Hkey) as Hpos. rewrite Hkey in Hpairs. cbn in Hpairs.
  apply list.NoDup_cons in Hb as [Hs Hb].
  unfold set_thread, set_slot. cbn [pointers_ heap threads_ num_threads_ total_nsecs line_buf dump_fd mpc].
  apply (Inv_worker w A live rest i t); try done.
  - by apply went_on_pc.
  - unfold zlen. by rewrite length_insert.
  - apply others_grow; [done|]. cbn. lia.
  - intros j d' Hd' Hj. cbn in Hj. apply list_lookup_insert_Some in Hd' as [(_ & <- & _)|(Hne & Hd')]; [cbn; lia|].
    apply (Hslots j); [done|]. apply not_elem_of_cons. done.
  - rewrite Hpairs. rewrite (table_pairs_at _ s _ d Hd). cbn [busy held pc set_pc app].
    rewrite (table_pairs_insert (s :: all_others busy i (threads_ w)) _ s _ d) by (done || intros k Hne; rewrite elem_of_cons; naive_solver).
    unfold slot_pairs at 1 3. rewrite bool_decide_true by (by left). rewrite bool_decide_false by done. cbn [key_pointer pointer].
    rewrite (proj2 (Z.eqb_neq _ _)) by lia. cbn [app]. by rewrite Permutation_middle.
  - apply (inv_heap _ _ _ _ HI).
  - apply (inv_inj _ _ _ _ HI).
  - apply (inv_pos _ _ _ _ HI).
Qed.

(** [Remove] clears the key: the memory belongs to the worker. *)
Lemma Inv_clear_key memory s d :
  pc t = ClearKey s memory -> pointers_ w !! s = Some d ->
  Inv (set_thread i (set_pc (match alloc_key (action_ t) with Some _ => CallAlloc (Some memory) | None => CallFree memory end) t)
         (set_slot s (mkPointerData 0 (pointer d)) w)) A live rest.
Proof.
  intros Epc Hd. worker_parts HI Ht t Epc. destruct Hok as (Ha & d' & Hd' & Hkey & Hm).
  rewrite Hd in Hd'. injection Hd' as <-. assert (is_Some (free_key (action_ t))) as Hfree by (by rewrite Hkey).
  destruct (alone_parts w A live rest HI i t Ht Hp Hfree) as (O1 & O2 & O3 & O4).
  rewrite O1, O2 in Hpairs. rewrite O1 in Hslots. rewrite O3, O4 in Hl. rewrite O4 in Hf. rewrite !app_nil_r in Hpairs, Hl, Hf.
  pose proof (proj2 (inv_keys _ _ _ _ HI i t Ht Hp) _ Hkey) as Hpos. pose proof (lookup_lt_Some _ _ _ Hd) as Hlt.
  set (p := match alloc_key (action_ t) with Some _ => _ | None => _ end).
  assert (p <> Gone) as Hg by (unfold p; by destruct (alloc_key _)).
  assert (busy (set_pc p t) = []) as Eb by (unfold busy, p; cbn; by destruct (alloc_key _)).
  assert (todo (set_pc p t) = option_list (alloc_key (action_ t))) as Et by (unfold todo, p; cbn; destruct (alloc_key _) eqn:Ea; cbn; by rewrite ?Ea).
  assert (gone (set_pc p t) = option_list (free_key (action_ t))) as Eg by (unfold gone, p; cbn; by destruct (alloc_key _)).
  assert (held (set_pc p t) = [(key_pointer d, memory)]) as Eh by (unfold held, p; cbn; rewrite Hkey; by destruct (alloc_key _)).
  unfold set_thread, set_slot. cbn [pointers_ heap threads_ num_threads_ total_nsecs line_buf dump_fd mpc].
  apply (Inv_worker w A live rest i t); rewrite ?Eb, ?Eh, ?O1, ?O2, ?O3, ?O4; try done.
  - by apply went_on_pc.
  - unfold zlen. by rewrite length_insert.
  - unfold thread_ok, p. cbn. destruct (alloc_key (action_ t)) eqn:Ea; cbn; rewrite ?Ea; split_and!; try done; by eexists.
  - intros j x Hj Hx. apply (idle_ok (pointers_ w)); [by apply (alone w A live rest HI i t Ht Hp Hfree j)|by apply (inv_threads _ _ _ _ HI j)].
  - constructor.
  - intros j d' Hd' _. apply list_lookup_insert_Some in Hd' as [(_ & <- & _)|(Hne & Hd')]; [by left|]. apply (Hslots j); [done|]. apply not_elem_of_nil.
  - rewrite Hpairs, (table_pairs_at _ s _ d Hd), (table_pairs_insert [] ([] ++ []) s _ d) by done. cbn [app]. unfold slot_pairs at 1 3.
    rewrite !bool_decide_false by apply not_elem_of_nil. rewrite (proj2 (Z.eqb_neq _ _)) by lia. cbn. rewrite Hm.
    by rewrite Permutation_app_comm.
  - apply (inv_heap _ _ _ _ HI).
  - apply (inv_inj _ _ _ _ HI).
  - apply (inv_pos _ _ _ _ HI).
  - rewrite Et, Eg, !app_nil_r. rewrite app_nil_r in Hl. exact Hl.
  - rewrite app_nil_r. rewrite Eg. exact Hf.
Qed.
End slots.

(** * Steps that call the allocator *)

(** The allocated memory is that of the keys, which is distinct. *)
Definition heap_ok (h : gset Z) (A : gmap Z Z) : Prop :=
  (forall a, a ∈ h <-> exists k, A !! k = Some a) /\ (forall k1 k2 a, A !! k1 = Some a -> A !! k2 = Some a -> k1 = k2) /\
  (forall k a, A !! k = Some a -> 0 < a).

Lemma heap_remove h A k m :
  heap_ok h A -> A !! k = Some m ->
  free m h = Ok (h ∖ {[m]}) /\ heap_ok (h ∖ {[m]}) (delete k A) /\ spec_remove k m A = Some (delete k A).
Proof.
  intros (H1 & H2 & H3) Hk. pose proof (H3 _ _ Hk). assert (m ∈ h) by (apply H1; eauto). split_and!.
  - unfold free. rewrite (proj2 (Z.eqb_neq _ _)) by lia. by rewrite bool_decide_true.
  - split_and!.
    + intros a. rewrite elem_of_difference, elem_of_singleton, H1. split.
      * intros [[k' Hk'] Hne]. exists k'. rewrite lookup_delete_ne; [done|]. intros ->. congruence.
      * intros [k' [Hne Hk']%lookup_delete_Some]. split; [eauto|]. intros ->. by apply Hne, (H2 _ _ m).
    + intros k1 k2 a [_ ?]%lookup_delete_Some [_ ?]%lookup_delete_Some. eauto.
    + intros k' a [_ ?]%lookup_delete_Some. eauto.
  - unfold spec_remove. by rewrite bool_decide_true.
Qed.

Lemma heap_add h A k m :
  heap_ok h A -> A !! k = None -> 0 < m -> m ∉ h ->
  heap_ok ({[m]} ∪ h) (<[k := m]> A) /\ spec_add k m A = Some (<[k := m]> A).
Proof.
  intros (H1 & H2 & H3) Hk Hm Hn.
  assert (forall k', A !! k' <> Some m) as Hnew by (intros k' ?; apply Hn, H1; eauto). split; [split_and!|].
  - intros a. rewrite elem_of_union, elem_of_singleton, H1. split.
    + intros [->|[k' Hk']]; [exists k; by rewrite lookup_insert_eq|]. exists k'. rewrite lookup_insert_ne; [done|]. intros ->. congruence.
    + intros [k' [[_ <-]|[_ Hk']]%lookup_insert_Some]; eauto.
  - intros k1 k2 a [[<- <-]|[? E1]]%lookup_insert_Some [[<- E]|[? E2]]%lookup_insert_Some; try done; [by destruct (Hnew k2)|subst; by destruct (Hnew k1)|eauto].
  - intros k' a [[_ <-]|[_ ?]]%lookup_insert_Some; eauto.
  - unfold spec_add. rewrite bool_decide_true by done. replace (forallb _ _) with true; [done|]. symmetry. apply forallb_forall.
    intros [k' a] Hin%list_elem_of_In%elem_of_map_to_list. cbn. destruct (Z.eqb_spec a m) as [->|]; [by destruct (Hnew k')|done].
Qed.

Lemma list_cancel {X} (x : X) l1 l2 r1 r2 : l1 ++ x :: r1 ≡ₚ l2 ++ x :: r2 -> l1 ++ r1 ≡ₚ l2 ++ r2.
Proof. intros H. apply (Permutation_cons_inv (a := x)). by rewrite !Permutation_middle. Qed.

Section calls.
Context (w : World) (A : gmap Z Z) (live : gset Z) (rest : list (Z * Action)) (HI : Inv w A live rest).
Context (i : nat) (t : Thread) (Ht : threads_ w !! i = Some t) (Hp : pending_ t = true) (Hz : tid_ t <> 0).

Lemma Inv_heap_ok : heap_ok (heap w) A.
Proof. split_and!; [apply (inv_heap _ _ _ _ HI)|apply (inv_inj _ _ _ _ HI)|apply (inv_pos _ _ _ _ HI)]. Qed.

(** The workers' parts of the table do not change. *)
Lemma Inv_call p h A' :
  p <> Gone -> busy t = [] -> busy (set_pc p t) = [] -> thread_ok (pointers_ w) (set_pc p t) -> heap_ok h A' ->
  map_to_list A' ≡ₚ table_pairs (all_others busy i (threads_ w)) (pointers_ w) ++ held (set_pc p t) ++ all_others held i (threads_ w) ->
  (map_to_list A').*1 ++ todo (set_pc p t) ++ all_others todo i (threads_ w) ≡ₚ elements live ++ gone (set_pc p t) ++ all_others gone i (threads_ w) ->
  gone (set_pc p t) = [] ->
  Inv (set_thread i (set_pc p t) (set_heap h w)) A' live rest.
Proof.
  intros Hg Hb Hb' Hok (H1 & H2 & H3) Hpairs Hlive Hgone. unfold set_thread, set_heap.
  cbn [pointers_ heap threads_ num_threads_ total_nsecs line_buf dump_fd mpc].
  pose proof (parts_busy w A live rest HI i t Ht) as Hbusy. pose proof (parts_slots w A live rest HI i t Ht) as Hslots.
  rewrite Hb in Hbusy, Hslots. apply (Inv_worker w A live rest i t); rewrite ?Hb'; try done.
  - split_and!; (done || auto).
  - intros j x _ Hx. by apply (inv_threads _ _ _ _ HI j).
  - rewrite Hgone, (no_other_gone w A live rest HI i t) by done. intros k Hk. by apply not_elem_of_nil in Hk.
Qed.

Lemma Inv_free memory :
  pc t = CallFree memory ->
  exists h A', free memory (heap w) = Ok h /\ spec_event A (EvFree (action_key (action_ t)) memory) = Some A' /\
    Inv (set_thread i (set_pc Finished t) (set_heap h w)) A' live rest.
Proof.
  intros Epc. worker_parts HI Ht t Epc. destruct Hok as (Ha & Halloc & [k Hk]). rewrite Hk in *. cbn in Hpairs, Hl.
  assert (action_key (action_ t) = k) as -> by (destruct (action_ t); simplify_eq/=; by destruct (_ =? 0); simplify_eq).
  assert (A !! k = Some memory) as HA.
  { apply elem_of_map_to_list. rewrite Hpairs, elem_of_app. right. by left. }
  destruct (heap_remove _ _ _ _ Inv_heap_ok HA) as (F1 & F2 & F3). exists (heap w ∖ {[memory]}), (delete k A).
  split; [done|]. split; [done|]. rewrite <- (map_to_list_delete _ _ _ HA) in Hpairs, Hl. cbn in Hl.
  apply Inv_call; try done.
  - unfold busy. by rewrite Epc.
  - cbn. apply (list_cancel (k, memory) []). cbn. rewrite Hpairs. done.
  - cbn. apply (list_cancel k []). done.
Qed.

Lemma Inv_alloc_new memory :
  pc t = CallAlloc None -> 0 < memory -> memory ∉ heap w ->
  exists h p ev A', call_alloc (action_ t) None memory w = Ok (h, p, ev) /\ spec_event A ev = Some A' /\
    Inv (set_thread i (set_pc p t) (set_heap h w)) A' live rest.
Proof.
  intros Epc Hm Hn. worker_parts HI Ht t Epc. destruct Hok as (Ha & [k Hk] & Hfree). rewrite Hk, Hfree in *. cbn in Hpairs, Hl.
  rewrite (no_other_gone w A live rest HI i t Ht Hp), app_nil_r in Hl.
  assert (A !! k = None) as HA.
  { destruct (A !! k) as [m|] eqn:E; [|done]. exfalso. pose proof (NoDup_elements live) as Hnd. rewrite <- Hl in Hnd.
    apply list.NoDup_app in Hnd as (_ & Hnd & _). apply (Hnd k); [|by left]. apply list_elem_of_fmap. exists (k, m). split; [done|].
    by apply elem_of_map_to_list. }
  destruct (heap_add _ _ _ _ Inv_heap_ok HA Hm Hn) as (F1 & F2).
  eexists _, _, _, (<[k := memory]> A). unfold call_alloc. cbn [mbind res_bind].
  rewrite (proj2 (Z.eqb_neq memory 0)) by lia. cbn [andb]. rewrite Hk. split; [done|]. split; [done|].
  apply Inv_call; try done.
  - unfold busy. by rewrite Epc.
  - unfold thread_ok. cbn. split; [done|]. exists k. pose proof (table_nonempty w A live rest HI). split_and!; try (done || lia).
    + unfold max_pointers. by rewrite probe_0.
    + intros j d Hj. lia.
  - unfold held at 1. cbn. rewrite Hk, map_to_list_insert by done. cbn. rewrite Hpairs. by rewrite Permutation_middle.
  - rewrite map_to_list_insert by done. cbn. rewrite (no_other_gone w A live rest HI i t Ht Hp), app_nil_r, <- Hl. by rewrite Permutation_middle.
Qed.

Lemma Inv_realloc old memory :
  pc t = CallAlloc (Some old) -> 0 < memory -> memory ∉ heap w ∖ {[old]} ->
  exists h p ev A', call_alloc (action_ t) (Some old) memory w = Ok (h, p, ev) /\ spec_event A ev = Some A' /\
    Inv (set_thread i (set_pc p t) (set_heap h w)) A' live rest.
Proof.
  intros Epc Hm Hn. worker_parts HI Ht t Epc. destruct Hok as (Ha & [k Hk] & [k0 Hk0]).
  destruct (alone_parts w A live rest HI i t Ht Hp) as (O1 & O2 & O3 & O4); [by rewrite Hk0|].
  rewrite Hk, Hk0 in *. cbn in Hpairs, Hl. rewrite O3, O4 in Hl.
  assert (A !! k0 = Some old) as HA.
  { apply elem_of_map_to_list. rewrite Hpairs, elem_of_app. right. by left. }
  destruct (heap_remove _ _ _ _ Inv_heap_ok HA) as (F1 & F2 & F3).
  rewrite <- (map_to_list_delete _ _ _ HA) in Hpairs, Hl. cbn in Hl.
  apply (list_cancel k0 []) in Hl. rewrite app_nil_r in Hl. cbn in Hl. apply (list_cancel (k0, old) []) in Hpairs. cbn in Hpairs.
  assert (delete k0 A !! k = None) as HA'.
  { destruct (delete k0 A !! k) as [m|] eqn:E; [|done]. exfalso. pose proof (NoDup_elements live) as Hnd. rewrite <- Hl in Hnd.
    apply list.NoDup_app in Hnd as (_ & Hnd & _). apply (Hnd k); [|by left]. apply list_elem_of_fmap. exists (k, m). split; [done|].
    by apply elem_of_map_to_list. }
  destruct (heap_add _ _ _ _ F2 HA' Hm Hn) as (G1 & G2).
  eexists _, _, _, (<[k := memory]> (delete k0 A)). unfold call_alloc. rewrite F1. cbn [mbind res_bind].
  rewrite (proj2 (Z.eqb_neq memory 0)) by lia. cbn [andb]. rewrite Hk, Hk0. split; [done|]. split; [cbn; by rewrite F3|].
  apply Inv_call; try done.
  - unfold busy. by rewrite Epc.
  - unfold thread_ok. cbn. split; [done|]. exists k. pose proof (table_nonempty w A live rest HI). split_and!; try (done || lia).
    + unfold max_pointers. by rewrite probe_0.
    + intros j d Hj. lia.
  - unfold held at 1. cbn. rewrite Hk, map_to_list_insert by done. cbn. rewrite Hpairs. by rewrite Permutation_middle.
  - rewrite map_to_list_insert by done. cbn. rewrite O3, O4, !app_nil_r, <- Hl. by rewrite Permutation_app_comm.
Qed.
End calls.

(** * The table never fills up, and a key to be freed is in it *)

(** Slots that are taken belong to the table or are reserved. *)
Lemma table_pairs_full bs tbl :
  NoDup bs -> (forall j d, tbl !! j = Some d -> key_pointer d <> 0) ->
  (length tbl <= length (table_pairs bs tbl) + length bs)%nat.
Proof.
  intros Hnd Hk.
  assert (length (table_pairs bs tbl) = length (filter (fun j => j ∉ bs) (seq 0 (length tbl)))) as ->.
  { induction tbl as [|d tbl IH] using rev_ind; [done|]. unfold table_pairs in *. rewrite imap_app, join_app, !length_app, IH.
    - rewrite Nat.add_1_r, seq_S, list.filter_app, length_app. f_equal. cbn. rewrite Nat.add_0_r, app_nil_r. unfold slot_pairs.
      assert (key_pointer d <> 0) by (apply (Hk (length tbl)); rewrite lookup_app_r, Nat.sub_diag by lia; done).
      rewrite (proj2 (Z.eqb_neq _ _)) by done. case_bool_decide; case_decide; done.
    - intros j x Hx. apply (Hk j). by rewrite lookup_app_l by (by eapply lookup_lt_Some). }
  rewrite <- (length_seq (length tbl) 0) at 1.
  assert (length (filter (fun j => j ∈ bs) (seq 0 (length tbl))) <= length bs)%nat as Hle.
  { apply submseteq_length, NoDup_submseteq; [apply list.NoDup_filter, NoDup_seq|]. by intros j [? _]%list_elem_of_filter. }
  enough (forall l : list nat, length l = length (filter (fun j => j ∉ bs) l) + length (filter (fun j => j ∈ bs) l))%nat as Hs
    by (rewrite (Hs (seq 0 (length tbl))) at 1; lia).
  induction l as [|x l IH]; [done|]. rewrite !filter_cons. destruct (decide (x ∈ bs)).
  - rewrite decide_False by tauto. cbn. lia.
  - rewrite decide_True by done. cbn. lia.
Qed.

Lemma all_length {B C} (f : Thread -> list B) (g : Thread -> list C) i ts :
  (forall j x, j <> i -> ts !! j = Some x -> (length (f x) <= length (g x))%nat) ->
  (length (all_others f i ts) <= length (all_others g i ts))%nat.
Proof.
  intros H. unfold all_others, others. rewrite !length_app.
  assert (forall l : list Thread, (forall j x, l !! j = Some x -> (length (f x) <= length (g x))%nat) ->
    (length (mjoin (imap (fun _ => f) l)) <= length (mjoin (imap (fun _ => g) l)))%nat) as Hl.
  { induction l as [|x l IH]; intros Hx; cbn; [lia|]. rewrite !length_app.
    exact (Nat.add_le_mono _ _ _ _ (Hx 0%nat x eq_refl) (IH (fun j => Hx (S j)))). }
  apply Nat.add_le_mono; apply Hl; intros j x Hj.
  - apply lookup_take_Some in Hj as [Hj ?]. apply (H j); [lia|done].
  - rewrite lookup_drop in Hj. eapply H; [|exact Hj]. lia.
Qed.

Section progress.
Context (w : World) (A : gmap Z Z) (live : gset Z) (rest : list (Z * Action)) (HI : Inv w A live rest).
Context (i : nat) (t : Thread) (Ht : threads_ w !! i = Some t) (Hp : pending_ t = true) (Hz : tid_ t <> 0).

Lemma find_empty_ends memory index entries : pc t = EmptyAt memory index entries -> entries < zlen (pointers_ w).
Proof.
  intros Epc. worker_parts HI Ht t Epc. destruct Hok as (Ha & key & Hkey & He & _ & Hpr). rewrite Hkey in Hpairs. cbn in Hpairs.
  destruct (Z.lt_ge_cases entries (zlen (pointers_ w))) as [|Hge]; [done|exfalso].
  replace entries with (zlen (pointers_ w)) in Hpr by lia.
  pose proof (table_pairs_full (all_others busy i (threads_ w)) (pointers_ w) Hb (probed_all _ _ _ Hpr)) as Hfull.
  rewrite (no_other_gone w A live rest HI i t Ht Hp), app_nil_r in Hl.
  apply Permutation_length in Hl, Hpairs. rewrite length_app, length_fmap in Hl. rewrite length_app in Hpairs. cbn in Hpairs.
  assert (length (all_others busy i (threads_ w)) <= length (all_others held i (threads_ w)))%nat as Hbh.
  { apply all_length. intros j x _ Hx. pose proof (inv_threads _ _ _ _ HI j x Hx) as Hok. unfold thread_ok, busy, held in *.
    destruct (pc x); cbn; try lia; [destruct Hok as (_ & [k ->] & _)|destruct Hok as (_ & d & _ & ->)]; cbn; lia. }
  pose proof (inv_room _ _ _ _ HI) as Hroom. pose proof (zlen_nonneg rest). unfold zlen, size, set_size in *. cbn in *. lia.
Qed.

Lemma find_ends key index entries : pc t = FindAt key index entries -> 0 < entries.
Proof.
  intros Epc. worker_parts HI Ht t Epc. destruct Hok as (Ha & Hkey & He & _ & Hpr).
  destruct (Z.lt_ge_cases 0 entries) as [|Hge]; [done|exfalso]. replace entries with 0 in Hpr by lia. rewrite Z.sub_0_r in Hpr.
  destruct (alone_parts w A live rest HI i t Ht Hp) as (O1 & O2 & O3 & O4); [by rewrite Hkey|].
  rewrite Hkey in Hf. destruct (Hf key) as [m Hm]; [by left|]. apply elem_of_map_to_list in Hm.
  rewrite O1, O2, app_nil_r in Hpairs. rewrite Hpairs in Hm. apply elem_of_table_pairs in Hm as (j & d & Hd & _ & _ & E & _).
  by apply (probed_all _ _ _ Hpr j d Hd).
Qed.
End progress.

(** * A step of a worker *)

(** It does not fail; it has no step only when it waits; and a step is one of
    the specification that keeps the invariant. *)
Definition waits (t : Thread) : Prop := pc t = Gone \/ pc t = WaitPending /\ pending_ t = false.

(** Steps that only change the position. *)
Ltac quiet_step HI Ht Epc Hp :=
  split; [naive_solver|]; eexists; split; [reflexivity|];
  apply (Inv_quiet _ _ _ _ HI _ _ Ht); try done;
  try (unfold busy, held, todo, gone; cbn; by rewrite ?Epc, ?Hp).

Lemma Execute_start_inv w A live rest i t :
  Inv w A live rest -> threads_ w !! i = Some t -> pc t = Start ->
  exists p, Execute_start (action_ t) w = Ok p /\ Inv (set_thread i (set_pc p t) w) A live rest.
Proof.
  intros HI Ht Epc. pose proof (inv_threads _ _ _ _ HI i t Ht) as Hok. unfold thread_ok in Hok. rewrite Epc in Hok.
  pose proof Hok as [Hp Hz]. pose proof (table_nonempty w A live rest HI) as Hn.
  assert (forall p, p <> Gone -> busy (set_pc p t) = [] -> held (set_pc p t) = [] ->
    todo (set_pc p t) = option_list (alloc_key (action_ t)) -> gone (set_pc p t) = option_list (free_key (action_ t)) ->
    thread_ok (pointers_ w) (set_pc p t) -> Inv (set_thread i (set_pc p t) w) A live rest) as Hq.
  { intros p H1 H2 H3 H4 H5 H6. apply (Inv_quiet _ _ _ _ HI _ _ Ht); try done.
    - rewrite H2. unfold busy. by rewrite Epc.
    - rewrite H3. unfold held. by rewrite Epc.
    - rewrite H4. unfold todo. by rewrite Epc.
    - rewrite H5. unfold gone. by rewrite Epc. }
  assert (forall key, free_key (action_ t) = Some key -> thread_ok (pointers_ w) (set_pc (FindAt key (GetHash key (max_pointers w)) (max_pointers w)) t)) as Hfind.
  { intros key Hk. unfold thread_ok, max_pointers. cbn. split_and!; try (done || lia).
    - by rewrite Z.sub_diag, probe_0.
    - rewrite Z.sub_diag. intros j d ?. lia. }
  unfold todo, gone in Hq. cbn [pc set_pc action_] in Hq.
  assert (forall k, alloc_key (action_ t) = Some k -> free_key (action_ t) = None -> thread_ok (pointers_ w) (set_pc (CallAlloc None) t)) as Halloc.
  { intros k Hk Hf. unfold thread_ok. cbn. rewrite Hk. done. }
  destruct (action_ t) eqn:Ea; cbn [Execute_start alloc_key free_key] in *.
  - eexists. split; [done|]. by apply Hq.
  - eexists. split; [done|]. apply Hq; try done. by eapply Halloc.
  - eexists. split; [done|]. apply Hq; try done. by eapply Halloc.
  - destruct (Z.eqb_spec old_pointer 0) as [->|Hne]; cbn [negb].
    + eexists. split; [done|]. apply Hq; try done. by eapply Halloc.
    + unfold Remove_start. rewrite (proj2 (Z.eqb_neq _ _)) by done. eexists. split; [done|]. apply Hq; try done. by apply Hfind.
  - eexists. split; [done|]. apply Hq; try done. by eapply Halloc.
  - destruct (Z.eqb_spec key_pointer 0) as [->|Hne]; cbn [negb].
    + eexists. split; [done|]. by apply Hq.
    + unfold Remove_start. rewrite (proj2 (Z.eqb_neq _ _)) by done. eexists. split; [done|]. apply Hq; try done. by apply Hfind.
Qed.

(** The end of an action. *)
Lemma Inv_finished w A live rest i t nsecs :
  Inv w A live rest -> threads_ w !! i = Some t -> pc t = Finished ->
  Inv (set_thread i (set_pc (if EndThread (action_ t) then Gone else WaitPending) (set_pending false (AddTimeNsecs nsecs t))) w) A live rest.
Proof.
  intros HI Ht Epc. worker_parts HI Ht t Epc. destruct Hok as [Hp Hz]. unfold set_thread.
  set (t' := set_pc _ _). assert (busy t' = [] /\ held t' = [] /\ todo t' = [] /\ gone t' = []) as (E1 & E2 & E3 & E4).
  { unfold t', busy, held, todo, gone. cbn. by destruct (EndThread _). }
  apply (Inv_worker w A live rest i t); rewrite ?E1, ?E2, ?E3, ?E4; try done.
  - unfold t'. split_and!; cbn; try done. intros ->. by right.
  - unfold t'. cbn. destruct (EndThread _) eqn:Ee; [|done]. intros _. by apply (inv_end _ _ _ _ HI i t).
  - unfold t', thread_ok. cbn. by destruct (EndThread _).
  - intros j x _ Hx. by apply (inv_threads _ _ _ _ HI j).
  - apply (inv_heap _ _ _ _ HI).
  - apply (inv_inj _ _ _ _ HI).
  - apply (inv_pos _ _ _ _ HI).
Qed.

Lemma worker_step_inv `{NeverNull} w A live rest i t memory nsecs :
  Inv w A live rest -> threads_ w !! i = Some t -> returns (alloc_heap t (heap w)) memory ->
  match worker_step memory nsecs i w with
  | Ok None => waits t
  | Ok (Some (w', ev)) => ~ waits t /\ exists A', spec_run A ev = Some A' /\ Inv w' A' live rest
  | _ => False
  end.
Proof.
  intros HI Ht Hr. pose proof (inv_threads _ _ _ _ HI i t Ht) as Hok. unfold worker_step, waits. rewrite Ht.
  pose proof (table_nonempty w A live rest HI) as Hn. unfold thread_ok in Hok. apply returns_memory in Hr as [Hm Hfresh]. unfold alloc_heap in Hfresh.
  destruct (pc t) as [| | |key index entries|slot|slot memory'|memory'|[old|]|memory' index entries|slot memory'|slot memory'|] eqn:Epc.
  - by left.
  - destruct (pending_ t) eqn:Hp; [|by right]. quiet_step HI Ht Epc Hp.
  - destruct (Execute_start_inv w A live rest i t HI Ht Epc) as (p & -> & HI'). cbn. split; [naive_solver|]. by exists A.
  - destruct Hok as ([Hp Hz] & Hk & He & Hi & Hpr). pose proof (find_ends w A live rest HI i t Ht Hp _ _ _ Epc) as Hlt.
    rewrite (proj2 (Z.eqb_neq _ _)) by lia. destruct (probe_lookup (pointers_ w) key (zlen (pointers_ w) - entries) Hn) as (d & Hd).
    rewrite <- Hi in Hd. rewrite Hd. destruct (Z.eqb_spec (key_pointer d) key) as [Ek|Ek]; quiet_step HI Ht Epc Hp.
    + unfold thread_ok. cbn. split; [done|]. exists d. split; [done|congruence].
    + unfold thread_ok. cbn. replace (zlen (pointers_ w) - (entries - 1)) with (zlen (pointers_ w) - entries + 1) by lia.
      split_and!; try (done || lia); [unfold max_pointers; by rewrite Hi, probe_next|]. eapply probed_next; [done| |done]. by rewrite <- Hi.
  - destruct Hok as ([Hp Hz] & d & Hd & Hk). rewrite Hd. quiet_step HI Ht Epc Hp. unfold thread_ok. cbn. split; [done|]. by exists d.
  - destruct Hok as ([Hp Hz] & d & Hd & Hk & _). rewrite Hd. split; [naive_solver|]. exists A. split; [done|]. by apply Inv_clear_key.
  - destruct Hok as ([Hp Hz] & _). destruct (Inv_free w A live rest HI i t Ht Hp Hz _ Epc) as (h & A' & -> & Hs & HI').
    cbn [mbind res_bind]. split; [naive_solver|]. exists A'. split; [|done]. cbn [spec_run]. by rewrite Hs.
  - destruct Hok as ([Hp Hz] & _). destruct (Inv_realloc w A live rest HI i t Ht Hp Hz old memory Epc Hm Hfresh) as (h & p & ev & A' & -> & Hs & HI').
    cbn [mbind res_bind]. split; [naive_solver|]. exists A'. split; [|done]. cbn [spec_run]. by rewrite Hs.
  - destruct Hok as ([Hp Hz] & _). destruct (Inv_alloc_new w A live rest HI i t Ht Hp Hz memory Epc Hm Hfresh) as (h & p & ev & A' & -> & Hs & HI').
    cbn [mbind res_bind]. split; [naive_solver|]. exists A'. split; [|done]. cbn [spec_run]. by rewrite Hs.
  - destruct Hok as ([Hp Hz] & key & Hk & He & Hi & Hpr). pose proof (find_empty_ends w A live rest HI i t Ht Hp _ _ _ Epc) as Hlt.
    unfold max_pointers. rewrite (proj2 (Z.ltb_lt _ _)) by lia. destruct (probe_lookup (pointers_ w) key entries Hn) as (d & Hd).
    rewrite <- Hi in Hd. rewrite Hd. destruct (Z.eqb_spec (key_pointer d) 0) as [Ek|Ek].
    + split; [naive_solver|]. exists A. split; [done|]. by eapply Inv_reserve.
    + quiet_step HI Ht Epc Hp. unfold thread_ok. cbn. split; [done|]. exists key.
      split_and!; try (done || lia); [by rewrite Hi, probe_next|]. eapply probed_next; [done| |done]. by rewrite <- Hi.
  - destruct Hok as ([Hp Hz] & _ & d & Hd & _). rewrite Hd. split; [naive_solver|]. exists A. split; [done|]. by apply Inv_store_key.
  - destruct Hok as ([Hp Hz] & d & Hd & _). rewrite Hd. split; [naive_solver|]. exists A. split; [done|]. by apply Inv_store_ptr.
  - split; [naive_solver|]. exists A. split; [done|]. by apply Inv_finished.
Qed.
