(* ===== verification/MemMain.v ===== *)
(** The steps of the main thread of the replay machine keep the invariant of
    MemInv.v, up to the point where the memory that is left is freed. *)
From stdpp Require Import base gmap list numbers.
From Stdlib Require Import ZArith Lia.
From S2P Require Import Prelude Utils KernelSymbols MemLine MemReplay MemInv MemWorker.

(** * The table of threads *)

Definition nzt (t : Thread) : list Z := if tid_ t =? 0 then [] else [tid_ t].

Lemma nz_cons t ts : nz (t :: ts) = nzt t ++ nz ts.
Proof.
  unfold nz, nzt. rewrite fmap_cons, filter_cons. destruct (Z.eqb_spec (tid_ t) 0) as [E|E].
  - by rewrite decide_False by (rewrite E; tauto).
  - by rewrite decide_True.
Qed.

Lemma nz_app ts1 ts2 : nz (ts1 ++ ts2) = nz ts1 ++ nz ts2.
Proof. unfold nz. by rewrite fmap_app, list.filter_app. Qed.

Lemma nz_all ts : nz ts = all nzt ts.
Proof. induction ts as [|t ts IH]; [done|]. rewrite nz_cons, IH. done. Qed.

Lemma elem_of_nz ts x : x ∈ nz ts <-> x <> 0 /\ exists i t, ts !! i = Some t /\ tid_ t = x.
Proof.
  unfold nz. rewrite list_elem_of_filter, list_elem_of_fmap. split.
  - intros (Hx & t & -> & Ht). split; [done|]. apply list_elem_of_lookup in Ht as [i Hi]. eauto.
  - intros (Hx & i & t & Hi & <-). split; [done|]. exists t. split; [done|]. by eapply list_elem_of_lookup_2.
Qed.

(** Going round from an index is going through a list. *)
Definition round (ts : list Thread) (index : Z) (suf : list Thread) : Prop :=
  0 <= index < zlen ts /\ forall k x, suf !! k = Some x -> ts !! Z.to_nat ((index + Z.of_nat k) mod zlen ts) = Some x.

Lemma round_next ts index x suf :
  round ts index (x :: suf) -> ts !! Z.to_nat index = Some x /\ round ts (next_index index (zlen ts)) suf.
Proof.
  intros [Hi H]. split.
  - rewrite <- (H 0%nat x eq_refl). f_equal. rewrite Z.add_0_r, Z.mod_small by lia. done.
  - assert (next_index index (zlen ts) = (index + 1) mod zlen ts) as ->.
    { unfold next_index. destruct (Z.eqb_spec (index + 1) (zlen ts)) as [->|]; [by rewrite Z.mod_same by lia|].
      rewrite Z.mod_small; lia. }
    split; [apply Z.mod_pos_bound; lia|]. intros k y Hy. rewrite <- (H (S k) y Hy). f_equal. rewrite Zplus_mod_idemp_l. f_equal. f_equal. lia.
Qed.

(** A full round. *)
Lemma round_full ts index : 0 <= index < zlen ts -> round ts index (zdrop index ts ++ ztake index ts).
Proof.
  intros Hi. split; [done|]. intros k x Hk. unfold zdrop, ztake, zlen in *. apply lookup_app_Some in Hk as [Hk|[Hl Hk]].
  - rewrite lookup_drop in Hk. pose proof (lookup_lt_Some _ _ _ Hk). rewrite Z.mod_small by lia. rewrite <- Hk. f_equal. lia.
  - rewrite length_drop in *. apply lookup_take_Some in Hk as [Hk Hlt].
    replace (index + Z.of_nat k) with (index + Z.of_nat k - Z.of_nat (length ts) + 1 * Z.of_nat (length ts)) by lia.
    rewrite Z.mod_add, Z.mod_small by lia. rewrite <- Hk. f_equal. lia.
Qed.

Lemma FindThread_loop_ok ts tid : tid <> 0 -> forall suf index,
  round ts index suf ->
  exists r, FindThread_loop (length suf) ts tid index (zlen (nz suf)) = Ok r /\
    match r with Some i => exists t, ts !! i = Some t /\ tid_ t = tid | None => tid ∉ nz suf end.
Proof.
  intros Hz. induction suf as [|x suf IH]; intros index Hr; cbn [length FindThread_loop].
  { eexists. split; [done|]. cbn. apply not_elem_of_nil. }
  apply round_next in Hr as [Hx Hr]. destruct (Z.eqb_spec (zlen (nz (x :: suf))) 0) as [E|E].
  { eexists. split; [reflexivity|]. cbv beta iota. destruct (nz (x :: suf)); [apply not_elem_of_nil|]. rewrite zlen_cons in E. pose proof (zlen_nonneg l). lia. }
  rewrite Hx. destruct (Z.eqb_spec (tid_ x) tid) as [Et|Et]; [eexists; split; [done|]; by exists x|].
  destruct (IH _ Hr) as (r & Hr' & Hres). exists r. rewrite nz_cons, zlen_app. unfold nzt. destruct (Z.eqb_spec (tid_ x) 0) as [Ex|Ex]; cbn [negb].
  - rewrite zlen_nil, Z.add_0_l. split; [done|]. by destruct r.
  - change (zlen [tid_ x]) with 1. replace (1 + zlen (nz suf) - 1) with (zlen (nz suf)) by lia. split; [done|].
    destruct r; [done|]. cbn [app]. rewrite elem_of_cons. intros [?|?]; congruence.
Qed.

Lemma FindEmptyEntry_loop_ok ts : forall suf index,
  round ts index suf ->
  exists r, FindEmptyEntry_loop (length suf) ts index = Ok r /\
    match r with Some i => exists t, ts !! i = Some t /\ tid_ t = 0 | None => length (nz suf) = length suf end.
Proof.
  induction suf as [|x suf IH]; intros index Hr; cbn [length FindEmptyEntry_loop]; [by eexists|].
  apply round_next in Hr as [Hx Hr]. rewrite Hx. destruct (Z.eqb_spec (tid_ x) 0) as [Et|Et]; [eexists; split; [done|]; by exists x|].
  destruct (IH _ Hr) as (r & Hr' & Hres). exists r. split; [done|]. destruct r; [done|]. rewrite nz_cons, length_app, Hres. unfold nzt.
  by rewrite (proj2 (Z.eqb_neq _ _)).
Qed.

Lemma round_nz ts index : 0 <= index < zlen ts -> nz (zdrop index ts ++ ztake index ts) ≡ₚ nz ts /\ length (zdrop index ts ++ ztake index ts) = length ts.
Proof.
  intros Hi. split.
  - rewrite nz_app, Permutation_app_comm, <- nz_app. unfold ztake, zdrop. by rewrite take_drop.
  - unfold zdrop, ztake, zlen in *. rewrite length_app, length_drop, length_take. lia.
Qed.

Lemma hash_range (ts : list Thread) tid : ts <> [] -> exists h, GetHashEntry tid (zlen ts) = Ok h /\ 0 <= h < zlen ts.
Proof.
  intros Hn. assert (0 < zlen ts) by (unfold zlen; destruct ts; [done|cbn; lia]). unfold GetHashEntry.
  rewrite (proj2 (Z.eqb_neq _ _)) by lia. eexists. split; [done|]. apply Z.mod_pos_bound. lia.
Qed.

(** [FindThread] finds the thread, if it is running. *)
Lemma FindThread_ok ts tid :
  ts <> [] -> tid <> 0 ->
  exists r, FindThread ts (zlen (nz ts)) tid = Ok r /\
    match r with Some i => exists t, ts !! i = Some t /\ tid_ t = tid | None => tid ∉ nz ts end.
Proof.
  intros Hn Hz. unfold FindThread. destruct (hash_range ts tid Hn) as (h & -> & Hh). cbn [mbind res_bind].
  destruct (round_nz ts h Hh) as [Hp Hl]. destruct (FindThread_loop_ok ts tid Hz _ _ (round_full ts h Hh)) as (r & Hr & Hres).
  rewrite Hl in Hr. unfold zlen in Hr at 1. rewrite Hp in Hr. exists r. split; [exact Hr|]. destruct r; [done|]. by rewrite <- Hp.
Qed.

Lemma FindEmptyEntry_ok ts tid :
  ts <> [] -> (length (nz ts) < length ts)%nat ->
  exists i t, FindEmptyEntry ts tid = Ok (Some i) /\ ts !! i = Some t /\ tid_ t = 0.
Proof.
  intros Hn Hlt. unfold FindEmptyEntry. destruct (hash_range ts tid Hn) as (h & -> & Hh). cbn [mbind res_bind].
  destruct (round_nz ts h Hh) as [Hp Hl]. destruct (FindEmptyEntry_loop_ok ts _ _ (round_full ts h Hh)) as (r & Hr & Hres).
  rewrite Hl in Hr. destruct r as [i|]; [destruct Hres as (t & ? & ?); eauto|]. rewrite Hp, Hl in Hres. lia.
Qed.

(** * Changes by the main thread *)

(** No worker other than [i] frees, ends, or has ended. *)
Definition quiet_but (i : option nat) (w : World) : Prop :=
  forall k x, Some k <> i -> threads_ w !! k = Some x ->
    (pending_ x = true -> DoesFree (action_ x) = false /\ EndThread (action_ x) = false) /\ (pc x = Gone -> tid_ x = 0).

Definition joins (p : mainpc) : option nat := match p with MJoin i | MFinishJoin i | MWaitAfter i => Some i | _ => None end.

Lemma Inv_quiet_but w A live rest : Inv w A live rest -> quiet_but (joins (mpc w)) w.
Proof.
  intros HI k x Hk Hx. split.
  - intros Hp. split.
    + destruct (DoesFree (action_ x)) eqn:E; [|done]. destruct (inv_excl _ _ _ _ HI k x Hx Hp E) as [Em _]. by rewrite Em in Hk.
    + destruct (EndThread (action_ x)) eqn:E; [|done]. by destruct (inv_end _ _ _ _ HI k x Hx Hp E) as [Em|Em]; rewrite Em in Hk.
  - intros Hg. by destruct (inv_gone _ _ _ _ HI k x Hx Hg) as [?|[Em|Em]]; [|rewrite Em in Hk..].
Qed.

(** No thread changes. *)
Lemma Inv_mpc w A live rest b fd p :
  Inv w A live rest -> quiet_but None w -> main_ok (set_mpc p (set_input b fd w)) live rest ->
  Inv (set_mpc p (set_input b fd w)) A live rest.
Proof.
  intros HI Hq Hm. destruct HI. split; try done; cbn [threads_ set_mpc set_input] in *.
  - intros k x Hx Hp Hd. destruct (Hq k x ltac:(done) Hx) as [H _]. by rewrite (proj1 (H Hp)) in Hd.
  - intros k x Hx Hp Hd. destruct (Hq k x ltac:(done) Hx) as [H _]. by rewrite (proj2 (H Hp)) in Hd.
  - intros k x Hx Hg. left. by apply (Hq k x ltac:(done) Hx).
Qed.

(** Thread [i] changes, which waits. *)
Lemma Inv_main_thread w A live rest i t t' num total b fd p live' rest' :
  Inv w A live rest -> quiet_but (Some i) w -> threads_ w !! i = Some t -> pending_ t = false ->
  busy t' = [] -> held t' = [] -> thread_ok (pointers_ w) t' -> (pending_ t' = true -> keys_ok (action_ t')) ->
  (pending_ t' = true -> DoesFree (action_ t') = true -> p = MWaitAfter i /\ all_idle (threads_ w)) ->
  (pending_ t' = true -> EndThread (action_ t') = true -> p = MJoin i \/ p = MFinishJoin i) ->
  (pc t' = Gone <-> tid_ t' = 0) ->
  num = zlen (nz (<[i := t']> (threads_ w))) -> NoDup (nz (<[i := t']> (threads_ w))) ->
  Z.of_nat (size live') + zlen rest' < zlen (pointers_ w) ->
  (forall k, k ∈ live' -> 1 < k) ->
  (map_to_list A).*1 ++ todo t' ++ all_others todo i (threads_ w) ≡ₚ elements live' ++ gone t' ++ all_others gone i (threads_ w) ->
  (forall k, k ∈ gone t' -> is_Some (A !! k)) ->
  main_ok (mkWorld (pointers_ w) (heap w) (<[i := t']> (threads_ w)) num total b fd p) live' rest' ->
  Inv (mkWorld (pointers_ w) (heap w) (<[i := t']> (threads_ w)) num total b fd p) A live' rest'.
Proof.
  intros HI Hq Ht Hidle Eb Eh Hok Hkeys Hexcl Hend Hgone Hnum Hnd Hroom Habove Hlive Hfreed Hmain.
  assert (forall k x, <[i := t']> (threads_ w) !! k = Some x -> (k = i /\ x = t') \/ (k <> i /\ threads_ w !! k = Some x)) as Hin.
  { intros k x Hx. apply list_lookup_insert_Some in Hx as [(-> & <- & _)|(? & Hx)]; auto. }
  destruct (idle_parts (pointers_ w) t Hidle (inv_threads _ _ _ _ HI i t Ht)) as (B1 & B2 & _ & _).
  assert (forall j, j ∈ all busy (<[i := t']> (threads_ w)) <-> j ∈ all busy (threads_ w)) as Hbe.
  { intros j. by rewrite (all_insert busy i _ t t' Ht), (all_at busy i _ t Ht), Eb, B1. }
  assert (all_others gone i (threads_ w) = []) as Hg.
  { apply all_others_nil. intros j x Hj Hx. destruct (gone x) eqn:E; [done|].
    destruct (gone_pending x (pointers_ w)) as [Hpx Hf]; [by apply (inv_threads _ _ _ _ HI j)|by rewrite E|].
    destruct (Hq j x ltac:(congruence) Hx) as [H _]. apply DoesFree_key in Hf. by rewrite (proj1 (H Hpx)) in Hf. }
  split; cbn [pointers_ threads_ heap num_threads_ mpc]; try done.
  - intros k x [(-> & ->)|(Hk & Hx)]%Hin; [done|by apply (inv_threads _ _ _ _ HI k)].
  - intros k x [(-> & ->)|(Hk & Hx)]%Hin; [done|by apply (inv_keys _ _ _ _ HI k)].
  - intros k x [(-> & ->)|(Hk & Hx)]%Hin Hp Hd.
    + destruct (Hexcl Hp Hd) as [Em Hall]. split; [done|]. intros j y Hj [(-> & ->)|(Hji & Hy)]%Hin; [done|by eapply Hall].
    + destruct (Hq k x ltac:(congruence) Hx) as [H _]. by rewrite (proj1 (H Hp)) in Hd.
  - intros k x [(-> & ->)|(Hk & Hx)]%Hin Hp Hd; [auto|]. destruct (Hq k x ltac:(congruence) Hx) as [H _]. by rewrite (proj2 (H Hp)) in Hd.
  - intros k x [(-> & ->)|(Hk & Hx)]%Hin Hp; left; [by apply Hgone|]. by apply (Hq k x ltac:(congruence) Hx).
  - intros k x [(-> & ->)|(Hk & Hx)]%Hin Hp; [by apply Hgone|by apply (inv_zero _ _ _ _ HI k)].
  - rewrite (all_insert busy i _ t t' Ht), Eb. pose proof (inv_busy _ _ _ _ HI) as H. by rewrite (all_at busy i _ t Ht), B1 in H.
  - intros j d Hd Hj. apply (inv_slots _ _ _ _ HI j d Hd). by rewrite <- Hbe.
  - rewrite (inv_pairs _ _ _ _ HI), (table_pairs_ext _ _ _ Hbe). apply Permutation_app_head.
    by rewrite (all_insert held i _ t t' Ht), (all_at held i _ t Ht), Eh, B2.
  - apply (inv_heap _ _ _ _ HI).
  - apply (inv_inj _ _ _ _ HI).
  - apply (inv_pos _ _ _ _ HI).
  - by rewrite (all_insert todo i _ t t' Ht), (all_insert gone i _ t t' Ht).
  - intros k. rewrite (all_insert gone i _ t t' Ht), Hg, app_nil_r. apply Hfreed.
Qed.

(** ** Parts of [main_ok] *)

Lemma text_at_line m p l : bytes_at m p (l ++ [0]) -> Forall line_char l -> text_at m p = l.
Proof.
  intros (pre & post & -> & ->) Hl. unfold text_at. rewrite zdrop_app_exact by done. rewrite <- app_assoc.
  induction Hl as [|c l [_ Hc] _ IH]; [done|]. cbn. rewrite (proj2 (Z.eqb_neq _ _) Hc). f_equal. apply IH.
Qed.

Lemma input_GetLine w rest :
  input_ok w rest ->
  exists r b fd, GetLine (line_buf w) (dump_fd w) = Ok (r, b, fd) /\
    match rest with
    | [] => r = None
    | c :: cs => exists p n, r = Some (p, n) /\ text_at (buffer_ b) p = dump_line c /\
        (length (unread b fd) < length (unread (line_buf w) (dump_fd w)))%nat /\
        forall w', line_buf w' = b -> dump_fd w' = fd -> input_ok w' cs
    end.
Proof.
  intros (Hb & Hr & Hn & Hl & Hc). destruct (GetLine_ok (line_buf w) (dump_fd w) Hb Hr) as (r & b & fd & -> & H).
  { unfold lines_fit. rewrite Hl. apply Forall_fmap. eapply list.Forall_impl; [exact Hc|]. intros x Hx.
    apply dump_line_chars in Hx as [_ Hx]. unfold compose. lia. }
  destruct H as (Hb' & Hr' & Hbl & H). rewrite Hl in H. eexists _, _, _. split; [done|].
  destruct rest as [|c cs]; [done|]. cbn [fmap list_fmap] in H. destruct H as (p & -> & Hat & Hu & Hlen).
  apply list.Forall_cons in Hc as [Hc Hcs]. exists p, (zlen (dump_line c)). split_and!; [done| |done|].
  - apply text_at_line; [done|]. by apply dump_line_chars.
  - intros w' E1 E2. unfold input_ok. rewrite E1, E2. split_and!; try done. lia.
Qed.

Lemma valid_cons M live r c cs :
  dump_valid M live r (c :: cs) = true ->
  (forall k, alloc_key (snd c) = Some k -> 1 < k /\ k ∉ live ∖ match free_key (snd c) with Some k => {[k]} | None => ∅ end) /\
  (forall k, free_key (snd c) = Some k -> k ∈ live) /\ Z.of_nat (size ({[fst c]} ∪ r)) <= M /\
  dump_valid M (live_after live (snd c)) (running_after r c) cs = true.
Proof.
  cbn [dump_valid]. intros H. apply andb_prop in H as [H H4]. apply andb_prop in H as [H H3]. apply andb_prop in H as [H1 H2].
  split_and!; [| |lia|done].
  - intros k Hk. rewrite Hk in H1. apply andb_prop in H1 as [H1 Hn]. apply bool_decide_eq_true in Hn. split; [lia|done].
  - intros k Hk. rewrite Hk in H2. by apply bool_decide_eq_true in H2.
Qed.

Lemma valid_threads (ts : list Thread) live r c cs : dump_valid (zlen ts) live r (c :: cs) = true -> ts <> [].
Proof.
  intros (_ & _ & H & _)%valid_cons ->. assert (size ({[fst c]} ∪ r) <> 0%nat) as Hs.
  { apply size_non_empty_iff. set_solver. }
  rewrite zlen_nil in H. lia.
Qed.

Lemma set_of_perm (l1 l2 : list Z) : l1 ≡ₚ l2 -> list_to_set l1 =@{gset Z} list_to_set l2.
Proof. intros H. apply set_eq. intros x. by rewrite !elem_of_list_to_set, H. Qed.

Section main.
Context (w : World) (A : gmap Z Z) (live : gset Z) (rest : list (Z * Action)) (HI : Inv w A live rest).

(** A thread that can take a step. *)
Definition can_go : Prop := exists i t, threads_ w !! i = Some t /\ ~ waits t.

Lemma pending_goes i t : threads_ w !! i = Some t -> pending_ t = true -> can_go.
Proof.
  intros Ht Hp. exists i, t. split; [done|]. intros [E|[_ E]]; [|congruence].
  pose proof (inv_threads _ _ _ _ HI i t Ht) as Hok. unfold thread_ok in Hok. rewrite E in Hok. congruence.
Qed.

(** A thread that runs and does nothing. *)
Lemma idle_waits i t : threads_ w !! i = Some t -> pending_ t = false -> tid_ t <> 0 -> joins (mpc w) <> Some i -> pc t = WaitPending.
Proof.
  intros Ht Hp Hz Hj. pose proof (inv_threads _ _ _ _ HI i t Ht) as Hok. unfold thread_ok, worker_active in Hok. rewrite Hp in Hok.
  destruct (pc t) eqn:E; try (done || naive_solver).
  - destruct (inv_gone _ _ _ _ HI i t Ht E) as [?|[Em|Em]]; [done|by rewrite Em in Hj..].
  - destruct old_memory; naive_solver.
Qed.

Definition created (tid : Z) (t : Thread) : Thread := mkThread tid (pending_ t) (action_ t) 0 WaitPending.

Lemma created_nz i t tid :
  threads_ w !! i = Some t -> tid_ t = 0 -> 0 < tid -> nz (<[i := created tid t]> (threads_ w)) ≡ₚ tid :: nz (threads_ w).
Proof.
  intros Ht Hz Hc. rewrite !nz_all, (all_insert nzt i _ t _ Ht), (all_at nzt i _ t Ht). unfold nzt at 1 3. cbn [created tid_].
  rewrite Hz, (proj2 (Z.eqb_neq tid 0)) by lia. done.
Qed.

Lemma create_inv i t tid b fd p :
  quiet_but None w -> threads_ w !! i = Some t -> tid_ t = 0 -> 0 < tid -> tid ∉ nz (threads_ w) ->
  let w' := mkWorld (pointers_ w) (heap w) (<[i := created tid t]> (threads_ w)) (num_threads_ w + 1) (total_nsecs w) b fd p in
  main_ok w' live rest -> Inv w' A live rest.
Proof.
  intros Hq Ht Hz Hc Hn w' Hm. unfold w' in *. pose proof (created_nz i t tid Ht Hz Hc) as Hnz.
  pose proof (inv_zero _ _ _ _ HI i t Ht Hz) as Hg. pose proof (inv_threads _ _ _ _ HI i t Ht) as Hok. unfold thread_ok in Hok. rewrite Hg in Hok.
  set (t' := created tid t) in *. assert (busy t' = [] /\ held t' = [] /\ todo t' = [] /\ gone t' = []) as (E1 & E2 & E3 & E4).
  { unfold t', busy, held, todo, gone. cbn. by rewrite Hok. }
  apply (Inv_main_thread w A live rest i t); rewrite ?E3, ?E4; try done; cbn.
  - intros k x _ Hx. by apply (Hq k x).
  - unfold thread_ok. cbn. lia.
  - by rewrite Hok.
  - by rewrite Hok.
  - by rewrite Hok.
  - split; [done|lia].
  - unfold zlen. rewrite Hnz. cbn. pose proof (inv_num _ _ _ _ HI). unfold zlen in *. lia.
  - rewrite Hnz. apply list.NoDup_cons. split; [done|]. apply (inv_tids _ _ _ _ HI).
  - apply (inv_room _ _ _ _ HI).
  - apply (inv_above _ _ _ _ HI).
  - pose proof (inv_live _ _ _ _ HI) as H. rewrite (all_at todo i _ t Ht), (all_at gone i _ t Ht) in H.
    rewrite todo_eq, gone_eq, Hg in H. done.
  - intros k Hk. by apply not_elem_of_nil in Hk.
Qed.

End main.

Lemma next_line_inv w A live rest : Inv w A live rest -> mpc w = MLine -> exists w', next_line w = Ok w' /\ Inv w' A live rest.
Proof.
  intros HI Em. pose proof (inv_main _ _ _ _ HI) as Hm. unfold main_ok in Hm. rewrite Em in Hm. destruct Hm as [Hin Hv].
  pose proof (Inv_quiet_but _ _ _ _ HI) as Hq. rewrite Em in Hq. unfold next_line.
  destruct (input_GetLine w rest Hin) as (r & b & fd & -> & Hr). cbn [mbind res_bind].
  destruct rest as [|c cs].
  { subst r. eexists. split; [done|]. apply Inv_mpc; [done..|]. cbn. split; [done|]. split_and!; [|done|lia]. intros i t Hi. lia. }
  destruct Hr as (p & n & -> & -> & _ & Hin'). destruct Hin as (_ & _ & _ & _ & Hcs). apply list.Forall_cons in Hcs as [Hc _].
  destruct (scan_dump_line c Hc) as (args & -> & Hact). cbn [mbind res_bind]. destruct Hc as [Htid _].
  pose proof (valid_threads _ _ _ _ _ Hv) as Hne.
  destruct (FindThread_ok (threads_ w) (fst c) Hne) as (o & Ho & Hres); [lia|].
  cbn [threads_ num_threads_ set_input]. rewrite (inv_num _ _ _ _ HI), Ho. cbn [mbind res_bind]. destruct o as [i|].
  - destruct Hres as (t & Ht & Et). eexists. split; [done|]. apply Inv_mpc; [done..|]. cbn.
    exists c, cs, (list_to_set (nz (threads_ w))). split_and!; try done.
    + by apply Hin'.
    + assert (fst c ∈@{gset Z} list_to_set (nz (threads_ w))); [|set_solver]. apply elem_of_list_to_set, elem_of_nz. split; [lia|eauto].
    + exists t. split_and!; [done|lia|done].
  - destruct (valid_cons _ _ _ _ _ Hv) as (_ & _ & Hsz & _).
    rewrite size_union, size_singleton, size_list_to_set in Hsz by (apply (inv_tids _ _ _ _ HI) || set_solver).
    assert (length (nz (threads_ w)) < length (threads_ w))%nat as Hlt by (unfold zlen in Hsz; lia).
    destruct (FindEmptyEntry_ok (threads_ w) (fst c) Hne Hlt) as (i & t & He & Ht & Hz).
    unfold CreateThread. cbn [threads_ num_threads_ set_input]. rewrite (inv_num _ _ _ _ HI), (proj2 (Z.eqb_neq _ _)) by (unfold zlen; lia).
    rewrite He. cbn [mbind res_bind]. rewrite Ht. cbn [mbind res_bind]. eexists. split; [done|].
    pose proof (create_inv w A live _ HI i t (fst c) b fd (MReady i (action_key (snd c)) (action_type (snd c)) args) Hq Ht Hz ltac:(lia) Hres) as Hcr.
    rewrite (inv_num _ _ _ _ HI) in Hcr. apply Hcr. clear Hcr. cbn [main_ok mpc threads_].
    exists c, cs, (list_to_set (nz (threads_ w))).
    replace (zlen (<[i := created (fst c) t]> (threads_ w))) with (zlen (threads_ w)) by (unfold zlen; by rewrite length_insert).
    split_and!; try done.
    + by apply Hin'.
    + rewrite (set_of_perm _ _ (created_nz w i t (fst c) Ht Hz ltac:(lia))). done.
    + eexists. rewrite list_lookup_insert_eq by (by eapply lookup_lt_Some). split_and!; [done|cbn; lia|done].
Qed.

Lemma nz_take_S (ts : list Thread) j t : ts !! j = Some t -> nz (take (S j) ts) = nz (take j ts) ++ nzt t.
Proof. intros Ht. by rewrite (take_S_r _ _ _ Ht), nz_app, nz_cons, app_nil_r. Qed.

Lemma zero_idle w A live rest i t : Inv w A live rest -> threads_ w !! i = Some t -> tid_ t = 0 -> pending_ t = false.
Proof.
  intros HI Ht Hz. pose proof (inv_zero _ _ _ _ HI i t Ht Hz) as Hg. pose proof (inv_threads _ _ _ _ HI i t Ht) as Hok.
  unfold thread_ok in Hok. by rewrite Hg in Hok.
Qed.

(** A turn of [WaitForAllToQuiesce]. *)
Lemma quiesce_inv w A live rest j seen :
  Inv w A live rest -> quiesced (threads_ w) j seen ->
  match quiesce_turn j seen w with
  | Ok None => can_go w
  | Ok (Some (inl _)) => all_idle (threads_ w)
  | Ok (Some (inr (j, seen))) => quiesced (threads_ w) j seen
  | _ => False
  end.
Proof.
  intros HI (Q1 & Q2 & Q3). unfold quiesce_turn. rewrite (inv_num _ _ _ _ HI).
  assert (nz (threads_ w) = nz (take j (threads_ w)) ++ nz (drop j (threads_ w))) as Hsplit by (by rewrite <- nz_app, take_drop).
  destruct (Z.ltb_spec seen (zlen (nz (threads_ w)))) as [Hlt|Hge].
  - destruct (threads_ w !! j) as [t|] eqn:Ht.
    + pose proof (lookup_lt_Some _ _ _ Ht). destruct (Z.eqb_spec (tid_ t) 0) as [Ez|Ez].
      * split_and!; [|rewrite (nz_take_S _ _ _ Ht), zlen_app; unfold nzt; rewrite Ez; cbn; rewrite zlen_nil; lia|lia].
        intros i x Hi Hx. destruct (decide (i = j)) as [->|]; [simplify_eq; by eapply zero_idle|]. apply (Q1 i); [lia|done].
      * destruct (pending_ t) eqn:Hp; [by eapply pending_goes|].
        split_and!; [|rewrite (nz_take_S _ _ _ Ht), zlen_app; unfold nzt; rewrite (proj2 (Z.eqb_neq _ _)) by done; change (zlen [tid_ t]) with 1; lia|lia].
        intros i x Hi Hx. destruct (decide (i = j)) as [->|]; [by simplify_eq|]. apply (Q1 i); [lia|done].
    + apply lookup_ge_None in Ht. rewrite take_ge in Q2 by lia. lia.
  - intros i t Ht. destruct (decide (i < j)%nat); [by apply (Q1 i)|]. eapply zero_idle; [done..|].
    destruct (Z.eq_dec (tid_ t) 0) as [|Hz]; [done|exfalso].
    assert (tid_ t ∈ nz (drop j (threads_ w))) as Hin.
    { apply elem_of_nz. split; [done|]. exists (i - j)%nat, t. rewrite lookup_drop. replace (j + (i - j))%nat with i by lia. done. }
    rewrite Hsplit, zlen_app in Hge. destruct (nz (drop j (threads_ w))) as [|y l]; [by apply not_elem_of_nil in Hin|].
    rewrite zlen_cons in Hge. pose proof (zlen_nonneg l). lia.
Qed.

(** Parts of a thread that waits for an action. *)
Lemma waiting_parts t : pc t = WaitPending -> pending_ t = false -> busy t = [] /\ held t = [] /\ todo t = [] /\ gone t = [].
Proof. unfold busy, held, todo, gone. intros -> ->. done. Qed.

Lemma live_others w A live rest i t :
  Inv w A live rest -> threads_ w !! i = Some t -> pending_ t = false ->
  (map_to_list A).*1 ++ all_others todo i (threads_ w) ≡ₚ elements live ++ all_others gone i (threads_ w).
Proof.
  intros HI Ht Hp. destruct (idle_parts _ t Hp (inv_threads _ _ _ _ HI i t Ht)) as (_ & _ & E3 & E4).
  pose proof (parts_live _ _ _ _ HI _ t Ht) as H. by rewrite E3, E4 in H.
Qed.

(** [CreateAction] in the memory of a thread that waits. *)
Lemma set_action_inv w A live rest i t a p :
  Inv w A live rest -> joins (mpc w) = None -> threads_ w !! i = Some t -> tid_ t <> 0 -> pending_ t = false ->
  main_ok (set_mpc p (set_thread i (set_action a t) w)) live rest -> Inv (set_mpc p (set_thread i (set_action a t) w)) A live rest.
Proof.
  intros HI Hj Ht Hz Hp Hm. pose proof (idle_waits _ _ _ _ HI i t Ht Hp Hz ltac:(by rewrite Hj)) as Epc.
  destruct (waiting_parts (set_action a t)) as (E1 & E2 & E3 & E4); [done..|].
  apply (Inv_main_thread w A live rest i t); rewrite ?E3, ?E4; try done; cbn.
  - pose proof (Inv_quiet_but _ _ _ _ HI) as Hq. rewrite Hj in Hq. intros k x _ Hx. by apply (Hq k x).
  - unfold thread_ok. cbn. by rewrite Epc.
  - by rewrite Hp.
  - by rewrite Hp.
  - by rewrite Hp.
  - rewrite Epc. split; [done|lia].
  - rewrite (nz_insert i _ t) by done. apply (inv_num _ _ _ _ HI).
  - rewrite (nz_insert i _ t) by done. apply (inv_tids _ _ _ _ HI).
  - apply (inv_room _ _ _ _ HI).
  - apply (inv_above _ _ _ _ HI).
  - by apply (live_others w A live rest i t).
  - intros k Hk. by apply not_elem_of_nil in Hk.
Qed.

(** The keys behind a command. *)
Lemma live_after_elements live a :
  (forall k, alloc_key a = Some k -> k ∉ live ∖ match free_key a with Some k => {[k]} | None => ∅ end) ->
  (forall k, free_key a = Some k -> k ∈ live) ->
  option_list (alloc_key a) ++ elements live ≡ₚ elements (live_after live a) ++ option_list (free_key a).
Proof.
  intros Ha Hf. unfold live_after. set (X := live ∖ _) in *.
  assert (elements live ≡ₚ elements X ++ option_list (free_key a)) as H1.
  { unfold X. destruct (free_key a) as [k|]; cbn.
    - rewrite Permutation_app_comm. cbn.
      rewrite (union_difference_L {[k]} live) at 1 by (specialize (Hf k eq_refl); set_solver).
      rewrite elements_disj_union, elements_singleton by set_solver. done.
    - rewrite app_nil_r. by replace (live ∖ ∅) with live by set_solver. }
  rewrite H1, app_assoc. apply Permutation_app_tail. destruct (alloc_key a) as [k|]; cbn.
  - rewrite elements_union_singleton by (apply Ha; done). done.
  - by replace (∅ ∪ X) with X by set_solver.
Qed.

(** [SetPending]: the worker gets the command. *)
Lemma set_pending_inv w A live c cs i t p r :
  Inv w A live (c :: cs) -> joins (mpc w) = None -> threads_ w !! i = Some t -> tid_ t <> 0 -> pending_ t = false -> action_ t = snd c ->
  dump_valid (zlen (threads_ w)) live r (c :: cs) = true -> (DoesFree (snd c) = true -> all_idle (threads_ w)) ->
  p = (if EndThread (snd c) then MJoin i else if DoesFree (snd c) then MWaitAfter i else MLine) ->
  main_ok (set_mpc p (set_thread i (set_pending true t) w)) (live_after live (snd c)) cs ->
  Inv (set_mpc p (set_thread i (set_pending true t) w)) A (live_after live (snd c)) cs.
Proof.
  intros HI Hj Ht Hz Hp Ea Hv Hidle Hpeq Hm. pose proof (idle_waits _ _ _ _ HI i t Ht Hp Hz ltac:(by rewrite Hj)) as Epc.
  destruct (valid_cons _ _ _ _ _ Hv) as (Va & Vf & _ & _).
  pose proof (live_after_elements live (snd c) (fun k Hk => proj2 (Va k Hk)) Vf) as Hel.
  pose proof (live_others _ _ _ _ i t HI Ht Hp) as Hlive.
  assert (EndThread (snd c) = true -> DoesFree (snd c) = true -> False) as Hne by (by destruct (snd c)).
  apply (Inv_main_thread w A live (c :: cs) i t); try done; cbn.
  - pose proof (Inv_quiet_but _ _ _ _ HI) as Hq. rewrite Hj in Hq. intros k x _ Hx. by apply (Hq k x).
  - unfold busy. cbn. by rewrite Epc.
  - unfold held. cbn. by rewrite Epc.
  - unfold thread_ok. cbn. by rewrite Epc.
  - intros _. rewrite Ea. split; [intros k Hk; by apply Va|intros k Hk; by apply (inv_above _ _ _ _ HI), Vf].
  - intros _ Hd. rewrite Ea in Hd. split; [|auto]. rewrite Hpeq, Hd. destruct (EndThread (snd c)); [by destruct (Hne eq_refl)|done].
  - intros _ He. rewrite Ea in He. rewrite Hpeq, He. by left.
  - rewrite Epc. split; [done|lia].
  - rewrite (nz_insert i _ t) by done. apply (inv_num _ _ _ _ HI).
  - rewrite (nz_insert i _ t) by done. apply (inv_tids _ _ _ _ HI).
  - pose proof (inv_room _ _ _ _ HI) as Hroom. rewrite zlen_cons in Hroom. apply Permutation_length in Hel. rewrite !length_app in Hel.
    unfold size, set_size in *. cbn in *. destruct (alloc_key (snd c)); cbn in Hel; lia.
  - intros k Hk. unfold live_after in Hk. apply elem_of_union in Hk as [Hk|Hk].
    + destruct (alloc_key (snd c)) as [k'|] eqn:E; [|set_solver]. apply elem_of_singleton in Hk as ->. by apply Va.
    + apply (inv_above _ _ _ _ HI). set_solver.
  - unfold todo at 1, gone at 1. cbn. rewrite Epc, Ea. rewrite (app_assoc (elements _)), <- Hel, <- app_assoc, <- Hlive.
    rewrite !app_assoc. apply Permutation_app_tail. by rewrite Permutation_app_comm.
  - intros k. unfold gone. cbn. rewrite Epc, Ea. destruct (free_key (snd c)) as [k'|] eqn:Ef; [|by intros ?%not_elem_of_nil].
    intros ->%list_elem_of_singleton. specialize (Vf k' eq_refl).
    assert (all_idle (threads_ w)) as Hall by (apply Hidle, DoesFree_key; by rewrite Ef).
    assert (forall j x, j <> i -> threads_ w !! j = Some x -> todo x = [] /\ gone x = []) as Hx.
    { intros j x _ Hx. by destruct (idle_parts (pointers_ w) x (Hall j x Hx) (inv_threads _ _ _ _ HI j x Hx)) as (_ & _ & ? & ?). }
    rewrite (all_others_nil todo), (all_others_nil gone), !app_nil_r in Hlive by (intros; by eapply Hx).
    assert (k' ∈ (map_to_list A).*1) as ([k2 m] & -> & Hin)%list_elem_of_fmap by (rewrite Hlive; by apply elem_of_elements).
    apply elem_of_map_to_list in Hin. by eexists.
Qed.

(** [Finish] of a thread that has ended. *)
Lemma finished_nz (ts : list Thread) i t :
  ts !! i = Some t -> tid_ t <> 0 -> nz ts ≡ₚ tid_ t :: nz (<[i := set_tid 0 t]> ts).
Proof.
  intros Ht Hz. rewrite !nz_all, (all_insert nzt i _ t _ Ht), (all_at nzt i _ t Ht). unfold nzt at 1 3. cbn [set_tid tid_].
  by rewrite (proj2 (Z.eqb_neq _ _)).
Qed.

Lemma finish_inv w A live rest i t p :
  Inv w A live rest -> joins (mpc w) = Some i -> threads_ w !! i = Some t -> tid_ t <> 0 -> pc t = Gone ->
  main_ok (set_mpc p (Finish i t w)) live rest -> Inv (set_mpc p (Finish i t w)) A live rest.
Proof.
  intros HI Hj Ht Hz Hg Hm. pose proof (inv_threads _ _ _ _ HI i t Ht) as Hp. unfold thread_ok in Hp. rewrite Hg in Hp.
  pose proof (finished_nz _ _ _ Ht Hz) as Hnz. set (t' := set_tid 0 t) in *.
  assert (busy t' = [] /\ held t' = [] /\ todo t' = [] /\ gone t' = []) as (E1 & E2 & E3 & E4) by (unfold t', busy, held, todo, gone; cbn; by rewrite Hg).
  apply (Inv_main_thread w A live rest i t); rewrite ?E3, ?E4; try done; fold t'; cbn.
  - pose proof (Inv_quiet_but _ _ _ _ HI) as Hq. by rewrite Hj in Hq.
  - unfold thread_ok. cbn. by rewrite Hg.
  - by rewrite Hp.
  - by rewrite Hp.
  - by rewrite Hp.
  - rewrite (inv_num _ _ _ _ HI). unfold zlen. rewrite Hnz. cbn. lia.
  - pose proof (inv_tids _ _ _ _ HI) as Hnd. rewrite Hnz in Hnd. by apply list.NoDup_cons in Hnd as [_ ?].
  - apply (inv_room _ _ _ _ HI).
  - apply (inv_above _ _ _ _ HI).
  - rewrite E3, E4. by apply (live_others w A live rest i t).
  - rewrite E4. intros k Hk. by apply not_elem_of_nil in Hk.
Qed.

(** [FinishAll] sends the last action. *)
Lemma finish_send_inv w A live i t :
  Inv w A live [] -> joins (mpc w) = None -> threads_ w !! i = Some t -> tid_ t <> 0 -> pending_ t = false ->
  let w' := set_mpc (MFinishJoin i) (set_thread i (set_pending true (set_action EndThreadAction t)) w) in
  main_ok w' live [] -> Inv w' A live [].
Proof.
  intros HI Hj Ht Hz Hp w' Hm. unfold w' in *. pose proof (idle_waits _ _ _ _ HI i t Ht Hp Hz ltac:(by rewrite Hj)) as Epc.
  set (t' := set_pending true _) in *.
  assert (busy t' = [] /\ held t' = [] /\ todo t' = [] /\ gone t' = []) as (E1 & E2 & E3 & E4) by (unfold t', busy, held, todo, gone; cbn; by rewrite Epc).
  apply (Inv_main_thread w A live [] i t); rewrite ?E3, ?E4; try done; cbn.
  - pose proof (Inv_quiet_but _ _ _ _ HI) as Hq. rewrite Hj in Hq. intros k x _ Hx. by apply (Hq k x).
  - unfold thread_ok. cbn. by rewrite Epc.
  - auto.
  - rewrite Epc. split; [done|lia].
  - rewrite (nz_insert i _ t) by done. apply (inv_num _ _ _ _ HI).
  - rewrite (nz_insert i _ t) by done. apply (inv_tids _ _ _ _ HI).
  - apply (inv_room _ _ _ _ HI).
  - apply (inv_above _ _ _ _ HI).
  - by apply (live_others w A live [] i t).
  - intros k Hk. by apply not_elem_of_nil in Hk.
Qed.

(** * A step of the main thread *)

(** Freeing what is left: [K] are the keys behind the dump. *)
Definition Fin (w : World) (A : gmap Z Z) (K : gset Z) : Prop :=
  (forall i t, threads_ w !! i = Some t -> pc t = Gone) /\ heap_ok (heap w) A /\
  (table_pairs [] (pointers_ w)).*1 ≡ₚ elements K /\
  match mpc w with
  | MFreeAll j => (j <= length (pointers_ w))%nat /\ map_to_list A ≡ₚ table_pairs [] (drop j (pointers_ w))
  | MDone => A = ∅
  | _ => False
  end.

Definition Phase (w : World) (A : gmap Z Z) (K : gset Z) : Prop :=
  (exists live rest, Inv w A live rest /\ live_keys live rest = K) \/ Fin w A K.

Definition good_step (w : World) (A : gmap Z Z) (K : gset Z) (r : res (option (World * list event))) : Prop :=
  match r with
  | Ok None => can_go w \/ mpc w = MDone
  | Ok (Some (w', ev)) => exists A', spec_run A ev = Some A' /\ Phase w' A' K
  | _ => False
  end.

Lemma quiet_step_ok w A live rest K w' live' rest' :
  live_keys live rest = K -> live_keys live' rest' = live_keys live rest -> Inv w' A live' rest' -> good_step w A K (Ok (Some (w', []))).
Proof. intros HK HK' HI'. exists A. split; [done|]. left. exists live', rest'. split; [done|congruence]. Qed.

Lemma table_pairs_nil tbl : table_pairs [] tbl = mjoin ((fun d => slot_pairs [] 0 d) <$> tbl).
Proof.
  unfold table_pairs. f_equal. rewrite <- (imap_const (fun d => slot_pairs [] 0 d)). apply imap_ext. intros j d _. unfold slot_pairs.
  by rewrite !bool_decide_false by apply not_elem_of_nil.
Qed.

(** All threads have ended. *)
Lemma free_all_start w A live :
  Inv w A live [] -> nz (threads_ w) = [] -> Fin (set_mpc (MFreeAll 0) w) A live.
Proof.
  intros HI Hn. assert (forall i t, threads_ w !! i = Some t -> pc t = Gone) as Hg.
  { intros i t Ht. destruct (Z.eq_dec (tid_ t) 0) as [|Hz]; [by eapply inv_zero|exfalso].
    assert (tid_ t ∈ nz (threads_ w)) as H by (apply elem_of_nz; eauto). rewrite Hn in H. by apply not_elem_of_nil in H. }
  assert (forall {B} (f : Thread -> list B), (forall t, pc t = Gone -> f t = []) -> all f (threads_ w) = []) as Hall.
  { intros B f Hf. unfold all. destruct (mjoin _) as [|y l] eqn:E; [done|].
    assert (y ∈ mjoin (imap (fun _ => f) (threads_ w))) as (i & t & Ht & Hy)%elem_of_join_imap by (rewrite E; by left).
    rewrite (Hf t) in Hy by eauto. by apply not_elem_of_nil in Hy. }
  pose proof (inv_pairs _ _ _ _ HI) as Hp. pose proof (inv_live _ _ _ _ HI) as Hl.
  rewrite (Hall _ busy), (Hall _ held), app_nil_r in Hp by (intros t E; unfold busy, held; by rewrite E).
  rewrite (Hall _ todo), (Hall _ gone), !app_nil_r in Hl by (intros t E; unfold todo, gone; by rewrite E).
  split; [done|]. split; [apply (Inv_heap_ok w A live [] HI)|]. split; [cbn; by rewrite <- Hp|]. split; [lia|exact Hp].
Qed.

Lemma free_all_step w A K : Fin w A K -> good_step w A K (main_step w).
Proof.
  intros (Hg & Hh & HK & Hm). unfold main_step. destruct (mpc w) eqn:Em; try done; [|by right].
  destruct Hm as [Hj Hp]. destruct (pointers_ w !! i) as [d|] eqn:Hd.
  - pose proof (lookup_lt_Some _ _ _ Hd) as Hlt.
    assert (table_pairs [] (drop i (pointers_ w)) = slot_pairs [] 0 d ++ table_pairs [] (drop (S i) (pointers_ w))) as Hsplit.
    { by rewrite !table_pairs_nil, (drop_S _ _ _ Hd). }
    rewrite Hsplit in Hp. unfold slot_pairs in Hp. rewrite bool_decide_false in Hp by apply not_elem_of_nil.
    destruct (Z.eqb_spec (key_pointer d) 0) as [E|E]; cbn [negb].
    + exists A. split; [done|]. right. split; [done|]. split; [done|]. split; [done|]. split; [cbn; lia|exact Hp].
    + assert (A !! key_pointer d = Some (pointer d)) as HA by (apply elem_of_map_to_list; rewrite Hp; by left).
      destruct (heap_remove _ _ _ _ Hh HA) as (F1 & F2 & F3). rewrite F1. cbn [mbind res_bind]. exists (delete (key_pointer d) A).
      split; [cbn; by rewrite F3|]. right. split; [done|]. split; [done|]. split; [done|]. split; [cbn; lia|].
      rewrite <- (map_to_list_delete _ _ _ HA) in Hp. cbn in Hp. by apply Permutation_cons_inv in Hp.
  - apply lookup_ge_None in Hd. exists A. split; [done|]. right. split; [done|]. split; [done|]. split; [done|]. cbn. rewrite drop_ge in Hp by lia.
    by apply map_to_list_empty_iff, Permutation_nil_r.
Qed.

Lemma main_step_inv w A live rest : Inv w A live rest -> good_step w A (live_keys live rest) (main_step w).
Proof.
  intros HI. pose proof (inv_main _ _ _ _ HI) as Hm. pose proof (Inv_quiet_but _ _ _ _ HI) as Hq.
  unfold main_ok in Hm. unfold main_step. destruct (mpc w) as [|i key ty args|i j seen|i|i|i|j seen|i|i|i|] eqn:Em; cbn [joins] in Hq.
  - destruct (next_line_inv w A live rest HI Em) as (w' & -> & HI'). cbn [mbind res_bind]. by eapply quiet_step_ok.
  - destruct Hm as (c & cs & r & -> & Hin & Hact & Hv & Hr & t & Ht & Hz & Et). rewrite Ht.
    destruct (pending_ t) eqn:Hp; [left; by eapply pending_goes|]. rewrite Hact. eapply quiet_step_ok; [done..|].
    apply set_action_inv; try done; [by rewrite Em|].
    assert (exists x, <[i := set_action (snd c) t]> (threads_ w) !! i = Some x /\ tid_ x <> 0 /\ tid_ x = fst c /\ action_ x = snd c /\ pending_ x = false) as Hat.
    { eexists. rewrite list_lookup_insert_eq by (by eapply lookup_lt_Some). split_and!; done. }
    assert (zlen (<[i := set_action (snd c) t]> (threads_ w)) = zlen (threads_ w)) as Hzl by (unfold zlen; by rewrite length_insert).
    destruct (DoesFree (snd c)) eqn:Ed; unfold main_ok; cbn [mpc set_mpc threads_ set_thread]; rewrite (nz_insert i _ t), Hzl by done;
      exists c, cs, r; split_and!; try done.
    + split_and!; [|done|lia]. intros k x Hk. lia.
    + congruence.
  - destruct Hm as (c & cs & r & -> & Hin & Hv & Hr & Hat & Hqu). pose proof (quiesce_inv _ _ _ _ _ _ HI Hqu) as Hturn.
    destruct (quiesce_turn j seen w) as [[[[]|[j' seen']]|]| |]; cbn [mbind res_bind]; try done.
    + eapply quiet_step_ok; [done..|]. apply (Inv_mpc w A live _ (line_buf w) (dump_fd w) _ HI Hq). cbn. exists c, cs, r. split_and!; done.
    + eapply quiet_step_ok; [done..|]. apply (Inv_mpc w A live _ (line_buf w) (dump_fd w) _ HI Hq). cbn. exists c, cs, r. split_and!; done.
    + by left.
  - destruct Hm as (c & cs & r & -> & Hin & Hv & Hr & (t & Ht & Hz & Et & Ea & Hp) & Hidle). rewrite Ht, Ea.
    apply (quiet_step_ok w A live (c :: cs) _ _ (live_after live (snd c)) cs); [done..|].
    apply (set_pending_inv w A live c cs i t _ r); try done; [by rewrite Em|]. destruct (valid_cons _ _ _ _ _ Hv) as (_ & _ & _ & Hv').
    unfold main_ok. cbn [mpc set_mpc threads_ set_thread]. rewrite (nz_insert i _ t) by done.
    assert (zlen (<[i := set_pending true t]> (threads_ w)) = zlen (threads_ w)) as -> by (unfold zlen; by rewrite length_insert).
    unfold running_after in Hv'. rewrite Hr.
    assert (exists x, <[i := set_pending true t]> (threads_ w) !! i = Some x /\ x = set_pending true t) as (x & Hx & ->).
    { rewrite list_lookup_insert_eq by (by eapply lookup_lt_Some). eauto. }
    destruct (EndThread (snd c)) eqn:Ee; [|destruct (DoesFree (snd c)) eqn:Ed; [|done]].
    + exists (r ∖ {[fst c]}). split_and!; [done|done|]. exists (set_pending true t). cbn. rewrite Et, Ea. split_and!; try done; [lia| |set_solver|by left].
      apply set_eq. intros x. rewrite !elem_of_union, elem_of_difference, elem_of_singleton. destruct (decide (x = fst c)); naive_solver.
    + split_and!; [done|done|]. exists (set_pending true t). cbn. rewrite Ea. split_and!; done.
  - destruct Hm as (r & Hin & Hv & t & Ht & Hz & Hr & Hnr & He & Hpg). rewrite Ht.
    destruct (pc t) eqn:Epc; try (left; eapply pending_goes; [done..|]; by destruct Hpg as [?|?]).
    eapply quiet_step_ok; [done..|]. apply finish_inv; try done; [by rewrite Em|]. unfold main_ok. cbn [mpc set_mpc Finish threads_ set_num set_total set_thread].
    split; [done|]. assert (zlen (<[i := set_tid 0 t]> (threads_ w)) = zlen (threads_ w)) as -> by (unfold zlen; by rewrite length_insert).
    pose proof (finished_nz _ _ _ Ht Hz) as Hnz. pose proof (inv_tids _ _ _ _ HI) as Hnd. rewrite Hnz in Hnd. apply list.NoDup_cons in Hnd as [Hnd _].
    replace (list_to_set (nz (<[i := set_tid 0 t]> (threads_ w)))) with r; [done|].
    rewrite (set_of_perm _ _ Hnz) in Hr. cbn in Hr. apply set_eq. intros x. pose proof (proj1 (set_eq _ _) Hr x) as Hx.
    rewrite !elem_of_union, elem_of_singleton, elem_of_list_to_set in Hx. rewrite elem_of_list_to_set. destruct (decide (x = tid_ t)); naive_solver.
  - destruct Hm as (Hin & Hv & t & Ht & Hz & Hd). rewrite Ht. destruct (pending_ t) eqn:Hp; [left; by eapply pending_goes|].
    eapply quiet_step_ok; [done..|]. apply (Inv_mpc w A live _ (line_buf w) (dump_fd w) _ HI); [|done].
    intros k x _ Hx. destruct (decide (k = i)) as [->|Hk]; [|apply (Hq k x); [congruence|done]]. rewrite Ht in Hx. injection Hx as <-. split; [congruence|].
    intros Hg. by destruct (inv_gone _ _ _ _ HI i t Ht Hg) as [?|[E|E]]; [|rewrite Em in E..].
  - destruct Hm as [-> Hqu]. pose proof (quiesce_inv _ _ _ _ _ _ HI Hqu) as Hturn.
    destruct (quiesce_turn j seen w) as [[[[]|[j' seen']]|]| |]; cbn [mbind res_bind]; try done.
    + eapply quiet_step_ok; [done..|]. apply (Inv_mpc w A live _ (line_buf w) (dump_fd w) _ HI Hq). cbn. split_and!; try done. lia.
    + eapply quiet_step_ok; [done..|]. apply (Inv_mpc w A live _ (line_buf w) (dump_fd w) _ HI Hq). cbn. done.
    + by left.
  - destruct Hm as (-> & Hidle & Hi & Hnz). destruct (threads_ w !! i) as [t|] eqn:Ht.
    + destruct (Z.eqb_spec (tid_ t) 0) as [Ez|Ez]; cbn [negb].
      * eapply quiet_step_ok; [done..|]. apply (Inv_mpc w A live _ (line_buf w) (dump_fd w) _ HI Hq). unfold main_ok. cbn [mpc set_mpc threads_ set_input]. split_and!; try done.
        -- by apply lookup_lt_Some in Ht.
        -- rewrite (nz_take_S _ _ _ Ht), Hnz. unfold nzt. by rewrite Ez.
      * eapply quiet_step_ok; [done..|]. apply finish_send_inv; try done; [by rewrite Em|by eapply Hidle|].
        unfold main_ok. cbn [mpc set_mpc threads_ set_thread]. rewrite (nz_take_insert i i _ t) by done. split_and!; try done.
        -- intros j x Hj Hx. rewrite list_lookup_insert_ne in Hx by done. by eapply Hidle.
        -- eexists. rewrite list_lookup_insert_eq by (by eapply lookup_lt_Some). cbn. split_and!; try done. by left.
    + apply lookup_ge_None in Ht. exists A. split; [done|]. right. apply free_all_start; [done|]. by rewrite take_ge in Hnz by lia.
  - destruct Hm as (-> & Hidle & Hnz & t & Ht & Hz & He & Hpg). rewrite Ht.
    destruct (pc t) eqn:Epc; try (left; eapply pending_goes; [done..|]; by destruct Hpg as [?|?]).
    eapply quiet_step_ok; [done..|]. apply finish_inv; try done; [by rewrite Em|]. pose proof (lookup_lt_Some _ _ _ Ht) as Hlt.
    assert (<[i := set_tid 0 t]> (threads_ w) !! i = Some (set_tid 0 t)) as Hx by (by apply list_lookup_insert_eq).
    pose proof (inv_threads _ _ _ _ HI i t Ht) as Hok. unfold thread_ok in Hok. rewrite Epc in Hok.
    unfold main_ok. cbn [mpc set_mpc Finish threads_ set_num set_total set_thread]. split_and!; try done.
    + intros j x Hj. apply list_lookup_insert_Some in Hj as [(-> & <- & _)|(? & Hj)]; [done|by eapply Hidle].
    + rewrite length_insert. lia.
    + rewrite (nz_take_S _ _ _ Hx), take_insert_ge, Hnz by lia. done.
  - done.
  - done.
Qed.
