(* ===== verification/MemSafe.v ===== *)
(** The theorems about the replay of a dump: it is safe and does to the
    allocator what the dump says, whatever the threads and the kernel do; it
    always ends; and nothing is left allocated. *)
From stdpp Require Import base gmap list numbers.
From Stdlib Require Import ZArith Lia.
From S2P Require Import Prelude Utils KernelSymbols MemLine MemReplay MemInv MemWorker MemMain.

(** * The start *)

(** The program run on a dump: it is read twice from its beginning, in pieces
    of any sizes. *)
Record replay_ok (pagesize sizeof_Thread max_threads : Z) (g_buffer : bytes) (fd1 fd2 : Fd) (cmds : list (Z * Action)) : Prop := {
  ro_page : exists k, 4 <= k <= 30 /\ pagesize = 2 ^ k;
  ro_sizeof : 0 < sizeof_Thread;
  ro_max : 0 < max_threads /\ max_threads * sizeof_Thread < 2 ^ 62;
  ro_buffer : 96 <= zlen g_buffer < 2 ^ 63;
  ro_reads : reads_ok fd1 /\ reads_ok fd2;
  ro_dump : fd_rest fd1 = dump cmds /\ fd_rest fd2 = dump cmds;
  ro_cmds : Forall cmd_ok cmds;
  ro_some : 0 < zlen cmds < 2 ^ 50;
  ro_valid : dump_valid max_threads ∅ ∅ cmds = true;
}.

(** [main] up to the loop of [ProcessDump]. *)
Definition replay_start (pagesize sizeof_Thread max_threads : Z) (g_buffer : bytes) (fd1 fd2 : Fd) : res World :=
  max_allocs ← GetMaxAllocs g_buffer fd1;
  ProcessDump_start pagesize sizeof_Thread max_allocs max_threads g_buffer fd2.

Lemma dump_valid_mono M M' cmds : forall live r, M <= M' -> dump_valid M live r cmds = true -> dump_valid M' live r cmds = true.
Proof.
  induction cmds as [|c cmds IH]; intros live r HM; [done|]. cbn [dump_valid]. rewrite !andb_true_iff. intros [[[H1 H2] H3] H4].
  split_and!; try done; [lia|by apply IH].
Qed.

Lemma all_gone_nil {B} (f : Thread -> list B) ts :
  (forall i t, ts !! i = Some t -> f t = []) -> all f ts = [].
Proof.
  intros Hf. unfold all. destruct (mjoin _) as [|y l] eqn:E; [done|].
  assert (y ∈ mjoin (imap (fun _ => f) ts)) as (i & t & Ht & Hy)%elem_of_join_imap by (rewrite E; by left).
  rewrite (Hf i t Ht) in Hy. by apply not_elem_of_nil in Hy.
Qed.

(** The sizes of the tables. *)
Lemma table_size v k size :
  4 <= k <= 30 -> 0 < v < 2 ^ 62 -> 0 < size -> exists n, n = Align v (2 ^ k) /\ 0 < n /\ v / size <= n / size.
Proof.
  intros Hk Hv Hs. assert (2 ^ k <= 2 ^ 30) by (apply Z.pow_le_mono_r; lia).
  destruct (Align_spec v k) as [[H1 _] _]; [lia..|]. exists (Align v (2 ^ k)). split_and!; [done|lia|]. apply Z.div_le_mono; lia.
Qed.

Lemma replay_start_ok pagesize sizeof_Thread max_threads g_buffer fd1 fd2 cmds :
  replay_ok pagesize sizeof_Thread max_threads g_buffer fd1 fd2 cmds ->
  exists w, replay_start pagesize sizeof_Thread max_threads g_buffer fd1 fd2 = Ok w /\ Inv w ∅ ∅ cmds.
Proof.
  intros [(k & Hk & ->) Hs [Hm1 Hm2] Hg [Hr1 Hr2] [Hd1 Hd2] Hc Hn Hv]. unfold replay_start.
  rewrite (GetMaxAllocs_counts_lines _ _ cmds) by (done || lia). cbn [mbind res_bind]. unfold ProcessDump_start, Pointers_new, Threads_new.
  rewrite (u64_small (zlen cmds * 4)) by (unfold is_u64; lia).
  rewrite (u64_small (zlen cmds * 4 * sizeof_pointer_data)) by (unfold is_u64, sizeof_pointer_data; lia).
  rewrite (u64_small (max_threads * sizeof_Thread)) by (unfold is_u64; lia).
  destruct (table_size (zlen cmds * 4 * sizeof_pointer_data) k sizeof_pointer_data) as (n & <- & Hn0 & Hnd); [done|unfold sizeof_pointer_data; lia|done|].
  destruct (table_size (max_threads * sizeof_Thread) k sizeof_Thread) as (m & <- & Hm0 & Hmd); [done|lia|done|].
  rewrite Z.div_mul in Hnd by done. rewrite Z.div_mul in Hmd by lia.
  rewrite !(proj2 (Z.eqb_neq _ 0)) by lia. cbn [mbind res_bind]. eexists. split; [done|].
  set (tbl := replicate _ (mkPointerData 0 0)). set (ts := replicate _ (mkThread 0 false EndThreadAction 0 Gone)).
  assert (zlen cmds < zlen tbl) as Htbl by (unfold tbl; rewrite zlen_replicate; lia).
  assert (max_threads <= zlen ts) as Hts by (unfold ts; rewrite zlen_replicate; lia).
  assert (forall i t, ts !! i = Some t -> t = mkThread 0 false EndThreadAction 0 Gone) as Ht by (intros i t H; by apply lookup_replicate in H as [-> _]).
  assert (forall j d, tbl !! j = Some d -> d = mkPointerData 0 0) as Hd by (intros j d H; by apply lookup_replicate in H as [-> _]).
  assert (nz ts = []) as Hnz.
  { destruct (nz ts) as [|x l] eqn:E; [done|]. assert (x ∈ nz ts) as (Hx & i & t & Hi & <-)%elem_of_nz by (rewrite E; by left).
    apply Ht in Hi as ->. done. }
  assert (forall {B} (f : Thread -> list B), f (mkThread 0 false EndThreadAction 0 Gone) = [] -> all f ts = []) as Hall.
  { intros B f Hf. apply all_gone_nil. intros i t Hi. by rewrite (Ht i t Hi). }
  split; cbn [pointers_ heap threads_ num_threads_ mpc].
  - rewrite size_empty. lia.
  - intros i t Hi. by rewrite (Ht i t Hi).
  - intros i t Hi. by rewrite (Ht i t Hi).
  - intros i t Hi. by rewrite (Ht i t Hi).
  - intros i t Hi. by rewrite (Ht i t Hi).
  - intros i t Hi _. left. by rewrite (Ht i t Hi).
  - intros i t Hi _. by rewrite (Ht i t Hi).
  - by rewrite Hnz.
  - rewrite Hnz. constructor.
  - rewrite (Hall _ busy) by done. constructor.
  - intros j d Hj _. left. by rewrite (Hd j d Hj).
  - rewrite (Hall _ held), (Hall _ busy), app_nil_r, map_to_list_empty by done.
    destruct (table_pairs [] tbl) as [|[k' p] l] eqn:E; [done|].
    assert ((k', p) ∈ table_pairs [] tbl) as (j & d & Hj & _ & Hne & _)%elem_of_table_pairs by (rewrite E; by left).
    by rewrite (Hd j d Hj) in Hne.
  - intros a. split; [set_solver|]. intros [k' Hk']. by rewrite lookup_empty in Hk'.
  - intros k1 k2 a H. by rewrite lookup_empty in H.
  - intros k' a H. by rewrite lookup_empty in H.
  - rewrite (Hall _ todo), (Hall _ gone), map_to_list_empty, elements_empty by done. done.
  - set_solver.
  - intros k' Hk'. rewrite (Hall _ gone) in Hk' by done. by apply not_elem_of_nil in Hk'.
  - split.
    + unfold input_ok. cbn [line_buf dump_fd]. change (unread (LineBuffer_new g_buffer) fd2) with (fd_rest fd2).
      rewrite Hd2, dump_lines by done. unfold lb_ok, LineBuffer_new. cbn [buffer_ start_ bytes_].
      split_and!; (done || lia).
    + cbn [threads_]. rewrite Hnz. by apply (dump_valid_mono max_threads).
Qed.

(** * Executions *)

Section executions.
Context `{NeverNull}.

Lemma step_phase w A K ev w' : Phase w A K -> step w ev w' -> exists A', spec_run A ev = Some A' /\ Phase w' A' K.
Proof.
  intros HP Hs. destruct Hs as [w w' ev Hs|memory nsecs i t w w' ev Ht Hr Hs].
  - destruct HP as [(live & rest & HI & <-)|HF].
    + pose proof (main_step_inv w A live rest HI) as HG. by rewrite Hs in HG.
    + pose proof (free_all_step w A K HF) as HG. by rewrite Hs in HG.
  - destruct HP as [(live & rest & HI & <-)|HF].
    + pose proof (worker_step_inv w A live rest i t memory nsecs HI Ht Hr) as HG. rewrite Hs in HG.
      destruct HG as (_ & A' & HA & HI'). exists A'. split; [done|]. left. eauto.
    + destruct HF as (Hg & _). unfold worker_step in Hs. by rewrite Ht, (Hg i t Ht) in Hs.
Qed.

Lemma spec_run_app A tr1 tr2 : spec_run A (tr1 ++ tr2) = A' ← spec_run A tr1; spec_run A' tr2.
Proof.
  revert A. induction tr1 as [|e tr1 IH]; intros A; [done|]. cbn [app spec_run]. destruct (spec_event A e); [apply IH|done].
Qed.

Lemma steps_phase w A K tr w' : Phase w A K -> steps w tr w' -> exists A', spec_run A tr = Some A' /\ Phase w' A' K.
Proof.
  intros HP Hs. induction Hs as [|w tr w1 ev w2 Hs IH Hst]; [by exists A|]. destruct (IH HP) as (A1 & H1 & HP1).
  destruct (step_phase _ _ _ _ _ HP1 Hst) as (A2 & H2 & HP2). exists A2. split; [|done]. rewrite spec_run_app, H1. done.
Qed.

Lemma phase_no_failure w A K : Phase w A K -> no_failure w.
Proof.
  intros [(live & rest & HI & <-)|HF]; split.
  - pose proof (main_step_inv w A live rest HI) as HG. by destruct (main_step w).
  - intros memory nsecs i t Ht Hr. pose proof (worker_step_inv w A live rest i t memory nsecs HI Ht Hr) as HG. by destruct (worker_step _ _ _ _).
  - pose proof (free_all_step w A K HF) as HG. by destruct (main_step w).
  - intros memory nsecs i t Ht Hr. destruct HF as (Hg & _). unfold worker_step. by rewrite Ht, (Hg i t Ht).
Qed.

Lemma phase_heap w A K : Phase w A K -> forall a, a ∈ heap w <-> exists k, A !! k = Some a.
Proof. intros [(live & rest & HI & _)|(_ & (Hh & _) & _)]; [apply (inv_heap _ _ _ _ HI)|done]. Qed.

Lemma phase_progress w A K : Phase w A K -> mpc w = MDone \/ exists ev w', step w ev w'.
Proof.
  intros HP. assert (good_step w A K (main_step w)) as HG.
  { destruct HP as [(live & rest & HI & <-)|HF]; [by apply main_step_inv|by apply free_all_step]. }
  destruct (main_step w) as [[[w' ev]|]| |] eqn:E; try done; [right; exists ev, w'; by apply step_main|].
  destruct HG as [(i & t & Ht & Hw)|HD]; [|by left]. right. destruct (returns_some (alloc_heap t (heap w))) as [memory Hr].
  destruct HP as [(live & rest & HI & <-)|(Hg & _)]; [|destruct Hw; left; eauto].
  pose proof (worker_step_inv w A live rest i t memory 0 HI Ht Hr) as HW.
  destruct (worker_step memory 0 i w) as [[[w' ev]|]| |] eqn:Ew; try done. exists ev, w'. by eapply step_worker.
Qed.
End executions.
