(* ===== verification/MemEnd.v ===== *)
(** The replay ends: each step of the machine of MemReplay.v decreases a
    measure. *)
From stdpp Require Import base gmap list numbers.
From Stdlib Require Import ZArith Lia.
From S2P Require Import Prelude Utils KernelSymbols MemLine MemReplay MemInv MemWorker MemMain MemSafe.

(** * The measure *)

Section measure.
Context (n m : Z). (* the sizes of the tables of pointers and of threads *)

(** The steps a worker can still take before it waits. *)
Definition worker_left (t : Thread) : Z :=
  match pc t with
  | Gone => 0
  | WaitPending => if pending_ t then 2 * n + 10 else 0
  | Start => 2 * n + 9
  | FindAt _ _ entries => n + 8 + entries
  | ReadPtr _ => n + 7
  | ClearKey _ _ => n + 6
  | CallAlloc _ => n + 5
  | EmptyAt _ _ entries => 4 + (n - entries)
  | StoreKey _ _ => 3
  | StorePtr _ _ => 2
  | CallFree _ => 2
  | Finished => 1
  end.

Definition action_cost : Z := 2 * n + 10.
Definition line_cost : Z := action_cost + m + 10.
Definition free_cost : Z := n + 2.
Definition finish_cost : Z := m * (action_cost + 3) + free_cost + 1.
Definition end_cost : Z := m + 2 + finish_cost.

(** The steps of the main thread, and of the workers with the actions it still
    sends them; [text] is the unread text. *)
Definition main_left (p : mainpc) (text : bytes) : Z :=
  let lines := zlen text * line_cost + end_cost + 1 in
  match p with
  | MLine => lines
  | MReady _ _ _ _ => lines + action_cost + m + 8
  | MQuiesce _ j _ => lines + action_cost + (m - Z.of_nat j) + 6
  | MSetPending _ => lines + action_cost + 4
  | MJoin _ | MWaitAfter _ => lines + 1
  | MFinalQuiesce j _ => (m - Z.of_nat j) + 1 + finish_cost
  | MFinishAll i => (m - Z.of_nat i) * (action_cost + 3) + free_cost
  | MFinishJoin i => (m - Z.of_nat i - 1) * (action_cost + 3) + free_cost + 1
  | MFreeAll j => n - Z.of_nat j + 1
  | MDone => 0
  end.
End measure.

Definition workers_left (n : Z) (ts : list Thread) : Z := foldr (fun t z => worker_left n t + z) 0 ts.

Definition steps_left (w : World) : Z :=
  let n := zlen (pointers_ w) in let m := zlen (threads_ w) in
  main_left n m (mpc w) (unread (line_buf w) (dump_fd w)) + workers_left n (threads_ w).

Lemma workers_left_insert n ts i t t' :
  ts !! i = Some t -> workers_left n (<[i := t']> ts) = workers_left n ts - worker_left n t + worker_left n t'.
Proof.
  revert i. induction ts as [|x ts IH]; intros i Hi; [done|]. destruct i as [|i]; cbn in Hi.
  - injection Hi as ->. change (worker_left n t' + workers_left n ts = worker_left n t + workers_left n ts - worker_left n t + worker_left n t'). lia.
  - change (worker_left n x + workers_left n (<[i := t']> ts) = worker_left n x + workers_left n ts - worker_left n t + worker_left n t').
    rewrite (IH i Hi). lia.
Qed.

Lemma worker_left_nonneg tbl t : thread_ok tbl t -> 0 <= worker_left (zlen tbl) t.
Proof.
  pose proof (zlen_nonneg tbl). unfold thread_ok, worker_left. destruct (pc t); try lia.
  - destruct (pending_ t); lia.
  - intros (H1 & H2 & H3 & H4 & H5). lia.
Qed.

Lemma workers_left_nonneg tbl ts : (forall i t, ts !! i = Some t -> thread_ok tbl t) -> 0 <= workers_left (zlen tbl) ts.
Proof.
  induction ts as [|t ts IH]; intros Hok; [done|]. change (0 <= worker_left (zlen tbl) t + workers_left (zlen tbl) ts). pose proof (worker_left_nonneg tbl t (Hok 0%nat t eq_refl)).
  pose proof (IH (fun i => Hok (S i))). lia.
Qed.

(** * Each step decreases it *)

Ltac left_lia := unfold worker_left; cbn [pc set_pc set_pending AddTimeNsecs pending_]; lia.

Lemma worker_decreases w A live rest i memory nsecs w' ev :
  Inv w A live rest -> worker_step memory nsecs i w = Ok (Some (w', ev)) -> steps_left w' < steps_left w.
Proof.
  intros HI. unfold worker_step. destruct (threads_ w !! i) as [t|] eqn:Ht; [|done].
  pose proof (inv_threads _ _ _ _ HI i t Ht) as Hok. unfold thread_ok in Hok. pose proof (zlen_nonneg (pointers_ w)) as Hn.
  assert (forall tbl h t', zlen tbl = zlen (pointers_ w) -> worker_left (zlen (pointers_ w)) t' < worker_left (zlen (pointers_ w)) t ->
    steps_left (mkWorld tbl h (<[i := t']> (threads_ w)) (num_threads_ w) (total_nsecs w) (line_buf w) (dump_fd w) (mpc w)) < steps_left w) as Hd.
  { intros tbl h t' Hl Hlt. unfold steps_left. cbn [pointers_ threads_ mpc line_buf dump_fd]. rewrite Hl, (workers_left_insert _ _ _ t) by done.
    unfold zlen. rewrite length_insert. unfold zlen in *. lia. }
  assert (forall s d, zlen (<[s := d]> (pointers_ w)) = zlen (pointers_ w)) as Hins by (intros; unfold zlen; by rewrite length_insert).
  unfold worker_left in Hd at 2. destruct (pc t) as [| | |key index entries|slot|slot memory'|memory'|old|memory' index entries|slot memory'|slot memory'|] eqn:Epc.
  - done.
  - destruct (pending_ t); [|done]. intros [= <- _]. apply Hd; [(done || apply Hins)|]. left_lia.
  - destruct (Execute_start (action_ t) w) as [p| |] eqn:Ex; [|done..]. cbn [mbind res_bind]. intros [= <- _]. apply Hd; [(done || apply Hins)|].
    destruct (action_ t); cbn in Ex; unfold Remove_start, max_pointers in Ex; repeat case_match; simplify_eq; left_lia.
  - destruct (entries =? 0); [done|]. destruct (pointers_ w !! Z.to_nat index) as [d|]; [|done].
    destruct (key_pointer d =? key); intros [= <- _]; (apply Hd; [(done || apply Hins)|left_lia]).
  - destruct (pointers_ w !! slot) as [d|]; [|done]. intros [= <- _]. apply Hd; [(done || apply Hins)|]. left_lia.
  - destruct (pointers_ w !! slot) as [d|]; [|done]. intros [= <- _]. apply Hd; [(done || apply Hins)|]. destruct (alloc_key _); left_lia.
  - destruct (free memory' (heap w)) as [h| |]; [|done..]. cbn [mbind res_bind]. intros [= <- _]. apply Hd; [(done || apply Hins)|]. left_lia.
  - destruct (call_alloc (action_ t) old memory w) as [[[h p] e]| |] eqn:Ec; [|done..]. cbn [mbind res_bind]. intros [= <- _]. apply Hd; [(done || apply Hins)|].
    unfold call_alloc in Ec. destruct (match old with Some old => free old (heap w) | None => Ok (heap w) end) as [h'| |]; [|done..]. cbn [mbind res_bind] in Ec.
    destruct (_ && _); [done|]. destruct (alloc_key (action_ t)); [|done]. injection Ec as _ <- _. left_lia.
  - destruct Hok as (_ & k & _ & He & _). unfold max_pointers. destruct (Z.ltb_spec entries (zlen (pointers_ w))); [|done].
    destruct (pointers_ w !! Z.to_nat index) as [d|]; [|done].
    destruct (key_pointer d =? 0); intros [= <- _]; (apply Hd; [(done || apply Hins)|left_lia]).
  - destruct (pointers_ w !! slot) as [d|]; [|done]. intros [= <- _]. apply Hd; [(done || apply Hins)|]. left_lia.
  - destruct (pointers_ w !! slot) as [d|]; [|done]. intros [= <- _]. apply Hd; [(done || apply Hins)|]. left_lia.
  - intros [= <- _]. apply Hd; [(done || apply Hins)|]. destruct (EndThread _); left_lia.
Qed.

Lemma lines_decrease c (t t' : bytes) : 0 <= c -> (length t' < length t)%nat -> zlen t' * c + c <= zlen t * c.
Proof. intros Hc Hl. unfold zlen. nia. Qed.

Lemma FindEmptyEntry_zero entries ts index i t :
  FindEmptyEntry_loop entries ts index = Ok (Some i) -> ts !! i = Some t -> tid_ t = 0.
Proof.
  revert index. induction entries as [|entries IH]; intros index; [done|]. cbn [FindEmptyEntry_loop].
  destruct (ts !! Z.to_nat index) as [x|] eqn:Hx; [|done]. destruct (Z.eqb_spec (tid_ x) 0) as [E|E]; [|apply IH].
  intros [= <-] Ht. congruence.
Qed.

Lemma main_next_line w A live rest w' :
  Inv w A live rest -> mpc w = MLine -> next_line w = Ok w' -> steps_left w' < steps_left w.
Proof.
  intros HI Em. pose proof (inv_main _ _ _ _ HI) as Hm. unfold main_ok in Hm. rewrite Em in Hm. destruct Hm as [Hin Hv].
  unfold next_line. destruct (input_GetLine w rest Hin) as (r & b & fd & -> & Hr). cbn [mbind res_bind].
  set (n := zlen (pointers_ w)). set (m := zlen (threads_ w)). assert (0 <= n) by apply zlen_nonneg. assert (0 <= m) by apply zlen_nonneg.
  pose proof (zlen_nonneg (unread (line_buf w) (dump_fd w))) as Hu.
  destruct rest as [|c cs].
  - subst r. intros [= <-]. unfold steps_left. cbn [pointers_ threads_ mpc line_buf dump_fd set_mpc set_input]. fold n m. rewrite Em.
    unfold main_left, end_cost, finish_cost, free_cost. cbn [Z.of_nat].
    assert (0 <= zlen (unread (line_buf w) (dump_fd w)) * line_cost n m) by (apply Z.mul_nonneg_nonneg; unfold line_cost, action_cost; lia). lia.
  - destruct Hr as (p & k & -> & -> & Hlen & _). destruct Hin as (_ & _ & _ & _ & Hcs). apply list.Forall_cons in Hcs as [Hc _].
    destruct (scan_dump_line c Hc) as (args & -> & _). cbn [mbind res_bind threads_ num_threads_ set_input].
    pose proof (lines_decrease (line_cost n m) _ _ ltac:(unfold line_cost, action_cost; lia) Hlen) as Hdec.
    assert (forall i ts num, zlen ts = m -> workers_left n ts = workers_left n (threads_ w) ->
      steps_left (mkWorld (pointers_ w) (heap w) ts num (total_nsecs w) b fd (MReady i (action_key (snd c)) (action_type (snd c)) args)) < steps_left w) as Hd.
    { intros i ts num Hts Hwl. unfold steps_left. cbn [pointers_ threads_ mpc line_buf dump_fd]. fold n. rewrite Hts, Hwl, Em. fold n m.
      unfold main_left. unfold line_cost in Hdec at 2. lia. }
    destruct (FindThread (threads_ w) (num_threads_ w) (fst c)) as [[i|]| |]; cbn [mbind res_bind]; try done.
    + intros [= <-]. by apply Hd.
    + unfold CreateThread. cbn [threads_ num_threads_ set_input]. destruct (_ =? _); [done|].
      destruct (FindEmptyEntry (threads_ w) (fst c)) as [[i|]| |] eqn:He; cbn [mbind res_bind]; try done.
      destruct (threads_ w !! i) as [t|] eqn:Ht; [|done]. cbn [mbind res_bind]. intros [= <-]. unfold set_mpc, set_num, set_thread, set_input. cbn [pointers_ heap threads_ num_threads_ total_nsecs line_buf dump_fd mpc].
      apply Hd; [unfold m, zlen; by rewrite length_insert|]. rewrite (workers_left_insert _ _ _ t) by done.
      assert (tid_ t = 0) as Hz.
      { unfold FindEmptyEntry in He. destruct (GetHashEntry _ _); cbn [mbind res_bind] in He; try done. by eapply FindEmptyEntry_zero. }
      pose proof (inv_zero _ _ _ _ HI i t Ht Hz) as Hg. pose proof (zero_idle _ _ _ _ _ _ HI Ht Hz) as Hp.
      unfold worker_left. cbn [pc pending_]. rewrite Hg, Hp. lia.
Qed.

Lemma main_decreases w A live rest w' ev :
  Inv w A live rest -> main_step w = Ok (Some (w', ev)) -> steps_left w' < steps_left w.
Proof.
  intros HI. pose proof (inv_main _ _ _ _ HI) as Hm. unfold main_ok in Hm. unfold main_step.
  set (n := zlen (pointers_ w)). set (m := zlen (threads_ w)). assert (0 <= n) as Hn by apply zlen_nonneg. assert (0 <= m) as Hm0 by apply zlen_nonneg.
  set (text := unread (line_buf w) (dump_fd w)).
  (* a change of one thread and of the position *)
  assert (forall i t t' num total p, threads_ w !! i = Some t ->
    main_left n m p text + worker_left n t' < main_left n m (mpc w) text + worker_left n t ->
    steps_left (mkWorld (pointers_ w) (heap w) (<[i := t']> (threads_ w)) num total (line_buf w) (dump_fd w) p) < steps_left w) as Hd.
  { intros i t t' num total p Ht Hlt. unfold steps_left. cbn [pointers_ threads_ mpc line_buf dump_fd]. fold n text.
    rewrite (workers_left_insert _ _ _ t) by done. replace (zlen (<[i := t']> (threads_ w))) with m by (unfold m, zlen; by rewrite length_insert). fold m. lia. }
  assert (forall h p, main_left n m p text < main_left n m (mpc w) text ->
    steps_left (mkWorld (pointers_ w) h (threads_ w) (num_threads_ w) (total_nsecs w) (line_buf w) (dump_fd w) p) < steps_left w) as Hq.
  { intros h p Hlt. unfold steps_left. cbn [pointers_ threads_ mpc line_buf dump_fd]. fold n m text. lia. }
  assert (forall j seen w, quiesced (threads_ w) j seen -> forall j' seen', quiesce_turn j seen w = Ok (Some (inr (j', seen'))) -> j' = S j /\ (j < length (threads_ w))%nat) as Hturn.
  { intros j seen x _ j' seen'. unfold quiesce_turn. destruct (seen <? _); [|done]. destruct (threads_ x !! j) eqn:E; [|done].
    apply lookup_lt_Some in E. repeat case_match; intros; simplify_eq; done. }
  destruct (mpc w) as [|i key ty args|i j seen|i|i|i|j seen|i|i|i|] eqn:Em.
  - destruct (next_line w) as [w1| |] eqn:E; [|done..]. cbn [mbind res_bind]. intros [= <- _]. by eapply main_next_line.
  - destruct Hm as (c & cs & r & -> & _ & _ & _ & _ & t & Ht & Hz & _). rewrite Ht. destruct (pending_ t) eqn:Hp; [done|].
    destruct (CreateAction key ty args) as [a|]; [|done]. intros [= <- _]. apply (Hd i t); [done|].
    unfold worker_left. cbn [pc pending_ set_action]. rewrite Hp. destruct (DoesFree a); unfold main_left; cbn [Z.of_nat]; lia.
  - destruct Hm as (c & cs & r & _ & _ & _ & _ & _ & Hqu). destruct (quiesce_turn j seen w) as [[[[]|[j' seen']]|]| |] eqn:E; cbn [mbind res_bind]; try done.
    + intros [= <- _]. apply Hq. destruct Hqu as (_ & _ & Hj). unfold main_left. unfold m, zlen. lia.
    + intros [= <- _]. apply Hq. destruct (Hturn _ _ _ Hqu _ _ E) as [-> Hj]. unfold main_left. lia.
  - destruct Hm as (c & cs & r & -> & _ & _ & _ & (t & Ht & Hz & _ & Ea & Hp) & _). rewrite Ht. intros [= <- _]. apply (Hd i t); [done|].
    pose proof (idle_waits _ _ _ _ HI i t Ht Hp Hz ltac:(by rewrite Em)) as Epc. unfold worker_left. cbn [pc pending_ set_pending]. rewrite Epc, Hp.
    destruct (EndThread _); [|destruct (DoesFree _)]; unfold main_left, action_cost; lia.
  - destruct Hm as (r & _ & _ & t & Ht & Hz & _). rewrite Ht. destruct (pc t) eqn:Epc; try done. intros [= <- _]. apply (Hd i t); [done|].
    unfold worker_left. cbn [pc set_tid]. rewrite Epc. unfold main_left. lia.
  - destruct Hm as (_ & _ & t & Ht & _). rewrite Ht. destruct (pending_ t); [done|]. intros [= <- _]. apply Hq. unfold main_left. lia.
  - destruct Hm as (_ & Hqu). destruct (quiesce_turn j seen w) as [[[[]|[j' seen']]|]| |] eqn:E; cbn [mbind res_bind]; try done.
    + intros [= <- _]. apply Hq. destruct Hqu as (_ & _ & Hj). unfold main_left, finish_cost. cbn [Z.of_nat]. unfold m, zlen in *. lia.
    + intros [= <- _]. apply Hq. destruct (Hturn _ _ _ Hqu _ _ E) as [-> Hj]. unfold main_left. lia.
  - destruct Hm as (-> & Hidle & Hi & _). destruct (threads_ w !! i) as [t|] eqn:Ht.
    + pose proof (lookup_lt_Some _ _ _ Ht) as Hlt. destruct (Z.eqb_spec (tid_ t) 0) as [Ez|Ez]; cbn [negb].
      * intros [= <- _]. apply Hq. unfold main_left, action_cost. rewrite Nat2Z.inj_succ. lia.
      * intros [= <- _]. apply (Hd i t); [done|]. pose proof (idle_waits _ _ _ _ HI i t Ht (Hidle i t Ht) Ez ltac:(by rewrite Em)) as Epc.
        unfold worker_left. cbn [pc pending_ set_pending set_action]. rewrite Epc, (Hidle i t Ht). unfold main_left, action_cost. lia.
    + intros [= <- _]. apply Hq. unfold main_left, free_cost, action_cost. cbn [Z.of_nat]. apply lookup_ge_None in Ht.
      assert (0 <= (m - Z.of_nat i) * (2 * n + 10 + 3)) by (apply Z.mul_nonneg_nonneg; unfold m, zlen in *; lia). lia.
  - destruct Hm as (_ & _ & _ & t & Ht & Hz & _). rewrite Ht. destruct (pc t) eqn:Epc; try done. intros [= <- _]. apply (Hd i t); [done|].
    unfold worker_left. cbn [pc set_tid]. rewrite Epc. unfold main_left. rewrite Nat2Z.inj_succ. lia.
  - done.
  - done.
Qed.

Lemma free_all_decreases w A K w' ev : Fin w A K -> main_step w = Ok (Some (w', ev)) -> steps_left w' < steps_left w.
Proof.
  intros (_ & _ & _ & Hm). unfold main_step. destruct (mpc w) eqn:Em; try done. destruct (pointers_ w !! i) as [d|] eqn:Hd.
  - apply lookup_lt_Some in Hd. destruct (negb _).
    + destruct (free _ _); [|done..]. cbn [mbind res_bind]. intros [= <- _]. unfold steps_left. cbn [pointers_ threads_ mpc line_buf dump_fd set_mpc set_heap].
      rewrite Em. unfold main_left. lia.
    + intros [= <- _]. unfold steps_left. cbn [pointers_ threads_ mpc line_buf dump_fd set_mpc]. rewrite Em. unfold main_left. lia.
  - intros [= <- _]. unfold steps_left. cbn [pointers_ threads_ mpc line_buf dump_fd set_mpc]. rewrite Em. unfold main_left. unfold zlen. lia.
Qed.

Lemma step_decreases `{NeverNull} w A K ev w' : Phase w A K -> step w ev w' -> steps_left w' < steps_left w.
Proof.
  intros HP Hs. destruct Hs as [w w' ev Hs|memory nsecs i t w w' ev Ht Hr Hs]; destruct HP as [(live & rest & HI & _)|HF].
  - by eapply main_decreases.
  - by eapply free_all_decreases.
  - by eapply worker_decreases.
  - destruct HF as (Hg & _). unfold worker_step in Hs. by rewrite Ht, (Hg i t Ht) in Hs.
Qed.

Lemma steps_left_nonneg w A K : Phase w A K -> 0 <= steps_left w.
Proof.
  pose proof (zlen_nonneg (pointers_ w)) as Hn. pose proof (zlen_nonneg (threads_ w)) as Hm. unfold steps_left.
  set (text := unread _ _). pose proof (zlen_nonneg text) as Ht.
  assert (0 <= zlen text * line_cost (zlen (pointers_ w)) (zlen (threads_ w))) as Hl by (apply Z.mul_nonneg_nonneg; unfold line_cost, action_cost; lia).
  assert (0 <= end_cost (zlen (pointers_ w)) (zlen (threads_ w)) /\ 0 <= finish_cost (zlen (pointers_ w)) (zlen (threads_ w))) as [He Hf].
  { unfold end_cost, finish_cost, free_cost, action_cost. nia. }
  intros [(live & rest & HI & _)|(Hg & _ & _ & HF)].
  - pose proof (workers_left_nonneg _ _ (inv_threads _ _ _ _ HI)) as Hw. pose proof (inv_main _ _ _ _ HI) as Hmain. unfold main_ok in Hmain.
    destruct (mpc w) as [|i key ty args|i j seen|i|i|i|j seen|i|i|i|]; cbn [main_left]; unfold action_cost in *; try (done || lia).
    + destruct Hmain as (c & cs & r & _ & _ & _ & _ & _ & _ & _ & Hj). unfold zlen in *. lia.
    + destruct Hmain as (_ & _ & _ & Hj). unfold zlen in *. lia.
    + destruct Hmain as (_ & _ & Hi & _). unfold free_cost. assert (0 <= (zlen (threads_ w) - Z.of_nat i) * (2 * zlen (pointers_ w) + 10 + 3)); [|lia].
      apply Z.mul_nonneg_nonneg; unfold zlen in *; lia.
    + destruct Hmain as (_ & _ & _ & t & Hi & _). apply lookup_lt_Some in Hi. unfold free_cost.
      assert (0 <= (zlen (threads_ w) - Z.of_nat i - 1) * (2 * zlen (pointers_ w) + 10 + 3)); [|lia].
      apply Z.mul_nonneg_nonneg; unfold zlen in *; lia.
  - assert (0 <= workers_left (zlen (pointers_ w)) (threads_ w)) as Hw.
    { revert Hg. generalize (threads_ w). intros ts Hg. induction ts as [|t ts IH]; [done|].
      change (0 <= worker_left (zlen (pointers_ w)) t + workers_left (zlen (pointers_ w)) ts). unfold worker_left. rewrite (Hg 0%nat t eq_refl).
      specialize (IH (fun i => Hg (S i))). lia. }
    destruct (mpc w); try done; cbn [main_left]; unfold zlen in *; lia.
Qed.

(** * An allocator and a scheduler, to run the machine *)

(** Any memory that is not in use. *)
#[export, refine] Instance any_memory : Allocator := {| returns h a := 0 < a /\ a ∉ h |}.
Proof.
  - by right.
  - intros h. exists (1 + foldr Z.max 0 (elements h)).
    assert (forall l, 0 <= foldr Z.max 0 l /\ forall x, x ∈ l -> x <= foldr Z.max 0 l) as Hmax.
    { induction l as [|y l [IH1 IH2]]; cbn; [split; [lia|by intros x ?%not_elem_of_nil]|]. split; [lia|].
      intros x [->|Hx]%elem_of_cons; [lia|]. specialize (IH2 x Hx). lia. }
    destruct (Hmax (elements h)) as [H1 H2]. split; [lia|]. intros Hin%elem_of_elements%H2. lia.
Defined.

#[export] Instance any_memory_never_null : NeverNull.
Proof. intros h a [Ha _]. lia. Qed.

(** What happens next: the main thread, or a worker, to which an allocation
    returns the given memory. *)
Inductive choice := CMain | CWorker (i : nat) (memory : Z).

Definition choose (c : choice) (w : World) : option (World * list event) :=
  match c with
  | CMain => match main_step w with Ok r => r | _ => None end
  | CWorker i memory =>
      match threads_ w !! i with
      | None => None
      | Some t =>
          if (0 <? memory) && bool_decide (memory ∉ alloc_heap t (heap w))
          then match worker_step memory 0 i w with Ok r => r | _ => None end else None
      end
  end.

(** The first of some choices that is possible, again and again; the memory that
    is returned is counted up. *)
Fixpoint run (fuel : nat) (cs : Z -> list choice) (memory : Z) (w : World) (tr : list event) : World * list event :=
  match fuel with
  | O => (w, tr)
  | S fuel =>
      match list_find (fun c => is_Some (choose c w)) (cs memory) with
      | Some (_, c) =>
          match choose c w with
          | Some (w', ev) => run fuel cs (memory + 16) w' (tr ++ ev)
          | None => (w, tr)
          end
      | None => (w, tr)
      end
  end.

Lemma choose_step c w w' ev : choose c w = Some (w', ev) -> step w ev w'.
Proof.
  destruct c as [|i memory]; cbn.
  - destruct (main_step w) as [r| |] eqn:E; [|done..]. intros ->. by apply step_main.
  - destruct (threads_ w !! i) as [t|] eqn:Ht; [|done]. destruct (Z.ltb_spec 0 memory); [|done]. case_bool_decide as Hb; [|done]. cbn.
    destruct (worker_step memory 0 i w) as [r| |] eqn:E; [|done..]. intros ->. by eapply step_worker.
Qed.

Lemma run_steps fuel cs : forall memory w0 tr w, steps w0 tr w -> steps w0 (run fuel cs memory w tr).2 (run fuel cs memory w tr).1.
Proof.
  induction fuel as [|fuel IH]; intros memory w0 tr w Hs; cbn [run]; [done|].
  destruct (list_find _ (cs memory)) as [[k c]|]; [|done]. destruct (choose c w) as [[w' ev]|] eqn:E; [|done].
  apply IH. eapply steps_snoc; [done|]. by eapply choose_step.
Qed.

(** * The theorems *)

Section theorems.
Context `{NeverNull}.
Context (pagesize sizeof_Thread max_threads : Z) (g_buffer : bytes) (fd1 fd2 : Fd) (cmds : list (Z * Action)).
Context (Hdump : replay_ok pagesize sizeof_Thread max_threads g_buffer fd1 fd2 cmds) (w0 : World).
Context (Hstart : replay_start pagesize sizeof_Thread max_threads g_buffer fd1 fd2 = Ok w0).

Lemma start_phase : Phase w0 ∅ (live_keys ∅ cmds).
Proof.
  destruct (replay_start_ok _ _ _ _ _ _ _ Hdump) as (w & Hw & HI). rewrite Hstart in Hw. injection Hw as <-. left. eauto.
Qed.

(** C19: replaying a dump is safe, and a refinement of a map from keys to memory.
    Whatever the threads and the kernel do, and whatever fresh memory the
    allocator returns, at no point of an execution can a thread fail: no pointer
    is missing from the table when it is to be freed, neither table overflows, no
    memory is freed twice or while another thread still stores it, no wait is at
    a thread that has ended.  What was done to the allocator so far is a run of
    the map: new keys get new memory, and what is freed for a key is the memory
    that was allocated for it; the memory in use is that of the map.  Conditions:
    the allocator never returns NULL ([NeverNull]); keys are above 1; what a line
    frees or reallocates is live, what it then allocates is not; the threads that
    run at a time are within the limit; ids are positive 31-bit numbers, the other
    numbers 64-bit; there is a line and less than 2^50 ([replay_ok], which also
    asks for a buffer of 96 bytes, reads that return something, and sane sizes). *)
Theorem replay_refines tr w :
  steps w0 tr w -> no_failure w /\ exists A, spec_run ∅ tr = Some A /\ forall a, a ∈ heap w <-> exists k, A !! k = Some a.
Proof.
  intros Hs. destruct (steps_phase _ _ _ _ _ start_phase Hs) as (A & HA & HP).
  split; [by eapply phase_no_failure|]. exists A. split; [done|]. by eapply phase_heap.
Qed.

(** C20: the replay ends, with nothing allocated.  No execution is infinite; one
    that cannot go on has reached the end of [ProcessDump] (no deadlock), and
    then all memory is freed, each once.  Conditions, as for [replay_refines]: an
    allocator that never returns NULL, and a dump ([replay_ok]) whose keys are
    above 1 (for key 0 see [key_zero_leaks]), that frees and reallocates only
    live keys and allocates only keys that are not, with no more threads at a
    time than the limit, positive thread ids and at least one and less than 2^50
    lines. *)
Theorem replay_ends :
  Acc (fun w' w => exists ev, step w ev w') w0 /\
  forall tr w, steps w0 tr w ->
    (mpc w = MDone \/ exists ev w', step w ev w') /\ (mpc w = MDone -> heap w = ∅ /\ spec_run ∅ tr = Some ∅).
Proof.
  split.
  - assert (forall z w A K, steps_left w <= z -> Phase w A K -> Acc (fun w' w => exists ev, step w ev w') w) as Hacc.
    { intros z. destruct (Z.le_gt_cases 0 z) as [Hz|Hz]; [|intros w A K Hle HP; pose proof (steps_left_nonneg _ _ _ HP); lia].
      pattern z. apply natlike_ind; [| |done].
      - intros w A K Hle HP. constructor. intros w' [ev Hs]. pose proof (step_decreases _ _ _ _ _ HP Hs).
        destruct (step_phase _ _ _ _ _ HP Hs) as (A' & _ & HP'). pose proof (steps_left_nonneg _ _ _ HP'). lia.
      - intros y Hy IH w A K Hle HP. constructor. intros w' [ev Hs]. pose proof (step_decreases _ _ _ _ _ HP Hs).
        destruct (step_phase _ _ _ _ _ HP Hs) as (A' & _ & HP'). eapply IH; [lia|done]. }
    eapply (Hacc (steps_left w0)); [lia|apply start_phase].
  - intros tr w Hs. destruct (steps_phase _ _ _ _ _ start_phase Hs) as (A & HA & HP).
    split; [by eapply phase_progress|]. intros Em.
    destruct HP as [(live & rest & HI & _)|(_ & Hh & _ & HF)].
    { pose proof (inv_main _ _ _ _ HI) as Hm. unfold main_ok in Hm. by rewrite Em in Hm. }
    rewrite Em in HF. subst A. split; [|done]. destruct Hh as (H1 & _). apply set_eq. intros a. rewrite H1. split; [|set_solver].
    intros [k Hk]. by rewrite lookup_empty in Hk.
Qed.

(** No action is lost: when the replay comes to free what the dump has left
    allocated, the table has exactly the keys that are allocated behind the last
    line when the lines are read one after the other.  Conditions, as for
    [replay_refines]: an allocator that never returns NULL, and a dump
    ([replay_ok]) whose keys are above 1, that frees and reallocates only live
    keys and allocates only keys that are not, with no more threads at a time
    than the limit, positive thread ids and at least one and less than 2^50
    lines. *)
Theorem replay_table tr w :
  steps w0 tr w -> mpc w = MFreeAll 0 -> (table_pairs [] (pointers_ w)).*1 ≡ₚ elements (live_keys ∅ cmds).
Proof.
  intros Hs Em. destruct (steps_phase _ _ _ _ _ start_phase Hs) as (A & _ & HP).
  destruct HP as [(live & rest & HI & _)|(_ & _ & HK & _)]; [|done].
  pose proof (inv_main _ _ _ _ HI) as Hm. unfold main_ok in Hm. by rewrite Em in Hm.
Qed.
End theorems.

(** ** A dump of three threads *)

Definition sample_dump : list (Z * Action) :=
  [(7, MallocAction 16 8); (9, CallocAction 32 2 4); (7, ReallocAction 48 16 24); (9, FreeAction 32);
   (9, EndThreadAction); (8, MemalignAction 80 16 8)].

(** The kernel hands out 5 bytes at a time in the second pass. *)
Definition sample_fd (short : Z) : Fd := mkFd (dump sample_dump) (fun _ => short) 0.
Definition sample_buffer : bytes := replicate 128 0.
Definition sample_start : res World := replay_start 1024 256 3 sample_buffer (sample_fd 1000) (sample_fd 5).

Lemma sample_ok : replay_ok 1024 256 3 sample_buffer (sample_fd 1000) (sample_fd 5) sample_dump.
Proof.
  split.
  - exists 10. split; [lia|reflexivity].
  - lia.
  - lia.
  - vm_compute. split; congruence.
  - split; intros i; cbn; lia.
  - split; reflexivity.
  - unfold sample_dump, cmd_ok. repeat (apply list.Forall_cons; split; [split; [cbn; lia|repeat constructor; cbn; lia]|]). constructor.
  - vm_compute. split; reflexivity.
  - vm_compute. reflexivity.
Qed.

(** Workers first, or the main thread first. *)
Definition workers_first (memory : Z) : list choice := ((fun i => CWorker i memory) <$> seq 0 4) ++ [CMain].
Definition main_first (memory : Z) : list choice := CMain :: ((fun i => CWorker i memory) <$> seq 0 4).

Definition sample_run (cs : Z -> list choice) : option (World * list event) :=
  match sample_start with Ok w => Some (run 2000 cs 4096 w []) | _ => None end.

#[export] Instance mainpc_eq : EqDecision mainpc.
Proof. solve_decision. Defined.

Lemma sample_done cs w0 :
  match sample_start with Ok w => bool_decide (mpc (run 2000 cs 4096 w []).1 = MDone) | _ => false end = true -> sample_start = Ok w0 ->
  exists tr w, steps w0 tr w /\ mpc w = MDone.
Proof.
  intros Hd Hs. rewrite Hs in Hd. apply bool_decide_eq_true in Hd.
  exists (run 2000 cs 4096 w0 []).2, (run 2000 cs 4096 w0 []).1. split; [apply run_steps, steps_nil|done].
Qed.

Lemma replay_refines_witness :
  exists w0 tr w, sample_start = Ok w0 /\ steps w0 tr w /\ mpc w = MDone /\ no_failure w.
Proof.
  destruct (replay_start_ok _ _ _ _ _ _ _ sample_ok) as (w0 & Hw & _). exists w0.
  destruct (sample_done main_first w0) as (tr & w & Hs & Hm); [vm_compute; reflexivity|exact Hw|].
  exists tr, w. split; [exact Hw|]. split; [exact Hs|]. split; [exact Hm|].
  apply (replay_refines _ _ _ _ _ _ _ sample_ok w0 Hw tr w Hs).
Defined.

Lemma replay_ends_witness :
  exists w0 tr w, sample_start = Ok w0 /\ steps w0 tr w /\ mpc w = MDone /\ heap w = ∅ /\ spec_run ∅ tr = Some ∅.
Proof.
  destruct (replay_start_ok _ _ _ _ _ _ _ sample_ok) as (w0 & Hw & _). exists w0.
  destruct (sample_done workers_first w0) as (tr & w & Hs & Hm); [vm_compute; reflexivity|exact Hw|].
  exists tr, w. split; [exact Hw|]. split; [exact Hs|]. split; [exact Hm|].
  apply (proj2 (replay_ends _ _ _ _ _ _ _ sample_ok w0 Hw) tr w Hs). exact Hm.
Defined.

(** The machine up to the point where the rest is freed. *)
Fixpoint run_to (p : mainpc) (fuel : nat) (cs : Z -> list choice) (memory : Z) (w : World) (tr : list event) : World * list event :=
  match fuel with
  | O => (w, tr)
  | S fuel =>
      if bool_decide (mpc w = p) then (w, tr)
      else let '(w, tr) := run 1 cs memory w tr in run_to p fuel cs (memory + 16) w tr
  end.

Lemma run_to_steps p fuel cs : forall memory w0 tr w, steps w0 tr w -> steps w0 (run_to p fuel cs memory w tr).2 (run_to p fuel cs memory w tr).1.
Proof.
  induction fuel as [|fuel IH]; intros memory w0 tr w Hs; cbn [run_to]; [done|]. case_bool_decide; [done|].
  pose proof (run_steps 1 cs memory w0 tr w Hs) as H1. destruct (run 1 cs memory w tr) as [w' tr']. by apply IH.
Qed.

Lemma sample_table w0 : sample_start = Ok w0 -> exists tr w, steps w0 tr w /\ mpc w = MFreeAll 0.
Proof.
  assert (match sample_start with Ok w => bool_decide (mpc (run_to (MFreeAll 0) 2000 main_first 4096 w []).1 = MFreeAll 0) | _ => false end = true) as Hd
    by (vm_compute; reflexivity).
  intros Hs. rewrite Hs in Hd. apply bool_decide_eq_true in Hd.
  exists (run_to (MFreeAll 0) 2000 main_first 4096 w0 []).2, (run_to (MFreeAll 0) 2000 main_first 4096 w0 []).1.
  split; [apply run_to_steps, steps_nil|exact Hd].
Qed.

Lemma sample_keys : live_keys ∅ sample_dump = ({[48; 80]} : gset Z).
Proof. vm_compute. reflexivity. Qed.

Lemma replay_table_witness :
  exists w0 tr w, sample_start = Ok w0 /\ steps w0 tr w /\ (table_pairs [] (pointers_ w)).*1 ≡ₚ elements ({[48; 80]} : gset Z).
Proof.
  destruct (replay_start_ok _ _ _ _ _ _ _ sample_ok) as (w0 & Hw & _). exists w0.
  destruct (sample_table w0 Hw) as (tr & w & Hs & Hm). exists tr, w. split; [exact Hw|]. split; [exact Hs|].
  rewrite <- sample_keys. apply (replay_table _ _ _ _ _ _ _ sample_ok w0 Hw tr w Hs Hm).
Defined.

(** ** An allocation that failed when it was recorded *)

(** A dump may have key 0, for an allocation that returned a null pointer; it is
    stored as an empty slot and never freed. *)
Definition zero_fd : Fd := mkFd (dump [(7, MallocAction 0 8)]) (fun _ => 1000) 0.
Definition zero_start : res World := replay_start 1024 256 3 sample_buffer zero_fd zero_fd.

Lemma key_zero_leaks w0 : zero_start = Ok w0 -> exists tr w, steps w0 tr w /\ mpc w = MDone /\ heap w <> ∅.
Proof.
  assert (match zero_start with
    | Ok w => bool_decide (mpc (run 2000 main_first 4096 w []).1 = MDone) && negb (bool_decide (heap (run 2000 main_first 4096 w []).1 = ∅))
    | _ => false end = true) as H by (vm_compute; reflexivity).
  intros E. rewrite E in H. apply andb_prop in H as [H1 H2]. apply bool_decide_eq_true in H1. apply negb_true_iff, bool_decide_eq_false in H2.
  exists (run 2000 main_first 4096 w0 []).2, (run 2000 main_first 4096 w0 []).1. split; [apply run_steps, steps_nil|]. split; [exact H1|exact H2].
Qed.
