(* ===== verification/ConfigReader.v ===== *)
(** Model of the configuration of perfprofd (src/perfprofd: config.h,
    configreader.h, configreader.cc): the table of settings with their defaults
    and ranges, reading a text of key=value lines, and filling [Config].

    [std::map] is a finite map.  Messages to the log are left out; [CHECK] and
    [assert] that fail give [CheckFailed]. *)
From stdpp Require Import base gmap list numbers strings.
From Stdlib Require Import ZArith Lia.
From S2P Require Import Prelude Utils KernelSymbols MemLine.

(** * Data *)

Record values := Values { minv : Z; maxv : Z }.

Record ConfigReader := mkReader {
  u_info : gmap bytes values;
  u_entries : gmap bytes Z;
  s_entries : gmap bytes bytes;
  trace_config_read : bool;
}.

Record Config := mkConfig {
  collection_interval_in_s : Z;
  use_fixed_seed : Z;
  main_loop_iterations : Z;
  process : Z;
  destination_directory : bytes;
  config_directory : bytes;
  perf_path : bytes;
  sampling_period : Z;
  sampling_frequency : Z;
  sample_duration_in_s : Z;
  only_debug_build : bool;
  hardwire_cpus : bool;
  hardwire_cpus_max_duration_in_s : Z;
  max_unprocessed_profiles : Z;
  stack_profile : bool;
  config_trace_config_read : bool;
  collect_cpu_utilization : bool;
  collect_charging_state : bool;
  collect_booting : bool;
  collect_camera_active : bool;
  use_elf_symbolizer : bool;
  compress : bool;
  send_to_dropbox : bool;
}.

(** The initializers of the members. *)
Definition default_config : Config := {|
  collection_interval_in_s := 14400;
  use_fixed_seed := 0;
  main_loop_iterations := 0;
  process := -1;
  destination_directory := str "/data/misc/perfprofd";
  config_directory := str "/data/data/com.google.android.gms/files";
  perf_path := str "/system/xbin/simpleperf";
  sampling_period := 0;
  sampling_frequency := 0;
  sample_duration_in_s := 2;
  only_debug_build := true;
  hardwire_cpus := true;
  hardwire_cpus_max_duration_in_s := 5;
  max_unprocessed_profiles := 10;
  stack_profile := false;
  config_trace_config_read := false;
  collect_cpu_utilization := true;
  collect_charging_state := true;
  collect_booting := true;
  collect_camera_active := false;
  use_elf_symbolizer := true;
  compress := true;
  send_to_dropbox := false;
|}.

(** * The table *)

Definition has_entry (ks : bytes) (r : ConfigReader) : bool :=
  bool_decide (is_Some (u_entries r !! ks)) || bool_decide (is_Some (s_entries r !! ks)).

Definition addUnsignedEntry (key : bytes) (default_value min_value max_value : Z) (r : ConfigReader) : res ConfigReader :=
  CHECK (negb (has_entry key r));;
  Ok (mkReader (<[key := Values min_value max_value]> (u_info r)) (<[key := default_value]> (u_entries r)) (s_entries r) (trace_config_read r)).

Definition addStringEntry (key default_value : bytes) (r : ConfigReader) : res ConfigReader :=
  CHECK (negb (has_entry key r));;
  Ok (mkReader (u_info r) (u_entries r) (<[key := default_value]> (s_entries r)) (trace_config_read r)).

Definition addDefaultEntries (r : ConfigReader) : res ConfigReader :=
  let config := default_config in
  let bit (b : bool) := if b then 1 else 0 in
  r ← addUnsignedEntry (str "collection_interval") (collection_interval_in_s config) 0 UINT32_MAX r;
  r ← addUnsignedEntry (str "use_fixed_seed") (use_fixed_seed config) 0 UINT32_MAX r;
  r ← addUnsignedEntry (str "main_loop_iterations") (main_loop_iterations config) 0 UINT32_MAX r;
  r ← addStringEntry (str "destination_directory") (c_str (destination_directory config)) r;
  r ← addStringEntry (str "config_directory") (c_str (config_directory config)) r;
  r ← addStringEntry (str "perf_path") (c_str (perf_path config)) r;
  r ← addUnsignedEntry (str "sampling_period") (sampling_period config) 0 UINT32_MAX r;
  r ← addUnsignedEntry (str "sampling_frequency") (sampling_frequency config) 0 UINT32_MAX r;
  r ← addUnsignedEntry (str "sample_duration") (sample_duration_in_s config) 1 600 r;
  r ← addUnsignedEntry (str "only_debug_build") (bit (only_debug_build config)) 0 1 r;
  r ← addUnsignedEntry (str "hardwire_cpus") (bit (hardwire_cpus config)) 0 1 r;
  r ← addUnsignedEntry (str "hardwire_cpus_max_duration") (hardwire_cpus_max_duration_in_s config) 1 UINT32_MAX r;
  r ← addUnsignedEntry (str "max_unprocessed_profiles") (max_unprocessed_profiles config) 1 UINT32_MAX r;
  r ← addUnsignedEntry (str "stack_profile") (bit (stack_profile config)) 0 1 r;
  r ← addUnsignedEntry (str "trace_config_read") (bit (config_trace_config_read config)) 0 1 r;
  r ← addUnsignedEntry (str "collect_cpu_utilization") (bit (collect_cpu_utilization config)) 0 1 r;
  r ← addUnsignedEntry (str "collect_charging_state") (bit (collect_charging_state config)) 0 1 r;
  r ← addUnsignedEntry (str "collect_booting") (bit (collect_booting config)) 0 1 r;
  r ← addUnsignedEntry (str "collect_camera_active") (bit (collect_camera_active config)) 0 1 r;
  r ← addUnsignedEntry (str "use_elf_symbolizer") (bit (use_elf_symbolizer config)) 0 1 r;
  r ← addUnsignedEntry (str "compress") (bit (compress config)) 0 1 r;
  r ← addUnsignedEntry (str "dropbox") (bit (send_to_dropbox config)) 0 1 r;
  addUnsignedEntry (str "process") (u32 (-1)) 0 UINT32_MAX r.

Definition ConfigReader_new : res ConfigReader := addDefaultEntries (mkReader ∅ ∅ ∅ false).

Definition getUnsignedValue (key : bytes) (r : ConfigReader) : res Z :=
  match u_entries r !! key with Some v => Ok v | None => CheckFailed end.
Definition getBoolValue (key : bytes) (r : ConfigReader) : res bool :=
  match u_entries r !! key with Some v => Ok (negb (v =? 0)) | None => CheckFailed end.
Definition getStringValue (key : bytes) (r : ConfigReader) : res bytes :=
  match s_entries r !! key with Some v => Ok v | None => CheckFailed end.

Definition set_unsigned (key : bytes) (v : Z) (r : ConfigReader) : ConfigReader :=
  mkReader (u_info r) (<[key := v]> (u_entries r)) (s_entries r) (trace_config_read r).
Definition set_string (key v : bytes) (r : ConfigReader) : ConfigReader :=
  mkReader (u_info r) (u_entries r) (<[key := v]> (s_entries r)) (trace_config_read r).
Definition set_trace (b : bool) (r : ConfigReader) : ConfigReader :=
  mkReader (u_info r) (u_entries r) (s_entries r) b.


(** * Reading *)

Definition isdigit (c : Z) : bool := (48 <=? c) && (c <=? 57).

(** [isdigit(value[0]) == 0 || sscanf(value, "%u", &uvalue) != 1] is [None].  A
    number is converted by [strtoumax] and cut to 32 bits. *)
Definition scan_unsigned (value : bytes) : option Z :=
  match value with
  | c :: _ => if isdigit c then '(v, _) ← scan_size value; Some (u32 v) else None
  | [] => None
  end.

Definition parseLine (key value : bytes) (r : ConfigReader) : res (bool * ConfigReader) :=
  match u_entries r !! key with
  | Some _ =>
      match scan_unsigned value with
      | None => Ok (false, r)
      | Some uvalue =>
          match u_info r !! key with
          | None => CheckFailed
          | Some vals =>
              if (uvalue <? minv vals) || (maxv vals <? uvalue) then Ok (false, r)
              else
                let r := set_unsigned key uvalue r in
                t ← getUnsignedValue (str "trace_config_read") r;
                Ok (true, set_trace (negb (t =? 0)) r)
          end
      end
  | None =>
      match s_entries r !! key with
      | Some _ => Ok (true, set_string key value r)
      | None => Ok (false, r)
      end
  end.

Definition isblank (line : bytes) : bool := forallb is_space line.

(** The text before and behind the first '='. *)
Fixpoint split_assignment (line : bytes) : option (bytes * bytes) :=
  match line with
  | [] => None
  | c :: line => if c =? 61 then Some ([], line) else '(k, v) ← split_assignment line; Some (c :: k, v)
  end.

(** The body of the loop; whether the line is fine. *)
Definition read_line (line : bytes) (r : ConfigReader) : res (bool * ConfigReader) :=
  if bool_decide (head line = Some 35) then Ok (true, r)
  else if isblank (c_str line) then Ok (true, r)
  else match split_assignment line with
       | None => Ok (false, r)
       | Some (key, value) => parseLine (c_str key) (c_str value) r
       end.

Fixpoint read_lines (lines : list bytes) (fail_on_error : bool) (r : ConfigReader) : res (bool * ConfigReader) :=
  match lines with
  | [] => Ok (true, r)
  | line :: lines =>
      '(ok, r) ← read_line line r;
      if fail_on_error && negb ok then Ok (false, r) else read_lines lines fail_on_error r
  end.

(** [std::getline] gives the parts between newlines, and what is behind the last
    one unless it is empty ([lines_of]). *)
Definition Read (content : bytes) (fail_on_error : bool) (r : ConfigReader) : res (bool * ConfigReader) :=
  read_lines (lines_of content) fail_on_error r.

(** [contents]: [None] when the file cannot be read. *)
Definition readFile (contents : option bytes) (r : ConfigReader) : res (bool * ConfigReader) :=
  match contents with None => Ok (false, r) | Some contents => Read contents false r end.

Definition FillConfig (r : ConfigReader) : res Config :=
  collection_interval ← getUnsignedValue (str "collection_interval") r;
  seed ← getUnsignedValue (str "use_fixed_seed") r;
  iterations ← getUnsignedValue (str "main_loop_iterations") r;
  destination ← getStringValue (str "destination_directory") r;
  directory ← getStringValue (str "config_directory") r;
  perf ← getStringValue (str "perf_path") r;
  period ← getUnsignedValue (str "sampling_period") r;
  frequency ← getUnsignedValue (str "sampling_frequency") r;
  duration ← getUnsignedValue (str "sample_duration") r;
  debug ← getBoolValue (str "only_debug_build") r;
  hardwire ← getBoolValue (str "hardwire_cpus") r;
  hardwire_max ← getUnsignedValue (str "hardwire_cpus_max_duration") r;
  profiles ← getUnsignedValue (str "max_unprocessed_profiles") r;
  stack ← getBoolValue (str "stack_profile") r;
  trace ← getBoolValue (str "trace_config_read") r;
  utilization ← getBoolValue (str "collect_cpu_utilization") r;
  charging ← getBoolValue (str "collect_charging_state") r;
  booting ← getBoolValue (str "collect_booting") r;
  camera ← getBoolValue (str "collect_camera_active") r;
  process ← getUnsignedValue (str "process") r;
  elf ← getBoolValue (str "use_elf_symbolizer") r;
  compress ← getBoolValue (str "compress") r;
  dropbox ← getBoolValue (str "dropbox") r;
  Ok {| collection_interval_in_s := collection_interval; use_fixed_seed := seed; main_loop_iterations := iterations;
        process := i32 process; destination_directory := destination; config_directory := directory; perf_path := perf;
        sampling_period := period; sampling_frequency := frequency; sample_duration_in_s := duration;
        only_debug_build := debug; hardwire_cpus := hardwire; hardwire_cpus_max_duration_in_s := hardwire_max;
        max_unprocessed_profiles := profiles; stack_profile := stack; config_trace_config_read := trace;
        collect_cpu_utilization := utilization; collect_charging_state := charging; collect_booting := booting;
        collect_camera_active := camera; use_elf_symbolizer := elf; compress := compress; send_to_dropbox := dropbox |}.

(** What a new reader fills in is the default. *)
Example new_reader_default : (r ← ConfigReader_new; FillConfig r) = Ok default_config.
Proof. vm_compute. reflexivity. Qed.

(** * What a text sets *)

(** The assignment of a line, if it has one. *)
Definition line_assignment (line : bytes) : option (bytes * bytes) :=
  if bool_decide (head line = Some 35) || isblank (c_str line) then None
  else '(key, value) ← split_assignment line; Some (c_str key, c_str value).
Definition assignments (lines : list bytes) : list (bytes * bytes) := omap line_assignment lines.

Definition in_range (vals : values) (v : Z) : bool := (minv vals <=? v) && (v <=? maxv vals).

(** The value that an assignment gives to an unsigned or a string setting. *)
Definition unsigned_setting (vals : values) (k : bytes) (a : bytes * bytes) : option Z :=
  if bool_decide (a.1 = k) then v ← scan_unsigned a.2; if in_range vals v then Some v else None else None.
Definition string_setting (k : bytes) (a : bytes * bytes) : option bytes := if bool_decide (a.1 = k) then Some a.2 else None.

(** The last one counts. *)
Definition unsigned_after (r : ConfigReader) (l : list (bytes * bytes)) (k : bytes) (old : Z) : Z :=
  match u_info r !! k with Some vals => default old (last (omap (unsigned_setting vals k) l)) | None => old end.
Definition string_after (l : list (bytes * bytes)) (k old : bytes) : bytes := default old (last (omap (string_setting k) l)).

(** A line that is fine for a reader: empty, a comment, or an assignment that is
    accepted. *)
Definition accepted (r : ConfigReader) (a : bytes * bytes) : bool :=
  match u_info r !! a.1 with
  | Some vals => bool_decide (is_Some (unsigned_setting vals a.1 a))
  | None => bool_decide (is_Some (s_entries r !! a.1))
  end.
Definition line_fine (r : ConfigReader) (line : bytes) : bool :=
  if bool_decide (head line = Some 35) || isblank (c_str line) then true
  else match line_assignment line with Some a => accepted r a | None => false end.

(** * The invariant *)

Definition trace_key : bytes := str "trace_config_read".

Record reader_ok (r : ConfigReader) : Prop := {
  rk_info : forall k, is_Some (u_entries r !! k) <-> is_Some (u_info r !! k);
  rk_range : forall k v vals, u_entries r !! k = Some v -> u_info r !! k = Some vals -> in_range vals v = true;
  rk_apart : forall k, is_Some (u_entries r !! k) -> s_entries r !! k = None;
  rk_trace : is_Some (u_entries r !! trace_key);
}.

(** A reader with the same settings. *)
Definition same_table (r r' : ConfigReader) : Prop :=
  u_info r' = u_info r /\ forall k, is_Some (s_entries r' !! k) <-> is_Some (s_entries r !! k).

Lemma accepted_same r r' a : same_table r r' -> accepted r' a = accepted r a.
Proof.
  intros [Hi Hs]. unfold accepted. rewrite Hi. destruct (u_info r !! a.1); [done|]. by apply bool_decide_ext.
Qed.
Lemma line_fine_same r r' line : same_table r r' -> line_fine r' line = line_fine r line.
Proof. intros H. unfold line_fine. destruct (_ || _); [done|]. destruct (line_assignment line); [by apply accepted_same|done]. Qed.

(** What a reader has become after some assignments. *)
Record became (r : ConfigReader) (l : list (bytes * bytes)) (r' : ConfigReader) : Prop := {
  bc_ok : reader_ok r';
  bc_table : same_table r r';
  bc_unsigned : forall k, u_entries r' !! k = unsigned_after r l k <$> u_entries r !! k;
  bc_string : forall k, s_entries r' !! k = string_after l k <$> s_entries r !! k;
}.

Lemma became_nil r : reader_ok r -> became r [] r.
Proof.
  intros H. split; [done|done| |].
  - intros k. unfold unsigned_after. destruct (u_info r !! k); cbn; by destruct (u_entries r !! k).
  - intros k. unfold string_after. cbn. by destruct (s_entries r !! k).
Qed.

Lemma default_last_app {A} (old : A) l1 l2 : default old (last (l1 ++ l2)) = default (default old (last l1)) (last l2).
Proof. rewrite last_app. by destruct (last l2). Qed.

Lemma became_app r l1 r1 l2 r2 : became r l1 r1 -> became r1 l2 r2 -> became r (l1 ++ l2) r2.
Proof.
  intros [H1 [T1 T1'] U1 S1] [H2 [T2 T2'] U2 S2]. split; [done| | |].
  - split; [congruence|]. intros k. by rewrite T2'.
  - intros k. rewrite U2, U1, <- option_fmap_compose. apply option_fmap_ext. intros old. unfold unsigned_after, compose. rewrite T1.
    destruct (u_info r !! k); [|done]. by rewrite omap_app, default_last_app.
  - intros k. rewrite S2, S1, <- option_fmap_compose. apply option_fmap_ext. intros old. unfold string_after, compose.
    by rewrite omap_app, default_last_app.
Qed.

(** An assignment to another key. *)
Lemma unsigned_after_other r k' v k old : k' <> k -> unsigned_after r [(k', v)] k old = old.
Proof.
  intros Hk. unfold unsigned_after, unsigned_setting. destruct (u_info r !! k); [|done]. cbn. by rewrite bool_decide_eq_false_2.
Qed.
Lemma string_after_other k' v k old : k' <> k -> string_after [(k', v)] k old = old.
Proof. intros Hk. unfold string_after, string_setting. cbn. by rewrite bool_decide_eq_false_2. Qed.

Lemma became_rejected r a : reader_ok r -> accepted r a = false -> became r [a] r.
Proof.
  intros H Ha. destruct a as [k' v]. unfold accepted in Ha. cbn [fst] in *. split; [done|done| |]; intros k.
  - destruct (u_entries r !! k) as [old|]; [|done]. cbn. f_equal. destruct (decide (k' = k)) as [->|]; [|by rewrite unsigned_after_other].
    unfold unsigned_after. destruct (u_info r !! k) as [vals|]; [|done]. apply bool_decide_eq_false, eq_None_not_Some in Ha. cbn. by rewrite Ha.
  - destruct (s_entries r !! k) as [old|] eqn:Es; [|done]. cbn. f_equal. destruct (decide (k' = k)) as [->|]; [|by rewrite string_after_other].
    destruct (u_info r !! k) eqn:Ei.
    + assert (s_entries r !! k = None) by (apply (rk_apart r H), (rk_info r H); by rewrite Ei). congruence.
    + rewrite Es in Ha. by apply bool_decide_eq_false in Ha as [].
Qed.

Lemma set_unsigned_ok r k vals v : reader_ok r -> u_info r !! k = Some vals -> in_range vals v = true -> reader_ok (set_unsigned k v r).
Proof.
  intros H Hi Hr. assert (is_Some (u_entries r !! k)) as [old Ho] by (apply (rk_info r H); by rewrite Hi).
  split; cbn [set_unsigned u_entries u_info s_entries]; try intros k0.
  - rewrite lookup_insert_is_Some'. rewrite (rk_info r H). split; [intros [<-|?]; [by rewrite Hi|done]|by right].
  - intros w vals0. rewrite lookup_insert_Some. intros [[<- <-]|[_ Hw]] Hi0; [congruence|by eapply (rk_range r H)].
  - rewrite lookup_insert_is_Some'. intros [<-|?]; apply (rk_apart r H); [by rewrite Ho|done].
  - rewrite lookup_insert_is_Some'. right. apply (rk_trace r H).
Qed.

Lemma set_trace_ok t r : reader_ok r -> reader_ok (set_trace t r).
Proof. intros [? ? ? ?]. by split. Qed.

Lemma became_unsigned r k v vals uv t :
  reader_ok r -> u_info r !! k = Some vals -> scan_unsigned v = Some uv -> in_range vals uv = true ->
  became r [(k, v)] (set_trace t (set_unsigned k uv r)).
Proof.
  intros H Hi Hs Hr. assert (is_Some (u_entries r !! k)) as [old Ho] by (apply (rk_info r H); by rewrite Hi).
  split; [by eapply set_trace_ok, set_unsigned_ok|done| |]; cbn [set_trace set_unsigned u_entries u_info s_entries]; intros k0.
  - destruct (decide (k = k0)) as [<-|]; [rewrite lookup_insert_eq, Ho|rewrite lookup_insert_ne by done].
    + cbn. f_equal. unfold unsigned_after, unsigned_setting. rewrite Hi. cbn. rewrite bool_decide_eq_true_2 by done. cbn. rewrite Hs. cbn. by rewrite Hr.
    + destruct (u_entries r !! k0); cbn; [|done]. by rewrite unsigned_after_other.
  - destruct (s_entries r !! k0) as [olds|] eqn:Es; [|done]. cbn. f_equal. rewrite string_after_other; [done|]. intros <-.
    rewrite (rk_apart r H) in Es; [done|by rewrite Ho].
Qed.

Lemma became_string r k v :
  reader_ok r -> u_info r !! k = None -> is_Some (s_entries r !! k) -> became r [(k, v)] (set_string k v r).
Proof.
  intros H Hi [old Ho]. assert (u_entries r !! k = None) as Hu.
  { apply eq_None_not_Some. rewrite (rk_info r H), Hi. by apply is_Some_None. }
  split; [split; [apply (rk_info r H)|apply (rk_range r H)| |apply (rk_trace r H)]|split; [done|]| |]; cbn [set_string u_entries u_info s_entries]; intros k0.
  - intros Hs. rewrite lookup_insert_ne; [by apply (rk_apart r H)|]. intros <-. rewrite Hu in Hs. by destruct Hs.
  - rewrite lookup_insert_is_Some'. split; [intros [<-|?]; [by rewrite Ho|done]|by right].
  - destruct (u_entries r !! k0) eqn:Eu; [|done]. cbn. f_equal. rewrite unsigned_after_other; [done|]. intros <-. congruence.
  - destruct (decide (k = k0)) as [<-|]; [rewrite lookup_insert_eq, Ho|rewrite lookup_insert_ne by done].
    + unfold string_after, string_setting. cbn. by rewrite bool_decide_eq_true_2.
    + destruct (s_entries r !! k0); cbn; [|done]. by rewrite string_after_other.
Qed.

Lemma parseLine_became r k v : reader_ok r -> exists r', parseLine k v r = Ok (accepted r (k, v), r') /\ became r [(k, v)] r'.
Proof.
  intros H. unfold parseLine. destruct (u_entries r !! k) as [old|] eqn:Eu.
  - assert (is_Some (u_info r !! k)) as [vals Hi] by (apply (rk_info r H); by rewrite Eu). rewrite Hi.
    assert (accepted r (k, v) = match scan_unsigned v with Some uv => in_range vals uv | None => false end) as Ea.
    { unfold accepted, unsigned_setting. cbn [fst snd]. rewrite Hi, (bool_decide_eq_true_2 (k = k)) by done.
      destruct (scan_unsigned v) as [uv|]; cbn; [|done]. by destruct (in_range vals uv). }
    destruct (scan_unsigned v) as [uv|] eqn:Es; [|exists r; rewrite Ea; split; [done|]; by apply became_rejected].
    assert ((uv <? minv vals) || (maxv vals <? uv) = negb (in_range vals uv)) as ->.
    { unfold in_range. by rewrite negb_andb, <- !Z.ltb_antisym. }
    destruct (in_range vals uv) eqn:Er; cbn [negb]; [|exists r; rewrite Ea; split; [done|]; by apply became_rejected].
    destruct (became_unsigned r k v vals uv false H Hi Es Er) as [Hb _ _ _].
    unfold getUnsignedValue. destruct (rk_trace _ Hb) as [t Ht]. change (u_entries (set_unsigned k uv r) !! trace_key = Some t) in Ht.
    fold trace_key. rewrite Ht. cbn [mbind res_bind]. eexists. rewrite Ea. split; [done|]. by apply (became_unsigned r k v vals).
  - assert (u_info r !! k = None) as Hi. { apply eq_None_not_Some. rewrite <- (rk_info r H), Eu. by apply is_Some_None. }
    destruct (s_entries r !! k) as [old|] eqn:Es.
    + eexists. assert (accepted r (k, v) = true) as -> by (unfold accepted; cbn [fst]; rewrite Hi, Es; by apply bool_decide_eq_true_2).
      split; [done|]. apply became_string; [done|done|by rewrite Es].
    + assert (accepted r (k, v) = false) as Ea by (unfold accepted; cbn [fst]; rewrite Hi, Es; by apply bool_decide_eq_false_2; intros []).
      exists r. rewrite Ea. split; [done|]. by apply became_rejected.
Qed.

Lemma read_line_became r line :
  reader_ok r -> exists r', read_line line r = Ok (line_fine r line, r') /\ became r (assignments [line]) r'.
Proof.
  intros H. unfold read_line, line_fine, assignments. cbn [omap list_omap]. unfold line_assignment.
  destruct (bool_decide (head line = Some 35)); cbn [orb]; [exists r; split; [done|by apply became_nil]|].
  destruct (isblank (c_str line)); [exists r; split; [done|by apply became_nil]|].
  destruct (split_assignment line) as [[k v]|]; cbn [mbind option_bind].
  - by apply parseLine_became.
  - exists r. split; [done|by apply became_nil].
Qed.

(** * A new reader *)

#[export] Instance values_eq_dec : EqDecision values.
Proof. solve_decision. Defined.

(** The ranges of the settings that [FillConfig] takes as numbers, and the
    other keys. *)
Definition ranges : list (bytes * values) :=
  [(str "collection_interval", Values 0 UINT32_MAX); (str "use_fixed_seed", Values 0 UINT32_MAX);
   (str "main_loop_iterations", Values 0 UINT32_MAX); (str "sampling_period", Values 0 UINT32_MAX);
   (str "sampling_frequency", Values 0 UINT32_MAX); (str "sample_duration", Values 1 600);
   (str "hardwire_cpus_max_duration", Values 1 UINT32_MAX); (str "max_unprocessed_profiles", Values 1 UINT32_MAX);
   (str "process", Values 0 UINT32_MAX)].
Definition switches : list bytes :=
  str <$> ["only_debug_build"; "hardwire_cpus"; "stack_profile"; "trace_config_read"; "collect_cpu_utilization"; "collect_charging_state";
           "collect_booting"; "collect_camera_active"; "use_elf_symbolizer"; "compress"; "dropbox"]%string.
Definition strings : list bytes := str <$> ["destination_directory"; "config_directory"; "perf_path"]%string.

(** The invariant and the table of a reader, as a test. *)
Definition reader_check (r : ConfigReader) : bool :=
  forallb (fun p => bool_decide (is_Some (u_entries r !! p.1))) (map_to_list (u_info r)) &&
  forallb (fun p => match u_info r !! p.1 with Some vals => in_range vals p.2 | None => false end) (map_to_list (u_entries r)) &&
  forallb (fun p => bool_decide (s_entries r !! p.1 = None)) (map_to_list (u_entries r)) &&
  forallb (fun p => bool_decide (u_info r !! p.1 = Some p.2)) ranges &&
  forallb (fun k => bool_decide (u_info r !! k = Some (Values 0 1))) switches &&
  forallb (fun k => bool_decide (is_Some (s_entries r !! k))) strings.

Record new_table (r : ConfigReader) : Prop := {
  nt_ok : reader_ok r;
  nt_ranges : forall k vals, (k, vals) ∈ ranges -> u_info r !! k = Some vals;
  nt_switches : forall k, k ∈ switches -> u_info r !! k = Some (Values 0 1);
  nt_strings : forall k, k ∈ strings -> is_Some (s_entries r !! k);
}.

Lemma forallb_elem {A} (f : A -> bool) l x : forallb f l = true -> x ∈ l -> f x = true.
Proof. rewrite forallb_forall. intros H Hx. apply H. by apply list_elem_of_In. Qed.

Lemma reader_check_ok r : reader_check r = true -> new_table r.
Proof.
  unfold reader_check. rewrite !andb_true_iff. intros (((((H1 & H2) & H3) & H4) & H5) & H6).
  pose proof (fun x => forallb_elem _ _ x H1) as K1. pose proof (fun x => forallb_elem _ _ x H2) as K2. pose proof (fun x => forallb_elem _ _ x H3) as K3.
  clear H1 H2 H3. assert (forall k vals, (k, vals) ∈ ranges -> u_info r !! k = Some vals) as K4.
  { intros k vals Hk. by apply (forallb_elem _ _ (k, vals) H4), bool_decide_eq_true in Hk. }
  assert (forall k, k ∈ switches -> u_info r !! k = Some (Values 0 1)) as K5.
  { intros k Hk. by apply (forallb_elem _ _ k H5), bool_decide_eq_true in Hk. }
  assert (forall k vals, u_info r !! k = Some vals -> is_Some (u_entries r !! k)) as KE.
  { intros k vals Hk. apply elem_of_map_to_list in Hk. by apply K1, bool_decide_eq_true in Hk. }
  split; [split|done|done|].
  - intros k. split; [intros [v Hv]|intros [vals Hv]; by eapply KE].
    apply elem_of_map_to_list in Hv. apply K2 in Hv. cbn in Hv. by destruct (u_info r !! k).
  - intros k v vals Hv Hi. apply elem_of_map_to_list in Hv. apply K2 in Hv. cbn in Hv. by rewrite Hi in Hv.
  - intros k [v Hv]. apply elem_of_map_to_list in Hv. by apply K3, bool_decide_eq_true in Hv.
  - eapply KE, K5. unfold switches, trace_key. apply list_elem_of_fmap. eexists. split; [reflexivity|]. by do 4 constructor.
  - intros k Hk. by apply (forallb_elem _ _ k H6), bool_decide_eq_true in Hk.
Qed.

Lemma ConfigReader_new_Ok : exists r, ConfigReader_new = Ok r /\ new_table r.
Proof.
  assert (match ConfigReader_new with Ok r => reader_check r | _ => false end = true) as H by (vm_compute; reflexivity).
  destruct ConfigReader_new as [r| |]; [|done|done]. exists r. split; [done|by apply reader_check_ok].
Qed.

(** * Reading a text *)

Lemma assignments_cons line lines : assignments (line :: lines) = assignments [line] ++ assignments lines.
Proof. unfold assignments. change (line :: lines) with ([line] ++ lines). apply omap_app. Qed.

Lemma read_lines_became lines : forall r, reader_ok r -> exists r', read_lines lines false r = Ok (true, r') /\ became r (assignments lines) r'.
Proof.
  induction lines as [|line lines IH]; intros r H; cbn [read_lines]; [exists r; split; [done|by apply became_nil]|].
  destruct (read_line_became r line H) as (r1 & -> & B1). cbn [mbind res_bind andb].
  destruct (IH r1) as (r2 & E2 & B2); [by apply B1|]. exists r2. split; [done|]. rewrite assignments_cons. by eapply became_app.
Qed.

(** The lines before the first one that is not fine. *)
Fixpoint fine_lines (r : ConfigReader) (lines : list bytes) : list bytes :=
  match lines with [] => [] | line :: lines => if line_fine r line then line :: fine_lines r lines else [] end.

Lemma fine_lines_same r r' lines : same_table r r' -> fine_lines r' lines = fine_lines r lines.
Proof. intros H. induction lines as [|line lines IH]; cbn; [done|]. by rewrite (line_fine_same r), IH. Qed.

Lemma rejected_line r line r' : read_line line r = Ok (false, r') -> r' = r.
Proof.
  unfold read_line. destruct (bool_decide _); [by intros [=]|]. destruct (isblank _); [by intros [=]|].
  destruct (split_assignment line) as [[k v]|]; [|by intros [=]]. unfold parseLine. destruct (u_entries r !! c_str k).
  - destruct (scan_unsigned _); [|by intros [=]]. destruct (u_info r !! c_str k); [|done]. destruct (_ || _); [by intros [=]|].
    destruct (getUnsignedValue _ _); cbn; by intros [=].
  - destruct (s_entries r !! c_str k); by intros [=].
Qed.

Lemma line_fine_all r r' lines : same_table r r' -> forallb (line_fine r') lines = forallb (line_fine r) lines.
Proof. intros H. induction lines as [|line lines IH]; cbn; [done|]. by rewrite (line_fine_same r), IH. Qed.

Lemma read_lines_stops lines : forall r, reader_ok r ->
  exists r', read_lines lines true r = Ok (forallb (line_fine r) lines, r') /\
    read_lines (fine_lines r lines) false r = Ok (true, r') /\ became r (assignments (fine_lines r lines)) r'.
Proof.
  induction lines as [|line lines IH]; intros r H; cbn [read_lines forallb fine_lines]; [exists r; split_and!; [done|done|by apply became_nil]|].
  destruct (read_line_became r line H) as (r1 & E1 & B1). rewrite E1. cbn [mbind res_bind].
  destruct (line_fine r line) eqn:Ef; cbn [andb negb].
  - destruct (IH r1) as (r2 & E2 & E3 & B2); [by apply B1|]. exists r2.
    rewrite (fine_lines_same r r1), ?(line_fine_all r r1) in * by apply B1. split_and!; [done| |].
    + cbn [read_lines]. rewrite E1. done.
    + rewrite assignments_cons. by eapply became_app.
  - exists r. apply rejected_line in E1 as ->. split_and!; [done|done|by apply became_nil].
Qed.

(** Reading a configuration never fails, whatever the text is.  Afterwards a
    setting has the value of the last assignment to its key that is well formed
    and in its range, and the value it had before when there is none; comments,
    empty lines, malformed lines and unknown keys have no effect. *)
Theorem Read_last_wins r content :
  reader_ok r ->
  exists r', Read content false r = Ok (true, r') /\ reader_ok r' /\ u_info r' = u_info r /\
    (forall k, u_entries r' !! k = unsigned_after r (assignments (lines_of content)) k <$> u_entries r !! k) /\
    (forall k, s_entries r' !! k = string_after (assignments (lines_of content)) k <$> s_entries r !! k).
Proof.
  intros H. destruct (read_lines_became (lines_of content) r H) as (r' & E & [B1 [B2 _] B3 B4]). exists r'. done.
Qed.

Definition sample_text : bytes :=
  mjoin ((fun l => str l ++ [10]) <$> ["# comment"; "sample_duration=5x"; "sample_duration=0"; ""; "perf_path=/bin/perf"; "nonsense"; "process=7"]%string).

Lemma Read_last_wins_witness :
  exists r0 r, ConfigReader_new = Ok r0 /\ Read sample_text false r0 = Ok (true, r) /\
    (forall k, u_entries r !! k = unsigned_after r0 (assignments (lines_of sample_text)) k <$> u_entries r0 !! k).
Proof.
  destruct ConfigReader_new_Ok as (r0 & E0 & Ht). exists r0.
  destruct (Read_last_wins r0 sample_text (nt_ok r0 Ht)) as (r & E & _ & _ & Hu & _). exists r. split; [exact E0|]. split; [exact E|exact Hu].
Defined.

(** What the sample sets. *)
Example sample_set :
  match r ← ConfigReader_new; Read sample_text false r with
  | Ok (_, r) => bool_decide (u_entries r !! str "sample_duration" = Some 5) && bool_decide (s_entries r !! str "perf_path" = Some (str "/bin/perf"))
  | _ => false
  end = true.
Proof. vm_compute. reflexivity. Qed.

(** With [fail_on_error], [Read] returns whether all lines are fine; when they are
    not, it has read the lines before the first that is not. *)
Theorem Read_fail_on_error r content :
  reader_ok r ->
  exists r', Read content true r = Ok (forallb (line_fine r) (lines_of content), r') /\
    read_lines (fine_lines r (lines_of content)) false r = Ok (true, r').
Proof. intros H. destruct (read_lines_stops (lines_of content) r H) as (r' & E & E' & _). eauto. Qed.

(** * The configuration *)



Section configuration.
Context (r0 : ConfigReader) (Hnew : new_table r0).







End configuration.



(** ** A number beyond 32 bits *)

(** The range is checked after the number is cut to 32 bits: 2^32 + 7 is taken
    for a duration of 7 seconds. *)
Lemma number_wraps :
  match r ← ConfigReader_new; Read (str "sample_duration=4294967303") true r with
  | Ok (ok, r) => ok && bool_decide (u_entries r !! str "sample_duration" = Some 7)
  | _ => false
  end = true.
Proof. vm_compute. reflexivity. Qed.
